(* ===== verification/_CoqProject ===== *)
-Q . S2P
Prelude.v
BitField.v
Result.v
HandleTable.v
Ipc.v
IntervalSet.v
Memory.v
MemoryFacts.v
MemoryExamples.v
MemoryRegion.v
VmManager.v
VmFacts.v
VmCorrect.v
VmExamples.v
ResourceLimit.v
Process.v
SharedMemory.v
ProcessFacts.v
HeapFacts.v
SvcMemory.v
SvcFacts.v
ProcessExamples.v
IpcTranslate.v
IpcTransfer.v
IpcHandles.v
IpcExamples.v
ThreadQueueList.v
CoreTiming.v
KernelState.v
Sync.v
WaitFacts.v
ObjectFacts.v
Scheduler.v
SchedFacts.v
FloatSpec.v
VfpHelper.v
ArmSupp.v
ArmState.v
ArmOps.v
ArmTrans.v
ArmDec.v
Thumb.v
ArmInst.v
ArmMedia.v
ArmMem.v
Vfp.v
VfpRound.v
VfpSingle.v
VfpDouble.v
VfpArith.v
VfpInstr.v
Interp.v
DynCom.v
ArmTyped.v
VfpTyped.v
InterpTyped.v
ArmRef.v
ArmDecFacts.v
ArmStack.v
MemoryBus.v
InterpLoop.v
Cheats.v
CheatFacts.v
CheatFile.v
CheatExamples.v
Patch.v
Lzss.v
PatchExamples.v
Audio.v
RingBuffer.v
Color.v
Float32.v
Texture.v
Framebuffer.v
Fragment.v
GraphicsExamples.v
Raster.v
Clip.v
Blitter.v
