(* ===== verification/Prelude.v ===== *)
(** The core of the Citra VR emulator, a 3DS emulator in C++ ([src/src/]):
    a model of its instruction interpreter, floating-point unit, memory system,
    kernel and software renderer, and proofs of what they promise.

    * What the program is

    The emulator runs the programs of a console with several ARM11 cores.  An
    instruction set interpreter executes the code of the current thread of a
    core against a VFP unit and a memory system; supervisor calls enter a
    high-level emulation of the console's kernel, which keeps threads, objects
    that threads wait for, handles, processes with address spaces, and
    inter-process communication; each core has a timer with a queue of events
    that ends the core's slices.  Around this core lie the emulated services, the
    graphics and audio units, and front ends for several hosts.

    * Files and the code they model

    Every definition that models code is preceded by a comment that starts with
    [src:] and names the lines; paths below are relative to [src/src/].

    Foundations.
    - [Prelude]: machine integers ([uwrap], [swrap]: C++'s conversions), the
      loop combinator, record updates, tactics and the hint database of bounds.
    - [BitField]: [common/bit_field.h].
    - [Result]: [core/hle/result.h], [core/hle/kernel/errors.h].

    Memory, from the host's bytes to the processes.
    - [Memory]: [core/memory.h], [core/memory.cpp], [common/memory_ref.h],
      [common/atomic_ops.h]; page tables, single and block accesses, pages the
      rasterizer has cached.  [MemoryFacts], [MemoryExamples].
    - [VmManager]: [core/hle/kernel/vm_manager.h] and [.cpp]; the areas of an
      address space, carved and merged.  [VmFacts], [VmCorrect], [VmExamples].
    - [IntervalSet]: the interface of [boost::icl::interval_set];
      [MemoryRegion]: [core/hle/kernel/memory.h] and [memory.cpp].
    - [ResourceLimit]: [core/hle/kernel/resource_limit.h] and [.cpp].
    - [Process]: [core/hle/kernel/process.h] and [process.cpp]; [SharedMemory]:
      [shared_memory.h] and [.cpp].  [ProcessFacts] and [HeapFacts] are about
      the heap and second mappings, [ProcessExamples] has a kernel
      with one process.
    - [HandleTable]: [core/hle/kernel/handle_table.h] and [.cpp].
    - [SvcMemory]: the calls of [kernel/svc.cpp] over memory, shared memory,
      limits and information, on handles and processes.  [SvcFacts],
      [ProcessExamples].
    - [Ipc]: [core/hle/ipc.h], [ipc_helpers.h], [kernel/hle_ipc.cpp].
      [IpcTranslate]: [kernel/ipc.cpp], messages between two emulated processes.
      [IpcTransfer] is about their mapped buffers, [IpcHandles] about their handles;
      [IpcExamples].

    Threads and time.
    - [ThreadQueueList]: [common/thread_queue_list.h], the ready queue.
    - [CoreTiming]: [core/core_timing.h] and [.cpp].
    - [KernelState], [Sync]: threads, [wait_object], [mutex], [semaphore],
      [event], [timer], and the waitable sides of sessions and ports.
      [WaitFacts], [ObjectFacts].
    - [Scheduler]: [ThreadManager] of [kernel/thread.cpp], [address_arbiter.cpp]
      and the waiting calls of [svc.cpp].  [SchedFacts].

    Cheats ([core/cheats/]).
    - [Cheats]: the interpreter of [gateway_cheat.cpp]; [CheatFacts].
    - [CheatFile]: lines, files and the list of cheats, of [gateway_cheat.cpp] and
      [cheats.cpp].  [CheatExamples] has the memories they run on.

    Files and sound.
    - [Patch]: [core/file_sys/patch.cpp], IPS and BPS patches; [Lzss]: the
      decompression of [ncch_container.cpp].  [PatchExamples].
    - [Audio]: [audio_core/codec.cpp], [interpolate.cpp], [hle/filter.cpp].
    - [RingBuffer]: [common/ring_buffer.h], whole calls and the steps that a
      producer and a consumer interleave.

    Graphics.  Paths are relative to [video_core/].
    - [Color]: [common/color.h] and the tiles of [utils.h].  [Float32]: single
      precision by the standard library's [SpecFloat], and [pica_types.h].
    - [Texture]: [texture/etc1.cpp], [texture/texture_decode.cpp] and the copies of
      [rasterizer_cache/texture_codec.h].
    - [renderer_software/]: [Clip] takes a triangle through [AddTriangle] to its
      pixels and their depths, with [Raster] for the loops and the fill rule of
      [ProcessTriangle]; [Fragment] has the combiners and what happens to one
      pixel, [Framebuffer] its bytes, [Blitter] fills, copies and transfers.
      [GraphicsExamples].

    Processor.  Paths are relative to [core/arm/]; the interpreter's two big
    files are split by what the parts do.
    - [ArmState]: [skyeye_common/armstate.h] and [.cpp]; [Vfp] to [VfpDouble]:
      [skyeye_common/vfp/].  [FloatSpec] is a definition of IEEE 754 rounding that
      does not follow the code; [VfpRound] and [VfpArith] prove the code against
      it.
    - [ArmSupp]: [skyeye_common/armsupp.cpp].  [ArmDec]: [dyncom/arm_dyncom_dec.cpp],
      the table of ARM encodings.  [Thumb]: [dyncom/arm_dyncom_thumb.cpp].
    - [ArmTrans]: [dyncom/arm_dyncom_trans.h] and [.cpp], from words to buffered
      instructions.
    - [dyncom/arm_dyncom_interpreter.cpp]: [ArmOps] has conditions, shifter operands
      and addressing modes, [ArmInst] the labels of data processing, branches,
      status and coprocessor, [ArmMedia] multiplication and the media
      instructions, [ArmMem] loads and stores (with the memory wrappers of
      [armstate.cpp]), [VfpInstr] those of [vfpinstr.cpp], and [Interp] the
      translation of blocks and the loop itself.
    - [DynCom]: [dyncom/arm_dyncom.cpp], the processor as the core sees it.
    - [ArmTyped], [VfpTyped], [InterpTyped]: what every
      label keeps, and what it leaves of the instructions to execute.
      [InterpLoop] puts them together.  [ArmRef] is the manual's account of
      shifter operands, sums and flags; [ArmDecFacts] decodes words of which some
      bits are known, and with [ArmStack] is about whole instructions.
      [MemoryBus] runs the interpreter on the memory system; [InterpLoop] does
      so with a program.

    * How the model corresponds to the code

    Integers are [Z], wrapped where the code converts or overflows.  State is
    passed explicitly and records have the fields of the classes.  A failed
    assertion, a null pointer that is followed, an index out of range and
    [UNREACHABLE] are [None]; error codes are values of [Result].  Pointers to
    shared objects are numbers that index a store (threads, objects, processes,
    limits, page tables); the host's memory is a store of bytes, so two mappings
    of the same block alias as they do in the code.  [std::map] iterators are
    the keys they point to.

    In the interpreter, a label of the loop is a function from the machine to the
    jump it ends with ([Next] with the size of the buffered instruction, dispatch,
    or the end); [InstLabel] is the table of computed gotos in its order, so that
    the index of an encoding, of a translator and of a label are the same number,
    as in the code.  Members of a buffered instruction that a translator does not
    set are 0.  Shifts of 32-bit values are taken modulo 32 where C++ leaves them
    undefined.  The buffer maps offsets to instructions and is shared, as are the
    offsets cached per core.

    Interfaces are type classes: [CheatSystem] with [CheatRam] (what cheats use of
    the system; instances [host_ram] on the memory system and [flat_ram]), [GPU] (the rasterizer's cache flushes and the
    registers of the graphics unit; theorems that need it assume [QuietGPU], that a
    flush leaves the bytes alone), [IntervalSet] with [IntervalSetLaws]
    ([boost::icl::interval_set]), and between the interpreter and the rest of the
    core [Bus] (reads and writes of guest memory) and [Kernel] (time and supervisor
    calls), with [BusLaws] and [KernelLaws] for what they keep and [WordRam] for
    memory that holds what is stored.  All have instances ([quiet_gpu],
    [IntervalList], [memory_bus], [memory_laws], [memory_ram], [demo_kernel]) on
    which the theorems are applied; those of [Bus] and [WordRam] are the modelled
    memory system.

    * What the theorems show

    - Memory: a block copied, written or read is the bytes behind its addresses
      in order, across page ends and page kinds; a single access is the block
      access of its size.
    - Address spaces: the areas tile the space and the page table shows them
      ([vm_ok]); each operation is a pointwise change of the map from addresses
      to attributes ([view]), on exactly the range, or an error.
    - Regions and the heap: what is handed out is free before and exactly as
      much as asked for; allocating and freeing undo each other through region,
      address space, bytes and accounts ([heap_ok]); initialisation lays the
      regions out to fill the memory.
    - Aliases: a second mapping shows the same host memory; unmapping undoes it.
    - Supervisor calls: which requests over memory are refused, with which error
      and without an effect ([ControlMemory_errors]); what a query answers is the
      maximal run of addresses that look alike.
    - Handles refine a partial map; resource accounts stay within limits.
    - Messages: what is pushed is popped; descriptors decode to what encoded
      them; translation for a service is the per-descriptor specification.  Between
      processes a mapped buffer shows the sender's bytes to the receiver and comes
      back with the reply ([mapped_buffer_returns]); handles become new handles for
      the same objects ([message_handles]).
    - The ready queue refines a stable priority queue; scheduling picks the
      first schedulable ready thread that beats the running one.
    - Waking: the loop ends, wakes the most urgent thread first, and each once;
      mutexes have one holder; semaphores stay within their bounds.
    - Time: conversions are bounded; [Advance] serves due events in order and
      ends the slice by the next one.
    - Processor: data-processing words do from decoder to label what the manual says
      of their fields ([data_processing_correct]); conditions after a comparison
      order the operands; push and pop of a frame undo each other over memory.
      Every label keeps the machine well typed, so the main loop does
      ([InterpreterMainLoop_typed]), and it ends with a bounded number of
      instructions ([InterpreterMainLoop_terminates]).
    - Cheats: a cheat ends ([Execute_terminates]); a patch writes exactly its bytes;
      what is saved is loaded again ([Save_Load]).
    - Patches and compressed files: a file made of commands, records or tokens
      builds the data they describe ([ApplyBpsPatch_correct],
      [LZSS_Decompress_tokens]), and decompression stays in its buffers.
    - Sound: ADPCM is the recurrence of its filter; resampling in parts is
      resampling the whole.  The ring buffer is a queue under every interleaving
      ([ring_fifo]).
    - Textures: the two decoders agree, and encoding undoes decoding.
    - Triangles: exactly the centers inside of the edges are drawn, each once
      ([ProcessTriangle_exact]); a shared edge belongs to one side
      ([shared_edge_once]); the pixels of a triangle can be drawn in any order, as
      its threads do ([pixels_in_any_order]).
    - Transfers put each pixel or byte at its place and nothing else
      ([DisplayTransfer_correct], [TextureCopy_correct]).
    - VFP: single-precision addition, subtraction and multiplication are exact
      results rounded once, with their exceptions.

    * Fuel and bounds

    Each loop that is not structural has fuel and a theorem that the fuel is
    enough: [wake_all] one turn per waiting thread, [pop_first] the length of
    the queue, [Advance] the number of queued events, [get_first] the number of
    levels, [over_range] and [backing_blocks] the number of areas, [block_fuel]
    two more turns than the block has pages, [set_svcs] the 24 bits of an entry.
    [loop n] is 2^n turns of a loop: the translation of a block has [n = 11], as a
    page has at most 2^11 instructions; the main loop has [n = 34], two jumps for
    each of fewer than 2^32 instructions and one more; a cheat has [n = 128], more
    than the product of its lines squared and 2^32 rounds; a texture copy has
    [n = 29], as a turn copies sixteen of fewer than 2^32 bytes.  A loop over
    centers has one turn more than there are centers in sixteen bits.

    * What is not modelled

    The recompiler (glue to a submodule), the Android build's differences, the
    debugger's server (the interpreter has no breakpoints), emulated services, the
    rest of file systems and loaders (host files and cryptography; the checksum of a
    patch is a parameter), the hardware renderers, the audio sinks and the front ends
    (glue to OpenGL, Vulkan, OpenXR and host devices), save states (Boost
    serialisation) and logging.  Of the graphics: command lists, vertex loading,
    shaders, the sampling of textures, interpolated colours, lighting, procedural
    textures, shadow maps and the cache of surfaces.  Of the sound: sources and
    mixers.  Of the modelled files: floating-point conversions of [core_timing.h],
    the plugin loader of [process.cpp], tracing.

    * Plan

    Next: the interpreter of shaders, whose instruction formats are in a submodule,
    and the vertices it is fed; command lists; the requests of sessions and ports;
    the creation of threads; further containers of [common/]. *)

From Stdlib Require Export ZArith Lia Bool.
From stdpp Require Export base numbers list option functions gmap.
From coqutil Require Export Datatypes.RecordSetters Z.bitblast.
Export TriangleBracketNotations.
#[global] Unset Program Cases.
#[export] Set Default Goal Selector "1".

Declare Scope cint_scope.
Delimit Scope cint_scope with cint.
#[global] Open Scope Z_scope.

#[global] Arguments constant {E} newValue _ /.

(** * Machine integers

    A w-bit unsigned integer is a [Z] in [0, 2^w); every C expression that
    can leave the range is wrapped where the code wraps it. *)

Definition uwrap (w x : Z) : Z := x mod 2 ^ w.
Definition swrap (w x : Z) : Z := (x + 2 ^ (w - 1)) mod 2 ^ w - 2 ^ (w - 1).

Abbreviation u8 := (uwrap 8).
Abbreviation u16 := (uwrap 16).
Abbreviation u32 := (uwrap 32).
Abbreviation u64 := (uwrap 64).
Abbreviation s8 := (swrap 8).
Abbreviation s16 := (swrap 16).
Abbreviation s32 := (swrap 32).
Abbreviation s64 := (swrap 64).

(** C's conversion of an integer to [bool]. *)
Definition nz (x : Z) : bool := negb (x =? 0).

Notation "x .& y" := (Z.land x y) (at level 40, left associativity) : cint_scope.
Notation "x .^ y" := (Z.lxor x y) (at level 45, left associativity) : cint_scope.
Notation "x .| y" := (Z.lor x y) (at level 50, left associativity) : cint_scope.
#[global] Open Scope cint_scope.

(** [~x] on [w] bits. *)
Definition unot (w x : Z) : Z := uwrap w (Z.lnot x).

Definition in_range (w x : Z) : Prop := 0 <= x < 2 ^ w.
Definition in_srange (w x : Z) : Prop := - 2 ^ (w - 1) <= x < 2 ^ (w - 1).

(** * Loops

    [loop n f s] runs the body [f] at most 2^n times: [inl] asks for another
    iteration, [inr] leaves the loop.  A result [inl] is a loop that is still
    running after 2^n iterations. *)

Fixpoint loop {S R : Type} (n : nat) (f : S -> S + R) (s : S) : S + R :=
  match n with
  | O => f s
  | Datatypes.S n => match loop n f s with inl s => loop n f s | inr r => inr r end
  end.

Definition loop_result {S R : Type} (x : S + R) : option R :=
  match x with inl _ => None | inr r => Some r end.

Section loop.
Context {S R : Type} (f : S -> S + R) (I : S -> Prop) (Q : R -> Prop) (m : S -> Z).
Context (step : ∀ s, I s ->
  match f s with inl s' => I s' ∧ 0 <= m s' < m s | inr r => Q r end).

Lemma loop_progress n s :
  I s -> 0 <= m s ->
  match loop n f s with
  | inl s' => I s' ∧ 0 <= m s' <= m s - 2 ^ Z.of_nat n
  | inr r => Q r
  end.
Proof.
  revert s. induction n as [|n IH]; intros s Is Hm; simpl loop.
  - specialize (step s Is). destruct (f s); [|done]. change (2 ^ Z.of_nat 0) with 1.
    split; [tauto|lia].
  - pose proof (IH s Is Hm) as H1. destruct (loop n f s) as [s1|]; [|done].
    destruct H1 as [I1 B1].
    assert (0 < 2 ^ Z.of_nat n) by (apply Z.pow_pos_nonneg; lia).
    pose proof (IH s1 I1 ltac:(lia)) as H2. destruct (loop n f s1) as [s2|]; [|done].
    split; [tauto|]. rewrite Nat2Z.inj_succ, Z.pow_succ_r by lia. lia.
Qed.

(** Total correctness: a measure below 2^n suffices. *)
Lemma loop_total n s :
  I s -> 0 <= m s < 2 ^ Z.of_nat n -> ∃ r, loop n f s = inr r ∧ Q r.
Proof.
  intros Is Hm. pose proof (loop_progress n s Is ltac:(lia)) as H.
  destruct (loop n f s) as [s'|r]; [lia|eauto].
Qed.
End loop.

(** An invariant of the body, whether or not the loop ends. *)
Lemma loop_keeps {S R : Type} (f : S -> S + R) (I : S -> Prop) (Q : R -> Prop) n s :
  (∀ s, I s -> match f s with inl s' => I s' | inr r => Q r end) ->
  I s -> match loop n f s with inl s' => I s' | inr r => Q r end.
Proof.
  intros Hf. revert s. induction n as [|n IH]; intros s Is; [by apply Hf|]. simpl.
  specialize (IH s Is) as H. destruct (loop n f s) as [s1|]; [by apply IH|done].
Qed.

(** * Automation *)

(** Ranges of machine integers, non-negativity and lengths: the side conditions
    of the lemmas on words and bytes. *)
Create HintDb words.
Create Rewrite HintDb words.

Ltac is_zcst n :=
  lazymatch n with
  | Z0 => idtac
  | Zpos ?p => is_pcst p
  | Zneg ?p => is_pcst p
  end
with is_pcst p :=
  lazymatch p with
  | xH => idtac
  | xO ?p => is_pcst p
  | xI ?p => is_pcst p
  end.

(** Evaluate the powers of two with a literal exponent. *)
Ltac pow2 :=
  repeat match goal with
  | |- context [Z.pow 2 ?n] =>
      is_zcst n; let v := eval vm_compute in (2 ^ n) in change (2 ^ n) with v
  | H : context [Z.pow 2 ?n] |- _ =>
      is_zcst n; let v := eval vm_compute in (2 ^ n) in change (2 ^ n) with v in H
  end.

(** Linear arithmetic over divisions and remainders by literals. *)
Ltac modlia := pow2; Z.div_mod_to_equations; lia.

(** Case analysis on every comparison of the goal or a hypothesis. *)
Ltac zcases :=
  repeat match goal with
  | |- context [Z.eqb ?a ?b] => destruct (Z.eqb_spec a b)
  | |- context [Z.ltb ?a ?b] => destruct (Z.ltb_spec a b)
  | |- context [Z.leb ?a ?b] => destruct (Z.leb_spec a b)
  end.

(** A decidable proposition, by evaluation. *)
Ltac by_decide := apply (bool_decide_unpack _); vm_compute; exact I.

(** * Lemmas on machine integers *)

Lemma uwrap_range w x : 0 <= w -> in_range w (uwrap w x).
Proof. intros. apply Z.mod_pos_bound. by apply Z.pow_pos_nonneg. Qed.

Lemma uwrap_id w x : in_range w x -> uwrap w x = x.
Proof. apply Z.mod_small. Qed.

Lemma uwrap_idemp w x : 0 <= w -> uwrap w (uwrap w x) = uwrap w x.
Proof. intros. apply uwrap_id. by apply uwrap_range. Qed.

Lemma swrap_range w x : 0 < w -> in_srange w (swrap w x).
Proof.
  intros. unfold in_srange, swrap.
  pose proof (Z.mod_pos_bound (x + 2 ^ (w - 1)) (2 ^ w) (Z.pow_pos_nonneg 2 w ltac:(lia) ltac:(lia))).
  replace (2 ^ w) with (2 * 2 ^ (w - 1)) in * by (rewrite <- Z.pow_succ_r by lia; f_equal; lia).
  lia.
Qed.

Lemma swrap_id w x : 0 < w -> in_srange w x -> swrap w x = x.
Proof.
  intros ? [??]. unfold swrap. rewrite Z.mod_small; [lia|].
  replace (2 ^ w) with (2 * 2 ^ (w - 1)) by (rewrite <- Z.pow_succ_r by lia; f_equal; lia).
  lia.
Qed.

Lemma uwrap_swrap w x : 0 < w -> uwrap w (swrap w x) = uwrap w x.
Proof.
  intros. unfold uwrap, swrap. rewrite Zminus_mod_idemp_l. f_equal. lia.
Qed.

Lemma swrap_uwrap w x : 0 < w -> swrap w (uwrap w x) = swrap w x.
Proof. intros. unfold uwrap, swrap. by rewrite Zplus_mod_idemp_l. Qed.

Lemma nz_spec x : nz x = true <-> x <> 0.
Proof. unfold nz. destruct (Z.eqb_spec x 0); simpl; intuition congruence. Qed.

Lemma nz_false x : nz x = false <-> x = 0.
Proof. unfold nz. destruct (Z.eqb_spec x 0); simpl; intuition congruence. Qed.

Lemma shiftr_div x n : 0 <= n -> x ≫ n = x / 2 ^ n.
Proof. apply Z.shiftr_div_pow2. Qed.

Lemma shiftl_mul x n : 0 <= n -> x ≪ n = x * 2 ^ n.
Proof. apply Z.shiftl_mul_pow2. Qed.

(** Masking with [2^k - 1]. *)
Lemma land_mask x k : 0 <= k -> x .& (2 ^ k - 1) = x mod 2 ^ k.
Proof. intros. rewrite <- Z.land_ones by done. f_equal. rewrite Z.ones_equiv. lia. Qed.

(** Combining fields that do not overlap. *)
(** The bits from [k] up. *)
Lemma land_high w k x : 0 <= k <= w -> in_range w x -> x .& ((2 ^ (w - k) - 1) * 2 ^ k) = 2 ^ k * (x / 2 ^ k).
Proof.
  intros Hk Hx. rewrite <- (shiftl_mul _ k) by lia. replace (2 ^ (w - k) - 1) with (Z.ones (w - k)) by (rewrite Z.ones_equiv; lia).
  rewrite Z.mul_comm, <- shiftl_mul, <- shiftr_div by lia. apply Z.bits_inj'. intros i Hi. rewrite Z.land_spec, !Z.shiftl_spec by done.
  destruct (Z.lt_ge_cases i k); [rewrite !(Z.testbit_neg_r _ (i - k)) by lia; apply andb_false_r|].
  rewrite Z.shiftr_spec by lia. replace (i - k + k) with i by lia. destruct (Z.lt_ge_cases i w).
  - rewrite Z.ones_spec_low by lia. apply andb_true_r.
  - rewrite Z.ones_spec_high by lia. unfold in_range in Hx. rewrite <- (Z.mod_small x (2 ^ w)) by done. by rewrite Z.mod_pow2_bits_high by lia.
Qed.

Lemma lor_add x y k : 0 <= k -> in_range k x -> x .| (y ≪ k) = x + y * 2 ^ k.
Proof.
  intros Hk Hx. rewrite <- (shiftl_mul y k) by done. symmetry.
  apply Z.add_nocarry_lor, Z.bits_inj'. intros i Hi.
  rewrite Z.land_spec, Z.bits_0. destruct (Z.lt_ge_cases i k).
  - rewrite Z.shiftl_spec_low by done. apply andb_false_r.
  - rewrite <- (Z.mod_small x (2 ^ k)) by exact Hx.
    by rewrite Z.mod_pow2_bits_high by lia.
Qed.

(** Testing one bit. *)
Lemma land_bit x k : 0 <= k -> (x .& (1 ≪ k) =? 0) = Z.even (x / 2 ^ k).
Proof.
  intros Hk. rewrite <- Z.shiftr_div_pow2 by done.
  rewrite <- (negb_involutive (Z.even _)), Z.negb_even, <- Z.bit0_odd, Z.shiftr_spec, Z.add_0_l by lia.
  destruct (Z.testbit x k) eqn:B; simpl.
  - apply Z.eqb_neq. intros E. apply (f_equal (fun y => Z.testbit y k)) in E.
    rewrite Z.land_spec, B, Z.bits_0, Z.shiftl_spec, Z.sub_diag in E by lia. done.
  - apply Z.eqb_eq, Z.bits_inj'. intros i Hi. rewrite Z.land_spec, Z.bits_0, Z.shiftl_spec by lia.
    destruct (Z.eq_dec i k) as [->|]; [by rewrite B|].
    destruct (Z.lt_ge_cases i k); [rewrite (Z.testbit_neg_r 1) by lia; apply andb_false_r|].
    rewrite (Z.bits_above_log2 1) by (rewrite ?Z.log2_1; lia). apply andb_false_r.
Qed.

(** Ranges of the bit operations. *)
Lemma range_bits w x : 0 <= w -> 0 <= x -> (∀ i, w <= i -> Z.testbit x i = false) -> in_range w x.
Proof.
  intros Hw Hx B. split; [done|]. destruct (Z.eq_dec x 0) as [->|]; [lia|].
  apply Z.log2_lt_pow2; [lia|]. destruct (Z.lt_ge_cases (Z.log2 x) w) as [|G]; [done|].
  pose proof (Z.bit_log2 x ltac:(lia)) as E. rewrite (B _ G) in E. done.
Qed.
Lemma range_testbit w x i : 0 <= w -> in_range w x -> w <= i -> Z.testbit x i = false.
Proof.
  intros Hw [??] Hi. rewrite <- (Z.mod_small x (2 ^ w)) by lia. apply Z.mod_pow2_bits_high. lia.
Qed.
Lemma range_land_l w x y : 0 <= w -> in_range w x -> in_range w (x .& y).
Proof.
  intros Hw Hx. apply range_bits; [done|apply Z.land_nonneg; left; apply Hx|].
  intros i Hi. by rewrite Z.land_spec, (range_testbit w) by done.
Qed.
Lemma range_land_r w x y : 0 <= w -> in_range w y -> in_range w (x .& y).
Proof. rewrite Z.land_comm. apply range_land_l. Qed.
Lemma range_lor w x y : 0 <= w -> in_range w x -> in_range w y -> in_range w (x .| y).
Proof.
  intros Hw Hx Hy. apply range_bits; [done|apply Z.lor_nonneg; split; [apply Hx|apply Hy]|].
  intros i Hi. rewrite Z.lor_spec, !(range_testbit w) by done. done.
Qed.
Lemma range_lxor w x y : 0 <= w -> in_range w x -> in_range w y -> in_range w (x .^ y).
Proof.
  intros Hw Hx Hy. apply range_bits; [done|apply Z.lxor_nonneg; split; intros; [apply Hy|apply Hx]|].
  intros i Hi. rewrite Z.lxor_spec, !(range_testbit w) by done. done.
Qed.
Lemma range_shiftr w x n : 0 <= n -> in_range w x -> in_range w (x ≫ n).
Proof.
  intros Hn [??]. rewrite shiftr_div by done. assert (0 < 2 ^ n) by (by apply Z.pow_pos_nonneg).
  split; [by apply Z.div_pos|]. apply Z.le_lt_trans with x; [|done]. apply Z.div_le_upper_bound; [done|]. nia.
Qed.
Lemma range_shiftl w x n : 0 <= n -> in_range (w - n) x -> in_range w (x ≪ n).
Proof.
  intros Hn [??]. rewrite shiftl_mul by done. assert (0 < 2 ^ n) by (by apply Z.pow_pos_nonneg).
  destruct (Z.lt_ge_cases (w - n) 0) as [G|G]; [rewrite Z.pow_neg_r in H0 by done; lia|].
  split; [nia|]. replace w with (w - n + n) by lia. rewrite Z.pow_add_r by lia. nia.
Qed.
Lemma range_weaken v w x : v <= w -> 0 <= w -> in_range v x -> in_range w x.
Proof.
  intros Hv Hw [??]. split; [done|]. eapply Z.lt_le_trans; [done|]. by apply Z.pow_le_mono_r.
Qed.

(** * Little-endian bytes *)

(** The little-endian bytes of a word, and back. *)
Fixpoint le_combine (bs : list Z) : Z :=
  match bs with [] => 0 | b :: bs => b + 2 ^ 8 * le_combine bs end.
Fixpoint le_split (n : nat) (v : Z) : list Z :=
  match n with O => [] | Datatypes.S n => v mod 2 ^ 8 :: le_split n (v / 2 ^ 8) end.

Lemma le_combine_split n v : le_combine (le_split n v) = v mod 2 ^ (8 * Z.of_nat n).
Proof.
  revert v. induction n as [|n IH]; intros v; [by rewrite Z.mod_1_r|].
  cbn [le_split le_combine]. rewrite IH.
  replace (8 * Z.of_nat (Datatypes.S n)) with (8 + 8 * Z.of_nat n) by lia.
  rewrite Z.pow_add_r, Z.rem_mul_r by (try apply Z.pow_pos_nonneg; try apply Z.pow_nonzero; lia). done.
Qed.

Lemma length_le_split n v : length (le_split n v) = n.
Proof. revert v. induction n as [|n IH]; intros v; simpl; [done|by rewrite IH]. Qed.

Lemma le_split_combine_app n v rest : take n (le_split (n + length rest) (le_combine (le_split n v ++ rest))) = le_split n v.
Proof.
  revert v. induction n as [|n IH]; intros v; [done|].
  cbn [le_split app le_combine Nat.add take].
  assert (E : ∀ x, (v mod 2 ^ 8 + 2 ^ 8 * x) mod 2 ^ 8 = v mod 2 ^ 8 ∧ (v mod 2 ^ 8 + 2 ^ 8 * x) / 2 ^ 8 = x)
    by (intros; modlia).
  destruct (E (le_combine (le_split n (v / 2 ^ 8) ++ rest))) as [-> ->]. by rewrite IH.
Qed.

Lemma le_split_byte n v x : x ∈ le_split n v -> in_range 8 x.
Proof.
  revert v. induction n as [|n IH]; intros v; cbn [le_split]; [set_solver|].
  rewrite elem_of_cons. intros [->|H]; [apply uwrap_range; lia|by apply (IH (v / 2 ^ 8))].
Qed.

Lemma le_split_combine bs : Forall (in_range 8) bs -> le_split (length bs) (le_combine bs) = bs.
Proof.
  induction 1 as [|b bs Hb _ IH]; cbn [length le_split le_combine]; [done|].
  unfold in_range in Hb.
  assert (E : (b + 2 ^ 8 * le_combine bs) mod 2 ^ 8 = b ∧ (b + 2 ^ 8 * le_combine bs) / 2 ^ 8 = le_combine bs)
    by modlia.
  destruct E as [-> ->]. by rewrite IH.
Qed.

Lemma le_combine_range bs : Forall (in_range 8) bs -> in_range (8 * Z.of_nat (length bs)) (le_combine bs).
Proof.
  induction 1 as [|b bs Hb _ IH]; cbn [length le_combine]; [by rewrite Z.mul_0_r|].
  unfold in_range in *. rewrite Nat2Z.inj_succ, Z.mul_succ_r, Z.add_comm, Z.pow_add_r by lia.
  change (2 ^ 8) with 256 in *. nia.
Qed.

#[export] Hint Resolve uwrap_range swrap_range le_split_byte le_combine_range : words.
#[export] Hint Extern 1 (_ <= _) => lia : words.
#[export] Hint Extern 1 (_ < _) => lia : words.
#[export] Hint Rewrite length_le_split le_combine_split : words.

(** * Lists *)

Lemma filter_all {A} (P : A -> Prop) `{∀ x, Decision (P x)} (l : list A) : (∀ x, x ∈ l -> P x) -> filter P l = l.
Proof.
  induction l as [|x l IH]; intros H1; [done|]. rewrite filter_cons_True by (apply H1; set_solver).
  f_equal. apply IH. set_solver.
Qed.

Lemma filter_none {A} (P : A -> Prop) `{∀ x, Decision (P x)} (l : list A) : (∀ x, x ∈ l -> ¬ P x) -> filter P l = [].
Proof.
  induction l as [|x l IH]; intros H1; [done|]. rewrite filter_cons_False by (apply H1; set_solver).
  apply IH. set_solver.
Qed.
