(* ===== verification/BitField.v ===== *)
(** The [BitField] template of [common/bit_field.h]: a field of [bits] bits at
    [position] inside a storage word of [w] bits, and its laws.

    Every union of bit fields in the other files is a storage word and a
    [bit_field] per member; the static assertions of the template are
    [bf_ok]. *)

From S2P Require Import Prelude.

(* src: bit_field.h | struct BitField { | BitField | ..static constexpr StorageType mask *)
Record bit_field := BitField { position : Z; bits : Z }.

Section bit_field.
Context (w : Z).

(* src: bit_field.h | static_assert(bits + position <= 8 * sizeof(T), "Bitfield out of range"); | BitField | +6 *)
Definition bf_ok (f : bit_field) : bool :=
  (bits f + position f <=? w) && (0 <=? position f) && (position f <? w)
  && (bits f <=? w) && (0 <? bits f).

(* src: bit_field.h | static constexpr StorageType mask *)
Definition bf_mask (f : bit_field) : Z :=
  uwrap w ((unot w 0 ≫ (w - bits f)) ≪ position f).

(* src: bit_field.h *)
Definition FormatValue (f : bit_field) (value : Z) : Z :=
  uwrap w (uwrap w value ≪ position f) .& bf_mask f.

(** The unsigned and the signed branch of the template. *)
(* src: bit_field.h *)
Definition ExtractValue (f : bit_field) (storage : Z) : Z :=
  (storage .& bf_mask f) ≫ position f.
(* src: bit_field.h | [[nodiscard]] static constexpr T ExtractValue( | ExtractValue *)
Definition ExtractValue_signed (f : bit_field) (storage : Z) : Z :=
  let shift := w - bits f in
  swrap w (uwrap w (storage ≪ (shift - position f))) ≫ shift.

(* src: bit_field.h *)
Definition Assign (f : bit_field) (storage value : Z) : Z :=
  (storage .& unot w (bf_mask f)) .| FormatValue f value.

(* src: bit_field.h | [[nodiscard]] constexpr explicit operator bool() const { | operator bool *)
Definition bf_bool (f : bit_field) (storage : Z) : bool :=
  negb (ExtractValue f storage =? 0).

(** * Laws *)

Lemma bf_ok_spec f :
  bf_ok f = true <-> 0 <= position f < w ∧ 0 < bits f <= w ∧ bits f + position f <= w.
Proof. unfold bf_ok. rewrite !andb_true_iff, !Z.leb_le, !Z.ltb_lt. lia. Qed.

Section laws.
Context (f : bit_field) (Hf : bf_ok f = true).

Lemma bf_mask_ones : bf_mask f = Z.ones (bits f) ≪ position f.
Proof using Hf.
  apply bf_ok_spec in Hf as (Hp & Hb & Hw). unfold bf_mask, unot, uwrap.
  change (Z.lnot 0) with (-1).
  assert (P : 0 < 2 ^ w) by (apply Z.pow_pos_nonneg; lia).
  assert (E : -1 mod 2 ^ w = Z.ones w) by (rewrite Z.ones_equiv; symmetry; apply Z.mod_unique with (-1); lia).
  rewrite E. assert (S : Z.ones w ≫ (w - bits f) = Z.ones (bits f)).
  { apply Z.bits_inj'. intros i Hi. rewrite Z.shiftr_spec by lia.
    destruct (Z.lt_ge_cases i (bits f)).
    - rewrite !Z.ones_spec_low by lia. done.
    - rewrite !Z.ones_spec_high by lia. done. }
  rewrite S, shiftl_mul by lia. apply Z.mod_small.
  assert (0 < 2 ^ bits f) by (apply Z.pow_pos_nonneg; lia).
  assert (0 < 2 ^ position f) by (apply Z.pow_pos_nonneg; lia).
  assert (2 ^ bits f * 2 ^ position f <= 2 ^ w)
    by (rewrite <- Z.pow_add_r by lia; apply Z.pow_le_mono_r; lia).
  rewrite Z.ones_equiv. nia.
Qed.

Lemma bf_mask_spec i : 0 <= i ->
  Z.testbit (bf_mask f) i = (position f <=? i) && (i <? position f + bits f).
Proof using Hf.
  intros Hi. rewrite bf_mask_ones. apply bf_ok_spec in Hf as (Hp & Hb & Hw).
  rewrite Z.shiftl_spec by lia. destruct (Z.leb_spec (position f) i); simpl.
  - rewrite Z.testbit_ones_nonneg by lia. zcases; lia.
  - apply Z.testbit_neg_r. lia.
Qed.

Lemma FormatValue_spec v i : 0 <= i ->
  Z.testbit (FormatValue f v) i
  = (position f <=? i) && (i <? position f + bits f) && Z.testbit v (i - position f).
Proof using Hf.
  intros Hi. unfold FormatValue. rewrite Z.land_spec, bf_mask_spec by done.
  apply bf_ok_spec in Hf as (Hp & Hb & Hw). unfold uwrap.
  destruct (Z.leb_spec (position f) i), (Z.ltb_spec i (position f + bits f)); simpl;
    rewrite ?andb_false_r, ?andb_true_r; try done.
  rewrite Z.mod_pow2_bits_low, Z.shiftl_spec, Z.mod_pow2_bits_low by lia. done.
Qed.

Lemma ExtractValue_spec s i : 0 <= i ->
  Z.testbit (ExtractValue f s) i = (i <? bits f) && Z.testbit s (i + position f).
Proof using Hf.
  intros Hi. unfold ExtractValue. pose proof Hf as Hf'. apply bf_ok_spec in Hf' as (Hp & Hb & Hw).
  rewrite Z.shiftr_spec, Z.land_spec, bf_mask_spec by lia.
  destruct (Z.leb_spec (position f) (i + position f)); [|lia].
  destruct (Z.ltb_spec (i + position f) (position f + bits f)), (Z.ltb_spec i (bits f));
    simpl; rewrite ?andb_true_r, ?andb_false_r; try done; lia.
Qed.

Lemma ExtractValue_div s : ExtractValue f s = s / 2 ^ position f mod 2 ^ bits f.
Proof using Hf.
  pose proof Hf as Hf'. apply bf_ok_spec in Hf' as (Hp & Hb & Hw).
  apply Z.bits_inj'. intros i Hi. rewrite ExtractValue_spec by done.
  destruct (Z.ltb_spec i (bits f)).
  - rewrite Z.mod_pow2_bits_low, <- Z.shiftr_div_pow2, Z.shiftr_spec by lia. done.
  - rewrite Z.mod_pow2_bits_high by lia. done.
Qed.

Lemma ExtractValue_range s : in_range (bits f) (ExtractValue f s).
Proof using Hf.
  rewrite ExtractValue_div. apply bf_ok_spec in Hf as (Hp & Hb & Hw).
  apply Z.mod_pos_bound, Z.pow_pos_nonneg; lia.
Qed.

Lemma Assign_spec s v i : 0 <= i < w ->
  Z.testbit (Assign f s v) i
  = if (position f <=? i) && (i <? position f + bits f)
    then Z.testbit v (i - position f) else Z.testbit s i.
Proof using Hf.
  intros Hi. unfold Assign, unot, uwrap.
  rewrite Z.lor_spec, Z.land_spec, FormatValue_spec, Z.mod_pow2_bits_low, Z.lnot_spec, bf_mask_spec by lia.
  destruct ((position f <=? i) && (i <? position f + bits f)); simpl;
    by rewrite ?andb_false_r, ?andb_true_r, ?orb_false_r.
Qed.

Lemma FormatValue_range v : in_range w (FormatValue f v).
Proof using Hf.
  pose proof Hf as Hf'. apply bf_ok_spec in Hf' as (Hp & Hb & Hw).
  assert (N : 0 <= FormatValue f v).
  { unfold FormatValue. apply Z.land_nonneg. left. apply Z.mod_pos_bound, Z.pow_pos_nonneg; lia. }
  split; [done|]. destruct (Z.eq_dec (FormatValue f v) 0) as [->|]; [apply Z.pow_pos_nonneg; lia|].
  apply Z.log2_lt_pow2; [lia|]. destruct (Z.lt_ge_cases (Z.log2 (FormatValue f v)) w) as [|H]; [done|].
  pose proof (Z.bit_log2 (FormatValue f v) ltac:(lia)) as B.
  rewrite FormatValue_spec in B by lia.
  destruct (Z.ltb_spec (Z.log2 (FormatValue f v)) (position f + bits f)); [lia|].
  by rewrite andb_false_r in B.
Qed.

Lemma Assign_range s v : in_range w s -> in_range w (Assign f s v).
Proof using Hf.
  intros Hs. unfold Assign. pose proof Hf as Hf'. apply bf_ok_spec in Hf' as (Hp & Hb & Hw).
  pose proof (FormatValue_range v) as HF.
  assert (HA : in_range w (s .& unot w (bf_mask f))).
  { unfold in_range in *. split; [apply Z.land_nonneg; lia|].
    apply Z.le_lt_trans with s; [|lia].
    assert (B : s = (s .& unot w (bf_mask f)) .| (s .& bf_mask f)).
    { apply Z.bits_inj'. intros i Hi. rewrite Z.lor_spec, !Z.land_spec. unfold unot, uwrap.
      destruct (Z.lt_ge_cases i w).
      - rewrite Z.mod_pow2_bits_low, Z.lnot_spec by lia. destruct (Z.testbit s i), (Z.testbit (bf_mask f) i); done.
      - assert (Z.testbit s i = false) as ->; [|done].
        rewrite <- (Z.mod_small s (2 ^ w)) by lia. apply Z.mod_pow2_bits_high; lia. }
    rewrite B at 2. apply Z.ldiff_le; [apply Z.lor_nonneg; split; apply Z.land_nonneg; lia|].
    apply Z.bits_inj'. intros i Hi. rewrite Z.ldiff_spec, Z.lor_spec, Z.bits_0.
    by destruct (Z.testbit (s .& unot w (bf_mask f)) i). }
  unfold in_range in *. split; [apply Z.lor_nonneg; lia|].
  destruct (Z.eq_dec ((s .& unot w (bf_mask f)) .| FormatValue f v) 0) as [->|]; [lia|].
  apply Z.log2_lt_pow2; [pose proof (Z.lor_nonneg (s .& unot w (bf_mask f)) (FormatValue f v)); lia|].
  rewrite Z.log2_lor by lia.
  assert (L : ∀ x, 0 <= x < 2 ^ w -> Z.log2 x < w).
  { intros x Hx. destruct (Z.eq_dec x 0) as [->|]; [rewrite Z.log2_nonpos; lia|]. apply Z.log2_lt_pow2; lia. }
  pose proof (L _ HA). pose proof (L _ HF). lia.
Qed.

(** Reading back an assigned field. *)
Lemma Extract_Assign s v : ExtractValue f (Assign f s v) = v mod 2 ^ bits f.
Proof using Hf.
  pose proof Hf as Hf'. apply bf_ok_spec in Hf' as (Hp & Hb & Hw).
  apply Z.bits_inj'. intros i Hi. rewrite ExtractValue_spec by done.
  destruct (Z.ltb_spec i (bits f)); simpl.
  - rewrite Assign_spec, Z.mod_pow2_bits_low by lia.
    destruct (Z.leb_spec (position f) (i + position f)), (Z.ltb_spec (i + position f) (position f + bits f));
      try lia; simpl. f_equal; lia.
  - by rewrite Z.mod_pow2_bits_high by lia.
Qed.

Lemma Extract_Format v : ExtractValue f (FormatValue f v) = v mod 2 ^ bits f.
Proof using Hf.
  by rewrite <- (Extract_Assign 0 v).
Qed.
End laws.

(** Fields that do not overlap. *)
Definition bf_disjoint (f g : bit_field) : bool :=
  (position f + bits f <=? position g) || (position g + bits g <=? position f).

Lemma Extract_Assign_other f g s v :
  bf_ok f = true -> bf_ok g = true -> bf_disjoint f g = true ->
  ExtractValue g (Assign f s v) = ExtractValue g s.
Proof.
  intros Hf Hg Hd. pose proof Hf as Hf'. apply bf_ok_spec in Hf' as (? & ? & ?).
  pose proof Hg as Hg'. apply bf_ok_spec in Hg' as (? & ? & ?).
  unfold bf_disjoint in Hd. rewrite orb_true_iff, !Z.leb_le in Hd.
  apply Z.bits_inj'. intros i Hi. rewrite !ExtractValue_spec by done.
  destruct (Z.ltb_spec i (bits g)); simpl; [|done]. rewrite Assign_spec by (done || lia).
  destruct (Z.leb_spec (position f) (i + position g)), (Z.ltb_spec (i + position g) (position f + bits f));
    simpl; try done; lia.
Qed.

Lemma Extract_lor g s t :
  bf_ok g = true -> ExtractValue g (s .| t) = ExtractValue g s .| ExtractValue g t.
Proof.
  intros Hg. apply Z.bits_inj'. intros i Hi.
  rewrite Z.lor_spec, !ExtractValue_spec, Z.lor_spec by done. by destruct (i <? bits g).
Qed.

Lemma Extract_Format_other f g v :
  bf_ok f = true -> bf_ok g = true -> bf_disjoint f g = true ->
  ExtractValue g (FormatValue f v) = 0.
Proof.
  intros Hf Hg Hd.
  assert (E : Assign f 0 v = FormatValue f v) by done.
  rewrite <- E, Extract_Assign_other by done. rewrite ExtractValue_div by done.
  rewrite Z.div_0_l, Z.mod_0_l; try done; apply Z.pow_nonzero; apply bf_ok_spec in Hg; lia.
Qed.
End bit_field.

Create HintDb bit_field.
#[export] Hint Resolve ExtractValue_range Assign_range FormatValue_range : bit_field.
