(* ===== verification/Result.v ===== *)
(** Result codes: [core/hle/result.h] (the packed error word, [ResultVal] and
    the propagation macros) and the kernel's error constants
    ([core/hle/kernel/errors.h]). *)

From S2P Require Import Prelude BitField.

(* src: result.h | enum class ErrorDescription : u32 { | ErrorDescription *)
Inductive ErrorDescription :=
  ErrorDescription_Success | ErrorDescription_InvalidSection | ErrorDescription_TooLarge
| ErrorDescription_NotAuthorized | ErrorDescription_AlreadyDone | ErrorDescription_InvalidSize
| ErrorDescription_InvalidEnumValue | ErrorDescription_InvalidCombination
| ErrorDescription_NoData | ErrorDescription_Busy | ErrorDescription_MisalignedAddress
| ErrorDescription_MisalignedSize | ErrorDescription_OutOfMemory
| ErrorDescription_NotImplemented | ErrorDescription_InvalidAddress
| ErrorDescription_InvalidPointer | ErrorDescription_InvalidHandle
| ErrorDescription_NotInitialized | ErrorDescription_AlreadyInitialized
| ErrorDescription_NotFound | ErrorDescription_CancelRequested | ErrorDescription_AlreadyExists
| ErrorDescription_OutOfRange | ErrorDescription_Timeout | ErrorDescription_InvalidResultValue.

(* src: result.h | enum class ErrorDescription : u32 { | ErrorDescription *)
Definition ErrorDescription_code (x : ErrorDescription) : Z :=
  match x with
  | ErrorDescription_Success => 0 | ErrorDescription_InvalidSection => 1000
  | ErrorDescription_TooLarge => 1001 | ErrorDescription_NotAuthorized => 1002
  | ErrorDescription_AlreadyDone => 1003 | ErrorDescription_InvalidSize => 1004
  | ErrorDescription_InvalidEnumValue => 1005 | ErrorDescription_InvalidCombination => 1006
  | ErrorDescription_NoData => 1007 | ErrorDescription_Busy => 1008
  | ErrorDescription_MisalignedAddress => 1009 | ErrorDescription_MisalignedSize => 1010
  | ErrorDescription_OutOfMemory => 1011 | ErrorDescription_NotImplemented => 1012
  | ErrorDescription_InvalidAddress => 1013 | ErrorDescription_InvalidPointer => 1014
  | ErrorDescription_InvalidHandle => 1015 | ErrorDescription_NotInitialized => 1016
  | ErrorDescription_AlreadyInitialized => 1017 | ErrorDescription_NotFound => 1018
  | ErrorDescription_CancelRequested => 1019 | ErrorDescription_AlreadyExists => 1020
  | ErrorDescription_OutOfRange => 1021 | ErrorDescription_Timeout => 1022
  | ErrorDescription_InvalidResultValue => 1023
  end.

#[export] Instance ErrorDescription_eq_dec : EqDecision ErrorDescription.
Proof. solve_decision. Defined.

(* src: result.h | enum class ErrorModule : u32 { | ErrorModule *)
Inductive ErrorModule :=
  ErrorModule_Common | ErrorModule_Kernel | ErrorModule_Util | ErrorModule_FileServer
| ErrorModule_LoaderServer | ErrorModule_TCB | ErrorModule_OS | ErrorModule_DBG
| ErrorModule_DMNT | ErrorModule_PDN | ErrorModule_GX | ErrorModule_I2C | ErrorModule_GPIO
| ErrorModule_DD | ErrorModule_CODEC | ErrorModule_SPI | ErrorModule_PXI | ErrorModule_FS
| ErrorModule_DI | ErrorModule_HID | ErrorModule_CAM | ErrorModule_PI | ErrorModule_PM
| ErrorModule_PM_LOW | ErrorModule_FSI | ErrorModule_SRV | ErrorModule_NDM | ErrorModule_NWM
| ErrorModule_SOC | ErrorModule_LDR | ErrorModule_ACC | ErrorModule_RomFS | ErrorModule_AM
| ErrorModule_HIO | ErrorModule_Updater | ErrorModule_MIC | ErrorModule_FND | ErrorModule_MP
| ErrorModule_MPWL | ErrorModule_AC | ErrorModule_HTTP | ErrorModule_DSP | ErrorModule_SND
| ErrorModule_DLP | ErrorModule_HIO_LOW | ErrorModule_CSND | ErrorModule_SSL
| ErrorModule_AM_LOW | ErrorModule_NEX | ErrorModule_Friends | ErrorModule_RDT
| ErrorModule_Applet | ErrorModule_NIM | ErrorModule_PTM | ErrorModule_MIDI | ErrorModule_MC
| ErrorModule_SWC | ErrorModule_FatFS | ErrorModule_NGC | ErrorModule_CARD
| ErrorModule_CARDNOR | ErrorModule_SDMC | ErrorModule_BOSS | ErrorModule_DBM
| ErrorModule_Config | ErrorModule_PS | ErrorModule_CEC | ErrorModule_IR | ErrorModule_UDS
| ErrorModule_PL | ErrorModule_CUP | ErrorModule_Gyroscope | ErrorModule_MCU | ErrorModule_NS
| ErrorModule_News | ErrorModule_RO | ErrorModule_GD | ErrorModule_CardSPI | ErrorModule_EC
| ErrorModule_WebBrowser | ErrorModule_Test | ErrorModule_ENC | ErrorModule_PIA
| ErrorModule_ACT | ErrorModule_VCTL | ErrorModule_OLV | ErrorModule_NEIA | ErrorModule_NPNS
| ErrorModule_AVD | ErrorModule_L2B | ErrorModule_MVD | ErrorModule_NFC | ErrorModule_UART
| ErrorModule_SPM | ErrorModule_QTM | ErrorModule_NFP | ErrorModule_Application
| ErrorModule_InvalidResult.

(* src: result.h | enum class ErrorModule : u32 { | ErrorModule *)
Definition ErrorModule_code (x : ErrorModule) : Z :=
  match x with
  | ErrorModule_Common => 0 | ErrorModule_Kernel => 1 | ErrorModule_Util => 2
  | ErrorModule_FileServer => 3 | ErrorModule_LoaderServer => 4 | ErrorModule_TCB => 5
  | ErrorModule_OS => 6 | ErrorModule_DBG => 7 | ErrorModule_DMNT => 8 | ErrorModule_PDN => 9
  | ErrorModule_GX => 10 | ErrorModule_I2C => 11 | ErrorModule_GPIO => 12
  | ErrorModule_DD => 13 | ErrorModule_CODEC => 14 | ErrorModule_SPI => 15
  | ErrorModule_PXI => 16 | ErrorModule_FS => 17 | ErrorModule_DI => 18 | ErrorModule_HID => 19
  | ErrorModule_CAM => 20 | ErrorModule_PI => 21 | ErrorModule_PM => 22
  | ErrorModule_PM_LOW => 23 | ErrorModule_FSI => 24 | ErrorModule_SRV => 25
  | ErrorModule_NDM => 26 | ErrorModule_NWM => 27 | ErrorModule_SOC => 28
  | ErrorModule_LDR => 29 | ErrorModule_ACC => 30 | ErrorModule_RomFS => 31
  | ErrorModule_AM => 32 | ErrorModule_HIO => 33 | ErrorModule_Updater => 34
  | ErrorModule_MIC => 35 | ErrorModule_FND => 36 | ErrorModule_MP => 37
  | ErrorModule_MPWL => 38 | ErrorModule_AC => 39 | ErrorModule_HTTP => 40
  | ErrorModule_DSP => 41 | ErrorModule_SND => 42 | ErrorModule_DLP => 43
  | ErrorModule_HIO_LOW => 44 | ErrorModule_CSND => 45 | ErrorModule_SSL => 46
  | ErrorModule_AM_LOW => 47 | ErrorModule_NEX => 48 | ErrorModule_Friends => 49
  | ErrorModule_RDT => 50 | ErrorModule_Applet => 51 | ErrorModule_NIM => 52
  | ErrorModule_PTM => 53 | ErrorModule_MIDI => 54 | ErrorModule_MC => 55
  | ErrorModule_SWC => 56 | ErrorModule_FatFS => 57 | ErrorModule_NGC => 58
  | ErrorModule_CARD => 59 | ErrorModule_CARDNOR => 60 | ErrorModule_SDMC => 61
  | ErrorModule_BOSS => 62 | ErrorModule_DBM => 63 | ErrorModule_Config => 64
  | ErrorModule_PS => 65 | ErrorModule_CEC => 66 | ErrorModule_IR => 67 | ErrorModule_UDS => 68
  | ErrorModule_PL => 69 | ErrorModule_CUP => 70 | ErrorModule_Gyroscope => 71
  | ErrorModule_MCU => 72 | ErrorModule_NS => 73 | ErrorModule_News => 74
  | ErrorModule_RO => 75 | ErrorModule_GD => 76 | ErrorModule_CardSPI => 77
  | ErrorModule_EC => 78 | ErrorModule_WebBrowser => 79 | ErrorModule_Test => 80
  | ErrorModule_ENC => 81 | ErrorModule_PIA => 82 | ErrorModule_ACT => 83
  | ErrorModule_VCTL => 84 | ErrorModule_OLV => 85 | ErrorModule_NEIA => 86
  | ErrorModule_NPNS => 87 | ErrorModule_AVD => 90 | ErrorModule_L2B => 91
  | ErrorModule_MVD => 92 | ErrorModule_NFC => 93 | ErrorModule_UART => 94
  | ErrorModule_SPM => 95 | ErrorModule_QTM => 96 | ErrorModule_NFP => 97
  | ErrorModule_Application => 254 | ErrorModule_InvalidResult => 255
  end.

#[export] Instance ErrorModule_eq_dec : EqDecision ErrorModule.
Proof. solve_decision. Defined.

(* src: result.h | enum class ErrorSummary : u32 { | ErrorSummary *)
Inductive ErrorSummary :=
  ErrorSummary_Success | ErrorSummary_NothingHappened | ErrorSummary_WouldBlock
| ErrorSummary_OutOfResource | ErrorSummary_NotFound | ErrorSummary_InvalidState
| ErrorSummary_NotSupported | ErrorSummary_InvalidArgument | ErrorSummary_WrongArgument
| ErrorSummary_Canceled | ErrorSummary_StatusChanged | ErrorSummary_Internal
| ErrorSummary_InvalidResult.

(* src: result.h | enum class ErrorSummary : u32 { | ErrorSummary *)
Definition ErrorSummary_code (x : ErrorSummary) : Z :=
  match x with
  | ErrorSummary_Success => 0 | ErrorSummary_NothingHappened => 1
  | ErrorSummary_WouldBlock => 2 | ErrorSummary_OutOfResource => 3 | ErrorSummary_NotFound => 4
  | ErrorSummary_InvalidState => 5 | ErrorSummary_NotSupported => 6
  | ErrorSummary_InvalidArgument => 7 | ErrorSummary_WrongArgument => 8
  | ErrorSummary_Canceled => 9 | ErrorSummary_StatusChanged => 10 | ErrorSummary_Internal => 11
  | ErrorSummary_InvalidResult => 63
  end.

#[export] Instance ErrorSummary_eq_dec : EqDecision ErrorSummary.
Proof. solve_decision. Defined.

(* src: result.h | enum class ErrorLevel : u32 { | ErrorLevel *)
Inductive ErrorLevel :=
  ErrorLevel_Success | ErrorLevel_Info | ErrorLevel_Status | ErrorLevel_Temporary
| ErrorLevel_Permanent | ErrorLevel_Usage | ErrorLevel_Reinitialize | ErrorLevel_Reset
| ErrorLevel_Fatal.

(* src: result.h | enum class ErrorLevel : u32 { | ErrorLevel *)
Definition ErrorLevel_code (x : ErrorLevel) : Z :=
  match x with
  | ErrorLevel_Success => 0 | ErrorLevel_Info => 1 | ErrorLevel_Status => 25
  | ErrorLevel_Temporary => 26 | ErrorLevel_Permanent => 27 | ErrorLevel_Usage => 28
  | ErrorLevel_Reinitialize => 29 | ErrorLevel_Reset => 30 | ErrorLevel_Fatal => 31
  end.

#[export] Instance ErrorLevel_eq_dec : EqDecision ErrorLevel.
Proof. solve_decision. Defined.

(** * The packed word *)

(* src: result.h | union Result { *)
Record Result := mk_Result { raw : Z (* u32 *) }.

(* src: result.h | BitField<0, 10, u32> description; | Result *)
Definition Result_description := BitField 0 10.
(* src: result.h | BitField<10, 8, ErrorModule> module; | Result *)
Definition Result_module := BitField 10 8.
(* src: result.h | BitField<21, 6, ErrorSummary> summary; | Result *)
Definition Result_summary := BitField 21 6.
(* src: result.h | BitField<27, 5, ErrorLevel> level; | Result *)
Definition Result_level := BitField 27 5.
(* src: result.h | BitField<31, 1, u32> is_error; | Result *)
Definition Result_is_error := BitField 31 1.

(* src: result.h | constexpr Result(u32 description_, ErrorModule module_, ErrorSummary summary_, | Result *)
Definition Result_make (description : Z) (module : ErrorModule) (summary : ErrorSummary)
    (level : ErrorLevel) : Result :=
  mk_Result (FormatValue 32 Result_description description
             .| FormatValue 32 Result_module (ErrorModule_code module)
             .| FormatValue 32 Result_summary (ErrorSummary_code summary)
             .| FormatValue 32 Result_level (ErrorLevel_code level)).

(* src: result.h | constexpr bool IsSuccess() const { *)
Definition IsSuccess (r : Result) : bool := ExtractValue 32 Result_is_error (raw r) =? 0.
(* src: result.h | constexpr bool IsError() const { *)
Definition IsError (r : Result) : bool := ExtractValue 32 Result_is_error (raw r) =? 1.

(* src: result.h | constexpr bool operator==(const Result& a, const Result& b) { *)
#[export] Instance Result_eq_dec : EqDecision Result.
Proof. solve_decision. Defined.

(* src: result.h | constexpr Result ResultSuccess(0); *)
Definition ResultSuccess : Result := mk_Result 0.
(* src: result.h | constexpr Result UnimplementedFunction(ErrorModule module) { *)
Definition UnimplementedFunction (module : ErrorModule) : Result :=
  Result_make (ErrorDescription_code ErrorDescription_NotImplemented) module
    ErrorSummary_NotSupported ErrorLevel_Permanent.
(* src: result.h | constexpr Result ResultUnknown( *)
Definition ResultUnknown : Result := mk_Result (2 ^ 32 - 1).

(** * [ResultVal] *)

(* src: result.h | class ResultVal { | ResultVal | +12 *)
Inductive ResultVal (T : Type) := RV_val (v : T) | RV_err (code : Result).
Arguments RV_val {T} v.
Arguments RV_err {T} code.

Section ResultVal.
Context {T : Type} (r : ResultVal T).

(* src: result.h | [[nodiscard]] constexpr bool Succeeded() const { *)
Definition Succeeded : bool := match r with RV_val _ => true | RV_err _ => false end.
(* src: result.h | [[nodiscard]] constexpr bool Failed() const { *)
Definition Failed : bool := negb Succeeded.
(* src: result.h | [[nodiscard]] constexpr Result Code() const { *)
Definition Code : Result := match r with RV_val _ => ResultSuccess | RV_err c => c end.
(** The assertion of [Unwrap] failing is [None]. *)
(* src: result.h | [[nodiscard]] constexpr T& Unwrap() & { *)
Definition Unwrap : option T := match r with RV_val v => Some v | RV_err _ => None end.
(* src: result.h | [[nodiscard]] constexpr T ValueOr(U&& v) const& { *)
Definition ValueOr (d : T) : T := match r with RV_val v => v | RV_err _ => d end.
End ResultVal.

(** [CASCADE_RESULT(target, source)] and the rest of the function. *)
(* src: result.h *)
Definition CASCADE_RESULT {A B} (source : ResultVal A) (k : A -> ResultVal B) : ResultVal B :=
  match source with RV_val v => k v | RV_err c => RV_err c end.

(** The early returns, with the rest of the function as [k]. *)
(* src: result.h *)
Definition R_SUCCEEDED (res : Result) : bool := IsSuccess res.
(* src: result.h *)
Definition R_FAILED (res : Result) : bool := IsError res.
(* src: result.h *)
Definition R_UNLESS {A} (expr : bool) (res : A) (k : A) : A := if expr then k else res.
(* src: result.h *)
Definition R_TRY (res : Result) (k : Result) : Result := if R_FAILED res then res else k.
(* src: result.h *)
Definition R_SUCCEED_IF (expr : bool) (k : Result) : Result := R_UNLESS (negb expr) ResultSuccess k.

(** * Kernel error codes *)

(* src: kernel/errors.h | enum { | ErrCodes *)
Inductive ErrCodes :=
  ErrCodes_OutOfSharedMems | ErrCodes_OutOfThreads | ErrCodes_OutOfMutexes
| ErrCodes_OutOfSemaphores | ErrCodes_OutOfEvents | ErrCodes_OutOfTimers
| ErrCodes_OutOfHandles | ErrCodes_SessionClosedByRemote | ErrCodes_PortNameTooLong
| ErrCodes_WrongLockingThread | ErrCodes_NoPendingSessions | ErrCodes_WrongPermission
| ErrCodes_InvalidBufferDescriptor | ErrCodes_OutOfAddressArbiters
| ErrCodes_MaxConnectionsReached | ErrCodes_CommandTooLarge.

(* src: kernel/errors.h | enum { | ErrCodes *)
Definition ErrCodes_code (x : ErrCodes) : Z :=
  match x with
  | ErrCodes_OutOfSharedMems => 11 | ErrCodes_OutOfThreads => 12 | ErrCodes_OutOfMutexes => 13
  | ErrCodes_OutOfSemaphores => 14 | ErrCodes_OutOfEvents => 15 | ErrCodes_OutOfTimers => 16
  | ErrCodes_OutOfHandles => 19 | ErrCodes_SessionClosedByRemote => 26
  | ErrCodes_PortNameTooLong => 30 | ErrCodes_WrongLockingThread => 31
  | ErrCodes_NoPendingSessions => 35 | ErrCodes_WrongPermission => 46
  | ErrCodes_InvalidBufferDescriptor => 48 | ErrCodes_OutOfAddressArbiters => 51
  | ErrCodes_MaxConnectionsReached => 52 | ErrCodes_CommandTooLarge => 54
  end.

#[export] Instance ErrCodes_eq_dec : EqDecision ErrCodes.
Proof. solve_decision. Defined.

(* src: kernel/errors.h | constexpr Result ResultOutOfHandles( *)
Definition ResultOutOfHandles : Result :=
  Result_make (ErrCodes_code ErrCodes_OutOfHandles) ErrorModule_Kernel ErrorSummary_OutOfResource ErrorLevel_Permanent.
(* src: kernel/errors.h | constexpr Result ResultSessionClosed( *)
Definition ResultSessionClosed : Result :=
  Result_make (ErrCodes_code ErrCodes_SessionClosedByRemote) ErrorModule_OS ErrorSummary_Canceled ErrorLevel_Status.
(* src: kernel/errors.h | constexpr Result ResultPortNameTooLong( *)
Definition ResultPortNameTooLong : Result :=
  Result_make (ErrCodes_code ErrCodes_PortNameTooLong) ErrorModule_OS ErrorSummary_InvalidArgument ErrorLevel_Usage.
(* src: kernel/errors.h | constexpr Result ResultWrongPermission( *)
Definition ResultWrongPermission : Result :=
  Result_make (ErrCodes_code ErrCodes_WrongPermission) ErrorModule_OS ErrorSummary_WrongArgument ErrorLevel_Permanent.
(* src: kernel/errors.h | constexpr Result ResultInvalidBufferDescriptor( *)
Definition ResultInvalidBufferDescriptor : Result :=
  Result_make (ErrCodes_code ErrCodes_InvalidBufferDescriptor) ErrorModule_OS ErrorSummary_WrongArgument ErrorLevel_Permanent.
(* src: kernel/errors.h | constexpr Result ResultMaxConnectionsReached( *)
Definition ResultMaxConnectionsReached : Result :=
  Result_make (ErrCodes_code ErrCodes_MaxConnectionsReached) ErrorModule_OS ErrorSummary_WouldBlock ErrorLevel_Temporary.
(* src: kernel/errors.h | constexpr Result ResultNotAuthorized( *)
Definition ResultNotAuthorized : Result :=
  Result_make (ErrorDescription_code ErrorDescription_NotAuthorized) ErrorModule_OS ErrorSummary_WrongArgument ErrorLevel_Permanent.
(* src: kernel/errors.h | constexpr Result ResultInvalidEnumValue( *)
Definition ResultInvalidEnumValue : Result :=
  Result_make (ErrorDescription_code ErrorDescription_InvalidEnumValue) ErrorModule_Kernel ErrorSummary_InvalidArgument ErrorLevel_Permanent.
(* src: kernel/errors.h | constexpr Result ResultInvalidEnumValueFnd( *)
Definition ResultInvalidEnumValueFnd : Result :=
  Result_make (ErrorDescription_code ErrorDescription_InvalidEnumValue) ErrorModule_FND ErrorSummary_InvalidArgument ErrorLevel_Permanent.
(* src: kernel/errors.h | constexpr Result ResultInvalidCombination( *)
Definition ResultInvalidCombination : Result :=
  Result_make (ErrorDescription_code ErrorDescription_InvalidCombination) ErrorModule_OS ErrorSummary_InvalidArgument ErrorLevel_Usage.
(* src: kernel/errors.h | constexpr Result ResultInvalidCombinationKernel( *)
Definition ResultInvalidCombinationKernel : Result :=
  Result_make (ErrorDescription_code ErrorDescription_InvalidCombination) ErrorModule_Kernel ErrorSummary_WrongArgument ErrorLevel_Permanent.
(* src: kernel/errors.h | constexpr Result ResultMisalignedAddress( *)
Definition ResultMisalignedAddress : Result :=
  Result_make (ErrorDescription_code ErrorDescription_MisalignedAddress) ErrorModule_OS ErrorSummary_InvalidArgument ErrorLevel_Usage.
(* src: kernel/errors.h | constexpr Result ResultMisalignedSize( *)
Definition ResultMisalignedSize : Result :=
  Result_make (ErrorDescription_code ErrorDescription_MisalignedSize) ErrorModule_OS ErrorSummary_InvalidArgument ErrorLevel_Usage.
(* src: kernel/errors.h | constexpr Result ResultOutOfMemory( *)
Definition ResultOutOfMemory : Result :=
  Result_make (ErrorDescription_code ErrorDescription_OutOfMemory) ErrorModule_Kernel ErrorSummary_OutOfResource ErrorLevel_Permanent.
(* src: kernel/errors.h | constexpr Result ResultOutOfHeapMemory( *)
Definition ResultOutOfHeapMemory : Result :=
  Result_make (ErrorDescription_code ErrorDescription_OutOfMemory) ErrorModule_OS ErrorSummary_OutOfResource ErrorLevel_Status.
(* src: kernel/errors.h | constexpr Result ResultNotImplemented( *)
Definition ResultNotImplemented : Result :=
  Result_make (ErrorDescription_code ErrorDescription_NotImplemented) ErrorModule_OS ErrorSummary_InvalidArgument ErrorLevel_Usage.
(* src: kernel/errors.h | constexpr Result ResultInvalidAddress( *)
Definition ResultInvalidAddress : Result :=
  Result_make (ErrorDescription_code ErrorDescription_InvalidAddress) ErrorModule_OS ErrorSummary_InvalidArgument ErrorLevel_Usage.
(* src: kernel/errors.h | constexpr Result ResultInvalidAddressState( *)
Definition ResultInvalidAddressState : Result :=
  Result_make (ErrorDescription_code ErrorDescription_InvalidAddress) ErrorModule_OS ErrorSummary_InvalidState ErrorLevel_Usage.
(* src: kernel/errors.h | constexpr Result ResultInvalidPointer( *)
Definition ResultInvalidPointer : Result :=
  Result_make (ErrorDescription_code ErrorDescription_InvalidPointer) ErrorModule_Kernel ErrorSummary_InvalidArgument ErrorLevel_Permanent.
(* src: kernel/errors.h | constexpr Result ResultInvalidHandle( *)
Definition ResultInvalidHandle : Result :=
  Result_make (ErrorDescription_code ErrorDescription_InvalidHandle) ErrorModule_Kernel ErrorSummary_InvalidArgument ErrorLevel_Permanent.
(* src: kernel/errors.h | constexpr Result ResultInvalidHandleOs( *)
Definition ResultInvalidHandleOs : Result :=
  Result_make (ErrorDescription_code ErrorDescription_InvalidHandle) ErrorModule_OS ErrorSummary_WrongArgument ErrorLevel_Permanent.
(* src: kernel/errors.h | constexpr Result ResultNotFound( *)
Definition ResultNotFound : Result :=
  Result_make (ErrorDescription_code ErrorDescription_NotFound) ErrorModule_Kernel ErrorSummary_NotFound ErrorLevel_Permanent.
(* src: kernel/errors.h | constexpr Result ResultOutOfRange( *)
Definition ResultOutOfRange : Result :=
  Result_make (ErrorDescription_code ErrorDescription_OutOfRange) ErrorModule_OS ErrorSummary_InvalidArgument ErrorLevel_Usage.
(* src: kernel/errors.h | constexpr Result ResultOutOfRangeKernel( *)
Definition ResultOutOfRangeKernel : Result :=
  Result_make (ErrorDescription_code ErrorDescription_OutOfRange) ErrorModule_Kernel ErrorSummary_InvalidArgument ErrorLevel_Permanent.
(* src: kernel/errors.h | constexpr Result ResultTimeout( *)
Definition ResultTimeout : Result :=
  Result_make (ErrorDescription_code ErrorDescription_Timeout) ErrorModule_OS ErrorSummary_StatusChanged ErrorLevel_Info.
(* src: kernel/errors.h | constexpr Result ResultNoPendingSessions( *)
Definition ResultNoPendingSessions : Result :=
  Result_make (ErrCodes_code ErrCodes_NoPendingSessions) ErrorModule_OS ErrorSummary_WouldBlock ErrorLevel_Permanent.

(** * Properties *)

Lemma Result_fields_ok :
  Forall (fun f => bf_ok 32 f = true)
    [Result_description; Result_module; Result_summary; Result_level; Result_is_error].
Proof. repeat constructor. Qed.

Lemma ErrorModule_range m : in_range 8 (ErrorModule_code m).
Proof. destruct m; done. Qed.
Lemma ErrorSummary_range s : in_range 6 (ErrorSummary_code s).
Proof. destruct s; done. Qed.
Lemma ErrorLevel_range l : in_range 5 (ErrorLevel_code l).
Proof. destruct l; done. Qed.
Lemma ErrorDescription_range d : in_range 10 (ErrorDescription_code d).
Proof. destruct d; done. Qed.

Ltac extract_field :=
  rewrite !Extract_lor by reflexivity;
  repeat first
    [ rewrite Extract_Format by reflexivity
    | rewrite Extract_Format_other by reflexivity ];
  rewrite ?Z.lor_0_l, ?Z.lor_0_r; simpl bits.

(** The fields of a result survive packing. *)
Lemma Result_make_fields d m s l :
  in_range 10 d ->
  let r := raw (Result_make d m s l) in
  ExtractValue 32 Result_description r = d ∧
  ExtractValue 32 Result_module r = ErrorModule_code m ∧
  ExtractValue 32 Result_summary r = ErrorSummary_code s ∧
  ExtractValue 32 Result_level r = ErrorLevel_code l.
Proof.
  intros Hd. cbn [Result_make raw]. split_and!; extract_field; apply Z.mod_small.
  - exact Hd.
  - apply ErrorModule_range.
  - apply ErrorSummary_range.
  - apply ErrorLevel_range.
Qed.

(** The error bit is the top bit of the level. *)
Lemma Result_make_error d m s l :
  IsError (Result_make d m s l) = (16 <=? ErrorLevel_code l).
Proof.
  unfold IsError. cbn [Result_make raw]. extract_field.
  assert (E : ExtractValue 32 Result_is_error (FormatValue 32 Result_level (ErrorLevel_code l))
              = Z.b2z (16 <=? ErrorLevel_code l)) by (destruct l; reflexivity).
  rewrite E. by destruct (16 <=? ErrorLevel_code l).
Qed.
