(* ===== verification/HandleTable.v ===== *)
(** Kernel handle tables: [core/hle/kernel/handle_table.cpp] and [.h].

    A table maps handles (a slot above a 15-bit generation) to objects; the
    free slots form a linked list threaded through [generations].  The contract
    is a finite map from handles to objects: [Create] inserts a fresh handle,
    [Close] deletes one, and no other handle is affected. *)

From S2P Require Import Prelude BitField Result.

(* src: handle_table.h | CurrentThread = 0xFFFF8000, *)
Definition CurrentThread : Z := 0xFFFF8000.
(* src: handle_table.h | CurrentProcess = 0xFFFF8001, *)
Definition CurrentProcess : Z := 0xFFFF8001.
(* src: handle_table.h | static const std::size_t MAX_COUNT = 4096; *)
Definition MAX_COUNT : Z := 4096.

(* src: handle_table.cpp | constexpr u16 GetSlot(Handle handle) { *)
Definition GetSlot (handle : Z) : Z := u16 (handle ≫ 15).
(* src: handle_table.cpp | constexpr u16 GetGeneration(Handle handle) { *)
Definition GetGeneration (handle : Z) : Z := u16 (handle .& 0x7FFF).

Section handle_table.
Context {Obj : Type}.

(* src: handle_table.h | class HandleTable final : NonCopyable { *)
Record HandleTable := mk_HandleTable {
  objects : list (option Obj); (* MAX_COUNT *)
  generations : list Z;        (* u16, MAX_COUNT *)
  next_generation : Z;         (* u16 *)
  next_free_slot : Z           (* u16 *)
}.

(* src: handle_table.cpp | void HandleTable::Clear() { *)
Definition Clear (t : HandleTable) : HandleTable :=
  mk_HandleTable (replicate (Z.to_nat MAX_COUNT) None)
    ((fun i => u16 (Z.of_nat i + 1)) <$> seq 0 (Z.to_nat MAX_COUNT))
    (next_generation t) 0.

(* src: handle_table.cpp | HandleTable::HandleTable(KernelSystem& kernel) *)
Definition new_HandleTable : HandleTable := Clear (mk_HandleTable [] [] 1 0).

(* src: handle_table.cpp | bool HandleTable::IsValid(Handle handle) const { *)
Definition IsValid (t : HandleTable) (handle : Z) : bool :=
  let slot := GetSlot handle in
  let generation := GetGeneration handle in
  (slot <? MAX_COUNT)
  && match objects t !! Z.to_nat slot with Some (Some _) => true | _ => false end
  && match generations t !! Z.to_nat slot with Some g => g =? generation | None => false end.

(** The current thread and process, which the pseudo-handles name, are given
    by the kernel. *)
(* src: handle_table.cpp | std::shared_ptr<Object> HandleTable::GetGeneric(Handle handle) const { *)
Definition GetGeneric (current_thread current_process : option Obj) (t : HandleTable)
    (handle : Z) : option Obj :=
  if handle =? CurrentThread then current_thread
  else if handle =? CurrentProcess then current_process
  else if negb (IsValid t handle) then None
  else mjoin (objects t !! Z.to_nat (GetSlot handle)).

(** The result, the handle written to [*out_handle] on success, and the table. *)
(* src: handle_table.cpp | Result HandleTable::Create(Handle* out_handle, std::shared_ptr<Object> obj) { *)
Definition Create (t : HandleTable) (obj : Obj) : Result * option Z * HandleTable :=
  let slot := next_free_slot t in
  R_UNLESS (slot <? MAX_COUNT) (ResultOutOfHandles, None, t)
    (let next_free := generations t !!! Z.to_nat slot in
     let generation := next_generation t in
     let next_gen := u16 (next_generation t + 1) in
     let next_gen := if 1 ≪ 15 <=? next_gen then 1 else next_gen in
     (ResultSuccess, Some (generation .| (slot ≪ 15)),
      mk_HandleTable (<[Z.to_nat slot := Some obj]> (objects t))
        (<[Z.to_nat slot := generation]> (generations t)) next_gen next_free)).

(* src: handle_table.cpp | Result HandleTable::Duplicate(Handle* out_handle, Handle handle) { *)
Definition Duplicate (current_thread current_process : option Obj) (t : HandleTable)
    (handle : Z) : Result * option Z * HandleTable :=
  match GetGeneric current_thread current_process t handle with
  | None => (ResultInvalidHandle, None, t)
  | Some object => Create t object
  end.

(* src: handle_table.cpp | Result HandleTable::Close(Handle handle) { *)
Definition Close (t : HandleTable) (handle : Z) : Result * HandleTable :=
  if IsValid t handle then
    let slot := GetSlot handle in
    (ResultSuccess,
     mk_HandleTable (<[Z.to_nat slot := None]> (objects t))
       (<[Z.to_nat slot := next_free_slot t]> (generations t))
       (next_generation t) slot)
  else (ResultInvalidHandle, t).

(** * The abstract table *)

(** What a handle names, pseudo-handles apart. *)
Definition ht_lookup (t : HandleTable) (handle : Z) : option Obj :=
  if IsValid t handle then mjoin (objects t !! Z.to_nat (GetSlot handle)) else None.

(** [l] lists the free slots in the order of the linked list from [s]. *)
Inductive free_list (objs : list (option Obj)) (gens : list Z) : Z -> list nat -> Prop :=
| free_nil : free_list objs gens MAX_COUNT []
| free_cons (i : nat) next l :
    objs !! i = Some None -> gens !! i = Some next ->
    free_list objs gens next l -> free_list objs gens (Z.of_nat i) (i :: l).

Record table_ok (t : HandleTable) : Prop := {
  ok_objects : length (objects t) = Z.to_nat MAX_COUNT;
  ok_generations : length (generations t) = Z.to_nat MAX_COUNT;
  ok_next : 1 <= next_generation t < 2 ^ 15;
  ok_used : ∀ i o g, objects t !! i = Some (Some o) -> generations t !! i = Some g ->
    1 <= g < 2 ^ 15;
  ok_free : ∃ l, free_list (objects t) (generations t) (next_free_slot t) l ∧ NoDup l ∧
    ∀ i, i ∈ l <-> objects t !! i = Some None
}.

(** Slot and generation of a handle. *)
Lemma GetSlot_make g s : in_range 15 g -> in_range 16 s -> GetSlot (g .| (s ≪ 15)) = s.
Proof.
  intros Hg Hs. unfold GetSlot. rewrite lor_add, shiftr_div by (done || lia).
  unfold in_range in *. rewrite Z.div_add, Z.div_small, Z.add_0_l by lia. by apply uwrap_id.
Qed.

Lemma GetGeneration_make g s : in_range 15 g -> GetGeneration (g .| (s ≪ 15)) = g.
Proof.
  intros Hg. unfold GetGeneration. rewrite lor_add by (done || lia).
  change 0x7FFF with (2 ^ 15 - 1). unfold in_range in *. rewrite land_mask, Z.mod_add by lia.
  rewrite Z.mod_small by lia. apply uwrap_id. unfold in_range. pow2. lia.
Qed.

Lemma handle_eq h : in_range 32 h ->
  GetGeneration h .| (GetSlot h ≪ 15) = h mod 2 ^ 31.
Proof.
  intros Hh. unfold in_range, GetGeneration, GetSlot in *. change 0x7FFF with (2 ^ 15 - 1).
  rewrite land_mask, shiftr_div by lia.
  rewrite (uwrap_id 16 (h mod 2 ^ 15)) by (unfold in_range; modlia).
  rewrite lor_add by (try lia; unfold in_range; modlia). unfold uwrap. modlia.
Qed.

Lemma ht_lookup_Some t h o :
  ht_lookup t h = Some o <->
  GetSlot h < MAX_COUNT ∧ objects t !! Z.to_nat (GetSlot h) = Some (Some o) ∧
  generations t !! Z.to_nat (GetSlot h) = Some (GetGeneration h).
Proof.
  unfold ht_lookup, IsValid. destruct (Z.ltb_spec (GetSlot h) MAX_COUNT) as [L|L]; cbn [andb].
  2: { split; [done|intros [? _]; lia]. }
  destruct (objects t !! Z.to_nat (GetSlot h)) as [[o'|]|]; cbn [andb];
    [|split; [done|by intros (_ & [=] & _)]..].
  destruct (generations t !! Z.to_nat (GetSlot h)) as [g|]; [|split; [done|by intros (_ & _ & [=])]].
  destruct (Z.eqb_spec g (GetGeneration h)) as [->|N].
  - split; [intros [= ->]; done|by intros (_ & [= ->] & _)].
  - split; [done|by intros (_ & _ & [=])].
Qed.

Lemma free_list_frame objs gens s l i (x : option Obj) g :
  i ∉ l -> free_list objs gens s l -> free_list (<[i := x]> objs) (<[i := g]> gens) s l.
Proof.
  intros Hi H. induction H as [|j next l Ho Hg H IH]; [constructor|].
  apply not_elem_of_cons in Hi as [Hij Hi]. econstructor; [| |by apply IH];
    by rewrite list_lookup_insert_ne.
Qed.

Lemma free_list_head objs gens s l :
  free_list objs gens s l ->
  (s = MAX_COUNT ∧ l = []) ∨
  ∃ i next l', s = Z.of_nat i ∧ l = i :: l' ∧ objs !! i = Some (None : option Obj) ∧
    gens !! i = Some next ∧ free_list objs gens next l'.
Proof. intros [|i next l' Ho Hg H]; [by left|right; naive_solver]. Qed.

(** A table that implements the finite map [m]. *)
Definition ht_refines (t : HandleTable) (m : gmap Z Obj) : Prop :=
  table_ok t ∧ (∀ h, is_Some (m !! h) -> in_range 31 h) ∧
  ∀ h, in_range 31 h -> m !! h = ht_lookup t h.

Lemma table_ok_Clear t : 1 <= next_generation t < 2 ^ 15 -> table_ok (Clear t).
Proof.
  intros Hg. unfold Clear. constructor; cbn [objects generations next_generation next_free_slot].
  - apply length_replicate.
  - by rewrite length_fmap, length_seq.
  - done.
  - intros i o g Hi. by apply lookup_replicate in Hi as [? _].
  - exists (seq 0 (Z.to_nat MAX_COUNT)). split; [|split].
    + assert (G : ∀ n k, (n + k = Z.to_nat MAX_COUNT)%nat ->
        free_list (replicate (Z.to_nat MAX_COUNT) (None : option Obj))
          ((λ i : nat, u16 (Z.of_nat i + 1)) <$> seq 0 (Z.to_nat MAX_COUNT)) (Z.of_nat k) (seq k n)).
      { induction n as [|n IH]; intros k Hk.
        - replace (Z.of_nat k) with MAX_COUNT by (rewrite <- (Nat.add_0_l k), Hk; done). constructor.
        - cbn [seq]. econstructor.
          + apply lookup_replicate. split; [done|lia].
          + rewrite list_lookup_fmap, lookup_seq_lt by lia. done.
          + assert (Z.of_nat (Datatypes.S k) <= MAX_COUNT) by (unfold MAX_COUNT in *; lia).
            rewrite uwrap_id by (unfold in_range; split; [lia|]; unfold MAX_COUNT in *; pow2; lia).
            replace (Z.of_nat (0 + k) + 1) with (Z.of_nat (Datatypes.S k)) by lia. apply IH. lia. }
      apply (G (Z.to_nat MAX_COUNT) 0%nat). lia.
    + apply NoDup_seq.
    + intros i. rewrite elem_of_seq, lookup_replicate. split; [intros; split; [done|lia]|intros [_ ?]; lia].
Qed.

Lemma new_HandleTable_refines : ht_refines new_HandleTable ∅.
Proof.
  split; [apply table_ok_Clear; simpl; lia|]. split; [intros h [? H]; by rewrite lookup_empty in H|].
  intros h Hh. rewrite lookup_empty. symmetry. apply eq_None_not_Some. intros [o Ho].
  apply ht_lookup_Some in Ho as (_ & Ho & _). unfold new_HandleTable, Clear in Ho. cbn [objects] in Ho.
  by apply lookup_replicate in Ho as [? _].
Qed.

(** The handle made of a slot and a generation. *)
Lemma handle_split h : in_range 31 h ->
  in_range 15 (GetGeneration h) ∧ in_range 16 (GetSlot h) ∧ h = GetGeneration h .| (GetSlot h ≪ 15).
Proof.
  intros Hh. unfold in_range in *. rewrite handle_eq by (unfold in_range; lia).
  rewrite Z.mod_small by lia. split; [|split; [|done]].
  - unfold GetGeneration. change 0x7FFF with (2 ^ 15 - 1). rewrite land_mask by lia. unfold uwrap. modlia.
  - apply uwrap_range. lia.
Qed.

Lemma handle_neq h g s : in_range 31 h -> in_range 15 g -> in_range 16 s ->
  h ≠ g .| (s ≪ 15) -> GetSlot h = s -> GetGeneration h ≠ g.
Proof. intros Hh Hg Hs Hne Es Eg. apply Hne. rewrite <- Es, <- Eg. by apply handle_split. Qed.

(** [Create] refines insertion: it either reports that every slot is in
    use and changes nothing, or returns a handle that named nothing and now
    names the object, every other handle keeping its meaning. *)
Lemma Create_refines t m o :
  ht_refines t m ->
  match Create t o with
  | (r, Some h, t') =>
      r = ResultSuccess ∧ in_range 31 h ∧ m !! h = None ∧ ht_refines t' (<[h := o]> m)
  | (r, None, t') =>
      r = ResultOutOfHandles ∧ t' = t ∧
      ∀ i, (i < Z.to_nat MAX_COUNT)%nat -> ∃ o', objects t !! i = Some (Some o')
  end.
Proof.
  intros (Hok & Hdom & Hm). pose proof Hok as [Lo Lg Gn Gu (l & Hl & Nd & Fl)].
  unfold Create, R_UNLESS.
  destruct (free_list_head _ _ _ _ Hl) as [[E ->]|(i & next & l' & E & -> & Ho & Hg & Hl')].
  - rewrite E. rewrite Z.ltb_irrefl. split_and!; [done..|]. intros i Hi.
    destruct (lookup_lt_is_Some_2 (objects t) i ltac:(lia)) as [[o'|] Hoi]; [eauto|].
    by apply Fl, elem_of_nil in Hoi.
  - pose proof (lookup_lt_Some _ _ _ Ho) as Hi. rewrite Lo in Hi.
    rewrite E, Nat2Z.id. rewrite (list_lookup_total_correct _ _ _ Hg).
    destruct (Z.ltb_spec (Z.of_nat i) MAX_COUNT); [|unfold MAX_COUNT in *; lia].
    set (g := next_generation t) in *. set (s := Z.of_nat i) in *.
    assert (Rg : in_range 15 g) by (unfold in_range; lia).
    assert (Rs : in_range 16 s) by (unfold in_range, MAX_COUNT in *; lia).
    assert (Rh : in_range 31 (g .| (s ≪ 15)))
      by (rewrite lor_add by (done || lia); unfold in_range, MAX_COUNT in *; lia).
    assert (Hnone : m !! (g .| (s ≪ 15)) = None).
    { rewrite Hm by done. apply eq_None_not_Some. intros [o' Ho'].
      apply ht_lookup_Some in Ho' as (_ & Ho' & _).
      rewrite GetSlot_make in Ho' by done. unfold s in Ho'. rewrite Nat2Z.id in Ho'. congruence. }
    split; [done|]. split; [done|]. split; [done|].
    apply NoDup_cons in Nd as [Ni Nd].
    split; [|split].
    + constructor; cbn [objects generations next_generation next_free_slot].
      * by rewrite length_insert.
      * by rewrite length_insert.
      * change (1 ≪ 15) with (2 ^ 15). rewrite uwrap_id by (unfold in_range; pow2; lia).
        destruct (Z.leb_spec (2 ^ 15) (g + 1)); lia.
      * intros j o' g'. destruct (decide (j = i)) as [->|Hne].
        -- rewrite !list_lookup_insert_eq by lia. intros _ [= <-]. lia.
        -- rewrite !list_lookup_insert_ne by done. apply Gu.
      * exists l'. split; [by apply free_list_frame|]. split; [done|]. intros j.
        destruct (decide (j = i)) as [->|Hne].
        -- rewrite list_lookup_insert_eq by lia. naive_solver.
        -- rewrite list_lookup_insert_ne, <- Fl, elem_of_cons by done. naive_solver.
    + intros h [o' Ho']. destruct (decide (h = g .| (s ≪ 15))) as [->|Hne]; [done|].
      rewrite lookup_insert_ne in Ho' by done. apply Hdom. eauto.
    + intros h Hh. destruct (decide (h = g .| (s ≪ 15))) as [->|Hne].
      * rewrite lookup_insert_eq. symmetry. apply ht_lookup_Some.
        rewrite GetSlot_make, GetGeneration_make by done. cbn [objects generations].
        unfold s. rewrite Nat2Z.id, !list_lookup_insert_eq by lia. done.
      * rewrite lookup_insert_ne, Hm by done. apply option_eq. intros o'.
        rewrite !ht_lookup_Some. cbn [objects generations].
        destruct (decide (Z.to_nat (GetSlot h) = i)) as [Es|Es].
        -- assert (GetSlot h = s) as Es' by (pose proof (proj1 (proj2 (handle_split h Hh))) as R; unfold in_range in R; lia).
           rewrite Es, !list_lookup_insert_eq by lia.
           pose proof (handle_neq h g s Hh Rg Rs Hne Es') as Hne'.
           split; intros (? & ? & ?); exfalso; congruence.
        -- by rewrite !list_lookup_insert_ne by done.
Qed.

(** [Close] refines deletion, and reports a handle that names nothing. *)
Lemma Close_refines t m h :
  ht_refines t m -> in_range 31 h ->
  match m !! h with
  | Some _ => fst (Close t h) = ResultSuccess ∧ ht_refines (snd (Close t h)) (delete h m)
  | None => Close t h = (ResultInvalidHandle, t)
  end.
Proof.
  intros (Hok & Hdom & Hm) Hh. pose proof Hok as [Lo Lg Gn Gu (l & Hl & Nd & Fl)].
  rewrite Hm by done. destruct (handle_split h Hh) as (Rg & Rs & Eh).
  unfold Close. destruct (ht_lookup t h) as [o|] eqn:Hlk.
  2: { unfold ht_lookup in Hlk. destruct (IsValid t h) eqn:V; [|done]. exfalso.
       unfold IsValid in V. destruct (objects t !! Z.to_nat (GetSlot h)) as [[?|]|]; simpl in Hlk; try done;
       by rewrite !andb_false_r in V. }
  assert (V : IsValid t h = true) by (unfold ht_lookup in Hlk; by destruct (IsValid t h)).
  rewrite V. cbn [fst snd]. apply ht_lookup_Some in Hlk as (Hs & Ho & Hg).
  set (s := GetSlot h) in *. set (g := GetGeneration h) in *. set (i := Z.to_nat s) in *.
  assert (Hsi : s = Z.of_nat i) by (unfold in_range in Rs; lia).
  assert (Hi : (i < Z.to_nat MAX_COUNT)%nat) by (rewrite <- Lo; by eapply lookup_lt_Some).
  assert (Ni : i ∉ l) by (intros H; apply Fl in H; congruence).
  split; [done|]. split; [|split].
  - constructor; cbn [objects generations next_generation next_free_slot].
    + by rewrite length_insert.
    + by rewrite length_insert.
    + done.
    + intros j o' g'. destruct (decide (j = i)) as [->|Hne].
      * by rewrite !list_lookup_insert_eq by lia.
      * rewrite !list_lookup_insert_ne by done. apply Gu.
    + exists (i :: l). split; [|split].
      * rewrite Hsi. econstructor; [by rewrite list_lookup_insert_eq by lia..|]. by apply free_list_frame.
      * by apply NoDup_cons.
      * intros j. rewrite elem_of_cons. destruct (decide (j = i)) as [->|Hne].
        -- rewrite list_lookup_insert_eq by lia. split; [done|by left].
        -- rewrite list_lookup_insert_ne, <- Fl by done. split; [by intros [?|?]|by right].
  - intros h' [o' Ho']. apply lookup_delete_Some in Ho' as [_ Ho']. apply Hdom. eauto.
  - intros h' Hh'. destruct (decide (h' = h)) as [->|Hne].
    + rewrite lookup_delete_eq. symmetry. apply eq_None_not_Some. intros [o' Ho'].
      apply ht_lookup_Some in Ho' as (_ & Ho' & _). cbn [objects] in Ho'.
      fold s i in Ho'. by rewrite list_lookup_insert_eq in Ho' by lia.
    + rewrite lookup_delete_ne, Hm by done. apply option_eq. intros o'.
      rewrite !ht_lookup_Some. cbn [objects generations].
      destruct (decide (Z.to_nat (GetSlot h') = i)) as [Es|Es].
      * assert (GetSlot h' = s) as Es'
          by (pose proof (proj1 (proj2 (handle_split h' Hh'))) as R; unfold in_range in R; lia).
        rewrite Es, !list_lookup_insert_eq by lia.
        pose proof (handle_neq h' g s Hh' Rg Rs ltac:(congruence) Es').
        split; intros (? & ? & ?); exfalso; congruence.
      * by rewrite !list_lookup_insert_ne by done.
Qed.

(** Bit 31 of a handle is lost in the 16-bit slot: a handle with it set names
    the same object as the one without. *)
Lemma handle_alias t h : in_range 31 h -> ht_lookup t (h + 2 ^ 31) = ht_lookup t h.
Proof.
  intros Hh. unfold in_range in Hh.
  assert (GetSlot (h + 2 ^ 31) = GetSlot h) as E1.
  { unfold GetSlot. rewrite !shiftr_div by lia. unfold uwrap. modlia. }
  assert (GetGeneration (h + 2 ^ 31) = GetGeneration h) as E2.
  { unfold GetGeneration. change 0x7FFF with (2 ^ 15 - 1). rewrite !land_mask by lia. unfold uwrap. modlia. }
  unfold ht_lookup, IsValid. by rewrite E1, E2.
Qed.

Lemma GetGeneric_refines ct cp t m h :
  ht_refines t m -> in_range 31 h -> GetGeneric ct cp t h = m !! h.
Proof.
  intros (_ & _ & Hm) Hh. rewrite Hm by done. unfold GetGeneric, ht_lookup, in_range in *.
  unfold CurrentThread, CurrentProcess. destruct (Z.eqb_spec h 0xFFFF8000); [lia|].
  destruct (Z.eqb_spec h 0xFFFF8001); [lia|]. by destruct (IsValid t h).
Qed.

(** C40: a handle table implements a finite map from handles to objects.
    [Create] either reports that all 4096 slots are in use and changes nothing
    or returns a fresh handle and inserts it; [Close] deletes a live handle and
    reports any other; lookup and [Duplicate] agree with the map; [Clear]
    empties it. *)
Theorem handle_table_refines ct cp t m :
  ht_refines t m ->
  (∀ o, match Create t o with
        | (r, Some h, t') =>
            r = ResultSuccess ∧ in_range 31 h ∧ m !! h = None ∧ ht_refines t' (<[h := o]> m)
        | (r, None, t') =>
            r = ResultOutOfHandles ∧ t' = t ∧
            ∀ i, (i < Z.to_nat MAX_COUNT)%nat -> ∃ o', objects t !! i = Some (Some o')
        end) ∧
  (∀ h, in_range 31 h ->
    GetGeneric ct cp t h = m !! h ∧
    match m !! h with
    | Some o =>
        fst (Close t h) = ResultSuccess ∧ ht_refines (snd (Close t h)) (delete h m) ∧
        Duplicate ct cp t h = Create t o
    | None =>
        Close t h = (ResultInvalidHandle, t) ∧
        Duplicate ct cp t h = (ResultInvalidHandle, None, t)
    end) ∧
  ht_refines (Clear t) ∅.
Proof.
  intros H. split; [|split].
  - intros o. by apply Create_refines.
  - intros h Hh. pose proof (GetGeneric_refines ct cp t m h H Hh) as G. split; [done|].
    pose proof (Close_refines t m h H Hh) as C. unfold Duplicate. rewrite G.
    by destruct (m !! h); [destruct C|].
  - split; [apply table_ok_Clear; apply H|]. split; [intros h [? E]; by rewrite lookup_empty in E|].
    intros h Hh. rewrite lookup_empty. symmetry. apply eq_None_not_Some. intros [o Ho].
    apply ht_lookup_Some in Ho as (_ & Ho & _). unfold Clear in Ho. cbn [objects] in Ho.
    by apply lookup_replicate in Ho as [? _].
Qed.
End handle_table.
Arguments HandleTable : clear implicits.
Arguments new_HandleTable : clear implicits.

Lemma handle_table_refines_witness :
  let '(_, h, t) := Create (new_HandleTable nat) 7%nat in
  h = Some 1 ∧ ht_refines t {[1 := 7%nat]} ∧
  fst (Close t 1) = ResultSuccess ∧ ht_refines (snd (Close t 1)) (delete 1 {[1 := 7%nat]}).
Proof.
  destruct (handle_table_refines None None (new_HandleTable nat) ∅ new_HandleTable_refines)
    as (HC & _ & _). specialize (HC 7%nat).
  assert (E : (Create (new_HandleTable nat) 7%nat).1.2 = Some 1) by (vm_compute; reflexivity).
  destruct (Create (new_HandleTable nat) 7%nat) as [[r h] t]. cbn [fst snd] in E. subst h.
  destruct HC as (_ & _ & _ & R). split; [done|]. split; [exact R|].
  destruct (handle_table_refines None None t _ R) as (_ & HD & _).
  destruct (HD 1 ltac:(unfold in_range; lia)) as [_ HD1]. rewrite lookup_insert_eq in HD1.
  split; [apply HD1|apply HD1].
Defined.
