(* ===== verification/Ipc.v ===== *)
(** Inter-process communication: command words ([core/hle/ipc.h]), the request
    builder and parser of HLE services ([core/hle/ipc_helpers.h]) and the
    translation of command buffers for them ([core/hle/kernel/hle_ipc.cpp]).

    A failed [ASSERT] and an access outside the command buffer are [None].  The
    IPC recorder, a debugging aid, is left out. *)

From S2P Require Import Prelude BitField Result HandleTable.

(* src: core/hle/ipc.h | constexpr std::size_t COMMAND_BUFFER_LENGTH *)
Definition COMMAND_BUFFER_LENGTH : Z := 0x100 / 4.
(* src: core/hle/ipc.h | constexpr std::size_t MAX_STATIC_BUFFERS = 16; *)
Definition MAX_STATIC_BUFFERS : Z := 16.

(* src: core/hle/ipc.h | enum DescriptorType : u32 { *)
Inductive DescriptorType :=
  StaticBuffer | PXIBuffer | MappedBufferType | CopyHandle | MoveHandle | CallingPid
| OtherDescriptor (bits : Z).

(* src: core/hle/ipc.h | enum DescriptorType : u32 { | DescriptorType *)
Definition DescriptorType_code (t : DescriptorType) : Z :=
  match t with
  | StaticBuffer => 0x02 | PXIBuffer => 0x04 | MappedBufferType => 0x08
  | CopyHandle => 0x00 | MoveHandle => 0x10 | CallingPid => 0x20
  | OtherDescriptor b => b
  end.

(* src: core/hle/ipc.h | BitField<0, 6, u32> translate_params_size; | Header *)
Definition translate_params_size := BitField 0 6.
(* src: core/hle/ipc.h | BitField<6, 6, u32> normal_params_size; | Header *)
Definition normal_params_size := BitField 6 6.
(* src: core/hle/ipc.h | BitField<16, 16, u32> command_id; | Header *)
Definition command_id := BitField 16 16.

(* src: core/hle/ipc.h | inline constexpr u32 MakeHeader( *)
Definition MakeHeader (cmd normal translate : Z) : Z :=
  let header := Assign 32 command_id 0 (u16 cmd) in
  let header := Assign 32 normal_params_size header normal in
  Assign 32 translate_params_size header translate.

(* src: core/hle/ipc.h | constexpr u32 MoveHandleDesc( *)
Definition MoveHandleDesc (num_handles : Z) : Z :=
  DescriptorType_code MoveHandle .| u32 (u32 (num_handles - 1) ≪ 26).
(* src: core/hle/ipc.h | constexpr u32 CopyHandleDesc( *)
Definition CopyHandleDesc (num_handles : Z) : Z :=
  DescriptorType_code CopyHandle .| u32 (u32 (num_handles - 1) ≪ 26).
(* src: core/hle/ipc.h | constexpr u32 CallingPidDesc( *)
Definition CallingPidDesc : Z := DescriptorType_code CallingPid.
(* src: core/hle/ipc.h | constexpr bool IsHandleDescriptor( *)
Definition IsHandleDescriptor (descriptor : Z) : bool := (descriptor .& 0xF) =? 0.
(* src: core/hle/ipc.h | constexpr u32 HandleNumberFromDesc( *)
Definition HandleNumberFromDesc (handle_descriptor : Z) : Z := (handle_descriptor ≫ 26) + 1.

(* src: core/hle/ipc.h | BitField<0, 4, u32> descriptor_type; | StaticBufferDescInfo *)
Definition sb_descriptor_type := BitField 0 4.
(* src: core/hle/ipc.h | BitField<10, 4, u32> buffer_id; | StaticBufferDescInfo *)
Definition sb_buffer_id := BitField 10 4.
(* src: core/hle/ipc.h | BitField<14, 18, u32> size; | StaticBufferDescInfo *)
Definition sb_size := BitField 14 18.

(* src: core/hle/ipc.h | inline u32 StaticBufferDesc( *)
Definition StaticBufferDesc (size buffer_id : Z) : Z :=
  let info := Assign 32 sb_descriptor_type 0 (DescriptorType_code StaticBuffer) in
  let info := Assign 32 sb_buffer_id info buffer_id in
  Assign 32 sb_size info (u32 size).

(* src: core/hle/ipc.h | inline u32 PXIBufferDesc( *)
Definition PXIBufferDesc (size buffer_id : Z) (is_read_only : bool) : Z :=
  let type := DescriptorType_code PXIBuffer in
  let type := if is_read_only then type .| 0x2 else type in
  type .| u32 (size ≪ 8) .| ((buffer_id .& 0xF) ≪ 4).

(* src: core/hle/ipc.h | R = 1, | MappedBufferPermissions *)
Definition PERM_R : Z := 1.
(* src: core/hle/ipc.h | W = 2, | MappedBufferPermissions *)
Definition PERM_W : Z := 2.
(* src: core/hle/ipc.h | RW = R | MappedBufferPermissions *)
Definition PERM_RW : Z := PERM_R .| PERM_W.

(* src: core/hle/ipc.h | BitField<0, 4, u32> flags; | MappedBufferDescInfo *)
Definition mb_flags := BitField 0 4.
(* src: core/hle/ipc.h | BitField<1, 2, MappedBufferPermissions> perms; | MappedBufferDescInfo *)
Definition mb_perms_field := BitField 1 2.
(* src: core/hle/ipc.h | BitField<4, 28, u32> size; | MappedBufferDescInfo *)
Definition mb_size_field := BitField 4 28.

(* src: core/hle/ipc.h | inline u32 MappedBufferDesc( *)
Definition MappedBufferDesc (size perms : Z) : Z :=
  let info := Assign 32 mb_flags 0 (DescriptorType_code MappedBufferType) in
  let info := Assign 32 mb_perms_field info perms in
  Assign 32 mb_size_field info (u32 size).

(** The cast of an integer to [DescriptorType]. *)
(* src: core/hle/ipc.h | enum DescriptorType : u32 { | DescriptorType *)
Definition to_DescriptorType (b : Z) : DescriptorType :=
  if b =? 0x02 then StaticBuffer else if b =? 0x04 then PXIBuffer
  else if b =? 0x08 then MappedBufferType else if b =? 0x00 then CopyHandle
  else if b =? 0x10 then MoveHandle else if b =? 0x20 then CallingPid
  else OtherDescriptor b.

(* src: core/hle/ipc.h | inline DescriptorType GetDescriptorType( *)
Definition GetDescriptorType (descriptor : Z) : DescriptorType :=
  if IsHandleDescriptor descriptor then to_DescriptorType (descriptor .& 0x30)
  else if nz (descriptor .& DescriptorType_code MappedBufferType) then MappedBufferType
  else if nz (descriptor .& DescriptorType_code PXIBuffer) then PXIBuffer
  else StaticBuffer.

(** * Words and bytes of a command buffer *)

(** [memcpy(cmdbuf + index, bytes, n)] and [memcpy(bytes, cmdbuf + index, n)]. *)
Fixpoint words_put (ws : list Z) (bs : list Z) : list Z :=
  match ws, bs with
  | [], _ => []
  | _, [] => ws
  | w :: ws', _ =>
      let n := length (take 4 bs) in
      le_combine (take 4 bs ++ drop n (le_split 4 w)) :: words_put ws' (drop 4 bs)
  end.
Definition put_bytes (buf : list Z) (index : nat) (bs : list Z) : list Z :=
  take index buf ++ words_put (drop index buf) bs.
Definition get_bytes (buf : list Z) (index n : nat) : list Z :=
  take n (drop index buf ≫= le_split 4).

(** * Request contexts ([hle_ipc.h]) *)

(** The guest memory of a process: what the translation relies on. *)
Class GuestMemory (Mem : Type) := {
  ReadBlock : Mem -> Z -> Z -> list Z;
  WriteBlock : Mem -> Z -> list Z -> Mem
}.

(** The memory and the process of the buffer are the context's. *)
(* src: kernel/hle_ipc.h | class MappedBuffer { *)
Record MappedBuffer := mk_MappedBuffer {
  mb_id : Z; mb_address : Z; mb_size : Z; mb_perms : Z
}.

(* src: kernel/hle_ipc.cpp | MappedBuffer::MappedBuffer(Memory::MemorySystem& memory, std::shared_ptr<Process> process, *)
Definition new_MappedBuffer (descriptor address id : Z) : MappedBuffer :=
  mk_MappedBuffer id address (ExtractValue 32 mb_size_field descriptor)
    (ExtractValue 32 mb_perms_field descriptor).

(* src: kernel/hle_ipc.h | u32 GenerateDescriptor() const { *)
Definition GenerateDescriptor (b : MappedBuffer) : Z := MappedBufferDesc (mb_size b) (mb_perms b).

Section mapped_buffer.
Context {Mem : Type} `{!GuestMemory Mem} (m : Mem) (b : MappedBuffer).

(* src: kernel/hle_ipc.cpp | void MappedBuffer::Read( *)
Definition MappedBuffer_Read (offset size : Z) : option (list Z) :=
  if nz (mb_perms b .& PERM_R) && (offset + size <=? mb_size b)
  then Some (ReadBlock m (u32 (mb_address b + u32 offset)) size) else None.

(* src: kernel/hle_ipc.cpp | void MappedBuffer::Write( *)
Definition MappedBuffer_Write (src_buffer : list Z) (offset : Z) : option Mem :=
  if nz (mb_perms b .& PERM_W) && (offset + Z.of_nat (length src_buffer) <=? mb_size b)
  then Some (WriteBlock m (u32 (mb_address b + u32 offset)) src_buffer) else None.
End mapped_buffer.

Section context.
Context {Obj : Type}.

(* src: kernel/hle_ipc.h | std::array<u32, IPC::COMMAND_BUFFER_LENGTH> cmd_buf; | HLERequestContext | ..request_mapped_buffers; *)
Record HLERequestContext := mk_HLERequestContext {
  cmd_buf : list Z; (* COMMAND_BUFFER_LENGTH *)
  request_handles : list (option Obj);
  static_buffers : list (list Z); (* MAX_STATIC_BUFFERS *)
  request_mapped_buffers : list MappedBuffer
}.

(* src: kernel/hle_ipc.cpp | std::shared_ptr<Object> HLERequestContext::GetIncomingHandle *)
Definition GetIncomingHandle (c : HLERequestContext) (id : Z) : option (option Obj) :=
  request_handles c !! Z.to_nat id.

(* src: kernel/hle_ipc.cpp | u32 HLERequestContext::AddOutgoingHandle *)
Definition AddOutgoingHandle (c : HLERequestContext) (object : option Obj) : HLERequestContext * Z :=
  (c<|request_handles := request_handles c ++ [object]|>,
   u32 (Z.of_nat (length (request_handles c)))).

(* src: kernel/hle_ipc.cpp | void HLERequestContext::ClearIncomingObjects() { *)
Definition ClearIncomingObjects (c : HLERequestContext) : HLERequestContext :=
  c<|request_handles := []|>.

(* src: kernel/hle_ipc.cpp | const std::vector<u8>& HLERequestContext::GetStaticBuffer *)
Definition GetStaticBuffer (c : HLERequestContext) (buffer_id : Z) : option (list Z) :=
  static_buffers c !! Z.to_nat buffer_id.

(* src: kernel/hle_ipc.cpp | void HLERequestContext::AddStaticBuffer *)
Definition AddStaticBuffer (c : HLERequestContext) (buffer_id : Z) (data : list Z) : HLERequestContext :=
  c<|static_buffers := <[Z.to_nat buffer_id := data]> (static_buffers c)|>.

(* src: kernel/hle_ipc.cpp | MappedBuffer& HLERequestContext::GetMappedBuffer( *)
Definition GetMappedBuffer (c : HLERequestContext) (id : Z) : option MappedBuffer :=
  request_mapped_buffers c !! Z.to_nat id.

(** * Builder and parser ([ipc_helpers.h]) *)

(* src: ipc_helpers.h | class RequestHelperBase { | RequestHelperBase | +10 *)
Record RequestHelper := mk_RequestHelper {
  context : HLERequestContext; index : Z; header : Z
}.

(** The operations move [index] and may write the buffer: a state and option
    monad. *)
Definition IPC (A : Type) : Type := RequestHelper -> option (A * RequestHelper).
Definition ipc_ret {A} (a : A) : IPC A := fun h => Some (a, h).
Definition ipc_bind {A B} (x : IPC A) (k : A -> IPC B) : IPC B :=
  fun h => '(a, h) ← x h; k a h.
End context.
Arguments HLERequestContext : clear implicits.
Arguments RequestHelper : clear implicits.
Arguments IPC : clear implicits.
Notation "x <-- c ;; k" := (ipc_bind c (fun x => k)) (at level 100, c at next level, right associativity).
Notation "c ;;; k" := (ipc_bind c (fun _ => k)) (at level 100, right associativity).

Section helper.
Context {Obj : Type}.
Implicit Types h : RequestHelper Obj.

(* src: ipc_helpers.h | std::size_t TotalSize() const { *)
Definition TotalSize h : Z :=
  1 + ExtractValue 32 normal_params_size (header h)
    + ExtractValue 32 translate_params_size (header h).

(* src: ipc_helpers.h | void ValidateHeader() { *)
Definition ValidateHeader h : bool := index h =? TotalSize h.

(** Access to the command buffer; outside it, the behaviour is undefined. *)
Definition in_buffer (h : RequestHelper Obj) (size_in_words : Z) : bool :=
  index h + size_in_words <=? Z.of_nat (length (cmd_buf (context h))).

(* src: ipc_helpers.h | void Skip(unsigned size_in_words, bool set_to_null) { *)
Definition Skip (size_in_words : Z) (set_to_null : bool) : IPC Obj unit := fun h =>
  if set_to_null && negb (in_buffer h size_in_words) then None
  else
    let buf := cmd_buf (context h) in
    let i := Z.to_nat (index h) in
    let n := Z.to_nat size_in_words in
    let buf := if set_to_null then take i buf ++ replicate n 0 ++ drop (i + n) buf else buf in
    Some (tt, h<|context := (context h)<|cmd_buf := buf|>|><|index := index h + size_in_words|>).

(* src: ipc_helpers.h | RequestBuilder(Kernel::HLERequestContext& context, Header command_header) *)
Definition RequestBuilder (c : HLERequestContext Obj) (command_header : Z) : RequestHelper Obj :=
  let c := ClearIncomingObjects c in
  mk_RequestHelper (c<|cmd_buf := <[0%nat := command_header]> (cmd_buf c)|>) 1 command_header.

(* src: ipc_helpers.h | RequestBuilder(Kernel::HLERequestContext& context, u16 command_id, unsigned normal_params_size, | RequestBuilder | +4 *)
Definition RequestBuilder_make (c : HLERequestContext Obj) (cmd normal translate : Z)
    : RequestHelper Obj :=
  RequestBuilder c (MakeHeader cmd normal translate).

(* src: ipc_helpers.h | inline void RequestBuilder::Push(u32 value) { *)
Definition Push_u32 (value : Z) : IPC Obj unit := fun h =>
  if in_buffer h 1 then
    Some (tt, h<|context := (context h)<|cmd_buf :=
                  <[Z.to_nat (index h) := value]> (cmd_buf (context h))|>|>
               <|index := index h + 1|>)
  else None.
(* src: ipc_helpers.h | inline void RequestBuilder::Push(s32 value) { *)
Definition Push_s32 (value : Z) : IPC Obj unit := Push_u32 (u32 value).

(** The object representation of the value is given as its bytes. *)
(* src: ipc_helpers.h | void RequestBuilder::PushRaw(const T& value) { *)
Definition PushRaw (value : list Z) : IPC Obj unit := fun h =>
  let words := Z.of_nat (length value + 3) / 4 in
  if in_buffer h words then
    Some (tt, h<|context := (context h)<|cmd_buf :=
                  put_bytes (cmd_buf (context h)) (Z.to_nat (index h)) value|>|>
               <|index := index h + words|>)
  else None.

(* src: ipc_helpers.h | inline void RequestBuilder::Push(u8 value) { *)
Definition Push_u8 (value : Z) : IPC Obj unit := PushRaw (le_split 1 value).
(* src: ipc_helpers.h | inline void RequestBuilder::Push(u16 value) { *)
Definition Push_u16 (value : Z) : IPC Obj unit := PushRaw (le_split 2 value).
(* src: ipc_helpers.h | inline void RequestBuilder::Push(u64 value) { *)
Definition Push_u64 (value : Z) : IPC Obj unit :=
  Push_u32 (u32 value);;; Push_u32 (u32 (value ≫ 32)).
(** Floating-point values are given by their bits. *)
(* src: ipc_helpers.h | inline void RequestBuilder::Push(f32 value) { *)
Definition Push_f32 (value : Z) : IPC Obj unit := Push_u32 value.
(* src: ipc_helpers.h | inline void RequestBuilder::Push(f64 value) { *)
Definition Push_f64 (value : Z) : IPC Obj unit := Push_u64 value.
(* src: ipc_helpers.h | inline void RequestBuilder::Push(bool value) { *)
Definition Push_bool (value : bool) : IPC Obj unit := Push_u8 (Z.b2z value).
(* src: ipc_helpers.h | inline void RequestBuilder::Push(Result value) { *)
Definition Push_Result (value : Result) : IPC Obj unit := Push_u32 (raw value).

(* src: ipc_helpers.h | void RequestBuilder::Push(const First& first_value, const Other&... other_values) { *)
Fixpoint Push_all (values : list Z) : IPC Obj unit :=
  match values with
  | [] => ipc_ret tt
  | v :: values => Push_u32 v;;; Push_all values
  end.

(* src: ipc_helpers.h | inline void RequestBuilder::PushCopyHLEHandles(H... handles) { *)
Definition PushCopyHLEHandles (handles : list Z) : IPC Obj unit :=
  Push_u32 (CopyHandleDesc (Z.of_nat (length handles)));;; Push_all handles.
(* src: ipc_helpers.h | inline void RequestBuilder::PushMoveHLEHandles(H... handles) { *)
Definition PushMoveHLEHandles (handles : list Z) : IPC Obj unit :=
  Push_u32 (MoveHandleDesc (Z.of_nat (length handles)));;; Push_all handles.

(** Registering the objects of a pack; the order in which C++ evaluates the
    arguments, which fixes the ids, is taken to be left to right. *)
(* src: ipc_helpers.h | inline void RequestBuilder::PushCopyObjects(std::shared_ptr<O>... pointers) { *)
Fixpoint add_outgoing (objs : list (option Obj)) : IPC Obj (list Z) :=
  match objs with
  | [] => ipc_ret []
  | o :: objs =>
      id <-- (fun h => let '(c, id) := AddOutgoingHandle (context h) o in
                       Some (id, h<|context := c|>));;
      ids <-- add_outgoing objs;; ipc_ret (id :: ids)
  end.
(* src: ipc_helpers.h | inline void RequestBuilder::PushCopyObjects(std::shared_ptr<O>... pointers) { *)
Definition PushCopyObjects (objs : list (option Obj)) : IPC Obj unit :=
  ids <-- add_outgoing objs;; PushCopyHLEHandles ids.
(* src: ipc_helpers.h | inline void RequestBuilder::PushMoveObjects(std::shared_ptr<O>... pointers) { *)
Definition PushMoveObjects (objs : list (option Obj)) : IPC Obj unit :=
  ids <-- add_outgoing objs;; PushMoveHLEHandles ids.

(* src: ipc_helpers.h | inline void RequestBuilder::PushStaticBuffer(std::vector<u8> buffer, u8 buffer_id) { *)
Definition PushStaticBuffer (buffer : list Z) (buffer_id : Z) : IPC Obj unit :=
  if buffer_id <? MAX_STATIC_BUFFERS then
    Push_u32 (StaticBufferDesc (Z.of_nat (length buffer)) buffer_id);;;
    Push_u32 0xDEADC0DE;;;
    (fun h => Some (tt, h<|context := AddStaticBuffer (context h) buffer_id buffer|>))
  else fun _ => None.

(* src: ipc_helpers.h | inline void RequestBuilder::PushMappedBuffer( *)
Definition PushMappedBuffer (b : MappedBuffer) : IPC Obj unit :=
  Push_u32 (GenerateDescriptor b);;; Push_u32 (mb_id b).

(* src: ipc_helpers.h | RequestParser(Kernel::HLERequestContext& context) *)
Definition RequestParser (c : HLERequestContext Obj) : RequestHelper Obj :=
  mk_RequestHelper c 1 (cmd_buf c !!! 0%nat).

(** Outside debug builds [ValidateHeader] does nothing. *)
(* src: ipc_helpers.h | RequestBuilder MakeBuilder(u32 normal_params_size, u32 translate_params_size, *)
Definition MakeBuilder (normal translate : Z) h : RequestHelper Obj :=
  RequestBuilder (context h)
    (MakeHeader (u16 (ExtractValue 32 command_id (header h))) normal translate).

(* src: ipc_helpers.h | inline u32 RequestParser::Pop() { *)
Definition Pop_u32 : IPC Obj Z := fun h =>
  if in_buffer h 1 then
    Some (cmd_buf (context h) !!! Z.to_nat (index h), h<|index := index h + 1|>)
  else None.

(* src: ipc_helpers.h | void RequestParser::PopRaw(T& value) { *)
Definition PopRaw (size : nat) : IPC Obj (list Z) := fun h =>
  let words := Z.of_nat (size + 3) / 4 in
  if in_buffer h words then
    Some (get_bytes (cmd_buf (context h)) (Z.to_nat (index h)) size,
          h<|index := index h + words|>)
  else None.

(* src: ipc_helpers.h | inline u8 RequestParser::Pop() { *)
Definition Pop_u8 : IPC Obj Z := b <-- PopRaw 1;; ipc_ret (le_combine b).
(* src: ipc_helpers.h | inline u16 RequestParser::Pop() { *)
Definition Pop_u16 : IPC Obj Z := b <-- PopRaw 2;; ipc_ret (le_combine b).
(* src: ipc_helpers.h | inline u64 RequestParser::Pop() { *)
Definition Pop_u64 : IPC Obj Z :=
  lsw <-- Pop_u32;; msw <-- Pop_u32;; ipc_ret (u64 (msw ≪ 32) .| lsw).
(* src: ipc_helpers.h | inline s32 RequestParser::Pop() { *)
Definition Pop_s32 : IPC Obj Z := b <-- PopRaw 4;; ipc_ret (s32 (le_combine b)).
(* src: ipc_helpers.h | inline f32 RequestParser::Pop() { *)
Definition Pop_f32 : IPC Obj Z := Pop_u32.
(* src: ipc_helpers.h | inline f64 RequestParser::Pop() { *)
Definition Pop_f64 : IPC Obj Z := Pop_u64.
(* src: ipc_helpers.h | inline bool RequestParser::Pop() { *)
Definition Pop_bool : IPC Obj bool := b <-- Pop_u8;; ipc_ret (negb (b =? 0)).
(* src: ipc_helpers.h | inline Result RequestParser::Pop() { *)
Definition Pop_Result : IPC Obj Result := v <-- Pop_u32;; ipc_ret (mk_Result v).

(* src: ipc_helpers.h | void RequestParser::Pop(First& first_value, Other&... other_values) { *)
Fixpoint Pop_all (n : nat) : IPC Obj (list Z) :=
  match n with
  | O => ipc_ret []
  | Datatypes.S n => v <-- Pop_u32;; vs <-- Pop_all n;; ipc_ret (v :: vs)
  end.

(** An assertion of the parser. *)
Definition ipc_assert (b : bool) : IPC Obj unit := fun h => if b then Some (tt, h) else None.

(* src: ipc_helpers.h | std::array<u32, N> RequestParser::PopHLEHandles() { *)
Definition PopHLEHandles (n : nat) : IPC Obj (list Z) :=
  handle_descriptor <-- Pop_u32;;
  ipc_assert (IsHandleDescriptor handle_descriptor);;;
  ipc_assert (Z.of_nat n =? HandleNumberFromDesc handle_descriptor);;;
  Pop_all n.

(* src: ipc_helpers.h | inline std::array<std::shared_ptr<Kernel::Object>, N> RequestParser::PopGenericObjects() { *)
Definition PopGenericObjects (n : nat) : IPC Obj (list (option Obj)) :=
  handles <-- PopHLEHandles n;;
  (fun h => objs ← mapM (GetIncomingHandle (context h)) handles; Some (objs, h)).

(* src: ipc_helpers.h | inline std::shared_ptr<Kernel::Object> RequestParser::PopGenericObject() { *)
Definition PopGenericObject : IPC Obj (option Obj) :=
  objs <-- PopGenericObjects 1;; ipc_ret (mjoin (objs !! 0%nat)).

(* src: ipc_helpers.h | inline u32 RequestParser::PopPID() { *)
Definition PopPID : IPC Obj Z :=
  d <-- Pop_u32;; ipc_assert (d =? DescriptorType_code CallingPid);;; Pop_u32.

(* src: ipc_helpers.h | inline const std::vector<u8>& RequestParser::PopStaticBuffer() { *)
Definition PopStaticBuffer : IPC Obj (list Z) :=
  sbuffer_descriptor <-- Pop_u32;;
  Pop_u32;;;
  (fun h => b ← GetStaticBuffer (context h) (u8 (ExtractValue 32 sb_buffer_id sbuffer_descriptor));
            Some (b, h)).

(* src: ipc_helpers.h | inline Kernel::MappedBuffer& RequestParser::PopMappedBuffer() { *)
Definition PopMappedBuffer : IPC Obj MappedBuffer :=
  mapped_buffer_descriptor <-- Pop_u32;;
  ipc_assert (match GetDescriptorType mapped_buffer_descriptor with
              | MappedBufferType => true | _ => false end);;;
  id <-- Pop_u32;;
  (fun h => b ← GetMappedBuffer (context h) id; Some (b, h)).
End helper.

(** * Translation for HLE services ([hle_ipc.cpp]) *)

(** What the translation uses of the requesting process. *)
Record IpcProcess (Obj Mem : Type) := mk_IpcProcess {
  handle_table : HandleTable Obj; process_id : Z; process_mem : Mem
}.
Arguments mk_IpcProcess {Obj Mem}.
Arguments handle_table {Obj Mem}.
Arguments process_id {Obj Mem}.
Arguments process_mem {Obj Mem}.

Section translation.
Context {Obj Mem : Type} `{!GuestMemory Mem}.
(** The objects the pseudo-handles name. *)
Context (current_thread current_process : option Obj).

(** The loop state of the incoming translation: context, process and [i]. *)
Definition incoming_state : Type := HLERequestContext Obj * IpcProcess Obj Mem * nat.

(** The handles of one descriptor. *)
(* src: kernel/hle_ipc.cpp | for (u32 j = 0; j < num_handles; ++j) { #1 | HLERequestContext::PopulateFromIncomingCommandBuffer *)
Fixpoint incoming_handles (src : list Z) (descriptor : Z) (num_handles : nat)
    (st : incoming_state) : option incoming_state :=
  match num_handles with
  | O => Some st
  | Datatypes.S n =>
      let '(c, p, i) := st in
      handle ← src !! i;
      '(object, p) ←
        (if handle =? 0 then Some (None, p)
         else
           object ← GetGeneric current_thread current_process (handle_table p) handle;
           let p :=
             if descriptor =? DescriptorType_code MoveHandle
             then mk_IpcProcess (snd (Close (handle_table p) handle)) (process_id p) (process_mem p)
             else p in
           Some (Some object, p));
      let '(c, id) := AddOutgoingHandle c object in
      let c := c<|cmd_buf := <[i := id]> (cmd_buf c)|> in
      incoming_handles src descriptor n (c, p, Datatypes.S i)
  end.

(** The parameter of a descriptor in the last word of the buffer lies outside of it. *)
Definition put_word (c : HLERequestContext Obj) (i : nat) (w : Z) : option (HLERequestContext Obj) :=
  if decide (i < length (cmd_buf c))%nat then Some (c<|cmd_buf := <[i := w]> (cmd_buf c)|>) else None.

(** One descriptor with its parameters; another descriptor is logged and left. *)
(* src: kernel/hle_ipc.cpp | while (i < command_size) { #1 | HLERequestContext::PopulateFromIncomingCommandBuffer *)
Definition incoming_step (src : list Z) (command_size : nat) (st : incoming_state)
    : option incoming_state :=
  let '(c, p, i) := st in
  descriptor ← src !! i;
  let c := c<|cmd_buf := <[i := descriptor]> (cmd_buf c)|> in
  let i := Datatypes.S i in
  match GetDescriptorType descriptor with
  | CopyHandle | MoveHandle =>
      let num_handles := HandleNumberFromDesc descriptor in
      if Z.of_nat i + num_handles <=? Z.of_nat command_size
      then incoming_handles src descriptor (Z.to_nat num_handles) (c, p, i)
      else None
  | CallingPid => c ← put_word c i (process_id p); Some (c, p, Datatypes.S i)
  | StaticBuffer =>
      source_address ← src !! i;
      let data := ReadBlock (process_mem p) source_address (ExtractValue 32 sb_size descriptor) in
      let c := AddStaticBuffer c (ExtractValue 32 sb_buffer_id descriptor) data in
      c ← put_word c i source_address; Some (c, p, Datatypes.S i)
  | MappedBufferType =>
      source_address ← src !! i;
      let next_id := u32 (Z.of_nat (length (request_mapped_buffers c))) in
      let c := c<|request_mapped_buffers := request_mapped_buffers c
                    ++ [new_MappedBuffer descriptor source_address next_id]|> in
      c ← put_word c i next_id; Some (c, p, Datatypes.S i)
  | PXIBuffer | OtherDescriptor _ => Some (c, p, i)
  end.

(** The loop; every step takes at least one word, so the words left are enough
    iterations. *)
(* src: kernel/hle_ipc.cpp | while (i < command_size) { #1 | HLERequestContext::PopulateFromIncomingCommandBuffer *)
Fixpoint incoming_loop (fuel : nat) (src : list Z) (command_size : nat) (st : incoming_state)
    : option incoming_state :=
  if (snd st <? command_size)%nat then
    match fuel with
    | O => None
    | Datatypes.S fuel => st ← incoming_step src command_size st; incoming_loop fuel src command_size st
    end
  else Some st.

(** [1 + normal_params_size] and the size with the translate parameters. *)
(* src: kernel/hle_ipc.cpp | std::size_t untranslated_size = 1u + header.normal_params_size; #1 | HLERequestContext::PopulateFromIncomingCommandBuffer *)
Definition untranslated_size (header : Z) : nat :=
  Z.to_nat (1 + ExtractValue 32 normal_params_size header).
(* src: kernel/hle_ipc.cpp | std::size_t command_size = untranslated_size + header.translate_params_size; #1 | HLERequestContext::PopulateFromIncomingCommandBuffer *)
Definition command_size (header : Z) : nat :=
  (untranslated_size header + Z.to_nat (ExtractValue 32 translate_params_size header))%nat.

(* src: kernel/hle_ipc.cpp | Result HLERequestContext::PopulateFromIncomingCommandBuffer( *)
Definition PopulateFromIncomingCommandBuffer (c : HLERequestContext Obj) (src : list Z)
    (p : IpcProcess Obj Mem) : option (HLERequestContext Obj * IpcProcess Obj Mem * Result) :=
  header ← src !! 0%nat;
  let us := untranslated_size header in
  let cs := command_size header in
  if Z.of_nat cs <=? COMMAND_BUFFER_LENGTH then
    let c := c<|cmd_buf := take us src ++ drop us (cmd_buf c)|> in
    '(c, p, _) ← incoming_loop (cs - us) src cs (c, p, us);
    Some (c, p, ResultSuccess)
  else None.

(** The loop state of the outgoing translation: the words at [dst_cmdbuf], the
    process and [i]. *)
Definition outgoing_state : Type := list Z * IpcProcess Obj Mem * nat.

(* src: kernel/hle_ipc.cpp | for (u32 j = 0; j < num_handles; ++j) { #2 | HLERequestContext::WriteToOutgoingCommandBuffer *)
Fixpoint outgoing_handles (c : HLERequestContext Obj) (num_handles : nat) (st : outgoing_state)
    : option outgoing_state :=
  match num_handles with
  | O => Some st
  | Datatypes.S n =>
      let '(dst, p, i) := st in
      id ← cmd_buf c !! i;
      object ← GetIncomingHandle c id;
      '(handle, p) ←
        match object with
        | None => Some (0, p)
        | Some object =>
            let '(r, handle, t) := Create (handle_table p) object in
            handle ← handle;
            if R_SUCCEEDED r
            then Some (handle, mk_IpcProcess t (process_id p) (process_mem p)) else None
        end;
      outgoing_handles c n (<[i := handle]> dst, p, Datatypes.S i)
  end.

(* src: kernel/hle_ipc.cpp | while (i < command_size) { #2 | HLERequestContext::WriteToOutgoingCommandBuffer *)
Definition outgoing_step (c : HLERequestContext Obj) (command_size : nat) (st : outgoing_state)
    : option outgoing_state :=
  let '(dst, p, i) := st in
  descriptor ← cmd_buf c !! i;
  let dst := <[i := descriptor]> dst in
  let i := Datatypes.S i in
  match GetDescriptorType descriptor with
  | CopyHandle | MoveHandle =>
      let num_handles := HandleNumberFromDesc descriptor in
      if Z.of_nat i + num_handles <=? Z.of_nat command_size
      then outgoing_handles c (Z.to_nat num_handles) (dst, p, i)
      else None
  | StaticBuffer =>
      data ← GetStaticBuffer c (ExtractValue 32 sb_buffer_id descriptor);
      let static_buffer_offset :=
        Z.to_nat (COMMAND_BUFFER_LENGTH + 2 * ExtractValue 32 sb_buffer_id descriptor) in
      target_descriptor ← dst !! static_buffer_offset;
      target_address ← dst !! Datatypes.S static_buffer_offset;
      if Z.of_nat (length data) <=? ExtractValue 32 sb_size target_descriptor then
        let p := mk_IpcProcess (handle_table p) (process_id p)
                   (WriteBlock (process_mem p) target_address data) in
        Some (<[i := target_address]> dst, p, Datatypes.S i)
      else None
  | MappedBufferType =>
      id ← cmd_buf c !! i;
      b ← request_mapped_buffers c !! Z.to_nat id;
      Some (<[i := mb_address b]> dst, p, Datatypes.S i)
  | CallingPid | PXIBuffer | OtherDescriptor _ => Some (dst, p, i)
  end.

(* src: kernel/hle_ipc.cpp | while (i < command_size) { #2 | HLERequestContext::WriteToOutgoingCommandBuffer *)
Fixpoint outgoing_loop (fuel : nat) (c : HLERequestContext Obj) (command_size : nat)
    (st : outgoing_state) : option outgoing_state :=
  if (snd st <? command_size)%nat then
    match fuel with
    | O => None
    | Datatypes.S fuel => st ← outgoing_step c command_size st; outgoing_loop fuel c command_size st
    end
  else Some st.

(* src: kernel/hle_ipc.cpp | Result HLERequestContext::WriteToOutgoingCommandBuffer( *)
Definition WriteToOutgoingCommandBuffer (c : HLERequestContext Obj) (dst : list Z)
    (p : IpcProcess Obj Mem) : option (list Z * IpcProcess Obj Mem * Result) :=
  header ← cmd_buf c !! 0%nat;
  let us := untranslated_size header in
  let cs := command_size header in
  if Z.of_nat cs <=? COMMAND_BUFFER_LENGTH then
    let dst := take us (cmd_buf c) ++ drop us dst in
    '(dst, p, _) ← outgoing_loop (cs - us) c cs (dst, p, us);
    Some (dst, p, ResultSuccess)
  else None.
End translation.

(** * Properties of command words *)

Ltac read_field :=
  first [ rewrite Extract_Assign by reflexivity
        | rewrite Extract_Assign_other by reflexivity ].

Lemma MakeHeader_fields cmd normal translate :
  in_range 16 cmd -> in_range 6 normal -> in_range 6 translate ->
  let h := MakeHeader cmd normal translate in
  ExtractValue 32 command_id h = cmd ∧
  ExtractValue 32 normal_params_size h = normal ∧
  ExtractValue 32 translate_params_size h = translate.
Proof.
  intros Hc Hn Ht. unfold MakeHeader. rewrite (uwrap_id 16 cmd) by done.
  split_and!; repeat read_field; by apply Z.mod_small.
Qed.

Lemma handle_desc_value (t : Z) n : t = 0 ∨ t = 0x10 -> 1 <= n <= 64 ->
  t .| u32 (u32 (n - 1) ≪ 26) = t + (n - 1) * 2 ^ 26.
Proof.
  intros Ht Hn. rewrite (uwrap_id 32 (n - 1)) by (unfold in_range; pow2; lia).
  rewrite uwrap_id by (unfold in_range; rewrite shiftl_mul by lia; pow2; lia).
  apply lor_add; [lia|]. unfold in_range. pow2. lia.
Qed.

(** every descriptor the builder emits is recognised as what it is, and its
    parameters are read back: the number of handles, the id and size of a
    static buffer, the size and permissions of a mapped buffer. *)
Theorem descriptors_decode n size id msize perms :
  1 <= n <= 64 -> in_range 18 size -> in_range 4 id -> in_range 28 msize -> 1 <= perms <= 3 ->
  (GetDescriptorType (CopyHandleDesc n) = CopyHandle ∧ HandleNumberFromDesc (CopyHandleDesc n) = n) ∧
  (GetDescriptorType (MoveHandleDesc n) = MoveHandle ∧ HandleNumberFromDesc (MoveHandleDesc n) = n) ∧
  GetDescriptorType CallingPidDesc = CallingPid ∧
  (let d := StaticBufferDesc size id in
   GetDescriptorType d = StaticBuffer ∧ ExtractValue 32 sb_buffer_id d = id ∧
   ExtractValue 32 sb_size d = size) ∧
  (let d := MappedBufferDesc msize perms in
   GetDescriptorType d = MappedBufferType ∧ ExtractValue 32 mb_perms_field d = perms ∧
   ExtractValue 32 mb_size_field d = msize).
Proof.
  intros Hn Hs Hi Hs' Hp. unfold CopyHandleDesc, MoveHandleDesc. cbn [DescriptorType_code].
  rewrite !handle_desc_value by (done || lia || tauto).
  assert (HH : ∀ t, t = 0 ∨ t = 0x10 ->
    IsHandleDescriptor (t + (n - 1) * 2 ^ 26) = true ∧
    ((t + (n - 1) * 2 ^ 26) .& 0x30) = t ∧ HandleNumberFromDesc (t + (n - 1) * 2 ^ 26) = n).
  { intros t Ht. unfold IsHandleDescriptor, HandleNumberFromDesc.
    change 0xF with (2 ^ 4 - 1). rewrite land_mask, shiftr_div by lia.
    assert (L : (t + (n - 1) * 2 ^ 26) .& 0x30 = t).
    { assert (E : ∀ x, x .& 0x30 = (x mod 2 ^ 6) .& 0x30).
      { intros x. change 0x30 with ((2 ^ 6 - 1) .& 0x30). rewrite Z.land_assoc, land_mask by lia.
        by change ((2 ^ 6 - 1) .& 0x30) with 0x30. }
      rewrite E. replace ((t + (n - 1) * 2 ^ 26) mod 2 ^ 6) with t by (destruct Ht; subst; modlia).
      destruct Ht; by subst. }
    rewrite L. split; [|split; [done|]].
    - apply Z.eqb_eq. destruct Ht; subst; modlia.
    - destruct Ht; subst; modlia. }
  assert (F : ∀ d k, in_range 4 k -> ExtractValue 32 (BitField 0 4) d = k -> d .& 0xF = k).
  { intros d k Hk E. unfold ExtractValue in E. rewrite Z.shiftr_0_r in E.
    change (bf_mask 32 (BitField 0 4)) with 0xF in E. done. }
  assert (BL : ∀ d j, 0 <= j < 4 -> d .& (2 ^ j) = (d .& 0xF) .& (2 ^ j)).
  { intros d j Hj. change 0xF with (Z.ones 4). rewrite <- Z.land_assoc, (Z.land_comm (Z.ones 4)).
    rewrite Z.land_ones by lia. f_equal. symmetry. apply Z.mod_small.
    split; [apply Z.pow_nonneg; lia|apply Z.pow_lt_mono_r; lia]. }
  split; [|split; [|split; [done|split]]].
  - destruct (HH 0 ltac:(tauto)) as (A & B & C). unfold GetDescriptorType. by rewrite A, B.
  - destruct (HH 0x10 ltac:(tauto)) as (A & B & C). unfold GetDescriptorType. by rewrite A, B.
  - unfold StaticBufferDesc. set (d := Assign _ _ _ _).
    assert (T : d .& 0xF = 2).
    { apply F; [done|]. unfold d. repeat read_field. done. }
    split; [|split; unfold d; repeat read_field; unfold uwrap].
    + unfold GetDescriptorType, IsHandleDescriptor. cbn [DescriptorType_code].
      pose proof (BL d 3 ltac:(lia)) as B3. pose proof (BL d 2 ltac:(lia)) as B2.
      change (2 ^ 3) with 8 in B3. change (2 ^ 2) with 4 in B2. by rewrite B3, B2, T.
    + by apply Z.mod_small.
    + rewrite (Z.mod_small size (2 ^ 32)) by (unfold in_range in Hs; pow2; lia). by apply Z.mod_small.
  - unfold MappedBufferDesc. set (d := Assign _ _ _ _).
    assert (P : ExtractValue 32 mb_perms_field d = perms)
      by (unfold d; repeat read_field; apply Z.mod_small; simpl bits; pow2; lia).
    split; [|split; [done|]].
    + assert (M : nz (d .& 8) = true).
      { apply nz_spec. intros Z0. assert (B : Z.testbit d 3 = true).
        { unfold d. rewrite !Assign_spec by (done || lia). done. }
        apply (f_equal (fun x => Z.testbit x 3)) in Z0. rewrite Z.land_spec, B in Z0. done. }
      assert (IsHandleDescriptor d = false) as IH.
      { unfold IsHandleDescriptor. apply Z.eqb_neq. intros Z0.
        pose proof (BL d 3 ltac:(lia)) as B3. change (2 ^ 3) with 8 in B3. by rewrite B3, Z0 in M. }
      unfold GetDescriptorType. rewrite IH. cbn [DescriptorType_code]. by rewrite M.
    + unfold d. repeat read_field. unfold uwrap. rewrite (Z.mod_small msize (2 ^ 32)) by (unfold in_range in Hs'; pow2; lia).
      by apply Z.mod_small.
Qed.

(** * Pushing and popping *)

(** The types of parameters a request carries. *)
Inductive ipc_value :=
  V_u8 (x : Z) | V_u16 (x : Z) | V_u32 (x : Z) | V_s32 (x : Z) | V_u64 (x : Z)
| V_bool (x : bool) | V_Result (x : Result).

Definition value_ok (v : ipc_value) : Prop :=
  match v with
  | V_u8 x => in_range 8 x | V_u16 x => in_range 16 x | V_u32 x => in_range 32 x
  | V_s32 x => in_srange 32 x | V_u64 x => in_range 64 x | V_bool _ => True
  | V_Result r => in_range 32 (raw r)
  end.
Definition value_words (v : ipc_value) : Z := match v with V_u64 _ => 2 | _ => 1 end.

Section roundtrip.
Context {Obj : Type}.
Implicit Types (h : RequestHelper Obj) (c : HLERequestContext Obj).

Definition push_value (v : ipc_value) : IPC Obj unit :=
  match v with
  | V_u8 x => Push_u8 x | V_u16 x => Push_u16 x | V_u32 x => Push_u32 x
  | V_s32 x => Push_s32 x | V_u64 x => Push_u64 x | V_bool x => Push_bool x
  | V_Result x => Push_Result x
  end.

(** Popping a value of the type of [v]. *)
Definition pop_value (v : ipc_value) : IPC Obj ipc_value :=
  match v with
  | V_u8 _ => x <-- Pop_u8;; ipc_ret (V_u8 x)
  | V_u16 _ => x <-- Pop_u16;; ipc_ret (V_u16 x)
  | V_u32 _ => x <-- Pop_u32;; ipc_ret (V_u32 x)
  | V_s32 _ => x <-- Pop_s32;; ipc_ret (V_s32 x)
  | V_u64 _ => x <-- Pop_u64;; ipc_ret (V_u64 x)
  | V_bool _ => x <-- Pop_bool;; ipc_ret (V_bool x)
  | V_Result _ => x <-- Pop_Result;; ipc_ret (V_Result x)
  end.

Fixpoint push_values (vs : list ipc_value) : IPC Obj unit :=
  match vs with [] => ipc_ret tt | v :: vs => push_value v;;; push_values vs end.
Fixpoint pop_values (vs : list ipc_value) : IPC Obj (list ipc_value) :=
  match vs with
  | [] => ipc_ret []
  | v :: vs => x <-- pop_value v;; xs <-- pop_values vs;; ipc_ret (x :: xs)
  end.

(** A helper with the buffer [buf] at position [i]. *)
Definition at_index h (buf : list Z) (i : Z) : RequestHelper Obj :=
  h<|context := (context h)<|cmd_buf := buf|>|><|index := i|>.

Lemma put_bytes_word buf i w bs :
  buf !! i = Some w -> (0 < length bs <= 4)%nat ->
  put_bytes buf i bs = <[i := le_combine (bs ++ drop (length bs) (le_split 4 w))]> buf.
Proof.
  intros Hw Hl. unfold put_bytes. pose proof (lookup_lt_Some _ _ _ Hw).
  rewrite (insert_take_drop buf i) by done. f_equal.
  rewrite (drop_S _ _ _ Hw). destruct bs as [|b bs]; [simpl in Hl; lia|].
  cbn [words_put]. rewrite take_ge by lia. f_equal.
  rewrite (drop_ge (b :: bs)) by lia. by destruct (drop (Datatypes.S i) buf).
Qed.

Lemma get_bytes_word buf i w n : buf !! i = Some w -> (n <= 4)%nat ->
  get_bytes buf i n = take n (le_split 4 w).
Proof.
  intros Hw Hn. unfold get_bytes. rewrite (drop_S _ _ _ Hw). cbn [mbind list_bind].
  rewrite take_app_le; [done|]. by rewrite length_le_split.
Qed.

(** Pushing [v] at [index h] writes its words and nothing before them; popping
    from any buffer with these words returns it. *)
Lemma push_value_spec v h :
  value_ok v -> 0 <= index h -> index h + value_words v <= Z.of_nat (length (cmd_buf (context h))) ->
  ∃ buf, push_value v h = Some (tt, at_index h buf (index h + value_words v)) ∧
  length buf = length (cmd_buf (context h)) ∧
  (∀ k, (k < Z.to_nat (index h))%nat -> buf !! k = cmd_buf (context h) !! k) ∧
  ∀ h', index h' = index h ->
    length (cmd_buf (context h')) = length buf ->
    (∀ k, (Z.to_nat (index h) <= k < Z.to_nat (index h + value_words v))%nat ->
      cmd_buf (context h') !! k = buf !! k) ->
    pop_value v h' = Some (v, h'<|index := index h + value_words v|>).
Proof.
  destruct h as [c i hd]. cbn [index context]. intros Hv Hi Hfit.
  set (buf := cmd_buf c) in *.
  assert (W : ∃ w, buf !! Z.to_nat i = Some w)
    by (apply lookup_lt_is_Some_2; destruct v; simpl in Hfit; lia).
  destruct W as [w Hw].
  (* one word *)
  assert (One : ∀ x, let b := <[Z.to_nat i := x]> buf in
    length b = length buf ∧ (∀ k, (k < Z.to_nat i)%nat -> b !! k = buf !! k) ∧ b !! Z.to_nat i = Some x).
  { intros x b. unfold b. rewrite length_insert. split; [done|]. split.
    - intros k Hk. apply list_lookup_insert_ne. lia.
    - apply list_lookup_insert_eq. apply lookup_lt_Some in Hw. done. }
  assert (Bytes : ∀ n x, (0 < n <= 4)%nat -> in_range (8 * Z.of_nat n) x ->
    ∃ y, put_bytes buf (Z.to_nat i) (le_split n x) = <[Z.to_nat i := y]> buf ∧
      ∀ b, b !! Z.to_nat i = Some y -> le_combine (get_bytes b (Z.to_nat i) n) = x).
  { intros n x Hn Hx. eexists. split; [apply put_bytes_word; [done|by rewrite length_le_split]|].
    intros b Hb. rewrite (get_bytes_word _ _ _ _ Hb) by lia. rewrite length_le_split.
    replace 4%nat with (n + length (drop n (le_split 4 w)))%nat at 1
      by (rewrite length_drop, length_le_split; lia).
    rewrite le_split_combine_app, le_combine_split. by apply Z.mod_small. }
  assert (Fit : ∀ h', length (cmd_buf (context h')) = length buf -> index h' = i ->
    ∀ k, k <= value_words v -> in_buffer h' k = true).
  { intros h' E1 E2 k Hk. unfold in_buffer. rewrite E1, E2. apply Z.leb_le. lia. }
  assert (Inb : ∀ k, k <= value_words v -> in_buffer (mk_RequestHelper c i hd) k = true)
    by (by apply Fit).
  assert (Look : ∀ (h' : RequestHelper Obj) (b : list Z) y, index h' = i ->
    (∀ k, (Z.to_nat i <= k < Z.to_nat (i + value_words v))%nat -> cmd_buf (context h') !! k = b !! k) ->
    b !! Z.to_nat i = Some y -> cmd_buf (context h') !! Z.to_nat (index h') = Some y).
  { intros h' b y E1 E2 E3. rewrite E1, E2, E3; [done|destruct v; simpl; lia]. }
  destruct v as [x|x|x|x|x|x|x]; cbn [push_value pop_value value_words value_ok] in *.
  - destruct (Bytes 1%nat x ltac:(lia) Hv) as (y & E & G). destruct (One y) as (L1 & L2 & L3).
    eexists. split; [unfold Push_u8, PushRaw; rewrite Inb by (vm_compute; discriminate); cbn [context index]; fold buf; by rewrite E|].
    split; [done|]. split; [done|]. intros h' Ei El Ek. cbn [context index] in El, Ek; fold buf in El, Ek; rewrite L1 in El.
    unfold Pop_u8, PopRaw, ipc_bind, ipc_ret. rewrite Fit by (done || lia || (vm_compute; discriminate)). simpl.
    specialize (Look h' _ y Ei Ek L3). rewrite Ei in *. by rewrite G.
  - destruct (Bytes 2%nat x ltac:(lia) Hv) as (y & E & G). destruct (One y) as (L1 & L2 & L3).
    eexists. split; [unfold Push_u16, PushRaw; rewrite Inb by (vm_compute; discriminate); cbn [context index]; fold buf; by rewrite E|].
    split; [done|]. split; [done|]. intros h' Ei El Ek. cbn [context index] in El, Ek; fold buf in El, Ek; rewrite L1 in El.
    unfold Pop_u16, PopRaw, ipc_bind, ipc_ret. rewrite Fit by (done || lia || (vm_compute; discriminate)). simpl.
    specialize (Look h' _ y Ei Ek L3). rewrite Ei in *. by rewrite G.
  - destruct (One x) as (L1 & L2 & L3).
    eexists. split; [unfold Push_u32; by rewrite Inb by lia|].
    split; [done|]. split; [done|]. intros h' Ei El Ek. cbn [context index] in El, Ek; fold buf in El, Ek; rewrite L1 in El.
    unfold Pop_u32, ipc_bind, ipc_ret. rewrite Fit by (done || lia || (vm_compute; discriminate)).
    specialize (Look h' _ x Ei Ek L3). rewrite (list_lookup_total_correct _ _ _ Look). by rewrite Ei.
  - destruct (One (u32 x)) as (L1 & L2 & L3).
    eexists. split; [unfold Push_s32, Push_u32; by rewrite Inb by lia|].
    split; [done|]. split; [done|]. intros h' Ei El Ek. cbn [context index] in El, Ek; fold buf in El, Ek; rewrite L1 in El.
    unfold Pop_s32, PopRaw, ipc_bind, ipc_ret. rewrite Fit by (done || lia || (vm_compute; discriminate)). simpl.
    specialize (Look h' _ (u32 x) Ei Ek L3). rewrite (get_bytes_word _ _ _ _ Look) by lia.
    rewrite take_ge by (by rewrite length_le_split). rewrite le_combine_split.
    change (2 ^ (8 * Z.of_nat 4)) with (2 ^ 32). fold (uwrap 32 (u32 x)).
    rewrite uwrap_idemp, swrap_uwrap, swrap_id by (done || lia). by rewrite Ei.
  - set (lo := u32 x). set (hi := u32 (x ≫ 32)).
    assert (Hx : u64 (hi ≪ 32) .| lo = x).
    { unfold lo, hi. unfold in_range in Hv. rewrite shiftr_div by lia.
      rewrite (uwrap_id 32 (x / 2 ^ 32)) by (unfold in_range; modlia).
      rewrite (uwrap_id 64) by (unfold in_range; rewrite shiftl_mul by lia; modlia).
      rewrite Z.lor_comm, lor_add by (try lia; by apply uwrap_range). unfold uwrap. modlia. }
    eexists. split.
    { unfold Push_u64, ipc_bind. fold lo hi. unfold Push_u32 at 2. rewrite Inb by lia.
      cbn [mbind option_bind]. unfold Push_u32.
      match goal with |- context [in_buffer ?hh 1] => assert (in_buffer hh 1 = true) as -> end.
      { unfold in_buffer. cbn -[Z.of_nat]. rewrite length_insert. apply Z.leb_le. fold buf. lia. }
      cbn. fold buf. rewrite <- Z.add_assoc. change (1 + 1) with 2. reflexivity. }
    split; [by rewrite !length_insert|]. split.
    { intros k Hk. rewrite !list_lookup_insert_ne by lia. done. }
    intros h' Ei El Ek. rewrite !length_insert in El.
    assert (K0 : cmd_buf (context h') !! Z.to_nat i = Some lo).
    { rewrite Ek by lia. rewrite list_lookup_insert_ne by lia.
      apply list_lookup_insert_eq. by apply lookup_lt_Some in Hw. }
    assert (K1 : cmd_buf (context h') !! Z.to_nat (i + 1) = Some hi).
    { rewrite Ek by lia. apply list_lookup_insert_eq. rewrite length_insert. lia. }
    assert (P0 : Pop_u32 h' = Some (lo, h'<|index := i + 1|>)).
    { unfold Pop_u32. rewrite Fit by (done || lia). by rewrite Ei, (list_lookup_total_correct _ _ _ K0). }
    assert (P1 : Pop_u32 (h'<|index := i + 1|>) = Some (hi, h'<|index := i + 2|>)).
    { unfold Pop_u32. assert (in_buffer (h'<|index := i + 1|>) 1 = true) as ->
        by (apply Z.leb_le; change (i + 1 + 1 <= Z.of_nat (length (cmd_buf (context h')))); rewrite El; lia).
      change (Some (cmd_buf (context h') !!! Z.to_nat (i + 1), h'<|index := i + 1 + 1|>)
              = Some (hi, h'<|index := i + 2|>)).
      rewrite (list_lookup_total_correct _ _ _ K1). do 2 f_equal.
      destruct h'; cbn. f_equal. lia. }
    unfold Pop_u64, ipc_bind, ipc_ret. rewrite P0. cbn [mbind option_bind]. rewrite P1.
    cbn [mbind option_bind]. by rewrite Hx.
  - assert (HB : in_range (8 * Z.of_nat 1) (Z.b2z x)) by (by destruct x).
    destruct (Bytes 1%nat (Z.b2z x) ltac:(lia) HB) as (y & E & G). destruct (One y) as (L1 & L2 & L3).
    eexists. split; [unfold Push_bool, Push_u8, PushRaw; rewrite Inb by (vm_compute; discriminate); cbn [context index]; fold buf; by rewrite E|].
    split; [done|]. split; [done|]. intros h' Ei El Ek. cbn [context index] in El, Ek; fold buf in El, Ek; rewrite L1 in El.
    unfold Pop_bool, Pop_u8, PopRaw, ipc_bind, ipc_ret. rewrite Fit by (done || lia || (vm_compute; discriminate)). simpl.
    specialize (Look h' _ y Ei Ek L3). rewrite Ei in *. rewrite G by done. by destruct x.
  - destruct (One (raw x)) as (L1 & L2 & L3).
    eexists. split; [unfold Push_Result, Push_u32; by rewrite Inb by lia|].
    split; [done|]. split; [done|]. intros h' Ei El Ek. cbn [context index] in El, Ek; fold buf in El, Ek; rewrite L1 in El.
    unfold Pop_Result, Pop_u32, ipc_bind, ipc_ret. rewrite Fit by (done || lia || (vm_compute; discriminate)). simpl.
    specialize (Look h' _ _ Ei Ek L3). rewrite (list_lookup_total_correct _ _ _ Look), Ei. by destruct x.
Qed.

Definition total_words (vs : list ipc_value) : Z := foldr (fun v n => value_words v + n) 0 vs.

Lemma total_words_nonneg vs : 0 <= total_words vs.
Proof. induction vs as [|v vs IH]; simpl; [lia|destruct v; simpl; lia]. Qed.

Lemma push_values_spec vs h :
  Forall value_ok vs -> 0 <= index h ->
  index h + total_words vs <= Z.of_nat (length (cmd_buf (context h))) ->
  ∃ buf, push_values vs h = Some (tt, at_index h buf (index h + total_words vs)) ∧
  length buf = length (cmd_buf (context h)) ∧
  (∀ k, (k < Z.to_nat (index h))%nat -> buf !! k = cmd_buf (context h) !! k) ∧
  ∀ h', index h' = index h ->
    length (cmd_buf (context h')) = length buf ->
    (∀ k, (Z.to_nat (index h) <= k < Z.to_nat (index h + total_words vs))%nat ->
      cmd_buf (context h') !! k = buf !! k) ->
    pop_values vs h' = Some (vs, h'<|index := index h + total_words vs|>).
Proof.
  intros Hok. revert h. induction Hok as [|v vs Hv Hok IH]; intros h Hi Hfit.
  { exists (cmd_buf (context h)). cbn [total_words foldr]. rewrite Z.add_0_r.
    split; [by destruct h as [[] ? ?]|]. split; [done|]. split; [done|].
    intros h' Ei _ _. unfold pop_values, ipc_ret. rewrite <- Ei. by destruct h'. }
  cbn [total_words foldr] in *. fold (total_words vs) in *.
  pose proof (total_words_nonneg vs). assert (0 < value_words v) by (destruct v; simpl; lia).
  destruct (push_value_spec v h Hv Hi ltac:(lia)) as (b1 & E1 & L1 & P1 & R1).
  set (h1 := at_index h b1 (index h + value_words v)) in *.
  assert (I1 : index h1 = index h + value_words v) by done.
  assert (B1 : cmd_buf (context h1) = b1) by done.
  destruct (IH h1) as (b2 & E2 & L2 & P2 & R2); [lia|rewrite B1, I1; lia|].
  exists b2. split.
  { cbn [push_values]. unfold ipc_bind. rewrite E1. cbn [mbind option_bind]. rewrite E2.
    rewrite I1, Z.add_assoc. by destruct h as [[] ? ?]. }
  rewrite B1 in *. split; [congruence|]. split; [intros k Hk; rewrite P2, P1 by lia; done|].
  intros h' Ei El Ek. cbn [pop_values]. unfold ipc_bind, ipc_ret.
  rewrite (R1 h'); [|done|congruence|].
  2: { intros k Hk. rewrite Ek by lia. apply P2. lia. }
  cbn [mbind option_bind]. rewrite (R2 (h'<|index := index h + value_words v|>)).
  - cbn [mbind option_bind]. rewrite I1, Z.add_assoc. by destruct h'.
  - done.
  - exact El.
  - rewrite I1. intros k Hk. apply Ek. lia.
Qed.

(** parameters pushed by a builder are what a parser of the same buffer
    pops, type by type, and both end at the same word; the parser sees the
    builder's header. *)
Theorem push_pop_roundtrip c cmd_header vs :
  length (cmd_buf c) = Z.to_nat COMMAND_BUFFER_LENGTH ->
  Forall value_ok vs -> 1 + total_words vs <= COMMAND_BUFFER_LENGTH ->
  ∃ h, push_values vs (RequestBuilder c cmd_header) = Some (tt, h) ∧
    index h = 1 + total_words vs ∧
    header (RequestParser (context h)) = cmd_header ∧
    pop_values vs (RequestParser (context h))
    = Some (vs, (RequestParser (context h))<|index := index h|>).
Proof.
  intros Hl Hok Hfit. pose proof (total_words_nonneg vs).
  assert (LB : length (cmd_buf (context (RequestBuilder c cmd_header))) = Z.to_nat COMMAND_BUFFER_LENGTH)
    by (cbn; by rewrite length_insert).
  assert (IB : index (RequestBuilder c cmd_header) = 1) by done.
  destruct (push_values_spec vs (RequestBuilder c cmd_header) Hok) as (buf & E & L & P & R);
    [lia|rewrite LB; change (Z.of_nat (Z.to_nat COMMAND_BUFFER_LENGTH)) with COMMAND_BUFFER_LENGTH; lia|].
  rewrite IB in *. eexists. split; [exact E|]. split; [done|]. split.
  - cbn. apply list_lookup_total_correct. rewrite P by lia.
    cbn. apply list_lookup_insert_eq. change (0 < length (cmd_buf c))%nat. rewrite Hl. vm_compute. lia.
  - apply R; [done|done|]. intros k _. done.
Qed.
End roundtrip.

Lemma push_pop_roundtrip_witness :
  let c := mk_HLERequestContext (Obj := unit) (replicate 64 0xffffffff) [] (replicate 16 []) [] in
  let vs := [V_u8 7; V_u64 0x123456789abcdef0; V_s32 (-3); V_bool true; V_u16 0xbeef] in
  1 + total_words vs <= COMMAND_BUFFER_LENGTH ∧
  ∃ h, push_values vs (RequestBuilder c 0x00010180) = Some (tt, h) ∧
    index h = 1 + total_words vs ∧
    header (RequestParser (context h)) = 0x00010180 ∧
    pop_values vs (RequestParser (context h))
    = Some (vs, (RequestParser (context h))<|index := index h|>).
Proof.
  cbv zeta. split; [by vm_compute|].
  apply push_pop_roundtrip; [done| |by vm_compute].
  repeat constructor; vm_compute; intuition discriminate.
Defined.

Lemma descriptors_decode_witness :
  (1 <= 2 <= 64) ∧
  (GetDescriptorType (CopyHandleDesc 2) = CopyHandle ∧ HandleNumberFromDesc (CopyHandleDesc 2) = 2) ∧
  (GetDescriptorType (MoveHandleDesc 2) = MoveHandle ∧ HandleNumberFromDesc (MoveHandleDesc 2) = 2) ∧
  GetDescriptorType CallingPidDesc = CallingPid ∧
  (let d := StaticBufferDesc 0x100 3 in
   GetDescriptorType d = StaticBuffer ∧ ExtractValue 32 sb_buffer_id d = 3 ∧
   ExtractValue 32 sb_size d = 0x100) ∧
  (let d := MappedBufferDesc 0x1000 PERM_RW in
   GetDescriptorType d = MappedBufferType ∧ ExtractValue 32 mb_perms_field d = PERM_RW ∧
   ExtractValue 32 mb_size_field d = 0x1000).
Proof.
  split; [lia|]. apply (descriptors_decode 2 0x100 3 0x1000 PERM_RW); vm_compute; intuition discriminate.
Defined.

(** * Properties of the incoming translation *)

Section translation_facts.
Context {Obj Mem : Type} `{!GuestMemory Mem}.
Context (current_thread current_process : option Obj).

(** What a step keeps: the words already translated, the objects and mapped
    buffers already registered, and the identity of the process. *)
Definition incoming_extends (st st' : incoming_state (Obj := Obj) (Mem := Mem)) : Prop :=
  let '(c, p, i) := st in
  let '(c', p', i') := st' in
  length (cmd_buf c') = length (cmd_buf c) ∧
  (∀ k, (k < i)%nat -> cmd_buf c' !! k = cmd_buf c !! k) ∧ (i <= i')%nat ∧
  request_handles c `prefix_of` request_handles c' ∧
  request_mapped_buffers c `prefix_of` request_mapped_buffers c' ∧
  length (static_buffers c') = length (static_buffers c) ∧
  process_id p' = process_id p ∧ process_mem p' = process_mem p.

Lemma incoming_extends_refl st : incoming_extends st st.
Proof. destruct st as [[c p] i]. unfold incoming_extends. split_and!; done. Qed.

Lemma incoming_extends_trans st1 st2 st3 :
  incoming_extends st1 st2 -> incoming_extends st2 st3 -> incoming_extends st1 st3.
Proof.
  destruct st1 as [[c1 p1] i1], st2 as [[c2 p2] i2], st3 as [[c3 p3] i3].
  intros (A1 & A2 & A3 & A4 & A5 & A6 & A7 & A8) (B1 & B2 & B3 & B4 & B5 & B6 & B7 & B8).
  unfold incoming_extends. split_and!; try congruence; try lia.
  - intros k Hk. rewrite B2 by lia. by apply A2.
  - by transitivity (request_handles c2).
  - by transitivity (request_mapped_buffers c2).
Qed.

(** One word written at the current index. *)
Lemma incoming_extends_word c p i w (c' : HLERequestContext Obj) p' :
  request_handles c `prefix_of` request_handles c' ->
  request_mapped_buffers c `prefix_of` request_mapped_buffers c' ->
  length (static_buffers c') = length (static_buffers c) ->
  cmd_buf c' = <[i := w]> (cmd_buf c) ->
  process_id p' = process_id p -> process_mem p' = process_mem p ->
  incoming_extends (c, p, i) (c', p', Datatypes.S i).
Proof.
  intros H1 H2 H3 H4 H5 H6. unfold incoming_extends. rewrite H4, length_insert.
  split_and!; try done; [|lia]. intros k Hk. apply list_lookup_insert_ne. lia.
Qed.

Lemma incoming_handles_extends src d n st st' :
  incoming_handles current_thread current_process src d n st = Some st' ->
  incoming_extends st st' ∧ snd st' = (snd st + n)%nat.
Proof.
  revert st. induction n as [|n IH]; intros st H.
  { injection H as <-. split; [apply incoming_extends_refl|lia]. }
  destruct st as [[c p] i]. cbn [incoming_handles] in H.
  destruct (src !! i) as [handle|]; [|done]. cbn [mbind option_bind] in H.
  match type of H with mbind _ ?x = _ => destruct x as [[object p1]|] eqn:Eo; [|done] end.
  cbn [mbind option_bind] in H.
  assert (Ep : process_id p1 = process_id p ∧ process_mem p1 = process_mem p).
  { destruct (handle =? 0); [by injection Eo as <- <-|].
    destruct (GetGeneric _ _ _ _) as [o|]; [|done]. cbn [mbind option_bind] in Eo.
    injection Eo as <- <-. by destruct (d =? _). }
  apply IH in H as [H Hi]. split; [|cbn [snd] in *; lia].
  eapply incoming_extends_trans; [|exact H].
  eapply incoming_extends_word; try apply Ep; try done. by apply prefix_app_r.
Qed.

Lemma incoming_step_extends src cs st st' :
  incoming_step current_thread current_process src cs st = Some st' ->
  incoming_extends st st' ∧ (snd st < snd st')%nat.
Proof.
  destruct st as [[c p] i]. unfold incoming_step. intros H.
  destruct (src !! i) as [d|]; [|done]. cbn [mbind option_bind] in H.
  set (c1 := c<|cmd_buf := <[i := d]> (cmd_buf c)|>) in *.
  assert (E1 : incoming_extends (c, p, i) (c1, p, Datatypes.S i)) by (by eapply incoming_extends_word).
  destruct (GetDescriptorType d); unfold put_word in H; try (injection H as <-; split; [exact E1|simpl; lia]).
  - destruct (src !! Datatypes.S i) as [a|]; [|done]. cbn [mbind option_bind] in H.
    destruct (decide _); [|done]. cbn [mbind option_bind] in H. injection H as <-.
    split; [|simpl; lia]. eapply incoming_extends_trans; [exact E1|].
    eapply incoming_extends_word; try done. simpl. by rewrite length_insert.
  - destruct (src !! Datatypes.S i) as [a|]; [|done]. cbn [mbind option_bind] in H.
    destruct (decide _); [|done]. cbn [mbind option_bind] in H. injection H as <-.
    split; [|simpl; lia]. eapply incoming_extends_trans; [exact E1|].
    eapply incoming_extends_word; try done. by apply prefix_app_r.
  - destruct (_ <=? _); [|done]. apply incoming_handles_extends in H as [H Hi].
    split; [by eapply incoming_extends_trans|simpl in *; lia].
  - destruct (_ <=? _); [|done]. apply incoming_handles_extends in H as [H Hi].
    split; [by eapply incoming_extends_trans|simpl in *; lia].
  - destruct (decide _); [|done]. cbn [mbind option_bind] in H. injection H as <-.
    split; [|simpl; lia]. eapply incoming_extends_trans; [exact E1|]. by eapply incoming_extends_word.
Qed.

Lemma incoming_loop_extends fuel src cs st st' :
  incoming_loop current_thread current_process fuel src cs st = Some st' ->
  incoming_extends st st' ∧ (cs <= snd st')%nat.
Proof.
  revert st. induction fuel as [|fuel IH]; intros st H; cbn [incoming_loop] in H;
    destruct (Nat.ltb_spec (snd st) cs) as [Hlt|Hge].
  - done.
  - injection H as <-. split; [apply incoming_extends_refl|done].
  - destruct (incoming_step _ _ _ _ _) as [st1|] eqn:E; [|done]. cbn [mbind option_bind] in H.
    apply incoming_step_extends in E as [E _]. apply IH in H as [H Hi].
    split; [by eapply incoming_extends_trans|done].
  - injection H as <-. split; [apply incoming_extends_refl|done].
Qed.

(** The translation loop stops: the words left are enough fuel, and more
    fuel changes nothing. *)
Theorem incoming_loop_terminates fuel src cs st :
  (cs - snd st <= fuel)%nat ->
  incoming_loop current_thread current_process fuel src cs st =
  incoming_loop current_thread current_process (cs - snd st) src cs st.
Proof.
  assert (G : ∀ f1 f2 st, (cs - snd st <= f1)%nat -> (cs - snd st <= f2)%nat ->
    incoming_loop current_thread current_process f1 src cs st =
    incoming_loop current_thread current_process f2 src cs st).
  { induction f1 as [|f1 IH]; intros [|f2] st0 H1 H2; cbn [incoming_loop];
      destruct (Nat.ltb_spec (snd st0) cs); try done; try lia.
    destruct (incoming_step _ _ _ _ _) as [st1|] eqn:E; [|done]. cbn [mbind option_bind].
    apply incoming_step_extends in E as [_ E]. apply IH; lia. }
  intros H. by apply G.
Qed.

(** a successful translation of a request reports success, copies the
    normal parameters verbatim, keeps the size of the buffer and of the static
    buffer table, and only adds objects and mapped buffers to the context. *)
Theorem Populate_sound c src p c' p' r :
  length (cmd_buf c) = Z.to_nat COMMAND_BUFFER_LENGTH ->
  (Z.to_nat COMMAND_BUFFER_LENGTH <= length src)%nat ->
  PopulateFromIncomingCommandBuffer current_thread current_process c src p = Some (c', p', r) ->
  ∃ h, src !! 0%nat = Some h ∧ r = ResultSuccess ∧
    length (cmd_buf c') = length (cmd_buf c) ∧
    take (untranslated_size h) (cmd_buf c') = take (untranslated_size h) src ∧
    request_handles c `prefix_of` request_handles c' ∧
    request_mapped_buffers c `prefix_of` request_mapped_buffers c' ∧
    length (static_buffers c') = length (static_buffers c) ∧
    process_id p' = process_id p ∧ process_mem p' = process_mem p.
Proof.
  intros Hl Hs H. unfold PopulateFromIncomingCommandBuffer in H.
  destruct (src !! 0%nat) as [h|]; [|done]. cbn [mbind option_bind] in H.
  destruct (Z.leb_spec (Z.of_nat (command_size h)) COMMAND_BUFFER_LENGTH) as [Hcs|]; [|done].
  assert (Hus : (untranslated_size h <= Z.to_nat COMMAND_BUFFER_LENGTH)%nat) by (unfold command_size in Hcs; lia).
  set (us := untranslated_size h) in *.
  destruct (incoming_loop _ _ _ _ _ _) as [[[c1 p1] i1]|] eqn:E; [|done].
  cbn [mbind option_bind] in H. injection H as <- <- <-.
  apply incoming_loop_extends in E as [(E1 & E2 & _ & E4 & E5 & E6 & E7 & E8) _].
  cbn in E1, E2, E4, E5, E6. exists h. split; [done|]. split; [done|].
  split; [rewrite E1, length_app, length_take, length_drop; lia|].
  split; [|done]. apply list_eq. intros k. fold us. destruct (Nat.lt_ge_cases k us).
  - rewrite !lookup_take_lt, E2, lookup_app_l, lookup_take_lt by (rewrite ?length_take; lia). done.
  - by rewrite !lookup_take_ge by lia.
Qed.
End translation_facts.

(** A guest memory for the examples: a function from addresses to bytes. *)
#[export] Instance map_memory : GuestMemory (Z -> Z) := {
  ReadBlock m a n := (fun k => m (a + Z.of_nat k)) <$> seq 0 (Z.to_nat n);
  WriteBlock m a bs := fun x => if (a <=? x) && (x <? a + Z.of_nat (length bs))
                                then bs !!! Z.to_nat (x - a) else m x
}.

Definition example_context : HLERequestContext nat :=
  mk_HLERequestContext (replicate 64 0) [] (replicate 16 []) [].

(** A process with two objects, and a request that moves both handles. *)
Definition example_process : IpcProcess nat (Z -> Z) :=
  let '(_, _, t) := Create (new_HandleTable nat) 1%nat in
  let '(_, _, t) := Create t 2%nat in
  mk_IpcProcess t 42 (fun _ => 0).

Lemma Populate_sound_witness :
  let src := [MakeHeader 1 1 4; 5; CallingPidDesc; 0; MoveHandleDesc 1; 1] ++ replicate 90 0 in
  ∃ c' p' r,
  PopulateFromIncomingCommandBuffer None None example_context src example_process = Some (c', p', r) ∧
  ∃ h, src !! 0%nat = Some h ∧ r = ResultSuccess ∧
    length (cmd_buf c') = length (cmd_buf example_context) ∧
    take (untranslated_size h) (cmd_buf c') = take (untranslated_size h) src ∧
    request_handles example_context `prefix_of` request_handles c' ∧
    request_mapped_buffers example_context `prefix_of` request_mapped_buffers c' ∧
    length (static_buffers c') = length (static_buffers example_context) ∧
    process_id p' = process_id example_process ∧ process_mem p' = process_mem example_process.
Proof.
  cbv zeta. do 3 eexists. split; [vm_compute; reflexivity|].
  apply (Populate_sound None None example_context
    ([MakeHeader 1 1 4; 5; CallingPidDesc; 0; MoveHandleDesc 1; 1] ++ replicate 90 0) example_process);
    [done|vm_compute; lia|vm_compute; reflexivity].
Defined.

(** The comparison [descriptor == MoveHandle] holds only for a descriptor of
    one handle: two handles moved by one descriptor stay open. *)
Example move_two_handles_stay_open :
  let run src := match PopulateFromIncomingCommandBuffer None None example_context src example_process with
                 | Some (_, p, _) => Some (IsValid (handle_table p) 1, IsValid (handle_table p) 0x8002)
                 | None => None end in
  run ([MakeHeader 1 0 4; MoveHandleDesc 1; 1; MoveHandleDesc 1; 0x8002] ++ replicate 91 0)
  = Some (false, false) ∧
  run ([MakeHeader 1 0 3; MoveHandleDesc 2; 1; 0x8002] ++ replicate 92 0) = Some (true, true).
Proof. by vm_compute. Qed.

Lemma incoming_loop_terminates_witness :
  let src := [MakeHeader 1 1 4; 5; CallingPidDesc; 0; MoveHandleDesc 1; 1] ++ replicate 90 0 in
  (6 - 2 <= 64)%nat ∧
  incoming_loop None None 64 src 6 (example_context, example_process, 2%nat) =
  incoming_loop None None (6 - 2) src 6 (example_context, example_process, 2%nat).
Proof.
  cbv zeta. split; [lia|].
  apply (incoming_loop_terminates None None 64 _ 6 (example_context, example_process, 2%nat)). simpl. lia.
Defined.
