(* ===== verification/IntervalSet.v ===== *)
(** Sets of integers kept as intervals, as [boost::icl::interval_set] offers them
    to the allocator of the memory regions: the interface with the laws its
    documentation states, what follows from the laws, and the sorted list as an
    implementation of it. *)

From stdpp Require Import sorting.
From S2P Require Import Prelude.

(** * The interface *)

Abbreviation Block := (Z * Z)%type (only parsing).
Definition in_block_of (x : Z) (b : Block) : Prop := b.1 <= x < b.2.
(** The points of a list of right-open intervals. *)
Definition points (bl : list Block) (x : Z) : Prop := ∃ b, b ∈ bl ∧ in_block_of x b.
(** Ascending, not empty, and not touching: touching intervals are joined. *)
Fixpoint separated (bl : list Block) : Prop :=
  match bl with
  | [] => True
  | b :: rest => b.1 < b.2 ∧ match rest with [] => True | c :: _ => b.2 < c.1 end ∧ separated rest
  end.
Definition width (b : Block) : Z := b.2 - b.1.
Definition total (bl : list Block) : Z := foldr (fun b n => width b + n) 0 bl.

(** [blocks] is what iterating the set gives; intervals are right-open. *)
Class IntervalSet (S : Type) := {
  iv_empty : S;
  iv_add : Z -> Z -> S -> S;
  iv_sub : Z -> Z -> S -> S;
  iv_contains : S -> Z -> Z -> bool;
  iv_intersects : S -> Z -> Z -> bool;
  iv_blocks : S -> list Block
}.
Class IntervalSetLaws (S : Type) `{IntervalSet S} := {
  blocks_separated s : separated (iv_blocks s);
  blocks_empty : iv_blocks iv_empty = [];
  points_add l u s x : points (iv_blocks (iv_add l u s)) x <-> points (iv_blocks s) x ∨ l <= x < u;
  points_sub l u s x : points (iv_blocks (iv_sub l u s)) x <-> points (iv_blocks s) x ∧ ¬ (l <= x < u);
  contains_spec s l u : iv_contains s l u = true <-> ∀ x, l <= x < u -> points (iv_blocks s) x;
  intersects_spec s l u : iv_intersects s l u = true <-> ∃ x, l <= x < u ∧ points (iv_blocks s) x
}.

(** * Lists of blocks *)

Lemma points_nil x : points [] x <-> False.
Proof. split; [|done]. intros (b & Hb & _). by apply not_elem_of_nil in Hb. Qed.
Lemma points_cons b bl x : points (b :: bl) x <-> in_block_of x b ∨ points bl x.
Proof.
  split.
  - intros (c & [->|H]%elem_of_cons & Hc); [by left|right; by exists c].
  - intros [H|(c & Hc & H)]; [exists b|exists c]; (split; [rewrite elem_of_cons; auto|done]).
Qed.
Lemma points_app bl1 bl2 x : points (bl1 ++ bl2) x <-> points bl1 x ∨ points bl2 x.
Proof. induction bl1 as [|b bl1 IH]; cbn [app]; rewrite ?points_nil, ?points_cons, ?IH; tauto. Qed.
Lemma points_rev bl x : points (rev bl) x <-> points bl x.
Proof. unfold points. setoid_rewrite list_elem_of_In. setoid_rewrite <- in_rev. done. Qed.

Lemma total_cons b bl : total (b :: bl) = width b + total bl.
Proof. done. Qed.
Lemma total_app bl1 bl2 : total (bl1 ++ bl2) = total bl1 + total bl2.
Proof. induction bl1 as [|b bl1 IH]; [done|]. unfold total in *. cbn [app foldr]. rewrite IH. lia. Qed.
Lemma total_rev bl : total (rev bl) = total bl.
Proof. induction bl as [|b bl IH]; [done|]. cbn [rev]. rewrite total_app, IH. unfold total. cbn [foldr]. lia. Qed.

Lemma separated_tail b bl : separated (b :: bl) -> separated bl.
Proof. by intros (_ & _ & H). Qed.
(** What follows a block lies above it. *)
Lemma separated_above b bl c : separated (b :: bl) -> c ∈ bl -> b.2 < c.1.
Proof.
  revert b. induction bl as [|d bl IH]; intros b H Hc; [by apply not_elem_of_nil in Hc|].
  destruct H as (H1 & H2 & H3). apply elem_of_cons in Hc as [->|Hc]; [done|].
  specialize (IH d H3 Hc). destruct H3 as (H4 & _). lia.
Qed.
Lemma separated_block bl b : separated bl -> b ∈ bl -> b.1 < b.2.
Proof.
  induction bl as [|c bl IH]; intros H Hb; [by apply not_elem_of_nil in Hb|].
  apply elem_of_cons in Hb as [->|Hb]; [apply H|]. apply IH; [by eapply separated_tail|done].
Qed.
Lemma separated_app bl1 bl2 : separated (bl1 ++ bl2) ->
  separated bl1 ∧ separated bl2 ∧ ∀ b c, b ∈ bl1 -> c ∈ bl2 -> b.2 < c.1.
Proof.
  induction bl1 as [|d bl1 IH]; cbn [app]; intros H.
  - split; [done|]. split; [done|]. intros b c Hb. by apply not_elem_of_nil in Hb.
  - destruct (IH (separated_tail _ _ H)) as (S1 & S2 & S3). split; [|split; [done|]].
    + destruct H as (H1 & H2 & _). split; [done|]. split; [|done]. destruct bl1; [done|]. exact H2.
    + intros b c [->|Hb]%elem_of_cons Hc; [|by apply S3].
      apply (separated_above d (bl1 ++ bl2)); [exact H|]. apply elem_of_app. by right.
Qed.

(** The points of ascending blocks, listed; their number is the total width. *)
Definition enumerate (bl : list Block) : list Z := bl ≫= (fun b => seqZ b.1 (width b)).

Lemma elem_of_enumerate bl x : x ∈ enumerate bl <-> points bl x.
Proof.
  unfold enumerate, points, in_block_of, width. rewrite list_elem_of_bind.
  split; intros (b & H1 & H2); exists b; rewrite ?elem_of_seqZ in *; split; done || lia.
Qed.
Lemma length_enumerate bl : separated bl -> Z.of_nat (length (enumerate bl)) = total bl.
Proof.
  induction bl as [|b bl IH]; intros H; [done|]. rewrite total_cons.
  change (enumerate (b :: bl)) with (seqZ b.1 (width b) ++ enumerate bl). rewrite length_app, length_seqZ, Nat2Z.inj_add, IH by (by eapply separated_tail). destruct H as (H & _). unfold width. lia.
Qed.
Lemma NoDup_enumerate bl : separated bl -> NoDup (enumerate bl).
Proof.
  induction bl as [|b bl IH]; intros H; [apply NoDup_nil_2|]. change (enumerate (b :: bl)) with (seqZ b.1 (width b) ++ enumerate bl).
  apply NoDup_app. split; [apply NoDup_seqZ|].
  split; [|by apply IH, (separated_tail b)]. intros x Hx Hy. apply elem_of_enumerate in Hy as (c & Hc & Hy).
  pose proof (separated_above _ _ _ H Hc). apply elem_of_seqZ in Hx. unfold in_block_of, width in *. lia.
Qed.

(** The width of a set of points does not depend on the blocks it is kept as. *)
Lemma total_same bl1 bl2 : separated bl1 -> separated bl2 -> (∀ x, points bl1 x <-> points bl2 x) -> total bl1 = total bl2.
Proof.
  intros S1 S2 E. rewrite <- !length_enumerate by done. f_equal. apply Permutation_length, NoDup_Permutation;
    [by apply NoDup_enumerate..|]. intros x. by rewrite !elem_of_enumerate.
Qed.
(** Widths of disjoint unions add. *)
Lemma total_union bl bl1 bl2 : separated bl -> separated bl1 -> separated bl2 ->
  (∀ x, points bl x <-> points bl1 x ∨ points bl2 x) -> (∀ x, points bl1 x -> ¬ points bl2 x) ->
  total bl = total bl1 + total bl2.
Proof.
  intros S S1 S2 E D. rewrite <- !length_enumerate, <- Nat2Z.inj_add, <- length_app by done.
  f_equal. apply Permutation_length, NoDup_Permutation; [by apply NoDup_enumerate| |].
  - apply NoDup_app. split; [by apply NoDup_enumerate|]. split; [|by apply NoDup_enumerate].
    intros x. rewrite !elem_of_enumerate. apply D.
  - intros x. by rewrite elem_of_app, !elem_of_enumerate.
Qed.
Lemma total_nonneg bl : separated bl -> 0 <= total bl.
Proof. intros H. rewrite <- length_enumerate by done. lia. Qed.
Lemma total_0 bl : separated bl -> total bl = 0 -> bl = [].
Proof.
  destruct bl as [|b bl]; [done|]. intros H E. pose proof (total_nonneg bl (separated_tail _ _ H)).
  destruct H as (H & _). rewrite total_cons in E. unfold width in *. lia.
Qed.

(** * The operations the allocator uses *)

Section laws.
Context {S : Type} `{IVS : IntervalSet S} `{IVL : !IntervalSetLaws S}.
Implicit Types s : S.

Definition covered s (x : Z) : Prop := points (iv_blocks s) x.
Definition measure s : Z := total (iv_blocks s).

(** [s += t] and [s -= t]. *)
Definition iv_union s (t : S) : S := foldl (fun s b => iv_add b.1 b.2 s) s (iv_blocks t).
Definition iv_diff s (t : S) : S := foldl (fun s b => iv_sub b.1 b.2 s) s (iv_blocks t).

Lemma covered_empty x : ¬ covered iv_empty x.
Proof. unfold covered. rewrite blocks_empty, points_nil. tauto. Qed.
Lemma covered_add l u s x : covered (iv_add l u s) x <-> covered s x ∨ l <= x < u.
Proof. apply points_add. Qed.
Lemma covered_sub l u s x : covered (iv_sub l u s) x <-> covered s x ∧ ¬ (l <= x < u).
Proof. apply points_sub. Qed.
Lemma covered_adds bl s x : covered (foldl (fun s b => iv_add b.1 b.2 s) s bl) x <-> covered s x ∨ points bl x.
Proof.
  revert s. induction bl as [|b bl IH]; intros s; cbn [foldl]; [rewrite points_nil; tauto|].
  rewrite IH, covered_add, points_cons. unfold in_block_of. tauto.
Qed.
Lemma covered_subs bl s x : covered (foldl (fun s b => iv_sub b.1 b.2 s) s bl) x <-> covered s x ∧ ¬ points bl x.
Proof.
  revert s. induction bl as [|b bl IH]; intros s; cbn [foldl]; [rewrite points_nil; tauto|].
  rewrite IH, covered_sub, points_cons. unfold in_block_of. tauto.
Qed.
Lemma covered_union s t x : covered (iv_union s t) x <-> covered s x ∨ covered t x.
Proof. apply covered_adds. Qed.
Lemma covered_diff s t x : covered (iv_diff s t) x <-> covered s x ∧ ¬ covered t x.
Proof. apply covered_subs. Qed.

Lemma measure_nonneg s : 0 <= measure s.
Proof. apply total_nonneg, blocks_separated. Qed.
Lemma measure_empty : measure iv_empty = 0.
Proof. unfold measure. by rewrite blocks_empty. Qed.
Lemma measure_same s t : (∀ x, covered s x <-> covered t x) -> measure s = measure t.
Proof. apply total_same; apply blocks_separated. Qed.
Lemma measure_blocks s bl : separated bl -> (∀ x, covered s x <-> points bl x) -> measure s = total bl.
Proof. intros H. apply total_same; [apply blocks_separated|done]. Qed.
Lemma measure_split s t u : (∀ x, covered s x <-> covered t x ∨ covered u x) -> (∀ x, covered t x -> ¬ covered u x) ->
  measure s = measure t + measure u.
Proof. apply total_union; apply blocks_separated. Qed.
Lemma measure_diff s t : (∀ x, covered t x -> covered s x) -> measure (iv_diff s t) = measure s - measure t.
Proof.
  intros H. rewrite (measure_split s (iv_diff s t) t); [lia| |].
  - intros x. rewrite covered_diff. specialize (H x). destruct (decide (Exists (in_block_of x) (iv_blocks t))) as [E|N].
    + assert (covered t x) by (by apply Exists_exists in E). tauto.
    + assert (¬ covered t x) by (by intros C; apply N, Exists_exists). tauto.
  - intros x. rewrite covered_diff. tauto.
Qed.

(** One interval as a list of blocks. *)
Lemma points_one l u x : points [(l, u)] x <-> l <= x < u.
Proof. rewrite points_cons, points_nil. unfold in_block_of. cbn. tauto. Qed.
Lemma measure_sub l u s : l < u -> (∀ x, l <= x < u -> covered s x) -> measure (iv_sub l u s) = measure s - (u - l).
Proof.
  intros L H. assert (E : total (iv_blocks s) = total (iv_blocks (iv_sub l u s)) + total [(l, u)]).
  { apply total_union; [apply blocks_separated|apply blocks_separated|by split| |].
    - intros x. rewrite points_one. change (covered s x <-> covered (iv_sub l u s) x ∨ l <= x < u). rewrite covered_sub.
      specialize (H x). split; [|tauto]. intros C. destruct (decide (l <= x < u)); tauto.
    - intros x. rewrite points_one. change (covered (iv_sub l u s) x -> ¬ (l <= x < u)). rewrite covered_sub. tauto. }
  unfold measure. rewrite total_cons in E. unfold width in E. cbn in E. lia.
Qed.
Lemma measure_add l u s : l < u -> (∀ x, l <= x < u -> ¬ covered s x) -> measure (iv_add l u s) = measure s + (u - l).
Proof.
  intros L H. assert (E : total (iv_blocks (iv_add l u s)) = total (iv_blocks s) + total [(l, u)]).
  { apply total_union; [apply blocks_separated|apply blocks_separated|by split| |].
    - intros x. rewrite points_one. apply covered_add.
    - intros x. rewrite points_one. intros C Hx. by apply (H x). }
  unfold measure. rewrite E, total_cons. unfold width. cbn. lia.
Qed.

(** ** Sets of whole pages *)

(** With a point the set has its whole page. *)
Definition whole_pages s : Prop := ∀ x y, x / 4096 = y / 4096 -> covered s x -> covered s y.
End laws.

Lemma pages_interval l u x y : (4096 | l) -> (4096 | u) -> x / 4096 = y / 4096 -> l <= x < u -> l <= y < u.
Proof. intros [a ->] [b ->] E H. Z.div_mod_to_equations. nia. Qed.

(** The ends of the blocks of whole pages are ends of pages. *)
Lemma blocks_aligned {S} `{IntervalSetLaws S} (s : S) b : whole_pages s -> b ∈ iv_blocks s -> (4096 | b.1) ∧ (4096 | b.2).
Proof.
  intros W Hb. pose proof (blocks_separated s) as Sp. pose proof (separated_block _ _ Sp Hb) as L.
  (* a point next to the block is not in the set *)
  assert (N : ∀ x, x = b.1 - 1 ∨ x = b.2 -> ¬ covered s x).
  { intros x Hx (c & Hc & Hin). apply list_elem_of_split in Hb as (l1 & l2 & E). rewrite E in Sp, Hc.
    destruct (separated_app _ _ Sp) as (_ & S2 & S3). apply elem_of_app in Hc as [Hc|[->|Hc]%elem_of_cons].
    - specialize (S3 c b Hc ltac:(set_solver +)). unfold in_block_of in Hin. lia.
    - unfold in_block_of in Hin. lia.
    - pose proof (separated_above _ _ _ S2 Hc). unfold in_block_of in Hin. lia. }
  assert (In : ∀ x, b.1 <= x < b.2 -> covered s x) by (intros x Hx; by exists b).
  split.
  - apply Z.mod_divide; [done|]. destruct (decide (b.1 mod 4096 = 0)); [done|]. exfalso.
    apply (N (b.1 - 1)); [by left|]. apply (W b.1); [Z.div_mod_to_equations; lia|apply In; lia].
  - apply Z.mod_divide; [done|]. destruct (decide (b.2 mod 4096 = 0)); [done|]. exfalso.
    apply (N b.2); [by right|]. apply (W (b.2 - 1)); [Z.div_mod_to_equations; lia|apply In; lia].
Qed.

(** * The sorted list of intervals *)

(** Joining an interval with the blocks it overlaps or touches. *)
Fixpoint list_add (l u : Z) (bl : list Block) : list Block :=
  match bl with
  | [] => [(l, u)]
  | b :: rest =>
      if u <? b.1 then (l, u) :: bl
      else if b.2 <? l then b :: list_add l u rest
      else list_add (Z.min l b.1) (Z.max u b.2) rest
  end.
Definition piece (l u : Z) : list Block := if l <? u then [(l, u)] else [].
Definition list_sub (l u : Z) (bl : list Block) : list Block :=
  if l <? u then bl ≫= (fun b => piece b.1 (Z.min b.2 l) ++ piece (Z.max b.1 u) b.2) else bl.
Definition list_contains (bl : list Block) (l u : Z) : bool :=
  (u <=? l) || existsb (fun b => (b.1 <=? l) && (u <=? b.2)) bl.
Definition list_intersects (bl : list Block) (l u : Z) : bool :=
  existsb (fun b => Z.max l b.1 <? Z.min u b.2) bl.

Lemma points_list_add l u bl x : l < u -> separated bl -> points (list_add l u bl) x <-> points bl x ∨ l <= x < u.
Proof.
  revert l u. induction bl as [|b bl IH]; intros l u L H; cbn [list_add].
  - rewrite points_cons. unfold in_block_of. cbn. tauto.
  - pose proof (separated_tail _ _ H) as T. destruct H as (Hb & _).
    destruct (Z.ltb_spec u b.1); [rewrite points_cons; unfold in_block_of; cbn; tauto|].
    destruct (Z.ltb_spec b.2 l).
    + rewrite !points_cons, IH by done. tauto.
    + rewrite IH, points_cons by (done || lia). unfold in_block_of.
      split; [|intros [[?|?]|?]; [right; lia|by left|right; lia]]. intros [?|?]; [left; by right|].
      destruct (decide (b.1 <= x < b.2)); [left; by left|right; lia].
Qed.

Lemma separated_cons b bl : b.1 < b.2 -> separated bl -> (∀ c, c ∈ bl -> b.2 < c.1) -> separated (b :: bl).
Proof. intros L H A. split; [done|]. split; [|done]. destruct bl as [|c bl]; [done|]. apply A. set_solver +. Qed.

Lemma list_add_above l u bl c : c ∈ list_add l u bl -> l <= c.1 ∨ ∃ b, b ∈ bl ∧ b.1 <= c.1.
Proof.
  revert l u. induction bl as [|b bl IH]; intros l u; cbn [list_add].
  - intros [->|?]%elem_of_cons; [by left|set_solver].
  - destruct (u <? b.1); [|destruct (b.2 <? l)].
    + intros [->|Hc]%elem_of_cons; [by left|]. right. by exists c.
    + intros [->|Hc]%elem_of_cons; [right; exists b; set_solver|]. destruct (IH _ _ Hc) as [?|(d & ? & ?)]; [by left|].
      right. exists d. set_solver.
    + intros Hc. destruct (IH _ _ Hc) as [?|(d & ? & ?)]; [|right; exists d; set_solver].
      destruct (decide (l <= c.1)); [by left|]. right. exists b. split; [set_solver|lia].
Qed.

Lemma separated_list_add l u bl : l < u -> separated bl -> separated (list_add l u bl).
Proof.
  revert l u. induction bl as [|b bl IH]; intros l u L H; cbn [list_add]; [by split|].
  pose proof (separated_tail _ _ H) as T. pose proof H as (Hb & _).
  destruct (Z.ltb_spec u b.1); [by split|]. destruct (Z.ltb_spec b.2 l); [|apply IH; [lia|done]].
  apply separated_cons; [done|by apply IH|]. intros c Hc. destruct (list_add_above _ _ _ _ Hc) as [?|(d & Hd & ?)]; [lia|].
  pose proof (separated_above _ _ _ H Hd). lia.
Qed.

Lemma elem_of_piece l u c : c ∈ piece l u <-> c = (l, u) ∧ l < u.
Proof. unfold piece. destruct (Z.ltb_spec l u).
  - rewrite list_elem_of_singleton. tauto.
  - rewrite elem_of_nil. split; [done|]. intros [_ ?]. lia.
Qed.

Lemma points_list_sub l u bl x : points (list_sub l u bl) x <-> points bl x ∧ ¬ (l <= x < u).
Proof.
  unfold list_sub. destruct (Z.ltb_spec l u); [|split; [intros; split; [done|lia]|tauto]].
  unfold points, in_block_of. split.
  - intros (c & (b & Hc & Hb)%list_elem_of_bind & Hx). rewrite elem_of_app, !elem_of_piece in Hc.
    split; [exists b; split; [done|]|]; destruct Hc as [[-> ?]|[-> ?]]; cbn in Hx; lia.
  - intros ((b & Hb & Hx) & N). destruct (decide (x < l)).
    + exists (b.1, Z.min b.2 l). split; [|cbn; lia]. apply list_elem_of_bind. exists b. split; [|done].
      rewrite elem_of_app, !elem_of_piece. left. split; [done|lia].
    + exists (Z.max b.1 u, b.2). split; [|cbn; lia]. apply list_elem_of_bind. exists b. split; [|done].
      rewrite elem_of_app, !elem_of_piece. right. split; [done|lia].
Qed.

Lemma separated_list_sub l u bl : separated bl -> separated (list_sub l u bl).
Proof.
  unfold list_sub. destruct (Z.ltb_spec l u); [|done]. intros S. induction bl as [|b bl IH]; [done|]. cbn.
  set (rest := bl ≫= _) in *. pose proof (IH (separated_tail _ _ S)) as R.
  assert (A : ∀ c, c ∈ rest -> b.2 < c.1).
  { intros c (d & Hc & Hd)%list_elem_of_bind. pose proof (separated_above _ _ _ S Hd).
    rewrite elem_of_app, !elem_of_piece in Hc. destruct Hc as [[-> ?]|[-> ?]]; cbn; lia. }
  unfold piece. destruct (Z.ltb_spec b.1 (Z.min b.2 l)), (Z.ltb_spec (Z.max b.1 u) b.2); cbn [app]; [| | |done].
  - apply separated_cons; [done|apply separated_cons; [done|done|intros c Hc; cbn; by apply A]|].
    intros c [->|Hc]%elem_of_cons; cbn; [lia|]. specialize (A c Hc). lia.
  - apply separated_cons; [done|done|]. intros c Hc. cbn. specialize (A c Hc). lia.
  - apply separated_cons; [done|done|]. intros c Hc. cbn. by apply A.
Qed.

Lemma list_contains_spec bl l u : separated bl -> list_contains bl l u = true <-> ∀ x, l <= x < u -> points bl x.
Proof.
  intros S. unfold list_contains. rewrite orb_true_iff, existsb_exists. split.
  - intros [H|(b & Hb%list_elem_of_In & H)] x Hx; [lia|]. exists b. split; [done|]. unfold in_block_of. lia.
  - intros H. destruct (Z.leb_spec u l); [by left|right]. destruct (H l ltac:(lia)) as (b & Hb & Hl).
    exists b. split; [by apply list_elem_of_In|]. unfold in_block_of in Hl. destruct (decide (u <= b.2)); [lia|]. exfalso.
    destruct (H b.2 ltac:(lia)) as (c & Hc & Hx). unfold in_block_of in Hx.
    apply list_elem_of_split in Hb as (l1 & l2 & ->). destruct (separated_app _ _ S) as (_ & S2 & S3).
    apply elem_of_app in Hc as [Hc|[->|Hc]%elem_of_cons]; [|lia|].
    + specialize (S3 c b Hc ltac:(set_solver +)). pose proof (separated_block _ b S2 ltac:(set_solver +)). lia.
    + pose proof (separated_above _ _ _ S2 Hc). lia.
Qed.

Lemma list_intersects_spec bl l u : list_intersects bl l u = true <-> ∃ x, l <= x < u ∧ points bl x.
Proof.
  unfold list_intersects. rewrite existsb_exists. setoid_rewrite <- list_elem_of_In. split.
  - intros (b & Hb & H). exists (Z.max l b.1). split; [lia|]. exists b. split; [done|]. unfold in_block_of. lia.
  - intros (x & Hx & b & Hb & H). exists b. split; [done|]. unfold in_block_of in H. lia.
Qed.

(** The set as a list that is separated. *)
Fixpoint separatedb (bl : list Block) : bool :=
  match bl with
  | [] => true
  | b :: rest => (b.1 <? b.2) && match rest with [] => true | c :: _ => b.2 <? c.1 end && separatedb rest
  end.
Lemma separatedb_spec bl : separatedb bl = true <-> separated bl.
Proof.
  induction bl as [|b bl IH]; [done|]. cbn [separatedb separated]. rewrite !andb_true_iff, IH, Z.ltb_lt.
  destruct bl; rewrite ?Z.ltb_lt; tauto.
Qed.

Record IntervalList := mk_IntervalList { list_of : list Block; list_sep : Is_true (separatedb list_of) }.
Definition interval_list (bl : list Block) (H : separated bl) : IntervalList :=
  mk_IntervalList bl (Is_true_true_2 _ (proj2 (separatedb_spec bl) H)).
Lemma separated_list_of s : separated (list_of s).
Proof. apply separatedb_spec, Is_true_true, list_sep. Qed.

(** An interval without points changes nothing. *)
Lemma separated_if_add (l u : Z) bl : separated bl -> separated (if l <? u then list_add l u bl else bl).
Proof. destruct (Z.ltb_spec l u); [by apply separated_list_add|done]. Qed.

#[export] Instance interval_list_set : IntervalSet IntervalList := {|
  iv_empty := interval_list [] I;
  iv_add l u s := interval_list (if l <? u then list_add l u (list_of s) else list_of s)
                    (separated_if_add l u _ (separated_list_of s));
  iv_sub l u s := interval_list (list_sub l u (list_of s)) (separated_list_sub l u _ (separated_list_of s));
  iv_contains s := list_contains (list_of s);
  iv_intersects s := list_intersects (list_of s);
  iv_blocks := list_of
|}.
#[export] Instance interval_list_laws : IntervalSetLaws IntervalList.
Proof.
  split; cbn.
  - apply separated_list_of.
  - done.
  - intros l u s x. destruct (Z.ltb_spec l u); [by apply points_list_add, separated_list_of|]. split; [tauto|].
    intros [?|?]; [done|lia].
  - intros l u s x. apply points_list_sub.
  - intros s l u. apply list_contains_spec, separated_list_of.
  - intros s l u. apply list_intersects_spec.
Qed.
