(* ===== verification/Memory.v ===== *)
(** The emulated memory: [memory.h], [memory.cpp] and [memory_ref.h].

    The host's memory is a store of bytes addressed by a block and an offset; a
    host pointer is such a pair, [nullptr] is [None].  Dereferencing a null
    pointer, leaving a block, indexing beyond a page table, a failed assertion
    and an unreachable branch are [None].  The graphics unit is reached through
    calls: its state is the history of the calls made to it, and [GPU] says
    what a call does to the bytes. *)

From S2P Require Import Prelude.

(** * Constants *)

(* src: core/memory.h *)
Definition CITRA_PAGE_SIZE : Z := 0x1000.
(* src: core/memory.h *)
Definition CITRA_PAGE_MASK : Z := CITRA_PAGE_SIZE - 1.
(* src: core/memory.h *)
Definition CITRA_PAGE_BITS : Z := 12.
(* src: core/memory.h *)
Definition PAGE_TABLE_NUM_ENTRIES : Z := 2 ^ (32 - CITRA_PAGE_BITS).

(* src: core/memory.h | IO_AREA_PADDR = *)
Definition IO_AREA_PADDR : Z := 0x10100000.
(* src: core/memory.h | IO_AREA_SIZE = *)
Definition IO_AREA_SIZE : Z := 0x00400000.
(* src: core/memory.h | VRAM_PADDR = *)
Definition VRAM_PADDR : Z := 0x18000000.
(* src: core/memory.h | VRAM_SIZE = *)
Definition VRAM_SIZE : Z := 0x00600000.
(* src: core/memory.h | VRAM_PADDR_END = *)
Definition VRAM_PADDR_END : Z := VRAM_PADDR + VRAM_SIZE.
(* src: core/memory.h | N3DS_EXTRA_RAM_PADDR = *)
Definition N3DS_EXTRA_RAM_PADDR : Z := 0x1F000000.
(* src: core/memory.h | N3DS_EXTRA_RAM_SIZE = *)
Definition N3DS_EXTRA_RAM_SIZE : Z := 0x00400000.
(* src: core/memory.h | DSP_RAM_PADDR = *)
Definition DSP_RAM_PADDR : Z := 0x1FF00000.
(* src: core/memory.h | DSP_RAM_SIZE = *)
Definition DSP_RAM_SIZE : Z := 0x00080000.
(* src: core/memory.h | FCRAM_PADDR = *)
Definition FCRAM_PADDR : Z := 0x20000000.
(* src: core/memory.h | FCRAM_SIZE = *)
Definition FCRAM_SIZE : Z := 0x08000000.
(* src: core/memory.h | FCRAM_N3DS_SIZE = *)
Definition FCRAM_N3DS_SIZE : Z := 0x10000000.
(* src: core/memory.h | FCRAM_PADDR_END = *)
Definition FCRAM_PADDR_END : Z := FCRAM_PADDR + FCRAM_SIZE.
(* src: core/memory.h | FCRAM_N3DS_PADDR_END = *)
Definition FCRAM_N3DS_PADDR_END : Z := FCRAM_PADDR + FCRAM_N3DS_SIZE.

(* src: core/memory.h | HEAP_VADDR = #1 *)
Definition HEAP_VADDR : Z := 0x08000000.
(* src: core/memory.h | HEAP_SIZE = #1 *)
Definition HEAP_SIZE : Z := 0x08000000.
(* src: core/memory.h | HEAP_VADDR_END = #1 *)
Definition HEAP_VADDR_END : Z := HEAP_VADDR + HEAP_SIZE.
(* src: core/memory.h | LINEAR_HEAP_VADDR = #1 *)
Definition LINEAR_HEAP_VADDR : Z := 0x14000000.
(* src: core/memory.h | LINEAR_HEAP_SIZE = #1 *)
Definition LINEAR_HEAP_SIZE : Z := 0x08000000.
(* src: core/memory.h | LINEAR_HEAP_VADDR_END = #1 *)
Definition LINEAR_HEAP_VADDR_END : Z := LINEAR_HEAP_VADDR + LINEAR_HEAP_SIZE.
(* src: core/memory.h | N3DS_EXTRA_RAM_VADDR = *)
Definition N3DS_EXTRA_RAM_VADDR : Z := 0x1E800000.
(* src: core/memory.h | SHARED_MEMORY_VADDR_END = *)
Definition SHARED_MEMORY_VADDR_END : Z := 0x14000000.
(* src: core/memory.h | IO_AREA_VADDR = *)
Definition IO_AREA_VADDR : Z := 0x1EC00000.
(* src: core/memory.h | VRAM_VADDR = *)
Definition VRAM_VADDR : Z := 0x1F000000.
(* src: core/memory.h | VRAM_VADDR_END = *)
Definition VRAM_VADDR_END : Z := VRAM_VADDR + VRAM_SIZE.
(* src: core/memory.h | DSP_RAM_VADDR = *)
Definition DSP_RAM_VADDR : Z := 0x1FF00000.
(* src: core/memory.h | CONFIG_MEMORY_VADDR = *)
Definition CONFIG_MEMORY_VADDR : Z := 0x1FF80000.
(* src: core/memory.h | CONFIG_MEMORY_SIZE = *)
Definition CONFIG_MEMORY_SIZE : Z := 0x00001000.
(* src: core/memory.h | SHARED_PAGE_VADDR = *)
Definition SHARED_PAGE_VADDR : Z := 0x1FF81000.
(* src: core/memory.h | SHARED_PAGE_SIZE = *)
Definition SHARED_PAGE_SIZE : Z := 0x00001000.
(* src: core/memory.h | TLS_AREA_VADDR = *)
Definition TLS_AREA_VADDR : Z := 0x1FF82000.
(* src: core/memory.h | TLS_ENTRY_SIZE = *)
Definition TLS_ENTRY_SIZE : Z := 0x200.
(* src: core/memory.h | NEW_LINEAR_HEAP_VADDR = *)
Definition NEW_LINEAR_HEAP_VADDR : Z := 0x30000000.
(* src: core/memory.h | NEW_LINEAR_HEAP_SIZE = *)
Definition NEW_LINEAR_HEAP_SIZE : Z := 0x10000000.
(* src: core/memory.h | NEW_LINEAR_HEAP_VADDR_END = *)
Definition NEW_LINEAR_HEAP_VADDR_END : Z := NEW_LINEAR_HEAP_VADDR + NEW_LINEAR_HEAP_SIZE.
(* src: core/memory.h | PLUGIN_3GX_FB_VADDR = *)
Definition PLUGIN_3GX_FB_VADDR : Z := 0x06000000.
(* src: core/memory.h | PLUGIN_3GX_FB_SIZE = *)
Definition PLUGIN_3GX_FB_SIZE : Z := 0x000A9000.
(* src: core/memory.h | PLUGIN_3GX_FB_VADDR_END = *)
Definition PLUGIN_3GX_FB_VADDR_END : Z := PLUGIN_3GX_FB_VADDR + PLUGIN_3GX_FB_SIZE.

(* src: core/memory.h | enum class FlushMode { *)
Inductive FlushMode := Flush | Invalidate | FlushAndInvalidate.

(* src: core/memory.h | enum class PageType { *)
Inductive PageType := PageUnmapped | PageMemory | RasterizerCachedMemory.
#[export] Instance PageType_eq_dec : EqDecision PageType.
Proof. solve_decision. Defined.
#[export] Instance PageType_inhabited : Inhabited PageType := populate PageUnmapped.

(** * Host memory *)

(** The blocks: the four regions, and the buffers of shared memory. *)
(* src: core/memory.h | enum class Region { FCRAM, VRAM, DSP, N3DS }; *)
Inductive Backing := FCRAM | VRAM | DSP | N3DS | BufferMem (id : nat) (length : Z).
#[export] Instance Backing_eq_dec : EqDecision Backing.
Proof. solve_decision. Defined.

Definition Backing_encode (b : Backing) : nat * (nat * Z) :=
  match b with
  | FCRAM => (0, (0, 0%Z)) | VRAM => (1, (0, 0%Z)) | DSP => (2, (0, 0%Z)) | N3DS => (3, (0, 0%Z))
  | BufferMem i n => (4, (i, n))
  end%nat.
Definition Backing_decode (c : nat * (nat * Z)) : option Backing :=
  match c with
  | (0, _) => Some FCRAM | (1, _) => Some VRAM | (2, _) => Some DSP | (3, _) => Some N3DS
  | (_, (i, n)) => Some (BufferMem i n)
  end%nat.
#[export, refine] Instance Backing_countable : Countable Backing :=
  inj_countable Backing_encode Backing_decode _.
Proof. by intros []. Defined.

(* src: core/memory.cpp | u32 GetSize(Region r) const { *)
Definition backing_size (b : Backing) : Z :=
  match b with
  | VRAM => VRAM_SIZE | DSP => DSP_RAM_SIZE | FCRAM => FCRAM_N3DS_SIZE | N3DS => N3DS_EXTRA_RAM_SIZE
  | BufferMem _ n => n
  end.

(** Host pointers. *)
Abbreviation Pointer := (option (Backing * Z)).
Definition ptr_add (p : Pointer) (n : Z) : Pointer := '(b, o) ← p; Some (b, o + n).

Abbreviation Bytes := (gmap (Backing * Z) Z).
Definition byte_at (m : Bytes) (b : Backing) (o : Z) : Z := default 0 (m !! (b, o)).

(** [memcpy] from and to a pointer. *)
Definition in_block (b : Backing) (o : Z) (n : nat) : bool :=
  (0 <=? o) && (o + Z.of_nat n <=? backing_size b).
Definition bytes_at (m : Bytes) (b : Backing) (o : Z) (n : nat) : list Z :=
  (fun i => byte_at m b (o + Z.of_nat i)) <$> seq 0 n.
Fixpoint put_at (m : Bytes) (b : Backing) (o : Z) (bs : list Z) : Bytes :=
  match bs with [] => m | x :: bs => <[(b, o) := x]> (put_at m b (o + 1) bs) end.
Definition load (m : Bytes) (p : Pointer) (n : nat) : option (list Z) :=
  '(b, o) ← p; if in_block b o n then Some (bytes_at m b o n) else None.
Definition store (m : Bytes) (p : Pointer) (bs : list Z) : option Bytes :=
  '(b, o) ← p; if in_block b o (length bs) then Some (put_at m b o bs) else None.

(** ** References *)

(* src: common/memory_ref.h | class MemoryRef { *)
Record MemoryRef := mk_MemoryRef { backing_mem : option Backing; ref_offset : Z }.
#[export] Instance MemoryRef_eq_dec : EqDecision MemoryRef.
Proof. solve_decision. Defined.
Definition null_ref : MemoryRef := mk_MemoryRef None 0.
#[export] Instance MemoryRef_inhabited : Inhabited MemoryRef := populate null_ref.

(** [cptr] and [csize], set by [Init]. *)
(* src: memory_ref.h | const u8* GetPtr() const { *)
Definition GetPtr (r : MemoryRef) : Pointer := b ← backing_mem r; Some (b, ref_offset r).
(* src: memory_ref.h | csize = static_cast<std::size_t>(backing_mem->GetSize() - offset); | MemoryRef::Init | ..csize = 0; *)
Definition GetSize (r : MemoryRef) : Z :=
  match backing_mem r with Some b => u64 (backing_size b - ref_offset r) | None => 0 end.
(* src: memory_ref.h | MemoryRef(std::shared_ptr<BackingMem> backing_mem_, u64 offset_) *)
Definition make_ref (b : Backing) (offset : Z) : option MemoryRef :=
  if offset <=? backing_size b then Some (mk_MemoryRef (Some b) offset) else None.
(* src: memory_ref.h | MemoryRef& operator+=(u32 offset_by) { *)
Definition ref_add (r : MemoryRef) (offset_by : Z) : option MemoryRef :=
  if offset_by <? GetSize r then Some (r<|ref_offset := u64 (ref_offset r + offset_by)|>) else None.

(** * Page tables and the rasterizer's marks *)

(* src: core/memory.h | struct PageTable { *)
Record PageTable := mk_PageTable { attributes : gmap Z PageType; pointers : gmap Z MemoryRef }.
#[export] Instance PageTable_inhabited : Inhabited PageTable := populate (mk_PageTable ∅ ∅).

(* src: core/memory.cpp | void PageTable::Clear() { *)
Definition PageTable_Clear (pt : PageTable) : PageTable := pt<|pointers := ∅|><|attributes := ∅|>.

Definition page_type (pt : PageTable) (p : Z) : PageType := attributes pt !!! p.
Definition page_ref (pt : PageTable) (p : Z) : MemoryRef := pointers pt !!! p.
Definition set_page (pt : PageTable) (p : Z) (type : PageType) (memory : MemoryRef) : PageTable :=
  pt<|attributes := <[p := type]> (attributes pt)|><|pointers := <[p := memory]> (pointers pt)|>.

(** The four arrays of marks: the array and the index of an address. *)
(* src: core/memory.cpp | bool* At(VAddr addr) { *)
Definition marker_at (addr : Z) : option (nat * Z) :=
  if (VRAM_VADDR <=? addr) && (addr <? VRAM_VADDR_END) then Some (0%nat, (addr - VRAM_VADDR) / CITRA_PAGE_SIZE)
  else if (LINEAR_HEAP_VADDR <=? addr) && (addr <? LINEAR_HEAP_VADDR_END)
  then Some (1%nat, (addr - LINEAR_HEAP_VADDR) / CITRA_PAGE_SIZE)
  else if (NEW_LINEAR_HEAP_VADDR <=? addr) && (addr <? NEW_LINEAR_HEAP_VADDR_END)
  then Some (2%nat, (addr - NEW_LINEAR_HEAP_VADDR) / CITRA_PAGE_SIZE)
  else if (PLUGIN_3GX_FB_VADDR <=? addr) && (addr <? PLUGIN_3GX_FB_VADDR_END)
  then Some (3%nat, (addr - PLUGIN_3GX_FB_VADDR) / CITRA_PAGE_SIZE)
  else None.
(** The set of the marked entries. *)
Abbreviation RasterizerCacheMarker := (gset (nat * Z)).
(* src: core/memory.cpp | void Mark(VAddr addr, bool cached) { *)
Definition Mark (m : RasterizerCacheMarker) (addr : Z) (cached : bool) : RasterizerCacheMarker :=
  match marker_at addr with
  | Some p => if cached then {[p]} ∪ m else m ∖ {[p]}
  | None => m
  end.
(* src: core/memory.cpp | bool IsCached(VAddr addr) { *)
Definition IsCached (m : RasterizerCacheMarker) (addr : Z) : bool :=
  match marker_at addr with Some p => bool_decide (p ∈ m) | None => false end.

(** * The memory system *)

(** The calls of the rasterizer (mode, physical start, size) and accesses to the
    registers of the graphics unit. *)
Inductive GpuCall :=
  RasterizerRegion (mode : FlushMode) (start size : Z)
| ReadReg (addr : Z)
| WriteReg (addr value : Z).

(** What the graphics unit does to the bytes of the host on a call, and the value
    it gives for a register, after the calls made before. *)
Class GPU := {
  gpu_bytes : list GpuCall -> Bytes -> GpuCall -> Bytes;
  gpu_reg : list GpuCall -> Bytes -> Z -> Z
}.

(** [plugin_fb_addr] is the address of the plugin loader's frame buffer, [None]
    without a plugin loader; page tables are shared: they are named by numbers. *)
(* src: core/memory.cpp | std::unique_ptr<u8[]> fcram = | MemorySystem::Impl | ..std::shared_ptr<BackingMem> dsp_mem; *)
Record MemorySystem := mk_MemorySystem {
  bytes : Bytes;
  gpu_calls : list GpuCall;
  page_tables : gmap nat PageTable;
  current_page_table : option nat;
  page_table_list : list nat;
  cache_marker : RasterizerCacheMarker;
  IsPoweredOn : bool;
  plugin_fb_addr : option Z
}.
Implicit Types (ms : MemorySystem).

Definition page_table ms (t : nat) : PageTable := page_tables ms !!! t.
Definition set_page_table ms (t : nat) (pt : PageTable) : MemorySystem :=
  ms<|page_tables := <[t := pt]> (page_tables ms)|>.
Definition set_bytes ms (m : Bytes) : MemorySystem := ms<|bytes := m|>.

(* src: core/memory.cpp | void MemorySystem::SetCurrentPageTable(std::shared_ptr<PageTable> page_table) { *)
Definition SetCurrentPageTable ms (t : option nat) : MemorySystem := ms<|current_page_table := t|>.
(* src: core/memory.cpp | void MemorySystem::RegisterPageTable(std::shared_ptr<PageTable> page_table) { *)
Definition RegisterPageTable ms (t : nat) : MemorySystem :=
  ms<|page_table_list := page_table_list ms ++ [t]|>.
(** Erasing the first occurrence. *)
Fixpoint erase_table (t : nat) (l : list nat) : list nat :=
  match l with [] => [] | x :: l => if decide (x = t) then l else x :: erase_table t l end.
(* src: core/memory.cpp | void MemorySystem::UnregisterPageTable(std::shared_ptr<PageTable> page_table) { *)
Definition UnregisterPageTable ms (t : nat) : MemorySystem :=
  ms<|page_table_list := erase_table t (page_table_list ms)|>.

(** ** Physical addresses *)

(* src: core/memory.cpp | u32 MemorySystem::GetFCRAMOffset(const u8* pointer) const { *)
Definition GetFCRAMOffset (pointer : Pointer) : option Z :=
  '(b, o) ← pointer;
  if decide (b = FCRAM) then if (0 <=? o) && (o <=? FCRAM_N3DS_SIZE) then Some (u32 o) else None else None.
(* src: core/memory.cpp | u8* MemorySystem::GetFCRAMPointer(std::size_t offset) { *)
Definition GetFCRAMPointer (offset : Z) : option Pointer :=
  if offset <=? FCRAM_N3DS_SIZE then Some (Some (FCRAM, offset)) else None.
(* src: core/memory.cpp | MemoryRef MemorySystem::GetFCRAMRef(std::size_t offset) const { *)
Definition GetFCRAMRef (offset : Z) : option MemoryRef :=
  if offset <=? FCRAM_N3DS_SIZE then make_ref FCRAM offset else None.

(* src: core/memory.cpp | constexpr std::array memory_areas = { | GetPhysicalRef | +6 *)
Definition memory_areas : list (Z * Z * Backing) :=
  [(VRAM_PADDR, VRAM_SIZE, VRAM); (DSP_RAM_PADDR, DSP_RAM_SIZE, DSP);
   (FCRAM_PADDR, FCRAM_N3DS_SIZE, FCRAM); (N3DS_EXTRA_RAM_PADDR, N3DS_EXTRA_RAM_SIZE, N3DS)].
(* src: core/memory.cpp | MemoryRef MemorySystem::GetPhysicalRef(PAddr address) const { *)
Definition GetPhysicalRef (address : Z) : option MemoryRef :=
  match list_find (fun '(start, size, _) => start <= address ∧ address <= start + size) memory_areas with
  | None => Some null_ref
  | Some (_, (start, _, target_mem)) =>
      let offset_into_region := u32 (address - start) in
      if backing_size target_mem <? offset_into_region then Some null_ref
      else make_ref target_mem offset_into_region
  end.
(* src: core/memory.cpp | u8* MemorySystem::GetPhysicalPointer(PAddr address) const { *)
Definition GetPhysicalPointer (address : Z) : option Pointer := GetPtr <$> GetPhysicalRef address.
(* src: core/memory.cpp | bool MemorySystem::IsValidPhysicalAddress(const PAddr paddr) const { *)
Definition IsValidPhysicalAddress (paddr : Z) : option bool :=
  (fun r => bool_decide (GetPtr r ≠ None)) <$> GetPhysicalRef paddr.

(* src: core/memory.cpp | std::vector<VAddr> MemorySystem::PhysicalToVirtualAddressForRasterizer(PAddr addr) { *)
Definition PhysicalToVirtualAddressForRasterizer ms (addr : Z) : list Z :=
  if (VRAM_PADDR <=? addr) && (addr <? VRAM_PADDR_END) then [u32 (addr - VRAM_PADDR + VRAM_VADDR)]
  else
    let fcram :=
      if (FCRAM_PADDR <=? addr) && (addr <? FCRAM_PADDR_END)
      then [u32 (addr - FCRAM_PADDR + LINEAR_HEAP_VADDR); u32 (addr - FCRAM_PADDR + NEW_LINEAR_HEAP_VADDR)]
      else if (FCRAM_PADDR_END <=? addr) && (addr <? FCRAM_N3DS_PADDR_END)
      then [u32 (addr - FCRAM_PADDR + NEW_LINEAR_HEAP_VADDR)]
      else [] in
    match plugin_fb_addr ms with
    | Some fb_addr =>
        if (fb_addr <=? addr) && (addr <? u32 (fb_addr + PLUGIN_3GX_FB_SIZE))
        then [u32 (addr - fb_addr + PLUGIN_3GX_FB_VADDR)] else fcram
    | None => fcram
    end.

(* src: core/memory.cpp | MemoryRef GetPointerForRasterizerCache(VAddr addr) const { *)
Definition GetPointerForRasterizerCache ms (addr : Z) : option MemoryRef :=
  if (LINEAR_HEAP_VADDR <=? addr) && (addr <? LINEAR_HEAP_VADDR_END)
  then make_ref FCRAM (u32 (addr - LINEAR_HEAP_VADDR))
  else if (NEW_LINEAR_HEAP_VADDR <=? addr) && (addr <? NEW_LINEAR_HEAP_VADDR_END)
  then make_ref FCRAM (u32 (addr - NEW_LINEAR_HEAP_VADDR))
  else if (VRAM_VADDR <=? addr) && (addr <? VRAM_VADDR_END) then make_ref VRAM (u32 (addr - VRAM_VADDR))
  else if (PLUGIN_3GX_FB_VADDR <=? addr) && (addr <? PLUGIN_3GX_FB_VADDR_END)
  then fb ← plugin_fb_addr ms; make_ref FCRAM (u32 (addr - PLUGIN_3GX_FB_VADDR + fb - FCRAM_PADDR))
  else None.

Section memory.
Context `{gpu : GPU}.

Definition gpu_call ms (c : GpuCall) : MemorySystem :=
  ms<|bytes := gpu_bytes (gpu_calls ms) (bytes ms) c|><|gpu_calls := gpu_calls ms ++ [c]|>.

(** [CheckRegion]: the call for the part of the range that lies in the region. *)
(* src: core/memory.cpp | auto CheckRegion = [&](VAddr region_start, VAddr region_end, PAddr paddr_region_start) { *)
Definition CheckRegion (start end_ : Z) (mode : FlushMode) ms (region : Z * Z * Z) : MemorySystem :=
  let '(region_start, region_end, paddr_region_start) := region in
  if (region_end <=? start) || (end_ <=? region_start) then ms
  else
    let overlap_start := Z.max start region_start in
    let overlap_end := Z.min end_ region_end in
    let physical_start := u32 (paddr_region_start + (overlap_start - region_start)) in
    gpu_call ms (RasterizerRegion mode physical_start (u32 (overlap_end - overlap_start))).
(* src: core/memory.cpp | void RasterizerFlushVirtualRegion(VAddr start, u32 size, FlushMode mode) { *)
Definition RasterizerFlushVirtualRegion ms (start size : Z) (mode : FlushMode) : MemorySystem :=
  let end_ := u32 (start + size) in
  let ms := foldl (CheckRegion start end_ mode) ms
    [(LINEAR_HEAP_VADDR, LINEAR_HEAP_VADDR_END, FCRAM_PADDR);
     (NEW_LINEAR_HEAP_VADDR, NEW_LINEAR_HEAP_VADDR_END, FCRAM_PADDR);
     (VRAM_VADDR, VRAM_VADDR_END, VRAM_PADDR)] in
  match plugin_fb_addr ms with
  | Some fb =>
      if nz fb then CheckRegion start end_ mode ms (PLUGIN_3GX_FB_VADDR, PLUGIN_3GX_FB_VADDR_END, fb) else ms
  | None => ms
  end.

(** ** Mapping pages *)

(** The entry a page gets: a page the rasterizer has cached is marked. *)
(* src: core/memory.cpp | page_table.attributes[base] = type; | MemorySystem::MapPages | +8 *)
Definition map_page (marker : RasterizerCacheMarker) (pt : PageTable) (base : Z) (memory : MemoryRef)
    (type : PageType) : PageTable :=
  if bool_decide (type = PageMemory) && IsCached marker (u32 (base * CITRA_PAGE_SIZE))
  then set_page pt base RasterizerCachedMemory null_ref
  else set_page pt base type memory.
(** The reference for the next page. *)
(* src: core/memory.cpp | if (memory != nullptr && memory.GetSize() > CITRA_PAGE_SIZE) | MemorySystem::MapPages | +2 *)
Definition next_page (memory : MemoryRef) : option MemoryRef :=
  if bool_decide (GetPtr memory ≠ None) && (CITRA_PAGE_SIZE <? GetSize memory)
  then ref_add memory CITRA_PAGE_SIZE else Some memory.
(** [count] turns of the loop, which ends when [base] has reached [end]. *)
(* src: core/memory.cpp | while (base != end) { | MemorySystem::MapPages *)
Fixpoint map_pages (count : nat) (marker : RasterizerCacheMarker) (pt : PageTable) (base : Z)
    (memory : MemoryRef) (type : PageType) : option PageTable :=
  match count with
  | O => Some pt
  | Datatypes.S count =>
      if base <? PAGE_TABLE_NUM_ENTRIES then
        let pt := map_page marker pt base memory type in
        memory ← next_page memory;
        map_pages count marker pt (u32 (base + 1)) memory type
      else None
  end.
(* src: core/memory.cpp | void MemorySystem::MapPages(PageTable& page_table, u32 base, u32 size, MemoryRef memory, *)
Definition MapPages ms (t : nat) (base size : Z) (memory : MemoryRef) (type : PageType) : option MemorySystem :=
  let ms :=
    if IsPoweredOn ms
    then RasterizerFlushVirtualRegion ms (u32 (base ≪ CITRA_PAGE_BITS)) (u32 (size * CITRA_PAGE_SIZE))
           FlushAndInvalidate
    else ms in
  pt ← map_pages (Z.to_nat size) (cache_marker ms) (page_table ms t) base memory type;
  Some (set_page_table ms t pt).
(* src: core/memory.cpp | void MemorySystem::MapMemoryRegion(PageTable& page_table, VAddr base, u32 size, MemoryRef target) { *)
Definition MapMemoryRegion ms (t : nat) (base size : Z) (target : MemoryRef) : option MemorySystem :=
  if nz (size .& CITRA_PAGE_MASK) || nz (base .& CITRA_PAGE_MASK) then None
  else MapPages ms t (base / CITRA_PAGE_SIZE) (size / CITRA_PAGE_SIZE) target PageMemory.
(* src: core/memory.cpp | void MemorySystem::UnmapRegion(PageTable& page_table, VAddr base, u32 size) { *)
Definition UnmapRegion ms (t : nat) (base size : Z) : option MemorySystem :=
  if nz (size .& CITRA_PAGE_MASK) || nz (base .& CITRA_PAGE_MASK) then None
  else MapPages ms t (base / CITRA_PAGE_SIZE) (size / CITRA_PAGE_SIZE) null_ref PageUnmapped.

(** ** Single accesses: [n] is [sizeof(T)] *)

Definition page_of (vaddr : Z) : Z := vaddr ≫ CITRA_PAGE_BITS.
Definition current_table ms : option PageTable := page_table ms <$> current_page_table ms.

(** The Luma3DS mapping of physical memory at the top half of the address space. *)
Inductive LumaTarget := LumaNone | LumaFCRAM (p : Pointer) | LumaMMIO (reg : Z).
(* src: core/memory.cpp | if (vaddr & (1 << 31)) { #1 | MemorySystem::Read | +12 *)
Definition luma_target (vaddr : Z) : option LumaTarget :=
  if nz (vaddr .& (1 ≪ 31)) then
    let paddr := vaddr .& unot 32 (1 ≪ 31) in
    if (paddr .& 0xF0000000) =? FCRAM_PADDR then LumaFCRAM <$> GetFCRAMPointer (paddr - FCRAM_PADDR)
    else if ((paddr .& 0xF0000000) =? 0x10000000) && (IO_AREA_PADDR <=? paddr)
    then Some (LumaMMIO (u32 (paddr - IO_AREA_PADDR + 0x1EC00000)))
    else Some LumaNone
  else Some LumaNone.

(* src: core/memory.cpp | T MemorySystem::Read(const VAddr vaddr) { *)
Definition Read ms (n : nat) (vaddr : Z) : option (Z * MemorySystem) :=
  pt ← current_table ms;
  match GetPtr (page_ref pt (page_of vaddr)) with
  | Some p => bs ← load (bytes ms) (ptr_add (Some p) (vaddr .& CITRA_PAGE_MASK)) n; Some (le_combine bs, ms)
  | None =>
      luma ← luma_target vaddr;
      match luma with
      | LumaFCRAM p => bs ← load (bytes ms) p n; Some (le_combine bs, ms)
      | LumaMMIO reg =>
          Some (uwrap (8 * Z.of_nat n) (gpu_reg (gpu_calls ms) (bytes ms) reg), gpu_call ms (ReadReg reg))
      | LumaNone =>
          match page_type pt (page_of vaddr) with
          | PageUnmapped => Some (0, ms)
          | PageMemory => None
          | RasterizerCachedMemory =>
              let ms := RasterizerFlushVirtualRegion ms vaddr (Z.of_nat n) Flush in
              r ← GetPointerForRasterizerCache ms vaddr;
              bs ← load (bytes ms) (GetPtr r) n; Some (le_combine bs, ms)
          end
      end
  end.

(* src: core/memory.cpp | void MemorySystem::Write(const VAddr vaddr, const T data) { *)
Definition Write ms (n : nat) (vaddr data : Z) : option MemorySystem :=
  pt ← current_table ms;
  match GetPtr (page_ref pt (page_of vaddr)) with
  | Some p =>
      set_bytes ms <$> store (bytes ms) (ptr_add (Some p) (vaddr .& CITRA_PAGE_MASK)) (le_split n data)
  | None =>
      luma ← luma_target vaddr;
      match luma with
      | LumaFCRAM p => set_bytes ms <$> store (bytes ms) p (le_split n data)
      | LumaMMIO reg => if decide (n = 4%nat) then Some (gpu_call ms (WriteReg reg (u32 data))) else None
      | LumaNone =>
          match page_type pt (page_of vaddr) with
          | PageUnmapped => Some ms
          | PageMemory => None
          | RasterizerCachedMemory =>
              let ms := RasterizerFlushVirtualRegion ms vaddr (Z.of_nat n) Invalidate in
              r ← GetPointerForRasterizerCache ms vaddr;
              set_bytes ms <$> store (bytes ms) (GetPtr r) (le_split n data)
          end
      end
  end.

(* src: common/atomic_ops.h | [[nodiscard]] inline bool AtomicCompareAndSwap(volatile u32* pointer, u32 value, u32 expected) { #1 *)
Definition AtomicCompareAndSwap ms (n : nat) (p : Pointer) (value expected : Z) : option (bool * MemorySystem) :=
  bs ← load (bytes ms) p n;
  if le_combine bs =? expected
  then m ← store (bytes ms) p (le_split n value); Some (true, set_bytes ms m)
  else Some (false, ms).
(* src: core/memory.cpp | bool MemorySystem::WriteExclusive(const VAddr vaddr, const T data, const T expected) { *)
Definition WriteExclusive ms (n : nat) (vaddr data expected : Z) : option (bool * MemorySystem) :=
  pt ← current_table ms;
  match GetPtr (page_ref pt (page_of vaddr)) with
  | Some p => AtomicCompareAndSwap ms n (ptr_add (Some p) (vaddr .& CITRA_PAGE_MASK)) data expected
  | None =>
      match page_type pt (page_of vaddr) with
      | PageUnmapped => Some (true, ms)
      | PageMemory => None
      | RasterizerCachedMemory =>
          let ms := RasterizerFlushVirtualRegion ms vaddr (Z.of_nat n) Invalidate in
          r ← GetPointerForRasterizerCache ms vaddr;
          AtomicCompareAndSwap ms n (GetPtr r) data expected
      end
  end.

(* src: core/memory.cpp | bool MemorySystem::IsValidVirtualAddress(const Kernel::Process& process, const VAddr vaddr) { *)
Definition IsValidVirtualAddress ms (t : nat) (vaddr : Z) : bool :=
  let pt := page_table ms t in
  match GetPtr (page_ref pt (page_of vaddr)) with
  | Some _ => true
  | None => bool_decide (page_type pt (page_of vaddr) = RasterizerCachedMemory)
  end.
(* src: core/memory.cpp | u8* MemorySystem::GetPointer(const VAddr vaddr) { *)
Definition GetPointer ms (vaddr : Z) : option Pointer :=
  pt ← current_table ms;
  match GetPtr (page_ref pt (page_of vaddr)) with
  | Some p => Some (ptr_add (Some p) (vaddr .& CITRA_PAGE_MASK))
  | None =>
      if decide (page_type pt (page_of vaddr) = RasterizerCachedMemory)
      then GetPtr <$> GetPointerForRasterizerCache ms vaddr
      else Some None
  end.

(** [max_length] turns at most. *)
(* src: core/memory.cpp | std::string MemorySystem::ReadCString(VAddr vaddr, std::size_t max_length) { *)
Fixpoint ReadCString ms (vaddr : Z) (max_length : nat) : option (list Z * MemorySystem) :=
  match max_length with
  | O => Some ([], ms)
  | Datatypes.S max_length =>
      '(c, ms) ← Read ms 1 vaddr;
      if c =? 0 then Some ([], ms)
      else '(s, ms) ← ReadCString ms (u32 (vaddr + 1)) max_length; Some (c :: s, ms)
  end.

(** ** Blocks *)

(** The loop over the pages of a block: [step] handles the part of the block that
    lies in one page, at an offset, of some size; [None] also when [fuel] turns
    were not enough. *)
(* src: core/memory.cpp | while (remaining_size > 0) { #1 | MemorySystem::Impl::ReadBlockImpl | +4 *)
Fixpoint page_loop {A} (step : MemorySystem -> A -> Z -> Z -> Z -> option (MemorySystem * A)) (fuel : nat)
    ms (acc : A) (page_index page_offset remaining_size : Z) : option (MemorySystem * A) :=
  if remaining_size <=? 0 then Some (ms, acc)
  else match fuel with
  | O => None
  | Datatypes.S fuel =>
      let copy_amount := Z.min (CITRA_PAGE_SIZE - page_offset) remaining_size in
      if page_index <? PAGE_TABLE_NUM_ENTRIES then
        '(ms, acc) ← step ms acc page_index page_offset copy_amount;
        page_loop step fuel ms acc (page_index + 1) 0 (remaining_size - copy_amount)
      else None
  end.
(** Turns enough for any block of this size. *)
Definition block_fuel (size : Z) : nat := Z.to_nat (size / CITRA_PAGE_SIZE + 2).
(* src: core/memory.cpp | std::size_t page_index = src_addr >> CITRA_PAGE_BITS; #1 | MemorySystem::Impl::ReadBlockImpl | +2 *)
Definition over_pages {A} (step : MemorySystem -> A -> Z -> Z -> Z -> option (MemorySystem * A))
    ms (acc : A) (addr size : Z) : option (MemorySystem * A) :=
  page_loop step (block_fuel size) ms acc (addr ≫ CITRA_PAGE_BITS) (addr .& CITRA_PAGE_MASK) size.

Definition vaddr_of (page_index page_offset : Z) : Z := u32 ((page_index ≪ CITRA_PAGE_BITS) + page_offset).
Definition unless_unsafe (unsafe : bool) ms (addr size : Z) (mode : FlushMode) : MemorySystem :=
  if unsafe then ms else RasterizerFlushVirtualRegion ms addr (u32 size) mode.

(* src: core/memory.cpp | switch (page_table.attributes[page_index]) { #1 | MemorySystem::Impl::ReadBlockImpl *)
Definition read_step (unsafe : bool) (t : nat) ms (dest : list Z) (page_index page_offset copy_amount : Z)
    : option (MemorySystem * list Z) :=
  let pt := page_table ms t in
  let n := Z.to_nat copy_amount in
  match page_type pt page_index with
  | PageUnmapped => Some (ms, dest ++ replicate n 0)
  | PageMemory =>
      bs ← load (bytes ms) (ptr_add (GetPtr (page_ref pt page_index)) page_offset) n;
      Some (ms, dest ++ bs)
  | RasterizerCachedMemory =>
      let current_vaddr := vaddr_of page_index page_offset in
      let ms := unless_unsafe unsafe ms current_vaddr copy_amount Flush in
      r ← GetPointerForRasterizerCache ms current_vaddr;
      bs ← load (bytes ms) (GetPtr r) n;
      Some (ms, dest ++ bs)
  end.
(* src: core/memory.cpp | void ReadBlockImpl(const Kernel::Process& process, const VAddr src_addr, void* dest_buffer, *)
Definition ReadBlockImpl (unsafe : bool) ms (t : nat) (src_addr size : Z) : option (MemorySystem * list Z) :=
  over_pages (read_step unsafe t) ms [] src_addr size.
(* src: core/memory.cpp | void MemorySystem::ReadBlock(const Kernel::Process& process, const VAddr src_addr, *)
Definition ReadBlock := ReadBlockImpl false.

(** The buffer a block is written from: bytes of its own or a host pointer. *)
Inductive Source := HostBuffer (bs : list Z) | HostPointer (p : Pointer).
Definition fetch ms (src : Source) (offset : Z) (n : nat) : option (list Z) :=
  match src with
  | HostBuffer bs => Some (take n (drop (Z.to_nat offset) bs))
  | HostPointer p => load (bytes ms) (ptr_add p offset) n
  end.

(** [done] bytes of the source have been written. *)
(* src: core/memory.cpp | switch (page_table.attributes[page_index]) { #2 | MemorySystem::Impl::WriteBlockImpl *)
Definition write_step (unsafe : bool) (t : nat) (src : Source) ms (done page_index page_offset copy_amount : Z)
    : option (MemorySystem * Z) :=
  let pt := page_table ms t in
  let n := Z.to_nat copy_amount in
  match page_type pt page_index with
  | PageUnmapped => Some (ms, done + copy_amount)
  | PageMemory =>
      bs ← fetch ms src done n;
      m ← store (bytes ms) (ptr_add (GetPtr (page_ref pt page_index)) page_offset) bs;
      Some (set_bytes ms m, done + copy_amount)
  | RasterizerCachedMemory =>
      let current_vaddr := vaddr_of page_index page_offset in
      let ms := unless_unsafe unsafe ms current_vaddr copy_amount Invalidate in
      r ← GetPointerForRasterizerCache ms current_vaddr;
      bs ← fetch ms src done n;
      m ← store (bytes ms) (GetPtr r) bs;
      Some (set_bytes ms m, done + copy_amount)
  end.
(* src: core/memory.cpp | void WriteBlockImpl(const Kernel::Process& process, const VAddr dest_addr, *)
Definition WriteBlockImpl (unsafe : bool) ms (t : nat) (dest_addr : Z) (src : Source) (size : Z)
    : option MemorySystem :=
  fst <$> over_pages (write_step unsafe t src) ms 0 dest_addr size.
(* src: core/memory.cpp | void MemorySystem::WriteBlock(const Kernel::Process& process, const VAddr dest_addr, *)
Definition WriteBlock := WriteBlockImpl false.

(* src: core/memory.cpp | switch (page_table.attributes[page_index]) { #3 | MemorySystem::ZeroBlock *)
Definition zero_step (t : nat) ms (_ : unit) (page_index page_offset copy_amount : Z)
    : option (MemorySystem * unit) :=
  let pt := page_table ms t in
  let zeros := replicate (Z.to_nat copy_amount) 0 in
  match page_type pt page_index with
  | PageUnmapped => Some (ms, ())
  | PageMemory =>
      m ← store (bytes ms) (ptr_add (GetPtr (page_ref pt page_index)) page_offset) zeros;
      Some (set_bytes ms m, ())
  | RasterizerCachedMemory =>
      let current_vaddr := vaddr_of page_index page_offset in
      let ms := RasterizerFlushVirtualRegion ms current_vaddr (u32 copy_amount) Invalidate in
      r ← GetPointerForRasterizerCache ms current_vaddr;
      m ← store (bytes ms) (GetPtr r) zeros;
      Some (set_bytes ms m, ())
  end.
(* src: core/memory.cpp | void MemorySystem::ZeroBlock(const Kernel::Process& process, const VAddr dest_addr, *)
Definition ZeroBlock ms (t : nat) (dest_addr size : Z) : option MemorySystem :=
  fst <$> over_pages (zero_step t) ms () dest_addr size.

(* src: core/memory.cpp | switch (page_table.attributes[page_index]) { #4 | MemorySystem::CopyBlock *)
Definition copy_step (dest src : nat) ms (dest_addr page_index page_offset copy_amount : Z)
    : option (MemorySystem * Z) :=
  let pt := page_table ms src in
  ms ← match page_type pt page_index with
       | PageUnmapped => ZeroBlock ms dest dest_addr copy_amount
       | PageMemory =>
           WriteBlock ms dest dest_addr
             (HostPointer (ptr_add (GetPtr (page_ref pt page_index)) page_offset)) copy_amount
       | RasterizerCachedMemory =>
           let current_vaddr := vaddr_of page_index page_offset in
           let ms := RasterizerFlushVirtualRegion ms current_vaddr (u32 copy_amount) Flush in
           r ← GetPointerForRasterizerCache ms current_vaddr;
           WriteBlock ms dest dest_addr (HostPointer (GetPtr r)) copy_amount
       end;
  Some (ms, u32 (dest_addr + copy_amount)).
(* src: core/memory.cpp | void MemorySystem::CopyBlock(const Kernel::Process& dest_process, *)
Definition CopyBlock ms (dest src : nat) (dest_addr src_addr size : Z) : option MemorySystem :=
  fst <$> over_pages (copy_step dest src) ms dest_addr src_addr size.

(** ** The rasterizer's marks *)

(** The page of one address in one table. *)
(* src: core/memory.cpp | PageType& page_type = page_table->attributes[vaddr >> CITRA_PAGE_BITS]; | MemorySystem::RasterizerMarkRegionCached | +33 *)
Definition mark_page (vaddr : Z) (cached : bool) ms (t : nat) : option MemorySystem :=
  let pt := page_table ms t in
  let p := page_of vaddr in
  if cached then
    match page_type pt p with
    | PageUnmapped => Some ms
    | PageMemory => Some (set_page_table ms t (set_page pt p RasterizerCachedMemory null_ref))
    | RasterizerCachedMemory => None
    end
  else
    match page_type pt p with
    | PageUnmapped => Some ms
    | RasterizerCachedMemory =>
        r ← GetPointerForRasterizerCache ms (vaddr .& unot 32 CITRA_PAGE_MASK);
        Some (set_page_table ms t (set_page pt p PageMemory r))
    | PageMemory => None
    end.
Fixpoint fold_memory {A} (f : MemorySystem -> A -> option MemorySystem) ms (l : list A) : option MemorySystem :=
  match l with [] => Some ms | x :: l => ms ← f ms x; fold_memory f ms l end.
(* src: core/memory.cpp | impl->cache_marker.Mark(vaddr, cached); | MemorySystem::RasterizerMarkRegionCached | +2 *)
Definition mark_vaddr (cached : bool) ms (vaddr : Z) : option MemorySystem :=
  let ms := ms<|cache_marker := Mark (cache_marker ms) vaddr cached|> in
  fold_memory (mark_page vaddr cached) ms (page_table_list ms).
(* src: core/memory.cpp | for (unsigned i = 0; i < num_pages; ++i, paddr += CITRA_PAGE_SIZE) { *)
Fixpoint mark_pages (num_pages : nat) (cached : bool) ms (paddr : Z) : option MemorySystem :=
  match num_pages with
  | O => Some ms
  | Datatypes.S num_pages =>
      ms ← fold_memory (mark_vaddr cached) ms (PhysicalToVirtualAddressForRasterizer ms paddr);
      mark_pages num_pages cached ms (u32 (paddr + CITRA_PAGE_SIZE))
  end.
(* src: core/memory.cpp | void MemorySystem::RasterizerMarkRegionCached(PAddr start, u32 size, bool cached) { *)
Definition RasterizerMarkRegionCached ms (start size : Z) (cached : bool) : option MemorySystem :=
  if start =? 0 then Some ms
  else
    let num_pages :=
      u32 ((u32 (start + size - 1) ≫ CITRA_PAGE_BITS) - (start ≫ CITRA_PAGE_BITS) + 1) in
    mark_pages (Z.to_nat num_pages) cached ms start.
End memory.
