(* ===== verification/MemoryFacts.v ===== *)
(** Reading and writing the emulated memory: a block is the bytes behind its
    addresses, whatever the kinds of its pages; writing changes these bytes and
    no others. *)

From stdpp Require Import sorting.
From S2P Require Import Prelude Memory.

Implicit Types (ms : MemorySystem) (m : Bytes) (b : Backing) (t : nat).

(** * Host memory *)

Lemma byte_at_put m b o bs b' o' :
  byte_at (put_at m b o bs) b' o' =
  if decide (b' = b ∧ o <= o' < o + Z.of_nat (length bs)) then bs !!! Z.to_nat (o' - o) else byte_at m b' o'.
Proof.
  revert o. induction bs as [|x bs IH]; intros o; cbn [put_at length].
  - rewrite decide_False by (intros [_ ?]; lia). done.
  - unfold byte_at in *. destruct (decide ((b', o') = (b, o))) as [E|N].
    + injection E as -> ->. rewrite lookup_insert_eq, decide_True by (split; [done|lia]). by rewrite Z.sub_diag.
    + rewrite lookup_insert_ne by congruence. rewrite IH. destruct (decide (b' = b ∧ o + 1 <= o' < _)) as [[-> H]|H].
      * rewrite decide_True by (split; [done|lia]). replace (Z.to_nat (o' - o)) with (S (Z.to_nat (o' - (o + 1)))) by lia. done.
      * rewrite decide_False; [done|]. intros [-> H']. apply H. split; [done|].
        destruct (decide (o' = o)); [congruence|lia].
Qed.

Lemma bytes_at_put m b o bs : bytes_at (put_at m b o bs) b o (length bs) = bs.
Proof.
  apply list_eq. intros i. unfold bytes_at. rewrite list_lookup_fmap.
  destruct (decide (i < length bs)%nat) as [L|L].
  - rewrite lookup_seq_lt by done. cbn. rewrite byte_at_put, decide_True by (split; [done|lia]).
    replace (Z.to_nat (o + Z.of_nat i - o)) with i by lia. symmetry. by apply list_lookup_lookup_total_lt.
  - rewrite lookup_seq_ge by lia. symmetry. apply lookup_ge_None. lia.
Qed.

Lemma bytes_at_put_other m b o bs b' o' n :
  (b' = b -> o' + Z.of_nat n <= o ∨ o + Z.of_nat (length bs) <= o') ->
  bytes_at (put_at m b o bs) b' o' n = bytes_at m b' o' n.
Proof.
  intros D. unfold bytes_at. apply list_fmap_ext. intros i x Hx. apply lookup_seq in Hx as [-> Hi].
  rewrite byte_at_put, decide_False; [done|]. intros [E H]. specialize (D E). lia.
Qed.

Lemma length_bytes_at m b o n : length (bytes_at m b o n) = n.
Proof. unfold bytes_at. by rewrite length_fmap, length_seq. Qed.

Lemma bytes_at_app m b o i j : bytes_at m b o (i + j) = bytes_at m b o i ++ bytes_at m b (o + Z.of_nat i) j.
Proof.
  unfold bytes_at. rewrite seq_app, fmap_app. f_equal. rewrite Nat.add_comm, <- fmap_add_seq, <- list_fmap_compose.
  apply list_fmap_ext. intros k x _. cbn. f_equal. lia.
Qed.

(** * Addresses and host bytes *)

(** The host memory behind a page. *)
Definition page_host ms (pt : PageTable) (p : Z) : Pointer :=
  match page_type pt p with
  | PageUnmapped => None
  | PageMemory => GetPtr (page_ref pt p)
  | RasterizerCachedMemory => r ← GetPointerForRasterizerCache ms (p * CITRA_PAGE_SIZE); GetPtr r
  end.
(** The host byte behind an address, and its value; 0 where no page is mapped. *)
Definition host_at ms t (a : Z) : Pointer :=
  ptr_add (page_host ms (page_table ms t) (a / CITRA_PAGE_SIZE)) (a mod CITRA_PAGE_SIZE).
Definition vbyte ms t (a : Z) : Z :=
  match host_at ms t a with Some (b, o) => byte_at (bytes ms) b o | None => 0 end.
Definition vbytes ms t (a : Z) (n : nat) : list Z := (fun i => vbyte ms t (a + Z.of_nat i)) <$> seq 0 n.

(** A page in use has a whole page of host memory. *)
Definition page_ready ms (pt : PageTable) (p : Z) : Prop :=
  page_type pt p = PageUnmapped ∨
  ∃ b o, page_host ms pt p = Some (b, o) ∧ in_block b o 4096 = true.
Definition ready ms t (a n : Z) : Prop :=
  ∀ p, a / CITRA_PAGE_SIZE <= p <= (a + n - 1) / CITRA_PAGE_SIZE -> page_ready ms (page_table ms t) p.

Lemma in_block_spec b o n : in_block b o n = true <-> 0 <= o ∧ o + Z.of_nat n <= backing_size b.
Proof. unfold in_block. lia. Qed.

Lemma vbytes_app ms t a i j : vbytes ms t a (i + j) = vbytes ms t a i ++ vbytes ms t (a + Z.of_nat i) j.
Proof.
  unfold vbytes. rewrite seq_app, fmap_app. f_equal. rewrite Nat.add_comm, <- fmap_add_seq, <- list_fmap_compose.
  apply list_fmap_ext. intros k x _. cbn. f_equal. lia.
Qed.

(** Inside of a page the bytes are consecutive. *)
Lemma vbytes_page ms t p off n b o : 0 <= off -> off + Z.of_nat n <= CITRA_PAGE_SIZE ->
  page_host ms (page_table ms t) p = Some (b, o) ->
  vbytes ms t (p * CITRA_PAGE_SIZE + off) n = bytes_at (bytes ms) b (o + off) n.
Proof.
  intros H0 Hn Hp. apply list_fmap_ext. intros i x [-> Hi]%lookup_seq. unfold vbyte, host_at.
  assert (E : (p * CITRA_PAGE_SIZE + off + Z.of_nat (0 + i)) / CITRA_PAGE_SIZE = p ∧
              (p * CITRA_PAGE_SIZE + off + Z.of_nat (0 + i)) mod CITRA_PAGE_SIZE = off + Z.of_nat i)
    by (unfold CITRA_PAGE_SIZE in *; split; Z.div_mod_to_equations; lia).
  destruct E as [-> ->]. rewrite Hp. cbn. f_equal. lia.
Qed.

Lemma vbytes_unmapped ms t p off n : 0 <= off -> off + Z.of_nat n <= CITRA_PAGE_SIZE ->
  page_type (page_table ms t) p = PageUnmapped ->
  vbytes ms t (p * CITRA_PAGE_SIZE + off) n = replicate n 0.
Proof.
  intros H0 Hn Hp. apply list_eq. intros i. unfold vbytes. rewrite list_lookup_fmap.
  destruct (decide (i < n)%nat) as [L|L].
  - rewrite lookup_seq_lt, lookup_replicate_2 by done. cbn. f_equal. unfold vbyte, host_at.
    replace ((p * CITRA_PAGE_SIZE + off + Z.of_nat i) / CITRA_PAGE_SIZE) with p
      by (unfold CITRA_PAGE_SIZE in *; Z.div_mod_to_equations; lia).
    unfold page_host. by rewrite Hp.
  - rewrite lookup_seq_ge by lia. symmetry. apply lookup_replicate_None. lia.
Qed.

(** * Page by page *)

Lemma page_type_set pt p type mem q : page_type (set_page pt p type mem) q = if decide (q = p) then type else page_type pt q.
Proof.
  change (<[p := type]> (attributes pt) !!! q = if decide (q = p) then type else attributes pt !!! q).
  destruct (decide (q = p)) as [->|]; [apply lookup_total_insert_eq|by apply lookup_total_insert_ne].
Qed.

Lemma page_ref_set pt p type mem q : page_ref (set_page pt p type mem) q = if decide (q = p) then mem else page_ref pt q.
Proof.
  change (<[p := mem]> (pointers pt) !!! q = if decide (q = p) then mem else pointers pt !!! q).
  destruct (decide (q = p)) as [->|]; [apply lookup_total_insert_eq|by apply lookup_total_insert_ne].
Qed.

(** [ms'] differs from [ms] in the bytes and the history of the graphics unit only. *)
Definition same_tables ms ms' : Prop := ∃ m c, ms' = ms<|bytes := m|><|gpu_calls := c|>.
#[export] Instance same_tables_preorder : PreOrder same_tables.
Proof.
  split; [intros ms; exists (bytes ms), (gpu_calls ms); by destruct ms|].
  intros x y z (m & c & ->) (m' & c' & ->). by exists m', c'.
Qed.

Lemma host_at_same ms ms' t a : same_tables ms ms' -> host_at ms' t a = host_at ms t a.
Proof. by intros (m & c & ->). Qed.
Lemma ready_same ms ms' t a n : same_tables ms ms' -> ready ms t a n -> ready ms' t a n.
Proof. by intros (m & c & ->). Qed.

(** A rasterizer that has nothing to write back and nothing to lose. *)
Class QuietGPU `{gpu : GPU} := gpu_quiet : ∀ h m c, gpu_bytes h m c = m.

Section blocks.
Context `{quiet : QuietGPU}.

Lemma gpu_call_quiet ms c : same_tables ms (gpu_call ms c) ∧ bytes (gpu_call ms c) = bytes ms.
Proof. unfold gpu_call. rewrite gpu_quiet. split; [by eexists _, _|done]. Qed.

Lemma CheckRegion_quiet start end_ mode ms r :
  same_tables ms (CheckRegion start end_ mode ms r) ∧ bytes (CheckRegion start end_ mode ms r) = bytes ms.
Proof. destruct r as [[r1 r2] r3]. unfold CheckRegion. destruct (_ || _); [done|apply gpu_call_quiet]. Qed.

Lemma flush_quiet ms start n mode :
  same_tables ms (RasterizerFlushVirtualRegion ms start n mode) ∧
  bytes (RasterizerFlushVirtualRegion ms start n mode) = bytes ms.
Proof.
  unfold RasterizerFlushVirtualRegion. cbv zeta. set (ms' := foldl _ _ _).
  assert (H : same_tables ms ms' ∧ bytes ms' = bytes ms).
  { unfold ms'. cbn [foldl]. set (e := u32 (start + n)).
    destruct (CheckRegion_quiet start e mode ms (LINEAR_HEAP_VADDR, LINEAR_HEAP_VADDR_END, FCRAM_PADDR)) as [S1 B1].
    set (ms1 := CheckRegion _ _ _ ms _) in *.
    destruct (CheckRegion_quiet start e mode ms1 (NEW_LINEAR_HEAP_VADDR, NEW_LINEAR_HEAP_VADDR_END, FCRAM_PADDR)) as [S2 B2].
    set (ms2 := CheckRegion _ _ _ ms1 _) in *.
    destruct (CheckRegion_quiet start e mode ms2 (VRAM_VADDR, VRAM_VADDR_END, VRAM_PADDR)) as [S3 B3].
    split; [etrans; [exact S1|]; etrans; [exact S2|exact S3]|exact (eq_trans B3 (eq_trans B2 B1))]. }
  destruct H as [S B]. destruct (plugin_fb_addr ms') as [fb|]; [|done]. destruct (nz fb); [|done].
  destruct (CheckRegion_quiet start (u32 (start + n)) mode ms' (PLUGIN_3GX_FB_VADDR, PLUGIN_3GX_FB_VADDR_END, fb)) as [S1 B1].
  split; [etrans; [exact S|exact S1]|exact (eq_trans B1 B)].
Qed.

(** The reference for an address inside of a page is that of the page, further on. *)
Lemma cache_pointer_page ms p k r b o : GetPointerForRasterizerCache ms (p * CITRA_PAGE_SIZE) = Some r ->
  GetPtr r = Some (b, o) -> in_block b o 4096 = true -> 0 <= k < CITRA_PAGE_SIZE -> 0 <= p < PAGE_TABLE_NUM_ENTRIES ->
  ∃ r', GetPointerForRasterizerCache ms (p * CITRA_PAGE_SIZE + k) = Some r' ∧ GetPtr r' = Some (b, o + k).
Proof.
  unfold GetPointerForRasterizerCache, CITRA_PAGE_SIZE, PAGE_TABLE_NUM_ENTRIES, CITRA_PAGE_BITS.
  intros Hr Hp Hb Hk Hq. apply in_block_spec in Hb.
  assert (M : ∀ bk x y, backing_size bk < 2 ^ 32 -> make_ref bk (u32 x) = Some r -> y = x + k ->
                ∃ r', make_ref bk (u32 y) = Some r' ∧ GetPtr r' = Some (b, o + k)).
  { intros bk x y Hs. unfold make_ref. destruct (u32 x <=? backing_size bk); [|done]. intros [= <-] ->.
    change (Some (bk, u32 x) = Some (b, o)) in Hp. injection Hp as -> Ho.
    assert (E : u32 (x + k) = o + k).
    { rewrite <- Ho in *. unfold uwrap in *. rewrite <- Zplus_mod_idemp_l. apply Z.mod_small. lia. }
    rewrite E, (proj2 (Z.leb_le _ _)) by lia. eexists. split; [done|]. done. }
  revert Hr. unfold LINEAR_HEAP_VADDR_END, LINEAR_HEAP_VADDR, LINEAR_HEAP_SIZE, NEW_LINEAR_HEAP_VADDR_END,
    NEW_LINEAR_HEAP_VADDR, NEW_LINEAR_HEAP_SIZE, VRAM_VADDR_END, VRAM_VADDR, VRAM_SIZE, PLUGIN_3GX_FB_VADDR_END,
    PLUGIN_3GX_FB_VADDR, PLUGIN_3GX_FB_SIZE. intros Hr.
  repeat match type of Hr with
  | context [if ?c then _ else _] =>
      match goal with |- context [if ?d then _ else _] =>
        let E := fresh in assert (E : d = c) by (zcases; simpl; done || lia); rewrite E; clear E; destruct c
      end
  end.
  - apply (M FCRAM _ _ eq_refl Hr). lia.
  - apply (M FCRAM _ _ eq_refl Hr). lia.
  - apply (M VRAM _ _ eq_refl Hr). lia.
  - destruct (plugin_fb_addr ms) as [fb|]; [|done]. cbn [mbind option_bind] in *. apply (M FCRAM _ _ eq_refl Hr). lia.
  - done.
Qed.

Lemma vaddr_of_eq p off : 0 <= p < PAGE_TABLE_NUM_ENTRIES -> 0 <= off < CITRA_PAGE_SIZE ->
  vaddr_of p off = p * CITRA_PAGE_SIZE + off.
Proof.
  unfold vaddr_of, CITRA_PAGE_SIZE, PAGE_TABLE_NUM_ENTRIES, CITRA_PAGE_BITS. intros Hp Ho.
  rewrite shiftl_mul by done. apply uwrap_id. unfold in_range. lia.
Qed.

(** The loop over the pages, for an invariant indexed by the address reached. *)
Lemma over_pages_rule {A} (step : MemorySystem -> A -> Z -> Z -> Z -> option (MemorySystem * A))
    (I : Z -> MemorySystem -> A -> Prop) e :
  (∀ ms acc p off n, I (p * CITRA_PAGE_SIZE + off) ms acc -> 0 <= p < PAGE_TABLE_NUM_ENTRIES -> 0 <= off -> 0 < n ->
     off + n <= CITRA_PAGE_SIZE -> p * CITRA_PAGE_SIZE + off + n <= e ->
     ∃ ms' acc', step ms acc p off n = Some (ms', acc') ∧ I (p * CITRA_PAGE_SIZE + off + n) ms' acc') ->
  ∀ ms acc addr, 0 <= addr <= e -> e <= 2 ^ 32 -> I addr ms acc ->
  ∃ ms' acc', over_pages step ms acc addr (e - addr) = Some (ms', acc') ∧ I e ms' acc'.
Proof.
  intros Hs ms acc addr H0 He Hi.
  assert (L : ∀ fuel ms acc p off, 0 <= p -> 0 <= off -> off <= CITRA_PAGE_SIZE -> p * CITRA_PAGE_SIZE + off <= e ->
    (off = CITRA_PAGE_SIZE -> p * CITRA_PAGE_SIZE + off = e) ->
    e - p * CITRA_PAGE_SIZE <= Z.of_nat fuel * CITRA_PAGE_SIZE -> I (p * CITRA_PAGE_SIZE + off) ms acc ->
    ∃ ms' acc', page_loop step fuel ms acc p off (e - (p * CITRA_PAGE_SIZE + off)) = Some (ms', acc') ∧ I e ms' acc').
  { clear ms acc addr H0 Hi. unfold CITRA_PAGE_SIZE in *. induction fuel as [|fuel IH]; intros ms acc p off Hp Ho Ho' Hle Hend Hf Hi.
    - exists ms, acc. replace (p * 0x1000 + off) with e in Hi |- * by lia. rewrite Z.sub_diag. done.
    - cbn [page_loop]. destruct (Z.leb_spec (e - (p * 0x1000 + off)) 0) as [Z|Z].
      { exists ms, acc. by replace (p * 0x1000 + off) with e in Hi by lia. }
      set (n := Z.min _ _). change CITRA_PAGE_SIZE with 0x1000 in n.
      rewrite (proj2 (Z.ltb_lt _ _)) by (unfold PAGE_TABLE_NUM_ENTRIES, CITRA_PAGE_BITS; lia).
      destruct (Hs ms acc p off n Hi) as (ms' & acc' & -> & Hi'); try (unfold n, PAGE_TABLE_NUM_ENTRIES, CITRA_PAGE_BITS; lia).
      cbn [mbind option_bind]. destruct (decide (p * 0x1000 + off + n = e)) as [E|N].
      + exists ms', acc'. rewrite E in Hi'. replace (e - (p * 0x1000 + off) - n) with 0 by lia.
        split; [by destruct fuel|done].
      + assert (En : off + n = 0x1000) by (unfold n in *; lia).
        replace (e - (p * 0x1000 + off) - n) with (e - ((p + 1) * 0x1000 + 0)) by lia.
        apply IH; try lia. by replace ((p + 1) * 0x1000 + 0) with (p * 0x1000 + off + n) by lia. }
  unfold over_pages. rewrite shiftr_div by done. unfold CITRA_PAGE_MASK. change (CITRA_PAGE_SIZE - 1) with (2 ^ 12 - 1).
  rewrite land_mask by done. unfold CITRA_PAGE_BITS, CITRA_PAGE_SIZE, block_fuel in *. change (2 ^ 12) with 4096 in *.
  assert (Ea : addr / 4096 * 4096 + addr mod 4096 = addr) by (Z.div_mod_to_equations; lia).
  destruct (L (Z.to_nat ((e - addr) / 0x1000 + 2)) ms acc (addr / 4096) (addr mod 4096)) as (ms' & acc' & R & Hi').
  1-6: change 0x1000 with 4096 in *; rewrite ?Ea; Z.div_mod_to_equations; lia.
  - by rewrite Ea.
  - rewrite Ea in R. by exists ms', acc'.
Qed.

Lemma read_step_spec unsafe ms t dest p off n :
  page_ready ms (page_table ms t) p -> 0 <= p < PAGE_TABLE_NUM_ENTRIES -> 0 <= off -> 0 < n -> off + n <= CITRA_PAGE_SIZE ->
  ∃ ms', read_step unsafe t ms dest p off n =
           Some (ms', dest ++ vbytes ms t (p * CITRA_PAGE_SIZE + off) (Z.to_nat n)) ∧
    same_tables ms ms' ∧ bytes ms' = bytes ms.
Proof.
  intros R Hp H0 Hn Hs. unfold read_step. destruct (page_type (page_table ms t) p) eqn:Ty.
  - exists ms. rewrite vbytes_unmapped by (done || lia). done.
  - destruct R as [R|(b & o & R & B)]; [congruence|]. rewrite (vbytes_page ms t p off (Z.to_nat n) b o) by (done || lia).
    unfold page_host in R. rewrite Ty in R. rewrite R. apply in_block_spec in B. cbn. unfold load. cbn.
    rewrite (proj2 (in_block_spec _ _ _)) by (unfold CITRA_PAGE_SIZE in *; lia). by exists ms.
  - destruct R as [R|(b & o & R & B)]; [congruence|]. rewrite (vbytes_page ms t p off (Z.to_nat n) b o) by (done || lia).
    unfold page_host in R. rewrite Ty in R. rewrite vaddr_of_eq by (done || lia).
    destruct (GetPointerForRasterizerCache ms (p * CITRA_PAGE_SIZE)) as [r|] eqn:Er; [|done]. cbn [mbind option_bind] in R.
    destruct (cache_pointer_page ms p off r b o Er R B ltac:(lia) Hp) as (r' & Er' & R').
    set (ms' := unless_unsafe _ _ _ _ _).
    assert (F : same_tables ms ms' ∧ bytes ms' = bytes ms)
      by (unfold ms', unless_unsafe; destruct unsafe; [done|apply flush_quiet]).
    destruct F as [F Fb]. assert (G : GetPointerForRasterizerCache ms' (p * CITRA_PAGE_SIZE + off) = Some r')
      by (destruct F as (? & ? & ->); exact Er').
    rewrite G. cbn [mbind option_bind]. rewrite R'. unfold load. cbn [mbind option_bind].
    apply in_block_spec in B. rewrite (proj2 (in_block_spec _ _ _)) by (unfold CITRA_PAGE_SIZE in *; lia).
    rewrite Fb. exists ms'. done.
Qed.

(** Reading a block gives the bytes behind its addresses. *)
Lemma ReadBlockImpl_spec unsafe ms t addr n : 0 <= addr -> 0 <= n -> addr + n <= 2 ^ 32 -> ready ms t addr n ->
  ∃ ms', ReadBlockImpl unsafe ms t addr n = Some (ms', vbytes ms t addr (Z.to_nat n)) ∧ same_tables ms ms' ∧
    bytes ms' = bytes ms.
Proof.
  intros H0 Hn He R. unfold ReadBlockImpl.
  destruct (over_pages_rule (read_step unsafe t)
    (fun a ms' acc => same_tables ms ms' ∧ bytes ms' = bytes ms ∧ addr <= a ∧ acc = vbytes ms t addr (Z.to_nat (a - addr)))
    (addr + n)) with (ms := ms) (acc := @nil Z) (addr := addr) as (ms' & acc & E & S & B & _ & ->); try lia.
  - intros ms1 acc p off k (S & B & Ha & ->) Hp Ho Hk Hs Hle.
    destruct (read_step_spec unsafe ms1 t (vbytes ms t addr (Z.to_nat (p * CITRA_PAGE_SIZE + off - addr))) p off k)
      as (ms2 & E & S' & B'); try done.
    { destruct S as (m & c & ->). change (page_ready ms (page_table ms t) p). apply R. unfold CITRA_PAGE_SIZE in *.
      Z.div_mod_to_equations; lia. }
    exists ms2. eexists. split; [exact E|]. split_and!; [by etrans|congruence|lia|].
    assert (V : vbytes ms1 t (p * CITRA_PAGE_SIZE + off) (Z.to_nat k) = vbytes ms t (p * CITRA_PAGE_SIZE + off) (Z.to_nat k)).
    { apply list_fmap_ext. intros i x _. unfold vbyte. by rewrite (host_at_same ms ms1 t _ S), B. }
    rewrite V. replace (Z.to_nat (p * CITRA_PAGE_SIZE + off + k - addr))
      with (Z.to_nat (p * CITRA_PAGE_SIZE + off - addr) + Z.to_nat k)%nat by lia.
    rewrite vbytes_app. do 2 f_equal. lia.
  - rewrite Z.sub_diag. done.
  - replace (addr + n - addr) with n in * by lia. by exists ms'.
Qed.

(** * Writing *)

(** The bytes behind the addresses of an interval are those of [f], other bytes
    are as they were. *)
Definition wrote ms ms' t (lo hi : Z) (f : Z -> Z) : Prop :=
  same_tables ms ms' ∧
  (∀ x b o, lo <= x < hi -> host_at ms t x = Some (b, o) -> byte_at (bytes ms') b o = f x) ∧
  (∀ b o, (∀ x, lo <= x < hi -> host_at ms t x ≠ Some (b, o)) -> byte_at (bytes ms') b o = byte_at (bytes ms) b o).
(** Addresses that share a byte are to get the same value. *)
Definition agrees ms t (lo hi : Z) (f : Z -> Z) : Prop :=
  ∀ x y b o, lo <= x < hi -> lo <= y < hi -> host_at ms t x = Some (b, o) -> host_at ms t y = Some (b, o) -> f x = f y.

Lemma host_at_page ms t p off x b o : page_host ms (page_table ms t) p = Some (b, o) ->
  0 <= off -> p * CITRA_PAGE_SIZE <= x < p * CITRA_PAGE_SIZE + CITRA_PAGE_SIZE ->
  host_at ms t x = Some (b, o + (x - p * CITRA_PAGE_SIZE)).
Proof.
  intros Hp Ho Hx. unfold host_at.
  replace (x / CITRA_PAGE_SIZE) with p by (unfold CITRA_PAGE_SIZE in *; Z.div_mod_to_equations; lia).
  rewrite Hp. cbn. do 2 f_equal. unfold CITRA_PAGE_SIZE in *. Z.div_mod_to_equations; lia.
Qed.

Lemma wrote_unmapped ms ms1 t lo p off n f : wrote ms ms1 t lo (p * CITRA_PAGE_SIZE + off) f ->
  page_type (page_table ms t) p = PageUnmapped -> 0 <= off -> 0 <= n -> off + n <= CITRA_PAGE_SIZE ->
  wrote ms ms1 t lo (p * CITRA_PAGE_SIZE + off + n) f.
Proof.
  intros (S & W1 & W2) Hp Ho Hn' Hn.
  assert (U : ∀ x, p * CITRA_PAGE_SIZE + off <= x < p * CITRA_PAGE_SIZE + off + n -> host_at ms t x = None).
  { intros x Hx. unfold host_at.
    replace (x / CITRA_PAGE_SIZE) with p by (unfold CITRA_PAGE_SIZE in *; Z.div_mod_to_equations; lia).
    unfold page_host. by rewrite Hp. }
  split; [done|]. split.
  - intros x b o Hx Hh. apply W1; [|done]. destruct (decide (x < p * CITRA_PAGE_SIZE + off)); [lia|].
    rewrite U in Hh by lia. done.
  - intros b o H. apply W2. intros x Hx. apply H. lia.
Qed.

Lemma wrote_put ms ms1 t lo p off b o bs f : wrote ms ms1 t lo (p * CITRA_PAGE_SIZE + off) f ->
  page_host ms (page_table ms t) p = Some (b, o) -> 0 <= off -> off + Z.of_nat (length bs) <= CITRA_PAGE_SIZE ->
  lo <= p * CITRA_PAGE_SIZE + off ->
  agrees ms t lo (p * CITRA_PAGE_SIZE + off + Z.of_nat (length bs)) f ->
  (∀ i y, bs !! i = Some y -> f (p * CITRA_PAGE_SIZE + off + Z.of_nat i) = y) ->
  wrote ms (set_bytes ms1 (put_at (bytes ms1) b (o + off) bs)) t lo (p * CITRA_PAGE_SIZE + off + Z.of_nat (length bs)) f.
Proof.
  intros (S & W1 & W2) Hp Ho Hn Hlo A F. split.
  { destruct S as (m & c & ->). exists (put_at m b (o + off) bs), c. reflexivity. }
  change (bytes (set_bytes ms1 ?m)) with m. split.
  - intros x b' o' Hx Hh. rewrite byte_at_put. destruct (decide _) as [[-> Hin]|Hout].
    + set (y := p * CITRA_PAGE_SIZE + off + (o' - (o + off))).
      assert (Hy : host_at ms t y = Some (b, o')).
      { rewrite (host_at_page ms t p off y b o Hp Ho) by (unfold y; lia). do 2 f_equal. unfold y. lia. }
      rewrite (A x y b o' Hx ltac:(unfold y; lia) Hh Hy). symmetry.
      replace y with (p * CITRA_PAGE_SIZE + off + Z.of_nat (Z.to_nat (o' - (o + off)))) by (unfold y; lia).
      apply F. apply list_lookup_lookup_total_lt. lia.
    + destruct (decide (x < p * CITRA_PAGE_SIZE + off)) as [L|L]; [apply (W1 x); [lia|done]|]. exfalso. apply Hout.
      rewrite (host_at_page ms t p off x b o Hp Ho) in Hh by lia. injection Hh as <- <-. split; [done|lia].
  - intros b' o' H. rewrite byte_at_put, decide_False.
    + apply W2. intros x Hx. apply H. lia.
    + intros [-> Hin]. apply (H (p * CITRA_PAGE_SIZE + off + (o' - (o + off)))); [lia|].
      rewrite (host_at_page ms t p off _ b o Hp Ho) by lia. do 2 f_equal. lia.
Qed.

Lemma store_in_page m b o off bs : in_block b o 4096 = true -> 0 <= off -> off + Z.of_nat (length bs) <= CITRA_PAGE_SIZE ->
  store m (Some (b, o + off)) bs = Some (put_at m b (o + off) bs).
Proof.
  intros B Ho Hn. apply in_block_spec in B. unfold store. cbn [mbind option_bind].
  by rewrite (proj2 (in_block_spec _ _ _)) by (unfold CITRA_PAGE_SIZE in *; lia).
Qed.

(** Where a page's bytes are stored, whatever its kind. *)
Lemma page_target ms t p off n mode unsafe : page_ready ms (page_table ms t) p -> 0 <= p < PAGE_TABLE_NUM_ENTRIES ->
  0 <= off -> 0 < n -> off + n <= CITRA_PAGE_SIZE -> page_type (page_table ms t) p ≠ PageUnmapped ->
  ∃ b o, page_host ms (page_table ms t) p = Some (b, o) ∧ in_block b o 4096 = true ∧
    match page_type (page_table ms t) p with
    | PageUnmapped => False
    | PageMemory => GetPtr (page_ref (page_table ms t) p) = Some (b, o)
    | RasterizerCachedMemory => ∃ r,
        let ms' := unless_unsafe unsafe ms (vaddr_of p off) n mode in
        same_tables ms ms' ∧ bytes ms' = bytes ms ∧
        GetPointerForRasterizerCache ms' (vaddr_of p off) = Some r ∧ GetPtr r = Some (b, o + off)
    end.
Proof.
  intros [R|(b & o & R & B)] Hp Ho Hn Hs U; [done|]. exists b, o. split; [done|]. split; [done|].
  unfold page_host in R. destruct (page_type (page_table ms t) p); [done|done|].
  rewrite vaddr_of_eq by (done || lia).
  destruct (GetPointerForRasterizerCache ms (p * CITRA_PAGE_SIZE)) as [r|] eqn:Er; [|done]. cbn [mbind option_bind] in R.
  destruct (cache_pointer_page ms p off r b o Er R B ltac:(lia) Hp) as (r' & Er' & R'). exists r'.
  assert (F : ∀ a, let ms' := unless_unsafe unsafe ms a n mode in same_tables ms ms' ∧ bytes ms' = bytes ms)
    by (intros a; unfold unless_unsafe; destruct unsafe; [done|apply flush_quiet]).
  destruct (F (p * CITRA_PAGE_SIZE + off)) as [F1 F2]. split_and!; [exact F1|exact F2| |exact R'].
  destruct F1 as (? & ? & ->). exact Er'.
Qed.

(** A source gives the values of [f], whatever has been written before. *)
Definition feeds ms t (lo : Z) (src : Source) (len : Z) (f : Z -> Z) : Prop :=
  ∀ ms1 k n, wrote ms ms1 t lo (lo + k) f -> 0 <= k -> 0 < n -> k + n <= len ->
  ∃ chunk, fetch ms1 src k (Z.to_nat n) = Some chunk ∧ Z.of_nat (length chunk) = n ∧
    ∀ i y, chunk !! i = Some y -> f (lo + k + Z.of_nat i) = y.

Lemma feeds_buffer ms t lo bs :
  feeds ms t lo (HostBuffer bs) (Z.of_nat (length bs)) (fun x => bs !!! Z.to_nat (x - lo)).
Proof.
  intros ms1 k n _ Hk Hn Hl. eexists. split; [done|]. split; [rewrite length_take, length_drop; lia|].
  intros i y [Hy Hi]%lookup_take_Some. rewrite lookup_drop in Hy. apply list_lookup_total_correct. rewrite <- Hy. f_equal. lia.
Qed.

Lemma write_step_spec unsafe ms ms1 t lo src len f p off n :
  wrote ms ms1 t lo (p * CITRA_PAGE_SIZE + off) f -> page_ready ms (page_table ms t) p -> feeds ms t lo src len f ->
  0 <= p < PAGE_TABLE_NUM_ENTRIES -> 0 <= off -> 0 < n -> off + n <= CITRA_PAGE_SIZE -> lo <= p * CITRA_PAGE_SIZE + off ->
  p * CITRA_PAGE_SIZE + off + n - lo <= len ->
  agrees ms t lo (p * CITRA_PAGE_SIZE + off + n) f ->
  ∃ ms2, write_step unsafe t src ms1 (p * CITRA_PAGE_SIZE + off - lo) p off n
           = Some (ms2, p * CITRA_PAGE_SIZE + off - lo + n) ∧
    wrote ms ms2 t lo (p * CITRA_PAGE_SIZE + off + n) f.
Proof.
  intros W R Fd Hp Ho Hn Hs Hlo Hl A. unfold write_step.
  assert (T1 : page_table ms1 t = page_table ms t ∧ page_ready ms1 (page_table ms1 t) p)
    by (destruct W as ((m & c & ->) & _); done).
  destruct T1 as [T1 R1]. set (k := p * CITRA_PAGE_SIZE + off - lo) in *.
  assert (Wp : ∀ b o ms', page_host ms (page_table ms t) p = Some (b, o) -> same_tables ms1 ms' -> bytes ms' = bytes ms1 ->
    ∃ chunk, fetch ms' src k (Z.to_nat n) = Some chunk ∧ Z.of_nat (length chunk) = n ∧
      wrote ms (set_bytes ms' (put_at (bytes ms') b (o + off) chunk)) t lo (p * CITRA_PAGE_SIZE + off + n) f).
  { intros b o ms' Hh S B.
    assert (W' : wrote ms ms' t lo (p * CITRA_PAGE_SIZE + off) f)
      by (destruct W as (S0 & W1 & W2); split; [by etrans|]; by rewrite B).
    destruct (Fd ms' k n) as (chunk & E & Lc & F); try (unfold k; lia).
    { by replace (lo + k) with (p * CITRA_PAGE_SIZE + off) by (unfold k; lia). }
    exists chunk. split_and!; try done. rewrite <- Lc. apply wrote_put; try done; try lia; [by rewrite Lc|].
    intros i y Hy. specialize (F i y Hy). by replace (lo + k) with (p * CITRA_PAGE_SIZE + off) in F by (unfold k; lia). }
  destruct (decide (page_type (page_table ms1 t) p = PageUnmapped)) as [E|N].
  - rewrite E. exists ms1. split; [done|]. apply wrote_unmapped; try done; [by rewrite <- T1|lia].
  - destruct (page_target ms1 t p off n Invalidate unsafe R1 Hp Ho Hn Hs N) as (b & o & Hh & B & K).
    assert (Hh0 : page_host ms (page_table ms t) p = Some (b, o)) by (destruct W as ((m & c & ->) & _); exact Hh).
    destruct (page_type (page_table ms1 t) p); [done| |].
    + rewrite K. destruct (Wp b o ms1 Hh0) as (chunk & -> & Lc & W'); try done. cbn [mbind option_bind ptr_add].
      rewrite (store_in_page _ _ _ off) by (done || lia). by eexists.
    + destruct K as (r & S & B' & G & Gr). cbv zeta in *. rewrite G. cbn [mbind option_bind].
      destruct (Wp b o _ Hh0 S B') as (chunk & -> & Lc & W'). cbn [mbind option_bind].
      rewrite Gr, (store_in_page _ _ _ off) by (done || lia). by eexists.
Qed.

(** Writing a block writes the bytes behind its addresses and no others. *)
Lemma WriteBlockImpl_spec unsafe ms t addr src n f : 0 <= addr -> 0 <= n -> addr + n <= 2 ^ 32 ->
  ready ms t addr n -> feeds ms t addr src n f -> agrees ms t addr (addr + n) f ->
  ∃ ms', WriteBlockImpl unsafe ms t addr src n = Some ms' ∧ wrote ms ms' t addr (addr + n) f.
Proof.
  intros H0 Hn He R Fd A. unfold WriteBlockImpl.
  destruct (over_pages_rule (write_step unsafe t src)
    (fun a ms' acc => addr <= a ∧ acc = a - addr ∧ wrote ms ms' t addr a f)
    (addr + n)) with (ms := ms) (acc := 0) (addr := addr) as (ms' & acc & E & _ & _ & W); try lia.
  - intros ms1 acc p off k (Ha & -> & W) Hp Ho Hk Hs Hle.
    destruct (write_step_spec unsafe ms ms1 t addr src n f p off k) as (ms2 & E & W'); try done; try lia.
    { apply R. unfold CITRA_PAGE_SIZE in *. Z.div_mod_to_equations; lia. }
    { intros x y b o Hx Hy. apply A; lia. }
    exists ms2. eexists. split; [exact E|]. split_and!; [lia|lia|done].
  - rewrite Z.sub_diag. split_and!; [lia|done|]. split; [done|]. split; [lia|done].
  - replace (addr + n - addr) with n in * by lia. rewrite E. exists ms'. done.
Qed.

(** Zeroing a block. *)
Lemma ZeroBlock_spec ms t addr n : 0 <= addr -> 0 <= n -> addr + n <= 2 ^ 32 -> ready ms t addr n ->
  ∃ ms', ZeroBlock ms t addr n = Some ms' ∧ wrote ms ms' t addr (addr + n) (fun _ => 0).
Proof.
  intros H0 Hn He R. unfold ZeroBlock.
  destruct (over_pages_rule (zero_step t)
    (fun a ms' _ => addr <= a ∧ wrote ms ms' t addr a (fun _ => 0))
    (addr + n)) with (ms := ms) (acc := ()) (addr := addr) as (ms' & acc & E & _ & W); try lia.
  - intros ms1 [] p off k (Ha & W) Hp Ho Hk Hs Hle. unfold zero_step.
    assert (T1 : page_table ms1 t = page_table ms t ∧ page_ready ms1 (page_table ms1 t) p).
    { assert (Rp : page_ready ms (page_table ms t) p) by (apply R; unfold CITRA_PAGE_SIZE in *; Z.div_mod_to_equations; lia).
      destruct W as ((m & c & ->) & _). done. }
    destruct T1 as [T1 R1]. set (zeros := replicate _ 0).
    assert (Lz : Z.of_nat (length zeros) = k) by (unfold zeros; rewrite length_replicate; lia).
    assert (Wp : ∀ b o ms', page_host ms (page_table ms t) p = Some (b, o) -> same_tables ms1 ms' -> bytes ms' = bytes ms1 ->
      wrote ms (set_bytes ms' (put_at (bytes ms') b (o + off) zeros)) t addr (p * CITRA_PAGE_SIZE + off + k) (fun _ => 0)).
    { intros b o ms' Hh S B. rewrite <- Lz. apply wrote_put; try done; try lia.
      - destruct W as (S0 & W1 & W2). split; [by etrans|]. by rewrite B.
      - intros i y Hy. by apply lookup_replicate in Hy as [-> _]. }
    destruct (decide (page_type (page_table ms1 t) p = PageUnmapped)) as [E|N].
    + rewrite E. exists ms1, (). split; [done|]. split; [lia|]. apply wrote_unmapped; try done; [by rewrite <- T1|lia].
    + destruct (page_target ms1 t p off k Invalidate false R1 Hp Ho Hk Hs N) as (b & o & Hh & B & K).
      assert (Hh0 : page_host ms (page_table ms t) p = Some (b, o)) by (destruct W as ((m & c & ->) & _); exact Hh).
      destruct (page_type (page_table ms1 t) p); [done| |].
      * rewrite K. cbn [ptr_add mbind option_bind]. rewrite (store_in_page _ _ _ off) by (done || lia).
        eexists _, (). split; [done|]. split; [lia|]. by apply Wp.
      * destruct K as (r & S & B' & G & Gr). cbv zeta in *. unfold unless_unsafe in *. rewrite G. cbn [mbind option_bind].
        rewrite Gr, (store_in_page _ _ _ off) by (done || lia). cbn [mbind option_bind].
        eexists _, (). split; [done|]. split; [lia|]. by apply Wp.
  - split; [lia|]. split; [done|]. split; [lia|done].
  - replace (addr + n - addr) with n in * by lia. rewrite E. exists ms'. done.
Qed.

(** ** Copying *)

Lemma wrote_trans ms ms1 ms2 t lo mid hi f : lo <= mid <= hi -> agrees ms t lo hi f ->
  wrote ms ms1 t lo mid f -> wrote ms1 ms2 t mid hi f -> wrote ms ms2 t lo hi f.
Proof.
  intros Hm A (S1 & V1 & U1) (S2 & V2 & U2).
  assert (Hh : ∀ x, host_at ms1 t x = host_at ms t x) by (intros x; by apply host_at_same).
  split; [by etrans|]. split.
  - intros x b o Hx Hb. destruct (decide (mid <= x)) as [L|L]; [apply V2; [lia|by rewrite Hh]|].
    destruct (decide (Exists (fun y => host_at ms1 t y = Some (b, o)) (seqZ mid (hi - mid)))) as [(y & Hy & E)%Exists_exists|N].
    + rewrite elem_of_seqZ in Hy. rewrite (V2 y b o) by (done || lia). rewrite Hh in E.
      apply (A y x b o); [lia|lia|done|done].
    + rewrite U2; [by apply V1; [lia|]|]. intros y Hy E. apply N, Exists_exists. exists y. by rewrite elem_of_seqZ; split; [lia|].
  - intros b o H. rewrite U2, U1; [done|..]; intros x Hx; rewrite ?Hh; apply H; lia.
Qed.

(** The bytes of one range are not those of the other. *)
Definition disjoint_ranges ms dst src (da sa n : Z) : Prop :=
  ∀ x y c, da <= x < da + n -> sa <= y < sa + n -> host_at ms dst x = Some c -> host_at ms src y ≠ Some c.

(** A page of the source feeds its bytes. *)
Lemma feeds_pointer ms ms1 dst src da sa n p off k b o f :
  (∀ x, f x = vbyte ms src (sa + (x - da))) -> disjoint_ranges ms dst src da sa n ->
  page_host ms (page_table ms src) p = Some (b, o) -> in_block b o 4096 = true ->
  0 <= off -> off + k <= CITRA_PAGE_SIZE -> sa <= p * CITRA_PAGE_SIZE + off -> p * CITRA_PAGE_SIZE + off + k <= sa + n ->
  agrees ms dst da (da + n) f ->
  let d := da + (p * CITRA_PAGE_SIZE + off - sa) in
  wrote ms ms1 dst da d f ->
  feeds ms1 dst d (HostPointer (Some (b, o + off))) k f.
Proof.
  intros Hf D Hp B Ho Hs Hlo Hhi A d W ms2 j i W2 Hj Hi Hji. apply in_block_spec in B.
  assert (W' : wrote ms ms2 dst da (d + j) f).
  { apply (wrote_trans ms ms1 ms2 dst da d); [lia| |done|done]. intros x y b' o' Hx Hy. apply A; unfold d in *; lia. }
  eexists. split; [|split].
  - cbn [fetch ptr_add mbind option_bind]. unfold load. cbn [mbind option_bind].
    rewrite (proj2 (in_block_spec _ _ _)) by (unfold CITRA_PAGE_SIZE in *; lia). done.
  - rewrite length_bytes_at. lia.
  - intros q y Hy. unfold bytes_at in Hy. rewrite list_lookup_fmap in Hy.
    destruct (seq 0 (Z.to_nat i) !! q) as [q'|] eqn:Q; [|done]. apply lookup_seq in Q as [-> Q]. cbn in Hy. injection Hy as <-.
    assert (Hh : host_at ms src (p * CITRA_PAGE_SIZE + off + j + Z.of_nat q) = Some (b, o + off + j + Z.of_nat q)).
    { rewrite (host_at_page ms src p off _ b o Hp Ho) by lia. do 2 f_equal. lia. }
    rewrite Hf. replace (sa + (d + j + Z.of_nat q - da)) with (p * CITRA_PAGE_SIZE + off + j + Z.of_nat q) by (unfold d; lia).
    unfold vbyte. rewrite Hh. destruct W' as (_ & _ & U). cbn [Nat.add]. symmetry. apply U.
    intros x Hx E. apply (D x (p * CITRA_PAGE_SIZE + off + j + Z.of_nat q) (b, o + off + j + Z.of_nat q));
      [unfold d in *; lia|lia|done|done].
Qed.

Lemma copy_step_spec ms ms1 dst src da sa n p off k f :
  (∀ x, f x = vbyte ms src (sa + (x - da))) -> disjoint_ranges ms dst src da sa n -> agrees ms dst da (da + n) f ->
  page_ready ms (page_table ms src) p -> ready ms dst da n -> 0 <= da -> da + n <= 2 ^ 32 ->
  0 <= p < PAGE_TABLE_NUM_ENTRIES -> 0 <= off -> 0 < k -> off + k <= CITRA_PAGE_SIZE ->
  sa <= p * CITRA_PAGE_SIZE + off -> p * CITRA_PAGE_SIZE + off + k <= sa + n ->
  let d := da + (p * CITRA_PAGE_SIZE + off - sa) in
  wrote ms ms1 dst da d f ->
  ∃ ms2, copy_step dst src ms1 (u32 d) p off k = Some (ms2, u32 (d + k)) ∧ wrote ms ms2 dst da (d + k) f.
Proof.
  intros Hf D A R Rd H0 He Hp Ho Hk Hs Hlo Hhi d W. unfold copy_step.
  rewrite (uwrap_id 32 d) by (unfold in_range, d; lia).
  assert (T1 : page_table ms1 src = page_table ms src ∧ page_ready ms1 (page_table ms1 src) p ∧ ready ms1 dst d k).
  { assert (Rk : ready ms dst d k).
    { intros q [Hq1 Hq2]. apply Rd. split; [etrans; [|exact Hq1]|etrans; [exact Hq2|]]; apply Z.div_le_mono; unfold d; lia || done. }
    destruct W as ((m & c & ->) & _). done. }
  destruct T1 as (T1 & R1 & Rk).
  assert (Ak : agrees ms dst da (d + k) f) by (intros x y b o Hx Hy; apply A; unfold d in *; lia).
  assert (Ak1 : agrees ms1 dst d (d + k) f).
  { destruct W as (S & _). intros x y b o Hx Hy. rewrite !(host_at_same ms ms1 dst _ S). apply Ak; unfold d in *; lia. }
  assert (Go : ∀ ms1' (q : Pointer) b o, page_host ms (page_table ms src) p = Some (b, o) -> in_block b o 4096 = true ->
    q = Some (b, o + off) -> same_tables ms1 ms1' -> bytes ms1' = bytes ms1 ->
    ∃ ms2, WriteBlock ms1' dst d (HostPointer q) k = Some ms2 ∧ wrote ms ms2 dst da (d + k) f).
  { intros ms1' q b o Hh B -> S1 B1.
    assert (W1 : wrote ms ms1' dst da d f) by (destruct W as (S0 & Wa & Wb); split; [by etrans|by rewrite B1]).
    pose proof (feeds_pointer ms ms1' dst src da sa n p off k b o f Hf D Hh B Ho Hs Hlo Hhi A W1) as Fd.
    destruct (WriteBlockImpl_spec false ms1' dst d (HostPointer (Some (b, o + off))) k f) as (ms2 & E & W2);
      [unfold d; lia|lia|unfold d; lia|by destruct S1 as (? & ? & ->)|exact Fd
      |intros x y b' o' Hx Hy; rewrite !(host_at_same ms1 ms1' dst _ S1); by apply Ak1|].
    exists ms2. split; [exact E|]. apply (wrote_trans ms ms1' ms2 dst da d); [unfold d; lia|exact Ak|exact W1|exact W2]. }
  destruct (decide (page_type (page_table ms1 src) p = PageUnmapped)) as [E|N].
  - rewrite E. destruct (ZeroBlock_spec ms1 dst d k ltac:(unfold d; lia) ltac:(lia) ltac:(unfold d; lia) Rk) as (ms2 & -> & W2).
    cbn [mbind option_bind]. exists ms2. split; [done|].
    apply (wrote_trans ms ms1 ms2 dst da d); [unfold d; lia|done|done|]. destruct W2 as (S2 & V2 & U2).
    split; [done|]. split; [|done]. intros x b o Hx Hb. rewrite (V2 x b o Hx Hb), Hf. unfold vbyte, host_at.
    replace ((sa + (x - da)) / CITRA_PAGE_SIZE) with p
      by (apply (Z.div_unique _ _ _ (off + (x - d))); unfold d, CITRA_PAGE_SIZE in *; lia).
    unfold page_host. rewrite <- T1, E. done.
  - destruct (page_target ms1 src p off k Flush false R1 Hp Ho Hk Hs N) as (b & o & Hh & B & K).
    assert (Hh0 : page_host ms (page_table ms src) p = Some (b, o)) by (destruct W as ((m & c & ->) & _); exact Hh).
    destruct (page_type (page_table ms1 src) p); [done| |].
    + rewrite K. cbn [ptr_add mbind option_bind].
      destruct (Go ms1 (Some (b, o + off)) b o Hh0 B eq_refl) as (ms2 & -> & W2); [done|done|]. by exists ms2.
    + destruct K as (r & S & B' & G & Gr). cbv zeta in *. unfold unless_unsafe in *. rewrite G. cbn [mbind option_bind].
      destruct (Go _ (GetPtr r) b o Hh0 B Gr S B') as (ms2 & -> & W2). by exists ms2.
Qed.

End blocks.

(** * What block copies and accesses to the emulated memory promise: a copy moves the bytes, a
    block written is the block read, and a single access is the block access of its size. *)


Section blocks.
Context `{quiet : QuietGPU}.

Lemma CopyBlock_spec ms dst src da sa n : 0 <= da < 2 ^ 32 -> 0 <= sa -> 0 <= n -> da + n <= 2 ^ 32 -> sa + n <= 2 ^ 32 ->
  ready ms dst da n -> ready ms src sa n -> disjoint_ranges ms dst src da sa n ->
  let f := fun x => vbyte ms src (sa + (x - da)) in
  agrees ms dst da (da + n) f ->
  ∃ ms', CopyBlock ms dst src da sa n = Some ms' ∧ wrote ms ms' dst da (da + n) f.
Proof.
  intros H0 H1 Hn Hd Hs Rd Rs D f A. unfold CopyBlock.
  destruct (over_pages_rule (copy_step dst src)
    (fun a ms' acc => sa <= a ∧ acc = u32 (da + (a - sa)) ∧ wrote ms ms' dst da (da + (a - sa)) f)
    (sa + n)) with (ms := ms) (acc := da) (addr := sa) as (ms' & acc & E & _ & _ & W); try lia.
  - intros ms1 acc p off k (Ha & -> & W) Hp Ho Hk Hsz Hle.
    destruct (copy_step_spec ms ms1 dst src da sa n p off k f) as (ms2 & E & W'); try done; try lia.
    { apply Rs. unfold CITRA_PAGE_SIZE in *. Z.div_mod_to_equations; lia. }
    exists ms2. eexists. split; [exact E|]. split; [lia|].
    by replace (da + (p * CITRA_PAGE_SIZE + off + k - sa)) with (da + (p * CITRA_PAGE_SIZE + off - sa) + k) by lia.
  - rewrite Z.sub_diag, Z.add_0_r. split; [lia|]. split; [symmetry; by apply uwrap_id|]. split; [done|]. split; [lia|done].
  - replace (sa + n - sa) with n in * by lia. rewrite E. exists ms'. done.
Qed.


(** Every address has a byte, and no two addresses the same one. *)
Definition own_bytes ms t (lo hi : Z) : Prop :=
  (∀ x, lo <= x < hi -> host_at ms t x ≠ None) ∧
  (∀ x y c, lo <= x < hi -> lo <= y < hi -> host_at ms t x = Some c -> host_at ms t y = Some c -> x = y).

(** A block read back after it was written is the block that was written,
    over any mixture of ordinary pages and pages the rasterizer has cached. *)
Theorem WriteBlock_ReadBlock ms t addr (bs : list Z) :
  let n := Z.of_nat (length bs) in
  0 <= addr -> addr + n <= 2 ^ 32 -> ready ms t addr n -> own_bytes ms t addr (addr + n) ->
  ∃ ms1 ms2, WriteBlock ms t addr (HostBuffer bs) n = Some ms1 ∧ ReadBlock ms1 t addr n = Some (ms2, bs).
Proof.
  intros n H0 He R (T & J). set (f := fun x => bs !!! Z.to_nat (x - addr)).
  destruct (WriteBlockImpl_spec false ms t addr (HostBuffer bs) n f) as (ms1 & E1 & W); try lia; [done|apply feeds_buffer| |].
  { intros x y b o Hx Hy Ex Ey. by rewrite (J x y (b, o)). }
  destruct W as (S & W & _).
  destruct (ReadBlockImpl_spec false ms1 t addr n) as (ms2 & E2 & _); try lia; [by eapply ready_same|].
  exists ms1, ms2. split; [exact E1|]. unfold ReadBlock. rewrite E2. do 2 f_equal. unfold n. rewrite Nat2Z.id.
  apply list_eq. intros i. unfold vbytes. rewrite list_lookup_fmap.
  destruct (decide (i < length bs)%nat) as [L|L].
  - rewrite lookup_seq_lt by done. cbn [fmap option_fmap option_map Nat.add]. rewrite (list_lookup_lookup_total_lt bs i L). f_equal.
    unfold vbyte. rewrite (host_at_same ms ms1 t _ S). destruct (host_at ms t _) as [[b o]|] eqn:E;
      [|destruct (T (addr + Z.of_nat i) ltac:(lia) E)].
    rewrite (W (addr + Z.of_nat i) b o) by (done || lia). unfold f. f_equal. lia.
  - rewrite lookup_seq_ge by lia. symmetry. apply lookup_ge_None. lia.
Qed.

(** A single read of an address below the Luma3DS mapping is the block read of
    its size when it stays in one page: the same bytes, least significant first. *)
Theorem Read_is_ReadBlock ms t n vaddr :
  current_page_table ms = Some t -> 0 <= vaddr < 2 ^ 31 -> (0 < n)%nat -> vaddr mod CITRA_PAGE_SIZE + Z.of_nat n <= CITRA_PAGE_SIZE ->
  ready ms t vaddr (Z.of_nat n) ->
  (∀ p, page_type (page_table ms t) p = RasterizerCachedMemory -> GetPtr (page_ref (page_table ms t) p) = None) ->
  (∀ p, page_type (page_table ms t) p = PageUnmapped -> GetPtr (page_ref (page_table ms t) p) = None) ->
  ∃ bs ms1 ms2, ReadBlock ms t vaddr (Z.of_nat n) = Some (ms1, bs) ∧ Read ms n vaddr = Some (le_combine bs, ms2) ∧
    same_tables ms ms1 ∧ same_tables ms ms2 ∧ bytes ms1 = bytes ms2.
Proof.
  intros Ht Hv Hn Hf R HC HU.
  set (p := vaddr / CITRA_PAGE_SIZE). set (off := vaddr mod CITRA_PAGE_SIZE).
  assert (Ev : vaddr = p * CITRA_PAGE_SIZE + off) by (unfold p, off, CITRA_PAGE_SIZE; Z.div_mod_to_equations; lia).
  destruct (ReadBlockImpl_spec false ms t vaddr (Z.of_nat n)) as (ms1 & E1 & S1 & B1);
    [lia|lia|unfold CITRA_PAGE_SIZE in *; Z.div_mod_to_equations; lia|done|].
  rewrite Nat2Z.id in E1. exists (vbytes ms t vaddr n), ms1.
  assert (Hp : 0 <= p < PAGE_TABLE_NUM_ENTRIES)
    by (unfold p, PAGE_TABLE_NUM_ENTRIES, CITRA_PAGE_BITS, CITRA_PAGE_SIZE; Z.div_mod_to_equations; lia).
  assert (Ho : 0 <= off < CITRA_PAGE_SIZE) by (apply Z.mod_pos_bound; done).
  assert (P : page_of vaddr = p) by (unfold page_of, CITRA_PAGE_BITS; by rewrite shiftr_div).
  assert (O : vaddr .& CITRA_PAGE_MASK = off) by (apply (land_mask vaddr 12); lia).
  assert (L : luma_target vaddr = Some LumaNone).
  { unfold luma_target, nz. by rewrite land_bit, (Z.div_small vaddr) by lia. }
  assert (Rp : page_ready ms (page_table ms t) p) by (apply R; unfold p; split; [lia|]; apply Z.div_le_mono; lia || done).
  assert (G : ∀ (ms0 : MemorySystem) b o, bytes ms0 = bytes ms -> page_host ms (page_table ms t) p = Some (b, o) -> in_block b o 4096 = true ->
    load (bytes ms0) (Some (b, o + off)) n = Some (vbytes ms t vaddr n)).
  { intros ms0 b o -> Hh B. apply in_block_spec in B. unfold load. cbn [mbind option_bind].
    rewrite (proj2 (in_block_spec _ _ _)) by (unfold CITRA_PAGE_SIZE in *; lia).
    by rewrite Ev, (vbytes_page ms t p off n b o) by (done || lia). }
  unfold Read, current_table. rewrite Ht. cbn [fmap option_fmap option_map mbind option_bind]. rewrite P, O.
  destruct (page_type (page_table ms t) p) eqn:Ty.
  - exists ms. rewrite (HU p Ty), L. cbn [mbind option_bind]. split; [exact E1|]. split; [|done].
    rewrite Ev, vbytes_unmapped by (done || lia). do 2 f_equal. clear. induction n as [|n IH]; [done|].
    cbn [replicate le_combine]. by rewrite <- IH.
  - destruct Rp as [U|(b & o & Hh & B)]; [congruence|]. exists ms. pose proof Hh as Hr. unfold page_host in Hr. rewrite Ty in Hr.
    rewrite Hr. cbn [ptr_add mbind option_bind]. rewrite (G ms b o) by done. done.
  - destruct Rp as [U|(b & o & Hh & B)]; [congruence|]. pose proof Hh as Hr. unfold page_host in Hr. rewrite Ty in Hr.
    destruct (GetPointerForRasterizerCache ms (p * CITRA_PAGE_SIZE)) as [r|] eqn:Er; [|done]. cbn [mbind option_bind] in Hr.
    destruct (cache_pointer_page ms p off r b o Er Hr B Ho Hp) as (r' & Er' & Hr'). rewrite <- Ev in Er'.
    destruct (flush_quiet ms vaddr (Z.of_nat n) Flush) as [F Fb]. exists (RasterizerFlushVirtualRegion ms vaddr (Z.of_nat n) Flush).
    rewrite (HC p Ty), L. cbn [mbind option_bind].
    assert (E2 : GetPointerForRasterizerCache (RasterizerFlushVirtualRegion ms vaddr (Z.of_nat n) Flush) vaddr = Some r')
      by (destruct F as (? & ? & ->); exact Er').
    rewrite E2. cbn [mbind option_bind]. rewrite Hr', (G _ b o) by done. split; [exact E1|].
    split; [done|]. split; [exact S1|]. split; [exact F|congruence].
Qed.
End blocks.
