(* ===== verification/MemoryExamples.v ===== *)
(** A small memory on which the theorems about blocks are applied: one address
    space with two pages, and one with a page that shows the same bytes. *)

From S2P Require Import Prelude Memory MemoryFacts.

(** A graphics unit that leaves the memory alone. *)
#[export] Instance quiet_gpu : GPU := {| gpu_bytes := fun _ m _ => m; gpu_reg := fun _ _ _ => 0 |}.

Definition heap_page : Z := 0x8000.
Definition demo_ref (o : Z) : MemoryRef := mk_MemoryRef (Some FCRAM) o.
Definition demo_table : PageTable :=
  set_page (set_page (mk_PageTable ∅ ∅) 0x8000 PageMemory (demo_ref 0)) 0x8001 PageMemory (demo_ref 0x1000).
Definition demo_memory : MemorySystem :=
  mk_MemorySystem ∅ [] {[0%nat := demo_table]} (Some 0%nat) [0%nat] ∅ true None.

#[export] Instance quiet_gpu_quiet : QuietGPU (gpu := quiet_gpu).
Proof. intros h m c. reflexivity. Qed.

(** Two address spaces: two pages of heap, and a linear heap whose first page the
    rasterizer has cached. *)
Definition linear_table : PageTable :=
  set_page (set_page (mk_PageTable ∅ ∅) 0x14005 RasterizerCachedMemory null_ref) 0x14006 PageMemory (demo_ref 0x6000).
Definition two_spaces : MemorySystem :=
  mk_MemorySystem (put_at ∅ FCRAM 0xffe [1; 2; 3; 4]) [] {[0%nat := demo_table; 1%nat := linear_table]}
    (Some 1%nat) [0%nat; 1%nat] ∅ true None.

(** Four bytes across the end of a page. *)
Lemma four x a : a <= x < a + 4 -> x = a ∨ x = a + 1 ∨ x = a + 2 ∨ x = a + 3.
Proof. lia. Qed.
Ltac each_of_four H := apply four in H as [->|[->|[->| ->]]].

Lemma heap_ready : ready two_spaces 0 0x8000ffe 4.
Proof.
  intros p Hp. assert (E : p = 0x8000 ∨ p = 0x8001) by (revert Hp; unfold CITRA_PAGE_SIZE; Z.div_mod_to_equations; lia).
  right. destruct E as [->| ->]; [exists FCRAM, 0|exists FCRAM, 0x1000]; split; vm_compute; reflexivity.
Qed.
Lemma linear_ready : ready two_spaces 1 0x14005ffe 4.
Proof.
  intros p Hp. assert (E : p = 0x14005 ∨ p = 0x14006) by (revert Hp; unfold CITRA_PAGE_SIZE; Z.div_mod_to_equations; lia).
  right. destruct E as [->| ->]; [exists FCRAM, 0x5000|exists FCRAM, 0x6000]; split; vm_compute; reflexivity.
Qed.

(** The four bytes lie one after the other. *)
Lemma heap_host x : 0x8000ffe <= x < 0x8000ffe + 4 -> host_at two_spaces 0 x = Some (FCRAM, x - 0x8000000).
Proof. intros H. each_of_four H; vm_compute; reflexivity. Qed.
Lemma linear_host x : 0x14005ffe <= x < 0x14005ffe + 4 -> host_at two_spaces 1 x = Some (FCRAM, x - 0x14000000).
Proof. intros H. each_of_four H; vm_compute; reflexivity. Qed.

Lemma linear_type p : page_type (page_table two_spaces 1) p =
  if decide (p = 0x14006) then PageMemory else if decide (p = 0x14005) then RasterizerCachedMemory else PageUnmapped.
Proof.
  change (page_table two_spaces 1) with linear_table. unfold linear_table. rewrite !page_type_set.
  by destruct (decide _); [|destruct (decide _); [|exact (lookup_total_empty p)]].
Qed.
Lemma linear_ref p : GetPtr (page_ref (page_table two_spaces 1) p) = if decide (p = 0x14006) then Some (FCRAM, 0x6000) else None.
Proof.
  change (page_table two_spaces 1) with linear_table. unfold linear_table. rewrite !page_ref_set.
  by destruct (decide _); [|destruct (decide _); [|exact (f_equal GetPtr (lookup_total_empty p))]].
Qed.

Lemma linear_own : own_bytes two_spaces 1 0x14005ffe (0x14005ffe + 4).
Proof.
  split; [intros x Hx; by rewrite linear_host|]. intros x y c Hx Hy. rewrite !linear_host by done. intros [= <-] [= E]. lia.
Qed.


Lemma WriteBlock_ReadBlock_witness : ∃ ms1 ms2, WriteBlock two_spaces 1 0x14005ffe (HostBuffer [9; 8; 7; 6]) 4 = Some ms1 ∧
  ReadBlock ms1 1 0x14005ffe 4 = Some (ms2, [9; 8; 7; 6]).
Proof. exact (WriteBlock_ReadBlock two_spaces 1 0x14005ffe [9; 8; 7; 6] ltac:(lia) ltac:(simpl; lia) linear_ready linear_own). Defined.

Lemma Read_is_ReadBlock_witness : ∃ bs ms1 ms2, ReadBlock two_spaces 1 0x14005ffe 2 = Some (ms1, bs) ∧
  Read two_spaces 2 0x14005ffe = Some (le_combine bs, ms2).
Proof.
  destruct (Read_is_ReadBlock two_spaces 1 2 0x14005ffe) as (bs & ms1 & ms2 & E1 & E2 & _);
    [reflexivity|lia|lia|by vm_compute| | | |].
  - intros p Hp. apply linear_ready. revert Hp. unfold CITRA_PAGE_SIZE. simpl. Z.div_mod_to_equations; lia.
  - intros p. rewrite linear_type, linear_ref. by destruct (decide _); [|destruct (decide _)].
  - intros p. rewrite linear_type, linear_ref. by destruct (decide _); [|destruct (decide _)].
  - by exists bs, ms1, ms2.
Defined.
