(* ===== verification/MemoryRegion.v ===== *)
(** The allocator of the memory regions, [MemoryRegionInfo] of [kernel/memory.h]
    and [kernel/memory.cpp], and the layout of the three regions.

    The set of free blocks is a [boost::icl::interval_set], an implementation of
    the class [IntervalSet]; its points are offsets from the start of FCRAM.  A
    failed assertion is [None]. *)

From S2P Require Import Prelude IntervalSet.

Section region.
Context {S : Type} `{IVS : IntervalSet S}.

(* src: kernel/memory.h | struct MemoryRegionInfo { *)
Record MemoryRegionInfo := mk_MemoryRegionInfo {
  base : Z;
  size : Z;
  used : Z;
  free_blocks : S;
  is_locked : bool
}.
Implicit Types r : MemoryRegionInfo.

(* src: kernel/memory.cpp | void MemoryRegionInfo::Reset(u32 base, u32 size) { *)
Definition Reset r (base_ size_ : Z) : option MemoryRegionInfo :=
  if is_locked r then None
  else Some (r<|base := base_|><|size := size_|><|used := 0|>
              <|free_blocks := iv_add base_ (u32 (base_ + size_)) iv_empty|>).

(** The blocks from the highest on, until [rest] bytes have been taken. *)
(* src: kernel/memory.cpp | for (auto iter = free_blocks.rbegin(); iter != free_blocks.rend(); ++iter) { #1 | MemoryRegionInfo::HeapAllocate *)
Fixpoint heap_take (descending : list Block) (rest : Z) (result : S) : S * Z :=
  match descending with
  | [] => (result, rest)
  | b :: descending =>
      if rest <=? u32 (b.2 - b.1) then (iv_add (u32 (b.2 - rest)) b.2 result, 0)
      else heap_take descending (u32 (rest - u32 (b.2 - b.1))) (iv_add b.1 b.2 result)
  end.
(* src: kernel/memory.cpp | MemoryRegionInfo::IntervalSet MemoryRegionInfo::HeapAllocate(u32 size) { *)
Definition HeapAllocate r (size : Z) : option (S * MemoryRegionInfo) :=
  if is_locked r then None
  else
    let '(result, rest) := heap_take (rev (iv_blocks (free_blocks r))) size iv_empty in
    if negb (rest =? 0) then Some (iv_empty, r)
    else Some (result, r<|free_blocks := iv_diff (free_blocks r) result|><|used := u32 (used r + size)|>).

(* src: kernel/memory.cpp | bool MemoryRegionInfo::LinearAllocate(u32 offset, u32 size) { *)
Definition LinearAllocateAt r (offset size : Z) : option (bool * MemoryRegionInfo) :=
  if is_locked r then None
  else
    let upper := u32 (offset + size) in
    if negb (iv_contains (free_blocks r) offset upper) then Some (false, r)
    else Some (true, r<|free_blocks := iv_sub offset upper (free_blocks r)|><|used := u32 (used r + size)|>).

Definition fits (size : Z) (b : Block) : bool := size <=? u32 (b.2 - b.1).
(* src: kernel/memory.cpp | std::optional<u32> MemoryRegionInfo::LinearAllocate(u32 size) { *)
Definition LinearAllocate r (size : Z) : option (option Z * MemoryRegionInfo) :=
  if is_locked r then None
  else match list_find (fits size) (iv_blocks (free_blocks r)) with
  | Some (_, b) =>
      Some (Some b.1, r<|free_blocks := iv_sub b.1 (u32 (b.1 + size)) (free_blocks r)|>
                       <|used := u32 (used r + size)|>)
  | None => Some (None, r)
  end.
(* src: kernel/memory.cpp | std::optional<u32> MemoryRegionInfo::RLinearAllocate(u32 size) { *)
Definition RLinearAllocate r (size : Z) : option (option Z * MemoryRegionInfo) :=
  if is_locked r then None
  else match list_find (fits size) (rev (iv_blocks (free_blocks r))) with
  | Some (_, b) =>
      let lower := u32 (b.2 - size) in
      Some (Some lower, r<|free_blocks := iv_sub lower b.2 (free_blocks r)|>
                         <|used := u32 (used r + size)|>)
  | None => Some (None, r)
  end.

(* src: kernel/memory.cpp | void MemoryRegionInfo::Free(u32 offset, u32 size) { *)
Definition Free r (offset size : Z) : option MemoryRegionInfo :=
  if is_locked r then Some r
  else
    let upper := u32 (offset + size) in
    if iv_intersects (free_blocks r) offset upper then None
    else Some (r<|free_blocks := iv_add offset upper (free_blocks r)|><|used := u32 (used r - size)|>).

(* src: kernel/memory.cpp | void MemoryRegionInfo::Unlock() { *)
Definition Unlock r : MemoryRegionInfo := r<|is_locked := false|>.

(** Freeing the intervals a process or a block of shared memory holds. *)
(* src: kernel/shared_memory.cpp | for (const auto& interval : holding_memory) { *)
Fixpoint free_intervals r (bl : list Block) : option MemoryRegionInfo :=
  match bl with
  | [] => Some r
  | b :: bl => r ← Free r b.1 (u32 (b.2 - b.1)); free_intervals r bl
  end.

(** A region of the kernel before [MemoryInit]. *)
Definition new_region : MemoryRegionInfo := mk_MemoryRegionInfo 0 0 0 iv_empty false.
End region.
Arguments MemoryRegionInfo S : clear implicits.

(** * The layout of the regions *)

(* src: kernel/memory.cpp | static const u32 memory_region_sizes[8][3] = { *)
Definition memory_region_sizes : list (list Z) := [
  [0x04000000; 0x02C00000; 0x01400000];
  [0; 0; 0];
  [0x06000000; 0x00C00000; 0x01400000];
  [0x05000000; 0x01C00000; 0x01400000];
  [0x04800000; 0x02400000; 0x01400000];
  [0x02000000; 0x04C00000; 0x01400000];
  [0x07C00000; 0x06400000; 0x02000000];
  [0x0B200000; 0x02E00000; 0x02000000]].
Definition region_size (row : Z) (i : nat) : Z := (memory_region_sizes !!! Z.to_nat row) !!! i.

(* src: kernel/kernel.h | enum class MemoryMode : u8 { *)
Inductive MemoryMode := MemProd | MemDev1 | MemDev2 | MemDev3 | MemDev4.
(* src: kernel/kernel.h | enum class New3dsMemoryMode : u8 { *)
Inductive New3dsMemoryMode := NewLegacy | NewProd | NewDev1 | NewDev2.
(* src: kernel/kernel.h | enum class MemoryMode : u8 { *)
Definition mode_value (m : MemoryMode) : Z :=
  match m with MemProd => 0 | MemDev1 => 2 | MemDev2 => 3 | MemDev3 => 4 | MemDev4 => 5 end.
(* src: kernel/kernel.h | enum class MemoryRegion : u16 { *)
Inductive MemoryRegion := APPLICATION | SYSTEM | BASE.
(* src: kernel/memory.cpp | std::shared_ptr<MemoryRegionInfo> KernelSystem::GetMemoryRegion(MemoryRegion region) { *)
Definition region_index (region : MemoryRegion) : nat := match region with APPLICATION => 0 | SYSTEM => 1 | BASE => 2 end.

(** The rows of the table that are used and reported. *)
(* src: kernel/memory.cpp | u32 mem_type_index = static_cast<u32>(memory_mode); | KernelSystem::MemoryInit | +14 *)
Definition memory_types (is_new_3ds : bool) (memory_mode : MemoryMode) (n3ds_mode : New3dsMemoryMode) : Z * Z :=
  if is_new_3ds then
    match n3ds_mode with
    | NewProd | NewDev2 => (6, 6)
    | NewDev1 => (7, 7)
    | NewLegacy => (6, mode_value memory_mode)
    end
  else (mode_value memory_mode, mode_value memory_mode).

(** What the configuration memory says of the layout. *)
(* src: kernel/config_mem.h | u32_le app_mem_type; | ConfigMemDef | ..u32_le base_mem_alloc; *)
Record ConfigMem := mk_ConfigMem { app_mem_type : Z; app_mem_alloc : Z; sys_mem_alloc : Z; base_mem_alloc : Z }.

Section init.
Context {S : Type} `{IVS : IntervalSet S}.

(** The regions one after the other. *)
(* src: kernel/memory.cpp | for (int i = 0; i < 3; ++i) { | KernelSystem::MemoryInit *)
Fixpoint reset_regions (regions : list (MemoryRegionInfo S)) (row : Z) (i : nat) (b : Z)
    : option (list (MemoryRegionInfo S) * Z) :=
  match regions with
  | [] => Some ([], b)
  | r :: regions =>
      r ← Reset r b (region_size row i);
      '(rest, b) ← reset_regions regions row (Datatypes.S i) (u32 (b + size r)); Some (r :: rest, b)
  end.
(** [fcram_n3ds], [fcram]: the sizes of the memory. *)
(* src: kernel/memory.cpp | void KernelSystem::MemoryInit(MemoryMode memory_mode, New3dsMemoryMode n3ds_mode, *)
Definition MemoryInit (fcram_n3ds fcram : Z) (is_new_3ds : bool) (memory_mode : MemoryMode)
    (n3ds_mode : New3dsMemoryMode) (regions : list (MemoryRegionInfo S))
    : option (list (MemoryRegionInfo S) * ConfigMem) :=
  let '(mem_type_index, reported_mem_type) := memory_types is_new_3ds memory_mode n3ds_mode in
  '(regions, b) ← reset_regions (take 3 regions) mem_type_index 0 0;
  if b =? (if is_new_3ds then fcram_n3ds else fcram) then
    match regions with
    | [_; sys; bse] =>
        Some (regions, mk_ConfigMem reported_mem_type (region_size reported_mem_type 0) (size sys) (size bse))
    | _ => None
    end
  else None.
End init.

(** * What the allocator promises *)

Section facts.
Context {S : Type} `{IVS : IntervalSet S} `{IVL : !IntervalSetLaws S}.
Implicit Types (r : MemoryRegionInfo S) (x : Z).

Definition is_free r x : Prop := covered (free_blocks r) x.
Definition space_left r : Z := measure (free_blocks r).

(** The free bytes lie in the region, and what is not free is in use. *)
Record region_ok r : Prop := {
  region_unlocked : is_locked r = false;
  region_bounds : 0 <= base r ∧ 0 <= size r ∧ base r + size r < 2 ^ 32;
  region_free : ∀ x, is_free r x -> base r <= x < base r + size r;
  region_used : used r = size r - space_left r
}.

Lemma block_in_region r b : region_ok r -> b ∈ iv_blocks (free_blocks r) -> base r <= b.1 ∧ b.1 < b.2 ∧ b.2 <= base r + size r.
Proof.
  intros O Hb. pose proof (separated_block _ _ (blocks_separated _) Hb) as L.
  pose proof (region_free r O b.1 ltac:(exists b; split; [done|unfold in_block_of; lia])).
  pose proof (region_free r O (b.2 - 1) ltac:(exists b; split; [done|unfold in_block_of; lia])). lia.
Qed.

Lemma space_left_bounds r : region_ok r -> 0 <= space_left r <= size r.
Proof.
  intros O. split; [apply measure_nonneg|]. unfold space_left, measure. rewrite <- length_enumerate by apply blocks_separated.
  pose proof (region_bounds r O) as B. replace (size r) with (Z.of_nat (length (seqZ (base r) (size r)))) by (rewrite length_seqZ; lia).
  apply Nat2Z.inj_le, submseteq_length, NoDup_submseteq; [apply NoDup_enumerate, blocks_separated|].
  intros x Hx. apply elem_of_enumerate in Hx. apply elem_of_seqZ. by apply (region_free r O).
Qed.

(** An interval of free bytes lies in one block. *)
Lemma points_in_block (bl : list Block) l n : separated bl -> 0 < n -> (∀ x, l <= x < l + n -> points bl x) ->
  ∃ b, b ∈ bl ∧ b.1 <= l ∧ l + n <= b.2.
Proof.
  intros Sp Hn H.
  pose proof (proj2 (list_contains_spec bl l (l + n) Sp) H) as C. unfold list_contains in C.
  rewrite orb_true_iff, existsb_exists in C. destruct C as [C|(b & Hb%list_elem_of_In & C)]; [lia|]. exists b. split; [done|lia].
Qed.

(** ** Allocation from the top *)

(** What has been taken: the highest bytes of the blocks. *)
Definition taken_from (bl taken : list Block) (rest : Z) : Prop :=
  separated taken ∧ total taken = Z.min rest (total bl) ∧ (∀ x, points taken x -> points bl x) ∧
  ∀ x y, points taken x -> points bl y -> ¬ points taken y -> y < x.

Lemma taken_snoc pre b t n : separated (pre ++ [b]) -> taken_from pre t n -> 0 <= n ->
  taken_from (pre ++ [b]) (t ++ [b]) (n + width b).
Proof.
  intros Sp (T1 & T2 & T3 & T4) Hn. destruct (separated_app _ _ Sp) as (S1 & S2 & S3). destruct S2 as (Sb & _).
  assert (A : ∀ x, points pre x -> x + 1 < b.1).
  { intros x (c & Hc & Hx). specialize (S3 c b Hc ltac:(set_solver +)). unfold in_block_of in Hx. lia. }
  unfold taken_from. rewrite !total_app, T2. change (total [b]) with (width b + 0). split_and!.
  - clear T2 T4. assert (U : ∀ c, c ∈ t -> c.2 < b.1).
    { intros c Hc. pose proof (separated_block _ _ T1 Hc). pose proof (A (c.2 - 1) (T3 (c.2 - 1) ltac:(exists c; split; [done|unfold in_block_of; lia]))). lia. }
    clear T3 A. induction t as [|c t IH]; cbn [app]; [by split|]. apply separated_cons.
    + by apply (separated_block _ c T1); set_solver +.
    + apply IH; [by eapply separated_tail|]. intros d Hd. apply U. set_solver.
    + intros d [Hd| ->%list_elem_of_singleton]%elem_of_app; [by apply (separated_above _ _ _ T1)|apply U; set_solver +].
  - lia.
  - intros x. rewrite !points_app. intros [?|?]; [left; auto|by right].
  - intros x y. rewrite !points_app. intros Hx [Hy|Hy] N; [|tauto]. destruct Hx as [Hx|Hx].
    + apply T4; [done|done|tauto].
    + specialize (A y Hy). rewrite points_cons, points_nil in Hx. unfold in_block_of in Hx. lia.
Qed.

(** Blocks of whole pages. *)
Definition paged (bl : list Block) : Prop := ∀ b, b ∈ bl -> (4096 | b.1) ∧ (4096 | b.2).

Lemma heap_take_spec (bl : list Block) : separated bl -> (∀ b, b ∈ bl -> 0 <= b.1 ∧ b.2 < 2 ^ 32) -> ∀ rest (res : S),
  0 <= rest < 2 ^ 32 -> ∃ taken, taken_from bl taken rest ∧
    (∀ x, covered (heap_take (rev bl) rest res).1 x <-> covered res x ∨ points taken x) ∧
    (heap_take (rev bl) rest res).2 = rest - total taken ∧ (paged bl -> (4096 | rest) -> paged taken).
Proof.
  induction bl as [|b bl IH] using rev_ind; intros Sp B rest res Hr.
  - exists []. cbn. split; [|split; [intros x; rewrite points_nil; tauto|change (total []) with 0; split; [lia|done]]].
    split; [done|]. split; [change (total []) with 0; lia|]. split; [done|]. intros x y H. by apply points_nil in H.
  - rewrite rev_app_distr. cbn [rev app heap_take]. destruct (separated_app _ _ Sp) as (S1 & S2 & S3). destruct S2 as (Sb & _).
    pose proof (B b ltac:(set_solver +)) as Bb. pose proof (total_nonneg _ S1) as P.
    rewrite (uwrap_id 32 (b.2 - b.1)) by (unfold in_range; lia).
    destruct (Z.leb_spec rest (b.2 - b.1)) as [L|L].
    + rewrite uwrap_id by (unfold in_range; lia). cbn [fst snd]. set (l := b.2 - rest).
      assert (W : total (bl ++ [b]) = total bl + (b.2 - b.1)) by (rewrite total_app; change (total [b]) with (width b + 0); unfold width; lia).
      exists (piece l b.2). assert (Pp : ∀ x, points (piece l b.2) x <-> l <= x < b.2).
      { intros x. unfold piece. destruct (Z.ltb_spec l b.2); [apply points_one|]. rewrite points_nil. lia. }
      assert (Tp : total (piece l b.2) = rest).
      { unfold piece. destruct (Z.ltb_spec l b.2); [rewrite total_cons; unfold width; cbn; unfold l; lia|]. change (total []) with 0. unfold l in *; lia. }
      split; [|split; [intros x; rewrite covered_add, Pp; done|split; [lia|]]]; cycle 1.
      { intros Pg D c. unfold piece. destruct (Z.ltb_spec l b.2); [|set_solver]. intros ->%list_elem_of_singleton. cbn.
        destruct (Pg b ltac:(set_solver +)). split; [by apply Z.divide_sub_r|done]. }
      split.
      { unfold piece. destruct (Z.ltb_spec l b.2); done. }
      split; [lia|]. split.
      * intros x Hx%Pp. apply points_app. right. apply points_cons. left. unfold in_block_of, l in *. lia.
      * intros x y Hx%Pp Hy N. rewrite Pp in N. apply points_app in Hy as [(c & Hc & Hy)|Hy].
        -- specialize (S3 c b Hc ltac:(set_solver +)). unfold in_block_of, l in *. lia.
        -- rewrite points_cons, points_nil in Hy. unfold in_block_of, l in *. lia.
    + rewrite uwrap_id by (unfold in_range; lia).
      destruct (IH S1 ltac:(intros c Hc; apply B; set_solver) (rest - (b.2 - b.1)) (iv_add b.1 b.2 res) ltac:(lia)) as (t & T & C & E & Pt).
      exists (t ++ [b]). split; [|split; [|split]].
      * replace rest with (rest - (b.2 - b.1) + width b) by (unfold width; lia). apply taken_snoc; [done|done|lia].
      * intros x. rewrite C, covered_add, points_app, points_cons, points_nil. unfold in_block_of. tauto.
      * rewrite E, total_app. change (total [b]) with (width b + 0). unfold width. lia.
      * intros Pg D c [Hc| ->%list_elem_of_singleton]%elem_of_app; [|apply Pg; set_solver +].
        destruct (Pg b ltac:(set_solver +)). apply Pt; [intros d Hd; apply Pg; set_solver|by apply Z.divide_sub_r, Z.divide_sub_r|done].
Qed.

Lemma whole_pages_points (t : S) (bl : list Block) : (∀ x, covered t x <-> points bl x) -> paged bl -> whole_pages t.
Proof.
  intros C Pg x y E Hx. apply C in Hx as (b & Hb & Hx). apply C. exists b. split; [done|]. destruct (Pg b Hb) as [A1 A2].
  by apply (pages_interval b.1 b.2 x y).
Qed.

(** Taking the set [t] out of the free bytes. *)
Definition takes r r' (t : S) : Prop :=
  region_ok r' ∧ base r' = base r ∧ size r' = size r ∧
  (∀ x, covered t x -> is_free r x) ∧ (∀ x, is_free r' x <-> is_free r x ∧ ¬ covered t x) ∧
  space_left r' = space_left r - measure t.

Lemma takes_set r t : region_ok r -> (∀ x, covered t x -> is_free r x) ->
  takes r (r<|free_blocks := iv_diff (free_blocks r) t|><|used := u32 (used r + measure t)|>) t.
Proof.
  intros O H. match goal with |- takes _ ?x _ => set (r' := x) end.
  assert (F : ∀ x, is_free r' x <-> is_free r x ∧ ¬ covered t x) by (intros x; apply covered_diff).
  assert (M : space_left r' = space_left r - measure t) by (by apply measure_diff).
  pose proof O as [U B Fr Us]. pose proof (space_left_bounds r O). pose proof (measure_nonneg (free_blocks r')) as N.
  split_and!; try done. split; [done|done| |].
  - intros x Hx. apply Fr. by apply F in Hx as [? _].
  - change (used r') with (u32 (used r + measure t)). change (size r') with (size r). change (measure (free_blocks r')) with (space_left r') in N.
    pose proof (measure_nonneg t). rewrite uwrap_id by (unfold in_range; lia). lia.
Qed.

(** The heap takes the highest free bytes, or nothing when there are too few. *)
Lemma region_HeapAllocate_spec r n : region_ok r -> 0 <= n < 2 ^ 32 ->
  ∃ t r', HeapAllocate r n = Some (t, r') ∧
    (n <= space_left r -> measure t = n ∧ takes r r' t ∧ (∀ x y, covered t x -> is_free r' y -> y < x) ∧
       (whole_pages (free_blocks r) -> (4096 | n) -> whole_pages t)) ∧
    (space_left r < n -> t = iv_empty ∧ r' = r).
Proof.
  intros O Hn. unfold HeapAllocate. rewrite (region_unlocked r O).
  destruct (heap_take_spec (iv_blocks (free_blocks r)) (blocks_separated _)) with (rest := n) (res := iv_empty : S)
    as (taken & (T1 & T2 & T3 & T4) & C & E & Pg); [|done|].
  { intros b Hb. pose proof (block_in_region r b O Hb). pose proof (region_bounds r O). lia. }
  destruct (heap_take _ n iv_empty) as [t rest]. cbn [fst snd] in C, E. change (total (iv_blocks (free_blocks r))) with (space_left r) in T2.
  assert (C' : ∀ x, covered t x <-> points taken x) by (intros x; rewrite C; pose proof (covered_empty (S := S) x); tauto).
  assert (M : measure t = total taken) by (by apply measure_blocks).
  destruct (Z.eqb_spec rest 0) as [Z|Z]; cbn [negb].
  - exists t. eexists. split; [done|]. split; [|lia]. intros L. assert (Mn : measure t = n) by lia. split; [done|].
    pose proof (takes_set r t O) as K. rewrite Mn in K. specialize (K ltac:(intros x Hx; apply T3, C', Hx)). split; [exact K|].
    split; [|intros W D; apply (whole_pages_points t taken C'), Pg; [intros b Hb; by apply (blocks_aligned (free_blocks r))|done]].
    intros x y Hx Hy. destruct K as (_ & _ & _ & _ & K & _). apply K in Hy as [Hy N]. apply T4; [by apply C'|exact Hy|by rewrite <- C'].
  - exists iv_empty, r. split; [done|]. split; [lia|done].
Qed.

Lemma upper_id r l n : region_ok r -> 0 <= l -> 0 < n -> (∀ x, l <= x < l + n -> is_free r x) -> u32 (l + n) = l + n.
Proof.
  intros O Hl Hn H. apply uwrap_id. pose proof (region_free r O (l + n - 1) (H (l + n - 1) ltac:(lia))).
  pose proof (region_bounds r O). unfold in_range. lia.
Qed.

(** Taking an interval. *)
Definition takes_interval r r' (l n : Z) : Prop :=
  region_ok r' ∧ base r' = base r ∧ size r' = size r ∧ (∀ x, l <= x < l + n -> is_free r x) ∧
  (∀ x, is_free r' x <-> is_free r x ∧ ¬ (l <= x < l + n)) ∧ space_left r' = space_left r - n.
Lemma takes_interval_set r l n : region_ok r -> 0 <= l -> 0 < n -> (∀ x, l <= x < l + n -> is_free r x) ->
  takes_interval r (r<|free_blocks := iv_sub l (u32 (l + n)) (free_blocks r)|><|used := u32 (used r + n)|>) l n.
Proof.
  intros O Hl Hn H. rewrite (upper_id r l n) by done. match goal with |- takes_interval _ ?x _ _ => set (r' := x) end.
  assert (F : ∀ x, is_free r' x <-> is_free r x ∧ ¬ (l <= x < l + n)) by (intros x; apply covered_sub).
  assert (M : space_left r' = space_left r - n).
  { unfold space_left. change (free_blocks r') with (iv_sub l (l + n) (free_blocks r)). rewrite measure_sub by (done || lia). lia. }
  pose proof O as [U B Fr Us]. pose proof (space_left_bounds r O). pose proof (measure_nonneg (free_blocks r')) as N.
  split_and!; try done. split; [done|done| |].
  - intros x Hx. apply Fr. by apply F in Hx as [? _].
  - change (used r') with (u32 (used r + n)). change (size r') with (size r). change (measure (free_blocks r')) with (space_left r') in N.
    rewrite uwrap_id by (unfold in_range; lia). lia.
Qed.

(** The linear heap takes the lowest place that is long enough. *)
Lemma LinearAllocate_spec r n : region_ok r -> 0 < n < 2 ^ 32 ->
  ∃ res r', LinearAllocate r n = Some (res, r') ∧
    match res with
    | Some l => takes_interval r r' l n ∧ ∀ l', (∀ x, l' <= x < l' + n -> is_free r x) -> l <= l'
    | None => r' = r ∧ ∀ l', ¬ ∀ x, l' <= x < l' + n -> is_free r x
    end.
Proof.
  intros O Hn. unfold LinearAllocate. rewrite (region_unlocked r O). pose proof (region_bounds r O) as B.
  pose proof (blocks_separated (free_blocks r)) as Sp.
  assert (F : ∀ b, b ∈ iv_blocks (free_blocks r) -> fits n b = (n <=? b.2 - b.1)).
  { intros b Hb. pose proof (block_in_region r b O Hb). unfold fits. rewrite uwrap_id; [done|]. unfold in_range. lia. }
  destruct (list_find (fits n) _) as [[i b]|] eqn:L.
  - apply list_find_Some in L as (Hi & Fb & Hmin). pose proof (list_elem_of_lookup_2 _ _ _ Hi) as Hb.
    apply Is_true_true in Fb. rewrite F in Fb by done. pose proof (block_in_region r b O Hb) as Bb. eexists _, _. split; [done|].
    assert (Hf : ∀ x, b.1 <= x < b.1 + n -> is_free r x) by (intros x Hx; exists b; split; [done|unfold in_block_of; lia]).
    split; [apply takes_interval_set; done || lia|]. intros l' Hl'.
    destruct (points_in_block _ l' n Sp ltac:(lia) Hl') as (c & Hc & H1 & H2). apply list_elem_of_lookup in Hc as (j & Hj).
    destruct (decide (j < i)%nat) as [J|J].
    + exfalso. apply (Hmin j c Hj J). apply Is_true_true. rewrite F by (by eapply list_elem_of_lookup_2). lia.
    + destruct (decide (j = i)) as [->|J']; [rewrite Hi in Hj; injection Hj as <-; lia|].
      rewrite <- (take_drop_middle _ _ _ Hi) in Sp, Hj. apply separated_app in Sp as (_ & Sp & _).
      assert (Hc : c ∈ drop (Datatypes.S i) (iv_blocks (free_blocks r))).
      { pose proof (lookup_lt_Some _ _ _ Hi). rewrite lookup_app_r in Hj by (rewrite length_take; lia).
        rewrite length_take, Nat.min_l in Hj by lia. destruct (j - i)%nat eqn:K; [lia|]. by eapply list_elem_of_lookup_2. }
      pose proof (separated_above _ _ _ Sp Hc). lia.
  - apply list_find_None in L. eexists _, _. split; [done|]. split; [done|]. intros l' Hl'.
    destruct (points_in_block _ l' n Sp ltac:(lia) Hl') as (c & Hc & H1 & H2).
    rewrite Forall_forall in L. apply (L c Hc), Is_true_true. rewrite F by done. lia.
Qed.

(** Taking an interval that is asked for. *)
Lemma LinearAllocateAt_spec r l n : region_ok r -> 0 <= l -> 0 < n -> l + n < 2 ^ 32 ->
  ∃ b r', LinearAllocateAt r l n = Some (b, r') ∧
    if b : bool then takes_interval r r' l n else r' = r ∧ ¬ ∀ x, l <= x < l + n -> is_free r x.
Proof.
  intros O Hl Hn He. unfold LinearAllocateAt. rewrite (region_unlocked r O).
  pose proof (contains_spec (free_blocks r) l (l + n)) as C. assert (E : u32 (l + n) = l + n) by (apply uwrap_id; unfold in_range; lia).
  rewrite E.
  destruct (iv_contains _ _ _); cbn [negb].
  - exists true. eexists. split; [done|]. pose proof (takes_interval_set r l n O Hl Hn (proj1 C eq_refl)) as K.
    by rewrite E in K.
  - exists false, r. split; [done|]. split; [done|]. intros H. by apply C in H.
Qed.

(** Giving an interval back. *)
Lemma Free_spec r l n : region_ok r -> 0 < n -> base r <= l -> l + n <= base r + size r ->
  (∀ x, l <= x < l + n -> ¬ is_free r x) ->
  ∃ r', Free r l n = Some r' ∧ region_ok r' ∧ base r' = base r ∧ size r' = size r ∧
    (∀ x, is_free r' x <-> is_free r x ∨ l <= x < l + n) ∧ space_left r' = space_left r + n.
Proof.
  intros O Hn H1 H2 N. pose proof O as [U B Fr Us]. unfold Free. rewrite U, (uwrap_id 32 (l + n)) by (unfold in_range; lia).
  destruct (iv_intersects _ _ _) eqn:I.
  { apply intersects_spec in I as (x & Hx & C). by destruct (N x Hx). }
  eexists. split; [done|]. match goal with |- region_ok ?x ∧ _ => set (r' := x) end.
  assert (F : ∀ x, is_free r' x <-> is_free r x ∨ l <= x < l + n) by (intros x; apply covered_add).
  assert (M : space_left r' = space_left r + n).
  { unfold space_left. change (free_blocks r') with (iv_add l (l + n) (free_blocks r)). rewrite measure_add by (done || lia). lia. }
  assert (Ok : ∀ x, is_free r' x -> base r <= x < base r + size r) by (intros x [Hx|Hx]%F; [by apply Fr|lia]).
  assert (Lb : space_left r' <= size r).
  { unfold space_left, measure. rewrite <- length_enumerate by apply blocks_separated.
    replace (size r) with (Z.of_nat (length (seqZ (base r) (size r)))) by (rewrite length_seqZ; lia).
    apply Nat2Z.inj_le, submseteq_length, NoDup_submseteq; [apply NoDup_enumerate, blocks_separated|].
    intros x Hx. apply elem_of_enumerate in Hx. apply elem_of_seqZ. by apply Ok. }
  pose proof (measure_nonneg (free_blocks r)). split_and!; try done. split; [done|done|exact Ok|].
  change (used r') with (u32 (used r - n)). change (size r') with (size r). unfold space_left in *.
  rewrite uwrap_id by (unfold in_range; lia). lia.
Qed.

(** Giving a set of intervals back. *)
Definition gives_back r r' (bl : list Block) : Prop :=
  region_ok r' ∧ base r' = base r ∧ size r' = size r ∧ (∀ x, is_free r' x <-> is_free r x ∨ points bl x) ∧
  space_left r' = space_left r + total bl.
Lemma free_intervals_spec (bl : list Block) : separated bl -> ∀ r, region_ok r ->
  (∀ x, points bl x -> base r <= x < base r + size r ∧ ¬ is_free r x) ->
  ∃ r', free_intervals r bl = Some r' ∧ gives_back r r' bl.
Proof.
  induction bl as [|b bl IH]; intros Sp r O H; cbn [free_intervals].
  { exists r. split; [done|]. split_and!; try done; [|change (total []) with 0; lia]. intros x. rewrite points_nil. tauto. }
  assert (Pb : ∀ x, b.1 <= x < b.2 -> points (b :: bl) x) by (intros x Hx; apply points_cons; by left).
  pose proof (separated_block _ b Sp ltac:(set_solver +)) as L. pose proof (region_bounds r O) as B.
  destruct (H b.1 (Pb b.1 ltac:(lia))) as [B1 _]. destruct (H (b.2 - 1) (Pb (b.2 - 1) ltac:(lia))) as [B2 _].
  rewrite (uwrap_id 32 (b.2 - b.1)) by (unfold in_range; lia).
  destruct (Free_spec r b.1 (b.2 - b.1) O) as (r1 & -> & O1 & E1 & E2 & F1 & M1); [lia|lia|lia| |].
  { intros x Hx. apply H, Pb. lia. }
  cbn [mbind option_bind]. destruct (IH (separated_tail _ _ Sp) r1 O1) as (r' & -> & O' & E1' & E2' & F' & M').
  { intros x Hx. rewrite E1, E2. destruct (H x ltac:(apply points_cons; by right)) as [Hr N]. split; [done|].
    intros [C|C]%F1; [done|]. destruct Hx as (c & Hc & Hx). pose proof (separated_above _ _ _ Sp Hc).
    unfold in_block_of in Hx. lia. }
  exists r'. split; [done|]. split_and!; [done|congruence|congruence| |].
  - intros x. rewrite F', F1, points_cons. unfold in_block_of. replace (b.1 + (b.2 - b.1)) with b.2 by lia. tauto.
  - rewrite total_cons. unfold width. lia.
Qed.

(** The heap gets exactly the bytes it asks for, the highest free ones, or
    nothing when there are too few; the region stays consistent, and freeing the
    blocks again restores it. *)
Theorem region_HeapAllocate_correct r n : region_ok r -> 0 <= n < 2 ^ 32 ->
  ∃ t r1, HeapAllocate r n = Some (t, r1) ∧ region_ok r1 ∧
    if n <=? space_left r then
      measure t = n ∧ used r1 = used r + n ∧ (∀ x, is_free r1 x <-> is_free r x ∧ ¬ covered t x) ∧
      (∀ x y, covered t x -> is_free r1 y -> y < x) ∧
      ∃ r2, free_intervals r1 (iv_blocks t) = Some r2 ∧ region_ok r2 ∧ used r2 = used r ∧ ∀ x, is_free r2 x <-> is_free r x
    else t = iv_empty ∧ r1 = r.
Proof.
  intros O Hn. destruct (region_HeapAllocate_spec r n O Hn) as (t & r1 & E & H1 & H2). exists t, r1. split; [done|].
  destruct (Z.leb_spec n (space_left r)) as [L|L]; [|destruct (H2 L) as [-> ->]; done].
  destruct (H1 L) as (M & (O1 & E1 & E2 & Sub & F1 & M1) & Top & _). pose proof (region_used r O). pose proof (region_used r1 O1).
  split; [done|]. split; [done|]. split; [lia|]. split; [done|]. split; [done|].
  destruct (free_intervals_spec (iv_blocks t) (blocks_separated t) r1 O1) as (r2 & -> & O2 & E3 & E4 & F2 & M2).
  { intros x Hx. rewrite E1, E2. split; [by apply (region_free r O), Sub|]. intros [_ N]%F1. by apply N. }
  exists r2. pose proof (region_used r2 O2). change (total (iv_blocks t)) with (measure t) in M2.
  split; [done|]. split; [done|]. split; [lia|]. intros x. rewrite F2, F1. specialize (Sub x).
  change (points (iv_blocks t) x) with (covered t x). split; [tauto|]. intros Hx.
  destruct (iv_contains t x (x + 1)) eqn:C.
  - right. apply (proj1 (contains_spec _ _ _) C). lia.
  - left. split; [done|]. intros Ct. assert (iv_contains t x (x + 1) = true) as K; [|congruence].
    apply contains_spec. intros y Hy. by replace y with x by lia.
Qed.

(** The linear heap gets the lowest run of free bytes that is long enough, or
    nothing when there is no run; freeing it again restores the region. *)
Theorem LinearAllocate_correct r n : region_ok r -> 0 < n < 2 ^ 32 ->
  ∃ res r1, LinearAllocate r n = Some (res, r1) ∧ region_ok r1 ∧
    match res with
    | Some l =>
        (∀ x, is_free r1 x <-> is_free r x ∧ ¬ (l <= x < l + n)) ∧ used r1 = used r + n ∧
        (∀ l', (∀ x, l' <= x < l' + n -> is_free r x) -> l <= l') ∧
        (∀ x, l <= x < l + n -> is_free r x) ∧
        ∃ r2, Free r1 l n = Some r2 ∧ region_ok r2 ∧ used r2 = used r ∧ ∀ x, is_free r2 x <-> is_free r x
    | None => r1 = r ∧ ∀ l, ¬ ∀ x, l <= x < l + n -> is_free r x
    end.
Proof.
  intros O Hn. destruct (LinearAllocate_spec r n O Hn) as (res & r1 & E & H). exists res, r1. split; [done|].
  destruct res as [l|]; [|by destruct H as [-> H]]. destruct H as ((O1 & E1 & E2 & Sub & F1 & M1) & Min).
  pose proof (region_used r O). pose proof (region_used r1 O1). split; [done|]. split; [done|]. split; [lia|].
  split; [exact Min|]. split; [done|].
  pose proof (region_free r O l (Sub l ltac:(lia))). pose proof (region_free r O (l + n - 1) (Sub (l + n - 1) ltac:(lia))).
  destruct (Free_spec r1 l n O1) as (r2 & -> & O2 & E3 & E4 & F2 & M2); [lia|lia|lia| |].
  { intros x Hx [_ N]%F1. by apply N. }
  exists r2. pose proof (region_used r2 O2). split; [done|]. split; [done|]. split; [lia|].
  intros x. rewrite F2, F1. specialize (Sub x). destruct (decide (l <= x < l + n)); tauto.
Qed.
End facts.

(** * The regions after initialisation *)

(** Regions one after the other from an offset, all of them free. *)
Fixpoint laid_out {S} `{IntervalSet S} (b : Z) (regions : list (MemoryRegionInfo S)) (e : Z) : Prop :=
  match regions with
  | [] => b = e
  | r :: regions => region_ok r ∧ base r = b ∧ used r = 0 ∧ laid_out (b + size r) regions e
  end.

Lemma Reset_spec {S} `{IntervalSetLaws S} (r : MemoryRegionInfo S) b n : is_locked r = false -> 0 <= b -> 0 < n -> b + n < 2 ^ 32 ->
  ∃ r', Reset r b n = Some r' ∧ region_ok r' ∧ base r' = b ∧ size r' = n ∧ used r' = 0.
Proof.
  intros U Hb Hn He. unfold Reset. rewrite U, uwrap_id by (unfold in_range; lia). eexists. split; [done|].
  match goal with |- region_ok ?x ∧ _ => set (r' := x) end.
  assert (F : ∀ x, is_free r' x <-> b <= x < b + n).
  { intros x. etrans; [apply covered_add|]. pose proof (covered_empty (S := S) x). tauto. }
  split; [|done]. split; [done|cbn; lia|intros x Hx; by apply F|].
  change (0 = n - space_left r'). unfold space_left. change (free_blocks r') with (iv_add b (b + n) (iv_empty : S)).
  rewrite measure_add, measure_empty by (lia || (intros x _; apply covered_empty)). lia.
Qed.

(** The sizes of a row fill the memory they are for. *)
Definition row_fills (row total : Z) : bool :=
  (0 <? region_size row 0) && (0 <? region_size row 1) && (0 <? region_size row 2) &&
  (region_size row 0 + region_size row 1 + region_size row 2 =? total).
Definition fcram_size (is_new_3ds : bool) : Z := if is_new_3ds then 0x10000000 else 0x08000000.
Lemma memory_types_fill is_new_3ds memory_mode n3ds_mode :
  row_fills (memory_types is_new_3ds memory_mode n3ds_mode).1 (fcram_size is_new_3ds) = true.
Proof. destruct is_new_3ds, memory_mode, n3ds_mode; vm_compute; reflexivity. Qed.

(** Whatever the console and the memory modes, initialisation succeeds: the
    three regions lie one after the other, are free, and fill the memory. *)
Theorem MemoryInit_correct {S} `{IntervalSetLaws S} is_new_3ds memory_mode n3ds_mode (r1 r2 r3 : MemoryRegionInfo S) :
  is_locked r1 = false -> is_locked r2 = false -> is_locked r3 = false ->
  ∃ regions config, MemoryInit 0x10000000 0x08000000 is_new_3ds memory_mode n3ds_mode [r1; r2; r3] = Some (regions, config) ∧
    laid_out 0 regions (fcram_size is_new_3ds) ∧ length regions = 3%nat ∧
    (∀ s, nth_error regions 1 = Some s -> sys_mem_alloc config = size s) ∧
    (∀ b, nth_error regions 2 = Some b -> base_mem_alloc config = size b).
Proof.
  intros U1 U2 U3. unfold MemoryInit. pose proof (memory_types_fill is_new_3ds memory_mode n3ds_mode) as F.
  destruct (memory_types _ _ _) as [row reported]. cbn [fst] in F. unfold row_fills in F. cbn [take reset_regions]. set (n := region_size row) in *.
  assert (N : fcram_size is_new_3ds < 2 ^ 32) by (by destruct is_new_3ds).
  destruct (Reset_spec r1 0 (n 0%nat) U1) as (r1' & E1 & O1 & B1 & Z1 & Q1); [lia..|]. rewrite E1. cbn [mbind option_bind].
  rewrite Z1, (uwrap_id 32 (0 + _)) by (unfold in_range; lia).
  destruct (Reset_spec r2 (0 + n 0%nat) (n 1%nat) U2) as (r2' & E2 & O2 & B2 & Z2 & Q2); [lia..|]. rewrite E2. cbn [mbind option_bind].
  rewrite Z2, (uwrap_id 32 (_ + n 1%nat)) by (unfold in_range; lia).
  destruct (Reset_spec r3 (0 + n 0%nat + n 1%nat) (n 2%nat) U3) as (r3' & E3 & O3 & B3 & Z3 & Q3); [lia..|]. rewrite E3.
  cbn [mbind option_bind]. rewrite Z3, (uwrap_id 32 (_ + n 2%nat)) by (unfold in_range; lia).
  change (if is_new_3ds then 0x10000000 else 0x08000000) with (fcram_size is_new_3ds).
  rewrite (proj2 (Z.eqb_eq _ _)) by lia. eexists _, _. split; [done|]. split; [|split; [done|split; intros ? [= <-]; done]].
  cbn [laid_out]. rewrite Z1, Z2, Z3. split_and!; try done. lia.
Qed.

(** * Small regions *)

Definition demo_region : MemoryRegionInfo IntervalList :=
  mk_MemoryRegionInfo 0x1000 0x8000 0x2000 (iv_sub 0x3000 0x5000 (iv_add 0x1000 0x9000 iv_empty)) false.
Lemma demo_region_ok : region_ok demo_region.
Proof.
  split; [done|by_decide| |vm_compute; reflexivity]. intros x Hx. apply covered_sub in Hx as [[Hx|Hx]%covered_add _].
  - by apply covered_empty in Hx.
  - exact Hx.
Qed.

Lemma region_HeapAllocate_correct_witness : ∃ t r1, HeapAllocate demo_region 0x5000 = Some (t, r1) ∧ measure t = 0x5000 ∧
  used r1 = 0x7000 ∧ iv_blocks t = [(0x2000, 0x3000); (0x5000, 0x9000)].
Proof.
  destruct (region_HeapAllocate_correct demo_region 0x5000 demo_region_ok ltac:(lia)) as (t & r1 & E & _ & H).
  assert (L : (0x5000 <=? space_left demo_region) = true) by (vm_compute; reflexivity). rewrite L in H.
  exists t, r1. split; [exact E|]. split; [apply H|]. split; [apply H|].
  assert (K : iv_blocks <$> (fst <$> HeapAllocate demo_region 0x5000) = Some [(0x2000, 0x3000); (0x5000, 0x9000)]) by (vm_compute; reflexivity).
  rewrite E in K. by injection K.
Defined.
Lemma LinearAllocate_correct_witness : ∃ r1, LinearAllocate demo_region 0x3000 = Some (Some 0x5000, r1) ∧ used r1 = 0x5000 ∧
  ∀ l, (∀ x, l <= x < l + 0x3000 -> is_free demo_region x) -> 0x5000 <= l.
Proof.
  destruct (LinearAllocate_correct demo_region 0x3000 demo_region_ok ltac:(lia)) as (res & r1 & E & _ & H).
  assert (K : fst <$> LinearAllocate demo_region 0x3000 = Some (Some 0x5000)) by (vm_compute; reflexivity).
  rewrite E in K. injection K as ->. exists r1. split; [exact E|]. split; [apply H|apply H].
Defined.
Lemma MemoryInit_correct_witness : ∃ regions config,
  MemoryInit 0x10000000 0x08000000 true MemDev1 NewLegacy [new_region; new_region; new_region : MemoryRegionInfo IntervalList]
    = Some (regions, config) ∧ laid_out 0 regions 0x10000000.
Proof.
  destruct (MemoryInit_correct true MemDev1 NewLegacy (new_region : MemoryRegionInfo IntervalList) new_region new_region
    eq_refl eq_refl eq_refl) as (regions & config & E & L & _). exists regions, config. split; [exact E|exact L].
Defined.
