(* ===== verification/VmManager.v ===== *)
(** The address space of a process, [VMManager] of [vm_manager.h] and
    [vm_manager.cpp].

    [vma_map] is the [std::map] of the areas by base, as the list of its entries
    in order; an iterator is the base of its entry, [None] for [end()], as
    iterators of a map stay valid while other entries come and go.  A failed
    assertion, and following an iterator that has no entry, is [None].  The
    memory system the manager refers to is threaded through as the field
    [memory]. *)

From S2P Require Import Prelude Result Memory.

(** * Data *)

(* src: vm_manager.h | enum class VMAType : u8 { *)
Inductive VMAType := VMAFree | VMABackingMemory.
#[export] Instance VMAType_eq_dec : EqDecision VMAType.
Proof. solve_decision. Defined.

(** A permission is the bits of [VMAPermission]. *)
Abbreviation VMAPermission := Z (only parsing).
Definition PermNone : VMAPermission := 0.
Definition PermRead : VMAPermission := 1.
Definition PermWrite : VMAPermission := 2.
(* src: vm_manager.h | enum class VMAPermission : u8 { | VMAPermission *)
Definition PermReadWrite : VMAPermission := PermRead .| PermWrite.

(* src: vm_manager.h | enum class MemoryState : u8 { *)
Inductive MemoryState :=
  StateFree | Reserved | IO | Static | Code | Private | Shared | Continuous | Aliased | Alias
| AliasCode | Locked.
#[export] Instance MemoryState_eq_dec : EqDecision MemoryState.
Proof. solve_decision. Defined.

(* src: vm_manager.h | struct VirtualMemoryArea { *)
Record VirtualMemoryArea := mk_VMA {
  base : Z;
  size : Z;
  type : VMAType;
  permissions : VMAPermission;
  meminfo_state : MemoryState;
  backing_memory : MemoryRef
}.
Implicit Types (v : VirtualMemoryArea).

(* src: vm_manager.h | static const u32 MAX_ADDRESS = 0x40000000; *)
Definition MAX_ADDRESS : Z := 0x40000000.

(** Two null pointers are not compared: only areas of type [BackingMemory] are. *)
(* src: vm_manager.cpp | bool VirtualMemoryArea::CanBeMergedWith(const VirtualMemoryArea& next) const { *)
Definition CanBeMergedWith v (next : VirtualMemoryArea) : option bool :=
  if u32 (base v + size v) =? base next then
    Some (
      if negb (permissions v =? permissions next) || negb (bool_decide (meminfo_state v = meminfo_state next))
         || negb (bool_decide (type v = type next)) then false
      else if bool_decide (type v = VMABackingMemory)
              && negb (bool_decide (ptr_add (GetPtr (backing_memory v)) (size v) = GetPtr (backing_memory next)))
      then false else true)
  else None.

(** [memory_changed] counts the notifications of the plugin loader. *)
(* src: vm_manager.h | class VMManager final { *)
Record VMManager := mk_VMManager {
  memory : MemorySystem;
  vma_map : list VirtualMemoryArea;
  page_table : nat;
  is_locked : bool;
  memory_changed : Z
}.
Implicit Types (vm : VMManager) (l : list VirtualMemoryArea).

(** * The map *)

(** The entries before, at and after a key. *)
Fixpoint locate (it : Z) l : option (list VirtualMemoryArea * VirtualMemoryArea * list VirtualMemoryArea) :=
  match l with
  | [] => None
  | v :: l =>
      if base v =? it then Some ([], v, l)
      else '(before, x, after) ← locate it l; Some (v :: before, x, after)
  end.
Definition next (it : Z) l : option (option Z) := '(_, _, after) ← locate it l; Some (base <$> head after).
(** The last entry at or below [target]: [std::prev(upper_bound(target))]. *)
Definition last_below (target : Z) l : option VirtualMemoryArea :=
  last (filter (fun v => base v <= target) l).
Definition lower_bound (target : Z) l : option Z :=
  base <$> head (filter (fun v => target <= base v) l).
(** Testing the entries from an iterator up to another, to the first that fails;
    running past the end of the map is [None]. *)
Fixpoint all_until (ok : VirtualMemoryArea -> bool) (end_ : option Z) l : option bool :=
  match l with
  | [] => match end_ with None => Some true | Some _ => None end
  | v :: l =>
      if decide (end_ = Some (base v)) then Some true
      else if ok v then all_until ok end_ l else Some false
  end.
Definition all_between (ok : VirtualMemoryArea -> bool) (first : Z) (end_ : option Z) l : option bool :=
  '(_, v, after) ← locate first l; all_until ok end_ (v :: after).
(** Insertion in order; an entry with the key already there is kept. *)
Fixpoint emplace v l : list VirtualMemoryArea :=
  match l with
  | [] => [v]
  | x :: l' => if base v <? base x then v :: l
               else if base v =? base x then l else x :: emplace v l'
  end.
(** Replacing the entry at its own key. *)
Definition update v l : list VirtualMemoryArea := (fun x => if base x =? base v then v else x) <$> l.
Definition remove_key (it : Z) l : list VirtualMemoryArea := filter (fun x => base x ≠ it) l.

Definition vma_at vm (it : Z) : option VirtualMemoryArea := snd <$> (fst <$> locate it (vma_map vm)).
Definition set_vma vm v : VMManager := vm<|vma_map := update v (vma_map vm)|>.

(* src: vm_manager.cpp | VMManager::VMAHandle VMManager::FindVMA(VAddr target) const { *)
Definition FindVMA vm (target : Z) : option (option VirtualMemoryArea) :=
  if MAX_ADDRESS <=? target then Some None else v ← last_below target (vma_map vm); Some (Some v).

Section vm_manager.
Context `{gpu : GPU}.

(* src: vm_manager.cpp | void VMManager::UpdatePageTableForVMA(const VirtualMemoryArea& vma) { *)
Definition UpdatePageTableForVMA vm v : option VMManager :=
  ms ← match type v with
       | VMAFree => UnmapRegion (memory vm) (page_table vm) (base v) (size v)
       | VMABackingMemory => MapMemoryRegion (memory vm) (page_table vm) (base v) (size v) (backing_memory v)
       end;
  let vm := vm<|memory := ms|> in
  Some (match plugin_fb_addr ms with
        | Some _ => vm<|memory_changed := memory_changed vm + 1|>
        | None => vm
        end).

(** The right side of a split. *)
(* src: vm_manager.cpp | new_vma.base += offset_in_vma; | VMManager::SplitVMA | +10 *)
Definition split_right v (offset_in_vma : Z) : option VirtualMemoryArea :=
  let new_vma := v<|base := u32 (base v + offset_in_vma)|><|size := u32 (size v - offset_in_vma)|> in
  match type v with
  | VMAFree => Some new_vma
  | VMABackingMemory => m ← ref_add (backing_memory v) offset_in_vma; Some (new_vma<|backing_memory := m|>)
  end.
(* src: vm_manager.cpp | VMManager::VMAIter VMManager::SplitVMA(VMAIter vma_handle, u32 offset_in_vma) { *)
Definition SplitVMA vm (vma_handle : Z) (offset_in_vma : Z) : option (Z * VMManager) :=
  old_vma ← vma_at vm vma_handle;
  if (offset_in_vma <? size old_vma) && (0 <? offset_in_vma) then
    new_vma ← split_right old_vma offset_in_vma;
    let old_vma := old_vma<|size := offset_in_vma|> in
    can ← CanBeMergedWith old_vma new_vma;
    if can : bool then
      let vm := set_vma vm old_vma in
      Some (base new_vma, vm<|vma_map := emplace new_vma (vma_map vm)|>)
    else None
  else None.

(** Merging with the next area, then with the previous one. *)
(* src: vm_manager.cpp | const VMAIter next_vma = std::next(iter); | VMManager::MergeAdjacent | +5 *)
Definition merge_next vm (iter : Z) : option VMManager :=
  '(_, v, after) ← locate iter (vma_map vm);
  match after with
  | [] => Some vm
  | n :: _ =>
      can ← CanBeMergedWith v n;
      if can : bool then
        let vm := set_vma vm (v<|size := u32 (size v + size n)|>) in
        Some (vm<|vma_map := remove_key (base n) (vma_map vm)|>)
      else Some vm
  end.
(* src: vm_manager.cpp | if (iter != vma_map.begin()) { | VMManager::MergeAdjacent | +8 *)
Definition merge_prev vm (iter : Z) : option (Z * VMManager) :=
  '(before, v, _) ← locate iter (vma_map vm);
  match last before with
  | None => Some (iter, vm)
  | Some p =>
      can ← CanBeMergedWith p v;
      if can : bool then
        let vm := set_vma vm (p<|size := u32 (size p + size v)|>) in
        Some (base p, vm<|vma_map := remove_key iter (vma_map vm)|>)
      else Some (iter, vm)
  end.
(* src: vm_manager.cpp | VMManager::VMAIter VMManager::MergeAdjacent(VMAIter iter) { *)
Definition MergeAdjacent vm (iter : Z) : option (Z * VMManager) :=
  vm ← merge_next vm iter; merge_prev vm iter.

(* src: vm_manager.cpp | void VMManager::Reset() { *)
Definition Reset vm : option VMManager :=
  if is_locked vm then None
  else
    let initial_vma := mk_VMA 0 MAX_ADDRESS VMAFree PermNone StateFree null_ref in
    let ms := memory vm in
    let ms := set_page_table ms (page_table vm) (PageTable_Clear (Memory.page_table ms (page_table vm))) in
    UpdatePageTableForVMA (vm<|vma_map := [initial_vma]|><|memory := ms|>) initial_vma.

(** * Carving *)

Definition page_aligned (x : Z) : bool := (x .& CITRA_PAGE_MASK) =? 0.

(** The area found holds the addresses asked for. *)
(* src: vm_manager.cpp | if (end_in_vma != vma.size) { | VMManager::CarveVMA | +8 *)
Definition carve_at vm v (start_in_vma end_in_vma : Z) : option (Z * VMManager) :=
  vm ← (if negb (end_in_vma =? size v) then snd <$> SplitVMA vm (base v) end_in_vma else Some vm);
  if negb (start_in_vma =? 0) then SplitVMA vm (base v) start_in_vma else Some (base v, vm).
(* src: vm_manager.cpp | ResultVal<VMManager::VMAIter> VMManager::CarveVMA(VAddr base, u32 size) { *)
Definition CarveVMA vm (target length : Z) : option (ResultVal Z * VMManager) :=
  if page_aligned length && page_aligned target then
    found ← FindVMA vm target;
    match found with
    | None => Some (RV_err ResultInvalidAddress, vm)
    | Some v =>
        if bool_decide (type v ≠ VMAFree) then Some (RV_err ResultInvalidAddressState, vm)
        else
          let start_in_vma := u32 (target - base v) in
          let end_in_vma := u32 (start_in_vma + length) in
          if size v <? end_in_vma then Some (RV_err ResultInvalidAddressState, vm)
          else
            '(it, vm) ← carve_at vm v start_in_vma end_in_vma; Some (RV_val it, vm)
    end
  else None.

(** The splits at the two ends of the range. *)
(* src: vm_manager.cpp | if (target != begin_vma->second.base) { | VMManager::CarveVMARange | ..return begin_vma; *)
Definition carve_ends vm (begin_vma : VirtualMemoryArea) (target target_end : Z) : option (Z * VMManager) :=
  '(first, vm) ← (if negb (target =? base begin_vma)
                  then SplitVMA vm (base begin_vma) (u32 (target - base begin_vma))
                  else Some (base begin_vma, vm));
  end_vma ← FindVMA vm target_end;
  vm ← match end_vma with
       | Some e => if negb (target_end =? base e)
                   then snd <$> SplitVMA vm (base e) (u32 (target_end - base e)) else Some vm
       | None => Some vm
       end;
  Some (first, vm).
(* src: vm_manager.cpp | ResultVal<VMManager::VMAIter> VMManager::CarveVMARange(VAddr target, u32 size) { *)
Definition CarveVMARange vm (target length : Z) : option (ResultVal Z * VMManager) :=
  if page_aligned length && page_aligned target then
    let target_end := u32 (target + length) in
    if (target <=? target_end) && (target_end <=? MAX_ADDRESS) && (0 <? length) then
      found ← FindVMA vm target;
      begin_vma ← found;
      mapped ← all_between (fun v => bool_decide (type v ≠ VMAFree)) (base begin_vma)
                 (lower_bound target_end (vma_map vm)) (vma_map vm);
      if mapped : bool then '(first, vm) ← carve_ends vm begin_vma target target_end; Some (RV_val first, vm)
      else Some (RV_err ResultInvalidAddressState, vm)
    else None
  else None.

(** * Mapping and unmapping *)

(* src: vm_manager.cpp | final_vma.type = VMAType::BackingMemory; | VMManager::MapBackingMemory | +4 *)
Definition mapped_vma v (mem : MemoryRef) (state : MemoryState) : VirtualMemoryArea :=
  v<|type := VMABackingMemory|><|permissions := PermReadWrite|><|meminfo_state := state|>
   <|backing_memory := mem|>.
(* src: vm_manager.cpp | ResultVal<VMManager::VMAHandle> VMManager::MapBackingMemory(VAddr target, MemoryRef memory, *)
Definition MapBackingMemory vm (target : Z) (mem : MemoryRef) (length : Z) (state : MemoryState)
    : option (ResultVal Z * VMManager) :=
  if is_locked vm || bool_decide (GetPtr mem = None) then None
  else
    '(r, vm) ← CarveVMA vm target length;
    match r with
    | RV_err e => Some (RV_err e, vm)
    | RV_val vma_handle =>
        final_vma ← vma_at vm vma_handle;
        if size final_vma =? length then
          let final_vma := mapped_vma final_vma mem state in
          vm ← UpdatePageTableForVMA (set_vma vm final_vma) final_vma;
          '(it, vm) ← MergeAdjacent vm vma_handle;
          Some (RV_val it, vm)
        else None
    end.

Definition OutOfMemory : Result :=
  Result_make (ErrorDescription_code ErrorDescription_OutOfMemory) ErrorModule_Kernel
    ErrorSummary_OutOfResource ErrorLevel_Permanent.

(** The area that is searched for. *)
(* src: vm_manager.cpp | if (vma.second.type != VMAType::Free) | VMManager::MapBackingMemoryToBase | +5 *)
Definition fits_base (b length : Z) v : bool :=
  let vma_end := u32 (base v + size v) in
  bool_decide (type v = VMAFree) && (b <? vma_end) && (u32 (b + length) <=? vma_end).
(** When no area is found, the code reads through [end()] before it tests for it;
    what it reads is not used. *)
(* src: vm_manager.cpp | ResultVal<VAddr> VMManager::MapBackingMemoryToBase(VAddr base, u32 region_size, MemoryRef memory, *)
Definition MapBackingMemoryToBase vm (b region_size : Z) (mem : MemoryRef) (length : Z) (state : MemoryState)
    : option (ResultVal Z * VMManager) :=
  if is_locked vm then None
  else match list_find (fun v => fits_base b length v) (vma_map vm) with
  | None => Some (RV_err OutOfMemory, vm)
  | Some (_, v) =>
      let target := Z.max b (base v) in
      if u32 (b + region_size) <? u32 (target + length) then Some (RV_err OutOfMemory, vm)
      else
        '(r, vm) ← MapBackingMemory vm target mem length state;
        match r with
        | RV_err e => Some (RV_err e, vm)
        | RV_val _ => Some (RV_val target, vm)
        end
  end.

(* src: vm_manager.cpp | vma.type = VMAType::Free; | VMManager::Unmap | +4 *)
Definition unmapped_vma v : VirtualMemoryArea :=
  v<|type := VMAFree|><|permissions := PermNone|><|meminfo_state := StateFree|><|backing_memory := null_ref|>.
(** Setting the attributes of an area, updating its pages and merging it. *)
Definition change_vma (f : VirtualMemoryArea -> VirtualMemoryArea) vm (it : Z) : option (Z * VMManager) :=
  v ← vma_at vm it;
  vm ← UpdatePageTableForVMA (set_vma vm (f v)) (f v);
  MergeAdjacent vm it.
(* src: vm_manager.cpp | VMManager::VMAIter VMManager::Unmap(VMAIter vma_handle) { *)
Definition Unmap vm (vma_handle : Z) : option (Z * VMManager) :=
  if is_locked vm then None else change_vma unmapped_vma vm vma_handle.
(* src: vm_manager.cpp | VMManager::VMAHandle VMManager::Reprotect(VMAHandle vma_handle, VMAPermission new_perms) { *)
Definition Reprotect vm (vma_handle : Z) (new_perms : VMAPermission) : option (Z * VMManager) :=
  if is_locked vm then None else change_vma (fun v => v<|permissions := new_perms|>) vm vma_handle.
(** The body of the loop of [ChangeMemoryState]. *)
(* src: vm_manager.cpp | vma->second.permissions = new_perms; | VMManager::ChangeMemoryState | +4 *)
Definition change_state (new_state : MemoryState) (new_perms : VMAPermission) vm (it : Z)
    : option (Z * VMManager) :=
  change_vma (fun v => v<|permissions := new_perms|><|meminfo_state := new_state|>) vm it.

(** The loop over the areas of a range; [None] also when [fuel] turns were not
    enough. *)
(* src: vm_manager.cpp | while (vma != end && vma->second.base < target_end) { #2 | VMManager::UnmapRange *)
Fixpoint over_range (op : VMManager -> Z -> option (Z * VMManager)) (fuel : nat) vm (it : option Z)
    (target_end : Z) : option VMManager :=
  match it with
  | None => Some vm
  | Some it =>
      if it <? target_end then
        match fuel with
        | O => None
        | Datatypes.S fuel =>
            '(it, vm) ← op vm it;
            it ← next it (vma_map vm);
            over_range op fuel vm it target_end
        end
      else Some vm
  end.
(** Every turn leaves an area behind. *)
Definition range_fuel vm : nat := length (vma_map vm).

(* src: vm_manager.cpp | Result VMManager::UnmapRange(VAddr target, u32 size) { *)
Definition UnmapRange vm (target length : Z) : option (Result * VMManager) :=
  if is_locked vm then None
  else
    '(r, vm) ← CarveVMARange vm target length;
    match r with
    | RV_err e => Some (e, vm)
    | RV_val vma =>
        vm ← over_range Unmap (range_fuel vm) vm (Some vma) (u32 (target + length));
        found ← FindVMA vm target;
        v ← found;
        if length <=? size v then Some (ResultSuccess, vm) else None
    end.
(* src: vm_manager.cpp | Result VMManager::ReprotectRange(VAddr target, u32 size, VMAPermission new_perms) { *)
Definition ReprotectRange vm (target length : Z) (new_perms : VMAPermission) : option (Result * VMManager) :=
  if is_locked vm then None
  else
    '(r, vm) ← CarveVMARange vm target length;
    match r with
    | RV_err e => Some (e, vm)
    | RV_val vma =>
        vm ← over_range (fun vm it => Reprotect vm it new_perms) (range_fuel vm) vm (Some vma)
               (u32 (target + length));
        Some (ResultSuccess, vm)
    end.

(** What the areas of the range must have. *)
(* src: vm_manager.cpp | if (vma.meminfo_state != expected_state) { | VMManager::ChangeMemoryState | +6 *)
Definition expected_vma (expected_state : MemoryState) (expected_perms : VMAPermission) v : bool :=
  bool_decide (meminfo_state v = expected_state) && ((permissions v .& expected_perms) =? expected_perms).
(* src: vm_manager.cpp | Result VMManager::ChangeMemoryState(VAddr target, u32 size, MemoryState expected_state, *)
Definition ChangeMemoryState vm (target length : Z) (expected_state : MemoryState)
    (expected_perms : VMAPermission) (new_state : MemoryState) (new_perms : VMAPermission)
    : option (Result * VMManager) :=
  if is_locked vm then Some (ResultSuccess, vm)
  else
    let target_end := u32 (target + length) in
    found ← FindVMA vm target;
    match found with
    | None => Some (ResultInvalidAddress, vm)
    | Some begin_vma =>
        expected ← all_between (expected_vma expected_state expected_perms) (base begin_vma)
                     (lower_bound target_end (vma_map vm)) (vma_map vm);
        if expected : bool then
          '(r, vm) ← CarveVMARange vm target length;
          match r with
          | RV_err e => Some (e, vm)
          | RV_val vma =>
              vm ← over_range (change_state new_state new_perms) (range_fuel vm) vm (Some vma) target_end;
              Some (ResultSuccess, vm)
          end
        else Some (ResultInvalidAddressState, vm)
    end.

(** A block of an address space: mapped, which must succeed, then protected. *)
(* src: process.cpp | auto vma = vm_manager.MapBackingMemory(target, backing_memory, size, MemoryState::Continuous); | Process::LinearAllocate | +3 *)
Definition map_protect vm (target : Z) (mem : MemoryRef) (len : Z) (st : MemoryState) (perms : VMAPermission)
    : option VMManager :=
  '(r, vm) ← MapBackingMemory vm target mem len st;
  match r with
  | RV_val it => snd <$> Reprotect vm it perms
  | RV_err _ => None
  end.

(* src: vm_manager.cpp | void VMManager::Unlock() { *)
Definition Unlock vm : VMManager := vm<|is_locked := false|>.

(** The blocks behind a range; [None] also when [fuel] turns were not enough. *)
(* src: vm_manager.cpp | while (interval_target != address + size) { *)
Fixpoint backing_blocks vm (fuel : nat) (interval_target target_end : Z) (blocks : list (MemoryRef * Z))
    : option (ResultVal (list (MemoryRef * Z))) :=
  if interval_target =? target_end then Some (RV_val blocks)
  else match fuel with
  | O => None
  | Datatypes.S fuel =>
      found ← FindVMA vm interval_target;
      v ← found;
      if bool_decide (type v ≠ VMABackingMemory) then Some (RV_err ResultInvalidAddressState)
      else
        let interval_end := Z.min target_end (u32 (base v + size v)) in
        let interval_size := u32 (interval_end - interval_target) in
        mem ← ref_add (backing_memory v) (u32 (interval_target - base v));
        backing_blocks vm fuel (u32 (interval_target + interval_size)) target_end
          (blocks ++ [(mem, interval_size)])
  end.
(* src: vm_manager.cpp | ResultVal<std::vector<std::pair<MemoryRef, u32>>> VMManager::GetBackingBlocksForRange(VAddr address, | VMManager::GetBackingBlocksForRange | ..return backing_blocks; *)
Definition GetBackingBlocksForRange vm (address length : Z) : option (ResultVal (list (MemoryRef * Z))) :=
  backing_blocks vm (Datatypes.length (vma_map vm)) address (u32 (address + length)) [].
End vm_manager.
