(* ===== verification/VmFacts.v ===== *)
(** Correctness of the address space: the list of areas tiles the addresses, the
    page table shows the areas, and each operation is a pointwise change of a map
    from addresses to attributes. *)

From stdpp Require Import sorting.
From S2P Require Import Prelude Result Memory MemoryFacts VmManager.

Implicit Types (vm : VMManager) (v w : VirtualMemoryArea) (l : list VirtualMemoryArea) (ms : MemorySystem).

(** * The abstract address space

    What an address has: the fields of its area, and the host byte behind it. *)
Record Attr := mk_Attr {
  at_type : VMAType;
  at_perms : Z;
  at_state : MemoryState;
  at_ptr : Pointer
}.
Definition free_attr : Attr := mk_Attr VMAFree PermNone StateFree None.

Definition covers v (a : Z) : bool := (base v <=? a) && (a <? base v + size v).
Definition attr_of v (a : Z) : Attr :=
  mk_Attr (type v) (permissions v) (meminfo_state v)
    (match type v with VMAFree => None | VMABackingMemory => ptr_add (GetPtr (backing_memory v)) (a - base v) end).
Fixpoint attr_at l (a : Z) : option Attr :=
  match l with [] => None | v :: l => if covers v a then Some (attr_of v a) else attr_at l a end.
Definition view vm (a : Z) : option Attr := attr_at (vma_map vm) a.

(** ** Areas *)

Definition aligned (x : Z) : Prop := (4096 | x).

(** A reference with [n] bytes behind it. *)
Definition ref_ok (r : MemoryRef) (n : Z) : Prop :=
  match backing_mem r with
  | Some b => 0 <= ref_offset r ∧ ref_offset r + n <= backing_size b ∧ backing_size b < 2 ^ 63
  | None => False
  end.
Definition vma_ok v : Prop :=
  aligned (base v) ∧ aligned (size v) ∧ 0 < size v ∧
  match type v with
  | VMAFree => permissions v = PermNone ∧ meminfo_state v = StateFree ∧ backing_memory v = null_ref
  | VMABackingMemory => ref_ok (backing_memory v) (size v)
  end.

(** The areas follow one another from [from] to [to]. *)
Fixpoint tiles (from to : Z) l : Prop :=
  match l with
  | [] => from = to
  | v :: l => base v = from ∧ vma_ok v ∧ tiles (from + size v) to l
  end.

(** No two adjacent areas are free. *)
Definition seam v w : Prop := ¬ (type v = VMAFree ∧ type w = VMAFree).
Fixpoint seams l : Prop :=
  match l with
  | [] => True
  | v :: l => (match l with [] => True | w :: _ => seam v w end) ∧ seams l
  end.

(** ** The same addresses *)

Definition same_view l l' : Prop := ∀ a, attr_at l a = attr_at l' a.
#[export] Instance same_view_equiv : Equivalence same_view.
Proof. split; repeat intro; unfold same_view in *; congruence. Qed.

Lemma attr_at_app l1 l2 a :
  attr_at (l1 ++ l2) a = match attr_at l1 a with Some x => Some x | None => attr_at l2 a end.
Proof. induction l1 as [|v l1 IH]; simpl; [done|]. by destruct (covers v a). Qed.

#[export] Instance same_view_app : Proper (same_view ==> same_view ==> same_view) app.
Proof. intros l1 l1' H1 l2 l2' H2 a. by rewrite !attr_at_app, H1, H2. Qed.
#[export] Instance same_view_cons v : Proper (same_view ==> same_view) (cons v).
Proof. intros l l' H a. simpl. by rewrite H. Qed.

(** * Tiling *)

Lemma tiles_app from to l1 l2 : tiles from to (l1 ++ l2) <-> ∃ m, tiles from m l1 ∧ tiles m to l2.
Proof.
  revert from. induction l1 as [|v l1 IH]; intros from; simpl.
  - split; [intros H; by exists from|by intros (m & -> & H)].
  - rewrite IH. naive_solver.
Qed.

Lemma tiles_le from to l : tiles from to l -> from <= to.
Proof.
  revert from. induction l as [|v l IH]; intros from; simpl; [lia|].
  intros (_ & (_ & _ & H & _) & T). apply IH in T. lia.
Qed.

Lemma tiles_in from to l v : tiles from to l -> v ∈ l -> vma_ok v ∧ from <= base v ∧ base v + size v <= to.
Proof.
  intros T (l1 & l2 & ->)%list_elem_of_split. apply tiles_app in T as (m & T1 & E & V & T2).
  apply tiles_le in T1, T2. split; [done|]. lia.
Qed.

Lemma tiles_middle from to l1 v l2 : tiles from to (l1 ++ v :: l2) <->
  tiles from (base v) l1 ∧ vma_ok v ∧ tiles (base v + size v) to l2.
Proof.
  rewrite tiles_app. simpl. split.
  - intros (m & T1 & <- & V & T2). done.
  - intros (T1 & V & T2). by exists (base v).
Qed.

Lemma tiles_aligned from to l : tiles from to l -> aligned from -> aligned to.
Proof.
  revert from. induction l as [|v l IH]; intros from; simpl; [by intros ->|].
  intros (_ & (_ & H & _) & T) F. apply (IH (from + size v)); [done|]. by apply Z.divide_add_r.
Qed.

(** Every address of the range is in one area. *)
Lemma tiles_find from to l a : tiles from to l -> from <= a < to ->
  ∃ l1 v l2, l = l1 ++ v :: l2 ∧ base v <= a < base v + size v.
Proof.
  revert from. induction l as [|v l IH]; intros from; simpl; [lia|].
  intros (E & V & T) Ha. destruct (decide (a < base v + size v)).
  - exists [], v, l. split; [done|lia].
  - destruct (IH _ T ltac:(lia)) as (l1 & w & l2 & -> & H). by exists (v :: l1), w, l2.
Qed.

Lemma attr_at_outside from to l a : tiles from to l -> ¬ (from <= a < to) -> attr_at l a = None.
Proof.
  revert from. induction l as [|v l IH]; intros from; simpl; [done|].
  intros (E & V & T) Ha. pose proof (tiles_le _ _ _ T). unfold covers. destruct V as (_ & _ & ? & _).
  zcases; simpl; try lia; apply (IH _ T); lia.
Qed.

Lemma attr_at_middle from to l1 v l2 a : tiles from to (l1 ++ v :: l2) -> base v <= a < base v + size v ->
  attr_at (l1 ++ v :: l2) a = Some (attr_of v a).
Proof.
  intros (T1 & V & T2)%tiles_middle Ha. rewrite attr_at_app, (attr_at_outside _ _ _ _ T1) by lia.
  simpl. unfold covers. zcases; simpl; lia || done.
Qed.

(** ** Searching *)

Lemma locate_middle from to l1 v l2 : tiles from to (l1 ++ v :: l2) ->
  locate (base v) (l1 ++ v :: l2) = Some (l1, v, l2).
Proof.
  revert from. induction l1 as [|x l1 IH]; intros from; simpl.
  - by rewrite Z.eqb_refl.
  - intros (E & (_ & _ & ? & _) & T). rewrite (IH _ T).
    apply tiles_middle in T as (T & _). apply tiles_le in T. zcases; [lia|done].
Qed.

Lemma filter_below from to l1 v l2 a : tiles from to (l1 ++ v :: l2) -> base v <= a < base v + size v ->
  filter (fun x => base x <= a) (l1 ++ v :: l2) = l1 ++ [v].
Proof.
  intros (T1 & V & T2)%tiles_middle Ha. rewrite filter_app, filter_cons_True by lia. f_equal.
  - apply filter_all. intros x Hx. destruct (tiles_in _ _ _ _ T1 Hx) as ((_ & _ & ? & _) & ?). lia.
  - f_equal. apply filter_none. intros x Hx. pose proof (tiles_in _ _ _ _ T2 Hx). lia.
Qed.

Lemma last_below_middle from to l1 v l2 a : tiles from to (l1 ++ v :: l2) -> base v <= a < base v + size v ->
  last_below a (l1 ++ v :: l2) = Some v.
Proof. intros T Ha. unfold last_below. by rewrite (filter_below _ _ _ _ _ _ T Ha), last_snoc. Qed.

Lemma update_other w l : (∀ x, x ∈ l -> base x ≠ base w) -> update w l = l.
Proof.
  intros H. unfold update. induction l as [|x l IH]; [done|]. rewrite fmap_cons, IH by set_solver.
  specialize (H x ltac:(set_solver)). zcases; [lia|done].
Qed.

Lemma update_middle from to l1 v w l2 : tiles from to (l1 ++ v :: l2) -> base w = base v ->
  update w (l1 ++ v :: l2) = l1 ++ w :: l2.
Proof.
  intros (T1 & V & T2)%tiles_middle E. unfold update. rewrite fmap_app, fmap_cons, E, Z.eqb_refl.
  rewrite <- E. change (update w l1 ++ w :: update w l2 = l1 ++ w :: l2).
  destruct V as (_ & _ & ? & _). rewrite !update_other; [done|..]; intros x Hx.
  - pose proof (tiles_in _ _ _ x T2 Hx). lia.
  - destruct (tiles_in _ _ _ x T1 Hx) as ((_ & _ & ? & _) & ?). lia.
Qed.

Lemma remove_one l1 v l2 : (∀ x, x ∈ l1 ++ l2 -> base x ≠ base v) ->
  remove_key (base v) (l1 ++ v :: l2) = l1 ++ l2.
Proof.
  intros H. unfold remove_key. rewrite filter_app, filter_cons_False by tauto.
  rewrite !filter_all; set_solver.
Qed.

(** Two areas of a tiling have different bases. *)
Lemma tiles_base_ne from to l1 v l2 x : tiles from to (l1 ++ v :: l2) -> x ∈ l1 ++ l2 -> base x ≠ base v.
Proof.
  intros (T1 & (_ & _ & ? & _) & T2)%tiles_middle [Hx|Hx]%elem_of_app.
  - destruct (tiles_in _ _ _ x T1 Hx) as ((_ & _ & ? & _) & ?). lia.
  - pose proof (tiles_in _ _ _ x T2 Hx). lia.
Qed.

Lemma emplace_middle from m l1 v l2 : tiles from m l1 -> m = base v ->
  (∀ x, x ∈ l2 -> base v < base x) -> emplace v (l1 ++ l2) = l1 ++ v :: l2.
Proof.
  revert from. induction l1 as [|x l1 IH]; intros from; simpl.
  - intros _ _ H. destruct l2 as [|x l2]; [done|]. simpl. specialize (H x ltac:(set_solver)). zcases; done || lia.
  - intros (E & (_ & _ & Hs & _) & T) -> Hl. pose proof (tiles_le _ _ _ T).
    rewrite (IH _ T eq_refl Hl). zcases; done || lia.
Qed.

Lemma lower_bound_app from m to l1 l2 a : tiles from m l1 -> tiles m to l2 ->
  (∀ x, x ∈ l1 -> base x < a) -> (∀ x, x ∈ l2 -> a <= base x) ->
  lower_bound a (l1 ++ l2) = base <$> head l2.
Proof.
  intros T1 T2 H1 H2. unfold lower_bound. rewrite filter_app, filter_none, filter_all; [done|done|].
  intros x Hx. specialize (H1 x Hx). lia.
Qed.

(** * Seams *)

Lemma seams_app l1 l2 : seams (l1 ++ l2) <->
  seams l1 ∧ seams l2 ∧ ∀ v w, last l1 = Some v -> head l2 = Some w -> seam v w.
Proof.
  induction l1 as [|x l1 IH]; [naive_solver|]. destruct l1 as [|y l1].
  - change (seams (x :: l2) <-> seams [x] ∧ seams l2 ∧ ∀ v w, last [x] = Some v -> head l2 = Some w -> seam v w).
    destruct l2 as [|z l2]; simpl; naive_solver.
  - change (seams ((x :: y :: l1) ++ l2)) with (seam x y ∧ seams ((y :: l1) ++ l2)).
    change (seams (x :: y :: l1)) with (seam x y ∧ seams (y :: l1)).
    change (last (x :: y :: l1)) with (last (y :: l1)). rewrite IH. tauto.
Qed.

Lemma seams_middle l1 v l2 : seams (l1 ++ v :: l2) <->
  seams l1 ∧ seams l2 ∧ (∀ x, last l1 = Some x -> seam x v) ∧ (∀ x, head l2 = Some x -> seam v x).
Proof.
  rewrite seams_app. change (seams (v :: l2)) with ((match l2 with [] => True | w :: _ => seam v w end) ∧ seams l2).
  change (head (v :: l2)) with (Some v). destruct l2; simpl; naive_solver.
Qed.

(** * Merging *)

Definition mergeable v w : bool :=
  (permissions v =? permissions w) && bool_decide (meminfo_state v = meminfo_state w)
  && bool_decide (type v = type w)
  && (bool_decide (type v ≠ VMABackingMemory)
      || bool_decide (ptr_add (GetPtr (backing_memory v)) (size v) = GetPtr (backing_memory w))).
Definition join v w : VirtualMemoryArea := v<|size := size v + size w|>.

Lemma CanBeMergedWith_eq v w : base w = base v + size v -> 0 <= base w < 2 ^ 32 ->
  CanBeMergedWith v w = Some (mergeable v w).
Proof.
  intros E R. unfold CanBeMergedWith. rewrite uwrap_id by (unfold in_range; lia).
  rewrite (proj2 (Z.eqb_eq _ _)) by done. f_equal. unfold mergeable. destruct (_ =? permissions w); [|done].
  repeat case_bool_decide; simpl; done || congruence.
Qed.

Lemma mergeable_spec v w : mergeable v w = true <->
  permissions v = permissions w ∧ meminfo_state v = meminfo_state w ∧ type v = type w ∧
  (type v = VMABackingMemory -> ptr_add (GetPtr (backing_memory v)) (size v) = GetPtr (backing_memory w)).
Proof.
  unfold mergeable. rewrite !andb_true_iff, orb_true_iff, !bool_decide_eq_true, Z.eqb_eq.
  destruct (type v); naive_solver.
Qed.

Lemma GetPtr_Some r b o : GetPtr r = Some (b, o) <-> backing_mem r = Some b ∧ ref_offset r = o.
Proof.
  destruct r as [[x|] y]; cbn; [|split; [done|by intros [? ?]]].
  split; [by intros [= -> ->]|by intros [[= ->] ->]].
Qed.

Lemma ref_ok_ptr r n : ref_ok r n -> ∃ b, backing_mem r = Some b ∧ GetPtr r = Some (b, ref_offset r).
Proof. destruct r as [[x|] y]; simpl; [by exists x|done]. Qed.

Lemma attr_of_join v w a : vma_ok v -> vma_ok w -> base w = base v + size v -> mergeable v w = true ->
  attr_of (join v w) a = attr_of v a ∧ attr_of w a = attr_of v a.
Proof.
  intros V W E (P & S & T & M)%mergeable_spec. split; [by destruct v|]. unfold attr_of. rewrite P, S, T. f_equal.
  destruct (type w) eqn:Tw; [done|]. rewrite <- M by congruence. destruct V as (_ & _ & _ & V).
  rewrite T in V. destruct (ref_ok_ptr _ _ V) as (b & _ & ->). simpl. do 2 f_equal. lia.
Qed.

Lemma join_ok v w : vma_ok v -> vma_ok w -> mergeable v w = true -> vma_ok (join v w).
Proof.
  intros (A1 & A2 & P & V) (B1 & B2 & Q & W) (Ep & Es & Et & M)%mergeable_spec.
  unfold vma_ok, join. destruct v as [vb vs vt vp vm vr]; cbn in *. split_and!; [done|by apply Z.divide_add_r|lia|].
  destruct vt; [done|]. specialize (M eq_refl). rewrite <- Et in W.
  destruct (ref_ok_ptr _ _ V) as (b & Eb & EP), (ref_ok_ptr _ _ W) as (c & Ec & EQ).
  rewrite EP, EQ in M. cbn in M. unfold ref_ok in *. rewrite Eb in *. rewrite Ec in W. simplify_eq. lia.
Qed.

Lemma same_view_join v w : vma_ok v -> vma_ok w -> base w = base v + size v -> mergeable v w = true ->
  same_view [v; w] [join v w].
Proof.
  intros V W E M a. cbn [attr_at]. destruct (attr_of_join v w a V W E M) as [-> ->].
  unfold covers, join. destruct v, w; cbn in *. destruct V as (_ & _ & ? & _), W as (_ & _ & ? & _). cbn in *.
  zcases; simpl; done || lia.
Qed.

(** Merging on lists: with the head of what follows, with the last of what precedes. *)
Definition absorb_next v l2 : VirtualMemoryArea * list VirtualMemoryArea :=
  match l2 with
  | n :: l2' => if mergeable v n then (join v n, l2') else (v, l2)
  | [] => (v, [])
  end.
Definition absorb_prev l1 v : list VirtualMemoryArea * VirtualMemoryArea :=
  match last l1 with
  | Some p => if mergeable p v then (take (length l1 - 1) l1, join p v) else (l1, v)
  | None => (l1, v)
  end.

Lemma absorb_prev_snoc l p v :
  absorb_prev (l ++ [p]) v = if mergeable p v then (l, join p v) else (l ++ [p], v).
Proof.
  unfold absorb_prev. rewrite last_snoc, length_app, take_app_le, take_ge by (simpl; lia). done.
Qed.

Lemma absorb_next_ok from to v l2 : tiles from to (v :: l2) ->
  let '(w, l2') := absorb_next v l2 in
  tiles from to (w :: l2') ∧ same_view (v :: l2) (w :: l2') ∧ base w = base v ∧ type w = type v.
Proof.
  intros T. destruct l2 as [|n l2]; cbn [absorb_next]; [done|].
  destruct T as (E & V & En & N & T). destruct (mergeable v n) eqn:M.
  - split_and!; [| |done..].
    + split; [done|]. split; [by apply join_ok|].
      replace (from + size (join v n)) with (from + size v + size n); [done|]. change (size (join v n)) with (size v + size n). lia.
    + change (same_view ([v; n] ++ l2) ([join v n] ++ l2)). rewrite same_view_join; [done|done|done|lia|done].
  - done.
Qed.

Lemma absorb_prev_ok from to l1 v l2 : tiles from to (l1 ++ v :: l2) ->
  let '(l1', w) := absorb_prev l1 v in
  tiles from to (l1' ++ w :: l2) ∧ same_view (l1 ++ v :: l2) (l1' ++ w :: l2) ∧ type w = type v ∧
  base w + size w = base v + size v.
Proof.
  intros T. destruct l1 as [|p l _] using rev_ind; [done|]. rewrite absorb_prev_snoc.
  destruct (mergeable p v) eqn:M; [|done]. rewrite <- app_assoc in *. cbn [app] in *.
  apply tiles_middle in T as (T1 & P & E & V & T2). split_and!.
  - apply tiles_middle. split; [done|]. split; [by apply join_ok|].
    change (base (join p v)) with (base p). change (size (join p v)) with (size p + size v).
    by rewrite Z.add_assoc.
  - change (p :: v :: l2) with ([p; v] ++ l2). change (join p v :: l2) with ([join p v] ++ l2).
    by rewrite same_view_join.
  - by apply mergeable_spec in M as (_ & _ & ? & _).
  - change (base p + (size p + size v) = base v + size v). lia.
Qed.

(** ** The operation *)

Definition with_map vm l : VMManager := vm<|vma_map := l|>.
Definition space l : Prop := tiles 0 MAX_ADDRESS l.

Lemma vma_at_middle vm l1 v l2 : space (vma_map vm) -> vma_map vm = l1 ++ v :: l2 -> vma_at vm (base v) = Some v.
Proof. intros T E. unfold vma_at. unfold space in T. rewrite E in *. by rewrite (locate_middle _ _ _ _ _ T). Qed.

Lemma set_vma_middle vm l1 v w l2 : space (vma_map vm) -> vma_map vm = l1 ++ v :: l2 -> base w = base v ->
  set_vma vm w = with_map vm (l1 ++ w :: l2).
Proof.
  intros T E B. unfold set_vma. unfold space in T. rewrite E in *.
  by rewrite (update_middle _ _ _ _ _ _ T B).
Qed.

Lemma space_bounds l v : space l -> v ∈ l -> 0 <= base v ∧ 0 < size v ∧ base v + size v <= MAX_ADDRESS.
Proof. intros T H. destruct (tiles_in _ _ _ _ T H) as ((_ & _ & ? & _) & ?). lia. Qed.

Lemma with_map_id vm : with_map vm (vma_map vm) = vm.
Proof. by destruct vm. Qed.

Lemma merge_next_eq vm l1 v l2 : space (vma_map vm) -> vma_map vm = l1 ++ v :: l2 ->
  merge_next vm (base v) =
  Some (with_map vm (l1 ++ (fst (absorb_next v l2)) :: snd (absorb_next v l2))).
Proof.
  intros T E. unfold merge_next. rewrite E. rewrite E in T. rewrite (locate_middle _ _ _ _ _ T). cbn [mbind option_bind].
  destruct l2 as [|n l2]; [cbn [absorb_next fst snd]; by rewrite <- E, with_map_id|].
  destruct (proj1 (tiles_middle _ _ _ _ _) T) as (_ & V & En & N & _).
  pose proof (space_bounds _ n T ltac:(set_solver)) as Bn.
  rewrite CanBeMergedWith_eq by (unfold MAX_ADDRESS in *; lia). cbn [mbind option_bind absorb_next].
  destruct (mergeable v n) eqn:M; [|cbn [fst snd]; by rewrite <- E, with_map_id].
  pose proof (space_bounds _ v T ltac:(set_solver)) as Bv.
  rewrite uwrap_id by (unfold in_range, MAX_ADDRESS in *; lia). change (v<|size := size v + size n|>) with (join v n).
  rewrite (set_vma_middle _ l1 v (join v n) (n :: l2)); [|unfold space; by rewrite E|done|done].
  change (Some (with_map vm (remove_key (base n) (l1 ++ [join v n] ++ n :: l2)))
          = Some (with_map vm (l1 ++ [join v n] ++ l2))).
  rewrite !app_assoc, remove_one; [done|]. intros x Hx.
  assert (K : ∀ x, x ∈ (l1 ++ [v]) ++ l2 -> base x ≠ base n).
  { intros y Hy. apply (tiles_base_ne 0 MAX_ADDRESS (l1 ++ [v]) n l2); [by rewrite <- app_assoc|done]. }
  apply elem_of_app in Hx as [[Hx| ->%list_elem_of_singleton]%elem_of_app|Hx].
  - apply K. set_solver.
  - change (base (join v n)) with (base v). apply K. set_solver.
  - apply K. set_solver.
Qed.

Lemma merge_prev_eq vm l1 v l2 : space (vma_map vm) -> vma_map vm = l1 ++ v :: l2 ->
  merge_prev vm (base v) =
  Some (base (snd (absorb_prev l1 v)), with_map vm (fst (absorb_prev l1 v) ++ snd (absorb_prev l1 v) :: l2)).
Proof.
  intros T E. unfold merge_prev. rewrite E. rewrite E in T. rewrite (locate_middle _ _ _ _ _ T). cbn [mbind option_bind].
  destruct l1 as [|p l _] using rev_ind; [cbn [last absorb_prev fst snd]; by rewrite <- E, with_map_id|].
  rewrite last_snoc, absorb_prev_snoc. pose proof T as T'. unfold space in T'. rewrite <- app_assoc in T', E. cbn [app] in T', E.
  destruct (proj1 (tiles_middle _ _ _ _ _) T') as (_ & P & Ev & V & _).
  pose proof (space_bounds _ v T' ltac:(set_solver)) as Bv. pose proof (space_bounds _ p T' ltac:(set_solver)) as Bp.
  rewrite CanBeMergedWith_eq by (unfold MAX_ADDRESS in *; lia). cbn [mbind option_bind].
  destruct (mergeable p v); [|cbn [fst snd]; rewrite <- app_assoc; cbn [app]; by rewrite <- E, with_map_id].
  rewrite uwrap_id by (unfold in_range, MAX_ADDRESS in *; lia). change (p<|size := size p + size v|>) with (join p v).
  rewrite (set_vma_middle _ l p (join p v) (v :: l2)); [|unfold space; by rewrite E|done|done].
  change (Some (base p, with_map vm (remove_key (base v) (l ++ [join p v] ++ v :: l2)))
          = Some (base p, with_map vm (l ++ [join p v] ++ l2))).
  rewrite !app_assoc, remove_one; [done|]. intros x Hx.
  assert (K : ∀ x, x ∈ (l ++ [p]) ++ l2 -> base x ≠ base v)
    by (intros y Hy; by apply (tiles_base_ne 0 MAX_ADDRESS (l ++ [p]) v l2)).
  apply elem_of_app in Hx as [[Hx| ->%list_elem_of_singleton]%elem_of_app|Hx].
  - apply K. set_solver.
  - change (base (join p v)) with (base p). apply K. set_solver.
  - apply K. set_solver.
Qed.

(** What [MergeAdjacent] makes of the areas around [v]. *)
Definition merged l1 v l2 : list VirtualMemoryArea * VirtualMemoryArea * list VirtualMemoryArea :=
  let '(w, l2) := absorb_next v l2 in let '(l1, w) := absorb_prev l1 w in (l1, w, l2).

Lemma MergeAdjacent_eq vm l1 v l2 : space (vma_map vm) -> vma_map vm = l1 ++ v :: l2 ->
  MergeAdjacent vm (base v) =
  Some (let '(l1, w, l2) := merged l1 v l2 in (base w, with_map vm (l1 ++ w :: l2))).
Proof.
  intros T E. unfold MergeAdjacent. rewrite (merge_next_eq _ _ _ _ T E). cbn [mbind option_bind].
  unfold space in T. rewrite E in T. apply tiles_app in T as (m & T1 & T2). unfold merged.
  pose proof (absorb_next_ok _ _ _ _ T2) as N. destruct (absorb_next v l2) as [w l2'] eqn:A. cbn [fst snd].
  destruct N as (Tw & _ & Bw & _). rewrite <- Bw. erewrite merge_prev_eq; [..|done].
  - by destruct (absorb_prev l1 w).
  - change (tiles 0 MAX_ADDRESS (l1 ++ w :: l2')). apply tiles_app. by exists m.
Qed.

Lemma absorb_prev_view from to l1 v : tiles from to (l1 ++ [v]) ->
  same_view (l1 ++ [v]) (fst (absorb_prev l1 v) ++ [snd (absorb_prev l1 v)]).
Proof. intros T. pose proof (absorb_prev_ok _ _ _ _ _ T) as H. destruct (absorb_prev l1 v). tauto. Qed.

(** The areas around [v] keep their view; at most one following area is taken in. *)
Lemma merged_ok l1 v l2 : space (l1 ++ v :: l2) ->
  let '(l1', w, l2') := merged l1 v l2 in
  space (l1' ++ w :: l2') ∧ type w = type v ∧
  ((l2' = l2 ∧ same_view (l1 ++ [v]) (l1' ++ [w])) ∨
   ∃ n, l2 = n :: l2' ∧ mergeable v n = true ∧ same_view (l1 ++ [v; n]) (l1' ++ [w])).
Proof.
  intros (m & T1 & T2)%tiles_app. unfold merged. pose proof (absorb_next_ok _ _ _ _ T2) as N.
  assert (A : let '(w, l2') := absorb_next v l2 in
    (l2' = l2 ∧ w = v) ∨ ∃ n, l2 = n :: l2' ∧ mergeable v n = true ∧ same_view [v; n] [w]).
  { destruct l2 as [|n l2]; [by left|]. cbn [absorb_next]. destruct (mergeable v n) eqn:M; [right; exists n|by left].
    split_and!; [done..|]. destruct T2 as (E & V & En & W & _). apply same_view_join; (done || lia). }
  destruct (absorb_next v l2) as [w l2']. destruct N as (Tw & _ & Bw & Ew).
  assert (T : space (l1 ++ w :: l2')) by (apply tiles_app; by exists m).
  pose proof (absorb_prev_ok _ _ _ _ _ T) as P.
  assert (S : same_view (l1 ++ [w]) (fst (absorb_prev l1 w) ++ [snd (absorb_prev l1 w)])).
  { destruct Tw as (E & W & _). apply (absorb_prev_view 0 (base w + size w)).
    apply tiles_app. exists m. split; [done|]. split; [done|]. split; [done|]. by rewrite E. }
  destruct (absorb_prev l1 w) as [l1' x]. destruct P as (Tx & _ & Ex & _). cbn [fst snd] in S.
  split_and!; [done|congruence|]. destruct A as [[-> ->]|(n & -> & M & A)]; [by left|right].
  exists n. split_and!; [done..|]. by rewrite A.
Qed.

(** The area that results reaches around [v] and has its attributes. *)
Lemma merged_around l1 v l2 : space (l1 ++ v :: l2) ->
  let '(_, w, _) := merged l1 v l2 in
  base w <= base v ∧ base v + size v <= base w + size w ∧
  permissions w = permissions v ∧ meminfo_state w = meminfo_state v ∧ type w = type v.
Proof.
  intros T. unfold merged.
  assert (A : let '(w, _) := absorb_next v l2 in base w = base v ∧ size v <= size w ∧
    permissions w = permissions v ∧ meminfo_state w = meminfo_state v ∧ type w = type v).
  { destruct l2 as [|n l2]; [done|]. cbn [absorb_next]. destruct (mergeable v n); [|done].
    pose proof (tiles_in _ _ _ n T ltac:(set_solver +)) as ((_ & _ & N & _) & _). split_and!; try done.
    change (size v <= size v + size n). lia. }
  destruct (absorb_next v l2) as [w l2']. destruct A as (B & Z & P & S & Y).
  destruct l1 as [|p l _] using rev_ind; [cbn; rewrite B; split_and!; done || lia|]. rewrite absorb_prev_snoc.
  destruct (mergeable p w) eqn:M; [|rewrite B; split_and!; done || lia].
  rewrite <- app_assoc in T. cbn [app] in T. apply tiles_middle in T as (_ & (_ & _ & Pz & _) & E & _).
  apply mergeable_spec in M as (M1 & M2 & M3 & _).
  change (base (join p w)) with (base p). change (size (join p w)) with (size p + size w).
  change (permissions (join p w)) with (permissions p). change (meminfo_state (join p w)) with (meminfo_state p).
  change (type (join p w)) with (type p). split_and!; congruence || lia.
Qed.

Lemma merged_view l1 v l2 : space (l1 ++ v :: l2) ->
  same_view (l1 ++ v :: l2) (let '(l1', w, l2') := merged l1 v l2 in l1' ++ w :: l2').
Proof.
  intros T. pose proof (merged_ok l1 v l2 T) as H. destruct (merged l1 v l2) as [[l1' w] l2'].
  destruct H as (_ & _ & [[-> S]|(n & -> & _ & S)]).
  - change (same_view (l1 ++ [v] ++ l2) (l1' ++ [w] ++ l2)). by rewrite !app_assoc, S.
  - change (same_view (l1 ++ [v; n] ++ l2') (l1' ++ [w] ++ l2')). by rewrite !app_assoc, S.
Qed.

Lemma free_mergeable v w : vma_ok v -> vma_ok w -> type v = VMAFree -> type w = VMAFree -> mergeable v w = true.
Proof.
  intros (_ & _ & _ & V) (_ & _ & _ & W) Ev Ew. rewrite Ev in V. rewrite Ew in W.
  apply mergeable_spec. destruct V as (-> & -> & _), W as (-> & -> & _). rewrite Ev, Ew. done.
Qed.

(** Merging closes the seams around an area, whatever it has become. *)
Lemma merged_seams l1 v l2 : space (l1 ++ v :: l2) -> seams l1 -> seams l2 ->
  let '(l1', w, l2') := merged l1 v l2 in seams (l1' ++ w :: l2').
Proof.
  intros T S1 S2. unfold merged.
  assert (N : let '(w, l2') := absorb_next v l2 in
              vma_ok w ∧ seams l2' ∧ (∀ x, head l2' = Some x -> seam w x) ∧ type w = type v).
  { apply tiles_middle in T as (_ & V & T2). destruct l2 as [|n l2]; [done|]. cbn [absorb_next].
    destruct T2 as (E & N & T2). destruct (mergeable v n) eqn:M.
    - split_and!; [by apply join_ok| |intros x Hx|done]; destruct l2 as [|y l2]; try done; destruct S2 as [S S2]; [done|].
      injection Hx as <-. apply mergeable_spec in M as (_ & _ & M & _). intros [F1 F2]. apply S. by rewrite <- M.
    - split_and!; [done|done| |done]. intros x [= <-] [F1 F2]. by rewrite free_mergeable in M. }
  destruct (absorb_next v l2) as [w l2']. destruct N as (W & S & H & Ew).
  destruct l1 as [|p l _] using rev_ind; [cbn; destruct l2'; by auto|]. rewrite absorb_prev_snoc.
  apply seams_middle in S1 as (Sl & _ & Sp & _).
  destruct (mergeable p w) eqn:M; apply seams_middle; [|split_and!; try done].
  - apply mergeable_spec in M as (_ & _ & M & _). split_and!; [done|done| |].
    + intros x Hx. by apply Sp.
    + intros x Hx [F1 F2]. apply (H x Hx). by rewrite <- M.
  - apply seams_app. split_and!; try done. intros x y Hx [= <-]. by apply Sp.
  - intros x. rewrite last_snoc. intros [= <-] [F1 F2]. rewrite free_mergeable in M; try done.
    rewrite <- app_assoc in T. apply tiles_middle in T. tauto.
Qed.

(** * Page tables *)

(** The reference [i] pages further. *)
Definition page_after (r : MemoryRef) (i : Z) : MemoryRef :=
  match backing_mem r with Some _ => r<|ref_offset := ref_offset r + 4096 * i|> | None => r end.

Lemma page_after_0 r : page_after r 0 = r.
Proof. destruct r as [[b|] o]; [|done]. unfold page_after. cbn. f_equal. lia. Qed.

Lemma page_after_null i : page_after null_ref i = null_ref.
Proof. done. Qed.

Lemma page_after_add r i j : page_after (page_after r i) j = page_after r (i + j).
Proof. destruct r as [[b|] o]; [|done]. unfold page_after. cbn. f_equal. lia. Qed.

Lemma next_page_eq r n : ref_ok r n -> 4096 < n -> next_page r = Some (page_after r 1).
Proof.
  destruct r as [[b|] o]; [|done]. unfold ref_ok. cbn [backing_mem ref_offset]. intros (H1 & H2 & H3) Hn.
  unfold next_page, ref_add, GetSize. cbn [backing_mem ref_offset].
  rewrite uwrap_id by (unfold in_range; lia).
  rewrite (proj2 (Z.ltb_lt _ _)) by (unfold CITRA_PAGE_SIZE; lia). cbn [andb bool_decide].
  rewrite bool_decide_true by done. cbn [andb].
  change (Some (mk_MemoryRef (Some b) (u64 (o + 4096))) = Some (mk_MemoryRef (Some b) (o + 4096 * 1))).
  rewrite uwrap_id by (unfold in_range; lia). done.
Qed.

Lemma next_page_some r : ∃ r', next_page r = Some r'.
Proof.
  unfold next_page, ref_add. destruct (_ && _) eqn:E; [|by eexists]. apply andb_true_iff in E as [_ ->]. by eexists.
Qed.

Lemma ref_ok_after r n : ref_ok r n -> 4096 <= n -> ref_ok (page_after r 1) (n - 4096).
Proof. destruct r as [[b|] o]; [|done]. unfold ref_ok, page_after. cbn. lia. Qed.

(** The entry a page gets when it is mapped. *)
Definition mapped_page (marker : RasterizerCacheMarker) (type : PageType) (p : Z) (r : MemoryRef) : PageType * MemoryRef :=
  if bool_decide (type = PageMemory) && IsCached marker (p * CITRA_PAGE_SIZE)
  then (RasterizerCachedMemory, null_ref) else (type, r).

Lemma map_page_spec marker pt p r type q : 0 <= p < PAGE_TABLE_NUM_ENTRIES ->
  (page_type (map_page marker pt p r type) q, page_ref (map_page marker pt p r type) q)
  = if decide (q = p) then mapped_page marker type p r else (page_type pt q, page_ref pt q).
Proof.
  intros Hp. unfold map_page, mapped_page. rewrite uwrap_id by (unfold in_range, CITRA_PAGE_SIZE, PAGE_TABLE_NUM_ENTRIES, CITRA_PAGE_BITS in *; lia).
  destruct (_ && _); rewrite page_type_set, page_ref_set; by destruct (decide (q = p)) as [->|].
Qed.

(** Mapping [count] pages from page [p]. *)
Lemma map_pages_spec count marker pt p r type :
  0 <= p -> p + Z.of_nat count <= PAGE_TABLE_NUM_ENTRIES ->
  (r = null_ref ∨ ref_ok r (4096 * Z.of_nat count)) ->
  ∃ pt', map_pages count marker pt p r type = Some pt' ∧
    ∀ q, (page_type pt' q, page_ref pt' q) =
      if (p <=? q) && (q <? p + Z.of_nat count) then mapped_page marker type q (page_after r (q - p))
      else (page_type pt q, page_ref pt q).
Proof.
  revert pt p r. induction count as [|count IH]; intros pt p r Hp Hc Hr.
  - exists pt. split; [done|]. intros q. zcases; simpl; done || lia.
  - cbn [map_pages]. rewrite (proj2 (Z.ltb_lt _ _)) by lia.
    destruct (decide (count = 0%nat)) as [->|Hn].
    + destruct (next_page_some r) as (r' & ->). cbn [mbind option_bind map_pages]. eexists. split; [done|].
      intros q. rewrite map_page_spec by lia. destruct (decide (q = p)) as [->|].
      * rewrite Z.sub_diag, page_after_0. zcases; simpl; done || lia.
      * zcases; simpl; done || lia.
    + assert (Hr' : next_page r = Some (page_after r 1) ∧
                    (page_after r 1 = null_ref ∨ ref_ok (page_after r 1) (4096 * Z.of_nat count))).
      { destruct Hr as [->|Hr]; [split; [done|by left]|]. split; [apply (next_page_eq _ _ Hr); lia|].
        right. replace (4096 * Z.of_nat count) with (4096 * Z.of_nat (S count) - 4096) by lia. apply ref_ok_after; [done|lia]. }
      destruct Hr' as [-> Hr']. cbn [mbind option_bind].
      rewrite uwrap_id by (unfold in_range, PAGE_TABLE_NUM_ENTRIES, CITRA_PAGE_BITS in *; lia).
      destruct (IH (map_page marker pt p r type) (p + 1) (page_after r 1) ltac:(lia) ltac:(lia) Hr') as (pt' & -> & H).
      exists pt'. split; [done|]. intros q. rewrite H, map_page_spec, page_after_add by lia.
      replace (1 + (q - (p + 1))) with (q - p) by lia. destruct (decide (q = p)) as [->|].
      * rewrite Z.sub_diag, page_after_0. zcases; simpl; done || lia.
      * zcases; simpl; done || lia.
Qed.

Section pages.
Context `{gpu : GPU}.

(** Only the page table [t] differs, apart from calls of the graphics unit and
    what it does to the bytes. *)
Record only_table (t : nat) ms ms' : Prop := {
  ot_marker : cache_marker ms' = cache_marker ms;
  ot_powered : IsPoweredOn ms' = IsPoweredOn ms;
  ot_plugin : plugin_fb_addr ms' = plugin_fb_addr ms;
  ot_list : page_table_list ms' = page_table_list ms;
  ot_current : current_page_table ms' = current_page_table ms;
  ot_bytes : ∀ P : Bytes -> Prop, (∀ h m c, P m -> P (gpu_bytes h m c)) -> P (bytes ms) -> P (bytes ms');
  ot_others : ∀ t', t' ≠ t -> Memory.page_table ms' t' = Memory.page_table ms t'
}.
#[export] Instance only_table_preorder t : PreOrder (only_table t).
Proof.
  split; [by split|]. intros a b c [] []. split; try congruence; [intros P HP Hb; by apply ot_bytes1, ot_bytes0|].
  intros t' Ht. rewrite ot_others1, ot_others0; done.
Qed.

Definition vm_frame vm vm' : Prop :=
  VmManager.page_table vm' = VmManager.page_table vm ∧ is_locked vm' = is_locked vm ∧
  only_table (VmManager.page_table vm) (memory vm) (memory vm').
#[export] Instance vm_frame_preorder : PreOrder vm_frame.
Proof.
  split; [by split|]. intros a b c (A1 & A2 & A3) (B1 & B2 & B3). split; [congruence|]. split; [congruence|].
  rewrite A1 in B3. by etrans.
Qed.

(** What the page table of a page shows of the attributes of its first address. *)
Definition page_shows (marker : RasterizerCacheMarker) (pt : PageTable) (p : Z) (a : option Attr) : Prop :=
  match a with
  | Some (mk_Attr VMABackingMemory _ _ ptr) =>
      if IsCached marker (p * CITRA_PAGE_SIZE)
      then page_type pt p = RasterizerCachedMemory ∧ GetPtr (page_ref pt p) = None
      else page_type pt p = PageMemory ∧ GetPtr (page_ref pt p) = ptr
  | _ => page_type pt p = PageUnmapped ∧ GetPtr (page_ref pt p) = None
  end.
Definition table_of vm : PageTable := Memory.page_table (memory vm) (VmManager.page_table vm).
Definition table_ok vm : Prop :=
  ∀ p, 0 <= p < PAGE_TABLE_NUM_ENTRIES ->
    page_shows (cache_marker (memory vm)) (table_of vm) p (view vm (p * CITRA_PAGE_SIZE)).

Record vm_ok vm : Prop := {
  vm_space : space (vma_map vm);
  vm_seams : seams (vma_map vm);
  vm_table : table_ok vm;
  vm_unlocked : is_locked vm = false
}.

Lemma page_shows_ext marker pt pt' p a :
  (page_type pt' p, page_ref pt' p) = (page_type pt p, page_ref pt p) ->
  page_shows marker pt p a -> page_shows marker pt' p a.
Proof. intros [= E1 E2]. unfold page_shows. by rewrite E1, E2. Qed.


Lemma CheckRegion_tables t start end_ mode ms r : only_table t ms (CheckRegion start end_ mode ms r).
Proof. destruct r as [[r1 r2] r3]. unfold CheckRegion. destruct (_ || _); [done|]. split; try done. intros P HP. apply HP. Qed.

Lemma flush_tables t ms start n mode : only_table t ms (RasterizerFlushVirtualRegion ms start n mode).
Proof.
  unfold RasterizerFlushVirtualRegion. cbv zeta. set (ms' := foldl _ _ _).
  assert (H : only_table t ms ms').
  { unfold ms'. cbn [foldl]. etrans; [|apply CheckRegion_tables]. etrans; apply CheckRegion_tables. }
  destruct (plugin_fb_addr ms') as [fb|]; [|done]. destruct (nz fb); [|done].
  etrans; [exact H|apply CheckRegion_tables].
Qed.

Lemma flush_same ms start n mode t : Memory.page_table (RasterizerFlushVirtualRegion ms start n mode) t = Memory.page_table ms t.
Proof. apply (flush_tables (S t)). lia. Qed.

Lemma page_table_set ms t pt t' :
  Memory.page_table (set_page_table ms t pt) t' = if decide (t' = t) then pt else Memory.page_table ms t'.
Proof.
  change (<[t := pt]> (page_tables ms) !!! t' = if decide (t' = t) then pt else page_tables ms !!! t').
  destruct (decide (t' = t)) as [->|]; [apply lookup_total_insert_eq|by apply lookup_total_insert_ne].
Qed.

Lemma page_table_set_eq ms t pt : Memory.page_table (set_page_table ms t pt) t = pt.
Proof. rewrite page_table_set. by rewrite decide_True. Qed.

Lemma MapPages_spec ms t p n r type : 0 <= p -> 0 <= n -> p + n <= PAGE_TABLE_NUM_ENTRIES ->
  (r = null_ref ∨ ref_ok r (4096 * n)) ->
  ∃ ms', MapPages ms t p n r type = Some ms' ∧ only_table t ms ms' ∧
    ∀ q, (page_type (Memory.page_table ms' t) q, page_ref (Memory.page_table ms' t) q) =
      if (p <=? q) && (q <? p + n) then mapped_page (cache_marker ms) type q (page_after r (q - p))
      else (page_type (Memory.page_table ms t) q, page_ref (Memory.page_table ms t) q).
Proof.
  intros Hp Hn Hc Hr. unfold MapPages. cbv zeta.
  set (ms1 := if IsPoweredOn ms then _ else ms).
  assert (F : only_table t ms ms1 ∧ Memory.page_table ms1 t = Memory.page_table ms t).
  { unfold ms1. destruct (IsPoweredOn ms); [|done]. split; [apply flush_tables|apply flush_same]. }
  destruct F as [F E].
  destruct (map_pages_spec (Z.to_nat n) (cache_marker ms1) (Memory.page_table ms1 t) p r type) as (pt & -> & H);
    rewrite ?Z2Nat.id by done; try done.
  cbn [mbind option_bind]. eexists. split; [done|]. split.
  - etrans; [exact F|]. split; try done. intros t' Ht. rewrite page_table_set. by rewrite decide_False.
  - intros q. rewrite page_table_set, decide_True by done. rewrite H, E, Z2Nat.id by done. by rewrite (ot_marker _ _ _ F).
Qed.

Lemma aligned_pages x : aligned x -> nz (x .& CITRA_PAGE_MASK) = false ∧ 4096 * (x / CITRA_PAGE_SIZE) = x.
Proof.
  intros [k ->]. split.
  - apply nz_false. unfold CITRA_PAGE_MASK, CITRA_PAGE_SIZE. change (0x1000 - 1) with (2 ^ 12 - 1).
    rewrite land_mask by done. change (2 ^ 12) with 4096. by rewrite Z.mod_mul.
  - unfold CITRA_PAGE_SIZE. change 0x1000 with 4096. rewrite Z.div_mul by done. lia.
Qed.

(** The pages of an area show the area, the other pages stay. *)
Lemma Update_spec vm v : vma_ok v -> 0 <= base v -> base v + size v <= MAX_ADDRESS ->
  ∃ vm', UpdatePageTableForVMA vm v = Some vm' ∧ vma_map vm' = vma_map vm ∧ vm_frame vm vm' ∧
    ∀ p, 0 <= p < PAGE_TABLE_NUM_ENTRIES ->
      if covers v (p * CITRA_PAGE_SIZE)
      then page_shows (cache_marker (memory vm)) (table_of vm') p (Some (attr_of v (p * CITRA_PAGE_SIZE)))
      else (page_type (table_of vm') p, page_ref (table_of vm') p) = (page_type (table_of vm) p, page_ref (table_of vm) p).
Proof.
  intros (A1 & A2 & S & V) B1 B2. unfold UpdatePageTableForVMA.
  destruct (aligned_pages _ A1) as [N1 E1], (aligned_pages _ A2) as [N2 E2].
  set (r := match type v with VMAFree => null_ref | VMABackingMemory => backing_memory v end).
  set (ty := match type v with VMAFree => PageUnmapped | VMABackingMemory => PageMemory end).
  assert (Hr : r = null_ref ∨ ref_ok r (4096 * (size v / CITRA_PAGE_SIZE)))
    by (rewrite E2; unfold r; destruct (type v); [by left|by right]).
  destruct (MapPages_spec (memory vm) (VmManager.page_table vm) (base v / CITRA_PAGE_SIZE)
              (size v / CITRA_PAGE_SIZE) r ty) as (ms & Hms & F & H); try done;
    try (unfold PAGE_TABLE_NUM_ENTRIES, CITRA_PAGE_BITS, MAX_ADDRESS in *; lia).
  replace (match type v with VMAFree => _ | VMABackingMemory => _ end) with (Some ms).
  2:{ rewrite <- Hms. unfold r, ty, UnmapRegion, MapMemoryRegion. rewrite N1, N2. by destruct (type v). }
  cbn [mbind option_bind]. eexists. split; [done|].
  set (vm' := match plugin_fb_addr ms with Some _ => _ | None => _ end).
  assert (E : vma_map vm' = vma_map vm ∧ VmManager.page_table vm' = VmManager.page_table vm ∧
              is_locked vm' = is_locked vm ∧ memory vm' = ms)
    by (unfold vm'; by destruct (plugin_fb_addr ms)).
  destruct E as (M1 & M2 & M3 & M4). split; [done|]. split; [by rewrite <- M4 in F|].
  intros p Hp. unfold table_of. rewrite M2, M4. specialize (H p). unfold covers.
  assert (C : (base v <=? p * CITRA_PAGE_SIZE) && (p * CITRA_PAGE_SIZE <? base v + size v)
              = (base v / CITRA_PAGE_SIZE <=? p) && (p <? base v / CITRA_PAGE_SIZE + size v / CITRA_PAGE_SIZE))
    by (clear H Hms Hr; unfold CITRA_PAGE_SIZE in *; zcases; simpl; done || lia).
  rewrite C. destruct (_ && _) eqn:G; [|done]. unfold page_shows, attr_of, mapped_page in *. unfold r, ty in H.
  destruct (type v) eqn:T; cbn [bool_decide andb] in H.
  - rewrite bool_decide_false in H by done. injection H as -> ->. split; [done|]. by rewrite page_after_null.
  - rewrite bool_decide_true in H by done. cbn [andb] in H.
    destruct (IsCached _ _); injection H as -> ->; [done|]. split; [done|].
    clear Hms Hr. destruct (backing_memory v) as [[b|] o]; [|done].
    change (Some (b, o + 4096 * (p - base v / CITRA_PAGE_SIZE)) = Some (b, o + (p * CITRA_PAGE_SIZE - base v))).
    unfold CITRA_PAGE_SIZE in *. do 2 f_equal. lia.
Qed.
End pages.
