(* ===== verification/VmCorrect.v ===== *)
(** The operations of the address space as pointwise changes of the abstract one:
    mapping, unmapping, protecting, changing states, and the blocks behind a
    range. *)

From S2P Require Import Prelude Result Memory VmManager VmFacts.

Implicit Types (vm : VMManager) (v w : VirtualMemoryArea) (l mid post : list VirtualMemoryArea).

(** * Splitting *)

Definition left_of v (n : Z) : VirtualMemoryArea := v<|size := n|>.
Definition right_of v (n : Z) : VirtualMemoryArea :=
  mk_VMA (base v + n) (size v - n) (type v) (permissions v) (meminfo_state v)
    (match type v with
     | VMAFree => backing_memory v
     | VMABackingMemory => (backing_memory v)<|ref_offset := ref_offset (backing_memory v) + n|>
     end).

Lemma split_ok v n : vma_ok v -> aligned n -> 0 < n < size v ->
  vma_ok (left_of v n) ∧ vma_ok (right_of v n) ∧ mergeable (left_of v n) (right_of v n) = true ∧
  join (left_of v n) (right_of v n) = v.
Proof.
  intros (A1 & A2 & S & V) A Hn. destruct v as [b s t p m r]; unfold left_of, right_of, vma_ok; cbn in *.
  split_and!; try done; try lia.
  - destruct t; [done|]. unfold ref_ok in *. destruct (backing_mem r); [lia|done].
  - by apply Z.divide_add_r.
  - by apply Z.divide_sub_r.
  - destruct t; [done|]. destruct r as [[x|] o]; [|done]. unfold ref_ok in *. cbn in *. lia.
  - apply mergeable_spec. cbn. split_and!; try done. intros ->. destruct r as [[x|] o]; done.
  - unfold join. cbn. f_equal. lia.
Qed.

Lemma split_right_eq v n : vma_ok v -> 0 < n < size v -> 0 <= base v -> base v + size v <= MAX_ADDRESS ->
  split_right v n = Some (right_of v n).
Proof.
  intros (_ & _ & _ & V) Hn B1 B2. destruct v as [vb vs t p m r]. unfold split_right, right_of, MAX_ADDRESS in *.
  cbn in *. rewrite !uwrap_id by (unfold in_range; lia). destruct t; [done|].
  destruct r as [[b|] o]; [|done]. unfold ref_ok in V. cbn in V.
  unfold ref_add, GetSize. cbn [backing_mem ref_offset]. rewrite uwrap_id by (unfold in_range; lia).
  rewrite (proj2 (Z.ltb_lt _ _)) by lia. cbn. rewrite uwrap_id by (unfold in_range; lia). done.
Qed.

Lemma SplitVMA_eq vm l1 v l2 n : space (vma_map vm) -> vma_map vm = l1 ++ v :: l2 -> aligned n -> 0 < n < size v ->
  SplitVMA vm (base v) n = Some (base v + n, with_map vm (l1 ++ left_of v n :: right_of v n :: l2)).
Proof.
  intros T E A Hn. unfold SplitVMA. rewrite (vma_at_middle _ _ _ _ T E). cbn [mbind option_bind].
  pose proof T as T'. unfold space in T'. rewrite E in T'.
  destruct (proj1 (tiles_middle _ _ _ _ _) T') as (T1 & V & T2).
  pose proof (space_bounds _ v T' ltac:(set_solver)) as B. destruct (split_ok v n V A Hn) as (L & R & M & J).
  rewrite (proj2 (Z.ltb_lt _ _)), (proj2 (Z.ltb_lt 0 n)) by lia. cbn [andb].
  rewrite split_right_eq by (done || lia). cbn [mbind option_bind].
  change (v<|size := n|>) with (left_of v n).
  rewrite CanBeMergedWith_eq; [|done|change (0 <= base v + n < 2 ^ 32); unfold MAX_ADDRESS in *; lia].
  cbn [mbind option_bind]. rewrite M. rewrite (set_vma_middle _ l1 v (left_of v n) l2) by done.
  change (Some (base v + n, with_map vm (emplace (right_of v n) (l1 ++ left_of v n :: l2)))
          = Some (base v + n, with_map vm (l1 ++ left_of v n :: right_of v n :: l2))).
  do 3 f_equal. change (left_of v n :: l2) with ([left_of v n] ++ l2). rewrite app_assoc.
  rewrite (emplace_middle 0 (base v + n)).
  - by rewrite <- app_assoc.
  - apply tiles_app. exists (base v). by split.
  - done.
  - intros x Hx. change (base v + n < base x). pose proof (tiles_in _ _ _ x T2 Hx). lia.
Qed.

Lemma same_view_split v n l : vma_ok v -> aligned n -> 0 < n < size v ->
  same_view (left_of v n :: right_of v n :: l) (v :: l).
Proof.
  intros V A Hn. destruct (split_ok v n V A Hn) as (L & R & M & J).
  change (same_view ([left_of v n; right_of v n] ++ l) ([v] ++ l)).
  rewrite same_view_join; [by rewrite J|done..].
Qed.

Lemma space_split l1 v n l2 : space (l1 ++ v :: l2) -> aligned n -> 0 < n < size v ->
  space (l1 ++ left_of v n :: right_of v n :: l2).
Proof.
  intros (T1 & V & T2)%tiles_middle A Hn. destruct (split_ok v n V A Hn) as (L & R & _).
  apply tiles_middle. split; [done|]. split; [done|]. split; [done|]. split; [done|].
  change (size (left_of v n)) with n. change (base (left_of v n)) with (base v). change (size (right_of v n)) with (size v - n).
  by replace (base v + n + (size v - n)) with (base v + size v) by lia.
Qed.

(** * Cutting at an address *)

Fixpoint cut (a : Z) l : list VirtualMemoryArea :=
  match l with
  | [] => []
  | v :: l =>
      if (base v <? a) && (a <? base v + size v)
      then left_of v (a - base v) :: right_of v (a - base v) :: l
      else v :: cut a l
  end.

Lemma cut_below from m a l1 l2 : tiles from m l1 -> m <= a -> cut a (l1 ++ l2) = l1 ++ cut a l2.
Proof.
  revert from. induction l1 as [|v l1 IH]; intros from; [done|]. intros (E & V & T) Ha. cbn [app cut].
  pose proof (tiles_le _ _ _ T). rewrite (IH _ T Ha). zcases; simpl; done || lia.
Qed.

Lemma cut_end from m a l : tiles from m l -> m <= a -> cut a l = l.
Proof. intros T Ha. rewrite <- (app_nil_r l) at 1. by rewrite (cut_below _ _ _ _ _ T Ha), app_nil_r. Qed.

Lemma cut_inside from to a l1 v l2 : tiles from to (l1 ++ v :: l2) -> base v < a < base v + size v ->
  cut a (l1 ++ v :: l2) = l1 ++ left_of v (a - base v) :: right_of v (a - base v) :: l2.
Proof.
  intros (T1 & _)%tiles_middle Ha. rewrite (cut_below _ _ _ _ _ T1) by lia. cbn [cut].
  rewrite (proj2 (Z.ltb_lt _ _)), (proj2 (Z.ltb_lt a _)) by lia. done.
Qed.

Lemma cut_above from to a l : tiles from to l -> a <= from -> cut a l = l.
Proof.
  revert from. induction l as [|v l IH]; intros from; [done|]. intros (E & (_ & _ & ? & _) & T) Ha. cbn [cut].
  rewrite (IH _ T) by lia. zcases; simpl; done || lia.
Qed.

Lemma cut_boundary from to a l1 v l2 : tiles from to (l1 ++ v :: l2) -> base v = a ->
  cut a (l1 ++ v :: l2) = l1 ++ v :: l2.
Proof.
  intros (T1 & V & T2)%tiles_middle <-. rewrite (cut_below _ _ _ _ _ T1) by lia.
  f_equal. by apply (cut_above (base v) to); [by split|].
Qed.

(** A cut tiling falls into what is below the address and what is not. *)
Lemma cut_ok from to a l : tiles from to l -> aligned a -> aligned from -> from <= a <= to ->
  same_view (cut a l) l ∧ ∃ pre post, cut a l = pre ++ post ∧ tiles from a pre ∧ tiles a to post.
Proof.
  revert from. induction l as [|v l IH]; intros from T A F Ha.
  - simpl in T. subst. split; [done|]. exists [], []. split; [done|]. simpl. lia.
  - destruct T as (E & V & T). cbn [cut]. destruct (_ && _) eqn:B.
    + split; [apply same_view_split; [done| |lia]|].
      { apply Z.divide_sub_r; [done|by rewrite E]. }
      destruct (split_ok v (a - base v) V) as (L & R & _); [apply Z.divide_sub_r; [done|by rewrite E]|lia|].
      exists [left_of v (a - base v)], (right_of v (a - base v) :: l). split; [done|]. cbn [tiles].
      change (base (left_of v (a - base v))) with (base v). change (size (left_of v (a - base v))) with (a - base v).
      change (base (right_of v (a - base v))) with (base v + (a - base v)).
      change (size (right_of v (a - base v))) with (size v - (a - base v)).
      split_and!; try done; try lia. by replace (a + (size v - (a - base v))) with (from + size v) by lia.
    + destruct (decide (a <= base v)).
      * rewrite (cut_above _ _ _ _ T) by (destruct V as (_ & _ & ? & _); lia). split; [done|].
        exists [], (v :: l). split; [done|]. split; [simpl; lia|]. split; [lia|]. split; [done|].
        by replace (a + size v) with (from + size v) by lia.
      * pose proof V as (_ & A2 & _). destruct (IH _ T A) as (S & pre & post & Ec & T1 & T2).
        { by apply Z.divide_add_r. } { lia. }
        split; [by rewrite S|]. rewrite Ec. by exists (v :: pre), post.
Qed.

Lemma cut_seams a l : seams l -> (∀ v, v ∈ l -> base v < a < base v + size v -> type v ≠ VMAFree) -> seams (cut a l).
Proof.
  intros S H. assert (G : ∀ l1 v l2, l = l1 ++ v :: l2 -> base v < a < base v + size v ->
    seams (l1 ++ left_of v (a - base v) :: right_of v (a - base v) :: l2)).
  { intros l1 v l2 -> Hv. specialize (H v ltac:(set_solver) Hv). apply seams_middle in S as (S1 & S2 & S3 & S4).
    apply seams_middle. split_and!; [done| |done|].
    - split; [|done]. destruct l2 as [|y l2]; [done|]. exact (S4 y eq_refl).
    - intros x [= <-] [F _]. by apply H. }
  clear H. revert G S. induction l as [|v l IH]; [done|]. intros G S. cbn [cut]. destruct (_ && _) eqn:B.
  - apply (G [] v l); [done|lia].
  - change (seams ([v] ++ cut a l)). apply seams_app. split_and!; [done| |].
    + apply IH; [|exact (proj1 (proj2 (proj1 (seams_app [v] l) S)))]. intros l1 w l2 -> Hw.
      exact (proj1 (proj2 (proj1 (seams_app [v] _) (G (v :: l1) w l2 eq_refl Hw)))).
    + intros x y [= <-] Hy. destruct l as [|w l]; [done|]. destruct S as [S _]. cbn [cut] in Hy.
      destruct ((base w <? a) && (a <? base w + size w)); injection Hy as <-; exact S.
Qed.

(** * Changing one area *)

(** The page table still shows the areas when they keep their addresses' attributes. *)
Lemma table_with_map vm l : table_ok vm -> same_view (vma_map vm) l -> table_ok (with_map vm l).
Proof. intros T S p Hp. change (view (with_map vm l)) with (attr_at l). rewrite <- S. by apply T. Qed.

(** A change keeps the place of an area and its well-formedness. *)
Definition keeps (f : VirtualMemoryArea -> VirtualMemoryArea) v : Prop :=
  base (f v) = base v ∧ size (f v) = size v ∧ vma_ok (f v).

Section changes.
Context `{gpu : GPU}.

Lemma space_change l1 v w l2 : space (l1 ++ v :: l2) -> base w = base v -> size w = size v -> vma_ok w ->
  space (l1 ++ w :: l2).
Proof. intros (T1 & V & T2)%tiles_middle E1 E2 W. apply tiles_middle. by rewrite E1, E2. Qed.

Lemma change_vma_eq f vm l1 v l2 : space (vma_map vm) -> table_ok vm -> vma_map vm = l1 ++ v :: l2 -> keeps f v ->
  ∃ vm', change_vma f vm (base v) = Some (base (snd (fst (merged l1 (f v) l2))), vm') ∧ vm_frame vm vm' ∧
    table_ok vm' ∧ vma_map vm' = let '(l1, w, l2) := merged l1 (f v) l2 in l1 ++ w :: l2.
Proof.
  intros T P E (K1 & K2 & K3). unfold change_vma. rewrite (vma_at_middle _ _ _ _ T E). cbn [mbind option_bind].
  rewrite (set_vma_middle _ l1 v (f v) l2) by done. unfold space in T. rewrite E in T.
  pose proof (space_bounds _ v T ltac:(set_solver)) as B. set (vm1 := with_map vm (l1 ++ f v :: l2)).
  destruct (Update_spec vm1 (f v) K3 ltac:(lia) ltac:(lia)) as (vm2 & -> & M & F & H). cbn [mbind option_bind].
  assert (T2 : space (l1 ++ f v :: l2)) by (by apply (space_change _ v)).
  assert (P2 : table_ok vm2).
  { intros p Hp. unfold view. rewrite M. change (vma_map vm1) with (l1 ++ f v :: l2). rewrite (ot_marker _ _ _ (proj2 (proj2 F))).
    specialize (H p Hp). destruct (covers (f v) (p * CITRA_PAGE_SIZE)) eqn:C.
    - rewrite (attr_at_middle 0 MAX_ADDRESS); [done|done|]. unfold covers in C. lia.
    - apply (page_shows_ext _ _ _ _ _ H). change (table_of vm1) with (table_of vm). specialize (P p Hp).
      unfold view in P. rewrite E in P. rewrite attr_at_app in *. cbn [attr_at] in *. rewrite C.
      unfold covers in *. by rewrite K1, K2 in C; rewrite C in P. }
  rewrite <- K1. rewrite (MergeAdjacent_eq vm2 l1 (f v) l2); [|unfold space; by rewrite M|done].
  pose proof (merged_view l1 (f v) l2 T2) as S. destruct (merged l1 (f v) l2) as [[l1' w] l2']. eexists. split; [done|]. split_and!.
  - destruct F as (F1 & F2 & F3). done.
  - apply table_with_map; [done|]. rewrite M. exact S.
  - done.
Qed.

(** * The loop over a range *)

(** What the loop needs of a change: it is the identity on an area that merges
    with a changed one. *)
Definition absorbs (f : VirtualMemoryArea -> VirtualMemoryArea) : Prop :=
  ∀ v n, vma_ok n -> mergeable (f v) n = true -> f n = n.

Lemma next_middle l1 w l2 : space (l1 ++ w :: l2) -> next (base w) (l1 ++ w :: l2) = Some (base <$> head l2).
Proof. intros T. unfold next. by rewrite (locate_middle _ _ _ _ _ T). Qed.

Lemma over_range_end (op : VMManager -> Z -> option (Z * VMManager)) fuel vm post target_end :
  (∀ v, v ∈ post -> target_end <= base v) ->
  over_range op fuel vm (base <$> head post) target_end = Some vm.
Proof.
  intros H. destruct post as [|v post]; [by destruct fuel|]. specialize (H v ltac:(set_solver)).
  destruct fuel; simpl; zcases; done || lia.
Qed.

Lemma over_range_spec f op target_end : (∀ vm it, is_locked vm = false -> op vm it = change_vma f vm it) ->
  absorbs f -> ∀ fuel vm l1 mid post,
  space (vma_map vm) -> table_ok vm -> seams (vma_map vm) -> is_locked vm = false ->
  vma_map vm = l1 ++ mid ++ post ->
  (∀ v, v ∈ mid -> keeps f v ∧ base v < target_end) -> (∀ v, v ∈ post -> target_end <= base v) ->
  (length mid <= fuel)%nat ->
  ∃ vm', over_range op fuel vm (base <$> head (mid ++ post)) target_end = Some vm' ∧ vm_frame vm vm' ∧
    vm_ok vm' ∧ same_view (l1 ++ (f <$> mid) ++ post) (vma_map vm').
Proof.
  intros Hop Hf. induction fuel as [|fuel IH]; intros vm l1 mid post T P S U E Hm Hp Hl.
  { destruct mid; [|simpl in Hl; lia]. rewrite over_range_end by done. exists vm. split_and!; try done. by rewrite E. }
  destruct mid as [|v mid]; [rewrite over_range_end by done; exists vm; split_and!; try done; by rewrite E|].
  destruct (Hm v ltac:(set_solver)) as [K Lv]. cbn [app head fmap option_fmap option_map over_range].
  cbn [app] in E.
  rewrite (proj2 (Z.ltb_lt _ _)) by done. rewrite Hop by done.
  assert (T' : space (l1 ++ f v :: mid ++ post)).
  { destruct K as (? & ? & ?). apply (space_change _ v); try done. by rewrite <- E. }
  destruct (change_vma_eq f vm l1 v (mid ++ post) T P E K) as (vm1 & -> & F & P1 & E1). cbn [mbind option_bind].
  assert (S1 : seams (vma_map vm1)).
  { rewrite E1. rewrite E in S. apply seams_middle in S as (S1 & S2 & _).
    pose proof (merged_seams _ _ _ T' S1 S2) as H. by destruct (merged l1 (f v) (mid ++ post)) as [[? ?] ?]. }
  pose proof (merged_ok _ _ _ T') as G. destruct (merged l1 (f v) (mid ++ post)) as [[l1' w] rest].
  destruct G as (Tr & _ & G). cbn [fst snd]. rewrite E1, next_middle by done. cbn [mbind option_bind].
  assert (U1 : is_locked vm1 = false) by (by rewrite (proj1 (proj2 F))).
  assert (T1 : space (vma_map vm1)) by (unfold space; by rewrite E1).
  change (l1' ++ w :: rest) with (l1' ++ [w] ++ rest) in E1. rewrite app_assoc in E1. destruct G as [[-> V]|(n & En & M & V)].
  - destruct (IH vm1 (l1' ++ [w]) mid post T1 P1 S1 U1 E1) as (vm2 & -> & F2 & O2 & V2).
    { intros x Hx. apply Hm. by right. } { exact Hp. } { simpl in Hl. lia. }
    exists vm2. split; [reflexivity|]. split; [by etrans|]. split; [exact O2|].
    rewrite <- V2, <- V, <- app_assoc. reflexivity.
  - destruct mid as [|n' mid]; cbn [app] in En.
    + subst post. destruct (IH vm1 (l1' ++ [w]) [] rest T1 P1 S1 U1 E1) as (vm2 & E2 & F2 & O2 & V2).
      { intros x Hx. set_solver. } { intros x Hx. apply Hp. by right. } { simpl. lia. }
      cbn [app] in E2. rewrite E2. exists vm2. split; [reflexivity|]. split; [by etrans|]. split; [exact O2|].
      rewrite <- V2, <- V, <- app_assoc. reflexivity.
    + injection En as -> <-.
      destruct (IH vm1 (l1' ++ [w]) mid post T1 P1 S1 U1 E1) as (vm2 & -> & F2 & O2 & V2).
      { intros x Hx. apply Hm. by do 2 right. } { exact Hp. } { simpl in *. lia. }
      exists vm2. split; [reflexivity|]. split; [by etrans|]. split; [exact O2|].
      rewrite <- V2, <- V, <- app_assoc. cbn [fmap list_fmap app].
      apply tiles_middle in T' as (_ & _ & _ & N & _). rewrite (Hf v n N M). reflexivity.
Qed.
End changes.

(** * Finding and testing a range *)

Lemma FindVMA_at vm l1 v l2 a : space (vma_map vm) -> vma_map vm = l1 ++ v :: l2 -> base v <= a < base v + size v ->
  FindVMA vm a = Some (Some v).
Proof.
  intros T E Hv. unfold space in T. rewrite E in T. pose proof (space_bounds _ v T ltac:(set_solver)).
  unfold FindVMA. rewrite (proj2 (Z.leb_gt _ _)) by lia. by rewrite E, (last_below_middle _ _ _ _ _ _ T Hv).
Qed.

Lemma FindVMA_eq vm a : space (vma_map vm) -> 0 <= a < MAX_ADDRESS ->
  ∃ l1 v l2, vma_map vm = l1 ++ v :: l2 ∧ base v <= a < base v + size v ∧ FindVMA vm a = Some (Some v).
Proof.
  intros T Ha. destruct (tiles_find _ _ _ _ T Ha) as (l1 & v & l2 & E & Hv). exists l1, v, l2.
  split_and!; try lia; [done|by apply (FindVMA_at vm l1 v l2)].
Qed.

Lemma tiles_split_base from to l a : tiles from to l ->
  ∃ l1 l2, l = l1 ++ l2 ∧ (∀ x, x ∈ l1 -> base x < a) ∧ (∀ x, x ∈ l2 -> a <= base x).
Proof.
  revert from. induction l as [|v l IH]; intros from; [intros _; exists [], []; set_solver|]. intros (E & V & T).
  destruct (decide (base v < a)).
  - destruct (IH _ T) as (l1 & l2 & -> & H1 & H2). exists (v :: l1), l2. set_solver.
  - exists [], (v :: l). split; [done|]. split; [set_solver|]. intros x [->|Hx]%elem_of_cons; [lia|].
    pose proof (tiles_in _ _ _ x T Hx). destruct V as (_ & _ & ? & _). lia.
Qed.

Lemma all_until_eq ok l1 l2 : (∀ x y, x ∈ l1 -> head l2 = Some y -> base x ≠ base y) ->
  all_until ok (base <$> head l2) (l1 ++ l2) = Some (forallb ok l1).
Proof.
  induction l1 as [|x l1 IH]; intros H.
  - destruct l2 as [|y l2]; [done|]. cbn. by rewrite decide_True.
  - cbn [app all_until forallb]. rewrite decide_False.
    + destruct (ok x); [|done]. apply IH. intros y z Hy. apply H. by right.
    + destruct l2 as [|y l2]; [done|]. cbn. intros [= E]. by apply (H x y ltac:(by left) eq_refl).
Qed.

(** A test of the areas of a range is a test of their attributes at its addresses. *)
Lemma all_between_eq ok (P : Attr -> Prop) l l1 v l2 target target_end :
  (∀ x a, ok x = true <-> P (attr_of x a)) ->
  space l -> l = l1 ++ v :: l2 -> base v <= target < base v + size v -> target < target_end <= MAX_ADDRESS ->
  ∃ b, all_between ok (base v) (lower_bound target_end l) l = Some b ∧
    (b = true <-> ∀ a, target <= a < target_end -> ∃ x, attr_at l a = Some x ∧ P x).
Proof.
  intros Hok T E Hv Ht. destruct (proj1 (tiles_middle 0 MAX_ADDRESS l1 v l2)) as (T1 & V & T2);
    [unfold space in T; by rewrite <- E|].
  destruct (tiles_split_base _ _ _ target_end T2) as (m & r & -> & Hm & Hr).
  assert (L : lower_bound target_end l = base <$> head r).
  { pose proof (proj1 (tiles_app _ _ _ _) T2) as (k & Tm & Tr). rewrite E.
    change (l1 ++ v :: m ++ r) with (l1 ++ (v :: m) ++ r). rewrite app_assoc.
    apply (lower_bound_app 0 k MAX_ADDRESS); [|done| |done].
    - apply tiles_middle. done.
    - intros x [Hx|[->|Hx]%elem_of_cons]%elem_of_app; [|lia|by apply Hm].
      destruct (tiles_in _ _ _ _ T1 Hx) as ((_ & _ & ? & _) & ?). lia. }
  unfold all_between. rewrite L, E. rewrite (locate_middle 0 MAX_ADDRESS) by (unfold space in T; by rewrite <- E).
  cbn [mbind option_bind]. change (v :: m ++ r) with ((v :: m) ++ r). rewrite all_until_eq.
  2:{ intros x y Hx Hy. assert (target_end <= base y) by (destruct r; [done|injection Hy as ->; apply Hr; by left]).
      apply elem_of_cons in Hx as [->|Hx]; [lia|]. specialize (Hm x Hx). lia. }
  eexists. split; [done|]. change (l1 ++ (v :: m) ++ r) with (l1 ++ v :: m ++ r). rewrite <- E, forallb_forall. pose proof (tiles_le _ _ _ T1) as B0. split.
  - intros H a Ha. destruct (tiles_find _ _ _ a T ltac:(unfold MAX_ADDRESS in *; lia)) as (k1 & x & k2 & Ex & Hx).
    exists (attr_of x a). unfold space in T. rewrite Ex in T |- *. rewrite (attr_at_middle _ _ _ _ _ _ T Hx). split; [done|].
    apply Hok, H, list_elem_of_In.
    assert (Hin : x ∈ l1 ++ (v :: m) ++ r) by (change (x ∈ l1 ++ v :: m ++ r); rewrite <- E, Ex; set_solver +).
    rewrite !elem_of_app in Hin. destruct Hin as [Hin|[Hin|Hin]]; [|done|].
    + pose proof (tiles_in _ _ _ _ T1 Hin). lia.
    + specialize (Hr x Hin). lia.
  - intros H x Hx%list_elem_of_In. set (a := Z.max target (base x)).
    assert (Hin : x ∈ l) by (rewrite E; change (x ∈ l1 ++ (v :: m) ++ r); set_solver).
    assert (Hxa : base x <= a < base x + size x).
    { unfold a. apply elem_of_cons in Hx as [->|Hx]; [lia|]. pose proof (tiles_in _ _ _ x T2 ltac:(set_solver)) as ((_ & _ & ? & _) & ?). lia. }
    destruct (H a) as (y & Hy & Py).
    { unfold a. apply elem_of_cons in Hx as [->|Hx]; [lia|]. specialize (Hm x Hx). lia. }
    apply list_elem_of_split in Hin as (k1 & k2 & Ex). unfold space in T. rewrite Ex in T, Hy.
    rewrite (attr_at_middle _ _ _ _ _ _ T Hxa) in Hy. injection Hy as <-. by apply (Hok x a).
Qed.

(** * Carving a range *)

Section carving.
Context `{gpu : GPU}.

Lemma cut_at vm v l1 l2 a : space (vma_map vm) -> vma_map vm = l1 ++ v :: l2 -> base v <= a < base v + size v ->
  aligned a ->
  (if negb (a =? base v) then SplitVMA vm (base v) (u32 (a - base v)) else Some (base v, vm))
  = Some (a, with_map vm (cut a (vma_map vm))).
Proof.
  intros T E Ha A. pose proof T as T'. unfold space in T'. rewrite E in T'.
  pose proof (space_bounds _ v T' ltac:(set_solver)) as B. destruct (Z.eqb_spec a (base v)) as [->|N]; cbn [negb].
  - rewrite E, (cut_boundary 0 MAX_ADDRESS), <- E, with_map_id by done. done.
  - rewrite uwrap_id by (unfold in_range, MAX_ADDRESS in *; lia).
    destruct (proj1 (tiles_middle _ _ _ _ _) T') as (_ & V & _).
    rewrite (SplitVMA_eq vm l1 v l2 (a - base v) T E); [|apply Z.divide_sub_r; [exact A|apply V]|lia].
    rewrite E, (cut_inside 0 MAX_ADDRESS) by (done || lia). by replace (base v + (a - base v)) with a by lia.
Qed.

Lemma carve_ends_eq vm v l1 l2 target target_end : space (vma_map vm) -> vma_map vm = l1 ++ v :: l2 ->
  base v <= target < base v + size v -> aligned target -> aligned target_end -> target < target_end <= MAX_ADDRESS ->
  carve_ends vm v target target_end
  = Some (target, with_map vm (cut target_end (cut target (vma_map vm)))).
Proof.
  intros T E Hv A1 A2 Ht. unfold carve_ends. rewrite (cut_at vm v l1 l2) by done. cbn [mbind option_bind].
  pose proof T as T'. unfold space in T'. rewrite E in T'. pose proof (space_bounds _ v T' ltac:(set_solver)) as B.
  destruct (cut_ok _ _ target _ T A1 ltac:(by exists 0) ltac:(lia)) as (_ & pre & post & Ec & Tp & Tq).
  set (vm1 := with_map vm (cut target (vma_map vm))).
  assert (T1 : space (vma_map vm1)).
  { change (space (cut target (vma_map vm))). rewrite Ec. apply tiles_app. by exists target. }
  destruct (decide (target_end = MAX_ADDRESS)) as [->|N].
  - unfold FindVMA. rewrite Z.leb_refl. cbn [mbind option_bind].
    change (cut target (vma_map vm)) with (vma_map vm1). by rewrite (cut_end _ _ _ _ T1).
  - destruct (FindVMA_eq vm1 target_end T1 ltac:(lia)) as (k1 & e & k2 & Ee & He & ->). cbn [mbind option_bind].
    pose proof (cut_at vm1 e k1 k2 target_end T1 Ee He A2) as K.
    destruct (negb (target_end =? base e)); [rewrite K; done|].
    change (Some (target, vm1) = Some (target, with_map vm1 (cut target_end (vma_map vm1)))). congruence.
Qed.

Lemma page_aligned_spec x : page_aligned x = true <-> aligned x.
Proof.
  unfold page_aligned, CITRA_PAGE_MASK, CITRA_PAGE_SIZE. change (0x1000 - 1) with (2 ^ 12 - 1).
  rewrite land_mask by done. rewrite Z.eqb_eq. apply Z.mod_divide. done.
Qed.

(** The areas a range is carved into. *)
Definition carved l (target target_end : Z) (pre mid post : list VirtualMemoryArea) : Prop :=
  cut target_end (cut target l) = pre ++ mid ++ post ∧
  tiles 0 target pre ∧ tiles target target_end mid ∧ tiles target_end MAX_ADDRESS post ∧
  same_view l (pre ++ mid ++ post).

Lemma carved_exists l target target_end : space l -> aligned target -> aligned target_end ->
  0 <= target -> target < target_end <= MAX_ADDRESS -> ∃ pre mid post, carved l target target_end pre mid post.
Proof.
  intros T A1 A2 H0 Ht. destruct (cut_ok _ _ target _ T A1 ltac:(by exists 0) ltac:(lia)) as (S1 & pre & q & E1 & T1 & T2).
  destruct (cut_ok _ _ target_end _ T2 A2 A1 ltac:(lia)) as (S2 & mid & post & E2 & T3 & T4).
  exists pre, mid, post. unfold carved. rewrite E1, (cut_below 0 target) by (done || lia). rewrite E2.
  split_and!; try done. by rewrite <- S1, E1, <- E2, S2.
Qed.

(** Every address of a range has attributes with a property. *)
Definition all_at vm (P : Attr -> Prop) (target target_end : Z) : Prop :=
  ∀ a, target <= a < target_end -> ∃ x, view vm a = Some x ∧ P x.
Definition is_mapped (x : Attr) : Prop := at_type x ≠ VMAFree.
#[export] Instance is_mapped_dec x : Decision (is_mapped x).
Proof. unfold is_mapped. apply _. Defined.
#[export] Instance all_at_dec vm P `{∀ x, Decision (P x)} target target_end : Decision (all_at vm P target target_end).
Proof.
  assert (D : ∀ a, Decision (match view vm a with Some x => P x | None => False end)) by (intros a; destruct (view vm a); apply _).
  destruct (decide (Forall (fun a => match view vm a with Some x => P x | None => False end) (seqZ target (target_end - target)))) as [F|N].
  - left. intros a Ha. rewrite Forall_forall in F. specialize (F a ltac:(apply elem_of_seqZ; lia)).
    destruct (view vm a) as [x|]; [by exists x|done].
  - right. intros K. apply N, Forall_forall. intros a Ha%elem_of_seqZ. by destruct (K a ltac:(lia)) as (x & -> & Px).
Defined.

Lemma CarveVMARange_spec vm target len : space (vma_map vm) -> aligned target -> aligned len -> 0 <= target -> 0 < len ->
  target + len <= MAX_ADDRESS ->
  ∃ b : bool, (b = true <-> all_at vm is_mapped target (target + len)) ∧
    CarveVMARange vm target len =
      Some (if b then (RV_val target, with_map vm (cut (target + len) (cut target (vma_map vm))))
            else (RV_err ResultInvalidAddressState, vm)).
Proof.
  intros T A1 A2 H0 Hl He. unfold CarveVMARange.
  rewrite (proj2 (page_aligned_spec target)), (proj2 (page_aligned_spec len)) by done. cbn [andb].
  rewrite uwrap_id by (unfold in_range, MAX_ADDRESS in *; lia).
  rewrite (proj2 (Z.leb_le _ _)), (proj2 (Z.leb_le (target + len) _)), (proj2 (Z.ltb_lt _ _)) by lia. cbn [andb].
  destruct (FindVMA_eq vm target T ltac:(lia)) as (l1 & v & l2 & E & Hv & ->). cbn [mbind option_bind].
  destruct (all_between_eq (fun v => bool_decide (type v ≠ VMAFree)) is_mapped (vma_map vm) l1 v l2 target (target + len))
    as (b & -> & Hb); try done; [intros x a; apply bool_decide_eq_true|lia|].
  cbn [mbind option_bind]. exists b. split; [exact Hb|]. destruct b; [|done].
  rewrite (carve_ends_eq vm v l1 l2); [done|done|done|done|done| |lia]. by apply Z.divide_add_r.
Qed.

Lemma seams_carved vm target target_end : space (vma_map vm) -> seams (vma_map vm) -> aligned target ->
  0 <= target < target_end -> target_end <= MAX_ADDRESS -> all_at vm is_mapped target target_end ->
  seams (cut target_end (cut target (vma_map vm))).
Proof.
  intros T S A1 Ht He M.
  destruct (cut_ok _ _ target _ T A1 ltac:(by exists 0) ltac:(lia)) as (V & pre & post & E & T1 & T2).
  assert (K : ∀ l v a, space l -> same_view l (vma_map vm) -> v ∈ l -> base v <= a < base v + size v ->
                target <= a < target_end -> type v ≠ VMAFree).
  { intros l v a Tl Sl (k1 & k2 & ->)%list_elem_of_split Ha Hr. destruct (M a Hr) as (x & Hx & Mx).
    unfold view in Hx. rewrite <- (Sl a), (attr_at_middle _ _ _ _ _ _ Tl Ha) in Hx. by injection Hx as <-. }
  assert (T' : space (cut target (vma_map vm))) by (rewrite E; apply tiles_app; by exists target).
  apply cut_seams; [apply cut_seams; [done|]|]; intros v Hv Hb.
  - apply (K (vma_map vm) v target); done || lia.
  - apply (K (cut target (vma_map vm)) v (Z.max target (base v))); done || lia.
Qed.

Lemma attr_at_fmap f g from to l a : tiles from to l -> (∀ v, v ∈ l -> keeps f v) ->
  (∀ v, v ∈ l -> attr_of (f v) a = g (attr_of v a)) -> attr_at (f <$> l) a = g <$> attr_at l a.
Proof.
  intros _ K G. induction l as [|v l IH]; [done|]. destruct (K v ltac:(by left)) as (E1 & E2 & _).
  cbn [fmap list_fmap attr_at]. unfold covers. rewrite E1, E2.
  destruct (_ && _); [cbn; f_equal; apply G; by left|]. apply IH; intros x Hx; [apply K|apply G]; by right.
Qed.

(** A change of the areas of a mapped range is a change of the attributes of its
    addresses. *)
Lemma range_change f g op vm target target_end :
  (∀ vm it, is_locked vm = false -> op vm it = change_vma f vm it) -> absorbs f ->
  (∀ v, vma_ok v -> type v ≠ VMAFree -> keeps f v) ->
  (∀ v a, type v ≠ VMAFree -> attr_of (f v) a = g (attr_of v a)) ->
  vm_ok vm -> aligned target -> aligned target_end -> 0 <= target < target_end -> target_end <= MAX_ADDRESS ->
  all_at vm is_mapped target target_end ->
  let vm1 := with_map vm (cut target_end (cut target (vma_map vm))) in
  ∃ vm', over_range op (range_fuel vm1) vm1 (Some target) target_end = Some vm' ∧ vm_frame vm vm' ∧ vm_ok vm' ∧
    ∀ a, view vm' a = if (target <=? a) && (a <? target_end) then g <$> view vm a else view vm a.
Proof.
  intros Hop Hf Hk Hg [T S P U] A1 A2 Ht He M vm1.
  destruct (carved_exists _ target target_end T A1 A2 ltac:(lia) ltac:(lia)) as (pre & mid & post & E & T1 & T2 & T3 & V).
  assert (Hm : ∀ v, v ∈ mid -> keeps f v ∧ base v < target_end ∧ type v ≠ VMAFree).
  { intros v Hv. destruct (tiles_in _ _ _ _ T2 Hv) as (O & B). pose proof O as (_ & _ & Sz & _).
    assert (type v ≠ VMAFree); [|split_and!; [by apply Hk|lia|done]].
    destruct (M (base v) ltac:(lia)) as (x & Hx & Mx). unfold view in Hx. rewrite (V (base v)) in Hx.
    rewrite attr_at_app, (attr_at_outside _ _ _ _ T1), attr_at_app in Hx by lia.
    apply list_elem_of_split in Hv as (k1 & k2 & ->). rewrite (attr_at_middle _ _ _ _ _ _ T2) in Hx by lia.
    by injection Hx as <-. }
  assert (Hh : Some target = base <$> head (mid ++ post)).
  { destruct mid as [|v mid]; [simpl in T2; lia|]. destruct T2 as (<- & _). done. }
  destruct (over_range_spec f op target_end Hop Hf (range_fuel vm1) vm1 pre mid post) as (vm' & R & F & O & V').
  - change (space (cut target_end (cut target (vma_map vm)))). rewrite E. apply tiles_app. exists target.
    split; [done|]. apply tiles_app. by exists target_end.
  - apply table_with_map; [done|]. by rewrite E.
  - by apply seams_carved.
  - exact U.
  - exact E.
  - intros v Hv. destruct (Hm v Hv) as (? & ? & _). done.
  - intros v Hv. pose proof (tiles_in _ _ _ _ T3 Hv). lia.
  - unfold range_fuel. change (length mid <= length (cut target_end (cut target (vma_map vm))))%nat.
    rewrite E, !length_app. lia.
  - exists vm'. rewrite Hh. split_and!; [done| |done|].
    + done.
    + intros a. unfold view. rewrite <- (V' a), (V a), !attr_at_app.
      rewrite (attr_at_fmap f g target target_end); [|done|intros v Hv; by apply Hm|intros v Hv; by apply Hg, Hm].
      destruct (_ && _) eqn:B.
      * rewrite (attr_at_outside _ _ _ _ T1) by lia. destruct (attr_at mid a); [done|].
        cbn. by rewrite (attr_at_outside _ _ _ _ T3) by lia.
      * by rewrite (attr_at_outside _ _ _ _ T2) by lia.
Qed.
End carving.

(** * The operations *)

Section operations.
Context `{gpu : GPU}.

Definition in_interval (target target_end a : Z) : bool := (target <=? a) && (a <? target_end).
Lemma in_interval_spec target target_end a : in_interval target target_end a = true <-> target <= a < target_end.
Proof. unfold in_interval. lia. Qed.

Lemma unmapped_keeps v : vma_ok v -> keeps unmapped_vma v.
Proof. by intros (? & ? & ? & _). Qed.
Lemma unmapped_absorbs : absorbs unmapped_vma.
Proof.
  intros v n (_ & _ & _ & N) M. apply mergeable_spec in M as (_ & _ & M & _). change (VMAFree = type n) in M.
  rewrite <- M in N. destruct N as (N1 & N2 & N3). destruct n; cbn in *; subst. done.
Qed.

Lemma reprotect_keeps p v : vma_ok v -> type v ≠ VMAFree -> keeps (fun v => v<|permissions := p|>) v.
Proof.
  intros (A1 & A2 & A3 & A4) N. split; [done|]. split; [done|]. destruct v as [b s t pm m r]. unfold vma_ok in *; cbn in *.
  by destruct t.
Qed.
Lemma reprotect_absorbs p : absorbs (fun v => v<|permissions := p|>).
Proof. intros v n _ (M & _)%mergeable_spec. change (p = permissions n) in M. destruct n; cbn in *; subst; done. Qed.

Lemma restate_keeps st p v : vma_ok v -> type v ≠ VMAFree -> keeps (fun v => v<|permissions := p|><|meminfo_state := st|>) v.
Proof.
  intros (A1 & A2 & A3 & A4) N. split; [done|]. split; [done|]. destruct v as [b s t pm m r]. unfold vma_ok in *; cbn in *.
  by destruct t.
Qed.
Lemma restate_absorbs st p : absorbs (fun v => v<|permissions := p|><|meminfo_state := st|>).
Proof.
  intros v n _ (M1 & M2 & _)%mergeable_spec. change (p = permissions n) in M1. change (st = meminfo_state n) in M2.
  destruct n; cbn in *; subst; done.
Qed.

(** A free range lies in one area. *)
Lemma free_in_one vm l1 v l2 target target_end : space (vma_map vm) -> seams (vma_map vm) -> vma_map vm = l1 ++ v :: l2 ->
  base v <= target < base v + size v -> target_end <= MAX_ADDRESS ->
  (∀ a, target <= a < target_end -> ∃ x, view vm a = Some x ∧ at_type x = VMAFree) -> target_end <= base v + size v.
Proof.
  intros T S E Hv He H. destruct (decide (target_end <= base v + size v)) as [|N]; [done|]. exfalso.
  unfold space in T. unfold view in H. rewrite E in *. pose proof T as T0.
  apply tiles_middle in T as (_ & _ & T). apply seams_middle in S as (_ & _ & _ & S).
  destruct l2 as [|w l2]; [simpl in T; unfold MAX_ADDRESS in *; lia|]. apply (S w eq_refl).
  destruct T as (Ew & (_ & _ & Sw & _) & _). split.
  - destruct (H target ltac:(lia)) as (x & Hx & Ex). rewrite (attr_at_middle _ _ _ _ _ _ T0 Hv) in Hx. by injection Hx as <-.
  - destruct (H (base w) ltac:(lia)) as (x & Hx & Ex). change (l1 ++ v :: w :: l2) with (l1 ++ [v] ++ w :: l2) in *.
    rewrite app_assoc in *. rewrite (attr_at_middle _ _ _ _ _ _ T0) in Hx by lia. by injection Hx as <-.
Qed.

Lemma UnmapRange_spec vm target len : vm_ok vm -> aligned target -> aligned len -> 0 <= target -> 0 < len ->
  target + len <= MAX_ADDRESS ->
  ∃ r vm', UnmapRange vm target len = Some (r, vm') ∧ vm_ok vm' ∧ vm_frame vm vm' ∧
    (all_at vm is_mapped target (target + len) -> r = ResultSuccess ∧
       ∀ a, view vm' a = if in_interval target (target + len) a then Some free_attr else view vm a) ∧
    (¬ all_at vm is_mapped target (target + len) -> r = ResultInvalidAddressState ∧ vm' = vm).
Proof.
  intros O A1 A2 H0 Hl He. pose proof O as [T S P U]. unfold UnmapRange. rewrite U.
  destruct (CarveVMARange_spec vm target len T A1 A2 H0 Hl He) as (b & Hb & ->). cbn [mbind option_bind].
  destruct b; [|exists ResultInvalidAddressState, vm; split_and!; naive_solver]. pose proof (proj1 Hb eq_refl) as M.
  destruct (range_change unmapped_vma (fun _ => free_attr) Unmap vm target (target + len)) as (vm' & R & F & O' & V);
    try done; try lia; [intros vm0 it U0; unfold Unmap; by rewrite U0|apply unmapped_absorbs
      |intros v Ov _; by apply unmapped_keeps|by apply Z.divide_add_r|].
  rewrite uwrap_id by (unfold in_range, MAX_ADDRESS in *; lia). rewrite R. cbn [mbind option_bind].
  assert (V' : ∀ a, view vm' a = if in_interval target (target + len) a then Some free_attr else view vm a).
  { intros a. rewrite V. unfold in_interval. destruct (_ && _) eqn:B; [|done].
    destruct (M a ltac:(lia)) as (x & -> & _). done. }
  destruct (FindVMA_eq vm' target (vm_space _ O') ltac:(lia)) as (l1 & v & l2 & E & Hv & ->). cbn [mbind option_bind].
  assert (K : target + len <= base v + size v).
  { apply (free_in_one vm' l1 v l2 target); [apply O'..|done|done|done|]. intros a Ha. exists free_attr.
    rewrite V'. unfold in_interval. by rewrite (proj2 (Z.leb_le _ _)), (proj2 (Z.ltb_lt _ _)) by lia. }
  rewrite (proj2 (Z.leb_le _ _)) by (pose proof (space_bounds _ v (vm_space _ O') ltac:(rewrite E; set_solver)); lia).
  exists ResultSuccess, vm'. split_and!; naive_solver.
Qed.

(** C9: Unmapping an aligned range of the address space that is mapped throughout
    makes exactly its addresses free and leaves every other address as it was; a
    range with a free address is refused and nothing changes.  The areas still
    tile the space, no two free areas are adjacent, and the page table shows
    them; no assertion fails. *)
Theorem UnmapRange_correct vm target len : vm_ok vm -> aligned target -> aligned len -> 0 <= target -> 0 < len ->
  target + len <= MAX_ADDRESS ->
  ∃ r vm', UnmapRange vm target len = Some (r, vm') ∧ vm_ok vm' ∧ vm_frame vm vm' ∧
    (all_at vm is_mapped target (target + len) -> r = ResultSuccess ∧
       ∀ a, view vm' a = if in_interval target (target + len) a then Some free_attr else view vm a) ∧
    (¬ all_at vm is_mapped target (target + len) -> r = ResultInvalidAddressState ∧ vm' = vm).
Proof. apply UnmapRange_spec. Qed.

Lemma ReprotectRange_spec vm target len p : vm_ok vm -> aligned target -> aligned len -> 0 <= target -> 0 < len ->
  target + len <= MAX_ADDRESS ->
  ∃ r vm', ReprotectRange vm target len p = Some (r, vm') ∧ vm_ok vm' ∧ vm_frame vm vm' ∧
    (all_at vm is_mapped target (target + len) -> r = ResultSuccess ∧
       ∀ a, view vm' a = if in_interval target (target + len) a
                         then (fun x => x<|at_perms := p|>) <$> view vm a else view vm a) ∧
    (¬ all_at vm is_mapped target (target + len) -> r = ResultInvalidAddressState ∧ vm' = vm).
Proof.
  intros O A1 A2 H0 Hl He. pose proof O as [T S P U]. unfold ReprotectRange. rewrite U.
  destruct (CarveVMARange_spec vm target len T A1 A2 H0 Hl He) as (b & Hb & ->). cbn [mbind option_bind].
  destruct b; [|exists ResultInvalidAddressState, vm; split_and!; naive_solver]. pose proof (proj1 Hb eq_refl) as M.
  destruct (range_change (fun v => v<|permissions := p|>) (fun x => x<|at_perms := p|>)
    (fun vm it => Reprotect vm it p) vm target (target + len)) as (vm' & R & F & O' & V);
    try done; try lia; [intros vm0 it U0; unfold Reprotect; by rewrite U0|apply reprotect_absorbs
      |apply reprotect_keeps|by apply Z.divide_add_r|].
  rewrite uwrap_id by (unfold in_range, MAX_ADDRESS in *; lia). rewrite R. cbn [mbind option_bind].
  exists ResultSuccess, vm'. split_and!; try done; naive_solver.
Qed.

(** Reprotecting an aligned mapped range changes the permissions of exactly
    its addresses and nothing else; a range with a free address is refused and
    nothing changes. *)
Theorem ReprotectRange_correct vm target len p : vm_ok vm -> aligned target -> aligned len -> 0 <= target -> 0 < len ->
  target + len <= MAX_ADDRESS ->
  ∃ r vm', ReprotectRange vm target len p = Some (r, vm') ∧ vm_ok vm' ∧ vm_frame vm vm' ∧
    (all_at vm is_mapped target (target + len) -> r = ResultSuccess ∧
       ∀ a, view vm' a = if in_interval target (target + len) a
                         then (fun x => x<|at_perms := p|>) <$> view vm a else view vm a) ∧
    (¬ all_at vm is_mapped target (target + len) -> r = ResultInvalidAddressState ∧ vm' = vm).
Proof. apply ReprotectRange_spec. Qed.

(** What [ChangeMemoryState] expects of an address. *)
Definition is_expected (st : MemoryState) (p : Z) (x : Attr) : Prop := at_state x = st ∧ at_perms x .& p = p.

#[export] Instance is_expected_dec st p x : Decision (is_expected st p x).
Proof. unfold is_expected. apply _. Defined.

Lemma expected_spec st p v a : expected_vma st p v = true <-> is_expected st p (attr_of v a).
Proof. unfold expected_vma, is_expected. rewrite andb_true_iff, bool_decide_eq_true, Z.eqb_eq. done. Qed.

Lemma ChangeMemoryState_spec vm target len est ep st p :
  vm_ok vm -> aligned target -> aligned len -> 0 <= target -> 0 < len -> target + len <= MAX_ADDRESS ->
  ∃ r vm', ChangeMemoryState vm target len est ep st p = Some (r, vm') ∧ vm_ok vm' ∧ vm_frame vm vm' ∧
    let allowed := all_at vm (is_expected est ep) target (target + len) ∧ all_at vm is_mapped target (target + len) in
    (allowed -> r = ResultSuccess ∧
       ∀ a, view vm' a = if in_interval target (target + len) a
                         then (fun x => x<|at_perms := p|><|at_state := st|>) <$> view vm a else view vm a) ∧
    (¬ allowed -> r = ResultInvalidAddressState ∧ vm' = vm).
Proof.
  intros O A1 A2 H0 Hl He. pose proof O as [T S P U]. unfold ChangeMemoryState. rewrite U.
  rewrite uwrap_id by (unfold in_range, MAX_ADDRESS in *; lia).
  destruct (FindVMA_eq vm target T ltac:(lia)) as (l1 & v & l2 & E & Hv & ->). cbn [mbind option_bind].
  destruct (all_between_eq (expected_vma est ep) (is_expected est ep) (vma_map vm) l1 v l2 target (target + len))
    as (e & -> & Hx); try done; [apply expected_spec|lia|]. cbn [mbind option_bind].
  destruct e; [|exists ResultInvalidAddressState, vm; split_and!; try done; naive_solver]. pose proof (proj1 Hx eq_refl) as X.
  destruct (CarveVMARange_spec vm target len T A1 A2 H0 Hl He) as (b & Hb & ->). cbn [mbind option_bind].
  destruct b; [|exists ResultInvalidAddressState, vm; split_and!; naive_solver]. pose proof (proj1 Hb eq_refl) as M.
  destruct (range_change (fun v => v<|permissions := p|><|meminfo_state := st|>)
    (fun x => x<|at_perms := p|><|at_state := st|>) (change_state st p) vm target (target + len)) as (vm' & R & F & O' & V);
    try done; try lia; [apply restate_absorbs|apply restate_keeps|by apply Z.divide_add_r|].
  rewrite R. cbn [mbind option_bind]. exists ResultSuccess, vm'. split_and!; try done. naive_solver.
Qed.

(** C10: Changing the state of an aligned range requires the expected state and
    permissions at each of its addresses, and that all of it is mapped; then
    state and permissions change there and nowhere else. *)
Theorem ChangeMemoryState_correct vm target len est ep st p :
  vm_ok vm -> aligned target -> aligned len -> 0 <= target -> 0 < len -> target + len <= MAX_ADDRESS ->
  ∃ r vm', ChangeMemoryState vm target len est ep st p = Some (r, vm') ∧ vm_ok vm' ∧ vm_frame vm vm' ∧
    let allowed := all_at vm (is_expected est ep) target (target + len) ∧ all_at vm is_mapped target (target + len) in
    (allowed -> r = ResultSuccess ∧
       ∀ a, view vm' a = if in_interval target (target + len) a
                         then (fun x => x<|at_perms := p|><|at_state := st|>) <$> view vm a else view vm a) ∧
    (¬ allowed -> r = ResultInvalidAddressState ∧ vm' = vm).
Proof. apply ChangeMemoryState_spec. Qed.

(** ** Mapping *)

(** Carving a part of a free area. *)
Lemma carve_at_spec vm l1 v l2 target target_end : space (vma_map vm) -> seams (vma_map vm) -> vma_map vm = l1 ++ v :: l2 ->
  base v <= target < target_end -> target_end <= base v + size v -> aligned target -> aligned target_end ->
  ∃ pre m post, carve_at vm v (target - base v) (target_end - base v) = Some (target, with_map vm (pre ++ m :: post)) ∧
    space (pre ++ m :: post) ∧ base m = target ∧ size m = target_end - target ∧ type m = type v ∧
    seams pre ∧ seams post ∧ same_view (vma_map vm) (pre ++ m :: post).
Proof.
  intros T S E H1 H2 A1 A2. unfold carve_at. pose proof T as T0. unfold space in T0. rewrite E in T0.
  destruct (proj1 (tiles_middle _ _ _ _ _) T0) as (_ & V & _).
  pose proof V as (Av & As & _). pose proof (proj1 (seams_middle _ _ _) ltac:(by rewrite <- E)) as (S1 & S2 & S3 & S4).
  assert (G : ∃ vm1 v1 r, (if negb (target_end - base v =? size v)
      then snd <$> SplitVMA vm (base v) (target_end - base v) else Some vm) = Some vm1 ∧
      vm1 = with_map vm (l1 ++ v1 :: r) ∧ space (l1 ++ v1 :: r) ∧ base v1 = base v ∧ size v1 = target_end - base v ∧
      type v1 = type v ∧ seams r ∧ same_view (vma_map vm) (l1 ++ v1 :: r)).
  { destruct (Z.eqb_spec (target_end - base v) (size v)) as [Q|Q]; cbn [negb].
    - exists vm, v, l2. rewrite <- E, with_map_id. split_and!; try done.
    - rewrite (SplitVMA_eq vm l1 v l2 _ T E); [|by apply Z.divide_sub_r|lia]. cbn.
      eexists _, (left_of v (target_end - base v)), (right_of v (target_end - base v) :: l2).
      split_and!; try done.
      + apply (space_split l1 v); [done|by apply Z.divide_sub_r|lia].
      + destruct l2; [done|]. split; [exact (S4 _ eq_refl)|exact S2].
      + rewrite E. rewrite (same_view_split v); [done|done|by apply Z.divide_sub_r|lia]. }
  destruct G as (vm1 & v1 & r & -> & -> & T1 & B1 & B2 & B3 & S5 & V1). cbn [mbind option_bind].
  destruct (Z.eqb_spec (target - base v) 0) as [Q|Q]; cbn [negb].
  - exists l1, v1, r. replace (base v) with target in * by lia. split_and!; done || lia.
  - rewrite <- B1. rewrite (SplitVMA_eq (with_map vm (l1 ++ v1 :: r)) l1 v1 r); try done;
      [|rewrite B1; by apply Z.divide_sub_r|lia].
    assert (V1o : vma_ok v1) by (by apply tiles_middle in T1 as (_ & ? & _)).
    assert (D : aligned (target - base v1)) by (rewrite B1; by apply Z.divide_sub_r).
    exists (l1 ++ [left_of v1 (target - base v1)]), (right_of v1 (target - base v1)), r.
    rewrite <- app_assoc. cbn [app].
    split_and!; try done; try (change (size (right_of v1 (target - base v1))) with (size v1 - (target - base v1)));
      try (change (base (right_of v1 (target - base v1))) with (base v1 + (target - base v1))); try lia.
    + do 2 f_equal. lia.
    + apply space_split; [done|done|lia].
    + apply seams_app. split_and!; [done|done|]. intros x y Hx [= <-]. specialize (S3 x Hx).
      intros [F1 F2]. apply S3. split; [done|]. by rewrite <- B3.
    + rewrite V1. by rewrite (same_view_split v1) by (done || lia).
Qed.

Definition is_free (x : Attr) : Prop := at_type x = VMAFree.

(** Carving succeeds exactly when the whole range is free. *)
Lemma CarveVMA_spec vm target len : space (vma_map vm) -> seams (vma_map vm) -> aligned target -> aligned len ->
  0 <= target -> 0 < len -> target + len < 2 ^ 32 ->
  ∃ b : bool, (b = true <-> all_at vm is_free target (target + len)) ∧
    if b then ∃ pre m post, CarveVMA vm target len = Some (RV_val target, with_map vm (pre ++ m :: post)) ∧
      space (pre ++ m :: post) ∧ base m = target ∧ size m = len ∧ seams pre ∧ seams post ∧
      same_view (vma_map vm) (pre ++ m :: post)
    else CarveVMA vm target len =
      Some (RV_err (if MAX_ADDRESS <=? target then ResultInvalidAddress else ResultInvalidAddressState), vm).
Proof.
  intros T S A1 A2 H0 Hl He. unfold CarveVMA.
  rewrite (proj2 (page_aligned_spec target)), (proj2 (page_aligned_spec len)) by done. cbn [andb].
  assert (OUT : MAX_ADDRESS < target + len -> ¬ all_at vm is_free target (target + len)).
  { intros HM H. destruct (H (Z.max target MAX_ADDRESS) ltac:(lia)) as (x & Hx & _). unfold view in Hx.
    by rewrite (attr_at_outside _ _ _ _ T) in Hx by lia. }
  destruct (Z.leb_spec MAX_ADDRESS target) as [HM|HM].
  { unfold FindVMA. rewrite (proj2 (Z.leb_le _ _)) by done. cbn [mbind option_bind]. exists false.
    split; [|done]. split; [done|]. intros H. by destruct (OUT ltac:(lia)). }
  destruct (FindVMA_eq vm target T ltac:(lia)) as (l1 & v & l2 & E & Hv & ->). cbn [mbind option_bind].
  pose proof T as T0. unfold space in T0. rewrite E in T0. pose proof (space_bounds _ v T0 ltac:(set_solver)) as B.
  destruct (decide (type v = VMAFree)) as [F|F].
  2:{ rewrite bool_decide_true by done. exists false. split; [|done]. split; [done|]. intros H. exfalso.
      destruct (H target ltac:(lia)) as (x & Hx & Fx). unfold view in Hx.
      rewrite E, (attr_at_middle _ _ _ _ _ _ T0 Hv) in Hx. by injection Hx as <-. }
  rewrite bool_decide_false by (by intros X; apply X). unfold MAX_ADDRESS in B, HM.
  rewrite (uwrap_id 32 (target - base v)), uwrap_id by (unfold in_range; lia).
  destruct (Z.ltb_spec (size v) (target - base v + len)) as [L|L].
  { exists false. split; [|done]. split; [done|]. intros H. exfalso.
    destruct (decide (target + len <= MAX_ADDRESS)); [|by apply OUT; [lia|]].
    pose proof (free_in_one vm l1 v l2 target (target + len) T S E Hv ltac:(done) H). lia. }
  replace (target - base v + len) with (target + len - base v) in * by lia.
  destruct (carve_at_spec vm l1 v l2 target (target + len) T S E ltac:(lia) ltac:(lia) A1 ltac:(by apply Z.divide_add_r))
    as (pre & m & post & -> & T1 & B1 & B2 & _ & S1 & S2 & V1). exists true. split.
  - split; [|done]. intros _ a Ha. exists (attr_of v a). unfold view. by rewrite E, (attr_at_middle _ _ _ _ _ _ T0) by lia.
  - exists pre, m, post. split_and!; done || lia.
Qed.

(** The attributes of a mapping. *)
Definition mapping (mem : MemoryRef) (st : MemoryState) (offset : Z) : Attr :=
  mk_Attr VMABackingMemory PermReadWrite st (ptr_add (GetPtr mem) offset).

Lemma mapped_keeps mem st v : vma_ok v -> ref_ok mem (size v) -> keeps (fun v => mapped_vma v mem st) v.
Proof. by intros (? & ? & ? & _) R. Qed.

Lemma view_replaced l1 m w l2 a : space (l1 ++ m :: l2) -> base w = base m -> size w = size m ->
  attr_at (l1 ++ w :: l2) a = if in_interval (base m) (base m + size m) a then Some (attr_of w a) else attr_at (l1 ++ m :: l2) a.
Proof.
  intros (T1 & V & T2)%tiles_middle E1 E2. rewrite !attr_at_app. cbn [attr_at]. unfold covers, in_interval. rewrite E1, E2.
  destruct (_ && _) eqn:B; [|done]. by rewrite (attr_at_outside _ _ _ _ T1) by lia.
Qed.

(** The area the new mapping becomes part of. *)
Definition mapped_area vm (it target len : Z) (st : MemoryState) : Prop :=
  ∃ l1 w l2, vma_map vm = l1 ++ w :: l2 ∧ base w = it ∧ base w <= target ∧ target + len <= base w + size w ∧
    type w = VMABackingMemory ∧ permissions w = PermReadWrite ∧ meminfo_state w = st.

Lemma MapBackingMemory_spec vm target mem len st :
  vm_ok vm -> aligned target -> aligned len -> 0 <= target -> 0 < len -> target + len < 2 ^ 32 -> ref_ok mem len ->
  ∃ r vm', MapBackingMemory vm target mem len st = Some (r, vm') ∧ vm_ok vm' ∧ vm_frame vm vm' ∧
    (all_at vm is_free target (target + len) -> (∃ it, r = RV_val it ∧ mapped_area vm' it target len st) ∧
       ∀ a, view vm' a = if in_interval target (target + len) a then Some (mapping mem st (a - target)) else view vm a) ∧
    (¬ all_at vm is_free target (target + len) ->
       r = RV_err (if MAX_ADDRESS <=? target then ResultInvalidAddress else ResultInvalidAddressState) ∧ vm' = vm).
Proof.
  intros O A1 A2 H0 Hl He R. pose proof O as [T S P U]. unfold MapBackingMemory. rewrite U.
  destruct (ref_ok_ptr _ _ R) as (bk & Eb & Ep). rewrite bool_decide_false by (rewrite Ep; done). cbn [orb].
  destruct (CarveVMA_spec vm target len T S A1 A2 H0 Hl He) as (b & Hb & C). destruct b.
  2:{ rewrite C. cbn [mbind option_bind]. eexists _, vm. split_and!; try done. naive_solver. }
  destruct C as (pre & m & post & -> & T1 & B1 & B2 & S1 & S2 & V1). cbn [mbind option_bind].
  set (vm1 := with_map vm (pre ++ m :: post)).
  rewrite <- B1, (vma_at_middle vm1 pre m post T1 eq_refl). cbn [mbind option_bind].
  rewrite (proj2 (Z.eqb_eq _ _)) by lia.
  pose proof (proj1 (proj2 (proj1 (tiles_middle _ _ _ _ _) T1))) as Om.
  pose proof (mapped_keeps mem st m Om ltac:(by rewrite B2)) as K.
  destruct (change_vma_eq (fun v => mapped_vma v mem st) vm1 pre m post T1 (table_with_map _ _ P V1) eq_refl K)
    as (vm' & C & Fr & P' & M'). unfold change_vma in C.
  rewrite (vma_at_middle vm1 pre m post T1 eq_refl) in C. cbn [mbind option_bind] in C.
  assert (T2 : space (pre ++ mapped_vma m mem st :: post)) by (by apply (space_change _ m); [|done..|apply K]).
  pose proof (merged_view _ _ _ T2) as V2. pose proof (merged_ok _ _ _ T2) as G.
  pose proof (merged_around _ _ _ T2) as Ar.
  pose proof (merged_seams _ _ _ T2 S1 S2) as S3.
  destruct (UpdatePageTableForVMA _ _) as [vm2|]; [|done]. cbn [mbind option_bind] in *. rewrite C. cbn [mbind option_bind].
  destruct (merged pre (mapped_vma m mem st) post) as [[p' w] q']. destruct G as (T3 & _).
  eexists _, vm'. split; [done|]. split; [split; [unfold space; by rewrite M'|by rewrite M'|done|by rewrite (proj1 (proj2 Fr))]|].
  split; [exact Fr|]. rewrite B1. split; [|intros N; by destruct (N (proj1 Hb eq_refl))].
  intros _. split.
  { exists (base w). split; [done|]. exists p', w, q'. destruct Ar as (R1 & R2 & R3 & R4 & R5).
    change (base (mapped_vma m mem st)) with (base m) in *. change (size (mapped_vma m mem st)) with (size m) in *.
    split_and!; try done; lia. }
  intros a. unfold view. rewrite M', <- (V2 a), (view_replaced pre m) by done.
  rewrite (V1 a), B2, B1. destruct (in_interval _ _ a); [|done]. unfold attr_of. cbn [mapped_vma]. by rewrite <- B1.
Qed.

(** Changing the permissions of one area. *)
Lemma Reprotect_spec vm l1 w l2 p : vm_ok vm -> vma_map vm = l1 ++ w :: l2 -> type w ≠ VMAFree ->
  ∃ it vm', Reprotect vm (base w) p = Some (it, vm') ∧ vm_ok vm' ∧ vm_frame vm vm' ∧
    ∀ a, view vm' a = if covers w a then (fun x => x<|at_perms := p|>) <$> view vm a else view vm a.
Proof.
  intros [T S P U] E N. unfold Reprotect. rewrite U. pose proof T as T0. unfold space in T0. rewrite E in T0.
  pose proof (proj1 (proj2 (proj1 (tiles_middle _ _ _ _ _) T0))) as V.
  pose proof (reprotect_keeps p w V N) as K. set (f := fun v => v<|permissions := p|>) in *.
  destruct (change_vma_eq f vm l1 w l2 T P E K) as (vm' & C & Fr & P' & M').
  assert (T2 : space (l1 ++ f w :: l2)) by (by apply (space_change _ w); [|done..|apply K]).
  pose proof (merged_view _ _ _ T2) as V2. pose proof (merged_ok _ _ _ T2) as G.
  rewrite E in S. apply seams_middle in S as (S1 & S2 & _). pose proof (merged_seams _ _ _ T2 S1 S2) as S3.
  destruct (merged l1 (f w) l2) as [[p' x] q']. destruct G as (T3 & _). eexists _, vm'. split; [exact C|].
  split; [split; [unfold space; by rewrite M'|by rewrite M'|done|by rewrite (proj1 (proj2 Fr))]|]. split; [exact Fr|].
  intros a. unfold view. rewrite M', <- (V2 a), (view_replaced l1 w), E by done.
  unfold in_interval, covers. destruct (_ && _) eqn:B; [|done]. rewrite (attr_at_middle _ _ _ _ _ _ T0) by lia. done.
Qed.

(** Addresses of the neighbouring areas change at most their permissions, from
    read and write to the ones given. *)
Definition spilled (p : VMAPermission) (st : MemoryState) (x y : option Attr) : Prop :=
  y = x ∨ ∃ a, x = Some a ∧ at_type a = VMABackingMemory ∧ at_perms a = PermReadWrite ∧ at_state a = st ∧ y = Some (a<|at_perms := p|>).

Lemma spilled_same st x y : spilled PermReadWrite st x y -> y = x.
Proof. intros [->|([ty pm s pt] & -> & _ & E & _ & ->)]; [done|]. cbn in E. by subst. Qed.

Lemma map_protect_spec vm target mem len st p :
  vm_ok vm -> aligned target -> aligned len -> 0 <= target -> 0 < len -> target + len < 2 ^ 32 -> ref_ok mem len ->
  all_at vm is_free target (target + len) ->
  ∃ vm', map_protect vm target mem len st p = Some vm' ∧ vm_ok vm' ∧ vm_frame vm vm' ∧
    ∀ a, if in_interval target (target + len) a then view vm' a = Some ((mapping mem st (a - target))<|at_perms := p|>)
         else spilled p st (view vm a) (view vm' a).
Proof.
  intros O A1 A2 H0 Hl He R F. unfold map_protect.
  destruct (MapBackingMemory_spec vm target mem len st O A1 A2 H0 Hl He R) as (r & vm1 & -> & O1 & F1 & H & _).
  destruct (H F) as ((it & -> & (l1 & w & l2 & E & <- & B1 & B2 & Ty & Pm & Ms)) & V1). cbn [mbind option_bind].
  destruct (Reprotect_spec vm1 l1 w l2 p O1 E) as (it & vm' & -> & O' & F' & V'); [congruence|].
  exists vm'. split; [done|]. split; [exact O'|]. split; [by etrans|]. intros a. rewrite V'. destruct (in_interval _ _ a) eqn:I.
  - assert (C : covers w a = true) by (unfold covers, in_interval in *; lia). rewrite C, V1, I. done.
  - specialize (V1 a). rewrite I in V1. destruct (covers w a) eqn:C; [|left; by rewrite V1]. right.
    assert (Vw : view vm1 a = Some (attr_of w a)).
    { unfold view. rewrite E. apply (attr_at_middle 0 MAX_ADDRESS); [unfold space in *; rewrite <- E; apply O1|unfold covers in C; lia]. }
    exists (attr_of w a). rewrite <- V1, Vw. split; [done|]. split; [exact Ty|]. split; [exact Pm|]. split; [exact Ms|done].
Qed.

(** C8: Mapping memory at an aligned range succeeds exactly when every address of
    the range is free; then each address has the byte of the memory behind it,
    readable and writable, with the state asked for, and no other address
    changes.  Otherwise the error says whether the range begins outside of the
    address space, and nothing changes. *)
Theorem MapBackingMemory_correct vm target mem len st :
  vm_ok vm -> aligned target -> aligned len -> 0 <= target -> 0 < len -> target + len < 2 ^ 32 -> ref_ok mem len ->
  ∃ r vm', MapBackingMemory vm target mem len st = Some (r, vm') ∧ vm_ok vm' ∧ vm_frame vm vm' ∧
    (all_at vm is_free target (target + len) -> (∃ it, r = RV_val it) ∧
       ∀ a, view vm' a = if in_interval target (target + len) a then Some (mapping mem st (a - target)) else view vm a) ∧
    (¬ all_at vm is_free target (target + len) ->
       r = RV_err (if MAX_ADDRESS <=? target then ResultInvalidAddress else ResultInvalidAddressState) ∧ vm' = vm).
Proof.
  intros O A1 A2 H0 Hl He R. destruct (MapBackingMemory_spec vm target mem len st O A1 A2 H0 Hl He R) as (r & vm' & E & O' & F & H & N).
  exists r, vm'. split; [exact E|]. split; [exact O'|]. split; [exact F|]. split; [|exact N].
  intros Hf. destruct (H Hf) as ((it & -> & _) & V). split; [by exists it|exact V].
Qed.

(** ** Backing blocks *)

(** The blocks are the host memory of the addresses from [a] to [e], in order. *)
Fixpoint blocks_cover vm (a : Z) (blocks : list (MemoryRef * Z)) (e : Z) : Prop :=
  match blocks with
  | [] => a = e
  | (m, n) :: blocks =>
      0 < n ∧ ref_ok m n ∧
      (∀ x, a <= x < a + n -> at_ptr <$> view vm x = Some (ptr_add (GetPtr m) (x - a))) ∧
      blocks_cover vm (a + n) blocks e
  end.

Lemma ref_add_eq r k n : ref_ok r n -> 0 <= k < n -> n < 2 ^ 32 ->
  ∃ r', ref_add r (u32 k) = Some r' ∧ ref_ok r' (n - k) ∧ ∀ x, ptr_add (GetPtr r') x = ptr_add (GetPtr r) (k + x).
Proof.
  destruct r as [[b|] o]; [|done]. unfold ref_ok. cbn [backing_mem ref_offset]. intros (H1 & H2 & H3) Hk Hn.
  unfold ref_add, GetSize. cbn [backing_mem ref_offset].
  rewrite (uwrap_id 32 k), (uwrap_id 64 (backing_size b - o)) by (unfold in_range; lia).
  rewrite (proj2 (Z.ltb_lt _ _)) by lia. eexists. split; [done|]. cbn. rewrite uwrap_id by (unfold in_range; lia).
  split; [lia|]. intros x. do 2 f_equal. lia.
Qed.

(** One turn: the block of the area at [a], up to [n] addresses further. *)
Lemma block_cover vm l1 v l2 a n : space (vma_map vm) -> vma_map vm = l1 ++ v :: l2 ->
  base v <= a -> 0 < n -> a + n <= base v + size v -> type v = VMABackingMemory ->
  ∃ m, ref_add (backing_memory v) (u32 (a - base v)) = Some m ∧ blocks_cover vm a [(m, n)] (a + n).
Proof.
  intros T E Ha Hn Hs Ty. unfold space in T. rewrite E in T. pose proof (space_bounds _ v T ltac:(set_solver +)) as B.
  destruct (proj1 (tiles_middle _ _ _ _ _) T) as (_ & (_ & _ & _ & V) & _). rewrite Ty in V.
  destruct (ref_add_eq (backing_memory v) (a - base v) (size v) V ltac:(lia) ltac:(unfold MAX_ADDRESS in *; lia))
    as (m & -> & Om & Hm). exists m. split; [done|]. cbn [blocks_cover]. split_and!; try done.
  - unfold ref_ok in *. destruct (backing_mem m); [lia|done].
  - intros x Hx. unfold view. rewrite E, (attr_at_middle _ _ _ _ _ _ T) by lia. cbn. unfold attr_of. rewrite Ty. cbn.
    rewrite Hm. do 2 f_equal. lia.
Qed.

Lemma backing_blocks_spec vm e : space (vma_map vm) -> e <= MAX_ADDRESS -> ∀ fuel l1 v l2 a acc,
  vma_map vm = l1 ++ v :: l2 -> base v <= a < base v + size v -> a < e -> (length l2 < fuel)%nat ->
  ∃ r, backing_blocks vm fuel a e acc = Some r ∧
    (all_at vm is_mapped a e -> ∃ bl, r = RV_val (acc ++ bl) ∧ blocks_cover vm a bl e ∧
       (aligned a -> aligned e -> ∀ b, b ∈ bl -> aligned b.2)) ∧
    (¬ all_at vm is_mapped a e -> r = RV_err ResultInvalidAddressState).
Proof.
  intros T He. induction fuel as [|fuel IH]; intros l1 v l2 a acc E Hv Ha Hf; [lia|]. cbn [backing_blocks].
  rewrite (proj2 (Z.eqb_neq _ _)) by lia. pose proof T as T0. unfold space in T0. rewrite E in T0.
  pose proof (space_bounds _ v T0 ltac:(set_solver +)) as B. unfold MAX_ADDRESS in B, He.
  rewrite (FindVMA_at vm l1 v l2 a T E Hv). cbn [mbind option_bind].
  assert (Vv : ∀ x, base v <= x < base v + size v -> view vm x = Some (attr_of v x))
    by (intros x Hx; unfold view; rewrite E; by apply (attr_at_middle 0 MAX_ADDRESS)).
  destruct (type v) eqn:Ty.
  { rewrite bool_decide_true by done. eexists. split; [done|]. split; [|done]. intros M. exfalso.
    destruct (M a ltac:(lia)) as (x & Hx & Mx). rewrite Vv in Hx by lia. injection Hx as <-. by apply Mx. }
  rewrite bool_decide_false by (intros X; by apply X). rewrite (uwrap_id 32 (base v + size v)) by (unfold in_range; lia).
  set (n := Z.min e (base v + size v) - a). rewrite (uwrap_id 32 n) by (unfold in_range, n; lia).
  rewrite (uwrap_id 32 (a + n)) by (unfold in_range, n; lia).
  destruct (block_cover vm l1 v l2 a n T E ltac:(lia) ltac:(lia) ltac:(lia) Ty) as (m & -> & C & Om & Cv & _).
  cbn [mbind option_bind]. destruct (decide (e <= base v + size v)) as [L|L].
  - replace (a + n) with e by (unfold n; lia).
    assert (R : backing_blocks vm fuel e e (acc ++ [(m, n)]) = Some (RV_val (acc ++ [(m, n)])))
      by (destruct fuel; cbn [backing_blocks]; by rewrite Z.eqb_refl).
    rewrite R. eexists. split; [done|]. split.
    + intros _. exists [(m, n)]. split; [done|]. split.
      { cbn [blocks_cover]. split_and!; try done. unfold n. lia. }
      intros Aa Ae b ->%list_elem_of_singleton. cbn. unfold n. rewrite Z.min_l by lia. by apply Z.divide_sub_r.
    + intros N. exfalso. apply N. intros x Hx. exists (attr_of v x). rewrite Vv by lia. split; [done|].
      unfold is_mapped, attr_of. cbn. by rewrite Ty.
  - pose proof T0 as T1. apply tiles_middle in T0 as (_ & _ & T2). destruct l2 as [|w l2]; [simpl in T2; unfold MAX_ADDRESS in *; lia|].
    destruct T2 as (Ew & (_ & _ & Sw & _) & _).
    destruct (IH (l1 ++ [v]) w l2 (a + n) (acc ++ [(m, n)])) as (r & -> & H1 & H2);
      [by rewrite <- app_assoc|unfold n; lia|unfold n; lia|simpl in Hf; lia|].
    assert (I : all_at vm is_mapped a e <-> all_at vm is_mapped (a + n) e).
    { split; intros M x Hx; [apply M; unfold n in Hx; lia|]. destruct (decide (a + n <= x)); [apply M; lia|].
      exists (attr_of v x). rewrite Vv by (unfold n in *; lia). split; [done|]. unfold is_mapped, attr_of. cbn. by rewrite Ty. }
    eexists. split; [done|]. split.
    + intros M. destruct (H1 (proj1 I M)) as (bl & -> & Cb & Al). exists ((m, n) :: bl). rewrite <- app_assoc. split; [done|].
      split; [done|]. intros Aa Ae b Hb. destruct (proj1 (tiles_middle _ _ _ _ _) T1) as (_ & (Av & Az & _) & _).
      assert (An : aligned n) by (unfold n; rewrite Z.min_r by lia; apply Z.divide_sub_r; [by apply Z.divide_add_r|done]).
      apply elem_of_cons in Hb as [->|Hb]; [exact An|]. by apply Al; [apply Z.divide_add_r|..].
    + intros N. apply H2. tauto.
Qed.

Lemma GetBackingBlocksForRange_spec vm a len : vm_ok vm -> 0 <= a -> 0 < len -> a + len <= MAX_ADDRESS ->
  ∃ r, GetBackingBlocksForRange vm a len = Some r ∧
    (all_at vm is_mapped a (a + len) -> ∃ bl, r = RV_val bl ∧ blocks_cover vm a bl (a + len) ∧
       (aligned a -> aligned (a + len) -> ∀ b, b ∈ bl -> aligned b.2)) ∧
    (¬ all_at vm is_mapped a (a + len) -> r = RV_err ResultInvalidAddressState).
Proof.
  intros O H0 Hl He. unfold GetBackingBlocksForRange. rewrite uwrap_id by (unfold in_range, MAX_ADDRESS in *; lia).
  destruct (tiles_find _ _ _ a (vm_space _ O) ltac:(lia)) as (l1 & v & l2 & E & Hv).
  apply (backing_blocks_spec vm (a + len) (vm_space _ O) He _ l1 v l2 a []); try done; try lia.
  rewrite E, length_app. simpl. lia.
Qed.

(** The blocks behind a mapped range of the address space are the host memory
    of its addresses, in order and without gaps; a range with a free address is
    refused.  The search ends within the areas of the space. *)
Theorem GetBackingBlocksForRange_correct vm a len : vm_ok vm -> 0 <= a -> 0 < len -> a + len <= MAX_ADDRESS ->
  ∃ r, GetBackingBlocksForRange vm a len = Some r ∧
    (all_at vm is_mapped a (a + len) -> ∃ bl, r = RV_val bl ∧ blocks_cover vm a bl (a + len)) ∧
    (¬ all_at vm is_mapped a (a + len) -> r = RV_err ResultInvalidAddressState).
Proof.
  intros O H0 Hl He. destruct (GetBackingBlocksForRange_spec vm a len O H0 Hl He) as (r & E & H & N). exists r.
  split; [exact E|]. split; [|exact N]. intros M. destruct (H M) as (bl & -> & C & _). by exists bl.
Qed.

(** A fresh address space is one free area: every address below the maximum is
    free, the page table shows no page, and later operations may rely on it. *)
Lemma Reset_ok vm : is_locked vm = false ->
  ∃ vm', Reset vm = Some vm' ∧ vm_ok vm' ∧ vm_frame vm vm' ∧
    ∀ a, view vm' a = if in_interval 0 MAX_ADDRESS a then Some free_attr else None.
Proof.
  intros U. unfold Reset. rewrite U. set (v := mk_VMA 0 MAX_ADDRESS VMAFree PermNone StateFree null_ref).
  set (ms := set_page_table (memory vm) _ _). set (vm0 := vm<|vma_map := [v]|><|memory := ms|>).
  assert (V : vma_ok v) by (split; [by exists 0|split; [by exists 0x40000|done]]).
  destruct (Update_spec vm0 v V ltac:(done) ltac:(done)) as (vm1 & Hu & M & F & H). exists vm1. split; [exact Hu|].
  assert (E : vma_map vm1 = [v]) by exact M.
  assert (C : ∀ a, covers v a = in_interval 0 MAX_ADDRESS a).
  { intros a. unfold covers, in_interval, v. cbn [base size]. by rewrite Z.add_0_l. }
  assert (Vw : ∀ a, view vm1 a = if in_interval 0 MAX_ADDRESS a then Some free_attr else None).
  { intros a. unfold view. rewrite E. cbn [attr_at]. rewrite C. by destruct (in_interval 0 MAX_ADDRESS a). }
  split; [|split; [|exact Vw]].
  - split; [rewrite E; split; [reflexivity|split; [exact V|reflexivity]]|rewrite E; split; exact I| |
            exact (eq_trans (proj1 (proj2 F)) U)].
    intros p Hp. rewrite Vw. specialize (H p Hp). rewrite (ot_marker _ _ _ (proj2 (proj2 F))).
    rewrite C in H. destruct (in_interval _ _ _); [exact H|]. injection H as E1 E2. unfold page_shows. rewrite E1, E2.
    assert (K : table_of vm0 = PageTable_Clear (table_of vm)) by (apply page_table_set_eq).
    rewrite K. split; [exact (lookup_total_empty p)|exact (f_equal GetPtr (lookup_total_empty p))].
  - destruct F as (F1 & F2 & F3). split; [exact F1|]. split; [exact F2|]. etrans; [|exact F3].
    split; [reflexivity..|intros Q _ Hb; exact Hb|]. intros t' Ht. change (Memory.page_table ms t' = Memory.page_table (memory vm) t'). unfold ms.
    rewrite page_table_set. by rewrite decide_False.
Qed.
End operations.
