(* ===== verification/VmExamples.v ===== *)
(** A small address space: it satisfies the invariant, the theorems of
    [VmCorrect.v] apply to it, and two computations on it show what the search
    and the merging of areas do not do. *)

From S2P Require Import Prelude Result Memory MemoryFacts MemoryExamples VmManager VmFacts VmCorrect.

Definition free_area (b n : Z) : VirtualMemoryArea := mk_VMA b n VMAFree PermNone StateFree null_ref.
Definition heap_area (b n o p : Z) : VirtualMemoryArea := mk_VMA b n VMABackingMemory p Private (demo_ref o).
(** Two pages of heap. *)
Definition demo_vm : VMManager :=
  mk_VMManager demo_memory
    [free_area 0 0x8000000; heap_area 0x8000000 0x2000 0 PermReadWrite;
     free_area 0x8002000 (MAX_ADDRESS - 0x8002000)] 0 false 0.

Lemma demo_view a : view demo_vm a =
  if in_interval 0 0x8000000 a then Some free_attr
  else if in_interval 0x8000000 0x8002000 a
  then Some (mk_Attr VMABackingMemory PermReadWrite Private (Some (FCRAM, a - 0x8000000)))
  else if in_interval 0x8002000 MAX_ADDRESS a then Some free_attr else None.
Proof.
  unfold view. cbn [demo_vm vma_map attr_at]. unfold covers, in_interval, free_area, heap_area. cbn [base size].
  change (0 + 0x8000000) with 0x8000000. change (0x8000000 + 0x2000) with 0x8002000.
  change (0x8002000 + (MAX_ADDRESS - 0x8002000)) with MAX_ADDRESS.
  destruct ((0 <=? a) && (a <? 0x8000000)); [done|]. destruct ((0x8000000 <=? a) && (a <? 0x8002000)); [done|].
  by destruct ((0x8002000 <=? a) && (a <? MAX_ADDRESS)).
Qed.

Lemma demo_space : space (vma_map demo_vm).
Proof.
  split; [done|]. split; [split; [by exists 0|split; [by exists 0x8000|done]]|].
  split; [done|]. split; [split; [by exists 0x8000|split; [by exists 2|split; [done|by_decide]]]|].
  split; [done|]. split; [|done]. split; [by exists 0x8002|]. split; [by exists 0x37ffe|done].
Qed.

Lemma demo_ok : vm_ok demo_vm.
Proof.
  split; [apply demo_space| | |done].
  - split; [by intros [_ ?]|]. split; [by intros [? _]|]. by split.
  - intros p Hp. rewrite demo_view.
    change (table_of demo_vm) with demo_table. unfold page_shows, demo_table. rewrite !page_type_set, !page_ref_set.
    unfold in_interval, CITRA_PAGE_SIZE, MAX_ADDRESS.
    destruct (decide (p = 0x8001)) as [->|]; [by split|]. destruct (decide (p = 0x8000)) as [->|]; [by split|].
    assert (page_type (mk_PageTable ∅ ∅) p = PageUnmapped ∧ GetPtr (page_ref (mk_PageTable ∅ ∅) p) = None) as [-> ->].
    { split; [exact (lookup_total_empty p)|exact (f_equal GetPtr (lookup_total_empty p))]. }
    zcases; simpl; done || lia.
Qed.

(** The first page of the heap is mapped, the page above the heap is free. *)
Lemma demo_mapped : all_at demo_vm is_mapped 0x8000000 (0x8000000 + 0x1000).
Proof.
  intros a Ha. rewrite demo_view. unfold in_interval. exists (mk_Attr VMABackingMemory PermReadWrite Private (Some (FCRAM, a - 0x8000000))).
  zcases; simpl; lia || (split; [reflexivity|done || by_decide]).
Qed.

Lemma demo_expected : all_at demo_vm (is_expected Private PermReadWrite) 0x8000000 (0x8000000 + 0x1000).
Proof.
  intros a Ha. rewrite demo_view. unfold in_interval. exists (mk_Attr VMABackingMemory PermReadWrite Private (Some (FCRAM, a - 0x8000000))).
  zcases; simpl; lia || (split; [reflexivity|done || by_decide]).
Qed.

Lemma demo_free : all_at demo_vm is_free 0x8002000 (0x8002000 + 0x1000).
Proof.
  intros a Ha. rewrite demo_view. unfold in_interval, MAX_ADDRESS. exists free_attr. zcases; simpl; lia || (split; [reflexivity|done || by_decide]).
Qed.

Lemma demo_not_free : ¬ all_at demo_vm is_free 0x8001000 (0x8001000 + 0x1000).
Proof. intros H. destruct (H 0x8001000 ltac:(lia)) as (x & Hx & Fx). rewrite demo_view in Hx. by injection Hx as <-. Qed.

Lemma heap_aligned : aligned 0x8000000 ∧ aligned 0x1000 ∧ aligned 0x8001000 ∧ aligned 0x8002000.
Proof. split_and!; [by exists 0x8000|by exists 1|by exists 0x8001|by exists 0x8002]. Qed.

Lemma UnmapRange_correct_witness : ∃ vm', UnmapRange demo_vm 0x8000000 0x1000 = Some (ResultSuccess, vm') ∧ vm_ok vm' ∧
  view vm' 0x8000fff = Some free_attr ∧ view vm' 0x8001000 = view demo_vm 0x8001000.
Proof.
  destruct (UnmapRange_correct demo_vm 0x8000000 0x1000 demo_ok (proj1 heap_aligned) (proj1 (proj2 heap_aligned)))
    as (r & vm' & E & O & _ & H & _); [lia|lia|by_decide|].
  destruct (H demo_mapped) as (-> & V). exists vm'. split; [exact E|]. split; [exact O|]. rewrite !V. split; reflexivity.
Defined.

Lemma ReprotectRange_correct_witness : ∃ vm', ReprotectRange demo_vm 0x8000000 0x1000 PermRead = Some (ResultSuccess, vm') ∧
  vm_ok vm' ∧ at_perms <$> view vm' 0x8000000 = Some PermRead ∧ at_perms <$> view vm' 0x8001000 = Some PermReadWrite.
Proof.
  destruct (ReprotectRange_correct demo_vm 0x8000000 0x1000 PermRead demo_ok (proj1 heap_aligned) (proj1 (proj2 heap_aligned)))
    as (r & vm' & E & O & _ & H & _); [lia|lia|by_decide|].
  destruct (H demo_mapped) as (-> & V). exists vm'. split; [exact E|]. split; [exact O|]. rewrite !V. split; reflexivity.
Defined.

Lemma ChangeMemoryState_correct_witness :
  ∃ vm', ChangeMemoryState demo_vm 0x8000000 0x1000 Private PermReadWrite Aliased PermNone = Some (ResultSuccess, vm') ∧
  vm_ok vm' ∧ at_state <$> view vm' 0x8000000 = Some Aliased ∧ at_state <$> view vm' 0x8001000 = Some Private.
Proof.
  destruct (ChangeMemoryState_correct demo_vm 0x8000000 0x1000 Private PermReadWrite Aliased PermNone demo_ok
    (proj1 heap_aligned) (proj1 (proj2 heap_aligned))) as (r & vm' & E & O & _ & H & _); [lia|lia|by_decide|].
  destruct (H (conj demo_expected demo_mapped)) as (-> & V). exists vm'. split; [exact E|]. split; [exact O|].
  rewrite !V. split; reflexivity.
Defined.

Lemma MapBackingMemory_correct_witness :
  (∃ it vm', MapBackingMemory demo_vm 0x8002000 (demo_ref 0x2000) 0x1000 Private = Some (RV_val it, vm') ∧ vm_ok vm' ∧
     at_ptr <$> view vm' 0x8002004 = Some (Some (FCRAM, 0x2004))) ∧
  MapBackingMemory demo_vm 0x8001000 (demo_ref 0x2000) 0x1000 Private = Some (RV_err ResultInvalidAddressState, demo_vm).
Proof.
  destruct heap_aligned as (_ & A1 & A2 & A3). split.
  - destruct (MapBackingMemory_correct demo_vm 0x8002000 (demo_ref 0x2000) 0x1000 Private demo_ok A3 A1)
      as (r & vm' & E & O & _ & H & _); [lia|lia|by_decide|by_decide|].
    destruct (H demo_free) as ((it & ->) & V). exists it, vm'. split; [exact E|]. split; [exact O|].
    rewrite V. reflexivity.
  - destruct (MapBackingMemory_correct demo_vm 0x8001000 (demo_ref 0x2000) 0x1000 Private demo_ok A2 A1)
      as (r & vm' & E & _ & _ & _ & H); [lia|lia|by_decide|by_decide|].
    destruct (H demo_not_free) as (-> & ->). exact E.
Defined.

Lemma GetBackingBlocksForRange_correct_witness :
  ∃ bl, GetBackingBlocksForRange demo_vm 0x8000000 0x1000 = Some (RV_val bl) ∧
    blocks_cover demo_vm 0x8000000 bl (0x8000000 + 0x1000).
Proof.
  destruct (GetBackingBlocksForRange_correct demo_vm 0x8000000 0x1000 demo_ok) as (r & E & H & _); [lia|lia|by_decide|].
  destruct (H demo_mapped) as (bl & -> & C). exists bl. split; [exact E|exact C].
Defined.

(** * What the code does not do *)

(** Reprotecting from a read-only area into the middle of a writable one leaves
    two adjacent areas that could be merged: the area is merged with the next one
    before the rest of the range has been looked at. *)
Definition seamed_vm : VMManager :=
  demo_vm<|vma_map := [free_area 0 0x8000000; heap_area 0x8000000 0x1000 0 PermRead;
    heap_area 0x8001000 0x2000 0x1000 PermReadWrite; free_area 0x8003000 (MAX_ADDRESS - 0x8003000)]|>.
Example ReprotectRange_leaves_seam :
  (fun '(r, vm) => (r, vma_map vm)) <$> ReprotectRange seamed_vm 0x8000000 0x2000 PermReadWrite
  = Some (ResultSuccess, [free_area 0 0x8000000; heap_area 0x8000000 0x2000 0 PermReadWrite;
      heap_area 0x8002000 0x1000 0x2000 PermReadWrite; free_area 0x8003000 (MAX_ADDRESS - 0x8003000)]) ∧
  mergeable (heap_area 0x8000000 0x2000 0 PermReadWrite) (heap_area 0x8002000 0x1000 0x2000 PermReadWrite) = true.
Proof. split; vm_compute; reflexivity. Qed.

(** The search for a place takes the first free area that reaches far enough from
    the base asked for, even when the block does not fit behind the area's own
    base; the free space above is not tried. *)
Definition gap_vm : VMManager :=
  demo_vm<|vma_map := [free_area 0 0x8000000; heap_area 0x8000000 0x1000 0 PermReadWrite;
    free_area 0x8001000 0x2000; heap_area 0x8003000 0x1000 0x1000 PermReadWrite;
    free_area 0x8004000 (MAX_ADDRESS - 0x8004000)]|>.
Example MapBackingMemoryToBase_misses :
  fst <$> MapBackingMemoryToBase gap_vm 0x8000000 0x8000000 (demo_ref 0x2000) 0x3000 Private
  = Some (RV_err ResultInvalidAddressState) ∧
  fst <$> MapBackingMemory gap_vm 0x8004000 (demo_ref 0x10000) 0x3000 Private = Some (RV_val 0x8004000).
Proof. split; vm_compute; reflexivity. Qed.
