(* ===== verification/ResourceLimit.v ===== *)
(** Resource limits: [core/hle/kernel/resource_limit.h] and
    [resource_limit.cpp]. *)

From S2P Require Import Prelude.

(* src: resource_limit.h | enum class ResourceLimitCategory : u8 { *)
Inductive ResourceLimitCategory := Application | SysApplet | LibApplet | Other.

(* src: resource_limit.h | enum class ResourceLimitType : u32 { *)
Inductive ResourceLimitType :=
  RPriority | RCommit | RThread | REvent | RMutex | RSemaphore | RTimer | RSharedMemory
| RAddressArbiter | RCpuTime.
#[export] Instance ResourceLimitType_eq_dec : EqDecision ResourceLimitType.
Proof. solve_decision. Defined.

(** [static_cast<std::size_t>(type)]. *)
(* src: resource_limit.h | enum class ResourceLimitType : u32 { *)
Definition type_index (type : ResourceLimitType) : nat :=
  match type with
  | RPriority => 0 | RCommit => 1 | RThread => 2 | REvent => 3 | RMutex => 4 | RSemaphore => 5
  | RTimer => 6 | RSharedMemory => 7 | RAddressArbiter => 8 | RCpuTime => 9
  end%nat.

(* src: resource_limit.h | class ResourceLimit final : public Object { *)
Record ResourceLimit := mk_ResourceLimit { m_limit_values : list Z; m_current_values : list Z }.
#[export] Instance ResourceLimit_inhabited : Inhabited ResourceLimit := populate (mk_ResourceLimit [] []).

(* src: resource_limit.cpp | std::shared_ptr<ResourceLimit> ResourceLimit::Create(KernelSystem& kernel, std::string name) { *)
Definition Create : ResourceLimit := mk_ResourceLimit (replicate 10 0) (replicate 10 0).

Implicit Types (r : ResourceLimit) (type : ResourceLimitType).

(* src: resource_limit.cpp | s32 ResourceLimit::GetCurrentValue(ResourceLimitType type) const { *)
Definition GetCurrentValue r type : Z := m_current_values r !!! type_index type.
(* src: resource_limit.cpp | s32 ResourceLimit::GetLimitValue(ResourceLimitType type) const { *)
Definition GetLimitValue r type : Z := m_limit_values r !!! type_index type.
(* src: resource_limit.cpp | void ResourceLimit::SetLimitValue(ResourceLimitType type, s32 value) { *)
Definition SetLimitValue r type (value : Z) : ResourceLimit :=
  r<|m_limit_values := <[type_index type := value]> (m_limit_values r)|>.

(* src: resource_limit.cpp | bool ResourceLimit::Reserve(ResourceLimitType type, s32 amount) { *)
Definition Reserve r type (amount : Z) : bool * ResourceLimit :=
  let limit := m_limit_values r !!! type_index type in
  let new_value := s32 (m_current_values r !!! type_index type + amount) in
  if limit <? new_value then (false, r)
  else (true, r<|m_current_values := <[type_index type := new_value]> (m_current_values r)|>).

(* src: resource_limit.cpp | bool ResourceLimit::Release(ResourceLimitType type, s32 amount) { *)
Definition Release r type (amount : Z) : bool * ResourceLimit :=
  let value := m_current_values r !!! type_index type in
  if value <? amount then (false, r)
  else (true, r<|m_current_values := <[type_index type := s32 (value - amount)]> (m_current_values r)|>).

(** The limits of a category, in the order of the types. *)
Definition limits (l : list (ResourceLimitType * Z)) : ResourceLimit :=
  foldl (fun r '(type, value) => SetLimitValue r type value) Create l.

Section list.
Context (is_new_3ds : bool) (app_memory : Z).
Let n3ds (x y : Z) : Z := if is_new_3ds then x else y.

(* src: resource_limit.cpp | ResourceLimitList::ResourceLimitList(KernelSystem& kernel) { *)
Definition ResourceLimitList : list ResourceLimit := [
  limits [(RPriority, 0x18); (RCommit, app_memory); (RThread, 0x20); (REvent, 0x20); (RMutex, 0x20);
          (RSemaphore, 0x8); (RTimer, 0x8); (RSharedMemory, 0x10); (RAddressArbiter, 0x2);
          (RCpuTime, 0)];
  limits [(RPriority, 0x4); (RCommit, n3ds 0x5E06000 0x2606000); (RThread, n3ds 0x1D 0xE);
          (REvent, n3ds 0xB 0x8); (RMutex, 0x8); (RSemaphore, 0x4); (RTimer, 0x4);
          (RSharedMemory, 0x8); (RAddressArbiter, 0x3); (RCpuTime, 0x2710)];
  limits [(RPriority, 0x4); (RCommit, 0x602000); (RThread, 0xE); (REvent, 0x8); (RMutex, 0x8);
          (RSemaphore, 0x4); (RTimer, 0x4); (RSharedMemory, 0x8); (RAddressArbiter, 0x1);
          (RCpuTime, 0x2710)];
  limits [(RPriority, 0x4); (RCommit, n3ds 0x2182000 0x1682000); (RThread, n3ds 0xE1 0xCA);
          (REvent, n3ds 0x108 0xF8); (RMutex, n3ds 0x25 0x23); (RSemaphore, n3ds 0x43 0x40);
          (RTimer, n3ds 0x2C 0x2B); (RSharedMemory, n3ds 0x1F 0x1E);
          (RAddressArbiter, n3ds 0x2D 0x2B); (RCpuTime, 0x3E8)]].

(* src: resource_limit.cpp | std::shared_ptr<ResourceLimit> ResourceLimitList::GetForCategory(ResourceLimitCategory category) { *)
Definition GetForCategory (l : list ResourceLimit) (category : ResourceLimitCategory) : ResourceLimit :=
  l !!! match category with Application => 0 | SysApplet => 1 | LibApplet => 2 | Other => 3 end%nat.
End list.

(** * The account of a resource

    The values are machine integers and no more is in use than the limit. *)
Record limit_ok r : Prop := {
  limit_lengths : length (m_limit_values r) = 10%nat ∧ length (m_current_values r) = 10%nat;
  limit_range : ∀ type, 0 <= GetCurrentValue r type <= GetLimitValue r type ∧
    GetLimitValue r type < 2 ^ 31
}.

Lemma type_index_lt type : (type_index type < 10)%nat.
Proof. destruct type; cbn; lia. Qed.
Lemma type_index_inj t1 t2 : type_index t1 = type_index t2 -> t1 = t2.
Proof. destruct t1, t2; done. Qed.

(** [Reserve] and [Release] change the account of one resource. *)
Definition account r r' type (x : Z) : Prop :=
  GetCurrentValue r' type = x ∧ (∀ t, GetLimitValue r' t = GetLimitValue r t) ∧
  ∀ t, t ≠ type -> GetCurrentValue r' t = GetCurrentValue r t.

Lemma account_set r type x : limit_ok r ->
  account r (r<|m_current_values := <[type_index type := x]> (m_current_values r)|>) type x.
Proof.
  intros [[_ L] _]. unfold account, GetCurrentValue, GetLimitValue. cbn. split; [|split; [done|]].
  - rewrite list_lookup_total_insert, decide_True; [done|]. split; [done|]. rewrite L. apply type_index_lt.
  - intros t N. rewrite list_lookup_total_insert_ne; [done|]. intros E. by apply type_index_inj in E.
Qed.

Lemma limit_ok_set r type x : limit_ok r -> 0 <= x <= GetLimitValue r type ->
  limit_ok (r<|m_current_values := <[type_index type := x]> (m_current_values r)|>).
Proof.
  intros H Hx. destruct (account_set r type x H) as (A & B & C). destruct H as [[L1 L2] R]. constructor.
  - cbn. rewrite length_insert. done.
  - intros t. rewrite B. destruct (decide (t = type)) as [->|N]; [|rewrite C by done; apply R].
    rewrite A. specialize (R type). lia.
Qed.

(** Giving back what has been taken restores the account. *)
Lemma Reserve_Release r type amount : limit_ok r -> 0 <= amount ->
  GetCurrentValue r type + amount <= GetLimitValue r type ->
  ∃ r', Reserve r type amount = (true, r') ∧ Release r' type amount = (true, r).
Proof.
  intros H Ha L. pose proof (limit_range r H type) as R. unfold Reserve. fold (GetCurrentValue r type) (GetLimitValue r type).
  rewrite swrap_id by (lia || (unfold in_srange; modlia)). rewrite (proj2 (Z.ltb_ge _ _)) by lia. eexists. split; [done|].
  destruct (account_set r type (GetCurrentValue r type + amount) H) as (A & _).
  unfold Release. fold (GetCurrentValue (r<|m_current_values := <[type_index type := GetCurrentValue r type + amount]> (m_current_values r)|>) type).
  rewrite A, (proj2 (Z.ltb_ge _ _)) by lia. rewrite swrap_id by (lia || (unfold in_srange; modlia)).
  destruct r as [lv cv]. cbn. rewrite list_insert_insert, decide_True by done. do 2 f_equal.
  replace (_ + amount - amount) with (cv !!! type_index type) by (unfold GetCurrentValue; cbn; lia).
  apply list_insert_id. apply list_lookup_lookup_total_lt. destruct H as [[_ Lc] _]. cbn in Lc. rewrite Lc. apply type_index_lt.
Qed.

(** Reserving a non-negative amount succeeds exactly when the limit is not
    exceeded and then adds the amount to that resource only; when the sum does
    not leave [s32], that is the comparison of the exact sum.  Releasing what is
    in use gives it back, releasing more fails and changes nothing.  Both keep
    every account between zero and its limit. *)
Theorem reserve_release_accounts r type amount : limit_ok r -> 0 <= amount < 2 ^ 31 ->
  let total := GetCurrentValue r type + amount in
  (total < 2 ^ 31 ->
   let '(ok, r') := Reserve r type amount in
   ok = (total <=? GetLimitValue r type) ∧ limit_ok r' ∧
   if ok then account r r' type total ∧ Release r' type amount = (true, r) else r' = r) ∧
  let '(ok, r') := Release r type amount in
  ok = (amount <=? GetCurrentValue r type) ∧ limit_ok r' ∧
  if ok then account r r' type (GetCurrentValue r type - amount) else r' = r.
Proof.
  intros H Ha. cbv zeta. pose proof (limit_range r H type) as R. split.
  - intros Ht. unfold Reserve. fold (GetCurrentValue r type) (GetLimitValue r type).
    rewrite swrap_id by (lia || (unfold in_srange; modlia)).
    destruct (Z.ltb_spec (GetLimitValue r type) (GetCurrentValue r type + amount)).
    + split; [symmetry; apply Z.leb_gt; lia|done].
    + split; [symmetry; apply Z.leb_le; lia|].
      split; [apply limit_ok_set; [done|lia]|]. destruct (account_set r type (GetCurrentValue r type + amount) H) as (A & B & C).
      split; [done|]. destruct (Reserve_Release r type amount H ltac:(lia) ltac:(lia)) as (r' & E & K). revert E.
      unfold Reserve. fold (GetCurrentValue r type) (GetLimitValue r type).
      rewrite swrap_id by (lia || (unfold in_srange; modlia)). rewrite (proj2 (Z.ltb_ge _ _)) by lia. intros [= <-]. exact K.
  - unfold Release. fold (GetCurrentValue r type).
    destruct (Z.ltb_spec (GetCurrentValue r type) amount).
    + split; [symmetry; apply Z.leb_gt; lia|done].
    + rewrite swrap_id by (lia || (unfold in_srange; modlia)).
      split; [symmetry; apply Z.leb_le; lia|]. split; [apply limit_ok_set; [done|lia]|].
      by apply account_set.
Qed.

(** The sum is not checked for overflow: a reservation that leaves [s32] is
    accepted and makes the account negative. *)
Example Reserve_overflow : let r := limits [(RCommit, 2 ^ 31 - 1)] in
  let '(_, r) := Reserve r RCommit (2 ^ 31 - 1) in
  let '(ok, r) := Reserve r RCommit 1 in
  ok = true ∧ GetCurrentValue r RCommit = - 2 ^ 31.
Proof. done. Qed.

(** Limits that are not negative and no use. *)
Definition fresh r : Prop :=
  length (m_limit_values r) = 10%nat ∧ m_current_values r = replicate 10 0 ∧
  Forall (fun x => 0 <= x < 2 ^ 31) (m_limit_values r).

Lemma fresh_ok r : fresh r -> limit_ok r.
Proof.
  intros (L & C & F). constructor; [by rewrite C|]. intros t. unfold GetCurrentValue, GetLimitValue.
  rewrite C. rewrite (lookup_total_replicate_2 10) by apply type_index_lt.
  rewrite Forall_lookup in F. specialize (F (type_index t) _
    (list_lookup_lookup_total_lt _ _ (eq_ind_r (fun n => (_ < n)%nat) (type_index_lt t) L))). lia.
Qed.

Lemma limits_fresh l : Forall (fun p => 0 <= p.2 < 2 ^ 31) l -> fresh (limits l).
Proof.
  unfold limits. assert (H : fresh Create) by (split_and!; [done..|]; repeat constructor; done).
  revert H. generalize Create as r. induction l as [|[t v] l IH]; intros r H F; [done|].
  apply Forall_cons in F as [Fv F]. cbn [foldl]. apply IH; [|done].
  destruct H as (L & C & G). split_and!; cbn; [by rewrite length_insert|done|].
  apply Forall_insert; done.
Qed.

Lemma ResourceLimitList_ok b m : 0 <= m < 2 ^ 31 -> Forall limit_ok (ResourceLimitList b m).
Proof.
  intros Hm. unfold ResourceLimitList.
  repeat (apply Forall_cons_2 || apply Forall_nil_2); apply fresh_ok, limits_fresh;
    repeat (apply Forall_cons_2 || apply Forall_nil_2); cbn [snd]; destruct b; cbv zeta; lia.
Qed.

Lemma reserve_release_accounts_witness :
  let r := GetForCategory (ResourceLimitList false 0x4000000) Application in
  limit_ok r ∧ ∃ r', Reserve r RThread 32 = (true, r') ∧ Release r' RThread 32 = (true, r) ∧
  Reserve r' RThread 1 = (false, r').
Proof.
  cbv zeta. set (r := GetForCategory _ _).
  assert (H : limit_ok r).
  { pose proof (ResourceLimitList_ok false 0x4000000 ltac:(lia)) as F. inversion F. done. }
  split; [exact H|].
  destruct (reserve_release_accounts r RThread 32 H ltac:(lia)) as (H1 & _).
  specialize (H1 ltac:(done)). destruct (Reserve r RThread 32) as [ok r'] eqn:E.
  destruct H1 as (Eok & _ & H1). vm_compute in Eok. subst ok. exists r'. split; [done|].
  split; [apply H1|]. vm_compute in E. injection E as <-. done.
Defined.
