(* ===== verification/Process.v ===== *)
(** The memory of the processes: [kernel/process.h], [kernel/process.cpp], and the
    mappings of [kernel/memory.cpp].

    [KernelMemory] is the part of the kernel these functions share: the memory
    system, the three memory regions, the resource limits and the processes, by
    number.  An address space refers to the memory system; it is given the
    current one when an operation begins ([vm_of]) and what the operation leaves
    is taken back ([on_vm]).  A failed assertion and following a null pointer are
    [None]. *)

From S2P Require Import Prelude BitField Result ResourceLimit HandleTable Memory IntervalSet MemoryRegion VmManager.

(** * Data *)

(* src: kernel/process.h | struct AddressMapping { *)
Record AddressMapping := mk_AddressMapping { address : Z; mapping_size : Z; read_only : bool; unk_flag : bool }.
(* src: kernel/process.h | memory_region;                ///< Default region for memory allocations for this process | ProcessFlags | +1 *)
Definition flags_memory_region := BitField 8 4.
(* src: kernel/process.h | enum class ProcessStatus { Created, Running, Exited }; *)
Inductive ProcessStatus := Created | Running | Exited.
#[export] Instance ProcessStatus_eq_dec : EqDecision ProcessStatus.
Proof. solve_decision. Defined.
(* src: kernel/process.h | struct Segment { *)
Record Segment := mk_Segment { segment_offset : Z; segment_addr : Z; segment_size : Z }.
(* src: kernel/process.h | class CodeSet final : public Object { *)
Record CodeSet := mk_CodeSet {
  code_memory : list Z; segments : list Segment; entrypoint : Z; program_id : Z;
  codeset_name : list Z              (* characters *)
}.
#[export] Instance CodeSet_inhabited : Inhabited CodeSet := populate (mk_CodeSet [] [] 0 0 []).

Section process.
Context {S : Type} `{IVS : IntervalSet S} `{gpu : GPU}.

(** [Obj] is the type of what the handle table refers to; regions and resource
    limits are named by their places in the kernel's lists, [None] before they
    are set. *)
Context {Obj : Type}.

(* src: kernel/process.h | class Process final : public Object { *)
Record Process := mk_Process {
  handle_table : HandleTable Obj;
  codeset : CodeSet;
  resource_limit : option nat;
  svc_access_mask : Z;               (* 128 bits *)
  handle_table_size : Z;
  address_mappings : list AddressMapping;
  flags : Z;
  kernel_version : Z;
  status : ProcessStatus;
  process_id : Z;
  creation_time_ticks : Z;
  vm_manager : VMManager;
  memory_used : Z;
  memory_region : option nat;
  holding_memory : S;
  holding_tls_memory : S;
  tls_slots : list Z;                (* 8 bits each *)
  ideal_processor : Z;
  no_thread_restrictions : bool
}.

(* src: kernel/kernel.h | std::array<std::shared_ptr<MemoryRegionInfo>, 3> memory_regions{}; | KernelSystem | +1 *)
Record KernelMemory := mk_KernelMemory {
  kmem : MemorySystem;
  memory_regions : list (MemoryRegionInfo S);
  resource_limits : list ResourceLimit;
  processes : gmap nat Process;
  process_list : list nat;
  next_process_id : Z;
  config_mem_ref : MemoryRef;
  shared_page_ref : MemoryRef
}.
Implicit Types (k : KernelMemory) (p : nat).

Definition set_process k p (x : Process) : KernelMemory := k<|processes := <[p := x]> (processes k)|>.
Definition set_region k (i : nat) (r : MemoryRegionInfo S) : KernelMemory :=
  k<|memory_regions := <[i := r]> (memory_regions k)|>.
Definition set_limit k (i : nat) (r : ResourceLimit) : KernelMemory :=
  k<|resource_limits := <[i := r]> (resource_limits k)|>.

Definition vm_of k (x : Process) : VMManager := (vm_manager x)<|memory := kmem k|>.
Definition on_vm {A} k p (f : VMManager -> option (A * VMManager)) : option (A * KernelMemory) :=
  x ← processes k !! p;
  '(a, vm) ← f (vm_of k x);
  Some (a, (set_process k p (x<|vm_manager := vm|>))<|kmem := memory vm|>).

(** [memory_used += n] *)
Definition add_used k p (n : Z) : option KernelMemory :=
  x ← processes k !! p; Some (set_process k p (x<|memory_used := u32 (memory_used x + n)|>)).
(** The result of [Reserve] and [Release] is not looked at; the amount is
    converted to [s32]. *)
Definition reserve_commit k p (size : Z) : option KernelMemory :=
  x ← processes k !! p; i ← resource_limit x; r ← resource_limits k !! i;
  Some (set_limit k i (snd (Reserve r RCommit (s32 size)))).
Definition release_commit k p (size : Z) : option KernelMemory :=
  x ← processes k !! p; i ← resource_limit x; r ← resource_limits k !! i;
  Some (set_limit k i (snd (Release r RCommit (s32 size)))).

(** [std::fill] with zeros from an offset of FCRAM to another. *)
Definition fill_zero ms (p q : option Pointer) : option MemorySystem :=
  p ← p; q ← q; '(b, o) ← p; '(_, e) ← q;
  set_bytes ms <$> store (bytes ms) p (replicate (Z.to_nat (e - o)) 0).
Definition fill_fcram k (lower upper : Z) : option KernelMemory :=
  ms ← fill_zero (kmem k) (GetFCRAMPointer lower) (GetFCRAMPointer upper); Some (k<|kmem := ms|>).

(** * Capabilities *)

(** The bits of an entry of the list of allowed calls. *)
(* src: process.cpp | while (bits && index < svc_access_mask.size()) { *)
Fixpoint set_svcs (fuel : nat) (mask bits index : Z) : Z :=
  match fuel with
  | O => mask
  | Datatypes.S fuel =>
      if nz bits && (index <? 0x80)
      then set_svcs fuel (if nz (bits .& 1) then Z.setbit mask index else Z.clearbit mask index)
             (bits ≫ 1) (index + 1)
      else mask
  end.
(** The vector of mappings has room for eight. *)
Definition push_mapping (x : Process) (m : AddressMapping) : option Process :=
  if decide (length (address_mappings x) < 8)%nat
  then Some (x<|address_mappings := address_mappings x ++ [m]|>) else None.
(* src: process.cpp | mapping.address = descriptor << 12; #1 | Process::ParseKernelCaps | +11 *)
Definition range_mapping (descriptor end_desc : Z) : AddressMapping :=
  let addr := u32 (descriptor ≪ 12) in
  let end_address := u32 (end_desc ≪ 12) in
  mk_AddressMapping addr (if addr <? end_address then u32 (end_address - addr) else 0)
    (nz (descriptor .& (1 ≪ 20))) (nz (end_desc .& (1 ≪ 20))).
(* src: process.cpp | mapping.address = descriptor << 12; #2 | Process::ParseKernelCaps | +4 *)
Definition page_mapping (descriptor : Z) : AddressMapping :=
  mk_AddressMapping (u32 (descriptor ≪ 12)) CITRA_PAGE_SIZE false false.

(* src: process.cpp | void Process::ParseKernelCaps(const u32* kernel_caps, std::size_t len) { *)
Fixpoint ParseKernelCaps (x : Process) (kernel_caps : list Z) : option Process :=
  match kernel_caps with
  | [] => Some x
  | descriptor :: caps =>
      let type := descriptor ≫ 20 in
      if descriptor =? 0xFFFFFFFF then ParseKernelCaps x caps
      else if (type .& 0xF00) =? 0xE00 then ParseKernelCaps x caps
      else if (type .& 0xF80) =? 0xF00 then
        let index := ((descriptor ≫ 24) .& 7) * 24 in
        ParseKernelCaps (x<|svc_access_mask := set_svcs 24 (svc_access_mask x) (descriptor .& 0xFFFFFF) index|>) caps
      else if (type .& 0xFF0) =? 0xFE0 then ParseKernelCaps (x<|handle_table_size := descriptor .& 0x3FF|>) caps
      else if (type .& 0xFF8) =? 0xFF0 then ParseKernelCaps (x<|flags := descriptor .& 0xFFFF|>) caps
      else if (type .& 0xFFE) =? 0xFF8 then
        match caps with
        | end_desc :: caps' =>
            if ((end_desc ≫ 20) .& 0xFFE) =? 0xFF8
            then x ← push_mapping x (range_mapping descriptor end_desc); ParseKernelCaps x caps'
            else ParseKernelCaps x caps
        | [] => Some x
        end
      else if (type .& 0xFFF) =? 0xFFE then x ← push_mapping x (page_mapping descriptor); ParseKernelCaps x caps
      else if (type .& 0xFE0) =? 0xFC0 then ParseKernelCaps (x<|kernel_version := descriptor .& 0xFFFF|>) caps
      else ParseKernelCaps x caps
  end.
(* src: process.cpp | void Process::Set3dsxKernelCaps() { *)
Definition Set3dsxKernelCaps (x : Process) : Process :=
  x<|svc_access_mask := 2 ^ 128 - 1|>
   <|address_mappings := [mk_AddressMapping 0x1FF50000 0x8000 true false;
       mk_AddressMapping 0x1FF70000 0x8000 true false; mk_AddressMapping 0x1F000000 0x600000 false false]|>
   <|kernel_version := 0x234|>.

(** * The heap and the linear heap *)

Definition map_block k p (target : Z) (mem : MemoryRef) (len : Z) (st : MemoryState) (perms : VMAPermission)
    : option KernelMemory :=
  snd <$> on_vm k p (fun vm => vm ← map_protect vm target mem len st perms; Some ((), vm)).

(** Whether the addresses asked for are in one free area; an address beyond the
    space is followed through [end()]. *)
(* src: process.cpp | auto vma = vm_manager.FindVMA(target); #1 | Process::HeapAllocate | +3 *)
Definition free_in_area vm (target size : Z) : option bool :=
  found ← FindVMA vm target; v ← found;
  Some (bool_decide (type v = VMAFree) && (u32 (target + size) <=? u32 (VmManager.base v + VmManager.size v))).

(* src: process.cpp | for (const auto& interval : allocated_fcram) { *)
Fixpoint map_intervals k p (interval_target : Z) (intervals : list Block) (perms : VMAPermission) (st : MemoryState)
    : option KernelMemory :=
  match intervals with
  | [] => Some k
  | (lower, upper) :: intervals =>
      let interval_size := u32 (upper - lower) in
      k ← fill_fcram k lower upper;
      mem ← GetFCRAMRef lower;
      k ← map_block k p interval_target mem interval_size st perms;
      map_intervals k p (u32 (interval_target + interval_size)) intervals perms st
  end.

Definition outside_heap (target size : Z) : bool :=
  (target <? HEAP_VADDR) || (HEAP_VADDR_END <? u32 (target + size)) || (u32 (target + size) <? target).
(** The result and [*out_addr]. *)
(* src: process.cpp | Result Process::HeapAllocate(VAddr* out_addr, VAddr target, u32 size, VMAPermission perms, *)
Definition HeapAllocate k p (target size : Z) (perms : VMAPermission) (memory_state : MemoryState)
    (skip_range_check : bool) : option (Result * option Z * KernelMemory) :=
  if outside_heap target size && negb skip_range_check then Some (ResultInvalidAddress, None, k)
  else
    x ← processes k !! p;
    free ← free_in_area (vm_of k x) target size;
    if negb free then Some (ResultInvalidAddressState, None, k)
    else
      i ← memory_region x; r ← memory_regions k !! i;
      '(allocated_fcram, r) ← MemoryRegion.HeapAllocate r size;
      let k := set_region k i r in
      match iv_blocks allocated_fcram with
      | [] => Some (ResultOutOfHeapMemory, None, k)
      | intervals =>
          k ← map_intervals k p target intervals perms memory_state;
          x ← processes k !! p;
          let k := set_process k p (x<|holding_memory := iv_union (holding_memory x) allocated_fcram|>) in
          k ← add_used k p size;
          k ← reserve_commit k p size;
          Some (ResultSuccess, Some target, k)
      end.

(** Giving a block of the process back to its region. *)
(* src: process.cpp | const auto backing_offset = kernel.memory.GetFCRAMOffset(backing_memory.GetPtr()); | Process::HeapFree | +3 *)
Definition free_block k p (b : MemoryRef * Z) : option KernelMemory :=
  backing_offset ← GetFCRAMOffset (GetPtr b.1);
  x ← processes k !! p; i ← memory_region x; r ← memory_regions k !! i;
  r ← Free r backing_offset b.2;
  let k := set_region k i r in
  Some (set_process k p
    (x<|holding_memory := iv_sub backing_offset (u32 (backing_offset + b.2)) (holding_memory x)|>)).
Fixpoint fold_blocks {A} k (f : KernelMemory -> A -> option KernelMemory) (l : list A) : option KernelMemory :=
  match l with [] => Some k | x :: l => k ← f k x; fold_blocks k f l end.

(* src: process.cpp | Result Process::HeapFree(VAddr target, u32 size) { *)
Definition HeapFree k p (target size : Z) : option (Result * KernelMemory) :=
  if outside_heap target size then Some (ResultInvalidAddress, k)
  else if size =? 0 then Some (ResultSuccess, k)
  else
    x ← processes k !! p;
    blocks ← GetBackingBlocksForRange (vm_of k x) target size;
    match blocks with
    | RV_err e => Some (e, k)
    | RV_val backing_blocks =>
        k ← fold_blocks k (fun k b => free_block k p b) backing_blocks;
        '(result, k) ← on_vm k p (fun vm => UnmapRange vm target size);
        if IsSuccess result then
          k ← add_used k p (- size);
          k ← release_commit k p size;
          Some (ResultSuccess, k)
        else None
    end.

(* src: process.cpp | VAddr Process::GetLinearHeapAreaAddress() const { *)
Definition GetLinearHeapAreaAddress (x : Process) : Z :=
  if kernel_version x <? 0x22C then LINEAR_HEAP_VADDR else NEW_LINEAR_HEAP_VADDR.
(* src: process.cpp | VAddr Process::GetLinearHeapBase() const { *)
Definition GetLinearHeapBase k (x : Process) : option Z :=
  i ← memory_region x; r ← memory_regions k !! i;
  Some (u32 (GetLinearHeapAreaAddress x + MemoryRegion.base r)).
(* src: process.cpp | VAddr Process::GetLinearHeapLimit() const { *)
Definition GetLinearHeapLimit k (x : Process) : option Z :=
  i ← memory_region x; r ← memory_regions k !! i; b ← GetLinearHeapBase k x;
  Some (u32 (b + MemoryRegion.size r)).
(* src: process.cpp | if (target < GetLinearHeapBase() || target + size > GetLinearHeapLimit() || #1 | Process::LinearAllocate | +2 *)
Definition outside_linear_heap k (x : Process) (target size : Z) : option bool :=
  b ← GetLinearHeapBase k x; l ← GetLinearHeapLimit k x;
  Some ((target <? b) || (l <? u32 (target + size)) || (u32 (target + size) <? target)).

(** Finding a place: an error, or the offset in FCRAM and the address. *)
(* src: process.cpp | u32 physical_offset; | Process::LinearAllocate | +31 *)
Definition linear_place k p (target size : Z) : option (sum Result (Z * Z) * KernelMemory) :=
  x ← processes k !! p; i ← memory_region x; r ← memory_regions k !! i;
  if target =? 0 then
    '(offset, r) ← MemoryRegion.LinearAllocate r size;
    let k := set_region k i r in
    match offset with
    | None => Some (inl ResultOutOfHeapMemory, k)
    | Some offset => Some (inr (offset, u32 (offset + GetLinearHeapAreaAddress x)), k)
    end
  else
    outside ← outside_linear_heap k x target size;
    if outside : bool then Some (inl ResultInvalidAddress, k)
    else
      let physical_offset := u32 (target - GetLinearHeapAreaAddress x) in
      '(ok, r) ← LinearAllocateAt r physical_offset size;
      let k := set_region k i r in
      if negb ok then Some (inl ResultInvalidAddressState, k) else Some (inr (physical_offset, target), k).
(* src: process.cpp | Result Process::LinearAllocate(VAddr* out_addr, VAddr target, u32 size, VMAPermission perms) { *)
Definition LinearAllocate k p (target size : Z) (perms : VMAPermission) : option (Result * option Z * KernelMemory) :=
  '(place, k) ← linear_place k p target size;
  match place with
  | inl e => Some (e, None, k)
  | inr (physical_offset, target) =>
      backing_memory ← GetFCRAMRef physical_offset;
      ms ← fill_zero (kmem k) (Some (GetPtr backing_memory)) (Some (ptr_add (GetPtr backing_memory) size));
      k ← map_block (k<|kmem := ms|>) p target backing_memory size Continuous perms;
      x ← processes k !! p;
      let k := set_process k p
        (x<|holding_memory := iv_add physical_offset (u32 (physical_offset + size)) (holding_memory x)|>) in
      k ← add_used k p size;
      k ← reserve_commit k p size;
      Some (ResultSuccess, Some target, k)
  end.
(* src: process.cpp | Result Process::LinearFree(VAddr target, u32 size) { *)
Definition LinearFree k p (target size : Z) : option (Result * KernelMemory) :=
  x ← processes k !! p;
  outside ← outside_linear_heap k x target size;
  if outside : bool then Some (ResultInvalidAddress, k)
  else if size =? 0 then Some (ResultSuccess, k)
  else
    '(result, k) ← on_vm k p (fun vm => UnmapRange vm target size);
    if IsError result then Some (result, k)
    else
      let physical_offset := u32 (target - GetLinearHeapAreaAddress x) in
      i ← memory_region x; r ← memory_regions k !! i;
      r ← Free r physical_offset size;
      let k := set_region k i r in
      x ← processes k !! p;
      let k := set_process k p
        (x<|holding_memory := iv_sub physical_offset (u32 (physical_offset + size)) (holding_memory x)|>) in
      k ← add_used k p (- size);
      k ← release_commit k p size;
      Some (ResultSuccess, k).
(** * Thread-local storage *)

(** The first free slot of the pages there are, by pages. *)
(* src: process.cpp | for (tls_slot = 0; tls_slot < page_tls_slots.size(); ++tls_slot) { *)
Definition free_slot (slots : Z) : option nat :=
  fst <$> list_find (fun i => Z.testbit slots (Z.of_nat i) = false) (seq 0 8).
(* src: process.cpp | for (tls_page = 0; tls_page < tls_slots.size(); ++tls_page) { *)
Fixpoint find_tls (slots : list Z) (page : nat) : option (nat * nat) :=
  match slots with
  | [] => None
  | s :: slots => match free_slot s with Some slot => Some (page, slot) | None => find_tls slots (Datatypes.S page) end
  end.
(** A new page from the BASE region; the result of mapping it is not looked at. *)
(* src: process.cpp | auto base_memory_region = kernel.GetMemoryRegion(MemoryRegion::BASE); #1 | Process::AllocateThreadLocalStorage | +24 *)
Definition new_tls_page k p (tls_page : nat) : option (bool * KernelMemory) :=
  let b := region_index BASE in
  r ← memory_regions k !! b;
  '(offset, r) ← MemoryRegion.LinearAllocate r CITRA_PAGE_SIZE;
  let k := set_region k b r in
  match offset with
  | None => Some (false, k)
  | Some offset =>
      x ← processes k !! p;
      let k := set_process k p
        (x<|holding_tls_memory := iv_add offset (u32 (offset + CITRA_PAGE_SIZE)) (holding_tls_memory x)|>
          <|memory_used := u32 (memory_used x + CITRA_PAGE_SIZE)|><|tls_slots := tls_slots x ++ [0]|>) in
      mem ← GetFCRAMRef offset;
      '(_, k) ← on_vm k p (fun vm =>
        MapBackingMemory vm (u32 (TLS_AREA_VADDR + Z.of_nat tls_page * CITRA_PAGE_SIZE)) mem CITRA_PAGE_SIZE Locked);
      Some (true, k)
  end.
(* src: process.cpp | ResultVal<VAddr> Process::AllocateThreadLocalStorage() { *)
Definition AllocateThreadLocalStorage k p : option (ResultVal Z * KernelMemory) :=
  x ← processes k !! p;
  '(found, k) ← match find_tls (tls_slots x) 0 with
                | Some place => Some (Some place, k)
                | None => '(ok, k) ← new_tls_page k p (length (tls_slots x));
                          Some (if ok : bool then Some (length (tls_slots x), 0%nat) else None, k)
                end;
  match found with
  | None => Some (RV_err ResultOutOfMemory, k)
  | Some (tls_page, tls_slot) =>
      x ← processes k !! p;
      slots ← tls_slots x !! tls_page;
      let k := set_process k p (x<|tls_slots := <[tls_page := Z.setbit slots (Z.of_nat tls_slot)]> (tls_slots x)|>) in
      let tls_address := u32 (TLS_AREA_VADDR + Z.of_nat tls_page * CITRA_PAGE_SIZE + Z.of_nat tls_slot * TLS_ENTRY_SIZE) in
      ms ← ZeroBlock (kmem k) (VmManager.page_table (vm_manager x)) tls_address TLS_ENTRY_SIZE;
      Some (RV_val tls_address, k<|kmem := ms|>)
  end.

(** * Mapping memory of the process a second time *)

(** The two ranges overlap. *)
Definition ranges_overlap (target source size : Z) : bool :=
  (u32 (source - target) <? size) || (u32 (target - source) <? size).
(* src: process.cpp | for (const auto& [backing_memory, block_size] : backing_blocks) { #2 | Process::Map *)
Fixpoint map_blocks vm (interval_target : Z) (blocks : list (MemoryRef * Z)) (st : MemoryState) (perms : VMAPermission)
    : option VMManager :=
  match blocks with
  | [] => Some vm
  | (backing_memory, block_size) :: blocks =>
      vm ← map_protect vm interval_target backing_memory block_size st perms;
      map_blocks vm (u32 (interval_target + block_size)) blocks st perms
  end.
(* src: process.cpp | Result Process::Map(VAddr target, VAddr source, u32 size, VMAPermission perms, bool privileged) { *)
Definition Map vm (target source size : Z) (perms : VMAPermission) (privileged : bool) : option (Result * VMManager) :=
  if negb privileged && outside_heap source size then Some (ResultInvalidAddress, vm)
  else if ranges_overlap target source size then
    if privileged then
      if source =? target
      then ChangeMemoryState vm source size Private PermReadWrite AliasCode perms
      else Some (ResultInvalidAddress, vm)
    else Some (ResultInvalidAddressState, vm)
  else
    free ← free_in_area vm target size;
    if negb free then Some (ResultInvalidAddressState, vm)
    else
      let source_state := if privileged then VmManager.Locked else Aliased in
      let target_state := if privileged then AliasCode else Alias in
      let source_perm := if privileged then PermNone else PermReadWrite in
      '(res, vm) ← ChangeMemoryState vm source size Private PermReadWrite source_state source_perm;
      if IsError res then Some (res, vm)
      else
        backing_blocks ← GetBackingBlocksForRange vm source size;
        match backing_blocks with
        | RV_err e => Some (e, vm)
        | RV_val backing_blocks =>
            vm ← map_blocks vm target backing_blocks target_state perms; Some (ResultSuccess, vm)
        end.
(* src: process.cpp | Result Process::Unmap(VAddr target, VAddr source, u32 size, VMAPermission perms, bool privileged) { *)
Definition Unmap vm (target source size : Z) (perms : VMAPermission) (privileged : bool) : option (Result * VMManager) :=
  if negb privileged && outside_heap source size then Some (ResultInvalidAddress, vm)
  else if ranges_overlap target source size then
    if privileged then
      if source =? target
      then ChangeMemoryState vm source size AliasCode PermNone Private perms
      else Some (ResultInvalidAddress, vm)
    else Some (ResultInvalidAddressState, vm)
  else
    let source_state := if privileged then VmManager.Locked else Aliased in
    '(res, vm) ← UnmapRange vm target size;
    if IsError res then Some (res, vm)
    else
      '(res, vm) ← ChangeMemoryState vm source size source_state PermNone Private perms;
      if IsError res then Some (res, vm) else Some (ResultSuccess, vm).
(** The same, on a process. *)
Definition Process_Map k p (target source size : Z) (perms : VMAPermission) (privileged : bool) :=
  on_vm k p (fun vm => Map vm target source size perms privileged).
Definition Process_Unmap k p (target source size : Z) (perms : VMAPermission) (privileged : bool) :=
  on_vm k p (fun vm => Unmap vm target source size perms privileged).

(** * Creation, start and end *)

(* src: process.cpp | for (auto& entry : holding_memory) { *)
Definition free_holding k p (b : Block) : option KernelMemory :=
  x ← processes k !! p; i ← memory_region x; r ← memory_regions k !! i;
  let size := u32 (b.2 - b.1) in
  r ← Free r b.1 size;
  k ← add_used (set_region k i r) p (- size);
  release_commit k p size.
(* src: process.cpp | for (auto& entry : holding_tls_memory) { *)
Definition free_tls k p (b : Block) : option KernelMemory :=
  r ← memory_regions k !! region_index BASE;
  let size := u32 (b.2 - b.1) in
  r ← Free r b.1 size;
  add_used (set_region k (region_index BASE) r) p (- size).
(* src: process.cpp | void Process::FreeAllMemory() { *)
Definition FreeAllMemory k p : option KernelMemory :=
  x ← processes k !! p;
  match memory_region x, resource_limit x with
  | Some _, Some _ =>
      k ← fold_blocks k (fun k b => free_holding k p b) (iv_blocks (holding_memory x));
      x ← processes k !! p;
      let k := set_process k p (x<|holding_memory := iv_empty|>) in
      k ← fold_blocks k (fun k b => free_tls k p b) (iv_blocks (holding_tls_memory x));
      x ← processes k !! p;
      Some (set_process k p (x<|holding_tls_memory := iv_empty|><|tls_slots := []|>))
  | _, _ => Some k
  end.

(** A new process [p] with the page table [t], neither in use before. *)
(* src: process.cpp | std::shared_ptr<Process> KernelSystem::CreateProcess(std::shared_ptr<CodeSet> code_set) { *)
Definition CreateProcess k p (t : nat) (code_set : CodeSet) (ticks : Z) : option KernelMemory :=
  vm ← VmManager.Reset (mk_VMManager (kmem k) [] t false 0);
  let ms := RegisterPageTable (memory vm) t in
  let id := u32 (next_process_id k + 1) in
  let x := mk_Process (new_HandleTable Obj) code_set None 0 0x200 []
    (FormatValue 16 flags_memory_region 1) 0 Created id ticks vm 0 None iv_empty iv_empty [] 0 false in
  Some ((set_process k p x)<|kmem := ms|><|process_list := process_list k ++ [p]|><|next_process_id := id|>).
(* src: process.cpp | Kernel::Process::~Process() { *)
Definition DestroyProcess k p : option KernelMemory :=
  x ← processes k !! p;
  k ← FreeAllMemory (set_process k p (x<|handle_table := HandleTable.Clear (handle_table x)|>)) p;
  Some (k<|kmem := UnregisterPageTable (kmem k) (VmManager.page_table (vm_manager x))|>
         <|processes := delete p (processes k)|>).

(* src: kernel/memory.cpp | static constexpr MemoryArea memory_areas[] = { | KernelSystem::HandleSpecialMapping | +6 *)
Definition special_areas : list (Z * Z * Z) :=
  [(VRAM_VADDR, VRAM_PADDR, VRAM_SIZE); (IO_AREA_VADDR, IO_AREA_PADDR, IO_AREA_SIZE);
   (DSP_RAM_VADDR, DSP_RAM_PADDR, DSP_RAM_SIZE);
   (N3DS_EXTRA_RAM_VADDR, N3DS_EXTRA_RAM_PADDR, N3DS_EXTRA_RAM_SIZE - 0x20000)].
(* src: kernel/memory.cpp | void KernelSystem::HandleSpecialMapping(VMManager& address_space, const AddressMapping& mapping) { *)
Definition HandleSpecialMapping vm (m : AddressMapping) : option VMManager :=
  let mapping_limit := u32 (address m + mapping_size m) in
  if mapping_limit <? address m then Some vm
  else
    match list_find (fun '(vaddr_base, _, size) => vaddr_base <= address m ∧ mapping_limit <= vaddr_base + size)
            special_areas with
    | None => Some vm
    | Some (_, (vaddr_base, paddr_base, _)) =>
        let offset_into_region := u32 (address m - vaddr_base) in
        if paddr_base =? IO_AREA_PADDR then Some vm
        else
          target_pointer ← GetPhysicalRef (u32 (paddr_base + offset_into_region));
          map_protect vm (address m) target_pointer (mapping_size m) (if unk_flag m then Static else IO)
            (if read_only m then PermRead else PermReadWrite)
    end.
(* src: kernel/memory.cpp | void KernelSystem::MapSharedPages(VMManager& address_space) { *)
Definition MapSharedPages k vm : option VMManager :=
  vm ← map_protect vm CONFIG_MEMORY_VADDR (config_mem_ref k) CONFIG_MEMORY_SIZE Shared PermRead;
  map_protect vm SHARED_PAGE_VADDR (shared_page_ref k) SHARED_PAGE_SIZE Shared PermRead.

(** [PermExecute] and [PermReadExecute]. *)
(* src: vm_manager.h | enum class VMAPermission : u8 { | VMAPermission *)
Definition PermReadExecute : VMAPermission := PermRead .| 4.
(** The result of the allocation is not looked at. *)
(* src: process.cpp | auto MapSegment = [&](CodeSet::Segment& segment, VMAPermission permissions, *)
Definition MapSegment k p (s : Segment) (permissions : VMAPermission) (memory_state : MemoryState) : option KernelMemory :=
  '(_, _, k) ← HeapAllocate k p (segment_addr s) (segment_size s) permissions memory_state true;
  x ← processes k !! p;
  ms ← WriteBlock (kmem k) (VmManager.page_table (vm_manager x)) (segment_addr s)
         (HostBuffer (drop (Z.to_nat (segment_offset s)) (code_memory (codeset x)))) (segment_size s);
  Some (k<|kmem := ms|>).
Definition map_special k p : option KernelMemory :=
  x ← processes k !! p;
  snd <$> on_vm k p (fun vm =>
    vm ← MapSharedPages k vm;
    vm ← foldr (fun m run vm => vm ← HandleSpecialMapping vm m; run vm) Some (address_mappings x) vm;
    Some ((), vm)).
(** The memory of a process that starts: [Run] up to the plugin loader, when a
    thread can be reserved; [None] inside of the pair when it cannot. *)
(* src: process.cpp | void Process::Run(s32 main_thread_priority, u32 stack_size) { | Process::Run | ..kernel.HandleSpecialMapping *)
Definition run_memory k p (stack_size : Z) : option (bool * KernelMemory) :=
  x ← processes k !! p;
  let region := ExtractValue 16 flags_memory_region (flags x) in
  if (region <? 1) || (3 <? region) then None
  else
    let k := set_process k p (x<|memory_region := Some (Z.to_nat (region - 1))|>) in
    i ← resource_limit x; l ← resource_limits k !! i;
    let '(ok, l) := Reserve l RThread 1 in
    let k := set_limit k i l in
    if negb ok then Some (false, k)
    else
      match segments (codeset x) with
      | [code; rodata; data] =>
          k ← MapSegment k p code PermReadExecute Code;
          k ← MapSegment k p rodata PermRead Code;
          k ← MapSegment k p data PermReadWrite Private;
          '(_, _, k) ← HeapAllocate k p (u32 (HEAP_VADDR_END - stack_size)) stack_size PermReadWrite VmManager.Locked true;
          k ← map_special k p;
          Some (true, k)
      | _ => None
      end.
End process.
Arguments Process S Obj : clear implicits.
Arguments KernelMemory S Obj : clear implicits.
