(* ===== verification/SharedMemory.v ===== *)
(** Blocks of shared memory: [kernel/shared_memory.h] and
    [kernel/shared_memory.cpp]. *)

From S2P Require Import Prelude Result ResourceLimit Memory IntervalSet MemoryRegion VmManager Process.

(** A permission is the bits of [MemoryPermission]. *)
Abbreviation MemoryPermission := Z (only parsing).
(* src: kernel/kernel.h | enum class MemoryPermission : u32 { | MemoryPermission *)
Definition DontCare : MemoryPermission := 1 ≪ 28.
(* src: kernel/kernel.h | enum class MemoryPermission : u32 { | MemoryPermission *)
Definition ReadWriteExecute : MemoryPermission := 7.

Section shared_memory.
Context {S : Type} `{IVS : IntervalSet S} `{gpu : GPU} {Obj : Type}.

(** [owner_process] is a weak pointer: the process may be gone. *)
(* src: kernel/shared_memory.h | PAddr linear_heap_phys_offset = 0; | SharedMemory | ..MemoryRegionInfo::IntervalSet holding_memory; *)
Record SharedMemory := mk_SharedMemory {
  linear_heap_phys_offset : Z;
  backing_blocks : list (MemoryRef * Z);
  shared_size : Z;
  shared_region : nat;
  shared_permissions : MemoryPermission;
  shared_other_permissions : MemoryPermission;
  owner_process : option nat;
  base_address : Z;
  shared_holding : S
}.
Implicit Types (k : KernelMemory S Obj) (sm : SharedMemory).

(* src: kernel/shared_memory.cpp | VMAPermission SharedMemory::ConvertPermissions(MemoryPermission permission) { *)
Definition ConvertPermissions (permission : MemoryPermission) : VMAPermission := permission .& ReadWriteExecute.

(** A block of its own from the linear heap. *)
(* src: kernel/shared_memory.cpp | auto offset = memory_region->LinearAllocate(size); | KernelSystem::CreateSharedMemory | +13 *)
Definition allocate_shared k (region : nat) (sm : SharedMemory) : option (SharedMemory * KernelMemory S Obj) :=
  r ← memory_regions k !! region;
  '(offset, r) ← MemoryRegion.LinearAllocate r (shared_size sm);
  offset ← offset;
  let k := set_region k region r in
  k ← fill_fcram k offset (u32 (offset + shared_size sm));
  mem ← GetFCRAMRef offset;
  let sm := sm<|backing_blocks := [(mem, shared_size sm)]|>
              <|shared_holding := iv_add offset (u32 (offset + shared_size sm)) (shared_holding sm)|>
              <|linear_heap_phys_offset := offset|> in
  k ← match owner_process sm with Some p => add_used k p (shared_size sm) | None => Some k end;
  Some (sm, k).
(** The memory is the owner's own. *)
(* src: kernel/shared_memory.cpp | auto& vm_manager = owner_process->vm_manager; | KernelSystem::CreateSharedMemory | ..shared_memory->backing_blocks = std::move *)
Definition lock_shared vm (sm : SharedMemory) (address : Z) : option (sum Result SharedMemory * VMManager) :=
  '(res, vm) ← ChangeMemoryState vm address (shared_size sm) Private PermReadWrite VmManager.Locked
                 (ConvertPermissions (shared_permissions sm));
  if IsError res then Some (inl res, vm)
  else
    blocks ← GetBackingBlocksForRange vm address (shared_size sm);
    match blocks with
    | RV_val blocks => Some (inr (sm<|backing_blocks := blocks|>), vm)
    | RV_err _ => None
    end.
(** What becomes of the owner when the block goes. *)
(* src: kernel/shared_memory.cpp | process->resource_limit->Release(ResourceLimitType::SharedMemory, 1); | SharedMemory::~SharedMemory | +8 *)
Definition release_owner k sm (p : nat) (x : Process S Obj) : option (KernelMemory S Obj) :=
  i ← resource_limit x; l ← resource_limits k !! i;
  let k := set_limit k i (snd (Release l RSharedMemory 1)) in
  if nz (base_address sm)
  then snd <$> on_vm k p (fun vm =>
         ChangeMemoryState vm (base_address sm) (shared_size sm) VmManager.Locked PermNone Private PermReadWrite)
  else add_used k p (- shared_size sm).
(* src: kernel/shared_memory.cpp | SharedMemory::~SharedMemory() { *)
Definition DestroySharedMemory k sm : option (KernelMemory S Obj) :=
  r ← memory_regions k !! shared_region sm;
  r ← free_intervals r (iv_blocks (shared_holding sm));
  let k := set_region k (shared_region sm) r in
  match owner_process sm with
  | Some p => match processes k !! p with Some x => release_owner k sm p x | None => Some k end
  | None => Some k
  end.

(** A block that cannot be made is destroyed when the function returns. *)
(* src: kernel/shared_memory.cpp | ResultVal<std::shared_ptr<SharedMemory>> KernelSystem::CreateSharedMemory( *)
Definition CreateSharedMemory k (owner : option nat) (size : Z) (permissions other_permissions : MemoryPermission)
    (address : Z) (region : MemoryRegion) : option (sum Result SharedMemory * KernelMemory S Obj) :=
  let sm := mk_SharedMemory 0 [] size (region_index region) permissions other_permissions owner 0 iv_empty in
  '(res, k) ← (if address =? 0
               then '(sm, k) ← allocate_shared k (region_index region) sm; Some (inr sm, k)
               else p ← owner; on_vm k p (fun vm => lock_shared vm sm address));
  match res with
  | inl e => k ← DestroySharedMemory k sm; Some (inl e, k)
  | inr sm => Some (inr (sm<|base_address := address|>), k)
  end.

(* src: kernel/shared_memory.cpp | for (const auto& interval : backing_blocks) { #1 | KernelSystem::CreateSharedMemoryForApplet *)
Fixpoint applet_blocks k (intervals : list Block) : option (list (MemoryRef * Z) * KernelMemory S Obj) :=
  match intervals with
  | [] => Some ([], k)
  | (lower, upper) :: intervals =>
      mem ← GetFCRAMRef lower;
      k ← fill_fcram k lower upper;
      '(blocks, k) ← applet_blocks k intervals; Some ((mem, u32 (upper - lower)) :: blocks, k)
  end.
(* src: kernel/shared_memory.cpp | std::shared_ptr<SharedMemory> KernelSystem::CreateSharedMemoryForApplet( *)
Definition CreateSharedMemoryForApplet k (offset size : Z) (permissions other_permissions : MemoryPermission)
    : option (SharedMemory * KernelMemory S Obj) :=
  let region := region_index SYSTEM in
  r ← memory_regions k !! region;
  '(intervals, r) ← MemoryRegion.HeapAllocate r size;
  let k := set_region k region r in
  if decide (iv_blocks intervals = []) then None
  else
    '(blocks, k) ← applet_blocks k (iv_blocks intervals);
    Some (mk_SharedMemory 0 blocks size region permissions other_permissions None (u32 (HEAP_VADDR + offset)) intervals, k).

(** The checks of the permissions, in order; [None] when all pass.  The owner is
    null when it is gone, and then it is not the target. *)
(* src: kernel/shared_memory.cpp | MemoryPermission own_other_permissions = | SharedMemory::Map | +30 *)
Definition permission_error k sm (target : nat) (permissions other_permissions : MemoryPermission) : option Result :=
  let is_owner := bool_decide (owner_process sm = Some target) && bool_decide (is_Some (processes k !! target)) in
  let own_other_permissions := if is_owner then shared_permissions sm else shared_other_permissions sm in
  if (base_address sm =? 0) && negb (other_permissions =? DontCare) then Some ResultInvalidCombination
  else if nz (permissions .& unot 32 own_other_permissions) then Some ResultInvalidCombination
  else if negb (base_address sm =? 0) && (other_permissions =? DontCare) then Some ResultInvalidCombination
  else if negb (other_permissions =? DontCare) && nz (shared_permissions sm .& unot 32 other_permissions)
  then Some ResultWrongPermission
  else None.
(* src: kernel/shared_memory.cpp | Result SharedMemory::Map(Process& target_process, VAddr address, MemoryPermission permissions, *)
Definition SharedMemory_Map k sm (target : nat) (address : Z) (permissions other_permissions : MemoryPermission)
    : option (Result * KernelMemory S Obj) :=
  match permission_error k sm target permissions other_permissions with
  | Some e => Some (e, k)
  | None =>
      if nz address && ((address <? HEAP_VADDR) || (SHARED_MEMORY_VADDR_END <=? u32 (address + shared_size sm)))
      then Some (ResultInvalidAddress, k)
      else
        let target_address :=
          if (base_address sm =? 0) && (address =? 0)
          then u32 (linear_heap_phys_offset sm + LINEAR_HEAP_VADDR) else address in
        x ← processes k !! target;
        free ← free_in_area (vm_of k x) target_address (shared_size sm);
        if negb free then Some (ResultInvalidAddressState, k)
        else
          '(_, k) ← on_vm k target (fun vm =>
            vm ← map_blocks vm target_address (backing_blocks sm) Shared (ConvertPermissions permissions);
            Some ((), vm));
          Some (ResultSuccess, k)
  end.
(* src: kernel/shared_memory.cpp | Result SharedMemory::Unmap(Process& target_process, VAddr address) { *)
Definition SharedMemory_Unmap k sm (target : nat) (address : Z) : option (Result * KernelMemory S Obj) :=
  on_vm k target (fun vm => UnmapRange vm address (shared_size sm)).
(* src: kernel/shared_memory.cpp | u8* SharedMemory::GetPointer(u32 offset) { *)
Definition GetPointer sm (offset : Z) : option Pointer :=
  b ← head (backing_blocks sm); GetPtr <$> ref_add b.1 offset.

End shared_memory.
Arguments SharedMemory S : clear implicits.
