(* ===== verification/ProcessFacts.v ===== *)
(** The heap of a process: what the operations of [Process.v] do to the address
    space, the region, the bytes and the accounts. *)

From S2P Require Import Prelude Result ResourceLimit HandleTable Memory MemoryFacts IntervalSet MemoryRegion VmManager VmFacts VmCorrect Process.

(** * Mapping intervals of FCRAM, on an address space *)

Section facts.
Context {S : Type} `{IVS : IntervalSet S} `{IVL : !IntervalSetLaws S} `{quiet : QuietGPU} {Obj : Type}.
Implicit Types (k : KernelMemory S Obj) (p : nat) (vm : VMManager) (ms : MemorySystem) (bl : list Block) (perms : VMAPermission).

(** [map_intervals] without the process around the address space. *)
Fixpoint vm_map_intervals vm (target : Z) bl perms (st : MemoryState) : option VMManager :=
  match bl with
  | [] => Some vm
  | (lower, upper) :: bl =>
      ms ← fill_zero (memory vm) (GetFCRAMPointer lower) (GetFCRAMPointer upper);
      mem ← GetFCRAMRef lower;
      vm ← map_protect (vm<|memory := ms|>) target mem (u32 (upper - lower)) st perms;
      vm_map_intervals vm (u32 (target + u32 (upper - lower))) bl perms st
  end.

(** The kernel with the address space of [p] replaced. *)
Definition with_vm k p (x : Process S Obj) vm : KernelMemory S Obj :=
  (set_process k p (x<|vm_manager := vm|>))<|kmem := memory vm|>.

Lemma vm_of_with_vm k p (x y : Process S Obj) vm : vm_of (with_vm k p x vm) (y<|vm_manager := vm|>) = vm.
Proof. by destruct vm. Qed.
Lemma with_vm_lookup k p x vm : processes (with_vm k p x vm) !! p = Some (x<|vm_manager := vm|>).
Proof. apply lookup_insert_eq. Qed.
Lemma with_vm_twice k p x vm vm' : with_vm (with_vm k p x vm) p (x<|vm_manager := vm|>) vm' = with_vm k p x vm'.
Proof. unfold with_vm, set_process. destruct k. cbn. by rewrite insert_insert_eq. Qed.

Lemma on_vm_eq {A} k p x (f : VMManager -> option (A * VMManager)) : processes k !! p = Some x ->
  on_vm k p f = ('(a, vm) ← f (vm_of k x); Some (a, with_vm k p x vm)).
Proof. intros E. unfold on_vm. by rewrite E. Qed.

Lemma map_intervals_with_vm bl : ∀ k p x vm target perms st, 
  map_intervals (with_vm k p x vm) p target bl perms st = with_vm k p x <$> vm_map_intervals vm target bl perms st.
Proof.
  induction bl as [|[l u] bl IH]; intros k p x vm target perms st; cbn [map_intervals vm_map_intervals]; [done|].
  unfold fill_fcram. change (kmem (with_vm k p x vm)) with (memory vm).
  destruct (fill_zero _ _ _) as [ms|]; [|done]. cbn [mbind option_bind].
  destruct (GetFCRAMRef l) as [mem|]; [|done]. cbn [mbind option_bind]. unfold map_block.
  rewrite (on_vm_eq _ _ (x<|vm_manager := vm|>)) by apply with_vm_lookup.
  change (vm_of ((with_vm k p x vm)<|kmem := ms|>) (x<|vm_manager := vm|>)) with (vm<|memory := ms|>).
  destruct (map_protect _ _ _ _ _ _) as [vm1|]; [|done]. cbn [mbind option_bind fmap option_fmap option_map snd].
  assert (E : with_vm ((with_vm k p x vm)<|kmem := ms|>) p (x<|vm_manager := vm|>) vm1 = with_vm k p x vm1).
  { rewrite <- (with_vm_twice k p x vm vm1). done. }
  rewrite E. apply IH.
Qed.

Lemma map_intervals_eq k p x b bl target perms st : processes k !! p = Some x ->
  map_intervals k p target (b :: bl) perms st = with_vm k p x <$> vm_map_intervals (vm_of k x) target (b :: bl) perms st.
Proof.
  intros E. destruct b as [l u]. cbn [map_intervals vm_map_intervals].
  unfold fill_fcram. change (memory (vm_of k x)) with (kmem k).
  destruct (fill_zero _ _ _) as [ms|]; [|done]. cbn [mbind option_bind].
  destruct (GetFCRAMRef l) as [mem|]; [|done]. cbn [mbind option_bind]. unfold map_block.
  rewrite (on_vm_eq _ _ x) by exact E.
  change (vm_of (k<|kmem := ms|>) x) with ((vm_of k x)<|memory := ms|>).
  destruct (map_protect _ _ _ _ _ _) as [vm1|]; [|done]. cbn [mbind option_bind fmap option_fmap option_map snd].
  change (with_vm (k<|kmem := ms|>) p x vm1) with (with_vm k p x vm1). apply map_intervals_with_vm.
Qed.

(** ** Bytes *)

Lemma frame_bytes vm vm' : vm_frame vm vm' -> bytes (memory vm') = bytes (memory vm).
Proof.
  intros (_ & _ & F). apply (ot_bytes _ _ _ F (fun m => m = bytes (memory vm))); [|done].
  intros h m c ->. apply gpu_quiet.
Qed.

Lemma fill_zero_spec ms l u : 0 <= l -> l <= u -> u <= FCRAM_N3DS_SIZE ->
  fill_zero ms (GetFCRAMPointer l) (GetFCRAMPointer u) = Some (set_bytes ms (put_at (bytes ms) FCRAM l (replicate (Z.to_nat (u - l)) 0))).
Proof.
  intros H1 H2 H3. unfold fill_zero, GetFCRAMPointer. rewrite !(proj2 (Z.leb_le _ _)) by lia. cbn [mbind option_bind].
  unfold store. cbn [mbind option_bind]. rewrite (proj2 (in_block_spec _ _ _)); [done|]. rewrite length_replicate.
  change (backing_size FCRAM) with FCRAM_N3DS_SIZE. lia.
Qed.

Lemma byte_at_zeros (m : Bytes) l u b o : l <= u ->
  byte_at (put_at m FCRAM l (replicate (Z.to_nat (u - l)) 0)) b o = if decide (b = FCRAM ∧ l <= o < u) then 0 else byte_at m b o.
Proof.
  intros H. rewrite byte_at_put, length_replicate.
  destruct (decide (b = FCRAM ∧ l <= o < u)) as [[-> Ho]|N].
  - rewrite decide_True by (split; [done|lia]). apply list_lookup_total_correct, lookup_replicate_2. lia.
  - rewrite decide_False; [done|]. intros [-> Ho]. apply N. split; [done|lia].
Qed.

(** ** Spilling *)

Lemma spilled_done perms st a y : spilled perms st (Some a) y -> at_perms a = perms -> y = Some a.
Proof. intros [->|(b & [= <-] & _ & _ & _ & ->)] E; [done|]. destruct a. cbn in E. by subst. Qed.
Lemma spilled_free perms st x y : spilled perms st (Some x) y -> at_type x = VMAFree -> y = Some x.
Proof. intros [->|(b & [= <-] & T & _)] E; [done|congruence]. Qed.
Lemma spilled_trans perms st x y z : spilled perms st x y -> spilled perms st y z -> spilled perms st x z.
Proof.
  intros [->|(a & -> & T & P & M & ->)] H; [done|].
  assert (z = Some (a<|at_perms := perms|>)) as -> by (apply (spilled_done perms st); [done|by destruct a]).
  right. by exists a.
Qed.

(** ** The loop *)

Definition heap_attr perms (st : MemoryState) (o : Z) : Attr := mk_Attr VMABackingMemory perms st (Some (FCRAM, o)).
Definition page_blocks bl : Prop :=
  separated bl ∧ ∀ b, b ∈ bl -> aligned b.1 ∧ aligned b.2 ∧ 0 <= b.1 ∧ b.2 <= FCRAM_N3DS_SIZE.

Lemma page_blocks_tail b bl : page_blocks (b :: bl) -> page_blocks bl.
Proof. intros (Sp & H). split; [by eapply separated_tail|]. intros c Hc. apply H. by right. Qed.

Lemma total_aligned bl : page_blocks bl -> aligned (total bl).
Proof.
  induction bl as [|b bl IH]; intros H; [by exists 0|]. rewrite total_cons. apply Z.divide_add_r.
  - destruct (proj2 H b ltac:(by left)) as (A1 & A2 & _). by apply Z.divide_sub_r.
  - by apply IH, (page_blocks_tail b).
Qed.

Lemma enumerate_cons b bl : enumerate (b :: bl) = seqZ b.1 (width b) ++ enumerate bl.
Proof. done. Qed.

(** Mapping the intervals one after the other backs the addresses by their points,
    in order, all zero, and changes no other byte. *)
Lemma vm_map_intervals_spec bl : ∀ vm target perms st, page_blocks bl ->
  vm_ok vm -> aligned target -> 0 <= target -> target + total bl <= MAX_ADDRESS ->
  all_at vm is_free target (target + total bl) ->
  ∃ vm', vm_map_intervals vm target bl perms st = Some vm' ∧ vm_ok vm' ∧
    VmManager.page_table vm' = VmManager.page_table vm ∧
    (∀ i o, enumerate bl !! i = Some o -> view vm' (target + Z.of_nat i) = Some (heap_attr perms st o)) ∧
    (∀ a, in_interval target (target + total bl) a = false -> spilled perms st (view vm a) (view vm' a)) ∧
    ∀ b o, byte_at (bytes (memory vm')) b o = if decide (b = FCRAM ∧ o ∈ enumerate bl) then 0 else byte_at (bytes (memory vm)) b o.
Proof.
  induction bl as [|[l u] bl IH]; intros vm target perms st Pb O A H0 He Fr; cbn [vm_map_intervals].
  { exists vm. split_and!; try done; [by left|]. intros b o. rewrite decide_False; [done|]. intros [_ N]. by apply not_elem_of_nil in N. }
  pose proof Pb as (Sp & Hb). destruct (Hb (l, u) ltac:(by left)) as (Al & Au & Hl & Hu). cbn [fst snd] in *.
  pose proof (separated_block _ (l, u) Sp ltac:(by left)) as L. cbn [fst snd] in L.
  pose proof (total_nonneg bl (separated_tail _ _ Sp)) as Nn. rewrite total_cons in He, Fr |- *. unfold width in He, Fr |- *. cbn [fst snd] in *.
  unfold MAX_ADDRESS, FCRAM_N3DS_SIZE in *. rewrite (uwrap_id 32 (u - l)) by (unfold in_range; lia).
  rewrite fill_zero_spec by (unfold FCRAM_N3DS_SIZE; lia). cbn [mbind option_bind].
  set (m := put_at _ _ _ _). set (vm0 := vm<|memory := set_bytes (memory vm) m|>).
  assert (O0 : vm_ok vm0) by (destruct O; split; done).
  unfold GetFCRAMRef, make_ref. rewrite (proj2 (Z.leb_le l FCRAM_N3DS_SIZE)), (proj2 (Z.leb_le l (backing_size FCRAM))) by (change (backing_size FCRAM) with 0x10000000; unfold FCRAM_N3DS_SIZE; lia).
  cbn [mbind option_bind]. set (mem := mk_MemoryRef (Some FCRAM) l).
  destruct (map_protect_spec vm0 target mem (u - l) st perms O0 A) as (vm1 & -> & O1 & F1 & V1);
    [by apply Z.divide_sub_r|lia|lia|lia|unfold ref_ok, mem; cbn [backing_mem ref_offset backing_size]; unfold FCRAM_N3DS_SIZE; lia| |].
  { intros a Ha. apply Fr. lia. }
  cbn [mbind option_bind]. rewrite (uwrap_id 32 (target + (u - l))) by (unfold in_range; lia).
  assert (S1 : ∀ a, in_interval target (target + (u - l)) a = false -> spilled perms st (view vm a) (view vm1 a)).
  { intros a Ha. specialize (V1 a). by rewrite Ha in V1. }
  destruct (IH vm1 (target + (u - l)) perms st (page_blocks_tail _ _ Pb) O1) as (vm' & -> & O' & P' & V' & S' & B');
    [by apply Z.divide_add_r; [|apply Z.divide_sub_r]|lia|unfold MAX_ADDRESS; lia| |].
  { intros a Ha. destruct (Fr a ltac:(lia)) as (y & Hy & Fy). exists y. split; [|done]. specialize (S1 a ltac:(unfold in_interval; lia)).
    rewrite Hy in S1. by apply (spilled_free perms st). }
  exists vm'. split; [done|]. split; [exact O'|]. split; [by rewrite P', (proj1 F1)|]. split_and!.
  - intros i o. rewrite enumerate_cons. unfold width. cbn [fst snd]. intros E. apply lookup_app_Some in E as [E|(E1 & E2)].
    + apply lookup_seqZ in E as [-> Hi]. specialize (S' (target + Z.of_nat i) ltac:(unfold in_interval; lia)).
      specialize (V1 (target + Z.of_nat i)). unfold in_interval in V1. rewrite (proj2 (Z.leb_le _ _)), (proj2 (Z.ltb_lt _ _)) in V1 by lia. cbn [andb] in V1.
      rewrite V1 in S'. apply spilled_done in S'; [|done]. rewrite S'. unfold heap_attr, mapping. cbn. do 4 f_equal. lia.
    + rewrite length_seqZ in E1, E2. specialize (V' _ _ E2). rewrite <- V'. f_equal. lia.
  - intros a Ha. apply (spilled_trans perms st _ (view vm1 a)); [apply S1|apply S']; unfold in_interval in *; lia.
  - intros b o. rewrite B', (frame_bytes _ _ F1). change (bytes (memory vm0)) with m. unfold m. rewrite byte_at_zeros by lia.
    rewrite enumerate_cons. unfold width. cbn [fst snd].
    destruct (decide (b = FCRAM ∧ o ∈ enumerate bl)) as [[-> E]|N1]; [rewrite decide_True; [done|split; [done|set_solver]]|].
    destruct (decide (b = FCRAM ∧ l <= o < u)) as [[-> E]|N2];
      [rewrite decide_True; [done|split; [done|apply elem_of_app; left; apply elem_of_seqZ; lia]]|].
    rewrite decide_False; [done|]. intros [-> [E%elem_of_seqZ|E]%elem_of_app]; [apply N2; split; [done|lia]|by apply N1].
Qed.

(** * The heap *)

Lemma free_in_area_spec vm target size : vm_ok vm -> 0 <= target -> 0 < size -> target + size <= MAX_ADDRESS ->
  ∃ b, free_in_area vm target size = Some b ∧ (b = true <-> all_at vm is_free target (target + size)).
Proof.
  intros O H0 Hs He. unfold free_in_area. pose proof (vm_space _ O) as T.
  destruct (FindVMA_eq vm target T ltac:(lia)) as (l1 & v & l2 & E & Hv & ->). cbn [mbind option_bind].
  pose proof T as T0. unfold space in T0. rewrite E in T0. pose proof (space_bounds _ v T0 ltac:(set_solver +)) as B.
  unfold MAX_ADDRESS in B, He. rewrite !uwrap_id by (unfold in_range; lia). eexists. split; [done|].
  rewrite andb_true_iff, bool_decide_eq_true, Z.leb_le. split.
  - intros [Ty L] a Ha. exists (attr_of v a). unfold view. rewrite E, (attr_at_middle _ _ _ _ _ _ T0) by lia. done.
  - intros F. split.
    + destruct (F target ltac:(lia)) as (y & Hy & Fy). unfold view in Hy. rewrite E, (attr_at_middle _ _ _ _ _ _ T0 Hv) in Hy.
      by injection Hy as <-.
    + by apply (free_in_one vm l1 v l2 target (target + size) T (vm_seams _ O) E).
Qed.

(** What the heap of a process relies on: [x] is the process, [r] its region,
    the place [i] of the kernel's regions. *)
Record heap_ok k p (x : Process S Obj) (i : nat) (r : MemoryRegionInfo S) : Prop := {
  hp_process : processes k !! p = Some x;
  hp_vm : vm_ok (vm_of k x);
  hp_region : memory_region x = Some i ∧ memory_regions k !! i = Some r;
  hp_region_ok : region_ok r;
  hp_fcram : MemoryRegion.base r + MemoryRegion.size r <= FCRAM_N3DS_SIZE;
  hp_pages : whole_pages (free_blocks r);
  hp_limit : ∃ j l, resource_limit x = Some j ∧ resource_limits k !! j = Some l;
  hp_holding : ∀ o, covered (holding_memory x) o ->
    MemoryRegion.base r <= o < MemoryRegion.base r + MemoryRegion.size r ∧ ¬ MemoryRegion.is_free r o
}.

(** The address [target + i] shows the [i]-th point of the blocks, which is zero. *)
Definition backed_by k (x : Process S Obj) (target : Z) bl perms (st : MemoryState) : Prop :=
  ∀ i o, enumerate bl !! i = Some o ->
    view (vm_of k x) (target + Z.of_nat i) = Some (heap_attr perms st o) ∧ byte_at (bytes (kmem k)) FCRAM o = 0.

Lemma outside_heap_false target size : HEAP_VADDR <= target -> 0 < size -> target + size <= HEAP_VADDR_END ->
  outside_heap target size = false.
Proof.
  unfold outside_heap, HEAP_VADDR_END, HEAP_VADDR, HEAP_SIZE. intros H1 H2 H3. rewrite uwrap_id by (unfold in_range; lia). lia.
Qed.


Lemma set_region_id k i r : memory_regions k !! i = Some r -> set_region k i r = k.
Proof. intros E. unfold set_region. destruct k. cbn in *. f_equal. by apply list_insert_id. Qed.

Lemma set_process_lookup k p x : processes (set_process k p x) !! p = Some x.
Proof. apply lookup_insert_eq. Qed.
Lemma add_used_eq k p x n : processes k !! p = Some x ->
  add_used k p n = Some (set_process k p (x<|memory_used := u32 (memory_used x + n)|>)).
Proof. intros E. unfold add_used. by rewrite E. Qed.
Lemma reserve_commit_eq k p x j l n : processes k !! p = Some x -> resource_limit x = Some j -> resource_limits k !! j = Some l ->
  reserve_commit k p n = Some (set_limit k j (snd (Reserve l RCommit (s32 n)))).
Proof. intros E1 E2 E3. unfold reserve_commit. rewrite E1. cbn [mbind option_bind]. rewrite E2. cbn [mbind option_bind]. by rewrite E3. Qed.
Lemma release_commit_eq k p x j l n : processes k !! p = Some x -> resource_limit x = Some j -> resource_limits k !! j = Some l ->
  release_commit k p n = Some (set_limit k j (snd (Release l RCommit (s32 n)))).
Proof. intros E1 E2 E3. unfold release_commit. rewrite E1. cbn [mbind option_bind]. rewrite E2. cbn [mbind option_bind]. by rewrite E3. Qed.

(** The accounts after an operation. *)
Definition accounts k k' p (x x' : Process S Obj) (used : Z) (commit : ResourceLimit -> ResourceLimit) : Prop :=
  memory_used x' = used ∧ resource_limit x' = resource_limit x ∧ kernel_version x' = kernel_version x ∧
  (∀ q, q ≠ p -> processes k' !! q = processes k !! q) ∧
  ∀ j l, resource_limit x = Some j -> resource_limits k !! j = Some l -> resource_limits k' = <[j := commit l]> (resource_limits k).

Lemma page_blocks_of r (t : S) : region_ok r -> MemoryRegion.base r + MemoryRegion.size r <= FCRAM_N3DS_SIZE -> whole_pages t ->
  (∀ o, covered t o -> MemoryRegion.is_free r o) -> page_blocks (iv_blocks t).
Proof.
  intros O L W Sub. split; [apply blocks_separated|]. intros b Hb. destruct (blocks_aligned t b W Hb) as [A1 A2].
  split; [exact A1|]. split; [exact A2|]. pose proof (separated_block _ _ (blocks_separated t) Hb) as Lb.
  pose proof (region_free r O b.1 (Sub b.1 ltac:(exists b; split; [done|unfold in_block_of; lia]))).
  pose proof (region_free r O (b.2 - 1) (Sub (b.2 - 1) ltac:(exists b; split; [done|unfold in_block_of; lia]))).
  pose proof (region_bounds r O). lia.
Qed.

Lemma covered_enumerate (t : S) o : covered t o <-> o ∈ enumerate (iv_blocks t).
Proof. by rewrite elem_of_enumerate. Qed.

(** What allocating leaves: [t] is what has been taken from the region. *)
Record allocated k k' p (x x' : Process S Obj) i (r r' : MemoryRegionInfo S) (t : S) (target size : Z) perms (st : MemoryState) : Prop := {
  al_ok : heap_ok k' p x' i r';
  al_takes : takes r r' t;
  al_measure : measure t = size;
  al_pages : whole_pages t;
  al_backed : backed_by k' x' target (iv_blocks t) perms st;
  al_outside : ∀ a, in_interval target (target + size) a = false -> spilled perms st (view (vm_of k x) a) (view (vm_of k' x') a);
  al_bytes : ∀ b o, ¬ (b = FCRAM ∧ covered t o) -> byte_at (bytes (kmem k')) b o = byte_at (bytes (kmem k)) b o;
  al_holding : ∀ o, covered (holding_memory x') o <-> covered (holding_memory x) o ∨ covered t o;
  al_accounts : accounts k k' p x x' (u32 (memory_used x + size)) (fun l => snd (Reserve l RCommit size))
}.

Lemma HeapAllocate_spec k p x i r target size perms st skip : heap_ok k p x i r -> aligned target -> aligned size -> 0 < size ->
  0 <= target -> target + size <= MAX_ADDRESS -> outside_heap target size && negb skip = false ->
  ∃ res out k', HeapAllocate k p target size perms st skip = Some (res, out, k') ∧
    (¬ all_at (vm_of k x) is_free target (target + size) -> res = ResultInvalidAddressState ∧ out = None ∧ k' = k) ∧
    (all_at (vm_of k x) is_free target (target + size) -> space_left r < size -> res = ResultOutOfHeapMemory ∧ out = None ∧ k' = k) ∧
    (all_at (vm_of k x) is_free target (target + size) -> size <= space_left r -> res = ResultSuccess ∧ out = Some target ∧
       ∃ x' r' t, allocated k k' p x x' i r r' t target size perms st).
Proof.
  intros H A1 A2 Hs H0 He Ho. pose proof H as [Ep Vm [Ei Er] Ro Fc Wp (j & l & Ej & El) Hh]. unfold HeapAllocate. rewrite Ho, Ep. cbn [mbind option_bind].
  destruct (free_in_area_spec (vm_of k x) target size Vm H0 Hs He) as (fr & -> & Hf). cbn [mbind option_bind].
  destruct fr; cbn [negb].
  2:{ exists ResultInvalidAddressState, None, k. split; [done|]. split; [done|]. split; intros F; by apply Hf in F. }
  pose proof (proj1 Hf eq_refl) as F. rewrite Ei. cbn [mbind option_bind]. rewrite Er. cbn [mbind option_bind].
  unfold MAX_ADDRESS in He.
  destruct (region_HeapAllocate_spec r size Ro ltac:(lia)) as (t & r' & -> & Some_ & None_). cbn [mbind option_bind].
  destruct (Z.leb_spec size (space_left r)) as [L|L].
  2:{ destruct (None_ L) as [-> ->]. rewrite blocks_empty, set_region_id by done. exists ResultOutOfHeapMemory, None, k.
      split; [done|]. split; [done|]. split; [done|]. intros _ ?. lia. }
  destruct (Some_ L) as (M & Tk & Top & Wt). specialize (Wt Wp A2). pose proof Tk as (Ro' & B1 & B2 & Sub & Fr' & Sl).
  pose proof (page_blocks_of r t Ro Fc Wt Sub) as Pb.
  assert (Tt : total (iv_blocks t) = size) by done.
  destruct (iv_blocks t) as [|b bl] eqn:Eb; [change (total []) with 0 in Tt; lia|].
  rewrite (map_intervals_eq _ p x) by exact Ep. change (vm_of (set_region k i r') x) with (vm_of k x).
  destruct (vm_map_intervals_spec (b :: bl) (vm_of k x) target perms st Pb Vm A1 H0) as (vm' & -> & Vm' & Pt' & V' & S' & B');
    [unfold MAX_ADDRESS; lia|by rewrite Tt|]. rewrite Tt in S'.
  cbn [fmap option_fmap option_map mbind option_bind]. set (k1 := with_vm (set_region k i r') p x vm').
  assert (E1 : processes k1 !! p = Some (x<|vm_manager := vm'|>)) by apply with_vm_lookup. rewrite E1. cbn [mbind option_bind].
  set (x1 := x<|vm_manager := vm'|><|holding_memory := iv_union (holding_memory x) t|>).
  change ((x<|vm_manager := vm'|>)<|holding_memory := iv_union (holding_memory (x<|vm_manager := vm'|>)) t|>) with x1.
  rewrite (add_used_eq _ p x1) by apply set_process_lookup. cbn [mbind option_bind].
  set (x' := x1<|memory_used := u32 (memory_used x1 + size)|>). set (k2 := set_process (set_process k1 p x1) p x').
  rewrite (reserve_commit_eq k2 p x' j l) by (apply set_process_lookup || done). cbn [mbind option_bind].
  exists ResultSuccess, (Some target). eexists. split; [reflexivity|]. split; [by intros N|]. split; [intros _ ?; lia|]. intros _ _. split; [done|]. split; [done|].
  exists x', r', t. set (k' := set_limit k2 j _).
  assert (Ev : vm_of k' x' = vm') by (by destruct vm').
  assert (Ep' : processes k' !! p = Some x') by (apply lookup_insert_eq).
  split.
  - split; [exact Ep'|by rewrite Ev| |done|by rewrite B1, B2| | |].
    + split; [exact Ei|]. change (<[i := r']> (memory_regions k) !! i = Some r'). apply list_lookup_insert_eq. by eapply lookup_lt_Some.
    + intros o o' E Hfo. apply Fr' in Hfo as [Hfo N]. apply Fr'. split; [by apply (Wp o)|]. intros C. by apply N, (Wt o').
    + exists j. eexists. split; [exact Ej|]. change (resource_limits k') with (<[j := snd (Reserve l RCommit (s32 size))]> (resource_limits k)).
      apply list_lookup_insert_eq. by eapply lookup_lt_Some.
    + intros o Ho'. change (holding_memory x') with (iv_union (holding_memory x) t) in Ho'. apply covered_union in Ho'. rewrite B1, B2.
      destruct Ho' as [Ho'|Ho'].
      * destruct (Hh o Ho') as [R N]. split; [done|]. intros [C _]%Fr'. done.
      * split; [by apply (region_free r Ro), Sub|]. intros [_ N]%Fr'. done.
  - exact Tk.
  - exact M.
  - exact Wt.
  - intros n o E. rewrite Eb in E. rewrite Ev. split; [by apply V'|]. change (bytes (kmem k')) with (bytes (memory vm')). rewrite B', decide_True; [done|].
    split; [done|by eapply list_elem_of_lookup_2].
  - intros a Ha. rewrite Ev. by apply S'.
  - intros b' o N. change (bytes (kmem k')) with (bytes (memory vm')). rewrite B', decide_False; [done|]. intros [-> E]. apply N. split; [done|].
    rewrite covered_enumerate, Eb. exact E.
  - intros o. change (holding_memory x') with (iv_union (holding_memory x) t). apply covered_union.
  - split; [done|]. split; [done|]. split; [done|]. split.
    + intros q N. change (<[p := x']> (<[p := x1]> (<[p := x<|vm_manager := vm'|>]> (processes k))) !! q = processes k !! q).
      by rewrite !lookup_insert_ne by done.
    + intros j' l' Ej' El'. assert (j' = j) as -> by congruence. assert (l' = l) as -> by congruence.
      change (resource_limits k') with (<[j := snd (Reserve l RCommit (s32 size))]> (resource_limits k)). rewrite swrap_id; [done|done|unfold in_srange; lia].
Qed.
End facts.
