(* ===== verification/HeapFacts.v ===== *)
(** Freeing the heap of a process, and what allocating and freeing do together. *)

From S2P Require Import Prelude Result ResourceLimit HandleTable Memory MemoryFacts IntervalSet MemoryRegion VmManager VmFacts VmCorrect Process ProcessFacts.

(** * Pages of an address space *)

(** Inside of a page the host memory is contiguous. *)
Lemma view_page vm a b x : vm_ok vm -> a / 4096 = b / 4096 -> view vm a = Some x -> at_type x = VMABackingMemory ->
  view vm b = Some (x<|at_ptr := ptr_add (at_ptr x) (b - a)|>).
Proof.
  intros O E V Ty. pose proof (vm_space _ O) as T. unfold view in *.
  assert (Ra : 0 <= a < MAX_ADDRESS).
  { destruct (decide (0 <= a < MAX_ADDRESS)); [done|]. by rewrite (attr_at_outside _ _ _ _ T) in V. }
  destruct (tiles_find _ _ _ a T Ra) as (l1 & v & l2 & El & Hv). rewrite El in *. unfold space in T.
  rewrite (attr_at_middle _ _ _ _ _ _ T Hv) in V. injection V as <-.
  destruct (proj1 (tiles_middle _ _ _ _ _) T) as (_ & (A1 & A2 & _) & _).
  assert (Hb : base v <= b < base v + size v) by (apply (pages_interval _ _ a b); [done|by apply Z.divide_add_r|done|done]).
  rewrite (attr_at_middle _ _ _ _ _ _ T Hb). unfold attr_of in *. cbn in Ty |- *. rewrite Ty. f_equal.
  destruct (GetPtr (backing_memory v)) as [[k o]|]; [|done]. cbn. do 3 f_equal. lia.
Qed.

(** Points of whole pages, listed: a point has the place of its address in the page. *)
Lemma enumerate_mod bl n o : page_blocks bl -> enumerate bl !! n = Some o -> o mod 4096 = Z.of_nat n mod 4096.
Proof.
  revert n. induction bl as [|b bl IH]; intros n Pb E; [done|]. rewrite enumerate_cons in E. apply lookup_app_Some in E as [E|(L & E)].
  - apply lookup_seqZ in E as [-> _]. destruct (proj2 Pb b ltac:(by left)) as ([c ->] & _).
    rewrite Z.add_comm, Z.mod_add by done. done.
  - rewrite (IH _ (page_blocks_tail _ _ Pb) E). rewrite length_seqZ in *. destruct (proj2 Pb b ltac:(by left)) as ([c C] & [d D] & _).
    pose proof (separated_block _ b (proj1 Pb) ltac:(by left)). unfold width in *.
    replace (Z.of_nat (n - Z.to_nat (b.2 - b.1))) with (Z.of_nat n + (c - d) * 4096) by lia. by rewrite Z.mod_add.
Qed.

(** A free address has the attributes of free memory. *)
Lemma free_attr_eq vm a x : vm_ok vm -> view vm a = Some x -> at_type x = VMAFree -> x = free_attr.
Proof.
  intros O V Ty. pose proof (vm_space _ O) as T. unfold view in V.
  assert (Ra : 0 <= a < MAX_ADDRESS).
  { destruct (decide (0 <= a < MAX_ADDRESS)); [done|]. by rewrite (attr_at_outside _ _ _ _ T) in V. }
  destruct (tiles_find _ _ _ a T Ra) as (l1 & v & l2 & El & Hv). rewrite El in *. unfold space in T.
  rewrite (attr_at_middle _ _ _ _ _ _ T Hv) in V. injection V as <-.
  destruct (proj1 (tiles_middle _ _ _ _ _) T) as (_ & (_ & _ & _ & W) & _). change (type v = VMAFree) in Ty. rewrite Ty in W.
  destruct W as (E1 & E2 & _). unfold attr_of. by rewrite Ty, E1, E2.
Qed.

Section heap.
Context {S : Type} `{IVS : IntervalSet S} `{IVL : !IntervalSetLaws S} `{quiet : QuietGPU} {Obj : Type}.
Implicit Types (k : KernelMemory S Obj) (p : nat) (vm : VMManager) (h : S) (r : MemoryRegionInfo S).

(** The FCRAM offset behind an address. *)
Definition fcram_at vm (a o : Z) : Prop :=
  ∃ x, view vm a = Some x ∧ at_type x = VMABackingMemory ∧ at_ptr x = Some (FCRAM, o).
Definition fcram_of vm (lo hi o : Z) : Prop := ∃ a, lo <= a < hi ∧ fcram_at vm a o.

Lemma fcram_at_fun vm a o o' : fcram_at vm a o -> fcram_at vm a o' -> o = o'.
Proof. intros (x & V & _ & P) (y & W & _ & Q). rewrite V in W. injection W as <-. rewrite P in Q. by injection Q. Qed.

(** A range of addresses the process holds: no byte twice, pages on pages. *)
Record owned vm h (target size : Z) : Prop := {
  owned_at : ∀ a, target <= a < target + size -> ∃ o, fcram_at vm a o ∧ covered h o ∧ o mod 4096 = a mod 4096;
  owned_inj : ∀ a b o, target <= a < target + size -> target <= b < target + size -> fcram_at vm a o -> fcram_at vm b o -> a = b
}.

(** ** Freeing the blocks *)

(** The kernel with the region and what the process holds replaced. *)
Definition with_region k p (x : Process S Obj) (i : nat) r h : KernelMemory S Obj :=
  set_process (set_region k i r) p (x<|holding_memory := h|>).

Lemma with_region_id k p x i r : processes k !! p = Some x -> memory_regions k !! i = Some r -> with_region k p x i r (holding_memory x) = k.
Proof.
  intros E1 E2. unfold with_region. rewrite set_region_id by done. unfold set_process. destruct k, x. cbn in *. f_equal.
  by apply insert_id.
Qed.

Lemma free_block_eq k p x i r h b o r' : memory_region x = Some i -> (i < length (memory_regions k))%nat ->
  GetFCRAMOffset (GetPtr b.1) = Some o -> Free r o b.2 = Some r' ->
  free_block (with_region k p x i r h) p b = Some (with_region k p x i r' (iv_sub o (u32 (o + b.2)) h)).
Proof.
  intros Ei L Eo Er. unfold free_block. rewrite Eo. cbn [mbind option_bind]. set (k1 := with_region k p x i r h).
  assert (E1 : processes k1 !! p = Some (x<|holding_memory := h|>)) by apply set_process_lookup.
  assert (E2 : memory_regions k1 !! i = Some r) by (by apply list_lookup_insert_eq).
  rewrite E1. cbn [mbind option_bind]. change (memory_region (x<|holding_memory := h|>)) with (memory_region x).
  rewrite Ei. cbn [mbind option_bind]. rewrite E2. cbn [mbind option_bind]. rewrite Er. cbn [mbind option_bind].
  f_equal. unfold k1, with_region, set_process, set_region. destruct k, x. cbn. rewrite insert_insert_eq. f_equal.
  rewrite list_insert_insert_eq. done.
Qed.

Lemma free_blocks_spec vm e k p x i : memory_region x = Some i -> (i < length (memory_regions k))%nat ->
  ∀ bl a r h, blocks_cover vm a bl e -> region_ok r -> MemoryRegion.base r + MemoryRegion.size r <= FCRAM_N3DS_SIZE ->
  (∀ y, a <= y < e -> ∃ o, fcram_at vm y o ∧ MemoryRegion.base r <= o < MemoryRegion.base r + MemoryRegion.size r ∧ ¬ MemoryRegion.is_free r o) ->
  (∀ y z o, a <= y < e -> a <= z < e -> fcram_at vm y o -> fcram_at vm z o -> y = z) ->
  a <= e ∧ ∃ r' h', fold_blocks (with_region k p x i r h) (fun k b => free_block k p b) bl = Some (with_region k p x i r' h') ∧
    region_ok r' ∧ MemoryRegion.base r' = MemoryRegion.base r ∧ MemoryRegion.size r' = MemoryRegion.size r ∧
    (∀ o, MemoryRegion.is_free r' o <-> MemoryRegion.is_free r o ∨ fcram_of vm a e o) ∧
    space_left r' = space_left r + (e - a) ∧
    ∀ o, covered h' o <-> covered h o ∧ ¬ fcram_of vm a e o.
Proof.
  intros Ei Li. induction bl as [|[m n] bl IH]; intros a r h C Ro Fc At Inj; cbn [fold_blocks].
  { cbn in C. subst a. split; [done|]. exists r, h. split_and!; try done; try lia.
    - intros o. split; [by left|]. intros [?|(y & Hy & _)]; [done|lia].
    - intros o. split; [|tauto]. intros Ho. split; [done|]. intros (y & Hy & _). lia. }
  destruct C as (Hn & Rm & Pm & C). assert (Le : a + n <= e).
  { clear - C. revert C. generalize (a + n). induction bl as [|[m' n'] bl IH]; intros c C; [cbn in C; lia|].
    destruct C as (Hn & _ & _ & C). specialize (IH _ C). lia. }
  split; [lia|]. destruct (At a ltac:(lia)) as (o & (y & Vy & Ty & Py) & Bo & No).
  assert (Em : GetPtr m = Some (FCRAM, o)).
  { specialize (Pm a ltac:(lia)). rewrite Vy in Pm. cbn in Pm. rewrite Py, Z.sub_diag in Pm.
    destruct (GetPtr m) as [[b o']|]; [|done]. cbn in Pm. injection Pm as -> ->. by rewrite Z.add_0_r. }
  assert (Ex : ∀ z, a <= z < a + n -> fcram_at vm z (o + (z - a))).
  { intros z Hz. destruct (At z ltac:(lia)) as (oz & (yz & Vz & Tz & Pz) & _). exists yz. split; [done|]. split; [done|].
    specialize (Pm z Hz). rewrite Vz in Pm. cbn in Pm. rewrite Em in Pm. by injection Pm. }
  assert (In : ∀ z, o <= z < o + n -> MemoryRegion.base r <= z < MemoryRegion.base r + MemoryRegion.size r ∧ ¬ MemoryRegion.is_free r z).
  { intros z Hz. destruct (At (a + (z - o)) ltac:(lia)) as (oz & Fz & Bz & Nz).
    pose proof (fcram_at_fun _ _ _ _ Fz (Ex (a + (z - o)) ltac:(lia))) as ->.
    replace (o + (a + (z - o) - a)) with z in * by lia. done. }
  pose proof (region_bounds r Ro) as Rb. destruct (In (o + n - 1) ltac:(lia)) as [Bn _]. unfold FCRAM_N3DS_SIZE in *.
  assert (Eo : GetFCRAMOffset (GetPtr m) = Some o).
  { rewrite Em. unfold GetFCRAMOffset. cbn [mbind option_bind]. rewrite decide_True by done. unfold FCRAM_N3DS_SIZE.
    rewrite !(proj2 (Z.leb_le _ _)) by lia. cbn [andb]. f_equal. apply uwrap_id. unfold in_range. lia. }
  destruct (Free_spec r o n Ro) as (r1 & F1 & Ro1 & B1 & Z1 & Fr1 & Sl1); [lia|lia|lia|intros z Hz; by apply In|].
  rewrite (free_block_eq k p x i r h (m, n) o r1) by done. cbn [mbind option_bind snd fst].
  rewrite (uwrap_id 32 (o + n)) by (unfold in_range; lia).
  assert (Pt : ∀ z, o <= z < o + n <-> fcram_of vm a (a + n) z).
  { intros z. split; [intros Hz; exists (a + (z - o)); split; [lia|]; pose proof (Ex (a + (z - o)) ltac:(lia)) as K;
      by replace (o + (a + (z - o) - a)) with z in K by lia|].
    intros (w & Hw & Fw). pose proof (fcram_at_fun _ _ _ _ Fw (Ex w Hw)). lia. }
  destruct (IH (a + n) r1 (iv_sub o (o + n) h) C Ro1) as (_ & r' & h' & -> & Ro' & B' & Z' & Fr' & Sl' & Hh').
  - rewrite B1, Z1. unfold FCRAM_N3DS_SIZE. lia.
  - intros z Hz. destruct (At z ltac:(lia)) as (oz & Fz & Bz & Nz). exists oz. rewrite B1, Z1. split; [done|]. split; [done|].
    intros [K|K]%Fr1; [done|]. apply Pt in K as (w & Hw & Fw). specialize (Inj w z oz ltac:(lia) ltac:(lia) Fw Fz). lia.
  - intros y' z' o' Hy Hz. apply Inj; lia.
  - assert (Sp : ∀ z, fcram_of vm a e z <-> o <= z < o + n ∨ fcram_of vm (a + n) e z).
    { intros z. rewrite Pt. split.
      - intros (w & Hw & Fw). destruct (decide (w < a + n)); [left|right]; exists w; (split; [lia|done]).
      - intros [(w & Hw & Fw)|(w & Hw & Fw)]; exists w; (split; [lia|done]). }
    exists r', h'. split_and!; try done; try congruence; try lia.
    + intros z. rewrite Fr', Fr1, Sp. tauto.
    + intros z. rewrite Hh', covered_sub, Sp. tauto.
Qed.

(** ** Freeing a range *)

(** What freeing leaves. *)
Record freed k k' p (x x' : Process S Obj) i r r' (target size : Z) : Prop := {
  fr_ok : heap_ok k' p x' i r';
  fr_free : ∀ o, MemoryRegion.is_free r' o <-> MemoryRegion.is_free r o ∨ fcram_of (vm_of k x) target (target + size) o;
  fr_region : MemoryRegion.base r' = MemoryRegion.base r ∧ MemoryRegion.size r' = MemoryRegion.size r;
  fr_left : space_left r' = space_left r + size;
  fr_view : ∀ a, view (vm_of k' x') a = if in_interval target (target + size) a then Some free_attr else view (vm_of k x) a;
  fr_bytes : bytes (kmem k') = bytes (kmem k);
  fr_holding : ∀ o, covered (holding_memory x') o <-> covered (holding_memory x) o ∧ ¬ fcram_of (vm_of k x) target (target + size) o;
  fr_accounts : accounts k k' p x x' (u32 (memory_used x - size)) (fun l => snd (Release l RCommit size))
}.

Lemma owned_mapped vm h target size : owned vm h target size -> all_at vm is_mapped target (target + size).
Proof.
  intros O a Ha. destruct (owned_at _ _ _ _ O a Ha) as (o & (x & V & T & _) & _). exists x. split; [done|]. unfold is_mapped. by rewrite T.
Qed.

(** The bytes behind an owned range of whole pages are whole pages. *)
Lemma owned_pages vm h target size o o' : vm_ok vm -> aligned target -> aligned size -> owned vm h target size -> o / 4096 = o' / 4096 ->
  fcram_of vm target (target + size) o -> fcram_of vm target (target + size) o'.
Proof.
  intros Vm A1 A2 Ow E (a & Ha & F). destruct (owned_at _ _ _ _ Ow a Ha) as (o1 & F1 & _ & M).
  pose proof (fcram_at_fun _ _ _ _ F1 F) as ->. destruct F as (y & V & T & P). set (a' := a + (o' - o)).
  assert (Ea : a / 4096 = a' / 4096) by (unfold a'; Z.div_mod_to_equations; lia).
  exists a'. split; [apply (pages_interval _ _ a a'); [done|by apply Z.divide_add_r|done|done]|].
  pose proof (view_page vm a a' y Vm Ea V T) as V'. rewrite P in V'. eexists. split; [exact V'|]. split; [exact T|]. cbn.
  do 2 f_equal. unfold a'. lia.
Qed.

Lemma HeapFree_spec k p x i r target size : heap_ok k p x i r -> aligned target -> aligned size -> 0 < size ->
  HEAP_VADDR <= target -> target + size <= HEAP_VADDR_END -> owned (vm_of k x) (holding_memory x) target size ->
  ∃ k' x' r', HeapFree k p target size = Some (ResultSuccess, k') ∧ freed k k' p x x' i r r' target size.
Proof.
  intros H A1 A2 Hs H0 He Ow. pose proof H as [Ep Vm [Ei Er] Ro Fc Wp (j & l & Ej & El) Hh]. unfold HeapFree.
  rewrite outside_heap_false, (proj2 (Z.eqb_neq _ _)), Ep by lia. cbn [mbind option_bind].
  unfold HEAP_VADDR_END, HEAP_VADDR, HEAP_SIZE in *.
  destruct (GetBackingBlocksForRange_spec (vm_of k x) target size Vm) as (res & -> & Hb & _); [lia|lia|unfold MAX_ADDRESS; lia|].
  cbn [mbind option_bind]. destruct (Hb (owned_mapped _ _ _ _ Ow)) as (bl & -> & C & _).
  pose proof (lookup_lt_Some _ _ _ Er) as Li.
  destruct (free_blocks_spec (vm_of k x) (target + size) k p x i Ei Li bl target r (holding_memory x) C Ro Fc)
    as (_ & r' & h' & Ef & Ro' & B' & Z' & Fr' & Sl' & Hh').
  { intros a Ha. destruct (owned_at _ _ _ _ Ow a Ha) as (o & Fo & Co & _). exists o. destruct (Hh o Co). done. }
  { intros y z o Hy Hz. by apply (owned_inj _ _ _ _ Ow). }
  rewrite (with_region_id k p x i r Ep Er) in Ef. rewrite Ef. cbn [mbind option_bind]. set (k1 := with_region k p x i r' h'). set (x1 := x<|holding_memory := h'|>).
  rewrite (on_vm_eq k1 p x1) by apply set_process_lookup. change (vm_of k1 x1) with (vm_of k x).
  destruct (UnmapRange_spec (vm_of k x) target size Vm A1 A2) as (res & vm' & -> & Vm' & F & U & _); [lia|lia|unfold MAX_ADDRESS; lia|].
  destruct (U (owned_mapped _ _ _ _ Ow)) as (-> & V'). cbn [mbind option_bind]. change (IsSuccess ResultSuccess) with true.
  cbv iota. set (k2 := with_vm k1 p x1 vm'). set (x2 := x1<|vm_manager := vm'|>).
  rewrite (add_used_eq k2 p x2) by apply with_vm_lookup. cbn [mbind option_bind].
  set (x' := x2<|memory_used := u32 (memory_used x2 + - size)|>). set (k3 := set_process k2 p x').
  rewrite (release_commit_eq k3 p x' j l) by (apply set_process_lookup || done). cbn [mbind option_bind].
  eexists _, x', r'. split; [reflexivity|]. set (k' := set_limit k3 j _).
  assert (Ev : vm_of k' x' = vm') by (by destruct vm'). split.
  - split; [apply set_process_lookup|by rewrite Ev| |done|by rewrite B', Z'| | |].
    + split; [exact Ei|]. change (<[i := r']> (memory_regions k) !! i = Some r'). by apply list_lookup_insert_eq.
    + intros o o' E. rewrite (Fr' o), (Fr' o'). intros [K|K]; [left; by apply (Wp o)|right].
      by apply (owned_pages _ (holding_memory x) _ _ o).
    + exists j. eexists. split; [exact Ej|]. change (resource_limits k') with (<[j := snd (Release l RCommit (s32 size))]> (resource_limits k)).
      apply list_lookup_insert_eq. by eapply lookup_lt_Some.
    + intros o Ho. change (holding_memory x') with h' in Ho. apply Hh' in Ho as [Ho N]. rewrite B', Z'. destruct (Hh o Ho) as [R Nf].
      split; [done|]. intros [K|K]%Fr'; done.
  - exact Fr'.
  - done.
  - lia.
  - intros a. rewrite Ev, V'. done.
  - change (bytes (kmem k')) with (bytes (memory vm')). exact (frame_bytes _ _ F).
  - exact Hh'.
  - split; [done|]. split; [done|]. split; [done|]. split.
    + intros q N. change (<[p := x']> (<[p := x2]> (<[p := x1]> (processes k))) !! q = processes k !! q). by rewrite !lookup_insert_ne by done.
    + intros j' l' Ej' El'. assert (j' = j) as -> by congruence. assert (l' = l) as -> by congruence.
      change (resource_limits k') with (<[j := snd (Release l RCommit (s32 size))]> (resource_limits k)). rewrite swrap_id; [done|done|unfold in_srange; lia].
Qed.

(** * Allocating and freeing *)

(** What has been allocated is owned. *)
Lemma allocated_owned k k' p x x' i r r' (t : S) target size perms st : heap_ok k p x i r ->
  allocated k k' p x x' i r r' t target size perms st -> aligned target ->
  owned (vm_of k' x') (holding_memory x') target size ∧
  ∀ o, fcram_of (vm_of k' x') target (target + size) o <-> covered t o.
Proof.
  intros H Al A1. pose proof (al_pages _ _ _ _ _ _ _ _ _ _ _ _ _ Al) as Wt. pose proof (hp_region_ok _ _ _ _ _ H) as Ro. pose proof (al_takes _ _ _ _ _ _ _ _ _ _ _ _ _ Al) as (_ & _ & _ & Sub & _).
  pose proof (page_blocks_of r t Ro (hp_fcram _ _ _ _ _ H) Wt Sub) as Pb. pose proof (al_measure _ _ _ _ _ _ _ _ _ _ _ _ _ Al) as M.
  pose proof (al_backed _ _ _ _ _ _ _ _ _ _ _ _ _ Al) as B.
  assert (Len : Z.of_nat (length (enumerate (iv_blocks t))) = size) by (rewrite length_enumerate by apply Pb; exact M).
  assert (At : ∀ a, target <= a < target + size -> ∃ o, enumerate (iv_blocks t) !! Z.to_nat (a - target) = Some o ∧ fcram_at (vm_of k' x') a o).
  { intros a Ha. destruct (lookup_lt_is_Some_2 (enumerate (iv_blocks t)) (Z.to_nat (a - target))) as (o & E); [lia|]. exists o. split; [done|].
    destruct (B _ _ E) as [V _]. replace (target + Z.of_nat (Z.to_nat (a - target))) with a in V by lia. eexists. split; [exact V|done]. }
  assert (Fw : ∀ a o, target <= a < target + size -> fcram_at (vm_of k' x') a o -> enumerate (iv_blocks t) !! Z.to_nat (a - target) = Some o).
  { intros a o Ha F. destruct (At a Ha) as (o' & E & F'). by rewrite (fcram_at_fun _ _ _ _ F F'). }
  split; [split|].
  - intros a Ha. destruct (At a Ha) as (o & E & F). exists o. split; [done|]. split.
    + apply (al_holding _ _ _ _ _ _ _ _ _ _ _ _ _ Al). right. apply covered_enumerate. by eapply list_elem_of_lookup_2.
    + rewrite (enumerate_mod _ _ _ Pb E). destruct A1 as [c ->]. replace (Z.of_nat (Z.to_nat (a - c * 4096))) with (a + - c * 4096) by lia.
      by rewrite Z.mod_add.
  - intros a b o Ha Hb Fa Fb. pose proof (NoDup_lookup _ _ _ _ (NoDup_enumerate _ (proj1 Pb)) (Fw _ _ Ha Fa) (Fw _ _ Hb Fb)). lia.
  - intros o. rewrite covered_enumerate. split.
    + intros (a & Ha & F). pose proof (Fw _ _ Ha F) as E. by eapply list_elem_of_lookup_2.
    + intros (n & E)%list_elem_of_lookup. pose proof (lookup_lt_Some _ _ _ E). exists (target + Z.of_nat n). split; [lia|].
      destruct (B _ _ E) as [V _]. eexists. split; [exact V|done].
Qed.

(** C11: Allocating heap at a free range of whole pages takes exactly [size] bytes
    from the region, backs the addresses of the range by them, in order, zeroed
    and with the permissions and the state asked for, and accounts for them.
    Other bytes stay, and of the other addresses only those of an adjacent area
    that merges may change, in their permissions.  When the range is not free, or
    the region has not enough left, an error is returned and nothing changes. *)
Theorem HeapAllocate_correct k p x i r target size perms st : heap_ok k p x i r -> aligned target -> aligned size -> 0 < size ->
  HEAP_VADDR <= target -> target + size <= HEAP_VADDR_END ->
  ∃ res out k', HeapAllocate k p target size perms st false = Some (res, out, k') ∧
    (¬ all_at (vm_of k x) is_free target (target + size) -> res = ResultInvalidAddressState ∧ out = None ∧ k' = k) ∧
    (all_at (vm_of k x) is_free target (target + size) -> space_left r < size -> res = ResultOutOfHeapMemory ∧ out = None ∧ k' = k) ∧
    (all_at (vm_of k x) is_free target (target + size) -> size <= space_left r -> res = ResultSuccess ∧ out = Some target ∧
       ∃ x' r' t, allocated k k' p x x' i r r' t target size perms st).
Proof.
  intros H A1 A2 Hs H0 He. unfold HEAP_VADDR_END, HEAP_VADDR, HEAP_SIZE in *.
  apply HeapAllocate_spec; try done; [lia|unfold MAX_ADDRESS; lia|].
  by rewrite outside_heap_false by (unfold HEAP_VADDR_END, HEAP_VADDR, HEAP_SIZE; lia).
Qed.

(** C12: Heap that is allocated and freed again leaves the kernel as it was: the
    free bytes of the region and its use, the address space, what the process
    holds and has in use, and the committed memory. *)
Theorem HeapAllocate_HeapFree k p x i r target size st j l : heap_ok k p x i r -> aligned target -> aligned size -> 0 < size ->
  HEAP_VADDR <= target -> target + size <= HEAP_VADDR_END ->
  all_at (vm_of k x) is_free target (target + size) -> size <= space_left r ->
  in_range 32 (memory_used x) -> resource_limit x = Some j -> resource_limits k !! j = Some l -> limit_ok l ->
  GetCurrentValue l RCommit + size <= GetLimitValue l RCommit ->
  ∃ k1 k2 x2 r2, HeapAllocate k p target size PermReadWrite st false = Some (ResultSuccess, Some target, k1) ∧
    HeapFree k1 p target size = Some (ResultSuccess, k2) ∧ heap_ok k2 p x2 i r2 ∧
    (∀ o, MemoryRegion.is_free r2 o <-> MemoryRegion.is_free r o) ∧ used r2 = used r ∧
    (∀ a, view (vm_of k2 x2) a = view (vm_of k x) a) ∧ (∀ o, covered (holding_memory x2) o <-> covered (holding_memory x) o) ∧
    memory_used x2 = memory_used x ∧ resource_limits k2 = resource_limits k.
Proof.
  intros H A1 A2 Hs H0 He F L Mu Ej El Lo Lc. unfold HEAP_VADDR_END, HEAP_VADDR, HEAP_SIZE in *.
  destruct (HeapAllocate_spec k p x i r target size PermReadWrite st false H A1 A2 Hs) as (res & out & k1 & E1 & _ & _ & G);
    [lia|unfold MAX_ADDRESS; lia|by rewrite outside_heap_false by (unfold HEAP_VADDR_END, HEAP_VADDR, HEAP_SIZE; lia)|].
  destruct (G F L) as (-> & -> & x1 & r1 & t & Al). destruct (allocated_owned _ _ _ _ _ _ _ _ _ _ _ _ _ H Al A1) as (Ow & Of).
  destruct Al as [Hk1 (Ro1 & B1 & Z1 & Sub & Fr1 & Sl1) M _ _ Out _ Hold (U1 & Rl1 & _ & _ & Lim1)].
  destruct (HeapFree_spec k1 p x1 i r1 target size Hk1 A1 A2 Hs) as (k2 & x2 & r2 & E2 & Fd);
    [unfold HEAP_VADDR; lia|unfold HEAP_VADDR_END, HEAP_VADDR, HEAP_SIZE; lia|exact Ow|].
  destruct Fd as [Hk2 Fr2 [_ Z2] Sl2 V2 _ Hold2 (U2 & _ & _ & _ & Lim2)].
  exists k1, k2, x2, r2. split; [exact E1|]. split; [exact E2|]. split; [exact Hk2|].
  assert (D : ∀ o, covered t o \/ ¬ covered t o).
  { intros o. rewrite covered_enumerate. destruct (decide (o ∈ enumerate (iv_blocks t))); tauto. }
  split_and!.
  - intros o. rewrite Fr2, Fr1, Of. specialize (Sub o). specialize (D o). tauto.
  - rewrite (region_used _ (hp_region_ok _ _ _ _ _ Hk2)), (region_used _ (hp_region_ok _ _ _ _ _ H)).
    lia.
  - intros a. rewrite V2. destruct (in_interval target (target + size) a) eqn:I.
    + unfold in_interval in I. destruct (F a ltac:(lia)) as (y & Hy & Fy). rewrite Hy.
      by rewrite (free_attr_eq _ _ _ (hp_vm _ _ _ _ _ H) Hy Fy).
    + by apply (spilled_same st), Out.
  - intros o. rewrite Hold2, Hold, Of. specialize (D o). pose proof (hp_holding _ _ _ _ _ H o) as N. specialize (Sub o). tauto.
  - rewrite U2, U1. unfold uwrap. rewrite Zminus_mod_idemp_l, Z.add_simpl_r. by apply Z.mod_small.
  - destruct (Reserve_Release l RCommit size Lo ltac:(lia) Lc) as (l' & Er & El2). pose proof (Lim1 j l Ej El) as K1. rewrite Er in K1.
    assert (Lk : resource_limits k1 !! j = Some l') by (rewrite K1; apply list_lookup_insert_eq; by eapply lookup_lt_Some).
    rewrite (Lim2 j l') by (done || congruence). rewrite El2, K1, list_insert_insert_eq. by apply list_insert_id.
Qed.
End heap.

(** * Mapping memory of a process a second time, and undoing it. *)

Section alias.
Context `{gpu : GPU}.
Implicit Types (vm : VMManager) (perms : VMAPermission).

(** Mapping the blocks of a range at another place shows the same host memory. *)
Lemma map_blocks_spec vm0 e perms st : ∀ bl a vm t, blocks_cover vm0 a bl e -> (∀ b, b ∈ bl -> aligned b.2) ->
  vm_ok vm -> aligned t -> 0 <= t -> t + (e - a) <= MAX_ADDRESS -> all_at vm is_free t (t + (e - a)) ->
  a <= e ∧ ∃ vm', map_blocks vm t bl st perms = Some vm' ∧ vm_ok vm' ∧ vm_frame vm vm' ∧
    (∀ x y, a <= x < e -> view vm0 x = Some y -> view vm' (t + (x - a)) = Some (mk_Attr VMABackingMemory perms st (at_ptr y))) ∧
    (∀ b, in_interval t (t + (e - a)) b = false -> spilled perms st (view vm b) (view vm' b)).
Proof.
  induction bl as [|[m n] bl IH]; intros a vm t C Al O A H0 He F; cbn [map_blocks].
  { cbn in C. subst a. split; [done|]. exists vm. split; [done|]. split; [done|]. split; [done|]. split; [lia|by left]. }
  destruct C as (Hn & Rm & Pm & C). assert (Le : a + n <= e).
  { clear - C. revert C. generalize (a + n). induction bl as [|[m' n'] bl IH]; intros c C; [cbn in C; lia|].
    destruct C as (Hn & _ & _ & C). specialize (IH _ C). lia. }
  split; [lia|]. unfold MAX_ADDRESS in He.
  destruct (map_protect_spec vm t m n st perms O A (Al (m, n) ltac:(by left)) H0 Hn ltac:(lia) Rm) as (vm1 & -> & O1 & F1 & V1).
  { intros x Hx. apply F. lia. }
  cbn [mbind option_bind]. rewrite (uwrap_id 32 (t + n)) by (unfold in_range; lia).
  assert (S1 : ∀ b, in_interval t (t + n) b = false -> spilled perms st (view vm b) (view vm1 b)).
  { intros b Hb. specialize (V1 b). by rewrite Hb in V1. }
  destruct (IH (a + n) vm1 (t + n) C ltac:(intros b Hb; apply Al; by right) O1) as (_ & vm' & -> & O' & F' & V' & S');
    [by apply Z.divide_add_r; [|apply (Al (m, n)); left]|lia|unfold MAX_ADDRESS; lia| |].
  { intros x Hx. destruct (F x ltac:(lia)) as (y & Hy & Fy). exists y. split; [|done]. specialize (S1 x ltac:(unfold in_interval; lia)).
    rewrite Hy in S1. by apply (spilled_free perms st). }
  exists vm'. split; [done|]. split; [exact O'|]. split; [by etrans|]. split.
  - intros x y Hx Vy. destruct (decide (x < a + n)) as [L|L].
    + specialize (S' (t + (x - a)) ltac:(unfold in_interval; lia)). specialize (V1 (t + (x - a))). unfold in_interval in V1.
      rewrite (proj2 (Z.leb_le _ _)), (proj2 (Z.ltb_lt _ _)) in V1 by lia. cbn [andb] in V1. rewrite V1 in S'.
      apply spilled_done in S'; [|done]. rewrite S'. specialize (Pm x ltac:(lia)). rewrite Vy in Pm. cbn in Pm. injection Pm as Pm.
      unfold mapping. cbn. rewrite Pm. do 3 f_equal. lia.
    + replace (t + (x - a)) with (t + n + (x - (a + n))) by lia. apply V'; [lia|done].
  - intros b Hb. apply (spilled_trans perms st _ (view vm1 b)); [apply S1|apply S']; unfold in_interval in *; lia.
Qed.

Lemma ranges_overlap_false target source size : 0 <= target -> 0 <= source -> 0 < size -> target + size <= MAX_ADDRESS ->
  source + size <= MAX_ADDRESS -> target + size <= source ∨ source + size <= target -> ranges_overlap target source size = false.
Proof.
  unfold ranges_overlap, MAX_ADDRESS, uwrap. intros H1 H2 H3 H4 H5 [D|D].
  - replace (target - source) with (- (source - target)) by lia. rewrite (Z.mod_small (source - target)) by lia.
    rewrite Z_mod_nz_opp_full by (rewrite Z.mod_small; lia). rewrite Z.mod_small by lia. lia.
  - replace (source - target) with (- (target - source)) by lia. rewrite (Z.mod_small (target - source)) by lia.
    rewrite Z_mod_nz_opp_full by (rewrite Z.mod_small; lia). rewrite Z.mod_small by lia. lia.
Qed.

(** The source and the target of an alias, apart from each other. *)
Record alias_ranges (target source size : Z) : Prop := {
  ar_target : aligned target ∧ 0 <= target ∧ target + size <= MAX_ADDRESS;
  ar_source : aligned source ∧ HEAP_VADDR <= source ∧ source + size <= HEAP_VADDR_END;
  ar_size : aligned size ∧ 0 < size;
  ar_apart : target + size <= source ∨ source + size <= target
}.

(** Private memory that may be read and written. *)
Definition is_private (x : Attr) : Prop := is_expected Private PermReadWrite x ∧ is_mapped x.

(** What mapping a range a second time leaves. *)
Record aliased vm vm' (target source size : Z) perms : Prop := {
  as_ok : vm_ok vm';
  as_source : ∀ a, in_interval source (source + size) a = true ->
    view vm' a = (fun x => x<|at_perms := PermReadWrite|><|at_state := Aliased|>) <$> view vm a;
  as_target : ∀ i x, 0 <= i < size -> view vm (source + i) = Some x ->
    view vm' (target + i) = Some (mk_Attr VMABackingMemory perms Alias (at_ptr x));
  as_outside : ∀ a, in_interval source (source + size) a = false -> in_interval target (target + size) a = false ->
    spilled perms Alias (view vm a) (view vm' a)
}.

Lemma Map_spec vm target source size perms : vm_ok vm -> alias_ranges target source size ->
  ∃ res vm', Map vm target source size perms false = Some (res, vm') ∧
    let allowed := all_at vm is_free target (target + size) ∧ all_at vm is_private source (source + size) in
    (allowed -> res = ResultSuccess ∧ aliased vm vm' target source size perms) ∧
    (¬ allowed -> res = ResultInvalidAddressState ∧ vm' = vm).
Proof.
  intros O [(A1 & T0 & T1) (A2 & S0 & S1) (A3 & Sz) D]. unfold Map. rewrite outside_heap_false by done. cbn [negb andb].
  unfold HEAP_VADDR_END, HEAP_VADDR, HEAP_SIZE in *. assert (S2 : source + size <= MAX_ADDRESS) by (unfold MAX_ADDRESS; lia).
  rewrite ranges_overlap_false by (done || lia).
  destruct (free_in_area_spec vm target size O T0 Sz T1) as (fr & -> & Hf). cbn [mbind option_bind].
  destruct fr; cbn [negb]; [|exists ResultInvalidAddressState, vm; split; [done|]; split; [intros [F _]; by apply Hf in F|done]].
  pose proof (proj1 Hf eq_refl) as F.
  destruct (ChangeMemoryState_spec vm source size Private PermReadWrite Aliased PermReadWrite O A2 A3) as (res & vm1 & -> & O1 & F1 & C & N);
    [lia|lia|done|]. cbn [mbind option_bind].
  assert (Pv : all_at vm is_private source (source + size) <->
    all_at vm (is_expected Private PermReadWrite) source (source + size) ∧ all_at vm is_mapped source (source + size)).
  { split.
    - intros H. split; intros a Ha; destruct (H a Ha) as (x & Vx & Ex & Mx); by exists x.
    - intros [H1 H2] a Ha. destruct (H1 a Ha) as (x & Vx & Ex), (H2 a Ha) as (y & Vy & My). exists x. split; [done|]. split; [done|].
      congruence. }
  destruct (decide (all_at vm (is_expected Private PermReadWrite) source (source + size) ∧ all_at vm is_mapped source (source + size))) as [K|K].
  2:{ destruct (N K) as [-> ->]. exists ResultInvalidAddressState, vm. split; [done|]. split; [|done]. intros [_ K'%Pv]. done. }
  destruct (C K) as [-> V1]. change (IsError ResultSuccess) with false. cbv iota.
  assert (M1 : all_at vm1 is_mapped source (source + size)).
  { intros a Ha. destruct (proj2 K a Ha) as (x & Vx & Mx). rewrite V1, (proj2 (in_interval_spec _ _ _) Ha), Vx.
    eexists. split; [done|exact Mx]. }
  destruct (GetBackingBlocksForRange_spec vm1 source size O1) as (res & -> & Hb & _); [lia|lia|done|]. cbn [mbind option_bind].
  destruct (Hb M1) as (bl & -> & Cv & Al).
  assert (F' : all_at vm1 is_free target (target + (source + size - source))).
  { intros a Ha. destruct (F a ltac:(lia)) as (x & Vx & Fx). exists x. split; [|done]. rewrite V1. destruct (in_interval source (source + size) a) eqn:B; [apply in_interval_spec in B; lia|done]. }
  destruct (map_blocks_spec vm1 (source + size) perms Alias bl source vm1 target Cv) as (_ & vm2 & -> & O2 & F2 & V2 & S3);
    [apply Al; [done|by apply Z.divide_add_r]|done|done|done|lia|done|].
  cbn [mbind option_bind]. exists ResultSuccess, vm2. split; [done|]. split; [|intros []; split; [done|by apply Pv]]. intros _. split; [done|].
  replace (target + (source + size - source)) with (target + size) in S3 by lia. split.
  - exact O2.
  - intros a I. pose proof (proj1 (in_interval_spec _ _ _) I) as Ha. destruct (proj2 K a Ha) as (x & Vx & _).
    specialize (S3 a ltac:(unfold in_interval; lia)). rewrite V1, I, Vx in S3. rewrite Vx.
    cbn in S3 |- *. destruct S3 as [->|(y & [= <-] & _ & _ & E & _)]; [done|]. done.
  - intros i x Hi Vx. rewrite <- (Z.add_simpl_l source i) at 1. specialize (V2 (source + i)). rewrite V1, (proj2 (in_interval_spec _ _ _)), Vx in V2 by lia.
    exact (V2 _ ltac:(lia) eq_refl).
  - intros a I1 I2. specialize (S3 a I2). rewrite V1, I1 in S3. exact S3.
Qed.

(** C13: Mapping private memory of the heap a second time at a free range makes the
    target show the same host memory with the permissions asked for, and marks
    the source as aliased; it is refused, and nothing changes, when the target is
    not free or the source is not private memory that may be read and written. *)
Theorem Map_correct vm target source size perms : vm_ok vm -> alias_ranges target source size ->
  ∃ res vm', Map vm target source size perms false = Some (res, vm') ∧
    let allowed := all_at vm is_free target (target + size) ∧ all_at vm is_private source (source + size) in
    (allowed -> res = ResultSuccess ∧ aliased vm vm' target source size perms) ∧
    (¬ allowed -> res = ResultInvalidAddressState ∧ vm' = vm).
Proof. apply Map_spec. Qed.

(** C14: Undoing an alias with the permissions the source had restores source and
    target; of the other addresses, at most the permissions of areas next to the
    target have changed. *)
Theorem Map_Unmap vm target source size perms : vm_ok vm -> alias_ranges target source size ->
  all_at vm is_free target (target + size) ->
  all_at vm (fun x => is_private x ∧ at_perms x = PermReadWrite) source (source + size) ->
  ∃ vm1 vm2, Map vm target source size perms false = Some (ResultSuccess, vm1) ∧
    Unmap vm1 target source size PermReadWrite false = Some (ResultSuccess, vm2) ∧ vm_ok vm2 ∧
    ∀ a, spilled perms Alias (view vm a) (view vm2 a) ∧
      (in_interval source (source + size) a || in_interval target (target + size) a = true -> view vm2 a = view vm a).
Proof.
  intros O Ar F P. destruct (Map_spec vm target source size perms O Ar) as (res & vm1 & E1 & H & _).
  destruct H as [-> [O1 Vs Vt Vo]]; [split; [done|]; intros a Ha; destruct (P a Ha) as (x & Vx & Px & _); by exists x|].
  destruct Ar as [(A1 & T0 & T1) (A2 & S0 & S1) (A3 & Sz) D].
  unfold Unmap. rewrite outside_heap_false by done. cbn [negb andb]. unfold HEAP_VADDR_END, HEAP_VADDR, HEAP_SIZE in *.
  assert (S2 : source + size <= MAX_ADDRESS) by (unfold MAX_ADDRESS; lia).
  destruct (UnmapRange_spec vm1 target size O1 A1 A3 T0 Sz T1) as (res & vm' & E2 & O' & _ & U & _).
  destruct U as [-> V'].
  { intros a Ha. destruct (P (source + (a - target)) ltac:(lia)) as (x & Vx & _). specialize (Vt (a - target) x ltac:(lia) Vx).
    replace (target + (a - target)) with a in Vt by lia. by eexists. }
  assert (Src : ∀ a, source <= a < source + size -> view vm' a = (fun x => x<|at_perms := PermReadWrite|><|at_state := Aliased|>) <$> view vm a).
  { intros a Ha. rewrite V'. destruct (in_interval target _ a) eqn:I; [apply in_interval_spec in I; lia|]. by apply Vs, in_interval_spec. }
  destruct (ChangeMemoryState_spec vm' source size Aliased PermNone Private PermReadWrite O' A2 A3) as (res & vm2 & E3 & O2 & _ & C & _);
    [lia|lia|done|].
  destruct C as [-> V2].
  { split; intros a Ha; destruct (P a Ha) as (x & Vx & (_ & Mx) & _); rewrite Src, Vx by done; eexists; (split; [done|]);
      [split; [done|apply Z.land_0_r]|exact Mx]. }
  exists vm1, vm2. split; [exact E1|]. rewrite ranges_overlap_false, E2 by (done || lia). cbn [mbind option_bind].
  change (IsError ResultSuccess) with false. cbv iota. rewrite E3. cbn [mbind option_bind]. split; [done|]. split; [exact O2|].
  assert (R : ∀ a, in_interval source (source + size) a || in_interval target (target + size) a = true -> view vm2 a = view vm a).
  { intros a I. rewrite V2. destruct (in_interval source _ a) eqn:Is.
    - apply in_interval_spec in Is. rewrite Src by done. destruct (P a Is) as ([ty pm st pt] & -> & ((Es & _) & _) & Ep). cbn in *. by subst.
    - cbn [orb] in I. rewrite V', I. apply in_interval_spec in I. destruct (F a I) as (x & Vx & Fx). rewrite Vx.
      by rewrite (free_attr_eq _ _ _ O Vx Fx). }
  intros a. split; [|exact (R a)]. destruct (in_interval source (source + size) a) eqn:Is; [left; apply R; by rewrite Is|].
  destruct (in_interval target (target + size) a) eqn:It; [left; apply R; by rewrite Is, It|].
  rewrite V2, Is, V', It. by apply Vo.
Qed.
End alias.
