(* ===== verification/SvcMemory.v ===== *)
(** The supervisor calls over memory, resource limits and processes, of
    [kernel/svc.cpp].

    The caller is a process [p] with a thread; a handle is looked up in its
    table, where an object is its type and its number.  Output parameters are
    part of the result; one that a call may leave unset is given its value
    before. *)

From S2P Require Import Prelude BitField Result ResourceLimit HandleTable Memory IntervalSet MemoryRegion VmManager Process SharedMemory.

(* src: core/memory.h | PROCESS_IMAGE_VADDR = 0x00100000, | PROCESS_IMAGE_VADDR | +1 *)
Definition PROCESS_IMAGE_VADDR : Z := 0x00100000.

(** * Objects *)

(* src: kernel/object.h | enum class HandleType : u32 { *)
Inductive HandleType :=
  TUnknown | TEvent | TMutex | TSharedMemory | TThread | TProcess | TAddressArbiter | TSemaphore | TTimer
| TResourceLimit | TCodeSet | TClientPort | TServerPort | TClientSession | TServerSession.
#[export] Instance HandleType_eq_dec : EqDecision HandleType.
Proof. solve_decision. Defined.

(* src: kernel/object.h | class Object : NonCopyable, public std::enable_shared_from_this<Object> { | Object | ..virtual HandleType GetHandleType() const = 0; *)
Record Object := mk_Object { GetHandleType : HandleType; object_place : nat }.
#[export] Instance Object_eq_dec : EqDecision Object.
Proof. solve_decision. Defined.

(* src: kernel/object.h | inline std::shared_ptr<T> DynamicObjectCast(std::shared_ptr<Object> object) { *)
Definition DynamicObjectCast (T : HandleType) (object : option Object) : option nat :=
  o ← object; if decide (GetHandleType o = T) then Some (object_place o) else None.

(* src: svc.cpp | enum ControlMemoryOperation { *)
Definition MEMOP_OPERATION_MASK : Z := 0xFF.
Inductive ControlMemoryOperation := MEMOP_FREE | MEMOP_COMMIT | MEMOP_MAP | MEMOP_UNMAP | MEMOP_PROTECT.
(* src: svc.cpp | enum ControlMemoryOperation { *)
Definition memop (operation : Z) : option ControlMemoryOperation :=
  match operation .& MEMOP_OPERATION_MASK with
  | 1 => Some MEMOP_FREE | 3 => Some MEMOP_COMMIT | 4 => Some MEMOP_MAP
  | 5 => Some MEMOP_UNMAP | 6 => Some MEMOP_PROTECT | _ => None
  end.
(* src: svc.cpp | MEMOP_REGION_MASK = 0xF00, | MEMOP_REGION_MASK | +1 *)
Definition MEMOP_REGION_MASK : Z := 0xF00.
(* src: svc.cpp | MEMOP_LINEAR = 0x10000, | MEMOP_LINEAR | +1 *)
Definition MEMOP_LINEAR : Z := 0x10000.

Section svc.
Context {S : Type} `{IVS : IntervalSet S} `{gpu : GPU}.
Implicit Types (k : KernelMemory S Object) (p : nat).

(** * Control of the caller's memory *)

(** A call of [Process] that has no output parameter. *)
Definition no_out (r : option (Result * KernelMemory S Object)) : option (Result * option Z * KernelMemory S Object) :=
  '(res, k) ← r; Some (res, None, k).

(* src: svc.cpp | case MEMOP_FREE: { | SVC::ControlMemory *)
Definition control_free k p (addr0 size : Z) : option (Result * option Z * KernelMemory S Object) :=
  '(res, k) ← (if (HEAP_VADDR <=? addr0) && (addr0 <? HEAP_VADDR_END) then HeapFree k p addr0 size
               else
                 x ← processes k !! p; b ← GetLinearHeapBase k x; l ← GetLinearHeapLimit k x;
                 if (b <=? addr0) && (addr0 <? l) then LinearFree k p addr0 size
                 else Some (ResultInvalidAddress, k));
  Some (res, if IsError res then None else Some addr0, k).
(* src: svc.cpp | Result SVC::ControlMemory(u32* out_addr, u32 addr0, u32 addr1, u32 size, u32 operation, *)
Definition ControlMemory k p (addr0 addr1 size operation permissions : Z)
    : option (Result * option Z * KernelMemory S Object) :=
  R_UNLESS ((addr0 .& CITRA_PAGE_MASK) =? 0) (Some (ResultMisalignedAddress, None, k)) (
  R_UNLESS ((addr1 .& CITRA_PAGE_MASK) =? 0) (Some (ResultMisalignedAddress, None, k)) (
  R_UNLESS ((size .& CITRA_PAGE_MASK) =? 0) (Some (ResultMisalignedSize, None, k)) (
  let operation := operation .& unot 32 MEMOP_REGION_MASK in
  if negb ((permissions .& PermReadWrite) =? permissions) then Some (ResultInvalidCombination, None, k)
  else
    match memop operation with
    | Some MEMOP_FREE => control_free k p addr0 size
    | Some MEMOP_COMMIT =>
        if nz (operation .& MEMOP_LINEAR) then LinearAllocate k p addr0 size permissions
        else HeapAllocate k p addr0 size permissions Private false
    | Some MEMOP_MAP => no_out (Process_Map k p addr0 addr1 size permissions false)
    | Some MEMOP_UNMAP => no_out (Process_Unmap k p addr0 addr1 size permissions false)
    | Some MEMOP_PROTECT => no_out (on_vm k p (fun vm => ReprotectRange vm addr0 size permissions))
    | None => Some (ResultInvalidCombination, None, k)
    end))).

(** * Handles *)

(** What the calls share: the memory of the processes, the blocks of shared
    memory by number, and the page of the configuration. *)
Record Svc := mk_Svc {
  kernel : KernelMemory S Object;
  shared_memories : gmap nat (SharedMemory S);
  config_mem : ConfigMem
}.
Implicit Types (g : Svc) (handle : Z).
Definition with_kernel g (k : KernelMemory S Object) : Svc := g<|kernel := k|>.

(** The caller: its process and its thread. *)
Context (p t : nat).
Definition this_thread : option Object := Some (mk_Object TThread t).
Definition this_process : option Object := Some (mk_Object TProcess p).

Definition caller g : option (Process S Object) := processes (kernel g) !! p.
Definition set_table g (table : HandleTable Object) : option Svc :=
  x ← caller g; Some (with_kernel g (set_process (kernel g) p (x<|handle_table := table|>))).
(** [handle_table.Get<T>(handle)] of the caller; [None] inside for a null pointer. *)
(* src: kernel/handle_table.h | std::shared_ptr<T> Get(Handle handle) const { *)
Definition Get (T : HandleType) g handle : option (option nat) :=
  x ← caller g; Some (DynamicObjectCast T (GetGeneric this_thread this_process (handle_table x) handle)).
(** [handle_table.Create(out_handle, object)]. *)
Definition create_handle g (o : Object) : option (Result * option Z * Svc) :=
  x ← caller g;
  let '(res, out, table) := HandleTable.Create (handle_table x) o in
  g ← set_table g table; Some (res, out, g).
(** A call that needs the object of a handle. *)
Definition with_object {A} (T : HandleType) g handle (invalid : A) (f : nat -> option A) : option A :=
  o ← Get T g handle; match o with Some n => f n | None => Some invalid end.

(* src: svc.cpp | Result SVC::CloseHandle(Handle handle) { *)
Definition CloseHandle g handle : option (Result * Svc) :=
  x ← caller g; let '(res, table) := Close (handle_table x) handle in g ← set_table g table; Some (res, g).
(* src: svc.cpp | Result SVC::DuplicateHandle(Handle* out, Handle handle) { *)
Definition DuplicateHandle g handle : option (Result * option Z * Svc) :=
  x ← caller g;
  let '(res, out, table) := Duplicate this_thread this_process (handle_table x) handle in
  g ← set_table g table; Some (res, out, g).
(* src: process.cpp | std::shared_ptr<Process> KernelSystem::GetProcessById(u32 process_id) const { *)
Definition GetProcessById k (id : Z) : option nat :=
  snd <$> list_find (fun q => process_id <$> processes k !! q = Some id) (process_list k).
(* src: svc.cpp | Result SVC::OpenProcess(Handle* out_handle, u32 process_id) { *)
Definition OpenProcess g (id : Z) : option (Result * option Z * Svc) :=
  match GetProcessById (kernel g) id with
  | None => Some (Result_make 24 ErrorModule_OS ErrorSummary_WrongArgument ErrorLevel_Permanent, None, g)
  | Some q => create_handle g (mk_Object TProcess q)
  end.
(* src: svc.cpp | Result SVC::GetProcessId(u32* process_id, Handle process_handle) { *)
Definition GetProcessId g handle : option (Result * option Z) :=
  with_object TProcess g handle (ResultInvalidHandle, None) (fun q =>
    x ← processes (kernel g) !! q; Some (ResultSuccess, Some (process_id x))).

(** * Blocks of shared memory *)

(* src: svc.cpp | switch (permissions_type) { | SVC::MapMemoryBlock | ..case MemoryPermission::DontCare: *)
Definition mappable (permissions : MemoryPermission) : bool :=
  (permissions =? DontCare) || ((1 <=? permissions) && (permissions <=? 7)).
(* src: svc.cpp | Result SVC::MapMemoryBlock(Handle handle, u32 addr, u32 permissions, u32 other_permissions) { *)
Definition MapMemoryBlock g handle (addr permissions other_permissions : Z) : option (Result * Svc) :=
  with_object TSharedMemory g handle (ResultInvalidHandle, g) (fun s =>
    sm ← shared_memories g !! s;
    if mappable permissions then
      '(res, k) ← SharedMemory_Map (kernel g) sm p addr permissions other_permissions;
      Some (res, with_kernel g k)
    else Some (ResultInvalidCombination, g)).
(* src: svc.cpp | Result SVC::UnmapMemoryBlock(Handle handle, u32 addr) { *)
Definition UnmapMemoryBlock g handle (addr : Z) : option (Result * Svc) :=
  with_object TSharedMemory g handle (ResultInvalidHandle, g) (fun s =>
    sm ← shared_memories g !! s;
    '(res, k) ← SharedMemory_Unmap (kernel g) sm p addr; Some (res, with_kernel g k)).

(* src: svc.cpp | auto VerifyPermissions = [](MemoryPermission permission) { *)
Definition VerifyPermissions (permission : MemoryPermission) : bool :=
  (permission =? DontCare) || ((0 <=? permission) && (permission <=? 3)).
(* src: kernel/memory.cpp | std::shared_ptr<MemoryRegionInfo> KernelSystem::GetMemoryRegion(MemoryRegion region) { *)
Definition GetMemoryRegion (region : Z) : option MemoryRegion :=
  match region with 1 => Some APPLICATION | 2 => Some SYSTEM | 3 => Some BASE | _ => None end.
(* src: kernel/process.h | BitField<6, 1, u16> shared_device_mem; | ProcessFlags | +1 *)
Definition flags_shared_device_mem := BitField 6 1.
(* src: svc.cpp | MemoryRegion region = MemoryRegion::BASE; | SVC::CreateMemoryBlock | +4 *)
Definition block_region (x : Process S Object) (addr : Z) : option MemoryRegion :=
  if (addr =? 0) && nz (ExtractValue 16 flags_shared_device_mem (flags x))
  then GetMemoryRegion (ExtractValue 16 flags_memory_region (flags x)) else Some BASE.
(** The new block gets a number not in use; without a handle it is destroyed. *)
(* src: svc.cpp | Result SVC::CreateMemoryBlock(Handle* out_handle, u32 addr, u32 size, u32 my_permission, *)
Definition CreateMemoryBlock g (addr size my_permission other_permission : Z) : option (Result * option Z * Svc) :=
  R_UNLESS (size mod CITRA_PAGE_SIZE =? 0) (Some (ResultMisalignedSize, None, g)) (
  R_UNLESS (VerifyPermissions my_permission) (Some (ResultInvalidCombination, None, g)) (
  R_UNLESS (VerifyPermissions other_permission) (Some (ResultInvalidCombination, None, g)) (
  if ((addr <? PROCESS_IMAGE_VADDR) || (SHARED_MEMORY_VADDR_END <? u32 (addr + size))) && nz addr
  then Some (ResultInvalidAddress, None, g)
  else
    x ← caller g; i ← resource_limit x; l ← resource_limits (kernel g) !! i;
    let '(ok, l) := Reserve l RSharedMemory 1 in
    if negb ok then
      Some (Result_make (ErrCodes_code ErrCodes_OutOfSharedMems) ErrorModule_OS ErrorSummary_OutOfResource
              ErrorLevel_Status, None, g)
    else
      region ← block_region x addr;
      '(made, k) ← CreateSharedMemory (set_limit (kernel g) i l) (Some p) size my_permission other_permission addr region;
      match made with
      | inl e => Some (e, None, with_kernel g k)
      | inr sm =>
          let s := stdpp.base.fresh (dom (shared_memories g) : gset nat) in
          '(res, out, g) ← create_handle (with_kernel g k) (mk_Object TSharedMemory s);
          if IsError res
          then k ← DestroySharedMemory (kernel g) sm; Some (res, out, with_kernel g k)
          else Some (res, out, g<|shared_memories := <[s := sm]> (shared_memories g)|>)
      end))).
(** * Questions about memory *)

(* src: svc.cpp | struct MemoryInfo { *)
Record MemoryInfo := mk_MemoryInfo { base_address : Z; info_size : Z; permission : Z; state : MemoryState }.
(** The entries from the first on that satisfy [f]. *)
Fixpoint take_while {A} (f : A -> bool) (l : list A) : list A :=
  match l with [] => [] | x :: l => if f x then x :: take_while f l else [] end.
(* src: svc.cpp | auto mismatch = [permissions, state](const std::pair<VAddr, Kernel::VirtualMemoryArea>& v) { *)
Definition mismatch (v : VirtualMemoryArea) (u : VirtualMemoryArea) : bool :=
  negb (permissions u =? permissions v) || bool_decide (meminfo_state u ≠ meminfo_state v).
(** The first and the last area of the run of areas like [v] around it. *)
(* src: svc.cpp | std::reverse_iterator rvma(vma); | SVC::QueryProcessMemory | ..--upper; *)
Definition run_around (before : list VirtualMemoryArea) (v : VirtualMemoryArea) (after : list VirtualMemoryArea)
    : VirtualMemoryArea * VirtualMemoryArea :=
  let like u := negb (mismatch v u) in
  (List.last (take_while like (rev before)) v, List.last (take_while like after) v).
(** The information on an address; the flags of the page are 0. *)
(* src: svc.cpp | auto vma = process->vm_manager.FindVMA(addr); | SVC::QueryProcessMemory | ..page_info->flags = 0; *)
Definition query_vma vm (addr : Z) : option (Result * option MemoryInfo) :=
  found ← FindVMA vm addr;
  match found with
  | None => Some (ResultInvalidAddress, None)
  | Some v =>
      '(before, _, after) ← locate (VmManager.base v) (vma_map vm);
      let '(lower, upper) := run_around before v after in
      Some (ResultSuccess, Some (mk_MemoryInfo (VmManager.base lower)
        (u32 (VmManager.base upper + VmManager.size upper - VmManager.base lower)) (permissions v) (meminfo_state v)))
  end.
(* src: svc.cpp | Result SVC::QueryProcessMemory(MemoryInfo* memory_info, PageInfo* page_info, Handle process_handle, *)
Definition QueryProcessMemory g handle (addr : Z) : option (Result * option MemoryInfo) :=
  with_object TProcess g handle (ResultInvalidHandle, None) (fun q =>
    x ← processes (kernel g) !! q; query_vma (vm_of (kernel g) x) addr).
(* src: svc.cpp | Result SVC::QueryMemory(MemoryInfo* memory_info, PageInfo* page_info, u32 addr) { *)
Definition QueryMemory g (addr : Z) : option (Result * option MemoryInfo) := QueryProcessMemory g CurrentProcess addr.

(* src: svc.cpp | u32 SVC::ConvertVaToPa(u32 addr) { *)
Definition ConvertVaToPa g (addr : Z) : option Z :=
  x ← caller g; found ← FindVMA (vm_of (kernel g) x) addr;
  match found with
  | Some v =>
      if decide (type v = VMABackingMemory) then
        o ← GetFCRAMOffset (ptr_add (GetPtr (backing_memory v)) (addr - VmManager.base v));
        Some (u32 (o + FCRAM_PADDR))
      else Some 0
  | None => Some 0
  end.

(** * Memory of other processes *)

(* src: svc.cpp | if (size & 0xFFF) { #1 | SVC::MapProcessMemoryEx *)
Definition whole_pages_size (size : Z) : Z :=
  if nz (size .& 0xFFF) then u32 ((size .& unot 32 0xFFF) + CITRA_PAGE_SIZE) else size.
(** A mapped area of linear memory at an address. *)
Definition continuous_area vm (addr : Z) : option (option VirtualMemoryArea) :=
  found ← FindVMA vm addr;
  Some (v ← found;
        if decide (type v = VMABackingMemory ∧ meminfo_state v = Continuous) then Some v else None).
(** The offset in FCRAM is a difference of pointers. *)
(* src: svc.cpp | Result SVC::MapProcessMemoryEx(Handle dst_process_handle, u32 dst_address, *)
Definition MapProcessMemoryEx g dst_handle (dst_address : Z) src_handle (src_address size : Z) : option (Result * Svc) :=
  dst ← Get TProcess g dst_handle; src ← Get TProcess g src_handle;
  match dst, src with
  | Some dst, Some src =>
      let size := whole_pages_size size in
      x ← processes (kernel g) !! src;
      area ← continuous_area (vm_of (kernel g) x) src_address;
      match area with
      | None => Some (ResultInvalidAddress, g)
      | Some v =>
          let offset := u32 (src_address - VmManager.base v) in
          R_UNLESS (u32 (offset + size) <=? VmManager.size v) (Some (ResultInvalidAddress, g)) (
          o ← (match GetPtr (backing_memory v) with Some (FCRAM, o) => Some o | _ => None end);
          mem ← GetFCRAMRef (o + offset);
          '(res, k) ← on_vm (kernel g) dst (fun vm =>
            '(r, vm) ← MapBackingMemory vm dst_address mem size Continuous;
            match r with
            | RV_err _ => Some (ResultInvalidAddressState, vm)
            | RV_val it => '(_, vm) ← Reprotect vm it ReadWriteExecute; Some (ResultSuccess, vm)
            end);
          Some (res, with_kernel g k))
      end
  | _, _ => Some (ResultInvalidHandle, g)
  end.
(** The result of the unmapping is not looked at. *)
(* src: svc.cpp | Result SVC::UnmapProcessMemoryEx(Handle process, u32 dst_address, u32 size) { *)
Definition UnmapProcessMemoryEx g handle (dst_address size : Z) : option (Result * Svc) :=
  with_object TProcess g handle (ResultInvalidHandle, g) (fun q =>
    let size := whole_pages_size size in
    x ← processes (kernel g) !! q;
    area ← continuous_area (vm_of (kernel g) x) dst_address;
    match area with
    | None => Some (ResultInvalidAddress, g)
    | Some _ => '(_, k) ← on_vm (kernel g) q (fun vm => UnmapRange vm dst_address size);
                Some (ResultSuccess, with_kernel g k)
    end).

(** From the area [it] on; an iterator to an area that a merge has erased is
    followed ([None]). *)
(* src: svc.cpp | for (auto it = process->vm_manager.vma_map.cbegin(); | SVC::ControlProcess *)
Fixpoint set_rwx (fuel : nat) vm (it : option Z) : option VMManager :=
  match it, fuel with
  | None, _ => Some vm
  | Some _, O => None
  | Some it, Datatypes.S fuel =>
      v ← vma_at vm it;
      vm ← (if decide (meminfo_state v ≠ StateFree) then snd <$> Reprotect vm it ReadWriteExecute else Some vm);
      it ← next it (vma_map vm);
      set_rwx fuel vm it
  end.
(* src: svc.cpp | case ControlProcessOP::PROCESSOP_SET_MMU_TO_RWX: { | SVC::ControlProcess *)
Definition SetMmuToRwx g (q : nat) : option (Result * Svc) :=
  '(_, k) ← on_vm (kernel g) q (fun vm =>
    vm ← set_rwx (length (vma_map vm)) vm (VmManager.base <$> head (vma_map vm)); Some ((), vm));
  Some (ResultSuccess, with_kernel g k).
(** * Resource limits *)

(* src: resource_limit.h | enum class ResourceLimitType : u32 { | ResourceLimitType *)
Definition limit_type (name : Z) : option ResourceLimitType :=
  match name with
  | 0 => Some RPriority | 1 => Some RCommit | 2 => Some RThread | 3 => Some REvent | 4 => Some RMutex
  | 5 => Some RSemaphore | 6 => Some RTimer | 7 => Some RSharedMemory | 8 => Some RAddressArbiter
  | 9 => Some RCpuTime | _ => None
  end.
(** The accesses of the calls to the caller's memory. *)
Definition read g (n : nat) (addr : Z) : option (Z * Svc) :=
  '(v, ms) ← Read (kmem (kernel g)) n addr; Some (v, with_kernel g ((kernel g)<|kmem := ms|>)).
Definition write g (n : nat) (addr v : Z) : option Svc :=
  ms ← Write (kmem (kernel g)) n addr v; Some (with_kernel g ((kernel g)<|kmem := ms|>)).
(** [for (i = 0; i < n; ++i)], left early with an error. *)
Fixpoint each_name (n : nat) (i : Z) (f : Z -> Svc -> option (option Result * Svc)) g : option (Result * Svc) :=
  match n with
  | O => Some (ResultSuccess, g)
  | Datatypes.S n =>
      '(stop, g) ← f i g;
      match stop with Some e => Some (e, g) | None => each_name n (i + 1) f g end
  end.

(* src: svc.cpp | Result SVC::GetResourceLimit(Handle* resource_limit, Handle process_handle) { *)
Definition GetResourceLimit g handle : option (Result * option Z * Svc) :=
  with_object TProcess g handle (ResultInvalidHandle, None, g) (fun q =>
    x ← processes (kernel g) !! q; l ← resource_limit x; create_handle g (mk_Object TResourceLimit l)).
(** [None] for a name beyond the array. *)
(* src: svc.cpp | Result SVC::GetResourceLimitCurrentValues(VAddr values, Handle resource_limit_handle, VAddr names *)
Definition GetResourceLimitCurrentValues g (values : Z) handle (names name_count : Z) : option (Result * Svc) :=
  with_object TResourceLimit g handle (ResultInvalidHandle, g) (fun l =>
    each_name (Z.to_nat name_count) 0 (fun i g =>
      '(name, g) ← read g 4 (u32 (names + i * 4));
      r ← resource_limits (kernel g) !! l;
      ty ← limit_type name;
      g ← write g 8 (u32 (values + i * 8)) (u64 (GetCurrentValue r ty));
      Some (None, g)) g).
(* src: svc.cpp | Result SVC::GetResourceLimitLimitValues(VAddr values, Handle resource_limit_handle, VAddr names *)
Definition GetResourceLimitLimitValues g (values : Z) handle (names name_count : Z) : option (Result * Svc) :=
  with_object TResourceLimit g handle (ResultInvalidHandle, g) (fun l =>
    each_name (Z.to_nat name_count) 0 (fun i g =>
      '(name, g) ← read g 4 (u32 (names + i * 4));
      r ← resource_limits (kernel g) !! l;
      match limit_type name with
      | None => Some (Some ResultInvalidEnumValue, g)
      | Some ty => g ← write g 8 (u32 (values + i * 8)) (u64 (GetLimitValue r ty)); Some (None, g)
      end) g).
(* src: svc.cpp | Result SVC::SetResourceLimitLimitValues(Handle res_limit, VAddr names, VAddr resource_list *)
Definition SetResourceLimitLimitValues g handle (names resource_list name_count : Z) : option (Result * Svc) :=
  with_object TResourceLimit g handle (ResultInvalidHandle, g) (fun l =>
    each_name (Z.to_nat name_count) 0 (fun i g =>
      '(name, g) ← read g 4 (u32 (names + i * 4));
      match limit_type name with
      | None => Some (Some ResultInvalidEnumValue, g)
      | Some ty =>
          '(value, g) ← read g 8 (u32 (resource_list + i * 8));
          let value_high := s32 (s64 value ≫ 32) in
          R_UNLESS (0 <=? value_high) (Some (Some ResultOutOfRangeKernel, g)) (
          let g := if bool_decide (ty = RCommit) && nz value_high
                   then g<|config_mem := (config_mem g)<|app_mem_alloc := value_high|>|> else g in
          r ← resource_limits (kernel g) !! l;
          Some (None, with_kernel g (set_limit (kernel g) l (SetLimitValue r ty (s32 value)))))
      end) g).

(** * Information *)

(** What the build writes into the program: names, version, date. *)
Context (g_build_name g_build_version g_build_date g_scm_branch g_scm_desc : list Z).
Context (num_cores : Z).

(** The string ends at its first zero; [strncpy] fills up with zeros. *)
(* src: svc.cpp | static void CopyStringPart(char* out, const char* in, std::size_t offset, std::size_t max_length) { *)
Definition CopyStringPart (out : Z) (str : list Z) (offset max_length : nat) : Z :=
  let str := take_while (fun c => negb (c =? 0)) str in
  if (offset <? length str)%nat
  then le_combine (take (max_length - 1) (drop offset str))
  else out .& unot 64 0xFF.
(** A part of seven characters; [*out] has eight bytes. *)
Definition string_part (out : Z) (str : list Z) (n : nat) : Z := s64 (CopyStringPart (u64 out) str (7 * n) 8).
(* src: svc.cpp | switch ((SystemInfoCitraInformation)param) { *)
Definition citra_information (out param : Z) : Z :=
  match param with
  | 0 => 1
  | 10 => string_part out g_build_name 0
  | 11 => string_part out g_build_version 0
  | 20 => string_part out g_build_date 0
  | 21 => string_part out g_build_date 1
  | 22 => string_part out g_build_date 2
  | 23 => string_part out g_build_date 3
  | 30 => string_part out g_scm_branch 0
  | 31 => string_part out g_scm_branch 1
  | 40 => string_part out g_scm_desc 0
  | 41 => string_part out g_scm_desc 1
  | _ => 0
  end.
(* src: svc.cpp | switch ((SystemInfoMemUsageRegion)param) { *)
Definition region_usage k (param : Z) : option Z :=
  let used_of i := used <$> memory_regions k !! region_index i in
  match param with
  | 0 => a ← used_of APPLICATION; s ← used_of SYSTEM; b ← used_of BASE; Some (u32 (a + s + b))
  | 1 => used_of APPLICATION
  | 2 => used_of SYSTEM
  | 3 => used_of BASE
  | _ => Some 0
  end.
(* src: svc.cpp | Result SVC::GetSystemInfo(s64* out, u32 type, s32 param) { *)
Definition GetSystemInfo g (out type param : Z) : option (Result * Z) :=
  match type with
  | 0 => v ← region_usage (kernel g) param; Some (ResultSuccess, v)
  | 2 => Some (ResultSuccess, 0)
  | 26 => Some (ResultSuccess, 5)
  | 0x10001 => Some (if num_cores =? 4 then ResultSuccess else ResultInvalidEnumValue, 0)
  | 0x20000 => Some (ResultSuccess, citra_information out param)
  | _ => Some (ResultSuccess, 0)
  end.

(** [segments[n]] of an array of three. *)
Definition segment_of (x : Process S Object) (n : nat) (f : Segment -> Z) : option (Result * Z) :=
  s ← segments (codeset x) !! n; Some (ResultSuccess, f s).
(* src: svc.cpp | Result SVC::GetProcessInfo(s64* out, Handle process_handle, u32 type) { *)
Definition GetProcessInfo g (out : Z) handle (type : Z) : option (Result * Z) :=
  with_object TProcess g handle (ResultInvalidHandle, out) (fun q =>
    x ← processes (kernel g) !! q;
    match type with
    | 0 | 2 =>
        let out := memory_used x in
        Some (if out mod CITRA_PAGE_SIZE =? 0 then ResultSuccess else ResultMisalignedSize, out)
    | 1 | 3 | 4 | 5 | 6 | 7 | 8 => Some (ResultSuccess, out)
    | 20 => Some (ResultSuccess, u32 (FCRAM_PADDR - GetLinearHeapAreaAddress x))
    | 21 | 22 | 23 => Some (ResultNotImplemented, out)
    | 0x10000 =>
        Some (ResultSuccess, s64 (le_combine (take 8 (take_while (fun c => negb (c =? 0)) (codeset_name (codeset x))))))
    | 0x10001 => Some (ResultSuccess, s64 (program_id (codeset x)))
    | 0x10002 => segment_of x 0 segment_size
    | 0x10003 => segment_of x 1 segment_size
    | 0x10004 => segment_of x 2 segment_size
    | 0x10005 => segment_of x 0 segment_addr
    | 0x10006 => segment_of x 1 segment_addr
    | 0x10007 => segment_of x 2 segment_addr
    | _ => Some (ResultInvalidEnumValue, out)
    end).

(** The identifiers of the processes, up to a number of them. *)
(* src: svc.cpp | for (const auto& process : kernel.GetProcessList()) { *)
Fixpoint write_ids g (ids : list nat) (out_array count written : Z) : option (Z * Svc) :=
  match ids with
  | [] => Some (written, g)
  | q :: ids =>
      if count <=? written then Some (written, g)
      else
        x ← processes (kernel g) !! q;
        g ← write g 4 (u32 (out_array + written * 4)) (process_id x);
        write_ids g ids out_array count (written + 1)
  end.
(* src: svc.cpp | Result SVC::GetProcessList(s32* process_count, VAddr out_process_array, *)
Definition GetProcessList g (out_process_array out_process_array_count : Z) : option (Result * option Z * Svc) :=
  x ← caller g;
  R_UNLESS (IsValidVirtualAddress (kmem (kernel g)) (VmManager.page_table (vm_manager x)) out_process_array)
    (Some (ResultInvalidPointer, None, g)) (
  '(written, g) ← write_ids g (process_list (kernel g)) out_process_array out_process_array_count 0;
  Some (ResultSuccess, Some written, g)).
End svc.
Arguments Svc S : clear implicits.
