(* ===== verification/SvcFacts.v ===== *)
(** What the supervisor calls over memory promise: which requests
    [ControlMemory] refuses, with which error and without an effect, and what
    [QueryMemory] answers. *)

From S2P Require Import Prelude Result HandleTable Memory MemoryFacts IntervalSet MemoryRegion VmManager VmFacts VmCorrect Process ProcessFacts HeapFacts SharedMemory SvcMemory.

Section facts.
Context {S : Type} `{IVS : IntervalSet S} `{!IntervalSetLaws S} `{gpu : GPU} {quiet : QuietGPU}.
Implicit Types (k : KernelMemory S Object) (p : nat) (vm : VMManager).

(** * Requests *)

Lemma page_bits x : (x .& CITRA_PAGE_MASK =? 0) = true <-> aligned x.
Proof. exact (page_aligned_spec x). Qed.
Lemma not_aligned_bits x : ¬ aligned x -> (x .& CITRA_PAGE_MASK =? 0) = false.
Proof. intros H. apply not_true_is_false. by rewrite page_bits. Qed.

Lemma region_bits operation m : unot 32 MEMOP_REGION_MASK .& m = m -> (operation .& unot 32 MEMOP_REGION_MASK) .& m = operation .& m.
Proof. intros E. by rewrite <- Z.land_assoc, E. Qed.

Lemma perms_bits perms : 0 <= perms -> ((perms .& PermReadWrite) =? perms) = (perms <=? 3).
Proof.
  intros H. change PermReadWrite with (2 ^ 2 - 1). rewrite land_mask by done. change (2 ^ 2) with 4.
  zcases; try done; exfalso; modlia.
Qed.

(** The range lies in the heap. *)
Definition in_heap (target size : Z) : Prop := HEAP_VADDR <= target ∧ target + size <= HEAP_VADDR_END.
Lemma outside_heap_spec target size : in_range 32 target -> in_range 32 size -> 0 < size ->
  outside_heap target size = true <-> ¬ in_heap target size.
Proof.
  unfold outside_heap, in_heap, in_range, HEAP_VADDR_END, HEAP_VADDR, HEAP_SIZE. intros H1 H2 H3.
  destruct (Z.lt_ge_cases (target + size) (2 ^ 32)).
  - rewrite uwrap_id by (unfold in_range; lia). lia.
  - replace (u32 (target + size)) with (target + size - 2 ^ 32) by (unfold uwrap; modlia). lia.
Qed.

(** The address lies in the linear heap of the process. *)
Definition in_linear_heap (x : Process S Object) (r : MemoryRegionInfo S) (a : Z) : Prop :=
  let b := u32 (GetLinearHeapAreaAddress x + MemoryRegion.base r) in b <= a < u32 (b + MemoryRegion.size r).

Lemma overlapping target source size : in_range 32 target -> in_range 32 source ->
  target < source + size -> source < target + size -> ranges_overlap target source size = true.
Proof.
  unfold ranges_overlap, in_range, uwrap. intros H1 H2 L1 L2. destruct (Z.le_gt_cases target source).
  - rewrite (Z.mod_small (source - target)) by lia. lia.
  - rewrite (Z.mod_small (target - source)) by lia. lia.
Qed.

(** No change: at most the process is given the memory system again, which it has. *)
Definition same_kernel k p k' : Prop := k' = k ∨ ∃ x, processes k !! p = Some x ∧ k' = with_vm k p x (vm_of k x).

Lemma same_kernel_refl k p : same_kernel k p k.
Proof. by left. Qed.
Lemma on_vm_same k p x f (e : Result) : processes k !! p = Some x -> f (vm_of k x) = Some (e, vm_of k x) ->
  ∃ k', on_vm k p f = Some (e, k') ∧ same_kernel k p k'.
Proof. intros E F. rewrite (on_vm_eq k p x) by done. rewrite F. eexists. split; [done|]. right. by exists x. Qed.

(** ** What is refused, and what is not *)

Section request.
Context (k : KernelMemory S Object) (p : nat) (x : Process S Object) (r : MemoryRegionInfo S) (addr0 addr1 size : Z).
#[local] Abbreviation vm := (vm_of k x).
#[local] Abbreviation target_is P := (all_at vm P addr0 (addr0 + size)).

Inductive refuses : ControlMemoryOperation -> Result -> Prop :=
| free_elsewhere : ¬ HEAP_VADDR <= addr0 < HEAP_VADDR_END -> ¬ in_linear_heap x r addr0 -> refuses MEMOP_FREE ResultInvalidAddress
| free_beyond : HEAP_VADDR <= addr0 < HEAP_VADDR_END -> ¬ in_heap addr0 size -> refuses MEMOP_FREE ResultInvalidAddress
| free_unmapped : in_heap addr0 size -> ¬ target_is is_mapped -> refuses MEMOP_FREE ResultInvalidAddressState
| commit_outside : ¬ in_heap addr0 size -> refuses MEMOP_COMMIT ResultInvalidAddress
| commit_taken : in_heap addr0 size -> ¬ target_is is_free -> refuses MEMOP_COMMIT ResultInvalidAddressState
| commit_full : in_heap addr0 size -> target_is is_free -> space_left r < size -> refuses MEMOP_COMMIT ResultOutOfHeapMemory
| map_outside : ¬ in_heap addr1 size -> refuses MEMOP_MAP ResultInvalidAddress
| map_overlap : in_heap addr1 size -> addr0 < addr1 + size -> addr1 < addr0 + size -> refuses MEMOP_MAP ResultInvalidAddressState
| map_unfit : alias_ranges addr0 addr1 size -> ¬ (target_is is_free ∧ all_at vm is_private addr1 (addr1 + size)) ->
    refuses MEMOP_MAP ResultInvalidAddressState
| unmap_outside : ¬ in_heap addr1 size -> refuses MEMOP_UNMAP ResultInvalidAddress
| unmap_overlap : in_heap addr1 size -> addr0 < addr1 + size -> addr1 < addr0 + size -> refuses MEMOP_UNMAP ResultInvalidAddressState
| unmap_unmapped : alias_ranges addr0 addr1 size -> ¬ target_is is_mapped -> refuses MEMOP_UNMAP ResultInvalidAddressState
| protect_unmapped : addr0 + size <= MAX_ADDRESS -> ¬ target_is is_mapped -> refuses MEMOP_PROTECT ResultInvalidAddressState.

Definition accepts (op : ControlMemoryOperation) : Prop :=
  match op with
  | MEMOP_FREE => in_heap addr0 size ∧ owned vm (holding_memory x) addr0 size
  | MEMOP_COMMIT => in_heap addr0 size ∧ target_is is_free ∧ size <= space_left r
  | MEMOP_MAP => alias_ranges addr0 addr1 size ∧ target_is is_free ∧ all_at vm is_private addr1 (addr1 + size)
  | MEMOP_UNMAP => False
  | MEMOP_PROTECT => addr0 + size <= MAX_ADDRESS ∧ target_is is_mapped
  end.

Context (i : nat) (Hk : heap_ok k p x i r) (A0 : aligned addr0) (A1 : aligned addr1) (As : aligned size) (Sz : 0 < size)
  (R0 : in_range 32 addr0) (R1 : in_range 32 addr1) (Rs : in_range 32 size).

Lemma in_heap_max a n : in_heap a n -> 0 < n -> 0 <= a ∧ a + n <= MAX_ADDRESS.
Proof. unfold in_heap, HEAP_VADDR_END, HEAP_VADDR, HEAP_SIZE, MAX_ADDRESS. lia. Qed.
Lemma in_heap_outside a n : in_range 32 a -> in_range 32 n -> 0 < n -> in_heap a n -> outside_heap a n = false.
Proof. intros H1 H2 H3 H. apply not_true_is_false. by intros E%outside_heap_spec. Qed.

Lemma free_outcome : ∀ e, refuses MEMOP_FREE e -> control_free k p addr0 size = Some (e, None, k).
Proof.
  intros e H. unfold control_free. pose proof Hk as [Ep Vm [Ei Er] _ _ _ _ _].
  inversion H as [N L| N L | N L | | | | | | | | | | ]; subst.
  - replace ((HEAP_VADDR <=? addr0) && (addr0 <? HEAP_VADDR_END)) with false by lia.
    rewrite Ep. cbn [mbind option_bind]. unfold GetLinearHeapBase, GetLinearHeapLimit. rewrite Ei. cbn [mbind option_bind].
    rewrite Er. cbn [mbind option_bind]. unfold GetLinearHeapBase. rewrite Ei. cbn [mbind option_bind]. rewrite Er. cbn [mbind option_bind].
    unfold in_linear_heap in L. cbv zeta in L.
    match goal with |- context [if ?b then LinearFree _ _ _ _ else _] => replace b with false by lia end. done.
  - replace ((HEAP_VADDR <=? addr0) && (addr0 <? HEAP_VADDR_END)) with true by lia.
    unfold HeapFree. by rewrite (proj2 (outside_heap_spec addr0 size R0 Rs Sz)).
  - destruct (in_heap_max _ _ N Sz) as [M0 M1]. replace ((HEAP_VADDR <=? addr0) && (addr0 <? HEAP_VADDR_END)) with true by (unfold in_heap in N; destruct N; lia).
    unfold HeapFree. rewrite in_heap_outside, (proj2 (Z.eqb_neq _ _)), Ep by (done || lia). cbn [mbind option_bind].
    destruct (GetBackingBlocksForRange_spec vm addr0 size Vm M0 Sz M1) as (res & -> & _ & F). by rewrite (F L).
Qed.

Lemma commit_outcome perms : 
  (∀ e, refuses MEMOP_COMMIT e -> HeapAllocate k p addr0 size perms Private false = Some (e, None, k)) ∧
  (accepts MEMOP_COMMIT -> ∃ k', HeapAllocate k p addr0 size perms Private false = Some (ResultSuccess, Some addr0, k')).
Proof.
  assert (Sp := λ H : in_heap addr0 size, HeapAllocate_spec k p x i r addr0 size perms Private false Hk A0 As Sz
    (proj1 (in_heap_max _ _ H Sz)) (proj2 (in_heap_max _ _ H Sz))).
  split.
  - intros e H. inversion H as [| | |N|N F|N F L| | | | | | |]; subst.
    + unfold HeapAllocate. by rewrite (proj2 (outside_heap_spec addr0 size R0 Rs Sz)).
    + destruct (Sp N) as (res & out & k' & -> & C & _); [by rewrite in_heap_outside|]. by destruct (C F) as (-> & -> & ->).
    + destruct (Sp N) as (res & out & k' & -> & _ & C & _); [by rewrite in_heap_outside|]. by destruct (C F L) as (-> & -> & ->).
  - intros (N & F & L). destruct (Sp N) as (res & out & k' & -> & _ & _ & C); [by rewrite in_heap_outside|].
    destruct (C F L) as (-> & -> & _). by exists k'.
Qed.

Lemma map_outcome perms :
  (∀ e, refuses MEMOP_MAP e -> ∃ k', Process_Map k p addr0 addr1 size perms false = Some (e, k') ∧ same_kernel k p k') ∧
  (accepts MEMOP_MAP -> ∃ k', Process_Map k p addr0 addr1 size perms false = Some (ResultSuccess, k')).
Proof.
  pose proof Hk as [Ep Vm _ _ _ _ _ _]. unfold Process_Map. split.
  - intros e H. apply (on_vm_same k p x _ e Ep). inversion H as [| | | | | |N|N L1 L2|N L| | | |]; subst.
    + unfold Map. by rewrite (proj2 (outside_heap_spec addr1 size R1 Rs Sz)).
    + unfold Map. by rewrite in_heap_outside, overlapping.
    + destruct (Map_spec vm addr0 addr1 size perms Vm N) as (res & vm' & -> & _ & F). by destruct (F L) as [-> ->].
  - intros (N & F). rewrite (on_vm_eq k p x) by done. destruct (Map_spec vm addr0 addr1 size perms Vm N) as (res & vm' & -> & T & _).
    destruct (T F) as [-> _]. by eexists.
Qed.

Lemma unmap_outcome perms e : refuses MEMOP_UNMAP e ->
  ∃ k', Process_Unmap k p addr0 addr1 size perms false = Some (e, k') ∧ same_kernel k p k'.
Proof.
  pose proof Hk as [Ep Vm _ _ _ _ _ _]. intros H. apply (on_vm_same k p x _ e Ep).
  inversion H as [| | | | | | | | |N|N L1 L2|N L|]; subst; unfold Unmap.
  - by rewrite (proj2 (outside_heap_spec addr1 size R1 Rs Sz)).
  - by rewrite in_heap_outside, overlapping.
  - destruct N as [(_ & T0 & T1) (_ & S0 & S1) _ D]. rewrite in_heap_outside by done. cbn [negb andb].
    unfold HEAP_VADDR_END, HEAP_VADDR, HEAP_SIZE in *. rewrite ranges_overlap_false by (done || unfold MAX_ADDRESS; lia).
    destruct (UnmapRange_spec vm addr0 size Vm A0 As T0 Sz T1) as (res & vm' & -> & _ & _ & _ & F). by destruct (F L) as [-> ->].
Qed.

Lemma protect_outcome perms :
  (∀ e, refuses MEMOP_PROTECT e -> ∃ k', on_vm k p (fun vm => ReprotectRange vm addr0 size perms) = Some (e, k') ∧ same_kernel k p k') ∧
  (accepts MEMOP_PROTECT -> ∃ k', on_vm k p (fun vm => ReprotectRange vm addr0 size perms) = Some (ResultSuccess, k')).
Proof.
  pose proof Hk as [Ep Vm _ _ _ _ _ _]. destruct R0 as [R0' _].
  assert (Sp := λ M, ReprotectRange_spec vm addr0 size perms Vm A0 As R0' Sz M). split.
  - intros e H. apply (on_vm_same k p x _ e Ep). inversion H as [| | | | | | | | | | | |N L]; subst.
    destruct (Sp N) as (res & vm' & -> & _ & _ & _ & F). by destruct (F L) as [-> ->].
  - intros [N L]. rewrite (on_vm_eq k p x) by done. destruct (Sp N) as (res & vm' & -> & _ & _ & T & _).
    destruct (T L) as [-> _]. by eexists.
Qed.
End request.


(** * What an address has *)

(** [l] is [take_while f l] and a rest whose first element does not satisfy [f]. *)
Lemma take_while_spec {A} (f : A -> bool) l :
  ∃ rest, l = take_while f l ++ rest ∧ (∀ y, y ∈ take_while f l -> f y = true) ∧
    match rest with [] => True | z :: _ => f z = false end.
Proof.
  induction l as [|y l (rest & E & T & R)]; cbn; [exists []; split_and!; [done|by intros y ?%not_elem_of_nil|done]|]. destruct (f y) eqn:F.
  - exists rest. cbn. split; [by f_equal|]. split; [|done]. intros z [->|H]%elem_of_cons; [done|by apply T].
  - exists (y :: l). split; [done|]. split; [by intros z H%not_elem_of_nil|done].
Qed.


(** The run of areas around one: it tiles a range, and the areas next to it are
    different. *)
Lemma run_around_spec from to l1 v l2 : tiles from to (l1 ++ v :: l2) ->
  let '(lower, upper) := run_around l1 v l2 in
  ∃ pre run post, l1 ++ v :: l2 = pre ++ run ++ post ∧ v ∈ run ∧ (∀ u, u ∈ run -> mismatch v u = false) ∧
    tiles from (VmManager.base lower) pre ∧
    tiles (VmManager.base lower) (VmManager.base upper + VmManager.size upper) run ∧
    tiles (VmManager.base upper + VmManager.size upper) to post ∧
    (∀ pre' u, pre = pre' ++ [u] -> mismatch v u = true) ∧ (∀ u post', post = u :: post' -> mismatch v u = true).
Proof.
  intros T. unfold run_around. set (like := λ u, negb (mismatch v u)).
  destruct (take_while_spec like (rev l1)) as (ra & Ea & Ta & Ra). destruct (take_while_spec like l2) as (rb & Eb & Tb & Rb).
  set (a := take_while like (rev l1)) in *. set (b := take_while like l2) in *. clearbody a b.
  assert (E1 : l1 = rev ra ++ rev a) by (rewrite <- rev_app_distr, <- Ea; by rewrite rev_involutive).
  assert (El : l1 ++ v :: l2 = rev ra ++ (rev a ++ v :: b) ++ rb) by (rewrite E1, Eb; by rewrite <- !app_assoc).
  rewrite El in T |- *. apply tiles_app in T as (m & Tp & T). apply tiles_app in T as (n & Tr & Tq).
  assert (Lo : VmManager.base (List.last a v) = m).
  { destruct a as [|u a' _] using rev_ind; [by destruct Tr|]. rewrite List.last_last, rev_unit in *. by destruct Tr. }
  assert (Up : VmManager.base (List.last b v) + VmManager.size (List.last b v) = n).
  { clear - Tr. destruct b as [|u b' _] using rev_ind.
    - apply tiles_app in Tr as (? & _ & E & _ & F). cbn in *. lia.
    - rewrite List.last_last. change (v :: b' ++ [u]) with ((v :: b') ++ [u]) in Tr.
      apply tiles_app in Tr as (? & _ & Tr). apply tiles_app in Tr as (? & _ & E & _ & F). cbn in *. lia. }
  rewrite Lo, Up. exists (rev ra), (rev a ++ v :: b), rb. split; [done|]. split; [set_solver|]. split.
  - assert (Lv : mismatch v v = false) by (unfold mismatch; rewrite Z.eqb_refl, bool_decide_eq_false_2; [done|tauto]).
    intros u [H|[->|H]%elem_of_cons]%elem_of_app; [apply negb_true_iff, Ta|done|by apply negb_true_iff, Tb].
    by apply list_elem_of_In, in_rev, list_elem_of_In.
  - split; [done|]. split; [done|]. split; [done|]. split.
    + intros pre' u E. destruct ra as [|z ra]; [by destruct pre'|]. cbn in E. apply app_inj_tail in E as [_ <-].
      by apply negb_false_iff in Ra.
    + intros u post' ->. by apply negb_false_iff in Rb.
Qed.

Lemma mismatch_attr v u a : mismatch v u = false <-> at_perms (attr_of u a) = permissions v ∧ at_state (attr_of u a) = meminfo_state v.
Proof.
  unfold mismatch, attr_of. cbn. rewrite orb_false_iff, negb_false_iff, Z.eqb_eq, bool_decide_eq_false.
  destruct (decide (meminfo_state u = meminfo_state v)); naive_solver.
Qed.

Context (p t : nat).

(** C16: What [svcQueryMemory] answers.  The range it reports is the longest one
    around the address that has one state and one set of permissions, whatever
    areas the address space is cut into: every address in it has them, and the
    address on either side of it, if there is one, does not.  An address beyond the
    space is refused. *)
Theorem QueryMemory_correct (g : Svc S) (x : Process S Object) addr : caller p g = Some x -> vm_ok (vm_of (SvcMemory.kernel g) x) -> 0 <= addr ->
  let at_ a := view (vm_of (SvcMemory.kernel g) x) a in
  let has i y := at_perms y = permission i ∧ at_state y = state i in
  (addr < MAX_ADDRESS -> ∃ i, QueryMemory p t g addr = Some (ResultSuccess, Some i) ∧
     let lo := SvcMemory.base_address i in let hi := lo + info_size i in
     0 <= lo <= addr ∧ addr < hi <= MAX_ADDRESS ∧ (∀ a, lo <= a < hi -> ∃ y, at_ a = Some y ∧ has i y) ∧
     ∀ a y, (a = lo - 1 ∨ a = hi) -> at_ a = Some y -> ¬ has i y) ∧
  (MAX_ADDRESS <= addr -> QueryMemory p t g addr = Some (ResultInvalidAddress, None)).
Proof.
  intros Hx Vm H0 at_ has. set (vm := vm_of (SvcMemory.kernel g) x) in *. pose proof (vm_space _ Vm) as T.
  assert (Q : QueryMemory p t g addr = query_vma vm addr).
  { unfold QueryMemory, QueryProcessMemory, with_object.
    assert (Get p t TProcess g CurrentProcess = Some (Some p)) as -> by (unfold Get; by rewrite Hx).
    cbn [mbind option_bind]. unfold caller in Hx. by rewrite Hx. }
  rewrite Q. unfold query_vma. split.
  - intros Ha. destruct (FindVMA_eq vm addr T ltac:(lia)) as (l1 & v & l2 & E & Hv & ->). cbn [mbind option_bind].
    unfold space in T. rewrite E in T |- *. rewrite (locate_middle _ _ _ _ _ T). cbn [mbind option_bind].
    pose proof (run_around_spec _ _ _ _ _ T) as R. destruct (run_around l1 v l2) as [lower upper].
    destruct R as (pre & run & post & El & Iv & Hr & Tp & Tr & Tq & Hp & Hq).
    pose proof (tiles_le _ _ _ Tp) as Lp. pose proof (tiles_le _ _ _ Tq) as Lq. destruct (tiles_in _ _ _ _ Tr Iv) as (_ & B1 & B2).
    set (lo := VmManager.base lower) in *. set (hi := VmManager.base upper + VmManager.size upper) in *.
    eexists. split; [reflexivity|]. cbn. rewrite uwrap_id by (unfold in_range, MAX_ADDRESS in *; lia).
    replace (lo + (hi - lo)) with hi by lia. split; [lia|]. split; [lia|].
    assert (Vw : ∀ a, at_ a = attr_at (pre ++ run ++ post) a) by (intros a; unfold at_, view; by rewrite E, El).
    rewrite El in T.
    assert (Fr : ∀ l m n a, tiles m n l -> m <= a < n -> ∃ u, u ∈ l ∧ attr_at l a = Some (attr_of u a)).
    { intros l m n a Tl Hal. destruct (tiles_find _ _ _ _ Tl Hal) as (k1 & u & k2 & -> & Hu). exists u.
      split; [set_solver|]. by apply (attr_at_middle m n). }
    split.
    + intros a Hal. rewrite Vw, attr_at_app, (attr_at_outside _ _ _ _ Tp), attr_at_app by lia.
      destruct (Fr _ _ _ _ Tr Hal) as (u & Iu & ->). eexists. split; [done|]. by apply mismatch_attr, Hr.
    + intros a y [-> | ->].
      * destruct pre as [|u pre' _] using rev_ind.
        { cbn in Tp. by rewrite Vw, (attr_at_outside _ _ _ _ T) by lia. }
        pose proof (Hp _ _ eq_refl) as M. rewrite Vw, attr_at_app. pose proof Tp as Tp'.
        apply tiles_app in Tp' as (m & Tp1 & Eu & Ou & Eh). cbn in Eh. pose proof Ou as (_ & _ & Su & _).
        rewrite (attr_at_middle 0 lo pre' u []) by (done || lia). intros [= <-] Hh%mismatch_attr. congruence.
      * destruct post as [|u post'].
        { cbn in Tq. by rewrite Vw, (attr_at_outside _ _ _ _ T) by lia. }
        pose proof (Hq _ _ eq_refl) as M. rewrite Vw, attr_at_app, (attr_at_outside _ _ _ _ Tp), attr_at_app, (attr_at_outside _ _ _ _ Tr) by lia.
        destruct Tq as (Eu & (_ & _ & Su & _) & _). cbn [attr_at]. unfold covers.
        rewrite (proj2 (andb_true_iff _ _)) by lia. intros [= <-] Hh%mismatch_attr. congruence.
  - intros Ha. unfold FindVMA. by rewrite (proj2 (Z.leb_le _ _) Ha).
Qed.
End facts.
