(* ===== verification/ProcessExamples.v ===== *)
(** A small kernel with one process: the theorems of [HeapFacts.v] and
    [AliasFacts.v] apply to it, and computations on it show what allocation does
    to the memory around it. *)

From S2P Require Import Prelude BitField Result ResourceLimit HandleTable Memory MemoryFacts MemoryExamples IntervalSet MemoryRegion VmManager VmFacts VmCorrect VmExamples Process ProcessFacts HeapFacts SharedMemory SvcMemory SvcFacts.

(** The process holds the two pages of [demo_vm] and two more; the rest of its
    region is free. *)
Definition heap_region : MemoryRegionInfo IntervalList :=
  mk_MemoryRegionInfo 0 0x8000 0x4000 (iv_sub 0x3000 0x5000 (iv_add 0x2000 0x8000 iv_empty)) false.
Definition some_process Obj : Process IntervalList Obj :=
  mk_Process (new_HandleTable Obj) inhabitant (Some 0%nat) 0 0x200 [] (FormatValue 16 flags_memory_region 1) 0 Running 1 0
    demo_vm 0x4000 (Some 0%nat) (iv_add 0x3000 0x5000 (iv_add 0 0x2000 iv_empty)) iv_empty [] 0 false.
Definition some_kernel Obj : KernelMemory IntervalList Obj :=
  mk_KernelMemory demo_memory [heap_region] [GetForCategory (ResourceLimitList false 0x4000000) Application]
    {[0%nat := some_process Obj]} [0%nat] 2 null_ref null_ref.
Abbreviation demo_process := (some_process unit).
Abbreviation demo_kernel := (some_kernel unit).

Lemma heap_region_free o : MemoryRegion.is_free heap_region o <-> 0x2000 <= o < 0x8000 ∧ ¬ (0x3000 <= o < 0x5000).
Proof.
  etrans; [apply covered_sub|]. rewrite covered_add. pose proof (covered_empty (S := IntervalList) o). tauto.
Qed.
Lemma heap_region_ok : region_ok heap_region.
Proof. split; [done|by_decide| |vm_compute; reflexivity]. intros x Hx%heap_region_free. cbn. lia. Qed.
Lemma demo_held {Obj} o : covered (holding_memory (some_process Obj)) o <-> 0 <= o < 0x2000 ∨ 0x3000 <= o < 0x5000.
Proof.
  etrans; [apply covered_add|]. rewrite covered_add. pose proof (covered_empty (S := IntervalList) o). tauto.
Qed.

Lemma demo_vm_of Obj : vm_of (some_kernel Obj) (some_process Obj) = demo_vm.
Proof. reflexivity. Qed.
Lemma demo_heap {Obj} : heap_ok (some_kernel Obj) 0 (some_process Obj) 0 heap_region.
Proof.
  split; [apply lookup_insert_eq|rewrite demo_vm_of; apply demo_ok|done|apply heap_region_ok|by_decide| |by eexists 0%nat, _|].
  - intros x y E [Hx Nx]%heap_region_free. apply heap_region_free. Z.div_mod_to_equations; lia.
  - intros o [H|H]%(demo_held (Obj := Obj)); (split; [cbn; lia|intros [? ?]%heap_region_free; lia]).
Qed.

Lemma demo_free_above a n : 0x8002000 <= a -> a + n <= MAX_ADDRESS -> all_at demo_vm is_free a (a + n).
Proof.
  intros H1 H2 b Hb. rewrite demo_view. unfold in_interval. exists free_attr.
  zcases; simpl; lia || (split; [reflexivity|done]).
Qed.

(** Four pages from two places of the region, away from the rest of the heap;
    then a range that is not free, and more than is left. *)
Lemma HeapAllocate_correct_witness :
  (∃ k' x' r' t, HeapAllocate demo_kernel 0 0x8004000 0x4000 PermReadWrite Private false = Some (ResultSuccess, Some 0x8004000, k') ∧
     allocated demo_kernel k' 0 demo_process x' 0 heap_region r' t 0x8004000 0x4000 PermReadWrite Private ∧
     GetCurrentValue (resource_limits k' !!! 0%nat) RCommit = 0x4000) ∧
  HeapAllocate demo_kernel 0 0x8001000 0x1000 PermReadWrite Private false = Some (ResultInvalidAddressState, None, demo_kernel) ∧
  HeapAllocate demo_kernel 0 0x8004000 0x5000 PermReadWrite Private false = Some (ResultOutOfHeapMemory, None, demo_kernel).
Proof.
  assert (A : ∀ c, aligned (c * 4096)) by (intros c; by exists c). split; [|split].
  - destruct (HeapAllocate_correct demo_kernel 0 demo_process 0 heap_region 0x8004000 0x4000 PermReadWrite Private demo_heap
      (A 0x8004) (A 4)) as (res & out & k' & E & _ & _ & H); [lia|by_decide|by_decide|].
    destruct H as (-> & -> & x' & r' & t & Al); [apply demo_free_above; [lia|by_decide]|vm_compute; done|].
    exists k', x', r', t. split; [exact E|]. split; [exact Al|].
    pose proof (al_accounts _ _ _ _ _ _ _ _ _ _ _ _ _ Al) as (_ & _ & _ & _ & L).
    rewrite (L 0%nat _ eq_refl eq_refl). vm_compute. reflexivity.
  - destruct (HeapAllocate_correct demo_kernel 0 demo_process 0 heap_region 0x8001000 0x1000 PermReadWrite Private demo_heap
      (A 0x8001) (A 1)) as (res & out & k' & E & N & _); [lia|by_decide|by_decide|].
    destruct (N demo_not_free) as (-> & -> & ->). exact E.
  - destruct (HeapAllocate_correct demo_kernel 0 demo_process 0 heap_region 0x8004000 0x5000 PermReadWrite Private demo_heap
      (A 0x8004) (A 5)) as (res & out & k' & E & _ & N & _); [lia|by_decide|by_decide|].
    destruct N as (-> & -> & ->); [apply demo_free_above; [lia|by_decide]|vm_compute; done|]. exact E.
Defined.

Lemma demo_limit_ok : limit_ok (GetForCategory (ResourceLimitList false 0x4000000) Application).
Proof. pose proof (ResourceLimitList_ok false 0x4000000 ltac:(lia)) as F. by inversion F. Qed.

Lemma HeapAllocate_HeapFree_witness : ∃ k1 k2 x2 r2,
  HeapAllocate demo_kernel 0 0x8004000 0x4000 PermReadWrite Private false = Some (ResultSuccess, Some 0x8004000, k1) ∧
  HeapFree k1 0 0x8004000 0x4000 = Some (ResultSuccess, k2) ∧ heap_ok k2 0 x2 0 r2 ∧ used r2 = 0x4000 ∧
  resource_limits k2 = resource_limits demo_kernel.
Proof.
  destruct (HeapAllocate_HeapFree demo_kernel 0 demo_process 0 heap_region 0x8004000 0x4000 Private 0 _ demo_heap
    (ex_intro _ 0x8004 eq_refl) (ex_intro _ 4 eq_refl) ltac:(lia) ltac:(by_decide) ltac:(by_decide)
    (demo_free_above 0x8004000 0x4000 ltac:(lia) ltac:(by_decide)) ltac:(vm_compute; done) ltac:(by_decide) eq_refl eq_refl demo_limit_ok ltac:(vm_compute; done))
    as (k1 & k2 & x2 & r2 & E1 & E2 & H & _ & U & _ & _ & _ & L).
  exists k1, k2, x2, r2. split; [exact E1|]. split; [exact E2|]. split; [exact H|]. split; [rewrite U; reflexivity|exact L].
Defined.

(** ** A second mapping *)

Lemma demo_private : all_at demo_vm (fun x => is_private x ∧ at_perms x = PermReadWrite) 0x8000000 (0x8000000 + 0x2000).
Proof.
  intros a Ha. rewrite demo_view. unfold in_interval. exists (mk_Attr VMABackingMemory PermReadWrite Private (Some (FCRAM, a - 0x8000000))).
  zcases; simpl; lia || (split; [reflexivity|split_and!; done || by_decide]).
Qed.
Lemma demo_ranges : alias_ranges 0x10000000 0x8000000 0x2000.
Proof. split; [split_and!; [by exists 0x10000|lia|by_decide]|split_and!; [by exists 0x8000|by_decide|by_decide]|split; [by exists 2|lia]|lia]. Qed.
Lemma demo_target_free : all_at demo_vm is_free 0x10000000 (0x10000000 + 0x2000).
Proof. apply demo_free_above; [lia|by_decide]. Qed.

Lemma Map_correct_witness :
  (∃ vm', Map demo_vm 0x10000000 0x8000000 0x2000 PermRead false = Some (ResultSuccess, vm') ∧
     aliased demo_vm vm' 0x10000000 0x8000000 0x2000 PermRead ∧
     view vm' 0x10001004 = Some (mk_Attr VMABackingMemory PermRead Alias (Some (FCRAM, 0x1004)))) ∧
  Map demo_vm 0x10000000 0x8001000 0x2000 PermRead false = Some (ResultInvalidAddressState, demo_vm).
Proof.
  split.
  - destruct (Map_correct demo_vm 0x10000000 0x8000000 0x2000 PermRead demo_ok demo_ranges) as (res & vm' & E & H & _).
    destruct H as (-> & Al).
    { split; [apply demo_target_free|]. intros a Ha. destruct (demo_private a Ha) as (x & V & P & _). exists x. split; [exact V|exact P]. }
    exists vm'. split; [exact E|]. split; [exact Al|].
    exact (as_target _ _ _ _ _ _ Al 0x1004 _ ltac:(lia) (demo_view 0x8001004)).
  - destruct (Map_correct demo_vm 0x10000000 0x8001000 0x2000 PermRead demo_ok) as (res & vm' & E & _ & N).
    { split; [split_and!; [by exists 0x10000|lia|by_decide]|split_and!; [by exists 0x8001|by_decide|by_decide]|split; [by exists 2|lia]|lia]. }
    destruct N as (-> & ->); [|exact E]. intros [_ P]. destruct (P 0x8002000 ltac:(lia)) as (x & V & _ & Ty).
    rewrite demo_view in V. by injection V as <-.
Defined.

Lemma Map_Unmap_witness : ∃ vm1 vm2, Map demo_vm 0x10000000 0x8000000 0x2000 PermRead false = Some (ResultSuccess, vm1) ∧
  Unmap vm1 0x10000000 0x8000000 0x2000 PermReadWrite false = Some (ResultSuccess, vm2) ∧ vm_ok vm2 ∧
  at_state <$> view vm1 0x8000000 = Some Aliased ∧ view vm2 0x8000000 = view demo_vm 0x8000000.
Proof.
  destruct (Map_Unmap demo_vm 0x10000000 0x8000000 0x2000 PermRead demo_ok demo_ranges demo_target_free demo_private)
    as (vm1 & vm2 & E1 & E2 & O & V). exists vm1, vm2. split; [exact E1|]. split; [exact E2|]. split; [exact O|].
  split; [|apply V; reflexivity].
  assert (K : (fun x => at_state <$> view x.2 0x8000000) <$> Map demo_vm 0x10000000 0x8000000 0x2000 PermRead false = Some (Some Aliased))
    by (vm_compute; reflexivity).
  rewrite E1 in K. by injection K.
Defined.

(** * What the code does not do *)

(** New memory is mapped with the permissions to read and write and reprotected
    afterwards.  Between the two it has merged with the heap below it, whose host
    memory it continues: the heap that was there becomes read-only too. *)
Example HeapAllocate_reprotects_neighbour :
  (fun '(res, _, k) => (res, (fun a => at_perms <$> view (vm_of k (default demo_process (processes k !! 0%nat))) a) <$> [0x8000000; 0x8002000]))
    <$> HeapAllocate demo_kernel 0 0x8002000 0x4000 PermRead Private false
  = Some (ResultSuccess, [Some PermRead; Some PermRead]) ∧
  at_perms <$> view (vm_of demo_kernel demo_process) 0x8000000 = Some PermReadWrite.
Proof. split; vm_compute; reflexivity. Qed.

(** Allocating nothing reports that there is no memory left. *)
Example HeapAllocate_nothing :
  (fun '(res, _, _) => res) <$> HeapAllocate demo_kernel 0 0x8004000 0 PermReadWrite Private false = Some ResultOutOfHeapMemory.
Proof. vm_compute. reflexivity. Qed.

(** A process over its limit gets its memory all the same: the result of the
    reservation is not looked at.  Freeing it is then more than was reserved, which
    leaves the account as it is. *)
Definition poor_kernel : KernelMemory IntervalList unit :=
  demo_kernel<|resource_limits := [SetLimitValue ResourceLimit.Create RCommit 0x1000]|>.
Example HeapAllocate_over_limit :
  (fun '(res, _, k) => (res, (fun l => (GetCurrentValue l RCommit, GetLimitValue l RCommit)) <$> resource_limits k))
    <$> HeapAllocate poor_kernel 0 0x8004000 0x2000 PermReadWrite Private false = Some (ResultSuccess, [(0, 0x1000)]).
Proof. vm_compute. reflexivity. Qed.

(** * The theorems of [SvcFacts.v] on the kernel of [ProcessExamples.v], and what some calls do
    that they are not meant to. *)

Abbreviation svc_kernel := (some_kernel Object).
Definition demo_svc : Svc IntervalList := mk_Svc svc_kernel ∅ (mk_ConfigMem 0 0 0 0).

#[local] Instance in_range_dec w x : Decision (in_range w x).
Proof. unfold in_range. apply _. Defined.

Definition refused_with (e : Result) (addr0 addr1 size operation perms : Z) : Prop :=
  ∃ k', ControlMemory svc_kernel 0 addr0 addr1 size operation perms = Some (e, None, k') ∧ same_kernel svc_kernel 0 k'.


Lemma QueryMemory_correct_witness :
  (∃ i, QueryMemory 0 0 demo_svc 0x8001004 = Some (ResultSuccess, Some i) ∧ SvcMemory.base_address i <= 0x8001004 ∧
     0x8001004 < SvcMemory.base_address i + info_size i) ∧
  QueryMemory 0 0 demo_svc 0x40000000 = Some (ResultInvalidAddress, None).
Proof.
  assert (Vm : vm_ok (vm_of (SvcMemory.kernel demo_svc) (some_process Object))) by (rewrite demo_vm_of; apply demo_ok).
  split.
  - destruct (QueryMemory_correct 0 0 demo_svc _ 0x8001004 (lookup_insert_eq _ _ _) Vm ltac:(lia)) as [Q _].
    destruct (Q ltac:(by_decide)) as (i & E & L & H & _). exists i. split; [exact E|]. split; [apply L|apply H].
  - destruct (QueryMemory_correct 0 0 demo_svc _ 0x40000000 (lookup_insert_eq _ _ _) Vm ltac:(lia)) as [_ Q].
    apply Q. by_decide.
Defined.

(** * What the calls do not do *)

Definition memory_of (k : KernelMemory IntervalList Object) (a : Z) : option MemoryState :=
  x ← processes k !! 0%nat; at_state <$> view (vm_of k x) a.

(** Protecting addresses beyond the space is not refused: it fails an assertion. *)
Example ControlMemory_protect_asserts : ControlMemory svc_kernel 0 0x50000000 0 0x1000 6 3 = None.
Proof. vm_compute. reflexivity. Qed.

(** Unmapping fails when the source is not an alias's, but the target is gone by
    then: here the process loses its own heap. *)
Example ControlMemory_unmap_half_done :
  (fun '(res, _, k) => (res, memory_of k 0x8000000)) <$> ControlMemory svc_kernel 0 0x8000000 0x8004000 0x2000 5 3
  = Some (ResultInvalidAddressState, Some StateFree) ∧ memory_of svc_kernel 0x8000000 = Some Private.
Proof. split; vm_compute; reflexivity. Qed.

(** A block that cannot be made is destroyed as if it had its own memory: the
    process's use of memory shrinks by the size asked for. *)
Definition three_regions : Svc IntervalList := with_kernel demo_svc (svc_kernel<|memory_regions := [heap_region; new_region; new_region]|>).
Example CreateMemoryBlock_failure :
  (fun '(res, _, g) => (res, memory_used <$> processes (SvcMemory.kernel g) !! 0%nat))
    <$> CreateMemoryBlock 0 three_regions 0x8004000 0x1000 3 3 = Some (ResultInvalidAddressState, Some 0x3000) ∧
  memory_used <$> processes svc_kernel !! 0%nat = Some 0x4000.
Proof. split; vm_compute; reflexivity. Qed.

(** Making all memory accessible walks the areas with an iterator that merging
    erases. *)
Definition two_permissions : VMManager :=
  demo_vm<|vma_map := [free_area 0 0x8000000; heap_area 0x8000000 0x1000 0 PermReadWrite; heap_area 0x8001000 0x1000 0x1000 PermRead;
     free_area 0x8002000 (MAX_ADDRESS - 0x8002000)]|>.
Example set_rwx_erased : set_rwx 4 two_permissions (Some 0) = None ∧
  (length ∘ vma_map) <$> set_rwx 3 demo_vm (Some 0) = Some 3%nat.
Proof. split; vm_compute; reflexivity. Qed.
