(* ===== verification/IpcTranslate.v ===== *)
(** The translation of a command buffer between two emulated processes, of
    [kernel/ipc.cpp].

    A thread is known by the process that owns it; the addresses of the command
    buffers are given.  Buffers that are mapped into the receiver are blocks of host
    memory of their own, numbered in the order they are made. *)

From S2P Require Import Prelude BitField Result HandleTable Ipc Memory IntervalSet MemoryRegion VmManager Process SvcMemory.

(* src: core/memory.h | IPC_MAPPING_VADDR = 0x04000000, | IPC_MAPPING_VADDR | +1 *)
Definition IPC_MAPPING_VADDR : Z := 0x04000000.
(* src: core/memory.h | IPC_MAPPING_SIZE = 0x04000000, | IPC_MAPPING_SIZE | +1 *)
Definition IPC_MAPPING_SIZE : Z := 0x04000000.

(* src: common/alignment.h | [[nodiscard]] constexpr T AlignUp(T value, std::size_t size) { *)
Definition AlignUp32 (value size : Z) : Z :=
  let md := value mod size in if md =? 0 then value else u32 (value - md + size).
(* src: common/alignment.h | [[nodiscard]] constexpr T AlignDown(T value, std::size_t size) { *)
Definition AlignDown32 (value size : Z) : Z := value - value mod size.

(* src: kernel/ipc.h | struct MappedBufferContext { *)
Record MappedBufferContext := mk_MappedBufferContext {
  permissions : Z;
  size : Z;
  source_address : Z;
  target_address : Z;
  buffer : Backing
}.
#[export] Instance MappedBufferContext_eq_dec : EqDecision MappedBufferContext.
Proof. solve_decision. Defined.

Section translate.
Context {S : Type} `{IVS : IntervalSet S} `{gpu : GPU}.
Implicit Types (k : KernelMemory S Object).

(** A thread: its number and the process that owns it. *)
Record IpcThread := mk_IpcThread { thread_number : nat; owner_process : nat }.
Context (src_thread dst_thread : IpcThread).
#[local] Abbreviation src_process := (owner_process src_thread).
#[local] Abbreviation dst_process := (owner_process dst_thread).

(** The kernel, the mapped buffers of the request, how many blocks have been made,
    the words of the command and the index. *)
Record Translation := mk_Translation {
  kernel : KernelMemory S Object;
  contexts : list MappedBufferContext;
  blocks_made : nat;
  cmd_buf : list Z;
  index : nat
}.
Implicit Types (s : Translation).

(** * Accesses *)

Definition process_table k p : option nat := VmManager.page_table ∘ vm_manager <$> processes k !! p.
(** [memory.ReadBlock(process, ...)] *)
Definition read_block k p (addr n : Z) : option (list Z * KernelMemory S Object) :=
  t ← process_table k p; '(ms, bs) ← Memory.ReadBlock (kmem k) t addr n; Some (bs, k<|kmem := ms|>).
Definition write_block k p (addr : Z) (bs : list Z) : option (KernelMemory S Object) :=
  t ← process_table k p;
  ms ← Memory.WriteBlock (kmem k) t addr (HostBuffer bs) (Z.of_nat (length bs)); Some (k<|kmem := ms|>).

Definition words_of (n : nat) (bs : list Z) : list Z := (fun i => le_combine (take 4 (drop (4 * i) bs))) <$> seq 0 n.
Definition bytes_of (ws : list Z) : list Z := ws ≫= le_split 4.

(** [cmd_buf[i++]]: reading, and writing before the index moves on. *)
Definition word s : option Z := cmd_buf s !! index s.
Definition put s (w : Z) : option Translation :=
  if decide (index s < length (cmd_buf s))%nat
  then Some (s<|cmd_buf := <[index s := w]> (cmd_buf s)|><|index := Datatypes.S (index s)|>) else None.
Definition with_kernel s k : Translation := s<|kernel := k|>.

(** * Handles *)

Definition with_table k p (t : HandleTable Object) : option (KernelMemory S Object) :=
  x ← processes k !! p; Some (set_process k p (x<|Process.handle_table := t|>)).

(** The object of a handle of the sender, and the sender without it when it is
    moved. *)
(* src: kernel/ipc.cpp | if (handle == CurrentThread) { | TranslateCommandBuffer | ..if (object == nullptr) { *)
Definition take_object k (descriptor handle : Z) : option (option Object * KernelMemory S Object) :=
  if handle =? CurrentThread then Some (Some (mk_Object TThread (thread_number src_thread)), k)
  else if handle =? CurrentProcess then Some (Some (mk_Object TProcess src_process), k)
  else if negb (handle =? 0) then
    x ← processes k !! src_process;
    let object := GetGeneric None None (Process.handle_table x) handle in
    k ← (if descriptor =? DescriptorType_code MoveHandle
         then with_table k src_process (snd (Close (Process.handle_table x) handle)) else Some k);
    Some (object, k)
  else Some (None, k).

(* src: kernel/ipc.cpp | for (u32 j = 0; j < num_handles; ++j) { | TranslateCommandBuffer *)
Fixpoint translate_handles (num_handles : nat) (descriptor : Z) s : option Translation :=
  match num_handles with
  | O => Some s
  | Datatypes.S n =>
      handle ← word s;
      '(object, k) ← take_object (kernel s) descriptor handle;
      let s := with_kernel s k in
      s ← match object with
          | None => put s 0
          | Some object =>
              x ← processes (kernel s) !! dst_process;
              let '(r, out, t) := Create (Process.handle_table x) object in
              out ← out;
              if R_SUCCEEDED r then k ← with_table (kernel s) dst_process t; put (with_kernel s k) out else None
          end;
      translate_handles n descriptor s
  end.

(** * Static buffers *)

(* src: kernel/ipc.cpp | case IPC::DescriptorType::StaticBuffer: { | TranslateCommandBuffer *)
Definition translate_static (dst_address descriptor : Z) s : option Translation :=
  static_buffer_src_address ← word s;
  '(data, k) ← read_block (kernel s) src_process static_buffer_src_address (ExtractValue 32 sb_size descriptor);
  let static_buffer_offset := COMMAND_BUFFER_LENGTH * 4 + 8 * ExtractValue 32 sb_buffer_id descriptor in
  '(target, k) ← read_block k dst_process (u32 (dst_address + static_buffer_offset)) 8;
  let target_descriptor := le_combine (take 4 target) in
  let address := le_combine (drop 4 target) in
  if Z.of_nat (length data) <=? ExtractValue 32 sb_size target_descriptor
  then k ← write_block k dst_process address data; put (with_kernel s k) address
  else None.

(** * Mapped buffers *)

Definition page_count (page_offset sz : Z) : Z := AlignUp32 (u32 (page_offset + sz)) CITRA_PAGE_SIZE ≫ CITRA_PAGE_BITS.

(** The state of the area at an address; none behind the end of the space. *)
Definition state_at vm (addr : Z) : option MemoryState :=
  v ← FindVMA vm addr; v ← v; Some (meminfo_state v).
Definition matches (perms sz addr : Z) (c : MappedBufferContext) : Prop :=
  permissions c = perms ∧ size c = sz ∧ target_address c = addr.
#[export] Instance matches_dec perms sz addr c : Decision (matches perms sz addr c).
Proof. unfold matches. apply _. Defined.

(* src: kernel/ipc.cpp | if (reply) { #1 | TranslateCommandBuffer *)
Definition return_buffer (perms sz page_start num_pages addr : Z) s : option Translation :=
  '(place, found) ← list_find (matches perms sz addr) (contexts s);
  k ← (if decide (perms = PERM_R) then Some (kernel s)
       else
         td ← process_table (kernel s) dst_process; ts ← process_table (kernel s) src_process;
         ms ← CopyBlock (kmem (kernel s)) td ts (source_address found) (target_address found) sz;
         Some ((kernel s)<|kmem := ms|>));
  let prev_reserve := u32 (page_start - CITRA_PAGE_SIZE) in
  let next_reserve := u32 (page_start + num_pages * CITRA_PAGE_SIZE) in
  x ← processes k !! src_process;
  prev ← state_at (vm_of k x) prev_reserve;
  next ← state_at (vm_of k x) next_reserve;
  if bool_decide (prev = Reserved ∧ next = Reserved) then
    '(r, k) ← on_vm k src_process (fun vm => UnmapRange vm prev_reserve (u32 ((num_pages + 2) * CITRA_PAGE_SIZE)));
    if decide (r = ResultSuccess)
    then Some ((with_kernel s k)<|contexts := delete place (contexts s)|><|index := Datatypes.S (index s)|>) else None
  else None.

(** Mapping a block at the first place of the area for messages, with a guard page
    on either side. *)
(* src: kernel/ipc.cpp | .MapBackingMemoryToBase(Memory::IPC_MAPPING_VADDR, Memory::IPC_MAPPING_SIZE, | TranslateCommandBuffer | ..// Get proper mapped buffer address and store it in the cmd buffer. *)
Definition map_guarded vm (block : Backing) : option (Z * VMManager) :=
  let len := u32 (backing_size block) in
  '(r, vm) ← MapBackingMemoryToBase vm IPC_MAPPING_VADDR IPC_MAPPING_SIZE (mk_MemoryRef (Some block) 0) len Shared;
  match r with
  | RV_err _ => None
  | RV_val target =>
      let high_guard_address := u32 (target + len - CITRA_PAGE_SIZE) in
      '(r, vm) ← ChangeMemoryState vm target CITRA_PAGE_SIZE Shared PermReadWrite Reserved PermNone;
      if decide (r = ResultSuccess) then
        '(r, vm) ← ChangeMemoryState vm high_guard_address CITRA_PAGE_SIZE Shared PermReadWrite Reserved PermNone;
        if decide (r = ResultSuccess) then Some (target, vm) else None
      else None
  end.

(* src: kernel/ipc.cpp | std::make_shared<BufferMem>((num_pages + 2) * Memory::CITRA_PAGE_SIZE); | TranslateCommandBuffer | ..mapped_buffer_context.push_back({permissions, size, source_address, *)
Definition send_buffer (perms sz page_offset num_pages addr : Z) s : option Translation :=
  let block := BufferMem (blocks_made s) (u32 ((num_pages + 2) * CITRA_PAGE_SIZE)) in
  '(data, k) ← read_block (kernel s) src_process addr sz;
  m ← store (bytes (kmem k)) (Some (block, CITRA_PAGE_SIZE + page_offset)) data;
  '(target, k) ← on_vm (k<|kmem := set_bytes (kmem k) m|>) dst_process (fun vm => map_guarded vm block);
  let target := u32 (u32 (target + CITRA_PAGE_SIZE) + page_offset) in
  s ← put (with_kernel s k) target;
  Some (s<|contexts := contexts s ++ [mk_MappedBufferContext perms sz addr target block]|>
         <|blocks_made := Datatypes.S (blocks_made s)|>).

(* src: kernel/ipc.cpp | case IPC::DescriptorType::MappedBuffer: { | TranslateCommandBuffer *)
Definition translate_mapped (reply : bool) (descriptor : Z) s : option Translation :=
  addr ← word s;
  let sz := ExtractValue 32 mb_size_field descriptor in
  let perms := ExtractValue 32 mb_perms_field descriptor in
  let page_start := AlignDown32 addr CITRA_PAGE_SIZE in
  let page_offset := addr - page_start in
  let num_pages := page_count page_offset sz in
  if sz =? 0 then put s 0
  else if num_pages <? 1 then None
  else if reply then return_buffer perms sz page_start num_pages addr s
  else send_buffer perms sz page_offset num_pages addr s.

(** * The command *)

Definition ResultCommandTooLarge : Result :=
  Result_make (ErrCodes_code ErrCodes_CommandTooLarge) ErrorModule_OS ErrorSummary_InvalidState ErrorLevel_Status.

(** One descriptor: the translation goes on, or ends with an error. *)
(* src: kernel/ipc.cpp | while (i < command_size) { | TranslateCommandBuffer *)
Definition translate_step (reply : bool) (dst_address : Z) (command_size : nat) s : option (option Result * Translation) :=
  descriptor ← word s;
  let s := s<|index := Datatypes.S (index s)|> in
  match GetDescriptorType descriptor with
  | CopyHandle | MoveHandle =>
      let num_handles := HandleNumberFromDesc descriptor in
      if Z.of_nat (index s) + num_handles >? Z.of_nat command_size
      then Some (Some ResultCommandTooLarge, s)
      else (None,.) <$> translate_handles (Z.to_nat num_handles) descriptor s
  | CallingPid => x ← processes (kernel s) !! src_process; (None,.) <$> put s (Process.process_id x)
  | StaticBuffer => (None,.) <$> translate_static dst_address descriptor s
  | MappedBufferType => (None,.) <$> translate_mapped reply descriptor s
  | PXIBuffer | OtherDescriptor _ => Some (None, s)
  end.

(** Every step takes a word at least. *)
(* src: kernel/ipc.cpp | while (i < command_size) { | TranslateCommandBuffer *)
Fixpoint translate_loop (fuel : nat) (reply : bool) (dst_address : Z) (command_size : nat) s
    : option (option Result * Translation) :=
  if (index s <? command_size)%nat then
    match fuel with
    | O => None
    | Datatypes.S fuel =>
        '(r, s) ← translate_step reply dst_address command_size s;
        match r with Some e => Some (Some e, s) | None => translate_loop fuel reply dst_address command_size s end
    end
  else Some (None, s).

(* src: kernel/ipc.cpp | Result TranslateCommandBuffer(Kernel::KernelSystem& kernel, Memory::MemorySystem& memory, *)
Definition TranslateCommandBuffer k (ctx : list MappedBufferContext) (made : nat) (src_address dst_address : Z) (reply : bool)
    : option (Result * KernelMemory S Object * list MappedBufferContext * nat) :=
  '(bs, k) ← read_block k src_process src_address 4;
  let header := le_combine bs in
  let cs := command_size header in
  if Z.of_nat cs <=? COMMAND_BUFFER_LENGTH then
    '(bs, k) ← read_block k src_process src_address (4 * Z.of_nat cs);
    let buf := words_of cs bs ++ replicate (Z.to_nat COMMAND_BUFFER_LENGTH - cs) 0 in
    '(r, s) ← translate_loop (cs - untranslated_size header) reply dst_address cs
                (mk_Translation k ctx made buf (untranslated_size header));
    match r with
    | Some e => Some (e, kernel s, contexts s, blocks_made s)
    | None =>
        k ← write_block (kernel s) dst_process dst_address (bytes_of (take cs (cmd_buf s)));
        Some (ResultSuccess, k, contexts s, blocks_made s)
    end
  else None.

(** ** The fuel is enough: every step goes on *)

Lemma put_index s w s' : put s w = Some s' -> index s' = Datatypes.S (index s).
Proof. unfold put. destruct (decide _); [|done]. intros [= <-]. by destruct s. Qed.
Lemma with_kernel_index s k : index (with_kernel s k) = index s.
Proof. by destruct s. Qed.

Ltac steps := repeat match goal with
  | H : (_ ← _; _) = Some _ |- _ => apply bind_Some in H as (? & ? & H)
  | H : (match ?x with _ => _ end) = Some _ |- _ => destruct x; try discriminate H
  | H : put _ _ = Some _ |- _ => apply put_index in H; rewrite ?with_kernel_index in H
  | H : Some _ = Some _ |- _ => injection H as <-
  end.

Lemma translate_handles_index n descriptor : ∀ s s', translate_handles n descriptor s = Some s' -> (index s <= index s')%nat.
Proof.
  induction n as [|n IH]; intros s s' H; cbn [translate_handles] in H; [by injection H as <-|].
  steps; apply IH in H; lia.
Qed.

Lemma translate_mapped_index reply descriptor s s' : translate_mapped reply descriptor s = Some s' -> (index s <= index s')%nat.
Proof.
  unfold translate_mapped, return_buffer, send_buffer. intros H. steps; repeat match goal with t : Translation |- _ => destruct t end; cbn in *; lia.
Qed.

Lemma translate_step_index reply dst_address cs s s' :
  translate_step reply dst_address cs s = Some (None, s') -> (index s < index s')%nat.
Proof.
  unfold translate_step. intros H. apply bind_Some in H as (d & _ & H).
  assert (I : index (s<|index := Datatypes.S (index s)|>) = Datatypes.S (index s)) by (by destruct s).
  set (t := s<|index := Datatypes.S (index s)|>) in *. destruct (GetDescriptorType d).
  all: repeat match goal with
    | H : (if ?c then _ else _) = Some (None, _) |- _ => destruct c; [discriminate H|]
    | H : (_ ← _; _) = Some (None, _) |- _ => apply bind_Some in H as (? & _ & H)
    | H : (_ <$> _) = Some (None, _) |- _ => apply fmap_Some in H as (? & H & [= ->])
    | H : translate_handles _ _ _ = Some _ |- _ => apply translate_handles_index in H
    | H : translate_mapped _ _ _ = Some _ |- _ => apply translate_mapped_index in H
    | H : translate_static _ _ _ = Some _ |- _ => unfold translate_static in H; steps
    | H : put _ _ = Some _ |- _ => apply put_index in H
    | H : Some _ = Some _ |- _ => injection H as <-
    end; lia.
Qed.

(** More fuel than there are words left changes nothing. *)
Lemma translate_loop_fuel reply dst_address cs n n' s : (cs - index s <= n)%nat -> (cs - index s <= n')%nat ->
  translate_loop n reply dst_address cs s = translate_loop n' reply dst_address cs s.
Proof.
  revert n' s. induction n as [|n IH]; intros n' s H H'; destruct n' as [|n']; cbn [translate_loop]; destruct (Nat.ltb_spec (index s) cs); try (done || lia).
  destruct (translate_step _ _ _ s) as [[[e|] s']|] eqn:E; [done| |done]. cbn [mbind option_bind].
  apply translate_step_index in E. apply IH; lia.
Qed.
End translate.
