(* ===== verification/IpcTransfer.v ===== *)
(** What a buffer mapped by a message is: the receiver sees the sender's bytes
    between two guard pages, and giving the buffer back undoes the mapping. *)

From S2P Require Import Prelude BitField Result HandleTable Ipc Memory MemoryFacts IntervalSet MemoryRegion VmManager VmFacts VmCorrect Process ProcessFacts HeapFacts SvcMemory IpcTranslate.

(** * Mapping between guard pages *)

Section guarded.
Context `{gpu : GPU} {quiet : QuietGPU}.
Implicit Types (vm : VMManager) (block : Backing).

(** The area for messages has a free area that takes [len] bytes at [target], and
    no earlier area is tried. *)
Definition first_fit vm (len target : Z) : Prop :=
  ∃ i v, list_find (fun v => fits_base IPC_MAPPING_VADDR len v) (vma_map vm) = Some (i, v) ∧
    target = Z.max IPC_MAPPING_VADDR (base v) ∧ target + len <= base v + VmManager.size v ∧
    target + len <= IPC_MAPPING_VADDR + IPC_MAPPING_SIZE.

Definition buffer_ref block : MemoryRef := mk_MemoryRef (Some block) 0.
(** The attributes of the [o]-th byte of a guarded block. *)
Definition guard_page (len o : Z) : bool := in_interval 0 CITRA_PAGE_SIZE o || in_interval (len - CITRA_PAGE_SIZE) len o.
Definition guarded_attr block (len o : Z) : Attr :=
  if guard_page len o then mk_Attr VMABackingMemory PermNone Reserved (ptr_add (GetPtr (buffer_ref block)) o)
  else mapping (buffer_ref block) Shared o.

Lemma first_fit_free vm len target : vm_ok vm -> 0 < len -> first_fit vm len target ->
  aligned target ∧ IPC_MAPPING_VADDR <= target ∧ all_at vm is_free target (target + len).
Proof.
  intros [T _ _ _] L (i & v & F & -> & B & _). apply list_find_Some in F as (El & Fit & _).
  unfold fits_base in Fit. rewrite !andb_True in Fit. destruct Fit as [[Fr%bool_decide_unpack _] _].
  apply list_elem_of_lookup_2 in El as Hv. pose proof (tiles_in _ _ _ v T Hv) as ((Al & _) & _).
  split; [|split; [lia|]].
  - destruct (Z.max_spec IPC_MAPPING_VADDR (base v)) as [[_ ->]|[_ ->]]; [done|]. exists 0x4000. done.
  - intros a Ha. apply list_elem_of_split in Hv as (l1 & l2 & E). unfold view. unfold space in T. rewrite E in T |- *.
    exists (attr_of v a). split; [apply (attr_at_middle _ _ _ _ _ _ T); lia|]. done.
Qed.

Lemma map_guarded_spec vm id len target : vm_ok vm -> aligned len -> 3 * CITRA_PAGE_SIZE <= len <= IPC_MAPPING_SIZE ->
  first_fit vm len target ->
  ∃ vm', map_guarded vm (BufferMem id len) = Some (target, vm') ∧ vm_ok vm' ∧ vm_frame vm vm' ∧
    ∀ a, view vm' a = if in_interval target (target + len) a then Some (guarded_attr (BufferMem id len) len (a - target))
                      else view vm a.
Proof.
  intros O Al L Fit. destruct (first_fit_free vm len target O ltac:(unfold CITRA_PAGE_SIZE in L; lia) Fit) as (At & Lo & Fr).
  destruct Fit as (i & v & F & Et & B & R). unfold map_guarded. cbn [backing_size].
  unfold IPC_MAPPING_VADDR, IPC_MAPPING_SIZE, CITRA_PAGE_SIZE in *.
  rewrite uwrap_id by (unfold in_range; lia). unfold MapBackingMemoryToBase. rewrite (vm_unlocked _ O), F, <- Et.
  rewrite (uwrap_id 32 (_ + len)), (uwrap_id 32 (_ + 0x04000000)) by (unfold in_range; lia).
  rewrite (proj2 (Z.ltb_ge _ _)) by lia.
  destruct (MapBackingMemory_spec vm target (buffer_ref (BufferMem id len)) len Shared O At Al) as (r & vm1 & E1 & O1 & F1 & S1 & _);
    [lia|lia|lia|unfold ref_ok; cbn; lia|].
  destruct (S1 Fr) as [(it & -> & _) V1]. clear S1. unfold buffer_ref in E1. rewrite E1. cbn [mbind option_bind].
  rewrite uwrap_id by (unfold in_range; lia).
  assert (X : ∀ o, is_expected Shared PermReadWrite (mapping (buffer_ref (BufferMem id len)) Shared o) ∧
                   is_mapped (mapping (buffer_ref (BufferMem id len)) Shared o)) by done.
  assert (A4 : aligned 4096) by (by exists 1). assert (Ah : aligned (target + len - 4096)).
  { apply Z.divide_sub_r; [by apply Z.divide_add_r|done]. }
  assert (W1 : ∀ a, target <= a < target + len -> view vm1 a = Some (mapping (buffer_ref (BufferMem id len)) Shared (a - target))).
  { intros a Ha. by rewrite V1, (proj2 (in_interval_spec _ _ _) Ha). }
  destruct (ChangeMemoryState_spec vm1 target 4096 Shared PermReadWrite Reserved PermNone O1 At A4)
    as (r & vm2 & -> & O2 & F2 & S2 & _); [lia|lia|unfold MAX_ADDRESS; lia|].
  destruct (S2 ltac:(split; intros a Ha; rewrite W1 by lia; eexists; (split; [done|apply X]))) as [-> V2].
  cbn [mbind option_bind]. rewrite decide_True by done.
  assert (W2 : ∀ a, target + 4096 <= a -> view vm2 a = view vm1 a).
  { intros a Ha. rewrite V2. unfold in_interval. by replace (_ && _) with false by lia. }
  destruct (ChangeMemoryState_spec vm2 (target + len - 4096) 4096 Shared PermReadWrite Reserved PermNone O2 Ah A4)
    as (r & vm3 & -> & O3 & F3 & S3 & _); [lia|lia|unfold MAX_ADDRESS; lia|].
  destruct (S3 ltac:(split; intros a Ha; rewrite W2, W1 by lia; eexists; (split; [done|apply X]))) as [-> V3].
  cbn [mbind option_bind]. rewrite decide_True by done. exists vm3. split; [done|]. split; [done|].
  split; [by repeat (etrans; [eassumption|])|]. intros a. rewrite V3, V2, V1. unfold guarded_attr, guard_page, in_interval.
  unfold CITRA_PAGE_SIZE. destruct (Z.le_gt_cases target a) as [H1|H1]; [destruct (Z.lt_ge_cases a (target + len)) as [H2|H2]|].
  - replace ((target <=? a) && (a <? target + len)) with true by lia.
    replace ((target + len - 4096 <=? a) && (a <? target + len - 4096 + 4096)) with ((len - 4096 <=? a - target) && (a - target <? len)) by lia.
    replace ((target <=? a) && (a <? target + 4096)) with ((0 <=? a - target) && (a - target <? 4096)) by lia.
    destruct ((0 <=? a - target) && _), ((len - 4096 <=? a - target) && _); done.
  - by replace ((target <=? a) && (a <? target + len)) with false by lia;
      replace ((target + len - 4096 <=? a) && (a <? target + len - 4096 + 4096)) with false by lia;
      replace ((target <=? a) && (a <? target + 4096)) with false by lia.
  - by replace ((target <=? a) && (a <? target + len)) with false by lia;
      replace ((target + len - 4096 <=? a) && (a <? target + len - 4096 + 4096)) with false by lia;
      replace ((target <=? a) && (a <? target + 4096)) with false by lia.
Qed.

(** ** The bytes of a guarded block *)

Definition shows_guarded vm block (target len : Z) : Prop :=
  ∀ a, target <= a < target + len -> view vm a = Some (guarded_attr block len (a - target)).
(** No page of the range is kept by the rasterizer. *)
Definition uncached ms (lo hi : Z) : Prop := ∀ a, lo <= a < hi -> IsCached (cache_marker ms) a = false.

Lemma guarded_attr_host block len o : at_type (guarded_attr block len o) = VMABackingMemory ∧
  at_ptr (guarded_attr block len o) = Some (block, o).
Proof. unfold guarded_attr. by destruct (guard_page len o). Qed.

Section shown.
Context vm block (target len : Z) (O : vm_ok vm) (At : aligned target) (Al : aligned len) (T0 : 0 <= target)
  (T1 : target + len <= MAX_ADDRESS) (Sh : shows_guarded vm block target len) (U : uncached (memory vm) target (target + len)).

Lemma shown_page p : target <= p * 4096 < target + len ->
  page_host (memory vm) (table_of vm) p = Some (block, p * 4096 - target).
Proof.
  intros Hp. pose proof (vm_table _ O p) as T. unfold MAX_ADDRESS, PAGE_TABLE_NUM_ENTRIES, CITRA_PAGE_BITS, CITRA_PAGE_SIZE in *.
  specialize (T ltac:(change (2 ^ (32 - 12)) with 1048576; lia)). rewrite (Sh (p * 4096) Hp) in T.
  destruct (guarded_attr_host block len (p * 4096 - target)) as [Ty Pt].
  destruct (guarded_attr block len (p * 4096 - target)) as [ty pe st pt]. cbn in Ty, Pt. subst ty pt.
  unfold page_shows, CITRA_PAGE_SIZE in T. rewrite (U _ Hp) in T. destruct T as [E1 E2]. unfold page_host. by rewrite E1.
Qed.

Lemma page_in a : target <= a < target + len -> target <= a / 4096 * 4096 < target + len ∧ a / 4096 * 4096 + 4096 <= target + len.
Proof.
  intros Ha. destruct At as [c ->], Al as [d ->]. replace (c * 4096 + d * 4096) with ((c + d) * 4096) in * by lia. modlia.
Qed.

Lemma shown_host a : target <= a < target + len -> host_at (memory vm) (VmManager.page_table vm) a = Some (block, a - target).
Proof.
  intros Ha. destruct (page_in a Ha) as [Hp _]. unfold host_at, CITRA_PAGE_SIZE.
  change (Memory.page_table (memory vm) (VmManager.page_table vm)) with (table_of vm). rewrite shown_page by done.
  unfold ptr_add. cbn [mbind option_bind]. do 2 f_equal. modlia.
Qed.

Lemma shown_ready a n : len <= backing_size block -> target <= a -> 0 < n -> a + n <= target + len ->
  ready (memory vm) (VmManager.page_table vm) a n.
Proof.
  intros Bs L N R p Hp. unfold CITRA_PAGE_SIZE in Hp. right. exists block, (p * 4096 - target).
  assert (Hq : target <= p * 4096 < target + len ∧ p * 4096 + 4096 <= target + len).
  { destruct (page_in a ltac:(lia)), (page_in (a + n - 1) ltac:(lia)). lia. }
  split; [exact (shown_page p (proj1 Hq))|]. apply in_block_spec. lia.
Qed.

Lemma shown_bytes a n : target <= a -> a + Z.of_nat n <= target + len ->
  vbytes (memory vm) (VmManager.page_table vm) a n = bytes_at (bytes (memory vm)) block (a - target) n.
Proof.
  intros L R. unfold vbytes, bytes_at. apply list_fmap_ext. intros i j Hj. apply lookup_seq in Hj as [-> Hj].
  unfold vbyte. rewrite shown_host by lia. f_equal. lia.
Qed.
End shown.
End guarded.

(** * Sending a buffer *)

Lemma vm_ok_same vm ms : same_tables (memory vm) ms -> vm_ok vm -> vm_ok (vm<|memory := ms|>).
Proof. intros (m & c & ->) [T Sm P U]. destruct vm. by split. Qed.

Section transfer.
Context {S : Type} `{IVS : IntervalSet S} `{quiet : QuietGPU} (sender receiver : IpcThread).
Implicit Types (k : KernelMemory S Object) (x y : Process S Object) (s : Translation (S := S)).

(** The two processes: they have page tables of their own. *)
Record parties k x y : Prop := mk_parties {
  par_sender : processes k !! owner_process sender = Some x;
  par_receiver : processes k !! owner_process receiver = Some y;
  par_tables : VmManager.page_table (vm_manager x) ≠ VmManager.page_table (vm_manager y);
  par_ok : vm_ok (vm_of k y)
}.

Lemma parties_ne k x y : parties k x y -> owner_process sender ≠ owner_process receiver.
Proof. intros [X Y T _] E. rewrite E, Y in X. injection X as ->. done. Qed.

Lemma parties_with_vm k x y vm : parties k x y -> vm_ok vm -> VmManager.page_table vm = VmManager.page_table (vm_manager y) ->
  parties (with_vm k (owner_process receiver) y vm) x (y<|vm_manager := vm|>).
Proof.
  intros Pa O E. pose proof (parties_ne _ _ _ Pa) as N. destruct Pa as [X Y T _]. split.
  - cbn. by rewrite lookup_insert_ne.
  - apply with_vm_lookup.
  - destruct y. cbn in *. congruence.
  - by rewrite vm_of_with_vm.
Qed.

Lemma process_table_eq k p x : processes k !! p = Some x -> process_table k p = Some (VmManager.page_table (vm_manager x)).
Proof. intros E. unfold process_table. by rewrite E. Qed.

Lemma page_count_spec off sz : 0 <= off < 4096 -> 0 < sz < 2 ^ 28 ->
  let n := page_count off sz in n * 4096 - 4096 < off + sz <= n * 4096 ∧ 1 <= n < 2 ^ 17.
Proof.
  intros H1 H2. unfold page_count, AlignUp32, CITRA_PAGE_SIZE, CITRA_PAGE_BITS. rewrite (uwrap_id 32 (off + sz)) by (unfold in_range; lia).
  rewrite shiftr_div by done. zcases; rewrite ?uwrap_id by (unfold in_range; modlia); modlia.
Qed.

Lemma host_at_other ms ms' t t' a : only_table t ms ms' -> t' ≠ t -> host_at ms' t' a = host_at ms t' a.
Proof.
  intros [Cm Po Pl Li Cu By Ot] N. unfold host_at, page_host. rewrite (Ot _ N). unfold GetPointerForRasterizerCache. by rewrite Pl.
Qed.

(** The block has room for the bytes and a guard page on either side. *)
Definition block_len (addr sz : Z) : Z := (page_count (addr mod CITRA_PAGE_SIZE) sz + 2) * CITRA_PAGE_SIZE.
Lemma block_len_spec addr sz : 0 < sz < 2 ^ 28 ->
  aligned (block_len addr sz) ∧ 3 * 4096 <= block_len addr sz < 2 ^ 31 ∧ addr mod 4096 + sz + 2 * 4096 <= block_len addr sz.
Proof.
  intros H. pose proof (page_count_spec (addr mod 4096) sz ltac:(apply Z.mod_pos_bound; done) H) as P. cbv zeta in P.
  unfold block_len, CITRA_PAGE_SIZE in *. split; [by eexists|lia].
Qed.

(** Bytes written into the sender's range: it is mapped, each of its addresses has a
    byte of its own, and none of them is a byte of the block. *)
Record own_range k x (block : Backing) (addr sz : Z) : Prop := mk_own_range {
  own_ready : ready (kmem k) (VmManager.page_table (vm_manager x)) addr sz;
  own_apart : own_bytes (kmem k) (VmManager.page_table (vm_manager x)) addr (addr + sz);
  own_block a o : addr <= a < addr + sz -> host_at (kmem k) (VmManager.page_table (vm_manager x)) a ≠ Some (block, o)
}.

(** A change of the pages of one table keeps what another shows. *)
Lemma ready_other ms ms' t t' a n : only_table t ms ms' -> t' ≠ t -> ready ms t' a n -> ready ms' t' a n.
Proof.
  intros [Cm Po Pl Li Cu By Ot] N R p Hp. specialize (R p Hp). unfold page_ready, page_host in *. rewrite (Ot _ N).
  unfold GetPointerForRasterizerCache in *. by rewrite Pl.
Qed.
Lemma own_range_other k k' t x block addr sz : only_table t (kmem k) (kmem k') -> VmManager.page_table (vm_manager x) ≠ t ->
  own_range k x block addr sz -> own_range k' x block addr sz.
Proof.
  intros Ot N [R [Ap1 Ap2] Nb]. pose proof (fun a => host_at_other _ _ _ _ a Ot N) as H. split.
  - by apply (ready_other _ _ _ _ _ _ Ot N).
  - split; [intros a Ha; rewrite H; by apply Ap1|]. intros a b c. rewrite !H. apply Ap2.
  - intros a o Ha. rewrite H. by apply Nb.
Qed.
Lemma own_range_same k ms x block addr sz : same_tables (kmem k) ms -> own_range k x block addr sz ->
  own_range (k<|kmem := ms|>) x block addr sz.
Proof. intros (m & c & ->). by intros [R [Ap1 Ap2] Nb]. Qed.

(** What a sent buffer is at the receiver. *)
Record sent k k' x y y' (id : nat) (addr sz target : Z) : Prop := mk_sent {
  sent_parties : parties k' x y';
  sent_view a : view (vm_of k' y') a = if in_interval target (target + block_len addr sz) a
    then Some (guarded_attr (BufferMem id (block_len addr sz)) (block_len addr sz) (a - target)) else view (vm_of k y) a;
  sent_bytes : vbytes (kmem k') (VmManager.page_table (vm_manager y')) (target + CITRA_PAGE_SIZE + addr mod CITRA_PAGE_SIZE) (Z.to_nat sz) =
    vbytes (kmem k) (VmManager.page_table (vm_manager x)) addr (Z.to_nat sz);
  sent_sender a : (∀ o, host_at (kmem k) (VmManager.page_table (vm_manager x)) a ≠ Some (BufferMem id (block_len addr sz), o)) ->
    vbyte (kmem k') (VmManager.page_table (vm_manager x)) a = vbyte (kmem k) (VmManager.page_table (vm_manager x)) a;
  sent_range b a n : own_range k x b a n -> own_range k' x b a n;
  sent_uncached : uncached (kmem k') target (target + block_len addr sz)
}.

(** Mapping the block into the receiver once its bytes are in place. *)
Lemma sent_mapped k ms x y vm' id addr sz target : parties k x y -> 0 < sz < 2 ^ 28 ->
  let len := block_len addr sz in
  let data := vbytes (kmem k) (VmManager.page_table (vm_manager x)) addr (Z.to_nat sz) in
  let m := put_at (bytes (kmem k)) (BufferMem id len) (CITRA_PAGE_SIZE + addr mod CITRA_PAGE_SIZE) data in
  same_tables (kmem k) ms -> bytes ms = m -> aligned target -> 0 <= target -> target + len <= MAX_ADDRESS ->
  uncached (kmem k) target (target + len) ->
  let k2 := k<|kmem := ms|> in
  vm_ok vm' -> vm_frame (vm_of k2 y) vm' ->
  (∀ a, view vm' a = if in_interval target (target + len) a then Some (guarded_attr (BufferMem id len) len (a - target))
                     else view (vm_of k y) a) ->
  sent k (with_vm k2 (owner_process receiver) y vm') x y (y<|vm_manager := vm'|>) id addr sz target.
Proof.
  intros Pa Sz len data m St Eb At T0 T1 Un k2 O Fr V. pose proof Pa as [X Y T Oy]. destruct (block_len_spec addr sz Sz) as (Al & L & Rm).
  pose proof Fr as (Pt & _ & Ot). pose proof (frame_bytes _ _ Fr) as Fb. change (memory (vm_of k2 y)) with ms in Fb, Ot.
  change (VmManager.page_table (vm_of k2 y)) with (VmManager.page_table (vm_manager y)) in *.
  assert (E1 : VmManager.page_table (vm_manager (y<|vm_manager := vm'|>)) = VmManager.page_table vm') by (by destruct y).
  constructor.
  - apply parties_with_vm; [|done|done]. split; [done|done|done|]. by apply (vm_ok_same (vm_of k y)).
  - intros a. by rewrite vm_of_with_vm, V.
  - rewrite E1. change (kmem (with_vm k2 _ y vm')) with (memory vm').
    rewrite (shown_bytes vm' (BufferMem id len) target len O At Al T0 T1); [| | |unfold CITRA_PAGE_SIZE..].
    + rewrite Fb, Eb. unfold m. replace (_ + _ + _ - target) with (CITRA_PAGE_SIZE + addr mod CITRA_PAGE_SIZE) by lia.
      assert (Ld : Z.to_nat sz = length data) by (unfold data, vbytes; by rewrite length_fmap, length_seq).
      fold data. rewrite Ld. apply bytes_at_put.
    + intros a Ha. rewrite V, (proj2 (in_interval_spec _ _ _) Ha). done.
    + intros a Ha. rewrite (ot_marker _ _ _ Ot). destruct St as (m0 & c0 & ->). by apply Un.
    + fold len in Rm. unfold CITRA_PAGE_SIZE in *. pose proof (Z.mod_pos_bound addr 4096 ltac:(done)). lia.
    + fold len in Rm. unfold CITRA_PAGE_SIZE in *. lia.
  - intros a Na. change (kmem (with_vm k2 _ y vm')) with (memory vm'). unfold vbyte.
    rewrite (host_at_other ms (memory vm') _ _ a Ot T), (host_at_same (kmem k) ms _ a St), Fb, Eb.
    destruct (host_at (kmem k) _ a) as [[b o]|]; [|done]. unfold m. rewrite byte_at_put, decide_False; [done|].
    intros [-> _]. by apply (Na o).
  - intros b a n Ow. apply (own_range_other k2 _ (VmManager.page_table (vm_manager y))); [exact Ot|exact T|].
    by apply own_range_same.
  - intros a Ha. change (kmem (with_vm k2 _ y vm')) with (memory vm'). rewrite (ot_marker _ _ _ Ot).
    destruct St as (m0 & c0 & ->). by apply Un.
Qed.

Lemma send_buffer_spec s x y perms addr sz target : parties (kernel s) x y -> 0 <= addr -> 0 < sz < 2 ^ 28 -> addr + sz <= 2 ^ 32 ->
  block_len addr sz <= IPC_MAPPING_SIZE ->
  ready (kmem (kernel s)) (VmManager.page_table (vm_manager x)) addr sz ->
  first_fit (vm_of (kernel s) y) (block_len addr sz) target ->
  uncached (kmem (kernel s)) target (target + block_len addr sz) -> (index s < length (cmd_buf s))%nat ->
  let off := addr mod CITRA_PAGE_SIZE in
  let block := BufferMem (blocks_made s) (block_len addr sz) in
  let where_ := target + CITRA_PAGE_SIZE + off in
  ∃ k' y', send_buffer sender receiver perms sz off (page_count off sz) addr s =
      Some (mk_Translation k' (contexts s ++ [mk_MappedBufferContext perms sz addr where_ block]) (Datatypes.S (blocks_made s))
             (<[index s := where_]> (cmd_buf s)) (Datatypes.S (index s))) ∧
    sent (kernel s) k' x y y' (blocks_made s) addr sz target.
Proof.
  intros Pa A0 Sz A1 Lm Rd Fit Un Ix off block where_. destruct (block_len_spec addr sz Sz) as (Al & L & Rm).
  pose proof Pa as [X Y T O]. unfold send_buffer. change (_ * CITRA_PAGE_SIZE) with (block_len addr sz).
  rewrite (uwrap_id 32 (block_len addr sz)) by (unfold in_range; lia). fold block.
  unfold read_block. rewrite (process_table_eq _ _ _ X). cbn [mbind option_bind].
  destruct (ReadBlockImpl_spec false (kmem (kernel s)) _ addr sz A0 ltac:(lia) A1 Rd) as (ms1 & E1 & S1 & B1).
  unfold Memory.ReadBlock. rewrite E1. cbn [mbind option_bind].
  set (data := vbytes _ _ addr (Z.to_nat sz)) in *. assert (Ld : Z.of_nat (length data) = sz).
  { unfold data, vbytes. rewrite length_fmap, length_seq. lia. }
  assert (O1 : 0 <= off < 4096) by (unfold off, CITRA_PAGE_SIZE; apply Z.mod_pos_bound; lia).
  unfold store. cbn [mbind option_bind]. rewrite (proj2 (in_block_spec block _ _)) by (change (backing_size block) with (block_len addr sz); unfold off, CITRA_PAGE_SIZE in *; lia).
  cbn [mbind option_bind]. set (m := put_at _ _ _ _).
  set (k2 := ((kernel s)<|kmem := ms1|>)<|kmem := set_bytes ms1 m|>).
  change (_ <|kmem := _|>) with k2.
  assert (Y2 : processes k2 !! owner_process receiver = Some y) by done. rewrite (on_vm_eq _ _ y) by done.
  assert (St : same_tables (kmem (kernel s)) (set_bytes ms1 m)) by (etrans; [exact S1|by eexists _, _]).
  assert (O2 : vm_ok (vm_of k2 y)) by (by apply (vm_ok_same (vm_of (kernel s) y))).
  assert (Fit2 : first_fit (vm_of k2 y) (block_len addr sz) target) by done.
  destruct (map_guarded_spec (vm_of k2 y) (blocks_made s) (block_len addr sz) target O2 Al) as (vm' & Eg & O3 & Fr & V3);
    [unfold CITRA_PAGE_SIZE; lia|done|].
  fold block in Eg. cbv beta. rewrite Eg.
  cbn [mbind option_bind]. unfold put. rewrite decide_True by done. cbn [mbind option_bind].
  destruct (first_fit_free _ (block_len addr sz) target O ltac:(lia) Fit) as (At & Lo & _).
  assert (Hi : target + block_len addr sz <= IPC_MAPPING_VADDR + IPC_MAPPING_SIZE) by (by destruct Fit as (? & ? & _ & _ & _ & ?)).
  unfold IPC_MAPPING_VADDR, IPC_MAPPING_SIZE, CITRA_PAGE_SIZE in *.
  assert (Ew : u32 (u32 (target + 4096) + off) = where_).
  { rewrite (uwrap_id 32 (target + 4096)) by (unfold in_range; lia). apply uwrap_id. unfold in_range. lia. }
  rewrite Ew. eexists _, _. split; [destruct s; reflexivity|].
  apply (sent_mapped (kernel s) (set_bytes ms1 m)); try done; [|lia|unfold MAX_ADDRESS; lia].
  unfold m. cbn [bytes set_bytes]. by rewrite <- B1.
Qed.

(** * Giving a buffer back *)

Lemma state_at_view vm a z : vm_ok vm -> 0 <= a < MAX_ADDRESS -> view vm a = Some z -> state_at vm a = Some (at_state z).
Proof.
  intros [T _ _ _] Ha V. destruct (FindVMA_eq vm a T Ha) as (l1 & v & l2 & E & Hv & F). unfold state_at. rewrite F. cbn [mbind option_bind].
  unfold view in V. unfold space in T. rewrite E in T, V. rewrite (attr_at_middle _ _ _ _ _ _ T Hv) in V. by injection V as <-.
Qed.

(** The receiver's state at the time of the reply: it still shows the buffer. *)
Record holds_buffer k x y (block : Backing) (target len : Z) : Prop := mk_holds_buffer {
  hold_parties : parties k x y;
  hold_view : shows_guarded (vm_of k y) block target len;
  hold_uncached : uncached (kmem k) target (target + len);
  hold_aligned : aligned target ∧ aligned len;
  hold_bounds : 0 <= target ∧ 3 * 4096 <= len ∧ target + len <= MAX_ADDRESS ∧ len <= backing_size block
}.

(** The guard pages are found, and the block with them is unmapped. *)
Lemma unmap_guarded k x y block target len : holds_buffer k x y block target len ->
  state_at (vm_of k y) target = Some Reserved ∧ state_at (vm_of k y) (target + len - CITRA_PAGE_SIZE) = Some Reserved ∧
  ∃ vm', on_vm k (owner_process receiver) (fun vm => UnmapRange vm target len) =
      Some (ResultSuccess, with_vm k (owner_process receiver) y vm') ∧ vm_ok vm' ∧ vm_frame (vm_of k y) vm' ∧
    ∀ a, view vm' a = if in_interval target (target + len) a then Some free_attr else view (vm_of k y) a.
Proof.
  intros [[X Y T O] Sh U [At Al] (T0 & L & T1 & _)]. unfold CITRA_PAGE_SIZE.
  assert (G : ∀ a, target <= a < target + len -> guard_page len (a - target) = true -> state_at (vm_of k y) a = Some Reserved).
  { intros a Ha G. rewrite (state_at_view _ a _ O ltac:(lia) (Sh a Ha)). unfold guarded_attr. by rewrite G. }
  split; [apply G; [lia|unfold guard_page, in_interval, CITRA_PAGE_SIZE; lia]|].
  split; [apply G; [lia|unfold guard_page, in_interval, CITRA_PAGE_SIZE; lia]|].
  rewrite (on_vm_eq _ _ y) by done. destruct (UnmapRange_spec (vm_of k y) target len O At Al T0 ltac:(lia) T1) as (r & vm' & E & O' & F & Hy & _).
  destruct Hy as [-> V]. { intros a Ha. rewrite (Sh a Ha). eexists. split; [done|]. unfold is_mapped. by rewrite (proj1 (guarded_attr_host _ _ _)). }
  exists vm'. by rewrite E.
Qed.

(** What giving the buffer back leaves. *)
Record returned k k' x y y' (perms addr sz from target len : Z) : Prop := mk_returned {
  ret_parties : parties k' x y';
  ret_view a : view (vm_of k' y') a = if in_interval target (target + len) a then Some free_attr else view (vm_of k y) a;
  ret_bytes : vbytes (kmem k') (VmManager.page_table (vm_manager x)) addr (Z.to_nat sz) =
    if decide (perms = PERM_R) then vbytes (kmem k) (VmManager.page_table (vm_manager x)) addr (Z.to_nat sz)
    else vbytes (kmem k) (VmManager.page_table (vm_manager y)) from (Z.to_nat sz)
}.

Lemma vbytes_ext ms ms' t t' a a' n : (∀ i, (i < n)%nat -> vbyte ms t (a + Z.of_nat i) = vbyte ms' t' (a' + Z.of_nat i)) ->
  vbytes ms t a n = vbytes ms' t' a' n.
Proof. intros H. apply list_fmap_ext. intros i j Hj. apply lookup_seq in Hj as [-> Hj]. by apply H. Qed.

(** The first step of the reply: the bytes, unless the buffer is only read. *)
Lemma copy_back k x y block target len perms addr sz from : holds_buffer k x y block target len -> own_range k x block addr sz ->
  0 <= addr -> 0 < sz -> addr + sz <= 2 ^ 32 -> target + CITRA_PAGE_SIZE <= from -> from + sz <= target + len ->
  ∃ ms, (if decide (perms = PERM_R) then Some k
         else td ← process_table k (owner_process sender); ts ← process_table k (owner_process receiver);
              ms ← CopyBlock (kmem k) td ts addr from sz; Some (k<|kmem := ms|>)) = Some (k<|kmem := ms|>) ∧
    same_tables (kmem k) ms ∧
    vbytes ms (VmManager.page_table (vm_manager x)) addr (Z.to_nat sz) =
      if decide (perms = PERM_R) then vbytes (kmem k) (VmManager.page_table (vm_manager x)) addr (Z.to_nat sz)
      else vbytes (kmem k) (VmManager.page_table (vm_manager y)) from (Z.to_nat sz).
Proof.
  intros [[X Y T O] Sh U [At Al] (T0 & L & T1 & Lb)] [Rd Ap Nb] A0 Sz A1 F0 F1. destruct (decide (perms = PERM_R)).
  - exists (kmem k). split; [by destruct k|]. done.
  - rewrite (process_table_eq _ _ _ X), (process_table_eq _ _ _ Y). cbn [mbind option_bind]. unfold CITRA_PAGE_SIZE, MAX_ADDRESS in *.
    assert (Rs := shown_ready (vm_of k y) block target len O At Al T0 T1 Sh U from sz Lb ltac:(lia) Sz F1).
    assert (Hs := shown_host (vm_of k y) block target len O At Al T0 T1 Sh U).
    set (f := fun a => vbyte (kmem k) (VmManager.page_table (vm_manager y)) (from + (a - addr))).
    destruct (CopyBlock_spec (kmem k) (VmManager.page_table (vm_manager x)) (VmManager.page_table (vm_manager y)) addr from sz)
      as (ms & E & W); [lia..|done|done| | |].
    + intros a b c Ha Hb E1 E2. change (kmem k) with (memory (vm_of k y)) in E2.
      change (VmManager.page_table (vm_manager y)) with (VmManager.page_table (vm_of k y)) in E2. rewrite Hs in E2 by lia.
      injection E2 as <-. by apply (Nb a (b - target)).
    + intros a b k' o Ha Hb E1 E2. by rewrite (proj2 Ap a b (k', o) Ha Hb E1 E2).
    + rewrite E. cbn [mbind option_bind]. exists ms. split; [done|]. split; [by destruct W|]. apply vbytes_ext. intros i Hi.
      destruct W as (St & Wv & _). unfold vbyte at 1. rewrite (host_at_same _ _ _ _ St).
      destruct (host_at (kmem k) _ (addr + Z.of_nat i)) as [[b o]|] eqn:Eh; [|by destruct (proj1 Ap (addr + Z.of_nat i) ltac:(lia))].
      rewrite (Wv (addr + Z.of_nat i) b o ltac:(lia) Eh). unfold f. f_equal. lia.
Qed.

Lemma sent_holds k k' x y y' id addr sz target : 0 < sz < 2 ^ 28 -> aligned target -> 0 <= target -> 
  target + block_len addr sz <= MAX_ADDRESS -> sent k k' x y y' id addr sz target ->
  holds_buffer k' x y' (BufferMem id (block_len addr sz)) target (block_len addr sz).
Proof.
  intros Sz At T0 T1 [Pa V _ _ U]. destruct (block_len_spec addr sz Sz) as (Al & L & _). constructor; try done.
  - intros a Ha. by rewrite V, (proj2 (in_interval_spec _ _ _) Ha).
  - cbn. lia.
Qed.

Lemma holds_buffer_same k ms x y block target len : same_tables (kmem k) ms -> holds_buffer k x y block target len ->
  holds_buffer (k<|kmem := ms|>) x y block target len.
Proof.
  intros St [[X Y T O] Sh U Al B]. constructor; [|done| |done|done].
  - split; [done|done|done|]. by apply (vm_ok_same (vm_of k y)).
  - intros a Ha. destruct St as (m0 & c0 & ->). by apply U.
Qed.

(** What a change of one space leaves of the bytes seen through another table. *)
Lemma frame_vbyte vm vm' t a : vm_frame vm vm' -> t ≠ VmManager.page_table vm -> vbyte (memory vm') t a = vbyte (memory vm) t a.
Proof.
  intros Fr N. pose proof (frame_bytes _ _ Fr) as Fb. destruct Fr as (_ & _ & Ot). unfold vbyte.
  by rewrite (host_at_other _ _ _ _ a Ot N), Fb.
Qed.

Lemma return_buffer_spec s x y perms addr sz target place from found : 
  let len := block_len addr sz in
  let np := page_count (addr mod CITRA_PAGE_SIZE) sz in
  holds_buffer (kernel s) x y (buffer found) target len -> own_range (kernel s) x (buffer found) addr sz ->
  0 <= addr -> 0 < sz < 2 ^ 28 -> addr + sz <= 2 ^ 32 ->
  from = target + CITRA_PAGE_SIZE + addr mod CITRA_PAGE_SIZE ->
  list_find (matches perms sz from) (contexts s) = Some (place, found) -> source_address found = addr ->
  ∃ k' y', return_buffer receiver sender perms sz (target + CITRA_PAGE_SIZE) np from s =
      Some (mk_Translation k' (delete place (contexts s)) (blocks_made s) (cmd_buf s) (Datatypes.S (index s))) ∧
    returned (kernel s) k' x y y' perms addr sz from target len.
Proof.
  intros len np Hb Ow A0 Sz A1 Ef Fd Ea. destruct (block_len_spec addr sz Sz) as (Al & L & Rm). fold len in Al, L, Rm.
  pose proof Hb as [Pa Sh U [At _] (T0 & _ & T1 & Lb)]. pose proof (Z.mod_pos_bound addr 4096 ltac:(done)) as Mo.
  unfold return_buffer. rewrite Fd. cbn [mbind option_bind].
  assert (Ef' : target_address found = from) by (by apply list_find_Some in Fd as (_ & (_ & _ & ?) & _)).
  rewrite Ef', Ea.
  destruct (copy_back (kernel s) x y (buffer found) target len perms addr sz from Hb Ow) as (ms & -> & St & Vb);
    [lia|lia|lia|unfold CITRA_PAGE_SIZE in *; lia|unfold CITRA_PAGE_SIZE in *; lia|].
  cbn [mbind option_bind]. set (k1 := (kernel s)<|kmem := ms|>).
  assert (Hb1 : holds_buffer k1 x y (buffer found) target len) by (by apply holds_buffer_same).
  destruct (unmap_guarded k1 x y (buffer found) target len Hb1) as (G1 & G2 & vm' & E & O' & Fr & V').
  assert (Eb : u32 (target + CITRA_PAGE_SIZE - CITRA_PAGE_SIZE) = target) by (rewrite uwrap_id; unfold in_range, MAX_ADDRESS in *; lia).
  assert (Eg : u32 (target + CITRA_PAGE_SIZE + np * CITRA_PAGE_SIZE) = target + len - CITRA_PAGE_SIZE).
  { unfold len, block_len, np in *. rewrite uwrap_id; unfold in_range, MAX_ADDRESS, CITRA_PAGE_SIZE in *; lia. }
  assert (El : u32 ((np + 2) * CITRA_PAGE_SIZE) = len).
  { change ((np + 2) * CITRA_PAGE_SIZE) with len. rewrite uwrap_id; unfold in_range; lia. }
  rewrite Eb, Eg, El.
  rewrite (par_receiver _ _ _ (hold_parties _ _ _ _ _ _ Hb1)). cbn [mbind option_bind]. rewrite G1, G2. cbn [mbind option_bind].
  rewrite bool_decide_eq_true_2 by done. rewrite E. cbn [mbind option_bind]. rewrite decide_True by done.
  exists (with_vm k1 (owner_process receiver) y vm'), (y<|vm_manager := vm'|>). split; [destruct s; reflexivity|].
  pose proof Fr as (Pt & _ & Ot). change (VmManager.page_table (vm_of k1 y)) with (VmManager.page_table (vm_manager y)) in *.
  constructor.
  - apply parties_with_vm; [apply (hold_parties _ _ _ _ _ _ Hb1)|done|done].
  - intros a. rewrite vm_of_with_vm. apply V'.
  - rewrite <- Vb. apply vbytes_ext. intros i Hi. change (kmem (with_vm k1 _ y vm')) with (memory vm').
    apply (frame_vbyte (vm_of k1 y)); [exact Fr|exact (par_tables _ _ _ Pa)].
Qed.
End transfer.

(** * The round trip of a mapped buffer *)

Lemma word_index {S} (s : Translation (S := S)) w : word s = Some w -> (index s < length (cmd_buf s))%nat.
Proof. apply lookup_lt_Some. Qed.

Lemma size_field descriptor : 0 <= ExtractValue 32 mb_size_field descriptor < 2 ^ 28.
Proof. assert (H : in_range 28 (ExtractValue 32 mb_size_field descriptor)) by (by apply (ExtractValue_range 32 mb_size_field)). exact H. Qed.

Lemma page_start_spec a : AlignDown32 a CITRA_PAGE_SIZE = a - a mod CITRA_PAGE_SIZE ∧
  a - AlignDown32 a CITRA_PAGE_SIZE = a mod CITRA_PAGE_SIZE.
Proof. unfold AlignDown32. lia. Qed.

Lemma aligned_offset target off : aligned target -> 0 <= off < CITRA_PAGE_SIZE ->
  (target + CITRA_PAGE_SIZE + off) mod CITRA_PAGE_SIZE = off.
Proof. unfold CITRA_PAGE_SIZE. intros [c ->] H. modlia. Qed.

Section round_trip.
Context {S : Type} `{IVS : IntervalSet S} `{quiet : QuietGPU} (sender receiver : IpcThread).
Implicit Types (x y : Process S Object) (s : Translation (S := S)).

(** C17: a buffer mapped by a request appears at the receiver, in the first place of the area for messages that takes it,
    with the sender's bytes between two guard pages that cannot be accessed, and nothing else of the receiver's space
    changes; the reply that returns it, whatever happened meanwhile as long as the receiver still holds the buffer and the
    sender its range, frees exactly the place, gives the sender the bytes the receiver left, unless the buffer is only
    read, and forgets the buffer. *)
Theorem mapped_buffer_returns s x y descriptor addr target :
  let sz := ExtractValue 32 mb_size_field descriptor in
  let perms := ExtractValue 32 mb_perms_field descriptor in
  let len := block_len addr sz in
  let block := BufferMem (blocks_made s) len in
  let where_ := target + CITRA_PAGE_SIZE + addr mod CITRA_PAGE_SIZE in
  let ctx := mk_MappedBufferContext perms sz addr where_ block in
  word s = Some addr -> 0 < sz -> 0 <= addr -> addr + sz <= 2 ^ 32 -> len <= IPC_MAPPING_SIZE ->
  parties sender receiver (kernel s) x y ->
  ready (kmem (kernel s)) (VmManager.page_table (vm_manager x)) addr sz ->
  first_fit (vm_of (kernel s) y) len target -> uncached (kmem (kernel s)) target (target + len) ->
  ∃ k1 y1,
    translate_mapped sender receiver false descriptor s = Some (mk_Translation k1 (contexts s ++ [ctx])
      (Datatypes.S (blocks_made s)) (<[index s := where_]> (cmd_buf s)) (Datatypes.S (index s))) ∧
    sent sender receiver (kernel s) k1 x y y1 (blocks_made s) addr sz target ∧
    holds_buffer sender receiver k1 x y1 block target len ∧
    ∀ s2 x2 y2 place, word s2 = Some where_ ->
      list_find (matches perms sz where_) (contexts s2) = Some (place, ctx) ->
      holds_buffer sender receiver (kernel s2) x2 y2 block target len -> own_range (kernel s2) x2 block addr sz ->
      ∃ k3 y3,
        translate_mapped receiver sender true descriptor s2 = Some (mk_Translation k3 (delete place (contexts s2))
          (blocks_made s2) (cmd_buf s2) (Datatypes.S (index s2))) ∧
        returned sender receiver (kernel s2) k3 x2 y2 y3 perms addr sz where_ target len.
Proof.
  intros sz perms len block where_ ctx W Sz A0 A1 Lm Pa Rd Fit Un. pose proof (size_field descriptor) as Sf. fold sz in Sf.
  destruct (page_start_spec addr) as [_ Eo]. pose proof (Z.mod_pos_bound addr CITRA_PAGE_SIZE ltac:(done)) as Mo.
  destruct (page_count_spec (addr mod CITRA_PAGE_SIZE) sz Mo ltac:(lia)) as [_ Np].
  destruct (send_buffer_spec sender receiver s x y perms addr sz target Pa A0 ltac:(lia) A1 Lm Rd Fit Un (word_index _ _ W))
    as (k1 & y1 & E1 & S1).
  destruct (block_len_spec addr sz ltac:(lia)) as (_ & L & _).
  assert (L0 : 0 < len) by (unfold len; lia).
  destruct (first_fit_free _ len target (par_ok _ _ _ _ _ Pa) L0 Fit) as (At & Lo & _).
  assert (Hi : target + len <= IPC_MAPPING_VADDR + IPC_MAPPING_SIZE) by (by destruct Fit as (? & ? & _ & _ & _ & ?)).
  assert (T1 : target + len <= MAX_ADDRESS) by (unfold IPC_MAPPING_VADDR, IPC_MAPPING_SIZE, MAX_ADDRESS in *; lia).
  exists k1, y1. split; [|split; [done|split]].
  - unfold translate_mapped. rewrite W. cbn [mbind option_bind]. fold sz perms. rewrite Eo, (proj2 (Z.eqb_neq sz 0)) by lia.
    rewrite (proj2 (Z.ltb_ge _ _)) by lia. exact E1.
  - apply (sent_holds sender receiver (kernel s) k1 x y y1); [lia|done|unfold IPC_MAPPING_VADDR in *; lia|done|done].
  - intros s2 x2 y2 place W2 Fd Hb Ow.
    destruct (return_buffer_spec sender receiver s2 x2 y2 perms addr sz target place where_ ctx Hb Ow A0 ltac:(lia) A1 eq_refl Fd eq_refl)
      as (k3 & y3 & E3 & R3).
    exists k3, y3. split; [|exact R3]. unfold translate_mapped. rewrite W2. cbn [mbind option_bind]. fold sz perms.
    destruct (page_start_spec where_) as [Es Ew]. unfold where_ in Es, Ew. rewrite (aligned_offset _ _ At Mo) in Es, Ew.
    fold where_ in Es, Ew. rewrite Ew, Es, (proj2 (Z.eqb_neq sz 0)) by lia. rewrite (proj2 (Z.ltb_ge _ _)) by lia.
    unfold where_ at 1. replace (target + CITRA_PAGE_SIZE + _ - _) with (target + CITRA_PAGE_SIZE) by lia. exact E3.
Qed.
End round_trip.
