(* ===== verification/IpcHandles.v ===== *)
(** The handles of a message: what the receiver gets for the handles the sender
    names, against the finite maps that the handle tables implement. *)

From S2P Require Import Prelude BitField Result HandleTable Ipc Memory IntervalSet MemoryRegion VmManager Process SvcMemory IpcTranslate.

(** * Room in a handle table *)

Section room.
Context {Obj : Type}.
Implicit Types (t : HandleTable Obj) (m : gmap Z Obj).

Definition is_free_slot (o : option Obj) : bool := match o with None => true | Some _ => false end.
Definition free_slots t : nat := length (List.filter is_free_slot (HandleTable.objects t)).

Lemma count_insert (l : list (option Obj)) i o : l !! i = Some None ->
  length (List.filter is_free_slot l) = Datatypes.S (length (List.filter is_free_slot (<[i := Some o]> l))).
Proof.
  intros E. rewrite <- (take_drop_middle l i None E) at 1. rewrite insert_take_drop by (by eapply lookup_lt_Some).
  rewrite !List.filter_app, !length_app. cbn. lia.
Qed.

Lemma count_pos (l : list (option Obj)) : (0 < length (List.filter is_free_slot l))%nat -> ∃ i, l !! i = Some None.
Proof.
  induction l as [|[o|] l IH]; cbn; [lia| |by exists 0%nat]. intros H. destruct (IH H) as [i Hi]. by exists (Datatypes.S i).
Qed.

(** While there is room a new handle is made, and there is one slot less. *)
Lemma Create_room t m o n : ht_refines t m -> free_slots t = Datatypes.S n ->
  ∃ h t', Create t o = (ResultSuccess, Some h, t') ∧ in_range 31 h ∧ m !! h = None ∧ ht_refines t' (<[h := o]> m) ∧
    free_slots t' = n.
Proof.
  intros R F. pose proof (Create_refines t m o R) as C. destruct (Create t o) as [[r [h|]] t'] eqn:E.
  - destruct C as (-> & Rh & N & R'). exists h, t'. split_and!; try done.
    destruct R as (Hok & _ & _). pose proof Hok as [Lo Lg Gn Gu (l & Hl & Nd & Fl)]. revert E. unfold Create, R_UNLESS.
    destruct (free_list_head _ _ _ _ Hl) as [[E ->]|(i & next & l' & E & -> & Ho & Hg & Hl')].
    + rewrite E. by rewrite Z.ltb_irrefl.
    + destruct (_ <? _); [|done]. intros [= _ <-]. unfold free_slots in *. cbn [HandleTable.objects].
      rewrite E, Nat2Z.id. pose proof (count_insert _ _ o Ho) as Cn. lia.
  - destruct C as (_ & _ & Full). destruct (count_pos (HandleTable.objects t)) as [i Hi]; [unfold free_slots in F; lia|].
    pose proof (proj1 R) as Hok. pose proof (lookup_lt_Some _ _ _ Hi) as L. rewrite (ok_objects _ Hok) in L.
    destruct (Full i L) as [o' Ho]. by rewrite Hi in Ho.
Qed.

(** The objects a word names, pseudo-handles apart: the top bit does not count. *)
Definition handle_bits (h : Z) : Z := h mod 2 ^ 31.
Lemma handle_bits_range h : in_range 31 (handle_bits h).
Proof. apply Z.mod_pos_bound. done. Qed.
Lemma handle_bits_cases h : in_range 32 h -> h = handle_bits h ∨ h = handle_bits h + 2 ^ 31.
Proof. unfold in_range, handle_bits. intros H. Z.div_mod_to_equations; lia. Qed.

Lemma slot_alias h : in_range 31 h -> GetSlot (h + 2 ^ 31) = GetSlot h ∧ GetGeneration (h + 2 ^ 31) = GetGeneration h.
Proof.
  intros Hh. unfold in_range in Hh. split.
  - unfold GetSlot. rewrite !shiftr_div by lia. unfold uwrap. modlia.
  - unfold GetGeneration. change 0x7FFF with (2 ^ 15 - 1). rewrite !land_mask by lia. unfold uwrap. modlia.
Qed.
Lemma bits_slot h : in_range 32 h -> GetSlot h = GetSlot (handle_bits h) ∧ GetGeneration h = GetGeneration (handle_bits h).
Proof.
  intros H. destruct (handle_bits_cases h H) as [->|E]; [|rewrite E at 1 3; apply slot_alias, handle_bits_range].
  unfold handle_bits. rewrite Z.mod_mod by done. done.
Qed.

Lemma GetGeneric_word t m h : ht_refines t m -> in_range 32 h -> h ≠ CurrentThread -> h ≠ CurrentProcess ->
  GetGeneric None None t h = m !! handle_bits h.
Proof.
  intros R H N1 N2. destruct (bits_slot h H) as [E1 E2]. rewrite <- (GetGeneric_refines None None t m _ R (handle_bits_range h)).
  unfold GetGeneric, IsValid. rewrite E1, E2, (proj2 (Z.eqb_neq h _) N1), (proj2 (Z.eqb_neq h _) N2).
  pose proof (handle_bits_range h) as Rh. unfold in_range in Rh.
  rewrite (proj2 (Z.eqb_neq (handle_bits h) CurrentThread)), (proj2 (Z.eqb_neq (handle_bits h) CurrentProcess)); [done|unfold CurrentThread, CurrentProcess; lia..].
Qed.

Lemma Close_word t m h : ht_refines t m -> in_range 32 h -> ht_refines (snd (Close t h)) (delete (handle_bits h) m).
Proof.
  intros R H. destruct (bits_slot h H) as [E1 E2]. pose proof (Close_refines t m _ R (handle_bits_range h)) as C.
  assert (E : Close t h = Close t (handle_bits h)) by (unfold Close, IsValid; by rewrite E1, E2). rewrite E.
  destruct (m !! handle_bits h) eqn:Em; [apply C|]. rewrite C. cbn. by rewrite delete_id.
Qed.
End room.

(** * Handing the objects over *)

Section handles.
Context {S : Type} `{IVS : IntervalSet S} `{gpu : GPU} (sender receiver : IpcThread).
Implicit Types (k : KernelMemory S Object) (x : Process S Object) (s : Translation (S := S)) (m : gmap Z Object).

(** The object a word of the sender names. *)
Definition named m (h : Z) : option Object :=
  if decide (h = CurrentThread) then Some (mk_Object TThread (thread_number sender))
  else if decide (h = CurrentProcess) then Some (mk_Object TProcess (owner_process sender))
  else if decide (h = 0) then None else m !! handle_bits h.

(** Moving takes the handle from the sender; the pseudo-handles stay. *)
Definition moved m (h : Z) : gmap Z Object :=
  if decide (h = CurrentThread ∨ h = CurrentProcess ∨ h = 0) then m else delete (handle_bits h) m.

(** Two kernels that differ in handle tables only. *)
Definition tables_only k k' : Prop :=
  ∃ ps, k' = k<|processes := ps|> ∧
    ∀ p, match processes k !! p with
         | Some x => ∃ t, ps !! p = Some (x<|Process.handle_table := t|>)
         | None => ps !! p = None
         end.
#[export] Instance tables_only_preorder : PreOrder tables_only.
Proof.
  split.
  - intros k. exists (processes k). split; [by destruct k|]. intros p. destruct (processes k !! p) as [x|]; [|done].
    exists (Process.handle_table x). by destruct x.
  - intros k1 k2 k3 (ps & -> & H1) (ps' & -> & H2). exists ps'. split; [by destruct k1|]. intros p. specialize (H1 p). specialize (H2 p).
    cbn in H2. destruct (processes k1 !! p) as [x|].
    + destruct H1 as [t E]. rewrite E in H2. destruct H2 as [t' E']. exists t'. rewrite E'. by destruct x.
    + by rewrite H1 in H2.
Qed.

Lemma table_put x t : Process.handle_table (x<|Process.handle_table := t|>) = t.
Proof. by destruct x. Qed.

(** Process [p] has a table that implements [m]. *)
Definition has_table k p m (n : nat) : Prop :=
  ∃ x, processes k !! p = Some x ∧ ht_refines (Process.handle_table x) m ∧ free_slots (Process.handle_table x) = n.

Lemma with_table_spec k p x t : processes k !! p = Some x ->
  ∃ k', with_table k p t = Some k' ∧ tables_only k k' ∧ processes k' !! p = Some (x<|Process.handle_table := t|>) ∧
    ∀ q, q ≠ p -> processes k' !! q = processes k !! q.
Proof.
  intros E. unfold with_table. rewrite E. cbn [mbind option_bind]. eexists. split; [done|]. unfold set_process. split; [|split].
  - exists (<[p := x<|Process.handle_table := t|>]> (processes k)). split; [done|]. intros q. destruct (decide (q = p)) as [->|N].
    + rewrite E. exists t. apply lookup_insert_eq.
    + rewrite lookup_insert_ne by done. destruct (processes k !! q) as [y|]; [|done]. exists (Process.handle_table y). by destruct y.
  - apply lookup_insert_eq.
  - intros q N. cbn. by rewrite lookup_insert_ne.
Qed.

Lemma take_object_spec k descriptor h m n : has_table k (owner_process sender) m n -> in_range 32 h ->
  ∃ k' n', take_object sender k descriptor h = Some (named m h, k') ∧ tables_only k k' ∧
    has_table k' (owner_process sender) (if decide (descriptor = DescriptorType_code MoveHandle) then moved m h else m) n' ∧
    ∀ q, q ≠ owner_process sender -> processes k' !! q = processes k !! q.
Proof.
  intros (x & E & R & F) H. unfold take_object, named, moved.
  assert (Kept : tables_only k k ∧ has_table k (owner_process sender) m n ∧
    ∀ q, q ≠ owner_process sender -> processes k !! q = processes k !! q).
  { split; [done|]. split; [by exists x|done]. }
  destruct (Z.eqb_spec h CurrentThread) as [->|N1]; [|destruct (Z.eqb_spec h CurrentProcess) as [->|N2]; [|destruct (Z.eqb_spec h 0) as [->|N3]]].
  - exists k, n. split; [done|]. destruct (decide (_ = _)); apply Kept.
  - exists k, n. split; [done|]. destruct (decide (_ = _)); apply Kept.
  - exists k, n. split; [done|]. destruct (decide (_ = _)); apply Kept.
  - cbn [negb]. rewrite !decide_False by tauto. rewrite E. cbn [mbind option_bind].
    rewrite (GetGeneric_word _ m h R H N1 N2). destruct (Z.eqb_spec descriptor (DescriptorType_code MoveHandle)).
    + rewrite decide_True by done. destruct (with_table_spec k _ x (snd (Close (Process.handle_table x) h)) E) as (k' & -> & T & L & O).
      exists k'. eexists. split; [done|]. split; [done|]. split; [|done]. eexists. split; [exact L|].
      split; [|reflexivity].
      rewrite table_put, (decide_False (P := _ ∨ _)) by tauto. by apply Close_word.
    + rewrite decide_False by done. by exists k, n.
Qed.
(** What the receiver gets for each word: nothing, or a handle it did not have. *)
Definition handed m (mr mr' : gmap Z Object) (h out : Z) : Prop :=
  match named m h with
  | None => out = 0
  | Some o => mr !! out = None ∧ mr' !! out = Some o
  end.

Lemma put_words s w : (index s < length (cmd_buf s))%nat ->
  put s w = Some (s<|cmd_buf := <[index s := w]> (cmd_buf s)|><|index := Datatypes.S (index s)|>).
Proof. intros H. unfold put. by rewrite decide_True. Qed.

(** One word of the message. *)
Lemma translate_handle s descriptor h m (mr : gmap Z Object) n n' : owner_process sender ≠ owner_process receiver -> in_range 32 h ->
  word s = Some h -> has_table (kernel s) (owner_process sender) m n ->
  has_table (kernel s) (owner_process receiver) mr (Datatypes.S n') ->
  ∃ k' out (mr' : gmap Z Object) n2 n3,
    translate_handles sender receiver 1 descriptor s = Some (s<|kernel := k'|><|cmd_buf := <[index s := out]> (cmd_buf s)|>
      <|index := Datatypes.S (index s)|>) ∧ tables_only (kernel s) k' ∧
    has_table k' (owner_process sender) (if decide (descriptor = DescriptorType_code MoveHandle) then moved m h else m) n2 ∧
    has_table k' (owner_process receiver) mr' n3 ∧ (n' <= n3)%nat ∧ mr ⊆ mr' ∧ handed m mr mr' h out.
Proof.
  intros N H W Hm Hr. cbn [translate_handles]. rewrite W. cbn [mbind option_bind].
  destruct (take_object_spec (kernel s) descriptor h m n Hm H) as (k1 & n1 & -> & T1 & M1 & O1). cbn [mbind option_bind].
  destruct Hr as (y & Ey & Ry & Fy). rewrite <- O1 in Ey by done. unfold handed. destruct (named m h) as [o|].
  - cbn [with_kernel kernel]. change (kernel (with_kernel s k1)) with k1. rewrite Ey. cbn [mbind option_bind].
    destruct (Create_room (Process.handle_table y) mr o n' Ry Fy) as (out & t' & -> & Ro & No & Rt & Ft). cbn [mbind option_bind].
    destruct (with_table_spec k1 _ y t' Ey) as (k2 & E2 & T2 & L2 & O2). cbn. rewrite E2. cbn [mbind option_bind].
    rewrite put_words by (by eapply lookup_lt_Some). cbn [mbind option_bind]. exists k2, out, (<[out := o]> mr), n1, n'.
    split; [by destruct s|]. split; [by etrans|]. split; [|split; [|split; [lia|split; [by apply insert_subseteq|split; [done|apply lookup_insert_eq]]]]].
    + destruct M1 as (x & Ex & Rx). exists x. by rewrite O2.
    + eexists. split; [exact L2|]. by rewrite table_put.
  - rewrite put_words by (by eapply lookup_lt_Some). cbn [mbind option_bind]. exists k1, 0, mr, n1, (Datatypes.S n').
    split; [by destruct s|]. split; [done|]. split; [done|]. split; [by exists y|]. split; [lia|done].
Qed.
Lemma translate_handles_step s n descriptor : translate_handles sender receiver (Datatypes.S n) descriptor s =
  s ← translate_handles sender receiver 1 descriptor s; translate_handles sender receiver n descriptor s.
Proof.
  cbn [translate_handles]. destruct (word s) as [h|]; [|done]. cbn [mbind option_bind].
  destruct (take_object _ _ _ _) as [[o k]|]; [|done]. cbn [mbind option_bind].
  by destruct (match o with Some _ => _ | None => _ end).
Qed.

Lemma handed_mono m (mr mr1 mr2 mr' : gmap Z Object) h out : mr ⊆ mr1 -> mr2 ⊆ mr' -> handed m mr1 mr2 h out -> handed m mr mr' h out.
Proof.
  intros S1 S2. unfold handed. destruct (named m h); [|done]. intros [A B].
  split; [by eapply lookup_weaken_None|by eapply lookup_weaken].
Qed.

(** Any number of words, when they are copied. *)
Lemma translate_copies descriptor m n hs : ∀ k ctx made buf i (mr : gmap Z Object) nr,
  owner_process sender ≠ owner_process receiver -> descriptor ≠ DescriptorType_code MoveHandle ->
  Forall (in_range 32) hs -> take (length hs) (drop i buf) = hs ->
  has_table k (owner_process sender) m n -> has_table k (owner_process receiver) mr nr -> (length hs <= nr)%nat ->
  ∃ k' outs (mr' : gmap Z Object) n2 n3,
    translate_handles sender receiver (length hs) descriptor (mk_Translation k ctx made buf i) =
      Some (mk_Translation k' ctx made (list_inserts i outs buf) (i + length hs)) ∧ tables_only k k' ∧
    has_table k' (owner_process sender) m n2 ∧ has_table k' (owner_process receiver) mr' n3 ∧ mr ⊆ mr' ∧
    Forall2 (handed m mr mr') hs outs.
Proof.
  revert n. induction hs as [|h hs IH]; intros n k ctx made buf i mr nr N Nd R E Hm Hr L.
  - exists k, [], mr, n, nr. cbn. rewrite Nat.add_0_r. split_and!; done.
  - apply Forall_cons in R as [Rh R]. destruct nr as [|nr]; [simpl in L; lia|].
    assert (W : buf !! i = Some h).
    { rewrite <- (Nat.add_0_r i), <- lookup_drop. destruct (drop i buf); simpl in E; [done|]. by injection E as -> _. }
    assert (E' : take (length hs) (drop (Datatypes.S i) buf) = hs).
    { rewrite (drop_S _ h _ W) in E. simpl in E. by injection E. }
    destruct (translate_handle (mk_Translation k ctx made buf i) descriptor h m mr n nr N Rh W Hm Hr)
      as (k1 & out & mr1 & n2 & n3 & E1 & T1 & M1 & R1 & L1 & S1 & D1). cbn in T1, M1, R1. rewrite decide_False in M1 by done.
    change (translate_handles sender receiver 1 descriptor (mk_Translation k ctx made buf i) =
      Some (mk_Translation k1 ctx made (<[i := out]> buf) (Datatypes.S i))) in E1.
    destruct (IH n2 k1 ctx made (<[i := out]> buf) (Datatypes.S i) mr1 n3 N Nd R) as (k2 & outs & mr2 & n4 & n5 & E2 & T2 & M2 & R2 & S2 & D2);
      [by rewrite drop_insert_lt by lia|done|done|simpl in L; lia|].
    exists k2, (out :: outs), mr2, n4, n5. cbn [length]. rewrite translate_handles_step, E1. cbn [mbind option_bind].
    rewrite E2, <- list_insert_inserts_lt, Nat.add_succ_r by lia.
    split; [done|]. split; [by etrans|]. split; [done|]. split; [done|]. split; [by etrans|].
    constructor; [by apply (handed_mono _ _ mr mr1)|]. apply (Forall2_impl _ _ _ _ D2). intros a b. by apply handed_mono.
Qed.
(** C18: the handles of a message. A descriptor that counts more words than the command has ends the translation with
    CommandTooLarge. Otherwise each of the words it counts becomes 0 when it names nothing, and else a handle the
    receiver did not have, which names the sender's object (its thread and process for the pseudo-handles); the
    receiver keeps what it had, and nothing but the two handle tables changes. The sender loses a handle that is
    moved, which happens for the descriptor of a single moved handle only, and keeps the handles that are copied. *)
Theorem message_handles reply dst_address command_size s descriptor m (mr : gmap Z Object) n nr hs :
  let count := Z.to_nat (HandleNumberFromDesc descriptor) in
  word s = Some descriptor -> in_range 32 descriptor ->
  GetDescriptorType descriptor = CopyHandle ∨ GetDescriptorType descriptor = MoveHandle ->
  (((command_size < Datatypes.S (index s) + count)%nat ->
    translate_step sender receiver reply dst_address command_size s =
      Some (Some ResultCommandTooLarge, s<|index := Datatypes.S (index s)|>)) ∧
   ((Datatypes.S (index s) + count <= command_size)%nat ->
    owner_process sender ≠ owner_process receiver -> has_table (kernel s) (owner_process sender) m n ->
    has_table (kernel s) (owner_process receiver) mr nr -> (count <= nr)%nat ->
    hs = take count (drop (Datatypes.S (index s)) (cmd_buf s)) -> length hs = count -> Forall (in_range 32) hs ->
    ∃ k' outs (mr' : gmap Z Object) n2 n3,
      translate_step sender receiver reply dst_address command_size s = Some (None,
        mk_Translation k' (contexts s) (blocks_made s) (list_inserts (Datatypes.S (index s)) outs (cmd_buf s))
          (Datatypes.S (index s) + count)) ∧
      tables_only (kernel s) k' ∧
      has_table k' (owner_process sender) (if decide (descriptor = DescriptorType_code MoveHandle) then foldl moved m hs else m) n2 ∧
      has_table k' (owner_process receiver) mr' n3 ∧ mr ⊆ mr' ∧ Forall2 (handed m mr mr') hs outs)).
Proof.
  intros count W Rd Ty. assert (Hn : 1 <= HandleNumberFromDesc descriptor).
  { unfold HandleNumberFromDesc, in_range in *. rewrite shiftr_div by done. modlia. }
  assert (E : translate_step sender receiver reply dst_address command_size s =
    let s := s<|index := Datatypes.S (index s)|> in
    if Z.of_nat (index s) + HandleNumberFromDesc descriptor >? Z.of_nat command_size
    then Some (Some ResultCommandTooLarge, s) else (None,.) <$> translate_handles sender receiver count descriptor s).
  { unfold translate_step. rewrite W. cbn [mbind option_bind]. by destruct Ty as [-> | ->]. }
  rewrite E. destruct s as [k ctx made buf i]. cbv zeta. cbn [index kernel contexts blocks_made cmd_buf] in *.
  change (index _) with (Datatypes.S i). split.
  - intros L. rewrite Z.gtb_ltb, (proj2 (Z.ltb_lt _ _)); [done|]. unfold count in L. lia.
  - intros L N Hm Hr Lr -> Lh Rh. rewrite Z.gtb_ltb, (proj2 (Z.ltb_ge _ _)) by (unfold count in L; lia).
    set (hs := take count (drop (Datatypes.S i) buf)) in *. rewrite <- Lh in L, Lr |- *.
    assert (Eh : take (length hs) (drop (Datatypes.S i) buf) = hs) by by rewrite Lh.
    change ((mk_Translation k ctx made buf i)<|index := Datatypes.S i|>) with (mk_Translation k ctx made buf (Datatypes.S i)).
    destruct (decide (descriptor = DescriptorType_code MoveHandle)) as [Ed|Ed].
    + assert (E1 : count = 1%nat) by (unfold count; by rewrite Ed). rewrite E1 in Lh. destruct hs as [|h [|]]; try done.
      apply Forall_cons in Rh as [Rh _]. destruct nr as [|nr]; [simpl in Lr; lia|].
      assert (Wh : buf !! Datatypes.S i = Some h).
      { rewrite <- (Nat.add_0_r (Datatypes.S i)), <- lookup_drop. destruct (drop _ buf); simpl in Eh; [done|]. by injection Eh as ->. }
      destruct (translate_handle (mk_Translation k ctx made buf (Datatypes.S i)) descriptor h m mr n nr N Rh Wh Hm Hr)
        as (k' & out & mr' & n2 & n3 & E3 & T & M & R & _ & Su & D). rewrite decide_True in M by done.
      exists k', [out], mr', n2, n3. cbn [length]. rewrite E3, Nat.add_1_r. split_and!; try done. by constructor.
    + destruct (translate_copies descriptor m n hs k ctx made buf (Datatypes.S i) mr nr N Ed Rh Eh Hm Hr Lr)
        as (k' & outs & mr' & n2 & n3 & E3 & X). exists k', outs, mr', n2, n3. by rewrite E3.
Qed.
End handles.
