(* ===== verification/IpcExamples.v ===== *)
(** A request with a mapped buffer between two processes, and its reply: the theorems
    of [IpcTransfer.v] and [IpcHandles.v] on the kernel of [ProcessExamples.v] with a second process. *)

From S2P Require Import Prelude BitField Result ResourceLimit HandleTable Ipc Memory MemoryFacts MemoryExamples IntervalSet MemoryRegion VmManager VmFacts VmCorrect VmExamples Process ProcessFacts HeapFacts ProcessExamples SvcMemory IpcTranslate IpcTransfer IpcHandles.

(** The sender sees the second table of [two_spaces]: four bytes across a page the
    rasterizer keeps and an ordinary one. *)
Definition sender_memory : MemorySystem := two_spaces<|bytes := put_at ∅ FCRAM 0x5ffe [5; 6; 7; 8]|>.
Definition receiving_process : Process IntervalList Object := some_process Object.
Definition sending_process : Process IntervalList Object :=
  receiving_process<|vm_manager := demo_vm<|VmManager.page_table := 1%nat|>|>.
Definition two_processes : KernelMemory IntervalList Object :=
  (some_kernel Object)<|kmem := sender_memory|>
    <|processes := <[1%nat := sending_process]> {[0%nat := receiving_process]}|>.

Definition demo_sender : IpcThread := mk_IpcThread 11 1.
Definition demo_receiver : IpcThread := mk_IpcThread 10 0.
(** Four bytes to read and write. *)
Definition four_bytes : Z := 0x4e.
Definition demo_request : Translation :=
  mk_Translation two_processes [] 0 [0x00010002; four_bytes; 0x14005ffe] 2.

Lemma two_processes_parties : parties demo_sender demo_receiver two_processes sending_process receiving_process.
Proof.
  split; [apply lookup_insert_eq|reflexivity|done|]. destruct demo_ok as [T Sm P U]. by split.
Qed.

Lemma sender_range len : own_range two_processes sending_process (BufferMem 0 len) 0x14005ffe 4.
Proof.
  split; [exact linear_ready|exact linear_own|]. intros a o Ha.
  change (host_at two_spaces 1 a ≠ Some (BufferMem 0 len, o)). by rewrite linear_host.
Qed.

Lemma demo_first_fit len : 0 < len <= IPC_MAPPING_SIZE -> len = 0x4000 -> first_fit (vm_of two_processes receiving_process) len 0x04000000.
Proof. intros _ ->. exists 0%nat, (free_area 0 0x8000000). repeat split; vm_compute; congruence. Qed.

(** The receiver sees [5; 6; 7; 8] at 0x04001ffe. The reply, right after the request,
    leaves its space as it was, and the sender's bytes. *)
Lemma mapped_buffer_returns_witness : ∃ s1 s3 y1 y3,
  translate_mapped demo_sender demo_receiver false four_bytes demo_request = Some s1 ∧
  cmd_buf s1 = [0x00010002; four_bytes; 0x04001ffe] ∧
  vbytes (kmem (kernel s1)) (VmManager.page_table (vm_manager y1)) 0x04001ffe 4 = [5; 6; 7; 8] ∧
  at_state <$> view (vm_of (kernel s1) y1) 0x04000000 = Some Reserved ∧
  translate_mapped demo_receiver demo_sender true four_bytes (s1<|index := 2%nat|>) = Some s3 ∧
  contexts s3 = [] ∧
  view (vm_of (kernel s3) y3) 0x04001ffe = Some free_attr ∧
  vbytes (kmem (kernel s3)) 1 0x14005ffe 4 = [5; 6; 7; 8].
Proof.
  destruct (mapped_buffer_returns demo_sender demo_receiver demo_request sending_process receiving_process four_bytes 0x14005ffe 0x04000000)
    as (k1 & y1 & E1 & S1 & Hb & R); [reflexivity|reflexivity|lia|by_decide|by_decide|exact two_processes_parties|exact linear_ready| | |].
  - apply demo_first_fit; [split; by_decide|reflexivity].
  - intros a _. unfold IsCached. destruct (marker_at a) as [p|]; [|done]. by apply bool_decide_eq_false.
  - pose proof (sent_range _ _ _ _ _ _ _ _ _ _ _ S1 _ _ _ (sender_range 0x4000)) as Ow.
    pose proof (sent_view _ _ _ _ _ _ _ _ _ _ _ S1 0x04000000) as V1.
    destruct (R (mk_Translation k1 [mk_MappedBufferContext 3 4 0x14005ffe 0x04001ffe (BufferMem 0 0x4000)] 1
        [0x00010002; four_bytes; 0x04001ffe] 2) sending_process y1 0%nat eq_refl eq_refl Hb Ow) as (k3 & y3 & E3 & R3).
    eexists _, _, y1, y3. split; [exact E1|]. split; [reflexivity|].
    split; [etrans; [exact (sent_bytes _ _ _ _ _ _ _ _ _ _ _ S1)|vm_compute; reflexivity]|].
    split; [apply (f_equal (fmap at_state)) in V1; exact V1|].
    split; [exact E3|]. split; [reflexivity|]. split; [exact (ret_view _ _ _ _ _ _ _ _ _ _ _ _ _ R3 0x04001ffe)|].
    etrans; [exact (ret_bytes _ _ _ _ _ _ _ _ _ _ _ _ _ R3)|].
    etrans; [exact (sent_bytes _ _ _ _ _ _ _ _ _ _ _ S1)|vm_compute; reflexivity].
Defined.

(** * Handles *)

(** The sender has one object; it copies its handle, its thread and a handle that
    names nothing. *)
Definition some_object : Object := mk_Object TEvent 5.
Definition one_handle : HandleTable Object := (Create (new_HandleTable Object) some_object).2.
Definition handle_kernel : KernelMemory IntervalList Object :=
  set_process two_processes 1 (sending_process<|Process.handle_table := one_handle|>).
Definition copy_three : Z := 0x08000000.
Definition demo_handles : Translation :=
  mk_Translation handle_kernel [] 0 [0x00010004; copy_three; 1; CurrentThread; 7] 1.

Lemma one_handle_refines : ht_refines one_handle {[1 := some_object]}.
Proof.
  pose proof (Create_refines (new_HandleTable Object) ∅ some_object new_HandleTable_refines) as C. unfold one_handle.
  assert (E : (Create (new_HandleTable Object) some_object).1.2 = Some 1) by (vm_compute; reflexivity).
  destruct (Create _ _) as [[r h] t]. cbn in E. subst h. apply C.
Qed.
Lemma sender_table : has_table handle_kernel 1 {[1 := some_object]} (free_slots one_handle).
Proof. eexists. split; [apply lookup_insert_eq|]. split; [apply one_handle_refines|reflexivity]. Qed.
Lemma receiver_table : has_table handle_kernel 0 ∅ 4096.
Proof. eexists. split; [reflexivity|]. split; [apply new_HandleTable_refines|vm_compute; reflexivity]. Qed.

Lemma message_handles_witness :
  translate_step demo_sender demo_receiver false 0 4 demo_handles = Some (Some ResultCommandTooLarge, demo_handles<|index := 2%nat|>) ∧
  ∃ s1 (mr : gmap Z Object) n a b,
    translate_step demo_sender demo_receiver false 0 5 demo_handles = Some (None, s1) ∧
    has_table (kernel s1) 0 mr n ∧ cmd_buf s1 = [0x00010004; copy_three; a; b; 0] ∧
    mr !! a = Some some_object ∧ mr !! b = Some (mk_Object TThread 11).
Proof.
  split.
  - apply (message_handles demo_sender demo_receiver false 0 4 demo_handles copy_three ∅ ∅ 0 0 []); [reflexivity|by_decide|by left|].
    vm_compute. lia.
  - destruct (message_handles demo_sender demo_receiver false 0 5 demo_handles copy_three {[1 := some_object]} ∅ (free_slots one_handle) 4096 [1; CurrentThread; 7])
      as [_ H]; [reflexivity|by_decide|by left|].
    destruct H as (k' & outs & mr & n2 & n3 & E & _ & _ & R & _ & D);
      [vm_compute; lia|done|apply sender_table|apply receiver_table|vm_compute; lia|reflexivity|reflexivity|repeat constructor; by_decide|].
    destruct outs as [|a [|b [|c [|]]]]; try by (apply Forall2_length in D).
    rewrite !Forall2_cons in D. destruct D as ((_ & A) & (_ & B) & C & _).
    eexists _, mr, n3, a, b. split; [exact E|]. split; [exact R|]. split; [|split; [exact A|exact B]].
    cbn. do 5 f_equal. exact C.
Defined.
