(* ===== verification/ThreadQueueList.v ===== *)
(** The ready queue: [ThreadQueueList] of [common/thread_queue_list.h].

    Each priority level has a double-ended queue; the levels that have ever
    been used are linked in increasing order, so that the search for the best
    thread skips the others.  The contract is a stable priority queue: the
    concatenation of the levels. *)

From stdpp Require Import sorting.
From S2P Require Import Prelude.

Section queue.
Context {T : Type} `{!EqDecision T} (N : nat).

(** [Queue*]: the tag of a level that has never been used, null, or the address
    of a level. *)
(* src: thread_queue_list.h | static Queue* UnlinkedTag() { | UnlinkedTag *)
Inductive link := UnlinkedTag | Null | To (i : nat).
#[export] Instance link_eq_dec : EqDecision link.
Proof. solve_decision. Defined.

(* src: thread_queue_list.h | struct Queue { *)
Record Queue := mk_Queue { next_nonempty : link; data : list T }.
Definition empty_queue : Queue := mk_Queue UnlinkedTag [].
#[export] Instance Queue_inhabited : Inhabited Queue := populate empty_queue.

(* src: thread_queue_list.h | Queue* first; | ThreadQueueList | ..std::array<Queue, NUM_QUEUES> queues; *)
Record ThreadQueueList := mk_ThreadQueueList {
  first : link; queues : list Queue (* NUM_QUEUES *)
}.
Implicit Types q : ThreadQueueList.

(* src: thread_queue_list.h | ThreadQueueList() { | ThreadQueueList *)
Definition new_ThreadQueueList : ThreadQueueList :=
  mk_ThreadQueueList Null (replicate N empty_queue).

(** [queues[i]] and its update. *)
Definition queue_at q (i : nat) : Queue := queues q !!! i.
Definition set_queue q (i : nat) (x : Queue) : ThreadQueueList :=
  mk_ThreadQueueList (first q) (<[i := x]> (queues q)).

(** The level that holds [uid], or [-1] as an unsigned integer. *)
(* src: thread_queue_list.h | [[nodiscard]] Priority contains(const T& uid) const { | contains *)
Definition contains q (uid : T) : Z :=
  match list_find (fun x => uid ∈ data x) (queues q) with
  | Some (i, _) => Z.of_nat i
  | None => 2 ^ 32 - 1
  end.

(** The search of [get_first] and [pop_first]: the first level of the chain
    that is not empty.  The chain has at most [N] links; the result is [None]
    when following it goes through an invalid pointer or does not end. *)
(* src: thread_queue_list.h | while (cur != nullptr) { #1 | get_first *)
Fixpoint find_first (fuel : nat) q (cur : link) : option (option nat) :=
  match cur with
  | Null => Some None
  | UnlinkedTag => None
  | To i =>
      match data (queue_at q i) with
      | _ :: _ => Some (Some i)
      | [] => match fuel with
              | O => None
              | Datatypes.S fuel => find_first fuel q (next_nonempty (queue_at q i))
              end
      end
  end.

(* src: thread_queue_list.h | [[nodiscard]] T get_first() const { | get_first *)
Definition get_first q : option (option T) :=
  i ← find_first N q (first q);
  Some (i ← i; head (data (queue_at q i))).

(** Taking the front element of a level. *)
(* src: thread_queue_list.h | auto tmp = std::move(cur->data.front()); #1 | pop_first | +3 *)
Definition pop_level q (i : nat) : option T * ThreadQueueList :=
  match data (queue_at q i) with
  | [] => (None, q)
  | x :: xs => (Some x, set_queue q i (mk_Queue (next_nonempty (queue_at q i)) xs))
  end.

(* src: thread_queue_list.h | T pop_first() { *)
Definition pop_first q : option (option T * ThreadQueueList) :=
  i ← find_first N q (first q);
  Some (match i with None => (None, q) | Some i => pop_level q i end).

(** The search stops at the level [priority]; the comparison of addresses holds
    for null, which the loop then dereferences: [None]. *)
(* src: thread_queue_list.h | while (cur < stop) { | pop_first_better *)
Fixpoint find_better (fuel : nat) q (priority : nat) (cur : link) : option (option nat) :=
  match cur with
  | Null | UnlinkedTag => None
  | To i =>
      if (i <? priority)%nat then
        match data (queue_at q i) with
        | _ :: _ => Some (Some i)
        | [] => match fuel with
                | O => None
                | Datatypes.S fuel => find_better fuel q priority (next_nonempty (queue_at q i))
                end
        end
      else Some None
  end.

(* src: thread_queue_list.h | T pop_first_better(Priority priority) { *)
Definition pop_first_better q (priority : nat) : option (option T * ThreadQueueList) :=
  i ← find_better N q priority (first q);
  Some (match i with None => (None, q) | Some i => pop_level q i end).

(* src: thread_queue_list.h | void push_front(Priority priority, const T& thread_id) { *)
Definition push_front q (priority : nat) (thread_id : T) : ThreadQueueList :=
  let cur := queue_at q priority in
  set_queue q priority (mk_Queue (next_nonempty cur) (thread_id :: data cur)).

(* src: thread_queue_list.h | void push_back(Priority priority, const T& thread_id) { *)
Definition push_back q (priority : nat) (thread_id : T) : ThreadQueueList :=
  let cur := queue_at q priority in
  set_queue q priority (mk_Queue (next_nonempty cur) (data cur ++ [thread_id])).

(* src: thread_queue_list.h | void remove(Priority priority, const T& thread_id) { *)
Definition remove q (priority : nat) (thread_id : T) : ThreadQueueList :=
  let cur := queue_at q priority in
  set_queue q priority
    (mk_Queue (next_nonempty cur) (filter (fun x => x ≠ thread_id) (data cur))).

(* src: thread_queue_list.h | void rotate(Priority priority) { *)
Definition rotate q (priority : nat) : ThreadQueueList :=
  let cur := queue_at q priority in
  match data cur with
  | x :: ((_ :: _) as xs) => set_queue q priority (mk_Queue (next_nonempty cur) (xs ++ [x]))
  | _ => q
  end.

(* src: thread_queue_list.h | void clear() { *)
Definition clear q : ThreadQueueList := new_ThreadQueueList.

(* src: thread_queue_list.h | [[nodiscard]] bool empty(Priority priority) const { | empty *)
Definition empty q (priority : nat) : bool :=
  match data (queue_at q priority) with [] => true | _ => false end.

(** The nearest used level below [n]. *)
(* src: thread_queue_list.h | for (int i = priority - 1; i >= 0; --i) { | link *)
Fixpoint linked_below q (n : nat) : option nat :=
  match n with
  | O => None
  | Datatypes.S i =>
      if decide (next_nonempty (queue_at q i) = UnlinkedTag) then linked_below q i else Some i
  end.

(* src: thread_queue_list.h | void link(Priority priority) { | link *)
Definition do_link q (priority : nat) : ThreadQueueList :=
  let cur := queue_at q priority in
  match linked_below q priority with
  | Some i =>
      let q := set_queue q priority (mk_Queue (next_nonempty (queue_at q i)) (data cur)) in
      set_queue q i (mk_Queue (To priority) (data (queue_at q i)))
  | None =>
      let q := set_queue q priority (mk_Queue (first q) (data cur)) in
      mk_ThreadQueueList (To priority) (queues q)
  end.

(* src: thread_queue_list.h | void prepare(Priority priority) { *)
Definition prepare q (priority : nat) : ThreadQueueList :=
  if decide (next_nonempty (queue_at q priority) = UnlinkedTag)
  then do_link q priority else q.

(* src: thread_queue_list.h | void move(const T& thread_id, Priority old_priority, Priority new_priority) { *)
Definition move q (thread_id : T) (old_priority new_priority : nat) : ThreadQueueList :=
  let q := remove q old_priority thread_id in
  let q := prepare q new_priority in
  push_back q new_priority thread_id.

(** * The chain of used levels *)

(** [chain q cur l]: following the links from [cur] visits [l] and ends. *)
Inductive chain q : link -> list nat -> Prop :=
| chain_nil : chain q Null []
| chain_cons i l :
    (i < N)%nat -> chain q (next_nonempty (queue_at q i)) l -> chain q (To i) (i :: l).

(** The levels of [q] that are linked, in increasing order. *)
Definition linked q (i : nat) : Prop := next_nonempty (queue_at q i) ≠ UnlinkedTag.

Record queue_ok q : Prop := {
  ok_length : length (queues q) = N;
  ok_chain : ∃ l, chain q (first q) l ∧ StronglySorted lt l ∧
    ∀ i, (i < N)%nat -> i ∈ l <-> linked q i;
  ok_data : ∀ i, (i < N)%nat -> ~ linked q i -> data (queue_at q i) = []
}.

(** The abstract queue: the elements in the order they are served. *)
Definition levels q : list (list T) := data <$> queues q.
Definition contents q : list T := concat (levels q).
End queue.
Arguments ThreadQueueList : clear implicits.
Arguments Queue : clear implicits.

(** * Properties *)

Section queue_facts.
Context {T : Type} `{!EqDecision T} {N : nat}.
Implicit Types q : ThreadQueueList T.

(** The levels as lists. *)
Lemma levels_lookup q i : queue_ok N q -> (i < N)%nat ->
  levels q !! i = Some (data (queue_at q i)).
Proof.
  intros [L _ _] Hi. unfold levels, queue_at. rewrite list_lookup_fmap.
  destruct (lookup_lt_is_Some_2 (queues q) i ltac:(lia)) as [x Hx].
  by rewrite Hx, (list_lookup_total_correct _ _ _ Hx).
Qed.

Lemma queue_at_set q i j x : length (queues q) = N -> (i < N)%nat ->
  queue_at (set_queue q i x) j = if decide (i = j) then x else queue_at q j.
Proof.
  intros L Hi. unfold queue_at, set_queue. cbn [queues].
  destruct (decide (i = j)) as [<-|].
  - apply list_lookup_total_insert_eq. lia.
  - by apply list_lookup_total_insert_ne.
Qed.

Lemma levels_set q i x : levels (set_queue q i x) = <[i := data x]> (levels q).
Proof. unfold levels, set_queue. cbn [queues]. apply list_fmap_insert. Qed.

Lemma chain_frame q q' cur l :
  (∀ i, i ∈ l -> next_nonempty (queue_at q' i) = next_nonempty (queue_at q i)) ->
  chain N q cur l -> chain N q' cur l.
Proof.
  intros H C. induction C as [|i l Hi C IH]; constructor; [done|].
  rewrite H by (by left). apply IH. intros j Hj. apply H. by right.
Qed.

(** Changing the data of a linked level keeps the structure. *)
Lemma queue_ok_set_data q i xs :
  queue_ok N q -> (i < N)%nat -> linked q i ∨ xs = [] ->
  let q' := set_queue q i (mk_Queue (next_nonempty (queue_at q i)) xs) in
  queue_ok N q' ∧ ∀ j, linked q' j <-> linked q j.
Proof.
  intros Hq Hi Hx q'. pose proof Hq as [L (l & C & S & M) D].
  assert (E : ∀ j, next_nonempty (queue_at q' j) = next_nonempty (queue_at q j)).
  { intros j. unfold q'. rewrite queue_at_set by done. by destruct (decide (i = j)) as [<-|]. }
  assert (EL : ∀ j, linked q' j <-> linked q j) by (intros; unfold linked; by rewrite E).
  split; [|done]. constructor.
  - unfold q', set_queue. cbn [queues]. by rewrite length_insert.
  - exists l. split; [eapply chain_frame; [|exact C]; intros; apply E|]. split; [done|]. intros j Hj. by rewrite EL, M.
  - intros j Hj Nj. rewrite EL in Nj. unfold q'. rewrite queue_at_set by done.
    destruct (decide (i = j)) as [<-|]; [|by apply D]. by destruct Hx.
Qed.

(** Splitting a sorted list around a new element. *)
Lemma sorted_split (p : nat) l : StronglySorted lt l -> p ∉ l ->
  ∃ l1 l2, l = l1 ++ l2 ∧ Forall (fun i => i < p)%nat l1 ∧ Forall (fun i => p < i)%nat l2.
Proof.
  induction 1 as [|i l S IH F]; intros Hp; [by exists [], []|].
  apply not_elem_of_cons in Hp as [Hp1 Hp2]. destruct (IH Hp2) as (l1 & l2 & -> & F1 & F2).
  destruct (Nat.lt_ge_cases i p).
  - exists (i :: l1), l2. split; [done|]. split; [by constructor|done].
  - exists [], (i :: l1 ++ l2). split; [done|]. split; [done|]. constructor; [lia|].
    eapply Forall_impl; [exact F|]. simpl. lia.
Qed.

Lemma linked_below_spec q n :
  match linked_below q n with
  | Some i => (i < n)%nat ∧ linked q i ∧ ∀ j, (i < j < n)%nat -> ~ linked q j
  | None => ∀ j, (j < n)%nat -> ~ linked q j
  end.
Proof.
  induction n as [|n IH]; cbn [linked_below]; [lia|].
  destruct (decide (next_nonempty (queue_at q n) = UnlinkedTag)) as [E|E].
  - destruct (linked_below q n) as [i|].
    + destruct IH as (H1 & H2 & H3). split; [lia|]. split; [done|]. intros j Hj.
      destruct (decide (j = n)) as [->|]; [by intros H|]. apply H3. lia.
    + intros j Hj. destruct (decide (j = n)) as [->|]; [by intros H|]. apply IH. lia.
  - split; [lia|]. split; [done|]. lia.
Qed.

Lemma chain_insert q q' p i l1 l2 cur :
  chain N q cur (l1 ++ i :: l2) -> (p < N)%nat -> p ∉ l1 ++ i :: l2 -> NoDup (l1 ++ i :: l2) ->
  next_nonempty (queue_at q' p) = next_nonempty (queue_at q i) ->
  next_nonempty (queue_at q' i) = To p ->
  (∀ j, j ≠ p -> j ≠ i -> next_nonempty (queue_at q' j) = next_nonempty (queue_at q j)) ->
  chain N q' cur (l1 ++ i :: p :: l2).
Proof.
  intros C Hp Np Nd E1 E2 E3. revert cur C. induction l1 as [|j l1 IH]; intros cur C; cbn [app] in *.
  - inversion C as [|? ? Hi C']; subst. constructor; [done|]. rewrite E2. constructor; [done|].
    rewrite E1. eapply chain_frame; [|exact C']. intros j Hj. apply NoDup_cons in Nd as [Ni Nd].
    apply not_elem_of_cons in Np as [Np1 Np2]. apply E3; by intros ->.
  - inversion C as [|? ? Hi C']; subst. apply not_elem_of_cons in Np as [Np1 Np2].
    apply NoDup_cons in Nd as [Ni Nd]. constructor; [done|]. rewrite E3.
    + by apply IH.
    + done.
    + intros ->. apply Ni. apply elem_of_app. right. by left.
Qed.

Lemma StronglySorted_lt_NoDup l : StronglySorted lt l -> NoDup l.
Proof.
  induction 1 as [|i l S IH F]; constructor; [|done]. intros Hi.
  rewrite Forall_forall in F. apply F in Hi. lia.
Qed.

Lemma chain_bound q cur l i : chain N q cur l -> i ∈ l -> (i < N)%nat.
Proof.
  intros C. induction C as [|j l Hj C IH]; intros Hi; [by apply elem_of_nil in Hi|].
  apply elem_of_cons in Hi as [->|Hi]; auto.
Qed.

Lemma sorted_insert (p : nat) l1 l2 :
  StronglySorted lt (l1 ++ l2) -> Forall (fun i => i < p)%nat l1 ->
  Forall (fun i => p < i)%nat l2 -> StronglySorted lt (l1 ++ p :: l2).
Proof.
  induction l1 as [|k l1 IH]; intros S F1 F2; cbn [app] in *; [by constructor|].
  inversion S as [|? ? S' F]; subst. inversion F1; subst. constructor; [by apply IH|].
  apply Forall_app in F as [F F']. apply Forall_app. split; [done|]. by constructor.
Qed.

Lemma sorted_last (l1 l2 : list nat) i j :
  StronglySorted lt ((l1 ++ [j]) ++ l2) -> i ∈ l1 ++ [j] -> (i <= j)%nat.
Proof.
  rewrite <- app_assoc. intros S Hi.
  apply elem_of_app in Hi as [Hi|Hi%list_elem_of_singleton]; [|lia].
  induction l1 as [|k l1 IH]; [by apply elem_of_nil in Hi|]. cbn in S. inversion S as [|? ? S' F]; subst.
  apply elem_of_cons in Hi as [->|Hi]; [|by apply IH].
  rewrite Forall_forall in F. specialize (F j). assert (k < j)%nat; [|lia].
  apply F, elem_of_app. right. by left.
Qed.

(** Linking the level [p] between the levels [l1] and [l2]. *)
Lemma queue_ok_link q q' p l1 l2 :
  queue_ok N q -> (p < N)%nat -> length (queues q') = N ->
  StronglySorted lt (l1 ++ l2) -> (∀ i, (i < N)%nat -> i ∈ l1 ++ l2 <-> linked q i) ->
  Forall (fun i => i < p)%nat l1 -> Forall (fun i => p < i)%nat l2 ->
  chain N q' (first q') (l1 ++ p :: l2) ->
  (∀ j, data (queue_at q' j) = data (queue_at q j)) ->
  (∀ j, linked q' j <-> j = p ∨ linked q j) ->
  queue_ok N q' ∧ linked q' p ∧ levels q' = levels q ∧ ∀ j, linked q j -> linked q' j.
Proof.
  intros Hq Hp L' S M F1 F2 C D Lk. assert (Hq' : queue_ok N q').
  { constructor; [done| |].
    - exists (l1 ++ p :: l2). split; [done|]. split; [by apply sorted_insert|].
      intros j Hj. rewrite Lk, <- M by done. rewrite !elem_of_app, elem_of_cons. tauto.
    - intros j Hj Nj. rewrite D. apply Hq; [done|]. rewrite Lk in Nj. tauto. }
  split; [done|]. split; [apply Lk; by left|]. split; [|intros j Hj; apply Lk; by right].
  apply list_eq. intros i. destruct (Nat.lt_ge_cases i N).
  - by rewrite !levels_lookup, D.
  - unfold levels. rewrite !lookup_ge_None_2; [done|..]; rewrite length_fmap; destruct Hq; lia.
Qed.

(** Linking after the nearest used level [i] below [p]. *)
Lemma do_link_after q p i l1 l2 :
  queue_ok N q -> (p < N)%nat -> ~ linked q p -> (i < p)%nat -> linked q i ->
  chain N q (first q) (l1 ++ i :: l2) -> StronglySorted lt (l1 ++ i :: l2) ->
  p ∉ l1 ++ i :: l2 ->
  let q' := set_queue (set_queue q p (mk_Queue (next_nonempty (queue_at q i)) (data (queue_at q p)))) i
              (mk_Queue (To p) (data (queue_at
                (set_queue q p (mk_Queue (next_nonempty (queue_at q i)) (data (queue_at q p)))) i))) in
  length (queues q') = N ∧ chain N q' (first q') (l1 ++ i :: p :: l2) ∧
  (∀ j, data (queue_at q' j) = data (queue_at q j)) ∧ (∀ j, linked q' j <-> j = p ∨ linked q j).
Proof.
  intros Hq Hp Np Hip Li C S Npl q'. pose proof (ok_length _ _ Hq) as L.
  assert (Q : ∀ j, queue_at q' j = if decide (j = i) then mk_Queue (To p) (data (queue_at q i))
               else if decide (j = p) then mk_Queue (next_nonempty (queue_at q i)) (data (queue_at q p))
               else queue_at q j).
  { intros j. unfold q'. rewrite !queue_at_set; try done; try lia;
      [|unfold set_queue; cbn; by rewrite length_insert].
    destruct (decide (i = j)), (decide (j = i)), (decide (p = j)), (decide (j = p)), (decide (p = i));
      try congruence; lia. }
  split; [unfold q', set_queue; cbn [queues]; by rewrite !length_insert|]. split; [|split].
  - eapply chain_insert; [exact C|done|done|by apply StronglySorted_lt_NoDup| | |].
    + rewrite Q. destruct (decide (p = i)); [lia|]. by destruct (decide (p = p)).
    + rewrite Q. by destruct (decide (i = i)).
    + intros j H1 H2. rewrite Q. destruct (decide (j = i)); [done|]. by destruct (decide (j = p)).
  - intros j. rewrite Q. destruct (decide (j = i)) as [->|]; [done|]. by destruct (decide (j = p)) as [->|].
  - intros j. unfold linked. rewrite Q. destruct (decide (j = i)) as [->|]; cbn [next_nonempty].
    + split; [by right|intros _; done].
    + destruct (decide (j = p)) as [->|]; cbn [next_nonempty]; [split; [by left|by intros _]|].
      split; [by right|by intros [?|?]].
Qed.

Lemma prepare_ok q p : queue_ok N q -> (p < N)%nat ->
  queue_ok N (prepare q p) ∧ linked (prepare q p) p ∧ levels (prepare q p) = levels q ∧
  ∀ j, linked q j -> linked (prepare q p) j.
Proof.
  intros Hq Hp. unfold prepare.
  destruct (decide (next_nonempty (queue_at q p) = UnlinkedTag)) as [Np|Lp]; [|done].
  pose proof Hq as [L (l & C & S & M) D].
  assert (Npl : p ∉ l) by (rewrite M by done; by intros H).
  destruct (sorted_split p l S Npl) as (l1 & l2 & -> & F1 & F2).
  unfold do_link. pose proof (linked_below_spec q p) as LB.
  destruct (linked_below q p) as [i|].
  - destruct LB as (Hip & Li & Lj).
    assert (Hi1 : i ∈ l1).
    { assert (i ∈ l1 ++ l2) as H by (apply M; [lia|done]). apply elem_of_app in H as [|H]; [done|].
      rewrite Forall_forall in F2. apply F2 in H. lia. }
    destruct l1 as [|k l1 _] using rev_ind; [by apply elem_of_nil in Hi1|].
    assert (k = i) as ->.
    { pose proof (sorted_last _ _ _ _ S Hi1). apply Forall_app in F1 as [_ F1]. inversion F1; subst.
      destruct (decide (k = i)); [done|]. exfalso. apply (Lj k); [lia|]. apply M; [lia|].
      apply elem_of_app. left. apply elem_of_app. right. by left. }
    rewrite <- app_assoc in C, S, Npl. cbn [app] in C, S, Npl.
    destruct (do_link_after q p i l1 l2) as (L' & C' & D' & Lk); try done; [by intros H|].
    eapply (queue_ok_link q _ p (l1 ++ [i]) l2); try done; rewrite <- ?app_assoc; done.
  - assert (l1 = []) as ->.
    { destruct l1 as [|k l1]; [done|]. exfalso. inversion F1; subst. apply (LB k); [done|].
      apply M; [lia|by left]. }
    cbn [app] in *. set (q1 := set_queue q p (mk_Queue (first q) (data (queue_at q p)))).
    assert (Q1 : ∀ j, queue_at (mk_ThreadQueueList (To p) (queues q1)) j
        = if decide (j = p) then mk_Queue (first q) (data (queue_at q p)) else queue_at q j).
    { intros j. change (queue_at q1 j = if decide (j = p) then mk_Queue (first q) (data (queue_at q p)) else queue_at q j).
      unfold q1. rewrite queue_at_set by done. destruct (decide (p = j)), (decide (j = p)); congruence. }
    eapply (queue_ok_link q _ p [] l2); try done.
    + unfold q1, set_queue. cbn [queues]. by rewrite length_insert.
    + constructor; [done|]. rewrite Q1. destruct (decide (p = p)); [|done]. cbn [next_nonempty].
      eapply chain_frame; [|exact C]. intros j Hj. rewrite Q1.
      destruct (decide (j = p)) as [->|]; [done|done].
    + intros j. rewrite Q1. by destruct (decide (j = p)) as [->|].
    + intros j. unfold linked. rewrite Q1. destruct (decide (j = p)) as [->|]; cbn [next_nonempty].
      * split; [by left|]. intros _. inversion C; subst; congruence.
      * split; [by right|by intros [?|?]].
Qed.

(** * The priority queue it implements *)

Abbreviation nonempty q := (fun i => data (queue_at q i) ≠ []).

Lemma find_first_spec q fuel cur l :
  chain N q cur l -> (length l <= fuel)%nat ->
  find_first fuel q cur = Some (head (filter (nonempty q) l)).
Proof.
  intros C. revert fuel. induction C as [|i l Hi C IH]; intros fuel Hf; [by destruct fuel|].
  cbn [length] in Hf. destruct fuel as [|fuel]; [lia|]. cbn [find_first].
  destruct (data (queue_at q i)) eqn:E.
  - rewrite filter_cons_False by (by rewrite E; intros H; apply H). apply IH. lia.
  - rewrite filter_cons_True by (by rewrite E). done.
Qed.

Lemma filter_sorted_ge (p : nat) l i :
  StronglySorted lt (i :: l) -> (p <= i)%nat -> filter (fun j => j < p)%nat (i :: l) = [].
Proof.
  intros S Hi. inversion S as [|? ? S' F]; subst. rewrite filter_cons_False by lia.
  clear S. induction F as [|j l Hj F IH]; [done|]. inversion S'; subst.
  rewrite filter_cons_False by lia. by apply IH.
Qed.

Lemma find_better_spec q fuel p cur l :
  chain N q cur l -> StronglySorted lt l -> p ∈ l -> (length l <= fuel)%nat ->
  find_better fuel q p cur = Some (head (filter (nonempty q) (filter (fun i => i < p)%nat l))).
Proof.
  intros C. revert fuel. induction C as [|i l Hi C IH]; intros fuel S Hp Hf; [by apply elem_of_nil in Hp|].
  cbn [length] in Hf. destruct fuel as [|fuel]; [lia|]. cbn [find_better].
  destruct (Nat.ltb_spec i p) as [Hip|Hip]; [|by rewrite filter_sorted_ge].
  rewrite (filter_cons_True (fun i => i < p)%nat) by done. inversion S; subst.
  destruct (data (queue_at q i)) eqn:E.
  - rewrite filter_cons_False by (by rewrite E; intros H; apply H). apply IH; [done| |lia].
    apply elem_of_cons in Hp as [->|]; [lia|done].
  - rewrite filter_cons_True by (by rewrite E). done.
Qed.

Lemma chain_length q cur l : chain N q cur l -> StronglySorted lt l -> (length l <= N)%nat.
Proof.
  intros C S. rewrite <- (length_seq N 0). apply submseteq_length, NoDup_submseteq.
  - by apply StronglySorted_lt_NoDup.
  - intros i Hi. apply elem_of_seq. pose proof (chain_bound _ _ _ _ C Hi). lia.
Qed.

(** The first non-empty level of a sorted chain is the least non-empty level. *)
Lemma head_filter_least q l :
  StronglySorted lt l ->
  match head (filter (nonempty q) l) with
  | Some i => i ∈ l ∧ data (queue_at q i) ≠ [] ∧ ∀ j, j ∈ l -> (j < i)%nat -> data (queue_at q j) = []
  | None => ∀ j, j ∈ l -> data (queue_at q j) = []
  end.
Proof.
  induction 1 as [|i l S IH F].
  { cbn. intros j Hj. by apply elem_of_nil in Hj. }
  destruct (data (queue_at q i)) eqn:E.
  - rewrite filter_cons_False by (by rewrite E; intros H; apply H).
    destruct (head (filter (nonempty q) l)) as [k|].
    + destruct IH as (H1 & H2 & H3). split; [by right|]. split; [done|].
      intros j Hj Hjk. apply elem_of_cons in Hj as [->|Hj]; [done|by apply H3].
    + intros j Hj. apply elem_of_cons in Hj as [->|Hj]; [done|by apply IH].
  - rewrite filter_cons_True by (by rewrite E). cbn [head]. split; [by left|]. split; [by rewrite E|].
    intros j Hj Hji. rewrite Forall_forall in F. apply elem_of_cons in Hj as [->|Hj]; [lia|].
    apply F in Hj. lia.
Qed.

Lemma concat_empty (ls : list (list T)) : (∀ i x, ls !! i = Some x -> x = []) -> concat ls = [].
Proof.
  induction ls as [|x ls IH]; intros H; [done|]. cbn. rewrite (H 0%nat x eq_refl). cbn.
  apply IH. intros i y Hy. by apply (H (Datatypes.S i)).
Qed.

(** The elements served before the level [i] are none. *)
Lemma levels_before q i :
  queue_ok N q -> (∀ j, (j < N)%nat -> (j < i)%nat -> data (queue_at q j) = []) ->
  concat (take i (levels q)) = [].
Proof.
  intros Hq H. apply concat_empty. intros j x Hx. apply lookup_take_Some in Hx as [Hx Hj].
  assert (j < N)%nat.
  { apply lookup_lt_Some in Hx. unfold levels in Hx. rewrite length_fmap in Hx. by rewrite (ok_length _ _ Hq) in Hx. }
  rewrite levels_lookup in Hx by done. injection Hx as <-. by apply H.
Qed.

Lemma contents_split q i x : queue_ok N q -> (i < N)%nat -> data (queue_at q i) = x ->
  contents q = concat (take i (levels q)) ++ x ++ concat (drop (Datatypes.S i) (levels q)).
Proof.
  intros Hq Hi E. unfold contents. rewrite <- (take_drop i (levels q)) at 1.
  rewrite concat_app. f_equal. rewrite (drop_S _ x); [done|]. by rewrite levels_lookup, E.
Qed.

Lemma contents_set q i xs n : queue_ok N q -> (i < N)%nat ->
  contents (set_queue q i (mk_Queue n xs))
  = concat (take i (levels q)) ++ xs ++ concat (drop (Datatypes.S i) (levels q)).
Proof.
  intros Hq Hi. unfold contents. rewrite levels_set. cbn [data].
  rewrite insert_take_drop by (unfold levels; rewrite length_fmap, (ok_length _ _ Hq); done).
  by rewrite concat_app.
Qed.

(** Taking the front of the least non-empty level. *)
Lemma pop_level_spec q i :
  queue_ok N q -> (i < N)%nat -> data (queue_at q i) ≠ [] -> concat (take i (levels q)) = [] ->
  ∃ x rest q', contents q = x :: rest ∧ pop_level q i = (Some x, q') ∧ queue_ok N q' ∧
    contents q' = rest ∧ (∀ j, linked q' j <-> linked q j).
Proof.
  intros Hq Hi Hne Hb. destruct (data (queue_at q i)) as [|x xs] eqn:E; [done|].
  rewrite (contents_split q i (x :: xs)), Hb by done. cbn [app].
  unfold pop_level. rewrite E. do 3 eexists. split; [done|]. split; [done|].
  assert (Hl : linked q i).
  { destruct (decide (next_nonempty (queue_at q i) = UnlinkedTag)) as [U|U]; [|done].
    rewrite (ok_data _ _ Hq) in E; [done|done|by intros H]. }
  destruct (queue_ok_set_data q i xs Hq Hi (or_introl Hl)) as [Hok Hlk].
  split; [done|]. split; [|done]. rewrite contents_set, Hb by done. done.
Qed.

(** The pop that serves the least non-empty level below [b]. *)
Definition least_pop q (b : nat) (r : option (option T * ThreadQueueList T)) : Prop :=
  (r = Some (None, q) ∧ ∀ j, (j < b)%nat -> data (queue_at q j) = []) ∨
  ∃ i, (i < b)%nat ∧ data (queue_at q i) ≠ [] ∧ (∀ j, (j < i)%nat -> data (queue_at q j) = []) ∧
    r = Some (pop_level q i).

Lemma unlinked_empty q (l : list nat) j : queue_ok N q -> (∀ i, (i < N)%nat -> i ∈ l <-> linked q i) ->
  (j < N)%nat -> j ∉ l -> data (queue_at q j) = [].
Proof. intros [_ _ D] M Hj Nj. apply D; [done|]. by rewrite <- (M j). Qed.

Lemma pop_first_least q : queue_ok N q -> least_pop q N (pop_first N q).
Proof.
  intros Hq. pose proof Hq as [L (l & C & S & M) D]. unfold pop_first.
  rewrite (find_first_spec q N _ l C) by (by eapply chain_length). cbn [mbind option_bind].
  pose proof (unlinked_empty q l) as E0.
  pose proof (head_filter_least q l S) as H. destruct (head (filter (nonempty q) l)) as [i|].
  - right. destruct H as (Hi & Hne & Hb). pose proof (chain_bound _ _ _ _ C Hi) as HiN.
    exists i. split_and!; try done. intros j Hj.
    destruct (decide (j ∈ l)); [by apply Hb|apply E0; try done; lia].
  - left. split; [done|]. intros j Hj. destruct (decide (j ∈ l)); [by apply H|by apply E0].
Qed.

Lemma pop_first_better_least q p : queue_ok N q -> (p < N)%nat -> linked q p ->
  least_pop q p (pop_first_better N q p).
Proof.
  intros Hq Hp Lp. pose proof Hq as [L (l & C & S & M) D]. unfold pop_first_better.
  rewrite (find_better_spec q N p _ l C S) by (by apply M || by eapply chain_length). cbn [mbind option_bind].
  pose proof (unlinked_empty q l) as E0. set (l' := filter (fun i => i < p)%nat l).
  assert (S' : StronglySorted lt l').
  { unfold l'. clear - S. induction S as [|i l S IH F]; [constructor|].
    destruct (decide (i < p)%nat); [rewrite filter_cons_True by done|by rewrite filter_cons_False].
    constructor; [done|]. apply Forall_forall. intros j Hj. rewrite Forall_forall in F.
    apply list_elem_of_filter in Hj as [_ Hj]. by apply F. }
  assert (M' : ∀ j, j ∈ l' <-> (j < p)%nat ∧ j ∈ l)
    by (intros j; exact (list_elem_of_filter (fun i => i < p)%nat l j)).
  pose proof (head_filter_least q l' S') as H. destruct (head (filter (nonempty q) l')) as [i|].
  - right. destruct H as (Hi & Hne & Hb). apply M' in Hi as [Hip Hi]. exists i. split_and!; try done.
    intros j Hj. destruct (decide (j ∈ l)); [apply Hb; [apply M'; split; [lia|done]|done]|].
    apply E0; try done. lia.
  - left. split; [done|]. intros j Hj. destruct (decide (j ∈ l)); [by apply H, M'|].
    apply E0; try done. lia.
Qed.

Lemma pop_first_spec q : queue_ok N q ->
  match contents q with
  | [] => pop_first N q = Some (None, q)
  | x :: rest => ∃ q', pop_first N q = Some (Some x, q') ∧ queue_ok N q' ∧ contents q' = rest ∧
      ∀ j, linked q' j <-> linked q j
  end.
Proof.
  intros Hq. destruct (pop_first_least q Hq) as [[-> E]|(i & Hi & Hne & B & ->)].
  - assert (contents q = []) as ->; [|done].
    unfold contents. rewrite <- (firstn_all (levels q)). apply levels_before; [done|].
    intros j Hj _. by apply E.
  - destruct (pop_level_spec q i Hq Hi Hne) as (x & rest & q' & -> & -> & Hok); [|by exists q'].
    apply levels_before; [done|]. intros j _ Hj. by apply B.
Qed.

Lemma pop_first_better_spec q p : queue_ok N q -> (p < N)%nat -> linked q p ->
  match concat (take p (levels q)) with
  | [] => pop_first_better N q p = Some (None, q)
  | x :: rest => ∃ q', pop_first_better N q p = Some (Some x, q') ∧ queue_ok N q' ∧
      contents q' = rest ++ concat (drop p (levels q)) ∧ ∀ j, linked q' j <-> linked q j
  end.
Proof.
  intros Hq Hp Lp. destruct (pop_first_better_least q p Hq Hp Lp) as [[-> E]|(i & Hip & Hne & Hb & ->)].
  - assert (concat (take p (levels q)) = []) as ->; [|done]. apply levels_before; [done|].
    intros j _ Hjp. by apply E.
  - assert (HiN : (i < N)%nat) by lia.
    assert (B : concat (take i (levels q)) = []).
    { apply levels_before; [done|]. intros j _ Hji. by apply Hb. }
    destruct (pop_level_spec q i Hq HiN Hne B) as (x & rest & q' & E1 & -> & Hok & E2 & Hlk).
    assert (E3 : contents q = concat (take p (levels q)) ++ concat (drop p (levels q)))
      by (unfold contents; by rewrite <- concat_app, take_drop).
    assert (E4 : concat (take p (levels q)) ≠ []).
    { intros E4. apply Hne. destruct (data (queue_at q i)) as [|y ys] eqn:Ed; [done|].
      assert (y ∈ concat (take p (levels q))) as Hy; [|rewrite E4 in Hy; by apply elem_of_nil in Hy].
      apply list_elem_of_In, in_concat. exists (y :: ys). split; [|by left]. apply list_elem_of_In.
      apply (list_elem_of_lookup_2 _ i). rewrite lookup_take_lt by done. by rewrite levels_lookup, Ed. }
    destruct (concat (take p (levels q))) as [|x' rest'] eqn:Et; [done|].
    rewrite E3 in E1. cbn [app] in E1. injection E1 as -> <-. exists q'. done.
Qed.

Lemma get_first_spec q : queue_ok N q -> get_first N q = Some (head (contents q)).
Proof.
  intros Hq. pose proof (pop_first_spec q Hq) as H. unfold pop_first, get_first in *.
  destruct (find_first N q (first q)) as [[i|]|]; cbn [mbind option_bind] in *.
  - unfold pop_level in H. destruct (data (queue_at q i)), (contents q); try done; try naive_solver.
  - destruct (contents q); [done|naive_solver].
  - destruct (contents q); [done|naive_solver].
Qed.

Lemma new_queue_ok : queue_ok N (new_ThreadQueueList N (T := T)).
Proof.
  assert (Q : ∀ i, (i < N)%nat -> queue_at (new_ThreadQueueList N) i = (empty_queue (T := T))).
  { intros i Hi. unfold queue_at, new_ThreadQueueList. cbn [queues].
    apply list_lookup_total_correct, lookup_replicate. done. }
  constructor.
  - apply length_replicate.
  - exists []. split; [constructor|]. split; [constructor|]. intros i Hi. unfold linked. rewrite Q by done.
    split; [intros H; by apply elem_of_nil in H|]. intros H. by destruct H.
  - intros i Hi _. by rewrite Q.
Qed.

Lemma push_back_spec q p x : queue_ok N q -> (p < N)%nat -> linked q p ->
  queue_ok N (push_back q p x) ∧ (∀ j, linked (push_back q p x) j <-> linked q j) ∧
  contents (push_back q p x)
  = concat (take (Datatypes.S p) (levels q)) ++ [x] ++ concat (drop (Datatypes.S p) (levels q)).
Proof.
  intros Hq Hp Lp. unfold push_back.
  destruct (queue_ok_set_data q p (data (queue_at q p) ++ [x]) Hq Hp (or_introl Lp)) as [H1 H2].
  split; [done|]. split; [done|]. rewrite contents_set by done.
  rewrite (take_S_r _ _ (data (queue_at q p))) by by apply levels_lookup.
  rewrite concat_app. cbn [concat]. by rewrite app_nil_r, <- !app_assoc.
Qed.

Lemma push_front_spec q p x : queue_ok N q -> (p < N)%nat -> linked q p ->
  queue_ok N (push_front q p x) ∧ (∀ j, linked (push_front q p x) j <-> linked q j) ∧
  contents (push_front q p x) = concat (take p (levels q)) ++ [x] ++ concat (drop p (levels q)).
Proof.
  intros Hq Hp Lp. unfold push_front.
  destruct (queue_ok_set_data q p (x :: data (queue_at q p)) Hq Hp (or_introl Lp)) as [H1 H2].
  split; [done|]. split; [done|]. rewrite contents_set by done.
  by rewrite (drop_S _ (data (queue_at q p)) p) by by apply levels_lookup.
Qed.

Lemma remove_spec q p x : queue_ok N q -> (p < N)%nat ->
  queue_ok N (remove q p x) ∧ (∀ j, linked (remove q p x) j <-> linked q j) ∧
  contents (remove q p x)
  = concat (take p (levels q)) ++ filter (fun y => y ≠ x) (data (queue_at q p))
    ++ concat (drop (Datatypes.S p) (levels q)).
Proof.
  intros Hq Hp. unfold remove.
  destruct (queue_ok_set_data q p (filter (fun y => y ≠ x) (data (queue_at q p))) Hq Hp) as [H1 H2].
  { destruct (decide (next_nonempty (queue_at q p) = UnlinkedTag)) as [U|U]; [right|by left].
    rewrite (ok_data _ _ Hq) by (done || by intros H). done. }
  split; [done|]. split; [done|]. by apply contents_set.
Qed.

(** C39: the ready queue is a stable priority queue.  Serving takes the first
    element of the levels in order of priority and leaves the rest; serving
    below a used level takes an element of a strictly better priority or
    nothing, and never follows a null link; pushing at the back or the front of
    a used level puts the element after or before its equals; removal takes out
    every occurrence from a level; preparing a level changes no order. *)
Theorem ready_queue_refines q : queue_ok N q ->
  get_first N q = Some (head (contents q)) ∧
  match contents q with
  | [] => pop_first N q = Some (None, q)
  | x :: rest => ∃ q', pop_first N q = Some (Some x, q') ∧ queue_ok N q' ∧ contents q' = rest ∧
      ∀ j, linked q' j <-> linked q j
  end ∧
  ∀ p, (p < N)%nat ->
    (queue_ok N (prepare q p) ∧ linked (prepare q p) p ∧ contents (prepare q p) = contents q) ∧
    (∀ x, queue_ok N (remove q p x) ∧
       contents (remove q p x)
       = concat (take p (levels q)) ++ filter (fun y => y ≠ x) (data (queue_at q p))
         ++ concat (drop (Datatypes.S p) (levels q))) ∧
    (linked q p ->
     match concat (take p (levels q)) with
     | [] => pop_first_better N q p = Some (None, q)
     | x :: rest => ∃ q', pop_first_better N q p = Some (Some x, q') ∧ queue_ok N q' ∧
         contents q' = rest ++ concat (drop p (levels q)) ∧ ∀ j, linked q' j <-> linked q j
     end ∧
     ∀ x,
       (queue_ok N (push_back q p x) ∧ contents (push_back q p x)
        = concat (take (Datatypes.S p) (levels q)) ++ [x] ++ concat (drop (Datatypes.S p) (levels q))) ∧
       (queue_ok N (push_front q p x) ∧ contents (push_front q p x)
        = concat (take p (levels q)) ++ [x] ++ concat (drop p (levels q)))).
Proof.
  intros Hq. split; [by apply get_first_spec|]. split; [by apply pop_first_spec|].
  intros p Hp. split; [|split].
  - destruct (prepare_ok q p Hq Hp) as (H1 & H2 & H3 & _). split; [done|]. split; [done|].
    unfold contents. by rewrite H3.
  - intros x. destruct (remove_spec q p x Hq Hp) as (H1 & _ & H2). done.
  - intros Lp. split; [by apply pop_first_better_spec|]. intros x.
    destruct (push_back_spec q p x Hq Hp Lp) as (H1 & _ & H2).
    destruct (push_front_spec q p x Hq Hp Lp) as (H3 & _ & H4). done.
Qed.
End queue_facts.

Lemma ready_queue_refines_witness :
  let q := push_back (prepare (new_ThreadQueueList 64) 48) 48 7%nat in
  queue_ok 64 q ∧ ∃ q', pop_first 64 q = Some (Some 7%nat, q') ∧ queue_ok 64 q' ∧ contents q' = [].
Proof.
  cbv zeta. destruct (prepare_ok (T := nat) (N := 64) (new_ThreadQueueList 64) 48) as (H1 & H2 & _);
    [apply new_queue_ok|lia|].
  destruct (push_back_spec (N := 64) _ 48 7%nat H1 ltac:(lia) H2) as (H3 & _).
  split; [exact H3|]. destruct (ready_queue_refines _ H3) as (_ & H & _).
  change (contents (push_back (prepare (new_ThreadQueueList 64) 48) 48 7%nat)) with [7%nat] in H.
  destruct H as (q' & E1 & E2 & E3 & _). by exists q'.
Defined.
