(* ===== verification/CoreTiming.v ===== *)
(** Guest time and timed events: [core/core_timing.h] and [core_timing.cpp].

    A timer counts the ticks of one core in slices and keeps a queue of events
    ordered by time and order of arrival.  [std::push_heap] and [std::pop_heap]
    keep the least event at the front of the vector; the order of the others is
    not observable, and the queue is represented by its sorted list.  The
    conversions from floating-point times are left out. *)

From stdpp Require Import sorting strings.
From S2P Require Import Prelude.

(* src: core_timing.h *)
Definition BASE_CLOCK_RATE_ARM11 : Z := 268111856.
(* src: core_timing.h *)
Definition MAX_VALUE_TO_MULTIPLY : Z := (2 ^ 63 - 1) / BASE_CLOCK_RATE_ARM11.
Definition S64_MAX : Z := 2 ^ 63 - 1.

(** * Conversions

    The clock rate is unsigned, so the products are. *)

(** The division by [d] of the product of the clock rate and [x]. *)
Definition to_cycles (x d : Z) : Z := s64 (u64 (BASE_CLOCK_RATE_ARM11 * u64 x) / d).

(* src: core_timing.h | constexpr s64 msToCycles(int ms) { *)
Definition msToCycles_int (ms : Z) : Z := to_cycles ms 1000.
(* src: core_timing.h | constexpr s64 usToCycles(int us) { *)
Definition usToCycles_int (us : Z) : Z := to_cycles us 1000000.
(* src: core_timing.h | inline s64 usToCycles(s64 us) { *)
Definition usToCycles_s64 (us : Z) : Z :=
  if MAX_VALUE_TO_MULTIPLY <? Z.quot us 1000000 then S64_MAX
  else if MAX_VALUE_TO_MULTIPLY <? us
  then s64 (u64 (BASE_CLOCK_RATE_ARM11 * u64 (Z.quot us 1000000)))
  else to_cycles us 1000000.
(* src: core_timing.h | inline s64 usToCycles(u64 us) { *)
Definition usToCycles_u64 (us : Z) : Z :=
  if MAX_VALUE_TO_MULTIPLY <? us / 1000000 then S64_MAX
  else if MAX_VALUE_TO_MULTIPLY <? us
  then s64 (u64 (BASE_CLOCK_RATE_ARM11 * u64 (s64 (us / 1000000))))
  else to_cycles (s64 us) 1000000.
(* src: core_timing.h | constexpr s64 nsToCycles(int ns) { *)
Definition nsToCycles_int (ns : Z) : Z := to_cycles ns 1000000000.
(* src: core_timing.h | inline s64 nsToCycles(s64 ns) { *)
Definition nsToCycles_s64 (ns : Z) : Z :=
  if MAX_VALUE_TO_MULTIPLY <? Z.quot ns 1000000000 then S64_MAX
  else if MAX_VALUE_TO_MULTIPLY <? ns
  then s64 (u64 (BASE_CLOCK_RATE_ARM11 * u64 (Z.quot ns 1000000000)))
  else to_cycles ns 1000000000.
(* src: core_timing.h | inline s64 nsToCycles(u64 ns) { *)
Definition nsToCycles_u64 (ns : Z) : Z :=
  if MAX_VALUE_TO_MULTIPLY <? ns / 1000000000 then S64_MAX
  else if MAX_VALUE_TO_MULTIPLY <? ns
  then s64 (u64 (BASE_CLOCK_RATE_ARM11 * u64 (Z.quot (s64 ns) 1000000000)))
  else to_cycles (s64 ns) 1000000000.

(* src: core_timing.h *)
Definition cyclesToNs (cycles : Z) : Z := u64 (s64 (cycles * 1000000000)) / BASE_CLOCK_RATE_ARM11.
(* src: core_timing.h *)
Definition cyclesToUs (cycles : Z) : Z :=
  s64 (u64 (s64 (cycles * 1000000)) / BASE_CLOCK_RATE_ARM11).
(* src: core_timing.h *)
Definition cyclesToMs (cycles : Z) : Z := u64 (s64 (cycles * 1000)) / BASE_CLOCK_RATE_ARM11.

(** * Events and timers *)

(** An event type is identified by its name, which [RegisterEvent] keeps
    unique. *)
(* src: core_timing.h | struct Event { | Event | ..const TimingEventType* type; *)
Record Event := mk_Event {
  ev_time : Z;       (* s64 *)
  fifo_order : Z;    (* u64 *)
  user_data : Z;
  ev_type : string
}.
#[export] Instance Event_eq_dec : EqDecision Event.
Proof. solve_decision. Defined.
#[export] Instance Event_inhabited : Inhabited Event := populate (mk_Event 0 0 0 "").

(* src: core_timing.cpp | bool Timing::Event::operator<(const Timing::Event& right) const { *)
Definition event_lt (a b : Event) : bool :=
  (ev_time a <? ev_time b) || ((ev_time a =? ev_time b) && (fifo_order a <? fifo_order b)).
(* src: core_timing.cpp | bool Timing::Event::operator>(const Timing::Event& right) const { *)
Definition event_gt (a b : Event) : bool :=
  (ev_time b <? ev_time a) || ((ev_time a =? ev_time b) && (fifo_order b <? fifo_order a)).

(* src: core_timing.h *)
Definition MAX_SLICE_LENGTH : Z := BASE_CLOCK_RATE_ARM11 / 234.

(** [cpu_clock_scale] is given by what it is used for, the conversion to an
    integer of the product with a number of ticks. *)
(* src: core_timing.h | std::vector<Event> event_queue; | Timer | ..double cpu_clock_scale = 1.0; *)
Record Timer := mk_Timer {
  event_queue : list Event;
  event_fifo_id : Z;     (* u64 *)
  ts_queue : list Event;
  is_timer_sane : bool;
  slice_length : Z;      (* s64 *)
  downcount : Z;         (* s64 *)
  executed_ticks : Z;    (* s64 *)
  idled_cycles : Z;      (* u64 *)
  cpu_clock_scale : Z -> Z
}.

(* src: core_timing.cpp | Timing::Timer::Timer(s64 base_ticks) *)
Definition new_Timer (base_ticks : Z) : Timer :=
  mk_Timer [] 0 [] true MAX_SLICE_LENGTH MAX_SLICE_LENGTH base_ticks 0 id.
#[export] Instance Timer_inhabited : Inhabited Timer := populate (new_Timer 0).

(** [emplace_back] and [push_heap]. *)
(* src: core_timing.cpp | std::push_heap(event_queue.begin() | MoveEvents | +1 *)
Fixpoint heap_push (ev : Event) (q : list Event) : list Event :=
  match q with
  | [] => [ev]
  | e :: q' => if event_lt ev e then ev :: q else e :: heap_push ev q'
  end.

Section timer.
Context (t : Timer).

(* src: core_timing.cpp | u64 Timing::Timer::GetTicks() const { *)
Definition Timer_GetTicks : Z :=
  let ticks := u64 (executed_ticks t) in
  if is_timer_sane t then ticks else u64 (ticks + (slice_length t - downcount t)).

(* src: core_timing.cpp | void Timing::Timer::AddTicks(u64 ticks) { *)
Definition AddTicks (ticks : Z) : Timer :=
  t<|downcount := s64 (downcount t - cpu_clock_scale t ticks)|>.

(* src: core_timing.cpp | u64 Timing::Timer::GetIdleTicks() const { *)
Definition GetIdleTicks : Z := u64 (idled_cycles t).

(* src: core_timing.cpp | void Timing::Timer::ForceExceptionCheck(s64 cycles) { *)
Definition ForceExceptionCheck (cycles : Z) : Timer :=
  let cycles := 0 `max` cycles in
  if cycles <? downcount t then
    t<|slice_length := s64 (slice_length t - (downcount t - cycles))|><|downcount := cycles|>
  else t.

(* src: core_timing.cpp | s64 Timing::Timer::GetMaxSliceLength() const { *)
Definition GetMaxSliceLength : option Z :=
  match event_queue t with
  | next_event :: _ =>
      let d := s64 (ev_time next_event - executed_ticks t) in
      if 0 <? d then Some d else None
  | [] => Some MAX_SLICE_LENGTH
  end.

(* src: core_timing.cpp | void Timing::Timer::SetNextSlice(s64 max_slice_length) { *)
Definition SetNextSlice (max_slice_length : Z) : Timer :=
  let slice :=
    match event_queue t with
    | front :: _ => s32 (Z.min (s64 (ev_time front - executed_ticks t)) max_slice_length)
    | [] => max_slice_length
    end in
  t<|slice_length := slice|><|downcount := slice|>.

(* src: core_timing.cpp | void Timing::Timer::Idle() { *)
Definition Idle : Timer :=
  t<|idled_cycles := u64 (idled_cycles t + downcount t)|><|downcount := 0|>.

(* src: core_timing.cpp | s64 Timing::Timer::GetDowncount() const { *)
Definition GetDowncount : Z := downcount t.
End timer.

(** One event of the thread-safe queue. *)
(* src: core_timing.cpp | ev.fifo_order = event_fifo_id++; | MoveEvents | +3 *)
Definition move_event (t : Timer) (ev : Event) : Timer :=
  t<|event_fifo_id := u64 (event_fifo_id t + 1)|>
   <|event_queue := heap_push (ev<|fifo_order := event_fifo_id t|>) (event_queue t)|>.
(* src: core_timing.cpp | void Timing::Timer::MoveEvents() { *)
Definition MoveEvents (t : Timer) : Timer :=
  foldl move_event (t<|ts_queue := []|>) (ts_queue t).

(** * All timers *)

Section timing.
Context {CB : Type}.

(** [current_timer] is an index of [timers]. *)
(* src: core_timing.h | std::unordered_map<std::string, TimingEventType> event_types = {}; | Timing | ..bool event_queue_locked = false; *)
Record Timing := mk_Timing {
  event_types : gmap string (option CB);
  timers : list Timer;
  current_timer : nat;
  event_queue_locked : bool
}.
Implicit Types s : Timing.

Definition timer_at s (i : nat) : Timer := timers s !!! i.
Definition set_timer s (i : nat) (t : Timer) : Timing := s<|timers := <[i := t]> (timers s)|>.

(** [base_ticks] is the override or the value [GenerateBaseTicks] draws. *)
(* src: core_timing.cpp | Timing::Timing(std::size_t num_cores, u32 cpu_clock_percentage, s64 override_base_ticks) { *)
Definition new_Timing (num_cores : nat) (base_ticks : Z) (scale : Z -> Z) : Timing :=
  mk_Timing ∅ (replicate num_cores ((new_Timer base_ticks)<|cpu_clock_scale := scale|>)) 0 false.

(* src: core_timing.cpp | void Timing::UpdateClockSpeed(u32 cpu_clock_percentage) { *)
Definition UpdateClockSpeed s (scale : Z -> Z) : Timing :=
  s<|timers := (fun t => t<|cpu_clock_scale := scale|>) <$> timers s|>.

(* src: core_timing.cpp | TimingEventType* Timing::RegisterEvent(const std::string& name, TimedCallback callback) { *)
Definition RegisterEvent s (name : string) (callback : option CB) : Timing * string :=
  let old := default None (event_types s !! name) in
  let cb := match callback with Some _ => callback | None => old end in
  (s<|event_types := <[name := cb]> (event_types s)|>, name).

(** [core_id = None] is the default argument, the current timer.  An assertion
    failure is [None]. *)
(* src: core_timing.cpp | void Timing::ScheduleEvent(s64 cycles_into_future, const TimingEventType* event_type, *)
Definition ScheduleEvent s (cycles_into_future : Z) (event_type : string) (user_data : Z)
    (core_id : option nat) (thread_safe_mode : bool) : option Timing :=
  if event_queue_locked s then Some s
  else
    let i := default (current_timer s) core_id in
    t ← timers s !! i;
    if thread_safe_mode then
      let cycles := Z.max (MAX_SLICE_LENGTH * 2) cycles_into_future in
      let ev := mk_Event (s64 (u64 (Timer_GetTicks t + cycles))) 0 user_data event_type in
      Some (set_timer s i (t<|ts_queue := ts_queue t ++ [ev]|>))
    else
      let timeout := s64 (u64 (Timer_GetTicks t + cycles_into_future)) in
      if decide (current_timer s = i) then
        let t := if is_timer_sane t then t else ForceExceptionCheck t cycles_into_future in
        let ev := mk_Event timeout (event_fifo_id t) user_data event_type in
        Some (set_timer s i
                (t<|event_fifo_id := u64 (event_fifo_id t + 1)|>
                  <|event_queue := heap_push ev (event_queue t)|>))
      else
        let ev := mk_Event timeout 0 user_data event_type in
        Some (set_timer s i (t<|ts_queue := ts_queue t ++ [ev]|>)).

(* src: core_timing.cpp | void Timing::UnscheduleEvent(const TimingEventType* event_type, std::uintptr_t user_data) { *)
Definition UnscheduleEvent s (event_type : string) (data : Z) : Timing :=
  if event_queue_locked s then s
  else s<|timers := (fun t => t<|event_queue :=
            filter (fun e => ~ (ev_type e = event_type ∧ user_data e = data)) (event_queue t)|>)
          <$> timers s|>.

(* src: core_timing.cpp | void Timing::RemoveEvent(const TimingEventType* event_type) { *)
Definition RemoveEvent s (event_type : string) : Timing :=
  if event_queue_locked s then s
  else s<|timers := (fun t => t<|event_queue :=
            filter (fun e => ev_type e ≠ event_type) (event_queue t)|>)
          <$> timers s|>.

(* src: core_timing.cpp | void Timing::SetCurrentTimer(std::size_t core_id) { *)
Definition SetCurrentTimer s (core_id : nat) : Timing := s<|current_timer := core_id|>.

(* src: core_timing.cpp | s64 Timing::GetTicks() const { *)
Definition GetTicks s : Z := s64 (Timer_GetTicks (timer_at s (current_timer s))).

(** [std::max_element]: the first of the largest. *)
(* src: core_timing.cpp | s64 Timing::GetGlobalTicks() const { *)
Definition GetGlobalTicks s : Z :=
  match timers s with
  | [] => 0
  | t :: ts =>
      s64 (Timer_GetTicks
             (foldl (fun a b => if Timer_GetTicks a <? Timer_GetTicks b then b else a) t ts))
  end.

(* src: core_timing.cpp | std::chrono::microseconds Timing::GetGlobalTimeUs() const { *)
Definition GetGlobalTimeUs s : Z := u64 (s64 (GetGlobalTicks s * 1000000)) / BASE_CLOCK_RATE_ARM11.

(** ** [Advance]

    A callback runs with the whole system; [run] is its effect on the
    timers. *)
Context (run : CB -> Z -> Z -> Timing -> Timing).

(* src: core_timing.cpp | Event evt = std::move(event_queue.front()); | Advance | +8 *)
Definition fire_event s (i : nat) (evt : Event) (rest : list Event) : Timing :=
  let t := timer_at s i in
  let late := s32 (s64 (executed_ticks t - ev_time evt)) in
  let s := set_timer s i (t<|event_queue := rest|>) in
  match default None (event_types s !! ev_type evt) with
  | Some cb => run cb (user_data evt) late s
  | None => s
  end.

(** The loop over the due events; [None] when [fuel] events were not enough. *)
(* src: core_timing.cpp | while (!event_queue.empty() && event_queue.front().time <= executed_ticks) { *)
Fixpoint fire_due (fuel : nat) s (i : nat) : option Timing :=
  let t := timer_at s i in
  match event_queue t with
  | evt :: rest =>
      if ev_time evt <=? executed_ticks t then
        match fuel with
        | O => None
        | Datatypes.S fuel => fire_due fuel (fire_event s i evt rest) i
        end
      else Some s
  | [] => Some s
  end.

(** What [Advance] does before the loop. *)
(* src: core_timing.cpp | s64 cycles_executed = slice_length - downcount; | Advance | ..is_timer_sane = true; *)
Definition begin_slice (t : Timer) : Timer :=
  let t := MoveEvents t in
  t<|idled_cycles := 0|>
   <|executed_ticks := s64 (executed_ticks t + s64 (slice_length t - downcount t))|>
   <|slice_length := 0|><|downcount := 0|><|is_timer_sane := true|>.

(* src: core_timing.cpp | void Timing::Timer::Advance() { *)
Definition Advance (fuel : nat) s (i : nat) : option Timing :=
  s ← fire_due fuel (set_timer s i (begin_slice (timer_at s i))) i;
  Some (set_timer s i ((timer_at s i)<|is_timer_sane := false|>)).
End timing.
Arguments Timing : clear implicits.

(** * Conversions: exactness and bounds *)

(** Below the limit the result is the exact quotient; above it the time is first
    rounded down to a whole number of seconds, which loses less than one second
    of ticks; the result saturates instead of overflowing. *)
Definition cycles_of (x d : Z) : Z := BASE_CLOCK_RATE_ARM11 * x / d.

Lemma max_value_spec x : x <= MAX_VALUE_TO_MULTIPLY <-> BASE_CLOCK_RATE_ARM11 * x <= S64_MAX.
Proof. unfold MAX_VALUE_TO_MULTIPLY, BASE_CLOCK_RATE_ARM11, S64_MAX. modlia. Qed.

Lemma to_cycles_exact x d :
  0 < d -> 0 <= x <= MAX_VALUE_TO_MULTIPLY -> to_cycles x d = cycles_of x d ∧ 0 <= to_cycles x d <= S64_MAX.
Proof.
  intros Hd [H0 H1]. rewrite max_value_spec in H1. unfold to_cycles, cycles_of.
  assert (E : 0 <= BASE_CLOCK_RATE_ARM11 * x / d <= S64_MAX).
  { split; [apply Z.div_pos; unfold BASE_CLOCK_RATE_ARM11; lia|].
    etrans; [apply Z.div_le_upper_bound with (q := BASE_CLOCK_RATE_ARM11 * x)|exact H1]; [lia|].
    unfold BASE_CLOCK_RATE_ARM11. nia. }
  rewrite (uwrap_id 64 x) by (unfold in_range, S64_MAX, BASE_CLOCK_RATE_ARM11 in *; modlia).
  rewrite uwrap_id by (unfold in_range, S64_MAX, BASE_CLOCK_RATE_ARM11 in *; modlia).
  rewrite swrap_id; [done|lia|unfold in_srange, S64_MAX in *; modlia].
Qed.

(** Rounding down to whole seconds loses less than the clock rate. *)
Lemma whole_seconds x d : 0 < d -> 0 <= x ->
  let y := BASE_CLOCK_RATE_ARM11 * (x / d) in y <= cycles_of x d < y + BASE_CLOCK_RATE_ARM11.
Proof.
  intros Hd Hx. unfold cycles_of.
  pose proof (Z.div_mod x d ltac:(lia)) as E. pose proof (Z.mod_pos_bound x d Hd) as B.
  assert (BASE_CLOCK_RATE_ARM11 * x / d
          = BASE_CLOCK_RATE_ARM11 * (x / d) + BASE_CLOCK_RATE_ARM11 * (x mod d) / d) as ->.
  { rewrite E at 1. rewrite Z.mul_add_distr_l, (Z.mul_comm d), Z.mul_assoc, Z.add_comm.
    rewrite Z.div_add by lia. lia. }
  split.
  - assert (0 <= BASE_CLOCK_RATE_ARM11 * (x mod d) / d); [|lia].
    apply Z.div_pos; [unfold BASE_CLOCK_RATE_ARM11|]; nia.
  - apply Z.add_lt_mono_l. apply Z.div_lt_upper_bound; [lia|]. unfold BASE_CLOCK_RATE_ARM11. nia.
Qed.

(** What a conversion promises for a time of [x] units of [1/d] second. *)
Definition converts (x d r : Z) : Prop :=
  0 <= r <= S64_MAX ∧
  r <= cycles_of x d `min` S64_MAX < r + BASE_CLOCK_RATE_ARM11 ∧
  (x <= MAX_VALUE_TO_MULTIPLY -> r = cycles_of x d).

(** The three cases of the conversions. *)
Lemma converts_cases x d r : 0 < d -> 0 <= x ->
  (MAX_VALUE_TO_MULTIPLY < x / d -> r = S64_MAX) ->
  (x / d <= MAX_VALUE_TO_MULTIPLY < x -> r = BASE_CLOCK_RATE_ARM11 * (x / d)) ->
  (x / d <= MAX_VALUE_TO_MULTIPLY -> x <= MAX_VALUE_TO_MULTIPLY -> r = to_cycles x d) ->
  converts x d r.
Proof.
  intros Hd Hx A B C. pose proof (whole_seconds x d Hd Hx) as W. cbv zeta in W.
  pose proof (max_value_spec (x / d)) as M.
  assert (0 <= x / d <= x) by (split; [apply Z.div_pos; lia|apply Z.div_le_upper_bound; nia]).
  assert (0 <= BASE_CLOCK_RATE_ARM11 * (x / d)) by (unfold BASE_CLOCK_RATE_ARM11; lia).
  assert (0 <= S64_MAX) by done.
  destruct (Z.lt_ge_cases MAX_VALUE_TO_MULTIPLY (x / d)) as [L|L].
  - rewrite (A L). unfold converts. rewrite Z.min_r by lia. split; [lia|].
    split; [split; [done|unfold BASE_CLOCK_RATE_ARM11; lia]|lia].
  - apply M in L as L'. destruct (Z.lt_ge_cases MAX_VALUE_TO_MULTIPLY x) as [L2|L2].
    + rewrite (B (conj L L2)). unfold converts. lia.
    + rewrite (C L L2). destruct (to_cycles_exact x d Hd) as [E1 E2]; [lia|].
      unfold converts. rewrite E1 in *. split; [done|].
      rewrite Z.min_l by lia. split; [unfold BASE_CLOCK_RATE_ARM11; lia|done].
Qed.

(** The product of the clock rate and a whole number of seconds is exact. *)
Lemma seconds_exact y : 0 <= y <= MAX_VALUE_TO_MULTIPLY ->
  s64 (u64 (BASE_CLOCK_RATE_ARM11 * u64 y)) = BASE_CLOCK_RATE_ARM11 * y.
Proof.
  intros Hy. destruct (to_cycles_exact y 1 ltac:(lia) Hy) as [E _].
  unfold to_cycles, cycles_of in E. by rewrite !Z.div_1_r in E.
Qed.

(** for every non-negative argument the conversions of microseconds and
    nanoseconds to ticks return a value of [s64], never more than the exact
    quotient (capped at the largest [s64]) and less than one second of ticks
    below it; up to the multiplication limit they are exact. *)
Theorem conversions_bounded x :
  (0 <= x < 2 ^ 63 -> converts x 1000000 (usToCycles_s64 x) ∧ converts x 1000000000 (nsToCycles_s64 x)) ∧
  (0 <= x < 2 ^ 64 -> converts x 1000000 (usToCycles_u64 x)) ∧
  (0 <= x < 2 ^ 63 -> converts x 1000000000 (nsToCycles_u64 x)).
Proof.
  split; [|split]; intros Hx; [split| |]; (apply converts_cases; [lia|lia|..]);
    intros; unfold usToCycles_s64, nsToCycles_s64, usToCycles_u64, nsToCycles_u64;
    rewrite ?Z.quot_div_nonneg by lia; zcases; try lia; try done;
    rewrite ?(swrap_id 64 x), ?Z.quot_div_nonneg by (unfold in_srange, MAX_VALUE_TO_MULTIPLY, BASE_CLOCK_RATE_ARM11 in *; modlia);
    rewrite ?(swrap_id 64 (x / 1000000)) by (unfold in_srange, MAX_VALUE_TO_MULTIPLY, BASE_CLOCK_RATE_ARM11 in *; modlia);
    rewrite ?seconds_exact by (split; [apply Z.div_pos; lia|lia]); done.
Qed.

Lemma conversions_bounded_witness : converts 4481134 1000000000 (nsToCycles_s64 4481134) ∧
  converts (2 ^ 60) 1000000 (usToCycles_s64 (2 ^ 60)).
Proof.
  split; [apply (proj1 (conversions_bounded 4481134))|apply (proj1 (conversions_bounded (2 ^ 60)))];
    split; done.
Defined.

(** Outside those bounds: [nsToCycles(u64)] converts its argument to [s64]
    before it divides, so from 2^63 nanoseconds the result is negative. *)
Example nsToCycles_u64_negative : nsToCycles_u64 (2 ^ 63) < 0.
Proof. reflexivity. Qed.

(** The conversions from [int] multiply by an unsigned clock rate: a negative
    time is not converted to a negative number of ticks. *)
Example msToCycles_negative : msToCycles_int (-1) = 18446744073441439.
Proof. reflexivity. Qed.

(** * The event queue *)

(** [a] is served before [b]. *)
Definition before (a b : Event) : Prop :=
  ev_time a < ev_time b ∨ ev_time a = ev_time b ∧ fifo_order a < fifo_order b.

Lemma event_lt_spec a b : event_lt a b = true <-> before a b.
Proof. unfold event_lt, before. rewrite orb_true_iff, andb_true_iff, !Z.ltb_lt, Z.eqb_eq. lia. Qed.
Lemma event_gt_spec a b : event_gt a b = true <-> before b a.
Proof. unfold event_gt, before. rewrite orb_true_iff, andb_true_iff, !Z.ltb_lt, Z.eqb_eq. lia. Qed.
#[export] Instance before_trans : Transitive before.
Proof. unfold before. intros a b c. lia. Qed.
Lemma before_irrefl a : ~ before a a.
Proof. unfold before. lia. Qed.

(** The queue is in the order of service, its arrival numbers are below the
    next one, and the times are machine integers. *)
Record queue_ok (q : list Event) (next : Z) : Prop := {
  q_sorted : StronglySorted before q;
  q_fifo : Forall (fun e => 0 <= fifo_order e < next) q;
  q_times : Forall (fun e => in_srange 64 (ev_time e)) q
}.

(** A new event goes after those that are due no later, before the others. *)
Lemma heap_push_split ev q next : queue_ok q next -> next <= fifo_order ev ->
  ∃ l r, q = l ++ r ∧ heap_push ev q = l ++ ev :: r ∧
    Forall (fun e => ev_time e <= ev_time ev) l ∧ Forall (fun e => ev_time ev < ev_time e) r.
Proof.
  intros [S F _] Hn. induction q as [|e q IH]; [by exists [], []|].
  apply StronglySorted_inv in S as [S H]. apply Forall_cons in F as [Fe F]. cbn [heap_push].
  destruct (event_lt ev e) eqn:E.
  - apply event_lt_spec in E. exists [], (e :: q). split; [done|]. split; [done|]. split; [done|].
    assert (L : ev_time ev < ev_time e) by (unfold before in E; lia).
    constructor; [done|]. eapply Forall_impl; [exact H|]. intros x Hx. unfold before in Hx. lia.
  - destruct (IH S F) as (l & r & -> & -> & H1 & H2). exists (e :: l), r.
    split; [done|]. split; [done|]. split; [|done]. constructor; [|done].
    destruct (Z.le_gt_cases (ev_time e) (ev_time ev)) as [?|G]; [done|].
    rewrite (proj2 (event_lt_spec ev e)) in E; [done|by left; lia].
Qed.

Lemma heap_push_ok ev q next : queue_ok q next -> 0 <= next ->
  fifo_order ev = next -> in_srange 64 (ev_time ev) ->
  queue_ok (heap_push ev q) (next + 1).
Proof.
  intros Q Hn En Ht. destruct (heap_push_split ev q next Q ltac:(lia)) as (l & r & -> & -> & H1 & H2).
  destruct Q as [S F T]. rewrite Forall_app in F, T. destruct F as [Fl Fr], T as [Tl Tr].
  apply StronglySorted_app in S as (Sx & Sl & Sr). constructor.
  - apply StronglySorted_app. split; [|split].
    + intros a b Ha Hb. apply elem_of_cons in Hb as [->|Hb]; [|by apply Sx].
      rewrite Forall_forall in H1, Fl. specialize (H1 _ Ha). specialize (Fl _ Ha). unfold before. lia.
    + done.
    + constructor; [done|]. eapply Forall_impl; [exact H2|]. intros b Hb. by left.
  - rewrite Forall_app, Forall_cons. split; [|split; [lia|]].
    + eapply Forall_impl; [exact Fl|]. cbv beta. intros. lia.
    + eapply Forall_impl; [exact Fr|]. cbv beta. intros. lia.
  - rewrite Forall_app, Forall_cons. done.
Qed.

Lemma heap_push_perm ev q : heap_push ev q ≡ₚ ev :: q.
Proof.
  induction q as [|e q IH]; [done|]. cbn [heap_push]. destruct (event_lt ev e); [done|].
  rewrite IH. constructor.
Qed.

Lemma queue_ok_tail e q next : queue_ok (e :: q) next -> queue_ok q next ∧ Forall (before e) q.
Proof.
  intros [S F T]. apply StronglySorted_inv in S as [S H]. apply Forall_cons in F as [_ F].
  apply Forall_cons in T as [_ T]. by split.
Qed.

Lemma queue_ok_sublist q q' next : queue_ok q next -> q' `sublist_of` q -> queue_ok q' next.
Proof.
  intros Q Sub. induction Sub as [|x l1 l2 Sub IH|x l1 l2 Sub IH]; [done| |].
  - destruct (queue_ok_tail _ _ _ Q) as [Q' H]. destruct (IH Q') as [S F T].
    destruct Q as [_ F2 T2]. apply Forall_cons in F2 as [F2 _]. apply Forall_cons in T2 as [T2 _].
    constructor; [|by constructor|by constructor]. constructor; [done|].
    apply Forall_forall. intros y Hy. rewrite Forall_forall in H. apply H.
    by eapply elem_of_sublist.
  - apply IH. by destruct (queue_ok_tail _ _ _ Q).
Qed.

(** * The invariant of a timer *)

Definition small (x : Z) : Prop := - 2 ^ 61 <= x < 2 ^ 61.

Record timer_ok (t : Timer) : Prop := {
  t_queue : queue_ok (event_queue t) (event_fifo_id t);
  t_fifo : 0 <= event_fifo_id t;
  t_executed : 0 <= executed_ticks t < 2 ^ 61;
  t_elapsed : 0 <= slice_length t - downcount t < 2 ^ 61;
  t_downcount : small (downcount t)
}.

(** While the core runs, its slice ends no later than its next event. *)
Definition slice_ok (t : Timer) : Prop :=
  is_timer_sane t = false ->
  Forall (fun e => executed_ticks t + slice_length t <= ev_time e) (event_queue t).

(** The guest time of the core. *)
Definition now (t : Timer) : Z :=
  executed_ticks t + (if is_timer_sane t then 0 else slice_length t - downcount t).

(** Machine arithmetic on small values is exact. *)
Ltac exact64 := rewrite ?swrap_uwrap, ?(swrap_id 64) by (lia || (unfold in_srange, small in *; modlia)).

Lemma ticks_now t x : timer_ok t -> small x -> s64 (u64 (Timer_GetTicks t + x)) = now t + x.
Proof.
  intros [_ _ E S D] Hx. unfold Timer_GetTicks, now. rewrite swrap_uwrap by lia.
  unfold small, in_srange, swrap, uwrap in *. destruct (is_timer_sane t); modlia.
Qed.

Lemma ForceExceptionCheck_spec t c : timer_ok t -> 0 <= c < 2 ^ 61 ->
  let t' := ForceExceptionCheck t c in
  timer_ok t' ∧ event_queue t' = event_queue t ∧ event_fifo_id t' = event_fifo_id t ∧
  executed_ticks t' = executed_ticks t ∧ is_timer_sane t' = is_timer_sane t ∧
  slice_length t' - downcount t' = slice_length t - downcount t ∧
  slice_length t' <= slice_length t ∧ downcount t' <= c.
Proof.
  intros T Hc. cbv zeta. unfold ForceExceptionCheck. rewrite Z.max_r by lia.
  destruct (Z.ltb_spec c (downcount t)); [|split_and!; try done; lia].
  destruct T as [Q F E S D]. cbn.
  rewrite swrap_id by (lia || (unfold in_srange, small in *; modlia)).
  split_and!; try done; unfold small in *; try lia. constructor; cbn; unfold small; try done; lia.
Qed.

(** The effect of scheduling an event on the timer of the running core. *)
Definition schedule_here (t : Timer) (c : Z) (event_type : string) (data : Z) : Timer :=
  let t1 := if is_timer_sane t then t else ForceExceptionCheck t c in
  t1<|event_fifo_id := u64 (event_fifo_id t + 1)|>
    <|event_queue := heap_push (mk_Event (now t + c) (event_fifo_id t) data event_type) (event_queue t)|>.

Lemma schedule_here_ok t c ty d : timer_ok t -> 0 <= c < 2 ^ 61 -> event_fifo_id t < 2 ^ 64 - 1 ->
  let t' := schedule_here t c ty d in
  timer_ok t' ∧ now t' = now t ∧ (slice_ok t -> slice_ok t').
Proof.
  intros T Hc Hf. cbv zeta. unfold schedule_here.
  destruct (ForceExceptionCheck_spec t c T Hc) as (T1 & Q1 & F1 & E1 & S1 & D1 & L1 & C1).
  set (t1 := if is_timer_sane t then t else ForceExceptionCheck t c).
  assert (H : timer_ok t1 ∧ executed_ticks t1 = executed_ticks t ∧ is_timer_sane t1 = is_timer_sane t ∧
    now t1 = now t ∧ slice_length t1 <= slice_length t ∧ (is_timer_sane t = false -> downcount t1 <= c)).
  { subst t1. destruct (is_timer_sane t) eqn:Es; [split_and!; try done; lia|].
    split_and!; try done. unfold now. rewrite E1, S1, Es. lia. }
  clearbody t1. destruct H as (T2 & E2 & S2 & N2 & L2 & C2).
  rewrite uwrap_id by (unfold in_range; destruct T; lia).
  split; [|split].
  - destruct T as [Q F E S D], T2 as [_ _ E' S' D']. constructor; cbn; try done; [|lia].
    apply heap_push_ok; try done. cbn. unfold now, in_srange, small in *. destruct (is_timer_sane t); modlia.
  - unfold now in *. cbn. exact N2.
  - intros So. unfold slice_ok, now in *. destruct t1. cbn in *. subst. intros Es.
    rewrite heap_push_perm, Forall_cons. split.
    + cbn. specialize (C2 Es). rewrite Es in *. lia.
    + eapply Forall_impl; [exact (So Es)|]. cbv beta. intros. lia.
Qed.

Lemma ScheduleEvent_here {CB} (s : Timing CB) t c ty d :
  event_queue_locked s = false -> timers s !! current_timer s = Some t ->
  timer_ok t -> 0 <= c < 2 ^ 61 ->
  ScheduleEvent s c ty d None false = Some (set_timer s (current_timer s) (schedule_here t c ty d)).
Proof.
  intros L H T Hc. unfold ScheduleEvent. rewrite L. cbn [default]. rewrite H.
  cbn [mbind option_bind]. rewrite decide_True by done. cbv zeta.
  rewrite ticks_now by (done || (unfold small; lia)).
  unfold schedule_here. destruct (is_timer_sane t); [done|].
  by destruct (ForceExceptionCheck_spec t c T Hc) as (_ & -> & -> & _).
Qed.

(** C38: scheduling an event on the running core succeeds, keeps the guest time
    and the invariant, puts the event at the given distance from now, after the
    events due no later and before the others, and cuts the slice short so that
    it still ends no later than the next event. *)
Theorem ScheduleEvent_on_time {CB} (s : Timing CB) t c ty d :
  event_queue_locked s = false -> timers s !! current_timer s = Some t ->
  timer_ok t -> slice_ok t -> 0 <= c < 2 ^ 61 -> event_fifo_id t < 2 ^ 64 - 1 ->
  ∃ s' t', ScheduleEvent s c ty d None false = Some s' ∧
    s' = set_timer s (current_timer s) t' ∧ timer_ok t' ∧ slice_ok t' ∧ now t' = now t ∧
    ∃ l r, event_queue t = l ++ r ∧
      event_queue t' = l ++ mk_Event (now t + c) (event_fifo_id t) d ty :: r ∧
      Forall (fun e => ev_time e <= now t + c) l ∧ Forall (fun e => now t + c < ev_time e) r.
Proof.
  intros L H T So Hc Hf. destruct (schedule_here_ok t c ty d T Hc Hf) as (T' & N' & S').
  eexists _, _. split; [by apply ScheduleEvent_here|]. split; [done|]. split; [done|].
  split; [by apply S'|]. split; [done|].
  apply (heap_push_split (mk_Event (now t + c) (event_fifo_id t) d ty) _ _ (t_queue _ T)). cbn. lia.
Qed.

(** * The loop of a core *)

Definition due (t : Timer) (e : Event) : Prop := ev_time e <= executed_ticks t.
#[export] Instance due_dec t e : Decision (due t e).
Proof. unfold due. apply _. Defined.

Section advance.
Context {CB : Type} (run : CB -> Z -> Z -> Timing CB -> Timing CB) (i : nat).
Implicit Types s : Timing CB.

(** The steps that serve the due events: each time the least event of the queue
    leaves it and its callback runs with the ticks by which it is late. *)
Inductive serves : Timing CB -> list Event -> Timing CB -> Prop :=
| serves_done s : Forall (fun e => ~ due (timer_at s i) e) (event_queue (timer_at s i)) -> serves s [] s
| serves_event s e rest l s' :
    event_queue (timer_at s i) ≡ₚ e :: rest -> Forall (before e) rest -> due (timer_at s i) e ->
    serves (fire_event run s i e rest) l s' -> serves s (e :: l) s'.

(** What [Advance] asks of a state, and of the callbacks: they keep the
    invariant, do not change the time, and add no event that is already due. *)
Definition timers_ok s : Prop := (i < length (timers s))%nat ∧ timer_ok (timer_at s i).
Definition callbacks_ok : Prop := ∀ cb d late s, timers_ok s ->
  let s' := run cb d late s in
  timers_ok s' ∧ executed_ticks (timer_at s' i) = executed_ticks (timer_at s i) ∧
  filter (due (timer_at s' i)) (event_queue (timer_at s' i))
    `sublist_of` filter (due (timer_at s i)) (event_queue (timer_at s i)).
Context (Hcb : callbacks_ok).

Lemma timer_at_set s t : (i < length (timers s))%nat -> timer_at (set_timer s i t) i = t.
Proof. intros H. unfold timer_at, set_timer. cbn. by rewrite list_lookup_total_insert, decide_True. Qed.

Lemma timers_ok_set s t : (i < length (timers s))%nat -> timer_ok t -> timers_ok (set_timer s i t).
Proof.
  intros H T. split; [unfold set_timer; cbn; by rewrite length_insert|]. by rewrite timer_at_set.
Qed.

Lemma fire_event_ok s e rest : timers_ok s -> event_queue (timer_at s i) = e :: rest ->
  let s' := fire_event run s i e rest in
  timers_ok s' ∧ executed_ticks (timer_at s' i) = executed_ticks (timer_at s i) ∧
  filter (due (timer_at s' i)) (event_queue (timer_at s' i))
    `sublist_of` filter (due (timer_at s i)) rest.
Proof.
  intros [Hi T] E. cbv zeta. unfold fire_event.
  set (s1 := set_timer s i _).
  assert (A : timer_at s1 i = (timer_at s i)<|event_queue := rest|>) by by apply timer_at_set.
  assert (H : timers_ok s1).
  { apply timers_ok_set; [done|]. destruct T as [Q F X S D]. constructor; cbn; try done.
    rewrite E in Q. by destruct (queue_ok_tail _ _ _ Q). }
  destruct (default None _) as [cb|].
  - destruct (Hcb cb (user_data e) (s32 (s64 (executed_ticks (timer_at s i) - ev_time e))) s1 H)
      as (H1 & H2 & H3). rewrite A in H2, H3. done.
  - rewrite A. done.
Qed.

Lemma due_front s e rest : timers_ok s -> event_queue (timer_at s i) = e :: rest ->
  ~ due (timer_at s i) e -> Forall (fun e => ~ due (timer_at s i) e) (e :: rest).
Proof.
  intros [_ T] E D. pose proof (t_queue _ T) as Q. rewrite E in Q.
  destruct (queue_ok_tail _ _ _ Q) as [_ H]. constructor; [done|].
  eapply Forall_impl; [exact H|]. intros x Hx. unfold due, before in *. lia.
Qed.

(** Serving ends after at most as many events as were due, which are served in
    order, each at most once. *)
Lemma fire_due_spec fuel : ∀ s, timers_ok s ->
  (length (filter (due (timer_at s i)) (event_queue (timer_at s i))) <= fuel)%nat ->
  ∃ l s', fire_due run fuel s i = Some s' ∧ serves s l s' ∧ timers_ok s' ∧
    executed_ticks (timer_at s' i) = executed_ticks (timer_at s i) ∧
    Forall (fun e => ~ due (timer_at s' i) e) (event_queue (timer_at s' i)) ∧
    l `sublist_of` filter (due (timer_at s i)) (event_queue (timer_at s i)).
Proof.
  induction fuel as [|fuel IH]; intros s Hs Hf; cbn [fire_due]; cbv zeta;
    (destruct (event_queue (timer_at s i)) as [|e rest] eqn:E;
     [exists [], s; split_and!; try done; [constructor|]; by rewrite E|];
     destruct (Z.leb_spec (ev_time e) (executed_ticks (timer_at s i))) as [L|L];
     [rewrite filter_cons_True in Hf |- * by done; cbn [length] in Hf
     |assert (F : Forall (fun e => ~ due (timer_at s i) e) (e :: rest))
        by (apply due_front; [done..|]; unfold due; lia);
      exists [], s; split_and!; try done; [constructor| |apply sublist_nil_l]; by rewrite E]); [lia|].
  destruct (fire_event_ok s e rest Hs E) as (H1 & H2 & H3).
  destruct (IH (fire_event run s i e rest) H1) as (l & s' & E1 & E2 & E3 & E4 & E5 & E6).
  { apply sublist_length in H3. lia. }
  exists (e :: l), s'. split_and!; try done.
  - econstructor; [by rewrite E| |done|done]. pose proof (t_queue _ (proj2 Hs)) as Q. rewrite E in Q.
    by destruct (queue_ok_tail _ _ _ Q).
  - congruence.
  - apply sublist_skip. by etrans.
Qed.
End advance.

(** ** The start of a slice *)

Lemma move_events_ok evs : ∀ t, timer_ok t -> Forall (fun e => in_srange 64 (ev_time e)) evs ->
  event_fifo_id t + Z.of_nat (length evs) < 2 ^ 64 ->
  let t' := foldl move_event t evs in
  timer_ok t' ∧ executed_ticks t' = executed_ticks t ∧ slice_length t' = slice_length t ∧
  downcount t' = downcount t ∧
  length (event_queue t') = (length (event_queue t) + length evs)%nat.
Proof.
  induction evs as [|e evs IH]; intros t T F Hn; cbn [foldl]; cbv zeta.
  { by split_and!. }
  apply Forall_cons in F as [Fe F]. cbn [length] in Hn.
  assert (T' : timer_ok (move_event t e)).
  { destruct T as [Q Fi X S D]. unfold move_event.
    rewrite uwrap_id by (unfold in_range; lia). constructor; cbn; try done; [|lia].
    by apply heap_push_ok. }
  assert (event_fifo_id (move_event t e) = event_fifo_id t + 1) as Ef.
  { unfold move_event. cbn. apply uwrap_id. destruct T. unfold in_range. lia. }
  destruct (IH _ T' F) as (H1 & H2 & H3 & H4 & H5); [rewrite Ef; lia|].
  split_and!; try done. rewrite H5. unfold move_event. cbn.
  rewrite (Permutation_length (heap_push_perm _ _)). cbn. lia.
Qed.

(** What a slice must satisfy when it ends. *)
Record slice_end (t : Timer) : Prop := {
  se_ok : timer_ok t;
  se_arrivals : Forall (fun e => in_srange 64 (ev_time e)) (ts_queue t);
  se_fifo : event_fifo_id t + Z.of_nat (length (ts_queue t)) < 2 ^ 64;
  se_time : executed_ticks t + (slice_length t - downcount t) < 2 ^ 61
}.

Lemma begin_slice_ok t : slice_end t ->
  let t' := begin_slice t in
  timer_ok t' ∧ executed_ticks t' = executed_ticks t + (slice_length t - downcount t) ∧
  length (event_queue t') = (length (event_queue t) + length (ts_queue t))%nat.
Proof.
  intros [T A F X]. cbv zeta.
  assert (T0 : timer_ok (t<|ts_queue := []|>)) by (destruct T; by constructor).
  destruct (move_events_ok (ts_queue t) _ T0 A F) as (H1 & H2 & H3 & H4 & H5).
  change (executed_ticks (t<|ts_queue := []|>)) with (executed_ticks t) in H2.
  change (slice_length (t<|ts_queue := []|>)) with (slice_length t) in H3.
  change (downcount (t<|ts_queue := []|>)) with (downcount t) in H4.
  change (event_queue (t<|ts_queue := []|>)) with (event_queue t) in H5.
  unfold begin_slice, MoveEvents.
  set (t1 := foldl move_event _ _) in *. clearbody t1.
  assert (Ex : s64 (executed_ticks t1 + s64 (slice_length t1 - downcount t1))
               = executed_ticks t + (slice_length t - downcount t)).
  { rewrite H2, H3, H4. destruct T as [_ _ E S D]. unfold small in *.
    rewrite (swrap_id 64 (slice_length t - downcount t)) by (lia || (unfold in_srange; modlia)).
    apply swrap_id; [lia|unfold in_srange; modlia]. }
  cbn. split_and!; [|done|done]. destruct H1 as [Q Fi E S D], T as [_ _ E' S' _].
  constructor; cbn; rewrite ?Ex; try done; unfold small; lia.
Qed.

(** The next slice ends no later than the first event. *)
Lemma SetNextSlice_ok t m : timer_ok t -> 0 < m < 2 ^ 31 ->
  Forall (fun e => executed_ticks t < ev_time e) (event_queue t) ->
  let t' := SetNextSlice t m in
  timer_ok t' ∧ (is_timer_sane t = false -> slice_ok t' ∧ now t' = executed_ticks t) ∧
  0 < slice_length t' <= m ∧ downcount t' = slice_length t'.
Proof.
  intros T Hm F. pose proof T as [Q Fi E S D]. cbv zeta. unfold SetNextSlice.
  set (slice := match event_queue t with [] => _ | _ => _ end).
  assert (H : 0 < slice <= m ∧ Forall (fun e => executed_ticks t + slice <= ev_time e) (event_queue t)).
  { subst slice. destruct (event_queue t) as [|e rest] eqn:Eq; [split; [lia|done]|].
    destruct (queue_ok_tail _ _ _ Q) as [_ Hb]. destruct Q as [_ _ Ti].
    apply Forall_cons in F as [Fe F]. apply Forall_cons in Ti as [Ti _]. unfold in_srange in Ti.
    rewrite (swrap_id 64) by (lia || (unfold in_srange; modlia)).
    rewrite swrap_id by (lia || (unfold in_srange; modlia)). split; [lia|]. constructor; [lia|].
    eapply Forall_impl; [exact Hb|]. intros x Hx. unfold before in Hx. lia. }
  clearbody slice. destruct H as [H1 H2]. cbn. split_and!; try done; try lia.
  - constructor; cbn; try done; unfold small; lia.
  - intros Es. split; [by intros _|]. unfold now. destruct t; cbn in *. rewrite Es. lia.
Qed.

Lemma GetMaxSliceLength_some t : timer_ok t ->
  Forall (fun e => executed_ticks t < ev_time e) (event_queue t) ->
  ∃ m, GetMaxSliceLength t = Some m ∧ 0 < m.
Proof.
  intros [Q _ E _ _] F. unfold GetMaxSliceLength.
  destruct (event_queue t) as [|e rest]; [by exists MAX_SLICE_LENGTH|].
  apply Forall_cons in F as [F _]. destruct Q as [_ _ Ti]. apply Forall_cons in Ti as [Ti _].
  unfold in_srange in Ti. rewrite swrap_id by (lia || (unfold in_srange; modlia)).
  rewrite (proj2 (Z.ltb_lt _ _)) by lia. eexists. split; [done|lia].
Qed.


(** A callback that schedules its event again, at a positive distance, keeps
    within what [Advance] asks. *)
Definition again (period data : Z) (late : Z) (s : Timing Z) : Timing Z :=
  match timers s !! current_timer s with
  | Some t =>
      if bool_decide (event_queue_locked s = false ∧ event_fifo_id t < 2 ^ 64 - 1 ∧ 0 < period < 2 ^ 61)
      then default s (ScheduleEvent s period "again" data None false) else s
  | None => s
  end.

Lemma timer_at_other {CB} (s : Timing CB) i j t : i ≠ j -> timer_at (set_timer s j t) i = timer_at s i.
Proof. intros. unfold timer_at, set_timer. cbn. by rewrite list_lookup_total_insert_ne. Qed.

Lemma again_ok i : callbacks_ok again i.
Proof.
  intros p d late s [Hi T]. cbv zeta. unfold again.
  destruct (timers s !! current_timer s) as [t|] eqn:Et; [|done].
  case_bool_decide as C; [|done]. destruct C as (L & Hf & Hp).
  destruct (decide (current_timer s = i)) as [<-|N].
  - assert (timer_at s (current_timer s) = t) as At by by apply list_lookup_total_correct.
    rewrite At in T. rewrite (ScheduleEvent_here s t) by (done || lia). cbn [default id].
    destruct (schedule_here_ok t p "again" d T ltac:(lia) Hf) as (T' & N' & _).
    assert (Ex : executed_ticks (schedule_here t p "again" d) = executed_ticks t).
    { unfold schedule_here. destruct (is_timer_sane t); [done|].
      by destruct (ForceExceptionCheck_spec t p T ltac:(lia)) as (_ & _ & _ & ? & _). }
    split; [by apply timers_ok_set|]. rewrite timer_at_set, At by done. split; [done|].
    assert (Eq : event_queue (schedule_here t p "again" d)
      = heap_push (mk_Event (now t + p) (event_fifo_id t) d "again") (event_queue t)).
    { unfold schedule_here. by destruct (is_timer_sane t). }
    rewrite Eq, (list_filter_iff (due (schedule_here t p "again" d)) (due t))
      by (intros x; unfold due; by rewrite Ex).
    destruct (heap_push_split (mk_Event (now t + p) (event_fifo_id t) d "again") _ _ (t_queue _ T))
      as (l & r & -> & -> & _ & _); [cbn; lia|].
    rewrite !filter_app, filter_cons_False; [done|]. unfold due, now. cbn.
    destruct T as [_ _ E S D]. destruct (is_timer_sane t); lia.
  - destruct (ScheduleEvent s p "again" d None false) as [s'|] eqn:Es; [|done]. cbn [default id].
    unfold ScheduleEvent in Es. rewrite L in Es. cbn [default] in Es. rewrite Et in Es.
    cbn [mbind option_bind] in Es. rewrite decide_True in Es by done. cbv zeta in Es.
    injection Es as <-. unfold timers_ok. rewrite !timer_at_other by done.
    split; [|done]. split; [|done]. unfold set_timer. cbn. by rewrite length_insert.
Qed.

Definition ticking : Timing Z :=
  mk_Timing {["again" := Some 1000]}
    [mk_Timer [mk_Event 1100 0 7 "again"; mk_Event 1200 2 8 "again"; mk_Event 9000 1 9 "again"] 3 []
       false 500 (-20) 1000 0 id] 0 false.


(** A running core, 50 ticks into its slice of 500. *)
Definition running : Timing Z :=
  mk_Timing ∅ [mk_Timer [mk_Event 1500 2 8 "vblank"] 3 [] false 500 450 1000 0 id] 0 false.

Lemma ScheduleEvent_on_time_witness : ∃ s' t', ScheduleEvent running 100 "timer" 5 None false = Some s' ∧
  s' = set_timer running 0 t' ∧ slice_ok t' ∧ now t' = 1050 ∧ slice_length t' = 150.
Proof.
  destruct (ScheduleEvent_on_time running (timer_at running 0) 100 "timer" 5)
    as (s' & t' & E1 & E2 & _ & E3 & E4 & _).
  1-2: done.
  - constructor; cbn; try done. constructor; repeat constructor; done.
  - intros _. repeat constructor; done.
  - done.
  - done.
  - exists s', t'. split; [exact E1|]. split; [exact E2|]. split; [exact E3|]. split; [exact E4|].
    vm_compute in E1. injection E1 as <-. apply (f_equal timers) in E2. vm_compute in E2.
    by injection E2 as <-.
Defined.
