(* ===== verification/KernelState.v ===== *)
(** The state of the kernel's threads and synchronisation objects: [thread.h],
    [wait_object.h], [mutex.h], [semaphore.h], [event.h], [timer.h],
    [server_port.h], [server_session.h], [address_arbiter.h].

    Objects are shared by pointers.  A pointer to a thread is a number, the
    index of the thread in the store; a pointer to a waitable object is tagged
    with the class of the object, which decides its virtual methods.  The base
    class [WaitObject] of every object is kept apart from the fields of its
    class, so that both can be updated on their own. *)

From stdpp Require Import strings pretty.
From S2P Require Import Prelude ThreadQueueList CoreTiming ResourceLimit.

(** * Enumerations *)

(* src: kernel/thread.h *)
Definition ThreadPrioHighest : Z := 0.
(* src: kernel/thread.h *)
Definition ThreadPrioUserlandMax : Z := 24.
(* src: kernel/thread.h *)
Definition ThreadPrioDefault : Z := 48.
(* src: kernel/thread.h *)
Definition ThreadPrioLowest : Z := 63.

(* src: kernel/thread.h | enum class ThreadStatus { *)
Inductive ThreadStatus :=
  Running | Ready | WaitArb | WaitSleep | WaitIPC | WaitSynchAny | WaitSynchAll | WaitHleEvent
| Dormant | Dead.
#[export] Instance ThreadStatus_eq_dec : EqDecision ThreadStatus.
Proof. solve_decision. Defined.

(* src: kernel/thread.h | enum class ThreadWakeupReason { *)
Inductive ThreadWakeupReason := Signal | Timeout.
#[export] Instance ThreadWakeupReason_eq_dec : EqDecision ThreadWakeupReason.
Proof. solve_decision. Defined.

(* src: kernel/kernel.h | enum class ResetType { *)
Inductive ResetType := OneShot | Sticky | Pulse.
#[export] Instance ResetType_eq_dec : EqDecision ResetType.
Proof. solve_decision. Defined.

(* src: address_arbiter.h | enum class ArbitrationType : u32 { *)
Inductive ArbitrationType :=
  ArbSignal | WaitIfLessThan | DecrementAndWaitIfLessThan | WaitIfLessThanWithTimeout
| DecrementAndWaitIfLessThanWithTimeout.
#[export] Instance ArbitrationType_eq_dec : EqDecision ArbitrationType.
Proof. solve_decision. Defined.

(** * Pointers *)

Abbreviation ThreadPtr := nat (only parsing).

(** A pointer to a waitable object. *)
Inductive Ptr :=
  PThread (t : nat) | PMutex (m : nat) | PSemaphore (s : nat) | PEvent (e : nat) | PTimer (t : nat)
| PServerPort (p : nat) | PServerSession (s : nat).
#[export] Instance Ptr_eq_dec : EqDecision Ptr.
Proof. solve_decision. Defined.

Definition Ptr_encode (p : Ptr) : nat * nat :=
  match p with
  | PThread x => (0, x) | PMutex x => (1, x) | PSemaphore x => (2, x) | PEvent x => (3, x)
  | PTimer x => (4, x) | PServerPort x => (5, x) | PServerSession x => (6, x)
  end%nat.
Definition Ptr_decode (p : nat * nat) : option Ptr :=
  match p with
  | (0, x) => Some (PThread x) | (1, x) => Some (PMutex x) | (2, x) => Some (PSemaphore x)
  | (3, x) => Some (PEvent x) | (4, x) => Some (PTimer x) | (5, x) => Some (PServerPort x)
  | (6, x) => Some (PServerSession x) | _ => None
  end%nat.
#[export, refine] Instance Ptr_countable : Countable Ptr := inj_countable Ptr_encode Ptr_decode _.
Proof. by intros []. Defined.

(** * Threads *)

(* src: arm_interface.h | struct ThreadContext { *)
Record ThreadContext := mk_ThreadContext {
  cpu_registers : list Z;   (* 16 *)
  cpsr : Z;
  fpu_registers : list Z;   (* 64 *)
  fpscr : Z;
  fpexc : Z
}.
Definition new_ThreadContext : ThreadContext :=
  mk_ThreadContext (replicate 16 0) 0 (replicate 64 0) 0 0.

(* src: arm_interface.h | void SetStackPointer(u32 value) { *)
Definition SetStackPointer (c : ThreadContext) (value : Z) : ThreadContext :=
  c<|cpu_registers := <[13%nat := value]> (cpu_registers c)|>.
(* src: arm_interface.h | void SetLinkRegister(u32 value) { *)
Definition SetLinkRegister (c : ThreadContext) (value : Z) : ThreadContext :=
  c<|cpu_registers := <[14%nat := value]> (cpu_registers c)|>.
(* src: arm_interface.h | void SetProgramCounter(u32 value) { *)
Definition SetProgramCounter (c : ThreadContext) (value : Z) : ThreadContext :=
  c<|cpu_registers := <[15%nat := value]> (cpu_registers c)|>.

(** The classes of callbacks: [SVC_SyncCallback], the callback of an address
    arbiter, and those of the IPC layer, which are outside of this component. *)
Inductive WakeupCallback :=
  SVC_SyncCallback (do_output : bool) | ArbiterCallback (a : nat) | ExternCallback (n : nat).
#[export] Instance WakeupCallback_eq_dec : EqDecision WakeupCallback.
Proof. solve_decision. Defined.

(* src: kernel/thread.h | class Thread final : public WaitObject { *)
Record Thread := mk_Thread {
  context : ThreadContext;
  thread_id : Z;
  can_schedule : bool;
  status : ThreadStatus;
  entry_point : Z;
  stack_top : Z;
  nominal_priority : Z;
  current_priority : Z;
  last_running_ticks : Z;
  processor_id : Z;
  tls_address : Z;
  held_mutexes : gset nat;
  pending_mutexes : gset nat;
  owner_process : nat;
  wait_objects : list Ptr;
  wait_address : Z;
  wakeup_callback : option WakeupCallback;
  core_id : nat
}.
#[export] Instance Thread_inhabited : Inhabited Thread :=
  populate (mk_Thread new_ThreadContext 0 true Dormant 0 0 0 0 0 0 0 ∅ ∅ 0 [] 0 None 0).

(** * Objects *)

(** [hle_notifier] is the index of a function of the emulated services. *)
(* src: wait_object.h | class WaitObject : public Object { *)
Record WaitObject := mk_WaitObject { waiting_threads : list nat; hle_notifier : option nat }.
#[export] Instance WaitObject_inhabited : Inhabited WaitObject := populate (mk_WaitObject [] None).

(* src: mutex.h | class Mutex final : public WaitObject { *)
Record Mutex := mk_Mutex { lock_count : Z; priority : Z; holding_thread : option nat }.
#[export] Instance Mutex_inhabited : Inhabited Mutex := populate (mk_Mutex 0 0 None).

(* src: kernel/semaphore.h | class Semaphore final : public WaitObject { *)
Record Semaphore := mk_Semaphore { max_count : Z; available_count : Z }.
#[export] Instance Semaphore_inhabited : Inhabited Semaphore := populate (mk_Semaphore 0 0).

(* src: kernel/event.h | class Event final : public WaitObject { *)
Record Event := mk_KEvent { event_reset_type : ResetType; event_signaled : bool }.
#[export] Instance KEvent_inhabited : Inhabited Event := populate (mk_KEvent OneShot false).

(* src: kernel/timer.h | class Timer final : public WaitObject { *)
Record Timer := mk_KTimer {
  timer_reset_type : ResetType;
  initial_delay : Z;    (* u64 *)
  interval_delay : Z;   (* u64 *)
  timer_signaled : bool;
  callback_id : Z
}.
#[export] Instance KTimer_inhabited : Inhabited Timer := populate (mk_KTimer OneShot 0 0 false 0).

(* src: kernel/server_port.h | class ServerPort final : public WaitObject { *)
Record ServerPort := mk_ServerPort { pending_sessions : list nat }.
#[export] Instance ServerPort_inhabited : Inhabited ServerPort := populate (mk_ServerPort []).

(** [client_open] says whether [parent->client] is not null. *)
(* src: server_session.h | std::shared_ptr<Session> parent; ///< | ServerSession | ..std::shared_ptr<Thread> currently_handling; *)
Record ServerSession := mk_ServerSession {
  client_open : bool;
  pending_requesting_threads : list nat;
  currently_handling : option nat
}.
#[export] Instance ServerSession_inhabited : Inhabited ServerSession :=
  populate (mk_ServerSession false [] None).

(* src: address_arbiter.h | class AddressArbiter final : public Object, public WakeupCallback { *)
Record AddressArbiter := mk_AddressArbiter { arb_waiting_threads : list nat }.
#[export] Instance AddressArbiter_inhabited : Inhabited AddressArbiter := populate (mk_AddressArbiter []).

(** * The kernel *)

(** The core's registers stand for [cpu]. *)
(* src: kernel/thread.h | class ThreadManager { *)
Record ThreadManager := mk_ThreadManager {
  current_thread : option nat;
  ready_queue : ThreadQueueList nat;
  unscheduled_ready_queue : list nat;
  wakeup_callback_table : gmap Z nat;
  thread_list : list nat;
  cpu_context : ThreadContext;
  cpu_uro : Z
}.
Definition NUM_QUEUES : nat := 64.
Definition new_ThreadManager : ThreadManager :=
  mk_ThreadManager None (new_ThreadQueueList NUM_QUEUES) [] ∅ [] new_ThreadContext 0.
#[export] Instance ThreadManager_inhabited : Inhabited ThreadManager := populate new_ThreadManager.

(** What the kernel's timed events do. *)
Inductive TimingCallback := ThreadWakeupCB (core : nat) | TimerCB.
#[export] Instance TimingCallback_eq_dec : EqDecision TimingCallback.
Proof. solve_decision. Defined.

(** The part of a process the threads use. *)
(* src: kernel/process.h | std::vector<std::bitset<8>> tls_slots; | Process | +1 *)
Record Process := mk_Process { tls_slots : list Z; resource_limit : ResourceLimit }.
#[export] Instance Process_inhabited : Inhabited Process := populate (mk_Process [] inhabitant).

(** [current_process c] is the process the core [c] runs; [running_core] the
    core that runs, [reschedule_pending] is set by [PrepareReschedule]. *)
Record KernelSystem := mk_KernelSystem {
  threads : gmap nat Thread;
  wait_objs : gmap Ptr WaitObject;
  mutexes : gmap nat Mutex;
  semaphores : gmap nat Semaphore;
  events : gmap nat Event;
  ktimers : gmap nat Timer;
  server_ports : gmap nat ServerPort;
  server_sessions : gmap nat ServerSession;
  arbiters : gmap nat AddressArbiter;
  processes : gmap nat Process;
  thread_managers : gmap nat ThreadManager;
  timer_callback_table : gmap Z nat;
  next_timer_callback_id : Z;
  timing : Timing TimingCallback;
  current_process : gmap nat nat;
  running_core : nat;
  reschedule_pending : bool
}.
Implicit Types (k : KernelSystem).

(** ** Following a pointer *)

Definition thread k (t : nat) : Thread := threads k !!! t.
Definition wobj k (o : Ptr) : WaitObject := wait_objs k !!! o.
Definition mutex k (m : nat) : Mutex := mutexes k !!! m.
Definition semaphore k (s : nat) : Semaphore := semaphores k !!! s.
Definition event k (e : nat) : Event := events k !!! e.
Definition ktimer k (t : nat) : Timer := ktimers k !!! t.
Definition server_session k (s : nat) : ServerSession := server_sessions k !!! s.
Definition arbiter k (a : nat) : AddressArbiter := arbiters k !!! a.
Definition manager k (c : nat) : ThreadManager := thread_managers k !!! c.

(** ** Updating an object *)

Definition set_thread k (t : nat) (x : Thread) : KernelSystem := k<|threads := <[t := x]> (threads k)|>.
Definition set_wobj k (o : Ptr) (x : WaitObject) : KernelSystem := k<|wait_objs := <[o := x]> (wait_objs k)|>.
Definition set_mutex k (m : nat) (x : Mutex) : KernelSystem := k<|mutexes := <[m := x]> (mutexes k)|>.
Definition set_semaphore k (s : nat) (x : Semaphore) : KernelSystem :=
  k<|semaphores := <[s := x]> (semaphores k)|>.
Definition set_event k (e : nat) (x : Event) : KernelSystem := k<|events := <[e := x]> (events k)|>.
Definition set_ktimer k (t : nat) (x : Timer) : KernelSystem := k<|ktimers := <[t := x]> (ktimers k)|>.
Definition set_server_session k (s : nat) (x : ServerSession) : KernelSystem :=
  k<|server_sessions := <[s := x]> (server_sessions k)|>.
Definition set_arbiter k (a : nat) (x : AddressArbiter) : KernelSystem :=
  k<|arbiters := <[a := x]> (arbiters k)|>.
Definition set_manager k (c : nat) (x : ThreadManager) : KernelSystem :=
  k<|thread_managers := <[c := x]> (thread_managers k)|>.

Definition waiting k (o : Ptr) : list nat := waiting_threads (wobj k o).

(* src: kernel/kernel.h | void PrepareReschedule() { *)
Definition PrepareReschedule k : KernelSystem := k<|reschedule_pending := true|>.

(** The event type of a core's wake-ups, named after the core. *)
Definition ThreadWakeupEventType (core : nat) : string :=
  ("ThreadWakeupCallback_" ++ pretty core)%string.
