(* ===== verification/Sync.v ===== *)
(** The operations of threads and waitable objects: [thread.cpp],
    [wait_object.cpp], [mutex.cpp], [semaphore.cpp], [event.cpp], [timer.cpp],
    [server_port.cpp], [server_session.cpp].

    A failed assertion is [None].  Virtual methods dispatch on the pointer's
    tag.  The debug assertions of [ResumeFromWait], which a release build does
    not have, return without an effect as the code after them does. *)

From stdpp Require Import strings.
From S2P Require Import Prelude ThreadQueueList CoreTiming Result ResourceLimit KernelState.

Implicit Types (k : KernelSystem) (t m : nat) (o : Ptr).

(** What the kernel calls outside of this component: the other classes of
    wake-up callbacks, the notifiers of the emulated services, and the accesses
    to the emulated memory. *)
Class Environment := {
  extern_wakeup : nat -> ThreadWakeupReason -> nat -> option Ptr -> KernelSystem -> option KernelSystem;
  hle_notify : nat -> KernelSystem -> KernelSystem;
  Read32 : KernelSystem -> Z -> Z;
  Write32 : KernelSystem -> Z -> Z -> KernelSystem
}.

(** * Priorities *)

Definition on_queue k (c : nat) (f : ThreadQueueList nat -> ThreadQueueList nat) : KernelSystem :=
  set_manager k c ((manager k c)<|ready_queue := f (ready_queue (manager k c))|>).

Definition level (priority : Z) : nat := Z.to_nat priority.

(* src: kernel/thread.cpp | void Thread::BoostPriority(u32 priority) { *)
Definition BoostPriority k t (priority : Z) : KernelSystem :=
  let th := thread k t in
  let k := on_queue k (core_id th)
    (if decide (status th = Ready)
     then fun q => move q t (level (current_priority th)) (level priority)
     else fun q => prepare q (level priority)) in
  set_thread k t (th<|current_priority := priority|>).

(* src: kernel/thread.cpp | void Thread::SetPriority(u32 priority) { *)
Definition SetPriority k t (priority : Z) : option KernelSystem :=
  if (priority <=? ThreadPrioLowest) && (ThreadPrioHighest <=? priority) then
    let th := thread k t in
    let k := on_queue k (core_id th)
      (if decide (status th = Ready)
       then fun q => move q t (level (current_priority th)) (level priority)
       else fun q => prepare q (level priority)) in
    Some (set_thread k t (th<|current_priority := priority|><|nominal_priority := priority|>))
  else None.

(** The least of [start] and the values of [f]. *)
Definition best_of {A} (f : A -> Z) (start : Z) (l : list A) : Z :=
  foldl (fun best x => if f x <? best then f x else best) start l.

(* src: kernel/thread.cpp | void Thread::UpdatePriority() { *)
Definition Thread_UpdatePriority k t : KernelSystem :=
  let th := thread k t in
  BoostPriority k t
    (best_of (fun m => priority (mutex k m)) (nominal_priority th) (elements (held_mutexes th))).

(* src: kernel/mutex.cpp | void Mutex::UpdatePriority() { *)
Definition Mutex_UpdatePriority k m : KernelSystem :=
  match holding_thread (mutex k m) with
  | None => k
  | Some holder =>
      let best_priority :=
        best_of (fun t => current_priority (thread k t)) ThreadPrioLowest (waiting k (PMutex m)) in
      if best_priority =? priority (mutex k m) then k
      else Thread_UpdatePriority (set_mutex k m ((mutex k m)<|priority := best_priority|>)) holder
  end.

(** * Waiting lists *)

(** Erasing the first occurrence. *)
Fixpoint erase_first (x : nat) (l : list nat) : list nat :=
  match l with
  | [] => []
  | y :: l => if decide (y = x) then l else y :: erase_first x l
  end.

Definition set_waiting k o (l : list nat) : KernelSystem :=
  set_wobj k o ((wobj k o)<|waiting_threads := l|>).

(* src: wait_object.cpp | void WaitObject::AddWaitingThread(std::shared_ptr<Thread> thread) { *)
Definition WaitObject_AddWaitingThread k o t : KernelSystem :=
  if decide (t ∈ waiting k o) then k else set_waiting k o (waiting k o ++ [t]).
(* src: wait_object.cpp | void WaitObject::RemoveWaitingThread(Thread* thread) { *)
Definition WaitObject_RemoveWaitingThread k o t : KernelSystem :=
  set_waiting k o (erase_first t (waiting k o)).

(* src: kernel/mutex.cpp | void Mutex::AddWaitingThread(std::shared_ptr<Thread> thread) { *)
Definition Mutex_AddWaitingThread k m t : KernelSystem :=
  let k := WaitObject_AddWaitingThread k (PMutex m) t in
  let k := set_thread k t ((thread k t)<|pending_mutexes := {[m]} ∪ pending_mutexes (thread k t)|>) in
  Mutex_UpdatePriority k m.
(* src: kernel/mutex.cpp | void Mutex::RemoveWaitingThread(Thread* thread) { *)
Definition Mutex_RemoveWaitingThread k m t : KernelSystem :=
  let k := WaitObject_RemoveWaitingThread k (PMutex m) t in
  let k := set_thread k t ((thread k t)<|pending_mutexes := pending_mutexes (thread k t) ∖ {[m]}|>) in
  Mutex_UpdatePriority k m.

(* src: wait_object.h | virtual void AddWaitingThread(std::shared_ptr<Thread> thread); *)
Definition AddWaitingThread k o t : KernelSystem :=
  match o with PMutex m => Mutex_AddWaitingThread k m t | _ => WaitObject_AddWaitingThread k o t end.
(* src: wait_object.h | virtual void RemoveWaitingThread(Thread* thread); *)
Definition RemoveWaitingThread k o t : KernelSystem :=
  match o with PMutex m => Mutex_RemoveWaitingThread k m t | _ => WaitObject_RemoveWaitingThread k o t end.

(** * [ShouldWait] and [Acquire] *)

(* src: kernel/thread.cpp | bool Thread::ShouldWait(const Thread* thread) const { *)
Definition Thread_ShouldWait (th : Thread) : bool := bool_decide (status th ≠ Dead).
(* src: kernel/mutex.cpp | bool Mutex::ShouldWait(const Thread* thread) const { *)
Definition Mutex_ShouldWait (mtx : Mutex) t : bool :=
  (0 <? lock_count mtx) && bool_decide (holding_thread mtx ≠ Some t).
(* src: kernel/semaphore.cpp | bool Semaphore::ShouldWait(const Thread* thread) const { *)
Definition Semaphore_ShouldWait (s : Semaphore) : bool := available_count s <=? 0.
(* src: kernel/event.cpp | bool Event::ShouldWait(const Thread* thread) const { *)
Definition Event_ShouldWait (e : Event) : bool := negb (event_signaled e).
(* src: kernel/timer.cpp | bool Timer::ShouldWait(const Thread* thread) const { *)
Definition Timer_ShouldWait (tm : Timer) : bool := negb (timer_signaled tm).
(* src: server_port.cpp | bool ServerPort::ShouldWait(const Thread* thread) const { *)
Definition ServerPort_ShouldWait (p : ServerPort) : bool := bool_decide (pending_sessions p = []).
(* src: server_session.cpp | bool ServerSession::ShouldWait(const Thread* thread) const { *)
Definition ServerSession_ShouldWait (s : ServerSession) : bool :=
  if client_open s
  then bool_decide (pending_requesting_threads s = []) || bool_decide (currently_handling s ≠ None)
  else false.

(* src: wait_object.h | virtual bool ShouldWait(const Thread* thread) const = 0; *)
Definition ShouldWait k o t : bool :=
  match o with
  | PThread x => Thread_ShouldWait (thread k x)
  | PMutex m => Mutex_ShouldWait (mutex k m) t
  | PSemaphore s => Semaphore_ShouldWait (semaphore k s)
  | PEvent e => Event_ShouldWait (event k e)
  | PTimer x => Timer_ShouldWait (ktimer k x)
  | PServerPort p => ServerPort_ShouldWait (server_ports k !!! p)
  | PServerSession s => ServerSession_ShouldWait (server_session k s)
  end.

(** What acquiring an available mutex does. *)
(* src: kernel/mutex.cpp | if (lock_count == 0) { #1 | Mutex::Acquire | +8 *)
Definition Mutex_take k m t : KernelSystem :=
  let k :=
    if lock_count (mutex k m) =? 0 then
      let th := thread k t in
      let k := set_mutex k m ((mutex k m)<|priority := current_priority th|>) in
      let k := set_thread k t (th<|held_mutexes := {[m]} ∪ held_mutexes th|>) in
      let k := set_mutex k m ((mutex k m)<|holding_thread := Some t|>) in
      PrepareReschedule (Thread_UpdatePriority k t)
    else k in
  set_mutex k m ((mutex k m)<|lock_count := lock_count (mutex k m) + 1|>).
(* src: kernel/mutex.cpp | void Mutex::Acquire(Thread* thread) { *)
Definition Mutex_Acquire k m t : option KernelSystem :=
  if Mutex_ShouldWait (mutex k m) t then None else Some (Mutex_take k m t).
(* src: kernel/semaphore.cpp | void Semaphore::Acquire(Thread* thread) { *)
Definition Semaphore_Acquire k (s : nat) : KernelSystem :=
  if available_count (semaphore k s) <=? 0 then k
  else set_semaphore k s ((semaphore k s)<|available_count := available_count (semaphore k s) - 1|>).
(* src: kernel/event.cpp | void Event::Acquire(Thread* thread) { *)
Definition Event_Acquire k (e : nat) : option KernelSystem :=
  if Event_ShouldWait (event k e) then None
  else Some (if decide (event_reset_type (event k e) = OneShot)
             then set_event k e ((event k e)<|event_signaled := false|>) else k).
(* src: kernel/timer.cpp | void Timer::Acquire(Thread* thread) { *)
Definition Timer_Acquire k (x : nat) : option KernelSystem :=
  if Timer_ShouldWait (ktimer k x) then None
  else Some (if decide (timer_reset_type (ktimer k x) = OneShot)
             then set_ktimer k x ((ktimer k x)<|timer_signaled := false|>) else k).
(* src: server_session.cpp | void ServerSession::Acquire(Thread* thread) { *)
Definition ServerSession_Acquire k (s : nat) : option KernelSystem :=
  let ss := server_session k s in
  if ServerSession_ShouldWait ss then None
  else if negb (client_open ss) then Some k
  else match last (pending_requesting_threads ss) with
       | None => None
       | Some r => Some (set_server_session k s
           (ss<|currently_handling := Some r|>
              <|pending_requesting_threads := take (length (pending_requesting_threads ss) - 1)
                                                (pending_requesting_threads ss)|>))
       end.
(* src: kernel/thread.cpp | void Thread::Acquire(Thread* thread) { *)
Definition Thread_Acquire k (x : nat) : option KernelSystem :=
  if Thread_ShouldWait (thread k x) then None else Some k.
(* src: server_port.cpp | void ServerPort::Acquire(Thread* thread) { *)
Definition ServerPort_Acquire k (p : nat) : option KernelSystem :=
  if ServerPort_ShouldWait (server_ports k !!! p) then None else Some k.

(* src: wait_object.h | virtual void Acquire(Thread* thread) = 0; *)
Definition Acquire k o t : option KernelSystem :=
  match o with
  | PThread x => Thread_Acquire k x
  | PMutex m => Mutex_Acquire k m t
  | PSemaphore s => Some (Semaphore_Acquire k s)
  | PEvent e => Event_Acquire k e
  | PTimer x => Timer_Acquire k x
  | PServerPort p => ServerPort_Acquire k p
  | PServerSession s => ServerSession_Acquire k s
  end.

(** * Waking up *)

(* src: kernel/thread.cpp | void Thread::SetWaitSynchronizationResult(Result result) { *)
Definition SetWaitSynchronizationResult k t (result : Result) : KernelSystem :=
  let c := context (thread k t) in
  set_thread k t ((thread k t)<|context := c<|cpu_registers := <[0%nat := raw result]> (cpu_registers c)|>|>).
(* src: kernel/thread.cpp | void Thread::SetWaitSynchronizationOutput(s32 output) { *)
Definition SetWaitSynchronizationOutput k t (output : Z) : KernelSystem :=
  let c := context (thread k t) in
  set_thread k t ((thread k t)<|context := c<|cpu_registers := <[1%nat := u32 output]> (cpu_registers c)|>|>).

(** The index of the last occurrence of [o], -1 when there is none. *)
Fixpoint last_index o (l : list Ptr) : Z :=
  match l with
  | [] => -1
  | x :: l =>
      let i := last_index o l in
      if 0 <=? i then i + 1 else if decide (x = o) then 0 else -1
  end.
(* src: kernel/thread.cpp | s32 Thread::GetWaitObjectIndex(const WaitObject* object) const { *)
Definition GetWaitObjectIndex (th : Thread) o : option Z :=
  match wait_objects th with [] => None | l => Some (last_index o l) end.

(* src: kernel/thread.cpp | void Thread::ResumeFromWait() { *)
Definition ResumeFromWait k t : option KernelSystem :=
  let th := thread k t in
  match wait_objects th with
  | _ :: _ => None
  | [] =>
      match status th with
      | WaitSynchAll | WaitSynchAny | WaitHleEvent | WaitArb | WaitSleep | WaitIPC | Dormant =>
          let k := set_thread k t (th<|wakeup_callback := None|>) in
          let k := on_queue k (core_id th) (fun q => push_back q (level (current_priority th)) t) in
          let k := set_thread k t ((thread k t)<|status := Ready|>) in
          Some (PrepareReschedule k)
      | Ready => match wakeup_callback th with None => Some k | Some _ => None end
      | Running | Dead => Some k
      end
  end.

Section wakeup.
Context `{env : Environment}.

(* src: svc.cpp | void WakeUp(ThreadWakeupReason reason, std::shared_ptr<Thread> thread, #1 | SVC_SyncCallback::WakeUp *)
Definition SVC_SyncCallback_WakeUp k (do_output : bool) (reason : ThreadWakeupReason) t
    (object : option Ptr) : option KernelSystem :=
  match reason with
  | Timeout => Some (SetWaitSynchronizationResult k t ResultTimeout)
  | Signal =>
      let k := SetWaitSynchronizationResult k t ResultSuccess in
      if do_output then
        o ← object; i ← GetWaitObjectIndex (thread k t) o;
        Some (SetWaitSynchronizationOutput k t i)
      else Some k
  end.

(* src: address_arbiter.cpp | void AddressArbiter::WakeUp(ThreadWakeupReason reason, std::shared_ptr<Thread> thread, *)
Definition AddressArbiter_WakeUp k (a : nat) (reason : ThreadWakeupReason) t : option KernelSystem :=
  match reason with
  | Signal => None
  | Timeout => Some (set_arbiter k a
      (mk_AddressArbiter (filter (fun x => x ≠ t) (arb_waiting_threads (arbiter k a)))))
  end.

(* src: kernel/thread.h | class WakeupCallback { *)
Definition WakeUp k (cb : WakeupCallback) (reason : ThreadWakeupReason) t (object : option Ptr)
    : option KernelSystem :=
  match cb with
  | SVC_SyncCallback do_output => SVC_SyncCallback_WakeUp k do_output reason t object
  | ArbiterCallback a => AddressArbiter_WakeUp k a reason t
  | ExternCallback n => extern_wakeup n reason t object k
  end.

(* src: wait_object.cpp | bool ready_to_run = true; | GetHighestPriorityReadyThread | +7 *)
Definition ready_to_run k o t : bool :=
  negb (ShouldWait k o t) &&
  (if decide (status (thread k t) = WaitSynchAll)
   then forallb (fun object => negb (ShouldWait k object t)) (wait_objects (thread k t)) else true).

Definition waiting_status (s : ThreadStatus) : bool :=
  bool_decide (s = WaitSynchAny ∨ s = WaitSynchAll ∨ s = WaitHleEvent).

(** One turn of the search: the candidate and its priority. *)
(* src: wait_object.cpp | for (const auto& thread : waiting_threads) { *)
Definition consider k o (best : option (option nat * Z)) t : option (option nat * Z) :=
  '(candidate, candidate_priority) ← best;
  if waiting_status (status (thread k t)) then
    if candidate_priority <=? current_priority (thread k t) then Some (candidate, candidate_priority)
    else if ready_to_run k o t then Some (Some t, current_priority (thread k t))
    else Some (candidate, candidate_priority)
  else None.
(* src: wait_object.cpp | std::shared_ptr<Thread> WaitObject::GetHighestPriorityReadyThread() const { *)
Definition GetHighestPriorityReadyThread k o : option (option nat) :=
  fst <$> foldl (consider k o) (Some (None, ThreadPrioLowest + 1)) (waiting k o).

(** Folding a fallible operation over a list. *)
Fixpoint fold_opt {A} (f : KernelSystem -> A -> option KernelSystem) k (l : list A) : option KernelSystem :=
  match l with [] => Some k | x :: l => k ← f k x; fold_opt f k l end.

Definition clear_wait_objects k t : KernelSystem :=
  let k := foldl (fun k object => RemoveWaitingThread k object t) k (wait_objects (thread k t)) in
  set_thread k t ((thread k t)<|wait_objects := []|>).

(** The body of the loop of [WakeupAllWaitingThreads]. *)
(* src: wait_object.cpp | if (!thread->IsSleepingOnWaitAll()) { | WakeupAllWaitingThreads | ..thread->ResumeFromWait(); *)
Definition wake_thread k o t : option KernelSystem :=
  k ← (if decide (status (thread k t) = WaitSynchAll)
       then fold_opt (fun k object => Acquire k object t) k (wait_objects (thread k t))
       else Acquire k o t);
  k ← (match wakeup_callback (thread k t) with
       | Some cb => WakeUp k cb Signal t (Some o)
       | None => Some k
       end);
  ResumeFromWait (clear_wait_objects k t) t.

(** The loop; [None] also when [fuel] turns were not enough. *)
(* src: wait_object.cpp | while (auto thread = GetHighestPriorityReadyThread()) { *)
Fixpoint wake_all (fuel : nat) k o : option KernelSystem :=
  best ← GetHighestPriorityReadyThread k o;
  match best with
  | None => Some k
  | Some t => match fuel with
              | O => None
              | Datatypes.S fuel => k ← wake_thread k o t; wake_all fuel k o
              end
  end.

(* src: wait_object.cpp | if (hle_notifier) | WakeupAllWaitingThreads | +1 *)
Definition notified k o : KernelSystem :=
  match hle_notifier (wobj k o) with Some n => hle_notify n k | None => k end.
(* src: wait_object.cpp | void WaitObject::WakeupAllWaitingThreads() { *)
Definition WaitObject_WakeupAllWaitingThreads k o : option KernelSystem :=
  k ← wake_all (length (waiting k o)) k o; Some (notified k o).
(* src: kernel/event.cpp | void Event::WakeupAllWaitingThreads() { *)
Definition Event_WakeupAllWaitingThreads k (e : nat) : option KernelSystem :=
  k ← WaitObject_WakeupAllWaitingThreads k (PEvent e);
  Some (if decide (event_reset_type (event k e) = Pulse)
        then set_event k e ((event k e)<|event_signaled := false|>) else k).
(* src: kernel/timer.cpp | void Timer::WakeupAllWaitingThreads() { *)
Definition Timer_WakeupAllWaitingThreads k (x : nat) : option KernelSystem :=
  k ← WaitObject_WakeupAllWaitingThreads k (PTimer x);
  Some (if decide (timer_reset_type (ktimer k x) = Pulse)
        then set_ktimer k x ((ktimer k x)<|timer_signaled := false|>) else k).
(* src: wait_object.h | virtual void WakeupAllWaitingThreads(); *)
Definition WakeupAllWaitingThreads k o : option KernelSystem :=
  match o with
  | PEvent e => Event_WakeupAllWaitingThreads k e
  | PTimer x => Timer_WakeupAllWaitingThreads k x
  | _ => WaitObject_WakeupAllWaitingThreads k o
  end.

(** * The operations of each class *)

(* src: kernel/mutex.cpp | std::shared_ptr<Mutex> KernelSystem::CreateMutex(bool initial_locked, std::string name) { *)
Definition CreateMutex k (m : nat) (initial_locked : bool) (current : nat) : option KernelSystem :=
  let k := set_mutex k m ((mutex k m)<|lock_count := 0|><|holding_thread := None|>) in
  if initial_locked then Mutex_Acquire k m current else Some k.

Definition WrongLockingThread : Result :=
  Result_make (ErrCodes_code ErrCodes_WrongLockingThread) ErrorModule_Kernel
    ErrorSummary_InvalidArgument ErrorLevel_Permanent.
Definition MutexInvalidState : Result :=
  Result_make (ErrorDescription_code ErrorDescription_InvalidResultValue) ErrorModule_Kernel
    ErrorSummary_InvalidState ErrorLevel_Permanent.

(** The last release: the mutex leaves its holder. *)
(* src: kernel/mutex.cpp | holding_thread->held_mutexes.erase(SharedFrom(this)); | Mutex::Release | +2 *)
Definition Mutex_unlock k m holder : KernelSystem :=
  let k := set_thread k holder
    ((thread k holder)<|held_mutexes := held_mutexes (thread k holder) ∖ {[m]}|>) in
  let k := Thread_UpdatePriority k holder in
  set_mutex k m ((mutex k m)<|holding_thread := None|>).
(* src: kernel/mutex.cpp | Result Mutex::Release(Thread* thread) { *)
Definition Mutex_Release k m t : option (Result * KernelSystem) :=
  match holding_thread (mutex k m) with
  | Some holder =>
      if decide (holder = t) then
        if lock_count (mutex k m) <=? 0 then Some (MutexInvalidState, k)
        else
          let k := set_mutex k m ((mutex k m)<|lock_count := lock_count (mutex k m) - 1|>) in
          if lock_count (mutex k m) =? 0 then
            k ← WaitObject_WakeupAllWaitingThreads (Mutex_unlock k m holder) (PMutex m);
            Some (ResultSuccess, PrepareReschedule k)
          else Some (ResultSuccess, k)
      else Some (WrongLockingThread, k)
  | None => Some (WrongLockingThread, k)
  end.

(** The loop runs over the mutexes the thread held when it began. *)
(* src: kernel/mutex.cpp | void ReleaseThreadMutexes(Thread* thread) { *)
Definition ReleaseThreadMutexes k t : option KernelSystem :=
  k ← fold_opt (fun k m =>
        WaitObject_WakeupAllWaitingThreads
          (set_mutex k m ((mutex k m)<|lock_count := 0|><|holding_thread := None|>)) (PMutex m))
      k (elements (held_mutexes (thread k t)));
  Some (set_thread k t ((thread k t)<|held_mutexes := ∅|>)).

(* src: kernel/semaphore.cpp | ResultVal<std::shared_ptr<Semaphore>> KernelSystem::CreateSemaphore(s32 initial_count, *)
Definition CreateSemaphore (initial_count max : Z) : ResultVal Semaphore :=
  if initial_count <=? max then RV_val (mk_Semaphore max initial_count)
  else RV_err ResultInvalidCombinationKernel.
(* src: kernel/semaphore.cpp | Result Semaphore::Release(s32* out_count, s32 release_count) { *)
Definition Semaphore_Release k (s : nat) (release_count : Z) : option (Result * option Z * KernelSystem) :=
  let sem := semaphore k s in
  if s32 (release_count + available_count sem) <=? max_count sem then
    let k := set_semaphore k s (sem<|available_count := s32 (available_count sem + release_count)|>) in
    k ← WaitObject_WakeupAllWaitingThreads k (PSemaphore s);
    Some (ResultSuccess, Some (available_count sem), k)
  else Some (ResultOutOfRangeKernel, None, k).

(* src: kernel/event.cpp | std::shared_ptr<Event> KernelSystem::CreateEvent(ResetType reset_type, std::string name) { *)
Definition CreateEvent (reset_type : ResetType) : KernelState.Event := mk_KEvent reset_type false.
(* src: kernel/event.cpp | void Event::Signal() { *)
Definition Event_Signal k (e : nat) : option KernelSystem :=
  Event_WakeupAllWaitingThreads (set_event k e ((event k e)<|event_signaled := true|>)) e.
(* src: kernel/event.cpp | void Event::Clear() { *)
Definition Event_Clear k (e : nat) : KernelSystem :=
  set_event k e ((event k e)<|event_signaled := false|>).

(** ** Timers *)

(* src: kernel/timer.cpp | timer_callback_event_type = | TimerManager | +1 *)
Definition TimerCallbackType : string := "TimerCallback".
(* src: kernel/timer.cpp | std::shared_ptr<Timer> KernelSystem::CreateTimer(ResetType reset_type, std::string name) { *)
Definition CreateTimer k (x : nat) (reset_type : ResetType) : KernelSystem :=
  let id := u64 (next_timer_callback_id k + 1) in
  let k := k<|next_timer_callback_id := id|> in
  let k := set_ktimer k x (mk_KTimer reset_type 0 0 false id) in
  k<|timer_callback_table := <[id := x]> (timer_callback_table k)|>.
(* src: kernel/timer.cpp | void Timer::Cancel() { *)
Definition Timer_Cancel k (x : nat) : KernelSystem :=
  k<|timing := UnscheduleEvent (timing k) TimerCallbackType (callback_id (ktimer k x))|>.
(* src: kernel/timer.cpp | void Timer::Clear() { *)
Definition Timer_Clear k (x : nat) : KernelSystem :=
  set_ktimer k x ((ktimer k x)<|timer_signaled := false|>).
Definition schedule k (cycles : Z) (ty : string) (data : Z) (core : option nat) (safe : bool)
    : option KernelSystem :=
  tm ← ScheduleEvent (timing k) cycles ty data core safe; Some (k<|timing := tm|>).
(* src: kernel/timer.cpp | void Timer::Signal(s64 cycles_late) { *)
Definition Timer_Signal k (x : nat) (cycles_late : Z) : option KernelSystem :=
  let k := set_ktimer k x ((ktimer k x)<|timer_signaled := true|>) in
  k ← Timer_WakeupAllWaitingThreads k x;
  if interval_delay (ktimer k x) =? 0 then Some k
  else schedule k (s64 (nsToCycles_u64 (interval_delay (ktimer k x)) - cycles_late))
         TimerCallbackType (callback_id (ktimer k x)) None false.
(* src: kernel/timer.cpp | void Timer::Set(s64 initial, s64 interval) { *)
Definition Timer_Set k (x : nat) (initial interval : Z) : option KernelSystem :=
  let k := Timer_Cancel k x in
  let k := set_ktimer k x ((ktimer k x)<|initial_delay := u64 initial|><|interval_delay := u64 interval|>) in
  if initial =? 0 then Timer_Signal k x 0
  else schedule k (nsToCycles_s64 initial) TimerCallbackType (callback_id (ktimer k x)) None false.
(* src: kernel/timer.cpp | void TimerManager::TimerCallback(u64 callback_id, s64 cycles_late) { *)
Definition TimerCallback k (id : Z) (cycles_late : Z) : option KernelSystem :=
  x ← timer_callback_table k !! id; Timer_Signal k x cycles_late.

(** ** Threads *)

(* src: kernel/thread.cpp | void Thread::WakeAfterDelay(s64 nanoseconds, bool thread_safe_mode) { *)
Definition WakeAfterDelay k t (nanoseconds : Z) (thread_safe_mode : bool) : option KernelSystem :=
  if nanoseconds =? -1 then Some k
  else
    let th := thread k t in
    schedule k (nsToCycles_s64 nanoseconds) (ThreadWakeupEventType (core_id th)) (thread_id th)
      (if thread_safe_mode then Some (core_id th) else None) thread_safe_mode.

Definition is_waiting (s : ThreadStatus) : bool :=
  bool_decide (s = WaitSynchAny ∨ s = WaitSynchAll ∨ s = WaitArb ∨ s = WaitHleEvent).
(* src: kernel/thread.cpp | void ThreadManager::ThreadWakeupCallback(u64 thread_id, s64 cycles_late) { *)
Definition ThreadWakeupCallback k (c : nat) (id : Z) : option KernelSystem :=
  t ← wakeup_callback_table (manager k c) !! id;
  k ← (if is_waiting (status (thread k t)) then
         k ← (match wakeup_callback (thread k t) with
              | Some cb => WakeUp k cb Timeout t None
              | None => Some k
              end);
         Some (clear_wait_objects k t)
       else Some k);
  ResumeFromWait k t.

(** The TLS slot of an address: page and slot. *)
(* src: kernel/thread.cpp | u32 tls_page = | Thread::Stop | +3 *)
Definition tls_location (address : Z) : Z * Z :=
  let TLS_AREA_VADDR := 0x1FF82000 in
  let offset := u32 (address - TLS_AREA_VADDR) in
  (offset / 0x1000, (offset mod 0x1000) / 0x200).

(* src: kernel/thread.cpp | void Thread::Stop() { *)
Definition Stop k t : option KernelSystem :=
  let th := thread k t in
  let c := core_id th in
  let k := k<|timing := UnscheduleEvent (timing k) (ThreadWakeupEventType c) (thread_id th)|> in
  let k := set_manager k c ((manager k c)<|wakeup_callback_table :=
             delete (thread_id th) (wakeup_callback_table (manager k c))|>) in
  let k := if decide (status th = Ready)
           then on_queue k c (fun q => remove q (level (current_priority th)) t) else k in
  let k := set_thread k t (th<|status := Dead|>) in
  k ← WaitObject_WakeupAllWaitingThreads k (PThread t);
  let k := clear_wait_objects k t in
  k ← ReleaseThreadMutexes k t;
  let th := thread k t in
  let '(page, slot) := tls_location (tls_address th) in
  match processes k !! owner_process th with
  | None => Some k
  | Some process =>
      let slots := alter (fun bits => Z.clearbit bits slot) (Z.to_nat page) (tls_slots process) in
      let '(_, limit) := Release (KernelState.resource_limit process) RThread 1 in
      Some (k<|processes := <[owner_process th := mk_Process slots limit]> (processes k)|>)
  end.
End wakeup.
