(* ===== verification/WaitFacts.v ===== *)
(** Correctness of waiting and waking: what each operation keeps of the waiting
    state, the thread an object wakes, and the end of the loop that wakes them. *)

From stdpp Require Import strings.
From S2P Require Import Prelude ThreadQueueList CoreTiming Result ResourceLimit KernelState Sync.

Implicit Types (k : KernelSystem) (t m : nat) (o : Ptr).

(** * The store *)

Lemma thread_set k t x t' : thread (set_thread k t x) t' = if decide (t = t') then x else thread k t'.
Proof. apply lookup_total_insert. Qed.
Lemma wobj_set k o x o' : wobj (set_wobj k o x) o' = if decide (o = o') then x else wobj k o'.
Proof. apply lookup_total_insert. Qed.
Lemma mutex_set k m x m' : mutex (set_mutex k m x) m' = if decide (m = m') then x else mutex k m'.
Proof. apply lookup_total_insert. Qed.
Lemma semaphore_set k s x s' : semaphore (set_semaphore k s x) s' = if decide (s = s') then x else semaphore k s'.
Proof. apply lookup_total_insert. Qed.
Lemma event_set k e x e' : event (set_event k e x) e' = if decide (e = e') then x else event k e'.
Proof. apply lookup_total_insert. Qed.
Lemma ktimer_set k x y x' : ktimer (set_ktimer k x y) x' = if decide (x = x') then y else ktimer k x'.
Proof. apply lookup_total_insert. Qed.
Lemma server_session_set k s x s' :
  server_session (set_server_session k s x) s' = if decide (s = s') then x else server_session k s'.
Proof. apply lookup_total_insert. Qed.
Lemma manager_set k c x c' : manager (set_manager k c x) c' = if decide (c = c') then x else manager k c'.
Proof. apply lookup_total_insert. Qed.
Lemma waiting_set k o l o' : waiting (set_waiting k o l) o' = if decide (o = o') then l else waiting k o'.
Proof. unfold waiting, set_waiting. rewrite wobj_set. by case_decide. Qed.

(** * What waiting depends on

    The parts of the state that decide who waits for what: the waiting lists
    and, of each thread, its status, its objects and its callback. *)
Record same_waits (k k' : KernelSystem) : Prop := {
  sw_waiting : ∀ o, waiting k' o = waiting k o;
  sw_status : ∀ t, status (thread k' t) = status (thread k t);
  sw_objects : ∀ t, wait_objects (thread k' t) = wait_objects (thread k t);
  sw_callback : ∀ t, wakeup_callback (thread k' t) = wakeup_callback (thread k t);
  sw_core : ∀ t, core_id (thread k' t) = core_id (thread k t)
}.

#[export] Instance same_waits_preorder : PreOrder same_waits.
Proof.
  split; [by constructor|]. intros k1 k2 k3 [] []. constructor; intros; etrans; eauto.
Qed.

(** The priorities are those of the enumeration; only the upper bound matters
    here. *)
Definition priorities_ok k : Prop :=
  ∀ t, current_priority (thread k t) <= ThreadPrioLowest ∧ nominal_priority (thread k t) <= ThreadPrioLowest.

(** A change of one thread that keeps what waiting depends on. *)
Lemma set_thread_waits k t x :
  status x = status (thread k t) -> wait_objects x = wait_objects (thread k t) ->
  wakeup_callback x = wakeup_callback (thread k t) -> core_id x = core_id (thread k t) ->
  same_waits k (set_thread k t x).
Proof.
  intros. constructor; [done|..]; intros t'; rewrite thread_set; case_decide; congruence.
Qed.
Lemma set_mutex_waits k m x : same_waits k (set_mutex k m x).
Proof. by constructor. Qed.
Lemma on_queue_waits k c f : same_waits k (on_queue k c f).
Proof. by constructor. Qed.

Lemma best_of_le {A} (f : A -> Z) l : ∀ start, best_of f start l <= start.
Proof.
  unfold best_of. induction l as [|x l IH]; intros start; [done|]. cbn [foldl].
  destruct (Z.ltb_spec (f x) start); [|apply IH]. etrans; [apply IH|lia].
Qed.
Lemma best_of_least {A} (f : A -> Z) l : ∀ start x, x ∈ l -> best_of f start l <= f x.
Proof.
  unfold best_of. induction l as [|y l IH]; intros start x Hx; [by apply elem_of_nil in Hx|]. cbn [foldl].
  apply elem_of_cons in Hx as [->|Hx]; [|by apply IH].
  pose proof (best_of_le f l (if f y <? start then f y else start)) as H. unfold best_of in H.
  etrans; [exact H|]. destruct (Z.ltb_spec (f y) start); lia.
Qed.
Lemma best_of_in {A} (f : A -> Z) l : ∀ start,
  best_of f start l = start ∨ ∃ x, x ∈ l ∧ best_of f start l = f x.
Proof.
  unfold best_of. induction l as [|y l IH]; intros start; [by left|]. cbn [foldl].
  destruct (IH (if f y <? start then f y else start)) as [->|(x & Hx & ->)].
  - destruct (f y <? start); [right; exists y; split; [by left|done]|by left].
  - right. exists x. split; [by right|done].
Qed.

(** ** Priorities do not matter for waiting *)

Lemma thread_set_eq k t x : thread (set_thread k t x) t = x.
Proof. rewrite thread_set. by rewrite decide_True. Qed.

Lemma BoostPriority_waits k t p : same_waits k (BoostPriority k t p).
Proof.
  unfold BoostPriority. etrans; [apply on_queue_waits|]. by apply set_thread_waits.
Qed.
Lemma Thread_UpdatePriority_waits k t : same_waits k (Thread_UpdatePriority k t).
Proof. apply BoostPriority_waits. Qed.

(** The fields [BoostPriority] keeps. *)
Lemma BoostPriority_thread k t p t' :
  thread (BoostPriority k t p) t'
  = if decide (t = t') then (thread k t)<|current_priority := p|> else thread k t'.
Proof. unfold BoostPriority. rewrite thread_set. by case_decide. Qed.

Lemma BoostPriority_ok k t p : priorities_ok k -> p <= ThreadPrioLowest -> priorities_ok (BoostPriority k t p).
Proof.
  intros H Hp t'. rewrite BoostPriority_thread. case_decide; [|apply H]. cbn. split; [done|apply H].
Qed.
Lemma Thread_UpdatePriority_ok k t : priorities_ok k -> priorities_ok (Thread_UpdatePriority k t).
Proof.
  intros H. apply BoostPriority_ok; [done|]. etrans; [apply best_of_le|apply H].
Qed.

Lemma Mutex_UpdatePriority_waits k m : same_waits k (Mutex_UpdatePriority k m).
Proof.
  unfold Mutex_UpdatePriority. destruct (holding_thread _); [|done]. cbv zeta.
  destruct (_ =? _); [done|]. etrans; [apply set_mutex_waits|apply Thread_UpdatePriority_waits].
Qed.
Lemma Mutex_UpdatePriority_ok k m : priorities_ok k -> priorities_ok (Mutex_UpdatePriority k m).
Proof.
  intros H. unfold Mutex_UpdatePriority. destruct (holding_thread _); [|done]. cbv zeta.
  destruct (_ =? _); [done|]. by apply Thread_UpdatePriority_ok.
Qed.

(** * Acquiring *)

(** Everything an object's availability depends on, for objects other than the
    one acquired. *)
Definition same_availability (P : Ptr -> Prop) k k' : Prop :=
  ∀ o t, P o -> ShouldWait k' o t = ShouldWait k o t.

(** A step that keeps what waiting depends on and touches no object but [o]. *)
Record touches o k k' : Prop := {
  acq_waits : same_waits k k';
  acq_others : same_availability (fun o' => o' ≠ o) k k';
  acq_priorities : priorities_ok k -> priorities_ok k'
}.

#[export] Instance touches_preorder o : PreOrder (touches o).
Proof.
  split; [constructor; done|]. intros k1 k2 k3 [W1 A1 P1] [W2 A2 P2]. constructor.
  - by etrans.
  - intros o' t Ho. rewrite A2 by done. by apply A1.
  - auto.
Qed.

(** Steps on threads only. *)
Lemma set_thread_touches o k t x :
  status x = status (thread k t) -> wait_objects x = wait_objects (thread k t) ->
  wakeup_callback x = wakeup_callback (thread k t) -> core_id x = core_id (thread k t) ->
  (priorities_ok k -> current_priority x <= ThreadPrioLowest ∧ nominal_priority x <= ThreadPrioLowest) ->
  touches o k (set_thread k t x).
Proof.
  intros E1 E2 E3 E4 Hp. constructor.
  - by apply set_thread_waits.
  - intros [y|m|s|e|y|p|s] t' Ho; try done. cbn [ShouldWait]. unfold Thread_ShouldWait.
    rewrite thread_set. case_decide; [subst|done]. by rewrite E1.
  - intros H t'. rewrite thread_set. case_decide; auto.
Qed.
Lemma on_queue_touches o k c f : touches o k (on_queue k c f).
Proof. constructor; [apply on_queue_waits|intros o' t' _; by destruct o'|done]. Qed.
Lemma PrepareReschedule_touches o k : touches o k (PrepareReschedule k).
Proof. constructor; [by constructor|intros o' t' _; by destruct o'|done]. Qed.

Lemma Thread_UpdatePriority_touches o k t : touches o k (Thread_UpdatePriority k t).
Proof.
  unfold Thread_UpdatePriority, BoostPriority. etrans; [apply on_queue_touches|].
  apply set_thread_touches; try done. intros H. cbn. split; [|apply H].
  etrans; [apply best_of_le|apply H].
Qed.

(** Steps on one object. *)
Lemma set_mutex_touches k m x : touches (PMutex m) k (set_mutex k m x).
Proof.
  constructor; [done| |done]. intros [y|m'|s|e|y|p|s] t Ho; try done.
  cbn [ShouldWait]. rewrite mutex_set, decide_False; [done|congruence].
Qed.
Lemma set_semaphore_touches k s x : touches (PSemaphore s) k (set_semaphore k s x).
Proof.
  constructor; [done| |done]. intros [y|m'|s'|e|y|p|s'] t Ho; try done.
  cbn [ShouldWait]. rewrite semaphore_set, decide_False; [done|congruence].
Qed.
Lemma set_event_touches k e x : touches (PEvent e) k (set_event k e x).
Proof.
  constructor; [done| |done]. intros [y|m'|s'|e'|y|p|s'] t Ho; try done.
  cbn [ShouldWait]. rewrite event_set, decide_False; [done|congruence].
Qed.
Lemma set_ktimer_touches k y x : touches (PTimer y) k (set_ktimer k y x).
Proof.
  constructor; [done| |done]. intros [y'|m'|s'|e'|y'|p|s'] t Ho; try done.
  cbn [ShouldWait]. rewrite ktimer_set, decide_False; [done|congruence].
Qed.
Lemma set_server_session_touches k s x : touches (PServerSession s) k (set_server_session k s x).
Proof.
  constructor; [done| |done]. intros [y'|m'|s'|e'|y'|p|s'] t Ho; try done.
  cbn [ShouldWait]. rewrite server_session_set, decide_False; [done|congruence].
Qed.

Lemma Mutex_take_touches k m t : touches (PMutex m) k (Mutex_take k m t).
Proof.
  unfold Mutex_take. etrans; [|apply set_mutex_touches]. destruct (lock_count _ =? 0); [|done].
  cbv zeta. etrans; [|apply PrepareReschedule_touches]. etrans; [|apply Thread_UpdatePriority_touches].
  etrans; [|apply set_mutex_touches]. etrans; [apply set_mutex_touches|].
  apply set_thread_touches; try done. intros H. apply H.
Qed.

(** Acquiring an available object succeeds and touches that object only. *)
Lemma Acquire_ok k o t : ShouldWait k o t = false ->
  ∃ k', Acquire k o t = Some k' ∧ touches o k k'.
Proof.
  intros H. destruct o as [y|m|s|e|y|p|s]; cbn [ShouldWait Acquire] in *;
    unfold Thread_Acquire, Mutex_Acquire, Event_Acquire, Timer_Acquire, ServerPort_Acquire,
      ServerSession_Acquire; rewrite ?H; cbv zeta; rewrite ?H.
  - by exists k.
  - eexists; split; [done|apply Mutex_take_touches].
  - eexists; split; [done|]. unfold Semaphore_Acquire. destruct (_ <=? 0); [done|apply set_semaphore_touches].
  - eexists; split; [done|]. case_decide; [apply set_event_touches|done].
  - eexists; split; [done|]. case_decide; [apply set_ktimer_touches|done].
  - by exists k.
  - unfold ServerSession_ShouldWait in H. destruct (client_open _); cbn [negb]; [|by exists k].
    apply orb_false_iff in H as [H _]. apply bool_decide_eq_false in H.
    destruct (last (pending_requesting_threads (server_session k s))) eqn:E.
    + eexists; split; [done|apply set_server_session_touches].
    + by apply last_None in E.
Qed.

(** Acquiring distinct available objects in turn. *)
Lemma Acquire_all_ok t l : NoDup l -> ∀ k, Forall (fun o => ShouldWait k o t = false) l ->
  ∃ k', fold_opt (fun k object => Acquire k object t) k l = Some k' ∧
    same_waits k k' ∧ (priorities_ok k -> priorities_ok k').
Proof.
  induction 1 as [|o l Ho Hl IH]; intros k F; [by exists k|].
  apply Forall_cons in F as [F1 F]. destruct (Acquire_ok k o t F1) as (k1 & E1 & [W A P]).
  destruct (IH k1) as (k2 & E2 & W2 & P2).
  { apply Forall_forall. intros o' Ho'. rewrite A by (intros ->; done). by eapply Forall_forall in F. }
  exists k2. cbn [fold_opt]. rewrite E1. cbn [mbind option_bind]. split; [done|].
  split; [by etrans|auto].
Qed.

(** * The thread to wake *)

(** [t] is ready, before every ready thread of lower urgency and before the
    ready threads of the same urgency that came later. *)
Definition first_ready k o (l : list nat) t : Prop :=
  ∃ l1 l2, l = l1 ++ t :: l2 ∧ ready_to_run k o t = true ∧
    (∀ t', t' ∈ l1 -> ready_to_run k o t' = true ->
       current_priority (thread k t) < current_priority (thread k t')) ∧
    (∀ t', t' ∈ l2 -> ready_to_run k o t' = true ->
       current_priority (thread k t) <= current_priority (thread k t')).

Definition all_waiting k (l : list nat) : Prop :=
  Forall (fun t => waiting_status (status (thread k t)) = true) l.

Lemma consider_spec k o l : priorities_ok k -> all_waiting k l ->
  ∃ c p, foldl (consider k o) (Some (None, ThreadPrioLowest + 1)) l = Some (c, p) ∧
    match c with
    | None => p = ThreadPrioLowest + 1 ∧ ∀ t, t ∈ l -> ready_to_run k o t = false
    | Some t => p = current_priority (thread k t) ∧ first_ready k o l t
    end.
Proof.
  intros HP. induction l as [|x l IH] using rev_ind; intros F.
  { exists None, (ThreadPrioLowest + 1). split; [done|]. split; [done|].
    intros t Ht. by apply elem_of_nil in Ht. }
  apply Forall_app in F as [F Fx]. apply Forall_cons in Fx as [Fx _].
  destruct (IH F) as (c & p & E & H). rewrite foldl_app, E. cbn [foldl consider mbind option_bind].
  rewrite Fx. pose proof (proj1 (HP x)) as Px.
  destruct (Z.leb_spec p (current_priority (thread k x))) as [L|L];
    [|destruct (ready_to_run k o x) eqn:R]; (eexists _, _; split; [reflexivity|]).
  - destruct c as [t|]; [|destruct H; lia]. destruct H as (-> & l1 & l2 & -> & H1 & H2 & H3).
    split; [done|]. exists l1, (l2 ++ [x]). rewrite <- app_assoc. split_and!; try done.
    intros t' Ht'. apply elem_of_app in Ht' as [Ht'|Ht']; [auto|].
    apply list_elem_of_singleton in Ht' as ->. done.
  - split; [done|]. exists l, []. split; [done|]. split; [done|]. split.
    + intros t' Ht' Rt'. destruct c as [t|].
      * destruct H as (-> & l1 & l2 & -> & H1 & H2 & H3). apply elem_of_app in Ht' as [Ht'|Ht'].
        { specialize (H2 _ Ht' Rt'). lia. }
        apply elem_of_cons in Ht' as [->|Ht']; [done|]. specialize (H3 _ Ht' Rt'). lia.
      * destruct H as [_ H]. rewrite (H _ Ht') in Rt'. done.
    + intros t' Ht'. by apply elem_of_nil in Ht'.
  - destruct c as [t|].
    + destruct H as (-> & l1 & l2 & -> & H1 & H2 & H3). split; [done|]. exists l1, (l2 ++ [x]).
      rewrite <- app_assoc. split_and!; try done.
      intros t' Ht' Rt'. apply elem_of_app in Ht' as [Ht'|Ht']; [auto|].
      apply list_elem_of_singleton in Ht' as ->. congruence.
    + destruct H as [-> H]. split; [done|]. intros t' Ht'.
      apply elem_of_app in Ht' as [Ht'|Ht']; [auto|]. by apply list_elem_of_singleton in Ht' as ->.
Qed.

Lemma GetHighest_spec k o : priorities_ok k -> all_waiting k (waiting k o) ->
  ∃ c, GetHighestPriorityReadyThread k o = Some c ∧
    match c with
    | None => ∀ t, t ∈ waiting k o -> ready_to_run k o t = false
    | Some t => first_ready k o (waiting k o) t
    end.
Proof.
  intros HP HW. destruct (consider_spec k o _ HP HW) as (c & p & E & H).
  exists c. unfold GetHighestPriorityReadyThread. rewrite E. split; [done|].
  destruct c; tauto.
Qed.

(** the search over the waiting threads of an object returns a thread that
    can take the object now, of the most urgent priority among those that can,
    and the one that has waited longest among equals; it returns nothing exactly
    when no waiting thread can run; its assertion on the statuses holds. *)
Theorem highest_priority_ready k o : priorities_ok k -> all_waiting k (waiting k o) ->
  ∃ c, GetHighestPriorityReadyThread k o = Some c ∧
    (c = None <-> ∀ t, t ∈ waiting k o -> ready_to_run k o t = false) ∧
    ∀ t, c = Some t -> first_ready k o (waiting k o) t.
Proof.
  intros HP HW. destruct (GetHighest_spec k o HP HW) as (c & E & H). exists c. split; [done|].
  destruct c as [t|]; split.
  - split; [done|]. intros N. destruct H as (l1 & l2 & El & R & _).
    rewrite (N t) in R; [done|]. rewrite El. apply elem_of_app. right. by left.
  - by intros ? [= ->].
  - done.
  - done.
Qed.

(** * Leaving the waiting lists *)

Lemma filter_ne_id (x : nat) (l : list nat) : x ∉ l -> filter (fun y => y ≠ x) l = l.
Proof.
  induction l as [|z l IH]; intros H; [done|]. apply not_elem_of_cons in H as [Hz H].
  rewrite filter_cons_True by done. by rewrite IH.
Qed.

Lemma erase_first_filter x l : NoDup l -> erase_first x l = filter (fun y => y ≠ x) l.
Proof.
  induction 1 as [|y l Hy Hl IH]; [done|]. cbn [erase_first]. destruct (decide (y = x)) as [->|N].
  - rewrite filter_cons_False by (intros H; by apply H). by rewrite filter_ne_id.
  - rewrite filter_cons_True by done. by rewrite IH.
Qed.

(** [t] leaves the lists of the objects [l]; nothing else of waiting changes. *)
Record leaves k (l : list Ptr) t k' : Prop := {
  lv_waiting : ∀ o, waiting k' o
    = if decide (o ∈ l) then filter (fun x => x ≠ t) (waiting k o) else waiting k o;
  lv_status : ∀ x, status (thread k' x) = status (thread k x);
  lv_objects : ∀ x, wait_objects (thread k' x) = wait_objects (thread k x);
  lv_callback : ∀ x, wakeup_callback (thread k' x) = wakeup_callback (thread k x);
  lv_core : ∀ x, core_id (thread k' x) = core_id (thread k x);
  lv_priorities : priorities_ok k -> priorities_ok k'
}.

Lemma RemoveWaitingThread_waits k o t :
  same_waits (set_waiting k o (erase_first t (waiting k o))) (RemoveWaitingThread k o t) ∧
  (priorities_ok k -> priorities_ok (RemoveWaitingThread k o t)).
Proof.
  destruct o as [y|m|s|e|y|p|s]; try done. cbn [RemoveWaitingThread]. unfold Mutex_RemoveWaitingThread.
  cbv zeta. fold (WaitObject_RemoveWaitingThread k (PMutex m) t).
  set (k1 := WaitObject_RemoveWaitingThread k (PMutex m) t). split.
  - etrans; [|apply Mutex_UpdatePriority_waits]. by apply set_thread_waits.
  - intros H. apply Mutex_UpdatePriority_ok. intros x. rewrite thread_set. case_decide; [|apply H].
    cbn. subst. apply H.
Qed.

Lemma RemoveWaitingThread_leaves k o t : NoDup (waiting k o) -> leaves k [o] t (RemoveWaitingThread k o t).
Proof.
  intros Hn. destruct (RemoveWaitingThread_waits k o t) as [[W S O C X] P].
  constructor; [|done..]. intros o'. rewrite W, waiting_set.
  rewrite erase_first_filter by done.
  destruct (decide (o = o')) as [->|N]; [by rewrite decide_True by by left|].
  rewrite decide_False; [done|]. intros H. apply list_elem_of_singleton in H. by subst.
Qed.

Lemma leaves_app k l1 l2 t k1 k2 : leaves k l1 t k1 -> leaves k1 l2 t k2 -> leaves k (l1 ++ l2) t k2.
Proof.
  intros [W S O C X P] [W' S' O' C' X' P']. constructor; [|intros; congruence..|auto].
  intros o. rewrite W', W. assert (I : ∀ l : list nat, filter (fun x => x ≠ t) (filter (fun x => x ≠ t) l)
    = filter (fun x => x ≠ t) l).
  { intros l. rewrite list_filter_filter. apply list_filter_iff. tauto. }
  pose proof (elem_of_app l1 l2 o) as E.
  destruct (decide (o ∈ l1)), (decide (o ∈ l2)), (decide (o ∈ l1 ++ l2));
    rewrite ?I; first [done|exfalso; tauto].
Qed.

Lemma RemoveWaitingThreads_leaves t l : ∀ k, (∀ o, NoDup (waiting k o)) ->
  leaves k l t (foldl (fun k object => RemoveWaitingThread k object t) k l).
Proof.
  induction l as [|o l IH]; intros k Hn.
  - by constructor.
  - cbn [foldl]. pose proof (RemoveWaitingThread_leaves k o t (Hn o)) as L.
    apply (leaves_app k [o] l t (RemoveWaitingThread k o t)); [done|]. apply IH.
    intros o'. rewrite (lv_waiting _ _ _ _ L). case_decide; [apply NoDup_filter|]; apply Hn.
Qed.

(** ** The invariant of waiting *)

(** A thread in a waiting list waits for that object and nothing is listed
    twice; a thread that waits for all its objects waits for distinct ones. *)
Record waits_ok k : Prop := {
  wk_listed : ∀ o t, t ∈ waiting k o ->
    o ∈ wait_objects (thread k t) ∧ waiting_status (status (thread k t)) = true;
  wk_nodup : ∀ o, NoDup (waiting k o);
  wk_all : ∀ t, status (thread k t) = WaitSynchAll -> NoDup (wait_objects (thread k t));
  wk_callback : ∀ t a, waiting_status (status (thread k t)) = true ->
    wakeup_callback (thread k t) ≠ Some (ArbiterCallback a);
  wk_priorities : priorities_ok k
}.

Lemma same_waits_ok k k' : waits_ok k -> same_waits k k' -> priorities_ok k' -> waits_ok k'.
Proof.
  intros [L N A B P] [W S O C X] P'. constructor.
  - intros o t. rewrite W, O, S. apply L.
  - intros o. by rewrite W.
  - intros t. rewrite O, S. apply A.
  - intros t. rewrite C, S. apply B.
  - done.
Qed.

(** What waking [t] through [o] does to the waiting state. *)
Record wakes k t k' : Prop := {
  ws_waiting : ∀ o, waiting k' o = filter (fun x => x ≠ t) (waiting k o);
  ws_status : status (thread k' t) = Ready;
  ws_objects : wait_objects (thread k' t) = [];
  ws_callback : wakeup_callback (thread k' t) = None;
  ws_others : ∀ x, x ≠ t -> status (thread k' x) = status (thread k x) ∧
    wait_objects (thread k' x) = wait_objects (thread k x) ∧
    wakeup_callback (thread k' x) = wakeup_callback (thread k x)
}.

Lemma wakes_ok k t k' : waits_ok k -> wakes k t k' -> priorities_ok k' -> waits_ok k'.
Proof.
  intros [L N A B P] [W S O C X] P'. constructor.
  - intros o x. rewrite W. intros H. apply list_elem_of_filter in H as [Hx Hl].
    destruct (X x Hx) as (-> & -> & _). by apply L.
  - intros o. rewrite W. by apply NoDup_filter.
  - intros x. destruct (decide (x = t)) as [->|Hx]; [by rewrite S|].
    destruct (X x Hx) as (-> & -> & _). apply A.
  - intros x. destruct (decide (x = t)) as [->|Hx]; [by rewrite S|].
    destruct (X x Hx) as (-> & _ & ->). apply B.
  - done.
Qed.

(** * Who holds which mutex *)

Definition lock_of k m : Z * option nat := (lock_count (mutex k m), holding_thread (mutex k m)).
Definition holds k t m : Prop := m ∈ held_mutexes (thread k t).

Definition same_lock m k k' : Prop := lock_of k' m = lock_of k m ∧ ∀ x, holds k' x m <-> holds k x m.
Definition same_locks k k' : Prop := ∀ m, same_lock m k k'.

#[export] Instance same_lock_preorder m : PreOrder (same_lock m).
Proof.
  split; [done|]. intros k1 k2 k3 [E1 H1] [E2 H2]. split; [congruence|]. intros x. by rewrite H2.
Qed.
#[export] Instance same_locks_preorder : PreOrder same_locks.
Proof. split; [by intros k m|]. intros k1 k2 k3 H1 H2 m. etrans; [apply H1|apply H2]. Qed.

(** A mutex is free, not locked and held by nobody, or locked, by one thread,
    which lists it among its mutexes. *)
Definition lock_ok k m : Prop :=
  match lock_of k m with
  | (n, None) => n = 0 ∧ ∀ x, ~ holds k x m
  | (n, Some t) => 0 < n ∧ ∀ x, holds k x m <-> x = t
  end.
Definition locks_ok k : Prop := ∀ m, lock_ok k m.

Lemma same_lock_ok m k k' : same_lock m k k' -> lock_ok k m -> lock_ok k' m.
Proof.
  unfold lock_ok. intros [-> H]. destruct (lock_of k m) as [n [t|]]; intros [Hn Hx]; split; try done;
    intros x; rewrite H; apply Hx.
Qed.

Lemma set_thread_locks k t x : held_mutexes x = held_mutexes (thread k t) -> same_locks k (set_thread k t x).
Proof.
  intros E m. split; [done|]. intros y. unfold holds. rewrite thread_set. case_decide; [|done].
  subst. by rewrite E.
Qed.
Lemma Thread_UpdatePriority_locks k t : same_locks k (Thread_UpdatePriority k t).
Proof.
  unfold Thread_UpdatePriority, BoostPriority. intros m. etrans; [|by apply set_thread_locks]. done.
Qed.
Lemma set_mutex_lock k m x m' :
  (m = m' -> lock_count x = lock_count (mutex k m) ∧ holding_thread x = holding_thread (mutex k m)) ->
  same_lock m' k (set_mutex k m x).
Proof.
  intros H. split; [|done]. unfold lock_of. rewrite mutex_set. case_decide as E; [|done].
  destruct (H E). subst. congruence.
Qed.
Lemma Mutex_UpdatePriority_locks k m : same_locks k (Mutex_UpdatePriority k m).
Proof.
  unfold Mutex_UpdatePriority. destruct (holding_thread _); [|done]. cbv zeta.
  destruct (_ =? _); [done|]. etrans; [|apply Thread_UpdatePriority_locks]. intros m'.
  by apply set_mutex_lock.
Qed.
Lemma RemoveWaitingThread_locks k o t : same_locks k (RemoveWaitingThread k o t).
Proof.
  destruct o as [y|m|s|e|y|p|s]; try done. cbn [RemoveWaitingThread]. unfold Mutex_RemoveWaitingThread.
  cbv zeta. etrans; [|apply Mutex_UpdatePriority_locks]. etrans; [|by apply set_thread_locks]. done.
Qed.
Lemma clear_wait_objects_locks k t : same_locks k (clear_wait_objects k t).
Proof.
  unfold clear_wait_objects. etrans; [|by apply set_thread_locks].
  generalize (wait_objects (thread k t)) as l. intros l. revert k.
  induction l as [|o l IH]; intros k; [done|]. cbn [foldl]. etrans; [|apply IH].
  apply RemoveWaitingThread_locks.
Qed.
Lemma ResumeFromWait_locks k t k' : ResumeFromWait k t = Some k' -> same_locks k k'.
Proof.
  unfold ResumeFromWait. destruct (wait_objects _); [|done]. cbv zeta.
  set (k1 := set_thread k t ((thread k t)<|wakeup_callback := None|>)).
  set (k2 := on_queue k1 _ _). set (k3 := set_thread k2 t ((thread k2 t)<|status := Ready|>)).
  assert (H : same_locks k (PrepareReschedule k3)).
  { transitivity k1; [by apply set_thread_locks|]. transitivity k3; [|done].
    transitivity k2; [done|]. subst k3. by apply set_thread_locks. }
  destruct (status _); try (by intros [= <-]). destruct (wakeup_callback _); [done|]. by intros [= <-].
Qed.

(** Taking a mutex that the thread need not wait for. *)
Lemma Mutex_take_lock k m t : lock_ok k m -> Mutex_ShouldWait (mutex k m) t = false ->
  let k' := Mutex_take k m t in
  lock_of k' m = (lock_count (mutex k m) + 1, Some t) ∧ lock_ok k' m ∧
  ∀ m', m' ≠ m -> same_lock m' k k'.
Proof.
  intros L S. cbv zeta. unfold Mutex_take, Mutex_ShouldWait, lock_ok, lock_of in *.
  destruct (Z.eqb_spec (lock_count (mutex k m)) 0) as [Z|Z]; cbv zeta.
  - set (k1 := set_mutex k m _). set (k2 := set_thread k1 t _). set (k3 := set_mutex k2 m _).
    set (k4 := PrepareReschedule _).
    assert (L34 : same_locks k3 k4) by exact (Thread_UpdatePriority_locks k3 t).
    assert (E3 : lock_of k3 m = (0, Some t)).
    { assert (M1 : lock_count (mutex k1 m) = lock_count (mutex k m))
        by (unfold k1; by rewrite mutex_set, decide_True).
      unfold lock_of, k3. rewrite mutex_set, decide_True by done.
      change ((lock_count (mutex k1 m), Some t) = (0, Some t)). by rewrite M1, Z. }
    assert (H3 : ∀ x m', holds k3 x m' <-> (x = t ∧ m' = m) ∨ holds k x m').
    { intros x m'. unfold holds, k3, k2. change (thread (set_mutex ?a _ _) x) with (thread a x).
      rewrite thread_set. destruct (decide (t = x)) as [<-|N].
      - change (m' ∈ {[m]} ∪ held_mutexes (thread k t) <-> (t = t ∧ m' = m) ∨ m' ∈ held_mutexes (thread k t)).
        rewrite elem_of_union, elem_of_singleton. intuition.
      - change (thread k1 x) with (thread k x). intuition congruence. }
    destruct (L34 m) as [E4 H4]. rewrite E3 in E4. unfold lock_of in E4. injection E4 as E4 E5.
    rewrite !mutex_set, !decide_True by done. cbn [lock_count holding_thread].
    change (lock_count ((mutex k4 m)<|lock_count := ?a|>)) with a.
    change (holding_thread ((mutex k4 m)<|lock_count := ?a|>)) with (holding_thread (mutex k4 m)).
    rewrite E4, E5, Z. split; [done|]. split; [split; [lia|]|].
    + intros x. change (holds k4 x m <-> x = t). rewrite H4, H3.
      destruct (holding_thread (mutex k m)); [lia|]. destruct L as [_ L]. specialize (L x). tauto.
    + intros m' Hm. transitivity k4; [|by apply set_mutex_lock]. transitivity k3; [|apply L34].
      split; [|intros x; rewrite H3; tauto]. unfold lock_of, k3, k2, k1.
      rewrite mutex_set, decide_False by done. change (mutex (set_thread ?a _ _) m') with (mutex a m').
      by rewrite mutex_set, decide_False.
  - destruct (holding_thread (mutex k m)) as [h|] eqn:Eh; [|lia].
    rewrite (proj2 (Z.ltb_lt _ _)) in S by lia. cbn [andb] in S. apply bool_decide_eq_false in S.
    assert (h = t) as -> by (apply dec_stable; intros N; apply S; congruence).
    rewrite !mutex_set, !decide_True by done.
    change (lock_count ((mutex k m)<|lock_count := ?a|>)) with a.
    change (holding_thread ((mutex k m)<|lock_count := ?a|>)) with (holding_thread (mutex k m)).
    rewrite Eh. split; [done|]. split; [split; [lia|apply L]|].
    intros m' Hm. by apply set_mutex_lock.
Qed.

(** * Waking one thread *)

(** The objects that carry a count or a signal. *)
Record same_objects k k' : Prop := {
  so_semaphore : ∀ s, semaphore k' s = semaphore k s;
  so_event : ∀ e, event k' e = event k e;
  so_timer : ∀ x, ktimer k' x = ktimer k x
}.
#[export] Instance same_objects_preorder : PreOrder same_objects.
Proof. split; [by constructor|]. intros k1 k2 k3 [] []. constructor; intros; etrans; eauto. Qed.

(** What is asked of the callbacks and notifiers outside of this component: they
    return, and leave the waiting state and the objects alone. *)
Class QuietEnvironment `{env : Environment} : Prop := {
  quiet_wakeup : ∀ n reason t (o : option Ptr) k, ∃ k', extern_wakeup n reason t o k = Some k' ∧ same_waits k k' ∧
    (priorities_ok k -> priorities_ok k') ∧ same_locks k k' ∧ same_objects k k';
  quiet_notify : ∀ n k, same_waits k (hle_notify n k) ∧
    (priorities_ok k -> priorities_ok (hle_notify n k)) ∧ same_locks k (hle_notify n k) ∧
    same_objects k (hle_notify n k)
}.

Section waking.
Context `{quiet : QuietEnvironment}.

Lemma set_context_waits k t c :
  same_waits k (set_thread k t ((thread k t)<|context := c|>)) ∧
  (priorities_ok k -> priorities_ok (set_thread k t ((thread k t)<|context := c|>))).
Proof.
  split; [by apply set_thread_waits|]. intros H x. rewrite thread_set. case_decide; subst; apply H.
Qed.

Lemma WakeUp_signal k cb t o :
  o ∈ wait_objects (thread k t) -> (∀ a, cb ≠ ArbiterCallback a) ->
  ∃ k', WakeUp k cb Signal t (Some o) = Some k' ∧ same_waits k k' ∧
    (priorities_ok k -> priorities_ok k') ∧ same_locks k k' ∧ same_objects k k'.
Proof.
  intros Ho Ha. destruct cb as [b|a|n]; [|by destruct (Ha a)|apply quiet_wakeup].
  cbn [WakeUp]. unfold SVC_SyncCallback_WakeUp. cbv zeta.
  destruct (set_context_waits k t ((context (thread k t))<|cpu_registers :=
    <[0%nat := raw ResultSuccess]> (cpu_registers (context (thread k t)))|>)) as [W1 P1].
  fold (SetWaitSynchronizationResult k t ResultSuccess) in W1, P1.
  assert (L1 : same_locks k (SetWaitSynchronizationResult k t ResultSuccess)) by by apply set_thread_locks.
  destruct b; [|by eexists; split_and!].
  cbn [mbind option_bind]. unfold GetWaitObjectIndex. rewrite (sw_objects _ _ W1).
  destruct (wait_objects (thread k t)) as [|x l]; [by apply elem_of_nil in Ho|].
  eexists. split; [reflexivity|]. split_and!.
  - etrans; [exact W1|]. apply set_context_waits.
  - intros P. by apply set_context_waits, P1.
  - etrans; [exact L1|]. by apply set_thread_locks.
  - by constructor.
Qed.

Lemma ResumeFromWait_waiting k t :
  wait_objects (thread k t) = [] -> waiting_status (status (thread k t)) = true ->
  ∃ k', ResumeFromWait k t = Some k' ∧ (∀ o, waiting k' o = waiting k o) ∧
    status (thread k' t) = Ready ∧ wait_objects (thread k' t) = [] ∧ wakeup_callback (thread k' t) = None ∧
    (∀ x, x ≠ t -> thread k' x = thread k x) ∧ (priorities_ok k -> priorities_ok k').
Proof.
  intros E S. unfold ResumeFromWait. rewrite E. cbv zeta.
  set (k1 := on_queue _ _ _). set (k2 := PrepareReschedule _).
  assert (T1 : thread k1 t = (thread k t)<|wakeup_callback := None|>) by apply thread_set_eq.
  assert (T2 : ∀ x, thread k2 x
    = if decide (t = x) then (thread k1 t)<|status := Ready|> else thread k x).
  { intros x. subst k2. etrans; [apply thread_set|]. case_decide as D; [done|]. subst k1.
    etrans; [apply thread_set|]. by rewrite decide_False. }
  exists k2. split; [by destruct (status (thread k t))|]. split; [done|].
  rewrite !T2, !decide_True, T1 by done. cbn. split_and!; try done.
  - intros x Hx. by rewrite T2, decide_False.
  - intros P x. rewrite T2. case_decide; [subst; rewrite T1|]; apply P.
Qed.

(** Acquiring for a thread that can run. *)
Lemma acquire_for k o t : waits_ok k -> ready_to_run k o t = true ->
  ∃ k', (if decide (status (thread k t) = WaitSynchAll)
         then fold_opt (fun k object => Acquire k object t) k (wait_objects (thread k t))
         else Acquire k o t) = Some k' ∧ same_waits k k' ∧ (priorities_ok k -> priorities_ok k').
Proof.
  intros H R. unfold ready_to_run in R. apply andb_true_iff in R as [R1 R2].
  apply negb_true_iff in R1. case_decide as D.
  - apply Acquire_all_ok; [by apply (wk_all _ H)|]. apply Is_true_true, forallb_True in R2.
    eapply Forall_impl; [exact R2|]. cbv beta. intros x Hx. by destruct (ShouldWait k x t).
  - destruct (Acquire_ok k o t R1) as (k' & E & [W _ P]). by exists k'.
Qed.

Lemma wake_thread_ok k o t : waits_ok k -> t ∈ waiting k o -> ready_to_run k o t = true ->
  ∃ k', wake_thread k o t = Some k' ∧ wakes k t k' ∧ waits_ok k'.
Proof.
  intros H Ht R. destruct (wk_listed k H o t Ht) as [Ho Hs].
  destruct (acquire_for k o t H R) as (k1 & E1 & W1 & P1).
  unfold wake_thread. rewrite E1. cbn [mbind option_bind].
  assert (H2 : ∃ k2, (match wakeup_callback (thread k1 t) with
       | Some cb => WakeUp k1 cb Signal t (Some o) | None => Some k1 end) = Some k2 ∧
       same_waits k k2 ∧ (priorities_ok k -> priorities_ok k2)).
  { rewrite (sw_callback _ _ W1). destruct (wakeup_callback (thread k t)) as [cb|] eqn:C; [|by exists k1].
    destruct (WakeUp_signal k1 cb t o) as (k2 & E2 & W2 & P2 & _).
    - by rewrite (sw_objects _ _ W1).
    - intros a ->. by apply (wk_callback k H t a Hs).
    - exists k2. split; [done|]. split; [by etrans|auto]. }
  destruct H2 as (k2 & -> & W2 & P2). cbn [mbind option_bind]. clear k1 E1 W1 P1.
  unfold clear_wait_objects.
  pose proof (RemoveWaitingThreads_leaves t (wait_objects (thread k2 t)) k2) as L.
  destruct L as [LW LS LO LC LX LP].
  { intros o'. rewrite (sw_waiting _ _ W2). apply H. }
  set (k3 := foldl _ k2 _) in *. clearbody k3.
  destruct (ResumeFromWait_waiting (set_thread k3 t ((thread k3 t)<|wait_objects := []|>)) t)
    as (k4 & E4 & W4 & S4 & O4 & C4 & X4 & P4).
  { by rewrite thread_set_eq. }
  { rewrite thread_set_eq. change (waiting_status (status (thread k3 t)) = true).
    by rewrite LS, (sw_status _ _ W2). }
  exists k4. split; [exact E4|].
  assert (K : wakes k t k4).
  { constructor; [|done..|].
    - intros o'. rewrite W4. change (waiting (set_thread _ _ _) o') with (waiting k3 o').
      rewrite LW, (sw_waiting _ _ W2), (sw_objects _ _ W2). case_decide as D; [done|].
      symmetry. apply filter_ne_id. intros Ht'. by apply D, H.
    - intros x Hx. rewrite X4 by done. rewrite thread_set, decide_False by done.
      by rewrite LS, LO, LC, (sw_status _ _ W2), (sw_objects _ _ W2), (sw_callback _ _ W2). }
  split; [done|]. eapply wakes_ok; [done..|]. apply P4. intros x. rewrite thread_set.
  case_decide; [subst x; cbn|]; apply LP, P2, H.
Qed.

(** * The loop *)

(** The threads woken in turn, each the first ready one at that time. *)
Inductive wake_seq o : KernelSystem -> list nat -> KernelSystem -> Prop :=
| wake_seq_done k :
    (∀ t, t ∈ waiting k o -> ready_to_run k o t = false) -> wake_seq o k [] k
| wake_seq_step k t k1 l k' :
    first_ready k o (waiting k o) t -> wake_thread k o t = Some k1 ->
    wake_seq o k1 l k' -> wake_seq o k (t :: l) k'.

(** The threads [l] have been woken, the others are as they were. *)
Record woken k (l : list nat) k' : Prop := {
  wn_waiting : ∀ o, waiting k' o = filter (fun x => x ∉ l) (waiting k o);
  wn_ready : ∀ t, t ∈ l -> status (thread k' t) = Ready ∧ wait_objects (thread k' t) = [] ∧
    wakeup_callback (thread k' t) = None;
  wn_others : ∀ t, t ∉ l -> status (thread k' t) = status (thread k t) ∧
    wait_objects (thread k' t) = wait_objects (thread k t) ∧
    wakeup_callback (thread k' t) = wakeup_callback (thread k t)
}.

Lemma woken_nil k : woken k [] k.
Proof.
  constructor; [|by intros t Ht; apply elem_of_nil in Ht|done]. intros o. symmetry.
  induction (waiting k o) as [|x l IH]; [done|]. rewrite filter_cons_True by apply not_elem_of_nil.
  by rewrite IH.
Qed.

Lemma woken_cons k t k1 l k' : t ∉ l -> wakes k t k1 -> woken k1 l k' -> woken k (t :: l) k'.
Proof.
  intros Nt [W S O C X] [W' R' X']. constructor.
  - intros o. rewrite W', W, list_filter_filter. apply list_filter_iff. intros x.
    rewrite not_elem_of_cons. tauto.
  - intros x Hx. apply elem_of_cons in Hx as [->|Hx]; [|auto].
    destruct (X' t Nt) as (-> & -> & ->). done.
  - intros x Hx. apply not_elem_of_cons in Hx as [Hx Hl].
    destruct (X' x Hl) as (-> & -> & ->). by apply X.
Qed.

Lemma first_ready_in k o l t : first_ready k o l t -> t ∈ l ∧ ready_to_run k o t = true.
Proof. intros (l1 & l2 & -> & R & _). split; [|done]. apply elem_of_app. right. by left. Qed.

Lemma filter_ne_length (t : nat) l : t ∈ l -> (length (filter (fun x => x ≠ t) l) < length l)%nat.
Proof. intros H. eapply length_filter_lt; [exact H|]. by intros N. Qed.

Lemma wake_all_spec o fuel : ∀ k, waits_ok k -> (length (waiting k o) <= fuel)%nat ->
  ∃ l k', wake_all fuel k o = Some k' ∧ wake_seq o k l k' ∧ waits_ok k' ∧
    NoDup l ∧ (∀ t, t ∈ l -> t ∈ waiting k o) ∧ woken k l k'.
Proof.
  induction fuel as [|fuel IH]; intros k H Hf; cbn [wake_all];
    (destruct (GetHighest_spec k o) as (c & E & Hc);
       [apply H|apply Forall_forall; intros x Hx; by eapply (wk_listed k H)|]; rewrite E;
     cbn [mbind option_bind]; destruct c as [t|];
     [|exists [], k; split_and!; try done; [by constructor|constructor
        |by intros t Ht; apply elem_of_nil in Ht|apply woken_nil]]).
  - destruct (first_ready_in _ _ _ _ Hc) as [Ht _].
    destruct (waiting k o); [by apply elem_of_nil in Ht|cbn in Hf; lia].
  - destruct (first_ready_in _ _ _ _ Hc) as [Ht R].
    destruct (wake_thread_ok k o t H Ht R) as (k1 & E1 & K1 & H1). rewrite E1. cbn [mbind option_bind].
    destruct (IH k1 H1) as (l & k' & E2 & S2 & H2 & N2 & I2 & K2).
    { rewrite (ws_waiting _ _ _ K1). pose proof (filter_ne_length t _ Ht). lia. }
    assert (Nt : t ∉ l).
    { intros Hl. specialize (I2 t Hl). rewrite (ws_waiting _ _ _ K1) in I2.
      apply list_elem_of_filter in I2. tauto. }
    exists (t :: l), k'. split_and!; try done.
    + by econstructor.
    + by constructor.
    + intros x Hx. apply elem_of_cons in Hx as [->|Hx]; [done|]. specialize (I2 x Hx).
      rewrite (ws_waiting _ _ _ K1) in I2. by apply list_elem_of_filter in I2 as [_ I2].
    + by eapply woken_cons.
Qed.

Lemma wake_seq_end o k l k' : wake_seq o k l k' ->
  ∀ t, t ∈ waiting k' o -> ready_to_run k' o t = false.
Proof. by induction 1. Qed.

Lemma WakeupAll_spec k o : waits_ok k ->
  ∃ l k', WaitObject_WakeupAllWaitingThreads k o = Some (notified k' o) ∧
    wake_seq o k l k' ∧ waits_ok k' ∧ NoDup l ∧ (∀ t, t ∈ l -> t ∈ waiting k o) ∧ woken k l k'.
Proof.
  intros H. destruct (wake_all_spec o (length (waiting k o)) k H (le_n _)) as (l & k' & E & R).
  exists l, k'. unfold WaitObject_WakeupAllWaitingThreads. by rewrite E.
Qed.

(** C2: waking the threads of an object ends.  No assertion fails; the threads
    are woken one at a time, each the most urgent of those that can run at that
    time and the one that has waited longest among equals; each is woken once,
    is ready, waits for nothing more and has no callback left; the others are
    untouched; in the end no thread that still waits for the object can run, and
    the notifier is called after that. *)
Theorem WakeupAllWaitingThreads_total k o : waits_ok k ->
  ∃ l k', WaitObject_WakeupAllWaitingThreads k o = Some (notified k' o) ∧
    wake_seq o k l k' ∧ waits_ok k' ∧ NoDup l ∧ (∀ t, t ∈ l -> t ∈ waiting k o) ∧ woken k l k' ∧
    (∀ t, t ∈ waiting k' o -> ready_to_run k' o t = false).
Proof.
  intros H. destruct (WakeupAll_spec k o H) as (l & k' & E & S & R).
  exists l, k'. split_and!; try done; try tauto. by eapply wake_seq_end.
Qed.
End waking.
