(* ===== verification/ObjectFacts.v ===== *)
(** Correctness of the synchronisation objects: the ownership of mutexes, the
    counts of semaphores, the signals of events; a kernel with waiting threads as
    the example. *)

From stdpp Require Import strings.
From S2P Require Import Prelude ThreadQueueList CoreTiming Result ResourceLimit KernelState Sync WaitFacts.

Implicit Types (k : KernelSystem) (t m : nat) (o : Ptr).

Section objects.
Context `{quiet : QuietEnvironment}.

(** * Waking and mutexes *)

Lemma Acquire_locks k o t k' : locks_ok k -> ShouldWait k o t = false -> Acquire k o t = Some k' ->
  (∀ m, o ≠ PMutex m -> same_lock m k k') ∧
  (∀ m, o = PMutex m -> lock_of k' m = (lock_count (mutex k m) + 1, Some t) ∧ lock_ok k' m).
Proof.
  intros L S E. destruct o as [y|m|s|e|y|p|s]; cbn [Acquire ShouldWait] in *;
    unfold Thread_Acquire, Mutex_Acquire, Event_Acquire, Timer_Acquire, ServerPort_Acquire,
      ServerSession_Acquire in E; try (rewrite S in E; injection E as <-);
    try (split; [intros m' _|done]; by repeat case_decide).
  - destruct (Mutex_take_lock k m t (L m) S) as (H1 & H2 & H3). split.
    + intros m' Hm. apply H3. congruence.
    + by intros m' [= <-].
  - injection E as <-. split; [|done]. intros m _. unfold Semaphore_Acquire. by destruct (_ <=? 0).
  - cbv zeta in E. rewrite S in E. split; [|done]. intros m _.
    destruct (negb _); [by injection E as <-|]. destruct (last _); [by injection E as <-|done].
Qed.

Lemma Acquire_all_locks t l : NoDup l -> ∀ k k', Forall (fun o => ShouldWait k o t = false) l ->
  locks_ok k -> fold_opt (fun k object => Acquire k object t) k l = Some k' ->
  locks_ok k' ∧ ∀ m, lock_of k' m
    = if decide (PMutex m ∈ l) then (lock_count (mutex k m) + 1, Some t) else lock_of k m.
Proof.
  induction 1 as [|o l Ho Hl IH]; intros k k' F L E; cbn [fold_opt] in E.
  { injection E as <-. split; [done|]. intros m. rewrite decide_False; [done|apply not_elem_of_nil]. }
  apply Forall_cons in F as [F1 F]. destruct (Acquire_ok k o t F1) as (k1 & E1 & [W A P]).
  rewrite E1 in E. cbn [mbind option_bind] in E.
  destruct (Acquire_locks k o t k1 L F1 E1) as [N Y].
  assert (L1 : locks_ok k1).
  { intros m. destruct (decide (o = PMutex m)) as [Em|Em]; [by apply Y|].
    by apply (same_lock_ok m k); [apply N|]. }
  assert (F' : Forall (fun o => ShouldWait k1 o t = false) l).
  { apply Forall_forall. intros o' Ho'. rewrite A by (intros ->; done). by eapply Forall_forall in F. }
  destruct (IH k1 k' F' L1 E) as [L' R]. split; [done|]. intros m. rewrite R.
  destruct (decide (o = PMutex m)) as [->|Em].
  - rewrite decide_False, decide_True by (done || by left). by apply Y.
  - destruct (N m Em) as [N1 _]. rewrite N1. unfold lock_of in N1. injection N1 as N1 N2.
    rewrite N1. destruct (decide (PMutex m ∈ l)) as [D|D].
    + by rewrite decide_True by by right.
    + rewrite decide_False; [done|]. intros [?|?]%elem_of_cons; congruence.
Qed.

(** The thread an object wakes takes the object, if it is a mutex. *)
Lemma wake_thread_locks k o t k' : waits_ok k -> locks_ok k -> t ∈ waiting k o ->
  ready_to_run k o t = true -> wake_thread k o t = Some k' ->
  locks_ok k' ∧ ∀ m, o = PMutex m -> lock_of k' m = (lock_count (mutex k m) + 1, Some t).
Proof.
  intros H L Ht R E. destruct (wk_listed k H o t Ht) as [Ho Hs].
  destruct (acquire_for k o t H R) as (k1 & E1 & W1 & P1).
  unfold wake_thread in E. rewrite E1 in E. cbn [mbind option_bind] in E.
  assert (L1 : locks_ok k1 ∧ ∀ m, o = PMutex m -> lock_of k1 m = (lock_count (mutex k m) + 1, Some t)).
  { unfold ready_to_run in R. apply andb_true_iff in R as [R1 R2]. apply negb_true_iff in R1.
    case_decide as D.
    - apply Is_true_true, forallb_True in R2.
      destruct (Acquire_all_locks t _ (wk_all k H t D) k k1) as [L1 Y1]; try done.
      { eapply Forall_impl; [exact R2|]. cbv beta. intros x Hx. by destruct (ShouldWait k x t). }
      split; [done|]. intros m ->. by rewrite Y1, decide_True.
    - destruct (Acquire_locks k o t k1 L R1 E1) as [N Y]. split; [|intros m Em; by apply Y].
      intros m. destruct (decide (o = PMutex m)) as [Em|Em]; [by apply Y|].
      by apply (same_lock_ok m k); [apply N|]. }
  assert (S : same_locks k1 k').
  { rewrite (sw_callback _ _ W1) in E. destruct (wakeup_callback (thread k t)) as [cb|] eqn:C.
    - destruct (WakeUp_signal k1 cb t o) as (k2 & E2 & W2 & P2 & L2 & _).
      + by rewrite (sw_objects _ _ W1).
      + intros a ->. by apply (wk_callback k H t a Hs).
      + rewrite E2 in E. cbn [mbind option_bind] in E. etrans; [exact L2|].
        etrans; [apply clear_wait_objects_locks|]. by eapply ResumeFromWait_locks.
    - cbn [mbind option_bind] in E. etrans; [apply clear_wait_objects_locks|].
      by eapply ResumeFromWait_locks. }
  destruct L1 as [L1 Y1]. split.
  - intros m. by apply (same_lock_ok m k1).
  - intros m Em. destruct (S m) as [-> _]. by apply Y1.
Qed.

Lemma wake_seq_locks o k l k' : wake_seq o k l k' -> waits_ok k -> locks_ok k -> locks_ok k'.
Proof.
  induction 1 as [k N|k t k1 l k' F E _ IH]; intros H L; [done|].
  destruct (first_ready_in _ _ _ _ F) as [Ht R].
  destruct (wake_thread_ok k o t H Ht R) as (k1' & E' & _ & H1). rewrite E in E'. injection E' as <-.
  apply IH; [done|]. by apply (wake_thread_locks k o t).
Qed.

(** A free mutex wakes at most one thread, which then holds it. *)
Lemma wake_seq_mutex m k l k' : wake_seq (PMutex m) k l k' -> waits_ok k -> locks_ok k ->
  lock_count (mutex k m) = 0 ->
  (l = [] ∧ k' = k ∧ ∀ t, t ∈ waiting k (PMutex m) -> ready_to_run k (PMutex m) t = false) ∨
  ∃ t, l = [t] ∧ first_ready k (PMutex m) (waiting k (PMutex m)) t ∧ lock_of k' m = (1, Some t).
Proof.
  intros S H L Z. destruct S as [k N|k t k1 l k' F E S]; [by left|right]. exists t.
  destruct (first_ready_in _ _ _ _ F) as [Ht R].
  destruct (wake_thread_ok k (PMutex m) t H Ht R) as (k1' & E' & K1 & H1).
  rewrite E in E'. injection E' as <-.
  destruct (wake_thread_locks k (PMutex m) t k1 H L Ht R E) as [L1 Y1].
  specialize (Y1 m eq_refl). rewrite Z in Y1.
  destruct S as [k1 N1|k1 t2 k2 l k' F2 E2 S]; [by split_and!|exfalso].
  destruct (first_ready_in _ _ _ _ F2) as [Ht2 R2].
  unfold ready_to_run in R2. apply andb_true_iff in R2 as [R2 _]. apply negb_true_iff in R2.
  cbn [ShouldWait] in R2. unfold Mutex_ShouldWait in R2. unfold lock_of in Y1. injection Y1 as Y1 Y2.
  rewrite Y1, Y2 in R2. cbn in R2. apply bool_decide_eq_false in R2.
  rewrite (ws_waiting _ _ _ K1) in Ht2. apply list_elem_of_filter in Ht2 as [Ht2 _].
  apply R2. congruence.
Qed.
(** ** Releasing a mutex *)

Lemma Mutex_unlock_spec k m t : waits_ok k -> (∀ m', m' ≠ m -> lock_ok k m') ->
  lock_count (mutex k m) = 0 -> (∀ x, holds k x m <-> x = t) ->
  let k' := Mutex_unlock k m t in
  waits_ok k' ∧ locks_ok k' ∧ lock_of k' m = (0, None) ∧ same_waits k k'.
Proof.
  intros H L Z Hx. cbv zeta. unfold Mutex_unlock. cbv zeta.
  set (k1 := set_thread k t _). set (k2 := Thread_UpdatePriority k1 t). set (k3 := set_mutex k2 m _).
  assert (W1 : same_waits k k1) by by apply set_thread_waits.
  assert (W3 : same_waits k k3).
  { transitivity k1; [done|]. transitivity k2; [apply Thread_UpdatePriority_waits|apply set_mutex_waits]. }
  assert (P3 : priorities_ok k3).
  { change (priorities_ok k2). apply Thread_UpdatePriority_ok. intros x. unfold k1.
    rewrite thread_set. case_decide; [subst|]; apply H. }
  assert (L12 : same_locks k1 k2) by apply Thread_UpdatePriority_locks.
  assert (H1 : ∀ x m', holds k1 x m' <-> holds k x m' ∧ (x = t -> m' ≠ m)).
  { intros x m'. unfold holds, k1. rewrite thread_set. destruct (decide (t = x)) as [<-|N].
    - change (m' ∈ held_mutexes (thread k t) ∖ {[m]} <-> m' ∈ held_mutexes (thread k t) ∧ (t = t -> m' ≠ m)).
      rewrite elem_of_difference, elem_of_singleton. intuition.
    - intuition congruence. }
  assert (H3 : ∀ x m', holds k3 x m' <-> holds k x m' ∧ (x = t -> m' ≠ m)).
  { intros x m'. rewrite <- H1. apply (L12 m'). }
  assert (M3 : lock_of k3 m = (0, None)).
  { unfold lock_of, k3. rewrite mutex_set, decide_True by done.
    change ((lock_count (mutex k m), @None nat) = (0, None)). by rewrite Z. }
  split_and!; [by eapply same_waits_ok| |done|done]. intros m'. destruct (decide (m' = m)) as [->|N].
  - unfold lock_ok. rewrite M3. split; [done|]. intros x Hh. apply H3 in Hh as [Hh E].
    apply Hx in Hh. by apply E.
  - apply (same_lock_ok m' k); [|by apply L]. split.
    + transitivity (lock_of k2 m'); [|by apply (L12 m')]. apply (set_mutex_lock k2 m). congruence.
    + intros x. rewrite H3. tauto.
Qed.

(** C3: only the thread that holds a mutex releases it: any other gets the
    error of a wrong locking thread and nothing changes.  The holder of a mutex
    locked several times unlocks it once and keeps it.  The last release frees
    the mutex and either no waiting thread can run and it stays free, or the
    most urgent waiting thread that can run, and only that one, holds it, locked
    once; in every case each locked mutex has exactly one holder. *)
Theorem Mutex_Release_correct k m t : waits_ok k -> locks_ok k ->
  match holding_thread (mutex k m) with
  | Some h =>
      if decide (h = t) then
        if decide (lock_count (mutex k m) = 1) then
          let k0 := Mutex_unlock (set_mutex k m ((mutex k m)<|lock_count := 0|>)) m t in
          ∃ k', Mutex_Release k m t = Some (ResultSuccess, PrepareReschedule (notified k' (PMutex m))) ∧
            waits_ok k' ∧ locks_ok k' ∧
            ((lock_of k' m = (0, None) ∧
              ∀ x, x ∈ waiting k' (PMutex m) -> ready_to_run k' (PMutex m) x = false) ∨
             ∃ x, lock_of k' m = (1, Some x) ∧ first_ready k0 (PMutex m) (waiting k (PMutex m)) x ∧
               woken k0 [x] k')
        else
          ∃ k', Mutex_Release k m t = Some (ResultSuccess, k') ∧
            lock_of k' m = (lock_count (mutex k m) - 1, Some t) ∧ same_waits k k' ∧ locks_ok k'
      else Mutex_Release k m t = Some (WrongLockingThread, k)
  | None => Mutex_Release k m t = Some (WrongLockingThread, k)
  end.
Proof.
  intros H L. pose proof (L m) as Lm. unfold lock_ok, lock_of in Lm. unfold Mutex_Release.
  destruct (holding_thread (mutex k m)) as [h|] eqn:Eh; [|done].
  destruct (decide (h = t)) as [->|N]; [|done]. destruct Lm as [Hn Hx].
  rewrite (proj2 (Z.leb_gt _ _)) by lia. cbv zeta.
  assert (M : ∀ n, let k1 := set_mutex k m ((mutex k m)<|lock_count := n|>) in
    lock_of k1 m = (n, Some t) ∧ ∀ m', m' ≠ m -> same_lock m' k k1).
  { intros n. cbv zeta. split; [|intros m' Nm; apply set_mutex_lock; congruence].
    unfold lock_of. rewrite mutex_set, decide_True by done. rewrite <- Eh. done. }
  case_decide as D.
  - rewrite D. destruct (M 0) as [M1 M2]. set (k1 := set_mutex k m _) in *.
    change (1 - 1) with 0. change (set_mutex k m _) with k1.
    unfold lock_of in M1. injection M1 as M1 M1'. rewrite M1. cbn [Z.eqb].
    destruct (Mutex_unlock_spec k1 m t) as (H0 & L0 & E0 & W0); [by destruct H| |done|exact Hx|].
    { intros m' Nm. apply (same_lock_ok m' k); [by apply M2|done]. }
    set (k0 := Mutex_unlock k1 m t) in *.
    destruct (WakeupAll_spec k0 (PMutex m) H0) as (l & k' & E & S & H' & _ & _ & Wn).
    rewrite E. cbn [mbind option_bind]. exists k'. split; [done|]. split; [done|].
    split; [by eapply wake_seq_locks|].
    destruct (wake_seq_mutex m k0 l k' S H0 L0) as [(-> & -> & N)|(x & -> & F & E')];
      [unfold lock_of in E0; by injection E0|by left|right].
    exists x. split; [done|]. split; [|done]. by rewrite (sw_waiting _ _ W0) in F.
  - destruct (M (lock_count (mutex k m) - 1)) as [M1 M2]. set (k1 := set_mutex k m _) in *.
    pose proof M1 as M1'. unfold lock_of in M1'. injection M1' as M1' _. rewrite M1'.
    rewrite (proj2 (Z.eqb_neq _ _)) by lia. exists k1. split; [done|]. split; [done|].
    split; [apply set_mutex_waits|]. intros m'. destruct (decide (m' = m)) as [->|Nm].
    + unfold lock_ok. rewrite M1. split; [lia|]. exact Hx.
    + by apply (same_lock_ok m' k); [apply M2|].
Qed.

(** * Waking and the other objects

    [V] is the part of the state that acquiring the object [o0] changes, by
    [f], and nothing else does. *)
Record view_of {A} o0 (V : KernelSystem -> A) (f : A -> A) : Prop := {
  v_other : ∀ k o t k', o ≠ o0 -> Acquire k o t = Some k' -> V k' = V k;
  v_take : ∀ k t k', ShouldWait k o0 t = false -> Acquire k o0 t = Some k' -> V k' = f (V k);
  v_frame : ∀ k k', same_objects k k' -> V k' = V k
}.

Lemma ResumeFromWait_objects k t k' : ResumeFromWait k t = Some k' -> same_objects k k'.
Proof.
  unfold ResumeFromWait. destruct (wait_objects _); [|done].
  destruct (status _); try (intros [= <-]; by constructor).
  destruct (wakeup_callback _); [done|]. by intros [= <-].
Qed.

Section view.
Context {A} (o0 : Ptr) (V : KernelSystem -> A) (f : A -> A) (view : view_of o0 V f).

Lemma Acquire_all_view t l : NoDup l -> ∀ k k', Forall (fun o => ShouldWait k o t = false) l ->
  fold_opt (fun k object => Acquire k object t) k l = Some k' ->
  V k' = if decide (o0 ∈ l) then f (V k) else V k.
Proof.
  induction 1 as [|o l Ho Hl IH]; intros k k' F E; cbn [fold_opt] in E.
  { injection E as <-. rewrite decide_False; [done|apply not_elem_of_nil]. }
  apply Forall_cons in F as [F1 F]. destruct (Acquire_ok k o t F1) as (k1 & E1 & [W Av P]).
  rewrite E1 in E. cbn [mbind option_bind] in E.
  assert (F' : Forall (fun o => ShouldWait k1 o t = false) l).
  { apply Forall_forall. intros o' Ho'. rewrite Av by (intros ->; done). by eapply Forall_forall in F. }
  rewrite (IH k1 k' F' E). destruct (decide (o = o0)) as [->|N].
  - rewrite decide_False, decide_True by (done || by left). by apply (v_take _ _ _ view k t).
  - rewrite (v_other _ _ _ view _ _ _ _ N E1). destruct (decide (o0 ∈ l)) as [D|D].
    + by rewrite decide_True by by right.
    + rewrite decide_False; [done|]. intros [?|?]%elem_of_cons; congruence.
Qed.

Lemma RemoveWaitingThreads_objects t l : ∀ k,
  same_objects k (foldl (fun k object => RemoveWaitingThread k object t) k l).
Proof.
  induction l as [|o l IH]; intros k; [done|]. cbn [foldl]. etrans; [|apply IH].
  destruct o as [y|m|s|e|y|p|s]; try done. cbn [RemoveWaitingThread]. unfold Mutex_RemoveWaitingThread.
  cbv zeta. unfold Mutex_UpdatePriority. destruct (holding_thread _); [|by constructor]. cbv zeta.
  destruct (_ =? _); by constructor.
Qed.

Lemma wake_thread_view k t k' : waits_ok k -> t ∈ waiting k o0 -> ready_to_run k o0 t = true ->
  wake_thread k o0 t = Some k' -> V k' = f (V k).
Proof.
  intros H Ht R E. destruct (wk_listed k H o0 t Ht) as [Ho Hs].
  destruct (acquire_for k o0 t H R) as (k1 & E1 & W1 & P1).
  unfold wake_thread in E. rewrite E1 in E. cbn [mbind option_bind] in E.
  assert (V1 : V k1 = f (V k)).
  { unfold ready_to_run in R. apply andb_true_iff in R as [R1 R2]. apply negb_true_iff in R1.
    case_decide as D; [|by apply (v_take _ _ _ view k t)].
    apply Is_true_true, forallb_True in R2.
    rewrite (Acquire_all_view t (wait_objects (thread k t)) (wk_all k H t D) k k1); [by rewrite decide_True| |exact E1].
    eapply Forall_impl; [exact R2|]. cbv beta. intros x Hx. by destruct (ShouldWait k x t). }
  rewrite <- V1. clear V1. apply (v_frame _ _ _ view).
  assert (S : ∀ k2, ResumeFromWait (clear_wait_objects k2 t) t = Some k' -> same_objects k2 k').
  { intros k2 E2. transitivity (clear_wait_objects k2 t).
    - unfold clear_wait_objects. etrans; [apply RemoveWaitingThreads_objects|by constructor].
    - by eapply ResumeFromWait_objects. }
  rewrite (sw_callback _ _ W1) in E. destruct (wakeup_callback (thread k t)) as [cb|] eqn:C.
  - destruct (WakeUp_signal k1 cb t o0) as (k2 & E2 & _ & _ & _ & O2).
    + by rewrite (sw_objects _ _ W1).
    + intros a ->. by apply (wk_callback k H t a Hs).
    + rewrite E2 in E. cbn [mbind option_bind] in E. etrans; [exact O2|]. by apply S.
  - cbn [mbind option_bind] in E. by apply S.
Qed.
End view.

Lemma Acquire_objects k o t k' : Acquire k o t = Some k' ->
  (∀ s, o ≠ PSemaphore s -> semaphore k' s = semaphore k s) ∧
  (∀ e, o ≠ PEvent e -> event k' e = event k e) ∧ (∀ x, o ≠ PTimer x -> ktimer k' x = ktimer k x).
Proof.
  intros E. destruct o as [y|m|s|e|y|p|s]; cbn [Acquire] in E;
    unfold Thread_Acquire, Mutex_Acquire, Event_Acquire, Timer_Acquire, ServerPort_Acquire,
      ServerSession_Acquire in E.
  - destruct (Thread_ShouldWait _); [done|by injection E as <-].
  - destruct (Mutex_ShouldWait _ _); [done|]. injection E as <-. unfold Mutex_take.
    destruct (_ =? 0); done.
  - injection E as <-. unfold Semaphore_Acquire. destruct (_ <=? 0); [done|].
    split; [|done]. intros s' N. rewrite semaphore_set, decide_False; [done|congruence].
  - destruct (Event_ShouldWait _); [done|]. injection E as <-. case_decide; [|done].
    split; [done|]. split; [|done]. intros e' N. rewrite event_set, decide_False; [done|congruence].
  - destruct (Timer_ShouldWait _); [done|]. injection E as <-. case_decide; [|done].
    split; [done|]. split; [done|]. intros x' N. rewrite ktimer_set, decide_False; [done|congruence].
  - destruct (ServerPort_ShouldWait _); [done|by injection E as <-].
  - cbv zeta in E. destruct (ServerSession_ShouldWait _); [done|].
    destruct (negb _); [by injection E as <-|]. destruct (last _); [by injection E as <-|done].
Qed.

Definition take_semaphore (s : Semaphore) : Semaphore := s<|available_count := available_count s - 1|>.
Lemma semaphore_view s : view_of (PSemaphore s) (fun k => semaphore k s) take_semaphore.
Proof.
  constructor.
  - intros k o t k' N E. by apply (Acquire_objects _ _ _ _ E).
  - intros k t k' S E. cbn [ShouldWait Acquire] in *. unfold Semaphore_ShouldWait in S.
    injection E as <-. unfold Semaphore_Acquire. rewrite S. by rewrite semaphore_set, decide_True.
  - intros k k' [H _ _]. apply H.
Qed.

Definition take_event (e : KernelState.Event) : KernelState.Event :=
  if decide (event_reset_type e = OneShot) then e<|event_signaled := false|> else e.
Lemma event_view e : view_of (PEvent e) (fun k => event k e) take_event.
Proof.
  constructor.
  - intros k o t k' N E. by apply (Acquire_objects _ _ _ _ E).
  - intros k t k' S E. cbn [ShouldWait Acquire] in *. unfold Event_Acquire in E. rewrite S in E.
    injection E as <-. unfold take_event. case_decide; [|done]. by rewrite event_set, decide_True.
  - intros k k' [_ H _]. apply H.
Qed.

(** ** Semaphores *)

Lemma notified_quiet k o : same_waits k (notified k o) ∧ (priorities_ok k -> priorities_ok (notified k o)) ∧
  same_locks k (notified k o) ∧ same_objects k (notified k o).
Proof. unfold notified. destruct (hle_notifier _); [apply quiet_notify|by split_and!]. Qed.

Lemma notified_ok k o : waits_ok k -> waits_ok (notified k o).
Proof.
  intros H. destruct (notified_quiet k o) as (W & P & _). eapply same_waits_ok; [done..|]. apply P, H.
Qed.

Lemma woken_same k l k1 k2 : woken k l k1 -> same_waits k1 k2 -> woken k l k2.
Proof.
  intros [W R X] [W' S' O' C' _]. constructor.
  - intros o. by rewrite W'.
  - intros t Ht. rewrite S', O', C'. by apply R.
  - intros t Ht. rewrite S', O', C'. by apply X.
Qed.

Lemma wake_seq_semaphore s k l k' : wake_seq (PSemaphore s) k l k' -> waits_ok k ->
  0 <= available_count (semaphore k s) ->
  semaphore k' s = mk_Semaphore (max_count (semaphore k s))
                     (available_count (semaphore k s) - Z.of_nat (length l)) ∧
  0 <= available_count (semaphore k' s).
Proof.
  induction 1 as [k N|k t k1 l k' F E S IH]; intros H Hs.
  { cbn. rewrite Z.sub_0_r. by destruct (semaphore k s). }
  destruct (first_ready_in _ _ _ _ F) as [Ht R].
  destruct (wake_thread_ok k _ t H Ht R) as (k1' & E' & _ & H1). rewrite E in E'. injection E' as <-.
  pose proof (wake_thread_view _ _ _ (semaphore_view s) k t k1 H Ht R E) as V.
  unfold ready_to_run in R. apply andb_true_iff in R as [R _]. apply negb_true_iff, Z.leb_gt in R.
  destruct IH as [IH1 IH2]; [done|rewrite V; cbn; lia|]. split; [|done].
  rewrite IH1, V. cbn [max_count available_count take_semaphore length]. f_equal.
  change (available_count (semaphore k s) - 1 - Z.of_nat (length l)
          = available_count (semaphore k s) - Z.of_nat (Datatypes.S (length l))). lia.
Qed.

(** A thread that does not wait for all its objects runs as soon as one is
    available. *)
Lemma not_ready_waits k o t : ready_to_run k o t = false -> ShouldWait k o t = false ->
  status (thread k t) = WaitSynchAll.
Proof.
  unfold ready_to_run. intros R S. rewrite S in R. cbn [negb andb] in R. by case_decide.
Qed.

(** Releasing slots of a semaphore beyond its maximum is an error and changes
    nothing.  Otherwise the former count is returned, each thread woken takes one
    of the slots, the count stays between zero and the maximum, and when slots
    are left the threads that still wait do so for other objects too. *)
Theorem Semaphore_Release_correct k s n : waits_ok k ->
  let sem := semaphore k s in
  0 <= available_count sem <= max_count sem -> max_count sem < 2 ^ 31 ->
  0 <= n -> n + available_count sem < 2 ^ 31 ->
  if max_count sem <? available_count sem + n
  then Semaphore_Release k s n = Some (ResultOutOfRangeKernel, None, k)
  else ∃ l k', Semaphore_Release k s n = Some (ResultSuccess, Some (available_count sem), k') ∧
    waits_ok k' ∧ NoDup l ∧ (∀ t, t ∈ l -> t ∈ waiting k (PSemaphore s)) ∧ woken k l k' ∧
    semaphore k' s = mk_Semaphore (max_count sem) (available_count sem + n - Z.of_nat (length l)) ∧
    0 <= available_count (semaphore k' s) <= max_count sem ∧
    (0 < available_count (semaphore k' s) ->
     ∀ t, t ∈ waiting k' (PSemaphore s) -> status (thread k' t) = WaitSynchAll).
Proof.
  intros H sem Hs Hm Hn Ho. unfold Semaphore_Release. fold sem.
  rewrite swrap_id by (lia || (unfold in_srange; modlia)).
  destruct (Z.ltb_spec (max_count sem) (available_count sem + n)) as [B|B].
  { by rewrite (proj2 (Z.leb_gt _ _)) by lia. }
  rewrite (proj2 (Z.leb_le _ _)) by lia. cbv zeta.
  rewrite swrap_id by (lia || (unfold in_srange; modlia)).
  set (k1 := set_semaphore k s _).
  assert (S1 : semaphore k1 s = mk_Semaphore (max_count sem) (available_count sem + n))
    by (unfold k1; by rewrite semaphore_set, decide_True).
  assert (H1 : waits_ok k1) by by destruct H.
  destruct (WakeupAll_spec k1 (PSemaphore s) H1) as (l & k2 & E & S & H2 & Nd & I & W).
  rewrite E. cbn [mbind option_bind].
  destruct (wake_seq_semaphore s k1 l k2 S H1) as [S2 P2]; [rewrite S1; cbn; lia|].
  destruct (notified_quiet k2 (PSemaphore s)) as (NW & _ & _ & NO).
  exists l, (notified k2 (PSemaphore s)). rewrite (so_semaphore _ _ NO).
  rewrite S1 in S2. cbn in S2. split_and!; try done.
  - by apply notified_ok.
  - eapply woken_same; [|exact NW]. by destruct W.
  - rewrite S2. cbn. lia.
  - intros Hav t Ht. rewrite (sw_waiting _ _ NW) in Ht. rewrite (sw_status _ _ NW).
    apply (not_ready_waits k2 (PSemaphore s)); [by eapply wake_seq_end|].
    cbn [ShouldWait]. by apply Z.leb_gt.
Qed.

(** ** Events *)

Lemma wake_seq_event e k l k' : wake_seq (PEvent e) k l k' -> waits_ok k ->
  event k' e = Nat.iter (length l) take_event (event k e).
Proof.
  induction 1 as [k N|k t k1 l k' F E S IH]; intros H; [done|].
  destruct (first_ready_in _ _ _ _ F) as [Ht R].
  destruct (wake_thread_ok k _ t H Ht R) as (k1' & E' & _ & H1). rewrite E in E'. injection E' as <-.
  rewrite (IH H1), (wake_thread_view _ _ _ (event_view e) k t k1 H Ht R E).
  cbn [length]. by rewrite Nat.iter_succ_r.
Qed.

Lemma wake_seq_event_off e k l k' : wake_seq (PEvent e) k l k' ->
  event_signaled (event k e) = false -> l = [].
Proof.
  intros S F. destruct S as [|k t k1 l k' Hf]; [done|].
  destruct (first_ready_in _ _ _ _ Hf) as [_ R]. unfold ready_to_run in R.
  apply andb_true_iff in R as [R _]. cbn [ShouldWait] in R. unfold Event_ShouldWait in R.
  by rewrite F in R.
Qed.

Lemma wake_seq_one_shot e k l k' : wake_seq (PEvent e) k l k' -> waits_ok k ->
  event k e = mk_KEvent OneShot true ->
  (length l <= 1)%nat ∧ event_reset_type (event k' e) = OneShot ∧
  (event_signaled (event k' e) = true <-> l = []).
Proof.
  intros S H E. pose proof (wake_seq_event e k l k' S H) as V. rewrite E in V.
  destruct S as [k N|k t k1 l k' F E1 S]; [rewrite V; cbn; split_and!; [lia|done|by split]|].
  destruct (first_ready_in _ _ _ _ F) as [Ht R].
  pose proof (wake_thread_view _ _ _ (event_view e) k t k1 H Ht R E1) as V1. cbv beta in V1. rewrite E in V1.
  rewrite (wake_seq_event_off e k1 l k' S) in * by by rewrite V1.
  rewrite V. cbn. split_and!; [lia|done|by split].
Qed.

Lemma wake_seq_lasting e k l k' rt : wake_seq (PEvent e) k l k' -> waits_ok k -> rt ≠ OneShot ->
  event k e = mk_KEvent rt true ->
  event k' e = mk_KEvent rt true ∧
  ∀ t, t ∈ waiting k' (PEvent e) -> status (thread k' t) = WaitSynchAll.
Proof.
  intros S H N E.
  assert (V : event k' e = mk_KEvent rt true).
  { rewrite (wake_seq_event e k l k' S H), E. clear -N. induction (length l) as [|n IH]; [done|].
    cbn [Nat.iter nat_rect]. unfold Nat.iter in IH. rewrite IH. unfold take_event. cbn.
    by rewrite decide_False. }
  split; [done|]. intros t Ht. apply (not_ready_waits k' (PEvent e)); [by eapply wake_seq_end|].
  cbn [ShouldWait]. unfold Event_ShouldWait. by rewrite V.
Qed.

(** signalling an event.  A one-shot event wakes at most one thread and is
    consumed exactly when it wakes one.  A sticky or pulse event wakes every
    waiting thread except those that wait for all of several objects; the sticky
    event stays signalled, the pulse event does not. *)
Theorem Event_Signal_correct k e : waits_ok k ->
  let rt := event_reset_type (event k e) in
  ∃ l k', Event_Signal k e = Some k' ∧ waits_ok k' ∧ NoDup l ∧
    (∀ t, t ∈ l -> t ∈ waiting k (PEvent e)) ∧ woken k l k' ∧
    event_reset_type (event k' e) = rt ∧
    match rt with
    | OneShot => (length l <= 1)%nat ∧ (event_signaled (event k' e) = true <-> l = [])
    | Sticky => event_signaled (event k' e) = true
    | Pulse => event_signaled (event k' e) = false
    end ∧
    (rt ≠ OneShot -> ∀ t, t ∈ waiting k' (PEvent e) -> status (thread k' t) = WaitSynchAll).
Proof.
  intros H rt. unfold Event_Signal, Event_WakeupAllWaitingThreads.
  set (k1 := set_event k e _).
  assert (E1 : event k1 e = mk_KEvent rt true) by (unfold k1; by rewrite event_set, decide_True).
  assert (H1 : waits_ok k1) by by destruct H.
  destruct (WakeupAll_spec k1 (PEvent e) H1) as (l & k2 & E & S & H2 & Nd & I & W).
  rewrite E. cbn [mbind option_bind]. destruct (notified_quiet k2 (PEvent e)) as (NW & _ & _ & NO).
  set (k3 := notified k2 (PEvent e)) in *.
  assert (H3 : waits_ok k3) by by apply notified_ok.
  assert (W3 : woken k l k3) by (eapply woken_same; [by destruct W|exact NW]).
  pose proof (so_event _ _ NO e) as E3.
  destruct (decide (rt = OneShot)) as [R|R].
  - rewrite R in E1. destruct (wake_seq_one_shot e k1 l k2 S H1 E1) as (Hl & Hr & Hs).
    rewrite E3, Hr. exists l, k3. rewrite E3, R. split_and!; try done; tauto.
  - destruct (wake_seq_lasting e k1 l k2 rt S H1 R E1) as [V2 A2].
    assert (A3 : ∀ t, t ∈ waiting k3 (PEvent e) -> status (thread k3 t) = WaitSynchAll).
    { intros t. rewrite (sw_waiting _ _ NW), (sw_status _ _ NW). apply A2. }
    rewrite E3, V2. cbn [event_reset_type]. destruct rt; [done| |].
    + exists l, k3. rewrite E3, V2. by split_and!.
    + eexists l, _. split; [reflexivity|]. rewrite decide_True by done.
      rewrite event_set, decide_True by done. split_and!; try done; [by destruct H3|by destruct W3].
Qed.
End objects.

(** * A kernel with waiting threads

    Thread 1 holds mutex 0, for which 2 and 3 wait; 4 waits for semaphore 0; 5
    and 6 wait for the one-shot event 0. *)

#[local] Instance no_environment : Environment :=
  { extern_wakeup _ _ _ _ k := Some k; hle_notify _ k := k; Read32 _ _ := 0; Write32 k _ _ := k }.
#[local] Instance no_environment_quiet : QuietEnvironment.
Proof. split; intros; [eexists; split; [reflexivity|]|]; by split_and!. Qed.

Definition kernel0 : KernelSystem :=
  mk_KernelSystem ∅ ∅ ∅ ∅ ∅ ∅ ∅ ∅ ∅ ∅ ∅ ∅ 0 (mk_Timing ∅ [] 0 false) ∅ 0 false.
Definition demo_thread (id prio : Z) (s : ThreadStatus) (objects : list Ptr) : Thread :=
  (inhabitant : Thread)<|thread_id := id|><|status := s|><|nominal_priority := prio|>
    <|current_priority := prio|><|wait_objects := objects|>
    <|wakeup_callback := match objects with [] => None | _ => Some (SVC_SyncCallback true) end|>.
Definition demo : KernelSystem :=
  let k := set_thread kernel0 1 ((demo_thread 1 40 Running [])<|held_mutexes := {[0%nat]}|>) in
  let k := set_thread k 2 (demo_thread 2 30 WaitSynchAny [PMutex 0]) in
  let k := set_thread k 3 (demo_thread 3 20 WaitSynchAny [PMutex 0]) in
  let k := set_thread k 4 (demo_thread 4 48 WaitSynchAny [PSemaphore 0]) in
  let k := set_thread k 5 (demo_thread 5 48 WaitSynchAny [PEvent 0]) in
  let k := set_thread k 6 (demo_thread 6 48 WaitSynchAll [PEvent 0]) in
  let k := set_mutex k 0 (mk_Mutex 1 20 (Some 1%nat)) in
  let k := set_semaphore k 0 (mk_Semaphore 3 0) in
  let k := set_wobj k (PMutex 0) (mk_WaitObject [2; 3]%nat None) in
  let k := set_wobj k (PSemaphore 0) (mk_WaitObject [4]%nat None) in
  set_wobj k (PEvent 0) (mk_WaitObject [5; 6]%nat None).

(** Statements about every thread or object are checked on those that exist. *)
Lemma demo_threads (P : nat -> Thread -> Prop) :
  (∀ t, P t inhabitant) -> Forall (fun t => P t (thread demo t)) (seq 1 6) -> ∀ t, P t (thread demo t).
Proof.
  intros H0 F t. destruct (decide (t ∈ seq 1 6)) as [D|D]; [by eapply Forall_forall in F|].
  assert (E : thread demo t = inhabitant); [|by rewrite E]. rewrite elem_of_seq in D. unfold demo.
  cbv zeta. change (thread (set_wobj _ _ _) t) with (thread (set_thread (set_thread (set_thread
    (set_thread (set_thread (set_thread kernel0 1 (thread demo 1)) 2 (thread demo 2)) 3 (thread demo 3))
    4 (thread demo 4)) 5 (thread demo 5)) 6 (thread demo 6)) t).
  by rewrite !thread_set, !decide_False by lia.
Qed.

Lemma demo_waiting o : waiting demo o =
  if decide (o = PMutex 0) then [2; 3]%nat else
  if decide (o = PSemaphore 0) then [4%nat] else
  if decide (o = PEvent 0) then [5; 6]%nat else [].
Proof.
  unfold waiting, demo. rewrite !wobj_set. repeat case_decide; subst; try done; congruence.
Qed.

Lemma demo_waits : waits_ok demo.
Proof.
  constructor.
  - intros o t. rewrite demo_waiting. repeat case_decide; subst; intros Hin; set_unfold in Hin;
      repeat destruct Hin as [Hin|Hin]; try done; subst; vm_compute; (split; [by left|done]).
  - intros o. rewrite demo_waiting. repeat case_decide; by_decide.
  - apply (demo_threads (fun _ th => status th = WaitSynchAll -> NoDup (wait_objects th))); [done|].
    by_decide.
  - intros t a. revert t. apply (demo_threads (fun _ th => waiting_status (status th) = true ->
      wakeup_callback th ≠ Some (ArbiterCallback a))); [done|]. by_decide.
  - unfold priorities_ok. apply (demo_threads (fun _ th => current_priority th <= ThreadPrioLowest ∧
      nominal_priority th <= ThreadPrioLowest)); [done|]. by_decide.
Qed.

Lemma demo_locks : locks_ok demo.
Proof.
  intros m. unfold lock_ok, lock_of.
  assert (Hh : ∀ x, holds demo x m <-> x = 1%nat ∧ m = 0%nat).
  { intros x. unfold holds. destruct (decide (x = 1%nat)) as [->|N].
    - change (m ∈ held_mutexes (thread demo 1)) with (m ∈ ({[0%nat]} : gset nat)).
      rewrite elem_of_singleton. intuition.
    - split; [|intuition]. intros Hm. exfalso. revert N Hm. revert x.
      assert (E : ∀ x, x ≠ 1%nat -> held_mutexes (thread demo x) = ∅).
      { apply (demo_threads (fun x th => x ≠ 1%nat -> held_mutexes th = ∅)); [done|].
        by_decide. }
      intros x N Hm. rewrite E in Hm by done. by apply not_elem_of_empty in Hm. }
  change (mutex demo m) with (mutex (set_mutex kernel0 0 (mk_Mutex 1 20 (Some 1%nat))) m).
  rewrite mutex_set. case_decide as D; cbn; (split; [done|]); intros x; rewrite Hh; subst; intuition.
Qed.

(** Of the waiting threads 2 and 3, the second is more urgent. *)
Definition unlocked : KernelSystem := Mutex_unlock (set_mutex demo 0 (mk_Mutex 0 20 (Some 1%nat))) 0 1.

Lemma highest_priority_ready_witness :
  GetHighestPriorityReadyThread demo (PEvent 0) = Some None ∧
  GetHighestPriorityReadyThread (set_event demo 0 (mk_KEvent OneShot true)) (PEvent 0) = Some (Some 5%nat).
Proof.
  split.
  - destruct (highest_priority_ready demo (PEvent 0)) as (c & E & N & _);
      [apply demo_waits|by_decide|].
    rewrite E. f_equal. apply N. apply Forall_forall. by_decide.
  - destruct (highest_priority_ready (set_event demo 0 (mk_KEvent OneShot true)) (PEvent 0)) as (c & E & _);
      [exact (wk_priorities demo demo_waits)|by_decide|].
    rewrite E. vm_compute in E. congruence.
Defined.

Lemma WakeupAllWaitingThreads_total_witness :
  ∃ (l : list nat) k', WaitObject_WakeupAllWaitingThreads (set_event demo 0 (mk_KEvent Sticky true)) (PEvent 0)
      = Some (notified k' (PEvent 0)) ∧
    waits_ok k' ∧ (∀ t, t ∈ l -> t = 5%nat ∨ t = 6%nat).
Proof.
  destruct (WakeupAllWaitingThreads_total (set_event demo 0 (mk_KEvent Sticky true)) (PEvent 0))
    as (l & k' & E & _ & H & _ & I & _); [by destruct demo_waits|].
  exists l, k'. split; [exact E|]. split; [exact H|]. intros t Ht. specialize (I t Ht).
  change (t ∈ [5; 6]%nat) in I. rewrite !elem_of_cons, elem_of_nil in I. tauto.
Defined.

Lemma Mutex_Release_correct_witness :
  Mutex_Release demo 0 2 = Some (WrongLockingThread, demo) ∧
  ∃ k', Mutex_Release demo 0 1 = Some (ResultSuccess, PrepareReschedule (notified k' (PMutex 0))) ∧
    waits_ok k' ∧ locks_ok k'.
Proof.
  split.
  - exact (Mutex_Release_correct demo 0 2 demo_waits demo_locks).
  - destruct (Mutex_Release_correct demo 0 1 demo_waits demo_locks) as (k' & E & H & L & _).
    exists k'. split; [exact E|]. split; [exact H|exact L].
Defined.

Lemma Semaphore_Release_correct_witness :
  Semaphore_Release demo 0 4 = Some (ResultOutOfRangeKernel, None, demo) ∧
  ∃ l k', Semaphore_Release demo 0 2 = Some (ResultSuccess, Some 0, k') ∧ waits_ok k' ∧ woken demo l k'.
Proof.
  split.
  - apply (Semaphore_Release_correct demo 0 4 demo_waits); done.
  - destruct (Semaphore_Release_correct demo 0 2 demo_waits) as (l & k' & E & H & _ & _ & W & _); try done.
    exists l, k'. split; [exact E|]. split; [exact H|exact W].
Defined.

Lemma Event_Signal_correct_witness :
  ∃ l k', Event_Signal demo 0 = Some k' ∧ waits_ok k' ∧ woken demo l k' ∧ (length l <= 1)%nat.
Proof.
  destruct (Event_Signal_correct demo 0 demo_waits) as (l & k' & E & H & _ & _ & W & _ & L & _).
  exists l, k'. split; [exact E|]. split; [exact H|]. split; [exact W|apply L].
Defined.

(** Waking through mutex 0 chooses thread 3. *)
Example release_wakes_most_urgent :
  (fun r => (lock_of r.2 0, waiting r.2 (PMutex 0), status (thread r.2 3), current_priority (thread r.2 3)))
    <$> Mutex_Release demo 0 1 = Some ((1, Some 3%nat), [2%nat], Ready, 20).
Proof. by vm_compute. Qed.

(** ** Behaviour outside of the invariants *)

(** A negative number of slots is accepted and makes the count negative. *)
Example Semaphore_Release_negative :
  (fun r => (r.1.1, available_count (semaphore r.2 0))) <$> Semaphore_Release demo 0 (-5)
  = Some (ResultSuccess, -5).
Proof. by vm_compute. Qed.

(** So is a number for which the sum overflows. *)
Example Semaphore_Release_overflow :
  let k := set_semaphore kernel0 0 (mk_Semaphore 1 1) in
  (fun r => (r.1.1, available_count (semaphore r.2 0))) <$> Semaphore_Release k 0 (2 ^ 31 - 1)
  = Some (ResultSuccess, - 2 ^ 31).
Proof. by vm_compute. Qed.

(** Waiting for all of a list that names a one-shot event twice fails the
    assertion of [Acquire] when the event is signalled. *)
Example wait_all_twice :
  let k := set_thread kernel0 6 (demo_thread 6 48 WaitSynchAll [PEvent 0; PEvent 0]) in
  let k := set_wobj k (PEvent 0) (mk_WaitObject [6%nat] None) in
  Event_Signal k 0 = None.
Proof. by vm_compute. Qed.
