(* ===== verification/Scheduler.v ===== *)
(** The scheduler of a core, [ThreadManager] of [thread.cpp], the address
    arbiters of [address_arbiter.cpp] and the supervisor calls that wait,
    [svc.cpp]. *)

From stdpp Require Import strings.
From S2P Require Import Prelude ThreadQueueList CoreTiming Result ResourceLimit KernelState Sync.

Implicit Types (k : KernelSystem) (t c : nat).

(** * Choosing the next thread *)

(** The loop over the queue: threads that may not be scheduled are set aside;
    [pop] is [pop_first] or [pop_first_better].  The result is the thread found,
    the queue left, and the threads set aside; [None] when the queue is broken
    or [fuel] turns were not enough. *)
(* src: kernel/thread.cpp | next = ready_queue.pop_first(); | PopNextReadyThread | +3 *)
Fixpoint pop_schedulable k (pop : ThreadQueueList nat -> option (option nat * ThreadQueueList nat))
    (fuel : nat) (q : ThreadQueueList nat) (aside : list nat)
    : option (option nat * ThreadQueueList nat * list nat) :=
  '(next, q) ← pop q;
  match next with
  | None => Some (None, q, aside)
  | Some t =>
      if can_schedule (thread k t) then Some (Some t, q, aside)
      else match fuel with
           | O => None
           | Datatypes.S fuel => pop_schedulable k pop fuel q (aside ++ [t])
           end
  end.

(** The threads set aside go back, the last first. *)
(* src: kernel/thread.cpp | while (!unscheduled_ready_queue.empty()) { *)
Definition push_aside k (q : ThreadQueueList nat) (aside : list nat) : ThreadQueueList nat :=
  foldl (fun q t => push_back q (level (current_priority (thread k t))) t) q (rev aside).

(** The number of threads in the queue bounds the turns. *)
Definition queue_length (q : ThreadQueueList nat) : nat := length (contents q).

(* src: kernel/thread.cpp | Thread* ThreadManager::PopNextReadyThread() { *)
Definition PopNextReadyThread k c : option (option nat * KernelSystem) :=
  let mgr := manager k c in
  let fuel := queue_length (ready_queue mgr) in
  let running :=
    t ← current_thread mgr; if decide (status (thread k t) = Running) then Some t else None in
  '(next, q, aside) ←
    (match running with
     | Some cur =>
         pop_schedulable k (fun q => pop_first_better NUM_QUEUES q (level (current_priority (thread k cur))))
           fuel (ready_queue mgr) (unscheduled_ready_queue mgr)
     | None => pop_schedulable k (fun q => pop_first NUM_QUEUES q)
                 fuel (ready_queue mgr) (unscheduled_ready_queue mgr)
     end);
  let q := push_aside k q aside in
  Some (match next, running with Some t, _ => Some t | None, Some cur => Some cur | None, None => None end,
        set_manager k c (mgr<|ready_queue := q|><|unscheduled_ready_queue := []|>)).

(** * Switching *)

(** What leaving the core does for the thread that ran. *)
(* src: kernel/thread.cpp | previous_thread->last_running_ticks = | SwitchContext | +8 *)
Definition save_previous k c t : KernelSystem :=
  let mgr := manager k c in
  let ticks := Timer_GetTicks (timer_at (timing k) c) in
  let k := set_thread k t
    ((thread k t)<|last_running_ticks := ticks|><|context := cpu_context mgr|>) in
  if decide (status (thread k t) = Running) then
    let k := on_queue k c (fun q => push_front q (level (current_priority (thread k t))) t) in
    set_thread k t ((thread k t)<|status := Ready|>)
  else k.

(** What entering the core does for the next thread. *)
(* src: kernel/thread.cpp | ASSERT_MSG(new_thread->status == ThreadStatus::Ready, | SwitchContext | ..cpu->SetCP15Register(CP15_THREAD_URO, new_thread->GetTLSAddress()); *)
Definition load_next k c t : option KernelSystem :=
  let th := thread k t in
  if decide (status th = Ready) then
    let k := k<|timing := UnscheduleEvent (timing k) (ThreadWakeupEventType c) (thread_id th)|> in
    let mgr := manager k c in
    let k := set_manager k c
      (mgr<|current_thread := Some t|>
          <|ready_queue := remove (ready_queue mgr) (level (current_priority th)) t|>
          <|cpu_context := context th|><|cpu_uro := tls_address th|>) in
    let k := set_thread k t (th<|status := Running|>) in
    Some (k<|current_process := <[c := owner_process th]> (current_process k)|>)
  else None.

(** [kernel.SetCurrentProcessForCPU] is called when the process changes. *)
(* src: kernel/thread.cpp | void ThreadManager::SwitchContext(Thread* new_thread) { *)
Definition SwitchContext k c (new_thread : option nat) : option KernelSystem :=
  let k := match current_thread (manager k c) with Some t => save_previous k c t | None => k end in
  match new_thread with
  | Some t => load_next k c t
  | None => Some (set_manager k c ((manager k c)<|current_thread := None|>))
  end.

(* src: kernel/thread.cpp | void ThreadManager::Reschedule() { *)
Definition Reschedule k c : option KernelSystem :=
  let cur := current_thread (manager k c) in
  '(next, k) ← PopNextReadyThread k c;
  match cur, next with
  | None, None => Some k
  | _, _ => SwitchContext k c next
  end.

(* src: kernel/thread.cpp | bool ThreadManager::HaveReadyThreads() { *)
Definition HaveReadyThreads k c : option bool :=
  (fun x => bool_decide (x ≠ None)) <$> get_first NUM_QUEUES (ready_queue (manager k c)).
(* src: kernel/thread.cpp | void ThreadManager::WaitCurrentThread_Sleep() { *)
Definition WaitCurrentThread_Sleep k c : option KernelSystem :=
  t ← current_thread (manager k c);
  Some (set_thread k t ((thread k t)<|status := WaitSleep|>)).

Section exit.
Context `{env : Environment}.

(* src: kernel/thread.cpp | void ThreadManager::ExitCurrentThread() { *)
Definition ExitCurrentThread k c : option KernelSystem :=
  t ← current_thread (manager k c);
  k ← Stop k t;
  let k := set_manager k c ((manager k c)<|thread_list := filter (fun x => x ≠ t) (thread_list (manager k c))|>) in
  Some (PrepareReschedule k).

(** The loop over the thread list, in order; a stopped thread leaves the list. *)
(* src: kernel/thread.cpp | while (iter != thread_list.end()) { *)
Fixpoint terminate_threads k c (process : nat) (l : list nat) : option KernelSystem :=
  match l with
  | [] => Some k
  | t :: l =>
      if decide (current_thread (manager k c) = Some t ∨ owner_process (thread k t) ≠ process)
      then terminate_threads k c process l
      else
        k ← Stop k t;
        let k := set_manager k c
          ((manager k c)<|thread_list := erase_first t (thread_list (manager k c))|>) in
        terminate_threads k c process l
  end.
(* src: kernel/thread.cpp | void ThreadManager::TerminateProcessThreads(std::shared_ptr<Process> process) { *)
Definition TerminateProcessThreads k c (process : nat) : option KernelSystem :=
  k ← terminate_threads k c process (thread_list (manager k c));
  match current_thread (manager k c) with
  | Some t => if decide (owner_process (thread k t) = process) then ExitCurrentThread k c else Some k
  | None => Some k
  end.

(** * Address arbiters *)

(* src: address_arbiter.cpp | void AddressArbiter::WaitThread(std::shared_ptr<Thread> thread, VAddr wait_address) { *)
Definition WaitThread k (a t : nat) (address : Z) : KernelSystem :=
  let k := set_thread k t ((thread k t)<|wait_address := address|><|status := WaitArb|>) in
  set_arbiter k a (mk_AddressArbiter (arb_waiting_threads (arbiter k a) ++ [t])).

(** [std::stable_partition] by the address; the assertion on the statuses. *)
Definition partition_waiting k (a : nat) (address : Z) : option (list nat * list nat) :=
  let l := arb_waiting_threads (arbiter k a) in
  if forallb (fun t => bool_decide (status (thread k t) = WaitArb)) l then
    Some (filter (fun t => wait_address (thread k t) ≠ address) l,
          filter (fun t => wait_address (thread k t) = address) l)
  else None.
(* src: address_arbiter.cpp | u64 AddressArbiter::ResumeAllThreads(VAddr address) { *)
Definition ResumeAllThreads k (a : nat) (address : Z) : option (Z * KernelSystem) :=
  '(others, found) ← partition_waiting k a address;
  k ← fold_opt ResumeFromWait k found;
  Some (Z.of_nat (length found), set_arbiter k a (mk_AddressArbiter others)).

(** [std::min_element]: the first of the least. *)
Definition min_priority k (l : list nat) : option nat :=
  match l with
  | [] => None
  | t :: l => Some (foldl (fun b x =>
      if current_priority (thread k x) <? current_priority (thread k b) then x else b) t l)
  end.
(* src: address_arbiter.cpp | bool AddressArbiter::ResumeHighestPriorityThread(VAddr address) { *)
Definition ResumeHighestPriorityThread k (a : nat) (address : Z) : option (bool * KernelSystem) :=
  '(others, found) ← partition_waiting k a address;
  match min_priority k found with
  | None => Some (false, set_arbiter k a (mk_AddressArbiter (others ++ found)))
  | Some t =>
      k ← ResumeFromWait k t;
      Some (true, set_arbiter k a (mk_AddressArbiter (others ++ erase_first t found)))
  end.
(* src: address_arbiter.cpp | for (s32 i = 0; i < value; i++) { *)
Fixpoint resume_n (n : nat) k (a : nat) (address : Z) : option (Z * KernelSystem) :=
  match n with
  | O => Some (0, k)
  | Datatypes.S n =>
      '(b, k) ← ResumeHighestPriorityThread k a address;
      '(num, k) ← resume_n n k a address;
      Some (Z.b2z b + num, k)
  end.

Definition add_ticks k (ticks : Z) : KernelSystem :=
  k<|timing := set_timer (timing k) (running_core k)
       (AddTicks (timer_at (timing k) (running_core k)) ticks)|>.

(** The cases that wait; [timed] those with a timeout, [decrement] those that
    change the value. *)
(* src: address_arbiter.cpp | case ArbitrationType::DecrementAndWaitIfLessThanWithTimeout: { | ArbitrateAddress *)
Definition arbitrate_wait k (a t : nat) (address value nanoseconds : Z) (decrement timed : bool)
    : option KernelSystem :=
  let memory_value := s32 (Read32 k address) in
  if memory_value <? value then
    let k := if decrement then Write32 k address (memory_value - 1) else k in
    k ← (if timed then
           WakeAfterDelay (set_thread k t ((thread k t)<|wakeup_callback := Some (ArbiterCallback a)|>))
             t (s64 nanoseconds) false
         else Some k);
    Some (WaitThread k a t address)
  else Some k.

(* src: address_arbiter.cpp | Result AddressArbiter::ArbitrateAddress(std::shared_ptr<Thread> thread, ArbitrationType type, *)
Definition ArbitrateAddress k (a t : nat) (type : option ArbitrationType) (address value nanoseconds : Z)
    : option (Result * KernelSystem) :=
  match type with
  | Some ArbSignal =>
      '(num_threads, k) ← (if value <? 0 then ResumeAllThreads k a address
                            else resume_n (Z.to_nat value) k a address);
      Some (ResultSuccess,
            if (num_threads =? 0) && (49 <=? current_priority (thread k t)) then add_ticks k 1614 else k)
  | Some WaitIfLessThan =>
      k ← arbitrate_wait k a t address value nanoseconds false false; Some (ResultSuccess, k)
  | Some WaitIfLessThanWithTimeout =>
      k ← arbitrate_wait k a t address value nanoseconds false true; Some (ResultTimeout, k)
  | Some DecrementAndWaitIfLessThan =>
      k ← arbitrate_wait k a t address value nanoseconds true false; Some (ResultSuccess, k)
  | Some DecrementAndWaitIfLessThanWithTimeout =>
      k ← arbitrate_wait k a t address value nanoseconds true true; Some (ResultTimeout, k)
  | None => Some (ResultInvalidEnumValueFnd, k)
  end.

(** * Supervisor calls *)

(** A call that waits returns its result and, when it writes one, the output
    parameter; [object] is what the handle table gives for the handle. *)
(* src: svc.cpp | Result SVC::WaitSynchronization1(Handle handle, s64 nano_seconds) { *)
Definition WaitSynchronization1 k t (object : option Ptr) (nano_seconds : Z)
    : option (Result * KernelSystem) :=
  match object with
  | None => Some (ResultInvalidHandle, k)
  | Some o =>
      if ShouldWait k o t then
        if nano_seconds =? 0 then Some (ResultTimeout, k)
        else
          let k := set_thread k t ((thread k t)<|wait_objects := [o]|>) in
          let k := AddWaitingThread k o t in
          let k := set_thread k t ((thread k t)<|status := WaitSynchAny|>) in
          k ← WakeAfterDelay k t nano_seconds false;
          let k := set_thread k t ((thread k t)<|wakeup_callback := Some (SVC_SyncCallback false)|>) in
          Some (ResultTimeout, PrepareReschedule k)
      else k ← Acquire k o t; Some (ResultSuccess, k)
  end.

(** Putting the thread to sleep on several objects. *)
(* src: svc.cpp | thread->status = ThreadStatus::WaitSynchAll; | WaitSynchronizationN | ..thread->wakeup_callback = std::make_shared<SVC_SyncCallback>(false); *)
Definition sleep_on k t (objects : list Ptr) (wait_all : bool) (nano_seconds : Z) : option KernelSystem :=
  let k := set_thread k t ((thread k t)<|status := if wait_all then WaitSynchAll else WaitSynchAny|>) in
  let k := foldl (fun k o => AddWaitingThread k o t) k objects in
  let k := set_thread k t ((thread k t)<|wait_objects := objects|>) in
  k ← WakeAfterDelay k t nano_seconds false;
  let k := set_thread k t ((thread k t)<|wakeup_callback := Some (SVC_SyncCallback (negb wait_all))|>) in
  Some (PrepareReschedule k).

(** After the address and the count have been checked: [handles] are the objects
    of the handles, [None] for an invalid one. *)
(* src: svc.cpp | Result SVC::WaitSynchronizationN(s32* out, VAddr handles_address, s32 handle_count, bool wait_all, *)
Definition WaitSynchronizationN k t (pointer_valid : bool) (handle_count : Z) (handles : list (option Ptr))
    (wait_all : bool) (nano_seconds : Z) : option (Result * option Z * KernelSystem) :=
  if negb pointer_valid then Some (ResultInvalidPointer, None, k)
  else if handle_count <? 0 then Some (ResultOutOfRange, None, k)
  else match mapM id handles with
  | None => Some (ResultInvalidHandle, None, k)
  | Some objects =>
      if wait_all then
        if forallb (fun o => negb (ShouldWait k o t)) objects then
          k ← fold_opt (fun k o => Acquire k o t) k objects; Some (ResultSuccess, None, k)
        else if nano_seconds =? 0 then Some (ResultTimeout, None, k)
        else k ← sleep_on k t objects true nano_seconds; Some (ResultTimeout, Some (-1), k)
      else
        match list_find (fun o => ShouldWait k o t = false) objects with
        | Some (i, o) => k ← Acquire k o t; Some (ResultSuccess, Some (Z.of_nat i), k)
        | None =>
            if nano_seconds =? 0 then Some (ResultTimeout, None, k)
            else k ← sleep_on k t objects false nano_seconds; Some (ResultTimeout, Some (-1), k)
        end
  end.

(* src: svc.cpp | Result SVC::SetThreadPriority(Handle handle, u32 priority) { *)
Definition SetThreadPriority k (object : option nat) (process : nat) (priority : Z)
    : option (Result * KernelSystem) :=
  if ThreadPrioLowest <? priority then Some (ResultOutOfRange, k)
  else match object with
  | None => Some (ResultInvalidHandle, k)
  | Some t =>
      let max_priority := u32 (GetLimitValue (KernelState.resource_limit (processes k !!! process)) RPriority) in
      if priority <? max_priority then Some (ResultNotAuthorized, k)
      else
        k ← SetPriority k t priority;
        let k := Thread_UpdatePriority k t in
        let k := foldl Mutex_UpdatePriority k (elements (pending_mutexes (thread k t))) in
        Some (ResultSuccess, PrepareReschedule k)
  end.
(* src: svc.cpp | void SVC::SleepThread(s64 nanoseconds) { *)
Definition SleepThread k c (nanoseconds : Z) : option KernelSystem :=
  ready ← HaveReadyThreads k c;
  if (nanoseconds =? 0) && negb ready then Some k
  else
    k ← WaitCurrentThread_Sleep k c;
    t ← current_thread (manager k c);
    k ← WakeAfterDelay k t nanoseconds false;
    Some (PrepareReschedule k).
End exit.
