(* ===== verification/SchedFacts.v ===== *)
(** Correctness of the scheduler: the invariant that ties the ready queue of a
    core to the states of its threads, and what [Reschedule] does under it. *)

From stdpp Require Import sorting strings.
From S2P Require Import Prelude CoreTiming ThreadQueueList Result ResourceLimit KernelState Sync WaitFacts Scheduler.

Implicit Types (k : KernelSystem) (t c : nat) (q : ThreadQueueList nat).

(** * A ready queue as a set

    [rq q P S]: the queue holds the threads of the set [S], each once, at the
    level [P] gives, and these levels are linked. *)

Record rq q (P : nat -> nat) (S : gset nat) : Prop := {
  rq_ok : queue_ok NUM_QUEUES q;
  rq_nodup : ∀ p, (p < NUM_QUEUES)%nat -> NoDup (data (queue_at q p));
  rq_level : ∀ p t, (p < NUM_QUEUES)%nat -> t ∈ data (queue_at q p) <-> P t = p ∧ t ∈ S;
  rq_bound : ∀ t, t ∈ S -> (P t < NUM_QUEUES)%nat
}.

Lemma data_at_set q p n xs j : queue_ok NUM_QUEUES q -> (p < NUM_QUEUES)%nat ->
  data (queue_at (set_queue q p (mk_Queue n xs)) j) = if decide (p = j) then xs else data (queue_at q j).
Proof. intros Hq Hp. rewrite (queue_at_set (N := NUM_QUEUES)); [by case_decide|apply Hq|done]. Qed.

(** Replacing the data of one level. *)
Lemma rq_set q P S p xs S' : rq q P S -> (p < NUM_QUEUES)%nat -> linked q p ∨ xs = [] -> NoDup xs ->
  (∀ t, t ∈ xs <-> P t = p ∧ t ∈ S') -> (∀ t, P t ≠ p -> t ∈ S' <-> t ∈ S) ->
  let q' := set_queue q p (mk_Queue (next_nonempty (queue_at q p)) xs) in
  rq q' P S' ∧ ∀ j, linked q' j <-> linked q j.
Proof.
  intros [Q N L B] Hp Hl Hn Hx HS. cbv zeta. destruct (queue_ok_set_data q p xs Q Hp Hl) as [Q' L'].
  split; [|done]. constructor; [done|..].
  - intros j Hj. rewrite data_at_set by done. case_decide; auto.
  - intros j t Hj. rewrite data_at_set by done. case_decide as D; [by subst|]. rewrite L by done.
    split; intros [E Ht]; (split; [done|]); apply HS; congruence.
  - intros t Ht. destruct (decide (P t = p)) as [E|E]; [lia|]. apply B. by apply HS.
Qed.

Lemma rq_push_back q P S p x : rq q P S -> P x = p -> x ∉ S -> (p < NUM_QUEUES)%nat -> linked q p ->
  rq (push_back q p x) P ({[x]} ∪ S) ∧ ∀ j, linked (push_back q p x) j <-> linked q j.
Proof.
  intros R E Hx Hp Hl. apply (rq_set q P S); try done.
  - by left.
  - apply NoDup_app. split; [by apply (rq_nodup _ _ _ R)|]. split; [|apply NoDup_singleton].
    intros t Ht Hs. apply list_elem_of_singleton in Hs as ->. apply Hx. by apply (rq_level _ _ _ R) in Ht as [_ ?].
  - intros t. rewrite elem_of_app, list_elem_of_singleton, (rq_level _ _ _ R), elem_of_union, elem_of_singleton by done.
    naive_solver.
  - intros t Ht. rewrite elem_of_union, elem_of_singleton. naive_solver.
Qed.

Lemma rq_push_front q P S p x : rq q P S -> P x = p -> x ∉ S -> (p < NUM_QUEUES)%nat -> linked q p ->
  rq (push_front q p x) P ({[x]} ∪ S) ∧ ∀ j, linked (push_front q p x) j <-> linked q j.
Proof.
  intros R E Hx Hp Hl. apply (rq_set q P S); try done.
  - by left.
  - constructor; [|by apply (rq_nodup _ _ _ R)]. intros Ht. apply Hx. by apply (rq_level _ _ _ R) in Ht as [_ ?].
  - intros t. rewrite elem_of_cons, (rq_level _ _ _ R), elem_of_union, elem_of_singleton by done.
    naive_solver.
  - intros t Ht. rewrite elem_of_union, elem_of_singleton. naive_solver.
Qed.

(** A level that holds a thread is linked. *)
Lemma rq_linked q P S t : rq q P S -> t ∈ S -> linked q (P t).
Proof.
  intros R Ht H. pose proof (rq_bound _ _ _ R _ Ht) as B.
  assert (E : t ∈ data (queue_at q (P t))) by by apply (rq_level _ _ _ R).
  rewrite (ok_data _ _ (rq_ok _ _ _ R)) in E; [by apply elem_of_nil in E|done|by intros N].
Qed.

Lemma rq_remove q P S p x : rq q P S -> P x = p -> (p < NUM_QUEUES)%nat ->
  rq (remove q p x) P (S ∖ {[x]}) ∧ ∀ j, linked (remove q p x) j <-> linked q j.
Proof.
  intros R E Hp. apply (rq_set q P S); try done.
  - destruct (decide (next_nonempty (queue_at q p) = UnlinkedTag)) as [U|U]; [right|by left].
    rewrite (ok_data _ _ (rq_ok _ _ _ R)) by (done || by intros H). done.
  - by apply NoDup_filter, (rq_nodup _ _ _ R).
  - intros t. rewrite list_elem_of_filter, (rq_level _ _ _ R), elem_of_difference, elem_of_singleton by done.
    naive_solver.
  - intros t Ht. rewrite elem_of_difference, elem_of_singleton. naive_solver.
Qed.

Lemma rq_prepare q P S p : rq q P S -> (p < NUM_QUEUES)%nat ->
  rq (prepare q p) P S ∧ linked (prepare q p) p ∧ ∀ j, linked q j -> linked (prepare q p) j.
Proof.
  intros R Hp. destruct (prepare_ok q p (rq_ok _ _ _ R) Hp) as (Q & L & E & K).
  assert (D : ∀ j, (j < NUM_QUEUES)%nat -> data (queue_at (prepare q p) j) = data (queue_at q j)).
  { intros j Hj. pose proof (levels_lookup _ j Q Hj) as E1. pose proof (levels_lookup _ j (rq_ok _ _ _ R) Hj) as E2.
    rewrite E in E1. congruence. }
  split; [|done]. destruct R as [Q0 N0 L0 B0]. constructor; try done.
  - intros j Hj. rewrite D by done. auto.
  - intros j t Hj. rewrite D by done. auto.
Qed.

(** Only the levels of the members matter. *)
Lemma rq_ext q P P' S : rq q P S -> (∀ t, t ∈ S -> P' t = P t) -> rq q P' S.
Proof.
  intros [Q N L B] H. constructor; [done|done| |].
  - intros p t Hp. rewrite L by done. split; intros [E Ht]; (split; [|done]); [rewrite H|rewrite <- H]; done.
  - intros t Ht. rewrite H by done. auto.
Qed.

(** ** Serving *)

(** Serving takes the first thread of the least non-empty level. *)
Lemma rq_pop q P S b r : rq q P S -> (b <= NUM_QUEUES)%nat -> least_pop q b r ->
  (r = Some (None, q) ∧ ∀ t, t ∈ S -> (b <= P t)%nat) ∨
  ∃ x xs q', r = Some (Some x, q') ∧ data (queue_at q (P x)) = x :: xs ∧ x ∈ S ∧ (P x < b)%nat ∧
    (∀ t, t ∈ S -> (P x <= P t)%nat) ∧
    q' = set_queue q (P x) (mk_Queue (next_nonempty (queue_at q (P x))) xs) ∧
    rq q' P (S ∖ {[x]}) ∧ ∀ j, linked q' j <-> linked q j.
Proof.
  intros R Hb [[-> E]|(i & Hi & Hne & Hlow & ->)].
  - left. split; [done|]. intros t Ht. destruct (Nat.le_gt_cases b (P t)) as [|H]; [done|].
    assert (Hd : t ∈ data (queue_at q (P t))) by (apply (rq_level _ _ _ R); [lia|done]).
    rewrite E in Hd by done. by apply elem_of_nil in Hd.
  - right. unfold pop_level. destruct (data (queue_at q i)) as [|x xs] eqn:Ed; [done|].
    assert (Hx : P x = i ∧ x ∈ S) by (apply (rq_level _ _ _ R); [lia|rewrite Ed; by left]).
    destruct Hx as [Ex Hx]. exists x, xs. eexists. split; [reflexivity|]. rewrite Ex.
    assert (Nd : NoDup (x :: xs)) by (rewrite <- Ed; apply (rq_nodup _ _ _ R); lia).
    apply NoDup_cons in Nd as [Nx Nd].
    destruct (rq_set q P S i xs (S ∖ {[x]}) R) as [R' L']; try done; [lia|left; rewrite <- Ex; by eapply rq_linked|..].
    { intros t. rewrite elem_of_difference, elem_of_singleton.
      pose proof (rq_level _ _ _ R i t ltac:(lia)) as Lv. rewrite Ed, elem_of_cons in Lv. naive_solver. }
    { intros t Ht. rewrite elem_of_difference, elem_of_singleton. naive_solver. }
    split_and!; try done.
    intros t Ht. destruct (Nat.le_gt_cases i (P t)) as [|H]; [done|].
    assert (Hd : t ∈ data (queue_at q (P t))) by (apply (rq_level _ _ _ R); [lia|done]).
    rewrite Hlow in Hd by done. by apply elem_of_nil in Hd.
Qed.

(** * The search for a thread that may be scheduled *)

Section search.
Context k (P : nat -> nat) (b : nat) (pop : ThreadQueueList nat -> option (option nat * ThreadQueueList nat)).
Let can t : Prop := can_schedule (thread k t) = true.

(** [t] is the first of the threads of [S] that may be scheduled, in the order
    of the queue. *)
Definition best_of_queue q (S : gset nat) t : Prop :=
  t ∈ S ∧ can t ∧ (P t < b)%nat ∧ (∀ x, x ∈ S -> can x -> (P t <= P x)%nat) ∧
  ∃ l1 l2, data (queue_at q (P t)) = l1 ++ t :: l2 ∧ ∀ x, x ∈ l1 -> ~ can x.

(** The set of the elements of a list. *)
Definition set_of (l : list nat) : gset nat := list_to_set l.

Lemma best_after q S x xs q' t :
  data (queue_at q (P x)) = x :: xs -> queue_ok NUM_QUEUES q -> (P x < NUM_QUEUES)%nat ->
  q' = set_queue q (P x) (mk_Queue (next_nonempty (queue_at q (P x))) xs) -> ~ can x ->
  best_of_queue q' (S ∖ {[x]}) t -> best_of_queue q S t.
Proof.
  intros Ed Q Hp -> Nx (Ht & Ct & Bt & Mt & l1 & l2 & El & Nl). unfold best_of_queue.
  apply elem_of_difference in Ht as [Ht Htx]. split_and!; try done.
  - intros y Hy Cy. apply Mt; [|done]. rewrite elem_of_difference, elem_of_singleton.
    split; [done|]. by intros ->.
  - rewrite data_at_set in El by done. case_decide as D.
    + exists (x :: l1), l2. rewrite <- D, Ed, El. split; [done|]. intros y Hy.
      apply elem_of_cons in Hy as [->|Hy]; [done|auto].
    + by exists l1, l2.
Qed.

Lemma pop_schedulable_spec q0 (Hpop : ∀ q S, rq q P S -> (∀ j, linked q j <-> linked q0 j) ->
    least_pop q b (pop q)) (Hb : (b <= NUM_QUEUES)%nat) fuel : ∀ q S aside,
  rq q P S -> (∀ j, linked q j <-> linked q0 j) -> (size S <= fuel)%nat ->
  ∃ r q' l, pop_schedulable k pop fuel q aside = Some (r, q', aside ++ l) ∧
    NoDup l ∧ (∀ x, x ∈ l -> x ∈ S ∧ ~ can x) ∧ (∀ j, linked q' j <-> linked q0 j) ∧
    match r with
    | None => rq q' P (S ∖ set_of l) ∧ ∀ x, x ∈ S -> can x -> (b <= P x)%nat
    | Some t => rq q' P (S ∖ set_of l ∖ {[t]}) ∧ best_of_queue q S t
    end.
Proof.
  induction fuel as [|fuel IH]; intros q S aside R L Hf; cbn [pop_schedulable];
    (destruct (rq_pop q P S b (pop q) R Hb (Hpop q S R L))
       as [[-> E]|(x & xs & q1 & -> & Ed & Hx & Hxb & Hmin & E1 & R1 & L1)];
     [cbn [mbind option_bind]; exists None, q, []; rewrite app_nil_r; split_and!; try done;
        [constructor|intros x Hx; by apply elem_of_nil in Hx| |intros; by apply E];
      unfold set_of; cbn [list_to_set]; by rewrite difference_empty_L|]).
  - apply Nat.le_0_r, size_empty_inv in Hf. set_solver.
  - cbn [mbind option_bind]. destruct (can_schedule (thread k x)) eqn:Cx.
    + exists (Some x), q1, []. rewrite app_nil_r. split_and!; try done; [constructor|intros y Hy; by apply elem_of_nil in Hy| | |].
      * intros j. by rewrite L1.
      * unfold set_of. cbn [list_to_set]. by rewrite difference_empty_L.
      * unfold best_of_queue. split_and!; try done; [intros; by apply Hmin|].
        exists [], xs. split; [done|]. intros y Hy; by apply elem_of_nil in Hy.
    + assert (Nx : ~ can x) by (unfold can; congruence).
      destruct (IH q1 (S ∖ {[x]}) (aside ++ [x]) R1) as (r & q' & l & E & Nd & Hl & L' & H).
      { intros j. by rewrite L1. }
      { rewrite size_difference by set_solver. rewrite size_singleton. lia. }
      exists r, q', (x :: l). rewrite E, <- app_assoc. split; [done|].
      assert (Hs : S ∖ set_of (x :: l) = S ∖ {[x]} ∖ set_of l).
      { unfold set_of. cbn [list_to_set]. by rewrite difference_difference_l_L. }
      rewrite Hs. split_and!; try done.
      * constructor; [|done]. intros Hxl. apply Hl in Hxl as [Hxl _]. set_solver.
      * intros y Hy. apply elem_of_cons in Hy as [->|Hy]; [done|]. apply Hl in Hy as [Hy ?]. set_solver.
      * destruct r as [t|].
        -- split; [apply H|]. eapply best_after; try done; [apply R|lia|apply H].
        -- split; [apply H|]. intros y Hy Cy. apply H; [|done]. rewrite elem_of_difference, elem_of_singleton.
           split; [done|]. by intros ->.
Qed.
End search.

Lemma push_aside_spec k P l : ∀ q S, (∀ t, P t = level (current_priority (thread k t))) -> rq q P S -> NoDup l ->
  (∀ t, t ∈ l -> (t ∉ S) ∧ (P t < NUM_QUEUES)%nat ∧ linked q (P t)) ->
  rq (push_aside k q l) P (S ∪ set_of l) ∧ ∀ j, linked (push_aside k q l) j <-> linked q j.
Proof.
  unfold push_aside. intros q S HP R Nd H.
  assert (Hr : ∀ t, t ∈ rev l <-> t ∈ l) by (intros t; rewrite !list_elem_of_In; symmetry; apply in_rev).
  assert (Es : set_of l = set_of (rev l)) by (unfold set_of; set_solver). rewrite Es.
  assert (H' : ∀ t, t ∈ rev l -> (t ∉ S) ∧ (P t < NUM_QUEUES)%nat ∧ linked q (P t)) by (intros t; rewrite Hr; apply H).
  apply NoDup_ListNoDup, NoDup_rev, NoDup_ListNoDup in Nd. clear H Hr Es. revert q S R Nd H'.
  induction (rev l) as [|t ts IH]; intros q S R Nd H; cbn [foldl].
  - unfold set_of. cbn [list_to_set]. rewrite union_empty_r_L. done.
  - apply NoDup_cons in Nd as [Nt Nd]. destruct (H t) as (Ht1 & Ht2 & Ht3); [by left|].
    rewrite <- HP. destruct (rq_push_back q P S (P t) t R) as [R' L']; try done.
    destruct (IH (push_back q (P t) t) ({[t]} ∪ S) R' Nd) as [R2 L2].
    { intros y Hy. destruct (H y) as (Y1 & Y2 & Y3); [by right|]. split; [|split; [done|by apply L']].
      rewrite elem_of_union, elem_of_singleton. intros [->|?]; done. }
    split; [|intros j; by rewrite L2].
    assert (S ∪ set_of (t :: ts) = {[t]} ∪ S ∪ set_of ts) as -> by (unfold set_of; set_solver). done.
Qed.

(** The queue is at least as long as the set it represents. *)
Lemma size_set_of l : (size (set_of l) <= length l)%nat.
Proof.
  induction l as [|x l IH]; unfold set_of; cbn [list_to_set length].
  - by rewrite size_empty.
  - rewrite size_union_alt, size_singleton. fold (set_of l).
    assert (size (set_of l ∖ {[x]}) <= size (set_of l))%nat by (apply subseteq_size; set_solver). lia.
Qed.

Lemma elem_contents q p t : queue_ok NUM_QUEUES q -> (p < NUM_QUEUES)%nat ->
  t ∈ data (queue_at q p) -> t ∈ contents q.
Proof.
  intros Q Hp Ht. apply list_elem_of_In, in_concat. exists (data (queue_at q p)).
  split; apply list_elem_of_In; [|done]. eapply list_elem_of_lookup_2. by apply (levels_lookup (N := NUM_QUEUES)).
Qed.

Lemma rq_size q P S : rq q P S -> (size S <= queue_length q)%nat.
Proof.
  intros R. etrans; [|apply size_set_of]. apply subseteq_size. intros t Ht. unfold set_of.
  apply elem_of_list_to_set. eapply elem_contents; [apply R|by apply (rq_bound _ _ _ R)|].
  apply (rq_level _ _ _ R); [by apply (rq_bound _ _ _ R)|done].
Qed.

(** * The invariant of a core *)

Definition prio k t : nat := level (current_priority (thread k t)).

(** The queue of core [c] holds exactly the threads of [c] that are ready, [S];
    the threads of its list have linked levels, and those that are ready or run
    are in the list; the current thread is the only one that runs and is not in
    the queue. *)
Record core_ok k c (S : gset nat) : Prop := {
  co_queue : rq (ready_queue (manager k c)) (prio k) S;
  co_ready : ∀ t, t ∈ S <-> status (thread k t) = Ready ∧ core_id (thread k t) = c;
  co_levels : ∀ t, t ∈ thread_list (manager k c) ->
    (prio k t < NUM_QUEUES)%nat ∧ linked (ready_queue (manager k c)) (prio k t);
  co_listed : ∀ t, core_id (thread k t) = c -> status (thread k t) = Ready ∨ status (thread k t) = Running ->
    t ∈ thread_list (manager k c);
  co_running : ∀ t, status (thread k t) = Running -> core_id (thread k t) = c ->
    current_thread (manager k c) = Some t;
  co_current : ∀ t, current_thread (manager k c) = Some t ->
    core_id (thread k t) = c ∧ status (thread k t) ≠ Ready;
  co_aside : unscheduled_ready_queue (manager k c) = []
}.

(** The running thread of a core. *)
Definition running k c : option nat :=
  t ← current_thread (manager k c); if decide (status (thread k t) = Running) then Some t else None.

(** The priority a thread must beat to be chosen. *)
Definition bar k c : nat := match running k c with Some cur => prio k cur | None => NUM_QUEUES end.

Lemma running_spec k c S cur : core_ok k c S -> running k c = Some cur ->
  current_thread (manager k c) = Some cur ∧ status (thread k cur) = Running ∧ core_id (thread k cur) = c ∧
  (cur ∉ S) ∧ (prio k cur < NUM_QUEUES)%nat ∧ linked (ready_queue (manager k c)) (prio k cur).
Proof.
  unfold running. intros H R. destruct (current_thread (manager k c)) as [t|] eqn:E; [|done].
  cbn [mbind option_bind] in R. case_decide as D; [|done]. injection R as <-.
  destruct (co_current _ _ _ H _ E) as [Hc Hr].
  split_and!; try done; [|apply (co_levels _ _ _ H), (co_listed _ _ _ H); by auto..].
  intros Hs. by apply (co_ready _ _ _ H) in Hs as [? _].
Qed.

(** What [PopNextReadyThread] returns: the first ready thread that may be
    scheduled and beats the running thread, which leaves the queue, or else the
    running thread, if any. *)
Lemma PopNext_spec k c S : core_ok k c S ->
  ∃ r q', PopNextReadyThread k c = Some (r, set_manager k c
      ((manager k c)<|ready_queue := q'|><|unscheduled_ready_queue := []|>)) ∧
    (∀ j, linked q' j <-> linked (ready_queue (manager k c)) j) ∧
    ((∃ t, r = Some t ∧ best_of_queue k (prio k) (bar k c) (ready_queue (manager k c)) S t ∧
       rq q' (prio k) (S ∖ {[t]})) ∨
     (r = running k c ∧ rq q' (prio k) S ∧
      ∀ x, x ∈ S -> can_schedule (thread k x) = true -> (bar k c <= prio k x)%nat)).
Proof.
  intros H. pose proof (co_queue _ _ _ H) as R. set (q0 := ready_queue (manager k c)) in *.
  set (pop := fun q => match running k c with
    | Some cur => pop_first_better NUM_QUEUES q (prio k cur) | None => pop_first NUM_QUEUES q end).
  assert (Hpop : ∀ q S, rq q (prio k) S -> (∀ j, linked q j <-> linked q0 j) -> least_pop q (bar k c) (pop q)).
  { intros q S' R' L'. unfold pop, bar. destruct (running k c) as [cur|] eqn:E.
    - destruct (running_spec k c S cur H E) as (_ & _ & _ & _ & B & Lk).
      apply pop_first_better_least; [apply R'|done|by apply L'].
    - apply pop_first_least, R'. }
  assert (Hb : (bar k c <= NUM_QUEUES)%nat).
  { unfold bar. destruct (running k c) as [cur|] eqn:E; [|done].
    destruct (running_spec k c S cur H E) as (_ & _ & _ & _ & B & _). lia. }
  destruct (pop_schedulable_spec k (prio k) (bar k c) pop q0 Hpop Hb (queue_length q0) q0 S [] R)
    as (r & q1 & l & E & Nd & Hl & L1 & Hr); [done|by eapply rq_size|].
  destruct (push_aside_spec k (prio k) l q1 (match r with Some t => S ∖ set_of l ∖ {[t]} | None => S ∖ set_of l end))
    as [R2 L2]; [done|destruct r; apply Hr|done| |].
  { intros t Ht. destruct (Hl t Ht) as [Hs _]. assert (t ∈ set_of l) by (unfold set_of; set_solver).
    split; [destruct r; set_solver|]. split; [by apply (rq_bound _ _ _ R)|].
    apply L1. by eapply rq_linked. }
  assert (Ls : ∀ x, x ∈ set_of l -> x ∈ S ∧ can_schedule (thread k x) ≠ true)
    by (intros x Hx; apply Hl; unfold set_of in Hx; by apply elem_of_list_to_set in Hx).
  exists (match r, running k c with Some t, _ => Some t | None, Some cur => Some cur | None, None => None end).
  exists (push_aside k q1 l). split; [|split].
  - unfold PopNextReadyThread. cbv zeta. fold q0. fold (running k c). rewrite (co_aside _ _ _ H).
    unfold pop, bar in E. destruct (running k c); unfold prio in E; rewrite E; reflexivity.
  - intros j. by rewrite L2, L1.
  - destruct r as [t|].
    + left. exists t. destruct Hr as [Hr1 Hr2]. split; [done|]. split; [done|].
      destruct Hr2 as (Ht & Ct & _). assert (Nt : t ∉ set_of l) by (intros N; by apply Ls in N as [_ N]).
      replace (S ∖ {[t]}) with (S ∖ set_of l ∖ {[t]} ∪ set_of l); [done|].
      apply set_eq. intros x. rewrite elem_of_union, !elem_of_difference, elem_of_singleton.
      specialize (Ls x). destruct (decide (x ∈ set_of l)); intuition congruence.
    + right. split; [by destruct (running k c)|]. destruct Hr as [Hr1 Hr2]. split; [|done].
      replace S with (S ∖ set_of l ∪ set_of l) at 1; [done|].
      apply set_eq. intros x. rewrite elem_of_union, elem_of_difference.
      specialize (Ls x). destruct (decide (x ∈ set_of l)); intuition.
Qed.

(** * Switching contexts *)

(** The thread that leaves the core. *)
Definition saved k c (th : Thread) : Thread :=
  th<|last_running_ticks := Timer_GetTicks (timer_at (timing k) c)|><|context := cpu_context (manager k c)|>
    <|status := if decide (status th = Running) then Ready else status th|>.

Lemma save_previous_thread k c t x :
  thread (save_previous k c t) x = if decide (t = x) then saved k c (thread k t) else thread k x.
Proof.
  unfold save_previous, saved. cbv zeta. rewrite thread_set_eq.
  change (status ((thread k t)<|last_running_ticks := ?a|><|context := ?b|>)) with (status (thread k t)).
  destruct (decide (status (thread k t) = Running)) as [D|D].
  - rewrite thread_set. case_decide as E; [|etrans; [apply thread_set|by rewrite decide_False]].
    change (thread (on_queue ?a _ _) t) with (thread a t). by rewrite thread_set_eq.
  - rewrite thread_set. case_decide; [|done]. by destruct (thread k t).
Qed.

Lemma save_previous_manager k c t : manager (save_previous k c t) c
  = if decide (status (thread k t) = Running)
    then (manager k c)<|ready_queue := push_front (ready_queue (manager k c)) (prio k t) t|>
    else manager k c.
Proof.
  unfold save_previous. cbv zeta. rewrite thread_set_eq.
  change (status ((thread k t)<|last_running_ticks := ?a|><|context := ?b|>)) with (status (thread k t)).
  case_decide; [|done].
  match goal with |- manager (set_thread ?a _ _) c = _ => change (manager a c = (manager k c)<|ready_queue := push_front (ready_queue (manager k c)) (prio k t) t|>) end.
  unfold on_queue. rewrite manager_set, decide_True by done. done.
Qed.

(** Saving the thread that ran puts it back in front of its equals. *)
Lemma save_previous_queue k c t S q : rq q (prio k) S -> ready_queue (manager k c) = q ->
  (status (thread k t) = Running -> (t ∉ S) ∧ (prio k t < NUM_QUEUES)%nat ∧ linked q (prio k t)) ->
  let k' := save_previous k c t in
  rq (ready_queue (manager k' c)) (prio k) (if decide (status (thread k t) = Running) then {[t]} ∪ S else S) ∧
  ∀ j, linked (ready_queue (manager k' c)) j <-> linked q j.
Proof.
  intros R E H. cbv zeta. rewrite save_previous_manager. case_decide as D; [|by rewrite E].
  cbn [ready_queue]. rewrite E. destruct (H D) as (H1 & H2 & H3). by apply rq_push_front.
Qed.

Lemma load_next_spec k c t S : rq (ready_queue (manager k c)) (prio k) S -> (prio k t < NUM_QUEUES)%nat ->
  status (thread k t) = Ready ->
  ∃ k', load_next k c t = Some k' ∧
    (∀ x, thread k' x = if decide (t = x) then (thread k t)<|status := Running|> else thread k x) ∧
    current_thread (manager k' c) = Some t ∧ cpu_context (manager k' c) = context (thread k t) ∧
    cpu_uro (manager k' c) = tls_address (thread k t) ∧
    rq (ready_queue (manager k' c)) (prio k) (S ∖ {[t]}) ∧
    (∀ j, linked (ready_queue (manager k' c)) j <-> linked (ready_queue (manager k c)) j) ∧
    thread_list (manager k' c) = thread_list (manager k c) ∧
    unscheduled_ready_queue (manager k' c) = unscheduled_ready_queue (manager k c).
Proof.
  intros R B E. unfold load_next. rewrite decide_True by done. cbv zeta. eexists. split; [reflexivity|].
  destruct (rq_remove _ (prio k) S (prio k t) t R eq_refl B) as [R' L'].
  match goal with |- (∀ x, thread ?k3 x = _) ∧ _ => set (k' := k3) end.
  assert (M : manager k' c = (manager k c)<|current_thread := Some t|>
    <|ready_queue := remove (ready_queue (manager k c)) (prio k t) t|>
    <|cpu_context := context (thread k t)|><|cpu_uro := tls_address (thread k t)|>).
  { etrans; [apply manager_set|]. by rewrite decide_True. }
  rewrite !M. split; [|by split_and!]. intros x. etrans; [apply thread_set|]. done.
Qed.

(** The state between leaving and entering: the queue holds [S'], and no thread
    of the core runs. *)
Lemma core_ok_load k c S' t k' : rq (ready_queue (manager k c)) (prio k) S' ->
  (∀ x, x ∈ S' -> x = t ∨ status (thread k x) = Ready ∧ core_id (thread k x) = c) ->
  (∀ x, status (thread k x) = Ready -> core_id (thread k x) = c -> x ∈ S' ∨ x = t) ->
  (∀ x, core_id (thread k x) = c -> status (thread k x) ≠ Running) ->
  (∀ x, x ∈ thread_list (manager k c) ->
     (prio k x < NUM_QUEUES)%nat ∧ linked (ready_queue (manager k c)) (prio k x)) ->
  (∀ x, core_id (thread k x) = c -> status (thread k x) = Ready -> x ∈ thread_list (manager k c)) ->
  unscheduled_ready_queue (manager k c) = [] ->
  status (thread k t) = Ready -> core_id (thread k t) = c ->
  load_next k c t = Some k' -> core_ok k' c (S' ∖ {[t]}).
Proof.
  intros R A1 A2 A3 A4 A5 A6 Er Ec E.
  assert (Hl : t ∈ thread_list (manager k c)) by auto.
  destruct (load_next_spec k c t S' R (proj1 (A4 t Hl)) Er)
    as (k2 & E2 & T & Cu & _ & _ & R2 & L2 & Tl & Un).
  rewrite E in E2. injection E2 as <-.
  assert (Hst : ∀ x, status (thread k' x) = if decide (t = x) then Running else status (thread k x))
    by (intros x; rewrite T; by case_decide).
  assert (Hco : ∀ x, core_id (thread k' x) = core_id (thread k x))
    by (intros x; rewrite T; case_decide; by subst).
  assert (Hp : ∀ x, prio k' x = prio k x) by (intros x; unfold prio; rewrite T; case_decide; by subst).
  constructor.
  - eapply rq_ext; [exact R2|auto].
  - intros x. rewrite elem_of_difference, elem_of_singleton, Hst, Hco. case_decide; [naive_solver|].
    split; [intros [Hx N]; destruct (A1 x Hx) as [->|?]; done|]. intros [H1 H2].
    destruct (A2 x H1 H2); [done|congruence].
  - intros x. rewrite Tl, Hp, L2. apply A4.
  - intros x. rewrite Tl, Hst, Hco. case_decide as D; [by subst|]. intros Hc [Hs|Hs]; [auto|].
    by destruct (A3 x Hc).
  - intros x. rewrite Hst, Hco. case_decide; [by subst|]. intros Hs Hc. by destruct (A3 x Hc).
  - intros x. rewrite Cu. intros [= <-]. rewrite Hst, Hco, decide_True by done. done.
  - by rewrite Un.
Qed.

(** The next thread of a core: the best of the queue if it beats the running
    thread, else the running thread. *)
Definition next_of k c (S : gset nat) (next : option nat) : Prop :=
  (∃ t, next = Some t ∧ best_of_queue k (prio k) (bar k c) (ready_queue (manager k c)) S t) ∨
  (next = running k c ∧ ∀ x, x ∈ S -> can_schedule (thread k x) = true -> (bar k c <= prio k x)%nat).

(** What the switch leaves in the threads. *)
Definition switched k c (next : option nat) k' : Prop :=
  ∀ x, thread k' x =
    let th := if decide (current_thread (manager k c) = Some x) then saved k c (thread k x) else thread k x in
    if decide (next = Some x) then th<|status := Running|> else th.

(** After the queue has given up its best thread and the running thread is
    saved. *)
Definition after_pop k c (q' : ThreadQueueList nat) : KernelSystem :=
  let k1 := set_manager k c ((manager k c)<|ready_queue := q'|><|unscheduled_ready_queue := []|>) in
  match current_thread (manager k1 c) with Some cur => save_previous k1 c cur | None => k1 end.

Definition with_running k c (S : gset nat) : gset nat :=
  match running k c with Some cur => {[cur]} ∪ S | None => S end.

Lemma after_pop_spec k c S q' S1 : core_ok k c S -> rq q' (prio k) S1 -> S1 ⊆ S ->
  (∀ j, linked q' j <-> linked (ready_queue (manager k c)) j) ->
  let k2 := after_pop k c q' in
  (∀ x, thread k2 x
     = if decide (current_thread (manager k c) = Some x) then saved k c (thread k x) else thread k x) ∧
  rq (ready_queue (manager k2 c)) (prio k) (with_running k c S1) ∧
  (∀ j, linked (ready_queue (manager k2 c)) j <-> linked (ready_queue (manager k c)) j) ∧
  thread_list (manager k2 c) = thread_list (manager k c) ∧
  unscheduled_ready_queue (manager k2 c) = [] ∧ current_thread (manager k2 c) = current_thread (manager k c).
Proof.
  intros H R Hs L. cbv zeta. unfold after_pop, with_running. cbv zeta.
  set (k1 := set_manager k c _).
  assert (M1 : manager k1 c = (manager k c)<|ready_queue := q'|><|unscheduled_ready_queue := []|>)
    by (unfold k1; by rewrite manager_set, decide_True).
  assert (C1 : current_thread (manager k1 c) = current_thread (manager k c)) by by rewrite M1.
  rewrite C1. unfold running.
  destruct (current_thread (manager k c)) as [cur|] eqn:Ec; cbn [mbind option_bind].
  - assert (Hq : ready_queue (manager k1 c) = q') by by rewrite M1.
    destruct (save_previous_queue k1 c cur S1 q' R Hq) as [R2 L2].
    { intros Hr. change (status (thread k cur) = Running) in Hr.
      destruct (running_spec k c S cur H) as (_ & _ & _ & Hn & Hb & Hl).
      { unfold running. rewrite Ec. cbn [mbind option_bind]. by rewrite decide_True. }
      split; [set_solver|]. split; [done|]. by apply L. }
    split_and!.
    + intros x. rewrite save_previous_thread. change (thread k1 ?a) with (thread k a).
      assert (Sv : saved k1 c (thread k cur) = saved k c (thread k cur)) by (unfold saved; by rewrite M1).
      destruct (decide (cur = x)) as [<-|N]; [by rewrite decide_True|].
      rewrite decide_False by congruence. done.
    + change (status (thread k1 cur)) with (status (thread k cur)) in R2. by case_decide.
    + intros j. by rewrite L2, L.
    + rewrite save_previous_manager, M1. by case_decide.
    + rewrite save_previous_manager, M1. by case_decide.
    + rewrite save_previous_manager, M1. by case_decide.
  - rewrite M1. split_and!; try done.
Qed.

Lemma Reschedule_unfold k c r q' :
  PopNextReadyThread k c = Some (r, set_manager k c
      ((manager k c)<|ready_queue := q'|><|unscheduled_ready_queue := []|>)) ->
  Reschedule k c =
    match r with
    | Some t => load_next (after_pop k c q') c t
    | None => Some (set_manager (after_pop k c q') c ((manager (after_pop k c q') c)<|current_thread := None|>))
    end ∨
  r = None ∧ current_thread (manager k c) = None ∧ Reschedule k c = Some (after_pop k c q').
Proof.
  intros E. unfold Reschedule. rewrite E. cbn [mbind option_bind]. unfold SwitchContext, after_pop. cbv zeta.
  assert (M : current_thread (manager (set_manager k c
    ((manager k c)<|ready_queue := q'|><|unscheduled_ready_queue := []|>)) c) = current_thread (manager k c))
    by by rewrite manager_set, decide_True.
  rewrite M. destruct (current_thread (manager k c)), r; auto.
Qed.

(** The threads after the saving: who is ready, who is in the list. *)
Lemma after_pop_status k c S x : core_ok k c S ->
  let th := if decide (current_thread (manager k c) = Some x) then saved k c (thread k x) else thread k x in
  core_id th = core_id (thread k x) ∧ level (current_priority th) = prio k x ∧
  (core_id (thread k x) = c -> status th ≠ Running) ∧
  (core_id (thread k x) = c -> status th = Ready <-> x ∈ with_running k c S).
Proof.
  intros H. cbv zeta. unfold with_running. destruct (running k c) as [cur|] eqn:Er.
  - destruct (running_spec k c S cur H Er) as (Ec & Es & _ & Hn & _). rewrite Ec.
    destruct (decide (Some cur = Some x)) as [[= <-]|N].
    + unfold saved. cbn. rewrite Es, decide_True by done. split_and!; try done. intros _. set_solver.
    + split_and!; [done|done| |].
      * intros Hc Hs. apply N. by rewrite <- Ec; apply (co_running _ _ _ H).
      * intros Hc. rewrite elem_of_union, elem_of_singleton, (co_ready _ _ _ H). intuition congruence.
  - case_decide as D.
    + assert (Hs : status (thread k x) ≠ Running).
      { intros Hs. unfold running in Er. rewrite D in Er. cbn in Er. by rewrite decide_True in Er. }
      destruct (co_current _ _ _ H x D) as [Hc Hr]. unfold saved. cbn. rewrite decide_False by done.
      split_and!; try done. intros _. rewrite (co_ready _ _ _ H). tauto.
    + split_and!; [done|done| |].
      * intros Hc Hs. apply D. by apply (co_running _ _ _ H).
      * intros Hc. rewrite (co_ready _ _ _ H). tauto.
Qed.

Lemma with_running_core k c S x : core_ok k c S -> x ∈ with_running k c S ->
  core_id (thread k x) = c ∧ x ∈ thread_list (manager k c).
Proof.
  intros H Hx. assert (Hs : core_id (thread k x) = c ∧
    (status (thread k x) = Ready ∨ status (thread k x) = Running)).
  { unfold with_running in Hx. destruct (running k c) as [cur|] eqn:Er.
    - destruct (running_spec k c S cur H Er) as (_ & Es & Hc & _).
      apply elem_of_union in Hx as [->%elem_of_singleton|Hx]; [auto|].
      apply (co_ready _ _ _ H) in Hx as [? ?]. auto.
    - apply (co_ready _ _ _ H) in Hx as [? ?]. auto. }
  destruct Hs as [Hc Hs]. split; [done|]. by apply (co_listed _ _ _ H).
Qed.

(** Entering the thread chosen. *)
Lemma enter_next k c S q' S1 t : core_ok k c S -> rq q' (prio k) S1 -> S1 ⊆ S ->
  (∀ j, linked q' j <-> linked (ready_queue (manager k c)) j) ->
  t ∈ with_running k c S -> with_running k c S ⊆ {[t]} ∪ with_running k c S1 ->
  ∃ k', load_next (after_pop k c q') c t = Some k' ∧ core_ok k' c (with_running k c S1 ∖ {[t]}) ∧
    current_thread (manager k' c) = Some t ∧ switched k c (Some t) k' ∧
    cpu_context (manager k' c) = context (thread k' t) ∧ cpu_uro (manager k' c) = tls_address (thread k t).
Proof.
  intros H R Hs L Ht Hsub. destruct (after_pop_spec k c S q' S1 H R Hs L) as (T2 & R2 & L2 & Tl & Un & _).
  set (k2 := after_pop k c q') in *.
  pose proof (fun x => after_pop_status k c S x H) as St. cbv zeta in St.
  assert (Hsub' : with_running k c S1 ⊆ with_running k c S)
    by (unfold with_running; destruct (running k c); set_solver).
  assert (Hp : ∀ x, prio k2 x = prio k x) by (intros x; unfold prio; rewrite T2; apply St).
  assert (Hc : ∀ x, core_id (thread k2 x) = core_id (thread k x)) by (intros x; rewrite T2; apply St).
  assert (Rd : ∀ x, core_id (thread k x) = c -> status (thread k2 x) = Ready <-> x ∈ with_running k c S)
    by (intros x; rewrite T2; apply St).
  assert (R2' : rq (ready_queue (manager k2 c)) (prio k2) (with_running k c S1))
    by (eapply rq_ext; [exact R2|auto]).
  destruct (with_running_core k c S t H Ht) as [Htc Htl].
  assert (Ht2 : status (thread k2 t) = Ready) by by apply Rd.
  assert (Hlv : ∀ x, x ∈ thread_list (manager k2 c) ->
     (prio k2 x < NUM_QUEUES)%nat ∧ linked (ready_queue (manager k2 c)) (prio k2 x))
    by (intros x; rewrite Tl, Hp, L2; apply (co_levels _ _ _ H)).
  destruct (load_next_spec k2 c t (with_running k c S1) R2') as (k' & E & T & Cu & Cx & Ur & _); [|done|].
  { apply Hlv. by rewrite Tl. }
  exists k'. split; [done|]. split.
  { eapply core_ok_load; try done.
    - intros x Hx. right. assert (Hw : x ∈ with_running k c S) by by apply Hsub'.
      destruct (with_running_core k c S x H Hw) as [Hxc _]. rewrite Hc. split; [by apply Rd|done].
    - intros x Hr Hxc. rewrite Hc in Hxc. apply Rd in Hr; [|done].
      apply Hsub, elem_of_union in Hr as [->%elem_of_singleton|?]; auto.
    - intros x Hxc. rewrite Hc in Hxc. rewrite T2. by apply St.
    - intros x Hxc Hr. rewrite Hc in Hxc. apply Rd in Hr; [|done]. rewrite Tl. by apply (with_running_core k c S x H).
    - by rewrite Hc. }
  split; [done|]. split; [|split].
  - intros x. cbv zeta. rewrite T, <- !T2. destruct (decide (t = x)) as [<-|N]; [by rewrite decide_True|].
    rewrite decide_False by congruence. done.
  - rewrite Cx, T, decide_True by done. done.
  - rewrite Ur, T2. case_decide; done.
Qed.

(** Nothing to run. *)
Lemma enter_idle k c S q' k' : core_ok k c S -> running k c = None -> rq q' (prio k) S ->
  (∀ j, linked q' j <-> linked (ready_queue (manager k c)) j) ->
  (∀ x, thread k' x = thread (after_pop k c q') x) ->
  manager k' c = (manager (after_pop k c q') c)<|current_thread := None|> ->
  core_ok k' c S ∧ switched k c None k'.
Proof.
  intros H Er R L T M. destruct (after_pop_spec k c S q' S H R) as (T2 & R2 & L2 & Tl & Un & _); [done|done|].
  set (k2 := after_pop k c q') in *. unfold with_running in R2. rewrite Er in R2.
  pose proof (fun x => after_pop_status k c S x H) as St. cbv zeta in St.
  unfold with_running in St. rewrite Er in St.
  assert (Hp : ∀ x, prio k' x = prio k x) by (intros x; unfold prio; rewrite T, T2; apply St).
  assert (Hc : ∀ x, core_id (thread k' x) = core_id (thread k x)) by (intros x; rewrite T, T2; apply St).
  assert (Rd : ∀ x, core_id (thread k x) = c -> status (thread k' x) = Ready <-> x ∈ S)
    by (intros x; rewrite T, T2; apply St).
  assert (Nr : ∀ x, core_id (thread k x) = c -> status (thread k' x) ≠ Running)
    by (intros x; rewrite T, T2; apply St).
  split; [|intros x; rewrite T, T2; done].
  constructor; rewrite ?M; change (ready_queue (?a<|current_thread := None|>)) with (ready_queue a);
    change (thread_list (?a<|current_thread := None|>)) with (thread_list a); rewrite ?Tl.
  - eapply rq_ext; [exact R2|auto].
  - intros x. rewrite Hc. split.
    + intros Hx. pose proof Hx as [_ Hxc]%(co_ready _ _ _ H). split; [by apply Rd|done].
    + intros [Hs Hxc]. by apply Rd.
  - intros x. rewrite Hp, L2. apply (co_levels _ _ _ H).
  - intros x. rewrite Hc. intros Hxc [Hs|Hs]; [|by destruct (Nr x Hxc)].
    apply Rd in Hs; [|done]. pose proof Hs as [Hs' _]%(co_ready _ _ _ H). apply (co_listed _ _ _ H); auto.
  - intros x Hs Hxc. rewrite Hc in Hxc. by destruct (Nr x Hxc).
  - done.
  - exact Un.
Qed.

(** C1: rescheduling a core.  No assertion fails and no queue link is broken; the
    next thread is the first of the most urgent level among the ready threads
    that may be scheduled, if it is more urgent than the running thread, and else
    the running thread, or none; the running thread returns to the front of its
    level and its registers are saved, the registers and thread-local address of
    the next are loaded; no other thread changes, and the invariant of the core
    holds again. *)
Theorem Reschedule_correct k c S : core_ok k c S ->
  ∃ k' S' next, Reschedule k c = Some k' ∧ core_ok k' c S' ∧
    current_thread (manager k' c) = next ∧ next_of k c S next ∧ switched k c next k' ∧
    ∀ t, next = Some t ->
      cpu_context (manager k' c) = context (thread k' t) ∧
      cpu_uro (manager k' c) = tls_address (thread k t) ∧ S' = with_running k c S ∖ {[t]}.
Proof.
  intros H. destruct (PopNext_spec k c S H) as (r & q' & E & L & Hr).
  assert (Hn : next_of k c S r).
  { destruct Hr as [(t & -> & B & _)|(-> & _ & B)]; [left; by exists t|by right]. }
  assert (Hq : ∃ S1, rq q' (prio k) S1 ∧ S1 ⊆ S ∧ match r with
    | Some t => t ∈ with_running k c S ∧ with_running k c S ⊆ {[t]} ∪ with_running k c S1 ∧
        with_running k c S1 ∖ {[t]} = with_running k c S ∖ {[t]}
    | None => S1 = S ∧ running k c = None end).
  { unfold with_running. destruct Hr as [(t & -> & (Ht & _) & R)|(Er & R & _)].
    - exists (S ∖ {[t]}). split; [done|]. split; [set_solver|].
      assert (Hd : ∀ x, x ∈ S ∖ {[t]} <-> x ∈ S ∧ x ≠ t) by set_solver.
      destruct (running k c); (split; [set_solver|]); (split; [|set_solver]);
        intros x Hx; destruct (decide (x = t)); set_solver.
    - exists S. split; [done|]. split; [done|]. rewrite <- Er. destruct r; set_solver. }
  destruct Hq as (S1 & R & Hs & Hm).
  destruct (Reschedule_unfold k c r q' E) as [Eq|(-> & Ec & Eq)]; rewrite Eq.
  - destruct r as [t|].
    + destruct Hm as (Ht & Hsub & Ew).
      destruct (enter_next k c S q' S1 t H R Hs L Ht Hsub) as (k' & E' & Hk & Cu & Sw & Cx & Ur).
      exists k', (with_running k c S1 ∖ {[t]}), (Some t). split_and!; try done. intros t' [= <-]. by rewrite <- Ew.
    + destruct Hm as [-> Er]. set (k2 := after_pop k c q').
      destruct (enter_idle k c S q' (set_manager k2 c ((manager k2 c)<|current_thread := None|>)))
        as [Hk Sw]; try done; [by rewrite manager_set, decide_True|].
      eexists _, S, None. split; [reflexivity|]. split; [done|].
      split; [by rewrite manager_set, decide_True|done].
  - destruct Hm as [-> Er].
    assert (M : current_thread (manager (after_pop k c q') c) = None).
    { destruct (after_pop_spec k c S q' S H R) as (_ & _ & _ & _ & _ & ->); done. }
    destruct (enter_idle k c S q' (after_pop k c q')) as [Hk Sw]; try done.
    { clear -M. destruct (manager (after_pop k c q') c). cbn in M. by subst. }
    by exists (after_pop k c q'), S, None.
Qed.

(** * A core with three threads

    Thread 1 runs at priority 48; 2 is ready at 30 and 3 at 20, but 3 may not be
    scheduled. *)

Definition sched_thread (p : Z) (s : ThreadStatus) (can : bool) : Thread :=
  (inhabitant : Thread)<|status := s|><|current_priority := p|><|nominal_priority := p|><|can_schedule := can|>.
Definition sched_queue : ThreadQueueList nat :=
  let q := prepare (prepare (prepare (new_ThreadQueueList NUM_QUEUES) 48) 30) 20 in
  push_back (push_back q 30 2%nat) 20 3%nat.
Definition sched_demo (q : ThreadQueueList nat) : KernelSystem :=
  let k := mk_KernelSystem ∅ ∅ ∅ ∅ ∅ ∅ ∅ ∅ ∅ ∅ ∅ ∅ 0 (mk_Timing ∅ [] 0 false) ∅ 0 false in
  let k := set_thread k 1 (sched_thread 48 Running true) in
  let k := set_thread k 2 (sched_thread 30 Ready true) in
  let k := set_thread k 3 (sched_thread 20 Ready false) in
  set_manager k 0 (mk_ThreadManager (Some 1%nat) q [] ∅ [1; 2; 3]%nat new_ThreadContext 0).

Lemma sched_demo_thread q t : thread (sched_demo q) t =
  if decide (t = 1%nat) then sched_thread 48 Running true else
  if decide (t = 2%nat) then sched_thread 30 Ready true else
  if decide (t = 3%nat) then sched_thread 20 Ready false else inhabitant.
Proof.
  unfold sched_demo. cbv zeta. change (thread (set_manager ?a _ _) t) with (thread a t).
  rewrite !thread_set. by repeat case_decide; subst.
Qed.

Lemma new_queue_rq P : rq (new_ThreadQueueList NUM_QUEUES) P ∅.
Proof.
  assert (Q : ∀ i, (i < NUM_QUEUES)%nat -> data (queue_at (new_ThreadQueueList NUM_QUEUES) i) = ([] : list nat)).
  { intros i Hi. unfold queue_at, new_ThreadQueueList. cbn [queues].
    rewrite (list_lookup_total_correct _ _ empty_queue); [done|]. by apply lookup_replicate. }
  constructor; [apply new_queue_ok|..]; intros.
  - rewrite Q by done. constructor.
  - rewrite Q by done. set_solver.
  - set_solver.
Qed.

Lemma sched_queue_rq : rq sched_queue (prio (sched_demo sched_queue)) {[2; 3]}%nat ∧
  ∀ p, p ∈ [48; 30; 20]%nat -> linked sched_queue p.
Proof.
  assert (P2 : prio (sched_demo sched_queue) 2 = 30%nat) by (unfold prio; by rewrite sched_demo_thread).
  assert (P3 : prio (sched_demo sched_queue) 3 = 20%nat) by (unfold prio; by rewrite sched_demo_thread).
  unfold sched_queue at 1 3. cbv zeta. set (P := prio (sched_demo sched_queue)) in *. clearbody P.
  destruct (rq_prepare _ P _ 48 (new_queue_rq P)) as (R1 & L1 & K1); [unfold NUM_QUEUES; lia|].
  destruct (rq_prepare _ P _ 30 R1) as (R2 & L2 & K2); [unfold NUM_QUEUES; lia|].
  destruct (rq_prepare _ P _ 20 R2) as (R3 & L3 & K3); [unfold NUM_QUEUES; lia|].
  destruct (rq_push_back _ P _ 30 2%nat R3 P2) as (R4 & L4); [set_solver|unfold NUM_QUEUES; lia|auto|].
  destruct (rq_push_back _ P _ 20 3%nat R4 P3) as (R5 & L5); [by_decide|unfold NUM_QUEUES; lia|by apply L4|].
  split.
  - replace ({[2; 3]}%nat : gset nat) with ({[3]} ∪ ({[2]} ∪ ∅) : gset nat)%nat by set_solver. exact R5.
  - intros p Hp. rewrite L5, L4. rewrite !elem_of_cons, elem_of_nil in Hp.
    destruct Hp as [->|[->|[->|[]]]]; auto.
Qed.

Lemma sched_demo_ok : core_ok (sched_demo sched_queue) 0 {[2; 3]}%nat.
Proof.
  destruct sched_queue_rq as [R L].
  assert (M : manager (sched_demo sched_queue) 0
    = mk_ThreadManager (Some 1%nat) sched_queue [] ∅ [1; 2; 3]%nat new_ThreadContext 0)
    by (etrans; [apply manager_set|]; by rewrite decide_True).
  constructor; rewrite ?M; cbn [ready_queue thread_list current_thread unscheduled_ready_queue].
  - exact R.
  - intros t. rewrite sched_demo_thread, elem_of_union, !elem_of_singleton.
    repeat case_decide; subst; cbn; intuition congruence.
  - intros t Ht. unfold prio. rewrite sched_demo_thread. rewrite !elem_of_cons, elem_of_nil in Ht.
    destruct Ht as [->|[->|[->|[]]]]; (split; [by apply Nat.ltb_lt|]); apply L; by_decide.
  - intros t. rewrite sched_demo_thread, !elem_of_cons, elem_of_nil.
    repeat case_decide; subst; cbn; intuition congruence.
  - intros t. rewrite sched_demo_thread. repeat case_decide; subst; cbn; congruence.
  - intros t [= <-]. rewrite sched_demo_thread. split; [reflexivity|discriminate].
  - done.
Qed.

Lemma Reschedule_correct_witness :
  ∃ k' S', Reschedule (sched_demo sched_queue) 0 = Some k' ∧ core_ok k' 0 S' ∧
    current_thread (manager k' 0) = Some 2%nat.
Proof.
  destruct (Reschedule_correct (sched_demo sched_queue) 0 _ sched_demo_ok) as (k' & S' & next & E & H & C & _).
  exists k', S'. split; [exact E|]. split; [exact H|]. rewrite C.
  assert (E' : (fun k => current_thread (manager k 0)) <$> Reschedule (sched_demo sched_queue) 0
               = Some (Some 2%nat)) by (vm_compute; reflexivity).
  rewrite E in E'. cbn [fmap option_fmap option_map] in E'. congruence.
Defined.
