(* ===== verification/FloatSpec.v ===== *)
(** A reference definition of IEEE 754 rounding, independent of the soft-float
    code, that the operations of VfpRound and VfpSingle are proved against.

    A binary format has [p] mantissa bits and an exponent field whose largest
    value [emax] marks infinities and NaNs.  The magnitude bits of an encoding
    (exponent field above mantissa) are one integer; [mag_value] is its value
    in units of the smallest subnormal.  An exact magnitude is a pair of
    integers [T], [s] that stands for [T / 2^s] of these units. *)

From S2P Require Import Prelude.

Inductive rounding := ToNearest | ToPlusInf | ToMinusInf | ToZero.

(** Whether a magnitude of the given sign is rounded away from zero by a
    directed mode. *)
Definition rounds_away (md : rounding) (neg : bool) : bool :=
  match md with
  | ToNearest => false
  | ToPlusInf => negb neg
  | ToMinusInf => neg
  | ToZero => false
  end.

(** [n / 2^k] rounded to an integer, ties to even. *)
Definition round_div (md : rounding) (neg : bool) (n k : Z) : Z :=
  if k <=? 0 then n * 2 ^ (- k)
  else
    let q := n / 2 ^ k in
    let r := n mod 2 ^ k in
    match md with
    | ToNearest =>
        if 2 * r <? 2 ^ k then q else if 2 ^ k <? 2 * r then q + 1 else q + q mod 2
    | _ => if rounds_away md neg && negb (r =? 0) then q + 1 else q
    end.

(** The result of an overflow: infinity, or the largest finite magnitude when
    the mode rounds towards zero. *)
Definition overflow_mag (p emax : Z) (md : rounding) (neg : bool) : Z :=
  match md with
  | ToNearest => emax * 2 ^ p
  | _ => if rounds_away md neg then emax * 2 ^ p else emax * 2 ^ p - 1
  end.

(** The exponent of the unit in the last place, in smallest subnormals. *)
Definition ulp_exponent (p T s : Z) : Z := 0 `max` (Z.log2 T - s - p).

(** The correctly rounded encoding of the magnitude [T / 2^s], for [0 < T]. *)
Definition round_mag (p emax : Z) (md : rounding) (neg : bool) (T s : Z) : Z :=
  let e := ulp_exponent p T s in
  let P := e * 2 ^ p + round_div md neg T (s + e) in
  if emax * 2 ^ p <=? P then overflow_mag p emax md neg else P.

(** The value of a finite encoding. *)
Definition mag_value (p P : Z) : Z :=
  if P <? 2 ^ p then P else (2 ^ p + P mod 2 ^ p) * 2 ^ (P / 2 ^ p - 1).

(** * Rounding to an integer *)

Lemma round_div_scale md neg n k j :
  0 <= j -> round_div md neg (n * 2 ^ j) (k + j) = round_div md neg n k.
Proof.
  intros Hj. assert (0 < 2 ^ j) by (apply Z.pow_pos_nonneg; lia).
  unfold round_div. destruct (Z.leb_spec k 0).
  - destruct (Z.leb_spec (k + j) 0).
    + rewrite <- Z.mul_assoc, <- Z.pow_add_r by lia. do 2 f_equal. lia.
    + replace (n * 2 ^ j) with (n * 2 ^ (- k) * 2 ^ (k + j))
        by (rewrite <- Z.mul_assoc, <- Z.pow_add_r by lia; do 2 f_equal; lia).
      assert (0 < 2 ^ (k + j)) by (apply Z.pow_pos_nonneg; lia).
      rewrite Z.div_mul, Z.mod_mul by lia.
      destruct md; cbn [rounds_away negb]; rewrite ?Z.eqb_refl, ?andb_false_r; try done.
      destruct (Z.ltb_spec (2 * 0) (2 ^ (k + j))); [done|lia].
  - destruct (Z.leb_spec (k + j) 0); [lia|].
    rewrite Z.pow_add_r by lia. assert (0 < 2 ^ k) by (apply Z.pow_pos_nonneg; lia).
    rewrite Z.div_mul_cancel_r, Z.mul_mod_distr_r by lia.
    assert (E : ∀ r, (r * 2 ^ j =? 0) = (r =? 0)) by (intros; zcases; nia).
    rewrite E. destruct md; try done.
    repeat match goal with |- context [?a <? ?b] => destruct (Z.ltb_spec a b) end; nia.
Qed.

(** Replacing the bits below position [j] by one sticky bit does not change a
    rounding that discards at least two bits more. *)
Definition jam (n j : Z) : Z :=
  if n mod 2 ^ j =? 0 then n / 2 ^ j else Z.lor (n / 2 ^ j) 1.

Lemma lor_1 a : Z.lor a 1 = 2 * (a / 2) + 1.
Proof.
  apply Z.bits_inj'. intros i Hi. rewrite Z.lor_spec.
  destruct (Z.eq_dec i 0) as [->|].
  - rewrite Z.testbit_odd_0. apply orb_true_r.
  - rewrite <- (Z.succ_pred i), Z.testbit_odd_succ by lia.
    rewrite (Z.bits_above_log2 1) by (simpl; lia). rewrite orb_false_r.
    change 2 with (2 ^ 1) at 1. by rewrite <- Z.shiftr_div_pow2, Z.shiftr_spec, Z.add_1_r by lia.
Qed.

Lemma round_div_jam md neg n j k :
  0 <= n -> 0 <= j -> 2 <= k ->
  round_div md neg (jam n j) k = round_div md neg n (j + k).
Proof.
  intros Hn Hj Hk. unfold jam.
  assert (Pj : 0 < 2 ^ j) by (apply Z.pow_pos_nonneg; lia).
  destruct (Z.eqb_spec (n mod 2 ^ j) 0) as [E|E].
  - rewrite <- (round_div_scale md neg (n / 2 ^ j) k j) by lia.
    f_equal; [|lia]. pose proof (Z.div_mod n (2 ^ j) ltac:(lia)). lia.
  - rewrite lor_1. unfold round_div.
    destruct (Z.leb_spec k 0); [lia|]. destruct (Z.leb_spec (j + k) 0); [lia|].
    pose proof (Z.div_mod n (2 ^ j) ltac:(lia)) as D.
    pose proof (Z.mod_pos_bound n (2 ^ j) Pj) as B.
    set (a := n / 2 ^ j) in *. set (b := n mod 2 ^ j) in *.
    set (K := 2 ^ (k - 2)).
    assert (PK : 0 < K) by (apply Z.pow_pos_nonneg; lia).
    assert (EK : 2 ^ k = 4 * K).
    { unfold K. change 4 with (2 ^ 2). rewrite <- Z.pow_add_r by lia. f_equal. lia. }
    rewrite Z.pow_add_r, EK by lia.
    pose proof (Z.div_mod a (4 * K) ltac:(lia)) as DA.
    pose proof (Z.mod_pos_bound a (4 * K) ltac:(lia)) as BA.
    set (q := a / (4 * K)) in *. set (r := a mod (4 * K)) in *.
    assert (Q1 : (2 * (a / 2) + 1) / (4 * K) = q).
    { symmetry. apply Z.div_unique with (2 * (r / 2) + 1); [|].
      - left. pose proof (Z.div_mod r 2 ltac:(lia)). pose proof (Z.mod_pos_bound r 2 ltac:(lia)). lia.
      - rewrite DA. replace (4 * K * q + r) with (r + (2 * K * q) * 2) by ring.
        rewrite Z.div_add by lia. ring. }
    assert (R1 : (2 * (a / 2) + 1) mod (4 * K) = 2 * (r / 2) + 1).
    { rewrite Z.mod_eq, Q1 by lia. rewrite DA.
      replace (4 * K * q + r) with (r + (2 * K * q) * 2) by ring.
      rewrite Z.div_add by lia. ring. }
    assert (Q2 : n / (2 ^ j * (4 * K)) = q).
    { symmetry. apply Z.div_unique with (r * 2 ^ j + b); [left; nia|]. rewrite D, DA. ring. }
    assert (R2 : n mod (2 ^ j * (4 * K)) = r * 2 ^ j + b).
    { rewrite Z.mod_eq, Q2 by nia. rewrite D, DA. ring. }
    rewrite Q1, R1, Q2, R2.
    pose proof (Z.div_mod r 2 ltac:(lia)). pose proof (Z.mod_pos_bound r 2 ltac:(lia)).
    set (h := r / 2) in *. assert (0 <= r) by lia.
    assert (N1 : (2 * h + 1 =? 0) = false) by (apply Z.eqb_neq; lia).
    assert (N2 : (r * 2 ^ j + b =? 0) = false) by (apply Z.eqb_neq; nia).
    rewrite N1, N2. destruct md; try done.
    destruct (Z.lt_ge_cases r (2 * K)).
    + destruct (Z.ltb_spec (2 * (2 * h + 1)) (4 * K)); [|lia].
      destruct (Z.ltb_spec (2 * (r * 2 ^ j + b)) (2 ^ j * (4 * K))); [done|nia].
    + destruct (Z.ltb_spec (2 * (2 * h + 1)) (4 * K)); [lia|].
      destruct (Z.ltb_spec (4 * K) (2 * (2 * h + 1))); [|lia].
      destruct (Z.ltb_spec (2 * (r * 2 ^ j + b)) (2 ^ j * (4 * K))); [nia|].
      destruct (Z.ltb_spec (2 ^ j * (4 * K)) (2 * (r * 2 ^ j + b))); [done|nia].
Qed.

(** * Rounding by adding an increment

    The soft-float code keeps a normalised significand of [k + m] bits, adds an
    increment that depends on the mode, and drops the low [k] bits.  When the
    addition would overflow the word it halves the significand first. *)

Definition round_incr (md : rounding) (neg : bool) (k S : Z) : Z :=
  match md with
  | ToNearest => if Z.even (S / 2 ^ k) then 2 ^ (k - 1) - 1 else 2 ^ (k - 1)
  | _ => if rounds_away md neg then 2 ^ k - 1 else 0
  end.

Section increment.
Context (md : rounding) (neg : bool) (k S : Z) (Hk : 2 <= k) (HS : 0 <= S).

Lemma round_incr_half : 2 ^ k = 2 * 2 ^ (k - 1) ∧ 2 <= 2 ^ (k - 1).
Proof using Hk.
  rewrite <- Z.pow_succ_r by lia. split; [f_equal; lia|].
  change 2 with (2 ^ 1) at 1. apply Z.pow_le_mono_r; lia.
Qed.

Lemma round_incr_bounds : 0 <= round_incr md neg k S < 2 ^ k.
Proof using Hk.
  destruct round_incr_half. unfold round_incr.
  destruct md, neg, (Z.even (S / 2 ^ k)); simpl; lia.
Qed.

Lemma round_incr_div : (S + round_incr md neg k S) / 2 ^ k = round_div md neg S k.
Proof using Hk HS.
  destruct round_incr_half as [E ?]. unfold round_div, round_incr.
  destruct (Z.leb_spec k 0); [lia|]. rewrite E in *. set (h := 2 ^ (k - 1)) in *.
  assert (P : 0 < 2 * h) by lia.
  pose proof (Z.div_mod S (2 * h) ltac:(lia)) as D.
  pose proof (Z.mod_pos_bound S (2 * h) P) as B.
  set (q := S / (2 * h)) in *. set (r := S mod (2 * h)) in *.
  assert (U : ∀ i c, 0 <= r + i - c * (2 * h) < 2 * h -> (S + i) / (2 * h) = q + c).
  { intros i c Hc. symmetry. apply Z.div_unique with (r + i - c * (2 * h)); lia. }
  destruct md; cbn [rounds_away].
  - destruct (Z.even q) eqn:Q.
    + pose proof (Zmod_even q) as M. rewrite Q in M. rewrite M.
      destruct (Z.ltb_spec (2 * r) (2 * h)); [rewrite (U _ 0); lia|].
      destruct (Z.ltb_spec (2 * h) (2 * r)); [apply (U _ 1); lia|rewrite (U _ 0); lia].
    + pose proof (Zmod_even q) as M. rewrite Q in M. rewrite M.
      destruct (Z.ltb_spec (2 * r) (2 * h)); [rewrite (U _ 0); lia|].
      destruct (Z.ltb_spec (2 * h) (2 * r)); apply (U _ 1); lia.
  - destruct neg; simpl; [rewrite (U _ 0); lia|].
    destruct (Z.eqb_spec r 0); simpl; [rewrite (U _ 0); lia|apply (U _ 1); lia].
  - destruct neg; simpl; [|rewrite (U _ 0); lia].
    destruct (Z.eqb_spec r 0); simpl; [rewrite (U _ 0); lia|apply (U _ 1); lia].
  - simpl. rewrite (U _ 0); lia.
Qed.
End increment.

(** When the addition leaves the [k + m] bits, the halved significand with its
    sticky bit and the halved increment round to the same value. *)
Lemma round_incr_wrap md neg k m S :
  2 <= k -> 1 <= m -> 0 <= S < 2 ^ (k + m) ->
  2 ^ (k + m) <= S + round_incr md neg k S ->
  let S' := Z.lor (S / 2) (S mod 2) in
  let i' := round_incr md neg k S / 2 in
  round_div md neg S k = 2 ^ m ∧ S mod 2 ^ k ≠ 0 ∧ S' mod 2 ^ k ≠ 0 ∧
  0 < i' ∧ 2 ^ (k + m - 1) <= S' + i' < 2 ^ (k + m - 1) + 2 ^ k.
Proof.
  intros Hk Hm HS Hw S' i'.
  destruct (round_incr_half k Hk) as [E ?].
  pose proof (round_incr_bounds md neg k S Hk) as B.
  rewrite <- (round_incr_div md neg k S Hk) by lia.
  assert (P : 2 ^ (k + m) = 2 ^ k * 2 ^ m) by (apply Z.pow_add_r; lia).
  assert (Pm : 2 ^ m = 2 * 2 ^ (m - 1)) by (rewrite <- Z.pow_succ_r by lia; f_equal; lia).
  assert (Pm' : 2 ^ (k + m - 1) = 2 ^ k * 2 ^ (m - 1)) by (rewrite <- Z.pow_add_r by lia; f_equal; lia).
  assert (1 <= 2 ^ (m - 1)) by (pose proof (Z.pow_pos_nonneg 2 (m - 1)); lia).
  rewrite Pm'. rewrite P, Pm in *. rewrite E in *.
  set (h := 2 ^ (k - 1)) in *. set (q := 2 ^ (m - 1)) in *.
  assert (Q : S / (2 * h) = 2 * q - 1) by (symmetry; apply Z.div_unique with (S - (2 * q - 1) * (2 * h)); lia).
  assert (R : S mod (2 * h) = S - (2 * q - 1) * (2 * h)) by (rewrite Z.mod_eq, Q; lia).
  assert (S' = S / 2 + (1 - (S / 2) mod 2) * (S mod 2)) as EqS'.
  { unfold S'. pose proof (Z.mod_pos_bound S 2 ltac:(lia)).
    destruct (Z.eq_dec (S mod 2) 0) as [->|]; [rewrite Z.lor_0_r; lia|].
    replace (S mod 2) with 1 by lia. rewrite lor_1. Z.div_mod_to_equations; lia. }
  assert (I : round_incr md neg k S = h ∨ round_incr md neg k S = 2 * h - 1).
  { unfold round_incr in *. rewrite E in *. rewrite Q in *. fold h in B, Hw |- *.
    assert (Z.even (2 * q - 1) = false) as O
      by (rewrite Z.even_sub, Z.even_mul; reflexivity).
    rewrite O in *. destruct md, neg; cbn [rounds_away negb] in *; lia. }
  assert (Hh : h = 2 * 2 ^ (k - 2)) by (unfold h; rewrite <- Z.pow_succ_r by lia; f_equal; lia).
  set (h2 := 2 ^ (k - 2)) in *. set (g := h2 * q).
  assert (G : ∀ c, c * h * q = 2 * c * g) by (intros; unfold g; rewrite Hh; ring).
  assert (1 <= h2 <= g) by (unfold g; nia).
  assert (2 * h * (2 * q) = 8 * g) as G8 by (unfold g; rewrite Hh; ring).
  assert (2 * h * q = 4 * g) as G4 by (unfold g; rewrite Hh; ring).
  assert ((2 * q - 1) * (2 * h) = 8 * g - 4 * h2) as G7 by (unfold g; rewrite Hh; ring).
  rewrite G7 in R. rewrite G8 in *. rewrite G4.
  assert (HP : (S mod 2 = 0 ∧ 2 * S' = S) ∨ (S mod 2 = 1 ∧ S' mod 2 = 1 ∧ S - 1 <= 2 * S' <= S + 1)).
  { rewrite EqS'. pose proof (Z.mod_pos_bound S 2 ltac:(lia)).
    destruct (Z.eq_dec (S mod 2) 0) as [e|e]; [left|right; replace (S mod 2) with 1 by lia];
      Z.div_mod_to_equations; lia. }
  assert (g = h2 * q) as Gd by done.
  split; [symmetry; apply Z.div_unique with (S + round_incr md neg k S - 8 * g); lia|].
  assert (ND : 4 * g - 2 * h2 < S' <= 4 * g - 1 -> S' mod (2 * h) ≠ 0).
  { intros SB M. replace (2 * h) with (4 * h2) in M by lia.
    apply Z.mod_divide in M as [c Hc]; [|lia]. rewrite Gd in SB.
    assert (4 * h2 * (q - 1) < 4 * h2 * c < 4 * h2 * q) as [X Y] by lia.
    apply Z.mul_lt_mono_pos_l in X, Y; lia. }
  clearbody S' g h2 q. clear EqS' Pm Pm' P E G G4 G7 Q Gd.
  assert (S' <= 4 * g - 1) by (Z.div_mod_to_equations; lia).
  assert (4 * g - 2 * h2 < S') by (destruct I; Z.div_mod_to_equations; lia).
  split; [destruct I; lia|]. split; [by apply ND|]. clear ND.
  unfold i'. destruct I as [I|I]; rewrite I in *.
  - Z.div_mod_to_equations; lia.
  - assert ((2 * h - 1) / 2 = h - 1) as -> by (symmetry; apply Z.div_unique with 1; lia).
    Z.div_mod_to_equations; lia.
Qed.

(** [T / 2^(k - x)] brought to [k + p + 1] bits with exponent [E], the bits
    below the subnormal range jammed, has the same rounding. *)
Lemma round_mag_normalise p md neg k T x :
  0 <= p -> 2 <= k -> 0 < T -> Z.log2 T <= k + p ->
  let j := k + p - Z.log2 T in
  let S := jam (T * 2 ^ j) (0 `max` (j - x)) in
  ulp_exponent p T (k - x) = 0 `max` (x - j) ∧
  round_div md neg T (k - x + (0 `max` (x - j))) = round_div md neg S k.
Proof.
  intros Hp Hk HT HL j S. unfold S. split; [unfold ulp_exponent; lia|].
  assert (0 < 2 ^ j) by (apply Z.pow_pos_nonneg; lia).
  rewrite round_div_jam by lia.
  rewrite <- (round_div_scale md neg T _ j) by lia. f_equal. lia.
Qed.

Lemma jam_0 n : jam n 0 = n.
Proof. unfold jam. by rewrite Z.mod_1_r, Z.div_1_r. Qed.

Lemma jam_range n j w : 0 <= j -> 0 <= n < 2 ^ (w + j) -> 0 < w -> 0 <= jam n j < 2 ^ w.
Proof.
  intros Hj Hn Hw. assert (0 < 2 ^ j) by (apply Z.pow_pos_nonneg; lia).
  rewrite Z.pow_add_r in Hn by lia.
  assert (0 <= n / 2 ^ j < 2 ^ w) by (split; [apply Z.div_pos|apply Z.div_lt_upper_bound]; lia).
  unfold jam. destruct (n mod 2 ^ j =? 0); [done|]. rewrite lor_1.
  assert (E : 2 ^ w = 2 * 2 ^ (w - 1)) by (rewrite <- Z.pow_succ_r by lia; f_equal; lia).
  Z.div_mod_to_equations. lia.
Qed.

Lemma jam_pos n j : 0 < n -> 0 <= j -> 0 < jam n j.
Proof.
  intros Hn Hj. assert (0 < 2 ^ j) by (apply Z.pow_pos_nonneg; lia).
  unfold jam. pose proof (Z.div_mod n (2 ^ j) ltac:(lia)).
  pose proof (Z.div_pos n (2 ^ j)). destruct (Z.eqb_spec (n mod 2 ^ j) 0); [nia|].
  rewrite lor_1. Z.div_mod_to_equations. lia.
Qed.

(** A jammed significand is exact when the original is. *)
Lemma jam_mod n j k : 0 <= n -> 0 <= j -> 1 <= k ->
  jam n j mod 2 ^ k = 0 <-> n mod 2 ^ (j + k) = 0.
Proof.
  intros Hn Hj Hk. assert (0 < 2 ^ j) by (apply Z.pow_pos_nonneg; lia).
  assert (K : 2 ^ k = 2 * 2 ^ (k - 1)) by (rewrite <- Z.pow_succ_r by lia; f_equal; lia).
  assert (0 < 2 ^ (k - 1)) by (apply Z.pow_pos_nonneg; lia).
  rewrite Z.pow_add_r by lia. rewrite Z.rem_mul_r by lia.
  pose proof (Z.mod_pos_bound n (2 ^ j) ltac:(lia)).
  pose proof (Z.mod_pos_bound (n / 2 ^ j) (2 ^ k) ltac:(lia)).
  unfold jam. destruct (Z.eqb_spec (n mod 2 ^ j) 0) as [->|]; [nia|].
  split; [|nia]. rewrite lor_1. intros M. apply Z.mod_divide in M as [c M]; [|lia].
  rewrite K in M. lia.
Qed.

(** The increment algorithm: from exponent [e] and significand [n] to the
    packed magnitude. *)
Definition inc_round (k p emax : Z) (md : rounding) (neg : bool) (e n : Z) : Z :=
  let i := round_incr md neg k n in
  let '(e, n, i) :=
    if 2 ^ (k + p + 1) <=? n + i then (e + 1, Z.lor (n / 2) (n mod 2), i / 2)
    else (e, n, i) in
  if emax - 1 <=? e then if i =? 0 then emax * 2 ^ p - 1 else emax * 2 ^ p
  else e * 2 ^ p + (n + i) / 2 ^ k.

Lemma inc_round_correct k p emax md neg e S :
  2 <= k -> 0 <= p -> 1 < emax -> 0 <= e ->
  0 <= S < 2 ^ (k + p + 1) -> 2 ^ (k + p) <= S ∨ e = 0 ->
  inc_round k p emax md neg e S =
    let P := e * 2 ^ p + round_div md neg S k in
    if emax * 2 ^ p <=? P then overflow_mag p emax md neg else P.
Proof.
  intros Hk Hp Hem He HS Hn. unfold inc_round. cbv zeta.
  assert (Pp : 0 < 2 ^ p) by (apply Z.pow_pos_nonneg; lia).
  assert (Pk : 0 < 2 ^ k) by (apply Z.pow_pos_nonneg; lia).
  assert (P2 : 2 ^ (k + p + 1) = 2 ^ k * (2 * 2 ^ p))
    by (rewrite <- Z.pow_succ_r, <- Z.pow_add_r by lia; f_equal; lia).
  assert (P3 : 2 ^ (k + p) = 2 ^ k * 2 ^ p) by (apply Z.pow_add_r; lia).
  pose proof (round_incr_bounds md neg k S Hk) as B.
  pose proof (round_incr_div md neg k S Hk ltac:(lia)) as D.
  destruct (round_incr_half k Hk) as [Eh ?].
  assert (Ov : overflow_mag p emax md neg =
               if round_incr md neg k S =? 0 then emax * 2 ^ p - 1 else emax * 2 ^ p).
  { unfold overflow_mag, round_incr. destruct md, neg; cbn [rounds_away negb];
      zcases; try done; try lia; destruct (Z.even (S / 2 ^ k)); lia. }
  rewrite Ov. destruct (Z.leb_spec (2 ^ (k + p + 1)) (S + round_incr md neg k S)) as [W|W].
  - pose proof (round_incr_wrap md neg k (p + 1) S Hk ltac:(lia)) as R.
    replace (k + (p + 1)) with (k + p + 1) in R by lia.
    destruct (R HS W) as (R1 & _ & _ & R4 & R5). rewrite R1.
    replace (k + p + 1 - 1) with (k + p) in R5 by lia. rewrite P3 in R5.
    destruct (Z.eqb_spec (round_incr md neg k S / 2) 0); [lia|].
    destruct (Z.eqb_spec (round_incr md neg k S) 0) as [Z0|]; [rewrite Z0 in *; done|].
    assert ((Z.lor (S / 2) (S mod 2) + round_incr md neg k S / 2) / 2 ^ k = 2 ^ p) as ->.
    { symmetry. apply Z.div_unique with
        (Z.lor (S / 2) (S mod 2) + round_incr md neg k S / 2 - 2 ^ k * 2 ^ p); lia. }
    replace (p + 1) with (Z.succ p) by lia. rewrite Z.pow_succ_r by lia. zcases; nia.
  - rewrite D.
    assert (round_div md neg S k < 2 * 2 ^ p) by (rewrite <- D; apply Z.div_lt_upper_bound; lia).
    assert (0 <= round_div md neg S k) by (rewrite <- D; apply Z.div_pos; lia).
    assert (2 ^ p <= round_div md neg S k ∨ e = 0)
      by (destruct Hn; [left; rewrite <- D; apply Z.div_le_lower_bound; lia|tauto]).
    destruct (Z.leb_spec (emax - 1) e), (Z.leb_spec (emax * 2 ^ p) (e * 2 ^ p + round_div md neg S k)); nia.
Qed.

(** Normalising, jamming and rounding by the increment algorithm is correct
    rounding. *)
Lemma inc_round_mag k p emax md neg T x :
  0 <= p -> 2 <= k -> 1 < emax -> 0 < T -> Z.log2 T <= k + p ->
  let j := k + p - Z.log2 T in
  inc_round k p emax md neg (0 `max` (x - j)) (jam (T * 2 ^ j) (0 `max` (j - x)))
  = round_mag p emax md neg T (k - x).
Proof.
  intros Hp Hk Hem HT HL j. pose proof (Z.log2_spec T HT) as [L1 L2].
  assert (Pj : 0 < 2 ^ j) by (apply Z.pow_pos_nonneg; lia).
  assert (NB : 2 ^ (k + p) <= T * 2 ^ j < 2 ^ (k + p + 1)).
  { replace (k + p) with (Z.log2 T + j) by lia.
    rewrite (Z.pow_add_r 2 (Z.log2 T + j)), Z.pow_add_r by (pose proof (Z.log2_nonneg T); lia).
    rewrite Z.pow_succ_r in L2 by apply Z.log2_nonneg. nia. }
  rewrite inc_round_correct; try lia.
  - destruct (round_mag_normalise p md neg k T x Hp Hk HT HL) as [E1 E2].
    unfold round_mag. rewrite E1. by rewrite E2.
  - apply jam_range; [lia| |lia]. split; [lia|].
    apply Z.lt_le_trans with (1 := proj2 NB). apply Z.pow_le_mono_r; lia.
  - destruct (Z.le_gt_cases j x); [left|right; lia].
    rewrite Z.max_l, jam_0 by lia. lia.
Qed.

(** The overflow test of the increment algorithm looks at the exponent alone. *)
Lemma inc_round_overflow k p emax md neg e n :
  2 <= k -> 0 <= p -> 0 <= e ->
  0 <= n < 2 ^ (k + p + 1) -> 2 ^ (k + p) <= n ∨ e = 0 -> 1 < emax ->
  (emax - 1 <=? (if 2 ^ (k + p + 1) <=? n + round_incr md neg k n then e + 1 else e))
  = (emax * 2 ^ p <=? e * 2 ^ p + round_div md neg n k).
Proof.
  intros Hk Hp He Hn Hm Hem.
  assert (Pp : 0 < 2 ^ p) by (apply Z.pow_pos_nonneg; lia).
  assert (Pk : 0 < 2 ^ k) by (apply Z.pow_pos_nonneg; lia).
  assert (P2 : 2 ^ (k + p + 1) = 2 ^ k * (2 * 2 ^ p))
    by (rewrite <- Z.pow_succ_r, <- Z.pow_add_r by lia; f_equal; lia).
  assert (P3 : 2 ^ (k + p) = 2 ^ k * 2 ^ p) by (apply Z.pow_add_r; lia).
  pose proof (round_incr_div md neg k n Hk ltac:(lia)) as D.
  destruct (Z.leb_spec (2 ^ (k + p + 1)) (n + round_incr md neg k n)) as [W|W].
  - pose proof (round_incr_wrap md neg k (p + 1) n Hk ltac:(lia)) as R.
    replace (k + (p + 1)) with (k + p + 1) in R by lia. destruct (R Hn W) as (-> & _).
    replace (p + 1) with (Z.succ p) by lia. rewrite Z.pow_succ_r by lia. zcases; nia.
  - assert (round_div md neg n k < 2 * 2 ^ p) by (rewrite <- D; apply Z.div_lt_upper_bound; lia).
    pose proof (round_incr_bounds md neg k n Hk).
    assert (0 <= round_div md neg n k) by (rewrite <- D; apply Z.div_pos; lia).
    assert (2 ^ p <= round_div md neg n k ∨ e = 0)
      by (destruct Hm; [left; rewrite <- D; apply Z.div_le_lower_bound; lia|tauto]).
    zcases; nia.
Qed.

(** Whether rounding the magnitude [T / 2^s] discards a set bit. *)
Definition inexact_mag (p T s : Z) : bool :=
  let k := s + ulp_exponent p T s in
  (0 <? k) && negb (T mod 2 ^ k =? 0).

(** Whether it overflows. *)
Definition overflows_mag (p emax : Z) (md : rounding) (neg : bool) (T s : Z) : bool :=
  let e := ulp_exponent p T s in
  emax * 2 ^ p <=? e * 2 ^ p + round_div md neg T (s + e).

Lemma inexact_normalise p k T x :
  0 <= p -> 2 <= k -> 0 < T -> Z.log2 T <= k + p ->
  let j := k + p - Z.log2 T in
  inexact_mag p T (k - x) = negb (jam (T * 2 ^ j) (0 `max` (j - x)) mod 2 ^ k =? 0).
Proof.
  intros Hp Hk HT HL j. unfold inexact_mag.
  assert (Pj : 0 < 2 ^ j) by (apply Z.pow_pos_nonneg; lia).
  replace (k - x + ulp_exponent p T (k - x)) with (k + (0 `max` (j - x)) - j)
    by (unfold ulp_exponent; lia).
  set (m := 0 `max` (j - x)).
  pose proof (jam_mod (T * 2 ^ j) m k ltac:(lia) ltac:(lia) ltac:(lia)) as JM.
  assert (E : T * 2 ^ j mod 2 ^ (m + k) = 0 <-> (0 <? k + m - j) = false ∨ T mod 2 ^ (k + m - j) = 0).
  { destruct (Z.ltb_spec 0 (k + m - j)).
    - replace (m + k) with (k + m - j + j) by lia. rewrite Z.pow_add_r by lia.
      rewrite Z.mul_mod_distr_r by (try apply Z.pow_nonzero; lia).
      split; [right; nia|]. intros [?| ->]; [done|lia].
    - split; [by left|]. intros _. replace j with (j - (m + k) + (m + k)) by lia.
      rewrite Z.pow_add_r, Z.mul_assoc by lia. apply Z.mod_mul, Z.pow_nonzero; lia. }
  rewrite <- JM in E. clear JM.
  destruct (Z.eqb_spec (jam (T * 2 ^ j) m mod 2 ^ k) 0) as [J|J]; simpl.
  - apply E in J as [-> | ->]; [done|apply andb_false_r].
  - destruct (0 <? k + m - j); [|tauto]. destruct (Z.eqb_spec (T mod 2 ^ (k + m - j)) 0); tauto.
Qed.

(** * Magnitudes with the same rounding *)

(** [T / 2^s] and [T' / 2^s'] cannot be told apart by rounding to [p] bits. *)
Definition same_mag (p T s T' s' : Z) : Prop :=
  Z.log2 T - s = Z.log2 T' - s' ∧
  inexact_mag p T s = inexact_mag p T' s' ∧
  ∀ md neg, let e := ulp_exponent p T s in
    round_div md neg T (s + e) = round_div md neg T' (s' + e).

Lemma same_mag_ulp p T s T' s' :
  same_mag p T s T' s' -> ulp_exponent p T s = ulp_exponent p T' s'.
Proof. intros [E _]. unfold ulp_exponent. by rewrite E. Qed.

Lemma same_mag_trans p T1 s1 T2 s2 T3 s3 :
  same_mag p T1 s1 T2 s2 -> same_mag p T2 s2 T3 s3 -> same_mag p T1 s1 T3 s3.
Proof.
  intros H12 H23. pose proof (same_mag_ulp _ _ _ _ _ H12) as U.
  destruct H12 as (L & X & R), H23 as (L' & X' & R'). split_and!; [lia|congruence|].
  intros md neg e. unfold e. rewrite R, U. apply R'.
Qed.

Lemma same_mag_sym p T1 s1 T2 s2 : same_mag p T1 s1 T2 s2 -> same_mag p T2 s2 T1 s1.
Proof.
  intros H. pose proof (same_mag_ulp _ _ _ _ _ H) as U. destruct H as (L & X & R).
  split_and!; [lia|congruence|]. intros md neg e. unfold e. rewrite <- U. symmetry. apply R.
Qed.

Lemma same_mag_round p emax md neg T s T' s' :
  same_mag p T s T' s' ->
  round_mag p emax md neg T s = round_mag p emax md neg T' s' ∧
  overflows_mag p emax md neg T s = overflows_mag p emax md neg T' s'.
Proof.
  intros H. pose proof (same_mag_ulp _ _ _ _ _ H) as U. destruct H as (L & X & R).
  unfold round_mag, overflows_mag. by rewrite <- U, R.
Qed.

Lemma same_mag_scale p T s j : 0 < T -> 0 <= j -> same_mag p (T * 2 ^ j) (s + j) T s.
Proof.
  intros HT Hj. assert (Pj : 0 < 2 ^ j) by (apply Z.pow_pos_nonneg; lia).
  assert (L : Z.log2 (T * 2 ^ j) = Z.log2 T + j) by (rewrite Z.log2_mul_pow2; lia).
  assert (U : ulp_exponent p (T * 2 ^ j) (s + j) = ulp_exponent p T s)
    by (unfold ulp_exponent; rewrite L; do 2 f_equal; lia).
  split_and!; [lia| |].
  - unfold inexact_mag. rewrite U. set (k := s + ulp_exponent p T s).
    replace (s + j + ulp_exponent p T s) with (k + j) by lia.
    destruct (Z.ltb_spec 0 k).
    + rewrite Z.pow_add_r, Z.mul_mod_distr_r by (try apply Z.pow_nonzero; lia).
      destruct (Z.ltb_spec 0 (k + j)); [|lia]. f_equal. zcases; try done; nia.
    + destruct (Z.ltb_spec 0 (k + j)); [|done]. simpl.
      replace j with (- k + (k + j)) at 1 by lia.
      rewrite Z.pow_add_r, Z.mul_assoc, Z.mod_mul by (try apply Z.pow_nonzero; lia). done.
  - intros md neg. rewrite U. cbv zeta.
    replace (s + j + ulp_exponent p T s) with (s + ulp_exponent p T s + j) by lia.
    by apply round_div_scale.
Qed.

Lemma log2_jam T j : 0 <= j -> 2 ^ j <= T -> Z.log2 (jam T j) = Z.log2 T - j.
Proof.
  intros Hj HT. assert (Pj : 0 < 2 ^ j) by (apply Z.pow_pos_nonneg; lia).
  assert (j <= Z.log2 T) by (apply Z.log2_le_pow2; lia).
  assert (1 <= T / 2 ^ j) by (apply Z.div_le_lower_bound; lia).
  assert (E : Z.log2 (T / 2 ^ j) = Z.log2 T - j)
    by (rewrite <- Z.shiftr_div_pow2, Z.log2_shiftr by lia; lia).
  unfold jam. destruct (T mod 2 ^ j =? 0); [done|].
  rewrite Z.log2_lor by lia. rewrite E, Z.log2_1. lia.
Qed.

(** A sticky bit far enough below the mantissa is as good as all the bits it
    stands for. *)
Lemma same_mag_jam p T s j :
  0 < T -> 0 <= j -> 0 <= p -> T mod 2 ^ j = 0 ∨ 2 ^ (p + 2) <= T / 2 ^ j ->
  same_mag p (jam T j) (s - j) T s.
Proof.
  intros HT Hj Hp [E|Hb].
  - assert (T = jam T j * 2 ^ j) as ET.
    { unfold jam. rewrite E. simpl. pose proof (Z.div_mod T (2 ^ j)). assert (2 ^ j ≠ 0) by (apply Z.pow_nonzero; lia). lia. }
    rewrite ET at 2. replace s with (s - j + j) at 2 by lia.
    apply same_mag_sym, same_mag_scale; [by apply jam_pos|done].
  - assert (Pj : 0 < 2 ^ j) by (apply Z.pow_pos_nonneg; lia).
    assert (Pp : 0 < 2 ^ (p + 2)) by (apply Z.pow_pos_nonneg; lia).
    assert (HT2 : 2 ^ (p + 2 + j) <= T).
    { rewrite Z.pow_add_r by lia. pose proof (Z.mul_div_le T (2 ^ j) ltac:(lia)). nia. }
    assert (LT : p + 2 + j <= Z.log2 T) by (apply Z.log2_le_pow2; lia).
    assert (L : Z.log2 (jam T j) = Z.log2 T - j).
    { apply log2_jam; [done|]. transitivity (2 ^ (p + 2 + j)); [apply Z.pow_le_mono_r; lia|done]. }
    assert (U : ulp_exponent p (jam T j) (s - j) = ulp_exponent p T s)
      by (unfold ulp_exponent; rewrite L; do 2 f_equal; lia).
    assert (2 <= s - j + ulp_exponent p T s) by (unfold ulp_exponent; lia).
    split_and!; [lia| |].
    + unfold inexact_mag. rewrite U.
      destruct (Z.ltb_spec 0 (s - j + ulp_exponent p T s)); [|lia].
      destruct (Z.ltb_spec 0 (s + ulp_exponent p T s)); [|lia]. simpl. f_equal.
      pose proof (jam_mod T j (s - j + ulp_exponent p T s) ltac:(lia) ltac:(lia) ltac:(lia)) as J.
      replace (j + (s - j + ulp_exponent p T s)) with (s + ulp_exponent p T s) in J by lia.
      zcases; tauto.
    + intros md neg. rewrite U. cbv zeta. rewrite round_div_jam by lia. f_equal. lia.
Qed.
