(* ===== verification/VfpHelper.v ===== *)
(** VFP constants, unpacked operands and the integer helpers of the soft-float
    library: [asm_vfp.h] (the FPSCR bits) and [vfp_helper.h] (jamming shifts,
    128-bit arithmetic, packing and unpacking, [fls]).

    A comment [src: <file>] before a definition names the place
    of the C or C++ file it translates.  The output parameters of the C
    functions are the components of the returned tuple. *)

From S2P Require Import Prelude.

(** * FPSCR layout ([asm_vfp.h]) *)

(* src: asm_vfp.h *)
Definition FPSCR_NFLAG : Z := 1 ≪ 31.
(* src: asm_vfp.h *)
Definition FPSCR_ZFLAG : Z := 1 ≪ 30.
(* src: asm_vfp.h *)
Definition FPSCR_CFLAG : Z := 1 ≪ 29.
(* src: asm_vfp.h *)
Definition FPSCR_VFLAG : Z := 1 ≪ 28.
(* src: asm_vfp.h *)
Definition FPSCR_DEFAULT_NAN : Z := 1 ≪ 25.
(* src: asm_vfp.h *)
Definition FPSCR_FLUSH_TO_ZERO : Z := 1 ≪ 24.
(* src: asm_vfp.h *)
Definition FPSCR_RMODE_MASK : Z := 3 ≪ 22.
(* src: asm_vfp.h *)
Definition FPSCR_STRIDE_MASK : Z := 3 ≪ 20.
(* src: asm_vfp.h *)
Definition FPSCR_LENGTH_MASK : Z := 7 ≪ 16.
(* src: asm_vfp.h *)
Definition FPSCR_IDC : Z := 1 ≪ 7.
(* src: asm_vfp.h *)
Definition FPSCR_IXC : Z := 1 ≪ 4.
(* src: asm_vfp.h *)
Definition FPSCR_UFC : Z := 1 ≪ 3.
(* src: asm_vfp.h *)
Definition FPSCR_OFC : Z := 1 ≪ 2.
(* src: asm_vfp.h *)
Definition FPSCR_DZC : Z := 1 ≪ 1.
(* src: asm_vfp.h *)
Definition FPSCR_IOC : Z := 1 ≪ 0.
(* src: asm_vfp.h *)
Definition FPSCR_LENGTH_BIT : Z := 16.
(* src: asm_vfp.h *)
Definition FPSCR_ROUND_NEAREST : Z := 0 ≪ 22.
(* src: asm_vfp.h *)
Definition FPSCR_ROUND_PLUSINF : Z := 1 ≪ 22.
(* src: asm_vfp.h *)
Definition FPSCR_ROUND_MINUSINF : Z := 2 ≪ 22.
(* src: asm_vfp.h *)
Definition FPSCR_ROUND_TOZERO : Z := 3 ≪ 22.

(** * Instruction fields ([vfp_helper.h]) *)

(* src: vfp_helper.h *)
Definition FOP_MASK : Z := 0x00b00040.
(* src: vfp_helper.h *)
Definition FOP_EXT : Z := 0x00b00040.

(* src: vfp_helper.h *)
Definition FOP_TO_IDX (inst : Z) : Z :=
  ((inst .& 0x00b00000) ≫ 20) .| ((inst .& (1 ≪ 6)) ≫ 4).

(* src: vfp_helper.h *)
Definition FEXT_TO_IDX (inst : Z) : Z :=
  ((inst .& 0x000f0000) ≫ 15) .| ((inst .& (1 ≪ 7)) ≫ 7).

(* src: vfp_helper.h *)
Definition vfp_get_sd (inst : Z) : Z :=
  ((inst .& 0x0000f000) ≫ 11) .| ((inst .& (1 ≪ 22)) ≫ 22).
(* src: vfp_helper.h *)
Definition vfp_get_dd (inst : Z) : Z :=
  ((inst .& 0x0000f000) ≫ 12) .| ((inst .& (1 ≪ 22)) ≫ 18).
(* src: vfp_helper.h *)
Definition vfp_get_sm (inst : Z) : Z :=
  ((inst .& 0x0000000f) ≪ 1) .| ((inst .& (1 ≪ 5)) ≫ 5).
(* src: vfp_helper.h *)
Definition vfp_get_dm (inst : Z) : Z :=
  (inst .& 0x0000000f) .| ((inst .& (1 ≪ 5)) ≫ 1).
(* src: vfp_helper.h *)
Definition vfp_get_sn (inst : Z) : Z :=
  ((inst .& 0x000f0000) ≫ 15) .| ((inst .& (1 ≪ 7)) ≫ 7).
(* src: vfp_helper.h *)
Definition vfp_get_dn (inst : Z) : Z :=
  ((inst .& 0x000f0000) ≫ 16) .| ((inst .& (1 ≪ 7)) ≫ 3).

(** * Jamming shifts and 128-bit arithmetic *)

(* src: vfp_helper.h *)
Definition vfp_shiftright32jamming (val shift : Z) : Z :=
  if nz shift then
    if shift <? 32 then
      (val ≫ shift) .| Z.b2z (nz (u32 (val ≪ (32 - shift))))
    else Z.b2z (nz val)
  else val.

(* src: vfp_helper.h *)
Definition vfp_shiftright64jamming (val shift : Z) : Z :=
  if nz shift then
    if shift <? 64 then
      (val ≫ shift) .| Z.b2z (nz (u64 (val ≪ (64 - shift))))
    else Z.b2z (nz val)
  else val.

(* src: vfp_helper.h *)
Definition vfp_hi64to32jamming (val : Z) : Z :=
  let highval := u32 (val ≫ 32) in
  let lowval := u32 (val .& 0xffffffff) in
  if 1 <=? lowval then highval .| 1 else highval.

(* src: vfp_helper.h *)
Definition add128 (nh nl mh ml : Z) : Z * Z :=
  let resl := u64 (nl + ml) in
  let resh := u64 (nh + mh) in
  (if resl <? nl then u64 (resh + 1) else resh, resl).

(* src: vfp_helper.h *)
Definition sub128 (nh nl mh ml : Z) : Z * Z :=
  let resl := u64 (nl - ml) in
  let resh := u64 (nh - mh) in
  (if nl <? resl then u64 (resh - 1) else resh, resl).

(* src: vfp_helper.h *)
Definition mul64to128 (n m : Z) : Z * Z :=
  let nl := u32 n in
  let ml := u32 m in
  let rl := u64 (nl * ml) in
  let nh := u32 (n ≫ 32) in
  let rma := u64 (nh * ml) in
  let mh := u32 (m ≫ 32) in
  let rmb := u64 (nl * mh) in
  let rma := u64 (rma + rmb) in
  let rh := u64 (nh * mh) in
  let rh := u64 (rh + u64 (u64 (Z.b2z (rma <? rmb) ≪ 32) + (rma ≫ 32))) in
  let rma := u64 (rma ≪ 32) in
  let rl := u64 (rl + rma) in
  let rh := u64 (rh + Z.b2z (rl <? rma)) in
  (rh, rl).

(* src: vfp_helper.h *)
Definition shift64left (n : Z) : Z * Z := (n ≫ 63, u64 (n ≪ 1)).

(* src: vfp_helper.h *)
Definition vfp_hi64multiply64 (n m : Z) : Z :=
  let '(rh, rl) := mul64to128 n m in
  rh .| Z.b2z (nz rl).

(** The body of the correction loop of [vfp_estimate_div128to64]. *)
(* src: vfp_helper.h | while ((s64)remh < 0) | vfp_estimate_div128to64 *)
Definition div128_adjust (mh ml : Z) (st : Z * Z * Z) : Z * Z * Z + Z * Z * Z :=
  let '(z, remh, reml) := st in
  if s64 remh <? 0 then
    let z := u64 (z - 0x100000000) in
    let '(remh, reml) := add128 remh reml mh ml in
    inl (z, remh, reml)
  else inr (z, remh, reml).

(** C's division by zero is undefined; here it is the error [None].  The
    correction loop is given 2^64 iterations; four are enough for a divisor of
    at least 2^62 ([estimate_div128_correct]). *)
(* src: vfp_helper.h *)
Definition vfp_estimate_div128to64 (nh nl m : Z) : option Z :=
  if m <=? nh then Some (unot 64 0)
  else
    let mh := m ≫ 32 in
    z ← (if u64 (mh ≪ 32) <=? nh then Some 0xffffffff00000000
         else if mh =? 0 then None
         else Some (u64 ((nh / mh) ≪ 32)));
    let '(termh, terml) := mul64to128 m z in
    let '(remh, reml) := sub128 nh nl termh terml in
    let ml := u64 (m ≪ 32) in
    '(z, remh, reml) ← loop_result (loop 64 (div128_adjust mh ml) (z, remh, reml));
    let remh := u64 (remh ≪ 32) .| (reml ≫ 32) in
    if u64 (mh ≪ 32) <=? remh then Some (z .| 0xffffffff)
    else if mh =? 0 then None
    else Some (z .| (remh / mh)).

(* src: vfp_helper.h *)
Definition vfp_sign_negate (sign : Z) : Z := sign .^ 0x8000.

(** * Unpacked operands *)

(* src: vfp_helper.h | struct vfp_single { *)
Record vfp_single := VfpSingle {
  vs_exponent : Z; (* s16 *)
  vs_sign : Z; (* u16 *)
  vs_significand : Z (* u32 *)
}.

(* src: vfp_helper.h *)
Definition VFP_SINGLE_MANTISSA_BITS : Z := 23.
(* src: vfp_helper.h *)
Definition VFP_SINGLE_EXPONENT_BITS : Z := 8.
(* src: vfp_helper.h *)
Definition VFP_SINGLE_LOW_BITS : Z := 32 - VFP_SINGLE_MANTISSA_BITS - 2.
(* src: vfp_helper.h *)
Definition VFP_SINGLE_LOW_BITS_MASK : Z := (1 ≪ VFP_SINGLE_LOW_BITS) - 1.
(* src: vfp_helper.h *)
Definition VFP_SINGLE_SIGNIFICAND_QNAN : Z :=
  1 ≪ (VFP_SINGLE_MANTISSA_BITS - 1 + VFP_SINGLE_LOW_BITS).

(** The packed argument of these macros is an [s32]; the masks are [u32]
    constants, so each result is the unsigned word C computes. *)

(* src: vfp_helper.h *)
Definition vfp_single_packed_sign (v : Z) : Z := u32 v .& 0x80000000.
(* src: vfp_helper.h *)
Definition vfp_single_packed_negate (v : Z) : Z := u32 v .^ 0x80000000.
(* src: vfp_helper.h *)
Definition vfp_single_packed_abs (v : Z) : Z := u32 v .& unot 32 0x80000000.
(* src: vfp_helper.h *)
Definition vfp_single_packed_exponent (v : Z) : Z :=
  (v ≫ VFP_SINGLE_MANTISSA_BITS) .& ((1 ≪ VFP_SINGLE_EXPONENT_BITS) - 1).
(* src: vfp_helper.h *)
Definition vfp_single_packed_mantissa (v : Z) : Z :=
  v .& ((1 ≪ VFP_SINGLE_MANTISSA_BITS) - 1).

(* src: vfp_helper.h *)
Definition VFP_NUMBER : Z := 1 ≪ 0.
(* src: vfp_helper.h *)
Definition VFP_ZERO : Z := 1 ≪ 1.
(* src: vfp_helper.h *)
Definition VFP_DENORMAL : Z := 1 ≪ 2.
(* src: vfp_helper.h *)
Definition VFP_INFINITY : Z := 1 ≪ 3.
(* src: vfp_helper.h *)
Definition VFP_NAN : Z := 1 ≪ 4.
(* src: vfp_helper.h *)
Definition VFP_NAN_SIGNAL : Z := 1 ≪ 5.
(* src: vfp_helper.h *)
Definition VFP_QNAN : Z := VFP_NAN.
(* src: vfp_helper.h *)
Definition VFP_SNAN : Z := VFP_NAN .| VFP_NAN_SIGNAL.

(* src: vfp_helper.h *)
Definition vfp_single_type (s : vfp_single) : Z :=
  if vs_exponent s =? 255 then
    if vs_significand s =? 0 then VFP_INFINITY
    else if nz (vs_significand s .& VFP_SINGLE_SIGNIFICAND_QNAN) then VFP_QNAN
    else VFP_SNAN
  else if vs_exponent s =? 0 then
    if vs_significand s =? 0 then VFP_NUMBER .| VFP_ZERO
    else VFP_NUMBER .| VFP_DENORMAL
  else VFP_NUMBER.

(** Returns the unpacked operand and the exceptions. *)
(* src: vfp_helper.h *)
Definition vfp_single_unpack (val fpscr : Z) : vfp_single * Z :=
  let sign := u16 (vfp_single_packed_sign val ≫ 16) in
  let exponent := vfp_single_packed_exponent val in
  let significand := u32 (u32 val ≪ (32 - VFP_SINGLE_MANTISSA_BITS)) ≫ 2 in
  let significand :=
    if nz exponent && negb (exponent =? 255) then significand .| 0x40000000
    else significand in
  let s := VfpSingle exponent sign significand in
  if nz (fpscr .& FPSCR_FLUSH_TO_ZERO) && nz (vfp_single_type s .& VFP_DENORMAL)
  then (VfpSingle 0 0 0, FPSCR_IDC)
  else (s, 0).

(* src: vfp_helper.h *)
Definition vfp_single_pack (s : vfp_single) : Z :=
  s32 (u32 ((vs_sign s ≪ 16)
            + u32 (vs_exponent s ≪ VFP_SINGLE_MANTISSA_BITS)
            + (vs_significand s ≫ VFP_SINGLE_LOW_BITS))).

(* src: vfp_helper.h *)
Record vfp_double := VfpDouble {
  vd_exponent : Z; (* s16 *)
  vd_sign : Z; (* u16 *)
  vd_significand : Z (* u64 *)
}.

(* src: vfp_helper.h *)
Definition VFP_DOUBLE_MANTISSA_BITS : Z := 52.
(* src: vfp_helper.h *)
Definition VFP_DOUBLE_EXPONENT_BITS : Z := 11.
(* src: vfp_helper.h *)
Definition VFP_DOUBLE_LOW_BITS : Z := 64 - VFP_DOUBLE_MANTISSA_BITS - 2.
(* src: vfp_helper.h *)
Definition VFP_DOUBLE_LOW_BITS_MASK : Z := (1 ≪ VFP_DOUBLE_LOW_BITS) - 1.
(* src: vfp_helper.h *)
Definition VFP_DOUBLE_SIGNIFICAND_QNAN : Z :=
  1 ≪ (VFP_DOUBLE_MANTISSA_BITS - 1 + VFP_DOUBLE_LOW_BITS).

(* src: vfp_helper.h *)
Definition vfp_double_packed_sign (v : Z) : Z := u64 v .& (1 ≪ 63).
(* src: vfp_helper.h *)
Definition vfp_double_packed_negate (v : Z) : Z := u64 v .^ (1 ≪ 63).
(* src: vfp_helper.h *)
Definition vfp_double_packed_abs (v : Z) : Z := u64 v .& unot 64 (1 ≪ 63).
(* src: vfp_helper.h *)
Definition vfp_double_packed_exponent (v : Z) : Z :=
  (v ≫ VFP_DOUBLE_MANTISSA_BITS) .& ((1 ≪ VFP_DOUBLE_EXPONENT_BITS) - 1).
(* src: vfp_helper.h *)
Definition vfp_double_packed_mantissa (v : Z) : Z :=
  v .& ((1 ≪ VFP_DOUBLE_MANTISSA_BITS) - 1).

(* src: vfp_helper.h *)
Definition vfp_double_type (s : vfp_double) : Z :=
  if vd_exponent s =? 2047 then
    if vd_significand s =? 0 then VFP_INFINITY
    else if nz (vd_significand s .& VFP_DOUBLE_SIGNIFICAND_QNAN) then VFP_QNAN
    else VFP_SNAN
  else if vd_exponent s =? 0 then
    if vd_significand s =? 0 then VFP_NUMBER .| VFP_ZERO
    else VFP_NUMBER .| VFP_DENORMAL
  else VFP_NUMBER.

(* src: vfp_helper.h *)
Definition vfp_double_unpack (val fpscr : Z) : vfp_double * Z :=
  let sign := u16 (vfp_double_packed_sign val ≫ 48) in
  let exponent := vfp_double_packed_exponent val in
  let significand := u64 (u64 val ≪ (64 - VFP_DOUBLE_MANTISSA_BITS)) ≫ 2 in
  let significand :=
    if nz exponent && negb (exponent =? 2047) then significand .| (1 ≪ 62)
    else significand in
  let s := VfpDouble exponent sign significand in
  if nz (fpscr .& FPSCR_FLUSH_TO_ZERO) && nz (vfp_double_type s .& VFP_DENORMAL)
  then (VfpDouble 0 0 0, FPSCR_IDC)
  else (s, 0).

(* src: vfp_helper.h *)
Definition vfp_double_pack (s : vfp_double) : Z :=
  s64 (u64 (u64 (vd_sign s ≪ 48)
            + u64 (u64 (vd_exponent s) ≪ VFP_DOUBLE_MANTISSA_BITS)
            + (vd_significand s ≫ VFP_DOUBLE_LOW_BITS))).

(* src: vfp_helper.h *)
Definition VFP_NAN_FLAG : Z := 0x100.
(* src: vfp_helper.h *)
Definition VFP_EXCEPTION_ERROR : Z := u32 (-1) .& unot 32 VFP_NAN_FLAG.

(* src: vfp_helper.h | enum : u32 { OP_SCALAR | OP_SCALAR *)
Definition OP_SCALAR : Z := 1 ≪ 0.
(* src: vfp_helper.h | enum : u32 { OP_SCALAR | OP_SD *)
Definition OP_SD : Z := 1 ≪ 1.
(* src: vfp_helper.h | enum : u32 { OP_SCALAR | OP_DD *)
Definition OP_DD : Z := 1 ≪ 1.
(* src: vfp_helper.h | enum : u32 { OP_SCALAR | OP_SM *)
Definition OP_SM : Z := 1 ≪ 2.

(** One step of [fls]: if the bits of [mask] are clear, shift [x] left by [n]
    and take [n] off the running result. *)
(* src: vfp_helper.h | if (!(x & 0xffff0000u)) | fls *)
Definition fls_step (mask n : Z) (xr : Z * Z) : Z * Z :=
  let '(x, r) := xr in
  if nz (x .& mask) then (x, r) else (u32 (x ≪ n), r - n).

(* src: vfp_helper.h *)
Definition fls (x : Z) : Z :=
  if x =? 0 then 0
  else
    let '(_, r) :=
      fls_step 0x80000000 1
        (fls_step 0xc0000000 2
          (fls_step 0xf0000000 4
            (fls_step 0xff000000 8
              (fls_step 0xffff0000 16 (x, 32))))) in
    r.

(** * Properties of the 128-bit arithmetic and of [fls] *)


Lemma add128_correct nh nl mh ml :
  in_range 64 nh -> in_range 64 nl -> in_range 64 mh -> in_range 64 ml ->
  let '(h, l) := add128 nh nl mh ml in
  h * 2 ^ 64 + l = ((nh * 2 ^ 64 + nl) + (mh * 2 ^ 64 + ml)) mod 2 ^ 128
  ∧ in_range 64 h ∧ in_range 64 l.
Proof.
  unfold in_range, add128, uwrap. intros.
  zcases; pow2; Z.div_mod_to_equations; lia.
Qed.

Lemma sub128_correct nh nl mh ml :
  in_range 64 nh -> in_range 64 nl -> in_range 64 mh -> in_range 64 ml ->
  let '(h, l) := sub128 nh nl mh ml in
  h * 2 ^ 64 + l = ((nh * 2 ^ 64 + nl) - (mh * 2 ^ 64 + ml)) mod 2 ^ 128
  ∧ in_range 64 h ∧ in_range 64 l.
Proof.
  unfold in_range, sub128, uwrap. intros.
  zcases; pow2; Z.div_mod_to_equations; lia.
Qed.

Lemma prod32_bound a b : 0 <= a < 2 ^ 32 -> 0 <= b < 2 ^ 32 -> 0 <= a * b <= (2 ^ 32 - 1) * (2 ^ 32 - 1).
Proof. pow2. nia. Qed.

Theorem mul64to128_correct n m :
  in_range 64 n -> in_range 64 m ->
  let '(h, l) := mul64to128 n m in
  h * 2 ^ 64 + l = n * m ∧ in_range 64 h ∧ in_range 64 l.
Proof.
  unfold in_range, mul64to128. intros Hn Hm.
  rewrite !shiftr_div, !shiftl_mul by lia.
  unfold uwrap.
  rewrite (Z.mod_small (n / 2 ^ 32) (2 ^ 32)) by modlia.
  rewrite (Z.mod_small (m / 2 ^ 32) (2 ^ 32)) by modlia.
  pose proof (Z.div_mod n (2 ^ 32) ltac:(lia)) as En.
  pose proof (Z.div_mod m (2 ^ 32) ltac:(lia)) as Em.
  set (nl := n mod 2 ^ 32) in *. set (nh := n / 2 ^ 32) in *.
  set (ml := m mod 2 ^ 32) in *. set (mh := m / 2 ^ 32) in *.
  assert (0 <= nl < 2 ^ 32) by (apply Z.mod_pos_bound; lia).
  assert (0 <= ml < 2 ^ 32) by (apply Z.mod_pos_bound; lia).
  assert (0 <= nh < 2 ^ 32) by (unfold nh; modlia).
  assert (0 <= mh < 2 ^ 32) by (unfold mh; modlia).
  assert (E : n * m = nh * mh * 2 ^ 64 + (nh * ml + nl * mh) * 2 ^ 32 + nl * ml) by (rewrite En, Em; ring).
  pose proof (prod32_bound nl ml). pose proof (prod32_bound nh ml).
  pose proof (prod32_bound nl mh). pose proof (prod32_bound nh mh).
  rewrite E. clearbody nl nh ml mh. clear Hn Hm En Em E n m.
  set (a := nl * ml) in *. set (b := nh * ml) in *. set (c := nl * mh) in *. set (d := nh * mh) in *.
  clearbody a b c d.
  destruct (Z.ltb_spec ((b mod 2 ^ 64 + c mod 2 ^ 64) mod 2 ^ 64) (c mod 2 ^ 64)); simpl Z.b2z; zcases; simpl Z.b2z; pow2; Z.div_mod_to_equations; lia.
Qed.


(** [fls] *)

Lemma land_high_mask x w n :
  0 <= n <= w -> in_range w x ->
  x .& ((2 ^ n - 1) ≪ (w - n)) = 0 <-> x < 2 ^ (w - n).
Proof.
  intros Hn [Hx0 Hx1].
  assert (E : x .& ((2 ^ n - 1) ≪ (w - n)) = (x ≫ (w - n)) ≪ (w - n)).
  { apply Z.bits_inj'. intros i Hi. rewrite Z.land_spec.
    replace (2 ^ n - 1) with (Z.ones n) by (rewrite Z.ones_equiv; lia).
    destruct (Z.lt_ge_cases i (w - n)).
    - rewrite !Z.shiftl_spec_low by lia. apply andb_false_r.
    - rewrite !Z.shiftl_spec_high by lia. rewrite Z.shiftr_spec by lia.
      replace (i - (w - n) + (w - n)) with i by lia.
      destruct (Z.lt_ge_cases i w).
      + rewrite Z.ones_spec_low by lia. apply andb_true_r.
      + rewrite Z.ones_spec_high by lia. rewrite <- (Z.mod_small x (2 ^ w)) by lia.
        by rewrite Z.mod_pow2_bits_high by lia. }
  rewrite E, shiftl_mul, shiftr_div by lia.
  assert (0 < 2 ^ (w - n)) by (apply Z.pow_pos_nonneg; lia).
  split; intros.
  - assert (x / 2 ^ (w - n) = 0) by nia.
    apply Z.div_small_iff in H1; lia.
  - rewrite Z.div_small by lia. lia.
Qed.

Lemma fls_step_spec n x r :
  0 < n <= 16 -> 0 < x < 2 ^ 32 -> 2 ^ (32 - 2 * n) <= x ->
  let '(x', r') := fls_step ((2 ^ n - 1) ≪ (32 - n)) n (x, r) in
  0 < x' < 2 ^ 32 ∧ 2 ^ (32 - n) <= x' ∧ Z.log2 x' + r' = Z.log2 x + r.
Proof.
  intros Hn Hx Hl. unfold fls_step.
  pose proof (land_high_mask x 32 n ltac:(lia) ltac:(unfold in_range; lia)) as M.
  destruct (nz (x .& ((2 ^ n - 1) ≪ (32 - n)))) eqn:E.
  - apply nz_spec in E. split; [lia|]. split; [|lia].
    destruct (Z.lt_ge_cases x (2 ^ (32 - n))); [|done]. tauto.
  - apply nz_false, M in E.
    assert (P : 2 ^ (32 - n) * 2 ^ n = 2 ^ 32) by (rewrite <- Z.pow_add_r by lia; f_equal; lia).
    assert (P2 : 2 ^ (32 - 2 * n) * 2 ^ n = 2 ^ (32 - n)) by (rewrite <- Z.pow_add_r by lia; f_equal; lia).
    assert (0 < 2 ^ n) by (apply Z.pow_pos_nonneg; lia).
    rewrite (uwrap_id 32 (x ≪ n)) by (unfold in_range; rewrite shiftl_mul by lia; nia).
    rewrite Z.log2_shiftl by lia. rewrite shiftl_mul by lia.
    split; [nia|]. split; [nia|lia].
Qed.

(** [fls] is the position of the most significant bit, counted from one. *)
Lemma fls_spec x : 0 < x < 2 ^ 32 -> fls x = Z.log2 x + 1.
Proof.
  intros Hx. unfold fls. destruct (Z.eqb_spec x 0); [lia|].
  pose proof (fls_step_spec 16 x 32 ltac:(lia) Hx ltac:(simpl; lia)) as H1.
  change ((2 ^ 16 - 1) ≪ (32 - 16)) with 0xffff0000 in H1.
  destruct (fls_step 0xffff0000 16 (x, 32)) as [x1 r1]. destruct H1 as (B1 & L1 & S1).
  pose proof (fls_step_spec 8 x1 r1 ltac:(lia) B1 L1) as H2.
  change ((2 ^ 8 - 1) ≪ (32 - 8)) with 0xff000000 in H2.
  destruct (fls_step 0xff000000 8 (x1, r1)) as [x2 r2]. destruct H2 as (B2 & L2 & S2).
  pose proof (fls_step_spec 4 x2 r2 ltac:(lia) B2 L2) as H3.
  change ((2 ^ 4 - 1) ≪ (32 - 4)) with 0xf0000000 in H3.
  destruct (fls_step 0xf0000000 4 (x2, r2)) as [x3 r3]. destruct H3 as (B3 & L3 & S3).
  pose proof (fls_step_spec 2 x3 r3 ltac:(lia) B3 L3) as H4.
  change ((2 ^ 2 - 1) ≪ (32 - 2)) with 0xc0000000 in H4.
  destruct (fls_step 0xc0000000 2 (x3, r3)) as [x4 r4]. destruct H4 as (B4 & L4 & S4).
  pose proof (fls_step_spec 1 x4 r4 ltac:(lia) B4 L4) as H5.
  change ((2 ^ 1 - 1) ≪ (32 - 1)) with 0x80000000 in H5.
  destruct (fls_step 0x80000000 1 (x4, r4)) as [x5 r5]. destruct H5 as (B5 & L5 & S5).
  assert (Z.log2 x5 = 31) by (apply Z.log2_unique; simpl in *; lia). lia.
Qed.
