(* ===== verification/ArmSupp.v ===== *)
(** The arithmetic helpers of the interpreter, [armsupp.cpp] and [armsupp.h],
    and [clz] of [arm_dyncom_interpreter.cpp], with what they compute.

    An out-parameter of type [bool*] is a second component of the result. *)

From S2P Require Import Prelude.

(** * Bit fields and signs *)

(** [BITS] and [BIT] of an unsigned 32-bit operand; the operand of [BITS_s64] is
    a signed 64-bit integer, whose right shift is arithmetic. *)
(* src: armsupp.h *)
Definition BITS (s a b : Z) : Z := u32 (s ≪ (31 - b)) ≫ (31 - b + a).
(* src: armsupp.h | #define BITS | BITS *)
Definition BITS_s64 (s a b : Z) : Z := s64 (s ≪ (63 - b)) ≫ (63 - b + a).
(* src: armsupp.h *)
Definition BIT (s n : Z) : Z := (s ≫ n) .& 1.
(* src: armsupp.h *)
Definition POS (i : Z) : Z := unot 32 i ≫ 31.
(* src: armsupp.h *)
Definition NEG (i : Z) : Z := i ≫ 31.

(** * Additions *)

(* src: armsupp.cpp *)
Definition ARMul_UnsignedAbsoluteDifference (left right : Z) : Z :=
  if left >? right then u8 (left - right) else u8 (right - left).

(** The result, the carry out and the overflow. *)
(* src: armsupp.cpp *)
Definition AddWithCarry (left right carry_in : Z) : Z * bool * bool :=
  let unsigned_sum := u64 (left + right + carry_in) in
  let signed_sum := s64 (s32 left + s32 right + carry_in) in
  let result := unsigned_sum .& 0xFFFFFFFF in
  (u32 result, negb (result =? unsigned_sum), negb (s32 result =? signed_sum)).

(* src: armsupp.cpp *)
Definition AddOverflow (a b result : Z) : bool :=
  (nz (NEG a) && nz (NEG b) && nz (POS result)) || (nz (POS a) && nz (POS b) && nz (NEG result)).

(* src: armsupp.cpp *)
Definition SubOverflow (a b result : Z) : bool :=
  (nz (NEG a) && nz (POS b) && nz (POS result)) || (nz (POS a) && nz (NEG b) && nz (NEG result)).

(* src: armsupp.cpp *)
Definition ARMul_AddOverflowQ (a b : Z) : bool :=
  let result := u32 (a + b) in
  nz ((result .^ a) .& 0x80000000) && ((a .^ b) .& 0x80000000 =? 0).

(** * Saturation *)

(* src: armsupp.cpp *)
Definition ARMul_SignedSaturatedAdd8 (left right : Z) : Z :=
  let result := u8 (left + right) in
  if nz ((result .^ left) .& 0x80) && ((left .^ right) .& 0x80 =? 0)
  then if nz (left .& 0x80) then 0x80 else 0x7F
  else result.

(* src: armsupp.cpp *)
Definition ARMul_SignedSaturatedSub8 (left right : Z) : Z :=
  let result := u8 (left - right) in
  if nz ((result .^ left) .& 0x80) && nz ((left .^ right) .& 0x80)
  then if nz (left .& 0x80) then 0x80 else 0x7F
  else result.

(* src: armsupp.cpp *)
Definition ARMul_SignedSaturatedAdd16 (left right : Z) : Z :=
  let result := u16 (left + right) in
  if nz ((result .^ left) .& 0x8000) && ((left .^ right) .& 0x8000 =? 0)
  then if nz (left .& 0x8000) then 0x8000 else 0x7FFF
  else result.

(* src: armsupp.cpp *)
Definition ARMul_SignedSaturatedSub16 (left right : Z) : Z :=
  let result := u16 (left - right) in
  if nz ((result .^ left) .& 0x8000) && nz ((left .^ right) .& 0x8000)
  then if nz (left .& 0x8000) then 0x8000 else 0x7FFF
  else result.

(* src: armsupp.cpp *)
Definition ARMul_UnsignedSaturatedAdd8 (left right : Z) : Z :=
  let result := u8 (left + right) in if result <? left then 0xFF else result.

(* src: armsupp.cpp *)
Definition ARMul_UnsignedSaturatedAdd16 (left right : Z) : Z :=
  let result := u16 (left + right) in if result <? left then 0xFFFF else result.

(* src: armsupp.cpp *)
Definition ARMul_UnsignedSaturatedSub8 (left right : Z) : Z :=
  if left <=? right then 0 else u8 (left - right).

(* src: armsupp.cpp *)
Definition ARMul_UnsignedSaturatedSub16 (left right : Z) : Z :=
  if left <=? right then 0 else u16 (left - right).

(** [value] is an [s32]; the second component says that saturation occurred. *)
(* src: armsupp.cpp *)
Definition ARMul_SignedSatQ (value shift : Z) : Z * bool :=
  let max := u32 (u32 (1 ≪ shift) - 1) in
  let top := value ≫ shift in
  if top >? 0 then (max, true)
  else if top <? -1 then (unot 32 max, true)
  else (u32 value, false).

(* src: armsupp.cpp *)
Definition ARMul_UnsignedSatQ (value shift : Z) : Z * bool :=
  let max := u32 (u32 (1 ≪ shift) - 1) in
  if value <? 0 then (0, true)
  else if u32 value >? max then (max, true)
  else (u32 value, false).

(** * Count leading zeros *)

(* src: arm_dyncom_interpreter.cpp | static int clz(unsigned int x) { *)
Definition clz (x : Z) : Z :=
  if x =? 0 then 32
  else
    let halve k '(n, x) := if x ≫ (32 - k) =? 0 then (n + k, u32 (x ≪ k)) else (n, x) in
    let '(n, x) := halve 2 (halve 4 (halve 8 (halve 16 (1, x)))) in
    n - (x ≫ 31).

(** * What they compute *)

Definition clamp (lo hi x : Z) : Z := Z.max lo (Z.min hi x).

Lemma BITS_spec s a b : 0 <= a <= b -> b <= 31 -> BITS s a b = (s ≫ a) mod 2 ^ (b - a + 1).
Proof.
  intros Ha Hb. unfold BITS, uwrap. apply Z.bits_inj'. intros i Hi.
  rewrite Z.shiftr_spec by lia. rewrite !Z.testbit_mod_pow2 by lia.
  rewrite Z.shiftl_spec, Z.shiftr_spec by lia.
  replace (i + (31 - b + a) - (31 - b)) with (i + a) by lia. f_equal.
  zcases; lia.
Qed.

Lemma BITS_range s a b : 0 <= a <= b -> b <= 31 -> 0 <= BITS s a b < 2 ^ (b - a + 1).
Proof. intros. rewrite BITS_spec by lia. apply Z.mod_pos_bound, Z.pow_pos_nonneg; lia. Qed.

Lemma BIT_spec s n : 0 <= n -> BIT s n = Z.b2z (Z.testbit s n).
Proof.
  intros. unfold BIT. change 1 with (2 ^ 1 - 1). rewrite land_mask by lia.
  rewrite Z.testbit_spec' by lia. by rewrite shiftr_div by lia.
Qed.

Lemma BIT_range s n : 0 <= BIT s n < 2.
Proof. unfold BIT. change 1 with (2 ^ 1 - 1). rewrite land_mask by lia. apply Z.mod_pos_bound. lia. Qed.

(** The sign bit of a word of [w] bits. *)
Lemma sign_bit w x : 0 < w -> in_range w x -> Z.testbit x (w - 1) = (2 ^ (w - 1) <=? x).
Proof.
  intros Hw [H0 H1]. apply eq_true_iff_eq. rewrite Z.leb_le.
  assert (E : 2 ^ w = 2 * 2 ^ (w - 1)) by (rewrite <- Z.pow_succ_r by lia; f_equal; lia).
  rewrite Z.testbit_true by lia.
  assert (P : 0 < 2 ^ (w - 1)) by (apply Z.pow_pos_nonneg; lia).
  assert (Q : 0 <= x / 2 ^ (w - 1) < 2)
    by (split; [apply Z.div_pos; lia | apply Z.div_lt_upper_bound; lia]).
  rewrite Z.mod_small by done. split; intros B.
  - rewrite <- (Z.mul_div_le x (2 ^ (w - 1))) by lia. rewrite B. lia.
  - assert (1 <= x / 2 ^ (w - 1)) by (apply Z.div_le_lower_bound; lia). lia.
Qed.

Lemma nz_land_bit x k : 0 <= k -> nz (x .& 2 ^ k) = Z.testbit x k.
Proof.
  intros. unfold nz. rewrite <- (Z.mul_1_l (2 ^ k)), <- shiftl_mul, land_bit by done.
  by rewrite Z.negb_even, <- Z.bit0_odd, <- shiftr_div, Z.shiftr_spec, Z.add_0_l by lia.
Qed.

Lemma nz_land_sign w x : 0 < w -> in_range w x -> nz (x .& 2 ^ (w - 1)) = (2 ^ (w - 1) <=? x).
Proof. intros. rewrite nz_land_bit by lia. by apply sign_bit. Qed.

Lemma nz_lxor_sign w x y :
  0 < w -> in_range w x -> in_range w y ->
  nz ((x .^ y) .& 2 ^ (w - 1)) = xorb (2 ^ (w - 1) <=? x) (2 ^ (w - 1) <=? y).
Proof. intros. by rewrite nz_land_bit, Z.lxor_spec, !sign_bit by (lia || done). Qed.

Lemma swrap_sign w x : 0 < w -> in_range w x -> swrap w x = if 2 ^ (w - 1) <=? x then x - 2 ^ w else x.
Proof.
  intros Hw [H0 H1]. unfold swrap.
  assert (E : 2 ^ w = 2 * 2 ^ (w - 1)) by (rewrite <- Z.pow_succ_r by lia; f_equal; lia).
  destruct (Z.leb_spec (2 ^ (w - 1)) x).
  - rewrite <- (Z.mod_unique (x + 2 ^ (w - 1)) (2 ^ w) 1 (x - 2 ^ (w - 1))) by lia. lia.
  - rewrite Z.mod_small by lia. lia.
Qed.

Lemma NEG_spec a : in_range 32 a -> nz (NEG a) = (2 ^ 31 <=? a).
Proof. intros [??]. unfold NEG, nz. rewrite shiftr_div by lia. zcases; modlia. Qed.

Lemma POS_spec a : in_range 32 a -> nz (POS a) = negb (2 ^ 31 <=? a).
Proof.
  intros [??]. unfold POS, unot, uwrap, nz, Z.lnot. rewrite shiftr_div by lia. zcases; modlia.
Qed.

Lemma AddWithCarry_spec l r c :
  in_range 32 l -> in_range 32 r -> 0 <= c <= 1 ->
  AddWithCarry l r c
  = (u32 (l + r + c), bool_decide (2 ^ 32 <= l + r + c), bool_decide (¬ in_srange 32 (s32 l + s32 r + c))).
Proof.
  intros Hl Hr Hc.
  assert (El : in_srange 32 (s32 l)) by (apply swrap_range; lia).
  assert (Er : in_srange 32 (s32 r)) by (apply swrap_range; lia).
  assert (W : s32 (u32 (l + r + c)) = s32 (s32 l + s32 r + c)).
  { rewrite swrap_uwrap by lia. unfold swrap. f_equal. rewrite !Zplus_mod_idemp_l || idtac. modlia. }
  unfold AddWithCarry, in_range, in_srange in *.
  rewrite (uwrap_id 64) by (unfold in_range; pow2; lia).
  rewrite (swrap_id 64) by (unfold in_srange; pow2; lia).
  change 0xFFFFFFFF with (2 ^ 32 - 1). rewrite land_mask by lia. fold (u32 (l + r + c)).
  rewrite uwrap_idemp by lia. f_equal; [f_equal|].
  - unfold uwrap. case_bool_decide; zcases; modlia.
  - rewrite W. case_bool_decide as D.
    + destruct (Z.eqb_spec (s32 (s32 l + s32 r + c)) (s32 l + s32 r + c)) as [F|]; [|done].
      destruct D. rewrite <- F. apply swrap_range. lia.
    + by rewrite swrap_id, Z.eqb_refl by (lia || done).
Qed.

Lemma eqb0_nz x : (x =? 0) = negb (nz x).
Proof. unfold nz. by rewrite negb_involutive. Qed.

Ltac pow_facts w :=
  assert (2 ^ w = 2 * 2 ^ (w - 1)) by (rewrite <- Z.pow_succ_r by lia; f_equal; lia);
  assert (0 < 2 ^ (w - 1)) by (apply Z.pow_pos_nonneg; lia).

Lemma uwrap_add_cases w l r : 0 <= w -> in_range w l -> in_range w r ->
  uwrap w (l + r) = if 2 ^ w <=? l + r then l + r - 2 ^ w else l + r.
Proof.
  intros ? [] []. unfold uwrap. zcases.
  - rewrite <- (Z.mod_unique (l + r) (2 ^ w) 1 (l + r - 2 ^ w)); lia.
  - apply Z.mod_small. lia.
Qed.

Lemma uwrap_sub_cases w l r : 0 <= w -> in_range w l -> in_range w r ->
  uwrap w (l - r) = if l <? r then l - r + 2 ^ w else l - r.
Proof.
  intros ? [] []. unfold uwrap. zcases.
  - rewrite <- (Z.mod_unique (l - r) (2 ^ w) (-1) (l - r + 2 ^ w)); lia.
  - apply Z.mod_small. lia.
Qed.

(** A number in the signed range as a word. *)
Lemma uwrap_signed w x : 0 < w -> in_srange w x -> uwrap w x = if x <? 0 then x + 2 ^ w else x.
Proof.
  intros ? []. pow_facts w. unfold uwrap. zcases.
  - rewrite <- (Z.mod_unique x (2 ^ w) (-1) (x + 2 ^ w)); lia.
  - apply Z.mod_small. lia.
Qed.

Lemma clamp_range w x : 0 < w -> in_srange w (clamp (- 2 ^ (w - 1)) (2 ^ (w - 1) - 1) x).
Proof. intros. pow_facts w. unfold in_srange, clamp. lia. Qed.

(** Case analysis on the signs of the operands of a saturating operation. *)
Ltac sat_cases w :=
  rewrite ?eqb0_nz, ?nz_lxor_sign, ?nz_land_sign, uwrap_signed, !swrap_sign
    by (lia || done || (by apply clamp_range) || (apply uwrap_range; lia));
  pow_facts w; unfold in_range, clamp in *;
  zcases; cbn [andb negb xorb]; lia.

Lemma sat_add w l r : 0 < w -> in_range w l -> in_range w r ->
  (if nz ((uwrap w (l + r) .^ l) .& 2 ^ (w - 1)) && ((l .^ r) .& 2 ^ (w - 1) =? 0)
   then if nz (l .& 2 ^ (w - 1)) then 2 ^ (w - 1) else 2 ^ (w - 1) - 1
   else uwrap w (l + r))
  = uwrap w (clamp (- 2 ^ (w - 1)) (2 ^ (w - 1) - 1) (swrap w l + swrap w r)).
Proof.
  intros Hw Hl Hr. rewrite (uwrap_add_cases w l r) by (lia || done).
  assert (in_range w (if 2 ^ w <=? l + r then l + r - 2 ^ w else l + r))
    by (unfold in_range in *; zcases; lia).
  sat_cases w.
Qed.

Lemma sat_sub w l r : 0 < w -> in_range w l -> in_range w r ->
  (if nz ((uwrap w (l - r) .^ l) .& 2 ^ (w - 1)) && nz ((l .^ r) .& 2 ^ (w - 1))
   then if nz (l .& 2 ^ (w - 1)) then 2 ^ (w - 1) else 2 ^ (w - 1) - 1
   else uwrap w (l - r))
  = uwrap w (clamp (- 2 ^ (w - 1)) (2 ^ (w - 1) - 1) (swrap w l - swrap w r)).
Proof.
  intros Hw Hl Hr. rewrite (uwrap_sub_cases w l r) by (lia || done).
  assert (in_range w (if l <? r then l - r + 2 ^ w else l - r))
    by (unfold in_range in *; zcases; lia).
  sat_cases w.
Qed.

Lemma usat_add w l r : 0 < w -> in_range w l -> in_range w r ->
  (let result := uwrap w (l + r) in if result <? l then 2 ^ w - 1 else result)
  = clamp 0 (2 ^ w - 1) (l + r).
Proof.
  intros Hw Hl Hr. cbv zeta. rewrite uwrap_add_cases by (lia || done).
  unfold in_range, clamp in *. destruct (Z.leb_spec (2 ^ w) (l + r)); zcases; lia.
Qed.

Lemma usat_sub w l r : 0 < w -> in_range w l -> in_range w r ->
  (if l <=? r then 0 else uwrap w (l - r)) = clamp 0 (2 ^ w - 1) (l - r).
Proof.
  intros Hw Hl Hr. rewrite uwrap_sub_cases by (lia || done).
  unfold in_range, clamp in *. zcases; lia.
Qed.

Lemma sat_max shift : 0 <= shift < 32 -> u32 (u32 (1 ≪ shift) - 1) = 2 ^ shift - 1.
Proof.
  intros Hs. rewrite shiftl_mul by lia. rewrite Z.mul_1_l.
  assert (2 ^ shift < 2 ^ 32) by (apply Z.pow_lt_mono_r; lia).
  assert (0 < 2 ^ shift) by (apply Z.pow_pos_nonneg; lia).
  by rewrite !uwrap_id by (unfold in_range; rewrite ?uwrap_id by (unfold in_range; lia); lia).
Qed.

Lemma SignedSatQ_spec v shift : in_srange 32 v -> 0 <= shift < 32 ->
  ARMul_SignedSatQ v shift
  = (u32 (clamp (- 2 ^ shift) (2 ^ shift - 1) v), bool_decide (¬ - 2 ^ shift <= v < 2 ^ shift)).
Proof.
  intros Hv Hs. unfold ARMul_SignedSatQ. rewrite sat_max, shiftr_div by lia.
  assert (P : 0 < 2 ^ shift) by (apply Z.pow_pos_nonneg; lia).
  assert (Q : 2 ^ shift <= 2 ^ 31) by (apply Z.pow_le_mono_r; lia).
  pose proof (Z.div_mod v (2 ^ shift) ltac:(lia)) as D.
  pose proof (Z.mod_pos_bound v (2 ^ shift) P) as B.
  unfold in_srange, clamp in *. unfold unot, Z.lnot.
  rewrite Z.gtb_ltb. destruct (Z.ltb_spec 0 (v / 2 ^ shift)); [|destruct (Z.ltb_spec (v / 2 ^ shift) (-1))].
  - assert (2 ^ shift <= v) by nia. rewrite bool_decide_eq_true_2 by lia.
    f_equal. rewrite uwrap_id by (unfold in_range; pow2; lia). lia.
  - assert (v < - 2 ^ shift) by nia. rewrite bool_decide_eq_true_2 by lia. f_equal. f_equal. lia.
  - assert (- 2 ^ shift <= v < 2 ^ shift) by nia. rewrite bool_decide_eq_false_2 by lia. f_equal. f_equal. lia.
Qed.

Lemma UnsignedSatQ_spec v shift : in_srange 32 v -> 0 <= shift < 32 ->
  ARMul_UnsignedSatQ v shift
  = (clamp 0 (2 ^ shift - 1) v, bool_decide (¬ 0 <= v < 2 ^ shift)).
Proof.
  intros Hv Hs. unfold ARMul_UnsignedSatQ. rewrite sat_max by lia.
  assert (P : 0 < 2 ^ shift) by (apply Z.pow_pos_nonneg; lia).
  unfold in_srange, clamp in *. destruct (Z.ltb_spec v 0).
  - rewrite bool_decide_eq_true_2 by lia. f_equal. lia.
  - rewrite uwrap_id by (unfold in_range; pow2; lia). rewrite Z.gtb_ltb.
    case_bool_decide; zcases; try lia; f_equal; lia.
Qed.

(** The saturating helpers of the media instructions clamp the exact
    result to the range of the type: signed and unsigned additions and
    subtractions of bytes and halfwords, and [SSAT]/[USAT] to any width, whose
    saturation flag is set exactly when the value was out of range. *)
Theorem saturation_correct :
  (∀ l r, in_range 8 l -> in_range 8 r ->
     ARMul_SignedSaturatedAdd8 l r = u8 (clamp (-128) 127 (s8 l + s8 r)) ∧
     ARMul_SignedSaturatedSub8 l r = u8 (clamp (-128) 127 (s8 l - s8 r)) ∧
     ARMul_UnsignedSaturatedAdd8 l r = clamp 0 255 (l + r) ∧
     ARMul_UnsignedSaturatedSub8 l r = clamp 0 255 (l - r) ∧
     ARMul_UnsignedAbsoluteDifference l r = Z.abs (l - r)) ∧
  (∀ l r, in_range 16 l -> in_range 16 r ->
     ARMul_SignedSaturatedAdd16 l r = u16 (clamp (-32768) 32767 (s16 l + s16 r)) ∧
     ARMul_SignedSaturatedSub16 l r = u16 (clamp (-32768) 32767 (s16 l - s16 r)) ∧
     ARMul_UnsignedSaturatedAdd16 l r = clamp 0 65535 (l + r) ∧
     ARMul_UnsignedSaturatedSub16 l r = clamp 0 65535 (l - r)) ∧
  (∀ v shift, in_srange 32 v -> 0 <= shift < 32 ->
     ARMul_SignedSatQ v shift
     = (u32 (clamp (- 2 ^ shift) (2 ^ shift - 1) v), bool_decide (¬ - 2 ^ shift <= v < 2 ^ shift)) ∧
     ARMul_UnsignedSatQ v shift = (clamp 0 (2 ^ shift - 1) v, bool_decide (¬ 0 <= v < 2 ^ shift))).
Proof.
  split_and!; intros; split_and!.
  - by apply (sat_add 8).
  - by apply (sat_sub 8).
  - by apply (usat_add 8).
  - by apply (usat_sub 8).
  - unfold ARMul_UnsignedAbsoluteDifference, in_range in *. rewrite Z.gtb_ltb.
    zcases; rewrite uwrap_id by (unfold in_range; lia); lia.
  - by apply (sat_add 16).
  - by apply (sat_sub 16).
  - by apply (usat_add 16).
  - by apply (usat_sub 16).
  - by apply SignedSatQ_spec.
  - by apply UnsignedSatQ_spec.
Qed.

Lemma saturation_correct_witness :
  ARMul_SignedSaturatedAdd8 100 100 = 127 ∧ ARMul_SignedSaturatedSub16 0x8000 1 = 0x8000 ∧
  ARMul_SignedSatQ (-300) 7 = (u32 (-128), true).
Proof.
  destruct saturation_correct as (H8 & H16 & Hq). split_and!.
  - by destruct (H8 100 100) as [-> _]; [by_decide..|].
  - by destruct (H16 0x8000 1) as (_ & -> & _); [by_decide..|].
  - by destruct (Hq (-300) 7) as [-> _]; [by_decide|lia|].
Defined.

(** ** Leading zeros *)

Lemma clz_halve k n x c :
  0 < k < 32 -> 0 < x < 2 ^ 32 -> 2 ^ (32 - 2 * k) <= x -> n + (31 - Z.log2 x) = c ->
  let '(n', x') := if x ≫ (32 - k) =? 0 then (n + k, u32 (x ≪ k)) else (n, x) in
  0 < x' < 2 ^ 32 ∧ 2 ^ (32 - k) <= x' ∧ n' + (31 - Z.log2 x') = c.
Proof.
  intros Hk Hx Hl Hc. rewrite shiftr_div by lia.
  assert (E : 2 ^ 32 = 2 ^ (32 - k) * 2 ^ k) by (rewrite <- Z.pow_add_r by lia; f_equal; lia).
  assert (P : 0 < 2 ^ k) by (apply Z.pow_pos_nonneg; lia).
  assert (Q : 0 < 2 ^ (32 - k)) by (apply Z.pow_pos_nonneg; lia).
  destruct (Z.eqb_spec (x / 2 ^ (32 - k)) 0) as [Z0|N0].
  - assert (x < 2 ^ (32 - k)) by (apply Z.div_small_iff in Z0; lia).
    rewrite shiftl_mul by lia. rewrite uwrap_id by (unfold in_range; nia).
    rewrite Z.log2_mul_pow2 by lia. split; [nia|split; [|lia]].
    destruct (Z.le_gt_cases (2 * k) 32).
    + replace (32 - k) with (32 - 2 * k + k) by lia. rewrite Z.pow_add_r by lia. nia.
    + transitivity (2 ^ k); [apply Z.pow_le_mono_r; lia | nia].
  - split; [lia|split; [|lia]].
    destruct (Z.le_gt_cases (2 ^ (32 - k)) x); [done|]. rewrite Z.div_small in N0; lia.
Qed.

Lemma clz_spec x : in_range 32 x -> clz x = if x =? 0 then 32 else 31 - Z.log2 x.
Proof.
  intros [H0 H1]. unfold clz. destruct (Z.eqb_spec x 0) as [|N]; [done|]. cbn zeta.
  pose proof (clz_halve 16 1 x _ ltac:(lia) ltac:(lia) ltac:(simpl; lia) eq_refl) as A.
  destruct (if x ≫ (32 - 16) =? 0 then _ else _) as [n1 x1]. destruct A as (B1 & C1 & A1).
  pose proof (clz_halve 8 n1 x1 _ ltac:(lia) B1 C1 A1) as A.
  destruct (if x1 ≫ (32 - 8) =? 0 then _ else _) as [n2 x2]. destruct A as (B2 & C2 & A2).
  pose proof (clz_halve 4 n2 x2 _ ltac:(lia) B2 C2 A2) as A.
  destruct (if x2 ≫ (32 - 4) =? 0 then _ else _) as [n3 x3]. destruct A as (B3 & C3 & A3).
  pose proof (clz_halve 2 n3 x3 _ ltac:(lia) B3 C3 A3) as A.
  destruct (if x3 ≫ (32 - 2) =? 0 then _ else _) as [n4 x4]. destruct A as (B4 & C4 & A4).
  change (32 - 2) with 30 in C4. rewrite shiftr_div by lia.
  destruct (Z.le_gt_cases (2 ^ 31) x4).
  - assert (L : Z.log2 x4 = 31) by (apply Z.log2_unique; lia).
    assert (x4 / 2 ^ 31 = 1) by (symmetry; apply Z.div_unique with (x4 - 2 ^ 31); lia). lia.
  - assert (L : Z.log2 x4 = 30) by (apply Z.log2_unique; lia).
    rewrite Z.div_small by lia. lia.
Qed.
