(* ===== verification/ArmState.v ===== *)
(** The ARM11 processor state: [armstate.h], [armstate.cpp] and
    [arm_regformat.h] (register banks, privilege modes, the CP15 registers and
    the local exclusive monitor).

    The memory system, the debugger and the instruction cache the C++ object
    points to are not part of this state.  [std::array] registers are lists of
    the array's length, except CP15, which is a function from the enumerators. *)

From S2P Require Import Prelude.

(** * Enumerations *)

(* src: armstate.h | enum PrivilegeMode { *)
Inductive PrivilegeMode :=
  USER32MODE | FIQ32MODE | IRQ32MODE | SVC32MODE | ABORT32MODE | UNDEF32MODE
| SYSTEM32MODE.

(* src: armstate.h | enum PrivilegeMode { | PrivilegeMode *)
Definition mode_bits (m : PrivilegeMode) : Z :=
  match m with
  | USER32MODE => 16 | FIQ32MODE => 17 | IRQ32MODE => 18 | SVC32MODE => 19
  | ABORT32MODE => 23 | UNDEF32MODE => 27 | SYSTEM32MODE => 31
  end.
Coercion mode_bits : PrivilegeMode >-> Z.
(** The case of a [switch] on a mode; no case has a reserved value. *)
Definition mode_of (n : Z) : option PrivilegeMode :=
  match n with
  | 16 => Some USER32MODE | 17 => Some FIQ32MODE | 18 => Some IRQ32MODE | 19 => Some SVC32MODE
  | 23 => Some ABORT32MODE | 27 => Some UNDEF32MODE | 31 => Some SYSTEM32MODE | _ => None
  end.
Lemma mode_of_bits m : mode_of (mode_bits m) = Some m.
Proof. by destruct m. Qed.

(* src: armstate.h | USERBANK = 0, | USERBANK | ..SYSTEMBANK = 7 *)
Inductive RegisterBank :=
  USERBANK | FIQBANK | IRQBANK | SVCBANK | ABORTBANK | UNDEFBANK | DUMMYBANK
| SYSTEMBANK.

(* src: armstate.h | USERBANK = 0, | USERBANK | ..SYSTEMBANK = 7 *)
Definition bank_index (b : RegisterBank) : nat :=
  match b with
  | USERBANK => 0 | FIQBANK => 1 | IRQBANK => 2 | SVCBANK => 3 | ABORTBANK => 4
  | UNDEFBANK => 5 | DUMMYBANK => 6 | SYSTEMBANK => 7
  end%nat.

#[global] Instance PrivilegeMode_eq_dec : EqDecision PrivilegeMode.
Proof. solve_decision. Defined.
#[global] Instance RegisterBank_eq_dec : EqDecision RegisterBank.
Proof. solve_decision. Defined.

(* src: armstate.h *)
Definition EBIT : Z := 1 ≪ 9.
(* src: armstate.h *)
Definition INTBITS : Z := 0x1C0.
(* src: armstate.h | enum { LOW = 0, HIGH = 1 | HIGH *)
Definition HIGH : Z := 1.
(* src: armstate.h | enum { LOW = 0, HIGH = 1 | LOW *)
Definition LOW : Z := 0.
(* src: armstate.h | RUN = 3 *)
Definition RUN : Z := 3.

(* src: arm_regformat.h | enum CP15Register { *)
Inductive CP15Register :=
  CP15_MAIN_ID | CP15_CACHE_TYPE | CP15_TCM_STATUS | CP15_TLB_TYPE
  | CP15_CPU_ID | CP15_PROCESSOR_FEATURE_0 | CP15_PROCESSOR_FEATURE_1
  | CP15_DEBUG_FEATURE_0 | CP15_AUXILIARY_FEATURE_0
  | CP15_MEMORY_MODEL_FEATURE_0 | CP15_MEMORY_MODEL_FEATURE_1
  | CP15_MEMORY_MODEL_FEATURE_2 | CP15_MEMORY_MODEL_FEATURE_3
  | CP15_ISA_FEATURE_0 | CP15_ISA_FEATURE_1 | CP15_ISA_FEATURE_2
  | CP15_ISA_FEATURE_3 | CP15_ISA_FEATURE_4 | CP15_CONTROL
  | CP15_AUXILIARY_CONTROL | CP15_COPROCESSOR_ACCESS_CONTROL
  | CP15_TRANSLATION_BASE_TABLE_0 | CP15_TRANSLATION_BASE_TABLE_1
  | CP15_TRANSLATION_BASE_CONTROL | CP15_DOMAIN_ACCESS_CONTROL
  | CP15_RESERVED | CP15_FAULT_STATUS | CP15_INSTR_FAULT_STATUS
  | CP15_FAULT_ADDRESS | CP15_WFAR | CP15_IFAR | CP15_WAIT_FOR_INTERRUPT
  | CP15_PHYS_ADDRESS | CP15_INVALIDATE_INSTR_CACHE
  | CP15_INVALIDATE_INSTR_CACHE_USING_MVA
  | CP15_INVALIDATE_INSTR_CACHE_USING_INDEX | CP15_FLUSH_PREFETCH_BUFFER
  | CP15_FLUSH_BRANCH_TARGET_CACHE | CP15_FLUSH_BRANCH_TARGET_CACHE_ENTRY
  | CP15_INVALIDATE_DATA_CACHE | CP15_INVALIDATE_DATA_CACHE_LINE_USING_MVA
  | CP15_INVALIDATE_DATA_CACHE_LINE_USING_INDEX
  | CP15_INVALIDATE_DATA_AND_INSTR_CACHE | CP15_CLEAN_DATA_CACHE
  | CP15_CLEAN_DATA_CACHE_LINE_USING_MVA
  | CP15_CLEAN_DATA_CACHE_LINE_USING_INDEX | CP15_DATA_SYNC_BARRIER
  | CP15_DATA_MEMORY_BARRIER | CP15_CLEAN_AND_INVALIDATE_DATA_CACHE
  | CP15_CLEAN_AND_INVALIDATE_DATA_CACHE_LINE_USING_MVA
  | CP15_CLEAN_AND_INVALIDATE_DATA_CACHE_LINE_USING_INDEX
  | CP15_INVALIDATE_ITLB | CP15_INVALIDATE_ITLB_SINGLE_ENTRY
  | CP15_INVALIDATE_ITLB_ENTRY_ON_ASID_MATCH
  | CP15_INVALIDATE_ITLB_ENTRY_ON_MVA | CP15_INVALIDATE_DTLB
  | CP15_INVALIDATE_DTLB_SINGLE_ENTRY
  | CP15_INVALIDATE_DTLB_ENTRY_ON_ASID_MATCH
  | CP15_INVALIDATE_DTLB_ENTRY_ON_MVA | CP15_INVALIDATE_UTLB
  | CP15_INVALIDATE_UTLB_SINGLE_ENTRY
  | CP15_INVALIDATE_UTLB_ENTRY_ON_ASID_MATCH
  | CP15_INVALIDATE_UTLB_ENTRY_ON_MVA | CP15_DATA_CACHE_LOCKDOWN
  | CP15_TLB_LOCKDOWN | CP15_PRIMARY_REGION_REMAP | CP15_NORMAL_REGION_REMAP
  | CP15_PID | CP15_CONTEXT_ID | CP15_THREAD_UPRW | CP15_THREAD_URO
  | CP15_THREAD_PRW | CP15_PERFORMANCE_MONITOR_CONTROL | CP15_CYCLE_COUNTER
  | CP15_COUNT_0 | CP15_COUNT_1 | CP15_READ_MAIN_TLB_LOCKDOWN_ENTRY
  | CP15_WRITE_MAIN_TLB_LOCKDOWN_ENTRY | CP15_MAIN_TLB_LOCKDOWN_VIRT_ADDRESS
  | CP15_MAIN_TLB_LOCKDOWN_PHYS_ADDRESS | CP15_MAIN_TLB_LOCKDOWN_ATTRIBUTE
  | CP15_TLB_DEBUG_CONTROL | CP15_TLB_FAULT_ADDR | CP15_TLB_FAULT_STATUS.

(* src: arm_regformat.h *)
Definition CP15_COMBINED_DATA_FSR : CP15Register := CP15_FAULT_STATUS.
(* src: arm_regformat.h *)
Definition CP15_COMBINED_DATA_FAR : CP15Register := CP15_FAULT_ADDRESS.

(** The enumerator after [CP15_COMBINED_DATA_FSR = CP15_FAULT_STATUS] takes the
    next value, which [CP15_INSTR_FAULT_STATUS] has too. *)
(* src: arm_regformat.h *)
Definition CP15_INST_FSR : CP15Register := CP15_INSTR_FAULT_STATUS.

(** The value of an enumerator: its position in the declaration. *)
(* src: arm_regformat.h | enum CP15Register { | CP15Register *)
Definition cp15_index (r : CP15Register) : Z :=
  match r with
  | CP15_MAIN_ID => 0 | CP15_CACHE_TYPE => 1 | CP15_TCM_STATUS => 2
  | CP15_TLB_TYPE => 3 | CP15_CPU_ID => 4 | CP15_PROCESSOR_FEATURE_0 => 5
  | CP15_PROCESSOR_FEATURE_1 => 6 | CP15_DEBUG_FEATURE_0 => 7
  | CP15_AUXILIARY_FEATURE_0 => 8 | CP15_MEMORY_MODEL_FEATURE_0 => 9
  | CP15_MEMORY_MODEL_FEATURE_1 => 10 | CP15_MEMORY_MODEL_FEATURE_2 => 11
  | CP15_MEMORY_MODEL_FEATURE_3 => 12 | CP15_ISA_FEATURE_0 => 13
  | CP15_ISA_FEATURE_1 => 14 | CP15_ISA_FEATURE_2 => 15
  | CP15_ISA_FEATURE_3 => 16 | CP15_ISA_FEATURE_4 => 17 | CP15_CONTROL => 18
  | CP15_AUXILIARY_CONTROL => 19 | CP15_COPROCESSOR_ACCESS_CONTROL => 20
  | CP15_TRANSLATION_BASE_TABLE_0 => 21 | CP15_TRANSLATION_BASE_TABLE_1 => 22
  | CP15_TRANSLATION_BASE_CONTROL => 23 | CP15_DOMAIN_ACCESS_CONTROL => 24
  | CP15_RESERVED => 25 | CP15_FAULT_STATUS => 26
  | CP15_INSTR_FAULT_STATUS => 27 | CP15_FAULT_ADDRESS => 28
  | CP15_WFAR => 29 | CP15_IFAR => 30 | CP15_WAIT_FOR_INTERRUPT => 31
  | CP15_PHYS_ADDRESS => 32 | CP15_INVALIDATE_INSTR_CACHE => 33
  | CP15_INVALIDATE_INSTR_CACHE_USING_MVA => 34
  | CP15_INVALIDATE_INSTR_CACHE_USING_INDEX => 35
  | CP15_FLUSH_PREFETCH_BUFFER => 36 | CP15_FLUSH_BRANCH_TARGET_CACHE => 37
  | CP15_FLUSH_BRANCH_TARGET_CACHE_ENTRY => 38
  | CP15_INVALIDATE_DATA_CACHE => 39
  | CP15_INVALIDATE_DATA_CACHE_LINE_USING_MVA => 40
  | CP15_INVALIDATE_DATA_CACHE_LINE_USING_INDEX => 41
  | CP15_INVALIDATE_DATA_AND_INSTR_CACHE => 42 | CP15_CLEAN_DATA_CACHE => 43
  | CP15_CLEAN_DATA_CACHE_LINE_USING_MVA => 44
  | CP15_CLEAN_DATA_CACHE_LINE_USING_INDEX => 45
  | CP15_DATA_SYNC_BARRIER => 46 | CP15_DATA_MEMORY_BARRIER => 47
  | CP15_CLEAN_AND_INVALIDATE_DATA_CACHE => 48
  | CP15_CLEAN_AND_INVALIDATE_DATA_CACHE_LINE_USING_MVA => 49
  | CP15_CLEAN_AND_INVALIDATE_DATA_CACHE_LINE_USING_INDEX => 50
  | CP15_INVALIDATE_ITLB => 51 | CP15_INVALIDATE_ITLB_SINGLE_ENTRY => 52
  | CP15_INVALIDATE_ITLB_ENTRY_ON_ASID_MATCH => 53
  | CP15_INVALIDATE_ITLB_ENTRY_ON_MVA => 54 | CP15_INVALIDATE_DTLB => 55
  | CP15_INVALIDATE_DTLB_SINGLE_ENTRY => 56
  | CP15_INVALIDATE_DTLB_ENTRY_ON_ASID_MATCH => 57
  | CP15_INVALIDATE_DTLB_ENTRY_ON_MVA => 58 | CP15_INVALIDATE_UTLB => 59
  | CP15_INVALIDATE_UTLB_SINGLE_ENTRY => 60
  | CP15_INVALIDATE_UTLB_ENTRY_ON_ASID_MATCH => 61
  | CP15_INVALIDATE_UTLB_ENTRY_ON_MVA => 62 | CP15_DATA_CACHE_LOCKDOWN => 63
  | CP15_TLB_LOCKDOWN => 64 | CP15_PRIMARY_REGION_REMAP => 65
  | CP15_NORMAL_REGION_REMAP => 66 | CP15_PID => 67 | CP15_CONTEXT_ID => 68
  | CP15_THREAD_UPRW => 69 | CP15_THREAD_URO => 70 | CP15_THREAD_PRW => 71
  | CP15_PERFORMANCE_MONITOR_CONTROL => 72 | CP15_CYCLE_COUNTER => 73
  | CP15_COUNT_0 => 74 | CP15_COUNT_1 => 75
  | CP15_READ_MAIN_TLB_LOCKDOWN_ENTRY => 76
  | CP15_WRITE_MAIN_TLB_LOCKDOWN_ENTRY => 77
  | CP15_MAIN_TLB_LOCKDOWN_VIRT_ADDRESS => 78
  | CP15_MAIN_TLB_LOCKDOWN_PHYS_ADDRESS => 79
  | CP15_MAIN_TLB_LOCKDOWN_ATTRIBUTE => 80 | CP15_TLB_DEBUG_CONTROL => 81
  | CP15_TLB_FAULT_ADDR => 82 | CP15_TLB_FAULT_STATUS => 83
  end.

Definition cp15_of_index (i : Z) : CP15Register :=
  match i with
  | 0 => CP15_MAIN_ID | 1 => CP15_CACHE_TYPE | 2 => CP15_TCM_STATUS
  | 3 => CP15_TLB_TYPE | 4 => CP15_CPU_ID | 5 => CP15_PROCESSOR_FEATURE_0
  | 6 => CP15_PROCESSOR_FEATURE_1 | 7 => CP15_DEBUG_FEATURE_0
  | 8 => CP15_AUXILIARY_FEATURE_0 | 9 => CP15_MEMORY_MODEL_FEATURE_0
  | 10 => CP15_MEMORY_MODEL_FEATURE_1 | 11 => CP15_MEMORY_MODEL_FEATURE_2
  | 12 => CP15_MEMORY_MODEL_FEATURE_3 | 13 => CP15_ISA_FEATURE_0
  | 14 => CP15_ISA_FEATURE_1 | 15 => CP15_ISA_FEATURE_2
  | 16 => CP15_ISA_FEATURE_3 | 17 => CP15_ISA_FEATURE_4 | 18 => CP15_CONTROL
  | 19 => CP15_AUXILIARY_CONTROL | 20 => CP15_COPROCESSOR_ACCESS_CONTROL
  | 21 => CP15_TRANSLATION_BASE_TABLE_0 | 22 => CP15_TRANSLATION_BASE_TABLE_1
  | 23 => CP15_TRANSLATION_BASE_CONTROL | 24 => CP15_DOMAIN_ACCESS_CONTROL
  | 25 => CP15_RESERVED | 26 => CP15_FAULT_STATUS
  | 27 => CP15_INSTR_FAULT_STATUS | 28 => CP15_FAULT_ADDRESS
  | 29 => CP15_WFAR | 30 => CP15_IFAR | 31 => CP15_WAIT_FOR_INTERRUPT
  | 32 => CP15_PHYS_ADDRESS | 33 => CP15_INVALIDATE_INSTR_CACHE
  | 34 => CP15_INVALIDATE_INSTR_CACHE_USING_MVA
  | 35 => CP15_INVALIDATE_INSTR_CACHE_USING_INDEX
  | 36 => CP15_FLUSH_PREFETCH_BUFFER | 37 => CP15_FLUSH_BRANCH_TARGET_CACHE
  | 38 => CP15_FLUSH_BRANCH_TARGET_CACHE_ENTRY
  | 39 => CP15_INVALIDATE_DATA_CACHE
  | 40 => CP15_INVALIDATE_DATA_CACHE_LINE_USING_MVA
  | 41 => CP15_INVALIDATE_DATA_CACHE_LINE_USING_INDEX
  | 42 => CP15_INVALIDATE_DATA_AND_INSTR_CACHE | 43 => CP15_CLEAN_DATA_CACHE
  | 44 => CP15_CLEAN_DATA_CACHE_LINE_USING_MVA
  | 45 => CP15_CLEAN_DATA_CACHE_LINE_USING_INDEX
  | 46 => CP15_DATA_SYNC_BARRIER | 47 => CP15_DATA_MEMORY_BARRIER
  | 48 => CP15_CLEAN_AND_INVALIDATE_DATA_CACHE
  | 49 => CP15_CLEAN_AND_INVALIDATE_DATA_CACHE_LINE_USING_MVA
  | 50 => CP15_CLEAN_AND_INVALIDATE_DATA_CACHE_LINE_USING_INDEX
  | 51 => CP15_INVALIDATE_ITLB | 52 => CP15_INVALIDATE_ITLB_SINGLE_ENTRY
  | 53 => CP15_INVALIDATE_ITLB_ENTRY_ON_ASID_MATCH
  | 54 => CP15_INVALIDATE_ITLB_ENTRY_ON_MVA | 55 => CP15_INVALIDATE_DTLB
  | 56 => CP15_INVALIDATE_DTLB_SINGLE_ENTRY
  | 57 => CP15_INVALIDATE_DTLB_ENTRY_ON_ASID_MATCH
  | 58 => CP15_INVALIDATE_DTLB_ENTRY_ON_MVA | 59 => CP15_INVALIDATE_UTLB
  | 60 => CP15_INVALIDATE_UTLB_SINGLE_ENTRY
  | 61 => CP15_INVALIDATE_UTLB_ENTRY_ON_ASID_MATCH
  | 62 => CP15_INVALIDATE_UTLB_ENTRY_ON_MVA | 63 => CP15_DATA_CACHE_LOCKDOWN
  | 64 => CP15_TLB_LOCKDOWN | 65 => CP15_PRIMARY_REGION_REMAP
  | 66 => CP15_NORMAL_REGION_REMAP | 67 => CP15_PID | 68 => CP15_CONTEXT_ID
  | 69 => CP15_THREAD_UPRW | 70 => CP15_THREAD_URO | 71 => CP15_THREAD_PRW
  | 72 => CP15_PERFORMANCE_MONITOR_CONTROL | 73 => CP15_CYCLE_COUNTER
  | 74 => CP15_COUNT_0 | 75 => CP15_COUNT_1
  | 76 => CP15_READ_MAIN_TLB_LOCKDOWN_ENTRY
  | 77 => CP15_WRITE_MAIN_TLB_LOCKDOWN_ENTRY
  | 78 => CP15_MAIN_TLB_LOCKDOWN_VIRT_ADDRESS
  | 79 => CP15_MAIN_TLB_LOCKDOWN_PHYS_ADDRESS
  | 80 => CP15_MAIN_TLB_LOCKDOWN_ATTRIBUTE | 81 => CP15_TLB_DEBUG_CONTROL
  | 82 => CP15_TLB_FAULT_ADDR | _ => CP15_TLB_FAULT_STATUS
  end.

Lemma cp15_of_index_index r : cp15_of_index (cp15_index r) = r.
Proof. by destruct r. Qed.

#[global] Instance cp15_index_inj : Inj (=) (=) cp15_index.
Proof. intros r r' E. by rewrite <- (cp15_of_index_index r), E, cp15_of_index_index. Qed.

#[global] Instance CP15Register_eq_dec : EqDecision CP15Register.
Proof.
  intros r r'. destruct (decide (cp15_index r = cp15_index r')) as [E|N].
  - left. by apply (inj cp15_index).
  - right. intros ->. by apply N.
Defined.

(** * The state *)

(* src: armstate.h | std::array<u32, 16> Reg{} | ARMul_State | ..bool exclusive_state; *)
Record ARMul_State := {
  Reg : list Z; (* 16 *)
  Reg_usr : list Z; (* 2 *)
  Reg_svc : list Z; (* 2 *)
  Reg_abort : list Z; (* 2 *)
  Reg_undef : list Z; (* 2 *)
  Reg_irq : list Z; (* 2 *)
  Reg_firq : list Z; (* 7 *)
  Spsr : list Z; (* 7 *)
  CP15 : CP15Register -> Z;
  VFP : list Z; (* VFP_SYSTEM_REGISTER_COUNT *)
  ExtReg : list Z; (* 64 *)
  Emulate : Z;
  Cpsr : Z;
  Spsr_copy : Z;
  phys_pc : Z;
  Mode : Z;
  Bank : RegisterBank;
  NFlag : Z;
  ZFlag : Z;
  CFlag : Z;
  VFlag : Z;
  IFFlags : Z;
  shifter_carry_out : Z;
  TFlag : Z;
  NumInstrs : Z;
  NumInstrsToExecute : Z;
  NresetSig : Z;
  NfiqSig : Z;
  NirqSig : Z;
  abortSig : Z;
  NtransSig : Z;
  bigendSig : Z;
  syscallSig : Z;
  exclusive_tag : Z;
  exclusive_state : bool
}.

(** Array reads and writes; the index is a constant or a decoded field below
    the array's length. *)
Definition rd (a : list Z) (i : nat) : Z := a !!! i.

(** Every register array has its declared length. *)
Definition state_ok (s : ARMul_State) : Prop :=
  length (Reg s) = 16%nat ∧ length (Reg_usr s) = 2%nat ∧
  length (Reg_svc s) = 2%nat ∧ length (Reg_abort s) = 2%nat ∧
  length (Reg_undef s) = 2%nat ∧ length (Reg_irq s) = 2%nat ∧
  length (Reg_firq s) = 7%nat ∧ length (Spsr s) = 7%nat ∧
  length (VFP s) = 7%nat ∧ length (ExtReg s) = 64%nat.

(** * Exclusive accesses and mode predicates *)

(* src: armstate.h *)
Definition RESERVATION_GRANULE_MASK : Z := 0xFFFFFFF8.

(* src: armstate.h *)
Definition IsExclusiveMemoryAccess (s : ARMul_State) (address : Z) : bool :=
  exclusive_state s && (exclusive_tag s =? (address .& RESERVATION_GRANULE_MASK)).

(* src: armstate.h *)
Definition SetExclusiveMemoryAddress (address : Z) (s : ARMul_State) : ARMul_State :=
  s<|exclusive_tag := address .& RESERVATION_GRANULE_MASK|><|exclusive_state := true|>.

(* src: armstate.h *)
Definition UnsetExclusiveMemoryAddress (s : ARMul_State) : ARMul_State :=
  s<|exclusive_tag := 0xFFFFFFFF|><|exclusive_state := false|>.

(* src: armstate.h *)
Definition InBigEndianMode (s : ARMul_State) : bool := nz (Cpsr s .& (1 ≪ 9)).

(* src: armstate.h *)
Definition InAPrivilegedMode (s : ARMul_State) : bool :=
  negb (Mode s =? USER32MODE).

(* src: armstate.h *)
Definition CurrentModeHasSPSR (s : ARMul_State) : bool :=
  negb (Mode s =? SYSTEM32MODE) && InAPrivilegedMode s.

(* src: armstate.h *)
Definition GetInstructionSize (s : ARMul_State) : Z :=
  if nz (TFlag s) then 2 else 4.

(** * Privilege modes *)

(** The first [switch] of [ChangePrivilegeMode]: save the registers of the
    mode being left. *)
(* src: armstate.cpp | switch (Mode) { | ARMul_State::ChangePrivilegeMode *)
Definition save_bank (s : ARMul_State) : ARMul_State :=
  let r13 := rd (Reg s) 13 in
  let r14 := rd (Reg s) 14 in
  let spsr b := <[bank_index b := Spsr_copy s]> (Spsr s) in
  match mode_of (Mode s) with
  | None => s
  | Some SYSTEM32MODE | Some USER32MODE =>
      s<|Reg_usr := <[1%nat := r14]> (<[0%nat := r13]> (Reg_usr s))|>
  | Some IRQ32MODE =>
      s<|Reg_irq := <[1%nat := r14]> (<[0%nat := r13]> (Reg_irq s))|>
       <|Spsr := spsr IRQBANK|>
  | Some SVC32MODE =>
      s<|Reg_svc := <[1%nat := r14]> (<[0%nat := r13]> (Reg_svc s))|>
       <|Spsr := spsr SVCBANK|>
  | Some ABORT32MODE =>
      s<|Reg_abort := <[1%nat := r14]> (<[0%nat := r13]> (Reg_abort s))|>
       <|Spsr := spsr ABORTBANK|>
  | Some UNDEF32MODE =>
      s<|Reg_undef := <[1%nat := r14]> (<[0%nat := r13]> (Reg_undef s))|>
       <|Spsr := spsr UNDEFBANK|>
  | Some FIQ32MODE =>
      s<|Reg_firq := take 7 (drop 8 (Reg s)) ++ drop 7 (Reg_firq s)|>
       <|Spsr := spsr FIQBANK|>
  end.

(** The second [switch]: load the registers of the mode being entered. *)
(* src: armstate.cpp | switch (new_mode) { | ARMul_State::ChangePrivilegeMode *)
Definition load_bank (new_mode : Z) (s : ARMul_State) : ARMul_State :=
  let from bank := <[14%nat := rd bank 1]> (<[13%nat := rd bank 0]> (Reg s)) in
  let spsr b := rd (Spsr s) (bank_index b) in
  match mode_of new_mode with
  | None => s
  | Some USER32MODE => s<|Reg := from (Reg_usr s)|><|Bank := USERBANK|>
  | Some IRQ32MODE =>
      s<|Reg := from (Reg_irq s)|><|Spsr_copy := spsr IRQBANK|><|Bank := IRQBANK|>
  | Some SVC32MODE =>
      s<|Reg := from (Reg_svc s)|><|Spsr_copy := spsr SVCBANK|><|Bank := SVCBANK|>
  | Some ABORT32MODE =>
      s<|Reg := from (Reg_abort s)|><|Spsr_copy := spsr ABORTBANK|><|Bank := ABORTBANK|>
  | Some UNDEF32MODE =>
      s<|Reg := from (Reg_undef s)|><|Spsr_copy := spsr UNDEFBANK|><|Bank := UNDEFBANK|>
  | Some FIQ32MODE =>
      s<|Reg := take 8 (Reg s) ++ Reg_firq s ++ drop 15 (Reg s)|>
       <|Spsr_copy := spsr FIQBANK|><|Bank := FIQBANK|>
  | Some SYSTEM32MODE => s<|Reg := from (Reg_usr s)|><|Bank := SYSTEMBANK|>
  end.

(* src: armstate.cpp | void ARMul_State::ChangePrivilegeMode *)
Definition ChangePrivilegeMode (new_mode : Z) (s : ARMul_State) : ARMul_State :=
  if Mode s =? new_mode then s
  else if negb (new_mode =? Z.of_nat (bank_index USERBANK)) then
    let s' := load_bank new_mode (save_bank s) in
    s'<|Cpsr := (Cpsr s' .& unot 32 (Mode s')) .| new_mode|><|Mode := new_mode|>
  else s.

(** * CP15 accesses *)

(** A statement list that may [return]: the first value returned. *)
Definition or_else {A} (x y : option A) : option A :=
  match x with Some _ => x | None => y end.
Definition when {A} (b : bool) (x : option A) : option A := if b then x else None.
#[local] Notation "x <|> y" := (or_else x y) (at level 58, right associativity).

(** [None] is the path that falls through to the final [return 0]. *)
(* src: armstate.cpp | u32 ARMul_State::ReadCP15Register *)
Definition cp15_read (s : ARMul_State) (crn opcode_1 crm opcode_2 : Z) : option Z :=
  let ret r := Some (CP15 s r) in
  when ((crn =? 13) && (opcode_1 =? 0) && (crm =? 0))
     (when ((opcode_2 =? 2)) (ret CP15_THREAD_UPRW)
      <|> when ((opcode_2 =? 3)) (ret CP15_THREAD_URO))
  <|> when (InAPrivilegedMode s)
     (when ((crn =? 0) && (opcode_1 =? 0))
         ((if (crm =? 0) then
             when ((opcode_2 =? 0)) (ret CP15_MAIN_ID)
             <|> when ((opcode_2 =? 1)) (ret CP15_CACHE_TYPE)
             <|> when ((opcode_2 =? 3)) (ret CP15_TLB_TYPE)
             <|> when ((opcode_2 =? 5)) (ret CP15_CPU_ID)
           else (if (crm =? 1) then
              when ((opcode_2 =? 0)) (ret CP15_PROCESSOR_FEATURE_0)
              <|> when ((opcode_2 =? 1)) (ret CP15_PROCESSOR_FEATURE_1)
              <|> when ((opcode_2 =? 2)) (ret CP15_DEBUG_FEATURE_0)
              <|> when ((opcode_2 =? 4)) (ret CP15_MEMORY_MODEL_FEATURE_0)
              <|> when ((opcode_2 =? 5)) (ret CP15_MEMORY_MODEL_FEATURE_1)
              <|> when ((opcode_2 =? 6)) (ret CP15_MEMORY_MODEL_FEATURE_2)
              <|> when ((opcode_2 =? 7)) (ret CP15_MEMORY_MODEL_FEATURE_3)
            else when ((crm =? 2))
               (when ((opcode_2 =? 0)) (ret CP15_ISA_FEATURE_0)
                <|> when ((opcode_2 =? 1)) (ret CP15_ISA_FEATURE_1)
                <|> when ((opcode_2 =? 2)) (ret CP15_ISA_FEATURE_2)
                <|> when ((opcode_2 =? 3)) (ret CP15_ISA_FEATURE_3)
                <|> when ((opcode_2 =? 4)) (ret CP15_ISA_FEATURE_4)))))
      <|> when ((crn =? 1) && (opcode_1 =? 0) && (crm =? 0))
         (when ((opcode_2 =? 0)) (ret CP15_CONTROL)
          <|> when ((opcode_2 =? 1)) (ret CP15_AUXILIARY_CONTROL)
          <|> when ((opcode_2 =? 2)) (ret CP15_COPROCESSOR_ACCESS_CONTROL))
      <|> when ((crn =? 2) && (opcode_1 =? 0) && (crm =? 0))
         (when ((opcode_2 =? 0)) (ret CP15_TRANSLATION_BASE_TABLE_0)
          <|> when ((opcode_2 =? 1)) (ret CP15_TRANSLATION_BASE_TABLE_1)
          <|> when ((opcode_2 =? 2)) (ret CP15_TRANSLATION_BASE_CONTROL))
      <|> when ((crn =? 3) && (opcode_1 =? 0) && (crm =? 0) && (opcode_2 =? 0)) (ret CP15_DOMAIN_ACCESS_CONTROL)
      <|> when ((crn =? 5) && (opcode_1 =? 0) && (crm =? 0))
         (when ((opcode_2 =? 0)) (ret CP15_FAULT_STATUS)
          <|> when ((opcode_2 =? 1)) (ret CP15_INSTR_FAULT_STATUS))
      <|> when ((crn =? 6) && (opcode_1 =? 0) && (crm =? 0))
         (when ((opcode_2 =? 0)) (ret CP15_FAULT_ADDRESS)
          <|> when ((opcode_2 =? 1)) (ret CP15_WFAR))
      <|> when ((crn =? 7) && (opcode_1 =? 0) && (crm =? 4) && (opcode_2 =? 0)) (ret CP15_PHYS_ADDRESS)
      <|> when ((crn =? 9) && (opcode_1 =? 0) && (crm =? 0) && (opcode_2 =? 0)) (ret CP15_DATA_CACHE_LOCKDOWN)
      <|> when ((crn =? 10) && (opcode_1 =? 0))
         (when ((crm =? 0) && (opcode_2 =? 0)) (ret CP15_TLB_LOCKDOWN)
          <|> when ((crm =? 2))
             (when ((opcode_2 =? 0)) (ret CP15_PRIMARY_REGION_REMAP)
              <|> when ((opcode_2 =? 1)) (ret CP15_NORMAL_REGION_REMAP)))
      <|> when ((crn =? 13) && (crm =? 0))
         (when ((opcode_2 =? 0)) (ret CP15_PID)
          <|> when ((opcode_2 =? 1)) (ret CP15_CONTEXT_ID)
          <|> when ((opcode_2 =? 4)) (ret CP15_THREAD_PRW))
      <|> when ((crn =? 15))
         (when ((opcode_1 =? 0) && (crm =? 12))
             (when ((opcode_2 =? 0)) (ret CP15_PERFORMANCE_MONITOR_CONTROL)
              <|> when ((opcode_2 =? 1)) (ret CP15_CYCLE_COUNTER)
              <|> when ((opcode_2 =? 2)) (ret CP15_COUNT_0)
              <|> when ((opcode_2 =? 3)) (ret CP15_COUNT_1))
          <|> when ((opcode_1 =? 5) && (opcode_2 =? 2))
             (when ((crm =? 5)) (ret CP15_MAIN_TLB_LOCKDOWN_VIRT_ADDRESS)
              <|> when ((crm =? 6)) (ret CP15_MAIN_TLB_LOCKDOWN_PHYS_ADDRESS)
              <|> when ((crm =? 7)) (ret CP15_MAIN_TLB_LOCKDOWN_ATTRIBUTE))
          <|> when ((opcode_1 =? 7) && (crm =? 1) && (opcode_2 =? 0)) (ret CP15_TLB_DEBUG_CONTROL))).

(* src: armstate.cpp | u32 ARMul_State::ReadCP15Register *)
Definition ReadCP15Register (s : ARMul_State) (crn opcode_1 crm opcode_2 : Z) : Z :=
  default 0 (cp15_read s crn opcode_1 crm opcode_2).

(** The privileged part of [WriteCP15Register]. *)
(* src: armstate.cpp | if (InAPrivilegedMode()) { #2 | ARMul_State::WriteCP15Register *)
Definition cp15_write_privileged (s : ARMul_State) (value crn opcode_1 crm opcode_2 : Z)
    : ARMul_State :=
  let put r := s<|CP15 := <[r := value]> (CP15 s)|> in
  if InAPrivilegedMode s then
    if (crn =? 1) && (opcode_1 =? 0) && (crm =? 0) then
      if (opcode_2 =? 0) then
        put CP15_CONTROL
      else if (opcode_2 =? 1) then
        put CP15_AUXILIARY_CONTROL
      else if (opcode_2 =? 2) then
        put CP15_COPROCESSOR_ACCESS_CONTROL
      else s
    else if (crn =? 2) && (opcode_1 =? 0) && (crm =? 0) then
      if (opcode_2 =? 0) then
        put CP15_TRANSLATION_BASE_TABLE_0
      else if (opcode_2 =? 1) then
        put CP15_TRANSLATION_BASE_TABLE_1
      else if (opcode_2 =? 2) then
        put CP15_TRANSLATION_BASE_CONTROL
      else s
    else if (crn =? 3) && (opcode_1 =? 0) && (crm =? 0) && (opcode_2 =? 0) then
      put CP15_DOMAIN_ACCESS_CONTROL
    else if (crn =? 5) && (opcode_1 =? 0) && (crm =? 0) then
      if (opcode_2 =? 0) then
        put CP15_FAULT_STATUS
      else if (opcode_2 =? 1) then
        put CP15_INSTR_FAULT_STATUS
      else s
    else if (crn =? 6) && (opcode_1 =? 0) && (crm =? 0) then
      if (opcode_2 =? 0) then
        put CP15_FAULT_ADDRESS
      else if (opcode_2 =? 1) then
        put CP15_WFAR
      else s
    else if (crn =? 7) && (opcode_1 =? 0) then
      if (crm =? 0) && (opcode_2 =? 4) then
        put CP15_WAIT_FOR_INTERRUPT
      else if (crm =? 4) && (opcode_2 =? 0) then
        s
      else if (crm =? 5) then
        if (opcode_2 =? 0) then
          put CP15_INVALIDATE_INSTR_CACHE
        else if (opcode_2 =? 1) then
          put CP15_INVALIDATE_INSTR_CACHE_USING_MVA
        else if (opcode_2 =? 2) then
          put CP15_INVALIDATE_INSTR_CACHE_USING_INDEX
        else if (opcode_2 =? 6) then
          put CP15_FLUSH_BRANCH_TARGET_CACHE
        else if (opcode_2 =? 7) then
          put CP15_FLUSH_BRANCH_TARGET_CACHE_ENTRY
        else s
      else if (crm =? 6) then
        if (opcode_2 =? 0) then
          put CP15_INVALIDATE_DATA_CACHE
        else if (opcode_2 =? 1) then
          put CP15_INVALIDATE_DATA_CACHE_LINE_USING_MVA
        else if (opcode_2 =? 2) then
          put CP15_INVALIDATE_DATA_CACHE_LINE_USING_INDEX
        else s
      else if (crm =? 7) && (opcode_2 =? 0) then
        put CP15_INVALIDATE_DATA_AND_INSTR_CACHE
      else if (crm =? 10) then
        if (opcode_2 =? 0) then
          put CP15_CLEAN_DATA_CACHE
        else if (opcode_2 =? 1) then
          put CP15_CLEAN_DATA_CACHE_LINE_USING_MVA
        else if (opcode_2 =? 2) then
          put CP15_CLEAN_DATA_CACHE_LINE_USING_INDEX
        else s
      else if (crm =? 14) then
        if (opcode_2 =? 0) then
          put CP15_CLEAN_AND_INVALIDATE_DATA_CACHE
        else if (opcode_2 =? 1) then
          put CP15_CLEAN_AND_INVALIDATE_DATA_CACHE_LINE_USING_MVA
        else if (opcode_2 =? 2) then
          put CP15_CLEAN_AND_INVALIDATE_DATA_CACHE_LINE_USING_INDEX
        else s
      else s
    else if (crn =? 8) && (opcode_1 =? 0) then
      if (crm =? 5) then
        if (opcode_2 =? 0) then
          put CP15_INVALIDATE_ITLB
        else if (opcode_2 =? 1) then
          put CP15_INVALIDATE_ITLB_SINGLE_ENTRY
        else if (opcode_2 =? 2) then
          put CP15_INVALIDATE_ITLB_ENTRY_ON_ASID_MATCH
        else if (opcode_2 =? 3) then
          put CP15_INVALIDATE_ITLB_ENTRY_ON_MVA
        else s
      else if (crm =? 6) then
        if (opcode_2 =? 0) then
          put CP15_INVALIDATE_DTLB
        else if (opcode_2 =? 1) then
          put CP15_INVALIDATE_DTLB_SINGLE_ENTRY
        else if (opcode_2 =? 2) then
          put CP15_INVALIDATE_DTLB_ENTRY_ON_ASID_MATCH
        else if (opcode_2 =? 3) then
          put CP15_INVALIDATE_DTLB_ENTRY_ON_MVA
        else s
      else if (crm =? 7) then
        if (opcode_2 =? 0) then
          put CP15_INVALIDATE_UTLB
        else if (opcode_2 =? 1) then
          put CP15_INVALIDATE_UTLB_SINGLE_ENTRY
        else if (opcode_2 =? 2) then
          put CP15_INVALIDATE_UTLB_ENTRY_ON_ASID_MATCH
        else if (opcode_2 =? 3) then
          put CP15_INVALIDATE_UTLB_ENTRY_ON_MVA
        else s
      else s
    else if (crn =? 9) && (opcode_1 =? 0) && (crm =? 0) && (opcode_2 =? 0) then
      put CP15_DATA_CACHE_LOCKDOWN
    else if (crn =? 10) && (opcode_1 =? 0) then
      if (crm =? 0) && (opcode_2 =? 0) then
        put CP15_TLB_LOCKDOWN
      else if (crm =? 2) then
        if (opcode_2 =? 0) then
          put CP15_PRIMARY_REGION_REMAP
        else if (opcode_2 =? 1) then
          put CP15_NORMAL_REGION_REMAP
        else s
      else s
    else if (crn =? 13) && (opcode_1 =? 0) && (crm =? 0) then
      if (opcode_2 =? 0) then
        put CP15_PID
      else if (opcode_2 =? 1) then
        put CP15_CONTEXT_ID
      else if (opcode_2 =? 3) then
        put CP15_THREAD_URO
      else if (opcode_2 =? 4) then
        put CP15_THREAD_PRW
      else s
    else if (crn =? 15) then
      if (opcode_1 =? 0) && (crm =? 12) then
        if (opcode_2 =? 0) then
          put CP15_PERFORMANCE_MONITOR_CONTROL
        else if (opcode_2 =? 1) then
          put CP15_CYCLE_COUNTER
        else if (opcode_2 =? 2) then
          put CP15_COUNT_0
        else if (opcode_2 =? 3) then
          put CP15_COUNT_1
        else s
      else if (opcode_1 =? 5) then
        if (crm =? 4) then
          if (opcode_2 =? 2) then
            put CP15_READ_MAIN_TLB_LOCKDOWN_ENTRY
          else if (opcode_2 =? 4) then
            put CP15_WRITE_MAIN_TLB_LOCKDOWN_ENTRY
          else s
        else if (crm =? 5) && (opcode_2 =? 2) then
          put CP15_MAIN_TLB_LOCKDOWN_VIRT_ADDRESS
        else if (crm =? 6) && (opcode_2 =? 2) then
          put CP15_MAIN_TLB_LOCKDOWN_PHYS_ADDRESS
        else if (crm =? 7) && (opcode_2 =? 2) then
          put CP15_MAIN_TLB_LOCKDOWN_ATTRIBUTE
        else s
      else if (opcode_1 =? 7) && (crm =? 1) && (opcode_2 =? 0) then
        put CP15_TLB_DEBUG_CONTROL
      else s
    else s
  else s.

(** The part executed in every mode. *)
(* src: armstate.cpp | // Unprivileged registers #2 | ARMul_State::WriteCP15Register | +11 *)
Definition cp15_write_unprivileged (s : ARMul_State) (value crn opcode_1 crm opcode_2 : Z)
    : ARMul_State :=
  let put r := s<|CP15 := <[r := value]> (CP15 s)|> in
  if (crn =? 7) && (opcode_1 =? 0) && (crm =? 5) && (opcode_2 =? 4) then
    put CP15_FLUSH_PREFETCH_BUFFER
  else if (crn =? 7) && (opcode_1 =? 0) && (crm =? 10) then
    if (opcode_2 =? 4) then
      put CP15_DATA_SYNC_BARRIER
    else if (opcode_2 =? 5) then
      put CP15_DATA_MEMORY_BARRIER
    else s
  else if (crn =? 13) && (opcode_1 =? 0) && (crm =? 0) && (opcode_2 =? 2) then
    put CP15_THREAD_UPRW
  else s.

(* src: armstate.cpp | void ARMul_State::WriteCP15Register *)
Definition WriteCP15Register (s : ARMul_State) (value crn opcode_1 crm opcode_2 : Z)
    : ARMul_State :=
  cp15_write_unprivileged (cp15_write_privileged s value crn opcode_1 crm opcode_2)
    value crn opcode_1 crm opcode_2.

(** * Reset *)

(** The reset values, in the order they are written. *)
(* src: armstate.cpp | void ARMul_State::ResetMPCoreCP15Registers *)
Definition cp15_reset_values : list (CP15Register * Z) := [
  (CP15_MAIN_ID, 0x410FB024);
  (CP15_TLB_TYPE, 0x00000800);
  (CP15_PROCESSOR_FEATURE_0, 0x00000111);
  (CP15_PROCESSOR_FEATURE_1, 0x00000001);
  (CP15_DEBUG_FEATURE_0, 0x00000002);
  (CP15_MEMORY_MODEL_FEATURE_0, 0x01100103);
  (CP15_MEMORY_MODEL_FEATURE_1, 0x10020302);
  (CP15_MEMORY_MODEL_FEATURE_2, 0x01222000);
  (CP15_MEMORY_MODEL_FEATURE_3, 0x00000000);
  (CP15_ISA_FEATURE_0, 0x00100011);
  (CP15_ISA_FEATURE_1, 0x12002111);
  (CP15_ISA_FEATURE_2, 0x11221011);
  (CP15_ISA_FEATURE_3, 0x01102131);
  (CP15_ISA_FEATURE_4, 0x00000141);
  (CP15_CONTROL, 0x00054078);
  (CP15_AUXILIARY_CONTROL, 0x0000000F);
  (CP15_COPROCESSOR_ACCESS_CONTROL, 0x00000000);
  (CP15_TRANSLATION_BASE_TABLE_0, 0x00000000);
  (CP15_TRANSLATION_BASE_TABLE_1, 0x00000000);
  (CP15_TRANSLATION_BASE_CONTROL, 0x00000000);
  (CP15_DOMAIN_ACCESS_CONTROL, 0x00000000);
  (CP15_PHYS_ADDRESS, 0x00000000);
  (CP15_DATA_CACHE_LOCKDOWN, 0xFFFFFFF0);
  (CP15_TLB_LOCKDOWN, 0x00000000);
  (CP15_PRIMARY_REGION_REMAP, 0x00098AA4);
  (CP15_NORMAL_REGION_REMAP, 0x44E048E0);
  (CP15_PID, 0x00000000);
  (CP15_CONTEXT_ID, 0x00000000);
  (CP15_THREAD_UPRW, 0x00000000);
  (CP15_THREAD_URO, 0x00000000);
  (CP15_THREAD_PRW, 0x00000000);
  (CP15_PERFORMANCE_MONITOR_CONTROL, 0x00000000);
  (CP15_MAIN_TLB_LOCKDOWN_VIRT_ADDRESS, 0x00000000);
  (CP15_MAIN_TLB_LOCKDOWN_PHYS_ADDRESS, 0x00000000);
  (CP15_MAIN_TLB_LOCKDOWN_ATTRIBUTE, 0x00000000);
  (CP15_TLB_DEBUG_CONTROL, 0x00000000)
].

(* src: armstate.cpp | void ARMul_State::ResetMPCoreCP15Registers *)
Definition ResetMPCoreCP15Registers (s : ARMul_State) : ARMul_State :=
  foldl (λ s '(r, v), s<|CP15 := <[r := v]> (CP15 s)|>) s cp15_reset_values.
