(* ===== verification/ArmOps.v ===== *)
(** What every instruction of the interpreter is made of: a monad of state and
    failure, register and flag accesses, conditions, the shifter operands
    ([DataProcessingOperands*]) and the addressing modes of
    [arm_dyncom_interpreter.cpp], and [arm_dyncom_run.h].

    [None] is behaviour the code leaves undefined: a call through a null
    function pointer or an array index out of range.  A shift of a 32-bit value
    by 32 or more, which C++ leaves undefined, takes the amount modulo 32, as
    the host's shift instructions do. *)

From S2P Require Import Prelude ArmSupp ArmState.

(** * State and failure *)

Definition ST (S A : Type) : Type := S -> option (A * S).

#[global] Instance ST_ret S : MRet (ST S) := λ A a s, Some (a, s).
#[global] Instance ST_bind S : MBind (ST S) := λ A B f m s,
  match m s with Some (a, s') => f a s' | None => None end.

Section ST.
Context {S : Type}.
Definition fail {A} : ST S A := λ _, None.
Definition gets {A} (f : S -> A) : ST S A := λ s, Some (f s, s).
Definition modify (f : S -> S) : ST S unit := λ s, Some (tt, f s).
Definition when_ (b : bool) (m : ST S unit) : ST S unit := if b then m else mret tt.

(** Partial correctness: from a state in [P], a result and its state are in [Q]. *)
Definition hoare {A} (P : S -> Prop) (m : ST S A) (Q : A -> S -> Prop) : Prop :=
  ∀ s, P s -> match m s with Some (a, s') => Q a s' | None => True end.

Lemma hoare_ret {A} (P : S -> Prop) (a : A) (Q : A -> S -> Prop) : (∀ s, P s -> Q a s) -> hoare P (mret a) Q.
Proof. intros H s Hs. by apply H. Qed.
Lemma hoare_bind {A B} P (R : A -> S -> Prop) (Q : B -> S -> Prop) (m : ST S A) (f : A -> ST S B) :
  hoare P m R -> (∀ a, hoare (R a) (f a) Q) -> hoare P (m ≫= f) Q.
Proof.
  intros Hm Hf s Hs. unfold mbind, ST_bind. specialize (Hm s Hs).
  destruct (m s) as [[a s']|]; [by apply Hf | done].
Qed.
Lemma hoare_gets {A} (P : S -> Prop) (f : S -> A) (Q : A -> S -> Prop) : (∀ s, P s -> Q (f s) s) -> hoare P (gets f) Q.
Proof. intros H s Hs. by apply H. Qed.
Lemma hoare_modify (P : S -> Prop) f (Q : unit -> S -> Prop) : (∀ s, P s -> Q tt (f s)) -> hoare P (modify f) Q.
Proof. intros H s Hs. by apply H. Qed.
Lemma hoare_fail {A} P (Q : A -> S -> Prop) : hoare P fail Q.
Proof. done. Qed.
Lemma hoare_weaken {A} (P P' : S -> Prop) (m : ST S A) (Q Q' : A -> S -> Prop) :
  hoare P' m Q' -> (∀ s, P s -> P' s) -> (∀ a s, Q' a s -> Q a s) -> hoare P m Q.
Proof.
  intros Hm HP HQ s Hs. specialize (Hm s (HP s Hs)). destruct (m s) as [[a s']|]; [by apply HQ | done].
Qed.
End ST.

(** Running a computation on a component of a larger state. *)
Definition zoom {S T A} (get : T -> S) (put : S -> T -> T) (m : ST S A) : ST T A := λ t,
  match m (get t) with Some (a, s) => Some (a, put s t) | None => None end.

(** * Registers *)

Abbreviation CPU := (ST ARMul_State).

Definition reg (i : Z) : CPU Z := λ s, r ← Reg s !! Z.to_nat i; Some (r, s).
Definition set_reg (i v : Z) : CPU unit := λ s,
  if bool_decide (0 <= i < 16) then Some (tt, s<|Reg := <[Z.to_nat i := v]> (Reg s)|>) else None.
Definition pc (s : ARMul_State) : Z := rd (Reg s) 15.
Definition set_pc (f : ARMul_State -> Z) : CPU unit :=
  modify (λ s, s<|Reg := <[15%nat := f s]> (Reg s)|>).

(** The operand of a register that reads as the address of the instruction
    plus two instructions when it is the program counter. *)
Definition reg_plus_pc (i : Z) : CPU Z :=
  r ← reg i;
  if i =? 15 then gets (λ s, u32 (r + 2 * GetInstructionSize s)) else mret r.

(* src: arm_dyncom_run.h *)
Definition CHECK_READ_REG15_WA (Rn : Z) : CPU Z :=
  if Rn =? 15 then gets (λ s, u32 ((pc s .& unot 32 3) + GetInstructionSize s * 2)) else reg Rn.
(* src: arm_dyncom_run.h *)
Definition CHECK_READ_REG15 (Rn : Z) : CPU Z :=
  if Rn =? 15 then gets (λ s, u32 ((pc s .& unot 32 1) + GetInstructionSize s * 2)) else reg Rn.

(** * Conditions and flags *)

(* src: armstate.h *)
Inductive ConditionCode :=
  EQ | NE | CS | CC | MI | PL | VS | VC | HI | LS | GE | LT | GT | LE | AL | NV.
(* src: armstate.h | enum ConditionCode { | ConditionCode *)
Definition cond_code (c : ConditionCode) : Z :=
  match c with
  | EQ => 0 | NE => 1 | CS => 2 | CC => 3 | MI => 4 | PL => 5 | VS => 6 | VC => 7
  | HI => 8 | LS => 9 | GE => 10 | LT => 11 | GT => 12 | LE => 13 | AL => 14 | NV => 15
  end.
Coercion cond_code : ConditionCode >-> Z.

(* src: arm_dyncom_interpreter.cpp *)
Definition CondPassed (cpu : ARMul_State) (cond : Z) : bool :=
  let n_flag := nz (NFlag cpu) in
  let z_flag := nz (ZFlag cpu) in
  let c_flag := nz (CFlag cpu) in
  let v_flag := nz (VFlag cpu) in
  match cond with
  | 0 => z_flag
  | 1 => negb z_flag
  | 2 => c_flag
  | 3 => negb c_flag
  | 4 => n_flag
  | 5 => negb n_flag
  | 6 => v_flag
  | 7 => negb v_flag
  | 8 => c_flag && negb z_flag
  | 9 => negb c_flag || z_flag
  | 10 => eqb n_flag v_flag
  | 11 => negb (eqb n_flag v_flag)
  | 12 => negb z_flag && eqb n_flag v_flag
  | 13 => z_flag || negb (eqb n_flag v_flag)
  | 14 | 15 => true
  | _ => false
  end.

(* src: arm_dyncom_interpreter.cpp *)
Definition UPDATE_NFLAG (dst : Z) : CPU unit :=
  modify (λ s, s<|NFlag := if nz (BIT dst 31) then 1 else 0|>).
(* src: arm_dyncom_interpreter.cpp *)
Definition UPDATE_ZFLAG (dst : Z) : CPU unit :=
  modify (λ s, s<|ZFlag := if nz dst then 0 else 1|>).
(* src: arm_dyncom_interpreter.cpp *)
Definition UPDATE_CFLAG_WITH_SC : CPU unit :=
  modify (λ s, s<|CFlag := shifter_carry_out s|>).

(* src: arm_dyncom_interpreter.cpp *)
Definition SAVE_NZCVT (s : ARMul_State) : ARMul_State :=
  s<|Cpsr := (Cpsr s .& 0x0fffffdf) .| u32 (NFlag s ≪ 31) .| u32 (ZFlag s ≪ 30)
             .| u32 (CFlag s ≪ 29) .| u32 (VFlag s ≪ 28) .| u32 (TFlag s ≪ 5)|>.
(* src: arm_dyncom_interpreter.cpp *)
Definition LOAD_NZCVT (s : ARMul_State) : ARMul_State :=
  s<|NFlag := Cpsr s ≫ 31|><|ZFlag := (Cpsr s ≫ 30) .& 1|><|CFlag := (Cpsr s ≫ 29) .& 1|>
   <|VFlag := (Cpsr s ≫ 28) .& 1|><|TFlag := (Cpsr s ≫ 5) .& 1|>.

(** * Shifts of 32-bit values *)

Definition lsl32 (n i : Z) : Z := u32 (n ≪ (i mod 32)).
Definition lsr32 (n i : Z) : Z := n ≫ (i mod 32).
Definition asr32 (n i : Z) : Z := u32 (s32 n ≫ (i mod 32)).
(* src: arm_dyncom_interpreter.cpp | #define ROTATE_RIGHT(n, i, l) | ROTATE_RIGHT_32 *)
Definition ROTATE_RIGHT_32 (n i : Z) : Z := lsl32 n (32 - i) .| lsr32 n i.

(** * Shifter operands *)

(** The functions a [shtop_fp_t] points to; [None] is the null pointer. *)
Inductive shtop_fp_t :=
  Immediate | Register | LogicalShiftLeftByImmediate | LogicalShiftLeftByRegister
| LogicalShiftRightByImmediate | LogicalShiftRightByRegister | ArithmeticShiftRightByImmediate
| ArithmeticShiftRightByRegister | RotateRightByImmediate | RotateRightByRegister.

Definition set_sc (c : Z) : CPU unit := modify (λ s, s<|shifter_carry_out := c|>).
Definition sc_cflag : CPU unit := modify (λ s, s<|shifter_carry_out := CFlag s|>).

Section dpo.
Context (sht_oper : Z).
(* src: arm_dyncom_interpreter.cpp | #define RM BITS(sht_oper, 0, 3) *)
Definition RM : Z := BITS sht_oper 0 3.
(* src: arm_dyncom_interpreter.cpp | #define RS BITS(sht_oper, 8, 11) *)
Definition RS : Z := BITS sht_oper 8 11.

(* src: arm_dyncom_interpreter.cpp | DPO(Immediate)(ARMul_State* | DataProcessingOperandsImmediate *)
Definition DPO_Immediate : CPU Z :=
  let immed_8 := BITS sht_oper 0 7 in
  let rotate_imm := BITS sht_oper 8 11 in
  let shifter_operand := ROTATE_RIGHT_32 immed_8 (rotate_imm * 2) in
  (if rotate_imm =? 0 then sc_cflag else set_sc (BIT shifter_operand 31));;
  mret shifter_operand.

(* src: arm_dyncom_interpreter.cpp | DPO(Register)(ARMul_State* | DataProcessingOperandsRegister *)
Definition DPO_Register : CPU Z := rm ← CHECK_READ_REG15 RM; sc_cflag;; mret rm.

(* src: arm_dyncom_interpreter.cpp | DPO(LogicalShiftLeftByImmediate)(ARMul_State* | DataProcessingOperandsLogicalShiftLeftByImmediate *)
Definition DPO_LogicalShiftLeftByImmediate : CPU Z :=
  let shift_imm := BITS sht_oper 7 11 in
  rm ← CHECK_READ_REG15 RM;
  if shift_imm =? 0 then sc_cflag;; mret rm
  else set_sc (BIT rm (32 - shift_imm));; mret (lsl32 rm shift_imm).

(* src: arm_dyncom_interpreter.cpp | DPO(LogicalShiftLeftByRegister)(ARMul_State* | DataProcessingOperandsLogicalShiftLeftByRegister *)
Definition DPO_LogicalShiftLeftByRegister : CPU Z :=
  rm ← CHECK_READ_REG15 RM;
  rs ← CHECK_READ_REG15 RS;
  let n := BITS rs 0 7 in
  if n =? 0 then sc_cflag;; mret rm
  else if n <? 32 then set_sc (BIT rm (32 - n));; mret (lsl32 rm n)
  else if n =? 32 then set_sc (BIT rm 0);; mret 0
  else set_sc 0;; mret 0.

(* src: arm_dyncom_interpreter.cpp | DPO(LogicalShiftRightByImmediate)(ARMul_State* | DataProcessingOperandsLogicalShiftRightByImmediate *)
Definition DPO_LogicalShiftRightByImmediate : CPU Z :=
  rm ← CHECK_READ_REG15 RM;
  let shift_imm := BITS sht_oper 7 11 in
  if shift_imm =? 0 then set_sc (BIT rm 31);; mret 0
  else set_sc (BIT rm (shift_imm - 1));; mret (lsr32 rm shift_imm).

(* src: arm_dyncom_interpreter.cpp | DPO(LogicalShiftRightByRegister)(ARMul_State* | DataProcessingOperandsLogicalShiftRightByRegister *)
Definition DPO_LogicalShiftRightByRegister : CPU Z :=
  rs ← CHECK_READ_REG15 RS;
  rm ← CHECK_READ_REG15 RM;
  let n := BITS rs 0 7 in
  if n =? 0 then sc_cflag;; mret rm
  else if n <? 32 then set_sc (BIT rm (n - 1));; mret (lsr32 rm n)
  else if n =? 32 then set_sc (BIT rm 31);; mret 0
  else set_sc 0;; mret 0.

(* src: arm_dyncom_interpreter.cpp | DPO(ArithmeticShiftRightByImmediate)(ARMul_State* | DataProcessingOperandsArithmeticShiftRightByImmediate *)
Definition DPO_ArithmeticShiftRightByImmediate : CPU Z :=
  rm ← CHECK_READ_REG15 RM;
  let shift_imm := BITS sht_oper 7 11 in
  if shift_imm =? 0 then
    set_sc (BIT rm 31);; mret (if BIT rm 31 =? 0 then 0 else 0xFFFFFFFF)
  else set_sc (BIT rm (shift_imm - 1));; mret (asr32 rm shift_imm).

(* src: arm_dyncom_interpreter.cpp | DPO(ArithmeticShiftRightByRegister)(ARMul_State* | DataProcessingOperandsArithmeticShiftRightByRegister *)
Definition DPO_ArithmeticShiftRightByRegister : CPU Z :=
  rs ← CHECK_READ_REG15 RS;
  rm ← CHECK_READ_REG15 RM;
  let n := BITS rs 0 7 in
  if n =? 0 then sc_cflag;; mret rm
  else if n <? 32 then set_sc (BIT rm (n - 1));; mret (asr32 rm n)
  else set_sc (BIT rm 31);; mret (if BIT rm 31 =? 0 then 0 else 0xFFFFFFFF).

(* src: arm_dyncom_interpreter.cpp | DPO(RotateRightByImmediate)(ARMul_State* | DataProcessingOperandsRotateRightByImmediate *)
Definition DPO_RotateRightByImmediate : CPU Z :=
  rm ← CHECK_READ_REG15 RM;
  let shift_imm := BITS sht_oper 7 11 in
  if shift_imm =? 0 then
    c ← gets CFlag;
    set_sc (BIT rm 0);; mret (u32 (c ≪ 31) .| (rm ≫ 1))
  else set_sc (BIT rm (shift_imm - 1));; mret (ROTATE_RIGHT_32 rm shift_imm).

(* src: arm_dyncom_interpreter.cpp | DPO(RotateRightByRegister)(ARMul_State* | DataProcessingOperandsRotateRightByRegister *)
Definition DPO_RotateRightByRegister : CPU Z :=
  rm ← CHECK_READ_REG15 RM;
  rs ← CHECK_READ_REG15 RS;
  if BITS rs 0 7 =? 0 then sc_cflag;; mret rm
  else if BITS rs 0 4 =? 0 then set_sc (BIT rm 31);; mret rm
  else set_sc (BIT rm (BITS rs 0 4 - 1));; mret (ROTATE_RIGHT_32 rm (BITS rs 0 4)).

Definition DPO (f : shtop_fp_t) : CPU Z :=
  match f with
  | Immediate => DPO_Immediate
  | Register => DPO_Register
  | LogicalShiftLeftByImmediate => DPO_LogicalShiftLeftByImmediate
  | LogicalShiftLeftByRegister => DPO_LogicalShiftLeftByRegister
  | LogicalShiftRightByImmediate => DPO_LogicalShiftRightByImmediate
  | LogicalShiftRightByRegister => DPO_LogicalShiftRightByRegister
  | ArithmeticShiftRightByImmediate => DPO_ArithmeticShiftRightByImmediate
  | ArithmeticShiftRightByRegister => DPO_ArithmeticShiftRightByRegister
  | RotateRightByImmediate => DPO_RotateRightByImmediate
  | RotateRightByRegister => DPO_RotateRightByRegister
  end.
End dpo.

(* src: arm_dyncom_interpreter.cpp | shtop_fp_t GetShifterOp(unsigned int inst) { *)
Definition GetShifterOp (inst : Z) : option shtop_fp_t :=
  if nz (BIT inst 25) then Some Immediate
  else if BITS inst 4 11 =? 0 then Some Register
  else if BITS inst 4 6 =? 0 then Some LogicalShiftLeftByImmediate
  else if BITS inst 4 7 =? 1 then Some LogicalShiftLeftByRegister
  else if BITS inst 4 6 =? 2 then Some LogicalShiftRightByImmediate
  else if BITS inst 4 7 =? 3 then Some LogicalShiftRightByRegister
  else if BITS inst 4 6 =? 4 then Some ArithmeticShiftRightByImmediate
  else if BITS inst 4 7 =? 5 then Some ArithmeticShiftRightByRegister
  else if BITS inst 4 6 =? 6 then Some RotateRightByImmediate
  else if BITS inst 4 7 =? 7 then Some RotateRightByRegister
  else None.

(** [SHIFTER_OPERAND]: the call through the pointer. *)
(* src: arm_dyncom_interpreter.cpp | #define SHIFTER_OPERAND *)
Definition SHIFTER_OPERAND (f : option shtop_fp_t) (shifter_operand : Z) : CPU Z :=
  match f with Some f => DPO shifter_operand f | None => fail end.

(** * Addressing modes

    A [get_addr_fp_t] stores the address in its reference parameter and may
    write the base register back. *)

(** The functions a [get_addr_fp_t] points to; [None] is the null pointer. *)
Inductive get_addr_fp_t :=
  LnSWoUB_ImmediateOffset | LnSWoUB_RegisterOffset | LnSWoUB_ScaledRegisterOffset
| LnSWoUB_ImmediatePreIndexed | LnSWoUB_RegisterPreIndexed | LnSWoUB_ScaledRegisterPreIndexed
| LnSWoUB_ImmediatePostIndexed | LnSWoUB_RegisterPostIndexed | LnSWoUB_ScaledRegisterPostIndexed
| MLnS_ImmediateOffset | MLnS_RegisterOffset | MLnS_ImmediatePreIndexed | MLnS_RegisterPreIndexed
| MLnS_ImmediatePostIndexed | MLnS_RegisterPostIndexed
| LdnStM_IncrementAfter | LdnStM_IncrementBefore | LdnStM_DecrementAfter | LdnStM_DecrementBefore.

Section addressing.
Context (inst : Z).
(* src: arm_dyncom_interpreter.cpp *)
Definition U_BIT : bool := nz (BIT inst 23).
(* src: arm_dyncom_interpreter.cpp *)
Definition OFFSET_12 : Z := BITS inst 0 11.
Definition Rn_ : Z := BITS inst 16 19.
Definition Rm_ : Z := BITS inst 0 3.
Definition cond_ : Z := BITS inst 28 31.

(** [rn + offset] or [rn - offset], by the U bit. *)
Definition up_down (rn offset : Z) : Z := if U_BIT then u32 (rn + offset) else u32 (rn - offset).
(** [cpu->Reg[Rn] += offset] or [-= offset], by the U bit. *)
Definition add_to_base (offset : Z) : CPU unit := rn ← reg Rn_; set_reg Rn_ (up_down rn offset).
Definition if_passed (m : CPU unit) : CPU unit :=
  b ← gets (λ s, CondPassed s cond_); when_ b m.

(** The offset [(immedH << 4) | immedL] of the miscellaneous loads and stores. *)
(* src: arm_dyncom_interpreter.cpp | unsigned int offset_8 = (immedH << 4) #1 | MLnSImmediateOffset *)
Definition offset_8 : Z := (BITS inst 8 11 ≪ 4) .| BITS inst 0 3.

(* src: arm_dyncom_interpreter.cpp | LnSWoUB(ImmediateOffset)(ARMul_State* | LnSWoUBImmediateOffset *)
Definition LnSWoUB_ImmediateOffset_ : CPU Z :=
  rn ← CHECK_READ_REG15_WA Rn_; mret (up_down rn OFFSET_12).

(* src: arm_dyncom_interpreter.cpp | LnSWoUB(RegisterOffset)(ARMul_State* | LnSWoUBRegisterOffset *)
Definition LnSWoUB_RegisterOffset_ : CPU Z :=
  rn ← CHECK_READ_REG15_WA Rn_;
  rm ← CHECK_READ_REG15_WA Rm_;
  mret (up_down rn rm).

(* src: arm_dyncom_interpreter.cpp | LnSWoUB(ImmediatePostIndexed)(ARMul_State* | LnSWoUBImmediatePostIndexed *)
Definition LnSWoUB_ImmediatePostIndexed_ : CPU Z :=
  addr ← CHECK_READ_REG15_WA Rn_; add_to_base OFFSET_12;; mret addr.

(* src: arm_dyncom_interpreter.cpp | LnSWoUB(ImmediatePreIndexed)(ARMul_State* | LnSWoUBImmediatePreIndexed *)
Definition LnSWoUB_ImmediatePreIndexed_ : CPU Z :=
  rn ← CHECK_READ_REG15_WA Rn_;
  let addr := up_down rn OFFSET_12 in
  if_passed (set_reg Rn_ addr);; mret addr.

(* src: arm_dyncom_interpreter.cpp | static void MLnS(RegisterPreIndexed)(ARMul_State* | MLnSRegisterPreIndexed *)
Definition MLnS_RegisterPreIndexed_ : CPU Z :=
  rn ← CHECK_READ_REG15_WA Rn_;
  rm ← CHECK_READ_REG15_WA Rm_;
  let addr := up_down rn rm in
  if_passed (set_reg Rn_ addr);; mret addr.

(* src: arm_dyncom_interpreter.cpp | LnSWoUB(RegisterPreIndexed)(ARMul_State* | LnSWoUBRegisterPreIndexed *)
Definition LnSWoUB_RegisterPreIndexed_ : CPU Z :=
  rn ← CHECK_READ_REG15_WA Rn_;
  rm ← CHECK_READ_REG15_WA Rm_;
  let addr := up_down rn rm in
  if_passed (set_reg Rn_ addr);; mret addr.

(** The [switch (shift)] of the scaled addressing modes. *)
(* src: arm_dyncom_interpreter.cpp | switch (shift) { #1 | LnSWoUBScaledRegisterPreIndexed *)
Definition scaled_index (shift shift_imm rm cflag : Z) : Z :=
  match shift with
  | 0 => lsl32 rm shift_imm
  | 1 => if shift_imm =? 0 then 0 else lsr32 rm shift_imm
  | 2 => if shift_imm =? 0 then (if BIT rm 31 =? 1 then 0xFFFFFFFF else 0) else asr32 rm shift_imm
  | 3 => if shift_imm =? 0 then u32 (cflag ≪ 31) .| (rm ≫ 1) else ROTATE_RIGHT_32 rm shift_imm
  | _ => 0
  end.

(* src: arm_dyncom_interpreter.cpp | LnSWoUB(ScaledRegisterPreIndexed)(ARMul_State* | LnSWoUBScaledRegisterPreIndexed *)
Definition LnSWoUB_ScaledRegisterPreIndexed_ : CPU Z :=
  rm ← CHECK_READ_REG15_WA Rm_;
  rn ← CHECK_READ_REG15_WA Rn_;
  c ← gets CFlag;
  let addr := up_down rn (scaled_index (BITS inst 5 6) (BITS inst 7 11) rm c) in
  if_passed (set_reg Rn_ addr);; mret addr.

(* src: arm_dyncom_interpreter.cpp | LnSWoUB(ScaledRegisterPostIndexed)(ARMul_State* | LnSWoUBScaledRegisterPostIndexed *)
Definition LnSWoUB_ScaledRegisterPostIndexed_ : CPU Z :=
  addr ← CHECK_READ_REG15_WA Rn_;
  rm ← CHECK_READ_REG15_WA Rm_;
  c ← gets CFlag;
  if_passed (add_to_base (scaled_index (BITS inst 5 6) (BITS inst 7 11) rm c));; mret addr.

(* src: arm_dyncom_interpreter.cpp | LnSWoUB(RegisterPostIndexed)(ARMul_State* | LnSWoUBRegisterPostIndexed *)
Definition LnSWoUB_RegisterPostIndexed_ : CPU Z :=
  rm ← CHECK_READ_REG15_WA Rm_;
  addr ← CHECK_READ_REG15_WA Rn_;
  if_passed (add_to_base rm);; mret addr.

(* src: arm_dyncom_interpreter.cpp | static void MLnS(ImmediateOffset)(ARMul_State* | MLnSImmediateOffset *)
Definition MLnS_ImmediateOffset_ : CPU Z :=
  rn ← CHECK_READ_REG15_WA Rn_; mret (up_down rn offset_8).

(* src: arm_dyncom_interpreter.cpp | static void MLnS(RegisterOffset)(ARMul_State* | MLnSRegisterOffset *)
Definition MLnS_RegisterOffset_ : CPU Z :=
  rn ← CHECK_READ_REG15_WA Rn_;
  rm ← CHECK_READ_REG15_WA Rm_;
  mret (up_down rn rm).

(* src: arm_dyncom_interpreter.cpp | static void MLnS(ImmediatePreIndexed)(ARMul_State* | MLnSImmediatePreIndexed *)
Definition MLnS_ImmediatePreIndexed_ : CPU Z :=
  rn ← CHECK_READ_REG15_WA Rn_;
  let addr := up_down rn offset_8 in
  if_passed (set_reg Rn_ addr);; mret addr.

(* src: arm_dyncom_interpreter.cpp | static void MLnS(ImmediatePostIndexed)(ARMul_State* | MLnSImmediatePostIndexed *)
Definition MLnS_ImmediatePostIndexed_ : CPU Z :=
  rn ← CHECK_READ_REG15_WA Rn_;
  if_passed (set_reg Rn_ (up_down rn offset_8));; mret rn.

(* src: arm_dyncom_interpreter.cpp | static void MLnS(RegisterPostIndexed)(ARMul_State* | MLnSRegisterPostIndexed *)
Definition MLnS_RegisterPostIndexed_ : CPU Z :=
  rm ← CHECK_READ_REG15_WA Rm_;
  addr ← CHECK_READ_REG15_WA Rn_;
  if_passed (add_to_base rm);; mret addr.

(** The loop that counts the registers of the list; the list has 16 bits. *)
Fixpoint count_bits (fuel : nat) (i : Z) : Z :=
  match fuel with
  | O => 0
  | S fuel => if i =? 0 then 0 else (if nz (i .& 1) then 1 else 0) + count_bits fuel (i ≫ 1)
  end.
(* src: arm_dyncom_interpreter.cpp | while (i) { #1 | LdnStMDecrementBefore *)
Definition reg_count : Z := count_bits 16 (BITS inst 0 15).

(** [if (CondPassed(...) && BIT(inst, 21)) cpu->Reg[Rn] += count * 4], or [-=]. *)
Definition write_back (delta : Z) : CPU unit :=
  if_passed (when_ (nz (BIT inst 21)) (rn ← reg Rn_; set_reg Rn_ (u32 (rn + delta)))).

(* src: arm_dyncom_interpreter.cpp | LdnStM(DecrementBefore)(ARMul_State* | LdnStMDecrementBefore *)
Definition LdnStM_DecrementBefore_ : CPU Z :=
  rn ← CHECK_READ_REG15_WA Rn_;
  write_back (- (reg_count * 4));; mret (u32 (rn - reg_count * 4)).

(* src: arm_dyncom_interpreter.cpp | LdnStM(IncrementBefore)(ARMul_State* | LdnStMIncrementBefore *)
Definition LdnStM_IncrementBefore_ : CPU Z :=
  rn ← CHECK_READ_REG15_WA Rn_; write_back (reg_count * 4);; mret (u32 (rn + 4)).

(* src: arm_dyncom_interpreter.cpp | LdnStM(IncrementAfter)(ARMul_State* | LdnStMIncrementAfter *)
Definition LdnStM_IncrementAfter_ : CPU Z :=
  rn ← CHECK_READ_REG15_WA Rn_; write_back (reg_count * 4);; mret rn.

(* src: arm_dyncom_interpreter.cpp | LdnStM(DecrementAfter)(ARMul_State* | LdnStMDecrementAfter *)
Definition LdnStM_DecrementAfter_ : CPU Z :=
  rn ← CHECK_READ_REG15_WA Rn_;
  write_back (- (reg_count * 4));; mret (u32 (rn - reg_count * 4 + 4)).

(* src: arm_dyncom_interpreter.cpp | LnSWoUB(ScaledRegisterOffset)(ARMul_State* | LnSWoUBScaledRegisterOffset *)
Definition LnSWoUB_ScaledRegisterOffset_ : CPU Z :=
  rm ← CHECK_READ_REG15_WA Rm_;
  rn ← CHECK_READ_REG15_WA Rn_;
  c ← gets CFlag;
  mret (up_down rn (scaled_index (BITS inst 5 6) (BITS inst 7 11) rm c)).

Definition get_addr_fn (f : get_addr_fp_t) : CPU Z :=
  match f with
  | LnSWoUB_ImmediateOffset => LnSWoUB_ImmediateOffset_
  | LnSWoUB_RegisterOffset => LnSWoUB_RegisterOffset_
  | LnSWoUB_ScaledRegisterOffset => LnSWoUB_ScaledRegisterOffset_
  | LnSWoUB_ImmediatePreIndexed => LnSWoUB_ImmediatePreIndexed_
  | LnSWoUB_RegisterPreIndexed => LnSWoUB_RegisterPreIndexed_
  | LnSWoUB_ScaledRegisterPreIndexed => LnSWoUB_ScaledRegisterPreIndexed_
  | LnSWoUB_ImmediatePostIndexed => LnSWoUB_ImmediatePostIndexed_
  | LnSWoUB_RegisterPostIndexed => LnSWoUB_RegisterPostIndexed_
  | LnSWoUB_ScaledRegisterPostIndexed => LnSWoUB_ScaledRegisterPostIndexed_
  | MLnS_ImmediateOffset => MLnS_ImmediateOffset_
  | MLnS_RegisterOffset => MLnS_RegisterOffset_
  | MLnS_ImmediatePreIndexed => MLnS_ImmediatePreIndexed_
  | MLnS_RegisterPreIndexed => MLnS_RegisterPreIndexed_
  | MLnS_ImmediatePostIndexed => MLnS_ImmediatePostIndexed_
  | MLnS_RegisterPostIndexed => MLnS_RegisterPostIndexed_
  | LdnStM_IncrementAfter => LdnStM_IncrementAfter_
  | LdnStM_IncrementBefore => LdnStM_IncrementBefore_
  | LdnStM_DecrementAfter => LdnStM_DecrementAfter_
  | LdnStM_DecrementBefore => LdnStM_DecrementBefore_
  end.

(* src: arm_dyncom_interpreter.cpp | get_addr_fp_t GetAddressingOp(unsigned int inst) { *)
Definition GetAddressingOp : option get_addr_fp_t :=
  let P := BITS inst 24 27 in
  let W := BIT inst 21 in
  let plain := BITS inst 4 11 =? 0 in
  let scaled := BIT inst 4 =? 0 in
  let misc := (BIT inst 7 =? 1) && (BIT inst 4 =? 1) in
  if (P =? 5) && (W =? 0) then Some LnSWoUB_ImmediateOffset
  else if (P =? 7) && (W =? 0) && plain then Some LnSWoUB_RegisterOffset
  else if (P =? 7) && (W =? 0) && scaled then Some LnSWoUB_ScaledRegisterOffset
  else if (P =? 5) && (W =? 1) then Some LnSWoUB_ImmediatePreIndexed
  else if (P =? 7) && (W =? 1) && plain then Some LnSWoUB_RegisterPreIndexed
  else if (P =? 7) && (W =? 1) && scaled then Some LnSWoUB_ScaledRegisterPreIndexed
  else if (P =? 4) && (W =? 0) then Some LnSWoUB_ImmediatePostIndexed
  else if (P =? 6) && (W =? 0) && plain then Some LnSWoUB_RegisterPostIndexed
  else if (P =? 6) && (W =? 0) && scaled then Some LnSWoUB_ScaledRegisterPostIndexed
  else if (P =? 1) && (BITS inst 21 22 =? 2) && misc then Some MLnS_ImmediateOffset
  else if (P =? 1) && (BITS inst 21 22 =? 0) && misc then Some MLnS_RegisterOffset
  else if (P =? 1) && (BITS inst 21 22 =? 3) && misc then Some MLnS_ImmediatePreIndexed
  else if (P =? 1) && (BITS inst 21 22 =? 1) && misc then Some MLnS_RegisterPreIndexed
  else if (P =? 0) && (BITS inst 21 22 =? 2) && misc then Some MLnS_ImmediatePostIndexed
  else if (P =? 0) && (BITS inst 21 22 =? 0) && misc then Some MLnS_RegisterPostIndexed
  else if BITS inst 23 27 =? 0x11 then Some LdnStM_IncrementAfter
  else if BITS inst 23 27 =? 0x13 then Some LdnStM_IncrementBefore
  else if BITS inst 23 27 =? 0x10 then Some LdnStM_DecrementAfter
  else if BITS inst 23 27 =? 0x12 then Some LdnStM_DecrementBefore
  else None.

(* src: arm_dyncom_interpreter.cpp | get_addr_fp_t GetAddressingOpLoadStoreT(unsigned int inst) { *)
Definition GetAddressingOpLoadStoreT : option get_addr_fp_t :=
  if BITS inst 25 27 =? 2 then Some LnSWoUB_ImmediatePostIndexed
  else if BITS inst 25 27 =? 3 then Some LnSWoUB_ScaledRegisterPostIndexed
  else None.
End addressing.

(** [inst_cream->get_addr(cpu, inst_cream->inst, addr)]. *)
Definition get_addr_call (f : option get_addr_fp_t) (inst : Z) : CPU Z :=
  match f with Some f => get_addr_fn inst f | None => fail end.

(** * The end of a label *)

(** Where a label of the main loop goes on: the next instruction of the block,
    [INC_PC(l)] bytes after the structure of this one ([FETCH_INST]), [DISPATCH],
    or a [return] of the main loop. *)
Inductive flow := Next (l : Z) | Dispatch | Return.

Definition next_pc : CPU unit := set_pc (λ s, u32 (pc s + GetInstructionSize s)).

(** [cpu->Reg[15] += cpu->GetInstructionSize(); INC_PC(l); FETCH_INST] *)
Definition advance (l : Z) : CPU flow := next_pc;; mret (Next l).

(** [inst_base->cond == ConditionCode::AL || CondPassed(cpu, inst_base->cond)] *)
Definition passed (cond : Z) : CPU bool := gets (λ s, (cond =? AL) || CondPassed s cond).

(** A label whose body runs under the condition; a body that returns [true]
    leaves by [goto DISPATCH]. *)
Definition label (cond l : Z) (body : CPU bool) : CPU flow :=
  p ← passed cond;
  jump ← (if p : bool then body else mret false);
  if jump : bool then mret Dispatch else advance l.

(** A label whose body never jumps. *)
Definition label_ (cond l : Z) (body : CPU unit) : CPU flow := label cond l (body;; mret false).

(** A label that ends in [goto DISPATCH] whether its body ran or not. *)
Definition label_branch (cond : Z) (body : CPU unit) : CPU flow :=
  p ← passed cond;
  (if p : bool then body else next_pc);; mret Dispatch.
