(* ===== verification/ArmTrans.v ===== *)
(** The translation of instruction words to the records the main loop executes:
    [arm_dyncom_trans.h] and [arm_dyncom_trans.cpp], with the structures and
    translators of [vfpinstr.cpp].

    The structure behind [arm_inst::component] is a value of the type
    [component], a constructor for the structures of one layout.  A member the
    translator leaves unset is 0; no label of such an instruction reads it. *)

From S2P Require Import Prelude ArmSupp ArmState ArmOps.

(** * Translated instructions *)

(* src: arm_dyncom_trans.h *)
Inductive TransExtData :=
  COND | NON_BRANCH | DIRECT_BRANCH | INDIRECT_BRANCH | CALL | RET | END_OF_PAGE | THUMB | SINGLE_STEP.
#[global] Instance TransExtData_eq_dec : EqDecision TransExtData.
Proof. solve_decision. Defined.

(** [dp_inst] stands for [adc_inst], [add_inst], [orr_inst], [and_inst],
    [eor_inst], [bic_inst], [sub_inst], [tst_inst], [rsb_inst], [rsc_inst] and
    [sbc_inst]; [cmp_inst] for [cmn_inst] and [teq_inst] too; [mov_inst] for
    [mvn_inst]; [ext_inst] for [sxtb_inst], [sxth_inst], [uxtb_inst] and
    [uxth_inst]; the last group are the structures of [vfpinstr.cpp]. *)
(* src: arm_dyncom_trans.h | struct generic_arm_inst { | arm_inst::component | ..struct ldst_inst { *)
Inductive component :=
| no_component
| generic_arm_inst (Ra Rm Rn Rd op1 op2 : Z)
| dp_inst (I S Rn Rd shifter_operand : Z) (shtop_func : option shtop_fp_t)
| cmp_inst (I Rn shifter_operand : Z) (shtop_func : option shtop_fp_t)
| mov_inst (I S Rd shifter_operand : Z) (shtop_func : option shtop_fp_t)
| bbl_inst (L signed_immed_24 next_addr jmp_addr : Z)
| bx_inst (Rm : Z)
| blx_inst (val inst : Z)
| clz_inst (Rm Rd : Z)
| cps_inst (imod0 imod1 mmod A I F mode : Z)
| clrex_inst | stc_inst | ldc_inst | pld_inst
| bkpt_inst (imm : Z)
| swi_inst (num : Z)
| rev_inst (Rd Rm op1 op2 : Z)
| mul_inst (S Rd Rs Rm : Z)
| smul_inst (Rd Rs Rm x y : Z)
| umull_inst (S RdHi RdLo Rs Rm : Z)
| smlad_inst (m Rm Rd Ra Rn op1 op2 : Z)
| smla_inst (x y Rm Rd Rs Rn : Z)
| smlalxy_inst (x y RdLo RdHi Rm Rn : Z)
| ssat_inst (Rn Rd imm5 sat_imm shift_type : Z)
| umaal_inst (Rn Rm RdHi RdLo : Z)
| umlal_inst (S Rm Rs RdHi RdLo : Z)
| smlald_inst (RdLo RdHi Rm Rn swap op1 op2 : Z)
| mla_inst (S Rn Rd Rs Rm : Z)
| mrc_inst (opcode_1 opcode_2 cp_num crn crm Rd inst : Z)
| mcr_inst (opcode_1 opcode_2 cp_num crn crm Rd inst : Z)
| mcrr_inst (opcode_1 cp_num crm rt rt2 : Z)
| mrs_inst (R Rd : Z)
| msr_inst (field_mask R inst : Z)
| ext_inst (Rd Rm rotate : Z)
| sxtab_inst (Rd Rn Rm rotate : Z)
| sxtah_inst (Rd Rn Rm rotate : Z)
| uxtab_inst (Rn Rd rotate Rm : Z)
| uxtah_inst (Rn Rd rotate Rm : Z)
| cdp_inst (opcode_1 CRn CRd cp_num opcode_2 CRm inst : Z)
| swp_inst (Rn Rd Rm : Z)
| setend_inst (set_bigend : Z)
| b_2_thumb (imm : Z)
| b_cond_thumb (imm cond : Z)
| bl_1_thumb (imm : Z)
| bl_2_thumb (imm : Z)
| blx_1_thumb (imm instr : Z)
| pkh_inst (Rm Rn Rd imm : Z)
| ldst_inst (inst : Z) (get_addr : option get_addr_fp_t)
| vfp_inst (instr dp_operation : Z)
| vmovi_inst (single d imm : Z)
| vmovr_inst (single d m : Z)
| vmovbrs_inst (to_arm t n : Z)
| vmsr_inst (reg Rt : Z)
| vmovbrc_inst (esize index d t : Z)
| vmovbrrss_inst (to_arm t t2 m : Z)
| vstr_inst (single n d imm32 add : Z)
| vpush_inst (single d imm32 regs : Z)
| vstm_inst (single add wback d n imm32 regs : Z).

(** [sizeof] of the structures where pointers have 8 bytes and an empty
    structure has 1. *)
Definition sizeof (c : component) : Z :=
  match c with
  | no_component => 0
  | clrex_inst | stc_inst | ldc_inst | pld_inst => 1
  | bx_inst _ | bkpt_inst _ | swi_inst _ | setend_inst _ | b_2_thumb _ | bl_1_thumb _ | bl_2_thumb _ => 4
  | blx_inst _ _ | clz_inst _ _ | mrs_inst _ _ | b_cond_thumb _ _ | blx_1_thumb _ _ | vfp_inst _ _
  | vmsr_inst _ _ => 8
  | msr_inst _ _ _ | ext_inst _ _ _ | swp_inst _ _ _ | vmovi_inst _ _ _ | vmovr_inst _ _ _
  | vmovbrs_inst _ _ _ => 12
  | bbl_inst _ _ _ _ | rev_inst _ _ _ _ | mul_inst _ _ _ _ | umaal_inst _ _ _ _ | sxtab_inst _ _ _ _
  | sxtah_inst _ _ _ _ | uxtab_inst _ _ _ _ | uxtah_inst _ _ _ _ | pkh_inst _ _ _ _ | ldst_inst _ _
  | vmovbrc_inst _ _ _ _ | vmovbrrss_inst _ _ _ _ | vpush_inst _ _ _ _ => 16
  | generic_arm_inst _ _ _ _ _ _ | smul_inst _ _ _ _ _ | umull_inst _ _ _ _ _ | ssat_inst _ _ _ _ _
  | umlal_inst _ _ _ _ _ | mla_inst _ _ _ _ _ | mcrr_inst _ _ _ _ _ | vstr_inst _ _ _ _ _ => 20
  | cmp_inst _ _ _ _ | mov_inst _ _ _ _ _ | smla_inst _ _ _ _ _ _ | smlalxy_inst _ _ _ _ _ _ => 24
  | cps_inst _ _ _ _ _ _ _ | smlad_inst _ _ _ _ _ _ _ | smlald_inst _ _ _ _ _ _ _
  | mrc_inst _ _ _ _ _ _ _ | mcr_inst _ _ _ _ _ _ _ | cdp_inst _ _ _ _ _ _ _
  | vstm_inst _ _ _ _ _ _ _ => 28
  | dp_inst _ _ _ _ _ _ => 32
  end.

(* src: arm_dyncom_trans.h *)
Record arm_inst := mk_arm_inst { idx : Z; cond : Z; br : TransExtData; inst_component : component }.

(** [sizeof(arm_inst)] *)
Definition sizeof_arm_inst : Z := 12.
(* src: arm_dyncom_trans.h *)
Definition TRANS_CACHE_SIZE : Z := 64 * 1024 * 2000.

(** * Translators

    A translator also calls [AllocBuffer] for the instruction and its
    structure, which is the last step of [InterpreterTranslateInstruction] in
    the model: nothing in between reads the buffer. *)

Section trans.
Context (inst : Z) (index : Z).
#[local] Notation Rd12 := (BITS inst 12 15).
#[local] Notation Rn16 := (BITS inst 16 19).
#[local] Notation Rs8 := (BITS inst 8 11).
#[local] Notation Rm0 := (BITS inst 0 3).

(** The members every ARM translator sets alike. *)
Definition mk_inst (br : TransExtData) (c : component) : arm_inst :=
  mk_arm_inst index (BITS inst 28 31) br c.
Definition mk_AL (br : TransExtData) (c : component) : arm_inst := mk_arm_inst index AL br c.
Definition branch_if_15 (r : Z) : TransExtData := if r =? 15 then INDIRECT_BRANCH else NON_BRANCH.

(** The translators of the data-processing instructions have the same body. *)
Definition trans_dp : arm_inst :=
  mk_inst (branch_if_15 Rd12)
    (dp_inst (BIT inst 25) (BIT inst 20) Rn16 Rd12 (BITS inst 0 11) (GetShifterOp inst)).
Definition trans_cmp : arm_inst :=
  mk_inst NON_BRANCH (cmp_inst (BIT inst 25) Rn16 (BITS inst 0 11) (GetShifterOp inst)).
Definition trans_mov : arm_inst :=
  mk_inst (branch_if_15 Rd12)
    (mov_inst (BIT inst 25) (BIT inst 20) Rd12 (BITS inst 0 11) (GetShifterOp inst)).
Definition trans_ldst (br : TransExtData) : arm_inst :=
  mk_inst br (ldst_inst inst (GetAddressingOp inst)).
(** [op1] is a field of two bits but for [sel]. *)
Definition trans_parallel : arm_inst :=
  mk_inst NON_BRANCH (generic_arm_inst 0 Rm0 Rn16 Rd12 (BITS inst 20 21) (BITS inst 5 7)).

(* src: arm_dyncom_trans.cpp | static ARM_INST_PTR INTERPRETER_TRANSLATE(adc)(unsigned | InterpreterTranslate_adc *)
Definition InterpreterTranslate_adc : arm_inst := trans_dp.
(* src: arm_dyncom_trans.cpp | static ARM_INST_PTR INTERPRETER_TRANSLATE(add)(unsigned | InterpreterTranslate_add *)
Definition InterpreterTranslate_add : arm_inst := trans_dp.
(* src: arm_dyncom_trans.cpp | static ARM_INST_PTR INTERPRETER_TRANSLATE (and)(unsigned | InterpreterTranslate_and *)
Definition InterpreterTranslate_and : arm_inst := trans_dp.
(* src: arm_dyncom_trans.cpp | static ARM_INST_PTR INTERPRETER_TRANSLATE(bbl)(unsigned | InterpreterTranslate_bbl *)
Definition InterpreterTranslate_bbl : arm_inst :=
  mk_inst (if nz (BIT inst 24) then CALL else DIRECT_BRANCH)
    (bbl_inst (BIT inst 24)
       (s32 (if nz (BIT inst 23) then u32 ((0xff000000 .| (inst .& 0xffffff)) ≪ 2)
             else u32 ((inst .& 0x7fffff) ≪ 2))) 0 0).
(* src: arm_dyncom_trans.cpp | static ARM_INST_PTR INTERPRETER_TRANSLATE(bic)(unsigned | InterpreterTranslate_bic *)
Definition InterpreterTranslate_bic : arm_inst := trans_dp.
(* src: arm_dyncom_trans.cpp | static ARM_INST_PTR INTERPRETER_TRANSLATE(bkpt)(unsigned | InterpreterTranslate_bkpt *)
Definition InterpreterTranslate_bkpt : arm_inst :=
  mk_inst NON_BRANCH (bkpt_inst ((BITS inst 8 19 ≪ 4) .| BITS inst 0 3)).
(* src: arm_dyncom_trans.cpp | static ARM_INST_PTR INTERPRETER_TRANSLATE(blx)(unsigned | InterpreterTranslate_blx *)
Definition InterpreterTranslate_blx : arm_inst :=
  mk_inst INDIRECT_BRANCH
    (blx_inst (if (BITS inst 20 27 =? 0x12) && (BITS inst 4 7 =? 0x3) then BITS inst 0 3
               else BITS inst 0 23) inst).
(* src: arm_dyncom_trans.cpp | static ARM_INST_PTR INTERPRETER_TRANSLATE(bx)(unsigned | InterpreterTranslate_bx *)
Definition InterpreterTranslate_bx : arm_inst := mk_inst INDIRECT_BRANCH (bx_inst Rm0).
(* src: arm_dyncom_trans.cpp | static ARM_INST_PTR INTERPRETER_TRANSLATE(bxj)(unsigned | InterpreterTranslate_bxj *)
Definition InterpreterTranslate_bxj : arm_inst := InterpreterTranslate_bx.
(* src: arm_dyncom_trans.cpp | static ARM_INST_PTR INTERPRETER_TRANSLATE(cdp)(unsigned | InterpreterTranslate_cdp *)
Definition InterpreterTranslate_cdp : arm_inst :=
  mk_inst NON_BRANCH
    (cdp_inst (BITS inst 20 23) Rn16 Rd12 (BITS inst 8 11) (BITS inst 5 7) (BITS inst 0 3) inst).
(* src: arm_dyncom_trans.cpp | static ARM_INST_PTR INTERPRETER_TRANSLATE(clrex)(unsigned | InterpreterTranslate_clrex *)
Definition InterpreterTranslate_clrex : arm_inst := mk_inst NON_BRANCH clrex_inst.
(* src: arm_dyncom_trans.cpp | static ARM_INST_PTR INTERPRETER_TRANSLATE(clz)(unsigned | InterpreterTranslate_clz *)
Definition InterpreterTranslate_clz : arm_inst := mk_inst NON_BRANCH (clz_inst Rm0 Rd12).
(* src: arm_dyncom_trans.cpp | static ARM_INST_PTR INTERPRETER_TRANSLATE(cmn)(unsigned | InterpreterTranslate_cmn *)
Definition InterpreterTranslate_cmn : arm_inst := trans_cmp.
(* src: arm_dyncom_trans.cpp | static ARM_INST_PTR INTERPRETER_TRANSLATE(cmp)(unsigned | InterpreterTranslate_cmp *)
Definition InterpreterTranslate_cmp : arm_inst := trans_cmp.
(* src: arm_dyncom_trans.cpp | static ARM_INST_PTR INTERPRETER_TRANSLATE(cps)(unsigned | InterpreterTranslate_cps *)
Definition InterpreterTranslate_cps : arm_inst :=
  mk_inst NON_BRANCH
    (cps_inst (BIT inst 18) (BIT inst 19) (BIT inst 17) (BIT inst 8) (BIT inst 7) (BIT inst 6) (BITS inst 0 4)).
(* src: arm_dyncom_trans.cpp | static ARM_INST_PTR INTERPRETER_TRANSLATE(cpy)(unsigned | InterpreterTranslate_cpy *)
Definition InterpreterTranslate_cpy : arm_inst := trans_mov.
(* src: arm_dyncom_trans.cpp | static ARM_INST_PTR INTERPRETER_TRANSLATE(eor)(unsigned | InterpreterTranslate_eor *)
Definition InterpreterTranslate_eor : arm_inst := trans_dp.
(* src: arm_dyncom_trans.cpp | static ARM_INST_PTR INTERPRETER_TRANSLATE(ldc)(unsigned | InterpreterTranslate_ldc *)
Definition InterpreterTranslate_ldc : arm_inst := mk_inst NON_BRANCH ldc_inst.
(* src: arm_dyncom_trans.cpp | static ARM_INST_PTR INTERPRETER_TRANSLATE(ldm)(unsigned | InterpreterTranslate_ldm *)
Definition InterpreterTranslate_ldm : arm_inst :=
  trans_ldst (if nz (BIT inst 15) then INDIRECT_BRANCH else NON_BRANCH).
(* src: arm_dyncom_trans.cpp | static ARM_INST_PTR INTERPRETER_TRANSLATE(sxth)(unsigned | InterpreterTranslate_sxth *)
Definition InterpreterTranslate_sxth : arm_inst := mk_inst NON_BRANCH (ext_inst Rd12 Rm0 (BITS inst 10 11)).
(* src: arm_dyncom_trans.cpp | static ARM_INST_PTR INTERPRETER_TRANSLATE(ldr)(unsigned | InterpreterTranslate_ldr *)
Definition InterpreterTranslate_ldr : arm_inst := trans_ldst (branch_if_15 Rd12).
(* src: arm_dyncom_trans.cpp | static ARM_INST_PTR INTERPRETER_TRANSLATE(ldrcond)(unsigned | InterpreterTranslate_ldrcond *)
Definition InterpreterTranslate_ldrcond : arm_inst := trans_ldst (branch_if_15 Rd12).
(* src: arm_dyncom_trans.cpp | static ARM_INST_PTR INTERPRETER_TRANSLATE(uxth)(unsigned | InterpreterTranslate_uxth *)
Definition InterpreterTranslate_uxth : arm_inst := mk_inst NON_BRANCH (ext_inst Rd12 Rm0 (BITS inst 10 11)).
(* src: arm_dyncom_trans.cpp | static ARM_INST_PTR INTERPRETER_TRANSLATE(uxtah)(unsigned | InterpreterTranslate_uxtah *)
Definition InterpreterTranslate_uxtah : arm_inst :=
  mk_inst NON_BRANCH (uxtah_inst Rn16 Rd12 (BITS inst 10 11) Rm0).
(* src: arm_dyncom_trans.cpp | static ARM_INST_PTR INTERPRETER_TRANSLATE(ldrb)(unsigned | InterpreterTranslate_ldrb *)
Definition InterpreterTranslate_ldrb : arm_inst := trans_ldst NON_BRANCH.
(* src: arm_dyncom_trans.cpp | static ARM_INST_PTR INTERPRETER_TRANSLATE(ldrbt)(unsigned | InterpreterTranslate_ldrbt *)
Definition InterpreterTranslate_ldrbt : arm_inst :=
  mk_inst NON_BRANCH (ldst_inst inst (GetAddressingOpLoadStoreT inst)).
(* src: arm_dyncom_trans.cpp | static ARM_INST_PTR INTERPRETER_TRANSLATE(ldrd)(unsigned | InterpreterTranslate_ldrd *)
Definition InterpreterTranslate_ldrd : arm_inst := trans_ldst NON_BRANCH.
(* src: arm_dyncom_trans.cpp | static ARM_INST_PTR INTERPRETER_TRANSLATE(ldrex)(unsigned | InterpreterTranslate_ldrex *)
Definition InterpreterTranslate_ldrex : arm_inst :=
  mk_inst (branch_if_15 Rd12) (generic_arm_inst 0 0 Rn16 Rd12 0 0).
(* src: arm_dyncom_trans.cpp | static ARM_INST_PTR INTERPRETER_TRANSLATE(ldrexb)(unsigned | InterpreterTranslate_ldrexb *)
Definition InterpreterTranslate_ldrexb : arm_inst := InterpreterTranslate_ldrex.
(* src: arm_dyncom_trans.cpp | static ARM_INST_PTR INTERPRETER_TRANSLATE(ldrexh)(unsigned | InterpreterTranslate_ldrexh *)
Definition InterpreterTranslate_ldrexh : arm_inst := InterpreterTranslate_ldrex.
(* src: arm_dyncom_trans.cpp | static ARM_INST_PTR INTERPRETER_TRANSLATE(ldrexd)(unsigned | InterpreterTranslate_ldrexd *)
Definition InterpreterTranslate_ldrexd : arm_inst := InterpreterTranslate_ldrex.
(* src: arm_dyncom_trans.cpp | static ARM_INST_PTR INTERPRETER_TRANSLATE(ldrh)(unsigned | InterpreterTranslate_ldrh *)
Definition InterpreterTranslate_ldrh : arm_inst := trans_ldst NON_BRANCH.
(* src: arm_dyncom_trans.cpp | static ARM_INST_PTR INTERPRETER_TRANSLATE(ldrsb)(unsigned | InterpreterTranslate_ldrsb *)
Definition InterpreterTranslate_ldrsb : arm_inst := trans_ldst NON_BRANCH.
(* src: arm_dyncom_trans.cpp | static ARM_INST_PTR INTERPRETER_TRANSLATE(ldrsh)(unsigned | InterpreterTranslate_ldrsh *)
Definition InterpreterTranslate_ldrsh : arm_inst := trans_ldst NON_BRANCH.
(* src: arm_dyncom_trans.cpp | static ARM_INST_PTR INTERPRETER_TRANSLATE(ldrt)(unsigned | InterpreterTranslate_ldrt *)
Definition InterpreterTranslate_ldrt : arm_inst :=
  mk_inst (branch_if_15 Rd12) (ldst_inst inst (GetAddressingOpLoadStoreT inst)).
(* src: arm_dyncom_trans.cpp | static ARM_INST_PTR INTERPRETER_TRANSLATE(mcr)(unsigned | InterpreterTranslate_mcr *)
Definition InterpreterTranslate_mcr : arm_inst :=
  mk_inst NON_BRANCH
    (mcr_inst (BITS inst 21 23) (BITS inst 5 7) (BITS inst 8 11) Rn16 Rm0 Rd12 inst).
(* src: arm_dyncom_trans.cpp | static ARM_INST_PTR INTERPRETER_TRANSLATE(mcrr)(unsigned | InterpreterTranslate_mcrr *)
Definition InterpreterTranslate_mcrr : arm_inst :=
  mk_inst NON_BRANCH (mcrr_inst (BITS inst 4 7) (BITS inst 8 11) Rm0 Rd12 Rn16).
(* src: arm_dyncom_trans.cpp | static ARM_INST_PTR INTERPRETER_TRANSLATE(mla)(unsigned | InterpreterTranslate_mla *)
Definition InterpreterTranslate_mla : arm_inst :=
  mk_inst NON_BRANCH (mla_inst (BIT inst 20) Rd12 Rn16 Rs8 Rm0).
(* src: arm_dyncom_trans.cpp | static ARM_INST_PTR INTERPRETER_TRANSLATE(mov)(unsigned | InterpreterTranslate_mov *)
Definition InterpreterTranslate_mov : arm_inst := trans_mov.
(* src: arm_dyncom_trans.cpp | static ARM_INST_PTR INTERPRETER_TRANSLATE(mrc)(unsigned | InterpreterTranslate_mrc *)
Definition InterpreterTranslate_mrc : arm_inst :=
  mk_inst NON_BRANCH
    (mrc_inst (BITS inst 21 23) (BITS inst 5 7) (BITS inst 8 11) Rn16 Rm0 Rd12 inst).
(* src: arm_dyncom_trans.cpp | static ARM_INST_PTR INTERPRETER_TRANSLATE(mrrc)(unsigned | InterpreterTranslate_mrrc *)
Definition InterpreterTranslate_mrrc : arm_inst := InterpreterTranslate_mcrr.
(* src: arm_dyncom_trans.cpp | static ARM_INST_PTR INTERPRETER_TRANSLATE(mrs)(unsigned | InterpreterTranslate_mrs *)
Definition InterpreterTranslate_mrs : arm_inst := mk_inst NON_BRANCH (mrs_inst (BIT inst 22) Rd12).
(* src: arm_dyncom_trans.cpp | static ARM_INST_PTR INTERPRETER_TRANSLATE(msr)(unsigned | InterpreterTranslate_msr *)
Definition InterpreterTranslate_msr : arm_inst :=
  mk_inst NON_BRANCH (msr_inst (BITS inst 16 19) (BIT inst 22) inst).
(* src: arm_dyncom_trans.cpp | static ARM_INST_PTR INTERPRETER_TRANSLATE(mul)(unsigned | InterpreterTranslate_mul *)
Definition InterpreterTranslate_mul : arm_inst := mk_inst NON_BRANCH (mul_inst (BIT inst 20) Rn16 Rs8 Rm0).
(* src: arm_dyncom_trans.cpp | static ARM_INST_PTR INTERPRETER_TRANSLATE(mvn)(unsigned | InterpreterTranslate_mvn *)
Definition InterpreterTranslate_mvn : arm_inst := trans_mov.
(* src: arm_dyncom_trans.cpp | static ARM_INST_PTR INTERPRETER_TRANSLATE(orr)(unsigned | InterpreterTranslate_orr *)
Definition InterpreterTranslate_orr : arm_inst := trans_dp.
(* src: arm_dyncom_trans.cpp | static ARM_INST_PTR INTERPRETER_TRANSLATE(nop)(unsigned | InterpreterTranslate_nop *)
Definition InterpreterTranslate_nop : arm_inst := mk_inst NON_BRANCH no_component.
(* src: arm_dyncom_trans.cpp | static ARM_INST_PTR INTERPRETER_TRANSLATE(pkhbt)(unsigned | InterpreterTranslate_pkhbt *)
Definition InterpreterTranslate_pkhbt : arm_inst :=
  mk_inst NON_BRANCH (pkh_inst Rm0 Rn16 Rd12 (BITS inst 7 11)).
(* src: arm_dyncom_trans.cpp | static ARM_INST_PTR INTERPRETER_TRANSLATE(pkhtb)(unsigned | InterpreterTranslate_pkhtb *)
Definition InterpreterTranslate_pkhtb : arm_inst := InterpreterTranslate_pkhbt.
(* src: arm_dyncom_trans.cpp | static ARM_INST_PTR INTERPRETER_TRANSLATE(pld)(unsigned | InterpreterTranslate_pld *)
Definition InterpreterTranslate_pld : arm_inst := mk_inst NON_BRANCH pld_inst.
(* src: arm_dyncom_trans.cpp | static ARM_INST_PTR INTERPRETER_TRANSLATE(qadd)(unsigned | InterpreterTranslate_qadd *)
Definition InterpreterTranslate_qadd : arm_inst :=
  mk_inst NON_BRANCH (generic_arm_inst 0 Rm0 Rn16 Rd12 (BITS inst 21 22) 0).
(* src: arm_dyncom_trans.cpp | static ARM_INST_PTR INTERPRETER_TRANSLATE(qdadd)(unsigned | InterpreterTranslate_qdadd *)
Definition InterpreterTranslate_qdadd : arm_inst := InterpreterTranslate_qadd.
(* src: arm_dyncom_trans.cpp | static ARM_INST_PTR INTERPRETER_TRANSLATE(qdsub)(unsigned | InterpreterTranslate_qdsub *)
Definition InterpreterTranslate_qdsub : arm_inst := InterpreterTranslate_qadd.
(* src: arm_dyncom_trans.cpp | static ARM_INST_PTR INTERPRETER_TRANSLATE(qsub)(unsigned | InterpreterTranslate_qsub *)
Definition InterpreterTranslate_qsub : arm_inst := InterpreterTranslate_qadd.
(* src: arm_dyncom_trans.cpp | static ARM_INST_PTR INTERPRETER_TRANSLATE(qadd8)(unsigned | InterpreterTranslate_qadd8 *)
Definition InterpreterTranslate_qadd8 : arm_inst := trans_parallel.
(* src: arm_dyncom_trans.cpp | static ARM_INST_PTR INTERPRETER_TRANSLATE(qadd16)(unsigned | InterpreterTranslate_qadd16 *)
Definition InterpreterTranslate_qadd16 : arm_inst := InterpreterTranslate_qadd8.
(* src: arm_dyncom_trans.cpp | static ARM_INST_PTR INTERPRETER_TRANSLATE(qaddsubx)(unsigned | InterpreterTranslate_qaddsubx *)
Definition InterpreterTranslate_qaddsubx : arm_inst := InterpreterTranslate_qadd8.
(* src: arm_dyncom_trans.cpp | static ARM_INST_PTR INTERPRETER_TRANSLATE(qsub8)(unsigned | InterpreterTranslate_qsub8 *)
Definition InterpreterTranslate_qsub8 : arm_inst := InterpreterTranslate_qadd8.
(* src: arm_dyncom_trans.cpp | static ARM_INST_PTR INTERPRETER_TRANSLATE(qsub16)(unsigned | InterpreterTranslate_qsub16 *)
Definition InterpreterTranslate_qsub16 : arm_inst := InterpreterTranslate_qadd8.
(* src: arm_dyncom_trans.cpp | static ARM_INST_PTR INTERPRETER_TRANSLATE(qsubaddx)(unsigned | InterpreterTranslate_qsubaddx *)
Definition InterpreterTranslate_qsubaddx : arm_inst := InterpreterTranslate_qadd8.
(* src: arm_dyncom_trans.cpp | static ARM_INST_PTR INTERPRETER_TRANSLATE(rev)(unsigned | InterpreterTranslate_rev *)
Definition InterpreterTranslate_rev : arm_inst :=
  mk_inst NON_BRANCH (rev_inst Rd12 Rm0 (BITS inst 20 22) (BITS inst 5 7)).
(* src: arm_dyncom_trans.cpp | static ARM_INST_PTR INTERPRETER_TRANSLATE(rev16)(unsigned | InterpreterTranslate_rev16 *)
Definition InterpreterTranslate_rev16 : arm_inst := InterpreterTranslate_rev.
(* src: arm_dyncom_trans.cpp | static ARM_INST_PTR INTERPRETER_TRANSLATE(revsh)(unsigned | InterpreterTranslate_revsh *)
Definition InterpreterTranslate_revsh : arm_inst := InterpreterTranslate_rev.
(* src: arm_dyncom_trans.cpp | static ARM_INST_PTR INTERPRETER_TRANSLATE(rfe)(unsigned | InterpreterTranslate_rfe *)
Definition InterpreterTranslate_rfe : arm_inst :=
  mk_AL INDIRECT_BRANCH (ldst_inst inst (GetAddressingOp inst)).
(* src: arm_dyncom_trans.cpp | static ARM_INST_PTR INTERPRETER_TRANSLATE(rsb)(unsigned | InterpreterTranslate_rsb *)
Definition InterpreterTranslate_rsb : arm_inst := trans_dp.
(* src: arm_dyncom_trans.cpp | static ARM_INST_PTR INTERPRETER_TRANSLATE(rsc)(unsigned | InterpreterTranslate_rsc *)
Definition InterpreterTranslate_rsc : arm_inst := trans_dp.
(* src: arm_dyncom_trans.cpp | static ARM_INST_PTR INTERPRETER_TRANSLATE(sadd8)(unsigned | InterpreterTranslate_sadd8 *)
Definition InterpreterTranslate_sadd8 : arm_inst := trans_parallel.
(* src: arm_dyncom_trans.cpp | static ARM_INST_PTR INTERPRETER_TRANSLATE(sadd16)(unsigned | InterpreterTranslate_sadd16 *)
Definition InterpreterTranslate_sadd16 : arm_inst := InterpreterTranslate_sadd8.
(* src: arm_dyncom_trans.cpp | static ARM_INST_PTR INTERPRETER_TRANSLATE(saddsubx)(unsigned | InterpreterTranslate_saddsubx *)
Definition InterpreterTranslate_saddsubx : arm_inst := InterpreterTranslate_sadd8.
(* src: arm_dyncom_trans.cpp | static ARM_INST_PTR INTERPRETER_TRANSLATE(ssub8)(unsigned | InterpreterTranslate_ssub8 *)
Definition InterpreterTranslate_ssub8 : arm_inst := InterpreterTranslate_sadd8.
(* src: arm_dyncom_trans.cpp | static ARM_INST_PTR INTERPRETER_TRANSLATE(ssub16)(unsigned | InterpreterTranslate_ssub16 *)
Definition InterpreterTranslate_ssub16 : arm_inst := InterpreterTranslate_sadd8.
(* src: arm_dyncom_trans.cpp | static ARM_INST_PTR INTERPRETER_TRANSLATE(ssubaddx)(unsigned | InterpreterTranslate_ssubaddx *)
Definition InterpreterTranslate_ssubaddx : arm_inst := InterpreterTranslate_sadd8.
(* src: arm_dyncom_trans.cpp | static ARM_INST_PTR INTERPRETER_TRANSLATE(sbc)(unsigned | InterpreterTranslate_sbc *)
Definition InterpreterTranslate_sbc : arm_inst := trans_dp.
(* src: arm_dyncom_trans.cpp | static ARM_INST_PTR INTERPRETER_TRANSLATE(sel)(unsigned | InterpreterTranslate_sel *)
Definition InterpreterTranslate_sel : arm_inst :=
  mk_inst NON_BRANCH (generic_arm_inst 0 Rm0 Rn16 Rd12 (BITS inst 20 22) (BITS inst 5 7)).
(* src: arm_dyncom_trans.cpp | static ARM_INST_PTR INTERPRETER_TRANSLATE(setend)(unsigned | InterpreterTranslate_setend *)
Definition InterpreterTranslate_setend : arm_inst := mk_AL NON_BRANCH (setend_inst (BIT inst 9)).
(* src: arm_dyncom_trans.cpp | static ARM_INST_PTR INTERPRETER_TRANSLATE(sev)(unsigned | InterpreterTranslate_sev *)
Definition InterpreterTranslate_sev : arm_inst := mk_inst NON_BRANCH no_component.
(* src: arm_dyncom_trans.cpp | static ARM_INST_PTR INTERPRETER_TRANSLATE(shadd8)(unsigned | InterpreterTranslate_shadd8 *)
Definition InterpreterTranslate_shadd8 : arm_inst := trans_parallel.
(* src: arm_dyncom_trans.cpp | static ARM_INST_PTR INTERPRETER_TRANSLATE(shadd16)(unsigned | InterpreterTranslate_shadd16 *)
Definition InterpreterTranslate_shadd16 : arm_inst := InterpreterTranslate_shadd8.
(* src: arm_dyncom_trans.cpp | static ARM_INST_PTR INTERPRETER_TRANSLATE(shaddsubx)(unsigned | InterpreterTranslate_shaddsubx *)
Definition InterpreterTranslate_shaddsubx : arm_inst := InterpreterTranslate_shadd8.
(* src: arm_dyncom_trans.cpp | static ARM_INST_PTR INTERPRETER_TRANSLATE(shsub8)(unsigned | InterpreterTranslate_shsub8 *)
Definition InterpreterTranslate_shsub8 : arm_inst := InterpreterTranslate_shadd8.
(* src: arm_dyncom_trans.cpp | static ARM_INST_PTR INTERPRETER_TRANSLATE(shsub16)(unsigned | InterpreterTranslate_shsub16 *)
Definition InterpreterTranslate_shsub16 : arm_inst := InterpreterTranslate_shadd8.
(* src: arm_dyncom_trans.cpp | static ARM_INST_PTR INTERPRETER_TRANSLATE(shsubaddx)(unsigned | InterpreterTranslate_shsubaddx *)
Definition InterpreterTranslate_shsubaddx : arm_inst := InterpreterTranslate_shadd8.
(* src: arm_dyncom_trans.cpp | static ARM_INST_PTR INTERPRETER_TRANSLATE(smla)(unsigned | InterpreterTranslate_smla *)
Definition InterpreterTranslate_smla : arm_inst :=
  mk_inst NON_BRANCH (smla_inst (BIT inst 5) (BIT inst 6) Rm0 Rn16 Rs8 Rd12).
(* src: arm_dyncom_trans.cpp | static ARM_INST_PTR INTERPRETER_TRANSLATE(smlad)(unsigned | InterpreterTranslate_smlad *)
Definition InterpreterTranslate_smlad : arm_inst :=
  mk_inst NON_BRANCH
    (smlad_inst (BIT inst 5) Rs8 Rn16 Rd12 Rm0 (BITS inst 20 22) (BITS inst 5 7)).
(* src: arm_dyncom_trans.cpp | static ARM_INST_PTR INTERPRETER_TRANSLATE(smuad)(unsigned | InterpreterTranslate_smuad *)
Definition InterpreterTranslate_smuad : arm_inst := InterpreterTranslate_smlad.
(* src: arm_dyncom_trans.cpp | static ARM_INST_PTR INTERPRETER_TRANSLATE(smusd)(unsigned | InterpreterTranslate_smusd *)
Definition InterpreterTranslate_smusd : arm_inst := InterpreterTranslate_smlad.
(* src: arm_dyncom_trans.cpp | static ARM_INST_PTR INTERPRETER_TRANSLATE(smlsd)(unsigned | InterpreterTranslate_smlsd *)
Definition InterpreterTranslate_smlsd : arm_inst := InterpreterTranslate_smlad.
(* src: arm_dyncom_trans.cpp | static ARM_INST_PTR INTERPRETER_TRANSLATE(smlal)(unsigned | InterpreterTranslate_smlal *)
Definition InterpreterTranslate_smlal : arm_inst :=
  mk_inst NON_BRANCH (umlal_inst (BIT inst 20) Rm0 Rs8 Rn16 Rd12).
(* src: arm_dyncom_trans.cpp | static ARM_INST_PTR INTERPRETER_TRANSLATE(smlalxy)(unsigned | InterpreterTranslate_smlalxy *)
Definition InterpreterTranslate_smlalxy : arm_inst :=
  mk_inst NON_BRANCH (smlalxy_inst (BIT inst 5) (BIT inst 6) Rd12 Rn16 Rs8 (BITS inst 0 4)).
(* src: arm_dyncom_trans.cpp | static ARM_INST_PTR INTERPRETER_TRANSLATE(smlaw)(unsigned | InterpreterTranslate_smlaw *)
Definition InterpreterTranslate_smlaw : arm_inst :=
  mk_inst NON_BRANCH (smlad_inst (BIT inst 6) Rs8 Rn16 Rd12 Rm0 0 0).
(* src: arm_dyncom_trans.cpp | static ARM_INST_PTR INTERPRETER_TRANSLATE(smlald)(unsigned | InterpreterTranslate_smlald *)
Definition InterpreterTranslate_smlald : arm_inst :=
  mk_inst NON_BRANCH
    (smlald_inst Rd12 Rn16 Rs8 Rm0 (BIT inst 5) (BITS inst 20 22) (BITS inst 5 7)).
(* src: arm_dyncom_trans.cpp | static ARM_INST_PTR INTERPRETER_TRANSLATE(smlsld)(unsigned | InterpreterTranslate_smlsld *)
Definition InterpreterTranslate_smlsld : arm_inst := InterpreterTranslate_smlald.
(* src: arm_dyncom_trans.cpp | static ARM_INST_PTR INTERPRETER_TRANSLATE(smmla)(unsigned | InterpreterTranslate_smmla *)
Definition InterpreterTranslate_smmla : arm_inst :=
  mk_inst NON_BRANCH
    (smlad_inst (BIT inst 5) Rs8 Rn16 Rd12 Rm0 (BITS inst 20 22) (BITS inst 5 7)).
(* src: arm_dyncom_trans.cpp | static ARM_INST_PTR INTERPRETER_TRANSLATE(smmls)(unsigned | InterpreterTranslate_smmls *)
Definition InterpreterTranslate_smmls : arm_inst := InterpreterTranslate_smmla.
(* src: arm_dyncom_trans.cpp | static ARM_INST_PTR INTERPRETER_TRANSLATE(smmul)(unsigned | InterpreterTranslate_smmul *)
Definition InterpreterTranslate_smmul : arm_inst := InterpreterTranslate_smmla.
(* src: arm_dyncom_trans.cpp | static ARM_INST_PTR INTERPRETER_TRANSLATE(smul)(unsigned | InterpreterTranslate_smul *)
Definition InterpreterTranslate_smul : arm_inst :=
  mk_inst NON_BRANCH (smul_inst Rn16 Rs8 Rm0 (BIT inst 5) (BIT inst 6)).
(* src: arm_dyncom_trans.cpp | static ARM_INST_PTR INTERPRETER_TRANSLATE(smull)(unsigned | InterpreterTranslate_smull *)
Definition InterpreterTranslate_smull : arm_inst :=
  mk_inst NON_BRANCH (umull_inst (BIT inst 20) Rn16 Rd12 Rs8 Rm0).
(* src: arm_dyncom_trans.cpp | static ARM_INST_PTR INTERPRETER_TRANSLATE(smulw)(unsigned | InterpreterTranslate_smulw *)
Definition InterpreterTranslate_smulw : arm_inst :=
  mk_inst NON_BRANCH (smlad_inst (BIT inst 6) Rs8 Rn16 0 Rm0 0 0).
(* src: arm_dyncom_trans.cpp | static ARM_INST_PTR INTERPRETER_TRANSLATE(srs)(unsigned | InterpreterTranslate_srs *)
Definition InterpreterTranslate_srs : arm_inst := mk_AL NON_BRANCH (ldst_inst inst (GetAddressingOp inst)).
(* src: arm_dyncom_trans.cpp | static ARM_INST_PTR INTERPRETER_TRANSLATE(ssat)(unsigned | InterpreterTranslate_ssat *)
Definition InterpreterTranslate_ssat : arm_inst :=
  mk_inst NON_BRANCH
    (ssat_inst Rm0 Rd12 (BITS inst 7 11) (BITS inst 16 20) (BIT inst 6)).
(* src: arm_dyncom_trans.cpp | static ARM_INST_PTR INTERPRETER_TRANSLATE(ssat16)(unsigned | InterpreterTranslate_ssat16 *)
Definition InterpreterTranslate_ssat16 : arm_inst :=
  mk_inst NON_BRANCH (ssat_inst Rm0 Rd12 0 (BITS inst 16 19) 0).
(* src: arm_dyncom_trans.cpp | static ARM_INST_PTR INTERPRETER_TRANSLATE(stc)(unsigned | InterpreterTranslate_stc *)
Definition InterpreterTranslate_stc : arm_inst := mk_inst NON_BRANCH stc_inst.
(* src: arm_dyncom_trans.cpp | static ARM_INST_PTR INTERPRETER_TRANSLATE(stm)(unsigned | InterpreterTranslate_stm *)
Definition InterpreterTranslate_stm : arm_inst := trans_ldst NON_BRANCH.
(* src: arm_dyncom_trans.cpp | static ARM_INST_PTR INTERPRETER_TRANSLATE(sxtb)(unsigned | InterpreterTranslate_sxtb *)
Definition InterpreterTranslate_sxtb : arm_inst := mk_inst NON_BRANCH (ext_inst Rd12 Rm0 (BITS inst 10 11)).
(* src: arm_dyncom_trans.cpp | static ARM_INST_PTR INTERPRETER_TRANSLATE(str)(unsigned | InterpreterTranslate_str *)
Definition InterpreterTranslate_str : arm_inst := trans_ldst NON_BRANCH.
(* src: arm_dyncom_trans.cpp | static ARM_INST_PTR INTERPRETER_TRANSLATE(uxtb)(unsigned | InterpreterTranslate_uxtb *)
Definition InterpreterTranslate_uxtb : arm_inst := mk_inst NON_BRANCH (ext_inst Rd12 Rm0 (BITS inst 10 11)).
(* src: arm_dyncom_trans.cpp | static ARM_INST_PTR INTERPRETER_TRANSLATE(uxtab)(unsigned | InterpreterTranslate_uxtab *)
Definition InterpreterTranslate_uxtab : arm_inst :=
  mk_inst NON_BRANCH (uxtab_inst Rn16 Rd12 (BITS inst 10 11) Rm0).
(* src: arm_dyncom_trans.cpp | static ARM_INST_PTR INTERPRETER_TRANSLATE(strb)(unsigned | InterpreterTranslate_strb *)
Definition InterpreterTranslate_strb : arm_inst := trans_ldst NON_BRANCH.
(* src: arm_dyncom_trans.cpp | static ARM_INST_PTR INTERPRETER_TRANSLATE(strbt)(unsigned | InterpreterTranslate_strbt *)
Definition InterpreterTranslate_strbt : arm_inst :=
  mk_inst NON_BRANCH (ldst_inst inst (GetAddressingOpLoadStoreT inst)).
(* src: arm_dyncom_trans.cpp | static ARM_INST_PTR INTERPRETER_TRANSLATE(strd)(unsigned | InterpreterTranslate_strd *)
Definition InterpreterTranslate_strd : arm_inst := trans_ldst NON_BRANCH.
(* src: arm_dyncom_trans.cpp | static ARM_INST_PTR INTERPRETER_TRANSLATE(strex)(unsigned | InterpreterTranslate_strex *)
Definition InterpreterTranslate_strex : arm_inst := mk_inst NON_BRANCH (generic_arm_inst 0 Rm0 Rn16 Rd12 0 0).
(* src: arm_dyncom_trans.cpp | static ARM_INST_PTR INTERPRETER_TRANSLATE(strexb)(unsigned | InterpreterTranslate_strexb *)
Definition InterpreterTranslate_strexb : arm_inst := InterpreterTranslate_strex.
(* src: arm_dyncom_trans.cpp | static ARM_INST_PTR INTERPRETER_TRANSLATE(strexh)(unsigned | InterpreterTranslate_strexh *)
Definition InterpreterTranslate_strexh : arm_inst := InterpreterTranslate_strex.
(* src: arm_dyncom_trans.cpp | static ARM_INST_PTR INTERPRETER_TRANSLATE(strexd)(unsigned | InterpreterTranslate_strexd *)
Definition InterpreterTranslate_strexd : arm_inst := InterpreterTranslate_strex.
(* src: arm_dyncom_trans.cpp | static ARM_INST_PTR INTERPRETER_TRANSLATE(strh)(unsigned | InterpreterTranslate_strh *)
Definition InterpreterTranslate_strh : arm_inst := trans_ldst NON_BRANCH.
(* src: arm_dyncom_trans.cpp | static ARM_INST_PTR INTERPRETER_TRANSLATE(strt)(unsigned | InterpreterTranslate_strt *)
Definition InterpreterTranslate_strt : arm_inst :=
  mk_inst NON_BRANCH (ldst_inst inst (GetAddressingOpLoadStoreT inst)).
(* src: arm_dyncom_trans.cpp | static ARM_INST_PTR INTERPRETER_TRANSLATE(sub)(unsigned | InterpreterTranslate_sub *)
Definition InterpreterTranslate_sub : arm_inst := trans_dp.
(* src: arm_dyncom_trans.cpp | static ARM_INST_PTR INTERPRETER_TRANSLATE(swi)(unsigned | InterpreterTranslate_swi *)
Definition InterpreterTranslate_swi : arm_inst := mk_inst NON_BRANCH (swi_inst (BITS inst 0 23)).
(* src: arm_dyncom_trans.cpp | static ARM_INST_PTR INTERPRETER_TRANSLATE(swp)(unsigned | InterpreterTranslate_swp *)
Definition InterpreterTranslate_swp : arm_inst := mk_inst NON_BRANCH (swp_inst Rn16 Rd12 Rm0).
(* src: arm_dyncom_trans.cpp | static ARM_INST_PTR INTERPRETER_TRANSLATE(swpb)(unsigned | InterpreterTranslate_swpb *)
Definition InterpreterTranslate_swpb : arm_inst := mk_inst NON_BRANCH (swp_inst Rn16 Rd12 Rm0).
(* src: arm_dyncom_trans.cpp | static ARM_INST_PTR INTERPRETER_TRANSLATE(sxtab)(unsigned | InterpreterTranslate_sxtab *)
Definition InterpreterTranslate_sxtab : arm_inst :=
  mk_inst NON_BRANCH (sxtab_inst Rd12 Rn16 Rm0 (BITS inst 10 11)).
(* src: arm_dyncom_trans.cpp | static ARM_INST_PTR INTERPRETER_TRANSLATE(sxtab16)(unsigned | InterpreterTranslate_sxtab16 *)
Definition InterpreterTranslate_sxtab16 : arm_inst :=
  mk_inst NON_BRANCH (sxtab_inst Rd12 Rn16 Rm0 (BITS inst 10 11)).
(* src: arm_dyncom_trans.cpp | static ARM_INST_PTR INTERPRETER_TRANSLATE(sxtb16)(unsigned | InterpreterTranslate_sxtb16 *)
Definition InterpreterTranslate_sxtb16 : arm_inst := InterpreterTranslate_sxtab16.
(* src: arm_dyncom_trans.cpp | static ARM_INST_PTR INTERPRETER_TRANSLATE(sxtah)(unsigned | InterpreterTranslate_sxtah *)
Definition InterpreterTranslate_sxtah : arm_inst :=
  mk_inst NON_BRANCH (sxtah_inst Rd12 Rn16 Rm0 (BITS inst 10 11)).
(* src: arm_dyncom_trans.cpp | static ARM_INST_PTR INTERPRETER_TRANSLATE(teq)(unsigned | InterpreterTranslate_teq *)
Definition InterpreterTranslate_teq : arm_inst := trans_cmp.
(* src: arm_dyncom_trans.cpp | static ARM_INST_PTR INTERPRETER_TRANSLATE(tst)(unsigned | InterpreterTranslate_tst *)
Definition InterpreterTranslate_tst : arm_inst :=
  mk_inst NON_BRANCH
    (dp_inst (BIT inst 25) (BIT inst 20) Rn16 Rd12 (BITS inst 0 11) (GetShifterOp inst)).
(* src: arm_dyncom_trans.cpp | static ARM_INST_PTR INTERPRETER_TRANSLATE(uadd8)(unsigned | InterpreterTranslate_uadd8 *)
Definition InterpreterTranslate_uadd8 : arm_inst := trans_parallel.
(* src: arm_dyncom_trans.cpp | static ARM_INST_PTR INTERPRETER_TRANSLATE(uadd16)(unsigned | InterpreterTranslate_uadd16 *)
Definition InterpreterTranslate_uadd16 : arm_inst := InterpreterTranslate_uadd8.
(* src: arm_dyncom_trans.cpp | static ARM_INST_PTR INTERPRETER_TRANSLATE(uaddsubx)(unsigned | InterpreterTranslate_uaddsubx *)
Definition InterpreterTranslate_uaddsubx : arm_inst := InterpreterTranslate_uadd8.
(* src: arm_dyncom_trans.cpp | static ARM_INST_PTR INTERPRETER_TRANSLATE(usub8)(unsigned | InterpreterTranslate_usub8 *)
Definition InterpreterTranslate_usub8 : arm_inst := InterpreterTranslate_uadd8.
(* src: arm_dyncom_trans.cpp | static ARM_INST_PTR INTERPRETER_TRANSLATE(usub16)(unsigned | InterpreterTranslate_usub16 *)
Definition InterpreterTranslate_usub16 : arm_inst := InterpreterTranslate_uadd8.
(* src: arm_dyncom_trans.cpp | static ARM_INST_PTR INTERPRETER_TRANSLATE(usubaddx)(unsigned | InterpreterTranslate_usubaddx *)
Definition InterpreterTranslate_usubaddx : arm_inst := InterpreterTranslate_uadd8.
(* src: arm_dyncom_trans.cpp | static ARM_INST_PTR INTERPRETER_TRANSLATE(uhadd8)(unsigned | InterpreterTranslate_uhadd8 *)
Definition InterpreterTranslate_uhadd8 : arm_inst := trans_parallel.
(* src: arm_dyncom_trans.cpp | static ARM_INST_PTR INTERPRETER_TRANSLATE(uhadd16)(unsigned | InterpreterTranslate_uhadd16 *)
Definition InterpreterTranslate_uhadd16 : arm_inst := InterpreterTranslate_uhadd8.
(* src: arm_dyncom_trans.cpp | static ARM_INST_PTR INTERPRETER_TRANSLATE(uhaddsubx)(unsigned | InterpreterTranslate_uhaddsubx *)
Definition InterpreterTranslate_uhaddsubx : arm_inst := InterpreterTranslate_uhadd8.
(* src: arm_dyncom_trans.cpp | static ARM_INST_PTR INTERPRETER_TRANSLATE(uhsub8)(unsigned | InterpreterTranslate_uhsub8 *)
Definition InterpreterTranslate_uhsub8 : arm_inst := InterpreterTranslate_uhadd8.
(* src: arm_dyncom_trans.cpp | static ARM_INST_PTR INTERPRETER_TRANSLATE(uhsub16)(unsigned | InterpreterTranslate_uhsub16 *)
Definition InterpreterTranslate_uhsub16 : arm_inst := InterpreterTranslate_uhadd8.
(* src: arm_dyncom_trans.cpp | static ARM_INST_PTR INTERPRETER_TRANSLATE(uhsubaddx)(unsigned | InterpreterTranslate_uhsubaddx *)
Definition InterpreterTranslate_uhsubaddx : arm_inst := InterpreterTranslate_uhadd8.
(* src: arm_dyncom_trans.cpp | static ARM_INST_PTR INTERPRETER_TRANSLATE(umaal)(unsigned | InterpreterTranslate_umaal *)
Definition InterpreterTranslate_umaal : arm_inst := mk_inst NON_BRANCH (umaal_inst Rm0 Rs8 Rn16 Rd12).
(* src: arm_dyncom_trans.cpp | static ARM_INST_PTR INTERPRETER_TRANSLATE(umlal)(unsigned | InterpreterTranslate_umlal *)
Definition InterpreterTranslate_umlal : arm_inst :=
  mk_inst NON_BRANCH (umlal_inst (BIT inst 20) Rm0 Rs8 Rn16 Rd12).
(* src: arm_dyncom_trans.cpp | static ARM_INST_PTR INTERPRETER_TRANSLATE(umull)(unsigned | InterpreterTranslate_umull *)
Definition InterpreterTranslate_umull : arm_inst :=
  mk_inst NON_BRANCH (umull_inst (BIT inst 20) Rn16 Rd12 Rs8 Rm0).
(* src: arm_dyncom_trans.cpp | static ARM_INST_PTR INTERPRETER_TRANSLATE(b_2_thumb)(unsigned | InterpreterTranslate_b_2_thumb *)
Definition InterpreterTranslate_b_2_thumb : arm_inst :=
  mk_arm_inst index 0 DIRECT_BRANCH 
    (b_2_thumb (((inst .& 0x3FF) ≪ 1) .| (if nz (inst .& (1 ≪ 10)) then 0xFFFFF800 else 0))).
(* src: arm_dyncom_trans.cpp | static ARM_INST_PTR INTERPRETER_TRANSLATE(b_cond_thumb)(unsigned | InterpreterTranslate_b_cond_thumb *)
Definition InterpreterTranslate_b_cond_thumb : arm_inst :=
  mk_arm_inst index 0 DIRECT_BRANCH 
    (b_cond_thumb (((inst .& 0x7F) ≪ 1) .| (if nz (inst .& (1 ≪ 7)) then 0xFFFFFF00 else 0))
       ((inst ≫ 8) .& 0xf)).
(* src: arm_dyncom_trans.cpp | static ARM_INST_PTR INTERPRETER_TRANSLATE(bl_1_thumb)(unsigned | InterpreterTranslate_bl_1_thumb *)
Definition InterpreterTranslate_bl_1_thumb : arm_inst :=
  mk_arm_inst index 0 NON_BRANCH 
    (bl_1_thumb (((inst .& 0x07FF) ≪ 12) .| (if nz (inst .& (1 ≪ 10)) then 0xFF800000 else 0))).
(* src: arm_dyncom_trans.cpp | static ARM_INST_PTR INTERPRETER_TRANSLATE(bl_2_thumb)(unsigned | InterpreterTranslate_bl_2_thumb *)
Definition InterpreterTranslate_bl_2_thumb : arm_inst :=
  mk_arm_inst index 0 DIRECT_BRANCH (bl_2_thumb ((inst .& 0x07FF) ≪ 1)).
(* src: arm_dyncom_trans.cpp | static ARM_INST_PTR INTERPRETER_TRANSLATE(blx_1_thumb)(unsigned | InterpreterTranslate_blx_1_thumb *)
Definition InterpreterTranslate_blx_1_thumb : arm_inst :=
  mk_arm_inst index 0 DIRECT_BRANCH (blx_1_thumb ((inst .& 0x07FF) ≪ 1) inst).
(* src: arm_dyncom_trans.cpp | static ARM_INST_PTR INTERPRETER_TRANSLATE(uqadd8)(unsigned | InterpreterTranslate_uqadd8 *)
Definition InterpreterTranslate_uqadd8 : arm_inst := trans_parallel.
(* src: arm_dyncom_trans.cpp | static ARM_INST_PTR INTERPRETER_TRANSLATE(uqadd16)(unsigned | InterpreterTranslate_uqadd16 *)
Definition InterpreterTranslate_uqadd16 : arm_inst := InterpreterTranslate_uqadd8.
(* src: arm_dyncom_trans.cpp | static ARM_INST_PTR INTERPRETER_TRANSLATE(uqaddsubx)(unsigned | InterpreterTranslate_uqaddsubx *)
Definition InterpreterTranslate_uqaddsubx : arm_inst := InterpreterTranslate_uqadd8.
(* src: arm_dyncom_trans.cpp | static ARM_INST_PTR INTERPRETER_TRANSLATE(uqsub8)(unsigned | InterpreterTranslate_uqsub8 *)
Definition InterpreterTranslate_uqsub8 : arm_inst := InterpreterTranslate_uqadd8.
(* src: arm_dyncom_trans.cpp | static ARM_INST_PTR INTERPRETER_TRANSLATE(uqsub16)(unsigned | InterpreterTranslate_uqsub16 *)
Definition InterpreterTranslate_uqsub16 : arm_inst := InterpreterTranslate_uqadd8.
(* src: arm_dyncom_trans.cpp | static ARM_INST_PTR INTERPRETER_TRANSLATE(uqsubaddx)(unsigned | InterpreterTranslate_uqsubaddx *)
Definition InterpreterTranslate_uqsubaddx : arm_inst := InterpreterTranslate_uqadd8.
(* src: arm_dyncom_trans.cpp | static ARM_INST_PTR INTERPRETER_TRANSLATE(usada8)(unsigned | InterpreterTranslate_usada8 *)
Definition InterpreterTranslate_usada8 : arm_inst :=
  mk_inst NON_BRANCH (generic_arm_inst Rd12 Rs8 Rm0 Rn16 (BITS inst 20 24) (BITS inst 5 7)).
(* src: arm_dyncom_trans.cpp | static ARM_INST_PTR INTERPRETER_TRANSLATE(usad8)(unsigned | InterpreterTranslate_usad8 *)
Definition InterpreterTranslate_usad8 : arm_inst := InterpreterTranslate_usada8.
(* src: arm_dyncom_trans.cpp | static ARM_INST_PTR INTERPRETER_TRANSLATE(usat)(unsigned | InterpreterTranslate_usat *)
Definition InterpreterTranslate_usat : arm_inst := InterpreterTranslate_ssat.
(* src: arm_dyncom_trans.cpp | static ARM_INST_PTR INTERPRETER_TRANSLATE(usat16)(unsigned | InterpreterTranslate_usat16 *)
Definition InterpreterTranslate_usat16 : arm_inst := InterpreterTranslate_ssat16.
(* src: arm_dyncom_trans.cpp | static ARM_INST_PTR INTERPRETER_TRANSLATE(uxtab16)(unsigned | InterpreterTranslate_uxtab16 *)
Definition InterpreterTranslate_uxtab16 : arm_inst :=
  mk_inst NON_BRANCH (uxtab_inst Rn16 Rd12 (BITS inst 10 11) Rm0).
(* src: arm_dyncom_trans.cpp | static ARM_INST_PTR INTERPRETER_TRANSLATE(uxtb16)(unsigned | InterpreterTranslate_uxtb16 *)
Definition InterpreterTranslate_uxtb16 : arm_inst := InterpreterTranslate_uxtab16.
(* src: arm_dyncom_trans.cpp | static ARM_INST_PTR INTERPRETER_TRANSLATE(wfe)(unsigned | InterpreterTranslate_wfe *)
Definition InterpreterTranslate_wfe : arm_inst := mk_inst NON_BRANCH no_component.
(* src: arm_dyncom_trans.cpp | static ARM_INST_PTR INTERPRETER_TRANSLATE(wfi)(unsigned | InterpreterTranslate_wfi *)
Definition InterpreterTranslate_wfi : arm_inst := mk_inst NON_BRANCH no_component.
(* src: arm_dyncom_trans.cpp | static ARM_INST_PTR INTERPRETER_TRANSLATE(yield)(unsigned | InterpreterTranslate_yield *)
Definition InterpreterTranslate_yield : arm_inst := mk_inst NON_BRANCH no_component.

(** ** VFP *)

(** A VFP register: the four bits at [lo] and the extra bit, low for a single
    and high for a double. *)
Definition vfp_reg_no (single : bool) (field extra : Z) : Z :=
  if single then (field ≪ 1) .| extra else field .| (extra ≪ 4).
Definition vfp_single : bool := BIT inst 8 =? 0.
Definition vfp_d : Z := vfp_reg_no vfp_single Rd12 (BIT inst 22).
Definition vfp_regs : Z := if vfp_single then BITS inst 0 7 else BITS inst 1 7.

(* src: vfpinstr.cpp | INTERPRETER_TRANSLATE(vmla)(unsigned | InterpreterTranslate_vmla *)
Definition InterpreterTranslate_vmla : arm_inst := mk_inst NON_BRANCH (vfp_inst inst (BIT inst 8)).
(* src: vfpinstr.cpp | INTERPRETER_TRANSLATE(vmls)(unsigned | InterpreterTranslate_vmls *)
Definition InterpreterTranslate_vmls : arm_inst := mk_inst NON_BRANCH (vfp_inst inst (BIT inst 8)).
(* src: vfpinstr.cpp | INTERPRETER_TRANSLATE(vnmla)(unsigned | InterpreterTranslate_vnmla *)
Definition InterpreterTranslate_vnmla : arm_inst := mk_inst NON_BRANCH (vfp_inst inst (BIT inst 8)).
(* src: vfpinstr.cpp | INTERPRETER_TRANSLATE(vnmls)(unsigned | InterpreterTranslate_vnmls *)
Definition InterpreterTranslate_vnmls : arm_inst := mk_inst NON_BRANCH (vfp_inst inst (BIT inst 8)).
(* src: vfpinstr.cpp | INTERPRETER_TRANSLATE(vnmul)(unsigned | InterpreterTranslate_vnmul *)
Definition InterpreterTranslate_vnmul : arm_inst := mk_inst NON_BRANCH (vfp_inst inst (BIT inst 8)).
(* src: vfpinstr.cpp | INTERPRETER_TRANSLATE(vmul)(unsigned | InterpreterTranslate_vmul *)
Definition InterpreterTranslate_vmul : arm_inst := mk_inst NON_BRANCH (vfp_inst inst (BIT inst 8)).
(* src: vfpinstr.cpp | INTERPRETER_TRANSLATE(vadd)(unsigned | InterpreterTranslate_vadd *)
Definition InterpreterTranslate_vadd : arm_inst := mk_inst NON_BRANCH (vfp_inst inst (BIT inst 8)).
(* src: vfpinstr.cpp | INTERPRETER_TRANSLATE(vsub)(unsigned | InterpreterTranslate_vsub *)
Definition InterpreterTranslate_vsub : arm_inst := mk_inst NON_BRANCH (vfp_inst inst (BIT inst 8)).
(* src: vfpinstr.cpp | INTERPRETER_TRANSLATE(vdiv)(unsigned | InterpreterTranslate_vdiv *)
Definition InterpreterTranslate_vdiv : arm_inst := mk_inst NON_BRANCH (vfp_inst inst (BIT inst 8)).
(* src: vfpinstr.cpp | INTERPRETER_TRANSLATE(vmovi)(unsigned | InterpreterTranslate_vmovi *)
Definition InterpreterTranslate_vmovi : arm_inst :=
  let imm8 := (BITS inst 16 19 ≪ 4) .| BITS inst 0 3 in
  let low := BIT imm8 6 =? 0 in
  mk_inst NON_BRANCH
    (vmovi_inst (Z.b2z vfp_single) vfp_d
       (if vfp_single
        then u32 (BIT imm8 7 ≪ 31) .| (Z.b2z low ≪ 30) .| ((if low then 0 else 0x1f) ≪ 25)
             .| (BITS imm8 0 5 ≪ 19)
        else u32 (BIT imm8 7 ≪ 31) .| (Z.b2z low ≪ 30) .| ((if low then 0 else 0xff) ≪ 22)
             .| (BITS imm8 0 5 ≪ 16))).
(* src: vfpinstr.cpp | INTERPRETER_TRANSLATE(vmovr)(unsigned | InterpreterTranslate_vmovr *)
Definition InterpreterTranslate_vmovr : arm_inst :=
  mk_inst NON_BRANCH
    (vmovr_inst (Z.b2z vfp_single) vfp_d (vfp_reg_no vfp_single Rm0 (BIT inst 5))).
(* src: vfpinstr.cpp | INTERPRETER_TRANSLATE(vabs)(unsigned | InterpreterTranslate_vabs *)
Definition InterpreterTranslate_vabs : arm_inst := mk_inst NON_BRANCH (vfp_inst inst (BIT inst 8)).
(* src: vfpinstr.cpp | INTERPRETER_TRANSLATE(vneg)(unsigned | InterpreterTranslate_vneg *)
Definition InterpreterTranslate_vneg : arm_inst := mk_inst NON_BRANCH (vfp_inst inst (BIT inst 8)).
(* src: vfpinstr.cpp | INTERPRETER_TRANSLATE(vsqrt)(unsigned | InterpreterTranslate_vsqrt *)
Definition InterpreterTranslate_vsqrt : arm_inst := mk_inst NON_BRANCH (vfp_inst inst (BIT inst 8)).
(* src: vfpinstr.cpp | INTERPRETER_TRANSLATE(vcmp)(unsigned | InterpreterTranslate_vcmp *)
Definition InterpreterTranslate_vcmp : arm_inst := mk_inst NON_BRANCH (vfp_inst inst (BIT inst 8)).
(* src: vfpinstr.cpp | INTERPRETER_TRANSLATE(vcmp2)(unsigned | InterpreterTranslate_vcmp2 *)
Definition InterpreterTranslate_vcmp2 : arm_inst := mk_inst NON_BRANCH (vfp_inst inst (BIT inst 8)).
(* src: vfpinstr.cpp | INTERPRETER_TRANSLATE(vcvtbds)(unsigned | InterpreterTranslate_vcvtbds *)
Definition InterpreterTranslate_vcvtbds : arm_inst := mk_inst NON_BRANCH (vfp_inst inst (BIT inst 8)).
(* src: vfpinstr.cpp | INTERPRETER_TRANSLATE(vcvtbff)(unsigned | InterpreterTranslate_vcvtbff *)
Definition InterpreterTranslate_vcvtbff : arm_inst := mk_inst NON_BRANCH (vfp_inst inst (BIT inst 8)).
(* src: vfpinstr.cpp | INTERPRETER_TRANSLATE(vcvtbfi)(unsigned | InterpreterTranslate_vcvtbfi *)
Definition InterpreterTranslate_vcvtbfi : arm_inst := mk_inst NON_BRANCH (vfp_inst inst (BIT inst 8)).
(* src: vfpinstr.cpp | INTERPRETER_TRANSLATE(vmovbrs)(unsigned | InterpreterTranslate_vmovbrs *)
Definition InterpreterTranslate_vmovbrs : arm_inst :=
  mk_inst NON_BRANCH
    (vmovbrs_inst (Z.b2z (BIT inst 20 =? 1)) Rd12 (BIT inst 7 .| (Rn16 ≪ 1))).
(* src: vfpinstr.cpp | INTERPRETER_TRANSLATE(vmsr)(unsigned | InterpreterTranslate_vmsr *)
Definition InterpreterTranslate_vmsr : arm_inst := mk_inst NON_BRANCH (vmsr_inst Rn16 Rd12).
(* src: vfpinstr.cpp | INTERPRETER_TRANSLATE(vmovbrc)(unsigned | InterpreterTranslate_vmovbrc *)
Definition InterpreterTranslate_vmovbrc : arm_inst :=
  mk_inst NON_BRANCH (vmovbrc_inst 32 (BIT inst 21) (Rn16 .| (BIT inst 7 ≪ 4)) Rd12).
(* src: vfpinstr.cpp | INTERPRETER_TRANSLATE(vmrs)(unsigned | InterpreterTranslate_vmrs *)
Definition InterpreterTranslate_vmrs : arm_inst := mk_inst NON_BRANCH (vmsr_inst Rn16 Rd12).
(* src: vfpinstr.cpp | INTERPRETER_TRANSLATE(vmovbcr)(unsigned | InterpreterTranslate_vmovbcr *)
Definition InterpreterTranslate_vmovbcr : arm_inst :=
  mk_inst NON_BRANCH (vmovbrc_inst 32 (BIT inst 21) (Rn16 .| (BIT inst 7 ≪ 4)) Rd12).
(* src: vfpinstr.cpp | INTERPRETER_TRANSLATE(vmovbrrss)(unsigned | InterpreterTranslate_vmovbrrss *)
Definition InterpreterTranslate_vmovbrrss : arm_inst :=
  mk_inst NON_BRANCH
    (vmovbrrss_inst (Z.b2z (BIT inst 20 =? 1)) Rd12 Rn16 ((Rm0 ≪ 1) .| BIT inst 5)).
(* src: vfpinstr.cpp | INTERPRETER_TRANSLATE(vmovbrrd)(unsigned | InterpreterTranslate_vmovbrrd *)
Definition InterpreterTranslate_vmovbrrd : arm_inst :=
  mk_inst NON_BRANCH
    (vmovbrrss_inst (Z.b2z (BIT inst 20 =? 1)) Rd12 Rn16 ((BIT inst 5 ≪ 4) .| Rm0)).
(* src: vfpinstr.cpp | INTERPRETER_TRANSLATE(vstr)(unsigned | InterpreterTranslate_vstr *)
Definition InterpreterTranslate_vstr : arm_inst :=
  mk_inst NON_BRANCH
    (vstr_inst (Z.b2z vfp_single) Rn16 vfp_d (BITS inst 0 7 ≪ 2) (BIT inst 23)).
(* src: vfpinstr.cpp | INTERPRETER_TRANSLATE(vpush)(unsigned | InterpreterTranslate_vpush *)
Definition InterpreterTranslate_vpush : arm_inst :=
  mk_inst NON_BRANCH
    (vpush_inst (Z.b2z vfp_single) vfp_d (BITS inst 0 7 ≪ 2) vfp_regs).
(* src: vfpinstr.cpp | INTERPRETER_TRANSLATE(vstm)(unsigned | InterpreterTranslate_vstm *)
Definition InterpreterTranslate_vstm : arm_inst :=
  mk_inst NON_BRANCH
    (vstm_inst (Z.b2z vfp_single) (BIT inst 23) (BIT inst 21) vfp_d Rn16 (BITS inst 0 7 ≪ 2) vfp_regs).
(* src: vfpinstr.cpp | INTERPRETER_TRANSLATE(vpop)(unsigned | InterpreterTranslate_vpop *)
Definition InterpreterTranslate_vpop : arm_inst :=
  mk_inst NON_BRANCH
    (vpush_inst (Z.b2z vfp_single) vfp_d (BITS inst 0 7 ≪ 2) vfp_regs).
(* src: vfpinstr.cpp | INTERPRETER_TRANSLATE(vldr)(unsigned | InterpreterTranslate_vldr *)
Definition InterpreterTranslate_vldr : arm_inst :=
  mk_inst NON_BRANCH
    (vstr_inst (Z.b2z vfp_single) Rn16 vfp_d (BITS inst 0 7 ≪ 2) (BIT inst 23)).
(* src: vfpinstr.cpp | INTERPRETER_TRANSLATE(vldm)(unsigned | InterpreterTranslate_vldm *)
Definition InterpreterTranslate_vldm : arm_inst :=
  mk_inst NON_BRANCH
    (vstm_inst (Z.b2z vfp_single) (BIT inst 23) (BIT inst 21) vfp_d Rn16 (BITS inst 0 7 ≪ 2) vfp_regs).

End trans.

(* src: arm_dyncom_trans.cpp | const transop_fp_t arm_instruction_trans[] = { *)
Definition arm_instruction_trans : list (Z -> Z -> arm_inst) := [
  InterpreterTranslate_vmla; InterpreterTranslate_vmls; InterpreterTranslate_vnmla;
  InterpreterTranslate_vnmls; InterpreterTranslate_vnmul; InterpreterTranslate_vmul;
  InterpreterTranslate_vadd; InterpreterTranslate_vsub; InterpreterTranslate_vdiv;
  InterpreterTranslate_vmovi; InterpreterTranslate_vmovr; InterpreterTranslate_vabs;
  InterpreterTranslate_vneg; InterpreterTranslate_vsqrt; InterpreterTranslate_vcmp;
  InterpreterTranslate_vcmp2; InterpreterTranslate_vcvtbds; InterpreterTranslate_vcvtbff;
  InterpreterTranslate_vcvtbfi; InterpreterTranslate_vmovbrs; InterpreterTranslate_vmsr;
  InterpreterTranslate_vmovbrc; InterpreterTranslate_vmrs; InterpreterTranslate_vmovbcr;
  InterpreterTranslate_vmovbrrss; InterpreterTranslate_vmovbrrd; InterpreterTranslate_vstr;
  InterpreterTranslate_vpush; InterpreterTranslate_vstm; InterpreterTranslate_vpop;
  InterpreterTranslate_vldr; InterpreterTranslate_vldm; InterpreterTranslate_srs;
  InterpreterTranslate_rfe; InterpreterTranslate_bkpt; InterpreterTranslate_blx;
  InterpreterTranslate_cps; InterpreterTranslate_pld; InterpreterTranslate_setend;
  InterpreterTranslate_clrex; InterpreterTranslate_rev16; InterpreterTranslate_usad8;
  InterpreterTranslate_sxtb; InterpreterTranslate_uxtb; InterpreterTranslate_sxth;
  InterpreterTranslate_sxtb16; InterpreterTranslate_uxth; InterpreterTranslate_uxtb16;
  InterpreterTranslate_cpy; InterpreterTranslate_uxtab; InterpreterTranslate_ssub8;
  InterpreterTranslate_shsub8; InterpreterTranslate_ssubaddx; InterpreterTranslate_strex;
  InterpreterTranslate_strexb; InterpreterTranslate_swp; InterpreterTranslate_swpb;
  InterpreterTranslate_ssub16; InterpreterTranslate_ssat16; InterpreterTranslate_shsubaddx;
  InterpreterTranslate_qsubaddx; InterpreterTranslate_shaddsubx; InterpreterTranslate_shadd8;
  InterpreterTranslate_shadd16; InterpreterTranslate_sel; InterpreterTranslate_saddsubx;
  InterpreterTranslate_sadd8; InterpreterTranslate_sadd16; InterpreterTranslate_shsub16;
  InterpreterTranslate_umaal; InterpreterTranslate_uxtab16; InterpreterTranslate_usubaddx;
  InterpreterTranslate_usub8; InterpreterTranslate_usub16; InterpreterTranslate_usat16;
  InterpreterTranslate_usada8; InterpreterTranslate_uqsubaddx; InterpreterTranslate_uqsub8;
  InterpreterTranslate_uqsub16; InterpreterTranslate_uqaddsubx; InterpreterTranslate_uqadd8;
  InterpreterTranslate_uqadd16; InterpreterTranslate_sxtab; InterpreterTranslate_uhsubaddx;
  InterpreterTranslate_uhsub8; InterpreterTranslate_uhsub16; InterpreterTranslate_uhaddsubx;
  InterpreterTranslate_uhadd8; InterpreterTranslate_uhadd16; InterpreterTranslate_uaddsubx;
  InterpreterTranslate_uadd8; InterpreterTranslate_uadd16; InterpreterTranslate_sxtah;
  InterpreterTranslate_sxtab16; InterpreterTranslate_qadd8; InterpreterTranslate_bxj;
  InterpreterTranslate_clz; InterpreterTranslate_uxtah; InterpreterTranslate_bx;
  InterpreterTranslate_rev; InterpreterTranslate_blx; InterpreterTranslate_revsh;
  InterpreterTranslate_qadd; InterpreterTranslate_qadd16; InterpreterTranslate_qaddsubx;
  InterpreterTranslate_ldrex; InterpreterTranslate_qdadd; InterpreterTranslate_qdsub;
  InterpreterTranslate_qsub; InterpreterTranslate_ldrexb; InterpreterTranslate_qsub8;
  InterpreterTranslate_qsub16; InterpreterTranslate_smuad; InterpreterTranslate_smmul;
  InterpreterTranslate_smusd; InterpreterTranslate_smlsd; InterpreterTranslate_smlsld;
  InterpreterTranslate_smmla; InterpreterTranslate_smmls; InterpreterTranslate_smlald;
  InterpreterTranslate_smlad; InterpreterTranslate_smlaw; InterpreterTranslate_smulw;
  InterpreterTranslate_pkhtb; InterpreterTranslate_pkhbt; InterpreterTranslate_smul;
  InterpreterTranslate_smlalxy; InterpreterTranslate_smla; InterpreterTranslate_mcrr;
  InterpreterTranslate_mrrc; InterpreterTranslate_cmp; InterpreterTranslate_tst;
  InterpreterTranslate_teq; InterpreterTranslate_cmn; InterpreterTranslate_smull;
  InterpreterTranslate_umull; InterpreterTranslate_umlal; InterpreterTranslate_smlal;
  InterpreterTranslate_mul; InterpreterTranslate_mla; InterpreterTranslate_ssat;
  InterpreterTranslate_usat; InterpreterTranslate_mrs; InterpreterTranslate_msr;
  InterpreterTranslate_and; InterpreterTranslate_bic; InterpreterTranslate_ldm;
  InterpreterTranslate_eor; InterpreterTranslate_add; InterpreterTranslate_rsb;
  InterpreterTranslate_rsc; InterpreterTranslate_sbc; InterpreterTranslate_adc;
  InterpreterTranslate_sub; InterpreterTranslate_orr; InterpreterTranslate_mvn;
  InterpreterTranslate_mov; InterpreterTranslate_stm; InterpreterTranslate_ldm;
  InterpreterTranslate_ldrsh; InterpreterTranslate_stm; InterpreterTranslate_ldm;
  InterpreterTranslate_ldrsb; InterpreterTranslate_strd; InterpreterTranslate_ldrh;
  InterpreterTranslate_strh; InterpreterTranslate_ldrd; InterpreterTranslate_strt;
  InterpreterTranslate_strbt; InterpreterTranslate_ldrbt; InterpreterTranslate_ldrt;
  InterpreterTranslate_mrc; InterpreterTranslate_mcr; InterpreterTranslate_msr;
  InterpreterTranslate_msr; InterpreterTranslate_msr; InterpreterTranslate_msr;
  InterpreterTranslate_msr; InterpreterTranslate_ldrb; InterpreterTranslate_strb;
  InterpreterTranslate_ldr; InterpreterTranslate_ldrcond; InterpreterTranslate_str;
  InterpreterTranslate_cdp; InterpreterTranslate_stc; InterpreterTranslate_ldc;
  InterpreterTranslate_ldrexd; InterpreterTranslate_strexd; InterpreterTranslate_ldrexh;
  InterpreterTranslate_strexh; InterpreterTranslate_nop; InterpreterTranslate_yield;
  InterpreterTranslate_wfe; InterpreterTranslate_wfi; InterpreterTranslate_sev;
  InterpreterTranslate_swi; InterpreterTranslate_bbl; InterpreterTranslate_b_2_thumb;
  InterpreterTranslate_b_cond_thumb; InterpreterTranslate_bl_1_thumb;
  InterpreterTranslate_bl_2_thumb; InterpreterTranslate_blx_1_thumb
].

(* src: arm_dyncom_trans.cpp *)
Definition arm_instruction_trans_len : Z := 202.
Lemma arm_instruction_trans_length : Z.of_nat (length arm_instruction_trans) = arm_instruction_trans_len.
Proof. reflexivity. Qed.
