(* ===== verification/ArmDec.v ===== *)
(** The decoder of ARM instruction words, [arm_dyncom_dec.cpp]: the table of
    bit patterns, the table of exclusions, and the search. *)

From Stdlib Require Import String.
From S2P Require Import Prelude ArmSupp ArmState ArmOps ArmTrans.


(* src: arm_dyncom_dec.cpp *)
Record InstructionSetEncodingItem := mk_item {
  name : string; attribute_value : nat; version : Z; content : list Z }.

(* src: arm_dyncom_dec.cpp | INVALID = 0 | INVALID | +1 *)
Definition INVALID : Z := 0.
(* src: arm_dyncom_dec.cpp |     ARMALL, #1 | ARMALL | +1 *)
Definition ARMALL : Z := 1.
(* src: arm_dyncom_dec.cpp |     ARMV4, #1 | ARMV4 | +1 *)
Definition ARMV4 : Z := 2.
(* src: arm_dyncom_dec.cpp |     ARMV4T, #1 | ARMV4T | +1 *)
Definition ARMV4T : Z := 3.
(* src: arm_dyncom_dec.cpp |     ARMV5T, #1 | ARMV5T | +1 *)
Definition ARMV5T : Z := 4.
(* src: arm_dyncom_dec.cpp |     ARMV5TE, #1 | ARMV5TE | +1 *)
Definition ARMV5TE : Z := 5.
(* src: arm_dyncom_dec.cpp |     ARMV5TEJ, #1 | ARMV5TEJ | +1 *)
Definition ARMV5TEJ : Z := 6.
(* src: arm_dyncom_dec.cpp |     ARMV6, #1 | ARMV6 | +1 *)
Definition ARMV6 : Z := 7.
(* src: arm_dyncom_dec.cpp |     ARM1176JZF_S, #1 | ARM1176JZF_S | +1 *)
Definition ARM1176JZF_S : Z := 8.
(* src: arm_dyncom_dec.cpp |     ARMVFP2, #1 | ARMVFP2 | +1 *)
Definition ARMVFP2 : Z := 9.
(* src: arm_dyncom_dec.cpp |     ARMVFP3, #1 | ARMVFP3 | +1 *)
Definition ARMVFP3 : Z := 10.
(* src: arm_dyncom_dec.cpp |     ARMV6K, #1 | ARMV6K | +1 *)
Definition ARMV6K : Z := 11.

(* src: arm_dyncom_dec.cpp | const InstructionSetEncodingItem arm_instruction[] = { *)
Definition arm_instruction : list InstructionSetEncodingItem := [
  mk_item "vmla"%string 5 ARMVFP2 [0x17; 0x1b; 0x1c; 0x14; 0x15; 0; 9; 11; 5; 6; 6; 0; 4; 4; 0];
  mk_item "vmls"%string 5 ARMVFP2 [0x17; 0x1b; 0x1c; 0x14; 0x15; 0; 9; 11; 5; 6; 6; 1; 4; 4; 0];
  mk_item "vnmla"%string 5 ARMVFP2 [0x17; 0x1b; 0x1c; 0x14; 0x15; 1; 9; 11; 5; 6; 6; 1; 4; 4; 0];
  mk_item "vnmls"%string 5 ARMVFP2 [0x17; 0x1b; 0x1c; 0x14; 0x15; 1; 9; 11; 5; 6; 6; 0; 4; 4; 0];
  mk_item "vnmul"%string 5 ARMVFP2 [0x17; 0x1b; 0x1c; 0x14; 0x15; 2; 9; 11; 5; 6; 6; 1; 4; 4; 0];
  mk_item "vmul"%string 5 ARMVFP2 [0x17; 0x1b; 0x1c; 0x14; 0x15; 2; 9; 11; 5; 6; 6; 0; 4; 4; 0];
  mk_item "vadd"%string 5 ARMVFP2 [0x17; 0x1b; 0x1c; 0x14; 0x15; 3; 9; 11; 5; 6; 6; 0; 4; 4; 0];
  mk_item "vsub"%string 5 ARMVFP2 [0x17; 0x1b; 0x1c; 0x14; 0x15; 3; 9; 11; 5; 6; 6; 1; 4; 4; 0];
  mk_item "vdiv"%string 5 ARMVFP2 [0x17; 0x1b; 0x1d; 0x14; 0x15; 0; 9; 11; 5; 6; 6; 0; 4; 4; 0];
  mk_item "vmov(i)"%string 4 ARMVFP3 [0x17; 0x1b; 0x1d; 0x14; 0x15; 3; 9; 11; 5; 4; 7; 0];
  mk_item "vmov(r)"%string 5 ARMVFP3 [0x17; 0x1b; 0x1d; 0x10; 0x15; 0x30; 9; 11; 5; 6; 7; 1; 4; 4; 0];
  mk_item "vabs"%string 5 ARMVFP2 [0x17; 0x1b; 0x1d; 0x10; 0x15; 0x30; 9; 11; 5; 6; 7; 3; 4; 4; 0];
  mk_item "vneg"%string 5 ARMVFP2 [0x17; 0x1b; 0x1d; 0x11; 0x15; 0x18; 9; 11; 5; 6; 7; 1; 4; 4; 0];
  mk_item "vsqrt"%string 5 ARMVFP2 [0x17; 0x1b; 0x1d; 0x10; 0x15; 0x31; 9; 11; 5; 6; 7; 3; 4; 4; 0];
  mk_item "vcmp"%string 5 ARMVFP2 [0x17; 0x1b; 0x1d; 0x10; 0x15; 0x34; 9; 11; 5; 6; 6; 1; 4; 4; 0];
  mk_item "vcmp2"%string 5 ARMVFP2 [0x17; 0x1b; 0x1d; 0x10; 0x15; 0x35; 9; 11; 5; 0; 6; 0x40];
  mk_item "vcvt(bds)"%string 5 ARMVFP2 [0x17; 0x1b; 0x1d; 0x10; 0x15; 0x37; 9; 11; 5; 6; 7; 3; 4; 4; 0];
  mk_item "vcvt(bff)"%string 6 ARMVFP3 [0x17; 0x1b; 0x1d; 0x13; 0x15; 7; 0x11; 0x11; 1; 9; 11; 5; 6; 6; 1];
  mk_item "vcvt(bfi)"%string 5 ARMVFP2 [0x17; 0x1b; 0x1d; 0x13; 0x15; 7; 9; 11; 5; 6; 6; 1; 4; 4; 0];
  mk_item "vmovbrs"%string 3 ARMVFP2 [0x15; 0x1b; 0x70; 8; 11; 10; 0; 6; 0x10];
  mk_item "vmsr"%string 2 ARMVFP2 [0x14; 0x1b; 0xee; 0; 11; 0xa10];
  mk_item "vmovbrc"%string 4 ARMVFP2 [0x17; 0x1b; 0x1c; 0x14; 0x14; 0; 8; 11; 11; 0; 4; 0x10];
  mk_item "vmrs"%string 2 ARMVFP2 [0x14; 0x1b; 0xef; 0; 11; 0xa10];
  mk_item "vmovbcr"%string 4 ARMVFP2 [0x18; 0x1b; 14; 0x14; 0x14; 1; 8; 11; 11; 0; 4; 0x10];
  mk_item "vmovbrrss"%string 3 ARMVFP2 [0x15; 0x1b; 0x62; 8; 11; 10; 4; 4; 1];
  mk_item "vmovbrrd"%string 3 ARMVFP2 [0x15; 0x1b; 0x62; 6; 11; 0x2c; 4; 4; 1];
  mk_item "vstr"%string 3 ARMVFP2 [0x18; 0x1b; 13; 0x14; 0x15; 0; 9; 11; 5];
  mk_item "vpush"%string 3 ARMVFP2 [0x17; 0x1b; 0x1a; 0x10; 0x15; 0x2d; 9; 11; 5];
  mk_item "vstm"%string 3 ARMVFP2 [0x19; 0x1b; 6; 0x14; 0x14; 0; 9; 11; 5];
  mk_item "vpop"%string 3 ARMVFP2 [0x17; 0x1b; 0x19; 0x10; 0x15; 0x3d; 9; 11; 5];
  mk_item "vldr"%string 3 ARMVFP2 [0x18; 0x1b; 13; 0x14; 0x15; 1; 9; 11; 5];
  mk_item "vldm"%string 3 ARMVFP2 [0x19; 0x1b; 6; 0x14; 0x14; 1; 9; 11; 5];
  mk_item "srs"%string 4 6 [0x19; 0x1f; 0x7c; 0x16; 0x16; 1; 0x10; 0x14; 13; 8; 11; 5];
  mk_item "rfe"%string 4 6 [0x19; 0x1f; 0x7c; 0x16; 0x16; 0; 0x14; 0x14; 1; 8; 11; 10];
  mk_item "bkpt"%string 2 3 [0x14; 0x1b; 0x12; 4; 7; 7];
  mk_item "blx"%string 1 3 [0x19; 0x1f; 0x7d];
  mk_item "cps"%string 3 6 [0x14; 0x1f; 0xf10; 0x10; 0x10; 0; 5; 5; 0];
  mk_item "pld"%string 4 4 [0x1a; 0x1f; 0x3d; 0x18; 0x18; 1; 0x14; 0x16; 5; 12; 15; 15];
  mk_item "setend"%string 2 6 [0x10; 0x1f; 0xf101; 4; 7; 0];
  mk_item "clrex"%string 1 6 [0; 0x1f; 0xf57ff01f];
  mk_item "rev16"%string 2 6 [0x10; 0x1b; 0x6bf; 4; 11; 0xfb];
  mk_item "usad8"%string 3 6 [0x14; 0x1b; 0x78; 12; 15; 15; 4; 7; 1];
  mk_item "sxtb"%string 2 6 [0x10; 0x1b; 0x6af; 4; 7; 7];
  mk_item "uxtb"%string 2 6 [0x10; 0x1b; 0x6ef; 4; 7; 7];
  mk_item "sxth"%string 2 6 [0x10; 0x1b; 0x6bf; 4; 7; 7];
  mk_item "sxtb16"%string 2 6 [0x10; 0x1b; 0x68f; 4; 7; 7];
  mk_item "uxth"%string 2 6 [0x10; 0x1b; 0x6ff; 4; 7; 7];
  mk_item "uxtb16"%string 2 6 [0x10; 0x1b; 0x6cf; 4; 7; 7];
  mk_item "cpy"%string 2 6 [0x14; 0x1b; 0x1a; 4; 11; 0];
  mk_item "uxtab"%string 2 6 [0x14; 0x1b; 0x6e; 4; 9; 7];
  mk_item "ssub8"%string 2 6 [0x14; 0x1b; 0x61; 4; 7; 15];
  mk_item "shsub8"%string 2 6 [0x14; 0x1b; 0x63; 4; 7; 15];
  mk_item "ssubaddx"%string 2 6 [0x14; 0x1b; 0x61; 4; 7; 5];
  mk_item "strex"%string 2 6 [0x14; 0x1b; 0x18; 4; 7; 9];
  mk_item "strexb"%string 2 7 [0x14; 0x1b; 0x1c; 4; 7; 9];
  mk_item "swp"%string 2 0 [0x14; 0x1b; 0x10; 4; 7; 9];
  mk_item "swpb"%string 2 0 [0x14; 0x1b; 0x14; 4; 7; 9];
  mk_item "ssub16"%string 2 6 [0x14; 0x1b; 0x61; 4; 7; 7];
  mk_item "ssat16"%string 2 6 [0x14; 0x1b; 0x6a; 4; 7; 3];
  mk_item "shsubaddx"%string 2 6 [0x14; 0x1b; 0x63; 4; 7; 5];
  mk_item "qsubaddx"%string 2 6 [0x14; 0x1b; 0x62; 4; 7; 5];
  mk_item "shaddsubx"%string 2 6 [0x14; 0x1b; 0x63; 4; 7; 3];
  mk_item "shadd8"%string 2 6 [0x14; 0x1b; 0x63; 4; 7; 9];
  mk_item "shadd16"%string 2 6 [0x14; 0x1b; 0x63; 4; 7; 1];
  mk_item "sel"%string 2 6 [0x14; 0x1b; 0x68; 4; 7; 11];
  mk_item "saddsubx"%string 2 6 [0x14; 0x1b; 0x61; 4; 7; 3];
  mk_item "sadd8"%string 2 6 [0x14; 0x1b; 0x61; 4; 7; 9];
  mk_item "sadd16"%string 2 6 [0x14; 0x1b; 0x61; 4; 7; 1];
  mk_item "shsub16"%string 2 6 [0x14; 0x1b; 0x63; 4; 7; 7];
  mk_item "umaal"%string 2 6 [0x14; 0x1b; 4; 4; 7; 9];
  mk_item "uxtab16"%string 2 6 [0x14; 0x1b; 0x6c; 4; 7; 7];
  mk_item "usubaddx"%string 2 6 [0x14; 0x1b; 0x65; 4; 7; 5];
  mk_item "usub8"%string 2 6 [0x14; 0x1b; 0x65; 4; 7; 15];
  mk_item "usub16"%string 2 6 [0x14; 0x1b; 0x65; 4; 7; 7];
  mk_item "usat16"%string 2 6 [0x14; 0x1b; 0x6e; 4; 7; 3];
  mk_item "usada8"%string 2 6 [0x14; 0x1b; 0x78; 4; 7; 1];
  mk_item "uqsubaddx"%string 2 6 [0x14; 0x1b; 0x66; 4; 7; 5];
  mk_item "uqsub8"%string 2 6 [0x14; 0x1b; 0x66; 4; 7; 15];
  mk_item "uqsub16"%string 2 6 [0x14; 0x1b; 0x66; 4; 7; 7];
  mk_item "uqaddsubx"%string 2 6 [0x14; 0x1b; 0x66; 4; 7; 3];
  mk_item "uqadd8"%string 2 6 [0x14; 0x1b; 0x66; 4; 7; 9];
  mk_item "uqadd16"%string 2 6 [0x14; 0x1b; 0x66; 4; 7; 1];
  mk_item "sxtab"%string 2 6 [0x14; 0x1b; 0x6a; 4; 7; 7];
  mk_item "uhsubaddx"%string 2 6 [0x14; 0x1b; 0x67; 4; 7; 5];
  mk_item "uhsub8"%string 2 6 [0x14; 0x1b; 0x67; 4; 7; 15];
  mk_item "uhsub16"%string 2 6 [0x14; 0x1b; 0x67; 4; 7; 7];
  mk_item "uhaddsubx"%string 2 6 [0x14; 0x1b; 0x67; 4; 7; 3];
  mk_item "uhadd8"%string 2 6 [0x14; 0x1b; 0x67; 4; 7; 9];
  mk_item "uhadd16"%string 2 6 [0x14; 0x1b; 0x67; 4; 7; 1];
  mk_item "uaddsubx"%string 2 6 [0x14; 0x1b; 0x65; 4; 7; 3];
  mk_item "uadd8"%string 2 6 [0x14; 0x1b; 0x65; 4; 7; 9];
  mk_item "uadd16"%string 2 6 [0x14; 0x1b; 0x65; 4; 7; 1];
  mk_item "sxtah"%string 2 6 [0x14; 0x1b; 0x6b; 4; 7; 7];
  mk_item "sxtab16"%string 2 6 [0x14; 0x1b; 0x68; 4; 7; 7];
  mk_item "qadd8"%string 2 6 [0x14; 0x1b; 0x62; 4; 7; 9];
  mk_item "bxj"%string 2 5 [0x14; 0x1b; 0x12; 4; 7; 2];
  mk_item "clz"%string 2 3 [0x14; 0x1b; 0x16; 4; 7; 1];
  mk_item "uxtah"%string 2 6 [0x14; 0x1b; 0x6f; 4; 7; 7];
  mk_item "bx"%string 2 2 [0x14; 0x1b; 0x12; 4; 7; 1];
  mk_item "rev"%string 2 6 [0x14; 0x1b; 0x6b; 4; 7; 3];
  mk_item "blx"%string 2 3 [0x14; 0x1b; 0x12; 4; 7; 3];
  mk_item "revsh"%string 2 6 [0x14; 0x1b; 0x6f; 4; 7; 11];
  mk_item "qadd"%string 2 4 [0x14; 0x1b; 0x10; 4; 7; 5];
  mk_item "qadd16"%string 2 6 [0x14; 0x1b; 0x62; 4; 7; 1];
  mk_item "qaddsubx"%string 2 6 [0x14; 0x1b; 0x62; 4; 7; 3];
  mk_item "ldrex"%string 2 0 [0x14; 0x1b; 0x19; 4; 7; 9];
  mk_item "qdadd"%string 2 4 [0x14; 0x1b; 0x14; 4; 7; 5];
  mk_item "qdsub"%string 2 4 [0x14; 0x1b; 0x16; 4; 7; 5];
  mk_item "qsub"%string 2 4 [0x14; 0x1b; 0x12; 4; 7; 5];
  mk_item "ldrexb"%string 2 7 [0x14; 0x1b; 0x1d; 4; 7; 9];
  mk_item "qsub8"%string 2 6 [0x14; 0x1b; 0x62; 4; 7; 15];
  mk_item "qsub16"%string 2 6 [0x14; 0x1b; 0x62; 4; 7; 7];
  mk_item "smuad"%string 4 6 [0x14; 0x1b; 0x70; 12; 15; 15; 6; 7; 0; 4; 4; 1];
  mk_item "smmul"%string 4 6 [0x14; 0x1b; 0x75; 12; 15; 15; 6; 7; 0; 4; 4; 1];
  mk_item "smusd"%string 4 6 [0x14; 0x1b; 0x70; 12; 15; 15; 6; 7; 1; 4; 4; 1];
  mk_item "smlsd"%string 3 6 [0x14; 0x1b; 0x70; 6; 7; 1; 4; 4; 1];
  mk_item "smlsld"%string 3 6 [0x14; 0x1b; 0x74; 6; 7; 1; 4; 4; 1];
  mk_item "smmla"%string 3 6 [0x14; 0x1b; 0x75; 6; 7; 0; 4; 4; 1];
  mk_item "smmls"%string 3 6 [0x14; 0x1b; 0x75; 6; 7; 3; 4; 4; 1];
  mk_item "smlald"%string 3 6 [0x14; 0x1b; 0x74; 6; 7; 0; 4; 4; 1];
  mk_item "smlad"%string 3 6 [0x14; 0x1b; 0x70; 6; 7; 0; 4; 4; 1];
  mk_item "smlaw"%string 3 4 [0x14; 0x1b; 0x12; 7; 7; 1; 4; 5; 0];
  mk_item "smulw"%string 3 4 [0x14; 0x1b; 0x12; 7; 7; 1; 4; 5; 2];
  mk_item "pkhtb"%string 2 6 [0x14; 0x1b; 0x68; 4; 6; 5];
  mk_item "pkhbt"%string 2 6 [0x14; 0x1b; 0x68; 4; 6; 1];
  mk_item "smul"%string 3 4 [0x14; 0x1b; 0x16; 7; 7; 1; 4; 4; 0];
  mk_item "smlalxy"%string 3 4 [0x14; 0x1b; 0x14; 7; 7; 1; 4; 4; 0];
  mk_item "smla"%string 3 4 [0x14; 0x1b; 0x10; 7; 7; 1; 4; 4; 0];
  mk_item "mcrr"%string 1 6 [0x14; 0x1b; 0xc4];
  mk_item "mrrc"%string 1 6 [0x14; 0x1b; 0xc5];
  mk_item "cmp"%string 2 0 [0x1a; 0x1b; 0; 0x14; 0x18; 0x15];
  mk_item "tst"%string 2 0 [0x1a; 0x1b; 0; 0x14; 0x18; 0x11];
  mk_item "teq"%string 2 0 [0x1a; 0x1b; 0; 0x14; 0x18; 0x13];
  mk_item "cmn"%string 2 0 [0x1a; 0x1b; 0; 0x14; 0x18; 0x17];
  mk_item "smull"%string 2 0 [0x15; 0x1b; 6; 4; 7; 9];
  mk_item "umull"%string 2 0 [0x15; 0x1b; 4; 4; 7; 9];
  mk_item "umlal"%string 2 0 [0x15; 0x1b; 5; 4; 7; 9];
  mk_item "smlal"%string 2 0 [0x15; 0x1b; 7; 4; 7; 9];
  mk_item "mul"%string 2 0 [0x15; 0x1b; 0; 4; 7; 9];
  mk_item "mla"%string 2 0 [0x15; 0x1b; 1; 4; 7; 9];
  mk_item "ssat"%string 2 6 [0x15; 0x1b; 0x35; 4; 5; 1];
  mk_item "usat"%string 2 6 [0x15; 0x1b; 0x37; 4; 5; 1];
  mk_item "mrs"%string 4 0 [0x17; 0x1b; 2; 0x14; 0x15; 0; 0x10; 0x13; 15; 0; 11; 0];
  mk_item "msr"%string 3 0 [0x17; 0x1b; 2; 0x14; 0x15; 2; 4; 7; 0];
  mk_item "and"%string 2 0 [0x1a; 0x1b; 0; 0x15; 0x18; 0];
  mk_item "bic"%string 2 0 [0x1a; 0x1b; 0; 0x15; 0x18; 14];
  mk_item "ldm"%string 3 0 [0x19; 0x1b; 4; 0x14; 0x16; 5; 15; 15; 0];
  mk_item "eor"%string 2 0 [0x1a; 0x1b; 0; 0x15; 0x18; 1];
  mk_item "add"%string 2 0 [0x1a; 0x1b; 0; 0x15; 0x18; 4];
  mk_item "rsb"%string 2 0 [0x1a; 0x1b; 0; 0x15; 0x18; 3];
  mk_item "rsc"%string 2 0 [0x1a; 0x1b; 0; 0x15; 0x18; 7];
  mk_item "sbc"%string 2 0 [0x1a; 0x1b; 0; 0x15; 0x18; 6];
  mk_item "adc"%string 2 0 [0x1a; 0x1b; 0; 0x15; 0x18; 5];
  mk_item "sub"%string 2 0 [0x1a; 0x1b; 0; 0x15; 0x18; 2];
  mk_item "orr"%string 2 0 [0x1a; 0x1b; 0; 0x15; 0x18; 12];
  mk_item "mvn"%string 2 0 [0x1a; 0x1b; 0; 0x15; 0x18; 15];
  mk_item "mov"%string 2 0 [0x1a; 0x1b; 0; 0x15; 0x18; 13];
  mk_item "stm"%string 2 0 [0x19; 0x1b; 4; 0x14; 0x16; 4];
  mk_item "ldm"%string 4 0 [0x19; 0x1b; 4; 0x16; 0x16; 1; 0x14; 0x14; 1; 15; 15; 1];
  mk_item "ldrsh"%string 3 2 [0x19; 0x1b; 0; 0x14; 0x14; 1; 4; 7; 15];
  mk_item "stm"%string 3 0 [0x19; 0x1b; 4; 0x16; 0x16; 0; 0x14; 0x14; 0];
  mk_item "ldm"%string 3 0 [0x19; 0x1b; 4; 0x16; 0x16; 0; 0x14; 0x14; 1];
  mk_item "ldrsb"%string 3 2 [0x19; 0x1b; 0; 0x14; 0x14; 1; 4; 7; 13];
  mk_item "strd"%string 3 4 [0x19; 0x1b; 0; 0x14; 0x14; 0; 4; 7; 15];
  mk_item "ldrh"%string 3 0 [0x19; 0x1b; 0; 0x14; 0x14; 1; 4; 7; 11];
  mk_item "strh"%string 3 0 [0x19; 0x1b; 0; 0x14; 0x14; 0; 4; 7; 11];
  mk_item "ldrd"%string 3 4 [0x19; 0x1b; 0; 0x14; 0x14; 0; 4; 7; 13];
  mk_item "strt"%string 3 0 [0x1a; 0x1b; 1; 0x18; 0x18; 0; 0x14; 0x16; 2];
  mk_item "strbt"%string 3 0 [0x1a; 0x1b; 1; 0x18; 0x18; 0; 0x14; 0x16; 6];
  mk_item "ldrbt"%string 3 0 [0x1a; 0x1b; 1; 0x18; 0x18; 0; 0x14; 0x16; 7];
  mk_item "ldrt"%string 3 0 [0x1a; 0x1b; 1; 0x18; 0x18; 0; 0x14; 0x16; 3];
  mk_item "mrc"%string 3 6 [0x18; 0x1b; 14; 0x14; 0x14; 1; 4; 4; 1];
  mk_item "mcr"%string 3 0 [0x18; 0x1b; 14; 0x14; 0x14; 0; 4; 4; 1];
  mk_item "msr"%string 3 0 [0x17; 0x1b; 6; 0x14; 0x15; 2; 0x16; 0x16; 1];
  mk_item "msr"%string 4 0 [0x17; 0x1b; 6; 0x14; 0x15; 2; 0x16; 0x16; 0; 0x10; 0x13; 4];
  mk_item "msr"%string 5 0 [0x17; 0x1b; 6; 0x14; 0x15; 2; 0x16; 0x16; 0; 0x13; 0x13; 1; 0x10; 0x11; 0];
  mk_item "msr"%string 4 0 [0x17; 0x1b; 6; 0x14; 0x15; 2; 0x16; 0x16; 0; 0x10; 0x11; 1];
  mk_item "msr"%string 4 0 [0x17; 0x1b; 6; 0x14; 0x15; 2; 0x16; 0x16; 0; 0x11; 0x11; 1];
  mk_item "ldrb"%string 3 0 [0x1a; 0x1b; 1; 0x16; 0x16; 1; 0x14; 0x14; 1];
  mk_item "strb"%string 3 0 [0x1a; 0x1b; 1; 0x16; 0x16; 1; 0x14; 0x14; 0];
  mk_item "ldr"%string 4 0 [0x1c; 0x1f; 14; 0x1a; 0x1b; 1; 0x16; 0x16; 0; 0x14; 0x14; 1];
  mk_item "ldrcond"%string 3 0 [0x1a; 0x1b; 1; 0x16; 0x16; 0; 0x14; 0x14; 1];
  mk_item "str"%string 3 0 [0x1a; 0x1b; 1; 0x16; 0x16; 0; 0x14; 0x14; 0];
  mk_item "cdp"%string 2 0 [0x18; 0x1b; 14; 4; 4; 0];
  mk_item "stc"%string 2 0 [0x19; 0x1b; 6; 0x14; 0x14; 0];
  mk_item "ldc"%string 2 0 [0x19; 0x1b; 6; 0x14; 0x14; 1];
  mk_item "ldrexd"%string 2 ARMV6K [0x14; 0x1b; 0x1b; 4; 7; 9];
  mk_item "strexd"%string 2 ARMV6K [0x14; 0x1b; 0x1a; 4; 7; 9];
  mk_item "ldrexh"%string 2 ARMV6K [0x14; 0x1b; 0x1f; 4; 7; 9];
  mk_item "strexh"%string 2 ARMV6K [0x14; 0x1b; 0x1e; 4; 7; 9];
  mk_item "nop"%string 5 ARMV6K [0x17; 0x1b; 6; 0x16; 0x16; 0; 0x14; 0x15; 2; 0x10; 0x13; 0; 0; 7; 0];
  mk_item "yield"%string 5 ARMV6K [0x17; 0x1b; 6; 0x16; 0x16; 0; 0x14; 0x15; 2; 0x10; 0x13; 0; 0; 7; 1];
  mk_item "wfe"%string 5 ARMV6K [0x17; 0x1b; 6; 0x16; 0x16; 0; 0x14; 0x15; 2; 0x10; 0x13; 0; 0; 7; 2];
  mk_item "wfi"%string 5 ARMV6K [0x17; 0x1b; 6; 0x16; 0x16; 0; 0x14; 0x15; 2; 0x10; 0x13; 0; 0; 7; 3];
  mk_item "sev"%string 5 ARMV6K [0x17; 0x1b; 6; 0x16; 0x16; 0; 0x14; 0x15; 2; 0x10; 0x13; 0; 0; 7; 4];
  mk_item "swi"%string 1 0 [0x18; 0x1b; 15];
  mk_item "bbl"%string 1 0 [0x19; 0x1b; 5]
].

(* src: arm_dyncom_dec.cpp | const InstructionSetEncodingItem arm_exclusion_code[] = { *)
Definition arm_exclusion_code : list InstructionSetEncodingItem := [
  mk_item "vmla"%string 0 ARMVFP2 [0];
  mk_item "vmls"%string 0 ARMVFP2 [0];
  mk_item "vnmla"%string 0 ARMVFP2 [0];
  mk_item "vnmls"%string 0 ARMVFP2 [0];
  mk_item "vnmul"%string 0 ARMVFP2 [0];
  mk_item "vmul"%string 0 ARMVFP2 [0];
  mk_item "vadd"%string 0 ARMVFP2 [0];
  mk_item "vsub"%string 0 ARMVFP2 [0];
  mk_item "vdiv"%string 0 ARMVFP2 [0];
  mk_item "vmov(i)"%string 0 ARMVFP3 [0];
  mk_item "vmov(r)"%string 0 ARMVFP3 [0];
  mk_item "vabs"%string 0 ARMVFP2 [0];
  mk_item "vneg"%string 0 ARMVFP2 [0];
  mk_item "vsqrt"%string 0 ARMVFP2 [0];
  mk_item "vcmp"%string 0 ARMVFP2 [0];
  mk_item "vcmp2"%string 0 ARMVFP2 [0];
  mk_item "vcvt(bff)"%string 0 ARMVFP3 [4; 4; 1];
  mk_item "vcvt(bds)"%string 0 ARMVFP2 [0];
  mk_item "vcvt(bfi)"%string 0 ARMVFP2 [0];
  mk_item "vmovbrs"%string 0 ARMVFP2 [0];
  mk_item "vmsr"%string 0 ARMVFP2 [0];
  mk_item "vmovbrc"%string 0 ARMVFP2 [0];
  mk_item "vmrs"%string 0 ARMVFP2 [0];
  mk_item "vmovbcr"%string 0 ARMVFP2 [0];
  mk_item "vmovbrrss"%string 0 ARMVFP2 [0];
  mk_item "vmovbrrd"%string 0 ARMVFP2 [0];
  mk_item "vstr"%string 0 ARMVFP2 [0];
  mk_item "vpush"%string 0 ARMVFP2 [0];
  mk_item "vstm"%string 0 ARMVFP2 [0];
  mk_item "vpop"%string 0 ARMVFP2 [0];
  mk_item "vldr"%string 0 ARMVFP2 [0];
  mk_item "vldm"%string 0 ARMVFP2 [0];
  mk_item "srs"%string 0 6 [0];
  mk_item "rfe"%string 0 6 [0];
  mk_item "bkpt"%string 0 3 [0];
  mk_item "blx"%string 0 3 [0];
  mk_item "cps"%string 0 6 [0];
  mk_item "pld"%string 0 4 [0];
  mk_item "setend"%string 0 6 [0];
  mk_item "clrex"%string 0 6 [0];
  mk_item "rev16"%string 0 6 [0];
  mk_item "usad8"%string 0 6 [0];
  mk_item "sxtb"%string 0 6 [0];
  mk_item "uxtb"%string 0 6 [0];
  mk_item "sxth"%string 0 6 [0];
  mk_item "sxtb16"%string 0 6 [0];
  mk_item "uxth"%string 0 6 [0];
  mk_item "uxtb16"%string 0 6 [0];
  mk_item "cpy"%string 0 6 [0];
  mk_item "uxtab"%string 0 6 [0];
  mk_item "ssub8"%string 0 6 [0];
  mk_item "shsub8"%string 0 6 [0];
  mk_item "ssubaddx"%string 0 6 [0];
  mk_item "strex"%string 0 6 [0];
  mk_item "strexb"%string 0 7 [0];
  mk_item "swp"%string 0 0 [0];
  mk_item "swpb"%string 0 0 [0];
  mk_item "ssub16"%string 0 6 [0];
  mk_item "ssat16"%string 0 6 [0];
  mk_item "shsubaddx"%string 0 6 [0];
  mk_item "qsubaddx"%string 0 6 [0];
  mk_item "shaddsubx"%string 0 6 [0];
  mk_item "shadd8"%string 0 6 [0];
  mk_item "shadd16"%string 0 6 [0];
  mk_item "sel"%string 0 6 [0];
  mk_item "saddsubx"%string 0 6 [0];
  mk_item "sadd8"%string 0 6 [0];
  mk_item "sadd16"%string 0 6 [0];
  mk_item "shsub16"%string 0 6 [0];
  mk_item "umaal"%string 0 6 [0];
  mk_item "uxtab16"%string 0 6 [0];
  mk_item "usubaddx"%string 0 6 [0];
  mk_item "usub8"%string 0 6 [0];
  mk_item "usub16"%string 0 6 [0];
  mk_item "usat16"%string 0 6 [0];
  mk_item "usada8"%string 0 6 [0];
  mk_item "uqsubaddx"%string 0 6 [0];
  mk_item "uqsub8"%string 0 6 [0];
  mk_item "uqsub16"%string 0 6 [0];
  mk_item "uqaddsubx"%string 0 6 [0];
  mk_item "uqadd8"%string 0 6 [0];
  mk_item "uqadd16"%string 0 6 [0];
  mk_item "sxtab"%string 0 6 [0];
  mk_item "uhsubaddx"%string 0 6 [0];
  mk_item "uhsub8"%string 0 6 [0];
  mk_item "uhsub16"%string 0 6 [0];
  mk_item "uhaddsubx"%string 0 6 [0];
  mk_item "uhadd8"%string 0 6 [0];
  mk_item "uhadd16"%string 0 6 [0];
  mk_item "uaddsubx"%string 0 6 [0];
  mk_item "uadd8"%string 0 6 [0];
  mk_item "uadd16"%string 0 6 [0];
  mk_item "sxtah"%string 0 6 [0];
  mk_item "sxtab16"%string 0 6 [0];
  mk_item "qadd8"%string 0 6 [0];
  mk_item "bxj"%string 0 5 [0];
  mk_item "clz"%string 0 3 [0];
  mk_item "uxtah"%string 0 6 [0];
  mk_item "bx"%string 0 2 [0];
  mk_item "rev"%string 0 6 [0];
  mk_item "blx"%string 0 3 [0];
  mk_item "revsh"%string 0 6 [0];
  mk_item "qadd"%string 0 4 [0];
  mk_item "qadd16"%string 0 6 [0];
  mk_item "qaddsubx"%string 0 6 [0];
  mk_item "ldrex"%string 0 0 [0];
  mk_item "qdadd"%string 0 4 [0];
  mk_item "qdsub"%string 0 4 [0];
  mk_item "qsub"%string 0 4 [0];
  mk_item "ldrexb"%string 0 7 [0];
  mk_item "qsub8"%string 0 6 [0];
  mk_item "qsub16"%string 0 6 [0];
  mk_item "smuad"%string 0 6 [0];
  mk_item "smmul"%string 0 6 [0];
  mk_item "smusd"%string 0 6 [0];
  mk_item "smlsd"%string 0 6 [0];
  mk_item "smlsld"%string 0 6 [0];
  mk_item "smmla"%string 0 6 [0];
  mk_item "smmls"%string 0 6 [0];
  mk_item "smlald"%string 0 6 [0];
  mk_item "smlad"%string 0 6 [0];
  mk_item "smlaw"%string 0 4 [0];
  mk_item "smulw"%string 0 4 [0];
  mk_item "pkhtb"%string 0 6 [0];
  mk_item "pkhbt"%string 0 6 [0];
  mk_item "smul"%string 0 4 [0];
  mk_item "smlal"%string 0 4 [0];
  mk_item "smla"%string 0 4 [0];
  mk_item "mcrr"%string 0 6 [0];
  mk_item "mrrc"%string 0 6 [0];
  mk_item "cmp"%string 3 0 [4; 4; 1; 7; 7; 1; 0x19; 0x19; 0];
  mk_item "tst"%string 3 0 [4; 4; 1; 7; 7; 1; 0x19; 0x19; 0];
  mk_item "teq"%string 3 0 [4; 4; 1; 7; 7; 1; 0x19; 0x19; 0];
  mk_item "cmn"%string 3 0 [4; 4; 1; 7; 7; 1; 0x19; 0x19; 0];
  mk_item "smull"%string 0 0 [0];
  mk_item "umull"%string 0 0 [0];
  mk_item "umlal"%string 0 0 [0];
  mk_item "smlal"%string 0 0 [0];
  mk_item "mul"%string 0 0 [0];
  mk_item "mla"%string 0 0 [0];
  mk_item "ssat"%string 0 6 [0];
  mk_item "usat"%string 0 6 [0];
  mk_item "mrs"%string 0 0 [0];
  mk_item "msr"%string 0 0 [0];
  mk_item "and"%string 3 0 [4; 4; 1; 7; 7; 1; 0x19; 0x19; 0];
  mk_item "bic"%string 3 0 [4; 4; 1; 7; 7; 1; 0x19; 0x19; 0];
  mk_item "ldm"%string 0 0 [0];
  mk_item "eor"%string 3 0 [4; 4; 1; 7; 7; 1; 0x19; 0x19; 0];
  mk_item "add"%string 3 0 [4; 4; 1; 7; 7; 1; 0x19; 0x19; 0];
  mk_item "rsb"%string 3 0 [4; 4; 1; 7; 7; 1; 0x19; 0x19; 0];
  mk_item "rsc"%string 3 0 [4; 4; 1; 7; 7; 1; 0x19; 0x19; 0];
  mk_item "sbc"%string 3 0 [4; 4; 1; 7; 7; 1; 0x19; 0x19; 0];
  mk_item "adc"%string 3 0 [4; 4; 1; 7; 7; 1; 0x19; 0x19; 0];
  mk_item "sub"%string 3 0 [4; 4; 1; 7; 7; 1; 0x19; 0x19; 0];
  mk_item "orr"%string 3 0 [4; 4; 1; 7; 7; 1; 0x19; 0x19; 0];
  mk_item "mvn"%string 3 0 [4; 4; 1; 7; 7; 1; 0x19; 0x19; 0];
  mk_item "mov"%string 3 0 [4; 4; 1; 7; 7; 1; 0x19; 0x19; 0];
  mk_item "stm"%string 0 0 [0];
  mk_item "ldm"%string 0 0 [0];
  mk_item "ldrsh"%string 0 2 [0];
  mk_item "stm"%string 0 0 [0];
  mk_item "ldm"%string 0 0 [0];
  mk_item "ldrsb"%string 0 2 [0];
  mk_item "strd"%string 0 4 [0];
  mk_item "ldrh"%string 0 0 [0];
  mk_item "strh"%string 0 0 [0];
  mk_item "ldrd"%string 0 4 [0];
  mk_item "strt"%string 0 0 [0];
  mk_item "strbt"%string 0 0 [0];
  mk_item "ldrbt"%string 0 0 [0];
  mk_item "ldrt"%string 0 0 [0];
  mk_item "mrc"%string 0 6 [0];
  mk_item "mcr"%string 0 0 [0];
  mk_item "msr"%string 0 0 [0];
  mk_item "msr"%string 0 0 [0];
  mk_item "msr"%string 0 0 [0];
  mk_item "msr"%string 0 0 [0];
  mk_item "msr"%string 0 0 [0];
  mk_item "ldrb"%string 0 0 [0];
  mk_item "strb"%string 0 0 [0];
  mk_item "ldr"%string 0 0 [0];
  mk_item "ldrcond"%string 1 0 [0x1c; 0x1f; 14];
  mk_item "str"%string 0 0 [0];
  mk_item "cdp"%string 0 0 [0];
  mk_item "stc"%string 0 0 [0];
  mk_item "ldc"%string 0 0 [0];
  mk_item "ldrexd"%string 0 ARMV6K [0];
  mk_item "strexd"%string 0 ARMV6K [0];
  mk_item "ldrexh"%string 0 ARMV6K [0];
  mk_item "strexh"%string 0 ARMV6K [0];
  mk_item "nop"%string 0 ARMV6K [0];
  mk_item "yield"%string 0 ARMV6K [0];
  mk_item "wfe"%string 0 ARMV6K [0];
  mk_item "wfi"%string 0 ARMV6K [0];
  mk_item "sev"%string 0 ARMV6K [0];
  mk_item "swi"%string 0 0 [0];
  mk_item "bbl"%string 0 0 [0];
  mk_item "bl_1_thumb"%string 0 INVALID [0];
  mk_item "bl_2_thumb"%string 0 INVALID [0];
  mk_item "blx_1_thumb"%string 0 INVALID [0];
  mk_item "invalid"%string 0 INVALID [0]
].

(** [content[k]]: the members after the ones listed are 0. *)
Definition item (content : list Z) (k : nat) : Z := nth k content 0.

(** The two [while (n)] loops: whether all the [n] triples (first bit, last bit,
    value) of a row hold.  In the first a triple from bit 0 to bit 31 compares
    the whole word. *)
(* src: arm_dyncom_dec.cpp | while (n) { #1 | DecodeARMInstruction *)
Fixpoint row_matches (instr : Z) (n base : nat) (content : list Z) : bool :=
  match n with
  | O => true
  | S n =>
      let lo := item content base in
      let hi := item content (base + 1)%nat in
      let v := item content (base + 2)%nat in
      (if (hi =? 31) && (lo =? 0) then instr =? v else BITS instr lo hi =? v)
      && row_matches instr n (base + 3)%nat content
  end.
(* src: arm_dyncom_dec.cpp | while (n) { #2 | DecodeARMInstruction *)
Fixpoint row_excludes (instr : Z) (n base : nat) (content : list Z) : bool :=
  match n with
  | O => true
  | S n =>
      (BITS instr (item content base) (item content (base + 1)%nat) =? item content (base + 2)%nat)
      && row_excludes instr n (base + 3)%nat content
  end.

(** The body of the [for] loop: the row decodes the word.  An exclusion of no
    triples excludes nothing. *)
(* src: arm_dyncom_dec.cpp | n = arm_instruction[i].attribute_value; | DecodeARMInstruction | ..return ret; *)
Definition row_decodes (instr : Z) (row excl : InstructionSetEncodingItem) : bool :=
  negb (version row =? ARMVFP3)
  && row_matches instr (attribute_value row) 0 (content row)
  && negb ((0 <? Z.of_nat (attribute_value excl)) && row_excludes instr (attribute_value excl) 0 (content excl)).

Fixpoint decode_rows (instr i : Z) (rows excls : list InstructionSetEncodingItem) : option Z :=
  match rows, excls with
  | row :: rows, excl :: excls =>
      if row_decodes instr row excl then Some i else decode_rows instr (i + 1) rows excls
  | _, _ => None
  end.

(** The index of the first row that decodes the word; [None] is
    [ARMDecodeStatus::FAILURE]. *)
(* src: arm_dyncom_dec.cpp | ARMDecodeStatus DecodeARMInstruction(u32 instr, int* idx) { *)
Definition DecodeARMInstruction (instr : Z) : option Z :=
  decode_rows instr 0 arm_instruction arm_exclusion_code.


