(* ===== verification/Thumb.v ===== *)
(** The Thumb decoder, [arm_dyncom_thumb.cpp] and [arm_dyncom_thumb.h]: a Thumb
    instruction is rewritten as an ARM instruction word, except for the branches
    that have no ARM equivalent. *)

From S2P Require Import Prelude ArmSupp.

(* src: arm_dyncom_thumb.h *)
Inductive ThumbDecodeStatus := UNDEFINED | DECODED | BRANCH | UNINITIALIZED.
#[global] Instance ThumbDecodeStatus_eq_dec : EqDecision ThumbDecodeStatus.
Proof. solve_decision. Defined.

(* src: arm_dyncom_thumb.h *)
Definition GetThumbInstruction (instr address : Z) : Z :=
  if nz (address .& 0x3) then instr ≫ 16 else instr .& 0xFFFF.

(** [subset[i]] of a constant array; the index is a masked field. *)
#[local] Notation "l .[ i ]" := (nth (Z.to_nat i) l 0) (at level 2, left associativity).

(** What the word of a case becomes: a status and the ARM word [*ainstr], which
    holds [0xDEADC0DE] where the case does not write it. *)
Definition no_ainstr : Z := 0xDEADC0DE.

Section thumb.
Context (tinstr : Z).
#[local] Notation t := tinstr.

(* src: arm_dyncom_thumb.cpp | case 0: | TranslateThumbInstruction | ..break; *)
Definition thumb_shift : Z :=
  0xE1B00000 .| ((t .& 0x1800) ≫ (11 - 5)) .| ((t .& 0x07C0) ≪ (7 - 6)) .| ((t .& 0x0038) ≫ 3)
  .| ((t .& 0x0007) ≪ 12).

(* src: arm_dyncom_thumb.cpp | case 3: // ADD/SUB | TranslateThumbInstruction | ..} break; *)
Definition thumb_add_sub : Z :=
  [0xE0900000; 0xE0500000; 0xE2900000; 0xE2500000].[(t .& 0x0600) ≫ 9]
  .| ((t .& 0x01C0) ≫ 6) .| ((t .& 0x0038) ≪ (16 - 3)) .| ((t .& 0x0007) ≪ (12 - 0)).

(* src: arm_dyncom_thumb.cpp | case 4: // MOV | TranslateThumbInstruction | ..} break; *)
Definition thumb_imm8 : Z :=
  [0xE3B00000; 0xE3500000; 0xE2900000; 0xE2500000].[(t .& 0x1800) ≫ 11]
  .| ((t .& 0x00FF) ≫ 0) .| ((t .& 0x0700) ≪ (16 - 8)) .| ((t .& 0x0700) ≪ (12 - 8)).

(* src: arm_dyncom_thumb.cpp | enum otype { t_norm *)
Inductive otype := t_norm | t_shift | t_neg | t_mul.

(** The sixteen data-processing operations on low registers. *)
(* src: arm_dyncom_thumb.cpp | {0xE0100000, t_norm}, | TranslateThumbInstruction | ..{0xE1F00000, t_norm} *)
Definition thumb_alu_subset : list (Z * otype) := [
  (0xE0100000, t_norm); (0xE0300000, t_norm); (0xE1B00010, t_shift); (0xE1B00030, t_shift);
  (0xE1B00050, t_shift); (0xE0B00000, t_norm); (0xE0D00000, t_norm); (0xE1B00070, t_shift);
  (0xE1100000, t_norm); (0xE2700000, t_neg); (0xE1500000, t_norm); (0xE1700000, t_norm);
  (0xE1900000, t_norm); (0xE0100090, t_mul); (0xE1D00000, t_norm); (0xE1F00000, t_norm)].

(* src: arm_dyncom_thumb.cpp | if ((tinstr & (1 << 10)) == 0) { | TranslateThumbInstruction *)
Definition thumb_alu : Z :=
  let '(opcode, type) := nth (Z.to_nat ((t .& 0x03C0) ≫ 6)) thumb_alu_subset (0, t_norm) in
  match type with
  | t_norm => opcode .| ((t .& 0x0007) ≪ 16) .| ((t .& 0x0007) ≪ 12) .| ((t .& 0x0038) ≫ 3)
  | t_shift => opcode .| ((t .& 0x0007) ≪ 12) .| ((t .& 0x0007) ≫ 0) .| ((t .& 0x0038) ≪ (8 - 3))
  | t_neg => opcode .| ((t .& 0x0007) ≪ 12) .| ((t .& 0x0038) ≪ (16 - 3))
  | t_mul => opcode .| ((t .& 0x0007) ≪ 16) .| ((t .& 0x0007) ≪ 8) .| ((t .& 0x0038) ≫ 3)
  end.

(* src: arm_dyncom_thumb.cpp | u32 Rd = ((tinstr & 0x0007) >> 0); | TranslateThumbInstruction | +41 *)
Definition thumb_high : Z :=
  let Rd := (t .& 0x0007) ≫ 0 in
  let Rs := (t .& 0x0078) ≫ 3 in
  let Rd := if nz (t .& (1 ≪ 7)) then Rd + 8 else Rd in
  let op := (t .& 0x03C0) ≫ 6 in
  if op <=? 0x3 then 0xE0800000 .| (Rd ≪ 16) .| (Rd ≪ 12) .| (Rs ≪ 0)
  else if op <=? 0x7 then 0xE1500000 .| (Rd ≪ 16) .| (Rs ≪ 0)
  else if op <=? 0xB then 0xE1A00000 .| (Rd ≪ 12) .| (Rs ≪ 0)
  else if op <=? 0xD then 0xE12FFF10 .| ((t .& 0x0078) ≫ 3)
  else 0xE1200030 .| (Rs ≪ 0).

(* src: arm_dyncom_thumb.cpp | case 9: | TranslateThumbInstruction | ..break; *)
Definition thumb_ldr_pc : Z := 0xE59F0000 .| ((t .& 0x0700) ≪ (12 - 8)) .| ((t .& 0x00FF) ≪ (2 - 0)).

(* src: arm_dyncom_thumb.cpp | case 10: | TranslateThumbInstruction | ..} break; *)
Definition thumb_ldst_reg : Z :=
  [0xE7800000; 0xE18000B0; 0xE7C00000; 0xE19000D0; 0xE7900000; 0xE19000B0; 0xE7D00000; 0xE19000F0]
    .[(t .& 0xE00) ≫ 9]
  .| ((t .& 0x0007) ≪ (12 - 0)) .| ((t .& 0x0038) ≪ (16 - 3)) .| ((t .& 0x01C0) ≫ 6).

(* src: arm_dyncom_thumb.cpp | case 12: // STR Rd,[Rb,#imm5] | TranslateThumbInstruction | ..} break; *)
Definition thumb_ldst_imm5 : Z :=
  [0xE5800000; 0xE5900000; 0xE5C00000; 0xE5D00000].[(t .& 0x1800) ≫ 11]
  .| ((t .& 0x0007) ≪ (12 - 0)) .| ((t .& 0x0038) ≪ (16 - 3))
  .| ((t .& 0x07C0) ≫ (6 - (if nz (t .& (1 ≪ 12)) then 0 else 2))).

(* src: arm_dyncom_thumb.cpp | case 16: | TranslateThumbInstruction | ..break; *)
Definition thumb_ldsth : Z :=
  (if nz (t .& (1 ≪ 11)) then 0xE1D000B0 else 0xE1C000B0)
  .| ((t .& 0x0007) ≪ (12 - 0)) .| ((t .& 0x0038) ≪ (16 - 3)) .| ((t .& 0x01C0) ≫ (6 - 1))
  .| ((t .& 0x0600) ≫ (9 - 8)).

(* src: arm_dyncom_thumb.cpp | case 18: | TranslateThumbInstruction | ..break; *)
Definition thumb_ldst_sp : Z :=
  (if nz (t .& (1 ≪ 11)) then 0xE59D0000 else 0xE58D0000)
  .| ((t .& 0x0700) ≪ (12 - 8)) .| ((t .& 0x00FF) ≪ 2).

(* src: arm_dyncom_thumb.cpp | case 20: // ADD Rd,PC,#imm8 | TranslateThumbInstruction | ..break; *)
Definition thumb_add_pc_sp : Z :=
  if t .& (1 ≪ 11) =? 0 then 0xE28F0F00 .| ((t .& 0x0700) ≪ (12 - 8)) .| (t .& 0x00FF)
  else 0xE28D0F00 .| ((t .& 0x0700) ≪ (12 - 8)) .| (t .& 0x00FF).

(* src: arm_dyncom_thumb.cpp | case 22: | TranslateThumbInstruction | ..// mask8 *)
Definition thumb_misc : ThumbDecodeStatus * Z :=
  let op := t .& 0x0F00 in
  if op =? 0x0000 then
    (UNINITIALIZED, (if nz (t .& (1 ≪ 7)) then 0xE24DDF00 else 0xE28DDF00) .| (t .& 0x007F))
  else if op =? 0x0e00 then
    (UNINITIALIZED, 0xEF000000 .| BITS t 0 3 .| (BITS t 4 7 ≪ 8))
  else if op =? 0x0200 then
    (UNINITIALIZED, [0xE6BF0070; 0xE6AF0070; 0xE6FF0070; 0xE6EF0070].[BITS t 6 7]
                    .| (BITS t 0 2 ≪ 12) .| BITS t 3 5)
  else if op =? 0x600 then
    (UNINITIALIZED,
     if BIT t 5 =? 0 then 0xF1010000 .| (BIT t 3 ≪ 9)
     else 0xF1080000 .| (BIT t 0 ≪ 6) .| (BIT t 1 ≪ 7) .| (BIT t 2 ≪ 8) .| (BIT t 4 ≪ 18))
  else if op =? 0x0a00 then
    if BITS t 6 7 =? 2 then (UNDEFINED, no_ainstr)
    else (UNINITIALIZED, [0xE6BF0F30; 0xE6BF0FB0; 0; 0xE6FF0FB0].[BITS t 6 7]
                         .| (BITS t 0 2 ≪ 12) .| BITS t 3 5)
  else
    (UNINITIALIZED,
     [0xE92D0000; 0xE92D4000; 0xE8BD0000; 0xE8BD8000]
       .[((t .& (1 ≪ 11)) ≫ 10) .| ((t .& (1 ≪ 8)) ≫ 8)] .| (t .& 0x00FF)).

(* src: arm_dyncom_thumb.cpp | case 24: //  STMIA | TranslateThumbInstruction | ..break; *)
Definition thumb_ldm_stm : Z :=
  if nz (t .& (1 ≪ 11)) then
    let rn := BITS t 8 10 in
    let base := if t .& (1 ≪ rn) =? 0 then 0xE8900000 .| (1 ≪ 21) else 0xE8900000 in
    base .| (rn ≪ 16) .| (t .& 0x00FF)
  else 0xE8A00000 .| (BITS t 8 10 ≪ 16) .| (t .& 0x00FF).

(* src: arm_dyncom_thumb.cpp | case 26: // Bcc | TranslateThumbInstruction | ..break; *)
Definition thumb_bcc_swi : ThumbDecodeStatus * Z :=
  if t .& 0x0F00 =? 0x0F00 then
    (UNINITIALIZED,
     0xEF000000 .| (if t .& 0x00FF =? 0x18 then (t .& 0x00FF) ≪ 16
                    else if t .& 0x00FF =? 0xFE then 0x180000 else t .& 0x00FF))
  else if negb (t .& 0x0F00 =? 0x0E00) then (BRANCH, no_ainstr)
  else (UNDEFINED, no_ainstr).

(** The [switch] of [TranslateThumbInstruction]. *)
Definition thumb_cases : ThumbDecodeStatus * Z :=
  match (t .& 0xF800) ≫ 11 with
  | 0 | 1 | 2 => (UNINITIALIZED, thumb_shift)
  | 3 => (UNINITIALIZED, thumb_add_sub)
  | 4 | 5 | 6 | 7 => (UNINITIALIZED, thumb_imm8)
  | 8 => (UNINITIALIZED, if t .& (1 ≪ 10) =? 0 then thumb_alu else thumb_high)
  | 9 => (UNINITIALIZED, thumb_ldr_pc)
  | 10 | 11 => (UNINITIALIZED, thumb_ldst_reg)
  | 12 | 13 | 14 | 15 => (UNINITIALIZED, thumb_ldst_imm5)
  | 16 | 17 => (UNINITIALIZED, thumb_ldsth)
  | 18 | 19 => (UNINITIALIZED, thumb_ldst_sp)
  | 20 | 21 => (UNINITIALIZED, thumb_add_pc_sp)
  | 22 | 23 => thumb_misc
  | 24 | 25 => (UNINITIALIZED, thumb_ldm_stm)
  | 26 | 27 => thumb_bcc_swi
  | 28 => (BRANCH, no_ainstr)
  | 29 => (if nz (t .& 0x1) then UNDEFINED else BRANCH, no_ainstr)
  | 30 | 31 => (BRANCH, no_ainstr)
  | _ => (UNINITIALIZED, no_ainstr)
  end.
End thumb.

(** The status, [*ainstr] and [*inst_size]. *)
(* src: arm_dyncom_thumb.cpp | ThumbDecodeStatus TranslateThumbInstruction(u32 addr *)
Definition TranslateThumbInstruction (addr instr : Z) : ThumbDecodeStatus * Z * Z :=
  let '(valid, ainstr) := thumb_cases (GetThumbInstruction instr addr) in (valid, ainstr, 2).
