(* ===== verification/ArmInst.v ===== *)
(** The labels of [InterpreterMainLoop] that touch the processor state only:
    data processing, branches, status and coprocessor registers, multiplication,
    media and Thumb instructions of [arm_dyncom_interpreter.cpp].

    A label is applied to the condition of the instruction and to the structure
    behind it; on the structure of another layout it fails, as the cast of the
    C++ code would read garbage.  The number before a body is the size given to
    [INC_PC]. *)

From S2P Require Import Prelude ArmSupp ArmState ArmOps ArmTrans.

(** * Shared ends of the data-processing labels *)

(** The return from an exception: [Cpsr = Spsr_copy], the mode it names, and the
    flags.  (Some labels write [Cpsr & 0x1F], others [Spsr_copy & 0x1F], which
    are equal there.) *)
(* src: arm_dyncom_interpreter.cpp | if (inst_cream->S && (inst_cream->Rd == 15)) { #1 | ADC_INST | +5 *)
Definition spsr_return : CPU unit :=
  h ← gets CurrentModeHasSPSR;
  when_ h (modify (λ s,
    let s := s<|Cpsr := Spsr_copy s|> in LOAD_NZCVT (ChangePrivilegeMode (Cpsr s .& 0x1F) s))).

Definition set_carry_overflow (carry overflow : bool) : CPU unit :=
  modify (λ s, s<|CFlag := Z.b2z carry|><|VFlag := Z.b2z overflow|>).

(** The end of an addition or subtraction, and of a logical operation. *)
Definition arith_end (sf Rd : Z) (res : Z * bool * bool) : CPU bool :=
  let '(r, carry, overflow) := res in
  set_reg Rd r;;
  (if nz sf && (Rd =? 15) then spsr_return
   else when_ (nz sf) (UPDATE_NFLAG r;; UPDATE_ZFLAG r;; set_carry_overflow carry overflow));;
  mret (Rd =? 15).

Definition logic_end (sf Rd r : Z) : CPU bool :=
  set_reg Rd r;;
  (if nz sf && (Rd =? 15) then spsr_return
   else when_ (nz sf) (UPDATE_NFLAG r;; UPDATE_ZFLAG r;; UPDATE_CFLAG_WITH_SC));;
  mret (Rd =? 15).

Definition compare_end (res : Z * bool * bool) : CPU unit :=
  let '(r, carry, overflow) := res in
  UPDATE_NFLAG r;; UPDATE_ZFLAG r;; set_carry_overflow carry overflow.

Section labels.
Context (cond : Z) (inst_component : component).
#[local] Abbreviation dp f :=
  (match inst_component with dp_inst _ sf Rn Rd oper sht => label cond 32 (f sf Rn Rd oper sht) | _ => fail end).
#[local] Abbreviation cmp f :=
  (match inst_component with cmp_inst _ Rn oper sht => label_ cond 24 (f Rn oper sht) | _ => fail end).
#[local] Abbreviation mov f :=
  (match inst_component with mov_inst _ sf Rd oper sht => label cond 24 (f sf Rd oper sht) | _ => fail end).

(** * Data processing *)

(* src: arm_dyncom_interpreter.cpp | ADC_INST : { *)
Definition ADC_INST : CPU flow := dp (λ sf Rn Rd oper sht,
  rn_val ← reg_plus_pc Rn;
  op ← SHIFTER_OPERAND sht oper;
  c ← gets CFlag;
  arith_end sf Rd (AddWithCarry rn_val op c)).

(* src: arm_dyncom_interpreter.cpp | ADD_INST : { *)
Definition ADD_INST : CPU flow := dp (λ sf Rn Rd oper sht,
  rn_val ← CHECK_READ_REG15_WA Rn;
  op ← SHIFTER_OPERAND sht oper;
  arith_end sf Rd (AddWithCarry rn_val op 0)).

(* src: arm_dyncom_interpreter.cpp | AND_INST : { *)
Definition AND_INST : CPU flow := dp (λ sf Rn Rd oper sht,
  lop ← reg_plus_pc Rn;
  rop ← SHIFTER_OPERAND sht oper;
  logic_end sf Rd (lop .& rop)).

(* src: arm_dyncom_interpreter.cpp | BIC_INST : { *)
Definition BIC_INST : CPU flow := dp (λ sf Rn Rd oper sht,
  lop ← reg_plus_pc Rn;
  rop ← SHIFTER_OPERAND sht oper;
  logic_end sf Rd (lop .& unot 32 rop)).

(* src: arm_dyncom_interpreter.cpp | CMN_INST : { *)
Definition CMN_INST : CPU flow := cmp (λ Rn oper sht,
  rn_val ← reg_plus_pc Rn;
  op ← SHIFTER_OPERAND sht oper;
  compare_end (AddWithCarry rn_val op 0)).

(* src: arm_dyncom_interpreter.cpp | CMP_INST : { *)
Definition CMP_INST : CPU flow := cmp (λ Rn oper sht,
  rn_val ← reg_plus_pc Rn;
  op ← SHIFTER_OPERAND sht oper;
  compare_end (AddWithCarry rn_val (unot 32 op) 1)).

(* src: arm_dyncom_interpreter.cpp | CPY_INST : { *)
Definition CPY_INST : CPU flow := mov (λ _ Rd oper sht,
  op ← SHIFTER_OPERAND sht oper; set_reg Rd op;; mret (Rd =? 15)).

(* src: arm_dyncom_interpreter.cpp | EOR_INST : { *)
Definition EOR_INST : CPU flow := dp (λ sf Rn Rd oper sht,
  lop ← reg_plus_pc Rn;
  rop ← SHIFTER_OPERAND sht oper;
  logic_end sf Rd (lop .^ rop)).

(* src: arm_dyncom_interpreter.cpp | MOV_INST : { *)
Definition MOV_INST : CPU flow := mov (λ sf Rd oper sht,
  op ← SHIFTER_OPERAND sht oper; logic_end sf Rd op).

(* src: arm_dyncom_interpreter.cpp | MVN_INST : { *)
Definition MVN_INST : CPU flow := mov (λ sf Rd oper sht,
  op ← SHIFTER_OPERAND sht oper; logic_end sf Rd (unot 32 op)).

(* src: arm_dyncom_interpreter.cpp | ORR_INST : { *)
Definition ORR_INST : CPU flow := dp (λ sf Rn Rd oper sht,
  lop ← reg_plus_pc Rn;
  rop ← SHIFTER_OPERAND sht oper;
  logic_end sf Rd (lop .| rop)).

(* src: arm_dyncom_interpreter.cpp | RSB_INST : { #2 *)
Definition RSB_INST : CPU flow := dp (λ sf Rn Rd oper sht,
  rn_val ← reg_plus_pc Rn;
  op ← SHIFTER_OPERAND sht oper;
  arith_end sf Rd (AddWithCarry (unot 32 rn_val) op 1)).

(* src: arm_dyncom_interpreter.cpp | RSC_INST : { *)
Definition RSC_INST : CPU flow := dp (λ sf Rn Rd oper sht,
  rn_val ← reg_plus_pc Rn;
  op ← SHIFTER_OPERAND sht oper;
  c ← gets CFlag;
  arith_end sf Rd (AddWithCarry (unot 32 rn_val) op c)).

(* src: arm_dyncom_interpreter.cpp | SBC_INST : { *)
Definition SBC_INST : CPU flow := dp (λ sf Rn Rd oper sht,
  rn_val ← reg_plus_pc Rn;
  op ← SHIFTER_OPERAND sht oper;
  c ← gets CFlag;
  arith_end sf Rd (AddWithCarry rn_val (unot 32 op) c)).

(* src: arm_dyncom_interpreter.cpp | SUB_INST : { #2 *)
Definition SUB_INST : CPU flow := dp (λ sf Rn Rd oper sht,
  rn_val ← CHECK_READ_REG15_WA Rn;
  op ← SHIFTER_OPERAND sht oper;
  arith_end sf Rd (AddWithCarry rn_val (unot 32 op) 1)).

(* src: arm_dyncom_interpreter.cpp | TEQ_INST : { *)
Definition TEQ_INST : CPU flow := cmp (λ Rn oper sht,
  lop ← reg_plus_pc Rn;
  rop ← SHIFTER_OPERAND sht oper;
  UPDATE_NFLAG (lop .^ rop);; UPDATE_ZFLAG (lop .^ rop);; UPDATE_CFLAG_WITH_SC).

(** [tst_inst] has the layout of the other data-processing structures. *)
(* src: arm_dyncom_interpreter.cpp | TST_INST : { *)
Definition TST_INST : CPU flow := dp (λ sf Rn Rd oper sht,
  lop ← reg_plus_pc Rn;
  rop ← SHIFTER_OPERAND sht oper;
  UPDATE_NFLAG (lop .& rop);; UPDATE_ZFLAG (lop .& rop);; UPDATE_CFLAG_WITH_SC;; mret false).

(** * Branches *)

(* src: arm_dyncom_interpreter.cpp | #define LINK_RTN_ADDR *)
Definition LINK_RTN_ADDR : CPU unit := r ← gets pc; set_reg 14 (u32 (r + 4)).

(* src: arm_dyncom_interpreter.cpp | BBL_INST : { *)
Definition BBL_INST : CPU flow :=
  match inst_component with
  | bbl_inst L signed_immed_24 _ _ =>
      label_branch cond
        (when_ (nz L) LINK_RTN_ADDR;; set_pc (λ s, u32 (pc s + 8 + signed_immed_24)))
  | _ => fail
  end.

(* src: arm_dyncom_interpreter.cpp | BKPT_INST : { *)
Definition BKPT_INST : CPU flow :=
  match inst_component with bkpt_inst _ => label_ cond 4 (mret tt) | _ => fail end.

(** [cpu->Reg[14] = cpu->Reg[15] + cpu->GetInstructionSize()] *)
Definition link_next : CPU unit := r ← gets (λ s, u32 (pc s + GetInstructionSize s)); set_reg 14 r.
Definition set_tflag (b : Z) : CPU unit := modify (λ s, s<|TFlag := b|>).

(* src: arm_dyncom_interpreter.cpp | BLX_INST : { *)
Definition BLX_INST : CPU flow :=
  match inst_component with
  | blx_inst val inst =>
      label_branch cond
        (if (BITS inst 20 27 =? 0x12) && (BITS inst 4 7 =? 0x3) then
           jump_address ← reg val;
           link_next;;
           t ← gets TFlag;
           when_ (nz t) (r ← reg 14; set_reg 14 (r .| 0x1));;
           set_reg 15 (jump_address .& 0xfffffffe);;
           set_tflag (jump_address .& 0x1)
         else
           link_next;;
           set_tflag 0x1;;
           let signed_int := if nz (val .& 0x800000) then 0x3F000000 .| val else val in
           let signed_int := s32 (signed_int ≪ 2) in
           set_pc (λ s, u32 (pc s + 8 + signed_int + (BIT inst 24 ≪ 1))))
  | _ => fail
  end.

(** [BX_INST] and [BXJ_INST] are the same label. *)
(* src: arm_dyncom_interpreter.cpp | BX_INST: #1 | BX_INST | ..goto DISPATCH; *)
Definition BX_INST : CPU flow :=
  match inst_component with
  | bx_inst Rm =>
      label_branch cond
        (address ← reg_plus_pc Rm;
         set_tflag (address .& 1);;
         set_reg 15 (address .& 0xfffffffe))
  | _ => fail
  end.

(* src: arm_dyncom_interpreter.cpp | CDP_INST : { *)
Definition CDP_INST : CPU flow :=
  match inst_component with
  | cdp_inst _ _ _ _ _ _ _ =>
      p ← passed cond;
      if p : bool then modify (λ s, s<|NumInstrsToExecute := 0|>);; mret Return else advance 28
  | _ => fail
  end.

(** * Hints and instructions that are not implemented *)

(* src: arm_dyncom_interpreter.cpp | CLREX_INST : { *)
Definition CLREX_INST : CPU flow :=
  match inst_component with
  | clrex_inst => modify UnsetExclusiveMemoryAddress;; advance 1
  | _ => fail
  end.
(* src: arm_dyncom_interpreter.cpp | LDC_INST : { *)
Definition LDC_INST : CPU flow := match inst_component with ldc_inst => advance 1 | _ => fail end.
(* src: arm_dyncom_interpreter.cpp | STC_INST : { *)
Definition STC_INST : CPU flow := match inst_component with stc_inst => advance 1 | _ => fail end.
(* src: arm_dyncom_interpreter.cpp | PLD_INST : { *)
Definition PLD_INST : CPU flow := match inst_component with pld_inst => advance 1 | _ => fail end.
(* src: arm_dyncom_interpreter.cpp | NOP_INST : { *)
Definition NOP_INST : CPU flow := match inst_component with no_component => advance 0 | _ => fail end.
(* src: arm_dyncom_interpreter.cpp | SEV_INST : { *)
Definition SEV_INST : CPU flow := NOP_INST.
(* src: arm_dyncom_interpreter.cpp | WFE_INST : { *)
Definition WFE_INST : CPU flow := NOP_INST.
(* src: arm_dyncom_interpreter.cpp | WFI_INST : { *)
Definition WFI_INST : CPU flow := NOP_INST.
(* src: arm_dyncom_interpreter.cpp | YIELD_INST : { *)
Definition YIELD_INST : CPU flow := NOP_INST.

(** * Status and coprocessor registers *)

Definition set_cpsr (f : Z -> Z) : CPU unit := modify (λ s, s<|Cpsr := f (Cpsr s)|>).

(* src: arm_dyncom_interpreter.cpp | CPS_INST : { *)
Definition CPS_INST : CPU flow :=
  match inst_component with
  | cps_inst imod0 imod1 mmod A_ I_ F_ mode =>
      priv ← gets InAPrivilegedMode;
      when_ priv
        (when_ (nz imod1)
           (let field b k := if nz b then (imod0 ≪ k, 1 ≪ k) else (0, 0) in
            let aif_val := (field A_ 8).1 .| (field I_ 7).1 .| (field F_ 6).1 in
            let aif_mask := unot 32 ((field A_ 8).2 .| (field I_ 7).2 .| (field F_ 6).2) in
            set_cpsr (λ c, (c .& aif_mask) .| aif_val));;
         when_ (nz mmod)
           (set_cpsr (λ c, (c .& 0xffffffe0) .| mode);; modify (ChangePrivilegeMode mode)));;
      advance 28
  | _ => fail
  end.

(* src: arm_dyncom_interpreter.cpp | MCR_INST : { *)
Definition MCR_INST : CPU flow :=
  match inst_component with
  | mcr_inst opcode_1 opcode_2 cp_num crn crm Rd _ =>
      label_ cond 28
        (when_ (negb (Rd =? 15) && (cp_num =? 15))
           (rd ← reg Rd; modify (λ s, WriteCP15Register s rd crn opcode_1 crm opcode_2)))
  | _ => fail
  end.

(* src: arm_dyncom_interpreter.cpp | MCRR_INST : { *)
Definition MCRR_INST : CPU flow :=
  match inst_component with mcrr_inst _ _ _ _ _ => label_ cond 20 (mret tt) | _ => fail end.
(* src: arm_dyncom_interpreter.cpp | MRRC_INST : { *)
Definition MRRC_INST : CPU flow := MCRR_INST.

(* src: arm_dyncom_interpreter.cpp | MRC_INST : { *)
Definition MRC_INST : CPU flow :=
  match inst_component with
  | mrc_inst opcode_1 opcode_2 cp_num crn crm Rd _ =>
      label_ cond 28
        (when_ (cp_num =? 15)
           (value ← gets (λ s, ReadCP15Register s crn opcode_1 crm opcode_2);
            if Rd =? 15 then
              set_cpsr (λ c, (c .& unot 32 0xF0000000) .| (value .& 0xF0000000));; modify LOAD_NZCVT
            else set_reg Rd value))
  | _ => fail
  end.

(* src: arm_dyncom_interpreter.cpp | MRS_INST : { *)
Definition MRS_INST : CPU flow :=
  match inst_component with
  | mrs_inst R Rd =>
      label_ cond 8
        (if nz R then v ← gets Spsr_copy; set_reg Rd v
         else modify SAVE_NZCVT;; v ← gets Cpsr; set_reg Rd v)
  | _ => fail
  end.

(* src: arm_dyncom_interpreter.cpp | const u32 UserMask = | UserMask *)
Definition UserMask : Z := 0xf80f0200.
(* src: arm_dyncom_interpreter.cpp | const u32 UserMask = | PrivMask *)
Definition PrivMask : Z := 0x000001df.
(* src: arm_dyncom_interpreter.cpp | const u32 UserMask = | StateMask *)
Definition StateMask : Z := 0x01000020.

Definition msr_byte_mask (inst : Z) : Z :=
  (if nz (BIT inst 16) then 0xff else 0) .| (if nz (BIT inst 17) then 0xff00 else 0)
  .| (if nz (BIT inst 18) then 0xff0000 else 0) .| (if nz (BIT inst 19) then 0xff000000 else 0).

(* src: arm_dyncom_interpreter.cpp | MSR_INST : { *)
Definition MSR_INST : CPU flow :=
  match inst_component with
  | msr_inst _ R inst =>
      label_ cond 12
        (operand ← (if nz (BIT inst 25)
                    then mret (ROTATE_RIGHT_32 (BITS inst 0 7) (BITS inst 8 11 * 2))
                    else reg (BITS inst 0 3));
         let byte_mask := msr_byte_mask inst in
         if R =? 0 then
           priv ← gets InAPrivilegedMode;
           let mask :=
             if priv : bool
             then if nz (operand .& StateMask) then 0 else byte_mask .& (UserMask .| PrivMask)
             else byte_mask .& UserMask in
           modify SAVE_NZCVT;;
           set_cpsr (λ c, (c .& unot 32 mask) .| (operand .& mask));;
           modify (λ s, LOAD_NZCVT (ChangePrivilegeMode (Cpsr s .& 0x1F) s))
         else
           h ← gets CurrentModeHasSPSR;
           let mask := byte_mask .& (UserMask .| PrivMask .| StateMask) in
           when_ h (modify (λ s,
             s<|Spsr_copy := (Spsr_copy s .& unot 32 mask) .| (operand .& mask)|>)))
  | _ => fail
  end.

(* src: arm_dyncom_interpreter.cpp | SETEND_INST : { *)
Definition SETEND_INST : CPU flow :=
  match inst_component with
  | setend_inst set_bigend =>
      set_cpsr (λ c, if set_bigend =? 1 then c .| (1 ≪ 9) else c .& unot 32 (1 ≪ 9));; advance 4
  | _ => fail
  end.

(** * Thumb branches *)

(* src: arm_dyncom_interpreter.cpp | B_2_THUMB : { *)
Definition B_2_THUMB : CPU flow :=
  match inst_component with
  | b_2_thumb imm => set_pc (λ s, u32 (pc s + 4 + imm));; mret Dispatch
  | _ => fail
  end.

(** The condition of the structure, not of the instruction, decides. *)
(* src: arm_dyncom_interpreter.cpp | B_COND_THUMB : { *)
Definition B_COND_THUMB : CPU flow :=
  match inst_component with
  | b_cond_thumb imm cond =>
      set_pc (λ s, if CondPassed s cond then u32 (pc s + 4 + imm) else u32 (pc s + 2));;
      mret Dispatch
  | _ => fail
  end.

(* src: arm_dyncom_interpreter.cpp | BL_1_THUMB : { *)
Definition BL_1_THUMB : CPU flow :=
  match inst_component with
  | bl_1_thumb imm => r ← gets (λ s, u32 (pc s + 4 + imm)); set_reg 14 r;; advance 4
  | _ => fail
  end.

(* src: arm_dyncom_interpreter.cpp | BL_2_THUMB : { *)
Definition BL_2_THUMB : CPU flow :=
  match inst_component with
  | bl_2_thumb imm =>
      tmp ← gets (λ s, u32 (pc s + 2) .| 1);
      lr ← reg 14;
      set_pc (λ _, u32 (lr + imm));; set_reg 14 tmp;; mret Dispatch
  | _ => fail
  end.

(* src: arm_dyncom_interpreter.cpp | BLX_1_THUMB : { *)
Definition BLX_1_THUMB : CPU flow :=
  match inst_component with
  | blx_1_thumb imm _ =>
      tmp ← gets pc;
      lr ← reg 14;
      set_pc (λ _, u32 (lr + imm) .& 0xFFFFFFFC);;
      set_reg 14 (u32 (tmp + 2) .| 1);; set_tflag 0;; mret Dispatch
  | _ => fail
  end.
End labels.
