(* ===== verification/ArmMedia.v ===== *)
(** The multiplication and media labels of [InterpreterMainLoop]: multiply and
    multiply-accumulate, parallel additions and subtractions, saturation, packing
    and extension. *)

From S2P Require Import Prelude ArmSupp ArmState ArmOps ArmTrans ArmInst.

Section labels.
Context (cond : Z) (inst_component : component).

(** The label of a [generic_arm_inst] whose result goes to [Rd]. *)
#[local] Abbreviation generic f :=
  (match inst_component with
   | generic_arm_inst Ra Rm Rn Rd op1 op2 => label_ cond 20 (f Ra Rm Rn Rd op1 op2)
   | _ => fail
   end).

(** [UPDATE_NFLAG(RD)] and [UPDATE_ZFLAG(RD)], if the S bit is set. *)
Definition update_nz (sf r : Z) : CPU unit := when_ (nz sf) (UPDATE_NFLAG r;; UPDATE_ZFLAG r).

(** [cpu->NFlag = BIT(RDHI, 31); cpu->ZFlag = (RDHI == 0 && RDLO == 0)]. *)
Definition update_nz64 (sf RdHi RdLo : Z) : CPU unit :=
  when_ (nz sf)
    (hi ← reg RdHi; lo ← reg RdLo;
     modify (λ s, s<|NFlag := BIT hi 31|><|ZFlag := Z.b2z ((hi =? 0) && (lo =? 0))|>)).

(** [cpu->Cpsr |= (1 << 27)]: the Q flag. *)
Definition set_q (b : bool) : CPU unit := when_ b (set_cpsr (λ c, c .| (1 ≪ 27))).

(** The bits [mask] of [Cpsr], set or cleared: the GE flags. *)
Definition set_ge (b : bool) (mask : Z) : CPU unit :=
  set_cpsr (λ c, if b then c .| mask else c .& unot 32 mask).
Definition GE_lo : Z := (1 ≪ 16) .| (1 ≪ 17).
Definition GE_hi : Z := (1 ≪ 18) .| (1 ≪ 19).

(** Halfword and byte lanes of a register. *)
Definition lo16 (x : Z) : Z := x .& 0xFFFF.
Definition hi16 (x : Z) : Z := (x ≫ 16) .& 0xFFFF.
Definition byte_ (k x : Z) : Z := (x ≫ (8 * k)) .& 0xFF.
Definition pack16 (lo hi : Z) : Z := (lo .& 0xFFFF) .| u32 ((hi .& 0xFFFF) ≪ 16).
Definition pack8 (a b c d : Z) : Z :=
  (a .& 0xFF) .| ((b .& 0xFF) ≪ 8) .| ((c .& 0xFF) ≪ 16) .| u32 ((d .& 0xFF) ≪ 24).

(** * Multiplication *)

(* src: arm_dyncom_interpreter.cpp | MLA_INST : { #1 *)
Definition MLA_INST : CPU flow :=
  match inst_component with
  | mla_inst sf Rn Rd Rs Rm =>
      label_ cond 20
        (rm ← reg Rm; rs ← reg Rs; rn ← reg Rn;
         let r := u32 (u64 (rm * rs + rn) .& 0xffffffff) in
         set_reg Rd r;; update_nz sf r)
  | _ => fail
  end.

(* src: arm_dyncom_interpreter.cpp | MUL_INST : { #1 *)
Definition MUL_INST : CPU flow :=
  match inst_component with
  | mul_inst sf Rd Rs Rm =>
      label_ cond 16
        (rm ← reg Rm; rs ← reg Rs;
         let r := u32 (u64 (rm * rs) .& 0xffffffff) in
         set_reg Rd r;; update_nz sf r)
  | _ => fail
  end.

(** A signed halfword of a register, as [operand1] and [operand2] of [SMLA] and
    [SMUL] compute it. *)
(* src: arm_dyncom_interpreter.cpp | SMLA_INST : { | SMLA_INST | +13 *)
Definition half_operand (x r : Z) : Z :=
  if x =? 0 then if nz (BIT r 15) then BITS r 0 15 .| 0xffff0000 else BITS r 0 15
  else if nz (BIT r 31) then BITS r 16 31 .| 0xffff0000 else BITS r 16 31.

(* src: arm_dyncom_interpreter.cpp | SMLA_INST : { *)
Definition SMLA_INST : CPU flow :=
  match inst_component with
  | smla_inst x y Rm Rd Rs Rn =>
      label_ cond 24
        (rm ← reg Rm; rs ← reg Rs; rn ← reg Rn;
         let product := u32 (s32 (half_operand x rm) * s32 (half_operand y rs)) in
         let result := u32 (product + rn) in
         set_q (AddOverflow product rn result);;
         set_reg Rd result)
  | _ => fail
  end.

(** [SMLAD_INST], [SMLSD_INST], [SMUAD_INST] and [SMUSD_INST]. *)
(* src: arm_dyncom_interpreter.cpp | SMLAD_INST: | SMLAD_INST | ..GOTO_NEXT_INST; *)
Definition SMLAD_INST : CPU flow :=
  match inst_component with
  | smlad_inst m Rm Rd Ra Rn _ op2 =>
      label_ cond 28
        (rm_val ← reg Rm; rn_val ← reg Rn;
         let rm_val := if nz m then u32 ((rm_val .& 0xFFFF) ≪ 16) .| (rm_val ≫ 16) else rm_val in
         let product1 := u32 (s16 (lo16 rn_val) * s16 (lo16 rm_val)) in
         let product2 := u32 (s16 (hi16 rn_val) * s16 (hi16 rm_val)) in
         let add := BIT op2 1 =? 0 in
         let rd_val := if add then u32 (product1 + product2) else u32 (product1 - product2) in
         (if negb (Ra =? 15) then
            ra ← reg Ra;
            set_q (ARMul_AddOverflowQ rd_val ra);;
            set_reg Rd (u32 (rd_val + ra))
          else set_reg Rd rd_val);;
         set_q (add && ARMul_AddOverflowQ product1 product2))
  | _ => fail
  end.

(** [rm |= 0xffffffff00000000LL] for a negative 32-bit value. *)
Definition sext64 (r : Z) : Z := if nz (BIT r 31) then s64 (r .| 0xffffffff00000000) else r.

(* src: arm_dyncom_interpreter.cpp | SMLAL_INST : { *)
Definition SMLAL_INST : CPU flow :=
  match inst_component with
  | umlal_inst sf Rm Rs RdHi RdLo =>
      label_ cond 20
        (rm ← reg Rm; rs ← reg Rs;
         hi ← reg RdHi; lo ← reg RdLo;
         let rst := s64 (sext64 rm * sext64 rs) in
         let hilo := s64 (s64 (hi ≪ 32) + lo) in
         let rst := s64 (rst + hilo) in
         set_reg RdLo (u32 (BITS_s64 rst 0 31));;
         set_reg RdHi (u32 (BITS_s64 rst 32 63));;
         update_nz64 sf RdHi RdLo)
  | _ => fail
  end.

(** [operand &= 0xFFFF; if (operand & 0x8000) operand -= 65536] on 64 bits. *)
Definition half_operand64 (x r : Z) : Z :=
  let r := (if negb (x =? 0) then r ≫ 16 else r) .& 0xFFFF in
  if nz (r .& 0x8000) then u64 (r - 65536) else r.

(* src: arm_dyncom_interpreter.cpp | SMLALXY_INST : { *)
Definition SMLALXY_INST : CPU flow :=
  match inst_component with
  | smlalxy_inst x y RdLo RdHi Rm Rn =>
      label_ cond 24
        (operand1 ← reg Rn; operand2 ← reg Rm;
         hi ← reg RdHi; lo ← reg RdLo;
         let dest := u64 (((hi ≪ 32) .| lo)
                          + u64 (half_operand64 x operand1 * half_operand64 y operand2)) in
         set_reg RdLo (dest .& 0xFFFFFFFF);;
         set_reg RdHi ((dest ≫ 32) .& 0xFFFFFFFF))
  | _ => fail
  end.

(* src: arm_dyncom_interpreter.cpp | SMLAW_INST : { *)
Definition SMLAW_INST : CPU flow :=
  match inst_component with
  | smlad_inst m Rm Rd Ra Rn _ _ =>
      label_ cond 28
        (rm_val ← reg Rm; rn_val ← reg Rn; ra_val ← reg Ra;
         let operand2 := s16 (if m =? 1 then hi16 rm_val else lo16 rm_val) in
         let result := s64 (s32 rn_val * operand2 + (s32 ra_val ≪ 16)) in
         let rd := u32 (BITS_s64 result 16 47) in
         set_reg Rd rd;;
         set_q (negb (result ≫ 16 =? s32 rd)))
  | _ => fail
  end.

(** [SMLALD_INST] and [SMLSLD_INST]. *)
(* src: arm_dyncom_interpreter.cpp | SMLALD_INST: | SMLALD_INST | ..GOTO_NEXT_INST; *)
Definition SMLALD_INST : CPU flow :=
  match inst_component with
  | smlald_inst RdLo RdHi Rm Rn swap _ op2 =>
      label_ cond 28
        (rdlo_val ← reg RdLo; rdhi_val ← reg RdHi;
         rn_val ← reg Rn; rm_val ← reg Rm;
         let rm_val := if swap =? 1 then u32 ((rm_val .& 0xFFFF) ≪ 16) .| (rm_val ≫ 16) else rm_val in
         let product1 := s32 (s16 (lo16 rn_val) * s16 (lo16 rm_val)) in
         let product2 := s32 (s16 (hi16 rn_val) * s16 (hi16 rm_val)) in
         let sum := if BIT op2 1 =? 0 then s32 (product1 + product2) else s32 (product1 - product2) in
         let result := s64 (sum + s64 (rdlo_val .| s64 (rdhi_val ≪ 32))) in
         set_reg RdLo (u32 (result .& 0xFFFFFFFF));;
         set_reg RdHi (u32 ((result ≫ 32) .& 0xFFFFFFFF)))
  | _ => fail
  end.

(** [SMMLA_INST], [SMMLS_INST] and [SMMUL_INST]. *)
(* src: arm_dyncom_interpreter.cpp | SMMLA_INST: | SMMLA_INST | ..GOTO_NEXT_INST; *)
Definition SMMLA_INST : CPU flow :=
  match inst_component with
  | smlad_inst m Rm Rd Ra Rn _ op2 =>
      label_ cond 28
        (rm_val ← reg Rm; rn_val ← reg Rn;
         let product := s64 (s32 rn_val * s32 rm_val) in
         result ← (if negb (Ra =? 15) then
                     ra_val ← reg Ra;
                     mret (if BIT op2 1 =? 0 then s64 (product + s64 (ra_val ≪ 32))
                           else s64 (s64 (ra_val ≪ 32) - product))
                   else mret product);
         let result := if m =? 1 then s64 (result + 0x80000000) else result in
         set_reg Rd (u32 ((result ≫ 32) .& 0xFFFFFFFF)))
  | _ => fail
  end.

(* src: arm_dyncom_interpreter.cpp | SMUL_INST : { *)
Definition SMUL_INST : CPU flow :=
  match inst_component with
  | smul_inst Rd Rs Rm x y =>
      label_ cond 20
        (rm ← reg Rm; rs ← reg Rs; set_reg Rd (u32 (half_operand x rm * half_operand y rs)))
  | _ => fail
  end.

(* src: arm_dyncom_interpreter.cpp | SMULL_INST : { *)
Definition SMULL_INST : CPU flow :=
  match inst_component with
  | umull_inst sf RdHi RdLo Rs Rm =>
      label_ cond 20
        (rm ← reg Rm; rs ← reg Rs;
         let rst := s64 (sext64 rm * sext64 rs) in
         set_reg RdHi (u32 (BITS_s64 rst 32 63));;
         set_reg RdLo (u32 (BITS_s64 rst 0 31));;
         update_nz64 sf RdHi RdLo)
  | _ => fail
  end.

(* src: arm_dyncom_interpreter.cpp | SMULW_INST : { *)
Definition SMULW_INST : CPU flow :=
  match inst_component with
  | smlad_inst m Rm Rd _ Rn _ _ =>
      label_ cond 28
        (rm ← reg Rm; rn ← reg Rn;
         let rm := s16 (if m =? 1 then hi16 rm else lo16 rm) in
         set_reg Rd (u32 (BITS_s64 (s64 (rm * s32 rn)) 16 47)))
  | _ => fail
  end.

(* src: arm_dyncom_interpreter.cpp | UMAAL_INST : { *)
Definition UMAAL_INST : CPU flow :=
  match inst_component with
  | umaal_inst Rn Rm RdHi RdLo =>
      label_ cond 16
        (rm ← reg Rm; rn ← reg Rn; rd_lo ← reg RdLo; rd_hi ← reg RdHi;
         let result := u64 (rm * rn + rd_lo + rd_hi) in
         set_reg RdLo (result .& 0xFFFFFFFF);;
         set_reg RdHi ((result ≫ 32) .& 0xFFFFFFFF))
  | _ => fail
  end.

(** [BITS(rst, a, b)] of an unsigned 64-bit value. *)
Definition BITS_u64 (s a b : Z) : Z := u64 (s ≪ (63 - b)) ≫ (63 - b + a).

(* src: arm_dyncom_interpreter.cpp | UMLAL_INST : { *)
Definition UMLAL_INST : CPU flow :=
  match inst_component with
  | umlal_inst sf Rm Rs RdHi RdLo =>
      label_ cond 20
        (rm ← reg Rm; rs ← reg Rs; hi ← reg RdHi; lo ← reg RdLo;
         let rst := u64 (u64 (rm * rs) + u64 (u64 (hi ≪ 32) + lo)) in
         set_reg RdLo (u32 (BITS_u64 rst 0 31));;
         set_reg RdHi (u32 (BITS_u64 rst 32 63));;
         update_nz64 sf RdHi RdLo)
  | _ => fail
  end.

(* src: arm_dyncom_interpreter.cpp | UMULL_INST : { *)
Definition UMULL_INST : CPU flow :=
  match inst_component with
  | umull_inst sf RdHi RdLo Rs Rm =>
      label_ cond 20
        (rm ← reg Rm; rs ← reg Rs;
         let rst := u64 (rm * rs) in
         set_reg RdHi (u32 (BITS_u64 rst 32 63));;
         set_reg RdLo (u32 (BITS_u64 rst 0 31));;
         update_nz64 sf RdHi RdLo)
  | _ => fail
  end.

(** * Saturating arithmetic *)

(** [POS(result) ? 0x80000000 : 0x7FFFFFFF] *)
Definition saturated (result : Z) : Z := if nz (POS result) then 0x80000000 else 0x7FFFFFFF.

(** [QADD_INST], [QDADD_INST], [QDSUB_INST] and [QSUB_INST]. *)
(* src: arm_dyncom_interpreter.cpp | QADD_INST: | QADD_INST | ..GOTO_NEXT_INST; *)
Definition QADD_INST : CPU flow := generic (λ _ Rm Rn Rd op1 _,
  rm_val ← reg Rm; rn_val ← reg Rn;
  let mul := u32 (rn_val * 2) in
  let mul_overflow := AddOverflow rn_val rn_val mul in
  let mul_sat := if mul_overflow then saturated mul else mul in
  result ←
    (if op1 =? 0x00 then
       let result := u32 (rm_val + rn_val) in
       let o := AddOverflow rm_val rn_val result in
       set_q o;; mret (if o then saturated result else result)
     else if op1 =? 0x01 then
       let result := u32 (rm_val - rn_val) in
       let o := SubOverflow rm_val rn_val result in
       set_q o;; mret (if o then saturated result else result)
     else if op1 =? 0x02 then
       let result := u32 (mul_sat + rm_val) in
       let o := AddOverflow rm_val mul_sat result in
       set_q mul_overflow;; set_q o;; mret (if o then saturated result else result)
     else if op1 =? 0x03 then
       let result := u32 (rm_val - mul_sat) in
       let o := SubOverflow rm_val mul_sat result in
       set_q mul_overflow;; set_q o;; mret (if o then saturated result else result)
     else mret 0);
  set_reg Rd result).

(** The halfword and byte operations of the six [Q*] labels. *)
Definition lanes8 (f : Z -> Z -> Z) (x y : Z) : Z :=
  f (x .& 0xFF) (y .& 0xFF) .| (f (x ≫ 8) (y ≫ 8) ≪ 8).

(** [QADD8_INST], [QADD16_INST], [QADDSUBX_INST], [QSUB8_INST], [QSUB16_INST] and
    [QSUBADDX_INST]. *)
(* src: arm_dyncom_interpreter.cpp | QADD8_INST: #1 | QADD8_INST | ..GOTO_NEXT_INST; *)
Definition QADD8_INST : CPU flow := generic (λ _ Rm Rn Rd _ op2,
  rm ← reg Rm; rn ← reg Rn;
  let rm_lo := lo16 rm in let rm_hi := hi16 rm in
  let rn_lo := lo16 rn in let rn_hi := hi16 rn in
  let add := ARMul_SignedSaturatedAdd16 in let sub := ARMul_SignedSaturatedSub16 in
  let '(lo_result, hi_result) :=
    if op2 =? 0x00 then (add rn_lo rm_lo, add rn_hi rm_hi)
    else if op2 =? 0x01 then (sub rn_lo rm_hi, add rn_hi rm_lo)
    else if op2 =? 0x02 then (add rn_lo rm_hi, sub rn_hi rm_lo)
    else if op2 =? 0x03 then (sub rn_lo rm_lo, sub rn_hi rm_hi)
    else if op2 =? 0x04 then
      (lanes8 ARMul_SignedSaturatedAdd8 rn_lo rm_lo, lanes8 ARMul_SignedSaturatedAdd8 rn_hi rm_hi)
    else if op2 =? 0x07 then
      (lanes8 ARMul_SignedSaturatedSub8 rn_lo rm_lo, lanes8 ARMul_SignedSaturatedSub8 rn_hi rm_hi)
    else (0, 0) in
  set_reg Rd (pack16 (u16 lo_result) (u16 hi_result))).

(** [UQADD8_INST], [UQADD16_INST], [UQADDSUBX_INST], [UQSUB8_INST], [UQSUB16_INST]
    and [UQSUBADDX_INST]; the byte helpers take the low byte of an argument. *)
(* src: arm_dyncom_interpreter.cpp | UQADD8_INST: | UQADD8_INST | ..GOTO_NEXT_INST; *)
Definition UQADD8_INST : CPU flow := generic (λ _ Rm Rn Rd _ op2,
  rm_val ← reg Rm; rn_val ← reg Rn;
  let add := ARMul_UnsignedSaturatedAdd16 in let sub := ARMul_UnsignedSaturatedSub16 in
  let bytes f k :=
    f (u8 (rn_val ≫ k)) (u8 (rm_val ≫ k)) .| (f (u8 (rn_val ≫ (k + 8))) (u8 (rm_val ≫ (k + 8))) ≪ 8) in
  let '(lo_val, hi_val) :=
    if op2 =? 0x00 then (add (lo16 rn_val) (lo16 rm_val), add (hi16 rn_val) (hi16 rm_val))
    else if op2 =? 0x01 then (sub (lo16 rn_val) (hi16 rm_val), add (hi16 rn_val) (lo16 rm_val))
    else if op2 =? 0x02 then (add (lo16 rn_val) (hi16 rm_val), sub (hi16 rn_val) (lo16 rm_val))
    else if op2 =? 0x03 then (sub (lo16 rn_val) (lo16 rm_val), sub (hi16 rn_val) (hi16 rm_val))
    else if op2 =? 0x04 then
      (bytes ARMul_UnsignedSaturatedAdd8 0, bytes ARMul_UnsignedSaturatedAdd8 16)
    else (bytes ARMul_UnsignedSaturatedSub8 0, bytes ARMul_UnsignedSaturatedSub8 16) in
  set_reg Rd (pack16 (u16 lo_val) (u16 hi_val))).

(** The shift of [SSAT] and [USAT]. *)
(* src: arm_dyncom_interpreter.cpp | u8 shift_type = inst_cream->shift_type; #1 | SSAT_INST | +12 *)
Definition sat_operand (shift_type imm5 rn_val : Z) : Z :=
  let shift_amount := if (shift_type =? 1) && (imm5 =? 0) then 31 else imm5 in
  if shift_type =? 0 then lsl32 rn_val shift_amount
  else if shift_type =? 1 then asr32 rn_val shift_amount else rn_val.

(* src: arm_dyncom_interpreter.cpp | SSAT_INST : { *)
Definition SSAT_INST : CPU flow :=
  match inst_component with
  | ssat_inst Rn Rd imm5 sat_imm shift_type =>
      label_ cond 20
        (rn ← reg Rn;
         let '(r, saturated) := ARMul_SignedSatQ (s32 (sat_operand shift_type imm5 rn)) sat_imm in
         set_q saturated;; set_reg Rd r)
  | _ => fail
  end.

(* src: arm_dyncom_interpreter.cpp | USAT_INST : { *)
Definition USAT_INST : CPU flow :=
  match inst_component with
  | ssat_inst Rn Rd imm5 sat_imm shift_type =>
      label_ cond 20
        (rn ← reg Rn;
         let '(r, saturated) := ARMul_UnsignedSatQ (s32 (sat_operand shift_type imm5 rn)) sat_imm in
         set_q saturated;; set_reg Rd r)
  | _ => fail
  end.

(** The label writes [RD] before it tests the flags of saturation. *)
(* src: arm_dyncom_interpreter.cpp | SSAT16_INST : { *)
Definition SSAT16_INST : CPU flow :=
  match inst_component with
  | ssat_inst Rn Rd _ sat_imm _ =>
      label_ cond 20
        (rn ← reg Rn;
         let '(lo, sat1) := ARMul_SignedSatQ (s16 (lo16 rn)) sat_imm in
         let '(hi, sat2) := ARMul_SignedSatQ (s32 rn ≫ 16) sat_imm in
         set_reg Rd ((lo .& 0xFFFF) .| u32 (hi ≪ 16));; set_q (sat1 || sat2))
  | _ => fail
  end.

(* src: arm_dyncom_interpreter.cpp | USAT16_INST : { *)
Definition USAT16_INST : CPU flow :=
  match inst_component with
  | ssat_inst Rn Rd _ sat_imm _ =>
      label_ cond 20
        (rn ← reg Rn;
         let '(lo, sat1) := ARMul_UnsignedSatQ (s16 (lo16 rn)) sat_imm in
         let '(hi, sat2) := ARMul_UnsignedSatQ (s32 rn ≫ 16) sat_imm in
         set_reg Rd ((lo .& 0xFFFF) .| u32 (hi ≪ 16));; set_q (sat1 || sat2))
  | _ => fail
  end.

(** * Parallel additions and subtractions *)

(** The four combinations of halfwords: [+ +], [- +] and [+ -] with the halves of
    the second operand exchanged, [- -]. *)
Definition halves (op2 nlo nhi mlo mhi : Z) : Z * Z :=
  if op2 =? 0x00 then (nlo + mlo, nhi + mhi)
  else if op2 =? 0x01 then (nlo - mhi, nhi + mlo)
  else if op2 =? 0x02 then (nlo + mhi, nhi - mlo)
  else (nlo - mlo, nhi - mhi).
Definition is_halves (op2 : Z) : bool := (op2 =? 0) || (op2 =? 1) || (op2 =? 2) || (op2 =? 3).
(** The sums or differences of bytes. *)
Definition byte_sum (op2 : Z) (c : Z -> Z) (n m k : Z) : Z :=
  if op2 =? 0x04 then c (byte_ k n) + c (byte_ k m) else c (byte_ k n) - c (byte_ k m).

(** [SADD8_INST], [SSUB8_INST], [SADD16_INST], [SADDSUBX_INST], [SSUBADDX_INST] and
    [SSUB16_INST]. *)
(* src: arm_dyncom_interpreter.cpp | SADD8_INST: | SADD8_INST | ..GOTO_NEXT_INST; *)
Definition SADD8_INST : CPU flow := generic (λ _ Rm Rn Rd _ op2,
  n ← reg Rn; m ← reg Rm;
  if is_halves op2 then
    let '(lo_result, hi_result) :=
      halves op2 (s16 (lo16 n)) (s16 (hi16 n)) (s16 (lo16 m)) (s16 (hi16 m)) in
    set_reg Rd (pack16 lo_result hi_result);;
    set_ge (0 <=? lo_result) GE_lo;;
    set_ge (0 <=? hi_result) GE_hi
  else when_ ((op2 =? 0x04) || (op2 =? 0x07))
    (let r := byte_sum op2 (swrap 8) n m in
     set_reg Rd (pack8 (r 0) (r 1) (r 2) (r 3));;
     set_ge (0 <=? r 0) (1 ≪ 16);; set_ge (0 <=? r 1) (1 ≪ 17);;
     set_ge (0 <=? r 2) (1 ≪ 18);; set_ge (0 <=? r 3) (1 ≪ 19))).

(** [SHADD8_INST], [SHADD16_INST], [SHADDSUBX_INST], [SHSUB8_INST], [SHSUB16_INST] and
    [SHSUBADDX_INST]. *)
(* src: arm_dyncom_interpreter.cpp | SHADD8_INST: | SHADD8_INST | ..GOTO_NEXT_INST; *)
Definition SHADD8_INST : CPU flow := generic (λ _ Rm Rn Rd _ op2,
  m ← reg Rm; n ← reg Rn;
  if is_halves op2 then
    let '(lo_result, hi_result) :=
      halves op2 (s16 (lo16 n)) (s16 (hi16 n)) (s16 (lo16 m)) (s16 (hi16 m)) in
    set_reg Rd (pack16 (lo_result ≫ 1) (hi_result ≫ 1))
  else when_ ((op2 =? 0x04) || (op2 =? 0x07))
    (let r k := byte_sum op2 (swrap 8) n m k ≫ 1 in
     set_reg Rd (pack8 (r 0) (r 1) (r 2) (r 3)))).

(** [UADD8_INST], [UADD16_INST], [UADDSUBX_INST], [USUB8_INST], [USUB16_INST] and
    [USUBADDX_INST]. *)
(* src: arm_dyncom_interpreter.cpp | UADD8_INST: | UADD8_INST | ..GOTO_NEXT_INST; *)
Definition UADD8_INST : CPU flow := generic (λ _ Rm Rn Rd _ op2,
  m ← reg Rm; n ← reg Rn;
  let '(lo_result, hi_result) := halves op2 (lo16 n) (hi16 n) (lo16 m) (hi16 m) in
  let r := byte_sum op2 (λ x, x) n m in
  let bytes c :=
    set_ge (c (r 0)) (1 ≪ 16);; set_ge (c (r 1)) (1 ≪ 17);;
    set_ge (c (r 2)) (1 ≪ 18);; set_ge (c (r 3)) (1 ≪ 19);;
    mret ((r 0 .& 0xFF) .| ((r 1 .& 0xFF) ≪ 8), (r 2 .& 0xFF) .| ((r 3 .& 0xFF) ≪ 8)) in
  '(lo_result, hi_result) ←
    (if op2 =? 0x00 then
       set_ge (nz (lo_result .& 0xFFFF0000)) GE_lo;; set_ge (nz (hi_result .& 0xFFFF0000)) GE_hi;;
       mret (lo_result, hi_result)
     else if op2 =? 0x01 then
       set_ge (0 <=? lo_result) GE_lo;; set_ge (0x10000 <=? hi_result) GE_hi;;
       mret (lo_result, hi_result)
     else if op2 =? 0x02 then
       set_ge (0x10000 <=? lo_result) GE_lo;; set_ge (0 <=? hi_result) GE_hi;;
       mret (lo_result, hi_result)
     else if op2 =? 0x03 then
       set_ge (lo_result .& 0xFFFF0000 =? 0) GE_lo;; set_ge (hi_result .& 0xFFFF0000 =? 0) GE_hi;;
       mret (lo_result, hi_result)
     else if op2 =? 0x04 then bytes (λ x, 0x100 <=? x)
     else if op2 =? 0x07 then bytes (λ x, 0 <=? x)
     else mret (0, 0));
  set_reg Rd (pack16 lo_result hi_result)).

(** [UHADD8_INST], [UHADD16_INST], [UHADDSUBX_INST], [UHSUBADDX_INST], [UHSUB8_INST]
    and [UHSUB16_INST]. *)
(* src: arm_dyncom_interpreter.cpp | UHADD8_INST: | UHADD8_INST | ..GOTO_NEXT_INST; *)
Definition UHADD8_INST : CPU flow := generic (λ _ Rm Rn Rd _ op2,
  m ← reg Rm; n ← reg Rn;
  if is_halves op2 then
    let '(lo_val, hi_val) := halves op2 (lo16 n) (hi16 n) (lo16 m) (hi16 m) in
    set_reg Rd (pack16 (u32 lo_val ≫ 1) (u32 hi_val ≫ 1))
  else when_ ((op2 =? 0x04) || (op2 =? 0x07))
    (let r k := u32 (byte_sum op2 (λ x, x) n m k) ≫ 1 in
     set_reg Rd (pack8 (r 0) (r 1) (r 2) (r 3)))).

(* src: arm_dyncom_interpreter.cpp | SEL_INST : { *)
Definition SEL_INST : CPU flow := generic (λ _ Rm Rn Rd _ _,
  to ← reg Rm; from ← reg Rn; cpsr ← gets Cpsr;
  let pick k mask := (if nz (cpsr .& (1 ≪ k)) then from else to) .& mask in
  set_reg Rd (pick 16 0xff .| pick 17 0x0000ff00 .| pick 18 0x00ff0000 .| pick 19 0xff000000)).

(** [USAD8_INST] and [USADA8_INST]. *)
(* src: arm_dyncom_interpreter.cpp | USAD8_INST: | USAD8_INST | ..GOTO_NEXT_INST; *)
Definition USAD8_INST : CPU flow := generic (λ Ra Rm Rn Rd _ _,
  rm_val ← reg Rm; rn_val ← reg Rn;
  let diff k := ARMul_UnsignedAbsoluteDifference (byte_ k rn_val) (byte_ k rm_val) in
  let finalDif := diff 0 + diff 1 + diff 2 + diff 3 in
  r ← (if negb (Ra =? 15) then ra ← reg Ra; mret (u32 (finalDif + ra)) else mret finalDif);
  set_reg Rd r).

(** * Packing, reversal, extension *)

(* src: arm_dyncom_interpreter.cpp | CLZ_INST : { *)
Definition CLZ_INST : CPU flow :=
  match inst_component with
  | clz_inst Rm Rd => label_ cond 8 (rm ← reg Rm; set_reg Rd (clz rm))
  | _ => fail
  end.

(* src: arm_dyncom_interpreter.cpp | PKHBT_INST : { *)
Definition PKHBT_INST : CPU flow :=
  match inst_component with
  | pkh_inst Rm Rn Rd imm =>
      label_ cond 16
        (rm ← reg Rm; rn ← reg Rn;
         set_reg Rd ((rn .& 0xFFFF) .| (lsl32 rm imm .& 0xFFFF0000)))
  | _ => fail
  end.

(* src: arm_dyncom_interpreter.cpp | PKHTB_INST : { *)
Definition PKHTB_INST : CPU flow :=
  match inst_component with
  | pkh_inst Rm Rn Rd imm =>
      label_ cond 16
        (rm ← reg Rm; rn ← reg Rn;
         let shift_imm := if nz imm then imm else 31 in
         set_reg Rd (((s32 rm ≫ shift_imm) .& 0xFFFF) .| (rn .& 0xFFFF0000)))
  | _ => fail
  end.

(** [REV_INST], [REV16_INST] and [REVSH_INST]. *)
(* src: arm_dyncom_interpreter.cpp | REV_INST: | REV_INST | ..GOTO_NEXT_INST; *)
Definition REV_INST : CPU flow :=
  match inst_component with
  | rev_inst Rd Rm op1 op2 =>
      label_ cond 16
        (rm ← reg Rm;
         if (op1 =? 0x03) && (op2 =? 0x01) then
           set_reg Rd (u32 ((rm .& 0xFF) ≪ 24) .| (((rm ≫ 8) .& 0xFF) ≪ 16)
                       .| (((rm ≫ 16) .& 0xFF) ≪ 8) .| ((rm ≫ 24) .& 0xFF))
         else if (op1 =? 0x03) && (op2 =? 0x05) then
           set_reg Rd (((rm .& 0xFF) ≪ 8) .| ((rm .& 0xFF00) ≫ 8) .| u32 ((rm .& 0xFF0000) ≪ 8)
                       .| ((rm .& 0xFF000000) ≫ 8))
         else when_ ((op1 =? 0x07) && (op2 =? 0x05))
           (let rd := ((rm .& 0xFF) ≪ 8) .| ((rm .& 0xFF00) ≫ 8) in
            set_reg Rd (if nz (rd .& 0x8000) then rd .| 0xffff0000 else rd)))
  | _ => fail
  end.

(** [ROTATE_RIGHT_32(RM, 8 * inst_cream->rotate)] *)
Definition rotated (rm rotate : Z) : Z := ROTATE_RIGHT_32 rm (8 * rotate).

(* src: arm_dyncom_interpreter.cpp | SXTH_INST : { *)
Definition SXTH_INST : CPU flow :=
  match inst_component with
  | ext_inst Rd Rm rotate =>
      label_ cond 12
        (rm ← reg Rm;
         let operand2 := rotated rm rotate in
         set_reg Rd (if nz (BIT operand2 15) then operand2 .| 0xffff0000 else operand2 .& 0xffff))
  | _ => fail
  end.

(* src: arm_dyncom_interpreter.cpp | SXTB_INST : { *)
Definition SXTB_INST : CPU flow :=
  match inst_component with
  | ext_inst Rd Rm rotate =>
      label_ cond 12
        (rm ← reg Rm;
         let operand2 := rotated rm rotate in
         set_reg Rd (if nz (BIT operand2 7) then operand2 .| 0xffffff00 else operand2 .& 0xff))
  | _ => fail
  end.

(* src: arm_dyncom_interpreter.cpp | UXTH_INST : { *)
Definition UXTH_INST : CPU flow :=
  match inst_component with
  | ext_inst Rd Rm rotate => label_ cond 12 (rm ← reg Rm; set_reg Rd (rotated rm rotate .& 0xffff))
  | _ => fail
  end.

(* src: arm_dyncom_interpreter.cpp | UXTB_INST : { *)
Definition UXTB_INST : CPU flow :=
  match inst_component with
  | ext_inst Rd Rm rotate => label_ cond 12 (rm ← reg Rm; set_reg Rd (rotated rm rotate .& 0xff))
  | _ => fail
  end.

(* src: arm_dyncom_interpreter.cpp | UXTAH_INST : { *)
Definition UXTAH_INST : CPU flow :=
  match inst_component with
  | uxtah_inst Rn Rd rotate Rm =>
      label_ cond 16
        (rm ← reg Rm; rn ← reg Rn; set_reg Rd (u32 (rn + (rotated rm rotate .& 0xffff))))
  | _ => fail
  end.

(* src: arm_dyncom_interpreter.cpp | UXTAB_INST : { *)
Definition UXTAB_INST : CPU flow :=
  match inst_component with
  | uxtab_inst Rn Rd rotate Rm =>
      label_ cond 16
        (rm ← reg Rm; rn ← reg Rn; set_reg Rd (u32 (rn + (rotated rm rotate .& 0xff))))
  | _ => fail
  end.

(** The label leaves by [INC_PC(sizeof(uxtab_inst))]. *)
(* src: arm_dyncom_interpreter.cpp | SXTAB_INST : { *)
Definition SXTAB_INST : CPU flow :=
  match inst_component with
  | sxtab_inst Rd Rn Rm rotate =>
      label_ cond 16
        (rm ← reg Rm; rn ← reg Rn;
         let operand2 := rotated rm rotate .& 0xff in
         let operand2 := if nz (0x80 .& operand2) then 0xFFFFFF00 .| operand2 else operand2 in
         set_reg Rd (u32 (rn + operand2)))
  | _ => fail
  end.

(* src: arm_dyncom_interpreter.cpp | SXTAH_INST : { *)
Definition SXTAH_INST : CPU flow :=
  match inst_component with
  | sxtah_inst Rd Rn Rm rotate =>
      label_ cond 16
        (rm ← reg Rm; rn ← reg Rn;
         let operand2 := rotated rm rotate .& 0xffff in
         let operand2 := if nz (0x8000 .& operand2) then 0xFFFF0000 .| operand2 else operand2 in
         set_reg Rd (u32 (rn + operand2)))
  | _ => fail
  end.

(** [SXTAB16_INST] and [SXTB16_INST]. *)
(* src: arm_dyncom_interpreter.cpp | SXTAB16_INST: | SXTAB16_INST | ..GOTO_NEXT_INST; *)
Definition SXTAB16_INST : CPU flow :=
  match inst_component with
  | sxtab_inst Rd Rn Rm rotate =>
      label_ cond 16
        (rm_val ← reg Rm; rn_val ← reg Rn;
         let rotation := rotate * 8 in
         let rm_val := if nz rotation then lsl32 rm_val (32 - rotation) .| lsr32 rm_val rotation else rm_val in
         let '(lo, hi) :=
           if Rn =? 15 then (u32 (s8 rm_val), u32 (s8 (rm_val ≫ 16)))
           else (u32 (rn_val + u32 (s8 (rm_val .& 0xFF))),
                 u32 ((rn_val ≫ 16) + u32 (s8 ((rm_val ≫ 16) .& 0xFF)))) in
         set_reg Rd ((lo .& 0xFFFF) .| u32 (hi ≪ 16)))
  | _ => fail
  end.

(** [UXTAB16_INST] and [UXTB16_INST]. *)
(* src: arm_dyncom_interpreter.cpp | UXTAB16_INST: | UXTAB16_INST | ..GOTO_NEXT_INST; *)
Definition UXTAB16_INST : CPU flow :=
  match inst_component with
  | uxtab_inst Rn Rd rotate Rm =>
      label_ cond 16
        (rm_val ← reg Rm;
         let rotation := rotate * 8 in
         let rotated_rm := lsl32 rm_val (32 - rotation) .| lsr32 rm_val rotation in
         if Rn =? 15 then set_reg Rd (rotated_rm .& 0x00FF00FF)
         else
           rn_val ← reg Rn;
           let lo_result := u16 ((rn_val .& 0xFFFF) + (rotated_rm .& 0xFF)) in
           let hi_result := u16 ((rn_val ≫ 16) + ((rotated_rm ≫ 16) .& 0xFF)) in
           set_reg Rd (u32 (hi_result ≪ 16) .| (lo_result .& 0xFFFF)))
  | _ => fail
  end.
End labels.
