(* ===== verification/ArmMem.v ===== *)
(** The labels of [InterpreterMainLoop] that access memory: loads and stores,
    exclusive accesses, swaps, [SRS] and [RFE], over the memory accesses of
    [armstate.cpp].

    The memory system is reached through the class [Bus]; a state of the machine
    pairs the processor with the world the bus acts on.  Memory breakpoints of
    the debugger's server are not modelled. *)

From S2P Require Import Prelude ArmSupp ArmState ArmOps ArmTrans ArmInst.

(** * The machine *)

(** What the processor asks of [Memory::MemorySystem]: reads and writes of so many
    bytes at an address. *)
Class Bus (W : Type) := {
  bus_read : nat -> Z -> ST W Z;
  bus_write : nat -> Z -> Z -> ST W unit
}.

(** The processor, its [instruction_cache], the translation buffer with its top,
    which all processors share, and the world.  The buffer maps the offset of an
    [arm_inst] to the instruction written there last. *)
Record Machine (W : Type) := mk_Machine {
  cpu : ARMul_State;
  instruction_cache : gmap Z Z;
  trans_cache_buf : gmap Z arm_inst;
  trans_cache_buf_top : Z;
  world : W
}.
Arguments mk_Machine {W}.
Arguments cpu {W}.
Arguments instruction_cache {W}.
Arguments trans_cache_buf {W}.
Arguments trans_cache_buf_top {W}.
Arguments world {W}.

Section mem.
Context {W : Type}.
Abbreviation M := (ST (Machine W)).

Definition on_cpu {A} (m : CPU A) : M A := zoom cpu (λ s (k : Machine W), k<|cpu := s|>) m.
Definition on_world {A} (m : ST W A) : M A := zoom world (λ w (k : Machine W), k<|world := w|>) m.

Context {bus : Bus W}.

(** * Memory accesses *)

(* src: common/swap.h | [[nodiscard]] inline u16 swap16(u16 data) noexcept { #3 | swap16 *)
Definition swap16 (data : Z) : Z := u16 ((data ≫ 8) .| (data ≪ 8)).
(* src: common/swap.h | [[nodiscard]] inline u32 swap32(u32 data) noexcept { #3 | swap32 *)
Definition swap32 (data : Z) : Z :=
  ((data .& 0xFF000000) ≫ 24) .| ((data .& 0x00FF0000) ≫ 8)
  .| ((data .& 0x0000FF00) ≪ 8) .| ((data .& 0x000000FF) ≪ 24).
(* src: common/swap.h | [[nodiscard]] inline u64 swap64(u64 data) noexcept { #3 | swap64 *)
Definition swap64 (data : Z) : Z :=
  ((data .& 0xFF00000000000000) ≫ 56) .| ((data .& 0x00FF000000000000) ≫ 40)
  .| ((data .& 0x0000FF0000000000) ≫ 24) .| ((data .& 0x000000FF00000000) ≫ 8)
  .| ((data .& 0x00000000FF000000) ≪ 8) .| ((data .& 0x0000000000FF0000) ≪ 24)
  .| ((data .& 0x000000000000FF00) ≪ 40) .| ((data .& 0x00000000000000FF) ≪ 56).
Definition swap (n : nat) : Z -> Z :=
  match n with 2 => swap16 | 4 => swap32 | 8 => swap64 | _ => id end%nat.

(** [ReadMemory16], [ReadMemory32] and [ReadMemory64] differ in the width only. *)
(* src: armstate.cpp | u32 ARMul_State::ReadMemory32(u32 address) | ARMul_State::ReadMemory32 *)
Definition ReadMemory (n : nat) (address : Z) : M Z :=
  data ← on_world (bus_read n address);
  big ← on_cpu (gets InBigEndianMode);
  mret (if big : bool then swap n data else data).

(* src: armstate.cpp | void ARMul_State::WriteMemory32(u32 address, u32 data) | ARMul_State::WriteMemory32 *)
Definition WriteMemory (n : nat) (address data : Z) : M unit :=
  big ← on_cpu (gets InBigEndianMode);
  on_world (bus_write n address (if big : bool then swap n data else data)).

(* src: armstate.cpp | u8 ARMul_State::ReadMemory8(u32 address) | ARMul_State::ReadMemory8 *)
Definition ReadMemory8 (address : Z) : M Z := on_world (bus_read 1 address).
(* src: armstate.cpp | u16 ARMul_State::ReadMemory16(u32 address) | ARMul_State::ReadMemory16 *)
Definition ReadMemory16 (address : Z) : M Z := ReadMemory 2 address.
(* src: armstate.cpp | u32 ARMul_State::ReadMemory32(u32 address) | ARMul_State::ReadMemory32 *)
Definition ReadMemory32 (address : Z) : M Z := ReadMemory 4 address.
(* src: armstate.cpp | u64 ARMul_State::ReadMemory64(u32 address) | ARMul_State::ReadMemory64 *)
Definition ReadMemory64 (address : Z) : M Z := ReadMemory 8 address.
(* src: armstate.cpp | void ARMul_State::WriteMemory8(u32 address, u8 data) | ARMul_State::WriteMemory8 *)
Definition WriteMemory8 (address data : Z) : M unit := on_world (bus_write 1 address (u8 data)).
(* src: armstate.cpp | void ARMul_State::WriteMemory16(u32 address, u16 data) | ARMul_State::WriteMemory16 *)
Definition WriteMemory16 (address data : Z) : M unit := WriteMemory 2 address (u16 data).
(* src: armstate.cpp | void ARMul_State::WriteMemory32(u32 address, u32 data) | ARMul_State::WriteMemory32 *)
Definition WriteMemory32 (address data : Z) : M unit := WriteMemory 4 address data.
(* src: armstate.cpp | void ARMul_State::WriteMemory64(u32 address, u64 data) | ARMul_State::WriteMemory64 *)
Definition WriteMemory64 (address data : Z) : M unit := WriteMemory 8 address data.

(** * Labels of the machine *)

(** The ends of the labels, as in [ArmOps], over the machine. *)
Definition m_label (cond l : Z) (body : M bool) : M flow :=
  p ← on_cpu (passed cond);
  jump ← (if p : bool then body else mret false);
  if jump : bool then mret Dispatch else on_cpu (advance l).
Definition m_label_ (cond l : Z) (body : M unit) : M flow := m_label cond l (body;; mret false).

Definition get (i : Z) : M Z := on_cpu (reg i).
Definition put (i v : Z) : M unit := on_cpu (set_reg i v).

(** A loop [for (int i = 0; i < n; i++) if (BIT(inst, i)) { ...; addr += 4; }]
    over the registers [rs]; the address after it. *)
Fixpoint each_register (inst : Z) (body : Z -> Z -> M unit) (rs : list Z) (addr : Z) : M Z :=
  match rs with
  | [] => mret addr
  | i :: rs =>
      if nz (BIT inst i) then body i addr;; each_register inst body rs (u32 (addr + 4))
      else each_register inst body rs addr
  end.

Section labels.
Context (cond : Z) (inst_component : component).

(** A load or store whose body takes the instruction and its address. *)
#[local] Abbreviation ldst f :=
  (match inst_component with
   | ldst_inst inst get_addr => m_label_ cond 16 (addr ← on_cpu (get_addr_call get_addr inst); f (BITS inst 12 15) addr)
   | _ => fail
   end).

(** ** Loads *)

(** A register that the user mode has banked. *)
(* src: arm_dyncom_interpreter.cpp | if (cpu->Mode == USER32MODE) #1 | LDM_INST | +4 *)
Definition put_usr (i : Z) (v : Z) : M unit :=
  user ← on_cpu (gets (λ s, Mode s =? USER32MODE));
  if user : bool then put i v
  else on_cpu (modify (λ s, s<|Reg_usr := <[Z.to_nat (i - 13) := v]> (Reg_usr s)|>)).

(* src: arm_dyncom_interpreter.cpp | LDM_INST : { *)
Definition LDM_INST : M flow :=
  match inst_component with
  | ldst_inst inst get_addr =>
      m_label cond 16
        (addr ← on_cpu (get_addr_call get_addr inst);
         let load i addr := v ← ReadMemory32 addr; put i v in
         (if nz (BIT inst 22) && negb (nz (BIT inst 15)) then
            addr ← each_register inst load (seqZ 0 13) addr;
            each_register inst (λ i addr, v ← ReadMemory32 addr; put_usr i v) [13; 14] addr;; mret tt
          else if negb (nz (BIT inst 22)) then
            each_register inst
              (λ i addr,
                 ret ← ReadMemory32 addr;
                 if i =? 15 then
                   on_cpu (modify (λ s, s<|TFlag := ret .& 0x1|>));; put i (ret .& 0xFFFFFFFE)
                 else put i ret) (seqZ 0 16) addr;; mret tt
          else
            addr ← each_register inst load (seqZ 0 15) addr;
            on_cpu spsr_return;;
            v ← ReadMemory32 addr; put 15 v);;
         mret (nz (BIT inst 15)))
  | _ => fail
  end.

(** The body that [LDR_INST] and [LDRCOND_INST] share: [true] to dispatch. *)
(* src: arm_dyncom_interpreter.cpp | unsigned int value = cpu->ReadMemory32(addr); #1 | LDR_INST | +10 *)
Definition load_word (Rd addr : Z) : M bool :=
  value ← ReadMemory32 addr;
  put Rd value;;
  if Rd =? 15 then
    on_cpu (modify (λ s, s<|TFlag := value .& 0x1|>));; on_cpu (set_pc (λ s, pc s .& 0xFFFFFFFE));; mret true
  else mret false.

(* src: arm_dyncom_interpreter.cpp | LDR_INST : { *)
Definition LDR_INST : M flow :=
  match inst_component with
  | ldst_inst inst get_addr =>
      addr ← on_cpu (get_addr_call get_addr inst);
      jump ← load_word (BITS inst 12 15) addr;
      if jump : bool then mret Dispatch else on_cpu (advance 16)
  | _ => fail
  end.

(* src: arm_dyncom_interpreter.cpp | LDRCOND_INST : { *)
Definition LDRCOND_INST : M flow :=
  match inst_component with
  | ldst_inst inst get_addr =>
      p ← on_cpu (gets (λ s, CondPassed s cond));
      jump ← (if p : bool then
                addr ← on_cpu (get_addr_call get_addr inst); load_word (BITS inst 12 15) addr
              else mret false);
      if jump : bool then mret Dispatch else on_cpu (advance 16)
  | _ => fail
  end.

(* src: arm_dyncom_interpreter.cpp | LDRB_INST : { *)
Definition LDRB_INST : M flow := ldst (λ Rd addr, v ← ReadMemory8 addr; put Rd v).
(* src: arm_dyncom_interpreter.cpp | LDRH_INST : { *)
Definition LDRH_INST : M flow := ldst (λ Rd addr, v ← ReadMemory16 addr; put Rd v).
(* src: arm_dyncom_interpreter.cpp | LDRSB_INST : { *)
Definition LDRSB_INST : M flow := ldst (λ Rd addr,
  value ← ReadMemory8 addr; put Rd (if nz (BIT value 7) then value .| 0xffffff00 else value)).
(* src: arm_dyncom_interpreter.cpp | LDRSH_INST : { *)
Definition LDRSH_INST : M flow := ldst (λ Rd addr,
  value ← ReadMemory16 addr; put Rd (if nz (BIT value 15) then value .| 0xffff0000 else value)).

(** An access made in the user mode. *)
(* src: arm_dyncom_interpreter.cpp | cpu->ChangePrivilegeMode(USER32MODE); #1 | LDRBT_INST | +3 *)
Definition as_user {A} (m : M A) : M A :=
  previous_mode ← on_cpu (gets Mode);
  on_cpu (modify (ChangePrivilegeMode USER32MODE));;
  v ← m;
  on_cpu (modify (ChangePrivilegeMode previous_mode));;
  mret v.

(* src: arm_dyncom_interpreter.cpp | LDRBT_INST : { *)
Definition LDRBT_INST : M flow := ldst (λ Rd addr, value ← as_user (ReadMemory8 addr); put Rd value).
(* src: arm_dyncom_interpreter.cpp | LDRT_INST : { *)
Definition LDRT_INST : M flow := ldst (λ Rd addr, value ← as_user (ReadMemory32 addr); put Rd value).

(** [LDRD_INST] steps the program counter by 4 whatever the instruction set. *)
(* src: arm_dyncom_interpreter.cpp | LDRD_INST : { *)
Definition LDRD_INST : M flow :=
  match inst_component with
  | ldst_inst inst get_addr =>
      p ← on_cpu (passed cond);
      (if p : bool then
         addr ← on_cpu (get_addr_call get_addr inst);
         v ← ReadMemory32 addr; put (BITS inst 12 15 + 0) v;;
         v ← ReadMemory32 (u32 (addr + 4)); put (BITS inst 12 15 + 1) v
       else mret tt);;
      on_cpu (set_pc (λ s, u32 (pc s + 4)));; mret (Next 16)
  | _ => fail
  end.

(** ** Stores *)

(* src: arm_dyncom_interpreter.cpp | if (cpu->Mode == USER32MODE) #3 | STM_INST | +4 *)
Definition get_usr (i : Z) : M Z :=
  user ← on_cpu (gets (λ s, Mode s =? USER32MODE));
  if user : bool then get i else on_cpu (gets (λ s, rd (Reg_usr s) (Z.to_nat (i - 13)))).

(* src: arm_dyncom_interpreter.cpp | STM_INST : { *)
Definition STM_INST : M flow :=
  match inst_component with
  | ldst_inst inst get_addr =>
      m_label_ cond 16
        (let Rn := BITS inst 16 19 in
         old_RN ← get Rn;
         addr ← on_cpu (get_addr_call get_addr inst);
         addr ← (if BIT inst 22 =? 1 then
                   addr ← each_register inst (λ i addr, v ← get i; WriteMemory32 addr v) (seqZ 0 13) addr;
                   each_register inst (λ i addr, v ← get_usr i; WriteMemory32 addr v) [13; 14] addr
                 else
                   each_register inst
                     (λ i addr, if i =? Rn then WriteMemory32 addr old_RN else v ← get i; WriteMemory32 addr v)
                     (seqZ 0 15) addr);
         if nz (BIT inst 15) then r ← get 15; WriteMemory32 addr (u32 (r + 8)) else mret tt)
  | _ => fail
  end.

(** The value of a register to store; the program counter is two instructions ahead. *)
(* src: arm_dyncom_interpreter.cpp | STR_INST : { *)
Definition STR_INST : M flow := ldst (λ Rd addr, value ← on_cpu (reg_plus_pc Rd); WriteMemory32 addr value).
(* src: arm_dyncom_interpreter.cpp | STRB_INST : { *)
Definition STRB_INST : M flow := ldst (λ Rd addr, r ← get Rd; WriteMemory8 addr (r .& 0xff)).
(* src: arm_dyncom_interpreter.cpp | STRH_INST : { *)
Definition STRH_INST : M flow := ldst (λ Rd addr, r ← get Rd; WriteMemory16 addr (r .& 0xffff)).
(* src: arm_dyncom_interpreter.cpp | STRBT_INST : { *)
Definition STRBT_INST : M flow := ldst (λ Rd addr, r ← get Rd; as_user (WriteMemory8 addr (r .& 0xff))).
(* src: arm_dyncom_interpreter.cpp | STRT_INST : { *)
Definition STRT_INST : M flow := ldst (λ Rd addr,
  value ← on_cpu (reg_plus_pc Rd); as_user (WriteMemory32 addr value)).
(* src: arm_dyncom_interpreter.cpp | STRD_INST : { *)
Definition STRD_INST : M flow := ldst (λ Rd addr,
  r ← get Rd; WriteMemory32 (u32 (addr + 0)) r;;
  r ← get (Rd + 1); WriteMemory32 (u32 (addr + 4)) r).

(** ** Exception state *)

(** [RFE_INST] and [SRS_INST] are unconditional. *)
(* src: arm_dyncom_interpreter.cpp | RFE_INST : { *)
Definition RFE_INST : M flow :=
  match inst_component with
  | ldst_inst inst get_addr =>
      address ← on_cpu (get_addr_call get_addr inst);
      v ← ReadMemory32 address; on_cpu (modify (λ s, s<|Cpsr := v|>));;
      v ← ReadMemory32 (u32 (address + 4)); put 15 v;;
      mret Dispatch
  | _ => fail
  end.
(* src: arm_dyncom_interpreter.cpp | SRS_INST : { *)
Definition SRS_INST : M flow :=
  match inst_component with
  | ldst_inst inst get_addr =>
      address ← on_cpu (get_addr_call get_addr inst);
      r ← get 14; WriteMemory32 (u32 (address + 0)) r;;
      v ← on_cpu (gets Spsr_copy); WriteMemory32 (u32 (address + 4)) v;;
      on_cpu (advance 16)
  | _ => fail
  end.

(** ** Exclusive accesses and swaps *)

#[local] Abbreviation ldrex f :=
  (match inst_component with
   | generic_arm_inst _ _ Rn Rd _ _ =>
       m_label_ cond 20
         (read_addr ← get Rn; on_cpu (modify (SetExclusiveMemoryAddress read_addr));; f Rd read_addr)
   | _ => fail
   end).
(* src: arm_dyncom_interpreter.cpp | LDREX_INST : { *)
Definition LDREX_INST : M flow := ldrex (λ Rd read_addr, v ← ReadMemory32 read_addr; put Rd v).
(* src: arm_dyncom_interpreter.cpp | LDREXB_INST : { *)
Definition LDREXB_INST : M flow := ldrex (λ Rd read_addr, v ← ReadMemory8 read_addr; put Rd v).
(* src: arm_dyncom_interpreter.cpp | LDREXH_INST : { *)
Definition LDREXH_INST : M flow := ldrex (λ Rd read_addr, v ← ReadMemory16 read_addr; put Rd v).
(* src: arm_dyncom_interpreter.cpp | LDREXD_INST : { *)
Definition LDREXD_INST : M flow := ldrex (λ Rd read_addr,
  v ← ReadMemory32 read_addr; put Rd v;;
  v ← ReadMemory32 (u32 (read_addr + 4)); put (Rd + 1) v).

(** The store happens when the monitor has the address, and frees it. *)
#[local] Abbreviation strex f :=
  (match inst_component with
   | generic_arm_inst _ Rm Rn Rd _ _ =>
       m_label_ cond 20
         (write_addr ← get Rn;
          mine ← on_cpu (gets (λ s, IsExclusiveMemoryAccess s write_addr));
          if mine : bool then
            on_cpu (modify UnsetExclusiveMemoryAddress);; f Rm write_addr;; put Rd 0
          else put Rd 1)
   | _ => fail
   end).
(* src: arm_dyncom_interpreter.cpp | STREX_INST : { *)
Definition STREX_INST : M flow := strex (λ Rm write_addr, r ← get Rm; WriteMemory32 write_addr r).
(* src: arm_dyncom_interpreter.cpp | STREXB_INST : { *)
Definition STREXB_INST : M flow := strex (λ Rm write_addr, r ← get Rm; WriteMemory8 write_addr r).
(* src: arm_dyncom_interpreter.cpp | STREXH_INST : { *)
Definition STREXH_INST : M flow := strex (λ Rm write_addr, r ← get Rm; WriteMemory16 write_addr r).
(* src: arm_dyncom_interpreter.cpp | STREXD_INST : { *)
Definition STREXD_INST : M flow := strex (λ Rm write_addr,
  rt ← get (Rm + 0); rt2 ← get (Rm + 1);
  big ← on_cpu (gets InBigEndianMode);
  WriteMemory64 write_addr (if big : bool then (rt ≪ 32) .| rt2 else (rt2 ≪ 32) .| rt)).

(* src: arm_dyncom_interpreter.cpp | SWP_INST : { *)
Definition SWP_INST : M flow :=
  match inst_component with
  | swp_inst Rn Rd Rm =>
      m_label_ cond 12
        (addr ← get Rn; value ← ReadMemory32 addr; r ← get Rm; WriteMemory32 addr r;; put Rd value)
  | _ => fail
  end.
(* src: arm_dyncom_interpreter.cpp | SWPB_INST : { *)
Definition SWPB_INST : M flow :=
  match inst_component with
  | swp_inst Rn Rd Rm =>
      m_label_ cond 12
        (addr ← get Rn; value ← ReadMemory8 addr; r ← get Rm; WriteMemory8 addr (r .& 0xFF);; put Rd value)
  | _ => fail
  end.
End labels.
End mem.
