(* ===== verification/Vfp.v ===== *)
(** The VFP register file and FPSCR updates ([vfp.cpp], [vfp.h]), and the
    processor reset that uses them. *)

From S2P Require Import Prelude VfpHelper ArmState.

(* src: arm_regformat.h | enum VFPSystemRegister { *)
Inductive VFPSystemRegister :=
  VFP_FPSID | VFP_FPSCR | VFP_FPEXC | VFP_FPINST | VFP_FPINST2 | VFP_MVFR0
| VFP_MVFR1.

(* src: arm_regformat.h | enum VFPSystemRegister { | VFPSystemRegister *)
Definition vfp_reg (r : VFPSystemRegister) : nat :=
  match r with
  | VFP_FPSID => 0 | VFP_FPSCR => 1 | VFP_FPEXC => 2 | VFP_FPINST => 3
  | VFP_FPINST2 => 4 | VFP_MVFR0 => 5 | VFP_MVFR1 => 6
  end%nat.

(* src: asm_vfp.h | VFP_FPSID_IMPLMEN = 0x41 | VFP_FPSID | ..VFP_FPSID_REVISION *)
Definition VFP_FPSID_RESET : Z :=
  (0x41 ≪ 24) .| (0 ≪ 23) .| (0x1 ≪ 16) .| (0x20 ≪ 8) .| (0xB ≪ 4) .| 0x4.

(** * Register file ([vfp.cpp]) *)

Section regs.
Context (state : ARMul_State).

(** [ExtReg[i]] and [ExtReg[i] = v]. *)
Definition ext (i : Z) : Z := rd (ExtReg state) (Z.to_nat i).
Definition set_ext (i v : Z) : ARMul_State :=
  state<|ExtReg := <[Z.to_nat i := v]> (ExtReg state)|>.

(** [VFP[r] = v]. *)
Definition set_vfp (r : VFPSystemRegister) (v : Z) : ARMul_State :=
  state<|VFP := <[vfp_reg r := v]> (VFP state)|>.

(* src: vfp.cpp *)
Definition VFPInit : ARMul_State :=
  state<|VFP :=
    <[vfp_reg VFP_MVFR1 := 0]> (<[vfp_reg VFP_MVFR0 := 0x11111111]>
    (<[vfp_reg VFP_FPINST2 := 0]> (<[vfp_reg VFP_FPINST := 0xEE000A00]>
    (<[vfp_reg VFP_FPSCR := 0]> (<[vfp_reg VFP_FPEXC := 0]>
    (<[vfp_reg VFP_FPSID := VFP_FPSID_RESET]> (VFP state)))))))|>.

(* src: vfp.cpp *)
Definition vfp_get_float (reg : Z) : Z := s32 (ext reg).

(* src: vfp.cpp *)
Definition vfp_put_float (val reg : Z) : ARMul_State := set_ext reg (u32 val).

(* src: vfp.cpp *)
Definition vfp_get_double (reg : Z) : Z :=
  (ext (reg * 2 + 1) ≪ 32) .| ext (reg * 2).

(* src: vfp.cpp *)
Definition vfp_raise_exceptions (exceptions fpscr : Z) : option ARMul_State :=
  if exceptions =? VFP_EXCEPTION_ERROR then None
  else
    let flags := FPSCR_NFLAG .| FPSCR_ZFLAG .| FPSCR_CFLAG .| FPSCR_VFLAG in
    let fpscr := if nz (exceptions .& flags) then fpscr .& unot 32 flags else fpscr in
    Some (set_vfp VFP_FPSCR (fpscr .| exceptions)).

(** The transfers between VFP and core registers; the register values read
    with [to_arm] set are returned, otherwise the given ones are stored. *)

(* src: vfp.cpp *)
Definition VMOVBRS (to_arm n value : Z) : ARMul_State * Z :=
  if nz to_arm then (state, ext n) else (set_ext n value, value).

(* src: vfp.cpp *)
Definition VMOVI (single d imm : Z) : ARMul_State :=
  if nz single then set_ext d imm
  else state<|ExtReg := <[Z.to_nat (d * 2) := 0]>
               (<[Z.to_nat (d * 2 + 1) := imm]> (ExtReg state))|>.

(* src: vfp.cpp *)
Definition VMOVR (single d m : Z) : ARMul_State :=
  if nz single then set_ext d (ext m)
  else
    let regs := <[Z.to_nat (d * 2 + 1) := ext (m * 2 + 1)]> (ExtReg state) in
    state<|ExtReg := <[Z.to_nat (d * 2) := rd regs (Z.to_nat (m * 2))]> regs|>.
End regs.

(* src: vfp.cpp *)
Definition vfp_put_double (state : ARMul_State) (val reg : Z) : ARMul_State :=
  set_ext (set_ext state (reg * 2) (u32 (val .& 0xffffffff)))
    (reg * 2 + 1) (u32 (val ≫ 32)).

(* src: vfp.cpp *)
Definition VMOVBRRD (state : ARMul_State) (to_arm n value1 value2 : Z)
    : ARMul_State * Z * Z :=
  if nz to_arm then (state, ext state (n * 2), ext state (n * 2 + 1))
  else (set_ext (set_ext state (n * 2 + 1) value2) (n * 2) value1, value1, value2).

(* src: vfp.cpp *)
Definition VMOVBRRSS (state : ARMul_State) (to_arm n value1 value2 : Z)
    : ARMul_State * Z * Z :=
  if nz to_arm then (state, ext state (n + 0), ext state (n + 1))
  else (set_ext (set_ext state (n + 0) value1) (n + 1) value2, value1, value2).

(** * Reset ([armstate.cpp]) *)

(* src: armstate.cpp | void ARMul_State::Reset() { *)
Definition Reset (s : ARMul_State) : ARMul_State :=
  let s := VFPInit s in
  let s := s<|Reg := <[15%nat := 0]> (<[13%nat := 0x10000000]> (Reg s))|>
            <|Cpsr := INTBITS .| SVC32MODE|>
            <|Mode := mode_bits SVC32MODE|>
            <|Bank := SVCBANK|> in
  let s := ResetMPCoreCP15Registers s in
  s<|NresetSig := HIGH|><|NfiqSig := HIGH|><|NirqSig := HIGH|>
   <|NtransSig := if nz (Mode s .& 3) then HIGH else LOW|>
   <|abortSig := LOW|><|NumInstrs := 0|><|Emulate := RUN|>.

(** The object before [Reset]: its arrays are value-initialised; the scalar
    members, indeterminate in the source, are taken to be 0. *)
(* src: armstate.h | std::array<u32, 16> Reg{}; | ARMul_State | ..std::array<u32, 64> ExtReg{}; *)
Definition zero_state : ARMul_State :=
  {| Reg := replicate 16 0; Reg_usr := replicate 2 0; Reg_svc := replicate 2 0;
     Reg_abort := replicate 2 0; Reg_undef := replicate 2 0; Reg_irq := replicate 2 0;
     Reg_firq := replicate 7 0; Spsr := replicate 7 0; CP15 := const 0;
     VFP := replicate 7 0; ExtReg := replicate 64 0; Emulate := 0; Cpsr := 0;
     Spsr_copy := 0; phys_pc := 0; Mode := mode_bits USER32MODE; Bank := USERBANK;
     NFlag := 0; ZFlag := 0; CFlag := 0; VFlag := 0; IFFlags := 0;
     shifter_carry_out := 0; TFlag := 0; NumInstrs := 0; NumInstrsToExecute := 0;
     NresetSig := 0; NfiqSig := 0; NirqSig := 0; abortSig := 0; NtransSig := 0;
     bigendSig := 0; syscallSig := 0; exclusive_tag := 0; exclusive_state := false |}.

(** The constructor, from the object before [Reset]. *)
(* src: armstate.cpp | ARMul_State::ARMul_State( | ARMul_State::ARMul_State | ..ChangePrivilegeMode(initial_mode) *)
Definition new_state (uninit : ARMul_State) (initial_mode : PrivilegeMode) : ARMul_State :=
  ChangePrivilegeMode initial_mode (Reset uninit).

Definition arm_state0 : ARMul_State := new_state zero_state USER32MODE.
