(* ===== verification/VfpRound.v ===== *)
(** Normalising and rounding an unpacked operand into the register file:
    [vfp_single_normaliseround] of [vfpsingle.cpp] and
    [vfp_double_normaliseround] of [vfpdouble.cpp].

    The result of a function is split from its write to the register file
    ([single_round] and [double_round] compute the packed fields and the
    exceptions). *)

From S2P Require Import Prelude FloatSpec VfpHelper ArmState Vfp.

(** * Single precision *)

(* src: vfpsingle.cpp *)
Definition vfp_single_normalise_denormal (vs : vfp_single) : vfp_single :=
  let bits := 31 - fls (vs_significand vs) in
  if nz bits then
    VfpSingle (s16 (vs_exponent vs - (bits - 1))) (vs_sign vs)
      (u32 (vs_significand vs ≪ bits))
  else vs.

(** The rounding increment selected by the mode in [fpscr]. *)
(* src: vfpsingle.cpp | * Select rounding increment. | vfp_single_normaliseround | +13 *)
Definition single_rounding_incr (fpscr sign significand : Z) : Z :=
  let rmode := fpscr .& FPSCR_RMODE_MASK in
  if rmode =? FPSCR_ROUND_NEAREST then
    let incr := 1 ≪ VFP_SINGLE_LOW_BITS in
    if (significand .& (1 ≪ (VFP_SINGLE_LOW_BITS + 1))) =? 0 then u32 (incr - 1) else incr
  else if rmode =? FPSCR_ROUND_TOZERO then 0
  else if xorb (rmode =? FPSCR_ROUND_PLUSINF) (nz sign) then
    (1 ≪ (VFP_SINGLE_LOW_BITS + 1)) - 1
  else 0.

(** From the rounding increment to the packed fields. *)
(* src: vfpsingle.cpp | * Is our rounding going to overflow? | vfp_single_normaliseround | ..pack: *)
Definition single_round_finish (exponent sign significand incr : Z) (underflow : bool)
    (exceptions : Z) : vfp_single * Z :=
  let '(exponent, significand, incr) :=
    if u32 (significand + incr) <? significand then
      (exponent + 1, (significand ≫ 1) .| (significand .& 1), incr ≫ 1)
    else (exponent, significand, incr) in
  let exceptions :=
    if nz (significand .& ((1 ≪ (VFP_SINGLE_LOW_BITS + 1)) - 1))
    then exceptions .| FPSCR_IXC else exceptions in
  let significand := u32 (significand + incr) in
  if 254 <=? exponent then
    let exceptions := exceptions .| (FPSCR_OFC .| FPSCR_IXC) in
    if incr =? 0 then (VfpSingle 253 sign 0x7fffffff, exceptions)
    else (VfpSingle 255 sign 0, exceptions)
  else
    let exponent :=
      if (significand ≫ (VFP_SINGLE_LOW_BITS + 1)) =? 0 then 0 else exponent in
    let underflow :=
      if nz exponent || (0x80000000 <? significand) then false else underflow in
    let exceptions := if underflow then exceptions .| FPSCR_UFC else exceptions in
    (VfpSingle (s16 exponent) sign (significand ≫ 1), exceptions).

(* src: vfpsingle.cpp | u32 vfp_single_normaliseround( *)
Definition single_round (vs : vfp_single) (fpscr exceptions : Z) : vfp_single * Z :=
  if (vs_exponent vs =? 255) && ((vs_significand vs =? 0) || nz exceptions)
  then (vs, exceptions)
  else if vs_significand vs =? 0 then (VfpSingle 0 (vs_sign vs) (vs_significand vs), exceptions)
  else
    let exponent := vs_exponent vs in
    let significand := vs_significand vs in
    let sign := vs_sign vs in
    let shift := 32 - fls significand in
    let '(exponent, significand) :=
      if (shift <? 32) && nz shift then (exponent - shift, u32 (significand ≪ shift))
      else (exponent, significand) in
    let '(exponent, sign, significand, underflow, exceptions) :=
      if exponent <? 0 then
        let significand := vfp_shiftright32jamming significand (u32 (- exponent)) in
        let underflow :=
          nz (significand .& ((1 ≪ (VFP_SINGLE_LOW_BITS + 1)) - 1)) in
        let type := vfp_single_type (VfpSingle 0 sign significand) in
        if nz (type .& VFP_DENORMAL) && nz (fpscr .& FPSCR_FLUSH_TO_ZERO)
        then (0, 0, 0, false, exceptions .| FPSCR_UFC)
        else (0, sign, significand, underflow, exceptions)
      else (exponent, sign, significand, false, exceptions) in
    let incr := single_rounding_incr fpscr sign significand in
    single_round_finish exponent sign significand incr underflow exceptions.

(* src: vfpsingle.cpp | u32 vfp_single_normaliseround( *)
Definition vfp_single_normaliseround (state : ARMul_State) (sd : Z) (vs : vfp_single)
    (fpscr exceptions : Z) : ARMul_State * Z :=
  let '(vs, exceptions) := single_round vs fpscr exceptions in
  (vfp_put_float state (vfp_single_pack vs) sd, exceptions).

(** * Double precision *)

(* src: vfpdouble.cpp *)
Definition vfp_double_normalise_denormal (vd : vfp_double) : vfp_double :=
  let bits := 31 - fls (u32 (vd_significand vd ≫ 32)) in
  let bits := if bits =? 31 then 63 - fls (u32 (vd_significand vd)) else bits in
  if nz bits then
    VfpDouble (s16 (vd_exponent vd - (bits - 1))) (vd_sign vd)
      (u64 (vd_significand vd ≪ bits))
  else vd.

(** The rounding increment selected by the mode in [fpscr]. *)
(* src: vfpdouble.cpp | * Select rounding increment. | vfp_double_normaliseround | +13 *)
Definition double_rounding_incr (fpscr sign significand : Z) : Z :=
  let rmode := fpscr .& FPSCR_RMODE_MASK in
  if rmode =? FPSCR_ROUND_NEAREST then
    let incr := 1 ≪ VFP_DOUBLE_LOW_BITS in
    if (significand .& (1 ≪ (VFP_DOUBLE_LOW_BITS + 1))) =? 0 then u64 (incr - 1) else incr
  else if rmode =? FPSCR_ROUND_TOZERO then 0
  else if xorb (rmode =? FPSCR_ROUND_PLUSINF) (nz sign) then
    (1 ≪ (VFP_DOUBLE_LOW_BITS + 1)) - 1
  else 0.

(** From the rounding increment to the packed fields. *)
(* src: vfpdouble.cpp | * Is our rounding going to overflow? | vfp_double_normaliseround | ..pack: *)
Definition double_round_finish (exponent sign significand incr : Z) (underflow : bool)
    (exceptions : Z) : vfp_double * Z :=
  let '(exponent, significand, incr) :=
    if u64 (significand + incr) <? significand then
      (exponent + 1, (significand ≫ 1) .| (significand .& 1), incr ≫ 1)
    else (exponent, significand, incr) in
  let exceptions :=
    if nz (significand .& ((1 ≪ (VFP_DOUBLE_LOW_BITS + 1)) - 1))
    then exceptions .| FPSCR_IXC else exceptions in
  let significand := u64 (significand + incr) in
  if 2046 <=? exponent then
    let exceptions := exceptions .| (FPSCR_OFC .| FPSCR_IXC) in
    if incr =? 0 then (VfpDouble 2045 sign 0x7fffffffffffffff, exceptions)
    else (VfpDouble 2047 sign 0, exceptions)
  else
    let exponent :=
      if (significand ≫ (VFP_DOUBLE_LOW_BITS + 1)) =? 0 then 0 else exponent in
    let underflow :=
      if nz exponent || (0x8000000000000000 <? significand) then false else underflow in
    let exceptions := if underflow then exceptions .| FPSCR_UFC else exceptions in
    (VfpDouble (s16 exponent) sign (significand ≫ 1), exceptions).

(* src: vfpdouble.cpp | u32 vfp_double_normaliseround( *)
Definition double_round (vd : vfp_double) (fpscr exceptions : Z) : vfp_double * Z :=
  if (vd_exponent vd =? 2047) && ((vd_significand vd =? 0) || nz exceptions)
  then (vd, exceptions)
  else if vd_significand vd =? 0 then (VfpDouble 0 (vd_sign vd) (vd_significand vd), exceptions)
  else
    let exponent := vd_exponent vd in
    let significand := vd_significand vd in
    let sign := vd_sign vd in
    let shift := 32 - fls (u32 (significand ≫ 32)) in
    let shift := if shift =? 32 then 64 - fls (u32 significand) else shift in
    let '(exponent, significand) :=
      if nz shift then (exponent - shift, u64 (significand ≪ shift))
      else (exponent, significand) in
    let '(exponent, sign, significand, underflow, exceptions) :=
      if exponent <? 0 then
        let significand := vfp_shiftright64jamming significand (u32 (- exponent)) in
        let underflow :=
          nz (significand .& ((1 ≪ (VFP_DOUBLE_LOW_BITS + 1)) - 1)) in
        let type := vfp_double_type (VfpDouble 0 sign significand) in
        if nz (type .& VFP_DENORMAL) && nz (fpscr .& FPSCR_FLUSH_TO_ZERO)
        then (0, 0, 0, false, exceptions .| FPSCR_UFC)
        else (0, sign, significand, underflow, exceptions)
      else (exponent, sign, significand, false, exceptions) in
    let incr := double_rounding_incr fpscr sign significand in
    double_round_finish exponent sign significand incr underflow exceptions.

(* src: vfpdouble.cpp | u32 vfp_double_normaliseround( *)
Definition vfp_double_normaliseround (state : ARMul_State) (dd : Z) (vd : vfp_double)
    (fpscr exceptions : Z) : ARMul_State * Z :=
  let '(vd, exceptions) := double_round vd fpscr exceptions in
  (vfp_put_double state (u64 (vfp_double_pack vd)) dd, exceptions).

(** * Correctness of rounding *)

(** The rounding mode selected by FPSCR bits 22 and 23. *)
Definition rounding_mode (fpscr : Z) : rounding :=
  let rmode := fpscr .& FPSCR_RMODE_MASK in
  if rmode =? FPSCR_ROUND_NEAREST then ToNearest
  else if rmode =? FPSCR_ROUND_PLUSINF then ToPlusInf
  else if rmode =? FPSCR_ROUND_TOZERO then ToZero
  else ToMinusInf.

Lemma single_rounding_incr_eq fpscr sign S :
  single_rounding_incr fpscr sign S = round_incr (rounding_mode fpscr) (nz sign) 8 S.
Proof.
  unfold single_rounding_incr, rounding_mode, round_incr.
  change (1 ≪ (VFP_SINGLE_LOW_BITS + 1)) with (1 ≪ 8).
  rewrite land_bit by lia.
  destruct (fpscr .& FPSCR_RMODE_MASK =? FPSCR_ROUND_NEAREST); [done|].
  destruct (Z.eqb_spec (fpscr .& FPSCR_RMODE_MASK) FPSCR_ROUND_TOZERO) as [->|].
  - done.
  - destruct (fpscr .& FPSCR_RMODE_MASK =? FPSCR_ROUND_PLUSINF), (nz sign); done.
Qed.

Lemma jam32 n j : in_range 32 n -> 0 <= j -> vfp_shiftright32jamming n j = jam n j.
Proof.
  intros Hn Hj. unfold vfp_shiftright32jamming, jam.
  destruct (nz j) eqn:E.
  - apply nz_spec in E. destruct (Z.ltb_spec j 32).
    + rewrite shiftr_div, shiftl_mul by lia. unfold uwrap.
      assert (P : 2 ^ 32 = 2 ^ j * 2 ^ (32 - j)) by (rewrite <- Z.pow_add_r by lia; f_equal; lia).
      rewrite P, Z.mul_mod_distr_r by (apply Z.pow_nonzero; lia).
      assert (0 < 2 ^ (32 - j)) by (apply Z.pow_pos_nonneg; lia).
      destruct (Z.eqb_spec (n mod 2 ^ j) 0) as [->|]; [apply Z.lor_0_r|].
      assert (nz (n mod 2 ^ j * 2 ^ (32 - j)) = true) as -> by (apply nz_spec; nia). done.
    + assert (2 ^ 32 <= 2 ^ j) by (apply Z.pow_le_mono_r; lia). unfold in_range in Hn.
      rewrite Z.mod_small, Z.div_small by lia. unfold nz. by destruct (n =? 0).
  - apply nz_false in E as ->. by rewrite Z.mod_1_r, Z.div_1_r.
Qed.

Lemma single_pack_value e sign g :
  sign = 0 ∨ sign = 0x8000 -> 0 <= e -> 0 <= g -> e * 2 ^ 23 + g / 2 ^ 7 < 2 ^ 31 ->
  u32 (vfp_single_pack (VfpSingle e sign g)) = sign * 2 ^ 16 + (e * 2 ^ 23 + g / 2 ^ 7).
Proof.
  intros Hs He Hg Hb. unfold vfp_single_pack. rewrite uwrap_swrap by lia. simpl.
  change VFP_SINGLE_MANTISSA_BITS with 23. change VFP_SINGLE_LOW_BITS with 7.
  rewrite !shiftl_mul, shiftr_div by lia.
  rewrite uwrap_idemp by lia. unfold uwrap. destruct Hs; subst; modlia.
Qed.

Lemma single_finish_value md neg e sign n uf exc :
  sign = 0 ∨ sign = 0x8000 -> 0 <= e < 2 ^ 15 -> in_range 32 n -> 2 ^ 31 <= n ∨ e = 0 ->
  u32 (vfp_single_pack (fst (single_round_finish e sign n (round_incr md neg 8 n) uf exc)))
  = sign * 2 ^ 16 + inc_round 8 23 255 md neg e n.
Proof.
  intros Hs He Hn Hm. pose proof (round_incr_bounds md neg 8 n ltac:(lia)) as B.
  pose proof (round_incr_wrap md neg 8 24 n ltac:(lia) ltac:(lia)) as W.
  unfold single_round_finish, inc_round. set (i := round_incr md neg 8 n) in *.
  unfold in_range in Hn. change (2 ^ (8 + 24)) with (2 ^ 32) in W.
  change (2 ^ (8 + 23 + 1)) with (2 ^ 32). cbv zeta in *. 
  rewrite !Z.shiftr_div_pow2 by lia. change (n .& 1) with (n .& (2 ^ 1 - 1)).
  rewrite land_mask by lia. change (2 ^ 1) with 2.
  assert (C : (u32 (n + i) <? n) = (2 ^ 32 <=? n + i)).
  { unfold uwrap. zcases; modlia. }
  rewrite C. destruct (Z.leb_spec (2 ^ 32) (n + i)) as [Hw|Hw].
  - destruct (W Hn Hw) as (_ & _ & _ & W4 & W5). 
    set (n' := (n / 2) .| (n mod 2)) in *. set (i' := i / 2) in *.
    rewrite (uwrap_id 32 (n' + i')) by (unfold in_range; pow2; lia).
    change (255 - 1) with 254. destruct (Z.leb_spec 254 (e + 1)).
    + destruct (Z.eqb_spec i' 0); [lia|]. simpl fst. rewrite single_pack_value; try done; lia.
    + destruct (Z.eqb_spec ((n' + i') ≫ (VFP_SINGLE_LOW_BITS + 1)) 0) as [Z0|].
      { change (VFP_SINGLE_LOW_BITS + 1) with 8 in Z0. rewrite shiftr_div in Z0 by lia. modlia. }
      simpl fst. rewrite swrap_id by (unfold in_srange; pow2; lia).
      rewrite shiftr_div by lia.
      assert ((n' + i') / 2 ^ 1 / 2 ^ 7 = (n' + i') / 2 ^ 8) as E by (rewrite Z.div_div by lia; done).
      rewrite single_pack_value; rewrite ?E; try done; modlia.
  - rewrite (uwrap_id 32 (n + i)) by (unfold in_range; lia).
    change (255 - 1) with 254. destruct (Z.leb_spec 254 e).
    + destruct (Z.eqb_spec i 0); simpl fst; rewrite single_pack_value; try done; lia.
    + change (VFP_SINGLE_LOW_BITS + 1) with 8. rewrite (shiftr_div _ 8) by lia.
      assert ((n + i) / 2 ^ 1 / 2 ^ 7 = (n + i) / 2 ^ 8) as E by (rewrite Z.div_div by lia; done).
      simpl fst. rewrite (shiftr_div _ 1) by lia.
      destruct (Z.eqb_spec ((n + i) / 2 ^ 8) 0).
      * assert (e = 0) as -> by (destruct Hm; [modlia|done]).
        rewrite single_pack_value; rewrite ?E; try done; rewrite ?swrap_id by done; modlia.
      * rewrite swrap_id by (unfold in_srange; pow2; lia).
        rewrite single_pack_value; rewrite ?E; try done; modlia.
Qed.

Lemma normalise32 n : 0 < n < 2 ^ 32 ->
  let shift := 32 - fls n in
  (if (shift <? 32) && nz shift then u32 (n ≪ shift) else n) = n * 2 ^ (31 - Z.log2 n) ∧
  shift = 31 - Z.log2 n ∧ 2 ^ 31 <= n * 2 ^ (31 - Z.log2 n) < 2 ^ 32.
Proof.
  intros Hn. rewrite fls_spec by done. cbv zeta.
  assert (Z.log2 n < 32) by (apply Z.log2_lt_pow2; lia).
  pose proof (Z.log2_nonneg n). pose proof (Z.log2_spec n ltac:(lia)) as [L1 L2].
  rewrite Z.pow_succ_r in L2 by lia.
  replace (32 - (Z.log2 n + 1)) with (31 - Z.log2 n) by lia.
  assert (P : 2 ^ 31 = 2 ^ Z.log2 n * 2 ^ (31 - Z.log2 n)) by (rewrite <- Z.pow_add_r by lia; f_equal; lia).
  change (2 ^ 32) with (2 * 2 ^ 31) in *. rewrite P in *.
  assert (0 < 2 ^ (31 - Z.log2 n)) by (apply Z.pow_pos_nonneg; lia).
  split; [|split; [done|nia]].
  destruct (Z.ltb_spec (31 - Z.log2 n) 32); [|lia]. simpl.
  destruct (nz (31 - Z.log2 n)) eqn:E.
  - rewrite shiftl_mul by lia. apply uwrap_id. unfold in_range.
    change (2 ^ 32) with (2 * 2 ^ 31). rewrite P. nia.
  - apply nz_false in E as ->. lia.
Qed.

(** [single_round] on a finite non-zero operand that is not flushed: normalise,
    jam into the subnormal range, round. *)
Lemma single_round_step e sign n fpscr exc :
  - 2 ^ 15 <= e < 2 ^ 15 -> 0 < n < 2 ^ 32 ->
  e ≠ 255 ∨ exc = 0 -> fpscr .& FPSCR_FLUSH_TO_ZERO = 0 ∨ 31 - Z.log2 n <= e ->
  let sh := 31 - Z.log2 n in
  let N := jam (n * 2 ^ sh) (0 `max` (sh - e)) in
  single_round (VfpSingle e sign n) fpscr exc
  = single_round_finish (0 `max` (e - sh)) sign N
      (round_incr (rounding_mode fpscr) (nz sign) 8 N)
      ((e - sh <? 0) && negb (N mod 2 ^ 8 =? 0)) exc ∧
  in_range 32 N ∧ (2 ^ 31 <= N ∨ 0 `max` (e - sh) = 0) ∧ 0 <= sh <= 31.
Proof.
  intros He Hn Hx Hf. cbv zeta. unfold single_round.
  cbn [vs_exponent vs_sign vs_significand].
  assert (((e =? 255) && ((n =? 0) || nz exc)) = false) as ->.
  { destruct (Z.eqb_spec e 255); [|done]. destruct (Z.eqb_spec n 0); [lia|].
    destruct Hx as [? | ->]; done. }
  destruct (Z.eqb_spec n 0); [lia|].
  pose proof (normalise32 n Hn) as (N1 & N2 & N3).
  assert (Z.log2 n < 32) by (apply Z.log2_lt_pow2; lia). pose proof (Z.log2_nonneg n).
  assert (SB : 0 <= 31 - Z.log2 n <= 31) by lia.
  set (N := n * 2 ^ (31 - Z.log2 n)) in *. set (sh := 31 - Z.log2 n) in *.
  cbv zeta in N1, N2, N3 |- *. rewrite N2 in *.
  assert (((if (sh <? 32) && nz sh then (e - sh, u32 (n ≪ sh)) else (e, n))) = (e - sh, N)) as ->.
  { destruct (Z.ltb_spec sh 32); [|lia]. simpl in *. destruct (nz sh) eqn:S2; [by rewrite N1|].
    apply nz_false in S2. rewrite N1, S2. f_equal. lia. }
  destruct (Z.ltb_spec (e - sh) 0) as [Hneg|Hpos].
  - destruct Hf as [Hf|]; [|lia]. rewrite Hf, andb_false_r. rewrite (uwrap_id 32 (- (e - sh))) by (unfold in_range; pow2; lia).
    rewrite jam32 by (unfold in_range; lia).
    rewrite single_rounding_incr_eq, (Z.max_l 0 (e - sh)), (Z.max_r 0 (sh - e)) by lia.
    replace (- (e - sh)) with (sh - e) by lia.
    change ((1 ≪ (VFP_SINGLE_LOW_BITS + 1)) - 1) with (2 ^ 8 - 1).
    rewrite land_mask by lia.
    split; [done|]. split; [|split; [by right|lia]].
    apply jam_range; [lia| |lia]. split; [lia|].
    apply Z.lt_le_trans with (2 ^ 32); [lia|]. apply Z.pow_le_mono_r; lia.
  - rewrite single_rounding_incr_eq, (Z.max_r 0 (e - sh)), (Z.max_l 0 (sh - e)), jam_0 by lia.
    split; [done|]. split; [unfold in_range; lia|]. split; [left; lia|lia].
Qed.

Lemma log2_32 n : 0 < n < 2 ^ 32 -> 0 <= Z.log2 n < 32.
Proof. intros. split; [apply Z.log2_nonneg|]. apply Z.log2_lt_pow2; lia. Qed.

(** The value of [single_round] on a finite non-zero operand. *)
Lemma single_round_value e sign n fpscr exc :
  sign = 0 ∨ sign = 0x8000 -> - 2 ^ 15 <= e < 2 ^ 15 -> 0 < n < 2 ^ 32 ->
  e ≠ 255 ∨ exc = 0 -> fpscr .& FPSCR_FLUSH_TO_ZERO = 0 ∨ 31 - Z.log2 n <= e ->
  u32 (vfp_single_pack (fst (single_round (VfpSingle e sign n) fpscr exc)))
  = sign * 2 ^ 16 + round_mag 23 255 (rounding_mode fpscr) (nz sign) n (8 - e).
Proof.
  intros Hs He Hn Hx Hf. pose proof (log2_32 n Hn).
  destruct (single_round_step e sign n fpscr exc He Hn Hx Hf) as (-> & HN & HS & HB).
  rewrite <- (inc_round_mag 8 23 255) by lia.
  apply single_finish_value; [done|lia|done|done].
Qed.

(** The flag bits set by the rounding code. *)
Lemma testbit_ixc c j : Z.testbit (c .| FPSCR_IXC) j = Z.testbit c j || (j =? 4).
Proof. rewrite Z.lor_spec. change FPSCR_IXC with (2 ^ 4). by rewrite Z.pow2_bits_eqb, (Z.eqb_sym 4) by lia. Qed.

Lemma testbit_ufc c j : Z.testbit (c .| FPSCR_UFC) j = Z.testbit c j || (j =? 3).
Proof. rewrite Z.lor_spec. change FPSCR_UFC with (2 ^ 3). by rewrite Z.pow2_bits_eqb, (Z.eqb_sym 3) by lia. Qed.

Lemma testbit_ofc_ixc c j :
  Z.testbit (c .| (FPSCR_OFC .| FPSCR_IXC)) j = Z.testbit c j || (j =? 2) || (j =? 4).
Proof.
  rewrite Z.lor_assoc, testbit_ixc, Z.lor_spec. change FPSCR_OFC with (2 ^ 2).
  by rewrite Z.pow2_bits_eqb, (Z.eqb_sym 2) by lia.
Qed.

(** What the exceptions [x] raised by rounding say: [exc] with the inexact and
    overflow flags; underflow only when [uf] holds. *)
Definition round_flags (x exc : Z) (inexact overflow uf : bool) : Prop :=
  Z.testbit x 4 = Z.testbit exc 4 || inexact || overflow ∧
  Z.testbit x 2 = Z.testbit exc 2 || overflow ∧
  (Z.testbit x 3 = true -> Z.testbit exc 3 = true ∨ uf = true) ∧
  (∀ i, i ≠ 2 -> i ≠ 3 -> i ≠ 4 -> Z.testbit x i = Z.testbit exc i).

Lemma round_flags_intro exc (inexact overflow uf u : bool) :
  (u = true -> uf = true ∧ overflow = false) ->
  let x := if inexact then exc .| FPSCR_IXC else exc in
  round_flags (if overflow then x .| (FPSCR_OFC .| FPSCR_IXC)
               else if u then x .| FPSCR_UFC else x) exc inexact overflow uf.
Proof.
  intros Hu x. unfold round_flags.
  assert (X : ∀ j, Z.testbit x j = Z.testbit exc j || (inexact && (j =? 4))).
  { intros j. unfold x. destruct inexact; [apply testbit_ixc|by rewrite orb_false_r]. }
  destruct overflow; [|destruct u]; rewrite ?testbit_ofc_ixc, ?testbit_ufc, ?X;
    split_and!; try (intros j J2 J3 J4; apply Z.eqb_neq in J2, J3, J4);
    rewrite ?testbit_ofc_ixc, ?testbit_ufc, ?X; rewrite ?J2, ?J3, ?J4;
    try change (4 =? 2) with false; try change (4 =? 3) with false;
    try change (2 =? 3) with false; try change (2 =? 4) with false;
    try change (3 =? 2) with false; try change (3 =? 4) with false;
    rewrite ?Z.eqb_refl, ?andb_false_r, ?andb_true_r, ?orb_false_r, ?orb_true_r;
    try done; tauto.
Qed.

Lemma single_finish_flags md neg e sign n uf exc :
  0 <= e < 2 ^ 15 -> in_range 32 n -> 2 ^ 31 <= n ∨ e = 0 ->
  round_flags (snd (single_round_finish e sign n (round_incr md neg 8 n) uf exc)) exc
    (negb (n mod 2 ^ 8 =? 0)) (255 * 2 ^ 23 <=? e * 2 ^ 23 + round_div md neg n 8) uf.
Proof.
  intros He Hn Hm. unfold in_range in Hn.
  rewrite <- (inc_round_overflow 8 23 255) by (done || lia).
  change (2 ^ (8 + 23 + 1)) with (2 ^ 32).
  pose proof (round_incr_bounds md neg 8 n ltac:(lia)) as B.
  pose proof (round_incr_wrap md neg 8 24 n ltac:(lia) ltac:(lia)) as W.
  unfold single_round_finish. set (i := round_incr md neg 8 n) in *.
  change (2 ^ (8 + 24)) with (2 ^ 32) in W. cbv zeta in W |- *.
  assert (C : (u32 (n + i) <? n) = (2 ^ 32 <=? n + i)) by (unfold uwrap; zcases; modlia).
  rewrite C. change ((1 ≪ (VFP_SINGLE_LOW_BITS + 1)) - 1) with (2 ^ 8 - 1).
  assert (LO : ∀ c, nz (c .& (2 ^ 8 - 1)) = negb (c mod 2 ^ 8 =? 0))
    by (intros; rewrite land_mask by lia; done).
  assert (NX : negb ((if 2 ^ 32 <=? n + i then (n ≫ 1) .| (n .& 1) else n) mod 2 ^ 8 =? 0)
               = negb (n mod 2 ^ 8 =? 0)).
  { destruct (Z.leb_spec (2 ^ 32) (n + i)) as [Hw|]; [|done].
    destruct (W Hn Hw) as (_ & W2 & W3 & _ & _).
    rewrite Z.shiftr_div_pow2 by lia. change (n .& 1) with (n .& (2 ^ 1 - 1)).
    rewrite land_mask by lia. change (2 ^ 1) with 2.
    apply Z.eqb_neq in W2, W3. by rewrite W2, W3. }
  rewrite <- NX. clear NX. change (255 - 1) with 254.
  destruct (2 ^ 32 <=? n + i); rewrite LO;
    match goal with |- context [254 <=? ?e] => destruct (254 <=? e) end; simpl snd;
    try match goal with |- context [if ?i =? 0 then _ else _] => destruct (i =? 0) end;
    try match goal with |- context [if ?u then _ .| FPSCR_UFC else _] => destruct u eqn:U end;
    first [ apply (round_flags_intro _ _ true uf false); done
          | apply (round_flags_intro _ _ false uf true); destruct (_ || _) in U; done
          | apply (round_flags_intro _ _ false uf false); done ].
Qed.

(** The exceptions of [single_round] on a finite non-zero operand. *)
Lemma single_round_exceptions e sign n fpscr exc :
  - 2 ^ 15 <= e < 2 ^ 15 -> 0 < n < 2 ^ 32 ->
  e ≠ 255 ∨ exc = 0 -> fpscr .& FPSCR_FLUSH_TO_ZERO = 0 ∨ 31 - Z.log2 n <= e ->
  let md := rounding_mode fpscr in
  round_flags (snd (single_round (VfpSingle e sign n) fpscr exc)) exc
    (inexact_mag 23 n (8 - e)) (overflows_mag 23 255 md (nz sign) n (8 - e))
    (inexact_mag 23 n (8 - e) && (Z.log2 n - (8 - e) <? 23)).
Proof.
  intros He Hn Hx Hf md. pose proof (log2_32 n Hn).
  destruct (single_round_step e sign n fpscr exc He Hn Hx Hf) as (-> & HN & HS & HB).
  destruct (round_mag_normalise 23 md (nz sign) 8 n e ltac:(lia) ltac:(lia) ltac:(lia) ltac:(lia)) as [E1 E2].
  unfold overflows_mag. rewrite inexact_normalise, E1, E2, (andb_comm (negb _) (_ <? _)) by lia.
  change (8 + 23) with 31.
  replace (Z.log2 n - (8 - e) <? 23) with (e - (31 - Z.log2 n) <? 0) by (zcases; lia).
  apply single_finish_flags; [lia|done|done].
Qed.

(** With flush-to-zero, a result below the normal range becomes +0. *)
Lemma single_round_flush e sign n fpscr exc :
  - 2 ^ 15 <= e < 31 - Z.log2 n -> 0 < n < 2 ^ 32 ->
  fpscr .& FPSCR_FLUSH_TO_ZERO ≠ 0 ->
  u32 (vfp_single_pack (fst (single_round (VfpSingle e sign n) fpscr exc))) = 0 ∧
  snd (single_round (VfpSingle e sign n) fpscr exc) = exc .| FPSCR_UFC.
Proof.
  intros He Hn Hf. unfold single_round. cbn [vs_exponent vs_sign vs_significand].
  pose proof (log2_32 n Hn). destruct (Z.eqb_spec e 255); [lia|]. rewrite andb_false_l.
  destruct (Z.eqb_spec n 0); [lia|].
  pose proof (normalise32 n Hn) as (N1 & N2 & N3). cbv zeta in *. rewrite N2 in *.
  set (N := n * 2 ^ (31 - Z.log2 n)) in *. set (sh := 31 - Z.log2 n) in *.
  assert (((if (sh <? 32) && nz sh then (e - sh, u32 (n ≪ sh)) else (e, n))) = (e - sh, N)) as ->.
  { destruct (Z.ltb_spec sh 32); [|lia]. simpl in *. destruct (nz sh) eqn:S2; [by rewrite N1|].
    apply nz_false in S2. rewrite N1, S2. f_equal. lia. }
  destruct (Z.ltb_spec (e - sh) 0); [|lia].
  rewrite (uwrap_id 32 (- (e - sh))) by (unfold in_range; pow2; lia).
  rewrite jam32 by (unfold in_range; lia).
  pose proof (jam_pos N (- (e - sh)) ltac:(lia) ltac:(lia)).
  unfold vfp_single_type at 1 2. cbn [vs_exponent vs_sign vs_significand].
  change (0 =? 255) with false. change (0 =? 0) with true.
  destruct (Z.eqb_spec (jam N (- (e - sh))) 0); [lia|]. cbv iota.
  change (nz ((VFP_NUMBER .| VFP_DENORMAL) .& VFP_DENORMAL)) with true.
  apply nz_spec in Hf. rewrite Hf. cbv [andb].
  rewrite single_rounding_incr_eq. by destruct (rounding_mode fpscr).
Qed.

(** ** The same for double precision *)

Lemma double_rounding_incr_eq fpscr sign S :
  double_rounding_incr fpscr sign S = round_incr (rounding_mode fpscr) (nz sign) 11 S.
Proof.
  unfold double_rounding_incr, rounding_mode, round_incr.
  change (1 ≪ (VFP_DOUBLE_LOW_BITS + 1)) with (1 ≪ 11).
  rewrite land_bit by lia.
  destruct (fpscr .& FPSCR_RMODE_MASK =? FPSCR_ROUND_NEAREST); [done|].
  destruct (Z.eqb_spec (fpscr .& FPSCR_RMODE_MASK) FPSCR_ROUND_TOZERO) as [->|].
  - done.
  - destruct (fpscr .& FPSCR_RMODE_MASK =? FPSCR_ROUND_PLUSINF), (nz sign); done.
Qed.

Lemma jam64 n j : in_range 64 n -> 0 <= j -> vfp_shiftright64jamming n j = jam n j.
Proof.
  intros Hn Hj. unfold vfp_shiftright64jamming, jam.
  destruct (nz j) eqn:E.
  - apply nz_spec in E. destruct (Z.ltb_spec j 64).
    + rewrite shiftr_div, shiftl_mul by lia. unfold uwrap.
      assert (P : 2 ^ 64 = 2 ^ j * 2 ^ (64 - j)) by (rewrite <- Z.pow_add_r by lia; f_equal; lia).
      rewrite P, Z.mul_mod_distr_r by (apply Z.pow_nonzero; lia).
      assert (0 < 2 ^ (64 - j)) by (apply Z.pow_pos_nonneg; lia).
      destruct (Z.eqb_spec (n mod 2 ^ j) 0) as [->|]; [apply Z.lor_0_r|].
      assert (nz (n mod 2 ^ j * 2 ^ (64 - j)) = true) as -> by (apply nz_spec; nia). done.
    + assert (2 ^ 64 <= 2 ^ j) by (apply Z.pow_le_mono_r; lia). unfold in_range in Hn.
      rewrite Z.mod_small, Z.div_small by lia. unfold nz. by destruct (n =? 0).
  - apply nz_false in E as ->. by rewrite Z.mod_1_r, Z.div_1_r.
Qed.

Lemma double_pack_value e sign g :
  sign = 0 ∨ sign = 0x8000 -> 0 <= e -> 0 <= g -> e * 2 ^ 52 + g / 2 ^ 10 < 2 ^ 63 ->
  u64 (vfp_double_pack (VfpDouble e sign g)) = sign * 2 ^ 48 + (e * 2 ^ 52 + g / 2 ^ 10).
Proof.
  intros Hs He Hg Hb. unfold vfp_double_pack. rewrite uwrap_swrap by lia. simpl.
  change VFP_DOUBLE_MANTISSA_BITS with 52. change VFP_DOUBLE_LOW_BITS with 10.
  rewrite !shiftl_mul, shiftr_div by lia.
  rewrite uwrap_idemp by lia. unfold uwrap. destruct Hs; subst; modlia.
Qed.

Lemma double_finish_value md neg e sign n uf exc :
  sign = 0 ∨ sign = 0x8000 -> 0 <= e < 2 ^ 15 -> in_range 64 n -> 2 ^ 63 <= n ∨ e = 0 ->
  u64 (vfp_double_pack (fst (double_round_finish e sign n (round_incr md neg 11 n) uf exc)))
  = sign * 2 ^ 48 + inc_round 11 52 2047 md neg e n.
Proof.
  intros Hs He Hn Hm. pose proof (round_incr_bounds md neg 11 n ltac:(lia)) as B.
  pose proof (round_incr_wrap md neg 11 53 n ltac:(lia) ltac:(lia)) as W.
  unfold double_round_finish, inc_round. set (i := round_incr md neg 11 n) in *.
  unfold in_range in Hn. change (2 ^ (11 + 53)) with (2 ^ 64) in W.
  change (2 ^ (11 + 52 + 1)) with (2 ^ 64). cbv zeta in *. 
  rewrite !Z.shiftr_div_pow2 by lia. change (n .& 1) with (n .& (2 ^ 1 - 1)).
  rewrite land_mask by lia. change (2 ^ 1) with 2.
  assert (C : (u64 (n + i) <? n) = (2 ^ 64 <=? n + i)).
  { unfold uwrap. zcases; modlia. }
  rewrite C. destruct (Z.leb_spec (2 ^ 64) (n + i)) as [Hw|Hw].
  - destruct (W Hn Hw) as (_ & _ & _ & W4 & W5). 
    set (n' := (n / 2) .| (n mod 2)) in *. set (i' := i / 2) in *.
    rewrite (uwrap_id 64 (n' + i')) by (unfold in_range; pow2; lia).
    change (2047 - 1) with 2046. destruct (Z.leb_spec 2046 (e + 1)).
    + destruct (Z.eqb_spec i' 0); [lia|]. simpl fst. rewrite double_pack_value; try done; lia.
    + destruct (Z.eqb_spec ((n' + i') ≫ (VFP_DOUBLE_LOW_BITS + 1)) 0) as [Z0|].
      { change (VFP_DOUBLE_LOW_BITS + 1) with 11 in Z0. rewrite shiftr_div in Z0 by lia. modlia. }
      simpl fst. rewrite swrap_id by (unfold in_srange; pow2; lia).
      rewrite shiftr_div by lia.
      assert ((n' + i') / 2 ^ 1 / 2 ^ 10 = (n' + i') / 2 ^ 11) as E by (rewrite Z.div_div by lia; done).
      rewrite double_pack_value; rewrite ?E; try done; modlia.
  - rewrite (uwrap_id 64 (n + i)) by (unfold in_range; lia).
    change (2047 - 1) with 2046. destruct (Z.leb_spec 2046 e).
    + destruct (Z.eqb_spec i 0); simpl fst; rewrite double_pack_value; try done; lia.
    + change (VFP_DOUBLE_LOW_BITS + 1) with 11. rewrite (shiftr_div _ 11) by lia.
      assert ((n + i) / 2 ^ 1 / 2 ^ 10 = (n + i) / 2 ^ 11) as E by (rewrite Z.div_div by lia; done).
      simpl fst. rewrite (shiftr_div _ 1) by lia.
      destruct (Z.eqb_spec ((n + i) / 2 ^ 11) 0).
      * assert (e = 0) as -> by (destruct Hm; [modlia|done]).
        rewrite double_pack_value; rewrite ?E; try done; rewrite ?swrap_id by done; modlia.
      * rewrite swrap_id by (unfold in_srange; pow2; lia).
        rewrite double_pack_value; rewrite ?E; try done; modlia.
Qed.

(** The shift that normalises a 64-bit significand, found on its halves. *)
Lemma double_shift n : 0 < n < 2 ^ 64 ->
  (if 32 - fls (u32 (n ≫ 32)) =? 32 then 64 - fls (u32 n) else 32 - fls (u32 (n ≫ 32)))
  = 63 - Z.log2 n.
Proof.
  intros Hn. rewrite shiftr_div by lia.
  rewrite (uwrap_id 32 (n / 2 ^ 32)) by (unfold in_range; modlia).
  destruct (Z.eq_dec (n / 2 ^ 32) 0) as [E|E].
  - rewrite E. change (32 - fls 0 =? 32) with true. cbv iota.
    rewrite uwrap_id by (unfold in_range; modlia). rewrite fls_spec by modlia. lia.
  - assert (0 < n / 2 ^ 32 < 2 ^ 32) by modlia.
    rewrite fls_spec by done.
    assert (Z.log2 (n / 2 ^ 32) = Z.log2 n - 32) as ->.
    { rewrite <- Z.shiftr_div_pow2, Z.log2_shiftr by lia.
      assert (32 <= Z.log2 n) by (apply Z.log2_le_pow2; modlia). lia. }
    assert (32 <= Z.log2 n < 64) by (split; [apply Z.log2_le_pow2|apply Z.log2_lt_pow2]; modlia).
    destruct (Z.eqb_spec (32 - (Z.log2 n - 32 + 1)) 32); lia.
Qed.

Lemma normalise64 n : 0 < n < 2 ^ 64 ->
  u64 (n ≪ (63 - Z.log2 n)) = n * 2 ^ (63 - Z.log2 n) ∧
  2 ^ 63 <= n * 2 ^ (63 - Z.log2 n) < 2 ^ 64.
Proof.
  intros Hn.
  assert (Z.log2 n < 64) by (apply Z.log2_lt_pow2; lia).
  pose proof (Z.log2_nonneg n). pose proof (Z.log2_spec n ltac:(lia)) as [L1 L2].
  rewrite Z.pow_succ_r in L2 by lia.
  assert (P : 2 ^ 63 = 2 ^ Z.log2 n * 2 ^ (63 - Z.log2 n)) by (rewrite <- Z.pow_add_r by lia; f_equal; lia).
  assert (0 < 2 ^ (63 - Z.log2 n)) by (apply Z.pow_pos_nonneg; lia).
  assert (2 ^ 63 <= n * 2 ^ (63 - Z.log2 n) < 2 ^ 64)
    by (change (2 ^ 64) with (2 * 2 ^ 63) in *; rewrite P; nia).
  split; [|done]. rewrite shiftl_mul by lia. apply uwrap_id. unfold in_range. lia.
Qed.

(** [double_round] on a finite non-zero operand that is not flushed: normalise,
    jam into the subnormal range, round. *)
Lemma double_round_step e sign n fpscr exc :
  - 2 ^ 15 <= e < 2 ^ 15 -> 0 < n < 2 ^ 64 ->
  e ≠ 2047 ∨ exc = 0 -> fpscr .& FPSCR_FLUSH_TO_ZERO = 0 ∨ 63 - Z.log2 n <= e ->
  let sh := 63 - Z.log2 n in
  let N := jam (n * 2 ^ sh) (0 `max` (sh - e)) in
  double_round (VfpDouble e sign n) fpscr exc
  = double_round_finish (0 `max` (e - sh)) sign N
      (round_incr (rounding_mode fpscr) (nz sign) 11 N)
      ((e - sh <? 0) && negb (N mod 2 ^ 11 =? 0)) exc ∧
  in_range 64 N ∧ (2 ^ 63 <= N ∨ 0 `max` (e - sh) = 0) ∧ 0 <= sh <= 63.
Proof.
  intros He Hn Hx Hf. cbv zeta. unfold double_round.
  cbn [vd_exponent vd_sign vd_significand].
  assert (((e =? 2047) && ((n =? 0) || nz exc)) = false) as ->.
  { destruct (Z.eqb_spec e 2047); [|done]. destruct (Z.eqb_spec n 0); [lia|].
    destruct Hx as [? | ->]; done. }
  destruct (Z.eqb_spec n 0); [lia|].
  pose proof (normalise64 n Hn) as (N1 & N3). pose proof (double_shift n Hn) as N2.
  assert (Z.log2 n < 64) by (apply Z.log2_lt_pow2; lia). pose proof (Z.log2_nonneg n).
  assert (SB : 0 <= 63 - Z.log2 n <= 63) by lia.
  set (N := n * 2 ^ (63 - Z.log2 n)) in *. set (sh := 63 - Z.log2 n) in *.
  cbv zeta in N1, N2, N3 |- *. rewrite N2 in *.
  assert (((if nz sh then (e - sh, u64 (n ≪ sh)) else (e, n))) = (e - sh, N)) as ->.
  { destruct (nz sh) eqn:S2; [by rewrite N1|]. apply nz_false in S2.
    unfold N. rewrite S2. f_equal; lia. }
  destruct (Z.ltb_spec (e - sh) 0) as [Hneg|Hpos].
  - destruct Hf as [Hf|]; [|lia]. rewrite Hf, andb_false_r. rewrite (uwrap_id 32 (- (e - sh))) by (unfold in_range; pow2; lia).
    rewrite jam64 by (unfold in_range; lia).
    rewrite double_rounding_incr_eq, (Z.max_l 0 (e - sh)), (Z.max_r 0 (sh - e)) by lia.
    replace (- (e - sh)) with (sh - e) by lia.
    change ((1 ≪ (VFP_DOUBLE_LOW_BITS + 1)) - 1) with (2 ^ 11 - 1).
    rewrite land_mask by lia.
    split; [done|]. split; [|split; [by right|lia]].
    apply jam_range; [lia| |lia]. split; [lia|].
    apply Z.lt_le_trans with (2 ^ 64); [lia|]. apply Z.pow_le_mono_r; lia.
  - rewrite double_rounding_incr_eq, (Z.max_r 0 (e - sh)), (Z.max_l 0 (sh - e)), jam_0 by lia.
    split; [done|]. split; [unfold in_range; lia|]. split; [left; lia|lia].
Qed.

Lemma log2_64 n : 0 < n < 2 ^ 64 -> 0 <= Z.log2 n < 64.
Proof. intros. split; [apply Z.log2_nonneg|]. apply Z.log2_lt_pow2; lia. Qed.

(** The value of [double_round] on a finite non-zero operand. *)
Lemma double_round_value e sign n fpscr exc :
  sign = 0 ∨ sign = 0x8000 -> - 2 ^ 15 <= e < 2 ^ 15 -> 0 < n < 2 ^ 64 ->
  e ≠ 2047 ∨ exc = 0 -> fpscr .& FPSCR_FLUSH_TO_ZERO = 0 ∨ 63 - Z.log2 n <= e ->
  u64 (vfp_double_pack (fst (double_round (VfpDouble e sign n) fpscr exc)))
  = sign * 2 ^ 48 + round_mag 52 2047 (rounding_mode fpscr) (nz sign) n (11 - e).
Proof.
  intros Hs He Hn Hx Hf. pose proof (log2_64 n Hn).
  destruct (double_round_step e sign n fpscr exc He Hn Hx Hf) as (-> & HN & HS & HB).
  rewrite <- (inc_round_mag 11 52 2047) by lia.
  apply double_finish_value; [done|lia|done|done].
Qed.

Lemma double_finish_flags md neg e sign n uf exc :
  0 <= e < 2 ^ 15 -> in_range 64 n -> 2 ^ 63 <= n ∨ e = 0 ->
  round_flags (snd (double_round_finish e sign n (round_incr md neg 11 n) uf exc)) exc
    (negb (n mod 2 ^ 11 =? 0)) (2047 * 2 ^ 52 <=? e * 2 ^ 52 + round_div md neg n 11) uf.
Proof.
  intros He Hn Hm. unfold in_range in Hn.
  rewrite <- (inc_round_overflow 11 52 2047) by (done || lia).
  change (2 ^ (11 + 52 + 1)) with (2 ^ 64).
  pose proof (round_incr_bounds md neg 11 n ltac:(lia)) as B.
  pose proof (round_incr_wrap md neg 11 53 n ltac:(lia) ltac:(lia)) as W.
  unfold double_round_finish. set (i := round_incr md neg 11 n) in *.
  change (2 ^ (11 + 53)) with (2 ^ 64) in W. cbv zeta in W |- *.
  assert (C : (u64 (n + i) <? n) = (2 ^ 64 <=? n + i)) by (unfold uwrap; zcases; modlia).
  rewrite C. change ((1 ≪ (VFP_DOUBLE_LOW_BITS + 1)) - 1) with (2 ^ 11 - 1).
  assert (LO : ∀ c, nz (c .& (2 ^ 11 - 1)) = negb (c mod 2 ^ 11 =? 0))
    by (intros; rewrite land_mask by lia; done).
  assert (NX : negb ((if 2 ^ 64 <=? n + i then (n ≫ 1) .| (n .& 1) else n) mod 2 ^ 11 =? 0)
               = negb (n mod 2 ^ 11 =? 0)).
  { destruct (Z.leb_spec (2 ^ 64) (n + i)) as [Hw|]; [|done].
    destruct (W Hn Hw) as (_ & W2 & W3 & _ & _).
    rewrite Z.shiftr_div_pow2 by lia. change (n .& 1) with (n .& (2 ^ 1 - 1)).
    rewrite land_mask by lia. change (2 ^ 1) with 2.
    apply Z.eqb_neq in W2, W3. by rewrite W2, W3. }
  rewrite <- NX. clear NX. change (2047 - 1) with 2046.
  destruct (2 ^ 64 <=? n + i); rewrite LO;
    match goal with |- context [2046 <=? ?e] => destruct (2046 <=? e) end; simpl snd;
    try match goal with |- context [if ?i =? 0 then _ else _] => destruct (i =? 0) end;
    try match goal with |- context [if ?u then _ .| FPSCR_UFC else _] => destruct u eqn:U end;
    first [ apply (round_flags_intro _ _ true uf false); done
          | apply (round_flags_intro _ _ false uf true); destruct (_ || _) in U; done
          | apply (round_flags_intro _ _ false uf false); done ].
Qed.

(** The exceptions of [double_round] on a finite non-zero operand. *)
Lemma double_round_exceptions e sign n fpscr exc :
  - 2 ^ 15 <= e < 2 ^ 15 -> 0 < n < 2 ^ 64 ->
  e ≠ 2047 ∨ exc = 0 -> fpscr .& FPSCR_FLUSH_TO_ZERO = 0 ∨ 63 - Z.log2 n <= e ->
  let md := rounding_mode fpscr in
  round_flags (snd (double_round (VfpDouble e sign n) fpscr exc)) exc
    (inexact_mag 52 n (11 - e)) (overflows_mag 52 2047 md (nz sign) n (11 - e))
    (inexact_mag 52 n (11 - e) && (Z.log2 n - (11 - e) <? 52)).
Proof.
  intros He Hn Hx Hf md. pose proof (log2_64 n Hn).
  destruct (double_round_step e sign n fpscr exc He Hn Hx Hf) as (-> & HN & HS & HB).
  destruct (round_mag_normalise 52 md (nz sign) 11 n e ltac:(lia) ltac:(lia) ltac:(lia) ltac:(lia)) as [E1 E2].
  unfold overflows_mag. rewrite inexact_normalise, E1, E2, (andb_comm (negb _) (_ <? _)) by lia.
  change (11 + 52) with 63.
  replace (Z.log2 n - (11 - e) <? 52) with (e - (63 - Z.log2 n) <? 0) by (zcases; lia).
  apply double_finish_flags; [lia|done|done].
Qed.

(** With flush-to-zero, a result below the normal range becomes +0. *)
Lemma double_round_flush e sign n fpscr exc :
  - 2 ^ 15 <= e < 63 - Z.log2 n -> 0 < n < 2 ^ 64 ->
  fpscr .& FPSCR_FLUSH_TO_ZERO ≠ 0 ->
  u64 (vfp_double_pack (fst (double_round (VfpDouble e sign n) fpscr exc))) = 0 ∧
  snd (double_round (VfpDouble e sign n) fpscr exc) = exc .| FPSCR_UFC.
Proof.
  intros He Hn Hf. unfold double_round. cbn [vd_exponent vd_sign vd_significand].
  pose proof (log2_64 n Hn). destruct (Z.eqb_spec e 2047); [lia|]. rewrite andb_false_l.
  destruct (Z.eqb_spec n 0); [lia|].
  pose proof (normalise64 n Hn) as (N1 & N3). pose proof (double_shift n Hn) as N2. cbv zeta in *. rewrite N2 in *.
  set (N := n * 2 ^ (63 - Z.log2 n)) in *. set (sh := 63 - Z.log2 n) in *.
  assert (((if nz sh then (e - sh, u64 (n ≪ sh)) else (e, n))) = (e - sh, N)) as ->.
  { destruct (nz sh) eqn:S2; [by rewrite N1|]. apply nz_false in S2.
    unfold N. rewrite S2. f_equal; lia. }
  destruct (Z.ltb_spec (e - sh) 0); [|lia].
  rewrite (uwrap_id 32 (- (e - sh))) by (unfold in_range; pow2; lia).
  rewrite jam64 by (unfold in_range; lia).
  pose proof (jam_pos N (- (e - sh)) ltac:(lia) ltac:(lia)).
  unfold vfp_double_type at 1 2. cbn [vd_exponent vd_sign vd_significand].
  change (0 =? 2047) with false. change (0 =? 0) with true.
  destruct (Z.eqb_spec (jam N (- (e - sh))) 0); [lia|]. cbv iota.
  change (nz ((VFP_NUMBER .| VFP_DENORMAL) .& VFP_DENORMAL)) with true.
  apply nz_spec in Hf. rewrite Hf. cbv [andb].
  rewrite double_rounding_incr_eq. by destruct (rounding_mode fpscr).
Qed.

(** * What an operation that rounds once delivers *)

(** [r] and [exc] are the encoding and the exceptions of the magnitude
    [T / 2^s] with sign word [sign], rounded as [fpscr] says. *)
Definition single_rounds_to (fpscr sign T s r exc : Z) : Prop :=
  let md := rounding_mode fpscr in
  r = sign * 2 ^ 16 + round_mag 23 255 md (nz sign) T s ∧
  round_flags exc 0 (inexact_mag 23 T s) (overflows_mag 23 255 md (nz sign) T s)
    (inexact_mag 23 T s && (Z.log2 T - s <? 23)).

Definition double_rounds_to (fpscr sign T s r exc : Z) : Prop :=
  let md := rounding_mode fpscr in
  r = sign * 2 ^ 48 + round_mag 52 2047 md (nz sign) T s ∧
  round_flags exc 0 (inexact_mag 52 T s) (overflows_mag 52 2047 md (nz sign) T s)
    (inexact_mag 52 T s && (Z.log2 T - s <? 52)).

Lemma single_rounds_same fpscr sign T s T' s' r exc :
  same_mag 23 T s T' s' ->
  single_rounds_to fpscr sign T s r exc -> single_rounds_to fpscr sign T' s' r exc.
Proof.
  intros H. unfold single_rounds_to.
  destruct (same_mag_round 23 255 (rounding_mode fpscr) (nz sign) _ _ _ _ H) as [-> ->].
  destruct H as (-> & -> & _). done.
Qed.

Lemma double_rounds_same fpscr sign T s T' s' r exc :
  same_mag 52 T s T' s' ->
  double_rounds_to fpscr sign T s r exc -> double_rounds_to fpscr sign T' s' r exc.
Proof.
  intros H. unfold double_rounds_to.
  destruct (same_mag_round 52 2047 (rounding_mode fpscr) (nz sign) _ _ _ _ H) as [-> ->].
  destruct H as (-> & -> & _). done.
Qed.

Lemma single_round_rounds e sign n fpscr :
  sign = 0 ∨ sign = 0x8000 -> - 2 ^ 15 <= e < 2 ^ 15 -> 0 < n < 2 ^ 32 ->
  fpscr .& FPSCR_FLUSH_TO_ZERO = 0 ∨ 31 - Z.log2 n <= e ->
  let '(vs, exc) := single_round (VfpSingle e sign n) fpscr 0 in
  single_rounds_to fpscr sign n (8 - e) (u32 (vfp_single_pack vs)) exc.
Proof.
  intros Hs He Hn Hf.
  pose proof (single_round_value e sign n fpscr 0 Hs He Hn ltac:(by right) Hf) as V.
  pose proof (single_round_exceptions e sign n fpscr 0 He Hn ltac:(by right) Hf) as X.
  destruct (single_round _ _ _). by split.
Qed.

Lemma double_round_rounds e sign n fpscr :
  sign = 0 ∨ sign = 0x8000 -> - 2 ^ 15 <= e < 2 ^ 15 -> 0 < n < 2 ^ 64 ->
  fpscr .& FPSCR_FLUSH_TO_ZERO = 0 ∨ 63 - Z.log2 n <= e ->
  let '(vd, exc) := double_round (VfpDouble e sign n) fpscr 0 in
  double_rounds_to fpscr sign n (11 - e) (u64 (vfp_double_pack vd)) exc.
Proof.
  intros Hs He Hn Hf.
  pose proof (double_round_value e sign n fpscr 0 Hs He Hn ltac:(by right) Hf) as V.
  pose proof (double_round_exceptions e sign n fpscr 0 He Hn ltac:(by right) Hf) as X.
  destruct (double_round _ _ _). by split.
Qed.
