(* ===== verification/VfpSingle.v ===== *)
(** Single-precision VFP data processing: [vfpsingle.cpp].

    An operation takes the processor state and returns the new state and the
    exception bits.  Each [goto] of the C functions is the tail it jumps to. *)

From S2P Require Import Prelude VfpHelper ArmState Vfp VfpRound.

(* src: vfpsingle.cpp | static struct vfp_single vfp_single_default_qnan *)
Definition vfp_single_default_qnan : vfp_single :=
  VfpSingle 255 0 VFP_SINGLE_SIGNIFICAND_QNAN.

(** The NaN and the exceptions; [None] is the null second operand.  The source
    also quiets the selected operand in place, which no caller reads back. *)
(* src: vfpsingle.cpp *)
Definition vfp_propagate_nan (vsn : vfp_single) (vsm : option vfp_single) (fpscr : Z)
    : vfp_single * Z :=
  let tn := vfp_single_type vsn in
  let tm := match vsm with Some vsm => vfp_single_type vsm | None => 0 end in
  let nan :=
    if nz (fpscr .& FPSCR_DEFAULT_NAN) then vfp_single_default_qnan
    else
      let nan :=
        if (tn =? VFP_SNAN) || (negb (tm =? VFP_SNAN) && (tn =? VFP_QNAN)) then vsn
        else default vsn vsm in
      nan<|vs_significand := vs_significand nan .| VFP_SINGLE_SIGNIFICAND_QNAN|> in
  (nan, if (tn =? VFP_SNAN) || (tm =? VFP_SNAN) then FPSCR_IOC else VFP_NAN_FLAG).

(** * Extended operations *)

(* src: vfpsingle.cpp *)
Definition vfp_single_fabs (state : ARMul_State) (sd unused m fpscr : Z) : ARMul_State * Z :=
  (vfp_put_float state (vfp_single_packed_abs m) sd, 0).

(* src: vfpsingle.cpp *)
Definition vfp_single_fcpy (state : ARMul_State) (sd unused m fpscr : Z) : ARMul_State * Z :=
  (vfp_put_float state m sd, 0).

(* src: vfpsingle.cpp *)
Definition vfp_single_fneg (state : ARMul_State) (sd unused m fpscr : Z) : ARMul_State * Z :=
  (vfp_put_float state (vfp_single_packed_negate m) sd, 0).

(* src: vfpsingle.cpp | static const u16 sqrt_oddadjust[] *)
Definition sqrt_oddadjust : list Z := [
  0x0004; 0x0022; 0x005d; 0x00b1; 0x011d; 0x019f; 0x0236; 0x02e0;
  0x039c; 0x0468; 0x0545; 0x0631; 0x072b; 0x0832; 0x0946; 0x0a67 ].

(* src: vfpsingle.cpp | static const u16 sqrt_evenadjust[] *)
Definition sqrt_evenadjust : list Z := [
  0x0a2d; 0x08af; 0x075a; 0x0629; 0x051a; 0x0429; 0x0356; 0x029e;
  0x0200; 0x0179; 0x0109; 0x00af; 0x0068; 0x0034; 0x0012; 0x0002 ].

(** The last division of [vfp_estimate_sqrt_significand]. *)
(* src: vfpsingle.cpp | u64 v = (u64)a << 31; | vfp_estimate_sqrt_significand | +3 *)
Definition sqrt_refine (a z : Z) : Z :=
  u32 (u64 (u64 (a ≪ 31) / z + (z ≫ 1))).

(* src: vfpsingle.cpp *)
Definition vfp_estimate_sqrt_significand (exponent significand : Z) : Z :=
  let a := u32 (significand ≪ 1) in
  let index := Z.to_nat ((a ≫ 27) .& 15) in
  if nz (exponent .& 1) then
    let z := u32 (0x4000 + (a ≫ 17) - rd sqrt_oddadjust index) in
    let z := u32 (u32 ((a / z) ≪ 14) + u32 (z ≪ 15)) in
    sqrt_refine (a ≫ 1) z
  else
    let z := u32 (0x8000 + (a ≫ 17) - rd sqrt_evenadjust index) in
    let z := u32 (a / z + z) in
    let z := if 0x20000 <=? z then 0xffff8000 else u32 (z ≪ 15) in
    if z <=? a then u32 (s32 a ≫ 1) else sqrt_refine a z.

(** The body of the correction loop of [vfp_single_fsqrt]. *)
(* src: vfpsingle.cpp | while (rem < 0) { | vfp_single_fsqrt *)
Definition fsqrt_adjust (st : Z * Z) : Z * Z + Z * Z :=
  let '(significand, rem) := st in
  if rem <? 0 then
    let significand := u32 (significand - 1) in
    inl (significand, s64 (rem + (u64 (significand ≪ 1) .| 1)))
  else inr (significand, rem).

(** The "And now adjust" block. *)
(* src: vfpsingle.cpp | if ((vsd.significand & VFP_SINGLE_LOW_BITS_MASK) <= 5) { | vfp_single_fsqrt *)
Definition fsqrt_correct (vsd_significand vsm_exponent vsm_significand : Z) : option Z :=
  if (vsd_significand .& VFP_SINGLE_LOW_BITS_MASK) <=? 5 then
    if vsd_significand <? 2 then Some 0xffffffff
    else
      let vsm_significand :=
        u32 (vsm_significand ≪ Z.b2z ((vsm_exponent .& 1) =? 0)) in
      let term := u64 (vsd_significand * vsd_significand) in
      let rem := s64 (u64 (u64 (vsm_significand ≪ 32) - term)) in
      '(vsd_significand, rem) ← loop_result (loop 32 fsqrt_adjust (vsd_significand, rem));
      Some (vsd_significand .| Z.b2z (nz rem))
  else Some vsd_significand.

(* src: vfpsingle.cpp *)
Definition vfp_single_fsqrt (state : ARMul_State) (sd unused m fpscr : Z)
    : option (ARMul_State * Z) :=
  let put vsp := vfp_put_float state (vfp_single_pack vsp) sd in
  let '(vsm, exceptions) := vfp_single_unpack m fpscr in
  let sqrt_copy := Some (put vsm, 0) in
  let sqrt_invalid := Some (put vfp_single_default_qnan, FPSCR_IOC) in
  let tm := vfp_single_type vsm in
  if nz (tm .& (VFP_NAN .| VFP_INFINITY)) then
    if nz (tm .& VFP_NAN) then
      let '(vsp, ret) := vfp_propagate_nan vsm None fpscr in
      Some (put vsp, ret)
    else if vs_sign vsm =? 0 then sqrt_copy
    else sqrt_invalid
  else if nz (tm .& VFP_ZERO) then sqrt_copy
  else
    let vsm := if nz (tm .& VFP_DENORMAL) then vfp_single_normalise_denormal vsm else vsm in
    if nz (vs_sign vsm) then sqrt_invalid
    else
      let exponent := ((vs_exponent vsm - 127) ≫ 1) + 127 in
      let significand :=
        u32 (vfp_estimate_sqrt_significand (u32 (vs_exponent vsm)) (vs_significand vsm) + 2) in
      significand ← fsqrt_correct significand (vs_exponent vsm) (vs_significand vsm);
      let significand := vfp_shiftright32jamming significand 1 in
      let '(state, e) :=
        vfp_single_normaliseround state sd (VfpSingle (s16 exponent) 0 significand) fpscr 0 in
      Some (state, exceptions .| e).

(* src: vfpsingle.cpp *)
Definition vfp_compare (state : ARMul_State) (sd signal_on_qnan m fpscr : Z) : Z :=
  let d := vfp_get_float state sd in
  let nan v ret :=
    if (vfp_single_packed_exponent v =? 255) && nz (vfp_single_packed_mantissa v) then
      let ret := ret .| (FPSCR_CFLAG .| FPSCR_VFLAG) in
      if nz signal_on_qnan
         || negb (nz (vfp_single_packed_mantissa v .& (1 ≪ (VFP_SINGLE_MANTISSA_BITS - 1))))
      then ret .| FPSCR_IOC else ret
    else ret in
  let ret := nan d (nan m 0) in
  if ret =? 0 then
    if (d =? m) || (vfp_single_packed_abs (d .| m) =? 0) then FPSCR_ZFLAG .| FPSCR_CFLAG
    else if nz (vfp_single_packed_sign (d .^ m)) then
      if nz (vfp_single_packed_sign d) then FPSCR_NFLAG else FPSCR_CFLAG
    else if xorb (nz (vfp_single_packed_sign d)) (d <? m) then FPSCR_NFLAG
    else if xorb (nz (vfp_single_packed_sign d)) (m <? d) then FPSCR_CFLAG
    else 0
  else ret.

(* src: vfpsingle.cpp *)
Definition vfp_single_fcmp (state : ARMul_State) (sd unused m fpscr : Z) : ARMul_State * Z :=
  (state, vfp_compare state sd 0 m fpscr).

(* src: vfpsingle.cpp *)
Definition vfp_single_fcmpe (state : ARMul_State) (sd unused m fpscr : Z) : ARMul_State * Z :=
  (state, vfp_compare state sd 1 m fpscr).

(* src: vfpsingle.cpp *)
Definition vfp_single_fcmpz (state : ARMul_State) (sd unused m fpscr : Z) : ARMul_State * Z :=
  (state, vfp_compare state sd 0 0 fpscr).

(* src: vfpsingle.cpp *)
Definition vfp_single_fcmpez (state : ARMul_State) (sd unused m fpscr : Z) : ARMul_State * Z :=
  (state, vfp_compare state sd 1 0 fpscr).

(* src: vfpsingle.cpp *)
Definition vfp_single_fcvtd (state : ARMul_State) (dd unused m fpscr : Z) : ARMul_State * Z :=
  let '(vsm, exceptions) := vfp_single_unpack m fpscr in
  let tm := vfp_single_type vsm in
  let exceptions := if tm =? VFP_SNAN then exceptions .| FPSCR_IOC else exceptions in
  let vsm := if nz (tm .& VFP_DENORMAL) then vfp_single_normalise_denormal vsm else vsm in
  let sign := vs_sign vsm in
  let significand := u64 (vs_significand vsm ≪ 32) in
  if nz (tm .& (VFP_INFINITY .| VFP_NAN)) then
    let significand :=
      if tm =? VFP_QNAN then significand .| VFP_DOUBLE_SIGNIFICAND_QNAN else significand in
    (vfp_put_double state (u64 (vfp_double_pack (VfpDouble 2047 sign significand))) dd,
     exceptions)
  else
    let exponent :=
      if nz (tm .& VFP_ZERO) then 0 else s16 (vs_exponent vsm + (1023 - 127)) in
    vfp_double_normaliseround state dd (VfpDouble exponent sign significand) fpscr exceptions.

(* src: vfpsingle.cpp *)
Definition vfp_single_fuito (state : ARMul_State) (sd unused m fpscr : Z) : ARMul_State * Z :=
  vfp_single_normaliseround state sd (VfpSingle (127 + 31 - 1) 0 (u32 m)) fpscr 0.

(* src: vfpsingle.cpp *)
Definition vfp_single_fsito (state : ARMul_State) (sd unused m fpscr : Z) : ARMul_State * Z :=
  let sign := u16 ((u32 m .& 0x80000000) ≫ 16) in
  let significand := if nz sign then u32 (- m) else u32 m in
  vfp_single_normaliseround state sd (VfpSingle (127 + 31 - 1) sign significand) fpscr 0.

(** The carry of the float-to-integer rounding, common to [ftoui] and [ftosi]:
    the remainder is compared with a half, or with anything above zero. *)
(* src: vfpsingle.cpp | if (rmode == FPSCR_ROUND_NEAREST) { #2 | vfp_single_ftoui | +9 *)
Definition ftoi_incr (rmode sign d : Z) : Z :=
  if rmode =? FPSCR_ROUND_NEAREST then
    if (d .& 1) =? 0 then 0x80000000 - 1 else 0x80000000
  else if rmode =? FPSCR_ROUND_TOZERO then 0
  else if xorb (rmode =? FPSCR_ROUND_PLUSINF) (nz sign) then unot 32 0
  else 0.

(* src: vfpsingle.cpp *)
Definition vfp_single_ftoui (state : ARMul_State) (sd unused m fpscr : Z) : ARMul_State * Z :=
  let rmode := fpscr .& FPSCR_RMODE_MASK in
  let '(vsm, exceptions) := vfp_single_unpack m fpscr in
  let tm := vfp_single_type vsm in
  let exceptions := if nz (tm .& VFP_DENORMAL) then exceptions .| FPSCR_IDC else exceptions in
  let sign := if nz (tm .& VFP_NAN) then 1 else vs_sign vsm in
  let exponent := vs_exponent vsm in
  let significand := vs_significand vsm in
  let '(d, exceptions) :=
    if 127 + 32 <=? exponent then
      (if nz sign then 0 else 0xffffffff, exceptions .| FPSCR_IOC)
    else if 127 <=? exponent then
      let shift := 127 + 31 - exponent in
      let d := u32 (significand ≪ 1) ≫ shift in
      let rem := if 0 <? shift then u32 (u32 (significand ≪ 1) ≪ (32 - shift)) else 0 in
      let incr := ftoi_incr rmode sign d in
      let '(d, exceptions) :=
        if u32 (rem + incr) <? rem then
          if d <? 0xffffffff then (d + 1, exceptions) else (d, exceptions .| FPSCR_IOC)
        else (d, exceptions) in
      if nz d && nz sign then (0, exceptions .| FPSCR_IOC)
      else if nz rem then (d, exceptions .| FPSCR_IXC)
      else (d, exceptions)
    else if nz (exponent .| significand) then
      if rmode =? FPSCR_ROUND_NEAREST then
        if 126 <=? exponent then
          (if nz sign then 0 else 1,
           exceptions .| (if nz sign then FPSCR_IOC else FPSCR_IXC))
        else (0, exceptions .| FPSCR_IXC)
      else if (rmode =? FPSCR_ROUND_PLUSINF) && (sign =? 0) then (1, exceptions .| FPSCR_IXC)
      else if rmode =? FPSCR_ROUND_MINUSINF then
        (0, exceptions .| (if nz sign then FPSCR_IOC else FPSCR_IXC))
      else (0, exceptions .| FPSCR_IXC)
    else (0, exceptions) in
  (vfp_put_float state d sd, exceptions).

(* src: vfpsingle.cpp *)
Definition vfp_single_ftouiz (state : ARMul_State) (sd unused m fpscr : Z) : ARMul_State * Z :=
  vfp_single_ftoui state sd unused m
    ((fpscr .& unot 32 FPSCR_RMODE_MASK) .| FPSCR_ROUND_TOZERO).

(* src: vfpsingle.cpp *)
Definition vfp_single_ftosi (state : ARMul_State) (sd unused m fpscr : Z) : ARMul_State * Z :=
  let rmode := fpscr .& FPSCR_RMODE_MASK in
  let '(vsm, exceptions) := vfp_single_unpack m fpscr in
  let tm := vfp_single_type vsm in
  let exceptions := if nz (tm .& VFP_DENORMAL) then exceptions .| FPSCR_IDC else exceptions in
  let sign := vs_sign vsm in
  let exponent := vs_exponent vsm in
  let significand := vs_significand vsm in
  let '(d, exceptions) :=
    if nz (tm .& VFP_NAN) then (0, exceptions .| FPSCR_IOC)
    else if 127 + 31 <=? exponent then
      (if nz sign then unot 32 0x7fffffff else 0x7fffffff, exceptions .| FPSCR_IOC)
    else if 127 <=? exponent then
      let shift := 127 + 31 - exponent in
      let d := u32 (significand ≪ 1) ≫ shift in
      let rem := u32 (u32 (significand ≪ 1) ≪ (32 - shift)) in
      let incr := ftoi_incr rmode sign d in
      let d := if (u32 (rem + incr) <? rem) && (d <? 0xffffffff) then d + 1 else d in
      let limit := 0x7fffffff + Z.b2z (nz sign) in
      let '(d, exceptions) :=
        if limit <? d then (limit, exceptions .| FPSCR_IOC)
        else if nz rem then (d, exceptions .| FPSCR_IXC)
        else (d, exceptions) in
      (if nz sign then u32 (unot 32 d + 1) else d, exceptions)
    else if nz (exponent .| significand) then
      let exceptions := exceptions .| FPSCR_IXC in
      if rmode =? FPSCR_ROUND_NEAREST then
        (if 126 <=? exponent then if nz sign then 0xffffffff else 1 else 0, exceptions)
      else if (rmode =? FPSCR_ROUND_PLUSINF) && (sign =? 0) then (1, exceptions)
      else if (rmode =? FPSCR_ROUND_MINUSINF) && nz sign then (0xffffffff, exceptions)
      else (0, exceptions)
    else (0, exceptions) in
  (vfp_put_float state d sd, exceptions).

(* src: vfpsingle.cpp *)
Definition vfp_single_ftosiz (state : ARMul_State) (sd unused m fpscr : Z) : ARMul_State * Z :=
  vfp_single_ftosi state sd unused m
    ((fpscr .& unot 32 FPSCR_RMODE_MASK) .| FPSCR_ROUND_TOZERO).

(** * Arithmetic on unpacked operands *)

(* src: vfpsingle.cpp *)
Definition vfp_single_fadd_nonnumber (vsn vsm : vfp_single) (fpscr : Z) : vfp_single * Z :=
  let tn := vfp_single_type vsn in
  let tm := vfp_single_type vsm in
  if nz (tn .& tm .& VFP_INFINITY) then
    if nz (vs_sign vsn .^ vs_sign vsm) then (vfp_single_default_qnan, FPSCR_IOC)
    else (vsn, 0)
  else if nz (tn .& VFP_INFINITY) && nz (tm .& VFP_NUMBER) then (vsn, 0)
  else vfp_propagate_nan vsn (Some vsm) fpscr.

(* src: vfpsingle.cpp *)
Definition vfp_single_add (vsn vsm : vfp_single) (fpscr : Z) : vfp_single * Z :=
  let '(vsn, vsm) :=
    if vs_exponent vsn <? vs_exponent vsm then (vsm, vsn) else (vsn, vsm) in
  if vs_exponent vsn =? 255 then vfp_single_fadd_nonnumber vsn vsm fpscr
  else
    let exp_diff := u32 (vs_exponent vsn - vs_exponent vsm) in
    let m_sig := vfp_shiftright32jamming (vs_significand vsm) exp_diff in
    if nz (vs_sign vsn .^ vs_sign vsm) then
      let m_sig := u32 (vs_significand vsn - m_sig) in
      if s32 m_sig <? 0 then
        (VfpSingle (vs_exponent vsn) (vfp_sign_negate (vs_sign vsn)) (u32 (unot 32 m_sig + 1)), 0)
      else if m_sig =? 0 then
        (VfpSingle (vs_exponent vsn)
           (if (fpscr .& FPSCR_RMODE_MASK) =? FPSCR_ROUND_MINUSINF then 0x8000 else 0) 0, 0)
      else (VfpSingle (vs_exponent vsn) (vs_sign vsn) m_sig, 0)
    else
      (VfpSingle (vs_exponent vsn) (vs_sign vsn) (u32 (vs_significand vsn + m_sig)), 0).

(* src: vfpsingle.cpp *)
Definition vfp_single_multiply (vsn vsm : vfp_single) (fpscr : Z) : vfp_single * Z :=
  let '(vsn, vsm) :=
    if vs_exponent vsn <? vs_exponent vsm then (vsm, vsn) else (vsn, vsm) in
  let sign := vs_sign vsn .^ vs_sign vsm in
  if vs_exponent vsn =? 255 then
    if nz (vs_significand vsn) || ((vs_exponent vsm =? 255) && nz (vs_significand vsm))
    then vfp_propagate_nan vsn (Some vsm) fpscr
    else if (vs_exponent vsm .| vs_significand vsm) =? 0
    then (vfp_single_default_qnan, FPSCR_IOC)
    else (VfpSingle (vs_exponent vsn) sign 0, 0)
  else if (vs_exponent vsm .| vs_significand vsm) =? 0 then (VfpSingle 0 sign 0, 0)
  else
    (VfpSingle (s16 (vs_exponent vsn + vs_exponent vsm - 127 + 2)) sign
       (vfp_hi64to32jamming (u64 (vs_significand vsn * vs_significand vsm))), 0).

(* src: vfpsingle.cpp *)
Definition NEG_MULTIPLY : Z := 1 ≪ 0.
(* src: vfpsingle.cpp *)
Definition NEG_SUBTRACT : Z := 1 ≪ 1.

(** Unpack an operand and normalise it when it is denormal: the sequence that
    opens every arithmetic operation. *)
(* src: vfpsingle.cpp | exceptions |= vfp_single_unpack(&vsn, n, fpscr); #3 | vfp_single_fadd | +3 *)
Definition single_operand (val fpscr : Z) : vfp_single * Z :=
  let '(vs, exceptions) := vfp_single_unpack val fpscr in
  (if (vs_exponent vs =? 0) && nz (vs_significand vs)
   then vfp_single_normalise_denormal vs else vs, exceptions).

(* src: vfpsingle.cpp *)
Definition vfp_single_multiply_accumulate (state : ARMul_State) (sd sn m fpscr negate : Z)
    : ARMul_State * Z :=
  let '(vsn, e1) := single_operand (vfp_get_float state sn) fpscr in
  let '(vsm, e2) := single_operand m fpscr in
  let '(vsp, e3) := vfp_single_multiply vsn vsm fpscr in
  let vsp :=
    if nz (negate .& NEG_MULTIPLY) then vsp<|vs_sign := vfp_sign_negate (vs_sign vsp)|>
    else vsp in
  let '(vsn, e4) := single_operand (vfp_get_float state sd) fpscr in
  let vsn :=
    if nz (negate .& NEG_SUBTRACT) then vsn<|vs_sign := vfp_sign_negate (vs_sign vsn)|>
    else vsn in
  let '(vsd, e5) := vfp_single_add vsn vsp fpscr in
  vfp_single_normaliseround state sd vsd fpscr (e1 .| e2 .| e3 .| e4 .| e5).

(** * Standard operations *)

(* src: vfpsingle.cpp *)
Definition vfp_single_fmac (state : ARMul_State) (sd sn m fpscr : Z) : ARMul_State * Z :=
  vfp_single_multiply_accumulate state sd sn m fpscr 0.

(* src: vfpsingle.cpp *)
Definition vfp_single_fnmac (state : ARMul_State) (sd sn m fpscr : Z) : ARMul_State * Z :=
  vfp_single_multiply_accumulate state sd sn m fpscr NEG_MULTIPLY.

(* src: vfpsingle.cpp *)
Definition vfp_single_fmsc (state : ARMul_State) (sd sn m fpscr : Z) : ARMul_State * Z :=
  vfp_single_multiply_accumulate state sd sn m fpscr NEG_SUBTRACT.

(* src: vfpsingle.cpp *)
Definition vfp_single_fnmsc (state : ARMul_State) (sd sn m fpscr : Z) : ARMul_State * Z :=
  vfp_single_multiply_accumulate state sd sn m fpscr (NEG_SUBTRACT .| NEG_MULTIPLY).

(* src: vfpsingle.cpp *)
Definition vfp_single_fmul (state : ARMul_State) (sd sn m fpscr : Z) : ARMul_State * Z :=
  let '(vsn, e1) := single_operand (vfp_get_float state sn) fpscr in
  let '(vsm, e2) := single_operand m fpscr in
  let '(vsd, e3) := vfp_single_multiply vsn vsm fpscr in
  vfp_single_normaliseround state sd vsd fpscr (e1 .| e2 .| e3).

(* src: vfpsingle.cpp *)
Definition vfp_single_fnmul (state : ARMul_State) (sd sn m fpscr : Z) : ARMul_State * Z :=
  let '(vsn, e1) := single_operand (vfp_get_float state sn) fpscr in
  let '(vsm, e2) := single_operand m fpscr in
  let '(vsd, e3) := vfp_single_multiply vsn vsm fpscr in
  let vsd := vsd<|vs_sign := vfp_sign_negate (vs_sign vsd)|> in
  vfp_single_normaliseround state sd vsd fpscr (e1 .| e2 .| e3).

(* src: vfpsingle.cpp *)
Definition vfp_single_fadd (state : ARMul_State) (sd sn m fpscr : Z) : ARMul_State * Z :=
  let '(vsn, e1) := single_operand (vfp_get_float state sn) fpscr in
  let '(vsm, e2) := single_operand m fpscr in
  let '(vsd, e3) := vfp_single_add vsn vsm fpscr in
  vfp_single_normaliseround state sd vsd fpscr (e1 .| e2 .| e3).

(* src: vfpsingle.cpp *)
Definition vfp_single_fsub (state : ARMul_State) (sd sn m fpscr : Z) : ARMul_State * Z :=
  let '(vsm, exceptions) := vfp_single_unpack m fpscr in
  let m := if nz (exceptions .& FPSCR_IDC) then vfp_single_pack vsm else m in
  let m := if m =? 0x7FC00000 then m else s32 (vfp_single_packed_negate m) in
  let '(state, e) := vfp_single_fadd state sd sn m fpscr in
  (state, e .| exceptions).

(* src: vfpsingle.cpp *)
Definition vfp_single_fdiv (state : ARMul_State) (sd sn m fpscr : Z) : ARMul_State * Z :=
  let '(vsn, e1) := vfp_single_unpack (vfp_get_float state sn) fpscr in
  let '(vsm, e2) := vfp_single_unpack m fpscr in
  let exceptions := e1 .| e2 in
  let sign := vs_sign vsn .^ vs_sign vsm in
  let tn := vfp_single_type vsn in
  let tm := vfp_single_type vsm in
  let pack vsd exceptions := (vfp_put_float state (vfp_single_pack vsd) sd, exceptions) in
  let nan n m :=
    let '(vsd, e) := vfp_propagate_nan n (Some m) fpscr in pack vsd (exceptions .| e) in
  let infinity exceptions := pack (VfpSingle 255 sign 0) exceptions in
  if nz (tn .& VFP_NAN) then nan vsn vsm
  else if nz (tm .& VFP_NAN) then nan vsm vsn
  else if nz (tm .& tn .& (VFP_INFINITY .| VFP_ZERO)) then
    (vfp_put_float state (vfp_single_pack vfp_single_default_qnan) sd, FPSCR_IOC)
  else if nz (tn .& VFP_INFINITY) then infinity exceptions
  else if nz (tm .& VFP_ZERO) then infinity (exceptions .| FPSCR_DZC)
  else if nz (tm .& VFP_INFINITY) || nz (tn .& VFP_ZERO) then pack (VfpSingle 0 sign 0) exceptions
  else
    let vsn := if nz (tn .& VFP_DENORMAL) then vfp_single_normalise_denormal vsn else vsn in
    let vsm := if nz (tm .& VFP_DENORMAL) then vfp_single_normalise_denormal vsm else vsm in
    let exponent := vs_exponent vsn - vs_exponent vsm + 127 - 1 in
    let m_sig := u32 (vs_significand vsm ≪ 1) in
    let n_sig := vs_significand vsn in
    let '(n_sig, exponent) :=
      if m_sig <=? u32 (2 * n_sig) then (n_sig ≫ 1, exponent + 1) else (n_sig, exponent) in
    let significand := u32 (u64 (n_sig ≪ 32) / m_sig) in
    let significand :=
      if (significand .& 0x3f) =? 0 then
        significand .| Z.b2z (negb (u64 (m_sig * significand) =? u64 (n_sig ≪ 32)))
      else significand in
    vfp_single_normaliseround state sd (VfpSingle (s16 exponent) sign significand) fpscr 0.

(** * Instruction dispatch *)

Definition fop : Type := ARMul_State -> Z -> Z -> Z -> Z -> option (ARMul_State * Z).
Definition total (f : ARMul_State -> Z -> Z -> Z -> Z -> ARMul_State * Z) : fop :=
  λ state sd sn m fpscr, Some (f state sd sn m fpscr).

(** [None] is a null entry of the table. *)
(* src: vfpsingle.cpp | static struct op fops_ext[] *)
Definition fops_ext : list (option fop * Z) := [
  (Some (total vfp_single_fcpy), 0);
  (Some (total vfp_single_fabs), 0);
  (Some (total vfp_single_fneg), 0);
  (Some vfp_single_fsqrt, 0);
  (None, 0); (None, 0); (None, 0); (None, 0);
  (Some (total vfp_single_fcmp), OP_SCALAR);
  (Some (total vfp_single_fcmpe), OP_SCALAR);
  (Some (total vfp_single_fcmpz), OP_SCALAR);
  (Some (total vfp_single_fcmpez), OP_SCALAR);
  (None, 0); (None, 0); (None, 0);
  (Some (total vfp_single_fcvtd), OP_SCALAR .| OP_DD);
  (Some (total vfp_single_fuito), OP_SCALAR);
  (Some (total vfp_single_fsito), OP_SCALAR);
  (None, 0); (None, 0); (None, 0); (None, 0); (None, 0); (None, 0);
  (Some (total vfp_single_ftoui), OP_SCALAR);
  (Some (total vfp_single_ftouiz), OP_SCALAR);
  (Some (total vfp_single_ftosi), OP_SCALAR);
  (Some (total vfp_single_ftosiz), OP_SCALAR) ].

(* src: vfpsingle.cpp | static struct op fops[] *)
Definition fops : list (option fop * Z) := [
  (Some (total vfp_single_fmac), 0); (Some (total vfp_single_fmsc), 0);
  (Some (total vfp_single_fmul), 0); (Some (total vfp_single_fadd), 0);
  (Some (total vfp_single_fnmac), 0); (Some (total vfp_single_fnmsc), 0);
  (Some (total vfp_single_fnmul), 0); (Some (total vfp_single_fsub), 0);
  (Some (total vfp_single_fdiv), 0) ].

(* src: vfpsingle.cpp *)
Definition FREG_BANK (x : Z) : Z := x .& 0x18.
(* src: vfpsingle.cpp *)
Definition FREG_IDX (x : Z) : Z := x .& 7.

(** One register number of a vector, advanced by the stride inside its bank. *)
(* src: vfpsingle.cpp | dest = FREG_BANK(dest) + ((FREG_IDX(dest) + vecstride) & 7); | vfp_single_cpdo *)
Definition next_reg (r vecstride : Z) : Z := FREG_BANK r + ((FREG_IDX r + vecstride) .& 7).

(** The vector loop: [n] iterations of [fn]. *)
(* src: vfpsingle.cpp | for (vecitr = 0; vecitr <= veclen; | vfp_single_cpdo *)
Fixpoint cpdo_loop (n : nat) (fn : fop) (state : ARMul_State)
    (dest sn sm vecstride fpscr exceptions : Z) : option (ARMul_State * Z) :=
  match n with
  | O => Some (state, exceptions)
  | S n =>
      '(state, except) ← fn state dest sn (vfp_get_float state sm) fpscr;
      let exceptions := exceptions .| (except .& unot 32 VFP_NAN_FLAG) in
      cpdo_loop n fn state (next_reg dest vecstride) (next_reg sn vecstride)
        (if nz (FREG_BANK sm) then next_reg sm vecstride else sm)
        vecstride fpscr exceptions
  end.

(** [None] is an instruction outside the tables: an index past the end of
    [fops_ext] or [fops] (undefined in C), or a null entry ([Crash]). *)
(* src: vfpsingle.cpp *)
Definition vfp_single_cpdo (state : ARMul_State) (inst fpscr : Z) : option (ARMul_State * Z) :=
  let op := inst .& FOP_MASK in
  let sn := vfp_get_sn inst in
  let sm := vfp_get_sm inst in
  let vecstride := 1 + Z.b2z ((fpscr .& FPSCR_STRIDE_MASK) =? FPSCR_STRIDE_MASK) in
  '(fn, flags) ← (if op =? FOP_EXT then fops_ext !! Z.to_nat (FEXT_TO_IDX inst)
                  else fops !! Z.to_nat (FOP_TO_IDX op));
  let dest := if nz (flags .& OP_DD) then vfp_get_dd inst else vfp_get_sd inst in
  let veclen :=
    if nz (flags .& OP_SCALAR) || (FREG_BANK dest =? 0) then 0
    else fpscr .& FPSCR_LENGTH_MASK in
  fn ← fn;
  cpdo_loop (Z.to_nat (veclen ≫ FPSCR_LENGTH_BIT) + 1) fn state dest sn sm vecstride fpscr 0.
