(* ===== verification/VfpDouble.v ===== *)
(** Double-precision VFP data processing: [vfpdouble.cpp].

    As in VfpSingle, an operation takes the processor state and returns the
    new state and the exception bits; here the last operand is a register
    number.  An operation is partial when it uses [vfp_estimate_div128to64]. *)

From S2P Require Import Prelude VfpHelper ArmState Vfp VfpRound VfpSingle.

(* src: vfpdouble.cpp | static struct vfp_double vfp_double_default_qnan *)
Definition vfp_double_default_qnan : vfp_double :=
  VfpDouble 2047 0 VFP_DOUBLE_SIGNIFICAND_QNAN.

(* src: vfpdouble.cpp | static u32 vfp_propagate_nan( | vfp_propagate_nan *)
Definition double_propagate_nan (vdn : vfp_double) (vdm : option vfp_double) (fpscr : Z)
    : vfp_double * Z :=
  let tn := vfp_double_type vdn in
  let tm := match vdm with Some vdm => vfp_double_type vdm | None => 0 end in
  let nan :=
    if nz (fpscr .& FPSCR_DEFAULT_NAN) then vfp_double_default_qnan
    else
      let nan :=
        if (tn =? VFP_SNAN) || (negb (tm =? VFP_SNAN) && (tn =? VFP_QNAN)) then vdn
        else default vdn vdm in
      nan<|vd_significand := vd_significand nan .| VFP_DOUBLE_SIGNIFICAND_QNAN|> in
  (nan, if (tn =? VFP_SNAN) || (tm =? VFP_SNAN) then FPSCR_IOC else VFP_NAN_FLAG).

(** [vfp_put_double] of a packed operand. *)
Definition put_packed (state : ARMul_State) (vd : vfp_double) (dd : Z) : ARMul_State :=
  vfp_put_double state (u64 (vfp_double_pack vd)) dd.

(** * Extended operations *)

(* src: vfpdouble.cpp *)
Definition vfp_double_fabs (state : ARMul_State) (dd unused dm fpscr : Z) : ARMul_State * Z :=
  (vfp_put_double state (vfp_double_packed_abs (vfp_get_double state dm)) dd, 0).

(* src: vfpdouble.cpp *)
Definition vfp_double_fcpy (state : ARMul_State) (dd unused dm fpscr : Z) : ARMul_State * Z :=
  (vfp_put_double state (vfp_get_double state dm) dd, 0).

(* src: vfpdouble.cpp *)
Definition vfp_double_fneg (state : ARMul_State) (dd unused dm fpscr : Z) : ARMul_State * Z :=
  (vfp_put_double state (vfp_double_packed_negate (vfp_get_double state dm)) dd, 0).

(** The body of the correction loop of [vfp_double_fsqrt]. *)
(* src: vfpdouble.cpp | while ((s64)remh < 0) { #1 | vfp_double_fsqrt *)
Definition double_fsqrt_adjust (st : Z * Z * Z) : Z * Z * Z + Z * Z * Z :=
  let '(significand, remh, reml) := st in
  if s64 remh <? 0 then
    let significand := u64 (significand - 1) in
    let '(termh, terml) := shift64left significand in
    let terml := terml .| 1 in
    let '(remh, reml) := add128 remh reml termh terml in
    inl (significand, remh, reml)
  else inr (significand, remh, reml).

(** The "And now adjust" block. *)
(* src: vfpdouble.cpp | if ((vdd.significand & VFP_DOUBLE_LOW_BITS_MASK) <= 5) { | vfp_double_fsqrt *)
Definition double_fsqrt_correct (vdd_significand vdm_significand : Z) : option Z :=
  if (vdd_significand .& VFP_DOUBLE_LOW_BITS_MASK) <=? 5 then
    if vdd_significand <? 2 then Some (unot 64 0)
    else
      let vdm_significand := u64 (vdm_significand ≪ 2) in
      let '(termh, terml) := mul64to128 vdd_significand vdd_significand in
      let '(remh, reml) := sub128 vdm_significand 0 termh terml in
      '(vdd_significand, remh, reml) ←
        loop_result (loop 64 double_fsqrt_adjust (vdd_significand, remh, reml));
      Some (vdd_significand .| Z.b2z (nz (remh .| reml)))
  else Some vdd_significand.

(* src: vfpdouble.cpp *)
Definition vfp_double_fsqrt (state : ARMul_State) (dd unused dm fpscr : Z)
    : option (ARMul_State * Z) :=
  let '(vdm, exceptions) := vfp_double_unpack (vfp_get_double state dm) fpscr in
  let sqrt_copy := Some (put_packed state vdm dd, 0) in
  let sqrt_invalid := Some (put_packed state vfp_double_default_qnan dd, FPSCR_IOC) in
  let tm := vfp_double_type vdm in
  if nz (tm .& (VFP_NAN .| VFP_INFINITY)) then
    if nz (tm .& VFP_NAN) then
      let '(vdp, ret) := double_propagate_nan vdm None fpscr in
      Some (put_packed state vdp dd, ret)
    else if vd_sign vdm =? 0 then sqrt_copy
    else sqrt_invalid
  else if nz (tm .& VFP_ZERO) then sqrt_copy
  else
    let vdm := if nz (tm .& VFP_DENORMAL) then vfp_double_normalise_denormal vdm else vdm in
    if nz (vd_sign vdm) then sqrt_invalid
    else
      let exponent := ((vd_exponent vdm - 1023) ≫ 1) + 1023 in
      let significand :=
        u64 (vfp_estimate_sqrt_significand (u32 (vd_exponent vdm))
               (u32 (vd_significand vdm ≫ 32)) ≪ 31) in
      let m_sig := vd_significand vdm ≫ (1 + (vd_exponent vdm .& 1)) in
      quotient ← vfp_estimate_div128to64 m_sig 0 significand;
      let significand := u64 (significand + u64 (2 + quotient)) in
      significand ← double_fsqrt_correct significand m_sig;
      let significand := vfp_shiftright64jamming significand 1 in
      let '(state, e) :=
        vfp_double_normaliseround state dd (VfpDouble (s16 exponent) 0 significand) fpscr 0 in
      Some (state, exceptions .| e).

(* src: vfpdouble.cpp | static u32 vfp_compare( | vfp_compare *)
Definition double_compare (state : ARMul_State) (dd signal_on_qnan m fpscr : Z) : Z :=
  let nan v ret :=
    if (vfp_double_packed_exponent v =? 2047) && nz (vfp_double_packed_mantissa v) then
      let ret := ret .| (FPSCR_CFLAG .| FPSCR_VFLAG) in
      if nz signal_on_qnan
         || negb (nz (vfp_double_packed_mantissa v .& (1 ≪ (VFP_DOUBLE_MANTISSA_BITS - 1))))
      then ret .| FPSCR_IOC else ret
    else ret in
  let d := s64 (vfp_get_double state dd) in
  let ret := nan d (nan m 0) in
  if ret =? 0 then
    if (d =? m) || (vfp_double_packed_abs (d .| m) =? 0) then FPSCR_ZFLAG .| FPSCR_CFLAG
    else if nz (vfp_double_packed_sign (d .^ m)) then
      if nz (vfp_double_packed_sign d) then FPSCR_NFLAG else FPSCR_CFLAG
    else if xorb (nz (vfp_double_packed_sign d)) (d <? m) then FPSCR_NFLAG
    else if xorb (nz (vfp_double_packed_sign d)) (m <? d) then FPSCR_CFLAG
    else 0
  else ret.

(* src: vfpdouble.cpp *)
Definition vfp_double_fcmp (state : ARMul_State) (dd unused dm fpscr : Z) : ARMul_State * Z :=
  (state, double_compare state dd 0 (s64 (vfp_get_double state dm)) fpscr).

(* src: vfpdouble.cpp *)
Definition vfp_double_fcmpe (state : ARMul_State) (dd unused dm fpscr : Z) : ARMul_State * Z :=
  (state, double_compare state dd 1 (s64 (vfp_get_double state dm)) fpscr).

(* src: vfpdouble.cpp *)
Definition vfp_double_fcmpz (state : ARMul_State) (dd unused dm fpscr : Z) : ARMul_State * Z :=
  (state, double_compare state dd 0 0 fpscr).

(* src: vfpdouble.cpp *)
Definition vfp_double_fcmpez (state : ARMul_State) (dd unused dm fpscr : Z) : ARMul_State * Z :=
  (state, double_compare state dd 1 0 fpscr).

(* src: vfpdouble.cpp *)
Definition vfp_double_fcvts (state : ARMul_State) (sd unused dm fpscr : Z) : ARMul_State * Z :=
  let '(vdm, exceptions) := vfp_double_unpack (vfp_get_double state dm) fpscr in
  let tm := vfp_double_type vdm in
  let exceptions := if tm =? VFP_SNAN then FPSCR_IOC else exceptions in
  let vdm := if nz (tm .& VFP_DENORMAL) then vfp_double_normalise_denormal vdm else vdm in
  let sign := vd_sign vdm in
  let significand := vfp_hi64to32jamming (vd_significand vdm) in
  if nz (tm .& (VFP_INFINITY .| VFP_NAN)) then
    let significand :=
      if tm =? VFP_QNAN then significand .| VFP_SINGLE_SIGNIFICAND_QNAN else significand in
    (vfp_put_float state (vfp_single_pack (VfpSingle 255 sign significand)) sd, exceptions)
  else
    let exponent :=
      if nz (tm .& VFP_ZERO) then 0 else s16 (vd_exponent vdm - (1023 - 127)) in
    vfp_single_normaliseround state sd (VfpSingle exponent sign significand) fpscr exceptions.

(* src: vfpdouble.cpp *)
Definition vfp_double_fuito (state : ARMul_State) (dd unused dm fpscr : Z) : ARMul_State * Z :=
  let m := u32 (vfp_get_float state dm) in
  vfp_double_normaliseround state dd (VfpDouble (1023 + 63 - 1) 0 m) fpscr 0.

(* src: vfpdouble.cpp *)
Definition vfp_double_fsito (state : ARMul_State) (dd unused dm fpscr : Z) : ARMul_State * Z :=
  let m := u32 (vfp_get_float state dm) in
  let sign := u16 ((m .& 0x80000000) ≫ 16) in
  let significand := if nz sign then u32 (unot 32 m + 1) else m in
  vfp_double_normaliseround state dd (VfpDouble (1023 + 63 - 1) sign significand) fpscr 0.

(* src: vfpdouble.cpp | if (rmode == FPSCR_ROUND_NEAREST) { #2 | vfp_double_ftoui | +9 *)
Definition double_ftoi_incr (rmode sign d : Z) : Z :=
  if rmode =? FPSCR_ROUND_NEAREST then
    if (d .& 1) =? 0 then 0x8000000000000000 - 1 else 0x8000000000000000
  else if rmode =? FPSCR_ROUND_TOZERO then 0
  else if xorb (rmode =? FPSCR_ROUND_PLUSINF) (nz sign) then unot 64 0
  else 0.

(* src: vfpdouble.cpp *)
Definition vfp_double_ftoui (state : ARMul_State) (sd unused dm fpscr : Z) : ARMul_State * Z :=
  let rmode := fpscr .& FPSCR_RMODE_MASK in
  let '(vdm, exceptions) := vfp_double_unpack (vfp_get_double state dm) fpscr in
  let tm := vfp_double_type vdm in
  let exceptions := if nz (tm .& VFP_DENORMAL) then exceptions .| FPSCR_IDC else exceptions in
  let sign := if nz (tm .& VFP_NAN) then 1 else vd_sign vdm in
  let exponent := vd_exponent vdm in
  let significand := vd_significand vdm in
  let '(d, exceptions) :=
    if 1023 + 32 <=? exponent then (if nz sign then 0 else 0xffffffff, FPSCR_IOC)
    else if 1023 <=? exponent then
      let shift := 1023 + 63 - exponent in
      let d := u32 (u64 (significand ≪ 1) ≫ shift) in
      let rem := u64 (significand ≪ (65 - shift)) in
      let incr := double_ftoi_incr rmode sign d in
      let '(d, exceptions) :=
        if u64 (rem + incr) <? rem then
          if d <? 0xffffffff then (d + 1, exceptions) else (d, exceptions .| FPSCR_IOC)
        else (d, exceptions) in
      if nz d && nz sign then (0, exceptions .| FPSCR_IOC)
      else if nz rem then (d, exceptions .| FPSCR_IXC)
      else (d, exceptions)
    else if nz (exponent .| significand) then
      if rmode =? FPSCR_ROUND_NEAREST then
        if 1022 <=? exponent then
          (if nz sign then 0 else 1,
           exceptions .| (if nz sign then FPSCR_IOC else FPSCR_IXC))
        else (0, exceptions .| FPSCR_IXC)
      else if (rmode =? FPSCR_ROUND_PLUSINF) && (sign =? 0) then (1, exceptions .| FPSCR_IXC)
      else if rmode =? FPSCR_ROUND_MINUSINF then
        (0, exceptions .| (if nz sign then FPSCR_IOC else FPSCR_IXC))
      else (0, exceptions .| FPSCR_IXC)
    else (0, exceptions) in
  (vfp_put_float state d sd, exceptions).

(* src: vfpdouble.cpp *)
Definition vfp_double_ftouiz (state : ARMul_State) (sd unused dm fpscr : Z) : ARMul_State * Z :=
  vfp_double_ftoui state sd unused dm
    ((fpscr .& unot 32 FPSCR_RMODE_MASK) .| FPSCR_ROUND_TOZERO).

(* src: vfpdouble.cpp *)
Definition vfp_double_ftosi (state : ARMul_State) (sd unused dm fpscr : Z) : ARMul_State * Z :=
  let rmode := fpscr .& FPSCR_RMODE_MASK in
  let '(vdm, exceptions) := vfp_double_unpack (vfp_get_double state dm) fpscr in
  let tm := vfp_double_type vdm in
  let exceptions := if nz (tm .& VFP_DENORMAL) then exceptions .| FPSCR_IDC else exceptions in
  let sign := vd_sign vdm in
  let exponent := vd_exponent vdm in
  let significand := vd_significand vdm in
  let '(d, exceptions) :=
    if nz (tm .& VFP_NAN) then (0, exceptions .| FPSCR_IOC)
    else if 1023 + 31 <=? exponent then
      (if nz sign then unot 32 0x7fffffff else 0x7fffffff, exceptions .| FPSCR_IOC)
    else if 1023 <=? exponent then
      let shift := 1023 + 63 - exponent in
      let d := u32 (u64 (significand ≪ 1) ≫ shift) in
      let rem := u64 (significand ≪ (65 - shift)) in
      let incr := double_ftoi_incr rmode sign d in
      let d := if (u64 (rem + incr) <? rem) && (d <? 0xffffffff) then d + 1 else d in
      let limit := 0x7fffffff + Z.b2z (nz sign) in
      let '(d, exceptions) :=
        if limit <? d then (limit, exceptions .| FPSCR_IOC)
        else if nz rem then (d, exceptions .| FPSCR_IXC)
        else (d, exceptions) in
      (if nz sign then u32 (unot 32 d + 1) else d, exceptions)
    else if nz (exponent .| significand) then
      let exceptions := exceptions .| FPSCR_IXC in
      if rmode =? FPSCR_ROUND_NEAREST then
        (if 1022 <=? exponent then if nz sign then 0xffffffff else 1 else 0, exceptions)
      else if (rmode =? FPSCR_ROUND_PLUSINF) && (sign =? 0) then (1, exceptions)
      else if (rmode =? FPSCR_ROUND_MINUSINF) && nz sign then (0xffffffff, exceptions)
      else (0, exceptions)
    else (0, exceptions) in
  (vfp_put_float state d sd, exceptions).

(* src: vfpdouble.cpp *)
Definition vfp_double_ftosiz (state : ARMul_State) (sd unused dm fpscr : Z) : ARMul_State * Z :=
  vfp_double_ftosi state sd unused dm
    ((fpscr .& unot 32 FPSCR_RMODE_MASK) .| FPSCR_ROUND_TOZERO).

(** * Arithmetic on unpacked operands *)

(* src: vfpdouble.cpp *)
Definition vfp_double_fadd_nonnumber (vdn vdm : vfp_double) (fpscr : Z) : vfp_double * Z :=
  let tn := vfp_double_type vdn in
  let tm := vfp_double_type vdm in
  if nz (tn .& tm .& VFP_INFINITY) then
    if nz (vd_sign vdn .^ vd_sign vdm) then (vfp_double_default_qnan, FPSCR_IOC)
    else (vdn, 0)
  else if nz (tn .& VFP_INFINITY) && nz (tm .& VFP_NUMBER) then (vdn, 0)
  else double_propagate_nan vdn (Some vdm) fpscr.

(* src: vfpdouble.cpp | u32 vfp_double_add( *)
Definition vfp_double_add (vdn vdm : vfp_double) (fpscr : Z) : vfp_double * Z :=
  let '(vdn, vdm) :=
    if vd_exponent vdn <? vd_exponent vdm then (vdm, vdn) else (vdn, vdm) in
  if vd_exponent vdn =? 2047 then vfp_double_fadd_nonnumber vdn vdm fpscr
  else
    let exp_diff := u32 (vd_exponent vdn - vd_exponent vdm) in
    let m_sig := vfp_shiftright64jamming (vd_significand vdm) exp_diff in
    if nz (vd_sign vdn .^ vd_sign vdm) then
      let m_sig := u64 (vd_significand vdn - m_sig) in
      if s64 m_sig <? 0 then
        (VfpDouble (vd_exponent vdn) (vfp_sign_negate (vd_sign vdn)) (u64 (unot 64 m_sig + 1)), 0)
      else if m_sig =? 0 then
        (VfpDouble (vd_exponent vdn)
           (if (fpscr .& FPSCR_RMODE_MASK) =? FPSCR_ROUND_MINUSINF then 0x8000 else 0) 0, 0)
      else (VfpDouble (vd_exponent vdn) (vd_sign vdn) m_sig, 0)
    else
      (VfpDouble (vd_exponent vdn) (vd_sign vdn) (u64 (m_sig + vd_significand vdn)), 0).

(* src: vfpdouble.cpp | u32 vfp_double_multiply( *)
Definition vfp_double_multiply (vdn vdm : vfp_double) (fpscr : Z) : vfp_double * Z :=
  let '(vdn, vdm) :=
    if vd_exponent vdn <? vd_exponent vdm then (vdm, vdn) else (vdn, vdm) in
  let sign := vd_sign vdn .^ vd_sign vdm in
  if vd_exponent vdn =? 2047 then
    if nz (vd_significand vdn) || ((vd_exponent vdm =? 2047) && nz (vd_significand vdm))
    then double_propagate_nan vdn (Some vdm) fpscr
    else if (vd_exponent vdm .| vd_significand vdm) =? 0
    then (vfp_double_default_qnan, FPSCR_IOC)
    else (VfpDouble (vd_exponent vdn) sign 0, 0)
  else if (vd_exponent vdm .| vd_significand vdm) =? 0 then (VfpDouble 0 sign 0, 0)
  else
    (VfpDouble (s16 (vd_exponent vdn + vd_exponent vdm - 1023 + 2)) sign
       (vfp_hi64multiply64 (vd_significand vdn) (vd_significand vdm)), 0).

(** Unpack a register and normalise it when it is denormal: the sequence that
    opens every arithmetic operation. *)
(* src: vfpdouble.cpp | exceptions |= vfp_double_unpack(&vdn, vfp_get_double(state, dn), fpscr); #4 | vfp_double_fadd | +3 *)
Definition double_operand (state : ARMul_State) (reg fpscr : Z) : vfp_double * Z :=
  let '(vd, exceptions) := vfp_double_unpack (vfp_get_double state reg) fpscr in
  (if (vd_exponent vd =? 0) && nz (vd_significand vd)
   then vfp_double_normalise_denormal vd else vd, exceptions).

Definition negate_double (vd : vfp_double) : vfp_double :=
  vd<|vd_sign := vfp_sign_negate (vd_sign vd)|>.

(* src: vfpdouble.cpp *)
Definition vfp_double_multiply_accumulate (state : ARMul_State) (dd dn dm fpscr negate : Z)
    : ARMul_State * Z :=
  let '(vdn, e1) := double_operand state dn fpscr in
  let '(vdm, e2) := double_operand state dm fpscr in
  let '(vdp, e3) := vfp_double_multiply vdn vdm fpscr in
  let vdp := if nz (negate .& NEG_MULTIPLY) then negate_double vdp else vdp in
  let '(vdn, e4) := double_operand state dd fpscr in
  let vdn := if nz (negate .& NEG_SUBTRACT) then negate_double vdn else vdn in
  let '(vdd, e5) := vfp_double_add vdn vdp fpscr in
  vfp_double_normaliseround state dd vdd fpscr (e1 .| e2 .| e3 .| e4 .| e5).

(** * Standard operations *)

(* src: vfpdouble.cpp *)
Definition vfp_double_fmac (state : ARMul_State) (dd dn dm fpscr : Z) : ARMul_State * Z :=
  vfp_double_multiply_accumulate state dd dn dm fpscr 0.

(* src: vfpdouble.cpp *)
Definition vfp_double_fnmac (state : ARMul_State) (dd dn dm fpscr : Z) : ARMul_State * Z :=
  vfp_double_multiply_accumulate state dd dn dm fpscr NEG_MULTIPLY.

(* src: vfpdouble.cpp *)
Definition vfp_double_fmsc (state : ARMul_State) (dd dn dm fpscr : Z) : ARMul_State * Z :=
  vfp_double_multiply_accumulate state dd dn dm fpscr NEG_SUBTRACT.

(* src: vfpdouble.cpp *)
Definition vfp_double_fnmsc (state : ARMul_State) (dd dn dm fpscr : Z) : ARMul_State * Z :=
  vfp_double_multiply_accumulate state dd dn dm fpscr (NEG_SUBTRACT .| NEG_MULTIPLY).

(* src: vfpdouble.cpp *)
Definition vfp_double_fmul (state : ARMul_State) (dd dn dm fpscr : Z) : ARMul_State * Z :=
  let '(vdn, e1) := double_operand state dn fpscr in
  let '(vdm, e2) := double_operand state dm fpscr in
  let '(vdd, e3) := vfp_double_multiply vdn vdm fpscr in
  vfp_double_normaliseround state dd vdd fpscr (e1 .| e2 .| e3).

(* src: vfpdouble.cpp *)
Definition vfp_double_fnmul (state : ARMul_State) (dd dn dm fpscr : Z) : ARMul_State * Z :=
  let '(vdn, e1) := double_operand state dn fpscr in
  let '(vdm, e2) := double_operand state dm fpscr in
  let '(vdd, e3) := vfp_double_multiply vdn vdm fpscr in
  vfp_double_normaliseround state dd (negate_double vdd) fpscr (e1 .| e2 .| e3).

(* src: vfpdouble.cpp *)
Definition vfp_double_fadd (state : ARMul_State) (dd dn dm fpscr : Z) : ARMul_State * Z :=
  let '(vdn, e1) := double_operand state dn fpscr in
  let '(vdm, e2) := double_operand state dm fpscr in
  let '(vdd, e3) := vfp_double_add vdn vdm fpscr in
  vfp_double_normaliseround state dd vdd fpscr (e1 .| e2 .| e3).

(* src: vfpdouble.cpp *)
Definition vfp_double_fsub (state : ARMul_State) (dd dn dm fpscr : Z) : ARMul_State * Z :=
  let '(vdn, e1) := double_operand state dn fpscr in
  let '(vdm, e2) := double_operand state dm fpscr in
  let '(vdd, e3) := vfp_double_add vdn (negate_double vdm) fpscr in
  vfp_double_normaliseround state dd vdd fpscr (e1 .| e2 .| e3).

(** The body of the correction loop of [vfp_double_fdiv]. *)
(* src: vfpdouble.cpp | while ((s64)remh < 0) { #2 | vfp_double_fdiv *)
Definition fdiv_adjust (m_sig : Z) (st : Z * Z * Z) : Z * Z * Z + Z * Z * Z :=
  let '(significand, remh, reml) := st in
  if s64 remh <? 0 then
    let significand := u64 (significand - 1) in
    let '(remh, reml) := add128 remh reml 0 m_sig in
    inl (significand, remh, reml)
  else inr (significand, remh, reml).

(** The quotient of the significands, corrected and with its sticky bit. *)
(* src: vfpdouble.cpp | vdd.significand = vfp_estimate_div128to64(vdn.significand, 0, vdm.significand); | vfp_double_fdiv | +11 *)
Definition fdiv_significand (n_sig m_sig : Z) : option Z :=
  significand ← vfp_estimate_div128to64 n_sig 0 m_sig;
  if (significand .& 0x1ff) <=? 2 then
    let '(termh, terml) := mul64to128 m_sig significand in
    let '(remh, reml) := sub128 n_sig 0 termh terml in
    '(significand, remh, reml) ←
      loop_result (loop 64 (fdiv_adjust m_sig) (significand, remh, reml));
    Some (significand .| Z.b2z (nz reml))
  else Some significand.

(* src: vfpdouble.cpp *)
Definition vfp_double_fdiv (state : ARMul_State) (dd dn dm fpscr : Z) : option (ARMul_State * Z) :=
  let '(vdn, e1) := vfp_double_unpack (vfp_get_double state dn) fpscr in
  let '(vdm, e2) := vfp_double_unpack (vfp_get_double state dm) fpscr in
  let exceptions := e1 .| e2 in
  let sign := vd_sign vdn .^ vd_sign vdm in
  let tn := vfp_double_type vdn in
  let tm := vfp_double_type vdm in
  let pack vdd exceptions := Some (put_packed state vdd dd, exceptions) in
  let nan n m :=
    let '(vdd, e) := double_propagate_nan n (Some m) fpscr in pack vdd (exceptions .| e) in
  let infinity exceptions := pack (VfpDouble 2047 sign 0) exceptions in
  if nz (tn .& VFP_NAN) then nan vdn vdm
  else if nz (tm .& VFP_NAN) then nan vdm vdn
  else if nz (tm .& tn .& (VFP_INFINITY .| VFP_ZERO)) then
    Some (put_packed state vfp_double_default_qnan dd, FPSCR_IOC)
  else if nz (tn .& VFP_INFINITY) then infinity exceptions
  else if nz (tm .& VFP_ZERO) then infinity (exceptions .| FPSCR_DZC)
  else if nz (tm .& VFP_INFINITY) || nz (tn .& VFP_ZERO) then pack (VfpDouble 0 sign 0) exceptions
  else
    let vdn := if nz (tn .& VFP_DENORMAL) then vfp_double_normalise_denormal vdn else vdn in
    let vdm := if nz (tm .& VFP_DENORMAL) then vfp_double_normalise_denormal vdm else vdm in
    let exponent := vd_exponent vdn - vd_exponent vdm + 1023 - 1 in
    let m_sig := u64 (vd_significand vdm ≪ 1) in
    let n_sig := vd_significand vdn in
    let '(n_sig, exponent) :=
      if m_sig <=? u64 (2 * n_sig) then (n_sig ≫ 1, exponent + 1) else (n_sig, exponent) in
    significand ← fdiv_significand n_sig m_sig;
    Some (vfp_double_normaliseround state dd (VfpDouble (s16 exponent) sign significand) fpscr 0).

(** * Instruction dispatch *)

(* src: vfpdouble.cpp | static struct op fops_ext[] | fops_ext *)
Definition double_fops_ext : list (option fop * Z) := [
  (Some (total vfp_double_fcpy), 0);
  (Some (total vfp_double_fabs), 0);
  (Some (total vfp_double_fneg), 0);
  (Some vfp_double_fsqrt, 0);
  (None, 0); (None, 0); (None, 0); (None, 0);
  (Some (total vfp_double_fcmp), OP_SCALAR);
  (Some (total vfp_double_fcmpe), OP_SCALAR);
  (Some (total vfp_double_fcmpz), OP_SCALAR);
  (Some (total vfp_double_fcmpez), OP_SCALAR);
  (None, 0); (None, 0); (None, 0);
  (Some (total vfp_double_fcvts), OP_SCALAR .| OP_DD);
  (Some (total vfp_double_fuito), OP_SCALAR .| OP_SM);
  (Some (total vfp_double_fsito), OP_SCALAR .| OP_SM);
  (None, 0); (None, 0); (None, 0); (None, 0); (None, 0); (None, 0);
  (Some (total vfp_double_ftoui), OP_SCALAR .| OP_SD);
  (Some (total vfp_double_ftouiz), OP_SCALAR .| OP_SD);
  (Some (total vfp_double_ftosi), OP_SCALAR .| OP_SD);
  (Some (total vfp_double_ftosiz), OP_SCALAR .| OP_SD) ].

(* src: vfpdouble.cpp | static struct op fops[] | fops *)
Definition double_fops : list (option fop * Z) := [
  (Some (total vfp_double_fmac), 0); (Some (total vfp_double_fmsc), 0);
  (Some (total vfp_double_fmul), 0); (Some (total vfp_double_fadd), 0);
  (Some (total vfp_double_fnmac), 0); (Some (total vfp_double_fnmsc), 0);
  (Some (total vfp_double_fnmul), 0); (Some (total vfp_double_fsub), 0);
  (Some vfp_double_fdiv, 0) ].

(* src: vfpdouble.cpp | #define FREG_BANK(x) | FREG_BANK *)
Definition DREG_BANK (x : Z) : Z := x .& 0x0c.
(* src: vfpdouble.cpp | #define FREG_IDX(x) | FREG_IDX *)
Definition DREG_IDX (x : Z) : Z := x .& 3.

(* src: vfpdouble.cpp | dest = FREG_BANK(dest) + ((FREG_IDX(dest) + vecstride) & 3); | vfp_double_cpdo *)
Definition next_dreg (r vecstride : Z) : Z := DREG_BANK r + ((DREG_IDX r + vecstride) .& 3).

(* src: vfpdouble.cpp | for (vecitr = 0; vecitr <= veclen; | vfp_double_cpdo *)
Fixpoint double_cpdo_loop (n : nat) (fn : fop) (state : ARMul_State)
    (dest dn dm vecstride fpscr exceptions : Z) : option (ARMul_State * Z) :=
  match n with
  | O => Some (state, exceptions)
  | S n =>
      '(state, except) ← fn state dest dn dm fpscr;
      let exceptions := exceptions .| (except .& unot 32 VFP_NAN_FLAG) in
      double_cpdo_loop n fn state (next_dreg dest vecstride) (next_dreg dn vecstride)
        (if nz (DREG_BANK dm) then next_dreg dm vecstride else dm)
        vecstride fpscr exceptions
  end.

(** An index past the end of a table is [None]; a null entry returns the error
    word [~0]. *)
(* src: vfpdouble.cpp *)
Definition vfp_double_cpdo (state : ARMul_State) (inst fpscr : Z) : option (ARMul_State * Z) :=
  let op := inst .& FOP_MASK in
  let dn := vfp_get_dn inst in
  let vecstride := 1 + Z.b2z ((fpscr .& FPSCR_STRIDE_MASK) =? FPSCR_STRIDE_MASK) in
  '(fn, flags) ← (if op =? FOP_EXT then double_fops_ext !! Z.to_nat (FEXT_TO_IDX inst)
                  else double_fops !! Z.to_nat (FOP_TO_IDX op));
  let dest := if nz (flags .& OP_SD) then vfp_get_sd inst else vfp_get_dd inst in
  let dm := if nz (flags .& OP_SM) then vfp_get_sm inst else vfp_get_dm inst in
  let veclen :=
    if nz (flags .& OP_SCALAR) || (DREG_BANK dest =? 0) then 0
    else fpscr .& FPSCR_LENGTH_MASK in
  match fn with
  | None => Some (state, unot 32 0)
  | Some fn =>
      double_cpdo_loop (Z.to_nat (veclen ≫ FPSCR_LENGTH_BIT) + 1) fn state dest dn dm
        vecstride fpscr 0
  end.
