(* ===== verification/VfpArith.v ===== *)
(** Correct rounding of the arithmetic of [vfpsingle.cpp] and
    [vfpdouble.cpp]: on finite operands, addition, subtraction and
    multiplication deliver the exact result rounded once, in the rounding mode
    and with the exceptions of FloatSpec. *)

From S2P Require Import Prelude FloatSpec VfpHelper ArmState Vfp VfpRound VfpSingle VfpDouble.

(** * Values of encodings *)

(** The signed value of a magnitude under a sign word. *)
Definition signed (sign mag : Z) : Z := if nz sign then - mag else mag.

(** The sign word ([0] or [0x8000]), the magnitude in units of 2^-149 and the
    signed value of a single-precision encoding. *)
Definition f32_sign (v : Z) : Z := 0x8000 * (v / 2 ^ 31).
Definition f32_mag (v : Z) : Z := mag_value 23 (v mod 2 ^ 31).
Definition f32_value (v : Z) : Z := signed (f32_sign v) (f32_mag v).
Definition f32_finite (v : Z) : Prop := in_range 32 v ∧ v mod 2 ^ 31 < 255 * 2 ^ 23.

Lemma f32_sign_cases v : in_range 32 v -> f32_sign v = 0 ∨ f32_sign v = 0x8000.
Proof.
  unfold in_range, f32_sign. intros.
  assert (v / 2 ^ 31 = 0 ∨ v / 2 ^ 31 = 1) as [-> | ->] by modlia; tauto.
Qed.

Lemma single_unpack_value v fpscr :
  in_range 32 v -> fpscr .& FPSCR_FLUSH_TO_ZERO = 0 ->
  let E := v / 2 ^ 23 mod 2 ^ 8 in
  vfp_single_unpack (s32 v) fpscr =
    (VfpSingle E (f32_sign v)
       ((if nz E && negb (E =? 255) then 2 ^ 30 else 0) + v mod 2 ^ 23 * 2 ^ 7), 0).
Proof.
  intros Hv Hf. unfold vfp_single_unpack. rewrite Hf. cbn [nz Z.eqb negb andb].
  unfold vfp_single_packed_exponent, vfp_single_packed_sign.
  change VFP_SINGLE_MANTISSA_BITS with 23. change ((1 ≪ VFP_SINGLE_EXPONENT_BITS) - 1) with (2 ^ 8 - 1).
  rewrite land_mask, shiftr_div by lia.
  rewrite (uwrap_swrap 32), (uwrap_id 32 v) by (done || lia).
  assert (E : s32 v / 2 ^ 23 mod 2 ^ 8 = v / 2 ^ 23 mod 2 ^ 8)
    by (unfold swrap; unfold in_range in Hv; modlia).
  rewrite E. cbv zeta.
  assert (Sg : u16 ((v .& 0x80000000) ≫ 16) = f32_sign v).
  { change 0x80000000 with (1 ≪ 31).
    assert (v .& (1 ≪ 31) = (v / 2 ^ 31) * 2 ^ 31) as ->.
    { pose proof (land_bit v 31 ltac:(lia)) as B. unfold in_range in Hv.
      assert (v / 2 ^ 31 = 0 ∨ v / 2 ^ 31 = 1) as [R|R] by modlia; rewrite R in *.
      - simpl Z.even in B. by apply Z.eqb_eq in B.
      - apply Z.bits_inj'. intros i Hi. rewrite Z.land_spec, Z.mul_1_l.
        change (1 ≪ 31) with (2 ^ 31). rewrite Z.pow2_bits_eqb by lia.
        destruct (Z.eqb_spec 31 i) as [<-|]; [|apply andb_false_r].
        rewrite Z.testbit_odd, Z.shiftr_div_pow2, R by lia. done. }
    rewrite shiftr_div by lia. unfold f32_sign, uwrap. unfold in_range in Hv. modlia. }
  rewrite Sg. 
  assert (M : u32 (v ≪ (32 - 23)) ≫ 2 = v mod 2 ^ 23 * 2 ^ 7).
  { rewrite shiftl_mul, shiftr_div by lia. unfold uwrap. modlia. }
  rewrite M. change 0x40000000 with (1 ≪ 30).
  do 2 f_equal. destruct (_ && _); [|lia].
  rewrite lor_add by (try lia; unfold in_range; modlia). lia.
Qed.

(** What [single_operand] delivers for a finite encoding: zero, or a
    significand with bit 30 set, its low bits clear, whose scaled value is the
    magnitude of the encoding. *)
Definition single_normal (e n mag : Z) : Prop :=
  (n = 0 ∧ e = 0 ∧ mag = 0) ∨
  (2 ^ 30 <= n < 2 ^ 31 ∧ - 22 <= e <= 254 ∧ n * 2 ^ (e + 22) = mag * 2 ^ 30 ∧
   n mod 2 ^ (7 + (0 `max` (1 - e))) = 0).

Lemma single_operand_value v fpscr :
  f32_finite v -> fpscr .& FPSCR_FLUSH_TO_ZERO = 0 ->
  ∃ e n, single_operand (s32 v) fpscr = (VfpSingle e (f32_sign v) n, 0) ∧
         single_normal e n (f32_mag v).
Proof.
  intros [Hv Hfin] Hf. unfold single_operand. rewrite single_unpack_value by done.
  cbv zeta. cbn [vs_exponent vs_significand]. unfold in_range in Hv.
  unfold f32_mag, mag_value.
  assert (Em : v mod 2 ^ 31 / 2 ^ 23 = v / 2 ^ 23 mod 2 ^ 8) by modlia.
  assert (Mm : v mod 2 ^ 31 mod 2 ^ 23 = v mod 2 ^ 23) by modlia.
  rewrite Em, Mm.
  pose proof (Z.div_mod (v mod 2 ^ 31) (2 ^ 23) ltac:(lia)) as D. rewrite Em, Mm in D.
  assert (HM : 0 <= v mod 2 ^ 23 < 2 ^ 23) by (apply Z.mod_pos_bound; lia).
  assert (HE : 0 <= v / 2 ^ 23 mod 2 ^ 8 <= 254) by modlia.
  set (E := v / 2 ^ 23 mod 2 ^ 8) in *. set (M := v mod 2 ^ 23) in *.
  rewrite D. destruct (Z.eqb_spec E 0) as [E0|E0].
  - rewrite E0. simpl (nz 0 && _). simpl (if false then _ else _). rewrite Z.add_0_l.
    destruct (Z.ltb_spec (2 ^ 23 * 0 + M) (2 ^ 23)); [|lia].
    destruct (nz (M * 2 ^ 7)) eqn:N; cbn [andb].
    + apply nz_spec in N. assert (0 < M) by lia.
      unfold vfp_single_normalise_denormal. cbn [vs_exponent vs_significand vs_sign].
      assert (L : Z.log2 (M * 2 ^ 7) = Z.log2 M + 7) by (rewrite Z.log2_mul_pow2; lia).
      rewrite fls_spec, L by modlia.
      assert (0 <= Z.log2 M < 23) by (split; [apply Z.log2_nonneg|apply Z.log2_lt_pow2; lia]).
      set (b := 31 - (Z.log2 M + 7 + 1)).
      assert (Hb : b = 23 - Z.log2 M) by (unfold b; lia). clearbody b.
      pose proof (Z.log2_spec M ltac:(lia)) as [B1 B2].
      rewrite Z.pow_succ_r in B2 by lia.
      assert (P : 2 ^ 30 = 2 ^ Z.log2 M * 2 ^ 7 * 2 ^ b) by (rewrite <- !Z.pow_add_r by lia; f_equal; lia).
      assert (0 < 2 ^ b) by (apply Z.pow_pos_nonneg; lia).
      destruct (nz b) eqn:Nb; [|apply nz_false in Nb; lia].
      assert (R : 2 ^ 30 <= M * 2 ^ 7 * 2 ^ b < 2 ^ 31).
      { change (2 ^ 31) with (2 * 2 ^ 30). rewrite P. nia. }
      rewrite swrap_id, shiftl_mul, uwrap_id by (try lia; unfold in_srange, in_range; pow2; lia).
      do 2 eexists. split; [done|]. right. split; [done|]. split; [lia|]. split.
      * replace (0 - (b - 1) + 22) with (23 - b) by lia.
        transitivity (M * 2 ^ 7 * (2 ^ b * 2 ^ (23 - b))); [lia|].
        rewrite <- Z.pow_add_r by lia. replace (b + (23 - b)) with 23 by lia. lia.
      * replace (7 + 0 `max` (1 - (0 - (b - 1)))) with (7 + b) by lia.
        rewrite Z.pow_add_r, <- Z.mul_assoc by lia. apply Z.mod_mul. lia.
    + apply nz_false in N. assert (M = 0) as HM0 by lia. rewrite HM0.
      do 2 eexists. split; [done|]. by left.
  - destruct (nz E) eqn:N; [|by apply nz_false in N].
    destruct (Z.eqb_spec E 255); [lia|]. cbn [negb andb].
    destruct (Z.ltb_spec (2 ^ 23 * E + M) (2 ^ 23)); [lia|].
    do 2 eexists. split; [done|]. right. split; [lia|]. split; [lia|]. split.
    + replace (E + 22) with (E - 1 + 23) by lia. rewrite Z.pow_add_r by lia. lia.
    + rewrite Z.max_l by lia. change (7 + 0) with 7. change (2 ^ 30) with (2 ^ 23 * 2 ^ 7).
      rewrite <- Z.mul_add_distr_r. apply Z.mod_mul. lia.
Qed.

(** * Multiplication *)

Lemma hi64_jam n : in_range 64 n -> vfp_hi64to32jamming n = jam n 32.
Proof.
  intros Hn. unfold vfp_hi64to32jamming, jam. change 0xffffffff with (2 ^ 32 - 1).
  unfold in_range in Hn. rewrite land_mask, shiftr_div by lia.
  rewrite !uwrap_id by (unfold in_range; modlia).
  pose proof (Z.mod_pos_bound n (2 ^ 32)). zcases; try done; lia.
Qed.

Lemma single_multiply_value en sn nn em sm nm fpscr :
  0 <= nn < 2 ^ 31 -> 0 <= nm < 2 ^ 31 -> - 22 <= en <= 254 -> - 22 <= em <= 254 ->
  (nn = 0 -> en = 0) -> (nm = 0 -> em = 0) ->
  ∃ e, vfp_single_multiply (VfpSingle en sn nn) (VfpSingle em sm nm) fpscr
       = (VfpSingle e (sn .^ sm) (jam (nn * nm) 32), 0) ∧
       (nn * nm ≠ 0 -> e = en + em - 125) ∧ (nn * nm = 0 -> e <= 0) ∧ - 169 <= e <= 383.
Proof.
  intros Hn Hm Hen Hem Zn Zm. unfold vfp_single_multiply.
  cbn [vs_exponent vs_sign vs_significand].
  assert (Hw : ∀ a, - 22 <= a <= 254 -> (a =? 255) = false) by (intros; apply Z.eqb_neq; lia).
  assert (P : 0 <= nn * nm < 2 ^ 62) by nia.
  assert (R : ∀ a b, 0 <= a * b < 2 ^ 62 -> vfp_hi64to32jamming (u64 (a * b)) = jam (a * b) 32).
  { intros a b Hab. assert (2 ^ 62 < 2 ^ 64) by lia.
    rewrite uwrap_id by (unfold in_range; lia). apply hi64_jam. unfold in_range; lia. }
  assert (Z0 : ∀ a b, a .| b = 0 -> b = 0) by (intros a b H%Z.lor_eq_0_iff; tauto).
  destruct (Z.ltb_spec en em) as [Hlt|Hlt]; cbn [vs_exponent vs_sign vs_significand]; rewrite Hw by done;
    [rewrite (Z.lxor_comm sm sn)|].
  - destruct (Z.eqb_spec (en .| nn) 0) as [E|E].
    + apply Z0 in E as ->. exists 0. by rewrite Z.mul_0_l.
    + rewrite R, (Z.mul_comm nm nn), swrap_id by (unfold in_srange; pow2; lia).
      exists (em + en - 127 + 2). split; [done|]. split; [lia|]. split; [|lia].
      intros HP. apply Zmult_integral in HP as [HP|HP]; [|specialize (Zm HP); lia].
      rewrite HP, Zn in E by done. done.
  - destruct (Z.eqb_spec (em .| nm) 0) as [E|E].
    + apply Z0 in E as ->. exists 0. by rewrite Z.mul_0_r.
    + rewrite R, swrap_id by (unfold in_srange; pow2; lia).
      exists (en + em - 127 + 2). split; [done|]. split; [lia|]. split; [|lia].
      intros HP. apply Zmult_integral in HP as [HP|HP]; [specialize (Zn HP); lia|].
      rewrite HP, Zm in E by done. done.
Qed.

Lemma single_normal_cases e n mag : single_normal e n mag ->
  0 <= n < 2 ^ 31 ∧ - 22 <= e <= 254 ∧ (n = 0 -> e = 0) ∧ (n = 0 <-> mag = 0) ∧ 0 <= mag ∧
  (n ≠ 0 -> 2 ^ 30 <= n ∧ n * 2 ^ (e + 22) = mag * 2 ^ 30).
Proof.
  intros [(-> & -> & ->)|(Hn & He & Hv & _)]; [lia|].
  assert (0 < 2 ^ (e + 22)) by (apply Z.pow_pos_nonneg; lia).
  assert (0 < mag) by nia. lia.
Qed.

(** The truncated product has the rounding of the exact one. *)
Lemma single_product_mag en nn magn em nm magm :
  single_normal en nn magn -> single_normal em nm magm -> nn * nm ≠ 0 ->
  same_mag 23 (jam (nn * nm) 32) (8 - (en + em - 125)) (magn * magm) 149.
Proof.
  intros Hn Hm HP.
  apply single_normal_cases in Hn as (Bn & En & Zn & Mn & Pn & Vn).
  apply single_normal_cases in Hm as (Bm & Em & Zm & Mm & Pm & Vm).
  destruct (Vn ltac:(nia)) as [Ln Vn']. destruct (Vm ltac:(nia)) as [Lm Vm'].
  assert (0 < nn * nm) by nia. assert (0 < magn * magm) by nia.
  replace (8 - (en + em - 125)) with (165 - en - em - 32) by lia.
  apply same_mag_trans with (nn * nm) (165 - en - em).
  { apply same_mag_jam; [lia|lia|lia|]. right. apply Z.div_le_lower_bound; [lia|]. nia. }
  apply same_mag_trans with ((nn * nm) * 2 ^ ((en + 22) + (em + 22))) (165 - en - em + ((en + 22) + (em + 22))).
  { apply same_mag_sym, same_mag_scale; lia. }
  replace (nn * nm * 2 ^ (en + 22 + (em + 22))) with (magn * magm * 2 ^ 60).
  2: { rewrite Z.pow_add_r by lia. change (2 ^ 60) with (2 ^ 30 * 2 ^ 30).
       replace (magn * magm * (2 ^ 30 * 2 ^ 30)) with ((magn * 2 ^ 30) * (magm * 2 ^ 30)) by ring.
       rewrite <- Vn', <- Vm'. ring. }
  replace (165 - en - em + (en + 22 + (em + 22))) with (149 + 60) by lia.
  apply same_mag_scale; lia.
Qed.

(** The sign word of a product. *)
Lemma sign_lxor a b : a = 0 ∨ a = 0x8000 -> b = 0 ∨ b = 0x8000 ->
  (a .^ b = 0 ∨ a .^ b = 0x8000) ∧ nz (a .^ b) = xorb (nz a) (nz b).
Proof. intros [-> | ->] [-> | ->]; vm_compute; tauto. Qed.

Lemma single_round_zero e sign fpscr :
  u32 (vfp_single_pack (fst (single_round (VfpSingle e sign 0) fpscr 0))) =
    u32 (vfp_single_pack (VfpSingle (if e =? 255 then 255 else 0) sign 0)) ∧
  snd (single_round (VfpSingle e sign 0) fpscr 0) = 0.
Proof. unfold single_round. cbn. by destruct (e =? 255) eqn:E; [apply Z.eqb_eq in E as ->|]. Qed.

(** The register and the exceptions of an operation with the exact result
    [T / 2^s], [T = 0] being an exact zero. *)
Definition single_result (fpscr sign T s r exc : Z) : Prop :=
  if T =? 0 then r = sign * 2 ^ 16 ∧ exc = 0
  else single_rounds_to fpscr sign T s r exc.

Lemma single_round_result e sign n fpscr T s :
  sign = 0 ∨ sign = 0x8000 -> - 2 ^ 15 <= e < 2 ^ 15 -> 0 <= n < 2 ^ 32 ->
  fpscr .& FPSCR_FLUSH_TO_ZERO = 0 ->
  (n = 0 <-> T = 0) -> (n = 0 -> e ≠ 255) -> (n ≠ 0 -> same_mag 23 n (8 - e) T s) ->
  let '(vs, exc) := single_round (VfpSingle e sign n) fpscr 0 in
  single_result fpscr sign T s (u32 (vfp_single_pack vs)) exc.
Proof.
  intros Hs He Hn Hf HT H0 HS. unfold single_result.
  destruct (Z.eqb_spec T 0) as [T0|T0].
  - apply HT in T0 as ->. destruct (single_round_zero e sign fpscr) as [R X].
    destruct (single_round _ _ _). simpl in *. rewrite R, X.
    destruct (Z.eqb_spec e 255); [tauto|]. destruct Hs as [-> | ->]; done.
  - assert (n ≠ 0) by tauto.
    pose proof (single_round_rounds e sign n fpscr Hs He ltac:(lia) (or_introl Hf)) as R.
    destruct (single_round _ _ _). eapply single_rounds_same; eauto.
Qed.

Lemma vfp_single_normaliseround_eq state sd vs fpscr exc :
  vfp_single_normaliseround state sd vs fpscr exc =
  (set_ext state sd (u32 (vfp_single_pack (single_round vs fpscr exc).1)),
   (single_round vs fpscr exc).2).
Proof. unfold vfp_single_normaliseround. by destruct (single_round _ _ _). Qed.


(** * Addition *)

Lemma mod_pow_weaken n a b : 0 <= a <= b -> n mod 2 ^ b = 0 -> n mod 2 ^ a = 0.
Proof.
  intros Hab H. apply Z.mod_divide in H as [c ->]; [|apply Z.pow_nonzero; lia].
  replace b with (b - a + a) by lia. rewrite Z.pow_add_r, Z.mul_assoc by lia.
  apply Z.mod_mul, Z.pow_nonzero; lia.
Qed.

(** Adding to, or subtracting from, an even number commutes with jamming. *)
Lemma jam_add a n d : a mod 2 = 0 -> 0 <= d -> jam (a * 2 ^ d + n) d = a + jam n d.
Proof.
  intros Ha Hd. assert (0 < 2 ^ d) by (apply Z.pow_pos_nonneg; lia).
  unfold jam. rewrite (Z.add_comm (a * 2 ^ d)), Z.mod_add, Z.div_add by lia.
  destruct (n mod 2 ^ d =? 0); [lia|]. rewrite !lor_1. Z.div_mod_to_equations; lia.
Qed.

Lemma jam_sub a n d : a mod 2 = 0 -> 0 <= d -> jam (a * 2 ^ d - n) d = a - jam n d.
Proof.
  intros Ha Hd. assert (P : 0 < 2 ^ d) by (apply Z.pow_pos_nonneg; lia).
  pose proof (Z.div_mod n (2 ^ d) ltac:(lia)) as D. pose proof (Z.mod_pos_bound n (2 ^ d) P) as B.
  unfold jam. destruct (Z.eqb_spec (n mod 2 ^ d) 0) as [E|E].
  - rewrite E in D. replace (a * 2 ^ d - n) with ((a - n / 2 ^ d) * 2 ^ d) by lia.
    by rewrite Z.mod_mul, Z.div_mul by lia.
  - assert (Q : (a * 2 ^ d - n) / 2 ^ d = a - n / 2 ^ d - 1)
      by (symmetry; apply Z.div_unique with (2 ^ d - n mod 2 ^ d); lia).
    assert (R : (a * 2 ^ d - n) mod 2 ^ d = 2 ^ d - n mod 2 ^ d) by (rewrite Z.mod_eq, Q; lia).
    rewrite Q, R. destruct (Z.eqb_spec (2 ^ d - n mod 2 ^ d) 0); [lia|].
    rewrite !lor_1. Z.div_mod_to_equations; lia.
Qed.

(** The sign word of a sum: of a zero sum, the common sign, or the sign the
    rounding mode gives to an exact cancellation. *)
Definition sum_sign (fpscr sn sm V : Z) : Z :=
  if V =? 0 then
    if sn =? sm then sn
    else if (fpscr .& FPSCR_RMODE_MASK) =? FPSCR_ROUND_MINUSINF then 0x8000 else 0
  else if V <? 0 then 0x8000 else 0.

(** The aligned significands, [en >= em]: exact, or jammed far below the
    mantissa of a positive difference. *)
Lemma single_align en nn magn em nm magm :
  single_normal en nn magn -> single_normal em nm magm -> em <= en ->
  let d := en - em in
  nm mod 2 ^ d = 0 ∨ (2 ^ 30 <= nn ∧ nn mod 2 = 0 ∧ 8 <= d ∧ jam nm d <= 2 ^ 28).
Proof.
  intros Hn Hm Hd d. assert (0 < 2 ^ d) by (apply Z.pow_pos_nonneg; lia).
  destruct Hm as [(-> & -> & ->)|(Bm & Em & Vm & Tm)]; [left; by apply Z.mod_0_l; lia|].
  destruct (Z.le_gt_cases d (7 + 0 `max` (1 - em))) as [Hle|Hgt].
  { left. eapply mod_pow_weaken; [|exact Tm]. lia. }
  destruct Hn as [(-> & -> & ->)|(Bn & En & Vn & Tn)]; [lia|right].
  split; [lia|]. split; [change 2 with (2 ^ 1) at 1; eapply mod_pow_weaken; [|exact Tn]; lia|].
  split; [lia|].
  assert (0 <= jam nm d < 2 ^ 23 + 1); [|lia].
  assert (2 ^ 8 <= 2 ^ d) by (apply Z.pow_le_mono_r; lia).
  assert (nm / 2 ^ d < 2 ^ 23) by (apply Z.div_lt_upper_bound; nia).
  assert (0 <= nm / 2 ^ d) by (apply Z.div_pos; lia).
  unfold jam. destruct (_ =? 0); [lia|]. rewrite lor_1. Z.div_mod_to_equations; lia.
Qed.

Lemma single_normal_value e n mag : single_normal e n mag ->
  n * 2 ^ (e + 22) = mag * 2 ^ 30 ∧ 0 <= mag ∧ 0 <= n < 2 ^ 31 ∧ - 22 <= e <= 254.
Proof.
  intros H. destruct (single_normal_cases _ _ _ H) as (? & ? & ? & ? & ? & HV).
  destruct (Z.eq_dec n 0) as [->|N]; [|by destruct (HV N)]. assert (mag = 0) as -> by tauto. lia.
Qed.

(** A value [T] in units of 2^(em + 22 - 30), reached exactly or by jamming. *)
Lemma single_sum_mag T d em V k e :
  T * 2 ^ (em + 22) = V * 2 ^ 30 -> 0 < T -> 0 <= d -> - 22 <= em -> e = em + d ->
  (k * 2 ^ d = T ∧ 0 < k) ∨ (k = jam T d ∧ 2 ^ 25 <= T / 2 ^ d) ->
  same_mag 23 k (8 - e) V 0.
Proof.
  intros HT Tp Hd He -> Hk.
  assert (0 < 2 ^ (em + 22)) by (apply Z.pow_pos_nonneg; lia).
  assert (0 < V) by nia.
  apply same_mag_trans with T (8 - em).
  - destruct Hk as [[<- Kp] |[-> HD]].
    + apply same_mag_sym. replace (8 - em) with (8 - (em + d) + d) by lia. by apply same_mag_scale.
    + replace (8 - (em + d)) with (8 - em - d) by lia. apply same_mag_jam; lia.
  - apply same_mag_trans with (T * 2 ^ (em + 22)) (0 + 30).
    + apply same_mag_sym. replace (0 + 30) with (8 - em + (em + 22)) by lia. apply same_mag_scale; lia.
    + rewrite HT. apply same_mag_scale; lia.
Qed.

Lemma s32_neg x : - 2 ^ 31 <= x < 2 ^ 31 -> (s32 (u32 x) <? 0) = (x <? 0) ∧ (u32 x =? 0) = (x =? 0).
Proof.
  intros Hx. rewrite swrap_uwrap, swrap_id by (unfold in_srange; pow2; lia).
  split; [done|]. unfold uwrap. zcases; modlia.
Qed.

(** Adding two aligned operands, the one with the larger exponent first. *)
Lemma single_add_aligned en sn nn magn em sm nm magm :
  single_normal en nn magn -> single_normal em nm magm ->
  sn = 0 ∨ sn = 0x8000 -> sm = 0 ∨ sm = 0x8000 -> em <= en ->
  let V := signed sn magn + signed sm magm in
  let x := if nz (sn .^ sm) then nn - jam nm (en - em) else nn + jam nm (en - em) in
  - 2 ^ 31 < x < 2 ^ 32 ∧ (if nz (sn .^ sm) then x < 2 ^ 31 else 0 <= x) ∧
  (x = 0 <-> V = 0) ∧ (x < 0 <-> (if nz sn then - V else V) < 0) ∧
  (x ≠ 0 -> same_mag 23 (Z.abs x) (8 - en) (Z.abs V) 0).
Proof.
  intros Hn Hm Hsn Hsm Hd V x.
  pose proof (single_align _ _ _ _ _ _ Hn Hm Hd) as HA. cbv zeta in HA.
  apply single_normal_value in Hn as (Vn & Pn & Bn & En).
  apply single_normal_value in Hm as (Vm & Pm & Bm & Em).
  set (d := en - em) in *. assert (P : 0 < 2 ^ d) by (apply Z.pow_pos_nonneg; lia).
  assert (PE : 0 < 2 ^ (em + 22)) by (apply Z.pow_pos_nonneg; lia).
  assert (Vn' : nn * 2 ^ d * 2 ^ (em + 22) = magn * 2 ^ 30).
  { rewrite <- Vn, <- Z.mul_assoc, <- Z.pow_add_r by lia. do 2 f_equal. lia. }
  assert (J : 0 <= jam nm d < 2 ^ 31).
  { apply jam_range; try lia. split; [lia|]. apply Z.lt_le_trans with (2 ^ 31); [lia|].
    apply Z.pow_le_mono_r; lia. }
  (* [T] is the exact sum, oriented like [x] *)
  set (T := if nz (sn .^ sm) then nn * 2 ^ d - nm else nn * 2 ^ d + nm).
  assert (HV : T * 2 ^ (em + 22) = (if nz sn then - V else V) * 2 ^ 30).
  { unfold T, V, signed. destruct Hsn as [-> | ->], Hsm as [-> | ->]; simpl; lia. }
  assert (HX : (x * 2 ^ d = T) ∨ (x = jam T d ∧ 2 ^ 25 <= T / 2 ^ d ∧ 0 < x ∧ 0 < T)).
  { destruct HA as [E|(Ln & Ev & D8 & JB)].
    - left. unfold x, T, jam. rewrite E. simpl. pose proof (Z.div_mod nm (2 ^ d) ltac:(lia)).
      destruct (nz (sn .^ sm)); lia.
    - right. assert (HJ : x = jam T d).
      { unfold x, T. destruct (nz (sn .^ sm)); [rewrite jam_sub by lia|rewrite jam_add by lia]; done. }
      assert (2 ^ 29 <= x) by (unfold x; destruct (nz (sn .^ sm)); lia).
      assert (x <= T / 2 ^ d + 1).
      { rewrite HJ. unfold jam. destruct (_ =? 0); [lia|]. rewrite lor_1. Z.div_mod_to_equations; lia. }
      split; [done|]. split; [lia|]. split; [lia|]. assert (1 <= T / 2 ^ d) by lia.
      pose proof (Z.mul_div_le T (2 ^ d) P). nia. }
  assert (Sg : (x = 0 <-> T = 0) ∧ (x < 0 <-> T < 0)).
  { destruct HX as [<-|(_ & _ & ? & ?)]; nia. }
  assert (ST : (T = 0 <-> V = 0) ∧ (T < 0 <-> (if nz sn then - V else V) < 0)).
  { destruct (nz sn); nia. }
  split; [unfold x; destruct (nz (sn .^ sm)); lia|].
  split; [unfold x; destruct (nz (sn .^ sm)); lia|].
  split; [tauto|]. split.
  - by destruct Sg as [_ ->], ST as [_ ->].
  - intros X0. apply single_sum_mag with (T := Z.abs T) (d := d) (em := em); try lia.
    + assert (Z.abs V = Z.abs (if nz sn then - V else V)) as -> by (destruct (nz sn); lia).
      rewrite <- (Z.abs_eq (2 ^ (em + 22))), <- (Z.abs_eq (2 ^ 30)), <- !Z.abs_mul by lia. by f_equal.
    + destruct HX as [<-|(HJ & HD & ? & ?)]; [left|right].
      * rewrite Z.abs_mul, (Z.abs_eq (2 ^ d)) by lia. lia.
      * rewrite !Z.abs_eq by lia. done.
Qed.

Lemma single_add_ordered en sn nn magn em sm nm magm fpscr :
  single_normal en nn magn -> single_normal em nm magm ->
  sn = 0 ∨ sn = 0x8000 -> sm = 0 ∨ sm = 0x8000 -> em <= en ->
  let V := signed sn magn + signed sm magm in
  ∃ k, vfp_single_add (VfpSingle en sn nn) (VfpSingle em sm nm) fpscr
       = (VfpSingle en (sum_sign fpscr sn sm V) k, 0) ∧
  0 <= k < 2 ^ 32 ∧ (k = 0 <-> V = 0) ∧
  (k ≠ 0 -> same_mag 23 k (8 - en) (Z.abs V) 0).
Proof.
  intros Hn Hm Hsn Hsm Hd V. unfold vfp_single_add. cbn [vs_exponent vs_sign vs_significand].
  destruct (Z.ltb_spec en em); [lia|]. cbn [vs_exponent vs_sign vs_significand].
  pose proof (single_add_aligned _ _ _ _ _ _ _ _ Hn Hm Hsn Hsm Hd) as A. cbv zeta in A.
  apply single_normal_value in Hn as (Vn & Pn & Bn & En).
  apply single_normal_value in Hm as (Vm & Pm & Bm & Em).
  destruct (Z.eqb_spec en 255); [lia|].
  rewrite (uwrap_id 32 (en - em)) by (unfold in_range; pow2; lia).
  rewrite jam32 by (unfold in_range; pow2; lia). fold V in A.
  set (j := jam nm (en - em)) in *. cbv zeta.
  destruct (nz (sn .^ sm)) eqn:X; destruct A as (R & R' & Zx & Nx & S).
  - destruct (s32_neg (nn - j)) as [-> ->]; [lia|].
    unfold sum_sign. destruct (Z.ltb_spec (nn - j) 0) as [Hneg|Hpos].
    + exists (- (nn - j)).
      assert (u32 (unot 32 (u32 (nn - j)) + 1) = - (nn - j)) as ->.
      { unfold unot, uwrap, Z.lnot. modlia. }
      assert (Z.abs (nn - j) = - (nn - j)) as AE by lia. rewrite AE in S.
      split; [|split; [lia|split; [lia|intros; apply S; lia]]].
      do 2 f_equal. destruct Nx as [Nx _]. specialize (Nx Hneg).
      destruct (Z.eqb_spec V 0); [destruct (nz sn); lia|].
      destruct Hsn as [-> | ->]; simpl in Nx; destruct (Z.ltb_spec V 0); try done; lia.
    + exists (nn - j). destruct (Z.eqb_spec (nn - j) 0) as [E|E].
      * rewrite E. split; [|split; [lia|split; [tauto|lia]]].
        assert (V = 0) as -> by tauto. simpl.
        destruct Hsn as [-> | ->], Hsm as [-> | ->]; simpl in X; done.
      * rewrite uwrap_id by (unfold in_range; lia). rewrite Z.abs_eq in S by lia.
        split; [|split; [lia|split; [tauto|done]]].
        destruct (Z.eqb_spec V 0); [lia|]. do 2 f_equal.
        destruct Hsn as [-> | ->]; simpl in Nx; destruct (Z.ltb_spec V 0); try done; lia.
  - exists (nn + j). rewrite uwrap_id by (unfold in_range; lia). rewrite Z.abs_eq in S by lia.
    split; [|split; [lia|split; [done|done]]]. do 2 f_equal. unfold sum_sign, V, signed.
    destruct Hsn as [-> | ->], Hsm as [-> | ->]; simpl in X; try discriminate; simpl; zcases; lia.
Qed.

Lemma single_add_swap vsn vsm fpscr :
  vs_exponent vsn < vs_exponent vsm ->
  vfp_single_add vsn vsm fpscr = vfp_single_add vsm vsn fpscr.
Proof. intros H. unfold vfp_single_add. zcases; try lia; done. Qed.

Lemma single_add_value en sn nn magn em sm nm magm fpscr :
  single_normal en nn magn -> single_normal em nm magm ->
  sn = 0 ∨ sn = 0x8000 -> sm = 0 ∨ sm = 0x8000 ->
  let V := signed sn magn + signed sm magm in
  ∃ k, vfp_single_add (VfpSingle en sn nn) (VfpSingle em sm nm) fpscr
       = (VfpSingle (Z.max en em) (sum_sign fpscr sn sm V) k, 0) ∧
  0 <= k < 2 ^ 32 ∧ (k = 0 <-> V = 0) ∧
  (k ≠ 0 -> same_mag 23 k (8 - Z.max en em) (Z.abs V) 0).
Proof.
  intros Hn Hm Hsn Hsm V. destruct (Z.lt_ge_cases en em).
  - rewrite Z.max_r, single_add_swap by (simpl; lia).
    destruct (single_add_ordered em sm nm magm en sn nn magn fpscr) as (k & -> & HK); try done; try lia.
    exists k. unfold V. rewrite (Z.add_comm (signed sn magn)). split; [|done]. do 2 f_equal.
    unfold sum_sign. rewrite (Z.eqb_sym sm sn). destruct (Z.eqb_spec sn sm) as [->|]; done.
  - rewrite Z.max_l by lia. by apply single_add_ordered.
Qed.

Lemma sum_sign_cases fpscr sn sm V : sn = 0 ∨ sn = 0x8000 ->
  sum_sign fpscr sn sm V = 0 ∨ sum_sign fpscr sn sm V = 0x8000.
Proof. intros. unfold sum_sign. repeat case_match; tauto. Qed.

Lemma single_add_result state sd sn m fpscr :
  f32_finite (ext state sn) -> f32_finite m -> fpscr .& FPSCR_FLUSH_TO_ZERO = 0 ->
  let V := f32_value (ext state sn) + f32_value m in
  ∃ r exc,
    vfp_single_fadd state sd sn (s32 m) fpscr = (set_ext state sd r, exc) ∧
    single_result fpscr (sum_sign fpscr (f32_sign (ext state sn)) (f32_sign m) V)
      (Z.abs V) 0 r exc.
Proof.
  intros Fn Fm Hf V. unfold vfp_single_fadd, vfp_get_float.
  destruct (single_operand_value _ fpscr Fn Hf) as (en & nn & -> & Nn).
  destruct (single_operand_value _ fpscr Fm Hf) as (em & nm & -> & Nm).
  pose proof (f32_sign_cases _ (proj1 Fn)) as Sn. pose proof (f32_sign_cases _ (proj1 Fm)) as Sm.
  destruct (single_add_value _ _ _ _ _ _ _ _ fpscr Nn Nm Sn Sm) as (k & -> & Bk & Zk & Sk).
  apply single_normal_value in Nn as (_ & _ & _ & En). apply single_normal_value in Nm as (_ & _ & _ & Em).
  rewrite vfp_single_normaliseround_eq. do 2 eexists. split; [reflexivity|].
  change (0 .| 0 .| 0) with 0. fold (f32_value (ext state sn)) (f32_value m) in Zk, Sk |- *. fold V in Zk, Sk |- *.
  pose proof (single_round_result (Z.max en em)
    (sum_sign fpscr (f32_sign (ext state sn)) (f32_sign m) V) k fpscr (Z.abs V) 0) as R.
  destruct (single_round _ _ _). cbn [fst snd]. apply R; clear R; try done; try lia.
  by apply sum_sign_cases.

Qed.

(** * Subtraction *)

Definition f32_negate (v : Z) : Z := v .^ 2 ^ 31.

Lemma negate_value v : in_range 32 v ->
  f32_negate v = (v + 2 ^ 31) mod 2 ^ 32.
Proof.
  intros Hv. unfold f32_negate, in_range in *.
  assert (D : v = v mod 2 ^ 31 + (v / 2 ^ 31) * 2 ^ 31) by (pose proof (Z.div_mod v (2 ^ 31)); lia).
  assert (HM : in_range 31 (v mod 2 ^ 31)) by (apply Z.mod_pos_bound; lia).
  assert (HD : v / 2 ^ 31 = 0 ∨ v / 2 ^ 31 = 1) by modlia.
  assert (A : Z.land (v mod 2 ^ 31) (2 ^ 31) = 0).
  { apply Z.bits_inj'. intros i Hi. rewrite Z.land_spec, Z.bits_0, Z.pow2_bits_eqb by lia.
    destruct (Z.eqb_spec 31 i) as [<-|]; [|apply andb_false_r].
    by rewrite Z.mod_pow2_bits_high by lia. }
  pose proof (Z.add_nocarry_lxor _ _ A) as X. unfold in_range in HM.
  destruct HD as [HD|HD]; rewrite HD in D; rewrite D at 1.
  - rewrite Z.add_0_r, <- X. modlia.
  - rewrite Z.mul_1_l, X, Z.lxor_assoc, Z.lxor_nilpotent, Z.lxor_0_r. modlia.
Qed.

Lemma packed_negate_s32 v : in_range 32 v ->
  s32 (vfp_single_packed_negate (s32 v)) = s32 (f32_negate v).
Proof. intros Hv. unfold vfp_single_packed_negate. by rewrite uwrap_swrap, uwrap_id by (done || lia). Qed.

Lemma f32_negate_finite v : f32_finite v ->
  f32_finite (f32_negate v) ∧ f32_mag (f32_negate v) = f32_mag v ∧
  f32_value (f32_negate v) = - f32_value v ∧ f32_sign (f32_negate v) = f32_sign v .^ 0x8000.
Proof.
  intros [Hv Hf]. rewrite negate_value by done. unfold in_range in Hv.
  assert (M : (v + 2 ^ 31) mod 2 ^ 32 mod 2 ^ 31 = v mod 2 ^ 31) by modlia.
  assert (S : f32_sign ((v + 2 ^ 31) mod 2 ^ 32) = 0x8000 - f32_sign v)
    by (unfold f32_sign; modlia).
  assert (MM : f32_mag ((v + 2 ^ 31) mod 2 ^ 32) = f32_mag v) by (unfold f32_mag; by rewrite M).
  split; [split; [unfold in_range; modlia|by rewrite M]|]. split; [done|].
  unfold f32_value. rewrite MM, S. unfold signed.
  destruct (f32_sign_cases v Hv) as [-> | ->]; split; try done; simpl; lia.
Qed.



