(* ===== verification/VfpInstr.v ===== *)
(** The labels of [InterpreterMainLoop] that [vfpinstr.cpp] holds: the arithmetic
    of the VFP unit, the transfers between its registers and the core's, and its
    loads and stores. *)

From S2P Require Import Prelude ArmSupp ArmState ArmOps ArmTrans ArmMem Vfp VfpSingle VfpDouble.

(** An element of [ExtReg]; an index beyond the array fails. *)
Definition ext_get (i : Z) : CPU Z := λ s, r ← ExtReg s !! Z.to_nat i; Some (r, s).
Definition ext_put (i v : Z) : CPU unit := λ s,
  if bool_decide (0 <= i < 64) then Some (tt, s<|ExtReg := <[Z.to_nat i := v]> (ExtReg s)|>) else None.

(** A function of the processor's state as a computation. *)
Definition call {A} (f : ARMul_State -> option (A * ARMul_State)) : CPU A := f.

Definition vfp_reg_get (r : VFPSystemRegister) : CPU Z := gets (λ s, rd (VFP s) (vfp_reg r)).
Definition vfp_reg_put (r : VFPSystemRegister) (v : Z) : CPU unit := modify (λ s, set_vfp s r v).

(** * Arithmetic *)

(** [ret = vfp_double_cpdo(...)] or [vfp_single_cpdo(...)], and [CHECK_VFP_CDP_RET];
    [CHECK_VFP_ENABLED] is empty. *)
(* src: vfpinstr.cpp | if (inst_cream->dp_operation) #1 | VMLA_INST | +6 *)
Definition vfp_cpdo (instr dp_operation : Z) : CPU unit :=
  fpscr ← vfp_reg_get VFP_FPSCR;
  ret ← call (λ s, prod_swap <$> (if nz dp_operation then vfp_double_cpdo s instr fpscr else vfp_single_cpdo s instr fpscr));
  fpscr ← vfp_reg_get VFP_FPSCR;
  call (λ s, (tt,.) <$> vfp_raise_exceptions s ret fpscr).

Section labels.
Context (cond : Z) (inst_component : component).

(** The labels of the arithmetic instructions have one body. *)
Definition cpdo_label : CPU flow :=
  match inst_component with
  | vfp_inst instr dp_operation => label_ cond 8 (vfp_cpdo instr dp_operation)
  | _ => fail
  end.

(* src: vfpinstr.cpp | VMLA_INST : { *)
Definition VMLA_INST : CPU flow := cpdo_label.
(* src: vfpinstr.cpp | VMLS_INST : { *)
Definition VMLS_INST : CPU flow := cpdo_label.
(* src: vfpinstr.cpp | VNMLA_INST : { *)
Definition VNMLA_INST : CPU flow := cpdo_label.
(* src: vfpinstr.cpp | VNMLS_INST : { *)
Definition VNMLS_INST : CPU flow := cpdo_label.
(* src: vfpinstr.cpp | VNMUL_INST : { *)
Definition VNMUL_INST : CPU flow := cpdo_label.
(* src: vfpinstr.cpp | VMUL_INST : { *)
Definition VMUL_INST : CPU flow := cpdo_label.
(* src: vfpinstr.cpp | VADD_INST : { *)
Definition VADD_INST : CPU flow := cpdo_label.
(* src: vfpinstr.cpp | VSUB_INST : { *)
Definition VSUB_INST : CPU flow := cpdo_label.
(* src: vfpinstr.cpp | VDIV_INST : { *)
Definition VDIV_INST : CPU flow := cpdo_label.
(* src: vfpinstr.cpp | VABS_INST : { *)
Definition VABS_INST : CPU flow := cpdo_label.
(* src: vfpinstr.cpp | VNEG_INST : { *)
Definition VNEG_INST : CPU flow := cpdo_label.
(* src: vfpinstr.cpp | VSQRT_INST : { *)
Definition VSQRT_INST : CPU flow := cpdo_label.
(* src: vfpinstr.cpp | VCMP_INST : { *)
Definition VCMP_INST : CPU flow := cpdo_label.
(* src: vfpinstr.cpp | VCMP2_INST : { *)
Definition VCMP2_INST : CPU flow := cpdo_label.
(* src: vfpinstr.cpp | VCVTBDS_INST : { *)
Definition VCVTBDS_INST : CPU flow := cpdo_label.
(* src: vfpinstr.cpp | VCVTBFF_INST : { *)
Definition VCVTBFF_INST : CPU flow := cpdo_label.
(* src: vfpinstr.cpp | VCVTBFI_INST : { *)
Definition VCVTBFI_INST : CPU flow := cpdo_label.

(** * Transfers between registers *)

(* src: vfpinstr.cpp | VMOVI_INST : { *)
Definition VMOVI_INST : CPU flow :=
  match inst_component with
  | vmovi_inst single d imm => label_ cond 12 (modify (λ s, VMOVI s single d imm))
  | _ => fail
  end.
(* src: vfpinstr.cpp | VMOVR_INST : { *)
Definition VMOVR_INST : CPU flow :=
  match inst_component with
  | vmovr_inst single d m => label_ cond 12 (modify (λ s, VMOVR s single d m))
  | _ => fail
  end.

(** A function that gives a state and the value of a register of the core. *)
Definition with_reg (t : Z) (f : ARMul_State -> Z -> ARMul_State * Z) : CPU unit :=
  r ← reg t;
  v ← call (λ s, Some (prod_swap (f s r)));
  set_reg t v.
(** The same with two registers, given by address. *)
Definition with_regs (t t2 : Z) (f : ARMul_State -> Z -> Z -> ARMul_State * Z * Z) : CPU unit :=
  r ← reg t; r2 ← reg t2;
  v ← call (λ s, let '(s, v1, v2) := f s r r2 in Some ((v1, v2), s));
  set_reg t v.1;; set_reg t2 v.2.

(* src: vfpinstr.cpp | VMOVBRS_INST : { *)
Definition VMOVBRS_INST : CPU flow :=
  match inst_component with
  | vmovbrs_inst to_arm t n => label_ cond 12 (with_reg t (λ s, VMOVBRS s to_arm n))
  | _ => fail
  end.

(* src: vfpinstr.cpp | VMSR_INST : { *)
Definition VMSR_INST : CPU flow :=
  match inst_component with
  | vmsr_inst r rt =>
      label_ cond 8
        (if r =? 1 then v ← reg rt; vfp_reg_put VFP_FPSCR v
         else
           priv ← gets InAPrivilegedMode;
           when_ priv
             (if r =? 8 then v ← reg rt; vfp_reg_put VFP_FPEXC v
              else if r =? 9 then v ← reg rt; vfp_reg_put VFP_FPINST v
              else if r =? 10 then v ← reg rt; vfp_reg_put VFP_FPINST2 v
              else mret tt))
  | _ => fail
  end.

(* src: vfpinstr.cpp | VMOVBRC_INST : { *)
Definition VMOVBRC_INST : CPU flow :=
  match inst_component with
  | vmovbrc_inst _ index d t => label_ cond 16 (v ← reg t; ext_put (2 * d + index) v)
  | _ => fail
  end.

(* src: vfpinstr.cpp | VMRS_INST : { *)
Definition VMRS_INST : CPU flow :=
  match inst_component with
  | vmsr_inst r rt =>
      label_ cond 8
        (let copy x := v ← vfp_reg_get x; set_reg rt v in
         if r =? 1 then
           if negb (rt =? 15) then copy VFP_FPSCR
           else
             fpscr ← vfp_reg_get VFP_FPSCR;
             modify (λ s, s<|NFlag := (fpscr ≫ 31) .& 1|><|ZFlag := (fpscr ≫ 30) .& 1|>
                           <|CFlag := (fpscr ≫ 29) .& 1|><|VFlag := (fpscr ≫ 28) .& 1|>)
         else if r =? 0 then copy VFP_FPSID
         else if r =? 6 then copy VFP_MVFR1
         else if r =? 7 then copy VFP_MVFR0
         else
           priv ← gets InAPrivilegedMode;
           when_ priv
             (if r =? 8 then copy VFP_FPEXC
              else if r =? 9 then copy VFP_FPINST
              else if r =? 10 then copy VFP_FPINST2
              else mret tt))
  | _ => fail
  end.

(* src: vfpinstr.cpp | VMOVBCR_INST : { *)
Definition VMOVBCR_INST : CPU flow :=
  match inst_component with
  | vmovbrc_inst _ index d t => label_ cond 16 (v ← ext_get (2 * d + index); set_reg t v)
  | _ => fail
  end.

(* src: vfpinstr.cpp | VMOVBRRSS_INST : { *)
Definition VMOVBRRSS_INST : CPU flow :=
  match inst_component with
  | vmovbrrss_inst to_arm t t2 m => label_ cond 16 (with_regs t t2 (λ s, VMOVBRRSS s to_arm m))
  | _ => fail
  end.

(* src: vfpinstr.cpp | VMOVBRRD_INST : { *)
Definition VMOVBRRD_INST : CPU flow :=
  match inst_component with
  | vmovbrrss_inst to_arm t t2 m => label_ cond 16 (with_regs t t2 (λ s, VMOVBRRD s to_arm m))
  | _ => fail
  end.
End labels.

(** * Loads and stores *)

Section memory.
Context {W : Type} {bus : Bus W}.
Abbreviation M := (ST (Machine W)).
Definition xget (i : Z) : M Z := on_cpu (ext_get i).
Definition xput (i v : Z) : M unit := on_cpu (ext_put i v).

(** One register to or from memory; a double register has its more significant
    word first in big-endian mode. *)
(* src: vfpinstr.cpp | if (inst_cream->single) { #1 | VSTR_INST | +14 *)
Definition store_ext (single d addr : Z) : M unit :=
  if nz single then v ← xget d; WriteMemory32 addr v
  else
    word1 ← xget (d * 2 + 0); word2 ← xget (d * 2 + 1);
    big ← on_cpu (gets InBigEndianMode);
    if big : bool
    then WriteMemory32 (u32 (addr + 0)) word2;; WriteMemory32 (u32 (addr + 4)) word1
    else WriteMemory32 (u32 (addr + 0)) word1;; WriteMemory32 (u32 (addr + 4)) word2.
(* src: vfpinstr.cpp | cpu->ExtReg[inst_cream->d] = cpu->ReadMemory32(addr); | VLDR_INST | +13 *)
Definition load_ext (single d addr : Z) : M unit :=
  if nz single then v ← ReadMemory32 addr; xput d v
  else
    word1 ← ReadMemory32 (u32 (addr + 0)); word2 ← ReadMemory32 (u32 (addr + 4));
    big ← on_cpu (gets InBigEndianMode);
    if big : bool
    then xput (d * 2 + 0) word2;; xput (d * 2 + 1) word1
    else xput (d * 2 + 0) word1;; xput (d * 2 + 1) word2.

(** [for (unsigned int i = 0; i < regs; i++)], from the register [d]. *)
Fixpoint each_ext (access : Z -> Z -> M unit) (single : Z) (regs : nat) (d addr : Z) : M unit :=
  match regs with
  | O => mret tt
  | S regs =>
      access d addr;; each_ext access single regs (d + 1) (u32 (addr + (if nz single then 4 else 8)))
  end.

Section labels.
Context (cond : Z) (inst_component : component).

(** The address of [VSTR] and [VLDR]. *)
(* src: vfpinstr.cpp | unsigned int base = (inst_cream->n == 15 #1 | VSTR_INST | +3 *)
Definition vfp_address (n imm32 add : Z) : M Z :=
  r ← get n;
  let base := if n =? 15 then u32 ((r .& 0xFFFFFFFC) + 8) else r in
  mret (if nz add then u32 (base + imm32) else u32 (base - imm32)).

(* src: vfpinstr.cpp | VSTR_INST : { *)
Definition VSTR_INST : M flow :=
  match inst_component with
  | vstr_inst single n d imm32 add =>
      m_label_ cond 20 (addr ← vfp_address n imm32 add; store_ext single d addr)
  | _ => fail
  end.
(* src: vfpinstr.cpp | VLDR_INST : { *)
Definition VLDR_INST : M flow :=
  match inst_component with
  | vstr_inst single n d imm32 add =>
      m_label_ cond 20 (addr ← vfp_address n imm32 add; load_ext single d addr)
  | _ => fail
  end.

(* src: vfpinstr.cpp | VPUSH_INST : { *)
Definition VPUSH_INST : M flow :=
  match inst_component with
  | vpush_inst single d imm32 regs =>
      m_label_ cond 16
        (r ← get 13;
         each_ext (store_ext single) single (Z.to_nat regs) d (u32 (r - imm32));;
         r ← get 13; put 13 (u32 (r - imm32)))
  | _ => fail
  end.
(* src: vfpinstr.cpp | VPOP_INST : { *)
Definition VPOP_INST : M flow :=
  match inst_component with
  | vpush_inst single d imm32 regs =>
      m_label_ cond 16
        (addr ← get 13;
         each_ext (load_ext single) single (Z.to_nat regs) d addr;;
         r ← get 13; put 13 (u32 (r + imm32)))
  | _ => fail
  end.

(** The body that [VSTM] and [VLDM] share. *)
(* src: vfpinstr.cpp | u32 address = cpu->Reg[inst_cream->n]; #1 | VSTM_INST | ..cpu->Reg[inst_cream->n] - inst_cream->imm32); *)
Definition vfp_multiple (access : Z -> Z -> M unit) (single add wback d n imm32 regs : Z) : M unit :=
  r ← get n;
  let address := if n =? 15 then u32 (r + 8) else r in
  let address := if add =? 0 then u32 (address - imm32) else address in
  each_ext access single (Z.to_nat regs) d address;;
  if nz wback then r ← get n; put n (if nz add then u32 (r + imm32) else u32 (r - imm32)) else mret tt.

(** [VSTM_INST] steps the program counter by 4 whatever the instruction set. *)
(* src: vfpinstr.cpp | VSTM_INST : /* encoding 1 */ *)
Definition VSTM_INST : M flow :=
  match inst_component with
  | vstm_inst single add wback d n imm32 regs =>
      p ← on_cpu (passed cond);
      (if p : bool then vfp_multiple (store_ext single) single add wback d n imm32 regs else mret tt);;
      on_cpu (set_pc (λ s, u32 (pc s + 4)));; mret (Next 28)
  | _ => fail
  end.
(* src: vfpinstr.cpp | VLDM_INST : { *)
Definition VLDM_INST : M flow :=
  match inst_component with
  | vstm_inst single add wback d n imm32 regs =>
      m_label_ cond 28 (vfp_multiple (load_ext single) single add wback d n imm32 regs)
  | _ => fail
  end.
End labels.
End memory.
