(* ===== verification/Interp.v ===== *)
(** The interpreter: [arm_dyncom_interpreter.cpp]'s translation of basic blocks
    into the shared buffer and its main loop, and [arm_dyncom.cpp].

    The debugger's server is off; the build is the desktop one. *)

From S2P Require Import Prelude ArmSupp ArmState ArmOps ArmTrans ArmDec Thumb ArmInst ArmMedia ArmMem Vfp VfpInstr.

(** What the interpreter asks of the rest of the system: the timer of the running
    core, and supervisor calls, which act on the whole machine. *)
Class Kernel (W : Type) := {
  AddTicks : Z -> ST W unit;
  CallSVC : Z -> ST (Machine W) unit
}.

(** * Translation *)

Section translate.
Context {W : Type} {bus : Bus W}.
Abbreviation M := (ST (Machine W)).

(** An instruction at [o] has bytes in common with the [n] bytes at [start]. *)
Definition overlaps (start n : Z) (x : Z * arm_inst) : Prop :=
  x.1 < start + n ∧ start < x.1 + sizeof_arm_inst + sizeof (inst_component x.2).

(** [AllocBuffer] for an instruction and its structure, which are then written:
    an instruction that they overwrite in part is gone.  [None] is the failed
    assertion. *)
(* src: arm_dyncom_trans.cpp | static void* AllocBuffer(std::size_t size) { *)
Definition AllocBuffer (i : arm_inst) : M Z := λ m,
  let start := trans_cache_buf_top m in
  let size := sizeof_arm_inst + sizeof (inst_component i) in
  if start + size <=? TRANS_CACHE_SIZE then
    Some (start,
      m<|trans_cache_buf_top := start + size|>
       <|trans_cache_buf := <[start := i]> (filter (λ x, ¬ overlaps start size x) (trans_cache_buf m))|>)
  else None.

Definition inst_at (o : Z) : M arm_inst := λ m, i ← trans_cache_buf m !! o; Some (i, m).
Definition set_br (o : Z) (b : TransExtData) : M unit := λ m,
  i ← trans_cache_buf m !! o;
  Some (tt, m<|trans_cache_buf := <[o := mk_arm_inst (idx i) (cond i) b (inst_component i)]> (trans_cache_buf m)|>).

(** [arm_instruction_trans[index](inst, index)] *)
Definition translate (inst index : Z) : option arm_inst :=
  f ← arm_instruction_trans !! Z.to_nat index; Some (f inst index).

(** The status, the ARM word, the size, and the instruction of a branch ([None]
    leaves [*ptr_inst_base] as it was). *)
(* src: arm_dyncom_interpreter.cpp | static ThumbDecodeStatus DecodeThumbInstruction(u32 inst *)
Definition DecodeThumbInstruction (inst addr : Z) : ThumbDecodeStatus * Z * Z * option arm_inst :=
  let '(ret, ainstr, inst_size) := TranslateThumbInstruction addr inst in
  match ret with
  | BRANCH =>
      let table_length := arm_instruction_trans_len in
      let tinstr := GetThumbInstruction inst addr in
      let branch inst_index := (BRANCH, ainstr, inst_size, translate tinstr inst_index) in
      match (tinstr .& 0xF800) ≫ 11 with
      | 26 | 27 =>
          if negb (tinstr .& 0x0F00 =? 0x0E00) && negb (tinstr .& 0x0F00 =? 0x0F00)
          then branch (table_length - 4)
          else (BRANCH, ainstr, inst_size, None)
      | 28 => branch (table_length - 5)
      | 8 | 29 => branch (table_length - 1)
      | 30 => branch (table_length - 3)
      | 31 => branch (table_length - 2)
      | _ => (UNDEFINED, ainstr, inst_size, None)
      end
  | _ => (ret, ainstr, inst_size, None)
  end.

(** The size of the instruction at [phys_addr] and the offset of its translation.
    A decode failure leaves the index uninitialised. *)
(* src: arm_dyncom_interpreter.cpp | static unsigned int InterpreterTranslateInstruction( *)
Definition InterpreterTranslateInstruction (phys_addr : Z) : M (Z * Z) :=
  inst ← on_world (bus_read 4 (phys_addr .& 0xFFFFFFFC));
  t ← on_cpu (gets TFlag);
  let '(state, arm_inst, inst_size, branch) :=
    if nz t then DecodeThumbInstruction inst phys_addr else (UNINITIALIZED, inst, 4, None) in
  match (if nz t && bool_decide (state = BRANCH) then branch
         else idx ← DecodeARMInstruction arm_inst; translate arm_inst idx) with
  | Some i => inst_base ← AllocBuffer i; mret (inst_size, inst_base)
  | None => fail
  end.

Definition cache_block (pc_start bb_start : Z) : M unit :=
  modify (λ m, m<|instruction_cache := <[pc_start := bb_start]> (instruction_cache m)|>).

(** The body of the loop that translates a block: the address of the next
    instruction, and [ret]. *)
(* src: arm_dyncom_interpreter.cpp | u32 inst_size = InterpreterTranslateInstruction( | InterpreterTranslateBlock | +7 *)
Definition translate_next (phys_addr : Z) : M (Z * TransExtData) :=
  '(inst_size, inst_base) ← InterpreterTranslateInstruction phys_addr;
  let phys_addr := u32 (phys_addr + inst_size) in
  (if phys_addr .& 0xfff =? 0 then set_br inst_base END_OF_PAGE else mret tt);;
  i ← inst_at inst_base;
  mret (phys_addr, br i).

(** [while (ret == TransExtData::NON_BRANCH)]: a page has at most 2^11
    instructions. *)
Definition block_step (s : Z * Machine W) : (Z * Machine W) + option (Machine W) :=
  match translate_next s.1 s.2 with
  | None => inr None
  | Some ((phys_addr, ret), m) =>
      if decide (ret = NON_BRANCH) then inl (phys_addr, m) else inr (Some m)
  end.

(** The offset of the translation. *)
(* src: arm_dyncom_interpreter.cpp | static int InterpreterTranslateBlock(ARMul_State* *)
Definition InterpreterTranslateBlock (addr : Z) : M Z := λ m,
  let bb_start := trans_cache_buf_top m in
  let pc_start := pc (cpu m) in
  m ← mjoin (loop_result (loop 11 block_step (addr, m)));
  (cache_block pc_start bb_start;; mret bb_start) m.

(* src: arm_dyncom_interpreter.cpp | static int InterpreterTranslateSingle(ARMul_State* *)
Definition InterpreterTranslateSingle (addr : Z) : M Z :=
  bb_start ← gets trans_cache_buf_top;
  pc_start ← on_cpu (gets pc);
  '(_, inst_base) ← InterpreterTranslateInstruction addr;
  i ← inst_at inst_base;
  (if bool_decide (br i = NON_BRANCH) then set_br inst_base SINGLE_STEP else mret tt);;
  cache_block pc_start bb_start;;
  mret bb_start.
End translate.

(** * The main loop *)

(** The machine and the local variables of [InterpreterMainLoop]; [inst_base] and
    [ptr] are offsets in the translation buffer. *)
(* src: arm_dyncom_interpreter.cpp | arm_inst* inst_base; | InterpreterMainLoop | ..std::size_t ptr; *)
Record Loop (W : Type) := mk_Loop { mach : Machine W; inst_base : Z; ptr : Z; num_instrs : Z }.
Arguments mk_Loop {W}.
Arguments mach {W}.
Arguments inst_base {W}.
Arguments ptr {W}.
Arguments num_instrs {W}.

(** Where the main loop goes on; [Goto_INST] is [GOTO_NEXT_INST]. *)
Inductive jump := Goto_DISPATCH | Goto_INST | Goto_return.

Section main_loop.
Context {W : Type} {bus : Bus W} {kernel : Kernel W}.
Abbreviation M := (ST (Machine W)).
Abbreviation L := (ST (Loop W)).

Definition on_mach {A} (m : M A) : L A := zoom mach (λ k (l : Loop W), l<|mach := k|>) m.
Definition l_cpu {A} (m : CPU A) : L A := on_mach (on_cpu m).
Definition set_NumInstrsToExecute (f : ARMul_State -> Z) : L unit :=
  l_cpu (modify (λ s, s<|NumInstrsToExecute := f s|>)).

(** ** Labels *)

(* src: arm_dyncom_interpreter.cpp | SWI_INST : { *)
Definition SWI_INST (cond : Z) (inst_component : component) : L flow :=
  match inst_component with
  | swi_inst num =>
      p ← l_cpu (passed cond);
      (if p : bool then
         num_instrs ← gets num_instrs;
         on_mach (on_world (AddTicks num_instrs));;
         set_NumInstrsToExecute (λ s,
           if NumInstrsToExecute s <=? num_instrs then 0 else NumInstrsToExecute s - num_instrs);;
         modify (λ l, l<|Interp.num_instrs := 0|>);;
         on_mach (CallSVC (num .& 0xFFFF));;
         l_cpu (modify UnsetExclusiveMemoryAddress)
       else mret tt);;
      l_cpu (advance 4)
  | _ => fail
  end.

(* src: arm_dyncom_interpreter.cpp | END : { *)
Definition END : L unit := l_cpu (modify SAVE_NZCVT);; set_NumInstrsToExecute (λ _, 0).
(* src: arm_dyncom_interpreter.cpp | INIT_INST_LENGTH : { *)
Definition INIT_INST_LENGTH : L unit := set_NumInstrsToExecute (λ _, 0).

Definition goto_DISPATCH (_ : Z) (_ : component) : L flow := mret Dispatch.
Definition goto_INIT_INST_LENGTH (_ : Z) (_ : component) : L flow := INIT_INST_LENGTH;; mret Return.
Definition goto_END (_ : Z) (_ : component) : L flow := END;; mret Return.

#[local] Abbreviation c f := (λ cond comp, l_cpu (f cond comp)).
#[local] Abbreviation m f := (λ cond comp, on_mach (f cond comp)).
(** Labels that do not look at the condition. *)
#[local] Abbreviation c1 f := (λ _ comp, l_cpu (f comp)).
#[local] Abbreviation m1 f := (λ _ comp, on_mach (f comp)).

(** Labels with one body are named by the first of them. *)
(* src: arm_dyncom_interpreter.cpp | void* InstLabel[] = { | InterpreterMainLoop | ..&&END}; *)
Definition InstLabel : list (Z -> component -> L flow) := [
  c VMLA_INST; c VMLS_INST; c VNMLA_INST; c VNMLS_INST; c VNMUL_INST; c VMUL_INST; c VADD_INST; c VSUB_INST;
  c VDIV_INST; c VMOVI_INST; c VMOVR_INST; c VABS_INST; c VNEG_INST; c VSQRT_INST; c VCMP_INST;
  c VCMP2_INST; c VCVTBDS_INST; c VCVTBFF_INST; c VCVTBFI_INST; c VMOVBRS_INST; c VMSR_INST; c VMOVBRC_INST;
  c VMRS_INST; c VMOVBCR_INST; c VMOVBRRSS_INST; c VMOVBRRD_INST; m VSTR_INST; m VPUSH_INST; m VSTM_INST;
  m VPOP_INST; m VLDR_INST; m VLDM_INST; m1 SRS_INST; m1 RFE_INST; c BKPT_INST; c BLX_INST; c1 CPS_INST;
  c1 PLD_INST; c1 SETEND_INST; c1 CLREX_INST; c REV_INST; c USAD8_INST; c SXTB_INST; c UXTB_INST;
  c SXTH_INST; c SXTAB16_INST; c UXTH_INST; c UXTAB16_INST; c CPY_INST; c UXTAB_INST; c SADD8_INST;
  c SHADD8_INST; c SADD8_INST; m STREX_INST; m STREXB_INST; m SWP_INST; m SWPB_INST; c SADD8_INST;
  c SSAT16_INST; c SHADD8_INST; c QADD8_INST; c SHADD8_INST; c SHADD8_INST; c SHADD8_INST; c SEL_INST;
  c SADD8_INST; c SADD8_INST; c SADD8_INST; c SHADD8_INST; c UMAAL_INST; c UXTAB16_INST; c UADD8_INST;
  c UADD8_INST; c UADD8_INST; c USAT16_INST; c USAD8_INST; c UQADD8_INST; c UQADD8_INST; c UQADD8_INST;
  c UQADD8_INST; c UQADD8_INST; c UQADD8_INST; c SXTAB_INST; c UHADD8_INST; c UHADD8_INST; c UHADD8_INST;
  c UHADD8_INST; c UHADD8_INST; c UHADD8_INST; c UADD8_INST; c UADD8_INST; c UADD8_INST; c SXTAH_INST;
  c SXTAB16_INST; c QADD8_INST; c BX_INST; c CLZ_INST; c UXTAH_INST; c BX_INST; c REV_INST; c BLX_INST;
  c REV_INST; c QADD_INST; c QADD8_INST; c QADD8_INST; m LDREX_INST; c QADD_INST; c QADD_INST; c QADD_INST;
  m LDREXB_INST; c QADD8_INST; c QADD8_INST; c SMLAD_INST; c SMMLA_INST; c SMLAD_INST; c SMLAD_INST;
  c SMLALD_INST; c SMMLA_INST; c SMMLA_INST; c SMLALD_INST; c SMLAD_INST; c SMLAW_INST; c SMULW_INST;
  c PKHTB_INST; c PKHBT_INST; c SMUL_INST; c SMLALXY_INST; c SMLA_INST; c MCRR_INST; c MRRC_INST;
  c CMP_INST; c TST_INST; c TEQ_INST; c CMN_INST; c SMULL_INST; c UMULL_INST; c UMLAL_INST; c SMLAL_INST;
  c MUL_INST; c MLA_INST; c SSAT_INST; c USAT_INST; c MRS_INST; c MSR_INST; c AND_INST; c BIC_INST;
  m LDM_INST; c EOR_INST; c ADD_INST; c RSB_INST; c RSC_INST; c SBC_INST; c ADC_INST; c SUB_INST;
  c ORR_INST; c MVN_INST; c MOV_INST; m STM_INST; m LDM_INST; m LDRSH_INST; m STM_INST; m LDM_INST;
  m LDRSB_INST; m STRD_INST; m LDRH_INST; m STRH_INST; m LDRD_INST; m STRT_INST; m STRBT_INST; m LDRBT_INST;
  m LDRT_INST; c MRC_INST; c MCR_INST; c MSR_INST; c MSR_INST; c MSR_INST; c MSR_INST; c MSR_INST;
  m LDRB_INST; m STRB_INST; m1 LDR_INST; m LDRCOND_INST; m STR_INST; c CDP_INST; c1 STC_INST; c1 LDC_INST;
  m LDREXD_INST; m STREXD_INST; m LDREXH_INST; m STREXH_INST; c1 NOP_INST; c1 YIELD_INST; c1 WFE_INST;
  c1 WFI_INST; c1 SEV_INST; SWI_INST; c BBL_INST; c1 B_2_THUMB; c1 B_COND_THUMB; c1 BL_1_THUMB;
  c1 BL_2_THUMB; c1 BLX_1_THUMB; goto_DISPATCH; goto_INIT_INST_LENGTH; goto_END
].

(** ** Dispatch *)

(** [GDB_BP_CHECK] without a server. *)
(* src: arm_dyncom_interpreter.cpp | cpu->Cpsr &= ~(1 << 5); #1 | GDB_BP_CHECK | +2 *)
Definition GDB_BP_CHECK (s : ARMul_State) : ARMul_State :=
  s<|Cpsr := (Cpsr s .& unot 32 (1 ≪ 5)) .| u32 (TFlag s ≪ 5)|>.

(** The end of the label of the instruction at [base]: [INC_PC] and [FETCH_INST],
    or the jump it ends with. *)
(* src: arm_dyncom_interpreter.cpp | #define FETCH_INST | FETCH_INST | ..#define INC_PC_STUB *)
Definition FETCH_INST (base : Z) (f : flow) : L jump :=
  match f with
  | Next size =>
      modify (λ l, l<|ptr := ptr l + sizeof_arm_inst + size|>);;
      i ← on_mach (inst_at base);
      if decide (br i = NON_BRANCH)
      then modify (λ l, l<|inst_base := ptr l|>);; mret Goto_INST
      else mret Goto_DISPATCH
  | Dispatch => mret Goto_DISPATCH
  | Return => mret Goto_return
  end.

(** [goto* InstLabel[inst_base->idx]] *)
Definition goto_label : L jump :=
  base ← gets inst_base;
  i ← on_mach (inst_at base);
  f ← match InstLabel !! Z.to_nat (idx i) with
      | Some label => label (cond i) (inst_component i)
      | None => fail
      end;
  FETCH_INST base f.

(* src: arm_dyncom_interpreter.cpp | #define GOTO_NEXT_INST #1 | GOTO_NEXT_INST | +6 *)
Definition GOTO_NEXT_INST : L jump :=
  l_cpu (modify GDB_BP_CHECK);;
  n ← gets num_instrs;
  limit ← l_cpu (gets NumInstrsToExecute);
  if limit <=? n then END;; mret Goto_return
  else modify (λ l, l<|num_instrs := u32 (n + 1)|>);; goto_label.

(* src: arm_dyncom_interpreter.cpp | if (cpu->TFlag) #2 | InterpreterMainLoop | +4 *)
Definition align_pc (s : ARMul_State) : ARMul_State :=
  s<|Reg := <[15%nat := if nz (TFlag s) then pc s .& 0xfffffffe else pc s .& 0xfffffffc]> (Reg s)|>.

(** The translation of the block at the program counter. *)
(* src: arm_dyncom_interpreter.cpp | auto itr = cpu->instruction_cache.find | InterpreterMainLoop | +10 *)
Definition find_block : M Z :=
  start ← on_cpu (gets pc);
  itr ← gets (λ k, instruction_cache k !! start);
  match itr with
  | Some o => mret o
  | None =>
      limit ← on_cpu (gets NumInstrsToExecute);
      if negb (limit =? 1) then InterpreterTranslateBlock start else InterpreterTranslateSingle start
  end.

(* src: arm_dyncom_interpreter.cpp | DISPATCH : { *)
Definition DISPATCH : L jump :=
  irq ← l_cpu (gets (λ s, (NirqSig s =? 0) && (Cpsr s .& 0x80 =? 0)));
  if irq : bool then END;; mret Goto_return
  else
    l_cpu (modify align_pc);;
    o ← on_mach find_block;
    modify (λ l, l<|ptr := o|><|inst_base := o|>);;
    mret Goto_INST.

(** One jump of the main loop: [inr] leaves it, with the machine and the number
    of instructions, or [None] where the behaviour is undefined. *)
Definition main_step (x : bool * Loop W) : (bool * Loop W) + option (Z * Machine W) :=
  match (if x.1 then DISPATCH else GOTO_NEXT_INST) x.2 with
  | None => inr None
  | Some (Goto_DISPATCH, l) => inl (true, l)
  | Some (Goto_INST, l) => inl (false, l)
  | Some (Goto_return, l) => inr (Some (num_instrs l, mach l))
  end.

Definition main_loop (n : nat) (k : Machine W) : (bool * Loop W) + option (Z * Machine W) :=
  loop n main_step (true, mk_Loop (k<|cpu := LOAD_NZCVT (cpu k)|>) 0 0 0).

(** [num_instrs] has 32 bits: 2^34 jumps are enough. *)
(* src: arm_dyncom_interpreter.cpp | unsigned InterpreterMainLoop(ARMul_State* cpu) { | InterpreterMainLoop | +6 *)
Definition InterpreterMainLoop (k : Machine W) : option (Z * Machine W) :=
  mjoin (loop_result (main_loop 34 k)).
End main_loop.
