(* ===== verification/DynCom.v ===== *)
(** The processor as the rest of the emulator sees it: [ARM_DynCom] of
    [arm_dyncom.h] and [arm_dyncom.cpp]. *)

From S2P Require Import Prelude KernelState ArmState ArmOps ArmMem Vfp Interp.

(** The timer of the processor, a shared pointer. *)
Record CoreTimer (W : Type) := mk_CoreTimer { get_downcount : W -> Z; add_ticks : Z -> ST W unit }.
Arguments get_downcount {W}.
Arguments add_ticks {W}.

Section dyncom.
Context {W : Type} {bus : Bus W} {kernel : Kernel W}.
Abbreviation M := (ST (Machine W)).

(** [ServeBreak] returns at once without the debugger's server. *)
(* src: arm_dyncom.cpp | void ARM_DynCom::ExecuteInstructions(u64 num_instructions) { *)
Definition ExecuteInstructions (timer : option (CoreTimer W)) (num_instructions : Z) : M unit :=
  on_cpu (modify (λ s, s<|NumInstrsToExecute := num_instructions|>));;
  ticks_executed ← InterpreterMainLoop;
  match timer with Some t => on_world (add_ticks t ticks_executed) | None => mret tt end.

(** [None] without a timer, which is dereferenced. *)
(* src: arm_dyncom.cpp | void ARM_DynCom::Run() { *)
Definition Run (timer : option (CoreTimer W)) : M unit :=
  match timer with
  | Some t => downcount ← on_world (gets (get_downcount t)); ExecuteInstructions timer (Z.max downcount 0)
  | None => fail
  end.
(* src: arm_dyncom.cpp | void ARM_DynCom::Step() { *)
Definition Step (timer : option (CoreTimer W)) : M unit := ExecuteInstructions timer 1.

Implicit Types (m : Machine W).

(* src: arm_dyncom.cpp | void ARM_DynCom::ClearInstructionCache() { *)
Definition ClearInstructionCache m : Machine W := m<|instruction_cache := ∅|><|trans_cache_buf_top := 0|>.
(* src: arm_dyncom.cpp | void ARM_DynCom::InvalidateCacheRange( *)
Definition InvalidateCacheRange (start_address length : Z) m : Machine W := ClearInstructionCache m.
(* src: arm_dyncom.cpp | void ARM_DynCom::SetPageTable( *)
Definition SetPageTable m : Machine W := ClearInstructionCache m.
(* src: arm_dyncom.h *)
Definition ClearExclusiveState m : Machine W := m.

(* src: arm_dyncom.cpp | void ARM_DynCom::SetPC(u32 pc) { *)
Definition SetPC (pc : Z) : CPU unit := set_reg 15 pc.
(* src: arm_dyncom.cpp | u32 ARM_DynCom::GetPC() const { *)
Definition GetPC : CPU Z := reg 15.
(* src: arm_dyncom.cpp | u32 ARM_DynCom::GetReg(int index) const { *)
Definition GetReg (index : Z) : CPU Z := reg index.
(* src: arm_dyncom.cpp | void ARM_DynCom::SetReg(int index, u32 value) { *)
Definition SetReg (index value : Z) : CPU unit := set_reg index value.
(* src: arm_dyncom.cpp | u32 ARM_DynCom::GetVFPReg(int index) const { *)
Definition GetVFPReg (index : Z) : CPU Z := VfpInstr.ext_get index.
(* src: arm_dyncom.cpp | void ARM_DynCom::SetVFPReg(int index, u32 value) { *)
Definition SetVFPReg (index value : Z) : CPU unit := VfpInstr.ext_put index value.
(* src: arm_dyncom.cpp | u32 ARM_DynCom::GetVFPSystemReg(VFPSystemRegister reg) const { *)
Definition GetVFPSystemReg (r : VFPSystemRegister) : CPU Z := gets (λ s, rd (VFP s) (vfp_reg r)).
(* src: arm_dyncom.cpp | void ARM_DynCom::SetVFPSystemReg(VFPSystemRegister reg *)
Definition SetVFPSystemReg (r : VFPSystemRegister) (value : Z) : CPU unit := modify (λ s, set_vfp s r value).
(* src: arm_dyncom.cpp | u32 ARM_DynCom::GetCPSR() const { *)
Definition GetCPSR : CPU Z := gets Cpsr.
(* src: arm_dyncom.cpp | void ARM_DynCom::SetCPSR(u32 cpsr) { *)
Definition SetCPSR (cpsr : Z) : CPU unit := modify (λ s, s<|Cpsr := cpsr|>).
(* src: arm_dyncom.cpp | u32 ARM_DynCom::GetCP15Register(CP15Register reg) const { *)
Definition GetCP15Register (r : CP15Register) : CPU Z := gets (λ s, CP15 s r).
(* src: arm_dyncom.cpp | void ARM_DynCom::SetCP15Register(CP15Register reg *)
Definition SetCP15Register (r : CP15Register) (value : Z) : CPU unit :=
  modify (λ s, s<|CP15 := <[r := value]> (CP15 s)|>).

(** The context of a thread: [ctx] is overwritten member by member. *)
(* src: arm_dyncom.cpp | void ARM_DynCom::SaveContext(ThreadContext& ctx) { *)
Definition SaveContext (s : ARMul_State) (ctx : ThreadContext) : ThreadContext :=
  ctx<|cpu_registers := Reg s|><|cpsr := Cpsr s|><|fpu_registers := ExtReg s|>
     <|fpscr := rd (VFP s) (vfp_reg VFP_FPSCR)|><|fpexc := rd (VFP s) (vfp_reg VFP_FPEXC)|>.
(* src: arm_dyncom.cpp | void ARM_DynCom::LoadContext(const ThreadContext& ctx) { *)
Definition LoadContext (ctx : ThreadContext) (s : ARMul_State) : ARMul_State :=
  s<|Reg := cpu_registers ctx|><|Cpsr := cpsr ctx|><|ExtReg := fpu_registers ctx|>
   <|VFP := <[vfp_reg VFP_FPEXC := fpexc ctx]> (<[vfp_reg VFP_FPSCR := fpscr ctx]> (VFP s))|>.

(* src: arm_dyncom.cpp | void ARM_DynCom::PrepareReschedule() { *)
Definition PrepareReschedule m : Machine W := m<|cpu := (cpu m)<|NumInstrsToExecute := 0|>|>.
End dyncom.
