(* ===== verification/ArmTyped.v ===== *)
(** The type invariant of the processor: arrays of their lengths, words of 32
    bits, flags of one, and how a computation is shown to keep it.

    The invariant bounds [NumInstrsToExecute] too, which no instruction raises. *)

From S2P Require Import Prelude ArmSupp ArmState ArmOps ArmTrans ArmInst ArmMedia.

(** * Ranges of words *)

Create HintDb rng.

Lemma range_BITS w s a b : 0 <= a <= b -> b <= 31 -> b - a + 1 <= w -> in_range w (BITS s a b).
Proof. intros. apply (range_weaken (b - a + 1)); [done|lia|]. by apply BITS_range. Qed.
Lemma range_BIT w s n : 1 <= w -> in_range w (BIT s n).
Proof. intros. apply (range_weaken 1); [done|lia|]. apply BIT_range. Qed.
Lemma range_b2z w b : 1 <= w -> in_range w (Z.b2z b).
Proof. intros. apply (range_weaken 1); [done|lia|]. by destruct b. Qed.
Lemma range_uwrap v w x : 0 <= v <= w -> in_range w (uwrap v x).
Proof. intros. apply (range_weaken v); [lia..|]. apply uwrap_range. lia. Qed.
Lemma range_unot v w x : 0 <= v <= w -> in_range w (unot v x).
Proof. apply range_uwrap. Qed.

#[export] Hint Resolve range_BIT range_b2z range_uwrap range_unot : rng.
#[export] Hint Extern 1 (_ <= _) => lia : rng.
#[export] Hint Extern 1 (_ <= _ <= _) => lia : rng.

(** The range of an expression, from the ranges of its variables. *)
Ltac rng :=
  lazymatch goal with
  | |- in_range _ (if ?b then _ else _) => destruct b; rng
  | |- in_range _ (let x := _ in _) => cbv zeta; rng
  | |- in_range _ (match ?b with _ => _ end) => destruct b; rng
  | |- in_range _ (Z.land _ _) =>
      first [solve [apply range_land_r; [lia|rng]] | solve [apply range_land_l; [lia|rng]]]
  | |- in_range _ (Z.lor _ _) => apply range_lor; [lia|rng|rng]
  | |- in_range _ (Z.lxor _ _) => apply range_lxor; [lia|rng|rng]
  | |- in_range _ (Z.shiftl _ _) => apply range_shiftl; [lia|rng]
  | |- in_range _ (BITS _ _ _) => solve [apply range_BITS; lia]
  | |- in_range _ (Z.shiftr _ ?n) =>
      first [ assumption | solve [apply range_shiftr; [lia|rng]]
            | solve [apply range_shiftr; [apply Z_mod_lt; lia|rng]] ]
  | |- in_range ?w ?x =>
      first [ assumption
            | solve [eauto 3 with rng]
            | is_zcst x; solve [split; [lia|vm_compute; reflexivity]]
            | match goal with H : in_range ?v x |- _ => solve [apply (range_weaken v); [lia|lia|exact H]] end
            | match x with context [if ?b then _ else _] => destruct b; cbn [fst snd]; rng end ]
  end.

Lemma range_lsl32 n i : in_range 32 (lsl32 n i).
Proof. unfold lsl32. rng. Qed.
Lemma range_lsr32 n i : in_range 32 n -> in_range 32 (lsr32 n i).
Proof. unfold lsr32. intros. rng. Qed.
Lemma range_asr32 n i : in_range 32 (asr32 n i).
Proof. unfold asr32. rng. Qed.
Lemma range_ror32 n i : in_range 32 n -> in_range 32 (ROTATE_RIGHT_32 n i).
Proof. intros. apply range_lor; [lia|apply range_lsl32|by apply range_lsr32]. Qed.
#[export] Hint Resolve range_lsl32 range_asr32 : rng.
#[export] Hint Extern 2 (in_range 32 (lsr32 _ _)) => apply range_lsr32; rng : rng.
#[export] Hint Extern 2 (in_range 32 (ROTATE_RIGHT_32 _ _)) => apply range_ror32; rng : rng.

(** * The invariant *)

Abbreviation words := (Forall (in_range 32)).

(** Well-typed, and at most [n] instructions to execute. *)
Record cpu_ok (n : Z) (s : ARMul_State) : Prop := mk_cpu_ok {
  ok_len : state_ok s;
  ok_Reg : words (Reg s);
  ok_Reg_usr : words (Reg_usr s);
  ok_Reg_svc : words (Reg_svc s);
  ok_Reg_abort : words (Reg_abort s);
  ok_Reg_undef : words (Reg_undef s);
  ok_Reg_irq : words (Reg_irq s);
  ok_Reg_firq : words (Reg_firq s);
  ok_Spsr : words (Spsr s);
  ok_VFP : words (VFP s);
  ok_ExtReg : words (ExtReg s);
  ok_CP15 : ∀ r, in_range 32 (CP15 s r);
  ok_Cpsr : in_range 32 (Cpsr s);
  ok_Spsr_copy : in_range 32 (Spsr_copy s);
  ok_Mode : in_range 32 (Mode s);
  ok_NFlag : in_range 1 (NFlag s);
  ok_ZFlag : in_range 1 (ZFlag s);
  ok_CFlag : in_range 1 (CFlag s);
  ok_VFlag : in_range 1 (VFlag s);
  ok_TFlag : in_range 1 (TFlag s);
  ok_sc : in_range 1 (shifter_carry_out s);
  ok_tag : in_range 32 (exclusive_tag s);
  ok_N : 0 <= NumInstrsToExecute s <= n
}.

Ltac cpu_ok_field s :=
  destruct s; intros []; unfold state_ok in *; cbn in *; constructor; unfold state_ok; cbn; rewrite ?length_insert; auto; try tauto.

Section fields.
Context (n : Z) (s : ARMul_State).
Lemma ok_set_Reg i v : cpu_ok n s -> in_range 32 v -> cpu_ok n (s<|Reg := <[i := v]> (Reg s)|>).
Proof. intros H Hv. revert H. cpu_ok_field s. by apply Forall_insert. Qed.
Lemma ok_set_Reg_usr i v : cpu_ok n s -> in_range 32 v -> cpu_ok n (s<|Reg_usr := <[i := v]> (Reg_usr s)|>).
Proof. intros H Hv. revert H. cpu_ok_field s. by apply Forall_insert. Qed.
Lemma ok_set_VFP i v : cpu_ok n s -> in_range 32 v -> cpu_ok n (s<|VFP := <[i := v]> (VFP s)|>).
Proof. intros H Hv. revert H. cpu_ok_field s. by apply Forall_insert. Qed.
Lemma ok_set_ExtReg i v : cpu_ok n s -> in_range 32 v -> cpu_ok n (s<|ExtReg := <[i := v]> (ExtReg s)|>).
Proof. intros H Hv. revert H. cpu_ok_field s. by apply Forall_insert. Qed.
Lemma ok_set_CP15 r v : cpu_ok n s -> in_range 32 v -> cpu_ok n (s<|CP15 := <[r := v]> (CP15 s)|>).
Proof.
  intros H Hv. revert H. cpu_ok_field s. intros r'. unfold insert, fn_insert. by case_decide.
Qed.
Lemma ok_set_Cpsr v : cpu_ok n s -> in_range 32 v -> cpu_ok n (s<|Cpsr := v|>).
Proof. intros H Hv. revert H. cpu_ok_field s. Qed.
Lemma ok_set_Spsr_copy v : cpu_ok n s -> in_range 32 v -> cpu_ok n (s<|Spsr_copy := v|>).
Proof. intros H Hv. revert H. cpu_ok_field s. Qed.
Lemma ok_set_NFlag v : cpu_ok n s -> in_range 1 v -> cpu_ok n (s<|NFlag := v|>).
Proof. intros H Hv. revert H. cpu_ok_field s. Qed.
Lemma ok_set_ZFlag v : cpu_ok n s -> in_range 1 v -> cpu_ok n (s<|ZFlag := v|>).
Proof. intros H Hv. revert H. cpu_ok_field s. Qed.
Lemma ok_set_CFlag v : cpu_ok n s -> in_range 1 v -> cpu_ok n (s<|CFlag := v|>).
Proof. intros H Hv. revert H. cpu_ok_field s. Qed.
Lemma ok_set_VFlag v : cpu_ok n s -> in_range 1 v -> cpu_ok n (s<|VFlag := v|>).
Proof. intros H Hv. revert H. cpu_ok_field s. Qed.
Lemma ok_set_TFlag v : cpu_ok n s -> in_range 1 v -> cpu_ok n (s<|TFlag := v|>).
Proof. intros H Hv. revert H. cpu_ok_field s. Qed.
Lemma ok_set_sc v : cpu_ok n s -> in_range 1 v -> cpu_ok n (s<|shifter_carry_out := v|>).
Proof. intros H Hv. revert H. cpu_ok_field s. Qed.
Lemma ok_set_N v : cpu_ok n s -> 0 <= v <= n -> cpu_ok n (s<|NumInstrsToExecute := v|>).
Proof. intros H Hv. revert H. cpu_ok_field s. Qed.
Lemma ok_SetExclusive a : cpu_ok n s -> cpu_ok n (SetExclusiveMemoryAddress a s).
Proof. unfold SetExclusiveMemoryAddress, RESERVATION_GRANULE_MASK. cpu_ok_field s. rng. Qed.
Lemma ok_UnsetExclusive : cpu_ok n s -> cpu_ok n (UnsetExclusiveMemoryAddress s).
Proof. unfold UnsetExclusiveMemoryAddress. cpu_ok_field s. rng. Qed.
End fields.

Lemma words_rd l i : words l -> in_range 32 (rd l i).
Proof.
  intros H. unfold rd. rewrite list_lookup_total_alt. destruct (l !! i) as [x|] eqn:E; [|done].
  by apply (Forall_lookup_1 _ _ _ _ H E).
Qed.
Lemma ok_pc n s : cpu_ok n s -> in_range 32 (pc s).
Proof. intros H. apply words_rd, H. Qed.
#[export] Hint Resolve words_rd ok_pc ok_Reg ok_Reg_usr ok_VFP ok_ExtReg ok_Cpsr ok_Spsr_copy ok_Mode ok_NFlag
  ok_ZFlag ok_CFlag ok_VFlag ok_TFlag ok_sc : rng.

(** ** Modes *)

Lemma range_mode_bits m : in_range 32 (mode_bits m).
Proof. by destruct m. Qed.
#[export] Hint Resolve range_mode_bits : rng.

Lemma ok_save_bank n s : cpu_ok n s -> cpu_ok n (save_bank s).
Proof.
  intros H. assert (R : ∀ i, in_range 32 (rd (Reg s) i)) by (intros; apply words_rd, H).
  pose proof (R 13%nat) as R13. pose proof (R 14%nat) as R14. clear R.
  assert (F : length (take 7 (drop 8 (Reg s)) ++ drop 7 (Reg_firq s)) = 7%nat ∧
              words (take 7 (drop 8 (Reg s)) ++ drop 7 (Reg_firq s))).
  { destruct H as [L ? ? ? ? ? ? ? ?]. destruct L as (L1 & _ & _ & _ & _ & _ & L2 & _). split.
    - rewrite length_app, length_take, !length_drop. lia.
    - apply Forall_app; split; [by apply Forall_take, Forall_drop|by apply Forall_drop]. }
  unfold save_bank. revert R13 R14 F.
  generalize (rd (Reg s) 13) (rd (Reg s) 14) (take 7 (drop 8 (Reg s)) ++ drop 7 (Reg_firq s)).
  intros r13 r14 f ? ? [? ?]. destruct (mode_of (Mode s)) as [[]|]; [..|done].
  all: revert H; cpu_ok_field s; repeat (apply Forall_insert; auto).
Qed.

Lemma ok_load_bank n s m : cpu_ok n s -> cpu_ok n (load_bank m s).
Proof.
  intros H. assert (P : ∀ i, in_range 32 (rd (Spsr s) i)) by (intros; apply words_rd, H).
  assert (F : ∀ bank i j, words bank -> words (<[14%nat := rd bank i]> (<[13%nat := rd bank j]> (Reg s))))
    by (intros; apply Forall_insert, words_rd; [apply Forall_insert, words_rd; [apply H|]|]; done).
  pose proof (F _ 1%nat 0%nat (ok_Reg_usr n s H)). pose proof (F _ 1%nat 0%nat (ok_Reg_irq n s H)).
  pose proof (F _ 1%nat 0%nat (ok_Reg_svc n s H)). pose proof (F _ 1%nat 0%nat (ok_Reg_abort n s H)).
  pose proof (F _ 1%nat 0%nat (ok_Reg_undef n s H)).
  assert (G : length (take 8 (Reg s) ++ Reg_firq s ++ drop 15 (Reg s)) = 16%nat ∧
              words (take 8 (Reg s) ++ Reg_firq s ++ drop 15 (Reg s))).
  { destruct H as [L ? ? ? ? ? ? ? ?]. destruct L as (L1 & _ & _ & _ & _ & _ & L2 & _). split.
    - rewrite !length_app, length_take, length_drop. lia.
    - rewrite !Forall_app. split_and!; [by apply Forall_take|done|by apply Forall_drop]. }
  clear F. unfold load_bank. cbv zeta. revert G P.
  generalize (take 8 (Reg s) ++ Reg_firq s ++ drop 15 (Reg s)).
  intros f [? ?] P. destruct (mode_of m) as [[]|]; [..|done].
  all: revert H; cpu_ok_field s; try apply P.
Qed.

Lemma ok_set_Mode n s m : cpu_ok n s -> in_range 32 m -> cpu_ok n (s<|Mode := m|>).
Proof. intros H Hm. revert H. cpu_ok_field s. Qed.

Lemma ok_ChangePrivilegeMode n s m : cpu_ok n s -> in_range 32 m -> cpu_ok n (ChangePrivilegeMode m s).
Proof.
  intros H Hm. unfold ChangePrivilegeMode. destruct (Mode s =? m); [done|].
  destruct (negb _); [|done]. cbv zeta. pose proof (ok_load_bank n _ m (ok_save_bank n s H)) as G.
  apply ok_set_Mode; [|done]. apply ok_set_Cpsr; [done|].
  apply range_lor; [lia| |done]. apply range_land_l; [lia|]. apply G.
Qed.

Lemma ok_SAVE_NZCVT n s : cpu_ok n s -> cpu_ok n (SAVE_NZCVT s).
Proof. intros H. apply ok_set_Cpsr; [done|]. rng. Qed.

Lemma ok_LOAD_NZCVT n s : cpu_ok n s -> cpu_ok n (LOAD_NZCVT s).
Proof.
  intros H. assert (T : in_range 1 (Cpsr s ≫ 31)).
  { destruct (ok_Cpsr n s H). rewrite shiftr_div by lia. unfold in_range. modlia. }
  repeat first [apply ok_set_TFlag | apply ok_set_VFlag | apply ok_set_CFlag | apply ok_set_ZFlag | apply ok_set_NFlag];
    try done; rng.
Qed.

Ltac split_ifs := repeat match goal with |- cpu_ok _ (if ?b then _ else _) => destruct b end.

Lemma ok_WriteCP15Register n s v a b c d : cpu_ok n s -> in_range 32 v -> cpu_ok n (WriteCP15Register s v a b c d).
Proof.
  intros H Hv. assert (G : cpu_ok n (cp15_write_privileged s v a b c d)).
  { unfold cp15_write_privileged. cbv zeta. split_ifs; try done; by apply ok_set_CP15. }
  unfold WriteCP15Register, cp15_write_unprivileged. cbv zeta. split_ifs; try done; by apply ok_set_CP15.
Qed.

Lemma range_ReadCP15 n s a b c d : cpu_ok n s -> in_range 32 (ReadCP15Register s a b c d).
Proof.
  intros H. set (Q o := in_range 32 (default 0 o)).
  assert (O : ∀ o p, Q o -> Q p -> Q (or_else o p)) by (by intros [] p).
  assert (T : ∀ t o, Q o -> Q (when t o)) by (by intros [] o).
  assert (R : ∀ r, Q (Some (CP15 s r))) by apply H.
  change (Q (cp15_read s a b c d)). unfold cp15_read. cbv zeta. clearbody Q.
  repeat first [apply O | apply T | apply R | match goal with |- Q (if ?t then _ else _) => destruct t end].
Qed.

Create HintDb ok.
#[export] Hint Resolve ok_set_Reg ok_set_Reg_usr ok_set_VFP ok_set_ExtReg ok_set_Cpsr ok_set_Spsr_copy ok_set_NFlag
  ok_set_ZFlag ok_set_CFlag ok_set_VFlag ok_set_TFlag ok_set_sc ok_SetExclusive ok_UnsetExclusive
  ok_ChangePrivilegeMode ok_SAVE_NZCVT ok_LOAD_NZCVT ok_WriteCP15Register : ok.
#[export] Hint Resolve range_ReadCP15 : rng.
#[export] Hint Extern 2 (in_range _ _) => rng : ok.

(** * Typed computations *)

(** What is known of a result: a word, of a number. *)
Class Val (A : Type) := val : A -> Prop.
#[export] Instance val_word : Val Z := in_range 32.
#[export] Instance val_any A : Val A | 10 := λ _, True.

Definition typed {S} (P : S -> Prop) {A} {VA : Val A} (m : ST S A) : Prop := hoare P m (λ a s, val a ∧ P s).

Section typed.
Context {S} (P : S -> Prop) {A B : Type} {VA : Val A} {VB : Val B}.
Lemma typed_bind (m : ST S A) (f : A -> ST S B) : typed P m -> (∀ a, val a -> typed P (f a)) -> typed P (m ≫= f).
Proof.
  intros Hm Hf. eapply hoare_bind; [exact Hm|]. intros a s [Ha Hs]. by apply Hf.
Qed.
Lemma typed_assoc {C} (m : ST S C) (g : C -> ST S A) (f : A -> ST S B) :
  typed P (m ≫= λ c, g c ≫= f) -> typed P ((m ≫= g) ≫= f).
Proof.
  intros H s Hs. specialize (H s Hs). unfold mbind, ST_bind in *. destruct (m s) as [[c s']|]; done.
Qed.
Lemma typed_bind_ret (x : A) (f : A -> ST S B) : typed P (f x) -> typed P (mret x ≫= f).
Proof. done. Qed.
Lemma typed_bind_gets (g : S -> A) (f : A -> ST S B) :
  (∀ s, P s -> typed P (f (g s))) -> typed P (gets g ≫= f).
Proof. intros H s Hs. by apply (H s). Qed.
Lemma typed_bind_fail (f : A -> ST S B) : typed P (fail ≫= f).
Proof. done. Qed.
Lemma typed_ret (x : A) : val x -> typed P (mret x).
Proof. intros H s Hs. done. Qed.
Lemma typed_gets (g : S -> A) : (∀ s, P s -> val (g s)) -> typed P (gets g).
Proof. intros H s Hs. split; [by apply H|done]. Qed.
Lemma typed_fail : typed P (fail (A := A)).
Proof. done. Qed.
Lemma typed_modify f : (∀ s, P s -> P (f s)) -> typed P (modify f).
Proof. intros H s Hs. split; [done|by apply H]. Qed.
Lemma typed_when b m : typed P m -> typed P (when_ b m).
Proof. by destruct b. Qed.
End typed.

(** A computation on a component, where the invariant of the whole implies the
    component's and survives its change. *)
Lemma typed_zoom {S T} (P : S -> Prop) (Q : T -> Prop) {A} {VA : Val A} (get : T -> S) (put : S -> T -> T) (m : ST S A) :
  (∀ t, Q t -> P (get t)) -> (∀ s t, P s -> Q t -> Q (put s t)) -> typed P m -> typed Q (zoom get put m).
Proof.
  intros HG HP Hm t Ht. specialize (Hm (get t) (HG t Ht)). unfold zoom.
  destruct (m (get t)) as [[a s]|]; [|done]. destruct Hm as [Ha Hs]. split; [done|by apply HP].
Qed.

Lemma typed_reg n i : typed (cpu_ok n) (reg i).
Proof.
  intros s Hs. unfold reg. destruct (Reg s !! Z.to_nat i) as [r|] eqn:E; cbn; [|done].
  split; [|done]. by apply (Forall_lookup_1 _ _ _ _ (ok_Reg n s Hs) E).
Qed.
Lemma typed_set_reg n i v : in_range 32 v -> typed (cpu_ok n) (set_reg i v).
Proof.
  intros Hv s Hs. unfold set_reg. case_bool_decide; [|done]. split; [done|]. by apply ok_set_Reg.
Qed.

Create HintDb typed.
#[export] Hint Resolve typed_reg typed_fail typed_when : typed.

Ltac ok := eauto 8 with ok.

(** The proof of a typed computation: binds are pushed to the right, results of
    [gets] and [mret] are kept, and branches of conditionals are followed. *)
Ltac typed_prim :=
  lazymatch goal with
  | |- typed _ (set_reg _ _) => apply typed_set_reg; rng
  | |- typed _ (modify _) => apply typed_modify; intros ? ?; cbv beta zeta; ok
  | |- typed _ (mret _) => apply typed_ret; first [exact I | assumption | unfold val, val_word; rng]
  | |- typed _ (gets _) => apply typed_gets; intros ? ?; first [exact I | unfold val, val_word; rng]
  | |- typed _ (when_ _ _) => apply typed_when
  | |- _ => solve [eauto 4 with typed]
  end.
Ltac typed :=
  cbv beta zeta;
  lazymatch goal with
  | |- typed _ (if ?b then _ else _) => destruct b; typed
  | |- typed _ (match ?x with _ => _ end) => destruct x; typed
  | |- typed _ (mbind ?f ?m) =>
      lazymatch m with
      | mbind _ _ => apply typed_assoc; typed
      | mret _ => apply typed_bind_ret; typed
      | gets _ => apply typed_bind_gets; intros ? ?; typed
      | fail => apply typed_bind_fail
      | (if ?b then _ else _) => destruct b; typed
      | (match ?x with _ => _ end) => destruct x; typed
      | _ => eapply typed_bind; [typed | intros ? ?; unfold val, val_word, val_any in *; typed]
      end
  | |- typed _ (when_ _ _) => apply typed_when; typed
  | |- _ => typed_prim
  end.

(** * Every label of the main loop keeps the type invariant of the processor. *)

Section labels.
Context (n : Z).

(** * Operands and addresses *)

Lemma typed_CHECK_READ_REG15_WA r : typed (cpu_ok n) (CHECK_READ_REG15_WA r).
Proof. unfold CHECK_READ_REG15_WA. typed. Qed.
Lemma typed_CHECK_READ_REG15 r : typed (cpu_ok n) (CHECK_READ_REG15 r).
Proof. unfold CHECK_READ_REG15. typed. Qed.
Lemma typed_reg_plus_pc r : typed (cpu_ok n) (reg_plus_pc r).
Proof. unfold reg_plus_pc. typed. Qed.
Hint Resolve typed_CHECK_READ_REG15_WA typed_CHECK_READ_REG15 typed_reg_plus_pc : typed.

Lemma typed_set_sc c : in_range 1 c -> typed (cpu_ok n) (set_sc c).
Proof. intros. unfold set_sc. typed. Qed.
Lemma typed_sc_cflag : typed (cpu_ok n) sc_cflag.
Proof. unfold sc_cflag. typed. Qed.
Hint Extern 1 (typed _ (set_sc _)) => apply typed_set_sc; rng : typed.
Hint Resolve typed_sc_cflag : typed.

Lemma typed_SHIFTER_OPERAND f x : typed (cpu_ok n) (SHIFTER_OPERAND f x).
Proof.
  destruct f as [f|]; [|apply typed_fail]. cbn [SHIFTER_OPERAND DPO]. unfold RM, RS.
  destruct f; unfold DPO, DPO_Immediate, DPO_Register, DPO_LogicalShiftLeftByImmediate, DPO_LogicalShiftLeftByRegister,
    DPO_LogicalShiftRightByImmediate, DPO_LogicalShiftRightByRegister, DPO_ArithmeticShiftRightByImmediate,
    DPO_ArithmeticShiftRightByRegister, DPO_RotateRightByImmediate, DPO_RotateRightByRegister; typed.
Qed.

Lemma typed_get_addr_call f x : typed (cpu_ok n) (get_addr_call f x).
Proof.
  destruct f as [f|]; [|apply typed_fail]. cbn [get_addr_call].
  unfold get_addr_fn, LnSWoUB_ImmediateOffset_, LnSWoUB_RegisterOffset_, LnSWoUB_ScaledRegisterOffset_,
    LnSWoUB_ImmediatePreIndexed_, LnSWoUB_RegisterPreIndexed_, LnSWoUB_ScaledRegisterPreIndexed_,
    LnSWoUB_ImmediatePostIndexed_, LnSWoUB_RegisterPostIndexed_, LnSWoUB_ScaledRegisterPostIndexed_,
    MLnS_ImmediateOffset_, MLnS_RegisterOffset_, MLnS_ImmediatePreIndexed_, MLnS_RegisterPreIndexed_,
    MLnS_ImmediatePostIndexed_, MLnS_RegisterPostIndexed_, LdnStM_IncrementAfter_, LdnStM_IncrementBefore_,
    LdnStM_DecrementAfter_, LdnStM_DecrementBefore_, write_back, add_to_base, if_passed, up_down.
  destruct f; typed.
Qed.
Hint Resolve typed_SHIFTER_OPERAND typed_get_addr_call : typed.

(** * Data processing *)

Lemma range_AddWithCarry l r c : in_range 32 (AddWithCarry l r c).1.1.
Proof. cbn. rng. Qed.

Lemma typed_spsr_return : typed (cpu_ok n) spsr_return.
Proof. unfold spsr_return. typed. Qed.
Hint Resolve typed_spsr_return : typed.

Lemma typed_UPDATE_NFLAG r : typed (cpu_ok n) (UPDATE_NFLAG r).
Proof. unfold UPDATE_NFLAG. typed. Qed.
Lemma typed_UPDATE_ZFLAG r : typed (cpu_ok n) (UPDATE_ZFLAG r).
Proof. unfold UPDATE_ZFLAG. typed. Qed.
Lemma typed_UPDATE_CFLAG_WITH_SC : typed (cpu_ok n) UPDATE_CFLAG_WITH_SC.
Proof. unfold UPDATE_CFLAG_WITH_SC. typed. Qed.
Lemma typed_set_carry_overflow c o : typed (cpu_ok n) (set_carry_overflow c o).
Proof. unfold set_carry_overflow. typed. Qed.
Hint Resolve typed_UPDATE_NFLAG typed_UPDATE_ZFLAG typed_UPDATE_CFLAG_WITH_SC typed_set_carry_overflow : typed.

Lemma typed_arith_end sf Rd l r c : typed (cpu_ok n) (arith_end sf Rd (AddWithCarry l r c)).
Proof.
  pose proof (range_AddWithCarry l r c) as H. destruct (AddWithCarry l r c) as [[x carry] overflow].
  cbn in H. unfold arith_end. typed.
Qed.
Lemma typed_logic_end sf Rd r : in_range 32 r -> typed (cpu_ok n) (logic_end sf Rd r).
Proof. intros. unfold logic_end. typed. Qed.
Lemma typed_compare_end l r c : typed (cpu_ok n) (compare_end (AddWithCarry l r c)).
Proof.
  pose proof (range_AddWithCarry l r c) as H. destruct (AddWithCarry l r c) as [[x carry] overflow].
  cbn in H. unfold compare_end. typed.
Qed.
Hint Resolve typed_arith_end typed_compare_end : typed.
Hint Extern 1 (typed _ (logic_end _ _ _)) => apply typed_logic_end; rng : typed.

(** * The ends of labels *)

Lemma typed_next_pc : typed (cpu_ok n) next_pc.
Proof. unfold next_pc, set_pc. typed. Qed.
Hint Resolve typed_next_pc : typed.
Lemma typed_advance l : typed (cpu_ok n) (advance l).
Proof. unfold advance. typed. Qed.
Hint Resolve typed_advance : typed.
Lemma typed_label c l body : typed (cpu_ok n) body -> typed (cpu_ok n) (label c l body).
Proof. intros. unfold label, passed. typed. Qed.
Lemma typed_label_ c l body : typed (cpu_ok n) body -> typed (cpu_ok n) (label_ c l body).
Proof. intros. apply typed_label. typed. Qed.
Lemma typed_label_branch c body : typed (cpu_ok n) body -> typed (cpu_ok n) (label_branch c body).
Proof. intros. unfold label_branch, passed. typed. Qed.
End labels.

#[export] Hint Resolve typed_CHECK_READ_REG15_WA typed_CHECK_READ_REG15 typed_reg_plus_pc typed_sc_cflag
  typed_SHIFTER_OPERAND typed_get_addr_call typed_spsr_return typed_UPDATE_NFLAG typed_UPDATE_ZFLAG
  typed_UPDATE_CFLAG_WITH_SC typed_set_carry_overflow typed_arith_end typed_compare_end typed_next_pc
  typed_advance : typed.
#[export] Hint Extern 1 (typed _ (set_sc _)) => apply typed_set_sc; rng : typed.
#[export] Hint Extern 1 (typed _ (logic_end _ _ _)) => apply typed_logic_end; rng : typed.

(** The fields of a structure that reach a register unmasked. *)
Definition component_ok (c : component) : Prop :=
  match c with
  | vmovi_inst _ _ imm => in_range 32 imm
  | cps_inst imod0 _ _ _ _ _ mode => in_range 1 imod0 ∧ in_range 32 mode
  | _ => True
  end.

Ltac typed_label :=
  lazymatch goal with |- typed _ (match ?c with _ => _ end) => destruct c; try apply typed_fail end;
  lazymatch goal with
  | |- typed _ (label _ _ _) => apply typed_label
  | |- typed _ (label_ _ _ _) => apply typed_label_
  | |- typed _ (label_branch _ _) => apply typed_label_branch
  | |- _ => idtac
  end; typed.

Lemma alu_typed n cond c :
  typed (cpu_ok n) (ADC_INST cond c) ∧ typed (cpu_ok n) (ADD_INST cond c) ∧ typed (cpu_ok n) (AND_INST cond c) ∧ typed (cpu_ok n) (BIC_INST cond c) ∧
  typed (cpu_ok n) (CMN_INST cond c) ∧ typed (cpu_ok n) (CMP_INST cond c) ∧ typed (cpu_ok n) (CPY_INST cond c) ∧ typed (cpu_ok n) (EOR_INST cond c) ∧
  typed (cpu_ok n) (MOV_INST cond c) ∧ typed (cpu_ok n) (MVN_INST cond c) ∧ typed (cpu_ok n) (ORR_INST cond c) ∧ typed (cpu_ok n) (RSB_INST cond c) ∧
  typed (cpu_ok n) (RSC_INST cond c) ∧ typed (cpu_ok n) (SBC_INST cond c) ∧ typed (cpu_ok n) (SUB_INST cond c) ∧ typed (cpu_ok n) (TEQ_INST cond c) ∧
  typed (cpu_ok n) (TST_INST cond c).
Proof.
  unfold ADC_INST, ADD_INST, AND_INST, BIC_INST, CMN_INST, CMP_INST, CPY_INST, EOR_INST, MOV_INST, MVN_INST, ORR_INST,
    RSB_INST, RSC_INST, SBC_INST, SUB_INST, TEQ_INST, TST_INST.
  split_and!; typed_label.
Qed.

Lemma branch_typed n cond c :
  typed (cpu_ok n) (BBL_INST cond c) ∧ typed (cpu_ok n) (BKPT_INST cond c) ∧ typed (cpu_ok n) (BLX_INST cond c) ∧ typed (cpu_ok n) (BX_INST cond c) ∧
  typed (cpu_ok n) (CLREX_INST c) ∧ typed (cpu_ok n) (LDC_INST c) ∧ typed (cpu_ok n) (STC_INST c) ∧ typed (cpu_ok n) (PLD_INST c) ∧ typed (cpu_ok n) (NOP_INST c) ∧
  typed (cpu_ok n) (B_2_THUMB c) ∧ typed (cpu_ok n) (B_COND_THUMB c) ∧ typed (cpu_ok n) (BL_1_THUMB c) ∧ typed (cpu_ok n) (BL_2_THUMB c) ∧
  typed (cpu_ok n) (BLX_1_THUMB c).
Proof.
  unfold BBL_INST, BKPT_INST, BLX_INST, BX_INST, CLREX_INST, LDC_INST, STC_INST, PLD_INST, NOP_INST, B_2_THUMB,
    B_COND_THUMB, BL_1_THUMB, BL_2_THUMB, BLX_1_THUMB, LINK_RTN_ADDR, link_next, set_pc, set_tflag.
  split_and!; typed_label.
Qed.

Lemma ok_stop n s : cpu_ok n s -> cpu_ok n (s<|NumInstrsToExecute := 0|>).
Proof. intros H. apply ok_set_N; [done|]. destruct (ok_N n s H). lia. Qed.
#[export] Hint Resolve ok_stop : ok.

Lemma typed_set_cpsr n f : (∀ c, in_range 32 c -> in_range 32 (f c)) -> typed (cpu_ok n) (set_cpsr f).
Proof. intros H. unfold set_cpsr. apply typed_modify. intros s Hs. apply ok_set_Cpsr; [done|]. apply H, Hs. Qed.
#[export] Hint Extern 1 (typed _ (set_cpsr _)) => apply typed_set_cpsr; intros; rng : typed.

Lemma status_typed n cond c : component_ok c ->
  typed (cpu_ok n) (CDP_INST cond c) ∧ typed (cpu_ok n) (CPS_INST c) ∧ typed (cpu_ok n) (MCR_INST cond c) ∧ typed (cpu_ok n) (MCRR_INST cond c) ∧
  typed (cpu_ok n) (MRC_INST cond c) ∧ typed (cpu_ok n) (MRS_INST cond c) ∧ typed (cpu_ok n) (MSR_INST cond c) ∧ typed (cpu_ok n) (SETEND_INST c).
Proof.
  intros Hc.
  unfold CDP_INST, CPS_INST, MCR_INST, MCRR_INST, MRC_INST, MRS_INST, MSR_INST, SETEND_INST, passed, msr_byte_mask.
  split_and!; try (solve [typed_label]).
  - destruct c; try apply typed_fail. destruct Hc. typed.
Qed.

(** * Multiplication and media *)

Lemma range_pack16 a b : in_range 32 (pack16 a b).
Proof. unfold pack16. rng. Qed.
Lemma range_pack8 a b c d : in_range 32 (pack8 a b c d).
Proof. unfold pack8. rng. Qed.
Lemma range_rotated x r : in_range 32 x -> in_range 32 (rotated x r).
Proof. intros. unfold rotated. rng. Qed.
Lemma range_SignedSatQ v k : in_range 32 (ARMul_SignedSatQ v k).1.
Proof. unfold ARMul_SignedSatQ. cbv zeta. repeat case_match; cbn [fst]; rng. Qed.
Lemma range_UnsignedSatQ v k : in_range 32 (ARMul_UnsignedSatQ v k).1.
Proof. unfold ARMul_UnsignedSatQ. cbv zeta. repeat case_match; cbn [fst]; rng. Qed.
Lemma range_clz x : in_range 32 x -> in_range 32 (clz x).
Proof.
  intros H. rewrite clz_spec by done. unfold in_range in *. destruct (Z.eqb_spec x 0); [done|].
  pose proof (Z.log2_nonneg x). assert (Z.log2 x < 32) by (apply Z.log2_lt_pow2; lia). pow2. lia.
Qed.
Lemma range_absdiff a b : in_range 32 (ARMul_UnsignedAbsoluteDifference a b).
Proof. unfold ARMul_UnsignedAbsoluteDifference. rng. Qed.
#[export] Hint Resolve range_pack16 range_pack8 range_clz : rng.
#[export] Hint Extern 1 (in_range 32 (rotated _ _)) => apply range_rotated; rng : rng.

Lemma typed_update_nz n sf r : typed (cpu_ok n) (update_nz sf r).
Proof. unfold update_nz. typed. Qed.
Lemma typed_update_nz64 n sf hi lo : typed (cpu_ok n) (update_nz64 sf hi lo).
Proof. unfold update_nz64. typed. Qed.
Lemma typed_set_q n b : typed (cpu_ok n) (set_q b).
Proof. unfold set_q. typed. Qed.
Lemma typed_set_ge n b mask : in_range 32 mask -> typed (cpu_ok n) (set_ge b mask).
Proof. intros. unfold set_ge. typed. Qed.
#[export] Hint Resolve typed_update_nz typed_update_nz64 typed_set_q : typed.
#[export] Hint Extern 1 (typed _ (set_ge _ _)) => apply typed_set_ge; first [done | rng] : typed.

Lemma multiply_typed n cond c :
  typed (cpu_ok n) (MLA_INST cond c) ∧ typed (cpu_ok n) (MUL_INST cond c) ∧ typed (cpu_ok n) (SMLA_INST cond c) ∧ typed (cpu_ok n) (SMLAD_INST cond c) ∧
  typed (cpu_ok n) (SMLAL_INST cond c) ∧ typed (cpu_ok n) (SMLALXY_INST cond c) ∧ typed (cpu_ok n) (SMLAW_INST cond c) ∧
  typed (cpu_ok n) (SMLALD_INST cond c) ∧ typed (cpu_ok n) (SMMLA_INST cond c) ∧ typed (cpu_ok n) (SMUL_INST cond c) ∧ typed (cpu_ok n) (SMULL_INST cond c) ∧
  typed (cpu_ok n) (SMULW_INST cond c) ∧ typed (cpu_ok n) (UMAAL_INST cond c) ∧ typed (cpu_ok n) (UMLAL_INST cond c) ∧ typed (cpu_ok n) (UMULL_INST cond c).
Proof.
  unfold MLA_INST, MUL_INST, SMLA_INST, SMLAD_INST, SMLAL_INST, SMLALXY_INST, SMLAW_INST, SMLALD_INST, SMMLA_INST,
    SMUL_INST, SMULL_INST, SMULW_INST, UMAAL_INST, UMLAL_INST, UMULL_INST.
  split_and!; typed_label.
Qed.

Lemma parallel_typed n cond c :
  typed (cpu_ok n) (QADD_INST cond c) ∧ typed (cpu_ok n) (QADD8_INST cond c) ∧ typed (cpu_ok n) (UQADD8_INST cond c) ∧ typed (cpu_ok n) (SADD8_INST cond c) ∧
  typed (cpu_ok n) (SHADD8_INST cond c) ∧ typed (cpu_ok n) (UADD8_INST cond c) ∧ typed (cpu_ok n) (UHADD8_INST cond c).
Proof.
  unfold QADD_INST, QADD8_INST, UQADD8_INST, SADD8_INST, SHADD8_INST, UADD8_INST, UHADD8_INST, saturated.
  split_and!; typed_label.
Qed.

Lemma saturate_typed n cond c :
  typed (cpu_ok n) (SSAT_INST cond c) ∧ typed (cpu_ok n) (USAT_INST cond c) ∧ typed (cpu_ok n) (SSAT16_INST cond c) ∧ typed (cpu_ok n) (USAT16_INST cond c).
Proof.
  pose proof range_SignedSatQ. pose proof range_UnsignedSatQ.
  split_and!; destruct c; try apply typed_fail; apply typed_label_;
    (eapply typed_bind; [apply typed_reg|]; intros rn Hrn); cbv beta zeta.
  - pose proof (range_SignedSatQ (s32 (sat_operand shift_type imm5 rn)) sat_imm) as E.
    destruct (ARMul_SignedSatQ _ _). cbn in E. typed.
  - pose proof (range_UnsignedSatQ (s32 (sat_operand shift_type imm5 rn)) sat_imm) as E.
    destruct (ARMul_UnsignedSatQ _ _). cbn in E. typed.
  - do 2 destruct (ARMul_SignedSatQ _ _). typed.
  - do 2 destruct (ARMul_UnsignedSatQ _ _). typed.
Qed.

Lemma sum4_range a b c d : in_range 8 a -> in_range 8 b -> in_range 8 c -> in_range 8 d -> in_range 32 (a + b + c + d).
Proof. unfold in_range. pow2. lia. Qed.

Lemma extend_typed n cond c :
  typed (cpu_ok n) (SEL_INST cond c) ∧ typed (cpu_ok n) (CLZ_INST cond c) ∧ typed (cpu_ok n) (PKHBT_INST cond c) ∧ typed (cpu_ok n) (PKHTB_INST cond c) ∧
  typed (cpu_ok n) (REV_INST cond c) ∧ typed (cpu_ok n) (SXTH_INST cond c) ∧ typed (cpu_ok n) (SXTB_INST cond c) ∧ typed (cpu_ok n) (UXTH_INST cond c) ∧
  typed (cpu_ok n) (UXTB_INST cond c) ∧ typed (cpu_ok n) (UXTAH_INST cond c) ∧ typed (cpu_ok n) (UXTAB_INST cond c) ∧ typed (cpu_ok n) (SXTAB_INST cond c) ∧
  typed (cpu_ok n) (SXTAH_INST cond c) ∧ typed (cpu_ok n) (SXTAB16_INST cond c) ∧ typed (cpu_ok n) (UXTAB16_INST cond c) ∧ typed (cpu_ok n) (USAD8_INST cond c).
Proof.
  unfold SEL_INST, CLZ_INST, PKHBT_INST, PKHTB_INST, REV_INST, SXTH_INST, SXTB_INST, UXTH_INST, UXTB_INST, UXTAH_INST,
    UXTAB_INST, SXTAB_INST, SXTAH_INST, SXTAB16_INST, UXTAB16_INST, USAD8_INST.
  split_and!; try (solve [typed_label]).
  - destruct c; try apply typed_fail. apply typed_label_.
    eapply typed_bind; [apply typed_reg|]. intros rm _. eapply typed_bind; [apply typed_reg|]. intros rn _. cbv zeta.
    assert (H : in_range 32 (ARMul_UnsignedAbsoluteDifference (byte_ 0 rn) (byte_ 0 rm) +
      ARMul_UnsignedAbsoluteDifference (byte_ 1 rn) (byte_ 1 rm) + ARMul_UnsignedAbsoluteDifference (byte_ 2 rn) (byte_ 2 rm)
      + ARMul_UnsignedAbsoluteDifference (byte_ 3 rn) (byte_ 3 rm)))
      by (apply sum4_range; unfold ARMul_UnsignedAbsoluteDifference; rng).
    typed.
Qed.
