(* ===== verification/VfpTyped.v ===== *)
(** The labels of the VFP unit keep the type invariant: an operation writes
    words to registers of the VFP only. *)

From S2P Require Import Prelude ArmSupp ArmState ArmOps ArmTrans ArmMem VfpHelper Vfp VfpRound VfpSingle VfpDouble VfpInstr ArmTyped.

Section writes.
Context (n : Z).

Definition writes (x : ARMul_State * Z) : Prop := cpu_ok n x.1.
Definition may_write (o : option (ARMul_State * Z)) : Prop := ∀ x, o = Some x -> writes x.

Lemma writes_pair s e : cpu_ok n s -> writes (s, e).
Proof. done. Qed.
Lemma may_write_Some x : writes x -> may_write (Some x).
Proof. intros H y E. by injection E as <-. Qed.
Lemma may_write_None : may_write None.
Proof. done. Qed.

Lemma ok_set_ext s i v : cpu_ok n s -> in_range 32 v -> cpu_ok n (set_ext s i v).
Proof. apply ok_set_ExtReg. Qed.
Lemma ok_put_float s v i : cpu_ok n s -> cpu_ok n (vfp_put_float s v i).
Proof. intros. apply ok_set_ext; [done|]. rng. Qed.
Lemma ok_put_double s v i : cpu_ok n s -> cpu_ok n (vfp_put_double s v i).
Proof. intros. apply ok_set_ext; [apply ok_set_ext; [done|]|]; rng. Qed.
Hint Resolve ok_put_float ok_put_double writes_pair may_write_None : ok.

Lemma writes_single_normaliseround s d v f e : cpu_ok n s -> writes (vfp_single_normaliseround s d v f e).
Proof. intros. unfold vfp_single_normaliseround. destruct (single_round _ _ _). auto with ok. Qed.
Lemma writes_double_normaliseround s d v f e : cpu_ok n s -> writes (vfp_double_normaliseround s d v f e).
Proof. intros. unfold vfp_double_normaliseround. destruct (double_round _ _ _). auto with ok. Qed.
Hint Resolve writes_single_normaliseround writes_double_normaliseround : ok.

Lemma writes_single_fadd s d sn m f : cpu_ok n s -> writes (vfp_single_fadd s d sn m f).
Proof. intros. unfold vfp_single_fadd. repeat case_match; auto with ok. Qed.
Lemma writes_double_fadd s d sn m f : cpu_ok n s -> writes (vfp_double_fadd s d sn m f).
Proof. intros. unfold vfp_double_fadd. repeat case_match; auto with ok. Qed.
Hint Resolve writes_single_fadd writes_double_fadd : ok.

(** The paths of an operation; what rounding wrote is kept. *)
Ltac writes_match x :=
  lazymatch x with
  | vfp_single_normaliseround ?s ?d ?v ?f ?e =>
      pose proof (writes_single_normaliseround s d v f e ltac:(auto with ok)); destruct x
  | vfp_double_normaliseround ?s ?d ?v ?f ?e =>
      pose proof (writes_double_normaliseround s d v f e ltac:(auto with ok)); destruct x
  | vfp_single_fadd ?s ?d ?v ?f ?e =>
      pose proof (writes_single_fadd s d v f e ltac:(auto with ok)); destruct x
  | vfp_double_fadd ?s ?d ?v ?f ?e =>
      pose proof (writes_double_fadd s d v f e ltac:(auto with ok)); destruct x
  | _ => destruct x
  end.
Ltac writes :=
  cbv beta zeta;
  lazymatch goal with
  | |- writes (match ?x with _ => _ end) => writes_match x; writes
  | |- may_write (mbind _ ?m) => destruct m; cbn [mbind option_bind]; [writes | apply may_write_None]
  | |- may_write (Some _) => apply may_write_Some; writes
  | |- may_write (match ?x with _ => _ end) => writes_match x; writes
  | |- _ => auto with ok
  end.

Definition fop_ok (f : fop) : Prop := ∀ s d sn m fpscr, cpu_ok n s -> may_write (f s d sn m fpscr).
Definition ops_ok (l : list (option fop * Z)) : Prop := Forall (λ x, from_option fop_ok True x.1) l.

Lemma fops_ext_ok : ops_ok fops_ext.
Proof.
  repeat (apply List.Forall_cons || apply List.Forall_nil); cbn [from_option fst]; try exact I; intros s d sn m fpscr Hs; unfold total.
  all: unfold vfp_single_fcpy, vfp_single_fabs, vfp_single_fneg, vfp_single_fsqrt, vfp_single_fcmp, vfp_single_fcmpe,
    vfp_single_fcmpz, vfp_single_fcmpez, vfp_single_fcvtd, vfp_single_fuito, vfp_single_fsito, vfp_single_ftouiz,
    vfp_single_ftosiz, vfp_single_ftoui, vfp_single_ftosi; writes.
Qed.

Lemma fops_ok : ops_ok fops.
Proof.
  repeat (apply List.Forall_cons || apply List.Forall_nil); cbn [from_option fst]; intros s d sn m fpscr Hs; unfold total.
  all: unfold vfp_single_fmac, vfp_single_fmsc, vfp_single_fnmac, vfp_single_fnmsc, vfp_single_multiply_accumulate,
    vfp_single_fmul, vfp_single_fnmul, vfp_single_fsub, vfp_single_fdiv; writes.
Qed.

Lemma double_fops_ext_ok : ops_ok double_fops_ext.
Proof.
  repeat (apply List.Forall_cons || apply List.Forall_nil); cbn [from_option fst]; try exact I;
    intros s d sn m fpscr Hs; unfold total.
  all: unfold vfp_double_fcpy, vfp_double_fabs, vfp_double_fneg, vfp_double_fsqrt, vfp_double_fcmp, vfp_double_fcmpe,
    vfp_double_fcmpz, vfp_double_fcmpez, vfp_double_fcvts, vfp_double_fuito, vfp_double_fsito, vfp_double_ftouiz,
    vfp_double_ftosiz, vfp_double_ftoui, vfp_double_ftosi, put_packed; writes.
Qed.

Lemma double_fops_ok : ops_ok double_fops.
Proof.
  repeat (apply List.Forall_cons || apply List.Forall_nil); cbn [from_option fst]; intros s d sn m fpscr Hs; unfold total.
  all: unfold vfp_double_fmac, vfp_double_fmsc, vfp_double_fnmac, vfp_double_fnmsc, vfp_double_multiply_accumulate,
    vfp_double_fmul, vfp_double_fnmul, vfp_double_fsub, vfp_double_fdiv, put_packed; writes.
Qed.

(** ** The vector loops *)

Lemma cpdo_loop_ok fn : fop_ok fn -> ∀ k s dest sn sm stride fpscr exc, cpu_ok n s -> in_range 32 exc ->
  ∀ s' exc', cpdo_loop k fn s dest sn sm stride fpscr exc = Some (s', exc') -> cpu_ok n s' ∧ in_range 32 exc'.
Proof.
  intros Hf k. induction k as [|k IH]; intros s dest sn sm stride fpscr exc Hs He s' exc' E; cbn [cpdo_loop] in E.
  - by injection E as <- <-.
  - destruct (fn s dest sn (vfp_get_float s sm) fpscr) as [[s1 e]|] eqn:F; [|done]. cbn [mbind option_bind] in E.
    apply IH in E; [done|by apply (Hf _ _ _ _ _ Hs _ F)|rng].
Qed.
Lemma double_cpdo_loop_ok fn : fop_ok fn -> ∀ k s dest sn sm stride fpscr exc, cpu_ok n s -> in_range 32 exc ->
  ∀ s' exc', double_cpdo_loop k fn s dest sn sm stride fpscr exc = Some (s', exc') -> cpu_ok n s' ∧ in_range 32 exc'.
Proof.
  intros Hf k. induction k as [|k IH]; intros s dest sn sm stride fpscr exc Hs He s' exc' E; cbn [double_cpdo_loop] in E.
  - by injection E as <- <-.
  - destruct (fn s dest sn sm fpscr) as [[s1 e]|] eqn:F; [|done]. cbn [mbind option_bind] in E.
    apply IH in E; [done|by apply (Hf _ _ _ _ _ Hs _ F)|rng].
Qed.

Lemma ops_ok_lookup l k f flags : ops_ok l -> l !! k = Some (Some f, flags) -> fop_ok f.
Proof. intros H E. exact (Forall_lookup_1 _ _ _ _ H E). Qed.

Lemma single_cpdo_ok s inst fpscr s' exc : cpu_ok n s -> vfp_single_cpdo s inst fpscr = Some (s', exc) ->
  cpu_ok n s' ∧ in_range 32 exc.
Proof.
  intros Hs E. unfold vfp_single_cpdo in E.
  destruct (if _ =? FOP_EXT then _ else _) as [[fn flags]|] eqn:F; [|done]. cbn [mbind option_bind] in E.
  destruct fn as [fn|]; [|done]. cbn [mbind option_bind] in E. eapply cpdo_loop_ok in E; [done| |done|rng].
  destruct (_ =? FOP_EXT); eapply ops_ok_lookup; [apply fops_ext_ok|exact F|apply fops_ok|exact F].
Qed.
Lemma double_cpdo_ok s inst fpscr s' exc : cpu_ok n s -> vfp_double_cpdo s inst fpscr = Some (s', exc) ->
  cpu_ok n s' ∧ in_range 32 exc.
Proof.
  intros Hs E. unfold vfp_double_cpdo in E.
  destruct (if _ =? FOP_EXT then _ else _) as [[fn flags]|] eqn:F; [|done]. cbn [mbind option_bind] in E.
  destruct fn as [fn|]; [|injection E as <- <-; split; [done|rng]].
  eapply double_cpdo_loop_ok in E; [done| |done|rng].
  destruct (_ =? FOP_EXT); eapply ops_ok_lookup; [apply double_fops_ext_ok|exact F|apply double_fops_ok|exact F].
Qed.

(** * Labels *)

Lemma typed_vfp_reg_get r : typed (cpu_ok n) (vfp_reg_get r).
Proof. unfold vfp_reg_get. typed. Qed.
Lemma typed_vfp_reg_put r v : in_range 32 v -> typed (cpu_ok n) (vfp_reg_put r v).
Proof. intros. unfold vfp_reg_put, set_vfp. typed. Qed.
Lemma typed_ext_get i : typed (cpu_ok n) (ext_get i).
Proof.
  intros s Hs. unfold ext_get. destruct (ExtReg s !! Z.to_nat i) as [r|] eqn:E; cbn; [|done].
  split; [|done]. by apply (Forall_lookup_1 _ _ _ _ (ok_ExtReg n s Hs) E).
Qed.
Lemma typed_ext_put i v : in_range 32 v -> typed (cpu_ok n) (ext_put i v).
Proof. intros Hv s Hs. unfold ext_put. case_bool_decide; [|done]. split; [done|]. by apply ok_set_ExtReg. Qed.
Hint Resolve typed_vfp_reg_get typed_ext_get : typed.
Hint Extern 1 (typed _ (vfp_reg_put _ _)) => apply typed_vfp_reg_put; rng : typed.
Hint Extern 1 (typed _ (ext_put _ _)) => apply typed_ext_put; rng : typed.

Lemma ok_raise_exceptions s e f s' : cpu_ok n s -> in_range 32 e -> in_range 32 f ->
  vfp_raise_exceptions s e f = Some s' -> cpu_ok n s'.
Proof.
  intros Hs He Hf. unfold vfp_raise_exceptions. destruct (_ =? _); [done|]. cbv zeta.
  intros [= <-]. apply ok_set_VFP; [done|]. rng.
Qed.

Lemma typed_vfp_cpdo instr dp : typed (cpu_ok n) (vfp_cpdo instr dp).
Proof.
  unfold vfp_cpdo. eapply typed_bind; [apply typed_vfp_reg_get|]. intros fpscr _.
  eapply typed_bind; [|intros e He; eapply typed_bind; [apply typed_vfp_reg_get|intros f Hf]].
  - intros s Hs. unfold call.
    destruct (if nz dp then _ else _) as [[s' e]|] eqn:E; [|done]. cbn.
    destruct (nz dp); [apply (double_cpdo_ok s instr fpscr) in E | apply (single_cpdo_ok s instr fpscr) in E];
      by destruct E.
  - intros s Hs. unfold call. destruct (vfp_raise_exceptions s e f) as [s'|] eqn:E; [|done]. cbn.
    split; [done|]. by apply (ok_raise_exceptions s e f).
Qed.
Hint Resolve typed_vfp_cpdo : typed.

Lemma words_ext s i : cpu_ok n s -> in_range 32 (ext s i).
Proof. intros. apply words_rd. by apply (ok_ExtReg n). Qed.
Hint Resolve words_ext : rng.

Lemma typed_with_reg t f :
  (∀ s r, cpu_ok n s -> in_range 32 r -> cpu_ok n (f s r).1 ∧ in_range 32 (f s r).2) -> typed (cpu_ok n) (with_reg t f).
Proof.
  intros H. unfold with_reg. eapply typed_bind; [apply typed_reg|]. intros r Hr.
  eapply typed_bind; [|intros; by apply typed_set_reg].
  intros s Hs. unfold call. destruct (H s r Hs Hr). destruct (f s r). done.
Qed.
Lemma typed_with_regs t t2 f :
  (∀ s r r2, cpu_ok n s -> in_range 32 r -> in_range 32 r2 ->
     cpu_ok n (f s r r2).1.1 ∧ in_range 32 (f s r r2).1.2 ∧ in_range 32 (f s r r2).2) -> typed (cpu_ok n) (with_regs t t2 f).
Proof.
  intros H. unfold with_regs. eapply typed_bind; [apply typed_reg|]. intros r Hr.
  eapply typed_bind; [apply typed_reg|]. intros r2 Hr2.
  intros s Hs. unfold call, mbind, ST_bind. destruct (H s r r2 Hs Hr Hr2) as (Hs' & H1 & H2).
  destruct (f s r r2) as [[s' v1] v2]. cbn in *.
  assert (T : typed (cpu_ok n) (set_reg t v1;; set_reg t2 v2)) by typed. exact (T s' Hs').
Qed.

Lemma ok_VMOVI s single d imm : cpu_ok n s -> in_range 32 imm -> cpu_ok n (VMOVI s single d imm).
Proof.
  intros Hs Hi. unfold VMOVI. destruct (nz single); [by apply ok_set_ext|].
  exact (ok_set_ExtReg n _ (Z.to_nat (d * 2)) 0 (ok_set_ExtReg n s (Z.to_nat (d * 2 + 1)) imm Hs Hi) ltac:(rng)).
Qed.
Lemma ok_VMOVR s single d m : cpu_ok n s -> cpu_ok n (VMOVR s single d m).
Proof.
  intros Hs. unfold VMOVR. destruct (nz single); [apply ok_set_ext; [done|by apply words_ext]|].
  assert (H : cpu_ok n (set_ext s (d * 2 + 1) (ext s (m * 2 + 1)))) by (apply ok_set_ext; [done|by apply words_ext]).
  exact (ok_set_ext _ (d * 2) _ H (words_ext _ (m * 2) H)).
Qed.
Hint Resolve ok_VMOVI ok_VMOVR ok_set_ext : ok.

Lemma vfp_typed cond c : component_ok c ->
  typed (cpu_ok n) (cpdo_label cond c) ∧ typed (cpu_ok n) (VMOVI_INST cond c) ∧ typed (cpu_ok n) (VMOVR_INST cond c) ∧ typed (cpu_ok n) (VMOVBRS_INST cond c) ∧
  typed (cpu_ok n) (VMSR_INST cond c) ∧ typed (cpu_ok n) (VMOVBRC_INST cond c) ∧ typed (cpu_ok n) (VMRS_INST cond c) ∧ typed (cpu_ok n) (VMOVBCR_INST cond c) ∧
  typed (cpu_ok n) (VMOVBRRSS_INST cond c) ∧ typed (cpu_ok n) (VMOVBRRD_INST cond c).
Proof.
  intros Hc. unfold cpdo_label, VMOVI_INST, VMOVR_INST, VMSR_INST, VMOVBRC_INST, VMRS_INST, VMOVBCR_INST.
  unfold VMOVBRS_INST, VMOVBRRSS_INST, VMOVBRRD_INST, VMOVBRS, VMOVBRRSS, VMOVBRRD.
  split_and!; try (solve [typed_label]).
  - destruct c; try apply typed_fail. apply typed_label_, typed_with_reg. intros s r Hs Hr.
    destruct (nz to_arm); cbn [fst snd]; split; auto with ok rng.
  - destruct c; try apply typed_fail. apply typed_label_, typed_with_regs. intros s r r2 Hs Hr Hr2.
    destruct (nz to_arm); cbn [fst snd]; split_and!; auto 6 with ok rng.
  - destruct c; try apply typed_fail. apply typed_label_, typed_with_regs. intros s r r2 Hs Hr Hr2.
    destruct (nz to_arm); cbn [fst snd]; split_and!; auto 6 with ok rng.
Qed.
End writes.
