(* ===== verification/InterpTyped.v ===== *)
(** The type invariant of the machine: every label of the main loop keeps it,
    given a bus and a kernel that do. *)

From S2P Require Import Prelude ArmSupp ArmState ArmOps ArmTrans ArmInst ArmMedia ArmMem Vfp VfpInstr Interp ArmTyped VfpTyped ArmDec Thumb.

(** What is asked of the bus and of the kernel: an invariant of the world that
    they keep, values of the width that is read, and supervisor calls that leave
    the processor well-typed and do not raise the number of instructions to
    execute. *)
Definition instructions_ok (b : gmap Z arm_inst) : Prop := map_Forall (λ _ i, component_ok (inst_component i)) b.

Record machine_ok {W} (I : W -> Prop) (n : Z) (k : Machine W) : Prop := mk_machine_ok {
  ok_cpu : cpu_ok n (cpu k);
  ok_world : I (world k);
  ok_buf : instructions_ok (trans_cache_buf k)
}.

Class BusLaws {W} (bus : Bus W) (I : W -> Prop) := {
  bus_read_ok k a : hoare I (bus_read k a) (λ v w, in_range (8 * Z.of_nat k) v ∧ I w);
  bus_write_ok k a v : in_range (8 * Z.of_nat k) v -> hoare I (bus_write k a v) (λ _ w, I w)
}.
Class KernelLaws {W} (kernel : Kernel W) (I : W -> Prop) := {
  AddTicks_ok t : hoare I (AddTicks t) (λ _ w, I w);
  CallSVC_ok n i : hoare (machine_ok I n) (CallSVC i) (λ _ k, machine_ok I n k)
}.

Section machine.
Context {W : Type} {bus : Bus W} (I : W -> Prop) {laws : BusLaws bus I} (n : Z).
Abbreviation M := (ST (Machine W)).
Abbreviation ok := (machine_ok I n).

Lemma typed_on_cpu {A} {VA : Val A} (m : CPU A) : typed (cpu_ok n) m -> typed ok (on_cpu m).
Proof. apply typed_zoom; [by intros t []|by intros s t Hs []]. Qed.
Lemma typed_on_world {A} {VA : Val A} (m : ST W A) : typed I m -> typed ok (on_world m).
Proof. apply typed_zoom; [by intros t []|by intros s t Hs []]. Qed.

Lemma hoare_typed_read k a w : 8 * Z.of_nat k <= w ->
  hoare ok (on_world (bus_read k a)) (λ v s, in_range w v ∧ ok s).
Proof.
  intros Hw s [Hc HI Hb]. pose proof (bus_read_ok k a (world s) HI) as H. unfold on_world, zoom.
  destruct (bus_read k a (world s)) as [[v w']|]; [|done]. destruct H as [Hv HI'].
  split; [apply (range_weaken (8 * Z.of_nat k)); [done|lia|done]|done].
Qed.

Lemma range_swap k v : k = 2%nat ∨ k = 4%nat -> in_range (8 * Z.of_nat k) (swap k v).
Proof. intros [-> | ->]; cbn [swap]; unfold swap16, swap32; cbn; rng. Qed.
Lemma range_swap64 v : in_range 64 (swap 8 v).
Proof. cbn [swap]. unfold swap64. rng. Qed.

Lemma typed_ReadMemory k a : k = 2%nat ∨ k = 4%nat -> typed ok (ReadMemory k a).
Proof.
  intros Hk. unfold ReadMemory.
  eapply hoare_bind; [apply (hoare_typed_read k a (8 * Z.of_nat k)); lia|].
  intros v. cbv beta. intros s [Hv Hs]. revert s Hs.
  assert (T : typed ok (on_cpu (gets InBigEndianMode) ≫= λ big : bool, mret (if big then swap k v else v))).
  { eapply typed_bind; [apply typed_on_cpu; by typed_prim|]. intros b _. apply typed_ret. unfold val, val_word.
    pose proof (range_swap k v Hk). destruct b; apply (range_weaken (8 * Z.of_nat k)); try done; lia. }
  exact T.
Qed.
Lemma typed_ReadMemory8 a : typed ok (ReadMemory8 a).
Proof. unfold ReadMemory8. apply (hoare_typed_read 1). lia. Qed.
Lemma typed_ReadMemory16 a : typed ok (ReadMemory16 a).
Proof. apply typed_ReadMemory. auto. Qed.
Lemma typed_ReadMemory32 a : typed ok (ReadMemory32 a).
Proof. apply typed_ReadMemory. auto. Qed.

Lemma typed_write k a v : in_range (8 * Z.of_nat k) v -> typed ok (on_world (bus_write k a v)).
Proof.
  intros Hv. apply typed_on_world. eapply hoare_weaken; [by apply (bus_write_ok k a v)|done|done].
Qed.
Lemma typed_WriteMemory k a v : in_range (8 * Z.of_nat k) v -> (∀ v, in_range (8 * Z.of_nat k) v -> in_range (8 * Z.of_nat k) (swap k v)) ->
  typed ok (WriteMemory k a v).
Proof.
  intros Hv Hs. unfold WriteMemory. eapply typed_bind; [apply typed_on_cpu; by typed_prim|].
  intros [] _; apply typed_write; auto.
Qed.
Lemma typed_WriteMemory8 a v : typed ok (WriteMemory8 a v).
Proof. apply typed_write. rng. Qed.
Lemma typed_WriteMemory16 a v : typed ok (WriteMemory16 a v).
Proof. apply typed_WriteMemory; [rng|intros; apply range_swap; auto]. Qed.
Lemma typed_WriteMemory32 a v : in_range 32 v -> typed ok (WriteMemory32 a v).
Proof. intros. apply typed_WriteMemory; [done|intros; apply range_swap; auto]. Qed.
Lemma typed_WriteMemory64 a v : in_range 64 v -> typed ok (WriteMemory64 a v).
Proof. intros. apply typed_WriteMemory; [done|intros; apply range_swap64]. Qed.
Hint Resolve typed_ReadMemory8 typed_ReadMemory16 typed_ReadMemory32 typed_WriteMemory8 typed_WriteMemory16 : typed.
Hint Extern 1 (typed _ (WriteMemory32 _ _)) => apply typed_WriteMemory32; rng : typed.
Hint Extern 1 (typed _ (WriteMemory64 _ _)) => apply typed_WriteMemory64; rng : typed.
Hint Extern 3 (typed _ (on_cpu _)) => apply typed_on_cpu; typed : typed.

Lemma typed_get i : typed ok (get i).
Proof. apply typed_on_cpu. typed. Qed.
Lemma typed_put i v : in_range 32 v -> typed ok (put i v).
Proof. intros. apply typed_on_cpu. typed. Qed.
Hint Resolve typed_get : typed.
Hint Extern 1 (typed _ (put _ _)) => apply typed_put; rng : typed.

Lemma typed_m_label c l body : typed ok body -> typed ok (m_label c l body).
Proof. intros. unfold m_label, passed. typed. Qed.
Lemma typed_m_label_ c l body : typed ok body -> typed ok (m_label_ c l body).
Proof. intros. apply typed_m_label. typed. Qed.

Lemma typed_each_register inst body rs a :
  (∀ i a, typed ok (body i a)) -> in_range 32 a -> typed ok (each_register inst body rs a).
Proof.
  intros Hb. revert a. induction rs as [|i rs IH]; intros a Ha; cbn [each_register]; [typed|].
  destruct (nz (BIT inst i)); [|by apply IH].
  eapply typed_bind; [apply Hb|]. intros _ _. apply IH. rng.
Qed.
Hint Extern 2 (typed _ (each_register _ _ _ _)) => apply typed_each_register; [intros; typed | rng] : typed.

(** * Loads, stores and exclusive accesses *)

Lemma typed_put_usr i v : in_range 32 v -> typed ok (put_usr i v).
Proof. intros. unfold put_usr. typed. Qed.
Lemma typed_get_usr i : typed ok (get_usr i).
Proof. unfold get_usr. typed. Qed.
Hint Resolve typed_get_usr : typed.
Hint Extern 1 (typed _ (put_usr _ _)) => apply typed_put_usr; rng : typed.
Lemma typed_load_word r a : typed ok (load_word r a).
Proof. unfold load_word, set_pc. typed. Qed.
Hint Resolve typed_load_word : typed.

Ltac typed_m_label :=
  lazymatch goal with |- typed _ (match ?c with _ => _ end) => destruct c; try apply typed_fail end;
  lazymatch goal with
  | |- typed _ (m_label _ _ _) => apply typed_m_label
  | |- typed _ (m_label_ _ _ _) => apply typed_m_label_
  | |- _ => idtac
  end; typed.

Lemma load_typed cond c :
  typed ok (LDM_INST cond c) ∧ typed ok (LDR_INST c) ∧ typed ok (LDRCOND_INST cond c) ∧ typed ok (LDRB_INST cond c) ∧
  typed ok (LDRH_INST cond c) ∧ typed ok (LDRSB_INST cond c) ∧ typed ok (LDRSH_INST cond c).
Proof.
  unfold LDM_INST, LDR_INST, LDRCOND_INST, LDRB_INST, LDRH_INST, LDRSB_INST, LDRSH_INST.
  split_and!; typed_m_label.
Qed.

Lemma typed_as_user {A} {VA : Val A} (m : M A) : typed ok m -> typed ok (as_user m).
Proof.
  intros Hm. unfold as_user. typed.
Qed.
Hint Extern 1 (typed _ (as_user _)) => apply typed_as_user; typed : typed.

Lemma user_typed cond c :
  typed ok (LDRBT_INST cond c) ∧ typed ok (LDRT_INST cond c) ∧ typed ok (STRBT_INST cond c) ∧ typed ok (STRT_INST cond c).
Proof. unfold LDRBT_INST, LDRT_INST, STRBT_INST, STRT_INST. split_and!; typed_m_label. Qed.

Lemma store_typed cond c :
  typed ok (LDRD_INST cond c) ∧ typed ok (STM_INST cond c) ∧ typed ok (STR_INST cond c) ∧ typed ok (STRB_INST cond c) ∧
  typed ok (STRH_INST cond c) ∧ typed ok (STRD_INST cond c) ∧ typed ok (RFE_INST c) ∧ typed ok (SRS_INST c).
Proof.
  unfold LDRD_INST, STM_INST, STR_INST, STRB_INST, STRH_INST, STRD_INST, RFE_INST, SRS_INST, set_pc, passed.
  split_and!; typed_m_label.
Qed.

Lemma exclusive_typed cond c :
  typed ok (LDREX_INST cond c) ∧ typed ok (LDREXB_INST cond c) ∧ typed ok (LDREXH_INST cond c) ∧
  typed ok (LDREXD_INST cond c) ∧ typed ok (STREX_INST cond c) ∧ typed ok (STREXB_INST cond c) ∧
  typed ok (STREXH_INST cond c) ∧ typed ok (STREXD_INST cond c) ∧ typed ok (SWP_INST cond c) ∧ typed ok (SWPB_INST cond c).
Proof.
  unfold LDREX_INST, LDREXB_INST, LDREXH_INST, LDREXD_INST, STREX_INST, STREXB_INST, STREXH_INST, STREXD_INST,
    SWP_INST, SWPB_INST.
  split_and!; typed_m_label.
Qed.

(** * VFP loads and stores *)

Lemma typed_xget i : typed ok (xget i).
Proof. apply typed_on_cpu, typed_ext_get. Qed.
Lemma typed_xput i v : in_range 32 v -> typed ok (xput i v).
Proof. intros. by apply typed_on_cpu, typed_ext_put. Qed.
Hint Resolve typed_xget : typed.
Hint Extern 1 (typed _ (xput _ _)) => apply typed_xput; rng : typed.

Lemma typed_store_ext single d a : typed ok (store_ext single d a).
Proof. unfold store_ext. typed. Qed.
Lemma typed_load_ext single d a : typed ok (load_ext single d a).
Proof. unfold load_ext. typed. Qed.
Lemma typed_each_ext access single k d a : (∀ d a, typed ok (access d a)) -> typed ok (each_ext access single k d a).
Proof.
  intros H. revert d a. induction k as [|k IH]; intros d a; cbn [each_ext]; [by apply typed_ret|].
  eapply typed_bind; [apply H|]. intros _ _. apply IH.
Qed.
Hint Resolve typed_store_ext typed_load_ext : typed.
Hint Extern 2 (typed _ (each_ext _ _ _ _ _)) => apply typed_each_ext; intros; typed : typed.
Lemma typed_vfp_address m imm add : typed ok (vfp_address m imm add).
Proof. unfold vfp_address. typed. Qed.
Hint Resolve typed_vfp_address : typed.
Lemma typed_vfp_multiple access single add wback d m imm regs : (∀ d a, typed ok (access d a)) ->
  typed ok (vfp_multiple access single add wback d m imm regs).
Proof. intros. unfold vfp_multiple. typed. Qed.
Hint Extern 2 (typed _ (vfp_multiple _ _ _ _ _ _ _ _)) => apply typed_vfp_multiple; intros; typed : typed.

Lemma vfp_memory_typed cond c :
  typed ok (VSTR_INST cond c) ∧ typed ok (VLDR_INST cond c) ∧ typed ok (VPUSH_INST cond c) ∧ typed ok (VPOP_INST cond c) ∧
  typed ok (VSTM_INST cond c) ∧ typed ok (VLDM_INST cond c).
Proof.
  unfold VSTR_INST, VLDR_INST, VPUSH_INST, VPOP_INST, VSTM_INST, VLDM_INST, passed, set_pc.
  split_and!; typed_m_label.
Qed.
End machine.

(** * Translation *)

Lemma translators_ok : Forall (λ f, ∀ w i, component_ok (inst_component (f w i))) arm_instruction_trans.
Proof.
  repeat (apply List.Forall_cons || apply List.Forall_nil); intros w i; try exact I.
  - cbn. rng.
  - cbn. split; rng.
Qed.

(** * The main loop keeps the type invariant and ends: every label, the translation of blocks
    and dispatch keep the invariant, and every instruction uses up one of those that remain to
    be executed. *)

Section interp.
Context {W : Type} {bus : Bus W} {kernel : Kernel W} (I : W -> Prop) {laws : BusLaws bus I} {klaws : KernelLaws kernel I}.
Abbreviation M := (ST (Machine W)).
Abbreviation L := (ST (Loop W)).

(** * Translation *)

Section translation.
Context (n : Z).
Abbreviation ok := (machine_ok I n).
(** The invariant alone, whatever the result. *)
Abbreviation keeps m := (typed (VA := val_any _) ok m).

Lemma translate_ok w i x : translate w i = Some x -> component_ok (inst_component x).
Proof.
  unfold translate. destruct (arm_instruction_trans !! _) as [f|] eqn:E; [|done]. intros [= <-].
  exact (Forall_lookup_1 _ _ _ _ translators_ok E w i).
Qed.

Lemma keeps_AllocBuffer i : component_ok (inst_component i) -> keeps (AllocBuffer i).
Proof.
  intros Hi k [Hc HI Hb]. unfold AllocBuffer. destruct (_ <=? _); [|done]. split; [done|].
  constructor; [done|done|]. cbn. apply map_Forall_insert_2; [done|].
  intros o x Hx. apply map_lookup_filter_Some in Hx as [Hx _]. by apply (Hb o).
Qed.
Lemma keeps_set_br o b : keeps (set_br o b).
Proof.
  intros k [Hc HI Hb]. unfold set_br. destruct (trans_cache_buf k !! o) as [i|] eqn:E; [|done]. cbn. split; [done|].
  constructor; [done|done|]. cbn. apply map_Forall_insert_2; [|done]. cbn. by apply (Hb o).
Qed.
Lemma keeps_inst_at o : keeps (inst_at o).
Proof. intros k Hk. unfold inst_at. by destruct (trans_cache_buf k !! o). Qed.
Lemma keeps_cache_block a b : keeps (cache_block a b).
Proof. apply typed_modify. intros k []. by constructor. Qed.

Lemma thumb_branch inst addr i : (DecodeThumbInstruction inst addr).2 = Some i -> ∃ t k, translate t k = Some i.
Proof.
  unfold DecodeThumbInstruction. destruct (TranslateThumbInstruction addr inst) as [[[] ai] sz]; try done.
  cbv zeta. repeat case_match; cbn [snd]; first [done | by eauto].
Qed.

Lemma keeps_TranslateInstruction a : keeps (InterpreterTranslateInstruction a).
Proof.
  unfold InterpreterTranslateInstruction.
  eapply typed_bind; [apply typed_on_world; eapply hoare_weaken; [apply bus_read_ok|done|intros v w H; exact H]|].
  intros w _. eapply (typed_bind _ (VA := val_any Z)); [apply typed_on_cpu; typed_prim|]. intros t _.
  destruct (if nz t then _ else _) as [[[state ai] size] branch] eqn:E.
  destruct (if nz t && _ then branch else _) as [i|] eqn:F; [|apply typed_fail].
  eapply (typed_bind _ (VA := val_any Z)); [|intros; by apply typed_ret]. apply keeps_AllocBuffer.
  destruct (nz t && bool_decide (state = BRANCH)) eqn:B.
  - subst branch. apply andb_true_iff in B as [B _]. rewrite B in E.
    destruct (thumb_branch w a i) as (t' & k & T); [by rewrite E|]. by eapply translate_ok.
  - destruct (DecodeARMInstruction ai) as [k|]; [|done]. cbn in F. by eapply translate_ok.
Qed.

Lemma keeps_translate_next a : keeps (translate_next a).
Proof.
  unfold translate_next. eapply (typed_bind _ (VA := val_any _)); [apply keeps_TranslateInstruction|]. intros [size base] _.
  eapply (typed_bind _ (VA := val_any _)); [destruct (_ =? 0); [apply keeps_set_br|by apply typed_ret]|]. intros _ _.
  eapply (typed_bind _ (VA := val_any _)); [apply keeps_inst_at|]. intros i _. by apply typed_ret.
Qed.

Lemma keeps_block_step s : ok s.2 ->
  match block_step s with inl s' => ok s'.2 | inr r => from_option ok True r end.
Proof.
  intros Hs. pose proof (keeps_translate_next s.1 s.2 Hs) as H. unfold block_step.
  destruct (translate_next s.1 s.2) as [[[a ret] k]|]; [|done]. destruct H as [_ H]. by case_decide.
Qed.

Lemma keeps_TranslateBlock a : keeps (InterpreterTranslateBlock a).
Proof.
  intros k Hk. unfold InterpreterTranslateBlock. cbv zeta.
  pose proof (loop_keeps block_step (λ s, ok s.2) (λ r, from_option ok True r) 11 (a, k) keeps_block_step Hk) as H.
  destruct (loop 11 block_step (a, k)) as [|[k'|]]; [done| |done]. cbn. split; [done|].
  destruct H. by constructor.
Qed.

Lemma keeps_TranslateSingle a : keeps (InterpreterTranslateSingle a).
Proof.
  unfold InterpreterTranslateSingle.
  eapply (typed_bind _ (VA := val_any _)); [by apply typed_gets|]. intros b _.
  eapply (typed_bind _ (VA := val_any _)); [apply typed_on_cpu; typed_prim|]. intros p _.
  eapply (typed_bind _ (VA := val_any _)); [apply keeps_TranslateInstruction|]. intros [size base] _.
  eapply (typed_bind _ (VA := val_any _)); [apply keeps_inst_at|]. intros i _.
  eapply (typed_bind _ (VA := val_any _)); [destruct (bool_decide _); [apply keeps_set_br|by apply typed_ret]|]. intros _ _.
  eapply (typed_bind _ (VA := val_any _)); [apply keeps_cache_block|]. intros _ _. by apply typed_ret.
Qed.

Lemma keeps_find_block : keeps find_block.
Proof.
  unfold find_block. eapply (typed_bind _ (VA := val_any _)); [apply typed_on_cpu; typed_prim|]. intros p _.
  eapply (typed_bind _ (VA := val_any _)); [by apply typed_gets|]. intros [o|] _; [by apply typed_ret|].
  eapply (typed_bind _ (VA := val_any _)); [by apply typed_on_cpu; apply typed_gets|]. intros limit _.
  destruct (negb _); [apply keeps_TranslateBlock|apply keeps_TranslateSingle].
Qed.
End translation.

(** * The main loop

    [budget b l]: at most [b] instructions remain, and [num_instrs] is at most
    [cap]. *)

Section main_loop.
Context (cap : Z).

Record budget (b : Z) (l : Loop W) : Prop := mk_budget {
  budget_nonneg : 0 <= b;
  budget_num : 0 <= num_instrs l <= cap;
  budget_ok : machine_ok I (b + num_instrs l) (mach l)
}.

Lemma cpu_ok_mono n n' s : cpu_ok n s -> NumInstrsToExecute s <= n' -> cpu_ok n' s.
Proof. intros [] ?. constructor; try done. lia. Qed.
Lemma machine_ok_mono n n' k : machine_ok I n k -> NumInstrsToExecute (cpu k) <= n' -> machine_ok I n' k.
Proof. intros [] ?. constructor; try done. by eapply cpu_ok_mono. Qed.

Lemma budget_on_mach {A} {VA : Val A} b (m : M A) : (∀ n, typed (machine_ok I n) m) -> typed (budget b) (on_mach m).
Proof.
  intros H l [Hb Hn Hk]. unfold on_mach, zoom. specialize (H _ (mach l) Hk).
  destruct (m (mach l)) as [[a k]|]; [|done]. destruct H. split; [done|]. by constructor.
Qed.
Lemma budget_l_cpu {A} {VA : Val A} b (m : CPU A) : (∀ n, typed (cpu_ok n) m) -> typed (budget b) (l_cpu m).
Proof. intros H. apply budget_on_mach. intros n. by apply typed_on_cpu. Qed.

Lemma SWI_budget b cond c : typed (budget b) (SWI_INST cond c).
Proof.
  unfold SWI_INST. destruct c; try apply typed_fail.
  eapply (typed_bind _ (VA := val_any _)); [by apply budget_l_cpu; intros; apply typed_gets|]. intros p _.
  eapply (typed_bind _ (VA := val_any _)); [|intros; apply budget_l_cpu; intros; apply typed_advance].
  destruct p; [|by apply typed_ret].
  apply (hoare_bind _ (λ v l, v = num_instrs l ∧ budget b l)); [by apply hoare_gets|]. intros v.
  apply (hoare_bind _ (λ _ l, v = num_instrs l ∧ budget b l)).
  { intros l [Ev [Hb Hn Hk]]. destruct Hk as [Hc HI Hf]. pose proof (AddTicks_ok v (world (mach l)) HI) as H.
    unfold on_mach, on_world, zoom. destruct (AddTicks v (world (mach l))) as [[u w]|]; [|done]. done. }
  intros _. apply (hoare_bind _ (λ _ l, 0 <= b ∧ 0 <= cap ∧ machine_ok I b (mach l))).
  { intros l [-> [Hb Hn [Hc HI Hf]]]. cbn. split; [done|]. split; [lia|]. constructor; [|done|done]. cbn.
    pose proof (ok_N _ _ Hc). destruct Hc. constructor; try done. cbn. destruct (Z.leb_spec (NumInstrsToExecute (cpu (mach l))) (num_instrs l)); lia. }
  intros _. apply (hoare_bind _ (λ _ l, budget b l)).
  { apply hoare_modify. intros l (Hb & Hcap & Hk). constructor; cbn; [done|lia|]. by rewrite Z.add_0_r. }
  intros _. change (typed (budget b) (on_mach (CallSVC (num .& 0xFFFF));; l_cpu (modify UnsetExclusiveMemoryAddress))).
  eapply (typed_bind _ (VA := val_any _)).
  - apply budget_on_mach. intros n. eapply hoare_weaken; [apply CallSVC_ok|done|done].
  - intros _ _. apply budget_l_cpu. intros n. typed_prim.
Qed.

Lemma END_budget b : typed (budget b) END.
Proof.
  unfold END, set_NumInstrsToExecute. eapply (typed_bind _ (VA := val_any _)); [|intros _ _]; apply budget_l_cpu; intros n; typed_prim.
Qed.

(** Every label keeps the budget: by the lemma on its family. *)
Ltac conjunct H :=
  let T := type of H in
  lazymatch T with
  | ?A ∧ _ => first [lazymatch goal with |- ?G => constr_eq G A end; exact (proj1 H) | conjunct constr:(proj2 H)]
  | ?A => lazymatch goal with |- ?G => constr_eq G A end; exact H
  end.

Lemma labels_budget : Forall (λ label, ∀ b cond c, component_ok c -> typed (budget b) (label cond c)) InstLabel.
Proof.
  repeat (apply List.Forall_cons || apply List.Forall_nil); intros b cond c Hc.
  all: lazymatch goal with
       | |- typed _ (l_cpu _) => apply budget_l_cpu; intros n;
           unfold VMLA_INST, VMLS_INST, VNMLA_INST, VNMLS_INST, VNMUL_INST, VMUL_INST, VADD_INST, VSUB_INST, VDIV_INST,
             VABS_INST, VNEG_INST, VSQRT_INST, VCMP_INST, VCMP2_INST, VCVTBDS_INST, VCVTBFF_INST, VCVTBFI_INST,
             MRRC_INST, SEV_INST, WFE_INST, WFI_INST, YIELD_INST;
           first [ conjunct (vfp_typed n cond c Hc) | conjunct (alu_typed n cond c) | conjunct (extend_typed n cond c)
                 | conjunct (parallel_typed n cond c) | conjunct (multiply_typed n cond c)
                 | conjunct (branch_typed n cond c) | conjunct (saturate_typed n cond c)
                 | conjunct (status_typed n cond c Hc) ]
       | |- typed _ (on_mach _) => apply budget_on_mach; intros n;
           first [ conjunct (load_typed I n cond c) | conjunct (store_typed I n cond c) | conjunct (user_typed I n cond c)
                 | conjunct (exclusive_typed I n cond c) | conjunct (vfp_memory_typed I n cond c) ]
       | |- typed _ (SWI_INST _ _) => apply SWI_budget
       | |- typed _ (goto_DISPATCH _ _) => by apply typed_ret
       | |- _ => idtac
       end.
  - unfold goto_INIT_INST_LENGTH, INIT_INST_LENGTH, set_NumInstrsToExecute.
    eapply (typed_bind _ (VA := val_any _)); [|by intros; apply typed_ret]. apply budget_l_cpu. intros n. typed_prim.
  - unfold goto_END. eapply (typed_bind _ (VA := val_any _)); [apply END_budget|by intros; apply typed_ret].
Qed.

Lemma inst_at_component b o : hoare (budget b) (on_mach (inst_at o)) (λ i l, component_ok (inst_component i) ∧ budget b l).
Proof.
  intros l [Hb Hn [Hc HI Hf]]. unfold on_mach, zoom, inst_at.
  destruct (trans_cache_buf (mach l) !! o) as [i|] eqn:E; [|done]. cbn. split; [exact (Hf o i E)|done].
Qed.
Lemma budget_modify b f : (∀ l, mach (f l) = mach l ∧ num_instrs (f l) = num_instrs l) -> typed (budget b) (modify f).
Proof. intros H. apply typed_modify. intros x [Hb Hn Hk]. destruct (H x) as [E1 E2]. constructor; by rewrite ?E1, ?E2. Qed.

Lemma FETCH_budget b base f : typed (budget b) (FETCH_INST base f).
Proof.
  destruct f; [|by apply typed_ret..].
  eapply (typed_bind _ (VA := val_any _)); [by apply budget_modify|]. intros _ _.
  eapply (typed_bind _ (VA := val_any _)); [apply budget_on_mach; intros; apply keeps_inst_at|]. intros i _.
  destruct (decide _); [|by apply typed_ret].
  eapply (typed_bind _ (VA := val_any _)); [by apply budget_modify|]. intros _ _. by apply typed_ret.
Qed.
Lemma label_budget b : typed (budget b) goto_label.
Proof.
  unfold goto_label. eapply (typed_bind _ (VA := val_any _)); [by apply typed_gets|]. intros base _.
  eapply hoare_bind; [apply inst_at_component|]. intros i. cbv beta.
  apply (hoare_bind _ (λ _ l, budget b l)); [|intros f; apply FETCH_budget].
  intros l [Hc Hb]. destruct (InstLabel !! Z.to_nat (idx i)) as [label|] eqn:E; [|done].
  pose proof (Forall_lookup_1 _ _ _ _ labels_budget E b (cond i) _ Hc l Hb) as H.
  destruct (label _ _ l) as [[f l']|]; [|done]. exact (proj2 H).
Qed.
End main_loop.

Lemma ok_GDB_BP_CHECK n s : cpu_ok n s -> cpu_ok n (GDB_BP_CHECK s).
Proof. intros H. apply ok_set_Cpsr; [done|]. rng. Qed.

Lemma END_ok n l l' : machine_ok I n (mach l) -> END l = Some (tt, l') -> machine_ok I n (mach l').
Proof.
  intros [Hc HI Hf] [= <-]. constructor; [|done|done].
  exact (ok_stop n (SAVE_NZCVT (cpu (mach l))) (ok_SAVE_NZCVT n _ Hc)).
Qed.

(** At [GOTO_NEXT_INST] with [n] instructions of [lim] executed: the loop ends
    when none remains, else one fewer remains. *)
Definition checked (l : Loop W) : Loop W := l<|mach := (mach l)<|cpu := GDB_BP_CHECK (cpu (mach l))|>|>.

Lemma GOTO_stop l : NumInstrsToExecute (cpu (mach l)) <= num_instrs l -> machine_ok I (NumInstrsToExecute (cpu (mach l))) (mach l) ->
  ∃ l', GOTO_NEXT_INST l = Some (Goto_return, l') ∧ num_instrs l' = num_instrs l ∧
        machine_ok I (NumInstrsToExecute (cpu (mach l))) (mach l').
Proof.
  intros Hl Hk. set (lim := NumInstrsToExecute (cpu (mach l))) in *.
  assert (Hc : machine_ok I lim (mach (checked l))).
  { destruct Hk. constructor; [by apply (ok_GDB_BP_CHECK lim)|done|done]. }
  change (GOTO_NEXT_INST l) with ((if lim <=? num_instrs l then END;; mret Goto_return else
    modify (λ l0, l0<|num_instrs := u32 (num_instrs l + 1)|>);; goto_label) (checked l)).
  rewrite (proj2 (Z.leb_le _ _) Hl). destruct (END (checked l)) as [[[] l']|] eqn:E; [|done].
  exists l'. split; [by unfold mbind, ST_bind; rewrite E|]. split; [by injection E as <-|]. by eapply END_ok.
Qed.

Lemma GOTO_go l : 0 <= num_instrs l < NumInstrsToExecute (cpu (mach l)) -> NumInstrsToExecute (cpu (mach l)) < 2 ^ 32 ->
  machine_ok I (NumInstrsToExecute (cpu (mach l))) (mach l) ->
  match GOTO_NEXT_INST l with
  | Some (_, l') => budget (num_instrs l + 1) (NumInstrsToExecute (cpu (mach l)) - num_instrs l - 1) l'
  | None => True
  end.
Proof.
  intros Hn Hlim Hk. set (lim := NumInstrsToExecute (cpu (mach l))) in *.
  change (GOTO_NEXT_INST l) with ((if lim <=? num_instrs l then END;; mret Goto_return else
    modify (λ l0, l0<|num_instrs := u32 (num_instrs l + 1)|>);; goto_label) (checked l)).
  rewrite (proj2 (Z.leb_gt _ _)) by lia.
  pose proof (label_budget (num_instrs l + 1) (lim - num_instrs l - 1) ((checked l)<|num_instrs := u32 (num_instrs l + 1)|>)) as H.
  rewrite uwrap_id in H by (unfold in_range; lia).
  change ((modify _;; goto_label) (checked l)) with (goto_label ((checked l)<|num_instrs := u32 (num_instrs l + 1)|>)).
  rewrite uwrap_id by (unfold in_range; lia).
  destruct (goto_label _) as [[j l']|]; [|done]. apply H. constructor; cbn; [lia|lia|].
  replace (lim - num_instrs l - 1 + (num_instrs l + 1)) with lim by lia.
  destruct Hk. constructor; [by apply (ok_GDB_BP_CHECK lim)|done|done].
Qed.
End interp.
