(* ===== verification/ArmRef.v ===== *)
(** The data-processing instructions against the arithmetic of the ARM
    architecture manual: the shifter operands, the results and the flags, on
    numbers. *)

From S2P Require Import Prelude ArmSupp ArmState ArmOps ArmTrans ArmInst ArmTyped.

(** * Reference *)

Inductive SRType := LSL | LSR | ASR | ROR | RRX.

(** Bit [k] of a number. *)
Definition bit (x k : Z) : Z := (x / 2 ^ k) mod 2.
Definition ror (x n : Z) : Z := x / 2 ^ (n mod 32) + (x mod 2 ^ (n mod 32)) * 2 ^ (32 - n mod 32).

(** [Shift_C] of the manual: the shifted word and the carry. *)
Definition Shift_C (x : Z) (ty : SRType) (n carry : Z) : Z * Z :=
  match ty with
  | RRX => (carry * 2 ^ 31 + x / 2, bit x 0)
  | _ =>
      if n =? 0 then (x, carry)
      else match ty with
           | LSL => (u32 (x * 2 ^ n), bit (x * 2 ^ n) 32)
           | LSR => (x / 2 ^ n, bit x (n - 1))
           | ASR => (u32 (s32 x / 2 ^ n), bit (s32 x) (n - 1))
           | _ => (ror x n, bit (ror x n) 31)
           end
  end.

(** The shift an operand asks for: by a constant, where 0 stands for 32 or for
    [RRX], or by the low byte of a register. *)
Definition operand_ref (f : shtop_fp_t) (oper rm rs carry : Z) : Z * Z :=
  let imm5 := (oper / 2 ^ 7) mod 2 ^ 5 in
  let by_imm5 ty := Shift_C rm ty (if imm5 =? 0 then 32 else imm5) carry in
  let by_register ty := Shift_C rm ty (rs mod 2 ^ 8) carry in
  match f with
  | Immediate => Shift_C (oper mod 2 ^ 8) ROR (2 * ((oper / 2 ^ 8) mod 2 ^ 4)) carry
  | Register => (rm, carry)
  | LogicalShiftLeftByImmediate => Shift_C rm LSL imm5 carry
  | LogicalShiftRightByImmediate => by_imm5 LSR
  | ArithmeticShiftRightByImmediate => by_imm5 ASR
  | RotateRightByImmediate => if imm5 =? 0 then Shift_C rm RRX 1 carry else Shift_C rm ROR imm5 carry
  | LogicalShiftLeftByRegister => by_register LSL
  | LogicalShiftRightByRegister => by_register LSR
  | ArithmeticShiftRightByRegister => by_register ASR
  | RotateRightByRegister => by_register ROR
  end.

(** * Shifts *)

Lemma BIT_bit x k : 0 <= k -> BIT x k = bit x k.
Proof. intros Hk. unfold bit. by rewrite BIT_spec, Z.testbit_spec' by done. Qed.
Lemma bit_shiftl x n k : 0 <= n <= k -> bit (x * 2 ^ n) k = bit x (k - n).
Proof.
  intros Hn. unfold bit. rewrite <- !Z.testbit_spec' by lia. f_equal. rewrite <- Z.shiftl_mul_pow2, Z.shiftl_spec by lia. done.
Qed.
Lemma bit_low x n k : 0 <= k < n -> bit (x * 2 ^ n) k = 0.
Proof.
  intros Hk. unfold bit. rewrite <- Z.testbit_spec' by lia. rewrite <- Z.shiftl_mul_pow2, Z.shiftl_spec_low by lia. done.
Qed.
Lemma bit_high x w k : 0 <= w <= k -> in_range w x -> bit x k = 0.
Proof. intros Hk Hx. unfold bit. rewrite <- Z.testbit_spec' by lia. by rewrite (range_testbit w) by (done || lia). Qed.
Lemma bit_top x : in_range 32 x -> bit x 31 = x / 2 ^ 31.
Proof. intros Hx. unfold bit, in_range in *. modlia. Qed.
(** The bits of a word below its sign are those of the signed number. *)
Lemma bit_s32 x k : 0 <= k <= 31 -> bit (s32 x) k = bit x k.
Proof.
  intros Hk. unfold bit. rewrite <- !Z.testbit_spec' by lia. f_equal. unfold swrap.
  rewrite <- (Z.mod_pow2_bits_low _ 32) by lia. rewrite Zminus_mod_idemp_l. change (2 ^ (32 - 1)) with (2 ^ 31).
  replace (x + 2 ^ 31 - 2 ^ 31) with x by lia. apply Z.mod_pow2_bits_low. lia.
Qed.
Lemma s32_high x k : 32 <= k -> in_range 32 x -> s32 x / 2 ^ k = - bit x 31 ∧ bit (s32 x) k = bit x 31.
Proof.
  intros Hk Hx. assert (E : s32 x / 2 ^ k = - bit x 31).
  { pose proof (Z.pow_le_mono_r 2 32 k ltac:(lia) Hk) as Hp. rewrite bit_top by done. rewrite (swrap_sign 32) by done.
    unfold in_range in *. change (32 - 1) with 31.
    destruct (Z.leb_spec (2 ^ 31) x); [replace (x / 2 ^ 31) with 1 by modlia|replace (x / 2 ^ 31) with 0 by modlia].
    - symmetry. apply (Z.div_unique _ _ _ (x - 2 ^ 32 + 2 ^ k)); lia.
    - apply Z.div_small. lia. }
  split; [done|]. unfold bit at 1. rewrite E, bit_top by done. unfold in_range in Hx.
  destruct (Z.le_gt_cases (2 ^ 31) x); [replace (x / 2 ^ 31) with 1 by modlia|replace (x / 2 ^ 31) with 0 by modlia]; done.
Qed.

Lemma lsl32_ref x n : 0 <= n < 32 -> lsl32 x n = u32 (x * 2 ^ n).
Proof. intros Hn. unfold lsl32. by rewrite Z.mod_small, shiftl_mul by lia. Qed.
Lemma lsr32_ref x n : 0 <= n < 32 -> lsr32 x n = x / 2 ^ n.
Proof. intros Hn. unfold lsr32. by rewrite Z.mod_small, shiftr_div by lia. Qed.
Lemma asr32_ref x n : 0 <= n < 32 -> asr32 x n = u32 (s32 x / 2 ^ n).
Proof. intros Hn. unfold asr32. by rewrite Z.mod_small, shiftr_div by lia. Qed.
Lemma lsl_high x n : 32 <= n -> u32 (x * 2 ^ n) = 0.
Proof.
  intros Hn. unfold uwrap. replace n with (n - 32 + 32) by lia. rewrite Z.pow_add_r, Z.mul_assoc by lia. by apply Z.mod_mul.
Qed.
Lemma lsr_high x n : 32 <= n -> in_range 32 x -> x / 2 ^ n = 0.
Proof.
  intros Hn Hx. apply Z.div_small. unfold in_range in Hx. pose proof (Z.pow_le_mono_r 2 32 n ltac:(lia) Hn). lia.
Qed.

Lemma ROTATE_RIGHT_ref x n : 0 <= n < 32 -> in_range 32 x -> ROTATE_RIGHT_32 x n = ror x n.
Proof.
  intros Hn Hx. unfold ROTATE_RIGHT_32, ror. rewrite (Z.mod_small n 32), lsr32_ref by lia.
  destruct (Z.eq_dec n 0) as [->|Hn0].
  { unfold lsl32. change ((32 - 0) mod 32) with 0. rewrite shiftl_mul, Z.mul_1_r, uwrap_id, Z.div_1_r, Z.mod_1_r by done.
    rewrite Z.lor_diag. lia. }
  rewrite lsl32_ref by lia. unfold uwrap. replace (2 ^ 32) with (2 ^ n * 2 ^ (32 - n)) by (rewrite <- Z.pow_add_r by lia; f_equal; lia).
  rewrite Z.mul_mod_distr_r by (apply Z.pow_nonzero; lia). rewrite Z.lor_comm.
  rewrite <- shiftl_mul by lia. rewrite lor_add; [by rewrite shiftl_mul by lia|lia|].
  unfold in_range in *. split; [apply Z.div_pos; lia|]. apply Z.div_lt_upper_bound; [lia|].
  rewrite <- Z.pow_add_r by lia. replace (n + (32 - n)) with 32 by lia. lia.
Qed.

Lemma ror_carry x n : 0 < n < 32 -> in_range 32 x -> bit (ror x n) 31 = bit x (n - 1).
Proof.
  intros Hn Hx. rewrite <- ROTATE_RIGHT_ref by (done || lia). unfold ROTATE_RIGHT_32, bit.
  rewrite <- !Z.testbit_spec' by lia. f_equal. rewrite Z.lor_spec, lsl32_ref, lsr32_ref by lia.
  unfold uwrap. rewrite Z.mod_pow2_bits_low, <- shiftl_mul, Z.shiftl_spec, <- shiftr_div, Z.shiftr_spec by lia.
  rewrite (range_testbit 32 x (31 + n)) by (done || lia). rewrite orb_false_r. f_equal. lia.
Qed.
Lemma ror_32 x n : n mod 32 = 0 -> ror x n = x.
Proof. intros E. unfold ror. rewrite E, Z.div_1_r, Z.mod_1_r. lia. Qed.
Lemma ror_mod x n : ror x (n mod 32) = ror x n.
Proof. unfold ror. by rewrite Z.mod_mod. Qed.
Lemma range_ror x n : in_range 32 x -> in_range 32 (ror x n).
Proof.
  intros Hx. rewrite <- ror_mod, <- ROTATE_RIGHT_ref by (done || (apply Z.mod_pos_bound; lia)). by apply range_ror32.
Qed.

(** * Operands *)

(** What an instruction reads from register [i]. *)
Definition operand_reg (s : ARMul_State) (i : Z) : Z :=
  if i =? 15 then u32 ((pc s .& unot 32 1) + GetInstructionSize s * 2) else rd (Reg s) (Z.to_nat i).

Section operands.
Context (n : Z) (s : ARMul_State) (Hs : cpu_ok n s).

Lemma reg_ok i : 0 <= i < 16 -> reg i s = Some (rd (Reg s) (Z.to_nat i), s).
Proof.
  intros Hi. unfold reg, rd. destruct (ok_len n s Hs) as (L & _).
  destruct (lookup_lt_is_Some_2 (Reg s) (Z.to_nat i)) as [v E]; [lia|]. by rewrite E, (list_lookup_total_correct _ _ _ E).
Qed.
Lemma read_ok i : 0 <= i < 16 -> CHECK_READ_REG15 i s = Some (operand_reg s i, s).
Proof. intros Hi. unfold CHECK_READ_REG15, operand_reg. destruct (i =? 15); [done|by apply reg_ok]. Qed.
Lemma range_operand_reg i : in_range 32 (operand_reg s i).
Proof. unfold operand_reg. destruct (_ =? _); rng. Qed.

Lemma imm5_ref oper : BITS oper 7 11 = (oper / 2 ^ 7) mod 2 ^ 5.
Proof. rewrite BITS_spec, shiftr_div by lia. done. Qed.
Lemma low_byte rs : BITS rs 0 7 = rs mod 2 ^ 8.
Proof. rewrite BITS_spec by lia. by rewrite Z.shiftr_0_r. Qed.
Lemma low_5 rs : BITS rs 0 4 = (rs mod 2 ^ 8) mod 32.
Proof. rewrite BITS_spec, Z.shiftr_0_r by lia. symmetry; apply Z.mod_mod_divide; by exists 8. Qed.

Lemma sign_fill x : in_range 32 x -> (if BIT x 31 =? 0 then 0 else 0xFFFFFFFF) = u32 (- bit x 31).
Proof.
  intros Hx. rewrite BIT_bit, bit_top by (done || lia). unfold in_range in Hx.
  destruct (Z.le_gt_cases (2 ^ 31) x); [replace (x / 2 ^ 31) with 1 by modlia|replace (x / 2 ^ 31) with 0 by modlia]; done.
Qed.

(** The cases of the code for an amount [n]. *)
Lemma shift_zero x ty c : ty ≠ RRX -> Shift_C x ty 0 c = (x, c).
Proof. by destruct ty. Qed.
Lemma LSL_small x k c : 0 < k < 32 -> Shift_C x LSL k c = (lsl32 x k, BIT x (32 - k)).
Proof.
  intros Hk. unfold Shift_C. rewrite (proj2 (Z.eqb_neq k 0)), lsl32_ref, BIT_bit, bit_shiftl by lia. done.
Qed.
Lemma LSL_32 x c : Shift_C x LSL 32 c = (0, BIT x 0).
Proof. unfold Shift_C. cbn [Z.eqb]. by rewrite lsl_high, bit_shiftl, BIT_bit by lia. Qed.
Lemma LSL_large x k c : 32 < k -> Shift_C x LSL k c = (0, 0).
Proof. intros Hk. unfold Shift_C. by rewrite (proj2 (Z.eqb_neq k 0)), lsl_high, bit_low by lia. Qed.
Lemma LSR_small x k c : 0 < k < 32 -> Shift_C x LSR k c = (lsr32 x k, BIT x (k - 1)).
Proof. intros Hk. unfold Shift_C. by rewrite (proj2 (Z.eqb_neq k 0)), lsr32_ref, BIT_bit by lia. Qed.
Lemma LSR_32 x c : in_range 32 x -> Shift_C x LSR 32 c = (0, BIT x 31).
Proof. intros Hx. unfold Shift_C. cbn [Z.eqb]. by rewrite lsr_high, BIT_bit by (done || lia). Qed.
Lemma LSR_large x k c : 32 < k -> in_range 32 x -> Shift_C x LSR k c = (0, 0).
Proof.
  intros Hk Hx. unfold Shift_C. by rewrite (proj2 (Z.eqb_neq k 0)), lsr_high, (bit_high x 32) by (done || lia).
Qed.
Lemma ASR_small x k c : 0 < k < 32 -> Shift_C x ASR k c = (asr32 x k, BIT x (k - 1)).
Proof. intros Hk. unfold Shift_C. by rewrite (proj2 (Z.eqb_neq k 0)), asr32_ref, bit_s32, BIT_bit by lia. Qed.
Lemma ASR_large x k c : 32 <= k -> in_range 32 x ->
  Shift_C x ASR k c = (if BIT x 31 =? 0 then 0 else 0xFFFFFFFF, BIT x 31).
Proof.
  intros Hk Hx. unfold Shift_C. rewrite (proj2 (Z.eqb_neq k 0)), sign_fill, BIT_bit by (done || lia).
  destruct (s32_high x k Hk Hx) as [-> _]. f_equal.
  destruct (Z.eq_dec k 32) as [->|]; [by rewrite bit_s32 by lia|]. by apply s32_high; [lia|].
Qed.
Lemma ROR_small x k c : 0 < k < 32 -> in_range 32 x -> Shift_C x ROR k c = (ROTATE_RIGHT_32 x k, BIT x (k - 1)).
Proof.
  intros Hk Hx. unfold Shift_C. by rewrite (proj2 (Z.eqb_neq k 0)), ror_carry, ROTATE_RIGHT_ref, BIT_bit by (done || lia).
Qed.
Lemma ROR_byte x k c : 0 < k -> in_range 32 x -> Shift_C x ROR k c =
  if k mod 32 =? 0 then (x, BIT x 31) else (ROTATE_RIGHT_32 x (k mod 32), BIT x (k mod 32 - 1)).
Proof.
  intros Hk Hx. unfold Shift_C. rewrite (proj2 (Z.eqb_neq k 0)) by lia. pose proof (Z.mod_pos_bound k 32 ltac:(lia)).
  destruct (Z.eqb_spec (k mod 32) 0) as [E|E]; [by rewrite ror_32, BIT_bit by (done || lia)|].
  by rewrite <- ror_mod, ror_carry, ROTATE_RIGHT_ref, BIT_bit by (done || lia).
Qed.
Lemma RRX_ref x c : in_range 32 x -> in_range 1 c -> Shift_C x RRX 1 c = (u32 (c ≪ 31) .| (x ≫ 1), BIT x 0).
Proof.
  intros Hx Hc. unfold Shift_C. rewrite BIT_bit, shiftr_div, shiftl_mul by lia. f_equal. unfold in_range in *.
  rewrite uwrap_id by (unfold in_range; pow2; lia). rewrite Z.lor_comm, <- shiftl_mul, lor_add by (unfold in_range; modlia).
  rewrite shiftl_mul by lia. change (2 ^ 1) with 2. lia.
Qed.
Lemma Immediate_ref x k c : 0 <= k < 16 -> in_range 32 x ->
  Shift_C x ROR (2 * k) c = (ROTATE_RIGHT_32 x (k * 2), if k =? 0 then c else BIT (ROTATE_RIGHT_32 x (k * 2)) 31).
Proof.
  intros Hk Hx. unfold Shift_C. rewrite ROTATE_RIGHT_ref by (done || lia). replace (2 * k) with (k * 2) by lia.
  destruct (Z.eqb_spec k 0) as [->|Hn]; [by rewrite ror_32|].
  by rewrite (proj2 (Z.eqb_neq (k * 2) 0)), BIT_bit by lia.
Qed.

(** ** Running an operand *)

Lemma bind_read {A} (m : CPU Z) v (f : Z -> CPU A) : m s = Some (v, s) -> (m ≫= f) s = f v s.
Proof. intros E. unfold mbind, ST_bind. by rewrite E. Qed.

Abbreviation shifted r := (Some (fst r, s<|shifter_carry_out := snd r|>)).

Ltac operand Erm Ers :=
  rewrite ?(bind_read _ _ _ Ers), ?(bind_read _ _ _ Erm), ?(bind_read _ _ _ Ers), ?imm5_ref, ?low_byte, ?low_5.

Lemma DPO_ref f oper : in_range 32 oper ->
  DPO oper f s = shifted (operand_ref f oper (operand_reg s (RM oper)) (operand_reg s (RS oper)) (CFlag s)).
Proof.
  intros Ho. set (rm := operand_reg s (RM oper)). set (rs := operand_reg s (RS oper)).
  assert (Erm : CHECK_READ_REG15 (RM oper) s = Some (rm, s)) by (apply read_ok, BITS_range; lia).
  assert (Ers : CHECK_READ_REG15 (RS oper) s = Some (rs, s)) by (apply read_ok, BITS_range; lia).
  assert (Hrm : in_range 32 rm) by apply range_operand_reg. assert (Hrs : in_range 32 rs) by apply range_operand_reg.
  pose proof (BITS_range oper 7 11 ltac:(lia) ltac:(lia)) as H5. rewrite imm5_ref in H5.
  pose proof (BITS_range rs 0 7 ltac:(lia) ltac:(lia)) as H8. rewrite low_byte in H8. cbn in H5, H8.
  unfold operand_ref. cbv zeta.
  destruct f; unfold DPO.
  - unfold DPO_Immediate. cbv zeta. pose proof (BITS_range oper 8 11 ltac:(lia) ltac:(lia)) as H4.
    rewrite low_byte. assert (E : BITS oper 8 11 = (oper / 2 ^ 8) mod 2 ^ 4) by (rewrite BITS_spec, shiftr_div by lia; done).
    rewrite E in *. cbn in H4. rewrite Immediate_ref; [|exact H4|eapply range_weaken; [| |apply uwrap_range]; lia].
    by destruct (_ =? 0).
  - unfold DPO_Register. by operand Erm Ers.
  - unfold DPO_LogicalShiftLeftByImmediate. cbv zeta. operand Erm Ers. destruct (Z.eqb_spec ((oper / 2 ^ 7) mod 2 ^ 5) 0) as [->|]; [done|].
    by rewrite LSL_small by lia.
  - unfold DPO_LogicalShiftLeftByRegister. cbv zeta. operand Erm Ers. destruct (Z.eqb_spec (rs mod 2 ^ 8) 0) as [->|]; [done|].
    destruct (Z.ltb_spec (rs mod 2 ^ 8) 32); [by rewrite LSL_small by lia|].
    destruct (Z.eqb_spec (rs mod 2 ^ 8) 32) as [->|]; [by rewrite LSL_32|by rewrite LSL_large by lia].
  - unfold DPO_LogicalShiftRightByImmediate. cbv zeta. operand Erm Ers. destruct (Z.eqb_spec ((oper / 2 ^ 7) mod 2 ^ 5) 0).
    { by rewrite LSR_32. }
    by rewrite LSR_small by lia.
  - unfold DPO_LogicalShiftRightByRegister. cbv zeta. operand Erm Ers. destruct (Z.eqb_spec (rs mod 2 ^ 8) 0) as [->|]; [done|].
    destruct (Z.ltb_spec (rs mod 2 ^ 8) 32); [by rewrite LSR_small by lia|].
    destruct (Z.eqb_spec (rs mod 2 ^ 8) 32) as [->|]; [by rewrite LSR_32|by rewrite LSR_large by (done || lia)].
  - unfold DPO_ArithmeticShiftRightByImmediate. cbv zeta. operand Erm Ers. destruct (Z.eqb_spec ((oper / 2 ^ 7) mod 2 ^ 5) 0).
    { by rewrite ASR_large. }
    by rewrite ASR_small by lia.
  - unfold DPO_ArithmeticShiftRightByRegister. cbv zeta. operand Erm Ers. destruct (Z.eqb_spec (rs mod 2 ^ 8) 0) as [->|]; [done|].
    destruct (Z.ltb_spec (rs mod 2 ^ 8) 32); [by rewrite ASR_small by lia|by rewrite ASR_large by (done || lia)].
  - unfold DPO_RotateRightByImmediate. cbv zeta. operand Erm Ers. destruct (Z.eqb_spec ((oper / 2 ^ 7) mod 2 ^ 5) 0).
    { rewrite RRX_ref by (done || apply (ok_CFlag n s Hs)). done. }
    by rewrite ROR_small by (done || lia).
  - unfold DPO_RotateRightByRegister. cbv zeta. operand Erm Ers. destruct (Z.eqb_spec (rs mod 2 ^ 8) 0) as [->|]; [done|].
    rewrite ROR_byte by (done || lia). by destruct (_ =? 0).
Qed.
End operands.

(** * Data processing *)

Inductive dp_op := AND | EOR | SUB | RSB | ADD | ADC | SBC | RSC | TST | TEQ | CMP | CMN | ORR | MOV | BIC | MVN.

(** A result, the carry and the overflow of an exact unsigned and signed one. *)
Definition sum_ref (u t : Z) (carry : bool) : Z * bool * bool := (u32 u, carry, bool_decide (¬ in_srange 32 t)).

(** The result, and the new [C] and [V]: those of the sum or difference, or the
    carry [sc] of the shifter and the old [V]. *)
Definition dp_ref (op : dp_op) (a b c sc v : Z) : Z * bool * bool :=
  let logical r := (r, nz sc, nz v) in
  let add carry := sum_ref (a + b + carry) (s32 a + s32 b + carry) (2 ^ 32 <=? a + b + carry) in
  let sub x y borrow := sum_ref (x - y - borrow) (s32 x - s32 y - borrow) (y + borrow <=? x) in
  match op with
  | AND | TST => logical (a .& b)
  | EOR | TEQ => logical (a .^ b)
  | ORR => logical (a .| b)
  | BIC => logical (a .& unot 32 b)
  | MOV => logical b
  | MVN => logical (unot 32 b)
  | ADD | CMN => add 0
  | ADC => add c
  | SUB | CMP => sub a b 0
  | SBC => sub a b (1 - c)
  | RSB => sub b a 0
  | RSC => sub b a (1 - c)
  end.

Definition dp_label (op : dp_op) : Z -> component -> CPU flow :=
  match op with
  | AND => AND_INST | EOR => EOR_INST | SUB => SUB_INST | RSB => RSB_INST | ADD => ADD_INST | ADC => ADC_INST
  | SBC => SBC_INST | RSC => RSC_INST | TST => TST_INST | TEQ => TEQ_INST | CMP => CMP_INST | CMN => CMN_INST
  | ORR => ORR_INST | MOV => MOV_INST | BIC => BIC_INST | MVN => MVN_INST
  end.
(** The structure of the instruction, and its size. *)
Definition dp_component (op : dp_op) (i sf Rn Rd oper : Z) (f : shtop_fp_t) : component :=
  match op with
  | CMP | CMN | TEQ => cmp_inst i Rn oper (Some f)
  | MOV | MVN => mov_inst i sf Rd oper (Some f)
  | _ => dp_inst i sf Rn Rd oper (Some f)
  end.
Definition dp_size (op : dp_op) : Z := match op with CMP | CMN | TEQ | MOV | MVN => 24 | _ => 32 end.
(** Comparisons write no register, and always the flags. *)
Definition compares (op : dp_op) : bool := match op with CMP | CMN | TEQ | TST => true | _ => false end.

(** A register as an operand in ARM state: the program counter is two
    instructions ahead. *)
Definition arm_reg (s : ARMul_State) (i : Z) : Z := if i =? 15 then u32 (pc s + 8) else rd (Reg s) (Z.to_nat i).

Definition set_flags (r : Z) (carry overflow : bool) (s : ARMul_State) : ARMul_State :=
  s<|NFlag := Z.b2z (2 ^ 31 <=? r)|><|ZFlag := Z.b2z (r =? 0)|><|CFlag := Z.b2z carry|><|VFlag := Z.b2z overflow|>.

(** The state after the instruction but for the program counter. *)
Definition dp_effect (op : dp_op) (sf Rn Rd : Z) (operand : Z * Z) (s : ARMul_State) : ARMul_State :=
  let '(b, sc) := operand in
  let '(r, carry, overflow) := dp_ref op (arm_reg s Rn) b (CFlag s) sc (VFlag s) in
  let s := s<|shifter_carry_out := sc|> in
  let s := if compares op then s else s<|Reg := <[Z.to_nat Rd := r]> (Reg s)|> in
  if compares op || nz sf then set_flags r carry overflow s else s.

Section data_processing.
Context (n : Z) (s : ARMul_State) (Hs : cpu_ok n s) (HT : TFlag s = 0) (Hpc : pc s mod 4 = 0).

Lemma land_unot x k : 0 <= k <= 32 -> in_range 32 x -> x mod 2 ^ k = 0 -> x .& unot 32 (2 ^ k - 1) = x.
Proof.
  intros Hk Hx Hm. apply Z.bits_inj'. intros i Hi. rewrite Z.land_spec. unfold unot, uwrap.
  destruct (Z.lt_ge_cases i k) as [Hl|Hl].
  - assert (E : Z.testbit x i = false); [|by rewrite E].
    rewrite <- (Z.mod_pow2_bits_low x k) by lia. by rewrite Hm, Z.bits_0.
  - destruct (Z.lt_ge_cases i 32); [|by rewrite (range_testbit 32 x) by (done || lia)].
    rewrite Z.mod_pow2_bits_low, Z.lnot_spec by lia.
    replace (2 ^ k - 1) with (Z.ones k) by (rewrite Z.ones_equiv; lia). rewrite Z.ones_spec_high by lia. apply andb_true_r.
Qed.
Lemma size_arm : GetInstructionSize s = 4.
Proof. unfold GetInstructionSize. by rewrite HT. Qed.
Lemma operand_reg_arm i : operand_reg s i = arm_reg s i.
Proof.
  unfold operand_reg, arm_reg. destruct (i =? 15); [|done]. rewrite size_arm.
  replace (pc s .& unot 32 1) with (pc s); [done|]. symmetry. apply (land_unot (pc s) 1); [lia|apply (ok_pc n s Hs)|modlia].
Qed.
Lemma reg_plus_pc_arm i : 0 <= i < 16 -> reg_plus_pc i s = Some (arm_reg s i, s).
Proof.
  intros Hi. unfold reg_plus_pc. rewrite (bind_read s _ _ _ (reg_ok n s Hs i Hi)). unfold arm_reg.
  destruct (Z.eqb_spec i 15) as [->|]; [|done]. unfold gets. rewrite size_arm. done.
Qed.
Lemma WA_arm i : 0 <= i < 16 -> CHECK_READ_REG15_WA i s = Some (arm_reg s i, s).
Proof.
  intros Hi. unfold CHECK_READ_REG15_WA, arm_reg. destruct (Z.eqb_spec i 15) as [->|]; [|by apply (reg_ok n)].
  unfold gets. rewrite size_arm.
  replace (pc s .& unot 32 3) with (pc s); [done|]. symmetry. apply (land_unot (pc s) 2); [lia|apply (ok_pc n s Hs)|done].
Qed.
Lemma SHIFTER_OPERAND_arm f oper : in_range 32 oper -> SHIFTER_OPERAND (Some f) oper s =
  let r := operand_ref f oper (arm_reg s (oper mod 2 ^ 4)) (arm_reg s ((oper / 2 ^ 8) mod 2 ^ 4)) (CFlag s) in
  Some (fst r, s<|shifter_carry_out := snd r|>).
Proof.
  intros Ho. unfold SHIFTER_OPERAND. rewrite (DPO_ref n s Hs) by done. rewrite !operand_reg_arm. unfold RM, RS.
  rewrite !BITS_spec, Z.shiftr_0_r, shiftr_div by lia. done.
Qed.
End data_processing.

(** ** Flags *)

Lemma nflag_ref r : in_range 32 r -> (if nz (BIT r 31) then 1 else 0) = Z.b2z (2 ^ 31 <=? r).
Proof. intros Hr. rewrite BIT_spec, (sign_bit 32) by (done || lia). by destruct (_ <=? _). Qed.
Lemma zflag_ref r : (if nz r then 0 else 1) = Z.b2z (r =? 0).
Proof. rewrite eqb0_nz. by destruct (nz r). Qed.
Lemma flag_ref c : in_range 1 c -> Z.b2z (nz c) = c.
Proof. intros Hc. assert (c = 0 ∨ c = 1) as [-> | ->] by (unfold in_range in Hc; lia); done. Qed.

Lemma set_reg_ref Rd r s : 0 <= Rd < 15 -> set_reg Rd r s = Some (tt, s<|Reg := <[Z.to_nat Rd := r]> (Reg s)|>).
Proof. intros Hd. unfold set_reg. by rewrite bool_decide_eq_true_2 by lia. Qed.

Lemma compare_end_ref r carry overflow s : in_range 32 r -> compare_end (r, carry, overflow) s = Some (tt, set_flags r carry overflow s).
Proof. intros Hr. unfold set_flags. by rewrite <- nflag_ref, <- zflag_ref. Qed.
(** The flags of a logical comparison. *)
Lemma logic_flags_ref r s : in_range 32 r -> in_range 1 (shifter_carry_out s) -> in_range 1 (VFlag s) ->
  (UPDATE_NFLAG r;; UPDATE_ZFLAG r;; UPDATE_CFLAG_WITH_SC;; mret false) s
  = Some (false, set_flags r (nz (shifter_carry_out s)) (nz (VFlag s)) s).
Proof. intros Hr Hc Hv. unfold set_flags. rewrite <- nflag_ref, <- zflag_ref, !flag_ref by done. by destruct s. Qed.

Lemma arith_end_ref sf Rd r carry overflow s : 0 <= Rd < 15 -> in_range 32 r ->
  arith_end sf Rd (r, carry, overflow) s = Some (false,
    let s := s<|Reg := <[Z.to_nat Rd := r]> (Reg s)|> in if nz sf then set_flags r carry overflow s else s).
Proof.
  intros Hd Hr. unfold arith_end, set_flags. rewrite <- nflag_ref, <- zflag_ref by done. unfold mbind, ST_bind.
  rewrite set_reg_ref by done. rewrite (proj2 (Z.eqb_neq Rd 15)) by lia. rewrite andb_false_r. by destruct (nz sf).
Qed.
Lemma logic_end_ref sf Rd r s : 0 <= Rd < 15 -> in_range 32 r -> in_range 1 (shifter_carry_out s) -> in_range 1 (VFlag s) ->
  logic_end sf Rd r s = Some (false,
    let s' := s<|Reg := <[Z.to_nat Rd := r]> (Reg s)|> in
    if nz sf then set_flags r (nz (shifter_carry_out s)) (nz (VFlag s)) s' else s').
Proof.
  intros Hd Hr Hc Hv. unfold logic_end, set_flags. rewrite <- nflag_ref, <- zflag_ref, !flag_ref by done. unfold mbind, ST_bind.
  rewrite set_reg_ref by done. rewrite (proj2 (Z.eqb_neq Rd 15)) by lia. rewrite andb_false_r. by destruct (nz sf), s.
Qed.

(** ** Sums and differences *)

Lemma add_ref a b c : in_range 32 a -> in_range 32 b -> in_range 1 c ->
  AddWithCarry a b c = sum_ref (a + b + c) (s32 a + s32 b + c) (2 ^ 32 <=? a + b + c).
Proof.
  intros Ha Hb Hc. rewrite AddWithCarry_spec by (done || (unfold in_range in Hc; lia)). unfold sum_ref. do 2 f_equal.
  case_bool_decide; zcases; done || lia.
Qed.
Lemma sub_ref a b c : in_range 32 a -> in_range 32 b -> in_range 1 c ->
  AddWithCarry a (unot 32 b) c = sum_ref (a - b - (1 - c)) (s32 a - s32 b - (1 - c)) (b + (1 - c) <=? a).
Proof.
  intros Ha Hb Hc. assert (E : unot 32 b = 2 ^ 32 - 1 - b).
  { unfold unot, Z.lnot, uwrap. unfold in_range in Hb. modlia. }
  assert (Es : s32 (unot 32 b) = - 1 - s32 b).
  { rewrite E, !(swrap_sign 32) by (done || (unfold in_range in *; lia)). change (32 - 1) with 31. unfold in_range in *. zcases; lia. }
  rewrite add_ref by (done || (rewrite E; unfold in_range in *; lia)). rewrite Es, E. unfold sum_ref. f_equal; [f_equal|].
  - unfold uwrap. rewrite <- (Z_mod_plus_full (a - b - (1 - c)) 1). f_equal. lia.
  - zcases; done || lia.
  - by replace (s32 a + (- 1 - s32 b) + c) with (s32 a - s32 b - (1 - c)) by lia.
Qed.
Lemma sub_rev_ref a b c : in_range 32 a -> in_range 32 b -> in_range 1 c ->
  AddWithCarry (unot 32 b) a c = sum_ref (a - b - (1 - c)) (s32 a - s32 b - (1 - c)) (b + (1 - c) <=? a).
Proof. intros. rewrite <- sub_ref by done. unfold AddWithCarry. by rewrite (Z.add_comm a), (Z.add_comm (s32 a)). Qed.
Lemma range_sum u t c : in_range 32 (sum_ref u t c).1.1.
Proof. apply uwrap_range. lia. Qed.

(** ** The labels *)

Lemma bind_assoc_run {S A B C} (m : ST S A) (g : A -> ST S B) (f : B -> ST S C) s :
  ((m ≫= g) ≫= f) s = (m ≫= λ a, g a ≫= f) s.
Proof. unfold mbind, ST_bind. by destruct (m s) as [[]|]. Qed.
Lemma bind_runs {S A B} (m : ST S A) (f : A -> ST S B) s a s' : m s = Some (a, s') -> (m ≫= f) s = f a s'.
Proof. intros E. unfold mbind, ST_bind. by rewrite E. Qed.

Lemma gets_run {S A B} (g : S -> A) (f : A -> ST S B) s : (gets g ≫= f) s = f (g s) s.
Proof. done. Qed.

Lemma label_runs cond l body s s' : (cond =? AL) || CondPassed s cond = true -> TFlag s' = 0 -> body s = Some (false, s') ->
  label cond l body s = Some (Next l, s'<|Reg := <[15%nat := u32 (pc s' + 4)]> (Reg s')|>).
Proof.
  intros Hp HT Hb. unfold label, passed, gets, mbind, ST_bind. rewrite Hp, Hb.
  unfold advance, next_pc, set_pc, modify, mbind, ST_bind, GetInstructionSize. by rewrite HT.
Qed.

Section correct.
Context (n : Z) (s : ARMul_State) (Hs : cpu_ok n s) (HT : TFlag s = 0) (Hpc : pc s mod 4 = 0).
Context (f : shtop_fp_t) (oper : Z) (Ho : in_range 32 oper).
Abbreviation rmv := (arm_reg s (oper mod 2 ^ 4)).
Abbreviation rsv := (arm_reg s ((oper / 2 ^ 8) mod 2 ^ 4)).
Abbreviation b := (operand_ref f oper rmv rsv (CFlag s)).1.
Abbreviation sc := (operand_ref f oper rmv rsv (CFlag s)).2.

Lemma operand_ok : in_range 32 b ∧ in_range 1 sc.
Proof.
  pose proof (typed_SHIFTER_OPERAND n (Some f) oper s Hs) as H. rewrite (SHIFTER_OPERAND_arm n s Hs HT Hpc) in H by done.
  cbv zeta in H. destruct H as [Hb H]. split; [exact Hb|]. exact (ok_sc _ _ H).
Qed.
Lemma arm_reg_ok i : in_range 32 (arm_reg s i).
Proof. unfold arm_reg. destruct (_ =? _); rng. Qed.
Lemma operand_runs {A} (k : Z -> CPU A) : (SHIFTER_OPERAND (Some f) oper ≫= k) s = k b (s<|shifter_carry_out := sc|>).
Proof. unfold mbind, ST_bind. by rewrite (SHIFTER_OPERAND_arm n s Hs HT Hpc) by done. Qed.
Lemma operand_runs_pc {A} i (k : Z -> CPU A) : 0 <= i < 16 -> (reg_plus_pc i ≫= k) s = k (arm_reg s i) s.
Proof. intros Hi. apply bind_read. by apply (reg_plus_pc_arm n). Qed.
Lemma operand_runs_WA {A} i (k : Z -> CPU A) : 0 <= i < 16 -> (CHECK_READ_REG15_WA i ≫= k) s = k (arm_reg s i) s.
Proof. intros Hi. apply bind_read. by apply (WA_arm n). Qed.

Lemma dp_effect_TFlag op sf Rn Rd o : TFlag (dp_effect op sf Rn Rd o s) = 0.
Proof. unfold dp_effect. destruct o, (dp_ref _ _ _ _ _) as [[??]?]. by destruct (compares op), (nz sf). Qed.

Lemma dp_label_runs op cond i sf Rn Rd : (cond =? AL) || CondPassed s cond = true ->
  0 <= Rn < 16 -> 0 <= Rd < 15 ->
  let s' := dp_effect op sf Rn Rd (operand_ref f oper rmv rsv (CFlag s)) s in
  dp_label op cond (dp_component op i sf Rn Rd oper f) s = Some (Next (dp_size op), s'<|Reg := <[15%nat := u32 (pc s' + 4)]> (Reg s')|>).
Proof.
  intros Hp Hn Hd s'. destruct operand_ok as [Hb Hsc]. pose proof (arm_reg_ok Rn) as Ha.
  pose proof (ok_CFlag n s Hs) as Hc. pose proof (ok_VFlag n s Hs) as Hv. pose proof (dp_effect_TFlag op sf Rn Rd (operand_ref f oper rmv rsv (CFlag s))) as HT'.
  destruct op; unfold dp_label, dp_component, dp_size, AND_INST, EOR_INST, SUB_INST, RSB_INST, ADD_INST, ADC_INST, SBC_INST,
    RSC_INST, TST_INST, TEQ_INST, CMP_INST, CMN_INST, ORR_INST, MOV_INST, BIC_INST, MVN_INST, label_; apply label_runs; try done;
    rewrite ?bind_assoc_run, ?operand_runs_pc, ?operand_runs_WA by done; rewrite ?bind_assoc_run, ?operand_runs.
  all: unfold s', dp_effect; rewrite (surjective_pairing (operand_ref f oper rmv rsv (CFlag s))).
  all: unfold dp_ref; cbn [compares orb].
  (* Logical operations. *)
  1, 2, 13, 14, 15, 16: rewrite logic_end_ref by (done || rng); reflexivity.
  (* Comparisons. *)
  7: (etrans; [apply (logic_flags_ref (arm_reg s Rn .& b) (s<|shifter_carry_out := sc|>))|]); [rng|done|done|reflexivity].
  all: cbn [fst snd]; rewrite ?gets_run, ?add_ref, ?sub_ref, ?sub_rev_ref by done; unfold sum_ref.
  all: first [rewrite arith_end_ref by (done || apply uwrap_range; lia); reflexivity | idtac].
  1: etrans; [exact (logic_flags_ref (arm_reg s Rn .^ b) (s<|shifter_carry_out := sc|>) ltac:(rng) Hsc Hv)|reflexivity].
  all: erewrite bind_runs; [|apply compare_end_ref, uwrap_range; lia]; reflexivity.
Qed.
End correct.
