(* ===== verification/ArmDecFacts.v ===== *)
(** Decoding a word of which some bits are known: the rows of the table that may
    decode it, by evaluation. *)

From S2P Require Import Prelude ArmSupp ArmState ArmOps ArmTrans ArmDec ArmTyped ArmInst ArmMem Interp ArmRef.

(** What is known of a word: its bits under [mask] are those of [bits], and
    whether its condition is not [NV]. *)
Record known := mk_known { mask : Z; bits : Z; conditional : bool }.
Definition satisfies (w : Z) (k : known) : Prop :=
  in_range 32 w ∧ w .& mask k = bits k ∧ (conditional k = true -> w ≫ 28 ≠ 15).

(** A triple of a row: all of the bits [lo] to [hi] are those of [v]; [None] when
    what is known does not decide it. *)
Definition triple_known (k : known) (lo hi v : Z) : option bool :=
  if negb ((0 <=? lo) && (lo <=? hi) && (hi <=? 31)) then None
  else
    let m := (2 ^ (hi - lo + 1) - 1) ≪ lo in
    let b := v ≪ lo in
    if negb (((bits k .^ b) .& m) .& mask k =? 0) then Some false
    else if conditional k && (hi =? 31) && (lo <=? 28) && ((b ≫ 28) =? 15) then Some false
    else if (mask k .& m =? m) && (bits k .& m =? b) then Some true
    else None.

(** Three-valued conjunction and negation. *)
Definition and3 (x y : option bool) : option bool :=
  match x, y with
  | Some false, _ | _, Some false => Some false
  | Some true, y => y
  | None, _ => None
  end.
Fixpoint triples_known (k : known) (n base : nat) (content : list Z) : option bool :=
  match n with
  | O => Some true
  | S n => and3 (triple_known k (item content base) (item content (base + 1)%nat) (item content (base + 2)%nat))
             (triples_known k n (base + 3)%nat content)
  end.
Definition row_known (k : known) (row excl : InstructionSetEncodingItem) : option bool :=
  if version row =? ARMVFP3 then Some false
  else and3 (triples_known k (attribute_value row) 0 (content row))
         (if 0 <? Z.of_nat (attribute_value excl)
          then negb <$> triples_known k (attribute_value excl) 0 (content excl) else Some true).

(** The indices the search may end with. *)
Fixpoint decode_known (k : known) (i : Z) (rows excls : list InstructionSetEncodingItem) : list (option Z) :=
  match rows, excls with
  | row :: rows, excl :: excls =>
      match row_known k row excl with
      | Some true => [Some i]
      | Some false => decode_known k (i + 1) rows excls
      | None => Some i :: decode_known k (i + 1) rows excls
      end
  | _, _ => [None]
  end.

Section sound.
Context (w : Z) (k : known) (Hw : satisfies w k).

Lemma range_top x lo hi : lo <= hi -> in_range 32 x -> hi = 31 -> 0 <= lo -> x ≫ lo = (x ≫ lo) mod 2 ^ (hi - lo + 1).
Proof.
  intros Hl Hx -> H0. symmetry. apply Z.mod_small. rewrite shiftr_div by done. unfold in_range in Hx. split; [apply Z.div_pos; lia|].
  apply Z.div_lt_upper_bound; [lia|]. rewrite <- Z.pow_add_r by lia. replace (lo + (31 - lo + 1)) with 32 by lia. lia.
Qed.

Lemma BITS_mask lo hi v : 0 <= lo <= hi -> hi <= 31 -> BITS w lo hi = v <-> w .& ((2 ^ (hi - lo + 1) - 1) ≪ lo) = v ≪ lo.
Proof.
  intros Hl Hh. rewrite BITS_spec by lia. rewrite <- land_mask by lia.
  split; [intros <-|intros E].
  - apply Z.bits_inj'. intros i Hi. rewrite Z.land_spec, !Z.shiftl_spec by lia.
    destruct (Z.lt_ge_cases i lo); [by rewrite !(Z.testbit_neg_r _ (i - lo)) by lia; rewrite andb_false_r|].
    rewrite Z.land_spec, Z.shiftr_spec by lia. by replace (i - lo + lo) with i by lia.
  - apply (f_equal (λ x, x ≫ lo)) in E. rewrite Z.shiftr_land, !Z.shiftr_shiftl_l, Z.sub_diag, !Z.shiftl_0_r in E by lia. done.
Qed.

Lemma triple_sound lo hi v b : triple_known k lo hi v = Some b -> (BITS w lo hi =? v) = b.
Proof.
  destruct Hw as (Hr & Hk & Hc). unfold triple_known.
  destruct (negb _) eqn:Hb; [done|]. apply negb_false_iff, andb_true_iff in Hb as [Hb H2]. apply andb_true_iff in Hb as [H0 H1].
  apply Z.leb_le in H0, H1, H2. cbv zeta. set (m := (2 ^ (hi - lo + 1) - 1) ≪ lo).
  pose proof (BITS_mask lo hi v ltac:(lia) H2) as E. fold m in E.
  destruct (negb (_ =? 0)) eqn:Hd.
  { intros [= <-]. apply Z.eqb_neq. intros F. apply E in F. apply negb_true_iff, Z.eqb_neq in Hd. apply Hd.
    apply Z.bits_inj'. intros i Hi. apply (f_equal (λ x, Z.testbit x i)) in F, Hk.
    rewrite !Z.land_spec in F, Hk. rewrite Z.bits_0, !Z.land_spec, Z.lxor_spec, <- Hk, <- F.
    by destruct (Z.testbit w i), (Z.testbit m i), (Z.testbit (mask k) i). }
  destruct (_ && (((v ≪ lo) ≫ 28) =? 15)) eqn:Hn.
  { intros [= <-]. apply Z.eqb_neq. intros F. repeat (apply andb_true_iff in Hn as [Hn ?]).
    apply Z.eqb_eq in H, H4. apply Z.leb_le in H3. apply (Hc Hn). rewrite BITS_spec, <- range_top in F by (done || lia). subst v.
    rewrite <- H. rewrite !shiftr_div, shiftl_mul by lia. unfold in_range in Hr.
    replace (2 ^ 28) with (2 ^ lo * 2 ^ (28 - lo)) by (rewrite <- Z.pow_add_r by lia; f_equal; lia).
    rewrite <- !Z.div_div by (apply Z.pow_nonzero || apply Z.pow_pos_nonneg; lia).
    by rewrite Z.div_mul by (apply Z.pow_nonzero; lia). }
  destruct ((mask k .& m =? m) && _) eqn:Ht; [|done]. intros [= <-]. apply andb_true_iff in Ht as [Hm Hv]. apply Z.eqb_eq in Hm, Hv.
  apply Z.eqb_eq, E. by rewrite <- Hm, Z.land_assoc, Hk, Hv.
Qed.

Lemma and3_sound x y a b : (∀ c, x = Some c -> a = c) -> (∀ c, y = Some c -> b = c) -> ∀ c, and3 x y = Some c -> a && b = c.
Proof.
  intros Hx Hy c. destruct x as [[]|], y as [[]|]; cbn; intros [= <-]; rewrite ?(Hx _ eq_refl), ?(Hy _ eq_refl); done || apply andb_false_r.
Qed.

Lemma whole_word v : (if true then w =? v else BITS w 0 31 =? v) = (BITS w 0 31 =? v).
Proof.
  destruct Hw as (Hr & _ & _). rewrite BITS_spec by lia. rewrite Z.shiftr_0_r. change (31 - 0 + 1) with 32. by rewrite Z.mod_small.
Qed.

Lemma triples_sound n base content b : triples_known k n base content = Some b ->
  row_matches w n base content = b ∧ row_excludes w n base content = b.
Proof.
  revert base b. induction n as [|n IH]; intros base b; [by intros [= <-]|]. cbn [triples_known row_matches row_excludes]. cbv zeta.
  set (lo := item content base). set (hi := item content (base + 1)). set (v := item content (base + 2)). intros H.
  assert (E : (if (hi =? 31) && (lo =? 0) then w =? v else BITS w lo hi =? v) = (BITS w lo hi =? v)).
  { destruct (Z.eqb_spec hi 31) as [->|], (Z.eqb_spec lo 0) as [->|]; try done. exact (whole_word v). }
  rewrite E. split; eapply and3_sound; [apply triple_sound|apply IH|exact H|apply triple_sound|apply IH|exact H].
Qed.

Lemma row_sound row excl b : row_known k row excl = Some b -> row_decodes w row excl = b.
Proof.
  unfold row_known, row_decodes. destruct (version row =? ARMVFP3); [by intros [= <-]|]. cbn [negb andb].
  apply and3_sound; [intros c Hc; by apply triples_sound|]. intros c.
  destruct (0 <? _); [|by intros [= <-]]. cbn [andb]. intros (c' & E & ->)%fmap_Some.
  f_equal. by apply triples_sound.
Qed.

Lemma decode_sound i rows excls : decode_rows w i rows excls ∈ decode_known k i rows excls.
Proof.
  revert i excls. induction rows as [|row rows IH]; intros i excls; [set_solver|].
  destruct excls as [|excl excls]; [set_solver|]. cbn [decode_rows decode_known].
  destruct (row_known k row excl) as [[]|] eqn:E; [rewrite (row_sound _ _ _ E); set_solver|by rewrite (row_sound _ _ _ E)|].
  destruct (row_decodes w row excl); [set_solver|]. apply elem_of_cons. by right.
Qed.

Lemma Decode_known : DecodeARMInstruction w ∈ decode_known k 0 arm_instruction arm_exclusion_code.
Proof. apply decode_sound. Qed.
End sound.

(** * Data-processing words, from the decoder to the state: every such word decodes, and its
    label does what the manual says of its fields. *)

(** * Encodings *)

Definition opcode (op : dp_op) : Z :=
  match op with
  | AND => 0 | EOR => 1 | SUB => 2 | RSB => 3 | ADD => 4 | ADC => 5 | SBC => 6 | RSC => 7
  | TST => 8 | TEQ => 9 | CMP => 10 | CMN => 11 | ORR => 12 | MOV => 13 | BIC => 14 | MVN => 15
  end.

(** The word [w] is an instruction [op] that writes no jump: bits 26 and 27 are
    clear, a comparison sets the flags, a register shifted by a register has bit
    7 clear, and the destination is not the program counter. *)
Definition dp_word (op : dp_op) (w : Z) : Prop :=
  in_range 32 w ∧ w ≫ 28 ≠ 15 ∧ BITS w 26 27 = 0 ∧ BITS w 21 24 = opcode op ∧
  (compares op = true -> BITS w 20 20 = 1) ∧ (BITS w 25 25 = 1 ∨ BITS w 4 4 = 0 ∨ BITS w 7 7 = 0) ∧ BITS w 12 15 ≠ 15.

(** ** What is known of such a word *)

Definition field (lo hi v : Z) : Z * Z := ((2 ^ (hi - lo + 1) - 1) ≪ lo, v ≪ lo).
Definition know (fields : list (Z * Z)) : known :=
  mk_known (foldr (λ x a, x.1 .| a) 0 fields) (foldr (λ x a, x.2 .| a) 0 fields) true.

Lemma know_satisfies w fields : in_range 32 w -> w ≫ 28 ≠ 15 ->
  Forall (λ x, w .& x.1 = x.2) fields -> satisfies w (know fields).
Proof.
  intros Hw Hc Hf. split; [done|]. split; [|done]. cbn [mask bits know]. induction Hf as [|x l Hx _ IH]; cbn [foldr].
  - apply Z.land_0_r.
  - by rewrite Z.land_lor_distr_r, Hx, IH.
Qed.
Lemma know_field w lo hi v : 0 <= lo <= hi -> hi <= 31 -> BITS w lo hi = v -> w .& (field lo hi v).1 = (field lo hi v).2.
Proof. intros Hl Hh E. by apply BITS_mask. Qed.

(** The three forms of the operand. *)
Inductive form := imm_form | imm_shift | reg_shift.
Definition form_fields (f : form) : list (Z * Z) :=
  match f with
  | imm_form => [field 25 25 1]
  | imm_shift => [field 25 25 0; field 4 4 0]
  | reg_shift => [field 25 25 0; field 4 4 1; field 7 7 0]
  end.
Definition dp_known (op : dp_op) (sf : bool) (f : form) : known :=
  know (field 26 27 0 :: field 21 24 (opcode op) :: field 20 20 (Z.b2z sf) :: form_fields f).

Definition dp_index (op : dp_op) : Z :=
  match op with
  | AND => 144 | EOR => 147 | SUB => 153 | RSB => 149 | ADD => 148 | ADC => 152 | SBC => 151 | RSC => 150
  | TST => 131 | TEQ => 132 | CMP => 130 | CMN => 133 | ORR => 154 | MOV => 156 | BIC => 145 | MVN => 155
  end.
(** A move of a register without flags may decode as [CPY], row 48. *)
Definition may_copy (op : dp_op) (sf : bool) : bool := match op with MOV => negb sf | _ => false end.

Lemma decode_table op sf f : (compares op = true -> sf = true) ->
  ∀ x, x ∈ decode_known (dp_known op sf f) 0 arm_instruction arm_exclusion_code ->
  x = Some (dp_index op) ∨ (may_copy op sf = true ∧ x = Some 48).
Proof.
  intros H x. assert (E : forallb (λ y, bool_decide (y = Some (dp_index op)) || may_copy op sf && bool_decide (y = Some 48))
    (decode_known (dp_known op sf f) 0 arm_instruction arm_exclusion_code) = true).
  { destruct op, sf, f; try (specialize (H eq_refl); discriminate H); vm_compute; reflexivity. }
  intros Hx%list_elem_of_In. rewrite forallb_forall in E. specialize (E x Hx). apply orb_true_iff in E as [E|E].
  - left. by apply bool_decide_eq_true in E.
  - right. apply andb_true_iff in E as [E1 E2]. by apply bool_decide_eq_true in E2.
Qed.

Lemma bit_cases w i : 0 <= i <= 31 -> BITS w i i = 0 ∨ BITS w i i = 1.
Proof. intros Hi. pose proof (BITS_range w i i ltac:(lia) ltac:(lia)) as H. rewrite Z.sub_diag in H. cbn in H. lia. Qed.

Lemma dp_decodes op w : dp_word op w -> DecodeARMInstruction w = Some (dp_index op) ∨
  (may_copy op (BITS w 20 20 =? 1) = true ∧ DecodeARMInstruction w = Some 48).
Proof.
  intros (Hw & Hc & H26 & Hop & Hs & Hf & _).
  assert (F : ∃ f, Forall (λ x, w .& x.1 = x.2) (form_fields f)).
  { destruct (bit_cases w 25 ltac:(lia)) as [E|E]; [|exists imm_form; repeat constructor; by apply know_field].
    destruct (bit_cases w 4 ltac:(lia)) as [E4|E4]; [exists imm_shift; repeat constructor; by apply know_field|].
    exists reg_shift. repeat constructor; apply know_field; lia. }
  destruct F as [f F]. apply (decode_table op _ f).
  - intros C. apply Z.eqb_eq. auto.
  - apply Decode_known. apply know_satisfies; [done|done|].
    repeat (apply List.Forall_cons; [apply know_field; [lia|lia|]|]); [done|done| |done].
    by destruct (bit_cases w 20 ltac:(lia)) as [-> | ->].
Qed.

(** * The operand of a word *)

(** The operand a word asks for, in the terms of the manual. *)
Definition operand_word (w rm rs carry : Z) : Z * Z :=
  if BITS w 25 25 =? 1 then Shift_C (BITS w 0 7) ROR (2 * BITS w 8 11) carry
  else
    let ty := match BITS w 5 6 with 0 => LSL | 1 => LSR | 2 => ASR | _ => ROR end in
    if BITS w 4 4 =? 1 then Shift_C rm ty (rs mod 2 ^ 8) carry
    else
      let imm5 := BITS w 7 11 in
      match ty with
      | LSL => Shift_C rm LSL imm5 carry
      | ROR => if imm5 =? 0 then Shift_C rm RRX 1 carry else Shift_C rm ROR imm5 carry
      | _ => Shift_C rm ty (if imm5 =? 0 then 32 else imm5) carry
      end.

Lemma BIT_BITS w i : 0 <= i <= 31 -> BIT w i = BITS w i i.
Proof. intros Hi. unfold BIT. rewrite BITS_spec by lia. rewrite Z.sub_diag. exact (land_mask (w ≫ i) 1 ltac:(lia)). Qed.
(** A field of two parts. *)
Lemma BITS_split w lo mid hi : 0 <= lo < mid -> mid <= hi -> hi <= 31 ->
  BITS w lo hi = BITS w lo (mid - 1) + 2 ^ (mid - lo) * BITS w mid hi.
Proof.
  intros H1 H2 H3. rewrite !BITS_spec, !shiftr_div by lia.
  replace (mid - 1 - lo + 1) with (mid - lo) by lia. replace (2 ^ mid) with (2 ^ lo * 2 ^ (mid - lo)) by (rewrite <- Z.pow_add_r by lia; f_equal; lia).
  replace (2 ^ (hi - lo + 1)) with (2 ^ (mid - lo) * 2 ^ (hi - mid + 1)) by (rewrite <- Z.pow_add_r by lia; f_equal; lia).
  rewrite Z.rem_mul_r by (try apply Z.pow_pos_nonneg; try apply Z.pow_nonzero; lia).
  rewrite <- Z.div_div by (try apply Z.pow_pos_nonneg; try apply Z.pow_nonzero; lia). done.
Qed.
Lemma BITS_low w lo hi k : 0 <= lo <= hi -> hi < k -> k <= 32 -> BITS (BITS w 0 (k - 1)) lo hi = BITS w lo hi.
Proof.
  intros H1 H2 H3. apply Z.bits_inj'. intros i Hi. rewrite !BITS_spec by lia. rewrite Z.sub_0_r, Z.shiftr_0_r.
  destruct (Z.lt_ge_cases i (hi - lo + 1)).
  - rewrite !Z.mod_pow2_bits_low, !Z.shiftr_spec, Z.mod_pow2_bits_low by lia. done.
  - by rewrite !Z.mod_pow2_bits_high by lia.
Qed.

Lemma GetShifterOp_word w rm rs c : BITS w 25 25 = 1 ∨ BITS w 4 4 = 0 ∨ BITS w 7 7 = 0 ->
  ∃ f, GetShifterOp w = Some f ∧ operand_ref f (BITS w 0 11) rm rs c = operand_word w rm rs c.
Proof.
  intros Hf. unfold GetShifterOp, operand_word. rewrite BIT_BITS by lia.
  assert (E7 : (BITS w 0 11 / 2 ^ 7) mod 2 ^ 5 = BITS w 7 11) by (rewrite <- imm5_ref; exact (BITS_low w 7 11 12 ltac:(lia) ltac:(lia) ltac:(lia))).
  assert (E0 : BITS w 0 11 mod 2 ^ 8 = BITS w 0 7) by (rewrite <- low_byte; exact (BITS_low w 0 7 12 ltac:(lia) ltac:(lia) ltac:(lia))).
  assert (E8 : (BITS w 0 11 / 2 ^ 8) mod 2 ^ 4 = BITS w 8 11).
  { rewrite <- (BITS_low w 8 11 12) by lia. rewrite (BITS_spec _ 8 11), shiftr_div by lia. done. }
  destruct (bit_cases w 25 ltac:(lia)) as [E25|E25]; rewrite E25; cbn [nz Z.eqb negb].
  2: { exists Immediate. unfold operand_ref. by rewrite E0, E8. }
  assert (S6 : BITS w 4 6 = BITS w 4 4 + 2 * BITS w 5 6) by exact (BITS_split w 4 5 6 ltac:(lia) ltac:(lia) ltac:(lia)).
  assert (S7 : BITS w 4 7 = BITS w 4 6 + 8 * BITS w 7 7) by exact (BITS_split w 4 7 7 ltac:(lia) ltac:(lia) ltac:(lia)).
  assert (S11 : BITS w 4 11 = BITS w 4 6 + 8 * BITS w 7 11) by exact (BITS_split w 4 7 11 ltac:(lia) ltac:(lia) ltac:(lia)).
  pose proof (BITS_range w 5 6 ltac:(lia) ltac:(lia)) as R5. pose proof (BITS_range w 7 11 ltac:(lia) ltac:(lia)) as R7. cbn in R5, R7.
  assert (H5 : BITS w 5 6 = 0 ∨ BITS w 5 6 = 1 ∨ BITS w 5 6 = 2 ∨ BITS w 5 6 = 3) by lia.
  rewrite S11, S7, S6. unfold operand_ref. cbv zeta. rewrite E7.
  destruct (bit_cases w 4 ltac:(lia)) as [E4|E4]; rewrite E4.
  - destruct (Z.eqb_spec (BITS w 7 11) 0) as [E|E].
    + rewrite E. destruct (bit_cases w 7 ltac:(lia)) as [-> | ->], H5 as [-> | [-> | [-> | ->]]]; cbn; eauto.
    + rewrite (proj2 (Z.eqb_neq (0 + 2 * BITS w 5 6 + 8 * BITS w 7 11) 0)) by lia.
      destruct (bit_cases w 7 ltac:(lia)) as [-> | ->], H5 as [-> | [-> | [-> | ->]]]; cbn; rewrite ?(proj2 (Z.eqb_neq _ _) E); eauto.
  - assert (BITS w 7 7 = 0) as -> by lia. rewrite (proj2 (Z.eqb_neq (1 + 2 * BITS w 5 6 + 8 * BITS w 7 11) 0)) by lia.
    destruct H5 as [-> | [-> | [-> | ->]]]; cbn; eauto.
Qed.

(** * The step of a word *)

(** The effect of the word, and the state after it. *)
Definition word_effect (op : dp_op) (w : Z) (s : ARMul_State) : ARMul_State :=
  dp_effect op (BITS w 20 20) (BITS w 16 19) (BITS w 12 15)
    (operand_word w (arm_reg s (BITS w 0 3)) (arm_reg s (BITS w 8 11)) (CFlag s)) s.
Definition dp_step (op : dp_op) (w : Z) (s : ARMul_State) : ARMul_State :=
  let s := if CondPassed s (w ≫ 28) then word_effect op w s else s in
  s<|Reg := <[15%nat := u32 (pc s + 4)]> (Reg s)|>.

Lemma label_skips cond l body s : (cond =? AL) || CondPassed s cond = false -> TFlag s = 0 ->
  label cond l body s = Some (Next l, s<|Reg := <[15%nat := u32 (pc s + 4)]> (Reg s)|>).
Proof.
  intros Hp HT. unfold label, passed, gets, mbind, ST_bind. rewrite Hp.
  unfold mret, ST_ret, advance, next_pc, set_pc, modify, mbind, ST_bind, GetInstructionSize. by rewrite HT.
Qed.
Lemma AL_passes s c : (c =? AL) || CondPassed s c = CondPassed s c.
Proof. destruct (Z.eqb_spec c AL) as [->|]; done. Qed.

Section words.
Context (n : Z) (s : ARMul_State) (Hs : cpu_ok n s) (HT : TFlag s = 0) (Hpc : pc s mod 4 = 0).

Lemma dp_label_skips op c i sf Rn Rd oper f : CondPassed s c = false ->
  dp_label op c (dp_component op i sf Rn Rd oper f) s = Some (Next (dp_size op), s<|Reg := <[15%nat := u32 (pc s + 4)]> (Reg s)|>).
Proof.
  intros Hc. destruct op; apply label_skips; rewrite ?AL_passes; done.
Qed.

(** A label and the step it makes of a word, behind the index [k]. *)
Lemma dp_steps op w f : dp_word op w -> GetShifterOp w = Some f ->
  operand_ref f (BITS w 0 11) (arm_reg s (BITS w 0 3)) (arm_reg s (BITS w 8 11)) (CFlag s)
  = operand_word w (arm_reg s (BITS w 0 3)) (arm_reg s (BITS w 8 11)) (CFlag s) ->
  dp_label op (BITS w 28 31) (dp_component op (BIT w 25) (BIT w 20) (BITS w 16 19) (BITS w 12 15) (BITS w 0 11) f) s
  = Some (Next (dp_size op), dp_step op w s).
Proof.
  intros (Hw & Hn & _ & _ & _ & _ & Hd) Hf Eo. unfold dp_step.
  assert (Ec : BITS w 28 31 = w ≫ 28) by (rewrite BITS_spec by lia; symmetry; by apply (range_top w 28 31)).
  rewrite Ec. destruct (CondPassed s (w ≫ 28)) eqn:C; [|by apply dp_label_skips].
  pose proof (BITS_range w 16 19 ltac:(lia) ltac:(lia)) as R1. pose proof (BITS_range w 12 15 ltac:(lia) ltac:(lia)) as R2. cbn in R1, R2.
  rewrite (dp_label_runs n s Hs HT Hpc); [|eapply range_BITS; lia|by rewrite AL_passes|lia|lia].
  assert (E1 : BITS w 0 11 mod 2 ^ 4 = BITS w 0 3).
  { rewrite <- (BITS_low w 0 3 12) by lia. rewrite (BITS_spec _ 0 3), Z.shiftr_0_r by lia. done. }
  assert (E2 : (BITS w 0 11 / 2 ^ 8) mod 2 ^ 4 = BITS w 8 11).
  { rewrite <- (BITS_low w 8 11 12) by lia. rewrite (BITS_spec _ 8 11), shiftr_div by lia. done. }
  rewrite E1, E2, Eo, BIT_BITS by lia. done.
Qed.

Lemma cpy_steps w f : dp_word MOV w -> BITS w 20 20 = 0 -> GetShifterOp w = Some f ->
  operand_ref f (BITS w 0 11) (arm_reg s (BITS w 0 3)) (arm_reg s (BITS w 8 11)) (CFlag s)
  = operand_word w (arm_reg s (BITS w 0 3)) (arm_reg s (BITS w 8 11)) (CFlag s) ->
  CPY_INST (BITS w 28 31) (mov_inst (BIT w 25) (BIT w 20) (BITS w 12 15) (BITS w 0 11) (Some f)) s
  = Some (Next 24, dp_step MOV w s).
Proof.
  intros H E Hf Eo. etrans; [|exact (dp_steps MOV w f H Hf Eo)]. cbn [dp_label dp_component]. rewrite (BIT_BITS w 20), E by lia.
  unfold CPY_INST, MOV_INST, logic_end. cbn [nz Z.eqb negb andb when_]. done.
Qed.
End words.


(** * Conditions after a comparison *)

(** What a condition says of the operands of the comparison before it. *)
Definition compares_as (c : ConditionCode) (a b : Z) : bool :=
  match c with
  | EQ => a =? b | NE => negb (a =? b)
  | CS => b <=? a | CC => a <? b | HI => b <? a | LS => a <=? b
  | GE => s32 b <=? s32 a | LT => s32 a <? s32 b | GT => s32 b <? s32 a | LE => s32 a <=? s32 b
  | MI => 2 ^ 31 <=? u32 (a - b) | PL => u32 (a - b) <? 2 ^ 31
  | VS => bool_decide (¬ in_srange 32 (s32 a - s32 b)) | VC => bool_decide (in_srange 32 (s32 a - s32 b))
  | AL | NV => true
  end.

Lemma nz_b2z b : nz (Z.b2z b) = b.
Proof. by destruct b. Qed.

(** Conditional execution after a comparison.  [CMP] of [a] with [b] leaves
    flags under which every condition holds exactly when its name says so of the
    two words: equality, the unsigned order, the signed order, the sign of the
    difference, and whether the signed difference overflows. *)
Theorem compare_conditions s a b : in_range 32 a -> in_range 32 b ->
  ∃ s', compare_end (AddWithCarry a (unot 32 b) 1) s = Some (tt, s') ∧
    ∀ c : ConditionCode, CondPassed s' c = compares_as c a b.
Proof.
  intros Ha Hb. rewrite (sub_ref a b 1) by done. unfold sum_ref. replace (1 - 1) with 0 by done. rewrite !Z.sub_0_r, Z.add_0_r.
  eexists. split; [apply compare_end_ref, uwrap_range; lia|].
  assert (U : u32 (a - b) = if a <? b then a - b + 2 ^ 32 else a - b) by by apply (uwrap_sub_cases 32).
  assert (E : (u32 (a - b) =? 0) = (a =? b)) by (rewrite U; unfold in_range in *; destruct (Z.ltb_spec a b); zcases; first [done | exfalso; lia]).
  assert (G : eqb (2 ^ 31 <=? u32 (a - b)) (bool_decide (¬ in_srange 32 (s32 a - s32 b))) = (s32 b <=? s32 a)).
  { rewrite U, !(swrap_sign 32) by done. unfold in_range, in_srange in *. change (32 - 1) with 31.
    destruct (Z.ltb_spec a b), (Z.leb_spec (2 ^ 31) a), (Z.leb_spec (2 ^ 31) b); case_bool_decide; zcases; first [done | exfalso; lia]. }
  assert (J : a = b <-> s32 a = s32 b).
  { split; [by intros ->|]. rewrite !(swrap_sign 32) by done. unfold in_range in *. change (32 - 1) with 31. zcases; lia. }
  set (r := u32 (a - b)) in *. set (v := bool_decide (¬ in_srange 32 (s32 a - s32 b))) in *.
  intros c. unfold CondPassed. cbv zeta.
  replace (nz (NFlag (set_flags r (b <=? a) v s))) with (2 ^ 31 <=? r) by (symmetry; apply nz_b2z).
  replace (nz (ZFlag (set_flags r (b <=? a) v s))) with (a =? b) by (rewrite <- E; symmetry; apply nz_b2z).
  replace (nz (CFlag (set_flags r (b <=? a) v s))) with (b <=? a) by (symmetry; apply nz_b2z).
  replace (nz (VFlag (set_flags r (b <=? a) v s))) with v by (symmetry; apply nz_b2z).
  rewrite G. unfold compares_as, v. fold r. clear - J.
  destruct c; cbn [cond_code]; repeat case_bool_decide; zcases; first [done | exfalso; lia | tauto].
Qed.
