(* ===== verification/ArmStack.v ===== *)
(** Block transfers: what [STM] and [LDM] do to memory that behaves like memory,
    and a stack frame pushed and popped. *)

From S2P Require Import Prelude ArmSupp ArmState ArmOps ArmTrans ArmInst ArmMem ArmTyped InterpTyped ArmRef ArmDecFacts.

(** * Memory that keeps what is stored

    What the proofs need of a bus: in some worlds, the words at the aligned
    addresses from [lo] to [hi] can be read and written, each apart from the
    others. *)

Definition word_in (lo hi a : Z) : Prop := lo <= a ∧ a + 4 <= hi ∧ a mod 4 = 0.

Class WordRam {W} (bus : Bus W) (fine : W -> Prop) (word : W -> Z -> Z) (lo hi : Z) := {
  ram_range w a : fine w -> word_in lo hi a -> in_range 32 (word w a);
  ram_read w a : fine w -> word_in lo hi a ->
    ∃ w', bus_read 4 a w = Some (word w a, w') ∧ fine w' ∧ ∀ b, word_in lo hi b -> word w' b = word w b;
  ram_write w a v : fine w -> word_in lo hi a -> in_range 32 v ->
    ∃ w', bus_write 4 a v w = Some (tt, w') ∧ fine w' ∧ word w' a = v ∧
      ∀ b, word_in lo hi b -> b ≠ a -> word w' b = word w b
}.

(** * The order of the bytes *)

Lemma testbit_byte lo i : 0 <= i -> 0 <= lo -> Z.testbit ((2 ^ 8 - 1) ≪ lo) i = (lo <=? i) && (i <? lo + 8).
Proof.
  intros Hi Hl. rewrite Z.shiftl_spec by done. change (2 ^ 8 - 1) with (Z.ones 8).
  destruct (Z.leb_spec lo i); [|by rewrite Z.testbit_neg_r by lia]. rewrite Z.testbit_ones_nonneg by lia.
  zcases; first [done | exfalso; lia].
Qed.
(** Bit [i] of the swapped word lies in the byte opposite. *)
Lemma swap32_spec v i : 0 <= i < 32 -> Z.testbit (swap32 v) i = Z.testbit v (24 - 8 * (i / 8) + i mod 8).
Proof.
  intros Hi. unfold swap32. change 0xFF000000 with ((2 ^ 8 - 1) ≪ 24). change 0x00FF0000 with ((2 ^ 8 - 1) ≪ 16).
  change 0x0000FF00 with ((2 ^ 8 - 1) ≪ 8). change 0x000000FF with ((2 ^ 8 - 1) ≪ 0).
  rewrite !Z.lor_spec, !Z.shiftr_spec, !Z.shiftl_spec, !Z.land_spec by lia.
  assert (B : ∀ x k, 0 <= k -> Z.testbit x k && Z.testbit ((2 ^ 8 - 1) ≪ 0) k = Z.testbit x k && (k <? 8)).
  { intros x k Hk. rewrite testbit_byte by lia. by rewrite (proj2 (Z.leb_le 0 k)). }
  assert (C : (i / 8 = 0 ∧ i < 8) ∨ (i / 8 = 1 ∧ 8 <= i < 16) ∨ (i / 8 = 2 ∧ 16 <= i < 24) ∨ (i / 8 = 3 ∧ 24 <= i)) by modlia.
  rewrite (testbit_byte 24 (i + 24)), (testbit_byte 16 (i + 8)) by lia.
  assert (D8 : Z.testbit v (i - 8) && Z.testbit ((2 ^ 8 - 1) ≪ 8) (i - 8) = Z.testbit v (i - 8) && (8 <=? i - 8) && (i - 8 <? 16)).
  { destruct (Z.lt_ge_cases i 8); [by rewrite !Z.testbit_neg_r by lia|]. rewrite testbit_byte by lia. by rewrite andb_assoc. }
  assert (D24 : Z.testbit v (i - 24) && Z.testbit ((2 ^ 8 - 1) ≪ 0) (i - 24) = Z.testbit v (i - 24) && (24 <=? i)).
  { destruct (Z.leb_spec 24 i); [|by rewrite !Z.testbit_neg_r by lia]. rewrite B by lia. by rewrite (proj2 (Z.ltb_lt (i - 24) 8)) by lia. }
  rewrite D8, D24. assert (E : i mod 8 = i - 8 * (i / 8)) by modlia. rewrite E.
  destruct C as [[C R]|[[C R]|[[C R]|[C R]]]]; rewrite C; clear C E B D8 D24;
    [replace (24 - 8 * 0 + (i - 8 * 0)) with (i + 24) by lia|replace (24 - 8 * 1 + (i - 8 * 1)) with (i + 8) by lia
    |replace (24 - 8 * 2 + (i - 8 * 2)) with (i - 8) by lia|replace (24 - 8 * 3 + (i - 8 * 3)) with (i - 24) by lia];
    zcases; try (exfalso; lia);
    by destruct (Z.testbit v (i + 24)), (Z.testbit v (i + 8)), (Z.testbit v (i - 8)), (Z.testbit v (i - 24)).
Qed.

Lemma swap32_involutive v : in_range 32 v -> swap32 (swap32 v) = v.
Proof.
  intros Hv. assert (R : ∀ x, in_range 32 (swap32 x)) by (intros x; apply (range_swap 4); auto).
  apply Z.bits_inj'. intros i Hi. destruct (Z.lt_ge_cases i 32) as [Hl|Hl]; [|by rewrite !(range_testbit 32) by (done || lia || apply R)].
  rewrite !swap32_spec by modlia. f_equal. modlia.
Qed.

(** * The list of registers *)

(** The registers of the list [l] from [lo] on. *)
Definition registers (l lo n : Z) : list Z := filter (λ i, Z.testbit l i = true) (seqZ lo n).

Lemma count_registers l k n : 0 <= k -> l < 2 ^ (k + Z.of_nat n) -> 0 <= l ->
  count_bits n (l ≫ k) = Z.of_nat (length (registers l k (Z.of_nat n))).
Proof.
  unfold registers. revert k. induction n as [|n IH]; intros k Hk Hl H0; [done|].
  rewrite seqZ_cons by lia. replace (Z.pred (Z.of_nat (Datatypes.S n))) with (Z.of_nat n) by lia.
  cbn [count_bits]. rewrite filter_cons.
  assert (Hb : (l ≫ k) .& 1 = Z.b2z (Z.testbit l k)) by exact (BIT_spec l k Hk).
  assert (Hn : count_bits n ((l ≫ k) ≫ 1) = Z.of_nat (length (filter (λ i, Z.testbit l i = true) (seqZ (Z.succ k) (Z.of_nat n))))).
  { rewrite Z.shiftr_shiftr by lia. apply IH; lia || (replace (Z.succ k + Z.of_nat n) with (k + Z.of_nat (Datatypes.S n)) by lia; lia). }
  rewrite Hn, Hb. destruct (Z.eqb_spec (l ≫ k) 0) as [E|E].
  - rewrite E in Hb, Hn. rewrite decide_False by (intros F; rewrite F in Hb; done).
    rewrite <- Hn. rewrite Z.shiftr_0_l. by destruct n.
  - destruct (Z.testbit l k); cbn; [rewrite decide_True by done; cbn [length]; lia|rewrite decide_False by done; lia].
Qed.

Section blocks.
Context {W : Type} {bus : Bus W}.
Abbreviation M := (ST (Machine W)).

(** The loop over the registers of the list only. *)
Fixpoint over (body : Z -> Z -> M unit) (rs : list Z) (addr : Z) : M Z :=
  match rs with [] => mret addr | i :: rs => body i addr;; over body rs (u32 (addr + 4)) end.

Lemma each_register_over inst l body lo n addr k : 0 <= lo -> (∀ i, lo <= i < lo + n -> BIT inst i = Z.b2z (Z.testbit l i)) ->
  each_register inst body (seqZ lo n) addr k = over body (registers l lo n) addr k.
Proof.
  intros Hlo Hi. unfold registers. remember (Z.to_nat n) as m eqn:Em. revert lo n Em addr k Hlo Hi.
  induction m as [|m IH]; intros lo n Em addr k Hlo Hi; [by rewrite seqZ_nil by lia|].
  rewrite seqZ_cons by lia. cbn [each_register]. rewrite filter_cons, Hi by lia.
  destruct (Z.testbit l lo) eqn:E; cbn [Z.b2z nz Z.eqb negb].
  - rewrite decide_True by done. cbn [over]. unfold mbind, ST_bind. destruct (body lo addr k) as [[[] k']|]; [|done].
    apply IH; [lia|lia|]. intros i Hr. apply Hi. lia.
  - rewrite decide_False by done. apply IH; [lia|lia|]. intros i Hr. apply Hi. lia.
Qed.

Context (fine : W -> Prop) (word : W -> Z -> Z) (lo hi : Z) {ram : WordRam bus fine word lo hi} (Hlo : 0 <= lo) (Hhi : hi < 2 ^ 32).

(** The word in memory for the word [v] in a register, and back. *)
Definition ordered (s : ARMul_State) (v : Z) : Z := if InBigEndianMode s then swap32 v else v.
Lemma ordered_involutive s v : in_range 32 v -> ordered s (ordered s v) = v.
Proof. intros Hv. unfold ordered. destruct (InBigEndianMode s); [by apply swap32_involutive|done]. Qed.
Lemma range_ordered s v : in_range 32 v -> in_range 32 (ordered s v).
Proof. intros Hv. unfold ordered. destruct (InBigEndianMode s); [apply (range_swap 4); auto|done]. Qed.

Lemma WriteMemory32_runs k a v : fine (world k) -> word_in lo hi a -> in_range 32 v ->
  ∃ w, WriteMemory32 a v k = Some (tt, k<|world := w|>) ∧ fine w ∧ word w a = ordered (cpu k) v ∧
    ∀ b, word_in lo hi b -> b ≠ a -> word w b = word (world k) b.
Proof.
  intros Hf Ha Hv. destruct (ram_write (world k) a (ordered (cpu k) v) Hf Ha (range_ordered _ _ Hv)) as (w & E & H).
  exists w. split; [|exact H]. unfold WriteMemory32, WriteMemory, on_cpu, on_world, zoom, gets, mbind, ST_bind.
  change (if InBigEndianMode (cpu k) then swap 4 v else v) with (ordered (cpu k) v).
  change (world (k<|cpu := cpu k|>)) with (world k). rewrite E. by destruct k.
Qed.
Lemma ReadMemory32_runs k a : fine (world k) -> word_in lo hi a ->
  ∃ w, ReadMemory32 a k = Some (ordered (cpu k) (word (world k) a), k<|world := w|>) ∧ fine w ∧
    ∀ b, word_in lo hi b -> word w b = word (world k) b.
Proof.
  intros Hf Ha. destruct (ram_read (world k) a Hf Ha) as (w & E & H). exists w. split; [|exact H].
  unfold ReadMemory32, ReadMemory, on_cpu, on_world, zoom, gets, mbind, ST_bind. rewrite E. by destruct k.
Qed.

(** The words from [a] on hold [vs], one after the other. *)
Definition holds_words (w : W) (a : Z) (vs : list Z) : Prop := ∀ j v, vs !! j = Some v -> word w (a + 4 * Z.of_nat j) = v.
Lemma holds_words_cons w a v vs : holds_words w a (v :: vs) <-> word w a = v ∧ holds_words w (a + 4) vs.
Proof.
  split.
  - intros H. split; [rewrite <- (Z.add_0_r a); by apply (H 0%nat)|]. intros j x Hx. rewrite <- (H (Datatypes.S j) x Hx). f_equal. lia.
  - intros [H1 H2] [|j] x Hx; [injection Hx as <-; by rewrite Z.mul_0_r, Z.add_0_r|]. rewrite <- (H2 j x Hx). f_equal. lia.
Qed.

(** Storing: the values of the registers from [a] on, and nothing else. *)
Lemma store_over body rs a k : fine (world k) -> lo <= a -> a mod 4 = 0 -> a + 4 * Z.of_nat (length rs) <= hi ->
  (∀ i, i ∈ rs -> in_range 32 (rd (Reg (cpu k)) (Z.to_nat i))) ->
  (∀ i a k', i ∈ rs -> cpu k' = cpu k -> body i a k' = WriteMemory32 a (rd (Reg (cpu k)) (Z.to_nat i)) k') ->
  ∃ w, over body rs a k = Some (a + 4 * Z.of_nat (length rs), k<|world := w|>) ∧ fine w ∧
    holds_words w a ((λ i, ordered (cpu k) (rd (Reg (cpu k)) (Z.to_nat i))) <$> rs) ∧
    ∀ b, word_in lo hi b -> b < a ∨ a + 4 * Z.of_nat (length rs) <= b -> word w b = word (world k) b.
Proof.
  revert a k. induction rs as [|i rs IH]; intros a k Hf Ha Hm Hh Hr Hb.
  { exists (world k). cbn. rewrite Z.add_0_r. split; [by destruct k|]. done. }
  cbn [length] in Hh. pose proof (list_elem_of_here i rs) as H0. pose proof (λ j, list_elem_of_further j i rs) as H1.
  destruct (WriteMemory32_runs k a (rd (Reg (cpu k)) (Z.to_nat i)) Hf) as (w & E & Hw & Hv & Ho); [unfold word_in; lia|auto|].
  destruct (IH (a + 4) (k<|world := w|>)) as (w' & E' & Hw' & Hv' & Ho'); [done|lia|modlia|lia|auto|auto|].
  exists w'. cbn [over length]. unfold mbind, ST_bind. rewrite Hb, E, uwrap_id by (done || (unfold in_range; lia)).
  rewrite E'. split; [do 2 f_equal; lia|]. split; [done|]. split.
  - rewrite fmap_cons. apply holds_words_cons. split; [|exact Hv']. rewrite Ho'; [exact Hv|unfold word_in; lia|lia].
  - intros b Hb1 Hb2. rewrite Ho' by (done || lia). apply Ho; [done|]. lia.
Qed.

(** The registers after loading [vs] into [rs]. *)
Definition put_all (rs vs R : list Z) : list Z := foldl (λ R '(i, v), <[Z.to_nat i := v]> R) R (zip rs vs).

Lemma load_over body rs vs a k : fine (world k) -> lo <= a -> a mod 4 = 0 -> a + 4 * Z.of_nat (length rs) <= hi ->
  length rs = length vs -> holds_words (world k) a vs -> (∀ i, i ∈ rs -> 0 <= i < 15) ->
  (∀ i a k', i ∈ rs -> body i a k' = (v ← ReadMemory32 a; put i v) k') ->
  ∃ w, over body rs a k = Some (a + 4 * Z.of_nat (length rs),
      k<|cpu := (cpu k)<|Reg := put_all rs (ordered (cpu k) <$> vs) (Reg (cpu k))|>|><|world := w|>) ∧ fine w ∧
    ∀ b, word_in lo hi b -> word w b = word (world k) b.
Proof.
  revert vs a k. induction rs as [|i rs IH]; intros [|v vs] a k Hf Ha Hm Hh Hl Hv Hi Hb; try done.
  { exists (world k). cbn. rewrite Z.add_0_r. split; [by destruct k as [[]]|]. done. }
  cbn [length] in Hh. apply holds_words_cons in Hv as [Hv Hvs].
  pose proof (list_elem_of_here i rs) as H0. pose proof (λ j, list_elem_of_further j i rs) as H1.
  destruct (ReadMemory32_runs k a Hf) as (w & E & Hw & Ho); [unfold word_in; lia|]. rewrite Hv in E.
  set (k1 := k<|cpu := (cpu k)<|Reg := <[Z.to_nat i := ordered (cpu k) v]> (Reg (cpu k))|>|><|world := w|>).
  assert (E1 : body i a k = Some (tt, k1)).
  { rewrite Hb by done. unfold mbind, ST_bind. rewrite E. unfold put, on_cpu, zoom, set_reg.
    rewrite bool_decide_eq_true_2 by (specialize (Hi i H0); lia). by destruct k. }
  destruct (IH vs (a + 4) k1) as (w' & E' & Hw' & Ho'); [done|lia|modlia|lia|by injection Hl| |auto|auto|].
  { intros j x Hx. etrans; [|exact (Hvs j x Hx)]. apply Ho. unfold word_in.
    apply lookup_lt_Some in Hx. injection Hl as Hl. modlia. }
  exists w'. cbn [over length]. unfold mbind, ST_bind. rewrite E1, uwrap_id by (unfold in_range; lia). rewrite E'.
  split; [|split; [done|]].
  - replace (a + 4 + 4 * Z.of_nat (length rs)) with (a + 4 * Z.of_nat (Datatypes.S (length rs))) by lia. done.
  - intros b Hb1. rewrite Ho' by done. by apply Ho.
Qed.
End blocks.

(** * Registers after a load *)

Lemma put_all_out rs vs R x : x ∉ Z.to_nat <$> rs -> put_all rs vs R !!! x = R !!! x.
Proof.
  unfold put_all. revert vs R. induction rs as [|i rs IH]; intros [|v vs] R Hx; try done. cbn [zip zip_with foldl].
  rewrite fmap_cons, not_elem_of_cons in Hx. destruct Hx as [Hi Hx]. rewrite IH by done.
  by rewrite list_lookup_total_insert_ne.
Qed.
Lemma put_all_in rs vs R j i v : NoDup rs -> (∀ i, i ∈ rs -> 0 <= i < Z.of_nat (length R)) -> rs !! j = Some i -> vs !! j = Some v ->
  put_all rs vs R !!! Z.to_nat i = v.
Proof.
  unfold put_all. revert vs R j. induction rs as [|x rs IH]; intros [|y vs] R j Hd Hr Hi Hv; try done.
  apply NoDup_cons in Hd as [Hx Hd]. cbn [zip zip_with foldl]. pose proof (Hr x (list_elem_of_here x rs)) as Hx0.
  destruct j as [|j].
  - injection Hi as ->. injection Hv as ->. assert (Ho : Z.to_nat i ∉ Z.to_nat <$> rs).
    { intros (z & E & Hz)%list_elem_of_fmap. pose proof (Hr z (list_elem_of_further _ _ _ Hz)). assert (z = i) as -> by lia. done. }
    etrans; [exact (put_all_out rs vs (<[Z.to_nat i := v]> R) _ Ho)|]. rewrite list_lookup_total_insert_eq by lia. done.
  - apply (IH vs _ j Hd); [|done|done]. intros z Hz. rewrite length_insert. apply Hr. by apply list_elem_of_further.
Qed.
Lemma length_put_all rs vs R : length (put_all rs vs R) = length R.
Proof.
  unfold put_all. revert vs R. induction rs as [|i rs IH]; intros [|v vs] R; try done. cbn [zip zip_with foldl]. by rewrite IH, length_insert.
Qed.

Lemma registers_in l lo n i : i ∈ registers l lo n <-> Z.testbit l i = true ∧ lo <= i < lo + n.
Proof. unfold registers. by rewrite list_elem_of_filter, elem_of_seqZ. Qed.
Lemma registers_NoDup l lo n : NoDup (registers l lo n).
Proof. apply NoDup_filter, NoDup_seqZ. Qed.

(** * A frame of the stack *)

(** [stmdb sp!, {l}] and [ldmia sp!, {l}]. *)
Definition push_word (l : Z) : Z := l + 0xE92D * 2 ^ 16.
Definition pop_word (l : Z) : Z := l + 0xE8BD * 2 ^ 16.

Section words.
Context (l c : Z) (Hl : in_range 16 l) (Hc : in_range 16 c).
Lemma high_field lo hi : 16 <= lo <= hi -> hi <= 31 -> BITS (l + c * 2 ^ 16) lo hi = BITS c (lo - 16) (hi - 16).
Proof.
  intros H1 H2. rewrite !BITS_spec by lia. f_equal; [|f_equal; lia]. rewrite !shiftr_div by lia.
  replace (2 ^ lo) with (2 ^ 16 * 2 ^ (lo - 16)) by (rewrite <- Z.pow_add_r by lia; f_equal; lia).
  rewrite <- Z.div_div by lia. f_equal. unfold in_range in Hl. modlia.
Qed.
Lemma high_bit i : 16 <= i <= 31 -> BIT (l + c * 2 ^ 16) i = BIT c (i - 16).
Proof. intros Hi. rewrite !BIT_BITS by lia. apply high_field; lia. Qed.
Lemma low_bit i : 0 <= i < 16 -> BIT (l + c * 2 ^ 16) i = Z.b2z (Z.testbit l i).
Proof.
  intros Hi. rewrite BIT_spec by lia. f_equal. rewrite <- (Z.mod_pow2_bits_low _ 16) by lia.
  rewrite Z_mod_plus_full. by rewrite Z.mod_small.
Qed.
Lemma low_half : BITS (l + c * 2 ^ 16) 0 15 = l.
Proof. rewrite BITS_spec, Z.shiftr_0_r by lia. change (15 - 0 + 1) with 16. rewrite Z_mod_plus_full. by rewrite Z.mod_small. Qed.
End words.

(** The list of a frame: neither the stack pointer nor the program counter. *)
Definition frame_list (l : Z) : Prop := 0 <= l < 2 ^ 15 ∧ Z.testbit l 13 = false.

Section frame.
Context (l : Z) (Hl : frame_list l).

Lemma frame_range : in_range 16 l.
Proof. unfold in_range. destruct Hl. lia. Qed.
Lemma registers_16 : registers l 0 16 = registers l 0 15.
Proof.
  unfold registers. change (seqZ 0 16) with (seqZ 0 15 ++ [15]). rewrite filter_app, filter_cons, decide_False; [by rewrite app_nil_r|].
  rewrite (range_testbit 15 l) by (done || apply Hl). done.
Qed.
Lemma frame_register i : i ∈ registers l 0 15 -> 0 <= i < 15 ∧ i ≠ 13.
Proof. rewrite registers_in. intros [H1 H2]. split; [lia|]. intros ->. destruct Hl as [_ H]. congruence. Qed.
Lemma frame_count : count_bits 16 l = Z.of_nat (length (registers l 0 15)).
Proof. rewrite <- registers_16, <- (Z.shiftr_0_r l) at 1. apply (count_registers l 0 16); [done|destruct Hl; cbn; lia|apply Hl]. Qed.

Lemma push_mode : GetAddressingOp (push_word l) = Some LdnStM_DecrementBefore.
Proof.
  pose proof frame_range. unfold GetAddressingOp, push_word.
  assert (BITS (l + 0xE92D * 2 ^ 16) 24 27 = 9) as -> by (rewrite high_field by (done || lia); reflexivity).
  assert (BITS (l + 0xE92D * 2 ^ 16) 23 27 = 0x12) as -> by (rewrite high_field by (done || lia); reflexivity). reflexivity.
Qed.
Lemma pop_mode : GetAddressingOp (pop_word l) = Some LdnStM_IncrementAfter.
Proof.
  pose proof frame_range. unfold GetAddressingOp, pop_word.
  assert (BITS (l + 0xE8BD * 2 ^ 16) 24 27 = 8) as -> by (rewrite high_field by (done || lia); reflexivity).
  assert (BITS (l + 0xE8BD * 2 ^ 16) 23 27 = 0x11) as -> by (rewrite high_field by (done || lia); reflexivity). reflexivity.
Qed.

(** The fields of the two words. *)
Lemma push_fields : BITS (push_word l) 16 19 = 13 ∧ BITS (push_word l) 28 31 = AL ∧ BIT (push_word l) 21 = 1 ∧
  BIT (push_word l) 22 = 0 ∧ BIT (push_word l) 15 = 0 ∧ BITS (push_word l) 0 15 = l.
Proof.
  pose proof frame_range. unfold push_word. rewrite !high_field, !high_bit, low_bit, low_half by (done || lia).
  rewrite (range_testbit 15 l) by (done || apply Hl). by split_and!.
Qed.
Lemma pop_fields : BITS (pop_word l) 16 19 = 13 ∧ BITS (pop_word l) 28 31 = AL ∧ BIT (pop_word l) 21 = 1 ∧
  BIT (pop_word l) 22 = 0 ∧ BIT (pop_word l) 15 = 0 ∧ BITS (pop_word l) 0 15 = l.
Proof.
  pose proof frame_range. unfold pop_word. rewrite !high_field, !high_bit, low_bit, low_half by (done || lia).
  rewrite (range_testbit 15 l) by (done || apply Hl). by split_and!.
Qed.
End frame.

(** ** Addresses *)

Section transfer.
Context {W : Type} {bus : Bus W}.
Context (fine : W -> Prop) (word : W -> Z -> Z) (lo hi : Z) {ram : WordRam bus fine word lo hi} (Hlo : 0 <= lo) (Hhi : hi < 2 ^ 32).
Context (l : Z) (Hl : frame_list l) (n : Z).
Abbreviation rs := (registers l 0 15).
Abbreviation size := (4 * Z.of_nat (length rs)).
Abbreviation sp s := (rd (Reg s) 13).

Lemma rd_insert_ne R i j v : i ≠ j -> rd (<[i := v]> R) j = rd R j.
Proof. apply list_lookup_total_insert_ne. Qed.
Lemma rd_insert_eq R i v : (i < length R)%nat -> rd (<[i := v]> R) i = v.
Proof. apply list_lookup_total_insert_eq. Qed.

Definition with_sp (v : Z) (s : ARMul_State) : ARMul_State := s<|Reg := <[13%nat := v]> (Reg s)|>.

Lemma push_address s : cpu_ok n s -> 0 <= sp s - size ->
  get_addr_call (GetAddressingOp (push_word l)) (push_word l) s = Some (sp s - size, with_sp (sp s - size) s).
Proof.
  intros Hs Hz. destruct (push_fields l Hl) as (E16 & E28 & E21 & _ & _ & E0). rewrite push_mode by done.
  cbn [get_addr_call get_addr_fn]. unfold LdnStM_DecrementBefore_, write_back, if_passed, cond_, reg_count, Rn_.
  rewrite E16, E28, E21, E0, frame_count by done. cbn [nz Z.eqb negb when_].
  assert (E : reg 13 s = Some (sp s, s)) by exact (reg_ok n s Hs 13 ltac:(lia)).
  assert (E' : CHECK_READ_REG15_WA 13 s = Some (sp s, s)) by exact E.
  pose proof (words_rd (Reg s) 13 (ok_Reg n s Hs)) as R. unfold in_range in R.
  rewrite (bind_read s _ _ _ E'). unfold mbind, ST_bind. change (gets (λ s0, CondPassed s0 AL) s) with (Some (true, s)).
  cbn [when_]. rewrite E.
  unfold set_reg. rewrite bool_decide_eq_true_2 by lia.
  rewrite !(uwrap_id 32) by (unfold in_range; lia).
  replace (sp s + - (Z.of_nat (length rs) * 4)) with (sp s - size) by lia. replace (sp s - Z.of_nat (length rs) * 4) with (sp s - size) by lia. done.
Qed.
Lemma pop_address s : cpu_ok n s -> sp s + size < 2 ^ 32 ->
  get_addr_call (GetAddressingOp (pop_word l)) (pop_word l) s = Some (sp s, with_sp (sp s + size) s).
Proof.
  intros Hs Hz. destruct (pop_fields l Hl) as (E16 & E28 & E21 & _ & _ & E0). rewrite pop_mode by done.
  cbn [get_addr_call get_addr_fn]. unfold LdnStM_IncrementAfter_, write_back, if_passed, cond_, reg_count, Rn_.
  rewrite E16, E28, E21, E0, frame_count by done. cbn [nz Z.eqb negb when_].
  assert (E : reg 13 s = Some (sp s, s)) by exact (reg_ok n s Hs 13 ltac:(lia)).
  assert (E' : CHECK_READ_REG15_WA 13 s = Some (sp s, s)) by exact E.
  pose proof (words_rd (Reg s) 13 (ok_Reg n s Hs)) as R. unfold in_range in R.
  rewrite (bind_read s _ _ _ E'). unfold mbind, ST_bind. change (gets (λ s0, CondPassed s0 AL) s) with (Some (true, s)).
  cbn [when_]. rewrite E.
  unfold set_reg. rewrite bool_decide_eq_true_2 by lia.
  rewrite !(uwrap_id 32) by (unfold in_range; lia). replace (sp s + Z.of_nat (length rs) * 4) with (sp s + size) by lia. done.
Qed.

(** ** The labels *)

Definition next (s : ARMul_State) : ARMul_State := s<|Reg := <[15%nat := u32 (pc s + GetInstructionSize s)]> (Reg s)|>.

Lemma m_label_AL body k k' : body k = Some (false, k') -> m_label (W := W) AL 16 body k = Some (Next 16, k'<|cpu := next (cpu k')|>).
Proof.
  intros E. unfold m_label, passed. unfold on_cpu at 1. unfold zoom, gets, mbind, ST_bind. cbn [Z.eqb cond_code orb].
  change ((AL =? AL) || CondPassed (cpu k) AL) with true. cbv iota. change (k<|cpu := cpu k|>) with k. destruct k. cbn in *. by rewrite E.
Qed.

Lemma get_runs (k : Machine W) i : cpu_ok n (cpu k) -> 0 <= i < 16 -> get i k = Some (rd (Reg (cpu k)) (Z.to_nat i), k).
Proof. intros Hs Hi. unfold get, on_cpu, zoom. rewrite (reg_ok n (cpu k) Hs i Hi). by destruct k. Qed.

Lemma on_cpu_runs {A} (m : CPU A) (k : Machine W) x s : m (cpu k) = Some (x, s) -> on_cpu m k = Some (x, k<|cpu := s|>).
Proof. intros E. unfold on_cpu, zoom. by rewrite E. Qed.

Lemma push_runs (k : Machine W) : cpu_ok n (cpu k) -> fine (world k) -> sp (cpu k) mod 4 = 0 -> lo <= sp (cpu k) - size -> sp (cpu k) <= hi ->
  ∃ w, STM_INST AL (ldst_inst (push_word l) (GetAddressingOp (push_word l))) k
       = Some (Next 16, k<|cpu := next (with_sp (sp (cpu k) - size) (cpu k))|><|world := w|>) ∧
    fine w ∧ holds_words word w (sp (cpu k) - size) ((λ i, ordered (cpu k) (rd (Reg (cpu k)) (Z.to_nat i))) <$> rs) ∧
    ∀ b, word_in lo hi b -> b < sp (cpu k) - size ∨ sp (cpu k) <= b -> word w b = word (world k) b.
Proof.
  intros Hs Hf Hm Hb Ht. destruct (push_fields l Hl) as (E16 & _ & _ & E22 & E15 & _).
  set (a := sp (cpu k) - size) in *. set (k1 := k<|cpu := with_sp a (cpu k)|>).
  assert (Hr : ∀ i, i ∈ rs -> rd (Reg (with_sp a (cpu k))) (Z.to_nat i) = rd (Reg (cpu k)) (Z.to_nat i)).
  { intros i Hi. destruct (frame_register l Hl i Hi). apply (rd_insert_ne (Reg (cpu k))). lia. }
  destruct (store_over fine word lo hi Hlo Hhi
    (λ i addr, if i =? 13 then WriteMemory32 addr (sp (cpu k)) else v ← get i; WriteMemory32 addr v) rs a k1)
    as (w & E & Hw & Hv & Ho); [done|done|unfold a; modlia|unfold a; lia| | |].
  { intros i Hi. change (in_range 32 (rd (Reg (with_sp a (cpu k))) (Z.to_nat i))). rewrite Hr by done. apply words_rd, Hs. }
  { intros i b k' Hi Hk'. destruct (frame_register l Hl i Hi) as [H1 H2]. rewrite (proj2 (Z.eqb_neq i 13)) by done.
    assert (Hs' : cpu_ok n (cpu k')).
    { rewrite Hk'. apply (ok_set_Reg n (cpu k)); [done|]. pose proof (words_rd (Reg (cpu k)) 13 (ok_Reg n _ Hs)). unfold in_range in *. lia. }
    rewrite (bind_runs _ _ _ _ _ (get_runs k' i Hs' ltac:(lia))). by rewrite Hk'. }
  exists w. split; [|split; [done|split]].
  - unfold STM_INST, m_label_. etrans; [apply (m_label_AL _ k (k1<|world := w|>))|by destruct k].
    rewrite E16, E22, E15. rewrite bind_assoc_run, (bind_runs _ _ _ _ _ (get_runs k 13 Hs ltac:(lia))).
    rewrite bind_assoc_run, (bind_runs _ _ _ _ _ (on_cpu_runs _ k _ _ (push_address (cpu k) Hs ltac:(unfold a in Hb; lia)))).
    rewrite bind_assoc_run. erewrite bind_runs; [|etrans; [apply (each_register_over _ l); [lia|]|exact E]]; [done|].
    intros i Hi. apply low_bit; [by apply frame_range|lia].
  - erewrite list_fmap_ext; [exact Hv|]. intros j i Hi. apply list_elem_of_lookup_2 in Hi.
    exact (f_equal (ordered (cpu k)) (eq_sym (Hr i Hi))).
  - intros b Hb1 Hb2. rewrite Ho; [done|done|unfold a; lia].
Qed.

Lemma pop_runs (k : Machine W) vs : cpu_ok n (cpu k) -> fine (world k) -> sp (cpu k) mod 4 = 0 -> lo <= sp (cpu k) ->
  sp (cpu k) + size <= hi -> length vs = length rs -> holds_words word (world k) (sp (cpu k)) vs ->
  ∃ w, LDM_INST AL (ldst_inst (pop_word l) (GetAddressingOp (pop_word l))) k
       = Some (Next 16, k<|cpu := next ((with_sp (sp (cpu k) + size) (cpu k))<|Reg :=
           put_all rs (ordered (cpu k) <$> vs) (Reg (with_sp (sp (cpu k) + size) (cpu k)))|>)|><|world := w|>) ∧
    fine w ∧ ∀ b, word_in lo hi b -> word w b = word (world k) b.
Proof.
  intros Hs Hf Hm Hb Ht Hlen Hv. destruct (pop_fields l Hl) as (_ & _ & _ & E22 & E15 & _).
  set (a := sp (cpu k)) in *. set (k1 := k<|cpu := with_sp (a + size) (cpu k)|>).
  destruct (load_over fine word lo hi Hlo Hhi (λ i addr, ret ← ReadMemory32 addr;
      if i =? 15 then on_cpu (modify (λ s, s<|TFlag := ret .& 0x1|>));; put i (ret .& 0xFFFFFFFE) else put i ret) rs vs a k1)
    as (w & E & Hw & Ho); [done|done|done|lia|done|done| | |].
  { intros i Hi. by destruct (frame_register l Hl i Hi). }
  { intros i b k' Hi. destruct (frame_register l Hl i Hi) as [H1 H2]. by rewrite (proj2 (Z.eqb_neq i 15)) by lia. }
  exists w. split; [|done].
  unfold LDM_INST. etrans; [eapply m_label_AL|].
  - rewrite E22, E15. rewrite (bind_runs _ _ _ _ _ (on_cpu_runs _ k _ _ (pop_address (cpu k) Hs ltac:(fold a; lia)))).
    cbn [nz Z.eqb negb andb]. rewrite bind_assoc_run. erewrite bind_runs; [|etrans; [apply (each_register_over _ l)|]].
    + done.
    + lia.
    + intros i Hi. apply low_bit; [by apply frame_range|lia].
    + rewrite registers_16 by done. exact E.
  - by destruct k.
Qed.
End transfer.

Lemma rd_next s i : (i < 15)%nat -> rd (Reg (next s)) i = rd (Reg s) i.
Proof. intros Hi. apply (rd_insert_ne (Reg s)). lia. Qed.

#[local] Abbreviation sp s := (rd (Reg s) 13).

(** C7: A frame of the stack.  Over memory that keeps what is stored,
    [stmdb sp!, {list}] changes of the processor only the program counter and the
    stack pointer, which moves down by four bytes for each register, and no word
    of memory outside of the frame.  Whatever runs then, once the stack
    pointer is back at the frame, the words of the frame and the order of bytes
    are as they were: [ldmia sp!, {list}] gives every register of the list the
    value it was pushed with, puts the stack pointer back, and leaves the other
    registers as they are. *)
Theorem push_pop {W} {bus : Bus W} (fine : W -> Prop) word lo hi {ram : WordRam bus fine word lo hi} l n (k : Machine W) :
  0 <= lo -> hi < 2 ^ 32 -> frame_list l -> cpu_ok n (cpu k) -> fine (world k) ->
  let frame := sp (cpu k) - 4 * Z.of_nat (length (registers l 0 15)) in
  sp (cpu k) mod 4 = 0 -> lo <= frame -> sp (cpu k) <= hi ->
  ∃ k1, STM_INST AL (ldst_inst (push_word l) (GetAddressingOp (push_word l))) k = Some (Next 16, k1) ∧
    cpu k1 = next (with_sp frame (cpu k)) ∧ fine (world k1) ∧
    (∀ b, word_in lo hi b -> b < frame ∨ sp (cpu k) <= b -> word (world k1) b = word (world k) b) ∧
    ∀ k2, cpu_ok n (cpu k2) -> fine (world k2) -> sp (cpu k2) = frame ->
      InBigEndianMode (cpu k2) = InBigEndianMode (cpu k) ->
      (∀ b, word_in lo hi b -> frame <= b < sp (cpu k) -> word (world k2) b = word (world k1) b) ->
      ∃ k3, LDM_INST AL (ldst_inst (pop_word l) (GetAddressingOp (pop_word l))) k2 = Some (Next 16, k3) ∧
        sp (cpu k3) = sp (cpu k) ∧
        ∀ i, (i < 15)%nat -> i ≠ 13%nat ->
          rd (Reg (cpu k3)) i = if Z.testbit l (Z.of_nat i) then rd (Reg (cpu k)) i else rd (Reg (cpu k2)) i.
Proof.
  intros Hlo Hhi Hl Hs Hf frame Hm Hb Ht. set (rs := registers l 0 15) in *.
  destruct (push_runs fine word lo hi Hlo Hhi l Hl n k Hs Hf Hm Hb Ht) as (w & E & Hw & Hv & Ho).
  eexists. split; [exact E|]. pose proof (ok_len n _ Hs) as (L & _).
  split; [|split; [|split]].
  - done.
  - exact Hw.
  - exact Ho.
  - intros k2 Hs2 Hf2 Hsp2 Hbe Hfr. pose proof (ok_len n _ Hs2) as (L2 & _).
    set (vs := (λ i, ordered (cpu k) (rd (Reg (cpu k)) (Z.to_nat i))) <$> rs) in *.
    assert (Hv2 : holds_words word (world k2) frame vs).
    { intros j x Hx. rewrite <- (Hv j x Hx). apply lookup_lt_Some in Hx. unfold vs in Hx. rewrite length_fmap in Hx.
      clearbody vs. unfold word_in, frame in *. fold rs in Hb, Hfr |- *. apply Hfr; modlia. }
    destruct (pop_runs fine word lo hi Hlo Hhi l Hl n k2 vs Hs2 Hf2) as (w3 & E3 & _ & _); rewrite ?Hsp2;
      [unfold frame; fold rs; modlia|done|unfold frame; fold rs; lia|unfold vs; by rewrite length_fmap|done|].
    rewrite Hsp2 in E3. eexists. split; [exact E3|]. fold rs.
    assert (Ev : ordered (cpu k2) <$> vs = (λ i, rd (Reg (cpu k)) (Z.to_nat i)) <$> rs).
    { unfold vs. rewrite <- list_fmap_compose. apply list_fmap_ext. intros j i _. unfold compose.
      unfold ordered at 1. rewrite Hbe. apply ordered_involutive, words_rd, Hs. }
    rewrite Ev. split.
    + etrans; [exact (rd_next _ 13 ltac:(lia))|]. etrans; [apply put_all_out|].
      * intros (i & Ei & Hi)%list_elem_of_fmap. destruct (frame_register l Hl i Hi). lia.
      * etrans; [apply (rd_insert_eq (Reg (cpu k2))); lia|]. unfold frame. fold rs. lia.
    + intros i Hi H13. etrans; [exact (rd_next _ i Hi)|].
      destruct (Z.testbit l (Z.of_nat i)) eqn:Ei.
      * assert (Hin : Z.of_nat i ∈ rs) by (apply registers_in; split; [done|lia]).
        apply list_elem_of_lookup_1 in Hin as (j & Hj). rewrite <- (Nat2Z.id i) at 1.
        apply (put_all_in _ _ _ j); [apply registers_NoDup| |done|rewrite list_lookup_fmap, Hj; cbn [fmap option_fmap option_map]; by rewrite Nat2Z.id].
        intros x Hx. destruct (frame_register l Hl x Hx). cbn. rewrite length_insert. lia.
      * etrans; [apply put_all_out|by apply (rd_insert_ne (Reg (cpu k2)))].
        intros (x & Ex & Hx)%list_elem_of_fmap. apply registers_in in Hx as [Hx Hr]. subst i. rewrite Z2Nat.id in Ei by lia. congruence.
Qed.
