(* ===== verification/MemoryBus.v ===== *)
(** The memory system of the emulator as the memory of the interpreter: it gives
    and keeps bytes. *)

From S2P Require Import Prelude Memory MemoryFacts MemoryExamples ArmSupp ArmState ArmOps ArmTrans ArmMem Interp ArmTyped InterpTyped ArmStack.

(** Every byte of the host is one. *)
Definition all_bytes (m : Bytes) : Prop := map_Forall (λ _ x, in_range 8 x) m.

(** A graphics unit that writes bytes. *)
Class ByteGPU `{gpu : GPU} := gpu_bytes_ok : ∀ h m c, all_bytes m -> all_bytes (gpu_bytes h m c).

(** [ARMul_State::ReadMemory..] and [WriteMemory..] call [Memory::MemorySystem]. *)
#[export] Instance memory_bus `{gpu : GPU} : Bus MemorySystem := {|
  bus_read n a ms := Read ms n a;
  bus_write n a v ms := ms' ← Write ms n a v; Some (tt, ms')
|}.

#[local] Arguments load : simpl never.
#[local] Arguments ptr_add : simpl never.
#[local] Arguments store : simpl never.
#[local] Arguments le_combine : simpl never.
#[local] Arguments le_split : simpl never.

Section bytes.
Context `{ByteGPU}.

Lemma all_bytes_at m b o n : all_bytes m -> Forall (in_range 8) (bytes_at m b o n).
Proof.
  intros Hm. apply Forall_fmap, Forall_true. intros i. unfold compose, byte_at.
  destruct (m !! (b, _)) as [x|] eqn:E; [exact (Hm _ _ E)|done].
Qed.
Lemma all_bytes_put m b o bs : all_bytes m -> Forall (in_range 8) bs -> all_bytes (put_at m b o bs).
Proof.
  intros Hm Hbs. revert o. induction Hbs as [|x bs Hx _ IH]; intros o; [done|].
  apply map_Forall_insert_2; [done|apply IH].
Qed.
Lemma load_range m p n bs : all_bytes m -> load m p n = Some bs -> in_range (8 * Z.of_nat n) (le_combine bs).
Proof.
  intros Hm. unfold load. destruct p as [[b o]|]; [|done]. cbn. destruct (in_block b o n); [|done]. intros [= <-].
  pose proof (le_combine_range _ (all_bytes_at m b o n Hm)) as R. unfold bytes_at in R at 1. by rewrite length_fmap, length_seq in R.
Qed.
Lemma store_range m p n v m' : all_bytes m -> store m p (le_split n v) = Some m' -> all_bytes m'.
Proof.
  intros Hm. unfold store. destruct p as [[b o]|]; [|done]. cbn. destruct (in_block _ _ _); [|done]. intros [= <-].
  apply all_bytes_put; [done|]. apply Forall_forall. apply le_split_byte.
Qed.

Lemma CheckRegion_bytes s e mode ms r : all_bytes (bytes ms) -> all_bytes (bytes (CheckRegion s e mode ms r)).
Proof. intros Hm. destruct r as [[? ?] ?]. unfold CheckRegion. destruct (_ || _); [done|]. by apply gpu_bytes_ok. Qed.
Lemma flush_bytes ms s n mode : all_bytes (bytes ms) -> all_bytes (bytes (RasterizerFlushVirtualRegion ms s n mode)).
Proof.
  intros Hm. unfold RasterizerFlushVirtualRegion. cbv zeta. set (f := foldl _ _ _).
  assert (all_bytes (bytes f)) by (unfold f; cbn [foldl]; by repeat apply CheckRegion_bytes).
  destruct (plugin_fb_addr f); [|done]. destruct (nz _); [by apply CheckRegion_bytes|done].
Qed.

#[export] Instance memory_laws : BusLaws memory_bus (λ ms, all_bytes (bytes ms)).
Proof.
  split.
  - intros n a ms Hm. cbn. unfold Read. destruct (current_table ms) as [pt|]; [|done]. cbn.
    destruct (GetPtr _) as [p|].
    { destruct (load _ _ n) as [bs|] eqn:E; [|done]. cbn. split; [by eapply load_range|done]. }
    destruct (luma_target a) as [[|p|reg]|]; cbn; [| | |done].
    + destruct (page_type _ _); cbn; [split; [unfold in_range; lia|done]|done|].
      destruct (GetPointerForRasterizerCache _ _) as [r|]; [|done]. cbn.
      destruct (load _ _ n) as [bs|] eqn:E; [|done]. cbn. apply (flush_bytes ms a (Z.of_nat n) Flush) in Hm.
      split; [by eapply load_range|done].
    + destruct (load _ _ n) as [bs|] eqn:E; [|done]. cbn. split; [by eapply load_range|done].
    + split; [apply uwrap_range; lia|by apply gpu_bytes_ok].
  - intros n a v _ ms Hm. cbn. unfold Write. destruct (current_table ms) as [pt|]; [|done]. cbn.
    destruct (GetPtr _) as [p|].
    { destruct (store _ _ _) as [m|] eqn:E; [|done]. cbn. by eapply store_range. }
    destruct (luma_target a) as [[|p|reg]|]; cbn; [| | |done].
    + destruct (page_type _ _); cbn; [done|done|]. destruct (GetPointerForRasterizerCache _ _) as [r|]; [|done]. cbn.
      destruct (store _ _ _) as [m|] eqn:E; [|done]. cbn. eapply store_range; [|done]. by apply flush_bytes.
    + destruct (store _ _ _) as [m|] eqn:E; [|done]. cbn. by eapply store_range.
    + destruct (decide _); [|done]. cbn. by apply gpu_bytes_ok.
Qed.
End bytes.

(** * Mapped memory as words *)

(** The host address of a virtual address of a mapped page. *)
Definition host_word ms (t : nat) (a : Z) : Pointer :=
  ptr_add (GetPtr (page_ref (page_table ms t) (a / CITRA_PAGE_SIZE))) (a mod CITRA_PAGE_SIZE).
Definition ram_word (t : nat) ms (a : Z) : Z :=
  match host_word ms t a with Some (b, o) => le_combine (bytes_at (bytes ms) b o 4) | None => 0 end.

(** The words of the range lie in mapped pages of the current table, apart from
    each other in the memory of the host. *)
Record ram_ok (t : nat) (lo hi : Z) ms : Prop := mk_ram_ok {
  ram_table : current_page_table ms = Some t;
  ram_bytes : all_bytes (bytes ms);
  ram_mapped a : word_in lo hi a -> ∃ b o, host_word ms t a = Some (b, o) ∧ in_block b o 4 = true;
  ram_apart a a' b o o' : word_in lo hi a -> word_in lo hi a' -> a ≠ a' -> host_word ms t a = Some (b, o) ->
    host_word ms t a' = Some (b, o') -> o + 4 <= o' ∨ o' + 4 <= o
}.

Section ram.
Context `{gpu : GPU} (t : nat) (lo hi : Z).

Section access.
Context ms (a : Z) (b : Backing) (o : Z) (Ht : current_page_table ms = Some t) (E : host_word ms t a = Some (b, o)).

Lemma host_word_page : current_table ms = Some (page_table ms t) ∧
  ∃ p, GetPtr (page_ref (page_table ms t) (page_of a)) = Some p ∧ ptr_add (Some p) (a .& CITRA_PAGE_MASK) = Some (b, o).
Proof.
  unfold current_table. rewrite Ht. split; [done|]. revert E. unfold host_word, page_of. rewrite shiftr_div by done.
  replace (a .& CITRA_PAGE_MASK) with (a mod CITRA_PAGE_SIZE) by (symmetry; exact (land_mask a 12 ltac:(done))).
  change (2 ^ CITRA_PAGE_BITS) with CITRA_PAGE_SIZE. destruct (GetPtr _) as [p|]; [|done]. intros H. by exists p.
Qed.
Lemma Read_ram : in_block b o 4 = true -> Read ms 4 a = Some (ram_word t ms a, ms).
Proof.
  intros Hi. destruct host_word_page as (E1 & p & E2 & E3). unfold Read, ram_word. rewrite E1, E. cbn. rewrite E2.
  rewrite E3. unfold load. cbn [mbind option_bind]. by rewrite Hi.
Qed.
Lemma Write_ram v : in_block b o 4 = true -> Write ms 4 a v = Some (set_bytes ms (put_at (bytes ms) b o (le_split 4 v))).
Proof.
  intros Hi. destruct host_word_page as (E1 & p & E2 & E3). unfold Write. rewrite E1. cbn. rewrite E2.
  rewrite E3. unfold store. cbn [mbind option_bind]. by rewrite length_le_split, Hi.
Qed.
End access.

Lemma ram_word_range ms a : all_bytes (bytes ms) -> in_range 32 (ram_word t ms a).
Proof.
  intros Hb. unfold ram_word. destruct (host_word ms t a) as [[b o]|]; [|done].
  exact (le_combine_range _ (all_bytes_at (bytes ms) b o 4 Hb)).
Qed.

Lemma host_word_set ms m a : host_word (set_bytes ms m) t a = host_word ms t a.
Proof. done. Qed.

#[export] Instance memory_ram : WordRam memory_bus (ram_ok t lo hi) (ram_word t) lo hi.
Proof.
  split.
  - intros ms a Hok _. apply ram_word_range, Hok.
  - intros ms a Hok Ha. exists ms. split; [|done]. destruct (ram_mapped _ _ _ _ Hok a Ha) as (b & o & E & Hi).
    apply (Read_ram ms a b o); [apply Hok|done|done].
  - intros ms a v Hok Ha Hv. destruct (ram_mapped _ _ _ _ Hok a Ha) as (b & o & E & Hi).
    assert (E' : bus_write 4 a v ms = Some (tt, set_bytes ms (put_at (bytes ms) b o (le_split 4 v)))).
    { cbn. rewrite (Write_ram ms a b o); [done|apply Hok|done|done]. }
    eexists. split; [exact E'|]. split; [|split].
    + destruct Hok. constructor; [done| |done|done]. apply all_bytes_put; [done|]. apply Forall_forall, le_split_byte.
    + unfold ram_word. rewrite host_word_set, E.
      rewrite <- (length_le_split 4 v) at 2. cbn [bytes set_bytes]. etrans; [apply f_equal, bytes_at_put|].
      rewrite le_combine_split. by apply Z.mod_small.
    + intros a' Ha' Hn. unfold ram_word. rewrite host_word_set. destruct (host_word ms t a') as [[b' o']|] eqn:E2; [|done].
      f_equal. apply bytes_at_put_other. intros ->. rewrite length_le_split.
      destruct (ram_apart _ _ _ _ Hok a a' b o o' Ha Ha' (not_eq_sym Hn) E E2); lia.
Qed.
End ram.
