(* ===== verification/InterpLoop.v ===== *)
(** The loops of the interpreter end: the main loop in at most two jumps for each
    instruction it may execute and one more, the translation of a block at the
    end of a page. *)

From Stdlib Require Import String.
From S2P Require Import Prelude ArmSupp ArmState ArmOps ArmTrans ArmDec Thumb ArmMem Interp ArmTyped InterpTyped Memory MemoryFacts MemoryExamples Vfp MemoryBus ArmInst ArmRef ArmDecFacts ArmStack DynCom.

Section main_loop.
Context {W : Type} {bus : Bus W} {kernel : Kernel W} (I : W -> Prop) {laws : BusLaws bus I} {klaws : KernelLaws kernel I}.

Lemma ok_align_pc n s : cpu_ok n s -> cpu_ok n (align_pc s).
Proof. intros H. apply ok_set_Reg; [done|]. unfold pc, rd. rng. Qed.

(** Dispatch executes no instruction. *)
Lemma DISPATCH_ok n c : hoare (λ l, machine_ok I n (mach l) ∧ num_instrs l = c) DISPATCH
  (λ j l, (j = Goto_INST ∨ j = Goto_return) ∧ machine_ok I n (mach l) ∧ num_instrs l = c).
Proof.
  set (P := λ l : Loop W, machine_ok I n (mach l) ∧ num_instrs l = c).
  unfold DISPATCH. apply (hoare_bind _ (λ _, P)); [intros [[]] H; exact H|]. intros [].
  - apply (hoare_bind _ (λ _, P)); [|intros _; apply hoare_ret; intros l []; auto].
    intros l [Hk E]. split; [by apply (END_ok I n l)|done].
  - apply (hoare_bind _ (λ _, P)).
    { intros l [[Hc HI Hf] E]. split; [|done]. constructor; [by apply (ok_align_pc n)|done|done]. }
    intros _. apply (hoare_bind _ (λ _, P)).
    { intros l [Hk E]. pose proof (keeps_find_block I n (mach l) Hk) as H. unfold on_mach, zoom.
      destruct (find_block (mach l)) as [[o k]|]; [|done]. by destruct H. }
    intros o. apply (hoare_bind _ (λ _, P)); [by apply hoare_modify|]. intros _. apply hoare_ret. intros l []; auto.
Qed.

(** What the main loop keeps, started with [n] instructions to execute, and how
    much remains to be done. *)
Definition running (n : Z) (x : bool * Loop W) : Prop := machine_ok I n (mach x.2) ∧ 0 <= num_instrs x.2 <= n.
Definition remaining (x : bool * Loop W) : Z :=
  2 * Z.max 0 (NumInstrsToExecute (cpu (mach x.2)) - num_instrs x.2) + Z.b2z x.1.
Definition returned (n : Z) (r : option (Z * Machine W)) : Prop :=
  match r with Some (c, k) => 0 <= c <= n ∧ machine_ok I n k | None => True end.

Lemma main_step_progress n x : n < 2 ^ 32 -> running n x ->
  match main_step x with
  | inl y => running n y ∧ 0 <= remaining y < remaining x
  | inr r => returned n r
  end.
Proof.
  intros Hn [Hk Hc]. destruct x as [[] l]; unfold main_step; cbn [fst snd] in *.
  - pose proof (DISPATCH_ok (NumInstrsToExecute (cpu (mach l))) (num_instrs l) l) as H.
    assert (Hk' : machine_ok I (NumInstrsToExecute (cpu (mach l))) (mach l)) by (eapply machine_ok_mono; [done|lia]).
    specialize (H (conj Hk' eq_refl)). destruct (DISPATCH l) as [[j l']|]; [|done].
    pose proof (ok_N _ _ (ok_cpu _ _ _ Hk)) as Hlim. destruct H as (Hj & H & E). pose proof (ok_N _ _ (ok_cpu _ _ _ H)) as Hlim'.
    assert (machine_ok I n (mach l')) by (eapply machine_ok_mono; [done|lia]).
    destruct Hj as [-> | ->]; unfold running, remaining, returned; cbn; [split; [split; [done|]|]|split; [|done]]; lia.
  - pose proof (ok_N _ _ (ok_cpu _ _ _ Hk)) as Hlim.
    assert (Hk' : machine_ok I (NumInstrsToExecute (cpu (mach l))) (mach l)) by (eapply machine_ok_mono; [done|lia]).
    destruct (Z.leb_spec (NumInstrsToExecute (cpu (mach l))) (num_instrs l)) as [Hle|Hlt].
    + destruct (GOTO_stop I l Hle Hk') as (l' & -> & E & H). cbn. split; [lia|].
      pose proof (ok_N _ _ (ok_cpu _ _ _ H)). eapply machine_ok_mono; [done|lia].
    + pose proof (GOTO_go I l ltac:(lia) ltac:(lia) Hk') as H.
      destruct (GOTO_NEXT_INST l) as [[j l']|]; [|done]. destruct H as [Hb Hnum H].
      pose proof (ok_N _ _ (ok_cpu _ _ _ H)). assert (machine_ok I n (mach l')) by (eapply machine_ok_mono; [done|lia]).
      destruct j; unfold running, remaining, returned; cbn; [split; [split; [done|]|]..|split; [|done]]; lia.
Qed.
End main_loop.

(** * Translation of a block *)

Section block.
Context {W : Type} {bus : Bus W} (t : Z).
Abbreviation M := (ST (Machine W)).

(** Translation reads the Thumb bit and leaves it. *)
Definition thumb (k : Machine W) : Prop := TFlag (cpu k) = t.
Definition inst_size : Z := if nz t then 2 else 4.

Lemma DecodeThumbInstruction_size inst addr s a n b : DecodeThumbInstruction inst addr = (s, a, n, b) -> n = 2.
Proof.
  unfold DecodeThumbInstruction. destruct (TranslateThumbInstruction addr inst) as [[ret ai] sz] eqn:E.
  assert (sz = 2) as -> by (unfold TranslateThumbInstruction in E; destruct (thumb_cases _); congruence).
  cbv zeta. by repeat case_match; intros [= <- <- <- <-].
Qed.

Lemma AllocBuffer_thumb i : hoare thumb (AllocBuffer i) (λ _, thumb).
Proof. intros k Hk. unfold AllocBuffer. by destruct (_ <=? _). Qed.

Lemma TranslateInstruction_size a : hoare thumb (InterpreterTranslateInstruction a) (λ r k, r.1 = inst_size ∧ thumb k).
Proof.
  unfold InterpreterTranslateInstruction, inst_size. apply (hoare_bind _ (λ _, thumb)).
  { intros k Hk. unfold on_world, zoom. by destruct (bus_read 4 _ (world k)) as [[v w]|]. }
  intros inst. apply (hoare_bind _ (λ v k, v = t ∧ thumb k)); [by intros k <-|].
  intros v k [-> Hk]. destruct (if nz t then _ else _) as [[[s ai] n] b] eqn:E.
  assert (n = if nz t then 2 else 4) as ->.
  { destruct (nz t); [by eapply DecodeThumbInstruction_size|congruence]. }
  destruct (if nz t && bool_decide (s = BRANCH) then _ else _) as [i|]; [|done].
  revert k Hk. apply (hoare_bind _ (λ _, thumb)); [apply AllocBuffer_thumb|]. intros o. by apply hoare_ret.
Qed.

Lemma inst_at_thumb o : hoare thumb (inst_at o) (λ _, thumb).
Proof. intros k Hk. unfold inst_at. by destruct (trans_cache_buf k !! o). Qed.

Lemma translate_next_thumb a : hoare thumb (translate_next a) (λ r k,
  r.1 = u32 (a + inst_size) ∧ (r.1 .& 0xfff = 0 -> r.2 ≠ NON_BRANCH) ∧ thumb k).
Proof.
  unfold translate_next. eapply hoare_bind; [apply TranslateInstruction_size|]. intros [n o] k [En Hk]. cbn in En. subst n.
  revert k Hk. destruct (Z.eqb_spec (u32 (a + inst_size) .& 0xfff) 0) as [E|E].
  - apply (hoare_bind _ (λ _ k, thumb k ∧ ∀ i, trans_cache_buf k !! o = Some i -> br i = END_OF_PAGE)).
    { intros k Hk. unfold set_br. destruct (trans_cache_buf k !! o) as [i|]; [|done]. cbn. split; [done|].
      intros j Hj. rewrite lookup_insert_eq in Hj. by injection Hj as <-. }
    intros _ k [Hk Hb]. unfold mbind, ST_bind, inst_at.
    destruct (trans_cache_buf k !! o) as [i|]; [|done]. cbn. split; [done|]. split; [by rewrite (Hb i)|done].
  - apply (hoare_bind _ (λ _, thumb)); [by apply hoare_ret|]. intros _.
    eapply hoare_bind; [apply inst_at_thumb|]. intros i. by apply hoare_ret.
Qed.

Lemma page_offset a : a mod 0x1000 = 0 -> a .& 0xfff = 0.
Proof. intros H. change 0xfff with (2 ^ 12 - 1). by rewrite land_mask. Qed.

(** Instructions from [a] to the end of its page, the one at [a] left out. *)
Definition to_page_end (x : Z * Machine W) : Z := (0xfff - x.1 mod 0x1000) / 2.
Definition translating (x : Z * Machine W) : Prop := thumb x.2 ∧ 0 <= x.1 ∧ x.1 mod inst_size = 0.

Lemma block_step_progress x : translating x ->
  match block_step x with
  | inl y => translating y ∧ 0 <= to_page_end y < to_page_end x
  | inr _ => True
  end.
Proof.
  destruct x as [a k]. intros (Hk & Ha & Hm). pose proof (translate_next_thumb a k Hk) as H.
  unfold block_step. cbn [fst snd] in *. destruct (translate_next a k) as [[[a' b] k']|]; [|done].
  destruct H as (Ea & Hb & Hk'). cbn [fst snd] in *. case_decide as Hn; [|done].
  assert (Hp : a' mod 0x1000 ≠ 0) by (intros E; exact (Hb (page_offset a' E) Hn)). subst a'.
  unfold translating, to_page_end, inst_size, uwrap in *. cbn [fst snd]. clear Hb.
  destruct (nz t); (split; [split; [done|split]|split]); modlia.
Qed.

Lemma block_loop_ends x : translating x -> ∃ r, loop 11 block_step x = inr r.
Proof.
  intros H. destruct (loop_total block_step translating (λ _, True) to_page_end block_step_progress 11 x H) as (r & E & _); [|by exists r].
  unfold to_page_end. destruct H as (_ & H & _). change (2 ^ Z.of_nat 11) with 2048. modlia.
Qed.
End block.

Lemma land_aligned x y k : 0 <= k -> y .& (2 ^ k - 1) = 0 -> (x .& y) mod 2 ^ k = 0.
Proof. intros Hk H. by rewrite <- land_mask, <- Z.land_assoc, H, Z.land_0_r by done. Qed.

Lemma block_total {W} {bus : Bus W} (k : Machine W) :
  (15 < length (Reg (cpu k)))%nat -> 0 <= pc (cpu k) < 2 ^ 32 ->
  ∃ r, loop 11 block_step (pc (align_pc (cpu k)), k<|cpu := align_pc (cpu k)|>) = inr r.
Proof.
  intros Hl Hp. apply (block_loop_ends (TFlag (cpu k))). split; [done|]. cbn [fst].
  assert (E : pc (align_pc (cpu k)) = if nz (TFlag (cpu k)) then pc (cpu k) .& 0xfffffffe else pc (cpu k) .& 0xfffffffc).
  { exact (list_lookup_total_insert_eq (Reg (cpu k)) 15 (if nz (TFlag (cpu k)) then pc (cpu k) .& 0xfffffffe else pc (cpu k) .& 0xfffffffc) Hl). }
  rewrite E. unfold inst_size.
  destruct (nz _); (split; [apply Z.land_nonneg; lia|]); [by apply (land_aligned _ _ 1)|by apply (land_aligned _ _ 2)].
Qed.

(** * Correctness *)

Section correct.
Context {W : Type} {bus : Bus W} {kernel : Kernel W} (I : W -> Prop) {laws : BusLaws bus I} {klaws : KernelLaws kernel I}.

Lemma running_start n k : machine_ok I n k -> running I n (true, mk_Loop (k<|cpu := LOAD_NZCVT (cpu k)|>) 0 0 0).
Proof.
  intros [Hc HI Hf]. pose proof (ok_N _ _ Hc). split; [|cbn; lia].
  constructor; [by apply (ok_LOAD_NZCVT n)|done|done].
Qed.

Lemma main_loop_total n k : n < 2 ^ 32 -> machine_ok I n k -> ∃ r, main_loop 34 k = inr r ∧ returned I n r.
Proof.
  intros Hn Hk. apply (loop_total main_step (running I n) (returned I n) remaining).
  - intros x. by apply main_step_progress.
  - by apply running_start.
  - change (0 <= 2 * Z.max 0 (NumInstrsToExecute (cpu k) - 0) + 1 < 0x400000000).
    pose proof (ok_N _ _ (ok_cpu _ _ _ Hk)). lia.
Qed.

(** C6: The interpreter ends.  With fewer than 2^32 instructions to execute, over
    any memory and kernel that keep their invariant, the main loop leaves after at
    most 2^34 jumps, even where the program itself never ends; and the translation
    of a block that dispatch starts reaches the end of its page after at most 2^11
    instructions, whatever the memory holds. *)
Theorem InterpreterMainLoop_terminates n k : n < 2 ^ 32 -> machine_ok I n k ->
  (∃ r, main_loop 34 k = inr r) ∧
  ∃ r, loop 11 block_step (pc (align_pc (cpu k)), k<|cpu := align_pc (cpu k)|>) = inr r.
Proof.
  intros Hn Hk. split; [destruct (main_loop_total n k Hn Hk) as (r & E & _); by exists r|].
  pose proof (ok_cpu _ _ _ Hk) as Hc. destruct (ok_len n _ Hc) as (Hl & _).
  apply block_total; [lia|]. exact (words_rd _ 15 (ok_Reg n _ Hc)).
Qed.

End correct.

(** * A small machine: a program in the memory of [MemoryExamples] that runs in the interpreter,
    and the theorems about the main loop applied to it. *)

#[export] Instance quiet_gpu_bytes : ByteGPU (gpu := quiet_gpu).
Proof. intros h m c Hm. exact Hm. Qed.

(** Time does not pass; a supervisor call gives its number in [r0]. *)
#[export] Instance demo_kernel : Kernel MemorySystem := {|
  AddTicks _ ms := Some (tt, ms);
  CallSVC i k := Some (tt, k<|cpu := (cpu k)<|Reg := <[0%nat := u32 i]> (Reg (cpu k))|>|>)
|}.
#[export] Instance demo_kernel_laws : KernelLaws demo_kernel (λ ms, all_bytes (bytes ms)).
Proof.
  split; [by intros t ms Hm|]. intros n i k [Hc HI Hb]. cbn. constructor; [|done|done].
  apply (ok_set_Reg n (cpu k)); [done|]. by apply uwrap_range.
Qed.

(** mov r0, #5; add r1, r0, #7; str r1, [r2, #4]; ldr r3, [r2, #4];
    loop: subs r3, r3, #1; bne loop; svc 0x21; b . *)
Definition demo_program : list Z :=
  [0xE3A00005; 0xE2801007; 0xE5821004; 0xE5923004; 0xE2533001; 0x1AFFFFFD; 0xEF000021; 0xEAFFFFFE].
Definition demo_machine (n : Z) : Machine MemorySystem :=
  mk_Machine
    (arm_state0<|Reg := <[15%nat := 0x8000000]> (<[2%nat := 0x8001000]> (Reg arm_state0))|><|NumInstrsToExecute := n|>)
    ∅ ∅ 0 (set_bytes demo_memory (put_at ∅ FCRAM 0 (concat (le_split 4 <$> demo_program)))).

Definition outcome (r : option (Z * Machine MemorySystem)) : option (Z * list Z * list Z) :=
  '(n, k) ← r; Some (n, take 4 (Reg (cpu k)), bytes_at (bytes (world k)) FCRAM 0x1004 4).
(** 29 instructions reach the supervisor call; 11 more run in the loop behind. *)
Example demo_runs : outcome (InterpreterMainLoop (demo_machine 40)) = Some (11, [0x21; 12; 0x8001000; 0], [12; 0; 0; 0]).
Proof. vm_compute. reflexivity. Qed.

(** Clearing the cache of one core resets the top of the buffer that all share,
    but not the caches of the others.  The second core has translated the start of
    the program; the first clears its cache and translates the loop; the second,
    back at the start, finds its block in its cache and runs the first one's
    [subs r3, r3, #1] from the buffer. *)
Definition at_pc (a : Z) (k : Machine MemorySystem) : Machine MemorySystem :=
  k<|cpu := (cpu k)<|Reg := <[15%nat := a]> (Reg (cpu k))|><|NumInstrsToExecute := 1|>|>.
Definition after (k : Machine MemorySystem) : option (Machine MemorySystem) := snd <$> InterpreterMainLoop k.
Definition registers_of (k : option (Machine MemorySystem)) : option (list Z) := (λ k, take 4 (Reg (cpu k))) <$> k.
Example own_translation : registers_of (after (demo_machine 1)) = Some [5; 0; 0x8001000; 0].
Proof. vm_compute. reflexivity. Qed.
Example stale_translation :
  registers_of (second ← after (demo_machine 0);
                first ← after (at_pc 0x8000010 (ClearInstructionCache second));
                after (at_pc 0x8000000 (first<|instruction_cache := instruction_cache second|><|cpu := cpu second|>)))
  = Some [0; 0; 0x8001000; 0xFFFFFFFF].
Proof. vm_compute. reflexivity. Qed.

(** The Thumb breakpoint [BKPT #0x21] becomes the ARM word of [SVC #0x201]. *)
Example thumb_breakpoint : TranslateThumbInstruction 0 0xBE21 = (UNINITIALIZED, 0xEF000201, 2).
Proof. reflexivity. Qed.

(** An undefined Thumb instruction leaves the marker word, which the translation
    goes on to decode: it is an [mcr] that is executed when [LE] holds. *)
Example undefined_thumb :
  TranslateThumbInstruction 0 0xDE00 = (UNDEFINED, 0xDEADC0DE, 2) ∧
  (λ i, name <$> arm_instruction !! Z.to_nat i) <$> DecodeARMInstruction 0xDEADC0DE = Some (Some "mcr"%string) ∧
  BITS 0xDEADC0DE 28 31 = cond_code LE.
Proof. split_and!; vm_compute; reflexivity. Qed.

#[local] Instance in_range_dec w x : Decision (in_range w x).
Proof. unfold in_range. apply _. Defined.

Lemma demo_cpu_ok n : 0 <= n -> cpu_ok n (cpu (demo_machine n)).
Proof.
  intros Hn. constructor; try by_decide.
  - intros r. destruct r; by_decide.
  - change (0 <= n <= n). lia.
Qed.
Lemma demo_machine_ok n : 0 <= n -> machine_ok (λ ms, all_bytes (bytes ms)) n (demo_machine n).
Proof.
  intros Hn. constructor; [by apply demo_cpu_ok| |done].
  apply all_bytes_put; [done|]. by_decide.
Qed.

Lemma InterpreterMainLoop_terminates_witness : (∃ r, main_loop 34 (demo_machine 40) = inr r) ∧
  ∃ r, loop 11 block_step (pc (align_pc (cpu (demo_machine 40))), (demo_machine 40)<|cpu := align_pc (cpu (demo_machine 40))|>) = inr r.
Proof. apply (InterpreterMainLoop_terminates _ 40 (demo_machine 40)); [done|by apply demo_machine_ok]. Defined.


(** [subs r3, r2, #0x9000]. *)
#[local] Instance dp_word_dec op w : Decision (dp_word op w).
Proof. unfold dp_word. apply _. Defined.

Lemma compare_conditions_witness : ∃ s', compare_end (AddWithCarry 1 (unot 32 0xffffffff) 1) arm_state0 = Some (tt, s') ∧
  CondPassed s' CC = true ∧ CondPassed s' GT = true.
Proof.
  destruct (compare_conditions arm_state0 1 0xffffffff) as (s' & E & H); [by_decide|by_decide|].
  exists s'. split; [exact E|]. by rewrite !H.
Defined.

(** The second page as a stack; [r4] and [lr] pushed and popped. *)
Definition demo_stack : Machine MemorySystem :=
  (demo_machine 0)<|cpu := with_sp 0x8002000 (cpu (demo_machine 0))|>.

Lemma demo_ram : ram_ok 0 0x8001000 0x8002000 (world demo_stack).
Proof.
  assert (H : ∀ a, word_in 0x8001000 0x8002000 a -> host_word (world demo_stack) 0 a = Some (FCRAM, a - 0x8000000)).
  { intros a [H1 [H2 _]]. unfold host_word. replace (a / CITRA_PAGE_SIZE) with 0x8001 by (unfold CITRA_PAGE_SIZE; modlia).
    change (GetPtr _) with (Some (FCRAM, 0x1000)). cbn. do 2 f_equal. unfold CITRA_PAGE_SIZE. modlia. }
  constructor; [done|apply all_bytes_put; [done|by_decide]| |].
  - intros a Ha. exists FCRAM, (a - 0x8000000). split; [by apply H|]. apply in_block_spec. unfold word_in in Ha.
    change (0 <= a - 0x8000000 ∧ a - 0x8000000 + 4 <= 0x10000000). lia.
  - intros a a' b o o' Ha Ha' Hn. rewrite !H by done. intros [= <- <-] [= <-]. unfold word_in in *. modlia.
Qed.

Lemma push_pop_witness : ∃ k1 k3,
  STM_INST AL (ldst_inst (push_word 0x4010) (GetAddressingOp (push_word 0x4010))) demo_stack = Some (Next 16, k1) ∧
  LDM_INST AL (ldst_inst (pop_word 0x4010) (GetAddressingOp (pop_word 0x4010))) k1 = Some (Next 16, k3) ∧
  rd (Reg (cpu k1)) 13 = 0x8001FF8 ∧ rd (Reg (cpu k3)) 13 = 0x8002000.
Proof.
  assert (Hs : cpu_ok 0 (cpu demo_stack)) by (apply (ok_set_Reg 0 (cpu (demo_machine 0))); [by apply demo_cpu_ok|by_decide]).
  destruct (push_pop (ram_ok 0 0x8001000 0x8002000) (ram_word 0) 0x8001000 0x8002000 0x4010 0 demo_stack)
    as (k1 & E1 & Hc & Hf & _ & H); [lia|lia|split; [lia|reflexivity]|exact Hs|exact demo_ram|reflexivity|vm_compute; discriminate|reflexivity|].
  destruct (H k1) as (k3 & E3 & Hsp & _); [|exact Hf|rewrite Hc; vm_compute; reflexivity|rewrite Hc; vm_compute; reflexivity|done|].
  - rewrite Hc. apply ok_set_Reg; [|apply uwrap_range; lia]. by apply ok_set_Reg; [|by_decide].
  - exists k1, k3. split; [exact E1|]. split; [exact E3|]. split; [rewrite Hc; reflexivity|exact Hsp].
Defined.
