(* ===== verification/Cheats.v ===== *)
(** The interpreter of cheat codes, of [cheats/gateway_cheat.cpp].

    A cheat is a list of lines, each an operation with an address and a value;
    it works on a register, an offset, a counter of failed conditions and one
    loop.  Members of an invalid line that its constructor does not set are 0. *)

From Stdlib Require Import Ascii.
From S2P Require Import Prelude Memory.

(** * Lines *)

(* src: gateway_cheat.h | enum class CheatType { *)
Inductive CheatType :=
  Null | Write32 | Write16 | Write8 | GreaterThan32 | LessThan32 | EqualTo32 | NotEqualTo32
| GreaterThan16WithMask | LessThan16WithMask | EqualTo16WithMask | NotEqualTo16WithMask | LoadOffset | Loop
| Terminator | LoopExecuteVariant | FullTerminator | SetOffset | AddValue | SetValue
| IncrementiveWrite32 | IncrementiveWrite16 | IncrementiveWrite8 | Load32 | Load16 | Load8 | AddOffset | Joker | Patch.
#[export] Instance CheatType_eq_dec : EqDecision CheatType.
Proof. solve_decision. Defined.

(** The enumerators by value; a line may have a type that is none of them.*)
(* src: gateway_cheat.h | enum class CheatType { *)
Definition cheat_type (t : Z) : option CheatType :=
  match t with
  | -1 => Some Null
  | 0x00 => Some Write32 | 0x01 => Some Write16 | 0x02 => Some Write8
  | 0x03 => Some GreaterThan32 | 0x04 => Some LessThan32 | 0x05 => Some EqualTo32 | 0x06 => Some NotEqualTo32
  | 0x07 => Some GreaterThan16WithMask | 0x08 => Some LessThan16WithMask
  | 0x09 => Some EqualTo16WithMask | 0x0A => Some NotEqualTo16WithMask
  | 0x0B => Some LoadOffset | 0x0C => Some Loop
  | 0xD0 => Some Terminator | 0xD1 => Some LoopExecuteVariant | 0xD2 => Some FullTerminator
  | 0xD3 => Some SetOffset | 0xD4 => Some AddValue | 0xD5 => Some SetValue
  | 0xD6 => Some IncrementiveWrite32 | 0xD7 => Some IncrementiveWrite16 | 0xD8 => Some IncrementiveWrite8
  | 0xD9 => Some Load32 | 0xDA => Some Load16 | 0xDB => Some Load8
  | 0xDC => Some AddOffset | 0xDD => Some Joker | 0xE => Some Patch
  | _ => None
  end.

Abbreviation text := (list ascii).

(* src: gateway_cheat.h | struct CheatLine { *)
Record CheatLine := mk_CheatLine {
  type : Z;
  address : Z;
  value : Z;
  first : Z;
  cheat_line : text;
  valid : bool
}.
#[export] Instance CheatLine_eq_dec : EqDecision CheatLine.
Proof. solve_decision. Defined.

(* src: gateway_cheat.cpp | struct State { *)
Record State := mk_State {
  reg : Z;
  offset : Z;
  if_flag : Z;
  loop_count : Z;
  loop_back_line : Z;
  current_line_nr : Z;
  loop_flag : bool
}.
Definition initial_state : State := mk_State 0 0 0 0 0 0 false.

(** What the interpreter uses of the system: memory by size, address and value,
    the caches of the processors, the buttons held, and the timer. *)
Class CheatSystem (W : Type) := {
  sys_read : nat -> Z -> W -> option (Z * W);
  sys_write : nat -> Z -> Z -> W -> option W;
  sys_invalidate : Z -> Z -> W -> W;
  sys_pad : W -> Z;
  sys_schedule : Z -> W -> W
}.

(** * Operations *)

Section operations.
Context {W : Type} `{CheatSystem W}.
Implicit Types (line : CheatLine) (s : State) (w : W).

(** An access to [T] of [n] bytes. *)
Definition write_if_changed (n : nat) (addr v : Z) w : option W :=
  '(val, w) ← sys_read n addr w;
  if negb (val =? v) then w ← sys_write n addr v w; Some (sys_invalidate addr (Z.of_nat n) w)
  else Some w.
Definition bits (n : nat) : Z := 8 * Z.of_nat n.

(* src: gateway_cheat.cpp | static inline std::enable_if_t<std::is_integral_v<T>> WriteOp( *)
Definition WriteOp (n : nat) line s w : option (State * W) :=
  let addr := u32 (address line + offset s) in
  w ← write_if_changed n addr (uwrap (bits n) (value line)) w; Some (s, w).

(* src: gateway_cheat.cpp | static inline std::enable_if_t<std::is_integral_v<T>> CompOp( *)
Definition CompOp (n : nat) (comp : Z -> bool) line s w : option (State * W) :=
  let addr := u32 (address line + offset s) in
  '(val, w) ← sys_read n addr w;
  Some (if negb (comp val) then s<|if_flag := u32 (if_flag s + 1)|> else s, w).

(* src: gateway_cheat.cpp | static inline void LoadOffsetOp( *)
Definition LoadOffsetOp line s w : option (State * W) :=
  '(v, w) ← sys_read 4 (u32 (address line + offset s)) w; Some (s<|offset := v|>, w).

(* src: gateway_cheat.cpp | static inline void LoopOp( *)
Definition LoopOp line s : State :=
  s<|loop_flag := loop_count s <? value line|><|loop_count := u32 (loop_count s + 1)|>
   <|loop_back_line := current_line_nr s|>.

(* src: gateway_cheat.cpp | static inline void TerminateOp( *)
Definition TerminateOp s : State := if if_flag s >? 0 then s<|if_flag := if_flag s - 1|> else s.

(* src: gateway_cheat.cpp | static inline void LoopExecuteVariantOp( *)
Definition LoopExecuteVariantOp s : State :=
  if loop_flag s then s<|current_line_nr := u64 (loop_back_line s - 1)|> else s<|loop_count := 0|>.

(* src: gateway_cheat.cpp | static inline void FullTerminateOp( *)
Definition FullTerminateOp s : State :=
  if loop_flag s then s<|current_line_nr := u64 (loop_back_line s - 1)|>
  else s<|offset := 0|><|reg := 0|><|loop_count := 0|><|if_flag := 0|><|loop_flag := false|>.

(* src: gateway_cheat.cpp | static inline void SetOffsetOp( *)
Definition SetOffsetOp line s : State := s<|offset := value line|>.
(* src: gateway_cheat.cpp | static inline void AddValueOp( *)
Definition AddValueOp line s : State := s<|reg := u32 (reg s + value line)|>.
(* src: gateway_cheat.cpp | static inline void SetValueOp( *)
Definition SetValueOp line s : State := s<|reg := value line|>.

(* src: gateway_cheat.cpp | static inline std::enable_if_t<std::is_integral_v<T>> IncrementiveWriteOp( *)
Definition IncrementiveWriteOp (n : nat) line s w : option (State * W) :=
  let addr := u32 (value line + offset s) in
  w ← write_if_changed n addr (uwrap (bits n) (reg s)) w;
  Some (s<|offset := u32 (offset s + Z.of_nat n)|>, w).

(* src: gateway_cheat.cpp | static inline std::enable_if_t<std::is_integral_v<T>> LoadOp( *)
Definition LoadOp (n : nat) line s w : option (State * W) :=
  '(v, w) ← sys_read n (u32 (value line + offset s)) w; Some (s<|reg := v|>, w).

(* src: gateway_cheat.cpp | static inline void AddOffsetOp( *)
Definition AddOffsetOp line s : State := s<|offset := u32 (offset s + value line)|>.

(* src: gateway_cheat.cpp | static inline void JokerOp( *)
Definition JokerOp line s w : State :=
  if negb (sys_pad w .& value line =? value line) then s<|if_flag := u32 (if_flag s + 1)|> else s.

(** ** Patches *)

(** One half of the line of patch data at [nr]. *)
Definition patch_half (lines : list CheatLine) (is_first : bool) (nr : Z) : option Z :=
  l ← lines !! Z.to_nat nr; Some (if is_first then first l else value l).

(* src: gateway_cheat.cpp | while (num_bytes >= 4) { | PatchOp *)
Fixpoint patch_words (fuel : nat) (lines : list CheatLine) (is_first : bool) (nr num_bytes addr : Z) w
    : option (bool * Z * Z * Z * W) :=
  match fuel with
  | Datatypes.S fuel =>
      if num_bytes >=? 4 then
        tmp ← patch_half lines is_first nr;
        let nr := if negb is_first && (num_bytes >? 4) then nr + 1 else nr in
        w ← sys_write 4 addr tmp w;
        patch_words fuel lines (negb is_first) nr (num_bytes - 4) (u32 (addr + 4)) w
      else Some (is_first, nr, num_bytes, addr, w)
  | O => Some (is_first, nr, num_bytes, addr, w)
  end.

(* src: gateway_cheat.cpp | while (num_bytes > 0) { | PatchOp *)
Fixpoint patch_bytes (num_bytes : nat) (lines : list CheatLine) (is_first : bool) (nr bit_offset addr : Z) w
    : option W :=
  match num_bytes with
  | Datatypes.S num_bytes =>
      v ← patch_half lines is_first nr;
      let tmp := v ≫ bit_offset in
      w ← sys_write 1 addr (u8 tmp) w;
      patch_bytes num_bytes lines is_first nr (bit_offset + 8) (u32 (addr + 1)) w
  | O => Some w
  end.

(* src: gateway_cheat.cpp | static inline void PatchOp( *)
Definition PatchOp (lines : list CheatLine) line s w : option (State * W) :=
  if if_flag s >? 0 then
    Some (s<|current_line_nr := current_line_nr s + (value line + 7) / 8|>, w)
  else
    let num_bytes := value line in
    let addr := u32 (address line + offset s) in
    let w := sys_invalidate addr num_bytes w in
    let nr := if num_bytes >? 0 then current_line_nr s + 1 else current_line_nr s in
    '(is_first, nr, num_bytes, addr, w) ← patch_words (Z.to_nat (num_bytes / 4)) lines true nr num_bytes addr w;
    w ← patch_bytes (Z.to_nat num_bytes) lines is_first nr 0 addr w;
    Some (s<|current_line_nr := nr|>, w).

(** * Execution *)

(* src: gateway_cheat.cpp | if (state.if_flag > 0) { #3 | GatewayCheat::Execute *)
Definition skip_line (lines : list CheatLine) line s w : option (State * W) :=
  match cheat_type (type line) with
  | Some (GreaterThan32 | LessThan32 | EqualTo32 | NotEqualTo32 | GreaterThan16WithMask | LessThan16WithMask
         | EqualTo16WithMask | NotEqualTo16WithMask | Joker) => Some (s<|if_flag := u32 (if_flag s + 1)|>, w)
  | Some Patch => PatchOp lines line s w
  | Some Terminator => Some (TerminateOp s, w)
  | Some FullTerminator => Some (FullTerminateOp s, w)
  | _ => Some (s, w)
  end.

(** The two halves of the value of a comparison with a mask. *)
Definition masked line (val : Z) : Z := u16 (unot 32 (value line) ≫ 16) .& val.

(* src: gateway_cheat.cpp | switch (line.type) { #2 | GatewayCheat::Execute *)
Definition execute_line (lines : list CheatLine) line s w : option (State * W) :=
  match cheat_type (type line) with
  | None | Some Null => Some (s, w)
  | Some Write32 => WriteOp 4 line s w
  | Some Write16 => WriteOp 2 line s w
  | Some Write8 => WriteOp 1 line s w
  | Some GreaterThan32 => CompOp 4 (fun val => value line >? val) line s w
  | Some LessThan32 => CompOp 4 (fun val => value line <? val) line s w
  | Some EqualTo32 => CompOp 4 (fun val => value line =? val) line s w
  | Some NotEqualTo32 => CompOp 4 (fun val => negb (value line =? val)) line s w
  | Some GreaterThan16WithMask => CompOp 2 (fun val => u16 (value line) >? masked line val) line s w
  | Some LessThan16WithMask => CompOp 2 (fun val => u16 (value line) <? masked line val) line s w
  | Some EqualTo16WithMask => CompOp 2 (fun val => u16 (value line) =? masked line val) line s w
  | Some NotEqualTo16WithMask => CompOp 2 (fun val => negb (u16 (value line) =? masked line val)) line s w
  | Some LoadOffset => LoadOffsetOp line s w
  | Some Loop => Some (LoopOp line s, w)
  | Some Terminator => Some (TerminateOp s, w)
  | Some LoopExecuteVariant => Some (LoopExecuteVariantOp s, w)
  | Some FullTerminator => Some (FullTerminateOp s, w)
  | Some SetOffset => Some (SetOffsetOp line s, w)
  | Some AddValue => Some (AddValueOp line s, w)
  | Some SetValue => Some (SetValueOp line s, w)
  | Some IncrementiveWrite32 => IncrementiveWriteOp 4 line s w
  | Some IncrementiveWrite16 => IncrementiveWriteOp 2 line s w
  | Some IncrementiveWrite8 => IncrementiveWriteOp 1 line s w
  | Some Load32 => LoadOp 4 line s w
  | Some Load16 => LoadOp 2 line s w
  | Some Load8 => LoadOp 1 line s w
  | Some AddOffset => Some (AddOffsetOp line s, w)
  | Some Joker => Some (JokerOp line s w, w)
  | Some Patch => PatchOp lines line s w
  end.

(** One turn of the loop: [inr] when it is left, without a machine when an
    access fails. *)
(* src: gateway_cheat.cpp | for (state.current_line_nr = 0; state.current_line_nr < cheat_lines.size(); *)
Definition turn (lines : list CheatLine) (x : State * W) : (State * W) + option W :=
  let '(s, w) := x in
  match lines !! Z.to_nat (current_line_nr s) with
  | None => inr (Some w)
  | Some line =>
      match (if if_flag s >? 0 then skip_line lines line s w else execute_line lines line s w) with
      | Some (s, w) => inl (s<|current_line_nr := u64 (current_line_nr s + 1)|>, w)
      | None => inr None
      end
  end.

(* src: gateway_cheat.cpp | void GatewayCheat::Execute( *)
Definition Execute (lines : list CheatLine) w : option W :=
  mjoin (loop_result (loop 128 (turn lines) (initial_state, w))).
End operations.
