(* ===== verification/CheatFacts.v ===== *)
(** What the interpreter of cheat codes promises: it ends, and a patch writes the
    bytes of its lines. *)

From S2P Require Import Prelude Memory Cheats.

(** * Memory *)

(** The accesses [ok] allows reach a memory of bytes. *)
Class CheatRam {W : Type} `{CheatSystem W} (I : W -> Prop) (ok : nat -> Z -> Prop) (byte : W -> Z -> Z) := {
  ram_read n a w : I w -> ok n a -> ∃ v w', sys_read n a w = Some (v, w') ∧ I w' ∧ ∀ x, byte w' x = byte w x;
  ram_write n a v w : I w -> ok n a -> ∃ w', sys_write n a v w = Some w' ∧ I w' ∧
    ∀ x, byte w' x = if (a <=? x) && (x <? a + Z.of_nat n) then u8 (v ≫ (8 * (x - a))) else byte w x;
  ram_invalidate a n w : I w -> I (sys_invalidate a n w) ∧ ∀ x, byte (sys_invalidate a n w) x = byte w x
}.

(** * Patches *)

(** Byte [j] of the data in the lines from [start]: four bytes of the first word
    of a line, four of its value, and the next line. *)
Definition patch_byte (lines : list CheatLine) (start j : Z) : Z :=
  u8 (default 0 (patch_half lines (j mod 8 <? 4) (start + j / 8)) ≫ (8 * (j mod 4))).

Section patch.
Context {W : Type} `{!CheatSystem W} {I : W -> Prop} {ok : nat -> Z -> Prop} {byte : W -> Z -> Z} `{!CheatRam I ok byte}
  (lines : list CheatLine) (start v addr : Z).
Context (Hs : 0 <= start) (Hv : 0 <= v) (Ha : 0 <= addr)
  (Hok : ∀ k, 0 <= k < v -> ok 1 (u32 (addr + k)) ∧ (k mod 4 = 0 -> k + 4 <= v -> ok 4 (u32 (addr + k))))
  (Hlines : ∀ k, 0 <= k < v -> is_Some (lines !! Z.to_nat (start + k / 8))).

Lemma patch_half_some is_first k : 0 <= k < v -> patch_half lines is_first (start + k / 8) =
  Some (default 0 (patch_half lines is_first (start + k / 8))).
Proof. intros K. destruct (Hlines k K) as [l E]. unfold patch_half. by rewrite E. Qed.

(** The line in use when [j] bytes are done. *)
Definition line_at (j : Z) : Z := start + (if j <? v then j / 8 else (v - 1) / 8).

Definition patched (lo hi : Z) w w' : Prop :=
  I w' ∧ (addr + v <= 2 ^ 32 -> ∀ x,
    byte w' x = if (addr + lo <=? x) && (x <? addr + hi) then patch_byte lines start (x - addr) else byte w x).

Lemma patched_refl j w : I w -> patched j j w w.
Proof. intros Iw. split; [done|]. intros _ x. destruct (_ && _) eqn:E; [exfalso; lia|done]. Qed.
Lemma patched_trans a b c w w' w'' : a <= b <= c -> patched a b w w' -> patched b c w' w'' -> patched a c w w''.
Proof.
  intros O [_ P] [I' P']. split; [done|]. intros L x. rewrite P', P by done. zcases; first [done | exfalso; lia].
Qed.

Lemma write_patch n j w tmp : I w -> ok n (u32 (addr + j)) -> 0 <= j -> 0 < Z.of_nat n -> j + Z.of_nat n <= v ->
  (∀ i, 0 <= i < Z.of_nat n -> u8 (tmp ≫ (8 * i)) = patch_byte lines start (j + i)) ->
  ∃ w', sys_write n (u32 (addr + j)) tmp w = Some w' ∧ patched j (j + Z.of_nat n) w w'.
Proof.
  intros Iw O J N L B. destruct (ram_write n (u32 (addr + j)) tmp w Iw O) as (w' & E & I' & U). exists w'. split; [done|].
  split; [done|]. intros M x. rewrite U, uwrap_id by (unfold in_range; lia).
  replace (addr + (j + Z.of_nat n)) with (addr + j + Z.of_nat n) by lia. destruct (_ && _) eqn:C; [|done].
  rewrite B by lia. f_equal. lia.
Qed.

(** Four bytes of a half are four bytes of the data. *)
Lemma half_bytes j i x : 0 <= j -> j mod 4 = 0 -> 0 <= i < 4 -> default 0 (patch_half lines (j mod 8 <? 4) (start + j / 8)) = x ->
  u8 (x ≫ (8 * i)) = patch_byte lines start (j + i).
Proof.
  intros J A B <-. unfold patch_byte. do 2 f_equal; [|modlia]. do 2 f_equal; [|f_equal; modlia].
  zcases; first [done | exfalso; modlia].
Qed.

Lemma patch_words_spec fuel j w : I w -> 0 <= j <= v -> j mod 4 = 0 -> Z.of_nat fuel = (v - j) / 4 ->
  ∃ w', patch_words fuel lines (j mod 8 <? 4) (line_at j) (v - j) (u32 (addr + j)) w =
          Some ((v - v mod 4) mod 8 <? 4, line_at (v - v mod 4), v mod 4, u32 (addr + (v - v mod 4)), w') ∧
        patched j (v - v mod 4) w w'.
Proof.
  revert j w. induction fuel as [|fuel IH]; intros j w Iw J A F; cbn [patch_words].
  - assert (j = v - v mod 4) by modlia. subst j. exists w. split; [|by apply patched_refl].
    by replace (v - (v - v mod 4)) with (v mod 4) by lia.
  - replace (v - j >=? 4) with true by modlia. assert (Ej : line_at j = start + j / 8) by (unfold line_at; replace (j <? v) with true by modlia; done).
    rewrite Ej.
    rewrite patch_half_some by modlia. cbn [mbind option_bind].
    destruct (write_patch 4 j w (default 0 (patch_half lines (j mod 8 <? 4) (start + j / 8))) Iw) as (w1 & E & P);
      [apply Hok; modlia|lia|done|modlia|intros i Hi; apply half_bytes; [lia|done|lia|done]|].
    rewrite E. cbn [mbind option_bind]. destruct P as [I1 P1].
    destruct (IH (j + 4) w1 I1 ltac:(modlia) ltac:(modlia) ltac:(modlia)) as (w' & E' & P').
    exists w'. split; [|apply (patched_trans j (j + 4) _ w w1); [modlia|done..]].
    rewrite <- E'. f_equal; [zcases; first [done | exfalso; modlia]| |lia|].
    + unfold line_at. zcases; cbn [negb andb]; destruct (Z.gtb_spec (v - j) 4); modlia.
    + unfold uwrap. modlia.
Qed.

Lemma patch_bytes_spec k j w : I w -> 0 <= j -> j / 4 = (v - 1) / 4 -> Z.of_nat k = v - j ->
  ∃ w', patch_bytes k lines ((j - j mod 4) mod 8 <? 4) (start + j / 8) (8 * (j mod 4)) (u32 (addr + j)) w = Some w' ∧
        patched j v w w'.
Proof.
  revert j w. induction k as [|k IH]; intros j w Iw J D F; cbn [patch_bytes].
  - assert (j = v) by lia. subst j. exists w. split; [done|by apply patched_refl].
  - rewrite patch_half_some by lia. cbn [mbind option_bind].
    destruct (write_patch 1 j w (u8 (default 0 (patch_half lines ((j - j mod 4) mod 8 <? 4) (start + j / 8)) ≫ (8 * (j mod 4)))) Iw)
      as (w1 & E & P); [apply Hok; lia|lia|done|lia| |].
    { intros i Hi. replace i with 0 by lia. cbn [Z.mul]. rewrite Z.shiftr_0_r, Z.add_0_r. unfold patch_byte.
      replace ((j - j mod 4) mod 8 <? 4) with (j mod 8 <? 4) by (zcases; first [done | exfalso; modlia]).
      unfold uwrap. by rewrite Z.mod_mod. }
    rewrite E. cbn [mbind option_bind]. destruct P as [I1 P1].
    destruct (decide (k = O)) as [->|].
    + exists w1. split; [done|]. by replace v with (j + 1) by lia.
    + destruct (IH (j + 1) w1 I1 ltac:(lia) ltac:(modlia) ltac:(lia)) as (w' & E' & P').
      exists w'. split; [|apply (patched_trans j (j + 1) _ w w1); [lia|done..]].
      rewrite <- E'. f_equal; [zcases; first [done | exfalso; modlia]|modlia|modlia|unfold uwrap; modlia].
Qed.

Lemma line_at_end : 0 < v -> line_at (v - v mod 4) = start + (v - 1) / 8.
Proof. intros V. unfold line_at. destruct (Z.ltb_spec (v - v mod 4) v); modlia. Qed.

Lemma patch_tail_spec w : I w -> 0 < v ->
  ∃ w', patch_bytes (Z.to_nat (v mod 4)) lines ((v - v mod 4) mod 8 <? 4) (line_at (v - v mod 4)) 0
          (u32 (addr + (v - v mod 4))) w = Some w' ∧ patched (v - v mod 4) v w w'.
Proof.
  intros Iw V. rewrite line_at_end by done. destruct (Z.eq_dec (v mod 4) 0) as [M|M].
  - rewrite M. exists w. split; [done|]. rewrite Z.sub_0_r. by apply patched_refl.
  - destruct (patch_bytes_spec (Z.to_nat (v mod 4)) (v - v mod 4) w Iw) as (w' & E & P); [modlia..|].
    exists w'. split; [|done]. rewrite <- E. f_equal; [zcases; first [done | exfalso; modlia]|modlia|modlia].
Qed.
End patch.

(** The data of a patch of [v] bytes lies in the lines from [start]. *)
Definition has_data (lines : list CheatLine) (start v : Z) : Prop :=
  ∀ k, 0 <= k < v -> is_Some (lines !! Z.to_nat (start + k / 8)).
(** Every access of a patch of [v] bytes is allowed. *)
Definition patch_allowed (ok : nat -> Z -> Prop) (addr v : Z) : Prop :=
  ∀ k, 0 <= k < v -> ok 1%nat (u32 (addr + k)) ∧ (k mod 4 = 0 -> k + 4 <= v -> ok 4%nat (u32 (addr + k))).

Lemma PatchOp_spec `{HR : CheatRam W R ok byte} lines line s w : R w -> in_range 32 (value line) -> 0 <= current_line_nr s ->
  let addr := u32 (address line + offset s) in
  let start := current_line_nr s + 1 in
  if_flag s = 0 -> has_data lines start (value line) -> patch_allowed ok addr (value line) ->
  ∃ w', PatchOp lines line s w = Some (s<|current_line_nr := current_line_nr s + (value line + 7) / 8|>, w') ∧ R w' ∧
    (addr + value line <= 2 ^ 32 -> ∀ x,
       byte w' x = if (addr <=? x) && (x <? addr + value line) then patch_byte lines start (x - addr) else byte w x).
Proof.
  intros Rw [V0 V1] C addr start If D A. destruct (ram_invalidate addr (value line) w Rw) as [R0 B0].
  assert (Ha : 0 <= addr) by (apply uwrap_range; lia). unfold PatchOp. rewrite If. cbn [Z.gtb Z.compare]. fold addr.
  destruct (Z.eq_dec (value line) 0) as [Z0|Z0].
  { rewrite Z0. cbn. exists (sys_invalidate addr 0 w). rewrite Z0 in R0, B0. destruct s. simpl in *. rewrite Z.add_0_r.
    split; [done|]. split; [done|]. intros _ x. rewrite B0. destruct (_ && _) eqn:E; [exfalso; lia|done]. }
  replace (value line >? 0) with true by lia. fold start. set (v := value line) in *.
  destruct (patch_words_spec lines start v addr Ha A D (Z.to_nat (v / 4)) 0 (sys_invalidate addr v w) R0)
    as (w1 & E & P1); [lia|done|rewrite Z.sub_0_r; modlia|].
  unfold line_at in E at 1. replace (0 <? v) with true in E by lia. rewrite Z.sub_0_r, ?Z.add_0_r in E.
  change (0 mod 8 <? 4) with true in E. change (0 / 8) with 0 in E.
  replace (u32 addr) with addr in E by (symmetry; apply uwrap_id, uwrap_range; lia). rewrite E. cbn [mbind option_bind].
  assert (Ln : line_at start v (v - v mod 4) = current_line_nr s + (v + 7) / 8).
  { rewrite line_at_end by lia. unfold start. modlia. }
  destruct P1 as [R1 P1].
  destruct (patch_tail_spec lines start v addr Ha A D w1 R1) as (w2 & E2 & P2); [lia|]. rewrite Ln in E2 |- *.
  rewrite E2. cbn [mbind option_bind]. exists w2. split; [done|].
  destruct (patched_trans lines start v addr 0 (v - v mod 4) v _ _ _ ltac:(modlia) (conj R1 P1) P2) as [R2 B2]. split; [done|].
  intros L x. rewrite B2, Z.add_0_r by done. by destruct (_ && _).
Qed.

(** A patch copies as many bytes as its value says, from the lines that follow
    it to the address it names, and to no other address; the line that is executed
    next is the one after the data.  Under a failed condition only the lines of the
    data are skipped. *)
Theorem PatchOp_correct `{HR : CheatRam W R ok byte} lines line s w : R w -> in_range 32 (value line) ->
  0 <= current_line_nr s ->
  let addr := u32 (address line + offset s) in
  let start := current_line_nr s + 1 in
  let s' := s<|current_line_nr := current_line_nr s + (value line + 7) / 8|> in
  (if_flag s > 0 -> PatchOp lines line s w = Some (s', w)) ∧
  (if_flag s = 0 -> has_data lines start (value line) -> patch_allowed ok addr (value line) ->
     ∃ w', PatchOp lines line s w = Some (s', w') ∧ R w' ∧
       (addr + value line <= 2 ^ 32 -> ∀ x,
          byte w' x = if (addr <=? x) && (x <? addr + value line) then patch_byte lines start (x - addr) else byte w x)).
Proof.
  intros Rw V C addr start s'. split; [|by apply PatchOp_spec].
  intros I. unfold PatchOp. by rewrite (proj2 (Z.gtb_lt _ _)) by lia.
Qed.

(** * Termination *)

(** The types that count a failed condition. *)
Definition is_conditional (line : CheatLine) : bool :=
  match cheat_type (type line) with
  | Some (GreaterThan32 | LessThan32 | EqualTo32 | NotEqualTo32 | GreaterThan16WithMask | LessThan16WithMask
         | EqualTo16WithMask | NotEqualTo16WithMask | Joker) => true
  | _ => false
  end.
Definition is_type (t : CheatType) (line : CheatLine) : bool := bool_decide (cheat_type (type line) = Some t).

(** No condition can fail at the end of a loop by [D2]. *)
Definition plain_loops (lines : list CheatLine) : Prop :=
  Forall (fun l => is_type FullTerminator l = false) lines ∨ Forall (fun l => is_conditional l = false) lines.

(** Lines as their constructor makes them, in a list of a sensible length. *)
Record cheat_ok (lines : list CheatLine) : Prop := mk_cheat_ok {
  ok_values : Forall (fun l => in_range 32 (value l)) lines;
  ok_length : Z.of_nat (length lines) < 2 ^ 40
}.

Section termination.
Context {W : Type} `{!CheatSystem W} (lines : list CheatLine) (Hok : cheat_ok lines) (Hplain : plain_loops lines).
Implicit Types (line : CheatLine) (s : State) (w : W).
#[local] Abbreviation N := (Z.of_nat (length lines)).

(** The control part of the state. *)
Record live s : Prop := mk_live {
  live_back : 0 <= loop_back_line s <= current_line_nr s;
  live_back_end : loop_back_line s <= N;
  live_end : current_line_nr s <= N + 2 ^ 31;
  live_count : in_range 32 (loop_count s);
  live_if : 0 <= if_flag s;
  live_loop : loop_flag s = true -> ∃ l, lines !! Z.to_nat (loop_back_line s) = Some l ∧ cheat_type (type l) = Some Loop;
  live_again : loop_flag s = true -> current_line_nr s = loop_back_line s -> if_flag s = 0;
  live_free : Forall (fun l => is_conditional l = false) lines -> if_flag s = 0
}.

(** What one line does to it, before the loop counts the line. *)
Inductive moves line s s' : Prop :=
| forward : loop_back_line s' = loop_back_line s -> loop_count s' = loop_count s -> loop_flag s' = loop_flag s ->
    current_line_nr s <= current_line_nr s' < current_line_nr s + 2 ^ 31 -> 0 <= if_flag s' ->
    (cheat_type (type line) = Some Loop -> if_flag s > 0) ->
    (is_conditional line = false -> if_flag s' <= if_flag s) -> moves line s s'
| looping : cheat_type (type line) = Some Loop -> if_flag s = 0 -> s' = LoopOp line s -> moves line s s'
| ending : loop_flag s = false -> loop_back_line s' = loop_back_line s -> loop_count s' = 0 -> loop_flag s' = false ->
    current_line_nr s' = current_line_nr s -> 0 <= if_flag s' <= if_flag s -> moves line s s'
| back : loop_flag s = true -> if_flag s' = 0 -> s' = s<|current_line_nr := u64 (loop_back_line s - 1)|> ->
    cheat_type (type line) ≠ Some Loop -> moves line s s'.

Lemma patch_words_nr fuel is_first nr num addr w f' nr' num' addr' w' :
  patch_words fuel lines is_first nr num addr w = Some (f', nr', num', addr', w') -> nr <= nr' <= nr + Z.of_nat fuel.
Proof.
  revert is_first nr num addr w. induction fuel as [|fuel IH]; intros is_first nr num addr w; simpl.
  - intros [= _ <- _ _ _]. lia.
  - destruct (num >=? 4); [|intros [= _ <- _ _ _]; lia].
    intros (tmp & _ & (w1 & _ & E)%bind_Some)%bind_Some. apply IH in E. destruct (negb is_first && (num >? 4)); lia.
Qed.

Lemma PatchOp_moves line s w s' w' : in_range 32 (value line) -> cheat_type (type line) = Some Patch -> 0 <= if_flag s ->
  PatchOp lines line s w = Some (s', w') -> moves line s s'.
Proof.
  intros [V0 V1] T I. destruct s as [r o i c b n f]. unfold PatchOp. simpl in I |- *. destruct (i >? 0).
  - intros [= <- _]. apply forward; simpl; [done|done|done| |done|by rewrite T|done]. modlia.
  - intros ([[[[f' nr] num] addr] w1] & E & (w2 & _ & [= <- _])%bind_Some)%bind_Some.
    apply patch_words_nr in E. apply forward; simpl; [done|done|done| |done|by rewrite T|done].
    rewrite Z2Nat.id in E by modlia. destruct (value line >? 0); modlia.
Qed.

(** Lines that leave the control part alone, but may count a condition. *)
Lemma moves_same line s s' : cheat_type (type line) ≠ Some Loop -> 0 <= if_flag s' ->
  (is_conditional line = false -> if_flag s' <= if_flag s) ->
  loop_back_line s' = loop_back_line s -> loop_count s' = loop_count s -> loop_flag s' = loop_flag s ->
  current_line_nr s' = current_line_nr s -> moves line s s'.
Proof. intros. apply forward; first [done | lia]. Qed.

Lemma is_conditional_eq line t : cheat_type (type line) = Some t ->
  is_conditional line = match t with GreaterThan32 | LessThan32 | EqualTo32 | NotEqualTo32 | GreaterThan16WithMask
    | LessThan16WithMask | EqualTo16WithMask | NotEqualTo16WithMask | Joker => true | _ => false end.
Proof. unfold is_conditional. intros ->. by destruct t. Qed.

Lemma CompOp_moves n comp line s w s' w' : is_conditional line = true -> 0 <= if_flag s ->
  CompOp n comp line s w = Some (s', w') -> moves line s s'.
Proof.
  unfold CompOp. intros C I ([val w1] & _ & [= <- _])%bind_Some. destruct s as [r o i c b m f]. simpl in I.
  assert (cheat_type (type line) ≠ Some Loop) by (intros E; by rewrite (is_conditional_eq _ _ E) in C).
  assert (0 <= u32 (i + 1)) by (unfold uwrap; modlia).
  destruct (negb (comp val)); apply moves_same; simpl; first [done | lia | rewrite C; done].
Qed.

Lemma full_terminator_moves line s : cheat_type (type line) = Some FullTerminator -> line ∈ lines -> live s ->
  moves line s (FullTerminateOp s).
Proof.
  intros T M L. unfold FullTerminateOp. pose proof (live_if s L) as I0. destruct (loop_flag s) eqn:F.
  - apply back; [done| |done|by rewrite T]. destruct Hplain as [P|P].
    + rewrite Forall_forall in P. specialize (P _ M). unfold is_type in P. by rewrite bool_decide_eq_false in P.
    + destruct s. exact (live_free _ L P).
  - destruct s as [r o i c b n f]. apply ending; simpl in *; first [done | lia].
Qed.

Lemma terminate_moves line s : cheat_type (type line) = Some Terminator -> live s -> moves line s (TerminateOp s).
Proof.
  intros T L. pose proof (live_if s L) as I0. destruct s as [r o i c b n f]. unfold TerminateOp. simpl in *.
  destruct (Z.gtb_spec i 0); apply moves_same; simpl; first [by rewrite T | done | lia].
Qed.

Lemma conditional_moves line s : is_conditional line = true -> live s -> moves line s (s<|if_flag := u32 (if_flag s + 1)|>).
Proof.
  intros C L. pose proof (live_if s L) as I0. destruct s as [r o i c b n f]. simpl in *.
  assert (0 <= u32 (i + 1)) by (unfold uwrap; modlia).
  apply moves_same; simpl; [|done|by rewrite C|done..]. intros E. by rewrite (is_conditional_eq _ _ E) in C.
Qed.

Lemma skip_line_moves line s w s' w' : in_range 32 (value line) -> live s -> if_flag s > 0 -> line ∈ lines ->
  skip_line lines line s w = Some (s', w') -> moves line s s'.
Proof.
  intros V L I M. unfold skip_line. pose proof (live_if s L) as I0.
  destruct (cheat_type (type line)) as [t|] eqn:T.
  2:{ intros [= <- _]. apply forward; first [done | lia | by rewrite T]. }
  pose proof (is_conditional_eq line t T) as C.
  destruct t; intros E; try by eapply PatchOp_moves.
  all: injection E as <- _; first [by apply conditional_moves | by apply full_terminator_moves | by apply terminate_moves | idtac].
  all: apply forward; first [done | lia].
Qed.

Lemma execute_line_moves line s w s' w' : in_range 32 (value line) -> live s -> if_flag s = 0 -> line ∈ lines ->
  execute_line lines line s w = Some (s', w') -> moves line s s'.
Proof.
  intros V L I M. unfold execute_line. pose proof (live_if s L) as I0.
  destruct (cheat_type (type line)) as [t|] eqn:T.
  2:{ intros [= <- _]. apply forward; first [done | lia | by rewrite T]. }
  pose proof (is_conditional_eq line t T) as C.
  destruct t; intros E; try by eapply PatchOp_moves.
  all: try by eapply CompOp_moves.
  all: try (injection E as <- _; first [by apply full_terminator_moves | by apply terminate_moves | by apply looping]).
  all: destruct s as [r o i c b n f]; simpl in *.
  all: unfold WriteOp, LoadOffsetOp, IncrementiveWriteOp, LoadOp, LoopExecuteVariantOp, JokerOp in E; simpl in E.
  all: repeat match type of E with
    | mbind _ _ = Some _ => apply bind_Some in E as ([] & _ & E) || apply bind_Some in E as (? & _ & E)
    end.
  all: try (destruct f; injection E as <- _; [apply back|apply ending]; simpl; first [done | lia | by rewrite T]).
  all: try (injection E as <- _; apply moves_same; simpl; first [done | lia | by rewrite T]).
  destruct (negb _); injection E as <- _; [by apply (conditional_moves line (mk_State r o i c b n f))|].
  apply moves_same; simpl; first [done | lia | by rewrite T].
Qed.

(** *** A measure: the lines behind the loop, its rounds, and the lines ahead *)

Definition rounds s : Z :=
  (if loop_flag s then 2 ^ 32 - loop_count s + 1 else 0) +
  (if current_line_nr s =? loop_back_line s then (if loop_flag s then -1 else 2 ^ 32 + 1) else 0).
Definition rank s : Z :=
  (N - loop_back_line s) * ((2 ^ 32 + 2) * (N + 1)) + rounds s * (N + 1) + Z.max 0 (N - current_line_nr s).

Lemma rank_lex a b c a' b' c' m : 0 <= m -> 0 <= b' < m + 1 -> 0 <= c' <= N -> 0 <= b -> 0 <= c -> 
  a' < a ∨ a' = a ∧ (b' < b ∨ b' = b ∧ c' < c) ->
  a' * ((m + 1) * (N + 1)) + b' * (N + 1) + c' < a * ((m + 1) * (N + 1)) + b * (N + 1) + c.
Proof.
  intros Hm Hb Hc B0 C0 [L|[-> [L|[-> L]]]]; [|nia|lia].
  assert (a' * ((m + 1) * (N + 1)) + (m + 1) * (N + 1) <= a * ((m + 1) * (N + 1))) by nia.
  assert (b' * (N + 1) + N < (m + 1) * (N + 1)) by nia. nia.
Qed.

Lemma rounds_bounds s : live s -> 0 <= rounds s < 2 ^ 32 + 2.
Proof. intros []. unfold rounds, in_range in *. destruct (loop_flag s), (_ =? _); lia. Qed.

Lemma live_rank s : live s -> 0 <= rank s.
Proof. intros L. pose proof (rounds_bounds s L). destruct L. unfold rank. nia. Qed.

(** The loop counts the line. *)
Definition next_line s : State := s<|current_line_nr := u64 (current_line_nr s + 1)|>.

Lemma rank_next s s' : live s -> live s' -> current_line_nr s < N ->
  loop_back_line s < loop_back_line s' ∨ loop_back_line s' = loop_back_line s ∧
    (rounds s' < rounds s ∨ rounds s' = rounds s ∧ current_line_nr s < current_line_nr s') -> rank s' < rank s.
Proof.
  intros L L' C O. pose proof (rounds_bounds s L). pose proof (rounds_bounds s' L').
  destruct L, L'. apply (rank_lex _ _ _ _ _ _ (2 ^ 32 + 1)); lia.
Qed.

Section moves_live.
Context line s (Hl : lines !! Z.to_nat (current_line_nr s) = Some line) (L : live s).

Lemma current_line : current_line_nr s < N.
Proof. pose proof (lookup_lt_Some _ _ _ Hl). destruct L. lia. Qed.
Lemma value_line : in_range 32 (value line).
Proof. destruct Hok as [V _]. rewrite Forall_forall in V. apply V, list_elem_of_lookup. by eexists. Qed.

(** At the head of a loop that is running the line is the loop's, and is executed. *)
Lemma at_loop : loop_flag s = true -> current_line_nr s = loop_back_line s ->
  cheat_type (type line) = Some Loop ∧ if_flag s = 0.
Proof.
  intros F E. destruct (live_loop s L F) as (l & E1 & E2). rewrite <- E, Hl in E1. injection E1 as ->.
  split; [done|]. by apply live_again.
Qed.

Lemma forward_live s' : loop_back_line s' = loop_back_line s ->
  loop_flag s' = loop_flag s ∧ loop_count s' = loop_count s ∨ loop_flag s' = false ∧ loop_count s' = 0 ->
  current_line_nr s <= current_line_nr s' < current_line_nr s + 2 ^ 31 -> 0 <= if_flag s' ->
  (is_conditional line = false -> if_flag s' <= if_flag s) -> live (next_line s').
Proof.
  intros B FC C I Cd. pose proof current_line as CN. destruct Hok as [_ LN]. destruct L as [L1 L2 L3 L4 L5 L6 L7 L8].
  destruct s' as [r' o' i' c' b' n' f']. simpl in B, FC, C, I, Cd. subst b'. unfold next_line. simpl.
  rewrite (uwrap_id 64) by (unfold in_range; lia).
  constructor; simpl; first [lia | idtac].
  - destruct FC as [[_ ->]|[_ ->]]; [done|unfold in_range; lia].
  - destruct FC as [[-> _]|[-> _]]; [done|done].
  - intros P. assert (is_conditional line = false).
    { rewrite Forall_forall in P. apply P, list_elem_of_lookup. by eexists. }
    pose proof (L8 P). pose proof (Cd ltac:(assumption)). lia.
Qed.

Lemma looping_live : cheat_type (type line) = Some Loop -> if_flag s = 0 -> live (next_line (LoopOp line s)).
Proof.
  intros T I. pose proof current_line as CN. destruct Hok as [_ LN]. destruct L as [L1 L2 L3 L4 L5 L6 L7 L8].
  destruct s as [r o i c b n f]. unfold next_line, LoopOp. simpl in *. rewrite (uwrap_id 64) by (unfold in_range; lia).
  constructor; simpl; first [lia | by apply uwrap_range | idtac].
  intros _. by exists line.
Qed.

Lemma back_live : loop_flag s = true -> next_line (s<|current_line_nr := u64 (loop_back_line s - 1)|>) =
  s<|current_line_nr := loop_back_line s|>.
Proof.
  intros F. pose proof current_line as CN. destruct Hok as [_ LN]. destruct L as [L1 L2 L3 L4 L5 L6 L7 L8].
  destruct s as [r o i c b n f]. unfold next_line. simpl in *. f_equal. unfold uwrap. modlia.
Qed.

Lemma moves_live s' : moves line s s' -> live (next_line s').
Proof.
  intros [B C F N1 I Lp Cd|T I ->|F B C F' N1 I|F I E T].
  - apply forward_live; [done|by left|done..].
  - by apply looping_live.
  - apply forward_live; first [done | lia | by right].
  - rewrite E, back_live by done. destruct L as [L1 L2 L3 L4 L5 L6 L7 L8]. rewrite E in I. destruct s as [r o i c b n f].
    simpl in *. subst i. constructor; simpl; first [done | lia].
Qed.

Lemma moves_rank s' : moves line s s' -> rank (next_line s') < rank s.
Proof.
  intros M. pose proof current_line as CN. pose proof at_loop as AL. pose proof value_line as [_ V].
  pose proof (moves_live s' M) as L'. apply rank_next; [done..|].
  assert (NL : current_line_nr s <= current_line_nr s' < current_line_nr s + 2 ^ 31 ->
    current_line_nr (next_line s') = current_line_nr s' + 1).
  { intros R. destruct Hok as [_ LN], L, s'. apply uwrap_id. unfold in_range. simpl in *. lia. }
  destruct L as [L1 L2 L3 L4 L5 L6 L7 L8]. unfold in_range in *.
  destruct M as [B C F N1 I Lp Cd|T I ->|F B C F' N1 I|F I E T].
  - specialize (NL N1). destruct s' as [r' o' i' c' b' n' f'], s as [r o i c b n f].
    unfold rounds, next_line in *. simpl in *. subst c' b' f'. right. split; [done|].
    rewrite NL, (proj2 (Z.eqb_neq (n' + 1) b)) by lia. destruct f; [|zcases; lia].
    destruct (Z.eqb_spec n b); [destruct AL as [T0 I0]; [done..|]; specialize (Lp T0); lia|]. lia.
  - assert (C0 : current_line_nr (LoopOp line s) = current_line_nr s) by (by destruct s). rewrite C0 in NL. specialize (NL ltac:(lia)).
    destruct s as [r o i c b n f]. unfold rounds, next_line, LoopOp in *. simpl in *. rewrite NL. subst i.
    destruct (Z.eq_dec n b) as [->|]; [|lia]. right. split; [done|]. rewrite Z.eqb_refl, (proj2 (Z.eqb_neq _ _)) by lia.
    destruct f, (Z.ltb_spec c (value line)); rewrite ?uwrap_id by (unfold in_range; lia); lia.
  - specialize (NL ltac:(lia)). destruct s' as [r' o' i' c' b' n' f'], s as [r o i c b n f].
    unfold rounds, next_line in *. simpl in *. subst. right. split; [done|]. zcases; lia.
  - rewrite E, back_live by done. destruct s as [r o i c b n f]. unfold rounds in *. simpl in *. subst f. rewrite Z.eqb_refl.
    destruct (Z.eqb_spec n b); [by destruct AL|]. lia.
Qed.
End moves_live.

Lemma turn_moves s w line s' w' : lines !! Z.to_nat (current_line_nr s) = Some line -> live s ->
  (if if_flag s >? 0 then skip_line lines line s w else execute_line lines line s w) = Some (s', w') -> moves line s s'.
Proof.
  intros E L. pose proof (live_if s L). pose proof (value_line line s E) as V.
  assert (line ∈ lines) by (apply list_elem_of_lookup; by eexists).
  destruct (Z.gtb_spec (if_flag s) 0).
  - apply skip_line_moves; [done|done|lia|done].
  - apply execute_line_moves; [done|done|lia|done].
Qed.
End termination.

(** ** Accesses that succeed *)

(** Every patch finds its data. *)
Definition patches_complete (lines : list CheatLine) : Prop :=
  ∀ i l, lines !! i = Some l -> cheat_type (type l) = Some Patch -> has_data lines (Z.of_nat i + 1) (value l).

Section accesses.
Context `{HR : CheatRam W R ok byte} (all : ∀ n a, ok n a) (lines : list CheatLine) (Hp : patches_complete lines).
Implicit Types (line : CheatLine) (s : State) (w : W).

Definition succeeds (x : option (State * W)) : Prop := ∃ s' w', x = Some (s', w') ∧ R w'.

Lemma write_if_changed_ok n a v w : R w -> ∃ w', write_if_changed n a v w = Some w' ∧ R w'.
Proof.
  intros Rw. unfold write_if_changed. destruct (ram_read n a w Rw (all n a)) as (x & w1 & -> & R1 & _). cbn [mbind option_bind].
  destruct (negb _); [|by eexists]. destruct (ram_write n a v w1 R1 (all n a)) as (w2 & -> & R2 & _). cbn [mbind option_bind].
  eexists. split; [done|]. exact (proj1 (ram_invalidate _ _ w2 R2)).
Qed.
Lemma WriteOp_ok n line s w : R w -> succeeds (WriteOp n line s w).
Proof.
  intros Rw. unfold WriteOp. edestruct (write_if_changed_ok n) as (w1 & -> & R1); [done|]. by eexists _, _.
Qed.
Lemma IncrementiveWriteOp_ok n line s w : R w -> succeeds (IncrementiveWriteOp n line s w).
Proof.
  intros Rw. unfold IncrementiveWriteOp. edestruct (write_if_changed_ok n) as (w1 & -> & R1); [done|]. by eexists _, _.
Qed.
Lemma CompOp_ok n comp line s w : R w -> succeeds (CompOp n comp line s w).
Proof.
  intros Rw. unfold CompOp. edestruct (ram_read n) as (x & w1 & -> & R1 & _); [done|apply all|]. by eexists _, _.
Qed.
Lemma LoadOp_ok n line s w : R w -> succeeds (LoadOp n line s w).
Proof.
  intros Rw. unfold LoadOp. edestruct (ram_read n) as (x & w1 & -> & R1 & _); [done|apply all|]. by eexists _, _.
Qed.
Lemma LoadOffsetOp_ok line s w : R w -> succeeds (LoadOffsetOp line s w).
Proof.
  intros Rw. unfold LoadOffsetOp. edestruct (ram_read 4) as (x & w1 & -> & R1 & _); [done|apply all|]. by eexists _, _.
Qed.
Lemma PatchOp_ok line s w : R w -> in_range 32 (value line) -> 0 <= current_line_nr s -> 0 <= if_flag s ->
  lines !! Z.to_nat (current_line_nr s) = Some line -> cheat_type (type line) = Some Patch ->
  succeeds (PatchOp lines line s w).
Proof.
  intros Rw V C I E T. destruct (Z.gtb_spec (if_flag s) 0) as [F|F].
  - unfold PatchOp. rewrite (proj2 (Z.gtb_lt _ _)) by lia. by eexists _, _.
  - pose proof (Hp _ _ E T) as D. rewrite Z2Nat.id in D by done.
    destruct (PatchOp_spec lines line s w Rw V C ltac:(lia) D) as (w' & -> & R' & _); [done|]. by eexists _, _.
Qed.

Lemma turn_ok line s w : cheat_ok lines -> live lines s -> R w -> lines !! Z.to_nat (current_line_nr s) = Some line ->
  succeeds (if if_flag s >? 0 then skip_line lines line s w else execute_line lines line s w).
Proof.
  intros Hok L Rw E. pose proof (value_line lines Hok line s E) as V. pose proof (live_if lines s L) as I.
  assert (C : 0 <= current_line_nr s) by (destruct L; lia).
  assert (P : cheat_type (type line) = Some Patch -> succeeds (PatchOp lines line s w)) by (intros; by apply PatchOp_ok).
  destruct (if_flag s >? 0); unfold skip_line, execute_line; destruct (cheat_type (type line)) as [[]|].
  all: first [by apply P | by apply WriteOp_ok | by apply CompOp_ok | by apply LoadOffsetOp_ok | by apply LoadOp_ok
             | by apply IncrementiveWriteOp_ok | by eexists _, _].
Qed.
End accesses.

Section execute.
Context {W : Type} `{!CheatSystem W} (lines : list CheatLine) (Hok : cheat_ok lines) (Hplain : plain_loops lines).

Lemma live_initial : live lines initial_state.
Proof. constructor; simpl; done || lia. Qed.

Lemma rank_initial : 0 <= rank lines initial_state < 2 ^ 128.
Proof.
  split; [apply live_rank, live_initial|]. unfold rank, rounds. cbn [loop_flag initial_state loop_back_line current_line_nr Z.eqb].
  destruct Hok as [_ L]. rewrite Z.sub_0_r, Z.max_r by lia. set (n := Z.of_nat (length lines)) in *.
  assert (0 <= n) by (unfold n; lia). change (2 ^ 128) with (2 ^ 40 * (2 ^ 40 * 2 ^ 48)). nia.
Qed.

(** [P]: the accesses succeed. *)
Lemma Execute_ends (R : W -> Prop) (P : Prop) w :
  (P -> R w ∧ ∀ s w line, lines !! Z.to_nat (current_line_nr s) = Some line -> live lines s -> R w ->
     succeeds (R := R) (if if_flag s >? 0 then skip_line lines line s w else execute_line lines line s w)) ->
  ∃ r, loop 128 (turn lines) (initial_state, w) = inr r ∧ (P -> ∃ w', r = Some w' ∧ R w').
Proof.
  intros HP. apply (loop_total (turn lines) (fun x => live lines x.1 ∧ (P -> R x.2)) _ (fun x => rank lines x.1)).
  2:{ split; [apply live_initial|]. by intros []%HP. }
  2:{ exact rank_initial. }
  intros [s w0] [L Rw]. simpl in L, Rw. unfold turn. destruct (lines !! _) as [line|] eqn:E; [|intros Hp; by eexists _; split; [|apply Rw]].
  pose proof (turn_moves lines Hok Hplain s w0 line) as M.
  destruct (if if_flag s >? 0 then _ else _) as [[s' w']|] eqn:X.
  - specialize (M s' w' E L eq_refl). pose proof (moves_live lines Hok line s E L s' M) as L'. split; [split|].
    + done.
    + intros Hp. destruct (HP Hp) as [_ T]. destruct (T s w0 line E L (Rw Hp)) as (s1 & w1 & X1 & R1). simpl.
      rewrite X in X1. by injection X1 as _ ->.
    + split; [by apply live_rank|]. by apply (moves_rank lines Hok line s E L).
  - intros Hp. destruct (HP Hp) as [_ T]. destruct (T s w0 line E L (Rw Hp)) as (s1 & w1 & X1 & R1). by rewrite X in X1.
Qed.

End execute.
