(* ===== verification/CheatFile.v ===== *)
(** Cheats as text and the list of cheats of a title, of [cheats/gateway_cheat.cpp]
    and [cheats/cheats.cpp], with the helpers of [common/string_util.cpp].

    A text is a list of characters; a file is its text.  The file of a title is a
    parameter of the operations that read it. *)

From Stdlib Require Import Ascii String.
From Stdlib Require Import Ascii.
From S2P Require Import Prelude Memory Cheats.

#[export] Instance ascii_eq_dec : EqDecision ascii.
Proof. exact ascii_dec. Defined.

Definition txt (s : string) : text := list_ascii_of_string s.
Definition newline : ascii := ascii_of_nat 10.

(** * The standard library's text *)

(** What [std::getline] reads one after the other: the parts between delimiters. *)
Fixpoint split_at (delim : ascii) (l : text) : list text :=
  match l with
  | [] => [[]]
  | c :: l =>
      match split_at delim l with
      | p :: ps => if decide (c = delim) then [] :: p :: ps else (c :: p) :: ps
      | [] => []
      end
  end.

(* src: common/string_util.cpp | std::vector<std::string> SplitString( *)
Definition SplitString (str : text) (delim : ascii) : list text :=
  let parts := split_at delim str in
  match last parts with Some [] => removelast parts | _ => parts end.

Definition is_blank (c : ascii) : bool :=
  bool_decide (c ∈ [" "%char; ascii_of_nat 9; ascii_of_nat 13; ascii_of_nat 10]).
Fixpoint drop_while (f : ascii -> bool) (l : text) : text :=
  match l with c :: l' => if f c then drop_while f l' else l | [] => [] end.

(* src: common/string_util.cpp | std::string StripSpaces( *)
Definition StripSpaces (str : text) : text := reverse (drop_while is_blank (reverse (drop_while is_blank str))).

Definition hex_digit (c : ascii) : option Z :=
  let n := Z.of_nat (nat_of_ascii c) in
  if (48 <=? n) && (n <=? 57) then Some (n - 48)
  else if (65 <=? n) && (n <=? 70) then Some (n - 55)
  else if (97 <=? n) && (n <=? 102) then Some (n - 87)
  else None.
Definition is_space (c : ascii) : bool :=
  let n := Z.of_nat (nat_of_ascii c) in (n =? 32) || (9 <=? n) && (n <=? 13).
Fixpoint digits_value (acc : Z) (l : text) : Z :=
  match l with
  | c :: l => match hex_digit c with Some d => digits_value (16 * acc + d) l | None => acc end
  | [] => acc
  end.
Definition starts_number (l : text) : bool := match l with c :: _ => bool_decide (is_Some (hex_digit c)) | [] => false end.
(** A prefix [0x] counts only before a digit. *)
Definition skip_prefix (l : text) : text :=
  match l with
  | "0"%char :: c :: l' => if bool_decide (c ∈ ["x"%char; "X"%char]) && starts_number l' then l' else l
  | _ => l
  end.

(** [std::stoi] and [std::stoul] in base 16, before the conversion to their types:
    no value when there is no digit. *)
Definition stol16 (l : text) : option Z :=
  let l := drop_while is_space l in
  let '(neg, l) := match l with
                   | "-"%char :: l => (true, l)
                   | "+"%char :: l => (false, l)
                   | _ => (false, l)
                   end in
  let l := skip_prefix l in
  if starts_number l then Some (if neg : bool then - digits_value 0 l else digits_value 0 l) else None.

(** * Lines *)

(* src: gateway_cheat.cpp | } catch (const std::logic_error&) { | GatewayCheat::CheatLine::CheatLine | +6 *)
Definition invalid_line (line : text) : CheatLine := mk_CheatLine (-1) 0 0 0 line false.

(* src: gateway_cheat.cpp | GatewayCheat::CheatLine::CheatLine( *)
Definition CheatLine_of (line : text) : CheatLine :=
  if decide (List.length line = 17%nat) then
    let type_temp := take 1 line in
    let sub_type_temp := if decide (type_temp = ["D"%char] ∨ type_temp = ["d"%char]) then take 1 (drop 1 line) else [] in
    match stol16 (type_temp ++ sub_type_temp), stol16 (take 8 line), stol16 (take 8 (drop 9 line)) with
    | Some t, Some f, Some v => mk_CheatLine t (u32 f .& 0x0FFFFFFF) (u32 v) (u32 f) line true
    | _, _, _ => invalid_line line
    end
  else invalid_line line.

(** * Cheats *)

(* src: gateway_cheat.h | class GatewayCheat final : public CheatBase { | GatewayCheat | ..const std::string comments; *)
Record GatewayCheat := mk_GatewayCheat {
  enabled : bool;
  name : text;
  cheat_lines : list CheatLine;
  comments : text
}.
#[export] Instance GatewayCheat_eq_dec : EqDecision GatewayCheat.
Proof. solve_decision. Defined.

(* src: gateway_cheat.cpp | GatewayCheat::GatewayCheat(std::string name_, std::string code, std::string comments_) | GatewayCheat::GatewayCheat | +12 *)
Definition GatewayCheat_of_code (name_ code comments_ : text) : GatewayCheat :=
  let code_lines := SplitString code newline in
  mk_GatewayCheat false name_ (CheatLine_of <$> filter (fun l => l ≠ []) code_lines) comments_.

(* src: gateway_cheat.cpp | bool GatewayCheat::IsEnabled( *)
Definition IsEnabled (c : GatewayCheat) : bool := enabled c.
(* src: gateway_cheat.cpp | void GatewayCheat::SetEnabled( *)
Definition SetEnabled (c : GatewayCheat) (enabled_ : bool) : GatewayCheat := c<|enabled := enabled_|>.
(* src: gateway_cheat.cpp | std::string GatewayCheat::GetType( *)
Definition GetType : text := txt "Gateway".

(* src: gateway_cheat.cpp | std::string GatewayCheat::GetCode( *)
Definition GetCode (c : GatewayCheat) : text := concat ((fun l => cheat_line l ++ [newline]) <$> cheat_lines c).

(* src: gateway_cheat.cpp | static constexpr char EnabledText[] = "*citra_enabled"; *)
Definition EnabledText : text := txt "*citra_enabled".

(* src: gateway_cheat.cpp | std::string GatewayCheat::ToString( *)
Definition ToString (c : GatewayCheat) : text :=
  ["["%char] ++ name c ++ ["]"%char; newline] ++
  (if enabled c then EnabledText ++ [newline] else []) ++
  concat ((fun l => ["*"%char] ++ l ++ [newline]) <$> SplitString (comments c) newline) ++
  GetCode c ++ [newline].

(** ** Reading a file *)

(** The variables of the loop. *)
Record Loading := mk_Loading {
  l_cheats : list GatewayCheat;
  l_comments : text;
  l_lines : list CheatLine;
  l_name : text;
  l_enabled : bool
}.

(* src: gateway_cheat.cpp | if (!cheat_lines.empty()) { #2 | GatewayCheat::LoadFile *)
Definition finish_cheat (s : Loading) : list GatewayCheat :=
  match l_lines s with
  | [] => l_cheats s
  | _ => l_cheats s ++ [mk_GatewayCheat (l_enabled s) (l_name s) (l_lines s) (l_comments s)]
  end.

Definition from_middle (line : text) (drop_end : nat) : text := take (List.length line - 1 - drop_end) (drop 1 line).

(* src: gateway_cheat.cpp | while (!file.eof()) { | GatewayCheat::LoadFile *)
Definition load_line (s : Loading) (line : text) : Loading :=
  let line := filter (fun c => c ≠ zero) line in
  let line := StripSpaces line in
  if bool_decide (2 <= List.length line)%nat && bool_decide (head line = Some "["%char) then
    mk_Loading (finish_cheat s) [] [] (from_middle line 1) (match l_lines s with [] => l_enabled s | _ => false end)
  else if bool_decide (head line = Some "*"%char) then
    if decide (line = EnabledText) then s<|l_enabled := true|>
    else s<|l_comments := l_comments s ++ from_middle line 0 ++ [newline]|>
  else if decide (line = []) then s
  else s<|l_lines := l_lines s ++ [CheatLine_of line]|>.

(** A file that cannot be opened holds no cheats. *)
(* src: gateway_cheat.cpp | std::vector<std::shared_ptr<CheatBase>> GatewayCheat::LoadFile( *)
Definition LoadFile (file : option text) : list GatewayCheat :=
  match file with
  | None => []
  | Some contents => finish_cheat (foldl load_line (mk_Loading [] [] [] [] false) (split_at newline contents))
  end.

(** * The engine *)

(* src: cheats.h | class CheatEngine { | CheatEngine | ..std::vector<std::shared_ptr<CheatBase>> cheats_list; *)
Record CheatEngine := mk_CheatEngine { loaded_title_id : option Z; cheats_list : list GatewayCheat }.
Implicit Types (e : CheatEngine).

(* src: cheats.cpp | constexpr u64 run_interval_ticks = 50'000'000; *)
Definition run_interval_ticks : Z := 50000000.
(* src: cheats.cpp | CheatEngine::GetCheats() const { *)
Definition GetCheats e : list GatewayCheat := cheats_list e.
(* src: cheats.cpp | void CheatEngine::AddCheat( *)
Definition AddCheat e (cheat : GatewayCheat) : CheatEngine := e<|cheats_list := cheats_list e ++ [cheat]|>.
(* src: cheats.cpp | void CheatEngine::RemoveCheat( *)
Definition RemoveCheat e (index : nat) : CheatEngine :=
  if decide (List.length (cheats_list e) <= index)%nat then e else e<|cheats_list := delete index (cheats_list e)|>.
(* src: cheats.cpp | void CheatEngine::UpdateCheat( *)
Definition UpdateCheat e (index : nat) (new_cheat : GatewayCheat) : CheatEngine :=
  if decide (List.length (cheats_list e) <= index)%nat then e else e<|cheats_list := <[index := new_cheat]> (cheats_list e)|>.

(* src: cheats.cpp | void CheatEngine::SaveCheatFile( *)
Definition SaveCheatFile e : text := concat (ToString <$> GetCheats e).

(* src: cheats.cpp | void CheatEngine::LoadCheatFile( *)
Definition LoadCheatFile e (title_id : Z) (file : option text) : CheatEngine :=
  if decide (loaded_title_id e = Some title_id) then e
  else match file with
       | None => e
       | Some contents => mk_CheatEngine (Some title_id) (LoadFile (Some contents))
       end.

Section engine.
Context {W : Type} `{!CheatSystem W}.

(* src: cheats.cpp | void CheatEngine::Connect( *)
Definition Connect (w : W) : W := sys_schedule run_interval_ticks w.

(** The enabled cheats, one after the other. *)
Fixpoint run_cheats (cheats : list GatewayCheat) (w : W) : option W :=
  match cheats with
  | [] => Some w
  | c :: cheats => w ← (if IsEnabled c then Execute (cheat_lines c) w else Some w); run_cheats cheats w
  end.

(* src: cheats.cpp | void CheatEngine::RunCallback( *)
Definition RunCallback e (cycles_late : Z) (w : W) : option W :=
  w ← run_cheats (cheats_list e) w;
  Some (sys_schedule (s64 (u64 (run_interval_ticks - cycles_late))) w).
End engine.

(** * The text of cheats: a line in the usual form is read as what it says, and a list of cheats
    that is saved is loaded again. *)

(** * Lines *)

(** Sixteen digits in the form the lines are written. *)
Definition hex_char (d : Z) : ascii := ascii_of_nat (Z.to_nat (if d <? 10 then 48 + d else 55 + d)).
Fixpoint hex_text (n : nat) (w : Z) : text :=
  match n with O => [] | S n => hex_char (w ≫ (4 * Z.of_nat n) .& 15) :: hex_text n w end.
Definition hex_line (f : Z) (separator : ascii) (v : Z) : text := hex_text 8 f ++ separator :: hex_text 8 v.

Lemma hex_digit_char d : 0 <= d < 16 -> hex_digit (hex_char d) = Some d.
Proof.
  intros H. assert (E : d ∈ seqZ 0 16) by (apply elem_of_seqZ; lia). clear H. revert d E. apply Forall_forall. by_decide.
Qed.
Lemma nibble w n : 0 <= n -> w ≫ n .& 15 = w / 2 ^ n mod 16.
Proof. intros H. rewrite shiftr_div by done. exact (land_mask _ 4 ltac:(done)). Qed.

Lemma digits_hex n w acc : 0 <= w -> digits_value acc (hex_text n w) = acc * 16 ^ Z.of_nat n + w mod 16 ^ Z.of_nat n.
Proof.
  intros W. revert acc. induction n as [|n IH]; intros acc; cbn [hex_text digits_value].
  - rewrite Z.mod_1_r. lia.
  - rewrite nibble, hex_digit_char, IH by (try apply Z.mod_pos_bound; lia).
    rewrite Nat2Z.inj_succ, Z.pow_succ_r, Z.pow_mul_r by lia. change (2 ^ 4) with 16. set (m := 16 ^ Z.of_nat n).
    assert (0 < m) by (unfold m; lia). replace (16 * m) with (m * 16) by lia. rewrite Z.rem_mul_r by lia. lia.
Qed.

Lemma hex_char_class d : 0 <= d < 16 ->
  is_space (hex_char d) = false ∧ hex_char d ∉ ["-"; "+"; "x"; "X"]%char.
Proof.
  intros H. assert (E : d ∈ seqZ 0 16) by (apply elem_of_seqZ; lia). clear H. revert d E. apply Forall_forall. by_decide.
Qed.

Lemma skip_prefix_digits c l : match l with c' :: _ => c' ∉ ["x"; "X"]%char | [] => True end -> skip_prefix (c :: l) = c :: l.
Proof.
  destruct l as [|c' l]; intros H; destruct c as [[] [] [] [] [] [] [] []]; try done.
  unfold skip_prefix. by rewrite bool_decide_eq_false_2.
Qed.

Lemma stol16_digits c l : is_Some (hex_digit c) -> is_space c = false -> c ∉ ["-"; "+"]%char ->
  match l with c' :: _ => c' ∉ ["x"; "X"]%char | [] => True end -> stol16 (c :: l) = Some (digits_value 0 (c :: l)).
Proof.
  intros D Sp Sg X. unfold stol16. cbn [drop_while]. rewrite Sp.
  transitivity (let l := skip_prefix (c :: l) in if starts_number l then Some (digits_value 0 l) else None).
  - destruct c as [[] [] [] [] [] [] [] []]; try done; exfalso; apply Sg; set_solver.
  - rewrite skip_prefix_digits by done. cbn [starts_number]. by rewrite bool_decide_eq_true_2.
Qed.

(** The value of a line of digits. *)
Lemma stol16_hex n w : 0 <= w -> (0 < n)%nat -> stol16 (hex_text n w) = Some (w mod 16 ^ Z.of_nat n).
Proof.
  intros W N. destruct n as [|n]; [lia|]. rewrite <- (Z.add_0_l (w mod _)). 
  change (0 + w mod 16 ^ Z.of_nat (S n)) with (0 * 16 ^ Z.of_nat (S n) + w mod 16 ^ Z.of_nat (S n)).
  rewrite <- digits_hex by done. cbn [hex_text].
  assert (B : ∀ k, 0 <= k -> 0 <= w ≫ k .& 15 < 16) by (intros; rewrite nibble by done; apply Z.mod_pos_bound; lia).
  destruct (hex_char_class _ (B (4 * Z.of_nat n) ltac:(lia))) as [Sp X]. apply stol16_digits.
  - rewrite hex_digit_char by (apply B; lia). done.
  - done.
  - set_solver.
  - destruct n as [|n]; [done|]. cbn [hex_text]. destruct (hex_char_class _ (B (4 * Z.of_nat n) ltac:(lia))) as [_ Y]. set_solver.
Qed.

Lemma length_hex_text n w : length (hex_text n w) = n.
Proof. induction n; cbn; congruence. Qed.

(** The type a word begins with: its first digit, or its first two after a [D]. *)
Definition line_type (f : Z) : Z := if f ≫ 28 =? 13 then f ≫ 24 else f ≫ 28.

Lemma hex_char_D d : 0 <= d < 16 -> hex_char d = "D"%char ∨ hex_char d = "d"%char <-> d = 13.
Proof.
  intros H. assert (E : d ∈ seqZ 0 16) by (apply elem_of_seqZ; lia). clear H. revert d E. apply Forall_forall. by_decide.
Qed.

(** A line of eight digits, any character and eight digits is read as the
    operation of its first digit, or of its first two when it begins with [D], on
    the address in the other digits of the first word and the value in the second. *)
Theorem CheatLine_reads f separator v : in_range 32 f -> in_range 32 v ->
  CheatLine_of (hex_line f separator v) =
    mk_CheatLine (line_type f) (f .& 0x0FFFFFFF) v f (hex_line f separator v) true.
Proof.
  intros Hf Hv. unfold CheatLine_of.
  assert (L : length (hex_line f separator v) = 17%nat) by (unfold hex_line; by rewrite length_app; cbn [length]; rewrite !length_hex_text).
  assert (T1 : take 8 (hex_line f separator v) = hex_text 8 f) by done.
  assert (T2 : take 8 (drop 9 (hex_line f separator v)) = hex_text 8 v) by done.
  rewrite decide_True, T1, T2, !stol16_hex by (done || apply Hf || apply Hv || lia).
  change (16 ^ Z.of_nat 8) with (2 ^ 32). rewrite !Z.mod_small by (apply Hf || apply Hv). rewrite !uwrap_id by done.
  set (t := f ≫ 28). assert (Ht : 0 <= t < 16) by (unfold t, in_range in *; rewrite shiftr_div by done; modlia).
  assert (T0 : take 1 (hex_line f separator v) = [hex_char t]).
  { unfold hex_line. cbn [hex_text app take]. do 2 f_equal. change (4 * Z.of_nat 7) with 28. fold t.
    etrans; [exact (land_mask t 4 ltac:(done))|by apply Z.mod_small]. }
  assert (T3 : take 1 (drop 1 (hex_line f separator v)) = [hex_char (f ≫ 24 .& 15)]) by done.
  rewrite T0, T3. unfold line_type. fold t. destruct (decide _) as [E|E].
  - assert (Ed : t = 13) by (apply hex_char_D; [done|]; destruct E as [E|E]; injection E; auto).
    assert (E2 : hex_text 2 (f ≫ 24) = [hex_char t] ++ [hex_char (f ≫ 24 .& 15)]).
    { cbn [hex_text app]. change (4 * Z.of_nat 1) with 4. change (4 * Z.of_nat 0) with 0.
      rewrite Z.shiftr_shiftr, Z.shiftr_0_r by done. change (f ≫ (24 + 4)) with t. do 2 f_equal.
      etrans; [exact (land_mask t 4 ltac:(done))|by apply Z.mod_small]. }
    rewrite <- E2. rewrite stol16_hex, Ed by (try lia; apply Z.shiftr_nonneg, Hf). cbn [Z.eqb Pos.eqb]. f_equal.
    apply Z.mod_small. unfold in_range in Hf. rewrite shiftr_div by done. change (16 ^ Z.of_nat 2) with 256. modlia.
  - assert (Ed : t ≠ 13).
    { intros Ed. apply E. rewrite Ed. by left. }
    rewrite (proj2 (Z.eqb_neq _ _) Ed), app_nil_r.
    assert (E1 : hex_text 1 t = [hex_char t]).
    { cbn [hex_text]. change (4 * Z.of_nat 0) with 0. rewrite Z.shiftr_0_r. do 2 f_equal.
      etrans; [exact (land_mask t 4 ltac:(done))|by apply Z.mod_small]. }
    rewrite <- E1. rewrite stol16_hex by lia. f_equal. by apply Z.mod_small.
Qed.

(** * Files *)

(** A text made of lines. *)
Definition unlines (ls : list text) : text := concat ((fun l => l ++ [newline]) <$> ls).

Lemma unlines_app a b : unlines (a ++ b) = unlines a ++ unlines b.
Proof. unfold unlines. by rewrite fmap_app, concat_app. Qed.

Lemma split_at_nonempty d l : split_at d l ≠ [].
Proof. induction l as [|c l IH]; [done|]. cbn. destruct (split_at d l); [done|]. by destruct (decide _). Qed.

Lemma split_at_line d l rest : d ∉ l -> split_at d (l ++ [d] ++ rest) = l :: split_at d rest.
Proof.
  induction l as [|c l IH]; intros N; cbn [app split_at].
  - cbn. destruct (split_at d rest) eqn:E; [by apply split_at_nonempty in E|]. by rewrite decide_True.
  - apply not_elem_of_cons in N as [N1 N2]. cbn [app] in IH. rewrite IH by done. by rewrite decide_False.
Qed.

Lemma split_unlines ls rest : Forall (fun l => newline ∉ l) ls ->
  split_at newline (unlines ls ++ rest) = ls ++ split_at newline rest.
Proof.
  induction 1 as [|l ls N _ IH]; [done|]. change (unlines (l :: ls)) with ((l ++ [newline]) ++ unlines ls).
  rewrite <- !app_assoc, split_at_line, IH by done. done.
Qed.

Lemma SplitString_unlines ls : Forall (fun l => newline ∉ l) ls -> SplitString (unlines ls) newline = ls.
Proof.
  intros N. unfold SplitString. rewrite <- (app_nil_r (unlines ls)), split_unlines by done. cbn [split_at].
  rewrite last_snoc. apply removelast_last.
Qed.

(** A line that cleaning does not change. *)
Record tidy (l : text) : Prop := mk_tidy {
  tidy_newline : newline ∉ l;
  tidy_zero : zero ∉ l;
  tidy_head c : head l = Some c -> is_blank c = false;
  tidy_last c : last l = Some c -> is_blank c = false
}.

Lemma drop_while_head f l : (∀ c, head l = Some c -> f c = false) -> drop_while f l = l.
Proof. destruct l as [|c l]; [done|]. intros H. cbn. by rewrite H. Qed.

Lemma filter_absent (z : ascii) (l : text) : z ∉ l -> filter (fun c => c ≠ z) l = l.
Proof.
  induction l as [|c l IH]; [done|]. intros [N1 N2]%not_elem_of_cons. rewrite filter_cons, decide_True by done. by rewrite IH.
Qed.

Lemma clean_tidy (l : text) : tidy l -> StripSpaces (filter (fun c => c ≠ zero) l) = l.
Proof.
  intros [_ Z H L]. rewrite filter_absent by done. unfold StripSpaces. rewrite (drop_while_head _ l) by done.
  rewrite drop_while_head; [apply reverse_involutive|]. intros c. rewrite head_reverse. apply L.
Qed.

(** ** What can be saved *)

Definition header_line (c : GatewayCheat) : text := ["["%char] ++ name c ++ ["]"%char].
Definition comment_line (l : text) : text := "*"%char :: l.

(** The text of a line of code is not taken for a header or a comment. *)
Record code_text (l : text) : Prop := mk_code_text {
  code_tidy : tidy l;
  code_some : l ≠ [];
  code_comment : head l ≠ Some "*"%char;
  code_header : (head l = Some "["%char) -> (l = ["["%char])
}.

(** A cheat with code, as [CheatLine] makes it, and comments that are lines. *)
Record savable (c : GatewayCheat) : Prop := mk_savable {
  sav_name : (newline ∉ name c) ∧ (zero ∉ name c);
  sav_comments : ∃ ls, comments c = unlines ls ∧
    Forall (fun l => tidy (comment_line l) ∧ comment_line l ≠ EnabledText) ls;
  sav_code : cheat_lines c ≠ [];
  sav_lines : Forall (fun l => code_text (cheat_line l) ∧ CheatLine_of (cheat_line l) = l) (cheat_lines c)
}.

Definition text_lines (c : GatewayCheat) : list text :=
  [header_line c] ++ (if enabled c then [EnabledText] else []) ++ (comment_line <$> SplitString (comments c) newline) ++
  (cheat_line <$> cheat_lines c) ++ [[]].

Lemma ToString_unlines c : ToString c = unlines (text_lines c).
Proof.
  unfold text_lines. rewrite !unlines_app. unfold ToString.
  assert (E1 : unlines [header_line c] = ["["%char] ++ name c ++ ["]"%char; newline]).
  { unfold unlines, header_line. cbn. by rewrite app_nil_r, <- app_assoc. }
  assert (E2 : unlines (if enabled c then [EnabledText] else []) = if enabled c then EnabledText ++ [newline] else []).
  { by destruct (enabled c). }
  rewrite E1, E2, <- !app_assoc. do 4 f_equal. f_equal; [|f_equal]; unfold unlines, GetCode; by rewrite <- list_fmap_compose.
Qed.

Lemma tidy_header c : savable c -> tidy (header_line c).
Proof.
  intros [[N Z] _ _ _]. unfold header_line. split; [| |by intros ? [= <-]|intros d; rewrite app_assoc, last_snoc; by intros [= <-]].
  all: rewrite !elem_of_app, !list_elem_of_singleton; intros [E|[E|E]]; done.
Qed.

Lemma no_newlines c : savable c -> Forall (fun l => newline ∉ l) (text_lines c).
Proof.
  intros Hc. pose proof (tidy_newline _ (tidy_header c Hc)) as Hh. destruct Hc as [N (ls & E & C) _ L]. unfold text_lines. rewrite E.
  rewrite SplitString_unlines.
  2:{ eapply Forall_impl; [exact C|]. intros l [T _]. apply tidy_newline in T. set_solver. }
  repeat apply Forall_app_2.
  - by repeat constructor.
  - destruct (enabled c); repeat constructor. by_decide.
  - apply Forall_fmap. eapply Forall_impl; [exact C|]. intros l [T _]. apply T.
  - apply Forall_fmap. eapply Forall_impl; [exact L|]. intros l [T _]. apply T.
  - repeat constructor. apply not_elem_of_nil.
Qed.

(** ** Loading one cheat *)

Lemma load_header s c : savable c -> (l_lines s = [] -> l_enabled s = false) ->
  load_line s (header_line c) = mk_Loading (finish_cheat s) [] [] (name c) false.
Proof.
  intros Hc En. unfold load_line. rewrite clean_tidy by (by apply tidy_header).
  replace (bool_decide (2 <= length (header_line c))%nat) with true
    by (symmetry; apply bool_decide_eq_true_2; unfold header_line; rewrite !length_app; cbn; lia).
  cbn [andb head header_line app]. rewrite bool_decide_eq_true_2 by done. cbn [andb]. f_equal.
  - unfold from_middle. cbn [length drop]. rewrite length_app. cbn [length].
    replace (S (length (name c) + 1) - 1 - 1)%nat with (length (name c)) by lia. apply take_app_length.
  - destruct (l_lines s); [by apply En|done].
Qed.

Lemma load_enabled s : load_line s EnabledText = s<|l_enabled := true|>.
Proof. reflexivity. Qed.

Lemma load_comment s l : tidy (comment_line l) -> comment_line l ≠ EnabledText ->
  load_line s (comment_line l) = s<|l_comments := l_comments s ++ l ++ [newline]|>.
Proof.
  intros T N. unfold load_line. rewrite clean_tidy by done. cbn [head comment_line].
  rewrite andb_false_intro2 by done. rewrite bool_decide_eq_true_2, decide_False by done.
  unfold from_middle, comment_line. cbn [length drop]. by rewrite drop_0, take_ge by lia.
Qed.

Lemma load_code s l : code_text (cheat_line l) -> CheatLine_of (cheat_line l) = l ->
  load_line s (cheat_line l) = s<|l_lines := l_lines s ++ [l]|>.
Proof.
  intros [T S C Hd] E. unfold load_line. rewrite clean_tidy by done. 
  replace (_ && _) with false.
  2:{ symmetry. apply andb_false_iff. destruct (decide (head (cheat_line l) = Some "["%char)) as [H|H].
      - left. by rewrite (Hd H).
      - right. by apply bool_decide_eq_false_2. }
  by rewrite bool_decide_eq_false_2, decide_False, E.
Qed.

Lemma load_blank s : load_line s [] = s.
Proof. reflexivity. Qed.

Lemma load_comments ls s : Forall (fun l => tidy (comment_line l) ∧ comment_line l ≠ EnabledText) ls ->
  foldl load_line s (comment_line <$> ls) = s<|l_comments := l_comments s ++ unlines ls|>.
Proof.
  intros H. revert s. induction H as [|l ls [T N] _ IH]; intros s; [destruct s; simpl; by rewrite app_nil_r|].
  cbn [fmap list_fmap foldl]. rewrite load_comment, IH by done. destruct s. simpl. unfold unlines. cbn. by rewrite <- !app_assoc.
Qed.

Lemma load_codes ls s : Forall (fun l => code_text (cheat_line l) ∧ CheatLine_of (cheat_line l) = l) ls ->
  foldl load_line s (cheat_line <$> ls) = s<|l_lines := l_lines s ++ ls|>.
Proof.
  intros H. revert s. induction H as [|l ls [T E] _ IH]; intros s; [destruct s; simpl; by rewrite app_nil_r|].
  cbn [fmap list_fmap foldl]. rewrite load_code, IH by done. destruct s. simpl. by rewrite <- !app_assoc.
Qed.

Lemma load_cheat s c : savable c -> (l_lines s = [] -> l_enabled s = false) ->
  foldl load_line s (text_lines c) = mk_Loading (finish_cheat s) (comments c) (cheat_lines c) (name c) (enabled c).
Proof.
  intros Hc En. pose proof Hc as [_ (ls & E & C) _ L]. unfold text_lines. rewrite E, SplitString_unlines.
  2:{ eapply Forall_impl; [exact C|]. intros l [T _]. apply tidy_newline in T. set_solver. }
  rewrite !foldl_app. cbn [foldl]. rewrite load_header by done.
  destruct (enabled c); cbn [foldl]; rewrite ?load_enabled, load_comments, load_codes by done; by rewrite load_blank.
Qed.

Lemma load_cheats cs s : Forall savable cs -> (l_lines s = [] -> l_enabled s = false) ->
  finish_cheat (foldl load_line s (concat (text_lines <$> cs))) = finish_cheat s ++ cs.
Proof.
  intros H. revert s. induction H as [|c cs Hc _ IH]; intros s En; [by rewrite app_nil_r|].
  cbn [fmap list_fmap concat]. rewrite foldl_app, load_cheat, IH by (done || intros E; by apply sav_code in Hc).
  unfold finish_cheat at 1. cbn [l_lines l_cheats l_enabled l_name l_comments]. destruct (cheat_lines c) eqn:E; [by apply sav_code in Hc|].
  rewrite <- E, <- app_assoc. by destruct c.
Qed.

Lemma save_unlines e : SaveCheatFile e = unlines (concat (text_lines <$> cheats_list e)).
Proof.
  unfold SaveCheatFile, GetCheats. induction (cheats_list e) as [|c cs IH]; [done|].
  cbn [fmap list_fmap concat]. rewrite unlines_app, ToString_unlines. by f_equal.
Qed.

