(* ===== verification/CheatExamples.v ===== *)
(** Memories for the interpreter of cheat codes, and cheats that run on them: the
    memory system of the emulator in a range of mapped pages, and a flat memory that
    every access reaches. *)

From Stdlib Require Import Ascii String.
From S2P Require Import Prelude Memory MemoryFacts MemoryExamples MemoryBus Cheats CheatFacts CheatFile.

Lemma le_split_nth n v i : (i < n)%nat -> le_split n v !!! i = u8 (v ≫ (8 * Z.of_nat i)).
Proof.
  revert v i. induction n as [|n IH]; intros v [|i] L; [lia|lia| |].
  - cbn [le_split]. by rewrite Z.shiftr_0_r.
  - cbn [le_split]. etrans; [apply IH; lia|]. rewrite <- (shiftr_div v 8), Z.shiftr_shiftr by lia. do 2 f_equal. lia.
Qed.

Lemma byte_at_written m b o n v x : byte_at (put_at m b o (le_split n v)) b x =
  if (o <=? x) && (x <? o + Z.of_nat n) then u8 (v ≫ (8 * (x - o))) else byte_at m b x.
Proof.
  rewrite byte_at_put, length_le_split. destruct (decide _) as [[_ L]|N].
  - replace (_ && _) with true by lia. rewrite le_split_nth, Z2Nat.id by lia. done.
  - destruct (_ && _) eqn:E; [|done]. destruct N. split; [done|lia].
Qed.

#[local] Arguments load : simpl never.
#[local] Arguments ptr_add : simpl never.
#[local] Arguments store : simpl never.
#[local] Arguments le_combine : simpl never.
#[local] Arguments le_split : simpl never.

(** * A flat memory *)

Record Flat := mk_Flat { flat_bytes : Bytes; flat_pad : Z; flat_due : list Z }.
#[export] Instance flat_system : CheatSystem Flat := {|
  sys_read n a w := Some (le_combine (bytes_at (flat_bytes w) FCRAM a n), w);
  sys_write n a v w := Some (w<|flat_bytes := put_at (flat_bytes w) FCRAM a (le_split n v)|>);
  sys_invalidate _ _ w := w;
  sys_pad := flat_pad;
  sys_schedule t w := w<|flat_due := t :: flat_due w|>
|}.
Definition flat_byte (w : Flat) (x : Z) : Z := byte_at (flat_bytes w) FCRAM x.
#[export] Instance flat_ram : CheatRam (fun _ : Flat => True) (fun _ _ => True) flat_byte.
Proof.
  split.
  - intros n a w _ _. by eexists _, _.
  - intros n a v w _ _. eexists. split; [done|]. split; [done|]. intros x. destruct w. apply byte_at_written.
  - by intros a n w _.
Qed.

(** * The memory system *)

Record CheatHost := mk_CheatHost { host_memory : MemorySystem; host_pad : Z; host_due : list Z }.
#[export] Instance host_system `{gpu : GPU} : CheatSystem CheatHost := {|
  sys_read n a w := '(v, ms) ← Read (host_memory w) n a; Some (v, w<|host_memory := ms|>);
  sys_write n a v w := ms ← Write (host_memory w) n a v; Some (w<|host_memory := ms|>);
  sys_invalidate _ _ w := w;
  sys_pad := host_pad;
  sys_schedule t w := w<|host_due := t :: host_due w|>
|}.

(** The range lies in mapped pages of the current table that show different host
    memory. *)
Record pages_ok (t : nat) (lo hi : Z) ms : Prop := mk_pages_ok {
  pages_table : current_page_table ms = Some t;
  pages_mapped a : lo <= a < hi -> ∃ b o, host_word ms t a = Some (b, o) ∧ in_block b o 1 = true;
  pages_apart a a' c : lo <= a < hi -> lo <= a' < hi -> host_word ms t a = Some c -> host_word ms t a' = Some c -> a = a'
}.

Section host.
Context `{gpu : GPU} (t : nat) (lo hi : Z).

Definition host_byte (w : CheatHost) (x : Z) : Z :=
  if (lo <=? x) && (x <? hi) then
    match host_word (host_memory w) t x with Some (b, o) => byte_at (bytes (host_memory w)) b o | None => 0 end
  else 0.
(** An access within one page of the range. *)
Definition within (n : nat) (a : Z) : Prop :=
  (0 < n)%nat ∧ lo <= a ∧ a + Z.of_nat n <= hi ∧ a mod CITRA_PAGE_SIZE + Z.of_nat n <= CITRA_PAGE_SIZE.

Lemma host_word_add ms a i : a mod CITRA_PAGE_SIZE + i < CITRA_PAGE_SIZE -> 0 <= i ->
  host_word ms t (a + i) = ptr_add (host_word ms t a) i.
Proof.
  unfold host_word, CITRA_PAGE_SIZE. intros L I. replace ((a + i) / 4096) with (a / 4096) by modlia.
  replace ((a + i) mod 4096) with (a mod 4096 + i) by modlia. destruct (GetPtr _) as [[b o]|]; [|done].
  unfold ptr_add. cbn. do 2 f_equal. lia.
Qed.

Lemma within_host ms n a : pages_ok t lo hi ms -> within n a ->
  ∃ b o, host_word ms t a = Some (b, o) ∧ in_block b o n = true ∧
    ∀ i, 0 <= i < Z.of_nat n -> host_word ms t (a + i) = Some (b, o + i).
Proof.
  intros Hp (N & L & E & P). destruct (pages_mapped _ _ _ _ Hp a ltac:(lia)) as (b & o & Ea & B).
  assert (Ei : ∀ i, 0 <= i < Z.of_nat n -> host_word ms t (a + i) = Some (b, o + i)).
  { intros i I. rewrite host_word_add, Ea by lia. done. }
  exists b, o. split; [done|]. split; [|done]. destruct (pages_mapped _ _ _ _ Hp (a + (Z.of_nat n - 1)) ltac:(lia)) as (b' & o' & E' & B').
  rewrite Ei in E' by lia. injection E' as <- <-. apply in_block_spec in B, B'. apply in_block_spec. lia.
Qed.

#[export] Instance host_ram : CheatRam (fun w => pages_ok t lo hi (host_memory w)) within host_byte.
Proof.
  split.
  - intros n a [ms pad due] Hp O. simpl in Hp. destruct (within_host ms n a Hp O) as (b & o & E & B & _).
    destruct (host_word_page t ms a b o (pages_table _ _ _ _ Hp) E) as (E1 & p & E2 & E3).
    exists (le_combine (bytes_at (bytes ms) b o n)), (mk_CheatHost ms pad due). split; [|done].
    cbn. unfold Read. rewrite E1. cbn. rewrite E2, E3. unfold load. cbn [mbind option_bind]. by rewrite B.
  - intros n a v [ms pad due] Hp O. simpl in Hp. destruct (within_host ms n a Hp O) as (b & o & E & B & Ei).
    destruct (host_word_page t ms a b o (pages_table _ _ _ _ Hp) E) as (E1 & p & E2 & E3).
    exists (mk_CheatHost (set_bytes ms (put_at (bytes ms) b o (le_split n v))) pad due). split; [|split].
    + cbn. unfold Write. rewrite E1. cbn. rewrite E2, E3. unfold store. cbn [mbind option_bind]. by rewrite length_le_split, B.
    + by destruct Hp.
    + intros x. unfold host_byte. simpl. destruct ((lo <=? x) && (x <? hi)) eqn:X.
      2:{ destruct ((a <=? x) && _) eqn:Y; [|done]. destruct O as (? & ? & ? & ?). exfalso. lia. }
      destruct (host_word _ t x) as [[b' o']|] eqn:Ex.
      2:{ destruct (pages_mapped _ _ _ _ Hp x ltac:(lia)) as (? & ? & C & _). by rewrite host_word_set, C in Ex. }
      rewrite host_word_set in Ex. destruct ((a <=? x) && (x <? a + Z.of_nat n)) eqn:Y.
      * replace x with (a + (x - a)) in Ex by lia. rewrite Ei in Ex by lia. injection Ex as <- <-.
        cbn [bytes set_bytes]. rewrite byte_at_written. replace (_ && _) with true by lia. do 3 f_equal. lia.
      * cbn [bytes set_bytes]. rewrite byte_at_put, length_le_split. destruct (decide _) as [[-> L]|]; [|done]. exfalso.
        assert (x = a + (o' - o)); [|lia]. destruct O as (N & L1 & L2 & _).
        apply (pages_apart _ _ _ _ Hp _ _ (b, o')); [lia|lia|done|]. rewrite Ei by lia. do 2 f_equal. lia.
  - by intros a n w Hp.
Qed.
End host.

(** * Cheats *)

Definition code (ls : list string) : list CheatLine := CheatLine_of <$> (txt <$> ls).
Definition empty_flat : Flat := mk_Flat ∅ 0 [].
Definition flat_words (w : Flat) (a : Z) (n : nat) : list Z :=
  (fun i => le_combine (bytes_at (flat_bytes w) FCRAM (a + 4 * Z.of_nat i) 4)) <$> seq 0 n.

(** Four words from 0x100, counted by a loop of three rounds. *)
Definition counting : list CheatLine :=
  code ["D5000000 00000007"; "C0000000 00000003"; "D6000000 00000100"; "D4000000 00000001"; "D1000000 00000000"]%string.

Lemma counting_ok : cheat_ok counting ∧ plain_loops counting ∧ patches_complete counting.
Proof.
  split; [|split].
  - constructor; by_decide.
  - left. by_decide.
  - intros i l E T. exfalso. apply list_elem_of_lookup_2 in E. revert T. revert l E.
    apply (proj1 (Forall_forall (fun l => cheat_type (type l) ≠ Some Patch) counting)). by_decide.
Qed.


(** The block of a loop is executed once more than its value says. *)
Example loop_once_more :
  (fun w => flat_words w 0x100 5) <$> Execute counting empty_flat = Some [7; 8; 9; 10; 0].
Proof. vm_compute. reflexivity. Qed.

(** A condition that fails in a loop that ends with [D2]: the loop goes back with
    the failed condition counted, its first line is skipped, and no round is. *)
Definition failing_loop : list CheatLine :=
  code ["C0000000 00000002"; "50000100 00000001"; "D2000000 00000000"]%string.
Example failing_loop_goes_on :
  match loop 10 (turn failing_loop) (initial_state, empty_flat) with
  | inl (s, _) => loop_count s = 1 ∧ if_flag s = 341 ∧ loop_flag s = true
  | inr _ => False
  end.
Proof. vm_compute. done. Qed.

(** The mark of a section without code enables the cheat after it. *)
Example enabled_of_the_last :
  (fun c => (enabled c, name c)) <$> LoadFile (Some (unlines (txt <$> ["[a]"; "*citra_enabled"; "[b]"; "00000100 00000001"]%string)))
  = [(true, txt "b")].
Proof. vm_compute. reflexivity. Qed.

(** ** A patch of ten bytes in the second page *)

Definition patch : list CheatLine :=
  code ["E8001010 0000000A"; "03020100 07060504"; "0B0A0908 00000000"]%string.
Definition demo_host : CheatHost := mk_CheatHost demo_memory 0 [].

Lemma demo_pages : pages_ok 0 0x8001000 0x8002000 demo_memory.
Proof.
  assert (H : ∀ a, 0x8001000 <= a < 0x8002000 -> host_word demo_memory 0 a = Some (FCRAM, a - 0x8000000)).
  { intros a Ha. unfold host_word. replace (a / CITRA_PAGE_SIZE) with 0x8001 by (unfold CITRA_PAGE_SIZE; modlia).
    change (GetPtr _) with (Some (FCRAM, 0x1000)). unfold ptr_add. cbn. do 2 f_equal. unfold CITRA_PAGE_SIZE. modlia. }
  constructor; [done| |].
  - intros a Ha. exists FCRAM, (a - 0x8000000). split; [by apply H|]. apply in_block_spec.
    change (0 <= a - 0x8000000 ∧ a - 0x8000000 + 1 <= 0x10000000). lia.
  - intros a a' c Ha Ha'. rewrite !H by done. intros [= <-] [= E]. lia.
Qed.

Lemma PatchOp_correct_witness :
  ∃ w', PatchOp patch (hd (invalid_line []) patch) initial_state demo_host =
          Some (initial_state<|current_line_nr := 2|>, w') ∧
        (fun i => host_byte 0 0x8001000 0x8002000 w' (0x800100F + Z.of_nat i)) <$> seq 0 12 = [0; 0; 1; 2; 3; 4; 5; 6; 7; 8; 9; 0].
Proof.
  destruct (PatchOp_correct (R := fun w => pages_ok 0 0x8001000 0x8002000 (host_memory w)) patch (hd (invalid_line []) patch)
    initial_state demo_host demo_pages) as [_ P]; [by_decide|done|].
  destruct P as (w' & E & _ & B); [reflexivity| | |].
  - intros k Hk. apply lookup_lt_is_Some_2. change (length patch) with 3%nat. change (value _) with 10 in Hk. cbn. modlia.
  - intros k Hk. change (value _) with 10 in Hk. change (u32 (address _ + _)) with 0x8001010.
    rewrite uwrap_id by (unfold in_range; lia). unfold within, CITRA_PAGE_SIZE. split; [|intros _ L]; modlia.
  - exists w'. split; [exact E|]. etrans; [apply list_fmap_ext; intros i x _; apply B; vm_compute; discriminate|].
    vm_compute. reflexivity.
Defined.

(** ** Text *)

Lemma CheatLine_reads_witness :
  CheatLine_of (txt "DD000000 00000003") = mk_CheatLine 0xDD 0x0D000000 3 0xDD000000 (txt "DD000000 00000003") true.
Proof. exact (CheatLine_reads 0xDD000000 " "%char 3 ltac:(by_decide) ltac:(by_decide)). Defined.

(** Signs, prefixes and short numbers are read as the standard library reads them;
    a [D] before another character is no operation. *)
Example lines_read :
  (fun l => (type (CheatLine_of (txt l)), value (CheatLine_of (txt l)), valid (CheatLine_of (txt l)))) <$>
    ["00000010 -0000001"; "1000 0 0 0x00001Z"; "DZ000000 00000001"; "G0000000 00000001"; "00000010 0000001"]%string
  = [(0, 0xFFFFFFFF, true); (1, 1, true); (13, 1, true); (-1, 0, false); (-1, 0, false)].
Proof. vm_compute. reflexivity. Qed.

Definition two_cheats : CheatEngine := mk_CheatEngine None
  [mk_GatewayCheat true (txt "money") (code ["00000100 00000001"; "D2000000 00000000"]%string) (unlines (txt <$> ["one"; ""; " two"]%string));
   mk_GatewayCheat false (txt "lives [2]") counting []].

#[local] Instance tidy_dec l : Decision (tidy l).
Proof.
  refine (cast_if (decide ((newline ∉ l) ∧ (zero ∉ l) ∧ from_option is_blank false (head l) = false ∧
    from_option is_blank false (last l) = false))).
  - abstract (destruct a as (A & B & C & D); split; [done|done|by intros c E; rewrite E in C|by intros c E; rewrite E in D]).
  - abstract (intros [A B C D]; apply n; split_and!; [done|done| |]; [destruct (head l) eqn:E; [by apply C|done]|destruct (last l) eqn:E; [by apply D|done]]).
Defined.

Lemma two_cheats_savable : Forall savable (cheats_list two_cheats).
Proof.
  assert (L : ∀ ls, Forall (fun l => tidy l ∧ l ≠ [] ∧ head l ≠ Some "*"%char ∧ head l ≠ Some "["%char ∧ cheat_line (CheatLine_of l) = l) ls ->
    Forall (fun l => code_text (cheat_line l) ∧ CheatLine_of (cheat_line l) = l) (CheatLine_of <$> ls)).
  { intros ls H. apply Forall_fmap. eapply Forall_impl; [exact H|]. intros l (A & B & C & D & E).
    unfold compose. rewrite E. by split. }
  constructor; [|constructor; [|constructor]]; (split; [by_decide| |done|apply L; by_decide]).
  - exists (txt <$> ["one"; ""; " two"]%string). split; [done|]. by_decide.
  - by exists [].
Qed.


(** The engine runs the enabled cheats and is due again an interval after it was. *)
Example run_two_cheats :
  (fun w => (flat_words w 0x100 2, flat_due w)) <$> RunCallback two_cheats 100 empty_flat = Some ([1; 0], [49999900]).
Proof. vm_compute. reflexivity. Qed.
