(* ===== verification/Patch.v ===== *)
(** Patches of a program's code, [core/file_sys/patch.cpp]: the IPS and BPS
    formats.  Files and buffers are lists of bytes; a read or a write outside of one,
    which the code does not always prevent, is [None]. *)

From Stdlib Require Import String Ascii.
From S2P Require Import Prelude.

Definition char_bytes (s : string) : list Z := (fun c => Z.of_N (N_of_ascii c)) <$> list_ascii_of_string s.
Definition size_of (l : list Z) : Z := Z.of_nat (List.length l).

(** The [n] bytes at [i]. *)
Definition slice (l : list Z) (i n : Z) : option (list Z) :=
  if (0 <=? i) && (i + n <=? size_of l) then Some (take (Z.to_nat n) (drop (Z.to_nat i) l)) else None.
(** [memcpy] into a buffer: the range is inside of it. *)
Definition overwrite (l : list Z) (i : Z) (bs : list Z) : list Z := list_inserts (Z.to_nat i) bs l.

(** * IPS *)

Definition be_combine (bs : list Z) : Z := foldl (fun acc b => acc ≪ 8 .| b) 0 bs.

(* src: file_sys/patch.cpp | while (cursor < patch_length) { | ApplyIpsPatch *)
Fixpoint ips_records (fuel : nat) (ips : list Z) (cursor patch_length : Z) (buffer : list Z) : option (bool * list Z) :=
  match fuel with
  | O => None
  | S fuel =>
      if cursor <? patch_length then
        eof_check ← slice ips cursor 3;
        if decide (eof_check = char_bytes "EOF") then Some (false, buffer) else
        let offset := be_combine eof_check in
        length ← be_combine <$> slice ips (cursor + 3) 2;
        if length =? 0 then
          length ← be_combine <$> slice ips (cursor + 5) 2;
          if size_of buffer <? offset + length then Some (false, buffer)
          else if length =? 0 then ips_records fuel ips (cursor + 8) patch_length buffer
          else
            value ← slice ips (cursor + 7) 1;
            ips_records fuel ips (cursor + 8) patch_length
              (overwrite buffer offset (replicate (Z.to_nat length) (hd 0 value)))
        else if size_of buffer <? offset + length then Some (false, buffer)
        else
          data ← slice ips (cursor + 5) length;
          ips_records fuel ips (cursor + length + 5) patch_length (overwrite buffer offset data)
      else Some (true, buffer)
  end.

(* src: file_sys/patch.cpp | bool ApplyIpsPatch(const std::vector<u8>& ips, std::vector<u8>& buffer) { *)
Definition ApplyIpsPatch (ips buffer : list Z) : option (bool * list Z) :=
  let patch_length := u64 (size_of ips - 3) in
  ips_header ← slice ips 0 5;
  if decide (ips_header = char_bytes "PATCH")
  then ips_records (S (List.length ips)) ips 5 patch_length buffer else Some (false, buffer).

(** * BPS *)

Module Bps.

(* src: file_sys/patch.cpp | constexpr std::size_t MagicSize = 4; *)
Definition MagicSize : Z := 4.
(* src: file_sys/patch.cpp | constexpr std::size_t FooterSize = 12; *)
Definition FooterSize : Z := 12.

(* src: file_sys/patch.cpp | T* m_ptr = nullptr; | Stream | +3 *)
Record Stream := mk_Stream { m_ptr : list Z; m_offset : Z }.
Definition m_size (s : Stream) : Z := size_of (m_ptr s).
Implicit Types (s : Stream).

(** What is read and the stream behind it; [None] when there is not enough. *)
(* src: file_sys/patch.cpp | bool Read(void* buffer, std::size_t length) { | Stream::Read *)
Definition Read s (length : Z) : option (list Z * Stream) :=
  if m_size s <? u64 (m_offset s + length) then None
  else Some (take (Z.to_nat length) (drop (Z.to_nat (m_offset s)) (m_ptr s)), s<|m_offset := u64 (m_offset s + length)|>).

(* src: file_sys/patch.cpp | bool Seek(std::size_t offset) { | Stream::Seek *)
Definition Seek s (offset : Z) : bool * Stream :=
  if m_size s <? offset then (false, s) else (true, s<|m_offset := offset|>).

(** The destination, then the source; what failed leaves both. *)
(* src: file_sys/patch.cpp | bool CopyFrom(Stream<OtherType>& other, std::size_t length) { | Stream::CopyFrom *)
Definition CopyFrom s (other : Stream) (length : Z) : bool * Stream * Stream :=
  if m_size s <? u64 (m_offset s + length) then (false, s, other)
  else match Read other length with
       | None => (false, s, other)
       | Some (bs, other) =>
           (true, mk_Stream (overwrite (m_ptr s) (m_offset s) bs) (u64 (m_offset s + length)), other)
       end.

(** Over the bytes that are left; the end of the stream ends a number. *)
(* src: file_sys/patch.cpp | while ((x = Read<u8>())) { | Stream::ReadNumber | +7 *)
Fixpoint read_number (rest : list Z) (data shift : Z) : Z * list Z :=
  match rest with
  | [] => (data, [])
  | x :: rest =>
      let data := u32 (data + u32 ((x .& 0x7f) * shift)) in
      if nz (x .& 0x80) then (data, rest)
      else let shift := u32 (shift ≪ 7) in read_number rest (u32 (data + shift)) shift
  end.

(* src: file_sys/patch.cpp | Number ReadNumber() { | Stream::ReadNumber *)
Definition ReadNumber s : Z * Stream :=
  let '(data, rest) := read_number (drop (Z.to_nat (m_offset s)) (m_ptr s)) 0 1 in
  (data, s<|m_offset := m_size s - size_of rest|>).

(** ** The commands *)

(* src: file_sys/patch.cpp | std::size_t m_source_relative_offset = 0; | PatchApplier | +5 *)
Record PatchApplier := mk_PatchApplier {
  m_source_relative_offset : Z;
  m_target_relative_offset : Z;
  m_source : Stream;
  m_target : Stream;
  m_patch : Stream
}.
Implicit Types (a : PatchApplier).

(** [CopyFrom] into the target. *)
Definition to_target a (r : bool * Stream * Stream) (put_back : Stream -> PatchApplier -> PatchApplier) : bool * PatchApplier :=
  let '(ok, target, other) := r in (ok, put_back other (a<|m_target := target|>)).

(* src: file_sys/patch.cpp | bool SourceRead(Number length) { | SourceRead *)
Definition SourceRead a (length : Z) : bool * PatchApplier :=
  let '(ok, source) := Seek (m_source a) (m_offset (m_target a)) in
  if ok then to_target a (CopyFrom (m_target a) source length) (fun s a => a<|m_source := s|>)
  else (false, a<|m_source := source|>).

(* src: file_sys/patch.cpp | bool TargetRead(Number length) { | TargetRead *)
Definition TargetRead a (length : Z) : bool * PatchApplier :=
  to_target a (CopyFrom (m_target a) (m_patch a) length) (fun s a => a<|m_patch := s|>).

(** [(data & 1 ? -1 : +1) * int(data >> 1)], added to an offset. *)
(* src: file_sys/patch.cpp | m_source_relative_offset += (data & 1 ? -1 : +1) * int(data >> 1); | SourceCopy *)
Definition move_offset (offset data : Z) : Z := u64 (offset + s32 ((if nz (data .& 1) then -1 else 1) * s32 (data ≫ 1))).

(* src: file_sys/patch.cpp | bool SourceCopy(Number length) { | SourceCopy *)
Definition SourceCopy a (length : Z) : bool * PatchApplier :=
  let '(data, patch) := ReadNumber (m_patch a) in
  let offset := move_offset (m_source_relative_offset a) data in
  let a := a<|m_patch := patch|><|m_source_relative_offset := offset|> in
  let '(ok, source) := Seek (m_source a) offset in
  if ok then
    let '(ok, a) := to_target a (CopyFrom (m_target a) source length) (fun s a => a<|m_source := s|>) in
    if ok then (true, a<|m_source_relative_offset := u64 (offset + length)|>) else (false, a)
  else (false, a).

(** The copy byte by byte, which may overlap: the bytes and the offset behind. *)
(* src: file_sys/patch.cpp | for (std::size_t i = 0; i < length; ++i) | TargetCopy | +2 *)
Fixpoint copy_within (n : nat) (bs : list Z) (tell offset : Z) : option (list Z * Z) :=
  match n with
  | O => Some (bs, offset)
  | S n =>
      x ← slice bs offset 1;
      copy_within n (overwrite bs tell x) (tell + 1) (u64 (offset + 1))
  end.

(* src: file_sys/patch.cpp | bool TargetCopy(Number length) { | TargetCopy *)
Definition TargetCopy a (length : Z) : option (bool * PatchApplier) :=
  let '(data, patch) := ReadNumber (m_patch a) in
  let offset := move_offset (m_target_relative_offset a) data in
  let a := a<|m_patch := patch|><|m_target_relative_offset := offset|> in
  let target := m_target a in
  if m_size target <? u64 (m_offset target + length) then Some (false, a)
  else if m_size target <? u64 (offset + length) then Some (false, a)
  else
    '(bs, offset) ← copy_within (Z.to_nat length) (m_ptr target) (m_offset target) offset;
    let '(_, target) := Seek (mk_Stream bs (m_offset target)) (u64 (m_offset target + length)) in
    Some (true, a<|m_target_relative_offset := offset|><|m_target := target|>).

(* src: file_sys/patch.cpp | bool HandleCommand() { | HandleCommand *)
Definition HandleCommand a : option (bool * PatchApplier) :=
  let '(data, patch) := ReadNumber (m_patch a) in
  let a := a<|m_patch := patch|> in
  let command := data .& 3 in
  let length := u32 ((data ≫ 2) + 1) in
  if command =? 0 then Some (SourceRead a length)
  else if command =? 1 then Some (TargetRead a length)
  else if command =? 2 then Some (SourceCopy a length)
  else TargetCopy a length.

(* src: file_sys/patch.cpp | while (m_patch.Tell() < command_end_offset) { | Apply *)
Fixpoint handle_commands (fuel : nat) (command_end_offset : Z) a : option (bool * PatchApplier) :=
  if m_offset (m_patch a) <? command_end_offset then
    match fuel with
    | O => None
    | S fuel =>
        '(ok, a) ← HandleCommand a;
        if ok : bool then handle_commands fuel command_end_offset a else Some (false, a)
    end
  else Some (true, a).

Section apply.
(** The checksum is boost's. *)
Context (crc32 : list Z -> Z).

(* src: file_sys/patch.cpp | bool Apply() { | Apply *)
Definition Apply a : option (bool * PatchApplier) :=
  '(magic, patch) ← Read (m_patch a) MagicSize;
  let a := a<|m_patch := patch|> in
  if decide (magic = char_bytes "BPS1") then
    let '(source_size, patch) := ReadNumber patch in
    let '(target_size, patch) := ReadNumber patch in
    let '(metadata_size, patch) := ReadNumber patch in
    let a := a<|m_patch := patch|> in
    if (m_size (m_source a) <? source_size) || (m_size (m_target a) <? target_size) || nz metadata_size
    then Some (false, a)
    else
      let command_start_offset := m_offset patch in
      let command_end_offset := u64 (m_size patch - FooterSize) in
      let '(_, patch) := Seek patch command_end_offset in
      '(source_crc32, patch) ← Read patch 4;
      '(target_crc32, patch) ← Read patch 4;
      let '(_, patch) := Seek patch command_start_offset in
      let a := a<|m_patch := patch|> in
      if negb (crc32 (take (Z.to_nat source_size) (m_ptr (m_source a))) =? le_combine source_crc32) then Some (false, a)
      else
        let target := m_target a in
        let a := a<|m_target := target<|m_ptr := replicate (List.length (m_ptr target)) 0|>|> in
        '(ok, a) ← handle_commands (List.length (m_ptr patch)) command_end_offset a;
        if ok : bool then
          Some (crc32 (take (Z.to_nat target_size) (m_ptr (m_target a))) =? le_combine target_crc32, a)
        else Some (false, a)
  else Some (false, a).

(** [buffer.resize]: cut off, or filled up with zeros. *)
Definition resize (l : list Z) (n : Z) : list Z := take (Z.to_nat n) l ++ replicate (Z.to_nat n - List.length l) 0.

(* src: file_sys/patch.cpp | bool ApplyBpsPatch(const std::vector<u8>& patch, std::vector<u8>& buffer) { *)
Definition ApplyBpsPatch (patch buffer : list Z) : option (bool * list Z) :=
  let '(_, patch_stream) := Seek (mk_Stream patch 0) MagicSize in
  let '(source_size, patch_stream) := ReadNumber patch_stream in
  let '(target_size, patch_stream) := ReadNumber patch_stream in
  let buffer := if source_size <? target_size then resize buffer target_size else buffer in
  let '(_, patch_stream) := Seek patch_stream 0 in
  '(ok, a) ← Apply (mk_PatchApplier 0 0 (mk_Stream buffer 0) (mk_Stream buffer 0) patch_stream);
  Some (ok, m_ptr (m_target a)).
End apply.
End Bps.

(** * What patches do: an IPS file applies its records one after the other, a BPS file builds
    the target its commands describe. *)

(** * Slices *)

Lemma slice_at l pre x post i n : l = pre ++ x ++ post -> i = size_of pre -> n = size_of x -> slice l i n = Some x.
Proof.
  intros -> -> ->. unfold slice, size_of. rewrite !length_app.
  rewrite (proj2 (andb_true_iff _ _)) by (rewrite !Z.leb_le; lia). rewrite !Nat2Z.id, drop_app_length, take_app_length. done.
Qed.

Lemma size_app l l' : size_of (l ++ l') = size_of l + size_of l'.
Proof. unfold size_of. rewrite length_app. lia. Qed.
Lemma size_nonneg l : 0 <= size_of l.
Proof. unfold size_of. lia. Qed.
Lemma overwrite_length l i bs : size_of (overwrite l i bs) = size_of l.
Proof. unfold size_of, overwrite. by rewrite length_inserts. Qed.

(** * IPS *)

(** A record replaces bytes, or fills a range with one. *)
Inductive IpsRecord := IpsData (offset : Z) (data : list Z) | IpsFill (offset count value : Z).

Definition be2 (v : Z) : list Z := [v / 2 ^ 8; v mod 2 ^ 8].
Definition be3 (v : Z) : list Z := [v / 2 ^ 16; v / 2 ^ 8 mod 2 ^ 8; v mod 2 ^ 8].
Definition record_bytes (r : IpsRecord) : list Z :=
  match r with
  | IpsData o d => be3 o ++ be2 (size_of d) ++ d
  | IpsFill o n v => be3 o ++ be2 0 ++ be2 n ++ [v]
  end.
Definition ips_file (rs : list IpsRecord) : list Z := char_bytes "PATCH" ++ (rs ≫= record_bytes) ++ char_bytes "EOF".

(** Offsets have three bytes, which do not spell the end mark, and counts two. *)
Definition record_ok (r : IpsRecord) : Prop :=
  match r with
  | IpsData o d => 0 <= o < 2 ^ 24 ∧ o ≠ 0x454f46 ∧ 0 < size_of d < 2 ^ 16
  | IpsFill o n _ => 0 <= o < 2 ^ 24 ∧ o ≠ 0x454f46 ∧ 0 <= n < 2 ^ 16
  end.

(** What they mean: the first record that does not fit ends it. *)
Definition record_range (r : IpsRecord) : Z * list Z :=
  match r with IpsData o d => (o, d) | IpsFill o n v => (o, replicate (Z.to_nat n) v) end.
Fixpoint apply_records (rs : list IpsRecord) (buffer : list Z) : bool * list Z :=
  match rs with
  | [] => (true, buffer)
  | r :: rs => let '(o, d) := record_range r in
      if size_of buffer <? o + size_of d then (false, buffer) else apply_records rs (overwrite buffer o d)
  end.

Lemma be_step acc b : 0 <= b < 2 ^ 8 -> acc ≪ 8 .| b = acc * 2 ^ 8 + b.
Proof. intros H. rewrite Z.lor_comm, lor_add by done. lia. Qed.
Lemma be_combine_3 v : 0 <= v < 2 ^ 24 -> be_combine (be3 v) = v.
Proof. intros H. unfold be_combine, be3. cbn [foldl]. rewrite !be_step by modlia. modlia. Qed.
Lemma be_combine_2 v : 0 <= v < 2 ^ 16 -> be_combine (be2 v) = v.
Proof. intros H. unfold be_combine, be2. cbn [foldl]. rewrite !be_step by modlia. modlia. Qed.
Lemma size_replicate n (v : Z) : 0 <= n -> size_of (replicate (Z.to_nat n) v) = n.
Proof. intros H. unfold size_of. rewrite length_replicate. lia. Qed.

Ltac sizes := unfold size_of; rewrite ?length_app; cbn [be3 be2 List.length]; lia.
(** The parts of a record are found one after the other. *)
Ltac at_part i p x q := rewrite (slice_at _ p x q i); [|rewrite <- ?app_assoc; reflexivity|by sizes|by sizes].

Lemma end_mark o : 0 <= o < 2 ^ 24 -> o ≠ 0x454f46 -> be3 o ≠ char_bytes "EOF".
Proof. intros H N E. apply N. rewrite <- (be_combine_3 o H), E. done. Qed.

Lemma ips_record r pre post buffer fuel patch_length : record_ok r -> size_of pre < patch_length ->
  ips_records (S fuel) (pre ++ record_bytes r ++ post) (size_of pre) patch_length buffer =
  let '(o, d) := record_range r in
  if size_of buffer <? o + size_of d then Some (false, buffer)
  else ips_records fuel (pre ++ record_bytes r ++ post) (size_of pre + size_of (record_bytes r)) patch_length (overwrite buffer o d).
Proof.
  intros R L. cbn [ips_records]. rewrite (proj2 (Z.ltb_lt _ _) L). destruct r as [o d|o n v]; cbn [record_bytes record_range record_ok] in *.
  - destruct R as (Ho & No & Hd). at_part (size_of pre) pre (be3 o) (be2 (size_of d) ++ d ++ post). cbn [mbind option_bind].
    rewrite decide_False by (by apply end_mark).
    at_part (size_of pre + 3) (pre ++ be3 o) (be2 (size_of d)) (d ++ post). cbn [fmap option_fmap option_map mbind option_bind].
    rewrite be_combine_2, be_combine_3 by lia. rewrite (proj2 (Z.eqb_neq _ 0)) by lia.
    destruct (_ <? _); [done|]. at_part (size_of pre + 5) (pre ++ be3 o ++ be2 (size_of d)) d post. cbn [mbind option_bind].
    f_equal. sizes.
  - destruct R as (Ho & No & Hn). at_part (size_of pre) pre (be3 o) (be2 0 ++ be2 n ++ [v] ++ post). cbn [mbind option_bind].
    rewrite decide_False by (by apply end_mark).
    at_part (size_of pre + 3) (pre ++ be3 o) (be2 0) (be2 n ++ [v] ++ post). cbn [fmap option_fmap option_map mbind option_bind].
    change (be_combine (be2 0) =? 0) with true. cbv iota.
    at_part (size_of pre + 5) (pre ++ be3 o ++ be2 0) (be2 n) ([v] ++ post). cbn [fmap option_fmap option_map mbind option_bind].
    rewrite be_combine_2, be_combine_3, size_replicate by lia.
    destruct (_ <? _); [done|]. replace (size_of pre + size_of (be3 o ++ be2 0 ++ be2 n ++ [v])) with (size_of pre + 8) by sizes.
    destruct (Z.eqb_spec n 0) as [->|Nn]; [done|].
    at_part (size_of pre + 7) (pre ++ be3 o ++ be2 0 ++ be2 n) [v] post. done.
Qed.

Lemma ips_records_apply rs : ∀ pre buffer fuel patch_length, Forall record_ok rs -> (length rs < fuel)%nat ->
  patch_length = size_of (pre ++ (rs ≫= record_bytes)) ->
  ips_records fuel (pre ++ (rs ≫= record_bytes) ++ char_bytes "EOF") (size_of pre) patch_length buffer = Some (apply_records rs buffer).
Proof.
  induction rs as [|r rs IH]; intros pre buffer fuel patch_length R F ->; (destruct fuel as [|fuel]; [simpl in F; lia|]).
  - cbn [ips_records mbind list_bind]. rewrite app_nil_r, Z.ltb_irrefl. done.
  - apply Forall_cons in R as [Rr R]. cbn [mbind list_bind] in *.
    assert (P : 0 < size_of (record_bytes r)) by (unfold size_of; destruct r; cbn [record_bytes]; rewrite ?length_app; cbn [be3 List.length]; lia).
    rewrite <- !app_assoc, ips_record; [|done|rewrite !size_app; pose proof (size_nonneg (rs ≫= record_bytes)); lia].
    cbn [apply_records]. destruct (record_range r) as [o d]. destruct (_ <? _); [done|].
    rewrite <- size_app, app_assoc. apply IH; [done|simpl in F; lia|]. by rewrite <- app_assoc.
Qed.

(** A file made of well-formed records replaces the ranges they name, one after the other, and is refused at
    the first record that does not fit into the buffer, with the ones before it applied. *)
Theorem ApplyIpsPatch_correct rs buffer : Forall record_ok rs -> size_of (ips_file rs) < 2 ^ 64 ->
  ApplyIpsPatch (ips_file rs) buffer = Some (apply_records rs buffer).
Proof.
  intros R L. unfold ApplyIpsPatch, ips_file. rewrite (slice_at _ [] (char_bytes "PATCH") ((rs ≫= record_bytes) ++ char_bytes "EOF")) by done.
  cbn [mbind option_bind]. rewrite decide_True by done.
  apply (ips_records_apply rs (char_bytes "PATCH")); [done| |].
  - rewrite length_app. change (List.length (char_bytes "PATCH")) with 5%nat.
    assert (H : (List.length rs <= List.length (rs ≫= record_bytes))%nat); [|rewrite length_app; lia].
    clear. induction rs as [|r rs IH]; [done|]. cbn [mbind list_bind]. rewrite length_app. destruct r; cbn [record_bytes be3 app List.length] in *; lia.
  - unfold ips_file in L. rewrite !size_app in *. change (size_of (char_bytes "PATCH")) with 5 in *. change (size_of (char_bytes "EOF")) with 3 in *.
    pose proof (size_nonneg (rs ≫= record_bytes)). rewrite uwrap_id; unfold in_range; lia.
Qed.

(** * BPS *)

Import Bps.

(** ** Numbers *)

(** Seven bits a byte, the top bit ends a number, and each further byte counts from
    where the shorter numbers stop. *)
Fixpoint number_bytes (fuel : nat) (n : Z) : list Z :=
  match fuel with
  | O => []
  | S fuel => if n / 2 ^ 7 =? 0 then [n + 2 ^ 7] else n mod 2 ^ 7 :: number_bytes fuel (n / 2 ^ 7 - 1)
  end.
Definition number (n : Z) : list Z := number_bytes 5 n.

Lemma u32_add_l a b : u32 (u32 a + b) = u32 (a + b).
Proof. unfold uwrap. by rewrite Z.add_mod_idemp_l. Qed.
Lemma u32_add_r a b : u32 (a + u32 b) = u32 (a + b).
Proof. unfold uwrap. by rewrite Z.add_mod_idemp_r. Qed.
Lemma u32_mul_r a b : u32 (a * u32 b) = u32 (a * b).
Proof. unfold uwrap. by rewrite Z.mul_mod_idemp_r. Qed.

Lemma nz_top x : 0 <= x < 2 ^ 8 -> nz (x .& 0x80) = (2 ^ 7 <=? x).
Proof.
  intros H. pose proof (land_bit x 7 ltac:(lia)) as B. change (1 ≪ 7) with 0x80 in B. unfold nz. rewrite B.
  assert (E : x / 2 ^ 7 = if 2 ^ 7 <=? x then 1 else 0) by (destruct (Z.leb_spec (2 ^ 7) x); modlia). rewrite E.
  by destruct (_ <=? _).
Qed.

Lemma u32_wraps e : ∃ k, u32 e = e + k * 2 ^ 32.
Proof. exists (- (e / 2 ^ 32)). unfold uwrap. pose proof (Z.div_mod e (2 ^ 32) ltac:(done)). lia. Qed.
Lemma u32_eq a b k : a = b + k * 2 ^ 32 -> u32 a = u32 b.
Proof. intros ->. unfold uwrap. by rewrite Z.mod_add. Qed.

Lemma read_number_bytes fuel : ∀ n rest data shift, (0 < fuel)%nat -> 0 <= n < 2 ^ (7 * Z.of_nat fuel) ->
  read_number (number_bytes fuel n ++ rest) data shift = (u32 (data + n * shift), rest).
Proof.
  induction fuel as [|fuel IH]; intros n rest data shift F H; [lia|]. cbn [number_bytes].
  pose proof (Z.div_mod n (2 ^ 7) ltac:(done)) as Dn. pose proof (Z.mod_pos_bound n (2 ^ 7) ltac:(done)) as Mn.
  destruct (Z.eqb_spec (n / 2 ^ 7) 0) as [E|E]; cbn [app read_number]; change 0x7f with (2 ^ 7 - 1); rewrite land_mask by done; rewrite nz_top by (rewrite ?E in Dn; lia).
  - rewrite (proj2 (Z.leb_le _ _)) by lia. rewrite u32_add_r. do 3 f_equal. f_equal. rewrite E in Dn.
    replace (n + 2 ^ 7) with (n + 1 * 2 ^ 7) by lia. rewrite Z.mod_add, Z.mod_small by lia. done.
  - rewrite (proj2 (Z.leb_gt _ _)) by lia. rewrite IH.
    + rewrite Z.mod_mod, shiftl_mul by done. destruct (u32_wraps (shift * 2 ^ 7)) as [k1 ->], (u32_wraps (n mod 2 ^ 7 * shift)) as [k2 ->].
      destruct (u32_wraps (data + (n mod 2 ^ 7 * shift + k2 * 2 ^ 32))) as [k3 ->].
      match goal with |- context [u32 (u32 ?e + _)] => destruct (u32_wraps e) as [k4 ->] end.
      f_equal. apply (u32_eq _ _ (k2 + k3 + k4 + k1 * (n / 2 ^ 7))). revert Dn. generalize (n / 2 ^ 7), (n mod 2 ^ 7). intros q m ->. ring.
    + destruct fuel; [|lia]. change (2 ^ (7 * Z.of_nat 1)) with (2 ^ 7) in H. exfalso. apply E, Z.div_small. lia.
    + replace (7 * Z.of_nat (S fuel)) with (7 * Z.of_nat fuel + 7) in H by lia. rewrite Z.pow_add_r in H by lia.
      assert (0 <= n / 2 ^ 7) by (apply Z.div_pos; lia). split; [lia|]. apply Z.lt_sub_lt_add_r. assert (n / 2 ^ 7 < 2 ^ (7 * Z.of_nat fuel)); [|lia].
      apply Z.div_lt_upper_bound; lia.
Qed.

Lemma read_number_spec n rest : in_range 32 n -> read_number (number n ++ rest) 0 1 = (n, rest).
Proof.
  intros H. unfold number. rewrite read_number_bytes by (lia || unfold in_range in H; change (7 * Z.of_nat 5) with 35; lia).
  rewrite Z.add_0_l, Z.mul_1_r. by rewrite uwrap_id.
Qed.

Lemma number_length n : 0 < size_of (number n).
Proof. unfold number, size_of. cbn [number_bytes]. destruct (_ =? 0); cbn [List.length]; lia. Qed.

(** ** What a patch describes *)

(** The offsets of the copies are absolute here; the file has them relative to the
    end of the last copy. *)
Inductive Command := CSourceRead (n : Z) | CTargetRead (bs : list Z) | CSourceCopy (offset n : Z) | CTargetCopy (offset n : Z).

(** The target so far and the ends of the last copies. *)
Record Built := mk_Built { out : list Z; source_end : Z; target_end : Z }.
Implicit Types (b : Built).

(** A copy of what has been written, which may run into what it writes. *)
Fixpoint extend (n : nat) (bs : list Z) (i : nat) : option (list Z) :=
  match n with O => Some bs | S n => x ← bs !! i; extend n (bs ++ [x]) (S i) end.

Definition describe (src : list Z) b (c : Command) : option Built :=
  match c with
  | CSourceRead n => bs ← slice src (size_of (out b)) n; Some (mk_Built (out b ++ bs) (source_end b) (target_end b))
  | CTargetRead bs => Some (mk_Built (out b ++ bs) (source_end b) (target_end b))
  | CSourceCopy offset n => bs ← slice src offset n; Some (mk_Built (out b ++ bs) (offset + n) (target_end b))
  | CTargetCopy offset n => bs ← extend (Z.to_nat n) (out b) (Z.to_nat offset); Some (mk_Built bs (source_end b) (offset + n))
  end.
Fixpoint describe_all (src : list Z) b (cs : list Command) : option Built :=
  match cs with [] => Some b | c :: cs => b ← describe src b c; describe_all src b cs end.

Definition count (c : Command) : Z :=
  match c with CSourceRead n | CSourceCopy _ n | CTargetCopy _ n => n | CTargetRead bs => size_of bs end.
Definition command_ok (c : Command) : Prop :=
  0 < count c ∧ match c with CSourceCopy o _ | CTargetCopy o _ => 0 <= o < 2 ^ 30 | _ => True end.

(** ** Its bytes *)

Definition relative (from to : Z) : list Z := number (2 * Z.abs (to - from) + if to <? from then 1 else 0).
Definition code (c : Command) : Z :=
  match c with CSourceRead _ => 0 | CTargetRead _ => 1 | CSourceCopy _ _ => 2 | CTargetCopy _ _ => 3 end.
Definition operand b (c : Command) : list Z :=
  match c with
  | CSourceRead _ => []
  | CTargetRead bs => bs
  | CSourceCopy o _ => relative (source_end b) o
  | CTargetCopy o _ => relative (target_end b) o
  end.
Definition command_bytes b (c : Command) : list Z := number (4 * (count c - 1) + code c) ++ operand b c.
Fixpoint commands_bytes (src : list Z) b (cs : list Command) : list Z :=
  match cs with
  | [] => []
  | c :: cs => command_bytes b c ++ match describe src b c with Some b => commands_bytes src b cs | None => [] end
  end.

(** ** The streams *)

Lemma ReadNumber_at pre n post : in_range 32 n ->
  ReadNumber (mk_Stream (pre ++ number n ++ post) (size_of pre)) =
  (n, mk_Stream (pre ++ number n ++ post) (size_of (pre ++ number n))).
Proof.
  intros H. unfold ReadNumber. cbn [m_ptr m_offset]. unfold size_of at 1. rewrite Nat2Z.id, drop_app_length, read_number_spec by done.
  unfold m_size. cbn [m_ptr]. replace (_ - size_of post) with (size_of (pre ++ number n)) by (rewrite !size_app; lia). done.
Qed.

Lemma nz_odd v : nz (v .& 1) = negb (Z.even v).
Proof. unfold nz. change (v .& 1) with (v .& (1 ≪ 0)). by rewrite land_bit, Z.div_1_r by done. Qed.

Lemma move_offset_spec from to : 0 <= from < 2 ^ 31 -> 0 <= to < 2 ^ 30 ->
  move_offset from (2 * Z.abs (to - from) + if to <? from then 1 else 0) = to.
Proof.
  intros H1 H2. unfold move_offset. rewrite nz_odd, shiftr_div by done. destruct (Z.ltb_spec to from) as [L|L].
  - replace (Z.even _) with false by (rewrite Z.even_add, Z.even_mul; done). cbn [negb].
    replace ((2 * Z.abs (to - from) + 1) / 2 ^ 1) with (from - to) by modlia.
    rewrite (swrap_id 32 (from - to)), swrap_id, uwrap_id; unfold in_srange, in_range; lia.
  - replace (Z.even _) with true by (rewrite Z.add_0_r, Z.even_mul; done). cbn [negb].
    replace ((2 * Z.abs (to - from) + 0) / 2 ^ 1) with (to - from) by modlia.
    rewrite (swrap_id 32 (to - from)), swrap_id, uwrap_id; unfold in_srange, in_range; lia.
Qed.

Lemma relative_range from to : 0 <= from < 2 ^ 31 -> 0 <= to < 2 ^ 30 -> in_range 32 (2 * Z.abs (to - from) + if to <? from then 1 else 0).
Proof. intros H1 H2. unfold in_range. destruct (Z.ltb_spec to from); lia. Qed.

(** The target while it is built: what has been written, and zeros. *)
Definition filled (T : nat) (bs : list Z) : list Z := bs ++ replicate (T - List.length bs) 0.

Lemma filled_size T bs : (List.length bs <= T)%nat -> List.length (filled T bs) = T.
Proof. intros H. unfold filled. rewrite length_app, length_replicate. lia. Qed.

Lemma overwrite_filled T bs x : (List.length bs + List.length x <= T)%nat ->
  overwrite (filled T bs) (size_of bs) x = filled T (bs ++ x).
Proof.
  intros H. unfold overwrite, filled, size_of. rewrite Nat2Z.id. rewrite <- (Nat.add_0_r (List.length bs)) at 1.
  rewrite list_inserts_app_r, <- app_assoc, length_app. f_equal.
  replace (T - List.length bs)%nat with (List.length x + (T - (List.length bs + List.length x)))%nat by lia.
  rewrite replicate_add, list_inserts_0_r by (by rewrite length_replicate). done.
Qed.

Lemma slice_inv l i n x : slice l i n = Some x -> 0 <= n ->
  0 <= i ∧ i + n <= size_of l ∧ size_of x = n ∧ x = take (Z.to_nat n) (drop (Z.to_nat i) l).
Proof.
  unfold slice. destruct (_ && _) eqn:E; [|done]. apply andb_true_iff in E as [E1%Z.leb_le E2%Z.leb_le]. intros [= <-] Hn.
  split; [done|]. split; [done|]. split; [|done]. unfold size_of in *. rewrite length_take, length_drop. lia.
Qed.

Lemma copy_within_extend T n : ∀ bs i bs', extend n bs i = Some bs' -> (i < List.length bs)%nat -> (List.length bs + n <= T)%nat -> Z.of_nat T < 2 ^ 30 ->
  copy_within n (filled T bs) (size_of bs) (Z.of_nat i) = Some (filled T bs', Z.of_nat i + Z.of_nat n).
Proof.
  induction n as [|n IH]; intros bs i bs' E Hi HT B; cbn [extend copy_within] in *.
  - injection E as <-. by rewrite Z.add_0_r.
  - apply bind_Some in E as (x & Hx & E).
    assert (S1 : slice (filled T bs) (Z.of_nat i) 1 = Some [x]).
    { rewrite <- (take_drop_middle bs i x Hx). unfold filled. rewrite <- app_assoc.
      apply (slice_at _ (take i bs) [x] (drop (S i) bs ++ replicate (T - List.length (take i bs ++ x :: drop (S i) bs)) 0)); [done| |done].
      unfold size_of. rewrite length_take. lia. }
    rewrite S1. cbn [mbind option_bind]. rewrite overwrite_filled by (simpl; lia).
    rewrite uwrap_id by (unfold in_range; lia). replace (size_of bs + 1) with (size_of (bs ++ [x])) by (rewrite size_app; done).
    replace (Z.of_nat i + 1) with (Z.of_nat (S i)) by lia.
    rewrite (IH _ _ _ E); [|rewrite length_app; simpl; lia|rewrite length_app; simpl; lia|done]. do 2 f_equal. lia.
Qed.

Lemma extend_length n : ∀ bs i bs', extend n bs i = Some bs' -> List.length bs' = (List.length bs + n)%nat.
Proof.
  induction n as [|n IH]; intros bs i bs' E; cbn [extend] in E; [injection E as <-; lia|].
  apply bind_Some in E as (x & _ & E). apply IH in E. rewrite E, length_app. simpl. lia.
Qed.

(** Every command adds as many bytes as it counts. *)
Lemma describe_length src b c b' : describe src b c = Some b' -> 0 < count c -> size_of (out b') = size_of (out b) + count c.
Proof.
  destruct c as [n|bs|o n|o n]; cbn [describe count]; intros E N.
  - apply bind_Some in E as (x & E & [= <-]). apply slice_inv in E as (_ & _ & L & _); [|lia]. cbn [out]. rewrite size_app. lia.
  - injection E as <-. apply size_app.
  - apply bind_Some in E as (x & E & [= <-]). apply slice_inv in E as (_ & _ & L & _); [|lia]. cbn [out]. rewrite size_app. lia.
  - apply bind_Some in E as (x & E & [= <-]). apply extend_length in E. cbn [out]. unfold size_of. lia.
Qed.

Section commands.
(** [src] is the part of the source the patch knows of. *)
Context (src pad : list Z) (T : nat) (HS : size_of (src ++ pad) < 2 ^ 30) (HT : Z.of_nat T < 2 ^ 30).

Definition ends_ok b : Prop := 0 <= source_end b < 2 ^ 31 ∧ 0 <= target_end b < 2 ^ 31.
Definition applying b (offset : Z) (patch : list Z) (pos : Z) : PatchApplier :=
  mk_PatchApplier (source_end b) (target_end b) (mk_Stream (src ++ pad) offset)
    (mk_Stream (filled T (out b)) (size_of (out b))) (mk_Stream patch pos).

Lemma CopyFrom_spec o (ptr : list Z) pos n x : slice ptr pos n = Some x -> 0 <= n -> size_of o + n <= Z.of_nat T -> size_of ptr < 2 ^ 63 ->
  CopyFrom (mk_Stream (filled T o) (size_of o)) (mk_Stream ptr pos) n =
  (true, mk_Stream (filled T (o ++ x)) (size_of (o ++ x)), mk_Stream ptr (pos + n)).
Proof.
  intros E Hn L B. apply slice_inv in E as (P & R & Lx & ->); [|done]. set (x := take _ _) in *. pose proof (size_nonneg o).
  unfold CopyFrom, Read, m_size. cbn [m_ptr m_offset]. unfold size_of at 1. rewrite filled_size by (unfold size_of in *; lia).
  rewrite !uwrap_id by (unfold in_range; lia). rewrite !(proj2 (Z.ltb_ge _ _)) by lia. fold x.
  rewrite overwrite_filled by (unfold size_of in *; lia). rewrite size_app, Lx. done.
Qed.

Lemma slice_source i n x : slice src i n = Some x -> 0 <= n -> slice (src ++ pad) i n = Some x.
Proof.
  intros E Hn. apply slice_inv in E as (P & R & _ & ->); [|done]. unfold slice. rewrite size_app. pose proof (size_nonneg pad).
  rewrite (proj2 (andb_true_iff _ _)) by (rewrite !Z.leb_le; lia). f_equal.
  unfold size_of in *. rewrite drop_app_le, take_app_le by (rewrite ?length_drop; lia). done.
Qed.

Lemma code_fields n c : 0 < n <= 2 ^ 30 -> 0 <= c < 4 ->
  in_range 32 (4 * (n - 1) + c) ∧ (4 * (n - 1) + c) .& 3 = c ∧ u32 (((4 * (n - 1) + c) ≫ 2) + 1) = n.
Proof.
  intros Hn Hc. split; [unfold in_range; lia|]. change (_ .& 3) with ((4 * (n - 1) + c) .& (2 ^ 2 - 1)). rewrite land_mask, shiftr_div by done.
  split; [modlia|]. rewrite uwrap_id; unfold in_range; modlia.
Qed.

(** Copying from the source, from where the stream has been put. *)
Lemma source_to_target b patch pos i n x se te : slice src i n = Some x -> 0 < n ->
  size_of (out b) + n <= Z.of_nat T ->
  (m_size (mk_Stream (src ++ pad) 0) <? i) = false ∧
  ∀ old, to_target (mk_PatchApplier se te old (mk_Stream (filled T (out b)) (size_of (out b))) (mk_Stream patch pos))
    (CopyFrom (mk_Stream (filled T (out b)) (size_of (out b))) (mk_Stream (src ++ pad) i) n) (fun s a => a<|m_source := s|>) =
  (true, applying (mk_Built (out b ++ x) se te) (i + n) patch pos).
Proof.
  intros E Hn L. pose proof (slice_source _ _ _ E ltac:(lia)) as E'. pose proof E' as (P & R & _ & _)%slice_inv; [|lia].
  split; [apply Z.ltb_ge; unfold m_size; cbn; lia|]. intros old.
  rewrite (CopyFrom_spec (out b) (src ++ pad) i n x E'); [reflexivity|lia|done|lia].
Qed.

Lemma SourceRead_spec b offset patch pos n x : slice src (size_of (out b)) n = Some x -> 0 < n -> size_of (out b) + n <= Z.of_nat T ->
  ∃ offset', SourceRead (applying b offset patch pos) n = (true, applying (mk_Built (out b ++ x) (source_end b) (target_end b)) offset' patch pos).
Proof.
  intros E Hn L. destruct (source_to_target b patch pos _ n x (source_end b) (target_end b) E Hn L) as [S1 S2].
  unfold SourceRead, Seek, applying. cbn [m_source m_target m_offset m_ptr]. unfold m_size in *. cbn [m_ptr] in *. rewrite S1.
  eexists. apply S2.
Qed.

Lemma TargetRead_spec b offset pre bs post : 0 < size_of bs -> size_of (out b) + size_of bs <= Z.of_nat T -> size_of (pre ++ bs ++ post) < 2 ^ 63 ->
  TargetRead (applying b offset (pre ++ bs ++ post) (size_of pre)) (size_of bs) =
  (true, applying (mk_Built (out b ++ bs) (source_end b) (target_end b)) offset (pre ++ bs ++ post) (size_of (pre ++ bs))).
Proof.
  intros Hn L B. unfold TargetRead, applying. cbn [m_target m_patch].
  rewrite (CopyFrom_spec (out b) _ (size_of pre) (size_of bs) bs); [|by apply (slice_at _ pre bs post)|lia|done|done].
  rewrite <- size_app. reflexivity.
Qed.

(** An operand of a copy is read, and the offset it gives. *)
Lemma relative_read from to pre post : 0 <= from < 2 ^ 31 -> 0 <= to < 2 ^ 30 ->
  ∃ v, ReadNumber (mk_Stream (pre ++ relative from to ++ post) (size_of pre)) =
    (v, mk_Stream (pre ++ relative from to ++ post) (size_of (pre ++ relative from to))) ∧ move_offset from v = to.
Proof.
  intros H1 H2. eexists. split; [apply ReadNumber_at, relative_range; done|by apply move_offset_spec].
Qed.

Lemma SourceCopy_spec b offset pre post o n x : ends_ok b -> 0 <= o < 2 ^ 30 -> slice src o n = Some x -> 0 < n ->
  size_of (out b) + n <= Z.of_nat T ->
  let r := relative (source_end b) o in
  ∃ offset', SourceCopy (applying b offset (pre ++ r ++ post) (size_of pre)) n =
    (true, applying (mk_Built (out b ++ x) (o + n) (target_end b)) offset' (pre ++ r ++ post) (size_of (pre ++ r))).
Proof.
  intros [S0 T0] Ho E Hn L r. destruct (relative_read (source_end b) o pre post S0 Ho) as (v & Ev & Mv). fold r in Ev.
  destruct (source_to_target b (pre ++ r ++ post) (size_of (pre ++ r)) o n x o (target_end b) E Hn L) as [S1 S2].
  unfold SourceCopy, applying. cbn [m_patch m_source_relative_offset]. rewrite Ev, Mv.
  match goal with |- context [Seek ?s o] => replace (Seek s o) with (true, mk_Stream (src ++ pad) o) end.
  2: { unfold Seek. change (m_size _) with (m_size (mk_Stream (src ++ pad) 0)). by rewrite S1. }
  cbv iota. specialize (S2 (mk_Stream (src ++ pad) offset)).
  match type of S2 with to_target ?a ?c ?f = _ => change (to_target _ _ _) with (to_target a c f) end. rewrite S2.
  eexists. cbv iota. rewrite uwrap_id; [reflexivity|]. apply slice_inv in E as (_ & R & _ & _); [|lia]. rewrite size_app in HS.
  pose proof (size_nonneg pad). unfold in_range. lia.
Qed.

Lemma TargetCopy_spec b offset pre post o n bs : ends_ok b -> 0 <= o < 2 ^ 30 -> extend (Z.to_nat n) (out b) (Z.to_nat o) = Some bs -> 0 < n ->
  size_of (out b) + n <= Z.of_nat T ->
  let r := relative (target_end b) o in
  TargetCopy (applying b offset (pre ++ r ++ post) (size_of pre)) n =
    Some (true, applying (mk_Built bs (source_end b) (o + n)) offset (pre ++ r ++ post) (size_of (pre ++ r))).
Proof.
  intros [S0 T0] Ho E Hn L r. destruct (relative_read (target_end b) o pre post T0 Ho) as (v & Ev & Mv). fold r in Ev.
  assert (Io : (Z.to_nat o < List.length (out b))%nat).
  { destruct (Z.to_nat n) as [|k] eqn:En; [lia|]. cbn [extend] in E. apply bind_Some in E as (x & Hx & _). by eapply lookup_lt_Some. }
  pose proof (extend_length _ _ _ _ E) as Lb. pose proof (size_nonneg (out b)) as P0.
  assert (Lo : o < size_of (out b)) by (unfold size_of; lia). assert (Sf : size_of (filled T (out b)) = Z.of_nat T) by (unfold size_of in *; rewrite filled_size; lia).
  unfold TargetCopy, applying. cbn [m_patch m_target_relative_offset]. rewrite Ev, Mv. cbv zeta.
  change (m_target _) with (mk_Stream (filled T (out b)) (size_of (out b))). unfold m_size. cbn [m_ptr m_offset]. rewrite Sf.
  rewrite (uwrap_id 64 (size_of (out b) + n)), (uwrap_id 64 (o + n)) by (unfold in_range; lia).
  rewrite !(proj2 (Z.ltb_ge _ _)) by lia.
  pose proof (copy_within_extend T _ _ _ _ E Io ltac:(unfold size_of in *; lia) HT) as C. rewrite (Z2Nat.id o), (Z2Nat.id n) in C by lia. rewrite C.
  cbn [mbind option_bind]. unfold Seek, m_size. cbn [m_ptr]. 
  assert (Sb : size_of bs = size_of (out b) + n) by (unfold size_of; lia).
  assert (Sg : size_of (filled T bs) = Z.of_nat T) by (unfold size_of in *; rewrite filled_size; lia).
  rewrite Sg, (proj2 (Z.ltb_ge _ _)) by lia. cbn. by rewrite Sb.
Qed.
Lemma HandleCommand_spec b b' c offset pre post : describe src b c = Some b' -> command_ok c -> ends_ok b ->
  size_of (out b') <= Z.of_nat T -> size_of (pre ++ command_bytes b c ++ post) < 2 ^ 63 ->
  ∃ offset', HandleCommand (applying b offset (pre ++ command_bytes b c ++ post) (size_of pre)) =
    Some (true, applying b' offset' (pre ++ command_bytes b c ++ post) (size_of (pre ++ command_bytes b c))) ∧ ends_ok b'.
Proof.
  intros D [Hn Ho] Ok L B. pose proof (describe_length _ _ _ _ D Hn) as Ln. pose proof (size_nonneg (out b)) as P0.
  assert (Cd : 0 <= code c < 4) by (destruct c; cbn; lia).
  destruct (code_fields (count c) (code c) ltac:(lia) Cd) as (Rg & Lo & Hi).
  unfold HandleCommand, command_bytes in *. rewrite <- (app_assoc (number _)). set (h := number _) in *.
  cbn [applying m_patch]. unfold applying at 1. cbn [m_patch]. unfold h. rewrite ReadNumber_at by done. fold h. cbv zeta.
  rewrite Lo, Hi. change (_ <|m_patch := _|>) with (applying b offset (pre ++ h ++ operand b c ++ post) (size_of (pre ++ h))).
  rewrite !(app_assoc pre h). destruct c as [n|bs|o n|o n]; cbn [describe count code operand command_ok] in *; cbv iota beta.
  - apply bind_Some in D as (x & E & [= <-]). cbn [out] in *. rewrite app_nil_l.
    destruct (SourceRead_spec b offset ((pre ++ h) ++ post) (size_of (pre ++ h)) n x E Hn ltac:(lia)) as [o' Eo]. exists o'.
    rewrite app_nil_r. change (0 =? 0) with true. cbv iota. by rewrite Eo.
  - injection D as <-. cbn [out] in *. exists offset. change (1 =? 0) with false. change (1 =? 1) with true. cbv iota.
    rewrite TargetRead_spec; [by rewrite <- app_assoc|done|lia|]. by rewrite <- !app_assoc in *.
  - apply bind_Some in D as (x & E & [= <-]). cbn [out] in *.
    destruct (SourceCopy_spec b offset (pre ++ h) post o n x Ok Ho E Hn ltac:(lia)) as [o' Eo]. exists o'.
    change (2 =? 0) with false. change (2 =? 1) with false. change (2 =? 2) with true. cbv iota. rewrite Eo, <- app_assoc. split; [done|].
    destruct Ok. split; cbn; lia.
  - apply bind_Some in D as (x & E & [= <-]). cbn [out] in *. exists offset.
    change (3 =? 0) with false. change (3 =? 1) with false. change (3 =? 2) with false. cbv iota.
    rewrite (TargetCopy_spec b offset (pre ++ h) post o n x Ok Ho E Hn ltac:(lia)), <- app_assoc. split; [done|].
    destruct Ok. split; cbn; lia.
Qed.
Lemma describe_all_length cs : ∀ b b', describe_all src b cs = Some b' -> Forall command_ok cs -> size_of (out b) <= size_of (out b').
Proof.
  induction cs as [|c cs IH]; intros b b' D F; cbn [describe_all] in D; [injection D as <-; lia|].
  apply bind_Some in D as (b1 & D1 & D). apply Forall_cons in F as [[F _] Fs].
  pose proof (describe_length _ _ _ _ D1 F). pose proof (IH _ _ D Fs). lia.
Qed.

Lemma handle_commands_spec post cs : ∀ b b' pre fuel offset, describe_all src b cs = Some b' -> Forall command_ok cs -> ends_ok b ->
  size_of (out b') <= Z.of_nat T -> size_of (pre ++ commands_bytes src b cs ++ post) < 2 ^ 63 -> (List.length cs <= fuel)%nat ->
  ∃ offset', handle_commands fuel (size_of (pre ++ commands_bytes src b cs))
      (applying b offset (pre ++ commands_bytes src b cs ++ post) (size_of pre)) =
    Some (true, applying b' offset' (pre ++ commands_bytes src b cs ++ post) (size_of (pre ++ commands_bytes src b cs))).
Proof.
  induction cs as [|c cs IH]; intros b b' pre fuel offset D F Ok L B Lf; cbn [describe_all commands_bytes] in *.
  - injection D as <-. rewrite !app_nil_r. exists offset. destruct fuel; cbn [handle_commands applying m_patch m_offset]; by rewrite Z.ltb_irrefl.
  - apply bind_Some in D as (b1 & D1 & D). rewrite D1 in *. apply Forall_cons in F as [Fc Fs]. destruct fuel as [|fuel]; [simpl in Lf; lia|].
    pose proof (describe_all_length _ _ _ D Fs) as Ll. rewrite <- (app_assoc (command_bytes b c)) in *.
    destruct (HandleCommand_spec b b1 c offset pre (commands_bytes src b1 cs ++ post) D1 Fc Ok ltac:(lia) B) as (o1 & E1 & Ok1).
    assert (P : size_of pre < size_of (pre ++ command_bytes b c ++ commands_bytes src b1 cs)).
    { unfold command_bytes. rewrite !size_app. pose proof (number_length (4 * (count c - 1) + code c)).
      pose proof (size_nonneg (operand b c)). pose proof (size_nonneg (commands_bytes src b1 cs)). lia. }
    cbn [handle_commands]. replace (m_offset _ <? _) with true by (symmetry; by apply Z.ltb_lt). rewrite E1. cbn [mbind option_bind].
    rewrite !(app_assoc pre (command_bytes b c)) in *. apply (IH b1 b' _ _ _ D Fs Ok1 L B). simpl in Lf. lia.
Qed.
End commands.

(** ** The file *)

Definition nothing : Built := mk_Built [] 0 0.
Section file.
Context (crc32 : list Z -> Z) (crc32_word : ∀ bs, in_range 32 (crc32 bs)).

(** The checksum of the patch itself, which is not looked at, ends the file. *)
Definition bps_file (src target : list Z) (cs : list Command) (own : list Z) : list Z :=
  char_bytes "BPS1" ++ number (size_of src) ++ number (size_of target) ++ number 0 ++
  commands_bytes src nothing cs ++ le_split 4 (crc32 src) ++ le_split 4 (crc32 target) ++ own.

Lemma Read_at pre x post : size_of (pre ++ x ++ post) < 2 ^ 63 ->
  Read (mk_Stream (pre ++ x ++ post) (size_of pre)) (size_of x) = Some (x, mk_Stream (pre ++ x ++ post) (size_of (pre ++ x))).
Proof.
  intros B. unfold Read, m_size. cbn [m_ptr m_offset]. rewrite !size_app in *. pose proof (size_nonneg pre). pose proof (size_nonneg x). pose proof (size_nonneg post).
  rewrite uwrap_id by (unfold in_range; lia). rewrite (proj2 (Z.ltb_ge _ _)) by lia.
  unfold size_of at 1 2. rewrite !Nat2Z.id, drop_app_length, take_app_length. done.
Qed.
Lemma ReadNumber_eq P pre n post pos : P = pre ++ number n ++ post -> pos = size_of pre -> in_range 32 n ->
  ReadNumber (mk_Stream P pos) = (n, mk_Stream P (size_of (pre ++ number n))).
Proof. intros -> ->. apply ReadNumber_at. Qed.
Lemma Read_eq P pre x post pos n : P = pre ++ x ++ post -> pos = size_of pre -> n = size_of x -> size_of P < 2 ^ 63 ->
  Read (mk_Stream P pos) n = Some (x, mk_Stream P (size_of (pre ++ x))).
Proof. intros -> -> -> B. by apply Read_at. Qed.
Lemma Seek_eq P pos n : n <= size_of P -> Seek (mk_Stream P pos) n = (true, mk_Stream P n).
Proof. intros H. unfold Seek, m_size. cbn [m_ptr]. by rewrite (proj2 (Z.ltb_ge _ _)). Qed.

Section patch.
Context (src target : list Z) (cs : list Command) (own : list Z) (Lo : size_of own = 4)
  (B1 : size_of src < 2 ^ 30) (B2 : size_of target < 2 ^ 30) (B : size_of (bps_file src target cs own) < 2 ^ 63).
#[local] Abbreviation P := (bps_file src target cs own).
#[local] Abbreviation head := (char_bytes "BPS1" ++ number (size_of src) ++ number (size_of target) ++ number 0).
#[local] Abbreviation body := (head ++ commands_bytes src nothing cs).

Lemma head_read :
  Read (mk_Stream P 0) MagicSize = Some (char_bytes "BPS1", mk_Stream P 4) ∧
  ReadNumber (mk_Stream P 4) = (size_of src, mk_Stream P (size_of (char_bytes "BPS1" ++ number (size_of src)))) ∧
  ReadNumber (mk_Stream P (size_of (char_bytes "BPS1" ++ number (size_of src)))) =
    (size_of target, mk_Stream P (size_of (char_bytes "BPS1" ++ number (size_of src) ++ number (size_of target)))) ∧
  ReadNumber (mk_Stream P (size_of (char_bytes "BPS1" ++ number (size_of src) ++ number (size_of target)))) =
    (0, mk_Stream P (size_of head)).
Proof.
  pose proof (size_nonneg src). pose proof (size_nonneg target). split_and!.
  - by eapply (Read_eq P []).
  - eapply (ReadNumber_eq P (char_bytes "BPS1")); [reflexivity|reflexivity|unfold in_range; lia].
  - rewrite (app_assoc _ (number (size_of src)) (number (size_of target))). eapply ReadNumber_eq; [unfold bps_file; by rewrite <- !app_assoc|done|unfold in_range; lia].
  - replace head with ((char_bytes "BPS1" ++ number (size_of src) ++ number (size_of target)) ++ number 0) by (by rewrite <- !app_assoc).
    eapply ReadNumber_eq; [unfold bps_file; by rewrite <- !app_assoc|done|done].
Qed.

Lemma foot_read :
  u64 (size_of P - FooterSize) = size_of body ∧ size_of body <= size_of P ∧ size_of head <= size_of P ∧
  Read (mk_Stream P (size_of body)) 4 = Some (le_split 4 (crc32 src), mk_Stream P (size_of (body ++ le_split 4 (crc32 src)))) ∧
  Read (mk_Stream P (size_of (body ++ le_split 4 (crc32 src)))) 4 =
    Some (le_split 4 (crc32 target), mk_Stream P (size_of ((body ++ le_split 4 (crc32 src)) ++ le_split 4 (crc32 target)))).
Proof.
  assert (L4 : ∀ v, size_of (le_split 4 v) = 4) by (intros v; unfold size_of; by rewrite length_le_split).
  assert (E : size_of P = size_of body + 12).
  { unfold bps_file. rewrite !size_app, !L4, Lo. lia. }
  assert (N : 0 <= size_of body ∧ size_of head <= size_of body) by (rewrite (size_app head); pose proof (size_nonneg head); pose proof (size_nonneg (commands_bytes src nothing cs)); lia).
  split; [unfold FooterSize; rewrite uwrap_id; unfold in_range; lia|]. split; [lia|]. split; [lia|]. split.
  - eapply Read_eq; [unfold bps_file; by rewrite <- !app_assoc|done|by rewrite L4|done].
  - eapply Read_eq; [unfold bps_file; by rewrite <- !app_assoc|done|by rewrite L4|done].
Qed.
(** The buffer before the commands: the source, with zeros up to the size of the target. *)
Definition room : nat := Z.to_nat (Z.max (size_of src) (size_of target)).

Lemma resized bs : size_of bs = size_of src ->
  (if size_of src <? size_of target then resize bs (size_of target) else bs) = filled room bs.
Proof.
  intros E. unfold room, filled, resize. destruct (Z.ltb_spec (size_of src) (size_of target)) as [H|H].
  - rewrite Z.max_r by lia. rewrite take_ge by (unfold size_of in *; lia). done.
  - rewrite Z.max_l by lia. replace (_ - _)%nat with 0%nat by (unfold size_of in *; lia). by rewrite app_nil_r.
Qed.

Lemma commands_count : ∀ b, (List.length cs <= List.length (commands_bytes src b cs))%nat ∨ describe_all src b cs = None.
Proof.
  clear. induction cs as [|c l IH]; intros b; [by left|]. cbn [describe_all commands_bytes]. destruct (describe src b c) as [b'|]; [|by right].
  cbn [mbind option_bind]. destruct (IH b') as [H|H]; [|by right]. left. rewrite length_app. unfold command_bytes. rewrite length_app. cbn [List.length].
  pose proof (number_length (4 * (count c - 1) + code c)%Z) as N. unfold size_of in N. lia.
Qed.

Lemma checksum_ok T x y : crc32 x = crc32 y -> (crc32 (take (Z.to_nat (size_of x)) (filled T x)) =? le_combine (le_split 4 (crc32 y))) = true.
Proof.
  intros E. unfold filled. unfold size_of at 1. rewrite Nat2Z.id, take_app_length, le_combine_split, E.
  rewrite (Z.mod_small (crc32 y)) by exact (crc32_word y). apply Z.eqb_refl.
Qed.

Lemma Apply_spec b : describe_all src nothing cs = Some b -> out b = target -> Forall command_ok cs ->
  ∃ a, Apply crc32 (mk_PatchApplier 0 0 (mk_Stream (filled room src) 0) (mk_Stream (filled room src) 0) (mk_Stream P 0)) = Some (true, a) ∧
    m_ptr (m_target a) = filled room target.
Proof.
  intros D Eb F. destruct head_read as (R0 & R1 & R2 & R3). destruct foot_read as (Fe & L1 & L2 & R4 & R5).
  unfold Apply. cbn [m_patch]. rewrite R0. cbn [mbind option_bind]. rewrite decide_True by done. rewrite R1, R2, R3.
  pose proof (size_nonneg src) as P1. pose proof (size_nonneg target) as P2.
  assert (Sz : ∀ x, size_of x <= Z.max (size_of src) (size_of target) -> size_of (filled room x) = Z.max (size_of src) (size_of target)).
  { intros x Hx. unfold size_of in *. rewrite filled_size; unfold room, size_of; lia. }
  assert (E1 : (size_of (filled room src) <? size_of src) || (size_of (filled room src) <? size_of target) || nz 0 = false).
  { rewrite Sz, !(proj2 (Z.ltb_ge _ _)) by lia. done. }
  match goal with |- context [if ?c then Some (false, _) else _] => replace c with false by (symmetry; exact E1) end.
  cbv iota zeta.
  unfold m_size. cbn [m_ptr m_offset]. rewrite Fe, Seek_eq by done. rewrite R4. cbn [mbind option_bind]. rewrite R5. cbn [mbind option_bind].
  rewrite Seek_eq by done.
  match goal with |- context [if negb ?c then _ else _] => replace c with true by (symmetry; apply checksum_ok; done) end. cbn [negb].
  set (post := le_split 4 (crc32 src) ++ le_split 4 (crc32 target) ++ own).
  assert (EP : P = head ++ commands_bytes src nothing cs ++ post) by (unfold bps_file, post; by rewrite <- !app_assoc).
  assert (Lr : Z.of_nat room < 2 ^ 30) by (unfold room; lia).
  assert (Fs : size_of (src ++ replicate (room - List.length src) 0) < 2 ^ 30) by (change (src ++ _) with (filled room src); rewrite Sz; lia).
  destruct (handle_commands_spec src _ room Fs Lr post cs nothing b head (List.length P) 0 D F) as [o' Eo];
    [by split|rewrite Eb; unfold room; lia|by rewrite <- EP| |].
  - destruct (commands_count nothing) as [C|C]; [|by rewrite C in D]. rewrite EP, !length_app. lia.
  - rewrite <- EP in Eo. unfold applying at 1 in Eo. unfold filled at 1 in Eo. cbn [nothing out app List.length] in Eo. rewrite Nat.sub_0_r in Eo.
    match goal with |- context [handle_commands ?f ?e ?a] => replace (handle_commands f e a) with (handle_commands f e
      (mk_PatchApplier 0 0 (mk_Stream (filled room src) 0) (mk_Stream (replicate room 0) 0) (mk_Stream P (size_of head)))) end.
    2: { f_equal. change (List.length (m_ptr _)) with (List.length (filled room src)). rewrite filled_size; [done|]. unfold room, size_of. lia. }
    match type of Eo with ?l = _ => match goal with |- context [?r ≫= _] => replace r with l by reflexivity end end. rewrite Eo. cbn [mbind option_bind].
    eexists. split; [f_equal; f_equal; cbn [applying m_target m_ptr]; rewrite Eb; by apply checksum_ok|]. cbn [applying m_target m_ptr]. by rewrite Eb.
Qed.

(** A source with another checksum. *)
Lemma Apply_refuses bs (pt := filled room bs) : size_of bs = size_of src -> crc32 bs ≠ crc32 src ->
  ∃ a, Apply crc32 (mk_PatchApplier 0 0 (mk_Stream pt 0) (mk_Stream pt 0) (mk_Stream P 0)) = Some (false, a) ∧
    m_ptr (m_target a) = pt.
Proof.
  intros E N. destruct head_read as (R0 & R1 & R2 & R3). destruct foot_read as (Fe & L1 & L2 & R4 & R5).
  assert (Sp : size_of pt = Z.max (size_of src) (size_of target)).
  { unfold pt, size_of in *. rewrite filled_size; unfold room, size_of; lia. }
  unfold Apply. cbn [m_patch]. rewrite R0. cbn [mbind option_bind]. rewrite decide_True by done. rewrite R1, R2, R3.
  match goal with |- context [if ?c then Some (false, ?a) else _] =>
    replace c with ((size_of pt <? size_of src) || (size_of pt <? size_of target) || nz 0) by reflexivity end.
  rewrite Sp, !(proj2 (Z.ltb_ge _ _)) by lia. change (false || false || nz 0) with false. cbv iota zeta.
  unfold m_size. cbn [m_ptr m_offset]. rewrite Fe, Seek_eq by done. rewrite R4. cbn [mbind option_bind]. rewrite R5. cbn [mbind option_bind].
  rewrite Seek_eq by done.
  match goal with |- context [if negb ?c then _ else _] => replace c with false end; [by eexists|].
  symmetry. change (m_ptr _) with pt. unfold pt, filled. rewrite <- E. unfold size_of. rewrite Nat2Z.id, take_app_length, le_combine_split.
  rewrite (Z.mod_small (crc32 src)) by exact (crc32_word src). by apply Z.eqb_neq.
Qed.

Lemma ApplyBpsPatch_Apply bs : size_of bs = size_of src -> ApplyBpsPatch crc32 P bs =
  '(ok, a) ← Apply crc32 (mk_PatchApplier 0 0 (mk_Stream (filled room bs) 0) (mk_Stream (filled room bs) 0) (mk_Stream P 0));
  Some (ok, m_ptr (m_target a)).
Proof.
  intros E. destruct head_read as (_ & R1 & R2 & _). pose proof (number_length (size_of src)) as N.
  assert (L : 4 <= size_of P).
  { unfold bps_file. rewrite !size_app. change (size_of (char_bytes "BPS1")) with 4. repeat match goal with |- context [size_of ?l] =>
      lazymatch goal with H : 0 <= size_of l |- _ => fail | _ => pose proof (size_nonneg l) end end. lia. }
  unfold ApplyBpsPatch. rewrite Seek_eq by exact L. change MagicSize with 4. rewrite R1, R2, resized by done.
  rewrite Seek_eq by lia. done.
Qed.

(** C21: A patch file made of commands, for a source, builds exactly the target the commands describe: the buffer is the
    source before and the target after, with zeros behind it when the source was longer.  A source with another
    checksum is refused, and the buffer keeps its bytes. *)
Theorem ApplyBpsPatch_correct :
  (∀ b, describe_all src nothing cs = Some b -> out b = target -> Forall command_ok cs ->
    ApplyBpsPatch crc32 P src = Some (true, filled room target)) ∧
  (∀ buffer, size_of buffer = size_of src -> crc32 buffer ≠ crc32 src -> ApplyBpsPatch crc32 P buffer = Some (false, filled room buffer)).
Proof.
  split.
  - intros b D Eb F. rewrite ApplyBpsPatch_Apply by done. destruct (Apply_spec b D Eb F) as (a & -> & Ea). cbn [mbind option_bind]. by rewrite Ea.
  - intros bs E N. rewrite ApplyBpsPatch_Apply by done. destruct (Apply_refuses bs E N) as (a & -> & Ea). cbn [mbind option_bind]. by rewrite Ea.
Qed.
End patch.
End file.
