(* ===== verification/Lzss.v ===== *)
(** The compression of a program's code, [core/file_sys/ncch_container.cpp]: LZSS
    read from the end of the file to its start.  A read or a write outside of a buffer
    is [None]. *)

From S2P Require Import Prelude Patch.

(* src: file_sys/ncch_container.cpp | static std::size_t LZSS_GetDecompressedSize(std::span<const u8> buffer) { *)
Definition LZSS_GetDecompressedSize (buffer : list Z) : option Z :=
  offset_size ← slice buffer (size_of buffer - 4) 4;
  Some (u64 (le_combine offset_size + size_of buffer)).

Definition byte_of (l : list Z) (i : Z) : option Z := if (0 <=? i) && (i <? size_of l) then l !! Z.to_nat i else None.
Definition put_byte (l : list Z) (i x : Z) : list Z := <[Z.to_nat i := x]> l.

Section lzss.
Context (compressed : list Z) (stop_index : Z).

(** [None] is an access outside of a buffer, [inl] the code's [false] with what has been
    written by then. *)
(* src: file_sys/ncch_container.cpp | for (unsigned j = 0; j < segment_size; j++) { | LZSS_Decompress | +8 *)
Fixpoint copy_segment (n : nat) (segment_offset out : Z) (decompressed : list Z) : option (list Z + Z * list Z) :=
  match n with
  | O => Some (inr (out, decompressed))
  | S n =>
      if size_of decompressed <=? out + segment_offset then Some (inl decompressed)
      else
        data ← byte_of decompressed (out + segment_offset);
        if out <=? 0 then None
        else copy_segment n segment_offset (out - 1) (put_byte decompressed (out - 1) data)
  end.

(* src: file_sys/ncch_container.cpp | for (unsigned i = 0; i < 8; i++) { | LZSS_Decompress | +39 *)
Fixpoint lzss_flags (n : nat) (control index out : Z) (decompressed : list Z) : option (list Z + Z * Z * list Z) :=
  match n with
  | O => Some (inr (index, out, decompressed))
  | S n =>
      if (index <=? stop_index) || (index <=? 0) || (out <=? 0) then Some (inr (index, out, decompressed))
      else if nz (control .& 0x80) then
        if index <? 2 then Some (inl decompressed)
        else
          let index := index - 2 in
          lo ← byte_of compressed index;
          hi ← byte_of compressed (index + 1);
          let segment_offset := lo .| (hi ≪ 8) in
          let segment_size := ((segment_offset ≫ 12) .& 15) + 3 in
          let segment_offset := (segment_offset .& 0x0FFF) + 2 in
          if out <? segment_size then Some (inl decompressed)
          else
            r ← copy_segment (Z.to_nat segment_size) segment_offset out decompressed;
            match r with
            | inl decompressed => Some (inl decompressed)
            | inr (out, decompressed) => lzss_flags n (u8 (control ≪ 1)) index out decompressed
            end
      else if out <? 1 then Some (inl decompressed)
      else
        data ← byte_of compressed (index - 1);
        lzss_flags n (u8 (control ≪ 1)) (index - 1) (out - 1) (put_byte decompressed (out - 1) data)
  end.

(* src: file_sys/ncch_container.cpp | while (index > stop_index) { | LZSS_Decompress *)
Fixpoint lzss_loop (fuel : nat) (index out : Z) (decompressed : list Z) : option (bool * list Z) :=
  if stop_index <? index then
    match fuel with
    | O => None
    | S fuel =>
        control ← byte_of compressed (index - 1);
        r ← lzss_flags 8 control (index - 1) out decompressed;
        match r with
        | inl decompressed => Some (false, decompressed)
        | inr (index, out, decompressed) => lzss_loop fuel index out decompressed
        end
    end
  else Some (true, decompressed).
End lzss.

(* src: file_sys/ncch_container.cpp | static bool LZSS_Decompress(std::span<const u8> compressed, std::span<u8> decompressed) { *)
Definition LZSS_Decompress (compressed decompressed : list Z) : option (bool * list Z) :=
  footer ← slice compressed (size_of compressed - 8) 4;
  let buffer_top_and_bottom := le_combine footer in
  let out := size_of decompressed in
  let index := u64 (size_of compressed - ((buffer_top_and_bottom ≫ 24) .& 0xFF)) in
  let stop_index := u64 (size_of compressed - (buffer_top_and_bottom .& 0xFFFFFF)) in
  if size_of compressed <=? size_of decompressed then
    let decompressed := compressed ++ replicate (Z.to_nat (size_of decompressed - size_of compressed)) 0 in
    lzss_loop compressed stop_index (S (length compressed)) index out decompressed
  else None.

(** * What the decompression of code promises: it stays inside of its buffers, and it gives back
    what a list of literals and references describes. *)

(** * Safety *)

Lemma byte_of_inside l i : 0 <= i < size_of l -> ∃ x, byte_of l i = Some x.
Proof.
  intros H. unfold byte_of. rewrite (proj2 (Z.leb_le _ _)), (proj2 (Z.ltb_lt _ _)) by lia. apply lookup_lt_is_Some_2. unfold size_of in H. lia.
Qed.
Lemma size_cons (x : Z) l : size_of (x :: l) = 1 + size_of l.
Proof. unfold size_of. cbn [length]. lia. Qed.
Lemma put_byte_size l i x : size_of (put_byte l i x) = size_of l.
Proof. unfold size_of, put_byte. by rewrite length_insert. Qed.

Section safe.
Context (compressed : list Z) (stop_index : Z).

Lemma copy_segment_safe so n : ∀ out d, 0 <= so -> Z.of_nat n <= out <= size_of d ->
  ∃ r, copy_segment n so out d = Some r ∧
    match r with inl d' => size_of d' = size_of d | inr (out', d') => 0 <= out' <= size_of d' ∧ size_of d' = size_of d end.
Proof.
  induction n as [|n IH]; intros out d Hs Ho; cbn [copy_segment]; [eexists; split; [done|]; cbn; lia|].
  destruct (Z.leb_spec (size_of d) (out + so)); [by eexists|]. destruct (byte_of_inside d (out + so)) as [x ->]; [lia|]. cbn [mbind option_bind].
  rewrite (proj2 (Z.leb_gt _ _)) by lia. destruct (IH (out - 1) (put_byte d (out - 1) x) Hs) as (r & -> & R); [rewrite put_byte_size; lia|].
  exists r. split; [done|]. rewrite put_byte_size in R. by destruct r as [|[]].
Qed.

Lemma lzss_flags_safe n : ∀ control index out d, 0 <= index <= size_of compressed -> 0 <= out <= size_of d ->
  ∃ r, lzss_flags compressed stop_index n control index out d = Some r ∧
    match r with inl d' => size_of d' = size_of d | inr (i', out', d') => 0 <= i' <= index ∧ 0 <= out' <= size_of d' ∧ size_of d' = size_of d end.
Proof.
  induction n as [|n IH]; intros control index out d Hi Ho; cbn [lzss_flags]; [eexists; split; [done|]; cbn; lia|].
  destruct (_ || _) eqn:Go; [eexists; split; [done|]; cbn; lia|]. rewrite !orb_false_iff, !Z.leb_gt in Go.
  destruct (nz _).
  - destruct (Z.ltb_spec index 2); [by eexists|]. destruct (byte_of_inside compressed (index - 2)) as [lo ->]; [lia|].
    destruct (byte_of_inside compressed (index - 2 + 1)) as [hi ->]; [lia|]. cbn [mbind option_bind]. cbv zeta.
    set (w := lo .| _). assert (B : 0 <= w .& 0x0FFF ∧ 0 <= (w ≫ 12) .& 15).
    { change 0x0FFF with (2 ^ 12 - 1). change 15 with (2 ^ 4 - 1). rewrite !land_mask by done. split; apply Z.mod_pos_bound; done. }
    destruct (Z.ltb_spec out (((w ≫ 12) .& 15) + 3)); [by eexists|].
    destruct (copy_segment_safe ((w .& 0x0FFF) + 2) (Z.to_nat (((w ≫ 12) .& 15) + 3)) out d) as (r & -> & R); [lia|lia|]. cbn [mbind option_bind].
    destruct r as [d'|[out' d']]; [by eexists|]. destruct R as [Ro Rs].
    destruct (IH (u8 (control ≪ 1)) (index - 2) out' d' ltac:(lia) Ro) as (r & -> & R). exists r. split; [done|]. destruct r as [|[[]]]; [congruence|lia].
  - rewrite (proj2 (Z.ltb_ge _ _)) by lia. destruct (byte_of_inside compressed (index - 1)) as [x ->]; [lia|]. cbn [mbind option_bind].
    destruct (IH (u8 (control ≪ 1)) (index - 1) (out - 1) (put_byte d (out - 1) x)) as (r & -> & R); [lia|rewrite put_byte_size; lia|].
    exists r. split; [done|]. rewrite put_byte_size in R. destruct r as [|[[]]]; [done|lia].
Qed.

Lemma lzss_loop_safe fuel : ∀ index out d, 0 <= stop_index -> index <= size_of compressed -> 0 <= out <= size_of d -> index <= Z.of_nat fuel ->
  ∃ r d', lzss_loop compressed stop_index fuel index out d = Some (r, d') ∧ size_of d' = size_of d.
Proof.
  induction fuel as [|fuel IH]; intros index out d Hs Hi Ho Hf; cbn [lzss_loop]; destruct (Z.ltb_spec stop_index index); try lia; try (by eexists _, _).
  destruct (byte_of_inside compressed (index - 1)) as [c ->]; [lia|]. cbn [mbind option_bind].
  destruct (lzss_flags_safe 8 c (index - 1) out d ltac:(lia) Ho) as (r & -> & R). cbn [mbind option_bind].
  destruct r as [d'|[[i' out'] d']]; [by eexists _, _|]. destruct R as (Ri & Ro & Rs).
  destruct (IH i' out' d' Hs ltac:(lia) Ro ltac:(lia)) as (r & d2 & E & S2). exists r, d2. split; [done|lia].
Qed.
End safe.

(** C23: Decompression never reads or writes outside of its buffers, and ends, for every file that has a footer whose
    header fits into the file and a destination that holds the file, whatever the bytes are. *)
Theorem LZSS_Decompress_safe compressed decompressed top_and_bottom :
  8 <= size_of compressed -> size_of compressed <= size_of decompressed < 2 ^ 63 ->
  slice compressed (size_of compressed - 8) 4 = Some top_and_bottom ->
  (le_combine top_and_bottom ≫ 24) .& 0xFF <= size_of compressed ->
  ∃ ok d', LZSS_Decompress compressed decompressed = Some (ok, d') ∧ size_of d' = size_of decompressed.
Proof.
  intros L8 Ld F H. unfold LZSS_Decompress. rewrite F. cbn [mbind option_bind]. rewrite (proj2 (Z.leb_le _ _)) by lia.
  assert (B : 0 <= (le_combine top_and_bottom ≫ 24) .& 0xFF) by (change 0xFF with (2 ^ 8 - 1); rewrite land_mask by done; by apply Z.mod_pos_bound).
  rewrite (uwrap_id 64 (size_of compressed - ((le_combine top_and_bottom ≫ 24) .& 0xFF))) by (unfold in_range; lia).
  set (stop := u64 _). set (d := compressed ++ _).
  assert (Sd : size_of d = size_of decompressed) by (unfold d; rewrite size_app, size_replicate; lia).
  destruct (lzss_loop_safe compressed stop (S (length compressed)) (size_of compressed - ((le_combine top_and_bottom ≫ 24) .& 0xFF))
    (size_of decompressed) d) as (r & d' & E & Sd'); [by apply uwrap_range|lia|rewrite Sd; lia|unfold size_of; lia|].
  exists r, d'. split; [done|]. by rewrite Sd'.
Qed.

(** * What a compressed file describes *)

(** A byte, or [size] bytes from [offset + 3] behind what comes next; the data grows
    to the front. *)
Inductive Token := Literal (x : Z) | Reference (offset size : Z).
Definition token_ok (t : Token) : Prop :=
  match t with Literal x => in_range 8 x | Reference o n => 0 <= o < 2 ^ 12 ∧ 3 <= n <= 18 end.

Fixpoint behind (n k : nat) (D : list Z) : option (list Z) :=
  match n with O => Some D | S n => x ← D !! k; behind n k (x :: D) end.
Definition unpack (D : list Z) (t : Token) : option (list Z) :=
  match t with Literal x => Some (x :: D) | Reference o n => behind (Z.to_nat n) (Z.to_nat o + 2) D end.
Fixpoint unpack_all (D : list Z) (ts : list Token) : option (list Z) :=
  match ts with [] => Some D | t :: ts => D ← unpack D t; unpack_all D ts end.

(** Its bytes in the order they are read, from the end: eight tokens with a byte of
    flags before them. *)
Definition is_reference (t : Token) : bool := match t with Literal _ => false | Reference _ _ => true end.
Definition token_bytes (t : Token) : list Z :=
  match t with Literal x => [x] | Reference o n => [(n - 3) * 2 ^ 4 + o / 2 ^ 8; o mod 2 ^ 8] end.
Fixpoint control_byte (flags : list bool) : Z :=
  match flags with [] => 0 | b :: flags => (if b then 128 else 0) + control_byte flags / 2 end.
Definition group (ts : list Token) : list Z := control_byte (is_reference <$> ts) :: (ts ≫= token_bytes).
Fixpoint stream (fuel : nat) (ts : list Token) : list Z :=
  match fuel, ts with
  | S fuel, _ :: _ => group (take 8 ts) ++ stream fuel (drop 8 ts)
  | _, _ => []
  end.

Lemma control_byte_multiple flags : (length flags <= 8)%nat ->
  0 <= control_byte flags < 256 ∧ ∃ k, control_byte flags = k * 2 ^ (8 - Z.of_nat (length flags)).
Proof.
  induction flags as [|b l IH]; intros L; cbn [control_byte length] in *; [split; [lia|by exists 0]|].
  destruct (IH ltac:(lia)) as [B [k E]]. split; [destruct b; modlia|].
  replace (8 - Z.of_nat (length l)) with (8 - Z.of_nat (S (length l)) + 1) in E by lia. rewrite Z.pow_add_r in E by lia.
  assert (E2 : control_byte l / 2 = k * 2 ^ (8 - Z.of_nat (S (length l)))) by (rewrite E; change (2 ^ 1) with 2; rewrite Z.mul_assoc, Z.div_mul; lia).
  rewrite E2. destruct b; [|by exists k]. exists (2 ^ Z.of_nat (length l) + k). rewrite Z.mul_add_distr_r, <- Z.pow_add_r by lia.
  by replace (Z.of_nat (length l) + _) with 7 by lia.
Qed.

Lemma control_step b flags : (length flags <= 7)%nat ->
  nz (control_byte (b :: flags) .& 0x80) = b ∧ u8 (control_byte (b :: flags) ≪ 1) = control_byte flags.
Proof.
  intros L. destruct (control_byte_multiple flags ltac:(lia)) as [B [k E]].
  assert (Ev : control_byte flags = 2 * (control_byte flags / 2)).
  { replace (8 - Z.of_nat (length flags)) with (1 + (7 - Z.of_nat (length flags))) in E by lia. rewrite Z.pow_add_r in E by lia.
    rewrite E. replace (k * (2 ^ 1 * _)) with ((k * 2 ^ (7 - Z.of_nat (length flags))) * 2) by lia. rewrite Z.div_mul by done. lia. }
  cbn [control_byte]. set (h := control_byte flags / 2) in *. split.
  - rewrite nz_top by (destruct b; lia). destruct b; [apply Z.leb_le|apply Z.leb_gt]; lia.
  - rewrite shiftl_mul by done. rewrite Ev. unfold uwrap. destruct b; modlia.
Qed.

Lemma reference_word o n : 0 <= o < 2 ^ 12 -> 3 <= n <= 18 ->
  let w := (o mod 2 ^ 8) .| (((n - 3) * 2 ^ 4 + o / 2 ^ 8) ≪ 8) in ((w ≫ 12) .& 15) + 3 = n ∧ w .& 0x0FFF = o.
Proof.
  intros Ho Hn w. assert (E : w = (n - 3) * 2 ^ 12 + o).
  { unfold w. rewrite lor_add by (done || (unfold in_range; apply Z.mod_pos_bound; done)). modlia. }
  rewrite E. change 15 with (2 ^ 4 - 1). change 0x0FFF with (2 ^ 12 - 1). rewrite shiftr_div, !land_mask by done. split; modlia.
Qed.

Definition token_size (t : Token) : nat := match t with Literal _ => 1 | Reference _ n => Z.to_nat n end.
Definition total_size (ts : list Token) : nat := sum_list_with token_size ts.

Lemma behind_length n : ∀ k D D', behind n k D = Some D' -> length D' = (n + length D)%nat.
Proof.
  induction n as [|n IH]; intros k D D' E; cbn [behind] in E; [by injection E as <-|].
  apply bind_Some in E as (x & _ & E). apply IH in E. cbn [length] in E. lia.
Qed.
Lemma unpack_all_length ts : ∀ D D', unpack_all D ts = Some D' -> length D' = (total_size ts + length D)%nat.
Proof.
  unfold total_size. induction ts as [|t ts IH]; intros D D' E; cbn [unpack_all sum_list_with] in *; [by injection E as <-|].
  apply bind_Some in E as (D1 & E1 & E). apply IH in E. rewrite E. destruct t as [x|o n]; cbn [unpack token_size] in *.
  - injection E1 as <-. cbn [length]. lia.
  - apply behind_length in E1. lia.
Qed.

(** The destination: what has not been written yet, then the data. *)
Lemma put_byte_last keep y x D : put_byte ((keep ++ [y]) ++ D) (size_of (keep ++ [y]) - 1) x = keep ++ x :: D.
Proof.
  unfold put_byte. rewrite size_app. change (size_of [y]) with 1. replace (size_of keep + 1 - 1) with (size_of keep) by lia.
  unfold size_of. rewrite Nat2Z.id, <- app_assoc. rewrite insert_app_r_alt, Nat.sub_diag by lia. done.
Qed.

Lemma byte_of_data keep D (k : nat) : byte_of (keep ++ D) (size_of keep + Z.of_nat k) = D !! k.
Proof.
  unfold byte_of, size_of. rewrite (proj2 (Z.leb_le _ _)) by lia. rewrite <- Nat2Z.inj_add, Nat2Z.id, lookup_app_r, Nat.add_sub_swap, Nat.sub_diag by lia.
  cbn [andb Nat.add]. destruct (Z.ltb_spec (Z.of_nat (length keep + k)) (Z.of_nat (length (keep ++ D)))) as [H|H]; [done|].
  symmetry. apply lookup_ge_None. rewrite length_app in H. lia.
Qed.

Lemma copy_segment_behind n : ∀ keep1 keep2 D D' k, behind n k D = Some D' -> length keep2 = n ->
  copy_segment n (Z.of_nat k) (size_of (keep1 ++ keep2)) ((keep1 ++ keep2) ++ D) = Some (inr (size_of keep1, keep1 ++ D')).
Proof.
  induction n as [|n IH]; intros keep1 keep2 D D' k E L; cbn [behind copy_segment] in *.
  - injection E as <-. destruct keep2; [|done]. by rewrite app_nil_r.
  - apply bind_Some in E as (x & Hx & E). pose proof (lookup_lt_Some _ _ _ Hx) as Lx.
    rewrite (proj2 (Z.leb_gt _ _)) by (rewrite (size_app (keep1 ++ keep2)); unfold size_of; lia).
    rewrite byte_of_data, Hx. cbn [mbind option_bind].
    destruct (exists_last (l := keep2)) as (l & y & ->); [by destruct keep2|]. rewrite length_app in L. cbn [length] in L.
    rewrite (proj2 (Z.leb_gt _ _)) by (rewrite !size_app; change (size_of [y]) with 1; pose proof (size_nonneg keep1); pose proof (size_nonneg l); lia).
    rewrite (app_assoc keep1 l [y]), put_byte_last. replace (size_of ((keep1 ++ l) ++ [y]) - 1) with (size_of (keep1 ++ l)) by (rewrite (size_app (keep1 ++ l)); change (size_of [y]) with 1; lia).
    apply (IH keep1 l (x :: D)); [done|lia].
Qed.

Section reading.
Context (compressed p : list Z).

(** What is left to be read: the next byte is just below the index. *)
Definition left_to_read (rest : list Z) : Prop := ∃ tail, compressed = p ++ rev rest ++ tail.
Lemma left_next x rest : left_to_read (x :: rest) -> byte_of compressed (size_of p + size_of rest) = Some x ∧ left_to_read rest.
Proof.
  intros [tail E]. cbn [rev] in E. split; [|exists (x :: tail); by rewrite E, <- app_assoc].
  rewrite E, <- app_assoc. cbn [app]. rewrite app_assoc. replace (size_of p + size_of rest) with (size_of (p ++ rev rest) + Z.of_nat 0).
  - by rewrite byte_of_data.
  - unfold size_of. rewrite length_app, length_rev. lia.
Qed.

Lemma token_bytes_positive t : 1 <= size_of (token_bytes t).
Proof. by destruct t. Qed.

Lemma flags_tokens ts : ∀ n D D' keep1 keep2 rest, (length ts <= n <= 8)%nat -> length ts = n ∨ rest = [] ->
  unpack_all D ts = Some D' -> length keep2 = total_size ts -> Forall token_ok ts -> left_to_read ((ts ≫= token_bytes) ++ rest) ->
  lzss_flags compressed (size_of p) n (control_byte (is_reference <$> ts)) (size_of p + size_of ((ts ≫= token_bytes) ++ rest))
    (size_of (keep1 ++ keep2)) ((keep1 ++ keep2) ++ D) = Some (inr (size_of p + size_of rest, size_of keep1, keep1 ++ D')) ∧
  left_to_read rest.
Proof.
  unfold total_size. induction ts as [|t ts IH]; intros n D D' keep1 keep2 rest Ln Fi U Lk Ok Lr; cbn [unpack_all sum_list_with mbind list_bind] in *.
  - injection U as <-. destruct keep2; [|done]. rewrite app_nil_r. split; [|done]. destruct n as [|n]; [done|]. destruct Fi as [| ->]; [done|].
    cbn [lzss_flags app]. rewrite Z.add_0_r, Z.leb_refl. done.
  - destruct n as [|n]; [simpl in Ln; lia|]. apply bind_Some in U as (D1 & U1 & U). apply Forall_cons in Ok as [Okt Ok].
    pose proof (token_bytes_positive t) as Pt. pose proof (size_nonneg ((ts ≫= token_bytes) ++ rest)) as Pr. pose proof (size_nonneg p) as Pp. pose proof (size_nonneg keep1) as Pk.
    assert (Ps : (1 <= token_size t)%nat) by (destruct t; cbn in *; lia).
    destruct (control_step (is_reference t) (is_reference <$> ts)) as [C1 C2]; [rewrite length_fmap; simpl in Ln; lia|].
    change (is_reference <$> t :: ts) with (is_reference t :: (is_reference <$> ts)). cbn [lzss_flags].
    rewrite <- (app_assoc (token_bytes t)) in *. set (R := (ts ≫= token_bytes) ++ rest) in *.
    assert (Pk2 : 1 <= size_of keep2) by (unfold size_of; lia).
    replace (_ || _ || _) with false. 2: { symmetry. rewrite !orb_false_iff, !Z.leb_gt, !size_app. lia. }
    rewrite C1, C2. destruct t as [x|o m]; cbn [is_reference token_bytes token_size unpack token_ok app] in *.
    + injection U1 as <-. destruct (left_next _ _ Lr) as [B Lr'].
      destruct (exists_last (l := keep2)) as (l & y & ->); [by destruct keep2|]. rewrite length_app in Lk. cbn [length] in Lk.
      rewrite (proj2 (Z.ltb_ge _ _)) by (rewrite !size_app; change (size_of [y]) with 1; pose proof (size_nonneg l); lia).
      rewrite size_cons. replace (size_of p + (1 + size_of R) - 1) with (size_of p + size_of R) by lia. rewrite B. cbn [mbind option_bind].
      rewrite (app_assoc keep1 l [y]), put_byte_last.
      replace (size_of ((keep1 ++ l) ++ [y]) - 1) with (size_of (keep1 ++ l)) by (rewrite (size_app (keep1 ++ l)); change (size_of [y]) with 1; lia).
      apply (IH n (x :: D) D' keep1 l rest); [simpl in Ln; lia|simpl in Fi; destruct Fi; [left; lia|by right]|done|lia|done|done].
    + destruct (left_next _ _ Lr) as [Bh Lr1]. destruct (left_next _ _ Lr1) as [Bl Lr2]. destruct Okt as [Ho Hm].
      rewrite !size_cons in *. rewrite (proj2 (Z.ltb_ge _ 2)) by lia.
      replace (size_of p + (1 + (1 + size_of R)) - 2) with (size_of p + size_of R) by lia. rewrite Bl.
      replace (size_of p + size_of R + 1) with (size_of p + (1 + size_of R)) by lia. rewrite Bh. cbn [mbind option_bind]. cbv zeta.
      destruct (reference_word o m Ho Hm) as [W1 W2]. cbv zeta in W1, W2. rewrite W1, W2.
      rewrite <- (take_drop (length keep2 - Z.to_nat m) keep2). set (l1 := take _ keep2). set (l2 := drop _ keep2).
      assert (L2 : length l2 = Z.to_nat m) by (unfold l2; rewrite length_drop; lia).
      assert (L1 : length l1 = sum_list_with token_size ts) by (unfold l1; rewrite length_take; lia).
      rewrite (proj2 (Z.ltb_ge _ _)) by (rewrite !size_app; pose proof (size_nonneg l1); assert (size_of l2 = m) by (unfold size_of; lia); lia).
      rewrite (app_assoc keep1 l1 l2). replace (o + 2) with (Z.of_nat (Z.to_nat o + 2)) by lia.
      rewrite (copy_segment_behind _ (keep1 ++ l1) l2 D D1 _ U1 L2). cbn [mbind option_bind].
      apply (IH n D1 D' keep1 l1 rest); [simpl in Ln; lia|simpl in Fi; destruct Fi; [left; lia|by right]|done|done|done|done].
Qed.
Lemma unpack_all_app ts1 ts2 : ∀ D, unpack_all D (ts1 ++ ts2) = D ← unpack_all D ts1; unpack_all D ts2.
Proof.
  induction ts1 as [|t ts1 IH]; intros D; cbn [app unpack_all]; [done|]. destruct (unpack D t); [|done]. cbn [mbind option_bind]. apply IH.
Qed.
Lemma total_size_app ts1 ts2 : total_size (ts1 ++ ts2) = (total_size ts1 + total_size ts2)%nat.
Proof. apply sum_list_with_app. Qed.

Lemma loop_stream fuel : ∀ sf ts D D' keep1 keep2, unpack_all D ts = Some D' -> length keep2 = total_size ts -> Forall token_ok ts ->
  left_to_read (stream sf ts) -> (length ts <= sf)%nat -> size_of (stream sf ts) <= Z.of_nat fuel ->
  lzss_loop compressed (size_of p) fuel (size_of p + size_of (stream sf ts)) (size_of (keep1 ++ keep2)) ((keep1 ++ keep2) ++ D) =
  Some (true, keep1 ++ D').
Proof.
  induction fuel as [|fuel IH]; intros sf ts D D' keep1 keep2 U Lk Ok Lr Ls Lf.
  all: destruct ts as [|t l]; [injection U as <-; destruct keep2; [|done]; rewrite app_nil_r;
    assert (stream sf [] = []) as -> by (by destruct sf); cbn [lzss_loop]; change (size_of []) with 0; by rewrite Z.add_0_r, Z.ltb_irrefl|].
  all: destruct sf as [|sf]; [simpl in Ls; lia|]; cbn [stream] in *; set (ts := t :: l) in *; unfold group in *; cbn [app] in *; rewrite size_cons in *.
  1: pose proof (size_nonneg ((take 8 ts ≫= token_bytes) ++ stream sf (drop 8 ts))); lia.
  destruct (left_next _ _ Lr) as [B Lr']. set (rest := stream sf (drop 8 ts)) in *. set (bytes := take 8 ts ≫= token_bytes) in *.
  assert (E : ts = take 8 ts ++ drop 8 ts) by (by rewrite take_drop).
  assert (Tt : total_size ts = (total_size (take 8 ts) + total_size (drop 8 ts))%nat) by (rewrite E at 1; apply total_size_app).
  rewrite E, unpack_all_app in U. apply bind_Some in U as (D1 & U1 & U2). rewrite E, Forall_app in Ok. destruct Ok as [Ok1 Ok2].
  set (k1 := take (total_size (drop 8 ts)) keep2). set (k2 := drop (total_size (drop 8 ts)) keep2).
  assert (Ek : keep2 = k1 ++ k2) by (by unfold k1, k2; rewrite take_drop).
  destruct (flags_tokens (take 8 ts) 8 D D1 (keep1 ++ k1) k2 rest) as [F Lr2]; try done.
  { rewrite length_take. lia. }
  { destruct (Nat.le_gt_cases 8 (length ts)); [left; rewrite length_take; lia|right]. unfold rest. rewrite drop_ge by lia. by destruct sf. }
  { unfold k2. rewrite length_drop. lia. }
  cbn [lzss_loop]. rewrite (proj2 (Z.ltb_lt _ _)) by (pose proof (size_nonneg (bytes ++ rest)); lia).
  replace (size_of p + (1 + size_of (bytes ++ rest)) - 1) with (size_of p + size_of (bytes ++ rest)) by lia. rewrite B. cbn [mbind option_bind].
  rewrite Ek, (app_assoc keep1 k1 k2). fold bytes in F. rewrite F. cbn [mbind option_bind].
  apply (IH sf (drop 8 ts) D1 D' keep1 k1 U2); try done.
  - unfold k1. rewrite length_take. lia.
  - rewrite length_drop. change (length ts) with (S (length l)) in *. lia.
  - fold rest. rewrite size_app in Lf. pose proof (size_nonneg bytes). lia.
Qed.
End reading.

(** ** The file *)

(** What is not compressed, the tokens from the end, and the footer: the sizes of the
    footer and of what is compressed, and how much longer the data are. *)
Definition lzss_stream (ts : list Token) : list Z := stream (length ts) ts.
Definition lzss_file (p : list Z) (ts : list Token) (longer : Z) : list Z :=
  p ++ rev (lzss_stream ts) ++ le_split 4 (8 * 2 ^ 24 + (size_of (lzss_stream ts) + 8)) ++ le_split 4 longer.

(** C22: A file of a beginning that is not compressed and of tokens decompresses to the beginning and the data the tokens
    describe, in a buffer of the size that is read from the file, whatever is in the buffer. *)
Theorem LZSS_Decompress_tokens p ts D longer decompressed : unpack_all [] ts = Some D -> Forall token_ok ts ->
  size_of (lzss_stream ts) + 8 < 2 ^ 24 -> 0 <= longer < 2 ^ 32 -> size_of (lzss_file p ts longer) + longer = size_of (p ++ D) ->
  size_of (p ++ D) < 2 ^ 63 -> size_of decompressed = size_of (p ++ D) ->
  LZSS_GetDecompressedSize (lzss_file p ts longer) = Some (size_of (p ++ D)) ∧
  LZSS_Decompress (lzss_file p ts longer) decompressed = Some (true, p ++ D).
Proof.
  intros U Ok Ls Hl El Lp Ld. set (st := lzss_stream ts) in *. set (c := lzss_file p ts longer) in *.
  assert (L4 : ∀ v, size_of (le_split 4 v) = 4) by (intros v; unfold size_of; by rewrite length_le_split).
  assert (Ec : size_of c = size_of p + size_of st + 8).
  { unfold c, lzss_file. rewrite !size_app, !L4. unfold size_of. rewrite length_rev. fold st. lia. }
  pose proof (size_nonneg p) as P0. pose proof (size_nonneg st) as P1. split.
  - unfold LZSS_GetDecompressedSize. rewrite (slice_at c (p ++ rev st ++ le_split 4 (8 * 2 ^ 24 + (size_of st + 8))) (le_split 4 longer) []).
    + cbn [mbind option_bind]. rewrite le_combine_split, Z.mod_small by (change (8 * Z.of_nat 4) with 32; lia). rewrite uwrap_id by (unfold in_range; lia). f_equal. lia.
    + unfold c, lzss_file. fold st. by rewrite app_nil_r, <- !app_assoc.
    + rewrite Ec, !size_app, L4. unfold size_of. rewrite length_rev. lia.
    + by rewrite L4.
  - unfold LZSS_Decompress. rewrite (slice_at c (p ++ rev st) (le_split 4 (8 * 2 ^ 24 + (size_of st + 8))) (le_split 4 longer)).
    2: { unfold c, lzss_file. fold st. by rewrite <- !app_assoc. }
    2: { rewrite Ec, !size_app. unfold size_of. rewrite length_rev. lia. }
    2: { by rewrite L4. }
    cbn [mbind option_bind]. rewrite le_combine_split, Z.mod_small by (change (8 * Z.of_nat 4) with 32; lia).
    rewrite (proj2 (Z.leb_le _ _)) by lia.
    assert (H8 : ((8 * 2 ^ 24 + (size_of st + 8)) ≫ 24) .& 0xFF = 8).
    { change 0xFF with (2 ^ 8 - 1). rewrite land_mask, shiftr_div by done. rewrite Z.div_add_l, (Z.div_small (size_of st + 8)) by lia. done. }
    assert (Hs : (8 * 2 ^ 24 + (size_of st + 8)) .& 0xFFFFFF = size_of st + 8).
    { change 0xFFFFFF with (2 ^ 24 - 1). rewrite land_mask, Z.add_comm, Z.mod_add, Z.mod_small by lia. done. }
    rewrite H8, Hs. rewrite !uwrap_id by (unfold in_range; lia).
    replace (size_of c - 8) with (size_of p + size_of st) by lia. replace (size_of c - (size_of st + 8)) with (size_of p) by lia.
    assert (Lr : left_to_read c p st) by (eexists; reflexivity).
    rewrite Ld. set (d0 := c ++ _). assert (Sd : size_of d0 = size_of (p ++ D)) by (unfold d0; rewrite size_app, size_replicate; lia).
    assert (Ed : d0 = (p ++ drop (length p) d0) ++ []).
    { assert (X : ∃ x, d0 = p ++ x) by (eexists; unfold d0, c, lzss_file; by rewrite <- app_assoc). destruct X as [x Ex].
      by rewrite app_nil_r, Ex, drop_app_length. }
    assert (Ek : length (drop (length p) d0) = total_size ts).
    { apply unpack_all_length in U. rewrite length_drop. rewrite size_app in Sd. unfold size_of in Sd. cbn [length] in U. lia. }
    rewrite <- Sd. rewrite Ed at 1 2. rewrite app_nil_r at 1.
    apply (loop_stream c p _ (length ts) ts [] D p _ U Ek Ok Lr); [done|]. fold st. unfold lzss_stream in st. fold st. unfold size_of in *. lia.
Qed.
