(* ===== verification/PatchExamples.v ===== *)
(** The theorems about patches and compressed code on small files, and files that the
    code reads outside of. *)

From Stdlib Require Import String Ascii.
From S2P Require Import Prelude Patch Lzss.

(** * IPS *)

Definition demo_records : list IpsRecord := [IpsData 1 [7; 8]; IpsFill 4 2 9; IpsData 7 [1; 1]].

(** The last record does not fit. *)
Lemma ApplyIpsPatch_correct_witness :
  ApplyIpsPatch (ips_file demo_records) (replicate 10 0) = Some (true, [0; 7; 8; 0; 9; 9; 0; 1; 1; 0]) ∧
  ApplyIpsPatch (ips_file demo_records) (replicate 8 0) = Some (false, [0; 7; 8; 0; 9; 9; 0; 0]).
Proof.
  assert (Ok : Forall record_ok demo_records) by (repeat constructor; by vm_compute).
  split; (etrans; [apply ApplyIpsPatch_correct; [exact Ok|by vm_compute]|by vm_compute]).
Defined.

(** A record whose bytes end behind the file is read all the same. *)
Example ips_short_record : ApplyIpsPatch (char_bytes "PATCH" ++ be3 1 ++ be2 9 ++ [1; 2] ++ char_bytes "EOF") (replicate 10 0) = None.
Proof. by vm_compute. Qed.

(** * BPS *)

Definition demo_checksum (bs : list Z) : Z := u32 (foldl (fun acc b => 31 * acc + b) 17 bs).
Definition demo_commands : list Command := [CSourceRead 2; CTargetRead [9; 8]; CTargetCopy 1 5; CSourceCopy 0 2].
Definition demo_source : list Z := [1; 2; 3; 4].
Definition demo_target : list Z := [1; 2; 9; 8; 2; 9; 8; 2; 9; 1; 2].
Definition demo_patch : list Z := bps_file demo_checksum demo_source demo_target demo_commands [0; 0; 0; 0].

Lemma demo_checksum_word bs : in_range 32 (demo_checksum bs).
Proof. by apply uwrap_range. Qed.

Lemma ApplyBpsPatch_correct_witness :
  Bps.ApplyBpsPatch demo_checksum demo_patch demo_source = Some (true, demo_target) ∧
  Bps.ApplyBpsPatch demo_checksum demo_patch [1; 2; 3; 5] = Some (false, [1; 2; 3; 5; 0; 0; 0; 0; 0; 0; 0]).
Proof.
  destruct (ApplyBpsPatch_correct demo_checksum demo_checksum_word demo_source demo_target demo_commands [0; 0; 0; 0]) as [H1 H2]; [by vm_compute..|].
  split.
  - etrans; [eapply H1; [reflexivity|reflexivity|repeat constructor; by vm_compute]|by vm_compute].
  - etrans; [apply H2; [done|by vm_compute]|by vm_compute].
Defined.

(** A copy from before the start of the target: the sum of the offset, which has wrapped,
    and the length is small, and the check lets it pass. *)
Definition bps_before_start : list Z :=
  char_bytes "BPS1" ++ number 0 ++ number 2 ++ number 0 ++ number 7 ++ number 3 ++ le_split 4 (demo_checksum []) ++ replicate 8 0.
Example bps_wraps : Bps.ApplyBpsPatch demo_checksum bps_before_start [] = None.
Proof. by vm_compute. Qed.

(** A file of three bytes has no magic number to compare. *)
Example bps_too_short : Bps.ApplyBpsPatch demo_checksum [66; 80; 83] [] = None.
Proof. by vm_compute. Qed.

(** * LZSS *)

Definition demo_tokens : list Token :=
  [Literal 3; Literal 2; Literal 1; Reference 0 6; Literal 5; Literal 4; Reference 1 18; Literal 7; Literal 8].
Definition demo_data : list Z := default [] (unpack_all [] demo_tokens).

Lemma LZSS_Decompress_tokens_witness :
  unpack_all [] demo_tokens = Some demo_data ∧ List.length demo_data = 31%nat ∧
  LZSS_Decompress (lzss_file [10; 11] demo_tokens 10) (replicate 33 255) = Some (true, [10; 11] ++ demo_data).
Proof.
  split; [by vm_compute|]. split; [by vm_compute|].
  apply (LZSS_Decompress_tokens [10; 11] demo_tokens demo_data 10 (replicate 33 255)); try by vm_compute.
  repeat constructor; by vm_compute.
Defined.

(** Bytes that are no such file. *)
Lemma LZSS_Decompress_safe_witness : ∃ ok d',
  LZSS_Decompress [255; 255; 1; 2; 3; 4; 12; 0; 0; 9; 0; 0; 0; 0] (replicate 20 0) = Some (ok, d') ∧ size_of d' = 20.
Proof.
  apply (LZSS_Decompress_safe [255; 255; 1; 2; 3; 4; 12; 0; 0; 9; 0; 0; 0; 0] (replicate 20 0) [12; 0; 0; 9]); by vm_compute.
Defined.

(** A header that is longer than the file is not noticed. *)
Example lzss_long_header : LZSS_Decompress [1; 2; 10; 0; 0; 20; 0; 0; 0; 0] (replicate 20 0) = None.
Proof. by vm_compute. Qed.
