(* ===== verification/Audio.v ===== *)
(** The audio unit: the decoders of samples ([audio_core/codec.cpp]), the resampler
    ([audio_core/interpolate.cpp]) and the filters of a source
    ([audio_core/hle/filter.cpp]).  A stereo sample is a pair. *)

From S2P Require Import Prelude.

Definition Sample : Type := Z * Z.
Definition clamp (v lo hi : Z) : Z := if v <? lo then lo else if hi <? v then hi else v.
Definition clamp16 (v : Z) : Z := clamp v (-32768) 32767.

(** * Decoders *)

Definition fill (s : Z) : Sample := (s, s).
(** [ret[i] = s]: inside of the buffer. *)
Definition put_sample (ret : list Sample) (i : nat) (s : Sample) : option (list Sample) :=
  if decide (i < length ret)%nat then Some (<[i := s]> ret) else None.

(* src: audio_core/codec.h | struct ADPCMState { *)
Record ADPCMState := mk_ADPCMState { yn1 : Z; yn2 : Z }.

(* src: audio_core/codec.cpp | constexpr std::size_t FRAME_LEN = 8; *)
Definition FRAME_LEN : nat := 8.
(* src: audio_core/codec.cpp | constexpr std::size_t SAMPLES_PER_FRAME = 14; *)
Definition SAMPLES_PER_FRAME : nat := 14.
(* src: audio_core/codec.cpp | static constexpr std::array<int, 16> SIGNED_NIBBLES{ *)
Definition SIGNED_NIBBLES : list Z := [0; 1; 2; 3; 4; 5; 6; 7; -8; -7; -6; -5; -4; -3; -2; -1].

(** A nibble of a frame with its scale and coefficients. *)
(* src: audio_core/codec.cpp | const auto decode_sample = [&](const int nibble) -> s16 { *)
Definition decode_sample (scale coef1 coef2 nibble : Z) (s : ADPCMState) : Z * ADPCMState :=
  let xn := nibble * scale in
  let val := s32 ((xn ≪ 11) + 0x400 + coef1 * yn1 s + coef2 * yn2 s) ≫ 11 in
  let val := clamp16 val in
  (val, mk_ADPCMState val (yn1 s)).

Section adpcm.
Context (data : list Z) (sample_count : nat) (adpcm_coeff : list Z).

(* src: audio_core/codec.cpp | for (std::size_t i = 0; i < SAMPLES_PER_FRAME && outputi < sample_count; i += 2) { | DecodeADPCM *)
Fixpoint adpcm_pairs (n : nat) (scale coef1 coef2 : Z) (outputi datai : nat) (ret : list Sample) (s : ADPCMState)
    : option (list Sample * ADPCMState) :=
  match n with
  | O => Some (ret, s)
  | S n =>
      if decide (outputi < sample_count)%nat then
        byte ← data !! datai;
        let '(sample1, s) := decode_sample scale coef1 coef2 (SIGNED_NIBBLES !!! Z.to_nat (byte ≫ 4)) s in
        ret ← put_sample ret outputi (fill sample1);
        let '(sample2, s) := decode_sample scale coef1 coef2 (SIGNED_NIBBLES !!! Z.to_nat (byte .& 0xF)) s in
        ret ← put_sample ret (outputi + 1) (fill sample2);
        adpcm_pairs n scale coef1 coef2 (outputi + 2) (datai + 1) ret s
      else Some (ret, s)
  end.

(* src: audio_core/codec.cpp | for (std::size_t framei = 0; framei < NUM_FRAMES; framei++) { | DecodeADPCM *)
Fixpoint adpcm_frames (n framei : nat) (ret : list Sample) (s : ADPCMState) : option (list Sample * ADPCMState) :=
  match n with
  | O => Some (ret, s)
  | S n =>
      frame_header ← data !! (framei * FRAME_LEN)%nat;
      let scale := 1 ≪ (frame_header .& 0xF) in
      let idx := (frame_header ≫ 4) .& 0x7 in
      coef1 ← adpcm_coeff !! Z.to_nat (idx * 2 + 0);
      coef2 ← adpcm_coeff !! Z.to_nat (idx * 2 + 1);
      '(ret, s) ← adpcm_pairs (SAMPLES_PER_FRAME / 2) scale coef1 coef2 (framei * SAMPLES_PER_FRAME) (framei * FRAME_LEN + 1) ret s;
      adpcm_frames n (framei + 1) ret s
  end.

(* src: audio_core/codec.cpp | StereoBuffer16 DecodeADPCM(const u8* const data, const std::size_t sample_count, *)
Definition DecodeADPCM (state : ADPCMState) : option (list Sample * ADPCMState) :=
  let ret_size := if Nat.even sample_count then sample_count else (sample_count + 1)%nat in
  let NUM_FRAMES := ((sample_count + (SAMPLES_PER_FRAME - 1)) / SAMPLES_PER_FRAME)%nat in
  '(ret, s) ← adpcm_frames NUM_FRAMES 0 (replicate ret_size (0, 0)) state;
  Some (ret, mk_ADPCMState (s16 (yn1 s)) (s16 (yn2 s))).
End adpcm.

(** The samples of the plain encodings one after the other. *)
Fixpoint each {A} (n : nat) (f : nat -> option A) (i : nat) : option (list A) :=
  match n with O => Some [] | S n => x ← f i; xs ← each n f (i + 1)%nat; Some (x :: xs) end.

(* src: audio_core/codec.cpp | StereoBuffer16 DecodePCM8(const unsigned num_channels, const u8* const data, *)
Definition DecodePCM8 (num_channels : Z) (data : list Z) (sample_count : nat) : option (list Sample) :=
  let decode_sample sample := s16 (u16 sample ≪ 8) in
  if num_channels =? 1 then each sample_count (fun i => b ← data !! i; Some (fill (decode_sample b))) 0
  else if num_channels =? 2 then
    each sample_count (fun i => l ← data !! (i * 2)%nat; r ← data !! (i * 2 + 1)%nat; Some (decode_sample l, decode_sample r)) 0
  else None.

(** A little-endian word of the data. *)
Definition pcm16 (data : list Z) (i : nat) : option Z :=
  lo ← data !! i; hi ← data !! (i + 1)%nat; Some (s16 (lo + hi * 2 ^ 8)).

(* src: audio_core/codec.cpp | StereoBuffer16 DecodePCM16(const unsigned num_channels, const u8* const data, *)
Definition DecodePCM16 (num_channels : Z) (data : list Z) (sample_count : nat) : option (list Sample) :=
  if num_channels =? 1 then each sample_count (fun i => fill <$> pcm16 data (i * 2)) 0
  else if num_channels =? 2 then
    each sample_count (fun i => l ← pcm16 data (i * 4); r ← pcm16 data (i * 4 + 2); Some (l, r)) 0
  else None.

(** * Resampling *)

(* src: audio_core/interpolate.h | struct State { *)
Record InterpState := mk_InterpState { xn1 : Sample; xn2 : Sample; fposition : Z }.

(* src: audio_core/interpolate.cpp | constexpr u64 scale_factor = 1 << 24; *)
Definition scale_factor : Z := 2 ^ 24.
(* src: audio_core/interpolate.cpp | constexpr u64 scale_mask = scale_factor - 1; *)
Definition scale_mask : Z := scale_factor - 1.

Section step.
Context (fn : Z -> Sample -> Sample -> Sample -> Sample) (step_size : Z).

(** The positions, the frame and its index when the loop is left. *)
(* src: audio_core/interpolate.cpp | while (outputi < output.size()) { | StepOverSamples *)
Fixpoint step_over (fuel : nat) (input : list Sample) (fposition : Z) (inputi : nat) (output : list Sample) (outputi : nat)
    : Z * nat * list Sample * nat :=
  match fuel with
  | O => (fposition, inputi, output, outputi)
  | S fuel =>
      if decide (outputi < length output)%nat then
        let inputi := Z.to_nat (fposition / scale_factor) in
        if decide (length input <= inputi + 2)%nat then (fposition, length input - 2, output, outputi)%nat
        else
          let fraction := fposition .& scale_mask in
          let y := fn fraction (input !!! inputi) (input !!! (inputi + 1)%nat) (input !!! (inputi + 2)%nat) in
          step_over fuel input (u64 (fposition + step_size)) inputi (<[outputi := y]> output) (outputi + 1)
      else (fposition, inputi, output, outputi)
  end.

(** The state, what is left of the input, the frame and its index. *)
(* src: audio_core/interpolate.cpp | static void StepOverSamples(State& state, StereoBuffer16& input, float rate, StereoFrame16& output, *)
Definition StepOverSamples (state : InterpState) (input output : list Sample) (outputi : nat)
    : InterpState * list Sample * list Sample * nat :=
  match input with
  | [] => (state, input, output, outputi)
  | _ =>
      let input := xn2 state :: xn1 state :: input in
      let '(fpos, inputi, output, outputi) := step_over (length output - outputi) input (fposition state) 0 output outputi in
      (mk_InterpState (input !!! (inputi + 1)%nat) (input !!! inputi) (u64 (fpos - Z.of_nat inputi * scale_factor)),
       drop (inputi + 2) input, output, outputi)
  end.
End step.

(** [static_cast<u64>(rate * scale_factor)] for a rate of [m * 2^e]. *)
(* src: audio_core/interpolate.cpp | const u64 step_size = static_cast<u64>(rate * scale_factor); | StepOverSamples *)
Definition rate_step (m e : Z) : Z := m ≪ (e + 24).

(* src: audio_core/interpolate.cpp | void None(State& state, StereoBuffer16& input, float rate, StereoFrame16& output, *)
Definition InterpNone step_size := StepOverSamples (fun _ x0 _ _ => x0) step_size.

(** The product of the fraction, which is unsigned, and a difference is unsigned. *)
(* src: audio_core/interpolate.cpp | s64 delta0 = std::clamp<s64>(x1[0] - x0[0], -32768, 32767); | Linear | ..}; *)
Definition linear (fraction : Z) (x0 x1 _ : Sample) : Sample :=
  let mix a b := s16 (u64 (a + u64 (fraction * clamp16 (b - a)) / scale_factor)) in
  (mix (fst x0) (fst x1), mix (snd x0) (snd x1)).
(* src: audio_core/interpolate.cpp | void Linear(State& state, StereoBuffer16& input, float rate, StereoFrame16& output, *)
Definition Linear step_size := StepOverSamples linear step_size.

(** * Filters *)

(* src: hle/filter.h | s32 a1, b0; | SimpleFilter | +3 *)
Record SimpleFilter := mk_SimpleFilter { sf_a1 : Z; sf_b0 : Z; sf_y1 : Sample }.
(* src: hle/filter.h | s32 a1, a2, b0, b1, b2; | BiquadFilter | +6 *)
Record BiquadFilter := mk_BiquadFilter {
  bf_a1 : Z; bf_a2 : Z; bf_b0 : Z; bf_b1 : Z; bf_b2 : Z; bf_x1 : Sample; bf_x2 : Sample; bf_y1 : Sample; bf_y2 : Sample
}.

(* src: hle/filter.cpp | void SourceFilters::SimpleFilter::Reset() { *)
Definition SimpleFilter_Reset : SimpleFilter := mk_SimpleFilter 0 (1 ≪ 15) (fill 0).
(* src: hle/filter.cpp | void SourceFilters::BiquadFilter::Reset() { *)
Definition BiquadFilter_Reset : BiquadFilter := mk_BiquadFilter 0 0 (1 ≪ 14) 0 0 (fill 0) (fill 0) (fill 0) (fill 0).
(* src: hle/filter.cpp | void SourceFilters::SimpleFilter::Configure( *)
Definition SimpleFilter_Configure (f : SimpleFilter) (b0 a1 : Z) : SimpleFilter := mk_SimpleFilter a1 b0 (sf_y1 f).
(* src: hle/filter.cpp | void SourceFilters::BiquadFilter::Configure( *)
Definition BiquadFilter_Configure (f : BiquadFilter) (a2 a1 b2 b1 b0 : Z) : BiquadFilter :=
  mk_BiquadFilter a1 a2 b0 b1 b2 (bf_x1 f) (bf_x2 f) (bf_y1 f) (bf_y2 f).

(* src: hle/filter.cpp | std::array<s16, 2> SourceFilters::SimpleFilter::ProcessSample(const std::array<s16, 2>& x0) { | SimpleFilter::ProcessSample | +11 *)
Definition SimpleFilter_ProcessSample (f : SimpleFilter) (x0 : Sample) : Sample * SimpleFilter :=
  let y x0 y1 := clamp16 (s32 (sf_b0 f * x0 + sf_a1 f * y1) ≫ 15) in
  let y0 := (y (fst x0) (fst (sf_y1 f)), y (snd x0) (snd (sf_y1 f))) in
  (y0, mk_SimpleFilter (sf_a1 f) (sf_b0 f) y0).

(* src: hle/filter.cpp | std::array<s16, 2> SourceFilters::BiquadFilter::ProcessSample(const std::array<s16, 2>& x0) { | BiquadFilter::ProcessSample | +14 *)
Definition BiquadFilter_ProcessSample (f : BiquadFilter) (x0 : Sample) : Sample * BiquadFilter :=
  let y x0 x1 x2 y1 y2 := clamp16 (s32 (bf_b0 f * x0 + bf_b1 f * x1 + bf_b2 f * x2 + bf_a1 f * y1 + bf_a2 f * y2) ≫ 14) in
  let y0 := (y (fst x0) (fst (bf_x1 f)) (fst (bf_x2 f)) (fst (bf_y1 f)) (fst (bf_y2 f)),
             y (snd x0) (snd (bf_x1 f)) (snd (bf_x2 f)) (snd (bf_y1 f)) (snd (bf_y2 f))) in
  (y0, mk_BiquadFilter (bf_a1 f) (bf_a2 f) (bf_b0 f) (bf_b1 f) (bf_b2 f) x0 (bf_x1 f) y0 (bf_y1 f)).

(* src: hle/common.h | void FilterFrame(FrameT& frame, FilterT& filter) { *)
Fixpoint FilterFrame {F} (process : F -> Sample -> Sample * F) (filter : F) (frame : list Sample) : list Sample * F :=
  match frame with
  | [] => ([], filter)
  | x :: frame => let '(y, filter) := process filter x in let '(ys, filter) := FilterFrame process filter frame in (y :: ys, filter)
  end.

(* src: hle/filter.h | bool simple_filter_enabled; | SourceFilters | +2 *)
Record SourceFilters := mk_SourceFilters {
  simple_filter_enabled : bool;
  biquad_filter_enabled : bool;
  simple_filter : SimpleFilter;
  biquad_filter : BiquadFilter
}.

(* src: hle/filter.cpp | void SourceFilters::Enable(bool simple, bool biquad) { *)
Definition Enable (s : SourceFilters) (simple biquad : bool) : SourceFilters :=
  mk_SourceFilters simple biquad (if simple then simple_filter s else SimpleFilter_Reset)
    (if biquad then biquad_filter s else BiquadFilter_Reset).
(* src: hle/filter.cpp | void SourceFilters::Reset() { *)
Definition SourceFilters_Reset (s : SourceFilters) : SourceFilters := Enable s false false.

(* src: hle/filter.cpp | void SourceFilters::ProcessFrame(StereoFrame16& frame) { *)
Definition ProcessFrame (s : SourceFilters) (frame : list Sample) : list Sample * SourceFilters :=
  if negb (simple_filter_enabled s) && negb (biquad_filter_enabled s) then (frame, s)
  else
    let '(frame, s) :=
      if simple_filter_enabled s
      then let '(frame, f) := FilterFrame SimpleFilter_ProcessSample (simple_filter s) frame in (frame, s<|simple_filter := f|>)
      else (frame, s) in
    if biquad_filter_enabled s
    then let '(frame, f) := FilterFrame BiquadFilter_ProcessSample (biquad_filter s) frame in (frame, s<|biquad_filter := f|>)
    else (frame, s).

(** * What the audio unit computes: ADPCM is the recurrence of its filter over the nibbles of
    the data, resampling does not depend on how the input is cut, and every sample stays a
    16-bit one. *)

Lemma clamp16_range v : in_srange 16 (clamp16 v).
Proof. unfold clamp16, clamp, in_srange. destruct (Z.ltb_spec v (-32768)); [lia|]. destruct (Z.ltb_spec 32767 v); lia. Qed.
Lemma clamp16_id v : in_srange 16 v -> clamp16 v = v.
Proof. unfold clamp16, clamp, in_srange. intros H. destruct (Z.ltb_spec v (-32768)); [lia|]. destruct (Z.ltb_spec 32767 v); lia. Qed.

(** * ADPCM *)

(** The [k]-th sample of the data: the header of its frame and its nibble. *)
Definition nibble_at (data : list Z) (k : nat) : Z :=
  let byte := data !!! (k / 14 * 8 + 1 + k mod 14 / 2)%nat in
  SIGNED_NIBBLES !!! Z.to_nat (if Nat.even k then byte ≫ 4 else byte .& 0xF).
Definition header_at (data : list Z) (k : nat) : Z := data !!! (k / 14 * 8)%nat.
Definition decode_at (data coeff : list Z) (k : nat) : ADPCMState -> Z * ADPCMState :=
  let header := header_at data k in
  let idx := (header ≫ 4) .& 0x7 in
  decode_sample (1 ≪ (header .& 0xF)) (coeff !!! Z.to_nat (idx * 2 + 0)) (coeff !!! Z.to_nat (idx * 2 + 1)) (nibble_at data k).

(** [n] samples from the [k]-th on. *)
Fixpoint decode_from (data coeff : list Z) (k n : nat) (s : ADPCMState) : list Z * ADPCMState :=
  match n with
  | O => ([], s)
  | S n => let '(y, s) := decode_at data coeff k s in let '(ys, s) := decode_from data coeff (S k) n s in (y :: ys, s)
  end.

Lemma decode_from_length data coeff n : ∀ k s, length (fst (decode_from data coeff k n s)) = n.
Proof.
  induction n as [|n IH]; intros k s; cbn [decode_from]; [done|]. destruct (decode_at _ _ _ _) as [y s']. specialize (IH (S k) s').
  destruct (decode_from _ _ _ _ _). cbn in *. by rewrite IH.
Qed.
Lemma decode_from_add data coeff a : ∀ b k s, decode_from data coeff k (a + b) s =
  let '(xs, s) := decode_from data coeff k a s in let '(ys, s) := decode_from data coeff (k + a) b s in (xs ++ ys, s).
Proof.
  induction a as [|a IH]; intros b k s; cbn [decode_from Nat.add]; [rewrite Nat.add_0_r; by destruct (decode_from _ _ _ _ _)|].
  destruct (decode_at _ _ _ _) as [y s1]. rewrite IH. replace (k + S a)%nat with (S k + a)%nat by lia.
  destruct (decode_from _ _ (S k) a _) as [xs s2]. by destruct (decode_from _ _ _ b _).
Qed.

Section adpcm.
Context (data coeff : list Z) (sample_count : nat) (Lc : length coeff = 16%nat) (Bd : Forall (in_range 8) data)
  (Ld : ((sample_count + 13) / 14 * 8 <= length data)%nat).

(** Rounded up to an even number. *)
Definition rounded : nat := if Nat.even sample_count then sample_count else (sample_count + 1)%nat.
Lemma rounded_spec : Nat.even rounded = true ∧ (sample_count <= rounded <= sample_count + 1)%nat ∧ (rounded <= (sample_count + 13) / 14 * 14)%nat.
Proof.
  unfold rounded. destruct (Nat.even sample_count) eqn:E.
  - split; [done|]. split; [lia|]. pose proof (Nat.div_mod (sample_count + 13) 14 ltac:(done)). pose proof (Nat.mod_upper_bound (sample_count + 13) 14 ltac:(done)). lia.
  - rewrite Nat.add_1_r, Nat.even_succ, <- Nat.negb_even, E. split; [done|]. split; [lia|].
    pose proof (Nat.div_mod (sample_count + 13) 14 ltac:(done)). pose proof (Nat.mod_upper_bound (sample_count + 13) 14 ltac:(done)).
    assert (O : Nat.odd sample_count = true) by (by rewrite <- Nat.negb_even, E). apply Nat.odd_spec in O as [q Eq]. lia.
Qed.

(** The buffer with the samples that have been written. *)
Definition decoded (done : list Sample) : list Sample := done ++ replicate (rounded - length done) (0, 0).
Lemma put_decoded done s : (length done < rounded)%nat -> put_sample (decoded done) (length done) s = Some (decoded (done ++ [s])).
Proof.
  intros H. unfold put_sample, decoded. rewrite decide_True by (rewrite length_app, length_replicate; lia).
  rewrite insert_app_r_alt, Nat.sub_diag, length_app by lia. replace (rounded - length done)%nat with (S (rounded - (length done + length [s]))) by (simpl; lia).
  cbn [replicate]. rewrite <- app_assoc. done.
Qed.

Lemma even_double x : Nat.even (14 * x) = true ∧ ∀ j, Nat.even (14 * x + 2 * j) = true.
Proof. split; [|intros j]; rewrite ?Nat.even_add, !Nat.even_mul; done. Qed.

Lemma decode_at_pair frame j (k := (14 * frame + 2 * j)%nat) : (j < 7)%nat ->
  let header := data !!! (frame * 8)%nat in
  let c1 := coeff !!! Z.to_nat (((header ≫ 4) .& 0x7) * 2 + 0) in
  let c2 := coeff !!! Z.to_nat (((header ≫ 4) .& 0x7) * 2 + 1) in
  let byte := data !!! (frame * 8 + 1 + j)%nat in
  decode_at data coeff k = decode_sample (1 ≪ (header .& 0xF)) c1 c2 (SIGNED_NIBBLES !!! Z.to_nat (byte ≫ 4)) ∧
  decode_at data coeff (S k) = decode_sample (1 ≪ (header .& 0xF)) c1 c2 (SIGNED_NIBBLES !!! Z.to_nat (byte .& 0xF)).
Proof.
  intros Hj header c1 c2 byte. unfold decode_at, nibble_at, header_at.
  assert (E0 : (k / 14 = frame ∧ k mod 14 = 2 * j)%nat).
  { unfold k. rewrite (Nat.mul_comm 14). split; [rewrite Nat.div_add_l, Nat.div_small by lia; lia|]. rewrite Nat.add_comm, Nat.Div0.mod_add. apply Nat.mod_small. lia. }
  assert (E1 : (S k / 14 = frame ∧ S k mod 14 = 2 * j + 1)%nat).
  { unfold k. replace (S (14 * frame + 2 * j)) with (2 * j + 1 + frame * 14)%nat by lia.
    split; [rewrite Nat.div_add, Nat.div_small by lia; lia|]. rewrite Nat.Div0.mod_add. apply Nat.mod_small. lia. }
  destruct E0 as [-> ->], E1 as [-> ->]. replace (2 * j / 2)%nat with j by (rewrite Nat.mul_comm, Nat.div_mul; lia).
  replace ((2 * j + 1) / 2)%nat with j by (rewrite Nat.mul_comm, Nat.div_add_l; simpl; lia).
  rewrite Nat.even_succ, <- Nat.negb_even. unfold k. rewrite (proj2 (even_double frame)). done.
Qed.

Lemma pairs_spec frame n : ∀ j done s, (j + n = 7)%nat -> (frame < (sample_count + 13) / 14)%nat ->
  length done = (14 * frame + 2 * j)%nat -> (length done <= rounded)%nat ->
  let header := data !!! (frame * 8)%nat in
  let '(ys, s') := decode_from data coeff (length done) ((2 * n) `min` (rounded - length done)) s in
  adpcm_pairs data sample_count n (1 ≪ (header .& 0xF)) (coeff !!! Z.to_nat (((header ≫ 4) .& 0x7) * 2 + 0))
    (coeff !!! Z.to_nat (((header ≫ 4) .& 0x7) * 2 + 1)) (14 * frame + 2 * j) (frame * 8 + 1 + j) (decoded done) s =
  Some (decoded (done ++ (fill <$> ys)), s').
Proof.
  destruct rounded_spec as (Re & Rb & _). induction n as [|n IH]; intros j done s Hj Hf Ld1 Lr header; cbn [adpcm_pairs].
  - change ((2 * 0) `min` (rounded - length done))%nat with 0%nat. cbn [decode_from fmap list_fmap]. by rewrite app_nil_r.
  - destruct (decide (14 * frame + 2 * j < sample_count)%nat) as [Lt|Ge].
    + assert (R2 : (2 <= rounded - length done)%nat).
      { destruct (Nat.eq_dec rounded (length done + 1)%nat) as [E|]; [|lia]. rewrite E, Ld1, Nat.add_1_r, Nat.even_succ, <- Nat.negb_even, (proj2 (even_double frame)) in Re. done. }
      destruct (decode_at_pair frame j ltac:(lia)) as [D0 D1]. cbv zeta in D0, D1. rewrite <- Ld1 in D0, D1.
      replace ((2 * S n) `min` (rounded - length done))%nat with (S (S ((2 * n) `min` (rounded - (length done + 2))))) by lia.
      cbn [decode_from]. rewrite D0, D1. 
      assert (Lb : (frame * 8 + 1 + j < length data)%nat) by lia.
      rewrite (list_lookup_lookup_total_lt _ _ Lb). cbn [mbind option_bind].
      destruct (decode_sample _ _ _ _ s) as [y1 s1]. rewrite <- Ld1, put_decoded by lia. cbn [mbind option_bind].
      destruct (decode_sample _ _ _ _ s1) as [y2 s2].
      specialize (IH (j + 1)%nat (done ++ [fill y1; fill y2]) s2 ltac:(lia) Hf). rewrite length_app in IH. cbn [length] in IH.
      replace (length done + 1)%nat with (length (done ++ [fill y1])) by (by rewrite length_app). rewrite put_decoded by (rewrite length_app; simpl; lia).
      cbn [mbind option_bind]. rewrite <- app_assoc. cbn [app].
      specialize (IH ltac:(lia) ltac:(lia)). cbv zeta in IH. replace (length done + 2)%nat with (S (S (length done))) in IH |- * by lia.
      destruct (decode_from data coeff (S (S (length done))) _ s2) as [ys s']. rewrite fmap_cons, fmap_cons.
      replace (14 * frame + 2 * (j + 1))%nat with (length done + 2)%nat in IH by lia. replace (frame * 8 + 1 + (j + 1))%nat with (frame * 8 + 1 + j + 1)%nat in IH by lia.
      replace (S (S (length done))) with (length done + 2)%nat by lia. fold header in IH. rewrite IH. by rewrite <- app_assoc.
    + assert (R0 : (rounded - length done = 0)%nat).
      { destruct (Nat.eq_dec rounded (length done + 1)%nat) as [E|]; [|lia]. rewrite E, Ld1, Nat.add_1_r, Nat.even_succ, <- Nat.negb_even, (proj2 (even_double frame)) in Re. done. }
      rewrite R0, Nat.min_0_r. cbn [decode_from fmap list_fmap]. by rewrite app_nil_r.
Qed.

Lemma frame_coefficients h : 0 <= (h ≫ 4) .& 0x7 < 8.
Proof. change 0x7 with (2 ^ 3 - 1). rewrite land_mask by done. by apply Z.mod_pos_bound. Qed.

Lemma frames_spec n : ∀ frame done s, (frame + n = (sample_count + 13) / 14)%nat -> length done = ((14 * frame) `min` rounded)%nat ->
  let '(ys, s') := decode_from data coeff (length done) (rounded - length done) s in
  adpcm_frames data sample_count coeff n frame (decoded done) s = Some (decoded (done ++ (fill <$> ys)), s').
Proof.
  destruct rounded_spec as (Re & Rb & Rn). induction n as [|n IH]; intros frame done s Hf Ld1; cbn [adpcm_frames].
  - replace (rounded - length done)%nat with 0%nat by lia. cbn [decode_from fmap list_fmap]. by rewrite app_nil_r.
  - pose proof (Nat.div_mod (sample_count + 13) 14 ltac:(done)) as Dm. pose proof (Nat.mod_upper_bound (sample_count + 13) 14 ltac:(done)) as Mb.
    assert (Lh : (frame * FRAME_LEN < length data)%nat) by (unfold FRAME_LEN; lia).
    rewrite (list_lookup_lookup_total_lt _ _ Lh). cbn [mbind option_bind]. change FRAME_LEN with 8%nat in *. set (header := data !!! _) in *.
    pose proof (frame_coefficients header) as Fc.
    rewrite !list_lookup_lookup_total_lt by lia. cbn [mbind option_bind].
    assert (L14 : length done = (14 * frame)%nat) by lia.
    pose proof (pairs_spec frame 7 0 done s eq_refl ltac:(lia) ltac:(lia) ltac:(lia)) as P. cbv zeta in P. fold header in P.
    replace (14 * frame + 2 * 0)%nat with (frame * SAMPLES_PER_FRAME)%nat in P by (unfold SAMPLES_PER_FRAME; lia).
    rewrite Nat.add_0_r in P. change (SAMPLES_PER_FRAME / 2)%nat with 7%nat. change (2 * 7)%nat with 14%nat in P.
    set (c := (14 `min` (rounded - length done))%nat) in *.
    replace (rounded - length done)%nat with (c + (rounded - (length done + c)))%nat by lia. rewrite decode_from_add.
    pose proof (decode_from_length data coeff c (length done) s) as Lx. destruct (decode_from data coeff (length done) c s) as [xs s1]. cbn [fst] in Lx.
    rewrite P. cbn [mbind option_bind].
    specialize (IH (frame + 1)%nat (done ++ (fill <$> xs)) s1 ltac:(lia)). rewrite length_app, length_fmap, Lx in IH. specialize (IH ltac:(lia)).
    destruct (decode_from data coeff (length done + c) _ s1) as [ys s2]. by rewrite IH, fmap_app, app_assoc.
Qed.

End adpcm.

(** * Resampling *)

Section resample.
Context (fn : Z -> Sample -> Sample -> Sample -> Sample) (step : Z) (Hs : 0 <= step).

Lemma fraction_mod pos : pos .& scale_mask = pos mod scale_factor.
Proof. unfold scale_mask, scale_factor. by apply land_mask. Qed.
Lemma scale_pos : 0 < scale_factor.
Proof. done. Qed.

Lemma position_shift pos k : 0 <= pos - Z.of_nat k * scale_factor ->
  Z.to_nat ((pos - Z.of_nat k * scale_factor) / scale_factor) = (Z.to_nat (pos / scale_factor) - k)%nat ∧
  (pos - Z.of_nat k * scale_factor) .& scale_mask = pos .& scale_mask ∧ (k <= Z.to_nat (pos / scale_factor))%nat.
Proof.
  intros H. rewrite !fraction_mod. pose proof scale_pos as Sp.
  assert (E : pos - Z.of_nat k * scale_factor = pos + (- Z.of_nat k) * scale_factor) by lia. rewrite E.
  assert (K : Z.of_nat k <= pos / scale_factor) by (apply Z.div_le_lower_bound; lia).
  rewrite Z.div_add, Z.mod_add by lia. split; [lia|]. split; [done|lia].
Qed.

(** More of the input behind what was there changes nothing until it is needed. *)
Lemma step_over_prefix A b fuel : ∀ pos i out oi, fuel = (length out - oi)%nat -> 0 <= pos -> pos + step * Z.of_nat fuel < 2 ^ 64 ->
  (i + 2 < length A)%nat ->
  let '(pos1, i1, out1, oi1) := step_over fn step fuel A pos i out oi in
  (length out1 <= oi1 ∧ i1 + 2 < length A ∧ length out1 = length out)%nat ∧ step_over fn step fuel (A ++ b) pos i out oi = (pos1, i1, out1, oi1) ∨
  (oi1 < length out1 ∧ i1 = length A - 2 ∧ length A <= Z.to_nat (pos1 / scale_factor) + 2 ∧ length out1 = length out)%nat ∧ 0 <= pos1 ∧
    pos1 + step * Z.of_nat (length out1 - oi1) < 2 ^ 64 ∧
    ∃ j, step_over fn step fuel (A ++ b) pos i out oi = step_over fn step (length out1 - oi1) (A ++ b) pos1 j out1 oi1.
Proof.
  induction fuel as [|fuel IH]; intros pos i out oi F P B I; [left; cbn [step_over]; split; [lia|done]|].
  cbn [step_over]. destruct (decide (oi < length out)%nat) as [_|]; [|lia]. set (n := Z.to_nat (pos / scale_factor)).
  destruct (decide (length A <= n + 2)%nat) as [Br|Go].
  - right. split; [lia|]. split; [done|]. rewrite <- F. split; [done|]. exists i. cbn [step_over]. destruct (decide (oi < length out)%nat); [done|lia].
  - rewrite (decide_False (P := (length (A ++ b) <= n + 2)%nat)) by (rewrite length_app; lia).
    rewrite !lookup_total_app_l by lia. set (out' := <[oi := _]> out).
    assert (Lo : length out' = length out) by (unfold out'; by rewrite length_insert).
    rewrite uwrap_id by (unfold in_range; lia).
    specialize (IH (pos + step) n out' (oi + 1)%nat ltac:(lia) ltac:(lia) ltac:(lia) ltac:(lia)).
    destruct (step_over fn step fuel A (pos + step) n out' (oi + 1)) as [[[pos1 i1] out1] oi1]. rewrite Lo in IH. exact IH.
Qed.

(** The window moves with the input. *)
Lemma step_over_shift L k fuel : ∀ pos i i' out oi, fuel = (length out - oi)%nat -> (0 < fuel)%nat -> 0 <= pos - Z.of_nat k * scale_factor ->
  pos + step * Z.of_nat fuel < 2 ^ 64 -> (k + 2 <= length L)%nat ->
  let '(pos1, i1, out1, oi1) := step_over fn step fuel L pos i out oi in
  step_over fn step fuel (drop k L) (pos - Z.of_nat k * scale_factor) i' out oi = (pos1 - Z.of_nat k * scale_factor, (i1 - k)%nat, out1, oi1) ∧
  (k <= i1 ∧ i1 + 1 < length L)%nat.
Proof.
  induction fuel as [|fuel IH]; intros pos i i' out oi F F0 P B I; [lia|]. cbn [step_over]. destruct (decide (oi < length out)%nat) as [_|]; [|lia].
  assert (K0 : 0 <= Z.of_nat k * scale_factor) by (unfold scale_factor; lia).
  destruct (position_shift pos k P) as (E1 & E2 & E3). rewrite E1, E2. set (n := Z.to_nat (pos / scale_factor)) in *. rewrite length_drop.
  destruct (decide (length L <= n + 2)%nat) as [Br|Go]; [rewrite decide_True by lia|rewrite decide_False by lia].
  - split; [do 3 f_equal; lia|lia].
  - rewrite !lookup_total_drop. replace (k + (n - k))%nat with n by lia. replace (k + (n - k + 1))%nat with (n + 1)%nat by lia.
    replace (k + (n - k + 2))%nat with (n + 2)%nat by lia. set (out' := <[oi := _]> out).
    assert (Lo : length out' = length out) by (unfold out'; by rewrite length_insert).
    rewrite !uwrap_id by (unfold in_range; lia). replace (pos - Z.of_nat k * scale_factor + step) with (pos + step - Z.of_nat k * scale_factor) by lia.
    destruct fuel as [|fuel]; [cbn [step_over]; split; [done|lia]|].
    apply (IH (pos + step) n (n - k)%nat out' (oi + 1)%nat); lia.
Qed.
Lemma StepOverSamples_cons st input out oi (A := xn2 st :: xn1 st :: input) : input ≠ [] ->
  StepOverSamples fn step st input out oi =
  let '(fpos, i, out, oi) := step_over fn step (length out - oi) A (fposition st) 0 out oi in
  (mk_InterpState (A !!! (i + 1)%nat) (A !!! i) (u64 (fpos - Z.of_nat i * scale_factor)), drop (i + 2) A, out, oi).
Proof. by destruct input. Qed.

Lemma u64_twice x : u64 (u64 x - Z.of_nat 0 * scale_factor) = u64 x.
Proof. rewrite Z.mul_0_l, Z.sub_0_r. by apply uwrap_idemp. Qed.

(** A frame that is full takes nothing. *)
Lemma StepOverSamples_full st input out oi : (length out <= oi)%nat -> u64 (fposition st) = fposition st ->
  StepOverSamples fn step st input out oi = (st, input, out, oi).
Proof.
  intros H U. destruct (decide (input = [])) as [->|N]; [done|]. rewrite StepOverSamples_cons by done.
  replace (length out - oi)%nat with 0%nat by lia. cbn [step_over]. rewrite Z.mul_0_l, Z.sub_0_r, U. by destruct st.
Qed.

(** C31: Resampling does not depend on how the input is cut: what two parts give one after the other, the second behind
    what was left of the first, is what they give together, whether the frame gets full or the input ends. *)
Theorem StepOverSamples_chunks st a b out oi : 0 <= fposition st -> fposition st + step * Z.of_nat (length out) < 2 ^ 64 ->
  let '(st1, rest, out1, oi1) := StepOverSamples fn step st a out oi in
  StepOverSamples fn step st1 (rest ++ b) out1 oi1 = StepOverSamples fn step st (a ++ b) out oi.
Proof.
  intros P B. destruct (decide (a = [])) as [->|Na]; [done|]. rewrite (StepOverSamples_cons st a) by done.
  rewrite (StepOverSamples_cons st (a ++ b)) by (by destruct a). set (A := xn2 st :: xn1 st :: a).
  change (xn2 st :: xn1 st :: a ++ b) with (A ++ b). assert (LA : (3 <= length A)%nat) by (destruct a; [done|cbn; lia]).
  pose proof (step_over_prefix A b (length out - oi) (fposition st) 0 out oi eq_refl P ltac:(nia) ltac:(lia)) as Pre.
  destruct (step_over fn step (length out - oi) A (fposition st) 0 out oi) as [[[pos1 i1] out1] oi1].
  destruct Pre as [[(H1 & H2 & _) ->]|[(H1 & -> & H3 & H4) (P1 & B1 & j & ->)]].
  - rewrite StepOverSamples_full; [|done|by apply uwrap_idemp].
    rewrite !lookup_total_app_l, drop_app_le by lia. done.
  - assert (K : Z.of_nat (length A - 2) <= pos1 / scale_factor) by lia.
    assert (K1 : Z.of_nat (length A - 2) * scale_factor <= pos1).
    { pose proof (Z.mul_div_le pos1 scale_factor scale_pos). unfold scale_factor in *. lia. }
    assert (P2 : pos1 < 2 ^ 64) by nia.
    assert (K0 : 0 <= Z.of_nat (length A - 2) * scale_factor) by (unfold scale_factor; lia).
    rewrite uwrap_id by (unfold in_range; lia). replace (length A - 2 + 2)%nat with (length A) by lia. rewrite drop_all. cbn [app].
    destruct (decide (b = [])) as [->|Nb].
    + rewrite app_nil_r. cbn [StepOverSamples]. replace (length out1 - oi1)%nat with (S (length out1 - oi1 - 1)) by lia. cbn [step_over].
      destruct (decide (oi1 < length out1)%nat) as [_|]; [|lia]. destruct (decide _) as [_|]; [|lia].
      replace (length A - 2 + 2)%nat with (length A) by lia. rewrite drop_all, uwrap_id by (unfold in_range; lia). done.
    + rewrite StepOverSamples_cons by done. cbn [xn1 xn2 fposition].
      set (k := (length A - 2)%nat) in *. replace (A !!! k :: A !!! (k + 1)%nat :: b) with (drop k (A ++ b)).
      2: { rewrite drop_app_le by lia. rewrite (drop_S A (A !!! k) k) by (apply list_lookup_lookup_total_lt; lia).
           rewrite (drop_S A (A !!! (k + 1)%nat) (S k)) by (rewrite <- Nat.add_1_r; apply list_lookup_lookup_total_lt; lia).
           rewrite (drop_ge A) by lia. done. }
      pose proof (step_over_shift (A ++ b) k (length out1 - oi1) pos1 j 0 out1 oi1 eq_refl ltac:(lia) ltac:(lia) B1 ltac:(rewrite length_app; lia)) as Sh.
      destruct (step_over fn step (length out1 - oi1) (A ++ b) pos1 j out1 oi1) as [[[p2 i2] o2] n2]. destruct Sh as [-> [H5 H6]].
      rewrite !lookup_total_drop, drop_drop. replace (k + (i2 - k))%nat with i2 by lia. replace (k + (i2 - k + 1))%nat with (i2 + 1)%nat by lia.
      replace (k + (i2 - k + 2))%nat with (i2 + 2)%nat by lia. do 5 f_equal. rewrite Nat2Z.inj_sub by lia. lia.
Qed.
End resample.

(** A sample between two others lies between them, also where their difference does
    not fit into 16 bits. *)
Lemma mix_between f a b : 0 <= f < scale_factor -> in_srange 16 a -> in_srange 16 b ->
  Z.min a b <= s16 (u64 (a + u64 (f * clamp16 (b - a)) / scale_factor)) <= Z.max a b.
Proof.
  unfold scale_factor. intros Hf Ha Hb. unfold in_srange in Ha, Hb.
  set (d := clamp16 (b - a)). assert (D : in_srange 16 d ∧ Z.min a b <= a + Z.min 0 d ∧ a + Z.max 0 d <= Z.max a b).
  { split; [apply clamp16_range|]. unfold d, clamp16, clamp. destruct (Z.ltb_spec (b - a) (-32768)); [lia|]. destruct (Z.ltb_spec 32767 (b - a)); lia. }
  destruct D as (Rd & D1 & D2). unfold in_srange in Rd.
  set (q := f * d / 2 ^ 24). assert (Q : Z.min 0 d <= q <= Z.max 0 d).
  { unfold q. split; [apply Z.div_le_lower_bound; nia|]. apply Z.div_le_upper_bound; nia. }
  assert (E : ∃ k, u64 (f * d) / 2 ^ 24 = q + k * 2 ^ 40).
  { exists (- (f * d / 2 ^ 64)). unfold q, uwrap. pose proof (Z.div_mod (f * d) (2 ^ 64) ltac:(done)) as Dm.
    rewrite <- Z.div_add by done. f_equal. lia. }
  destruct E as [k ->].
  assert (E2 : s16 (u64 (a + (q + k * 2 ^ 40))) = a + q).
  { rewrite <- (swrap_id 16 (a + q)) by (done || unfold in_srange; lia). unfold swrap, uwrap. f_equal.
    set (x := a + (q + k * 2 ^ 40)). pose proof (Z.div_mod x (2 ^ 64) ltac:(done)) as Dm.
    replace (x mod 2 ^ 64 + 2 ^ (16 - 1)) with (a + q + 2 ^ (16 - 1) + (k * 2 ^ 24 - 2 ^ 48 * (x / 2 ^ 64)) * 2 ^ 16) by (unfold x in *; lia).
    by apply Z.mod_add. }
  rewrite E2. lia.
Qed.

Lemma linear_between f x0 x1 x2 (y := linear f x0 x1 x2) : 0 <= f < scale_factor ->
  in_srange 16 (fst x0) -> in_srange 16 (snd x0) -> in_srange 16 (fst x1) -> in_srange 16 (snd x1) ->
  Z.min (fst x0) (fst x1) <= fst y <= Z.max (fst x0) (fst x1) ∧ Z.min (snd x0) (snd x1) <= snd y <= Z.max (snd x0) (snd x1).
Proof. intros Hf H1 H2 H3 H4. split; by apply mix_between. Qed.

(** * Filters *)

Definition sample_ok (s : Sample) : Prop := in_srange 16 (fst s) ∧ in_srange 16 (snd s).

Lemma FilterFrame_all {F} (process : F -> Sample -> Sample * F) (P : Sample -> Prop) frame :
  (∀ f x, P (fst (process f x))) -> ∀ f, Forall P (fst (FilterFrame process f frame)) ∧ length (fst (FilterFrame process f frame)) = length frame.
Proof.
  intros H. induction frame as [|x frame IH]; intros f; cbn [FilterFrame]; [done|]. specialize (H f x). destruct (process f x) as [y g].
  specialize (IH g). destruct (FilterFrame process g frame). cbn in *. destruct IH as [IH L]. split; [by constructor|by rewrite L].
Qed.

(** The frame keeps its length and has 16-bit samples again; with both filters off
    it stays as it is. *)
Lemma ProcessFrame_ok s frame : Forall sample_ok frame ->
  Forall sample_ok (fst (ProcessFrame s frame)) ∧ length (fst (ProcessFrame s frame)) = length frame ∧
  (simple_filter_enabled s = false -> biquad_filter_enabled s = false -> ProcessFrame s frame = (frame, s)).
Proof.
  intros F. pose proof (FilterFrame_all SimpleFilter_ProcessSample sample_ok) as FS. pose proof (FilterFrame_all BiquadFilter_ProcessSample sample_ok) as FB.
  assert (HS : ∀ f x, sample_ok (fst (SimpleFilter_ProcessSample f x))) by (split; apply clamp16_range).
  assert (HB : ∀ f x, sample_ok (fst (BiquadFilter_ProcessSample f x))) by (split; apply clamp16_range).
  unfold ProcessFrame. destruct (simple_filter_enabled s), (biquad_filter_enabled s) eqn:Eb; cbn [negb andb].
  - destruct (FS frame HS (simple_filter s)) as [F1 L1]. destruct (FilterFrame _ _ frame) as [fr g]. cbn [fst] in F1, L1.
    replace (biquad_filter_enabled _) with true by (by destruct s). 
    match goal with |- context [FilterFrame BiquadFilter_ProcessSample ?b fr] => destruct (FB fr HB b) as [F2 L2]; destruct (FilterFrame _ b fr) end.
    cbn [fst] in *. split; [done|]. split; [congruence|done].
  - destruct (FS frame HS (simple_filter s)) as [F1 L1]. destruct (FilterFrame _ _ frame) as [fr g]. cbn [fst] in F1, L1.
    replace (biquad_filter_enabled _) with false by (by destruct s). done.
  - destruct (FB frame HB (biquad_filter s)) as [F2 L2]. destruct (FilterFrame _ _ frame). cbn [fst] in *. done.
  - done.
Qed.

(** A filter that has been reset lets every sample through. *)
Lemma reset_passes frame : Forall sample_ok frame ->
  (∀ y, fst (FilterFrame SimpleFilter_ProcessSample (mk_SimpleFilter 0 (1 ≪ 15) y) frame) = frame) ∧
  (∀ x1 x2 y1 y2, fst (FilterFrame BiquadFilter_ProcessSample (mk_BiquadFilter 0 0 (1 ≪ 14) 0 0 x1 x2 y1 y2) frame) = frame).
Proof.
  assert (Id : ∀ n x, in_srange 16 x -> 0 < n <= 15 -> clamp16 (s32 ((1 ≪ n) * x) ≫ n) = x).
  { intros n x Hx Hn. rewrite shiftl_mul, Z.mul_1_l by lia. assert (0 < 2 ^ n <= 2 ^ 15) by (split; [lia|apply Z.pow_le_mono_r; lia]).
    unfold in_srange in *. rewrite swrap_id by (done || (unfold in_srange; nia)). rewrite shiftr_div, (Z.mul_comm _ x), Z.div_mul by lia. by apply clamp16_id. }
  induction 1 as [|x frame [H1 H2] _ [IS IB]]; split; try done.
  - intros y. cbn [FilterFrame SimpleFilter_ProcessSample sf_a1 sf_b0]. rewrite !Z.mul_0_l, !Z.add_0_r, !Id by (done || lia).
    specialize (IS (fst x, snd x)). destruct (FilterFrame _ _ frame). cbn in *. by destruct x; rewrite IS.
  - intros x1 x2 y1 y2. cbn [FilterFrame BiquadFilter_ProcessSample bf_a1 bf_a2 bf_b0 bf_b1 bf_b2]. rewrite !Z.mul_0_l, !Z.add_0_r, !Id by (done || lia).
    cbn [bf_x1 bf_y1]. specialize (IB x x1 (fst x, snd x) y1). destruct (FilterFrame _ _ frame). cbn in *. by destruct x; rewrite IB.
Qed.

(** * The theorems about the audio unit on a few samples, and sums that do not fit. *)

(** Two frames, of which fifteen samples are asked for: sixteen are decoded. *)
Definition demo_adpcm : list Z := [0x21; 0x12; 0x34; 0x56; 0x78; 0x9a; 0xbc; 0xde; 0x10; 0x77; 0x77; 0; 0; 0; 0; 0].
Definition demo_coeff : list Z := [2048; 0; 3000; -1000; 100; 200; 0; 0; 0; 0; 0; 0; 0; 0; 0; 0].


(** Four samples at three quarters of the rate, cut after the first. *)
Definition demo_input : list Sample := [(100, -100); (200, 30000); (400, -30000); (0, 0)].
Definition demo_interp : InterpState := mk_InterpState (0, 0) (0, 0) 0.
Definition demo_frame : list Sample := replicate 8 (0, 0).

Lemma StepOverSamples_chunks_witness :
  let '(st, rest, out, oi) := Linear (3 * 2 ^ 22) demo_interp (take 1 demo_input) demo_frame 1 in
  Linear (3 * 2 ^ 22) st (rest ++ drop 1 demo_input) out oi =
    (mk_InterpState (0, 0) (400, -30000) 8388608, [],
     [(0, 0); (0, 0); (0, 0); (50, -50); (125, 7425); (200, 30000); (350, 5424); (0, 0)], 7%nat).
Proof.
  pose proof (StepOverSamples_chunks linear (3 * 2 ^ 22) ltac:(lia) demo_interp (take 1 demo_input) (drop 1 demo_input) demo_frame 1
    ltac:(by_decide) ltac:(by_decide)) as H. unfold Linear.
  destruct (StepOverSamples linear (3 * 2 ^ 22) demo_interp (take 1 demo_input) demo_frame 1) as [[[st rest] out] oi].
  rewrite H. by vm_compute.
Defined.

(** With coefficients near the ends of their range the sum of the recurrence does not
    fit into 32 bits: the exact sample is the largest one. *)
Example adpcm_overflow :
  fst (decode_sample 1 (-32768) (-32768) 0 (mk_ADPCMState (-32768) (-32768))) = -32768 ∧
  clamp16 (((0 * 1) ≪ 11 + 0x400 + -32768 * -32768 + -32768 * -32768) ≫ 11) = 32767.
Proof. by vm_compute. Qed.
Example filter_overflow :
  fst (SimpleFilter_ProcessSample (mk_SimpleFilter (-32768) (-32768) (fill (-32768))) (fill (-32768))) = fill (-32768) ∧
  clamp16 ((-32768 * -32768 + -32768 * -32768) ≫ 15) = 32767.
Proof. by vm_compute. Qed.
