(* ===== verification/RingBuffer.v ===== *)
(** The ring buffer between one producer and one consumer, [common/ring_buffer.h]:
    the operations as a whole, and the steps two threads interleave.  An element of
    the model is a slot. *)

From S2P Require Import Prelude.

Section ring.
Context {A : Type}.
(** A power of two, less than 2^63. *)
Context (capacity : nat).
#[local] Abbreviation cap := (Z.of_nat capacity).

(* src: common/ring_buffer.h | std::atomic_size_t m_read_index{0}; | RingBuffer | ..std::array<T, granularity * capacity> m_data; *)
Record RingBuffer := mk_RingBuffer { m_read_index : Z; m_write_index : Z; m_data : list A }.
Implicit Types (b : RingBuffer).

(** ** The operations *)

(* src: common/ring_buffer.h | const std::size_t slots_free = capacity + m_read_index.load() - write_index; | Push | +2 *)
Definition push_count (read_index write_index : Z) (slot_count : nat) : nat :=
  slot_count `min` Z.to_nat (u64 (cap + read_index - write_index)).
(* src: common/ring_buffer.h | const std::size_t slots_filled = m_write_index.load() - read_index; | Pop | +2 *)
Definition pop_count (read_index write_index : Z) (max_slots : nat) : nat :=
  Z.to_nat (u64 (write_index - read_index)) `min` max_slots.
(* src: common/ring_buffer.h | const std::size_t first_copy = std::min(capacity - pos, push_count); | Push *)
Definition first_copy (index : Z) (count : nat) : nat := Z.to_nat (cap - index mod cap) `min` count.

(* src: common/ring_buffer.h | std::size_t Push(const void* new_slots, std::size_t slot_count) { *)
Definition Push b (new_slots : list A) : nat * RingBuffer :=
  let write_index := m_write_index b in
  let count := push_count (m_read_index b) write_index (length new_slots) in
  let pos := Z.to_nat (write_index mod cap) in
  let first := first_copy write_index count in
  let second := (count - first)%nat in
  let data := list_inserts pos (take first new_slots) (m_data b) in
  let data := list_inserts 0 (take second (drop first new_slots)) data in
  (count, mk_RingBuffer (m_read_index b) (u64 (write_index + Z.of_nat count)) data).

(* src: common/ring_buffer.h | std::size_t Pop(void* output, std::size_t max_slots = ~std::size_t(0)) { *)
Definition Pop b (max_slots : nat) : list A * RingBuffer :=
  let read_index := m_read_index b in
  let count := pop_count read_index (m_write_index b) max_slots in
  let pos := Z.to_nat (read_index mod cap) in
  let first := first_copy read_index count in
  let second := (count - first)%nat in
  (take first (drop pos (m_data b)) ++ take second (m_data b),
   mk_RingBuffer (u64 (read_index + Z.of_nat count)) (m_write_index b) (m_data b)).

(* src: common/ring_buffer.h | [[nodiscard]] std::size_t Size() const { *)
Definition Size b : Z := u64 (m_write_index b - m_read_index b).

(** ** The steps *)

(** Where the [k]-th slot of a copy in two parts goes. *)
(* src: common/ring_buffer.h | std::memcpy(m_data.data() + pos * granularity, in, first_copy * slot_size); | Push | +3 *)
Definition slot_of (index : Z) (count k : nat) : nat :=
  let first := first_copy index count in
  if decide (k < first)%nat then (Z.to_nat (index mod cap) + k)%nat else (k - first)%nat.

(** The producer and the consumer between two accesses to what they share: an index
    is loaded, then the other one, then the slots are copied, then the index is
    stored. *)
Inductive Producer :=
| PIdle
| PLoaded (write_index : Z) (new_slots : list A)
| PCopying (write_index : Z) (count k : nat) (new_slots : list A).
Inductive Consumer :=
| CIdle
| CLoaded (read_index : Z) (max_slots : nat)
| CCopying (read_index : Z) (count k : nat) (output : list A).

(** What has been pushed and popped by the calls that have returned. *)
Record System := mk_System {
  ring : RingBuffer;
  producer : Producer;
  consumer : Consumer;
  pushed : list A;
  popped : list A
}.
Implicit Types (s : System).

(* src: common/ring_buffer.h | std::size_t Push(const void* new_slots, std::size_t slot_count) { *)
Inductive produce : System -> System -> Prop :=
| produce_load_write r c xs ys new_slots :
    produce (mk_System r PIdle c xs ys) (mk_System r (PLoaded (m_write_index r) new_slots) c xs ys)
| produce_load_read r c xs ys w new_slots :
    produce (mk_System r (PLoaded w new_slots) c xs ys)
      (mk_System r (PCopying w (push_count (m_read_index r) w (length new_slots)) 0 new_slots) c xs ys)
| produce_copy r c xs ys w count k new_slots x :
    (k < count)%nat -> new_slots !! k = Some x ->
    produce (mk_System r (PCopying w count k new_slots) c xs ys)
      (mk_System (r<|m_data := <[slot_of w count k := x]> (m_data r)|>) (PCopying w count (S k) new_slots) c xs ys)
| produce_store r c xs ys w count new_slots :
    produce (mk_System r (PCopying w count count new_slots) c xs ys)
      (mk_System (r<|m_write_index := u64 (w + Z.of_nat count)|>) PIdle c (xs ++ take count new_slots) ys).

(* src: common/ring_buffer.h | std::size_t Pop(void* output, std::size_t max_slots = ~std::size_t(0)) { *)
Inductive consume : System -> System -> Prop :=
| consume_load_read r p xs ys max_slots :
    consume (mk_System r p CIdle xs ys) (mk_System r p (CLoaded (m_read_index r) max_slots) xs ys)
| consume_load_write r p xs ys i max_slots :
    consume (mk_System r p (CLoaded i max_slots) xs ys)
      (mk_System r p (CCopying i (pop_count i (m_write_index r) max_slots) 0 []) xs ys)
| consume_copy r p xs ys i count k output x :
    (k < count)%nat -> m_data r !! slot_of i count k = Some x ->
    consume (mk_System r p (CCopying i count k output) xs ys)
      (mk_System r p (CCopying i count (S k) (output ++ [x])) xs ys)
| consume_store r p xs ys i count output :
    consume (mk_System r p (CCopying i count count output) xs ys)
      (mk_System (r<|m_read_index := u64 (i + Z.of_nat count)|>) p CIdle xs (ys ++ output)).

Definition step s s' : Prop := produce s s' ∨ consume s s'.

(** An empty buffer, with whatever bytes. *)
Definition fresh_system (data : list A) : System := mk_System (mk_RingBuffer 0 0 data) PIdle CIdle [] [].
End ring.
Arguments RingBuffer : clear implicits.
Arguments System : clear implicits.

(** * The ring buffer under every interleaving of its producer and its consumer: what is popped
    is what was pushed, in order, and the slots between are intact. *)

Section facts.
Context {A : Type} (e : Z) (Le : 0 <= e < 63) (capacity : nat) (Ec : Z.of_nat capacity = 2 ^ e).
#[local] Abbreviation cap := (Z.of_nat capacity).
Implicit Types (b : RingBuffer A) (s : System A).

Lemma cap_pos : 0 < cap < 2 ^ 63.
Proof. rewrite Ec. split; [lia|]. apply Z.pow_lt_mono_r; lia. Qed.

(** The place of the [i]-th slot of the history. *)
Definition place (i : nat) : nat := Z.to_nat (Z.of_nat i mod cap).

Lemma place_lt i : (place i < capacity)%nat.
Proof. pose proof cap_pos. unfold place. pose proof (Z.mod_pos_bound (Z.of_nat i) cap ltac:(lia)). lia. Qed.

Lemma place_inj i j : (i < j < i + capacity)%nat -> place i ≠ place j.
Proof.
  intros H E. pose proof cap_pos. unfold place in E.
  pose proof (Z.mod_pos_bound (Z.of_nat i) cap ltac:(lia)). pose proof (Z.mod_pos_bound (Z.of_nat j) cap ltac:(lia)).
  assert (E2 : Z.of_nat i mod cap = Z.of_nat j mod cap) by lia.
  pose proof (Z.div_mod (Z.of_nat i) cap ltac:(lia)) as Di. pose proof (Z.div_mod (Z.of_nat j) cap ltac:(lia)) as Dj.
  set (qi := Z.of_nat i / cap) in *. set (qj := Z.of_nat j / cap) in *.
  assert (D : cap * (qj - qi) = Z.of_nat j - Z.of_nat i) by lia. clear - D H.
  destruct (Z.le_gt_cases (qj - qi) 0); nia.
Qed.

Lemma u64_mod x : u64 x mod cap = x mod cap.
Proof.
  rewrite Ec. unfold uwrap. replace (2 ^ 64) with (2 ^ e * 2 ^ (64 - e)) by (rewrite <- Z.pow_add_r by lia; f_equal; lia).
  rewrite Z.rem_mul_r by lia. rewrite Z.mul_comm, Z.mod_add by lia. by apply Z.mod_mod; lia.
Qed.

(** The slots of a copy are the places behind its index. *)
Lemma slot_of_place n count k : (k < count)%nat -> (count <= capacity)%nat -> slot_of capacity (u64 (Z.of_nat n)) count k = place (n + k).
Proof.
  intros Hk Hc. pose proof cap_pos. unfold slot_of, first_copy, place. rewrite u64_mod.
  pose proof (Z.mod_pos_bound (Z.of_nat n) cap ltac:(lia)) as M. pose proof (Z.div_mod (Z.of_nat n) cap ltac:(lia)) as D.
  rewrite Nat2Z.inj_add. destruct (decide _) as [L|L].
  - rewrite <- (Z.mod_unique_pos (Z.of_nat n + Z.of_nat k) cap (Z.of_nat n / cap) (Z.of_nat n mod cap + Z.of_nat k)) by lia. lia.
  - rewrite <- (Z.mod_unique_pos (Z.of_nat n + Z.of_nat k) cap (Z.of_nat n / cap + 1) (Z.of_nat n mod cap + Z.of_nat k - cap)) by lia. lia.
Qed.

(** ** The invariant *)

(** The places hold the history from [lo] to [hi]. *)
Definition holds (data : list A) (history : list A) (lo hi : nat) : Prop := ∀ i, (lo <= i < hi)%nat -> data !! place i = history !! i.

Definition producer_ok (W R : nat) (data : list A) (p : Producer (A := A)) : Prop :=
  match p with
  | PIdle => True
  | PLoaded w _ => w = u64 (Z.of_nat W)
  | PCopying w count k new_slots => w = u64 (Z.of_nat W) ∧ (W + count <= R + capacity)%nat ∧ (k <= count <= length new_slots)%nat ∧
      ∀ j, (j < k)%nat -> data !! place (W + j) = new_slots !! j
  end.
Definition consumer_ok (W R : nat) (history : list A) (c : Consumer (A := A)) : Prop :=
  match c with
  | CIdle => True
  | CLoaded r _ => r = u64 (Z.of_nat R)
  | CCopying r count k output => r = u64 (Z.of_nat R) ∧ (R + count <= W)%nat ∧ (k <= count)%nat ∧ output = take k (drop R history)
  end.

Record ring_ok s : Prop := mk_ring_ok {
  rg_order : (length (popped s) <= length (pushed s) <= length (popped s) + capacity)%nat;
  rg_write : m_write_index (ring s) = u64 (Z.of_nat (length (pushed s)));
  rg_read : m_read_index (ring s) = u64 (Z.of_nat (length (popped s)));
  rg_data : length (m_data (ring s)) = capacity;
  rg_holds : holds (m_data (ring s)) (pushed s) (length (popped s)) (length (pushed s));
  rg_popped : popped s = take (length (popped s)) (pushed s);
  rg_producer : producer_ok (length (pushed s)) (length (popped s)) (m_data (ring s)) (producer s);
  rg_consumer : consumer_ok (length (pushed s)) (length (popped s)) (pushed s) (consumer s)
}.

Lemma fresh_ring_ok (data : list A) : length data = capacity -> ring_ok (fresh_system data).
Proof. intros L. constructor; cbn; try done; lia || (intros i Hi; lia). Qed.

(** What the counts are. *)
Lemma u64_difference (x y : nat) : (y <= x)%nat -> Z.of_nat (x - y) < 2 ^ 64 -> u64 (u64 (Z.of_nat x) - u64 (Z.of_nat y)) = Z.of_nat (x - y).
Proof.
  intros L H. unfold uwrap. rewrite <- Zminus_mod. rewrite Z.mod_small; lia.
Qed.
Lemma push_count_spec R W n : (R <= W <= R + capacity)%nat ->
  push_count capacity (u64 (Z.of_nat R)) (u64 (Z.of_nat W)) n = (n `min` (R + capacity - W))%nat.
Proof.
  intros H. pose proof cap_pos. unfold push_count. f_equal.
  assert (E : u64 (cap + u64 (Z.of_nat R) - u64 (Z.of_nat W)) = Z.of_nat (R + capacity - W)).
  { unfold uwrap. rewrite <- (Z.mod_small (Z.of_nat (R + capacity - W)) (2 ^ 64)) by lia.
    rewrite Zminus_mod_idemp_r, <- Zminus_mod_idemp_l, Zplus_mod_idemp_r, Zminus_mod_idemp_l. f_equal. lia. }
  rewrite E. lia.
Qed.
Lemma pop_count_spec R W n : (R <= W <= R + capacity)%nat -> pop_count (u64 (Z.of_nat R)) (u64 (Z.of_nat W)) n = ((W - R) `min` n)%nat.
Proof. intros H. pose proof cap_pos. unfold pop_count. rewrite u64_difference by lia. lia. Qed.

Lemma u64_next n count : u64 (u64 (Z.of_nat n) + Z.of_nat count) = u64 (Z.of_nat (n + count)).
Proof. unfold uwrap. rewrite Z.add_mod_idemp_l by done. f_equal. lia. Qed.

Lemma take_take_drop (l : list A) n m : take n l ++ take m (drop n l) = take (n + m) l.
Proof. by rewrite take_take_drop. Qed.

(** ** Each step keeps it *)

Lemma produce_ok s s' : ring_ok s -> produce capacity s s' -> ring_ok s'.
Proof.
  intros [O W R L H P Pr Co] St. pose proof cap_pos. destruct St as [r c xs ys new|r c xs ys w new|r c xs ys w count k new x Hk Hx|r c xs ys w count new];
    cbn [ring producer consumer pushed popped] in *.
  - by constructor.
  - constructor; try done. cbn. cbn in Pr. rewrite Pr, R, push_count_spec by lia. split; [done|]. split; [lia|]. split; [lia|]. intros j Hj. lia.
  - destruct Pr as (-> & Pc & Pk & Pj). rewrite slot_of_place by lia. destruct r as [ri wi d]. cbn in *.
    constructor; cbn; try done.
    + by rewrite length_insert.
    + intros i Hi. rewrite list_lookup_insert_ne; [by apply H|]. intros E. by apply (place_inj i (length xs + k)); [lia|].
    + split; [done|]. split; [lia|]. split; [lia|]. intros j Hj. destruct (decide (j = k)) as [->|Nj].
      * rewrite list_lookup_insert_eq; [done|]. rewrite L. apply place_lt.
      * rewrite list_lookup_insert_ne; [apply Pj; lia|]. intros E. apply (place_inj (length xs + j) (length xs + k)); [lia|done].
  - destruct Pr as (-> & Pc & Pk & Pj). destruct r as [ri wi d]. cbn in *.
    assert (Lx : length (xs ++ take count new) = (length xs + count)%nat) by (rewrite length_app, length_take; lia).
    constructor; cbn; rewrite ?Lx; try done; try lia.
    + apply u64_next.
    + intros i Hi. destruct (decide (i < length xs)%nat) as [Li|Li]; [rewrite lookup_app_l by done; apply H; lia|].
      rewrite lookup_app_r, lookup_take_lt by lia. replace i with (length xs + (i - length xs))%nat at 1 by lia. apply Pj. lia.
    + rewrite take_app_le by lia. done.
    + destruct c as [|i m|i n k o]; cbn in *; try done. destruct Co as (Ci & C1 & C2 & ->). split; [done|]. split; [lia|]. split; [done|].
      rewrite drop_app_le by lia. rewrite take_app_le; [done|]. rewrite length_drop. lia.
Qed.

Lemma consume_ok s s' : ring_ok s -> consume capacity s s' -> ring_ok s'.
Proof.
  intros [O W R L H P Pr Co] St. pose proof cap_pos. destruct St as [r p xs ys m|r p xs ys i m|r p xs ys i count k o x Hk Hx|r p xs ys i count o];
    cbn [ring producer consumer pushed popped] in *.
  - by constructor.
  - constructor; try done. cbn. cbn in Co. rewrite Co, W, pop_count_spec by lia. split; [done|]. split; [lia|]. split; [lia|done].
  - destruct Co as (-> & Cc & Ck & ->). constructor; try done. cbn. split; [done|]. split; [lia|]. split; [lia|].
    rewrite slot_of_place in Hx by lia. rewrite H in Hx by lia. rewrite (take_S_r _ _ x); [done|]. by rewrite lookup_drop.
  - destruct Co as (-> & Cc & _ & ->). destruct r as [ri wi d]. cbn in *.
    assert (Ly : length (ys ++ take count (drop (length ys) xs)) = (length ys + count)%nat) by (rewrite length_app, length_take, length_drop; lia).
    constructor; cbn; rewrite ?Ly; try done; try lia.
    + apply u64_next.
    + intros j Hj. apply H. lia.
    + rewrite P at 1. apply take_take_drop.
    + destruct p as [|w n|w n k new]; cbn in *; try done. destruct Pr as (Pw & P1 & P2). split; [done|]. split; [lia|done].
Qed.

(** ** The operations are runs of one side *)

(** The slots when [k] of a push's [count] have been copied. *)
Definition copied (w : Z) (count k : nat) (new_slots data : list A) : list A :=
  let first := first_copy capacity w count in
  list_inserts 0 (drop first (take k new_slots)) (list_inserts (Z.to_nat (w mod cap)) (take (first `min` k) new_slots) data).

Lemma inserts_snoc i (l : list A) x d : list_inserts i (l ++ [x]) d = <[(length l + i)%nat := x]> (list_inserts i l d).
Proof. by rewrite list_inserts_app_l. Qed.
Lemma copied_S w count k new_slots data x : new_slots !! k = Some x ->
  copied w count (S k) new_slots data = <[slot_of capacity w count k := x]> (copied w count k new_slots data).
Proof.
  intros Hx. pose proof (lookup_lt_Some _ _ _ Hx) as Lk. unfold copied, slot_of. set (first := first_copy capacity w count).
  destruct (decide _) as [L|L].
  - rewrite (drop_ge (take (S k) new_slots)), (drop_ge (take k new_slots)) by (rewrite length_take; lia). replace (first `min` S k)%nat with (S k) by lia. replace (first `min` k)%nat with k by lia.
    rewrite (take_S_r _ _ _ Hx). cbn [list_inserts]. rewrite inserts_snoc, length_take. f_equal. lia.
  - replace (first `min` S k)%nat with first by lia. replace (first `min` k)%nat with first by lia.
    rewrite (take_S_r _ _ _ Hx), drop_app_le by (rewrite length_take; lia). rewrite inserts_snoc, length_drop, length_take. f_equal. lia.
Qed.

(** A call of [Push] is a run of the producer's steps alone, and a call of [Pop] one of
    the consumer's. *)
Lemma Push_steps r c (xs ys new_slots : list A) : let (count, r') := Push capacity r new_slots in
  rtc (produce capacity) (mk_System r PIdle c xs ys) (mk_System r' PIdle c (xs ++ take count new_slots) ys).
Proof.
  unfold Push. set (w := m_write_index r). set (count := push_count capacity (m_read_index r) w (length new_slots)).
  assert (Hc : (count <= length new_slots)%nat) by (subst count; unfold push_count; lia).
  eapply rtc_l; [apply produce_load_write with (new_slots := new_slots)|]. eapply rtc_l; [apply produce_load_read|]. fold w count.
  assert (R : ∀ k, (k <= count)%nat -> rtc (produce capacity) (mk_System r (PCopying w count 0 new_slots) c xs ys)
      (mk_System (r<|m_data := copied w count k new_slots (m_data r)|>) (PCopying w count k new_slots) c xs ys)).
  { induction k as [|k IH]; intros Hk.
    - unfold copied. rewrite Nat.min_0_r, !take_0, drop_nil. cbn [list_inserts]. destruct r. apply rtc_refl.
    - destruct (lookup_lt_is_Some_2 new_slots k ltac:(lia)) as [x Hx]. eapply rtc_r; [apply IH; lia|].
      rewrite (copied_S _ _ _ _ _ x Hx). exact (produce_copy capacity (r<|m_data := copied w count k new_slots (m_data r)|>) c xs ys w count k new_slots x ltac:(lia) Hx). }
  assert (E : copied w count count new_slots (m_data r) = list_inserts 0 (take (count - first_copy capacity w count) (drop (first_copy capacity w count) new_slots))
      (list_inserts (Z.to_nat (w mod cap)) (take (first_copy capacity w count) new_slots) (m_data r))).
  { unfold copied. rewrite skipn_firstn_comm. by rewrite Nat.min_l by (unfold first_copy; lia). }
  cbv zeta. rewrite <- E. eapply rtc_r; [apply (R count); lia|].
  exact (produce_store capacity (r<|m_data := copied w count count new_slots (m_data r)|>) c xs ys w count new_slots).
Qed.

Lemma slots_taken i count (data : list A) k : length data = capacity -> (k < count <= capacity)%nat ->
  (take (first_copy capacity i count) (drop (Z.to_nat (i mod cap)) data) ++ take (count - first_copy capacity i count) data) !! k = data !! slot_of capacity i count k.
Proof.
  intros L Hk. pose proof cap_pos. pose proof (Z.mod_pos_bound i cap ltac:(lia)) as M. unfold slot_of. set (first := first_copy capacity i count).
  assert (Lf : (first <= length data - Z.to_nat (i mod cap))%nat) by (subst first; unfold first_copy; lia).
  destruct (decide _) as [Lk|Lk].
  - rewrite lookup_app_l by (rewrite length_take, length_drop; lia). rewrite lookup_take_lt, lookup_drop by done. done.
  - rewrite lookup_app_r by (rewrite length_take, length_drop; lia). rewrite length_take, length_drop, Nat.min_l by lia. by rewrite lookup_take_lt by lia.
Qed.
Lemma Pop_steps r p (xs ys : list A) max_slots : length (m_data r) = capacity -> 0 <= Size r <= cap -> let (output, r') := Pop capacity r max_slots in
  rtc (consume capacity) (mk_System r p CIdle xs ys) (mk_System r' p CIdle xs (ys ++ output)).
Proof.
  intros Ld Sz. unfold Pop. set (i := m_read_index r). set (count := pop_count i (m_write_index r) max_slots).
  assert (Hc : (count <= capacity)%nat) by (subst count; unfold pop_count; unfold Size in Sz; fold i in Sz; lia).
  eapply rtc_l; [apply consume_load_read with (max_slots := max_slots)|]. eapply rtc_l; [apply consume_load_write|]. fold i count.
  pose proof cap_pos. pose proof (Z.mod_pos_bound i cap ltac:(lia)) as M.
  set (out := take _ _ ++ take _ _). assert (Lo : length out = count).
  { subst out. rewrite length_app, !length_take, length_drop. unfold first_copy. lia. }
  assert (R : ∀ k, (k <= count)%nat -> rtc (consume capacity) (mk_System r p (CCopying i count 0 []) xs ys) (mk_System r p (CCopying i count k (take k out)) xs ys)).
  { induction k as [|k IH]; intros Hk; [apply rtc_refl|]. destruct (lookup_lt_is_Some_2 out k ltac:(lia)) as [x Hx].
    eapply rtc_r; [apply IH; lia|]. rewrite (take_S_r _ _ _ Hx). apply consume_copy; [lia|]. rewrite <- slots_taken by lia. exact Hx. }
  eapply rtc_r; [apply (R count); lia|]. rewrite take_ge by lia. apply consume_store.
Qed.

(** Neither side ever waits for the other. *)
Lemma never_stuck s : ring_ok s -> (∃ s', produce capacity s s') ∧ ∃ s', consume capacity s s'.
Proof.
  intros [O W R L H P Pr Co]. pose proof cap_pos. destruct s as [r p c xs ys]. cbn in *. split.
  - destruct p as [|w new|w count k new]; [exists (mk_System r (PLoaded (m_write_index r) []) c xs ys); constructor|eexists; constructor|].
    destruct Pr as (_ & _ & Pk & _). destruct (decide (k = count)) as [->|N]; [eexists; apply produce_store|].
    destruct (lookup_lt_is_Some_2 new k ltac:(lia)) as [x Hx]. eexists. apply (produce_copy _ _ _ _ _ _ _ _ _ x); [lia|done].
  - destruct c as [|i m|i count k out]; [exists (mk_System r p (CLoaded (m_read_index r) 0) xs ys); constructor|eexists; constructor|].
    destruct Co as (-> & Cc & Ck & _). destruct (decide (k = count)) as [->|N]; [eexists; apply consume_store|].
    destruct (lookup_lt_is_Some_2 (m_data r) (slot_of capacity (u64 (Z.of_nat (length ys))) count k)) as [x Hx];
      [rewrite slot_of_place, L by lia; apply place_lt|]. eexists. apply (consume_copy _ _ _ _ _ _ _ _ _ x); [lia|done].
Qed.

(** C34: Under every interleaving of the steps of a producer and a consumer, what has been popped and what is in the buffer
    are together what has been pushed, in order: nothing is lost, repeated or overwritten, and at most the capacity is
    in the buffer; and neither of the two ever waits for the other. *)
Theorem ring_fifo data s : length data = capacity -> rtc (step capacity) (fresh_system data) s ->
  pushed s = popped s ++ drop (length (popped s)) (pushed s) ∧
  Size (ring s) = Z.of_nat (length (pushed s) - length (popped s)) ∧ 0 <= Size (ring s) <= cap ∧
  (∀ i x, drop (length (popped s)) (pushed s) !! i = Some x ->
    m_data (ring s) !! Z.to_nat ((m_read_index (ring s) + Z.of_nat i) mod cap) = Some x) ∧
  (∃ s', produce capacity s s') ∧ ∃ s', consume capacity s s'.
Proof.
  intros L St. assert (I : ring_ok s).
  { pose proof (fresh_ring_ok data L) as I. revert I. induction St as [|s1 s2 s3 [S1|S1] _ IH]; intros I; [done| |];
      apply IH; [by eapply produce_ok|by eapply consume_ok]. }
  pose proof (never_stuck s I) as N. pose proof cap_pos. destruct I as [O W R Ld Hd P _ _].
  assert (Es : Size (ring s) = Z.of_nat (length (pushed s) - length (popped s))) by (unfold Size; rewrite W, R; apply u64_difference; lia).
  split; [rewrite P at 1; by rewrite take_drop|]. split; [done|]. split; [lia|]. split; [|exact N].
  intros i x Hx. rewrite lookup_drop in Hx. pose proof (lookup_lt_Some _ _ _ Hx) as Lx.
  rewrite R. rewrite <- Z.add_mod_idemp_l, u64_mod, Z.add_mod_idemp_l, <- Nat2Z.inj_add by lia. change (Z.to_nat _) with (place (length (popped s) + i)).
  by rewrite Hd by lia.
Qed.
End facts.

(** * A ring of four slots with its two threads in the middle of their calls. *)

(** The producer has pushed three slots and is copying two more, the first of them into
    the last place, the second into the first; the consumer has popped two and has
    loaded its index again. *)
Definition after_calls : System Z :=
  mk_System (mk_RingBuffer 2 3 [10; 11; 12; 0]) PIdle CIdle [10; 11; 12] [10; 11].
Definition midway : System Z :=
  mk_System (mk_RingBuffer 2 3 [14; 11; 12; 13]) (PCopying 3 2 2 [13; 14]) (CLoaded 2 5) [10; 11; 12] [10; 11].
Definition stored : System Z :=
  mk_System (mk_RingBuffer 2 5 [14; 11; 12; 13]) PIdle (CCopying 2 3 0 []) [10; 11; 12; 13; 14] [10; 11].

Ltac evaluate := match goal with |- rtc _ ?s _ => let s' := eval vm_compute in s in change s with s' end.
Ltac produces :=
  eapply rtc_l; [left; first [eapply produce_load_read | eapply produce_copy; [lia|reflexivity] | eapply produce_store]|evaluate].
Ltac consumes :=
  eapply rtc_l; [right; first [eapply consume_load_write | eapply consume_copy; [lia|reflexivity] | eapply consume_store]|evaluate].

Lemma after_calls_reached : rtc (step 4) (fresh_system [0; 0; 0; 0]) after_calls.
Proof.
  eapply rtc_l; [left; apply (produce_load_write _ _ _ _ _ [10; 11; 12])|evaluate]. do 5 produces.
  eapply rtc_l; [right; apply (consume_load_read _ _ _ _ _ 2%nat)|evaluate]. do 4 consumes. apply rtc_refl.
Qed.
Lemma midway_reached : rtc (step 4) (fresh_system [0; 0; 0; 0]) midway.
Proof.
  etrans; [apply after_calls_reached|]. unfold after_calls.
  eapply rtc_l; [left; apply (produce_load_write _ _ _ _ _ [13; 14])|evaluate]. do 2 produces.
  eapply rtc_l; [right; apply (consume_load_read _ _ _ _ _ 5%nat)|evaluate]. produces. apply rtc_refl.
Qed.
Lemma stored_reached : rtc (step 4) (fresh_system [0; 0; 0; 0]) stored.
Proof.
  etrans; [apply midway_reached|]. unfold midway. produces. consumes. apply rtc_refl.
Qed.

(** The consumer's second call sees the slots the producer has just stored. *)
Lemma ring_fifo_witness : drop 2 (pushed stored) = [12; 13; 14] ∧ Size (ring stored) = 3 ∧
  m_data (ring stored) !! 0%nat = Some 14 ∧ ∃ s', consume 4 stored s'.
Proof.
  destruct (ring_fifo 2 ltac:(lia) 4 eq_refl [0; 0; 0; 0] stored eq_refl stored_reached) as (_ & E & _ & H & _ & C).
  split; [reflexivity|]. split; [exact E|]. split; [exact (H 2%nat 14 eq_refl)|exact C].
Defined.
