(* ===== verification/Color.v ===== *)
(** Colours in the formats of the graphics unit, [common/color.h], and the order of the
    pixels of a tile, [video_core/utils.h].  A pointer to encoded bytes is the list of the
    bytes that are read or written at it. *)

From S2P Require Import Prelude.

(* src: common/vector_math.h | class Vec4 { | Vec4 | ..T w; *)
Record Vec4 := mk_Vec4 { vx : Z; vy : Z; vz : Z; vw : Z }.
(* src: common/vector_math.h | class Vec3 { | Vec3 | ..T z; *)
Record Vec3 := mk_Vec3 { v3x : Z; v3y : Z; v3z : Z }.
#[export] Instance Vec4_eq_dec : EqDecision Vec4.
Proof. solve_decision. Defined.
#[export] Instance Vec3_eq_dec : EqDecision Vec3.
Proof. solve_decision. Defined.

(** The names of the components of a colour. *)
Abbreviation red := vx.
Abbreviation green := vy.
Abbreviation blue := vz.
Abbreviation alpha := vw.

Definition vec4_zip (f : Z -> Z -> Z) (a b : Vec4) : Vec4 := mk_Vec4 (f (vx a) (vx b)) (f (vy a) (vy b)) (f (vz a) (vz b)) (f (vw a) (vw b)).
Definition vec4_map (f : Z -> Z) (a : Vec4) : Vec4 := mk_Vec4 (f (vx a)) (f (vy a)) (f (vz a)) (f (vw a)).
Definition vec3_zip (f : Z -> Z -> Z) (a b : Vec3) : Vec3 := mk_Vec3 (f (v3x a) (v3x b)) (f (v3y a) (v3y b)) (f (v3z a) (v3z b)).
Definition vec3_map (f : Z -> Z) (a : Vec3) : Vec3 := mk_Vec3 (f (v3x a)) (f (v3y a)) (f (v3z a)).
(** A [Vec3] with one value, and a component by its index. *)
Definition vec3_all (x : Z) : Vec3 := mk_Vec3 x x x.
Definition channel_of (v : Vec4) (channel : Z) : Z :=
  if channel =? 0 then vx v else if channel =? 1 then vy v else if channel =? 2 then vz v else vw v.
Definition rgb (v : Vec4) : Vec3 := mk_Vec3 (vx v) (vy v) (vz v).

(** ** Components *)

(* src: common/color.h | [[nodiscard]] constexpr u8 Convert1To8(u8 value) { *)
Definition Convert1To8 (value : Z) : Z := u8 (value * 255).
(* src: common/color.h | [[nodiscard]] constexpr u8 Convert4To8(u8 value) { *)
Definition Convert4To8 (value : Z) : Z := u8 ((value ≪ 4) .| value).
(* src: common/color.h | [[nodiscard]] constexpr u8 Convert5To8(u8 value) { *)
Definition Convert5To8 (value : Z) : Z := u8 ((value ≪ 3) .| (value ≫ 2)).
(* src: common/color.h | [[nodiscard]] constexpr u8 Convert6To8(u8 value) { *)
Definition Convert6To8 (value : Z) : Z := u8 ((value ≪ 2) .| (value ≫ 4)).
(* src: common/color.h | [[nodiscard]] constexpr u8 Convert8To1(u8 value) { *)
Definition Convert8To1 (value : Z) : Z := value ≫ 7.
(* src: common/color.h | [[nodiscard]] constexpr u8 Convert8To4(u8 value) { *)
Definition Convert8To4 (value : Z) : Z := value ≫ 4.
(* src: common/color.h | [[nodiscard]] constexpr u8 Convert8To5(u8 value) { *)
Definition Convert8To5 (value : Z) : Z := value ≫ 3.
(* src: common/color.h | [[nodiscard]] constexpr u8 Convert8To6(u8 value) { *)
Definition Convert8To6 (value : Z) : Z := value ≫ 2.
(* src: common/color.h | [[nodiscard]] constexpr u8 AverageRgbComponents(const Common::Vec4<u8>& color) { *)
Definition AverageRgbComponents (color : Vec4) : Z := u8 (u32 (red color + green color + blue color) / 3).

(** ** Decoding *)

(** The little-endian 16-bit pixel at a pointer. *)
Definition le16_at (bytes : list Z) : Z := le_combine (take 2 bytes).

(* src: common/color.h | [[nodiscard]] inline Common::Vec4<u8> DecodeRGBA8(const u8* bytes) { *)
Definition DecodeRGBA8 (bytes : list Z) : Vec4 := mk_Vec4 (bytes !!! 3%nat) (bytes !!! 2%nat) (bytes !!! 1%nat) (bytes !!! 0%nat).
(* src: common/color.h | [[nodiscard]] inline Common::Vec4<u8> DecodeRGB8(const u8* bytes) { *)
Definition DecodeRGB8 (bytes : list Z) : Vec4 := mk_Vec4 (bytes !!! 2%nat) (bytes !!! 1%nat) (bytes !!! 0%nat) 255.
(* src: common/color.h | [[nodiscard]] inline Common::Vec4<u8> DecodeRG8(const u8* bytes) { *)
Definition DecodeRG8 (bytes : list Z) : Vec4 := mk_Vec4 (bytes !!! 1%nat) (bytes !!! 0%nat) 0 255.
(* src: common/color.h | [[nodiscard]] inline Common::Vec4<u8> DecodeRGB565(const u8* bytes) { *)
Definition DecodeRGB565 (bytes : list Z) : Vec4 :=
  let pixel := le16_at bytes in
  mk_Vec4 (Convert5To8 ((pixel ≫ 11) .& 0x1F)) (Convert6To8 ((pixel ≫ 5) .& 0x3F)) (Convert5To8 (pixel .& 0x1F)) 255.
(* src: common/color.h | [[nodiscard]] inline Common::Vec4<u8> DecodeRGB5A1(const u8* bytes) { *)
Definition DecodeRGB5A1 (bytes : list Z) : Vec4 :=
  let pixel := le16_at bytes in
  mk_Vec4 (Convert5To8 ((pixel ≫ 11) .& 0x1F)) (Convert5To8 ((pixel ≫ 6) .& 0x1F)) (Convert5To8 ((pixel ≫ 1) .& 0x1F))
    (Convert1To8 (pixel .& 1)).
(* src: common/color.h | [[nodiscard]] inline Common::Vec4<u8> DecodeRGBA4(const u8* bytes) { *)
Definition DecodeRGBA4 (bytes : list Z) : Vec4 :=
  let pixel := le16_at bytes in
  mk_Vec4 (Convert4To8 ((pixel ≫ 12) .& 0xF)) (Convert4To8 ((pixel ≫ 8) .& 0xF)) (Convert4To8 ((pixel ≫ 4) .& 0xF))
    (Convert4To8 (pixel .& 0xF)).
(* src: common/color.h | [[nodiscard]] inline Common::Vec4<u8> DecodeIA8(const u8* bytes) { *)
Definition DecodeIA8 (bytes : list Z) : Vec4 := mk_Vec4 (bytes !!! 1%nat) (bytes !!! 1%nat) (bytes !!! 1%nat) (bytes !!! 0%nat).
(* src: common/color.h | [[nodiscard]] inline Common::Vec4<u8> DecodeI8(const u8* bytes) { *)
Definition DecodeI8 (bytes : list Z) : Vec4 := mk_Vec4 (bytes !!! 0%nat) (bytes !!! 0%nat) (bytes !!! 0%nat) 255.
(* src: common/color.h | [[nodiscard]] inline Common::Vec4<u8> DecodeA8(const u8* bytes) { *)
Definition DecodeA8 (bytes : list Z) : Vec4 := mk_Vec4 0 0 0 (bytes !!! 0%nat).
(* src: common/color.h | [[nodiscard]] inline Common::Vec4<u8> DecodeIA4(const u8* bytes) { *)
Definition DecodeIA4 (bytes : list Z) : Vec4 :=
  let i := Convert4To8 (((bytes !!! 0%nat) .& 0xF0) ≫ 4) in
  let a := Convert4To8 ((bytes !!! 0%nat) .& 0x0F) in
  mk_Vec4 i i i a.
(* src: common/color.h | [[nodiscard]] inline u32 DecodeD16(const u8* bytes) { *)
Definition DecodeD16 (bytes : list Z) : Z := le16_at bytes.
(* src: common/color.h | [[nodiscard]] inline u32 DecodeD24(const u8* bytes) { *)
Definition DecodeD24 (bytes : list Z) : Z := ((bytes !!! 2%nat) ≪ 16) .| ((bytes !!! 1%nat) ≪ 8) .| (bytes !!! 0%nat).
(* src: common/color.h | [[nodiscard]] inline Common::Vec2<u32> DecodeD24S8(const u8* bytes) { *)
Definition DecodeD24S8 (bytes : list Z) : Z * Z := (DecodeD24 bytes, bytes !!! 3%nat).

(** ** Encoding *)

(* src: common/color.h | inline void EncodeRGBA8(const Common::Vec4<u8>& color, u8* bytes) { *)
Definition EncodeRGBA8 (color : Vec4) : list Z := [alpha color; blue color; green color; red color].
(* src: common/color.h | inline void EncodeRGB8(const Common::Vec4<u8>& color, u8* bytes) { *)
Definition EncodeRGB8 (color : Vec4) : list Z := [blue color; green color; red color].
(* src: common/color.h | inline void EncodeRG8(const Common::Vec4<u8>& color, u8* bytes) { *)
Definition EncodeRG8 (color : Vec4) : list Z := [green color; red color].
(* src: common/color.h | inline void EncodeRGB565(const Common::Vec4<u8>& color, u8* bytes) { *)
Definition EncodeRGB565 (color : Vec4) : list Z :=
  le_split 2 (u16 ((Convert8To5 (red color) ≪ 11) .| (Convert8To6 (green color) ≪ 5) .| Convert8To5 (blue color))).
(* src: common/color.h | inline void EncodeRGB5A1(const Common::Vec4<u8>& color, u8* bytes) { *)
Definition EncodeRGB5A1 (color : Vec4) : list Z :=
  le_split 2 (u16 ((Convert8To5 (red color) ≪ 11) .| (Convert8To5 (green color) ≪ 6) .|
                   (Convert8To5 (blue color) ≪ 1) .| Convert8To1 (alpha color))).
(* src: common/color.h | inline void EncodeRGBA4(const Common::Vec4<u8>& color, u8* bytes) { *)
Definition EncodeRGBA4 (color : Vec4) : list Z :=
  le_split 2 (u16 ((Convert8To4 (red color) ≪ 12) .| (Convert8To4 (green color) ≪ 8) .|
                   (Convert8To4 (blue color) ≪ 4) .| Convert8To4 (alpha color))).
(* src: common/color.h | inline void EncodeIA8(const Common::Vec4<u8>& color, u8* bytes) { *)
Definition EncodeIA8 (color : Vec4) : list Z := [alpha color; AverageRgbComponents color].
(* src: common/color.h | inline void EncodeI8(const Common::Vec4<u8>& color, u8* bytes) { *)
Definition EncodeI8 (color : Vec4) : list Z := [AverageRgbComponents color].
(* src: common/color.h | inline void EncodeA8(const Common::Vec4<u8>& color, u8* bytes) { *)
Definition EncodeA8 (color : Vec4) : list Z := [alpha color].
(* src: common/color.h | inline void EncodeIA4(const Common::Vec4<u8>& color, u8* bytes) { *)
Definition EncodeIA4 (color : Vec4) : list Z :=
  [u8 ((Convert8To4 (AverageRgbComponents color) ≪ 4) .| Convert8To4 (alpha color))].
(* src: common/color.h | inline void EncodeD16(u32 value, u8* bytes) { *)
Definition EncodeD16 (value : Z) : list Z := le_split 2 (u16 value).
(* src: common/color.h | inline void EncodeD24(u32 value, u8* bytes) { *)
Definition EncodeD24 (value : Z) : list Z := [value .& 0xFF; (value ≫ 8) .& 0xFF; (value ≫ 16) .& 0xFF].
(* src: common/color.h | inline void EncodeD24S8(u32 depth, u8 stencil, u8* bytes) { *)
Definition EncodeD24S8 (depth stencil : Z) : list Z := [depth .& 0xFF; (depth ≫ 8) .& 0xFF; (depth ≫ 16) .& 0xFF; stencil].
(** The fourth byte stays. *)
(* src: common/color.h | inline void EncodeD24X8(u32 depth, u8* bytes) { *)
Definition EncodeD24X8 (depth : Z) : list Z := [depth .& 0xFF; (depth ≫ 8) .& 0xFF; (depth ≫ 16) .& 0xFF].
(** The byte goes to offset 3. *)
(* src: common/color.h | inline void EncodeX24S8(u8 stencil, u8* bytes) { *)
Definition EncodeX24S8 (stencil : Z) : list Z := [stencil].

(** ** The order of pixels *)

(* src: video_core/utils.h | static constexpr u32 MortonInterleave(u32 x, u32 y) { *)
Definition MortonInterleave (x y : Z) : Z :=
  let xlut := [0x00; 0x01; 0x04; 0x05; 0x10; 0x11; 0x14; 0x15] in
  let ylut := [0x00; 0x02; 0x08; 0x0a; 0x20; 0x22; 0x28; 0x2a] in
  (xlut !!! Z.to_nat (x mod 8)) + (ylut !!! Z.to_nat (y mod 8)).

(* src: video_core/utils.h | static inline u32 GetMortonOffset(u32 x, u32 y, u32 bytes_per_pixel) { *)
Definition GetMortonOffset (x y bytes_per_pixel : Z) : Z :=
  let block_height := 8 in
  let coarse_x := x .& unot 32 7 in
  let i := MortonInterleave x y in
  let offset := u32 (coarse_x * block_height) in
  u32 (u32 (i + offset) * bytes_per_pixel).

(** * Colours survive their formats, and the order of pixels has no collisions. *)

(** Every number below a bound, by evaluation. *)
Lemma below_all (P : Z -> bool) (n : nat) : forallb P (seqZ 0 (Z.of_nat n)) = true -> ∀ x, 0 <= x < Z.of_nat n -> P x = true.
Proof. intros H x Hx. rewrite forallb_forall in H. apply H, list_elem_of_In, elem_of_seqZ. lia. Qed.
Lemma below_all2 (P : Z -> Z -> bool) (n m : nat) : forallb (fun x => forallb (P x) (seqZ 0 (Z.of_nat m))) (seqZ 0 (Z.of_nat n)) = true ->
  ∀ x y, 0 <= x < Z.of_nat n -> 0 <= y < Z.of_nat m -> P x y = true.
Proof. intros H x y Hx Hy. apply (below_all (P x) m); [|done]. by apply (below_all (fun x => forallb (P x) _) n). Qed.

(** ** Ranges *)

Definition color_ok (c : Vec4) : Prop := in_range 8 (red c) ∧ in_range 8 (green c) ∧ in_range 8 (blue c) ∧ in_range 8 (alpha c).
Definition bytes_ok (bs : list Z) : Prop := Forall (in_range 8) bs.

#[export] Hint Extern 2 (in_range _ (uwrap _ _)) => apply uwrap_range; done : words.

Lemma bytes_ok_at bs i : bytes_ok bs -> in_range 8 (bs !!! i).
Proof.
  intros B. destruct (bs !! i) as [x|] eqn:E.
  - rewrite (list_lookup_total_correct _ _ _ E). exact (Forall_lookup_1 _ _ _ _ B E).
  - rewrite list_lookup_total_alt, E. done.
Qed.
#[export] Hint Resolve bytes_ok_at : words.

Lemma le16_range bs : bytes_ok bs -> in_range 16 (le16_at bs).
Proof.
  intros B. unfold le16_at. destruct bs as [|a [|b bs]]; cbn [take le_combine];
    unfold bytes_ok in B; rewrite ?Forall_cons in B; rewrite ?take_0; cbn [le_combine]; unfold in_range in *; pow2; lia.
Qed.
Lemma le16_split v : in_range 16 v -> le16_at (le_split 2 v) = v.
Proof. intros H. unfold le16_at. rewrite take_ge by (rewrite length_le_split; lia). rewrite le_combine_split. apply Z.mod_small. exact H. Qed.
Lemma split_le16 a b : in_range 8 a -> in_range 8 b -> le_split 2 (le16_at [a; b]) = [a; b].
Proof. intros Ha Hb. unfold le16_at, in_range in *. cbn [take le_combine le_split]. f_equal; [modlia|]. f_equal. modlia. Qed.

(** ** Formats of two bytes *)

(** A component of four, five, six or one bits comes back from eight. *)
Lemma Convert_back x :
  (in_range 4 x -> Convert8To4 (Convert4To8 x) = x) ∧ (in_range 5 x -> Convert8To5 (Convert5To8 x) = x) ∧
  (in_range 6 x -> Convert8To6 (Convert6To8 x) = x) ∧ (in_range 1 x -> Convert8To1 (Convert1To8 x) = x).
Proof.
  split_and!; intros H; apply Z.eqb_eq.
  - by apply (below_all (fun x => Convert8To4 (Convert4To8 x) =? x) 16).
  - by apply (below_all (fun x => Convert8To5 (Convert5To8 x) =? x) 32).
  - by apply (below_all (fun x => Convert8To6 (Convert6To8 x) =? x) 64).
  - by apply (below_all (fun x => Convert8To1 (Convert1To8 x) =? x) 2).
Qed.

(** A field of a word, and putting fields together. *)
Lemma field p k n : 0 <= k -> 0 <= n -> (p ≫ k) .& (2 ^ n - 1) = p / 2 ^ k mod 2 ^ n.
Proof. intros Hk Hn. by rewrite land_mask, shiftr_div. Qed.
Lemma field_range p k n : 0 <= n -> in_range n (p / 2 ^ k mod 2 ^ n).
Proof. intros. apply Z.mod_pos_bound, Z.pow_pos_nonneg; lia. Qed.
Lemma lor_low h l k : 0 <= k -> in_range k l -> h mod 2 ^ k = 0 -> h .| l = h + l.
Proof.
  intros Hk Hl Hh. assert (E : h = (h / 2 ^ k) ≪ k) by (rewrite shiftl_mul by done; pose proof (Z.div_mod h (2 ^ k) ltac:(apply Z.pow_nonzero; lia)); lia).
  rewrite E at 1. rewrite Z.lor_comm, lor_add by done. rewrite <- shiftl_mul, <- E by done. lia.
Qed.
#[export] Hint Resolve field_range : words.

(** What a colour becomes in a format: the bits that are kept, spread over eight. *)
Definition keep4 (x : Z) : Z := Convert4To8 (Convert8To4 x).
Definition keep5 (x : Z) : Z := Convert5To8 (Convert8To5 x).
Definition keep6 (x : Z) : Z := Convert6To8 (Convert8To6 x).
Definition keep1 (x : Z) : Z := Convert1To8 (Convert8To1 x).

Ltac fields :=
  change 0x3F with (2 ^ 6 - 1); change 0x1F with (2 ^ 5 - 1); change 0xF with (2 ^ 4 - 1);
  repeat match goal with |- context [?p .& 1] => change (p .& 1) with (p .& (2 ^ 1 - 1)) end;
  rewrite ?field, ?land_mask by done.

Ltac fits := unfold in_range, Convert8To1, Convert8To4, Convert8To5, Convert8To6 in *; rewrite ?shiftr_div by lia; modlia.

(** Three fields of a pixel of two bytes, and four. *)
Lemma three_fields a b c : in_range 5 a -> in_range 6 b -> in_range 5 c ->
  let p := u16 ((a ≪ 11) .| (b ≪ 5) .| c) in
  in_range 16 p ∧ (p ≫ 11) .& 0x1F = a ∧ (p ≫ 5) .& 0x3F = b ∧ p .& 0x1F = c.
Proof.
  intros Ha Hb Hc p. assert (E : p = a * 2 ^ 11 + b * 2 ^ 5 + c).
  { unfold p, in_range in *. rewrite !shiftl_mul by done.
    rewrite (lor_low (a * 2 ^ 11) (b * 2 ^ 5) 11), (lor_low _ c 5) by (unfold in_range; modlia). apply uwrap_id. unfold in_range. lia. }
  clearbody p. subst p. unfold in_range in *. fields. repeat split; modlia.
Qed.
Lemma four_fields a b c d : in_range 5 a -> in_range 5 b -> in_range 5 c -> in_range 1 d ->
  let p := u16 ((a ≪ 11) .| (b ≪ 6) .| (c ≪ 1) .| d) in
  in_range 16 p ∧ (p ≫ 11) .& 0x1F = a ∧ (p ≫ 6) .& 0x1F = b ∧ (p ≫ 1) .& 0x1F = c ∧ p .& 1 = d.
Proof.
  intros Ha Hb Hc Hd p. assert (E : p = a * 2 ^ 11 + b * 2 ^ 6 + c * 2 ^ 1 + d).
  { unfold p, in_range in *. rewrite !shiftl_mul by done.
    rewrite (lor_low (a * 2 ^ 11) (b * 2 ^ 6) 11), (lor_low _ (c * 2 ^ 1) 6), (lor_low _ d 1) by (unfold in_range; modlia). apply uwrap_id. unfold in_range. lia. }
  clearbody p. subst p. unfold in_range in *. fields. repeat split; modlia.
Qed.
Lemma nibble_fields a b c d : in_range 4 a -> in_range 4 b -> in_range 4 c -> in_range 4 d ->
  let p := u16 ((a ≪ 12) .| (b ≪ 8) .| (c ≪ 4) .| d) in
  in_range 16 p ∧ (p ≫ 12) .& 0xF = a ∧ (p ≫ 8) .& 0xF = b ∧ (p ≫ 4) .& 0xF = c ∧ p .& 0xF = d.
Proof.
  intros Ha Hb Hc Hd p. assert (E : p = a * 2 ^ 12 + b * 2 ^ 8 + c * 2 ^ 4 + d).
  { unfold p, in_range in *. rewrite !shiftl_mul by done.
    rewrite (lor_low (a * 2 ^ 12) (b * 2 ^ 8) 12), (lor_low _ (c * 2 ^ 4) 8), (lor_low _ d 4) by (unfold in_range; modlia). apply uwrap_id. unfold in_range. lia. }
  clearbody p. subst p. unfold in_range in *. fields. repeat split; modlia.
Qed.

Lemma color_ok_keeps c : color_ok c -> in_range 5 (Convert8To5 (red c)) ∧ in_range 5 (Convert8To5 (green c)) ∧ in_range 5 (Convert8To5 (blue c)) ∧
  in_range 6 (Convert8To6 (green c)) ∧ in_range 1 (Convert8To1 (alpha c)) ∧
  in_range 4 (Convert8To4 (red c)) ∧ in_range 4 (Convert8To4 (green c)) ∧ in_range 4 (Convert8To4 (blue c)) ∧ in_range 4 (Convert8To4 (alpha c)).
Proof. intros (?&?&?&?). split_and!; fits. Qed.

(** ** Encoding, then decoding: the bits that are kept *)

Lemma decode_RGBA8 c : DecodeRGBA8 (EncodeRGBA8 c) = c.
Proof. by destruct c. Qed.
Lemma decode_RGB8 c : DecodeRGB8 (EncodeRGB8 c) = mk_Vec4 (red c) (green c) (blue c) 255.
Proof. done. Qed.
Lemma decode_RGB565 c : color_ok c -> DecodeRGB565 (EncodeRGB565 c) = mk_Vec4 (keep5 (red c)) (keep6 (green c)) (keep5 (blue c)) 255.
Proof.
  intros H%color_ok_keeps. unfold DecodeRGB565, EncodeRGB565.
  destruct (three_fields (Convert8To5 (red c)) (Convert8To6 (green c)) (Convert8To5 (blue c))) as (R & E1 & E2 & E3); try tauto.
  by rewrite le16_split, E1, E2, E3.
Qed.
Lemma decode_RGB5A1 c : color_ok c -> DecodeRGB5A1 (EncodeRGB5A1 c) = mk_Vec4 (keep5 (red c)) (keep5 (green c)) (keep5 (blue c)) (keep1 (alpha c)).
Proof.
  intros H%color_ok_keeps. unfold DecodeRGB5A1, EncodeRGB5A1.
  destruct (four_fields (Convert8To5 (red c)) (Convert8To5 (green c)) (Convert8To5 (blue c)) (Convert8To1 (alpha c))) as (R & E1 & E2 & E3 & E4); try tauto.
  by rewrite le16_split, E1, E2, E3, E4.
Qed.
Lemma decode_RGBA4 c : color_ok c -> DecodeRGBA4 (EncodeRGBA4 c) = mk_Vec4 (keep4 (red c)) (keep4 (green c)) (keep4 (blue c)) (keep4 (alpha c)).
Proof.
  intros H%color_ok_keeps. unfold DecodeRGBA4, EncodeRGBA4.
  destruct (nibble_fields (Convert8To4 (red c)) (Convert8To4 (green c)) (Convert8To4 (blue c)) (Convert8To4 (alpha c))) as (R & E1 & E2 & E3 & E4); try tauto.
  by rewrite le16_split, E1, E2, E3, E4.
Qed.

(** ** Decoding, then encoding: every pixel comes back *)

Lemma le16_pixel a b : in_range 8 a -> in_range 8 b -> in_range 16 (le16_at [a; b]).
Proof. intros Ha Hb. apply le16_range. unfold bytes_ok. by rewrite !Forall_cons. Qed.

Lemma encode_RGB565 a b : in_range 8 a -> in_range 8 b -> EncodeRGB565 (DecodeRGB565 [a; b]) = [a; b].
Proof.
  intros Ha Hb. unfold EncodeRGB565, DecodeRGB565. cbn [vx vy vz vw]. transitivity (le_split 2 (le16_at [a; b])); [f_equal|by apply split_le16].
  pose proof (le16_pixel a b Ha Hb) as P. set (p := le16_at [a; b]) in *. clearbody p. fields. change (2 ^ 0) with 1.
  rewrite !(proj1 (proj2 (Convert_back _))), (proj1 (proj2 (proj2 (Convert_back _)))) by (apply Z.mod_pos_bound; done).
  rewrite !shiftl_mul, (lor_low _ (_ * 2 ^ 5) 11), (lor_low _ (p mod _) 5) by (unfold in_range; modlia). rewrite uwrap_id; unfold in_range in *; modlia.
Qed.
Lemma encode_RGB5A1 a b : in_range 8 a -> in_range 8 b -> EncodeRGB5A1 (DecodeRGB5A1 [a; b]) = [a; b].
Proof.
  intros Ha Hb. unfold EncodeRGB5A1, DecodeRGB5A1. cbn [vx vy vz vw]. transitivity (le_split 2 (le16_at [a; b])); [f_equal|by apply split_le16].
  pose proof (le16_pixel a b Ha Hb) as P. set (p := le16_at [a; b]) in *. clearbody p. fields.
  rewrite !(proj1 (proj2 (Convert_back _))), (proj2 (proj2 (proj2 (Convert_back _)))) by (apply Z.mod_pos_bound; done).
  rewrite !shiftl_mul, (lor_low _ (_ * 2 ^ 6) 11), (lor_low _ (_ * 2 ^ 1) 6), (lor_low _ (p mod _) 1) by (unfold in_range; modlia).
  rewrite uwrap_id; unfold in_range in *; modlia.
Qed.
Lemma encode_RGBA4 a b : in_range 8 a -> in_range 8 b -> EncodeRGBA4 (DecodeRGBA4 [a; b]) = [a; b].
Proof.
  intros Ha Hb. unfold EncodeRGBA4, DecodeRGBA4. cbn [vx vy vz vw]. transitivity (le_split 2 (le16_at [a; b])); [f_equal|by apply split_le16].
  pose proof (le16_pixel a b Ha Hb) as P. set (p := le16_at [a; b]) in *. clearbody p. fields.
  rewrite !(proj1 (Convert_back _)) by (apply Z.mod_pos_bound; done).
  rewrite !shiftl_mul, (lor_low _ (_ * 2 ^ 8) 12), (lor_low _ (_ * 2 ^ 4) 8), (lor_low _ (p mod _) 4) by (unfold in_range; modlia).
  rewrite uwrap_id; unfold in_range in *; modlia.
Qed.

Lemma average_grey x a : in_range 8 x -> AverageRgbComponents (mk_Vec4 x x x a) = x.
Proof. unfold in_range, AverageRgbComponents. cbn [vx vy vz]. intros H. rewrite (uwrap_id 32) by (unfold in_range; lia). rewrite uwrap_id; unfold in_range; modlia. Qed.

Lemma encode_IA4 a : in_range 8 a -> EncodeIA4 (DecodeIA4 [a]) = [a].
Proof.
  intros Ha. unfold EncodeIA4, DecodeIA4. cbn [vx vy vz vw lookup_total list_lookup_total].
  rewrite average_grey by (unfold Convert4To8; auto with words). f_equal. apply Z.eqb_eq.
  by apply (below_all (fun a => u8 (Convert8To4 (Convert4To8 ((a .& 0xF0) ≫ 4)) ≪ 4 .| Convert8To4 (Convert4To8 (a .& 0x0F))) =? a) 256).
Qed.

(** ** Depths *)

Lemma DecodeD24_value a b c : in_range 8 a -> in_range 8 b -> in_range 8 c -> DecodeD24 [a; b; c] = a + b * 2 ^ 8 + c * 2 ^ 16.
Proof.
  intros Ha Hb Hc. unfold DecodeD24, in_range in *. cbn [lookup_total list_lookup_total]. rewrite !shiftl_mul by done.
  rewrite (lor_low (c * 2 ^ 16) (b * 2 ^ 8) 16), (lor_low _ a 8) by (unfold in_range; modlia). lia.
Qed.
Lemma DecodeD24_ignores a b c d : DecodeD24 [a; b; c; d] = DecodeD24 [a; b; c].
Proof. done. Qed.
Lemma EncodeD24_bytes v : EncodeD24 v = [v mod 2 ^ 8; v / 2 ^ 8 mod 2 ^ 8; v / 2 ^ 16 mod 2 ^ 8].
Proof. unfold EncodeD24. change 0xFF with (2 ^ 8 - 1). by rewrite !field, land_mask by done. Qed.
Lemma decode_D24 v : DecodeD24 (EncodeD24 v) = v mod 2 ^ 24.
Proof. rewrite EncodeD24_bytes, DecodeD24_value by (apply Z.mod_pos_bound; done). modlia. Qed.
Lemma encode_D24 a b c : in_range 8 a -> in_range 8 b -> in_range 8 c -> EncodeD24 (DecodeD24 [a; b; c]) = [a; b; c].
Proof.
  intros Ha Hb Hc. rewrite EncodeD24_bytes, DecodeD24_value by done. unfold in_range in *.
  f_equal; [modlia|]. f_equal; [modlia|]. f_equal. modlia.
Qed.
Lemma decode_D16 v : DecodeD16 (EncodeD16 v) = v mod 2 ^ 16.
Proof. unfold DecodeD16, EncodeD16. rewrite le16_split by (apply uwrap_range; done). done. Qed.

(** ** Every format *)

(** The bytes of a pixel, its decoder and its encoder. *)
Definition color_formats : list (nat * (list Z -> Vec4) * (Vec4 -> list Z)) :=
  [(4%nat, DecodeRGBA8, EncodeRGBA8); (3%nat, DecodeRGB8, EncodeRGB8); (2%nat, DecodeRG8, EncodeRG8); (2%nat, DecodeRGB565, EncodeRGB565);
   (2%nat, DecodeRGB5A1, EncodeRGB5A1); (2%nat, DecodeRGBA4, EncodeRGBA4); (2%nat, DecodeIA8, EncodeIA8); (1%nat, DecodeI8, EncodeI8);
   (1%nat, DecodeA8, EncodeA8); (1%nat, DecodeIA4, EncodeIA4)].

(** Every pixel comes back when it is decoded and encoded again in its format. *)
Lemma color_formats_exact n dec enc bs : (n, dec, enc) ∈ color_formats -> length bs = n -> bytes_ok bs -> enc (dec bs) = bs.
Proof.
  intros F L B. unfold color_formats in F. unfold bytes_ok in B.
  repeat (apply elem_of_cons in F as [E|F]; [simplify_eq;
    destruct bs as [|a [|b [|c [|d [|? ?]]]]]; try done; rewrite ?Forall_cons in B; try done|]); [..|by apply elem_of_nil in F].
  - apply encode_RGB565; tauto.
  - apply encode_RGB5A1; tauto.
  - apply encode_RGBA4; tauto.
  - unfold EncodeIA8, DecodeIA8. cbn [vx vy vz vw lookup_total list_lookup_total]. by rewrite average_grey by tauto.
  - unfold EncodeI8, DecodeI8. cbn [vx vy vz vw lookup_total list_lookup_total]. by rewrite average_grey by tauto.
  - apply encode_IA4; tauto.
Qed.

(** ** The order of pixels *)

(** The column and the row of a place of a tile: its even bits and its odd ones. *)
Definition morton_x (m : Z) : Z := m mod 2 + 2 * (m / 4 mod 2) + 4 * (m / 16 mod 2).
Definition morton_y (m : Z) : Z := m / 2 mod 2 + 2 * (m / 8 mod 2) + 4 * (m / 32 mod 2).

Lemma Morton_mod x y : MortonInterleave (x mod 8) (y mod 8) = MortonInterleave x y.
Proof. unfold MortonInterleave. by rewrite !Z.mod_mod. Qed.
Lemma Morton_back x y : 0 <= x < 8 -> 0 <= y < 8 ->
  morton_x (MortonInterleave x y) = x ∧ morton_y (MortonInterleave x y) = y ∧ 0 <= MortonInterleave x y < 64.
Proof.
  intros Hx Hy. pose proof (below_all2 (fun x y => (morton_x (MortonInterleave x y) =? x) && (morton_y (MortonInterleave x y) =? y) &&
    (0 <=? MortonInterleave x y) && (MortonInterleave x y <? 64)) 8 8 eq_refl x y Hx Hy) as H. cbv beta in H. rewrite !andb_true_iff in H. lia.
Qed.
Lemma Morton_range x y : 0 <= MortonInterleave x y < 64.
Proof. rewrite <- Morton_mod. apply Morton_back; apply Z.mod_pos_bound; done. Qed.
Lemma Morton_onto m : 0 <= m < 64 -> MortonInterleave (morton_x m) (morton_y m) = m ∧ 0 <= morton_x m < 8 ∧ 0 <= morton_y m < 8.
Proof.
  intros Hm. pose proof (below_all (fun m => (MortonInterleave (morton_x m) (morton_y m) =? m) && (0 <=? morton_x m) && (morton_x m <? 8) &&
    (0 <=? morton_y m) && (morton_y m <? 8)) 64 eq_refl m Hm) as H. cbv beta in H. rewrite !andb_true_iff in H. lia.
Qed.

(** The place of a pixel in an image of a width, in pixels. *)
Definition pixel_index (width x y : Z) : Z := MortonInterleave x y + 64 * (x / 8) + 8 * (y / 8) * width.

Lemma pixel_index_tiles width x y : width mod 8 = 0 -> pixel_index width x y = 64 * (x / 8 + y / 8 * (width / 8)) + MortonInterleave x y.
Proof. intros H. unfold pixel_index. pose proof (Z.div_mod width 8 ltac:(lia)). nia. Qed.
Lemma pixel_index_inj width x y x' y' : width mod 8 = 0 -> 0 <= x < width -> 0 <= x' < width -> 0 <= y -> 0 <= y' ->
  pixel_index width x y = pixel_index width x' y' -> x = x' ∧ y = y'.
Proof.
  intros W Hx Hx' Hy Hy' E. rewrite !pixel_index_tiles in E by done.
  pose proof (Morton_range x y). pose proof (Morton_range x' y').
  assert (ET : x / 8 + y / 8 * (width / 8) = x' / 8 + y' / 8 * (width / 8)) by lia.
  assert (EM : MortonInterleave (x mod 8) (y mod 8) = MortonInterleave (x' mod 8) (y' mod 8)) by (rewrite !Morton_mod; lia).
  destruct (Morton_back (x mod 8) (y mod 8)) as (X & Y & _); [apply Z.mod_pos_bound; done..|].
  destruct (Morton_back (x' mod 8) (y' mod 8)) as (X' & Y' & _); [apply Z.mod_pos_bound; done..|].
  rewrite EM in X, Y. assert (Ex : x mod 8 = x' mod 8) by congruence. assert (Ey : y mod 8 = y' mod 8) by congruence.
  assert (Bx : 0 <= x / 8 < width / 8) by (split; [apply Z.div_pos; lia|modlia]).
  assert (Bx' : 0 <= x' / 8 < width / 8) by (split; [apply Z.div_pos; lia|modlia]).
  destruct (Z.div_mod_unique (width / 8) (y / 8) (y' / 8) (x / 8) (x' / 8)) as [Qy Qx]; [by left|by left|rewrite !(Z.mul_comm (width / 8)); lia|].
  split; modlia.
Qed.
Lemma pixel_index_bound width x y : width mod 8 = 0 -> 0 <= x < width -> 0 <= y -> 0 <= pixel_index width x y < width * (8 * (y / 8 + 1)).
Proof.
  intros W Hx Hy. rewrite pixel_index_tiles by done. pose proof (Morton_range x y).
  assert (0 <= x / 8 < width / 8) by (split; [apply Z.div_pos; lia|modlia]). assert (0 <= y / 8) by (apply Z.div_pos; lia).
  assert (E : width = 8 * (width / 8)) by (pose proof (Z.div_mod width 8 ltac:(lia)); lia). set (q := width / 8) in *. clearbody q. subst width. nia.
Qed.

Lemma align8 x : in_range 32 x -> x .& unot 32 7 = 8 * (x / 8).
Proof. intros H. change (unot 32 7) with ((2 ^ (32 - 3) - 1) * 2 ^ 3). by rewrite (land_high 32 3) by (done || lia). Qed.
Lemma GetMortonOffset_value x y bpp : 0 <= x < 2 ^ 16 -> 0 <= y -> 0 <= bpp <= 4 -> GetMortonOffset x y bpp = (MortonInterleave x y + 64 * (x / 8)) * bpp.
Proof.
  intros Hx Hy Hb. unfold GetMortonOffset. rewrite align8 by (unfold in_range; lia). pose proof (Morton_range x y).
  assert (0 <= x / 8 < 2 ^ 13) by modlia. set (m := MortonInterleave x y) in *. set (q := x / 8) in *. clearbody m q.
  rewrite (uwrap_id 32 (8 * q * 8)) by (unfold in_range; lia). rewrite (uwrap_id 32 (m + 8 * q * 8)) by (unfold in_range; lia).
  rewrite uwrap_id by (unfold in_range; nia). lia.
Qed.
