(* ===== verification/Float32.v ===== *)
(** Single-precision numbers of the host, by the standard library's model of binary
    floating point with rounding to nearest even. *)

From Stdlib Require Import SpecFloat.
From S2P Require Import Prelude.

Abbreviation f32 := spec_float.
Definition f32_prec : Z := 24.
Definition f32_emax : Z := 128.

Definition f32_mul : f32 -> f32 -> f32 := SFmul f32_prec f32_emax.
Definition f32_div : f32 -> f32 -> f32 := SFdiv f32_prec f32_emax.
Definition f32_add : f32 -> f32 -> f32 := SFadd f32_prec f32_emax.
Definition f32_sub : f32 -> f32 -> f32 := SFsub f32_prec f32_emax.
(** [static_cast<float>] of an integer. *)
Definition f32_of_Z (v : Z) : f32 := binary_normalize f32_prec f32_emax v 0 false.

(** The integer part, toward zero. *)
Definition f32_trunc (x : f32) : option Z :=
  match x with
  | S754_zero _ => Some 0
  | S754_finite s m e => let v := if 0 <=? e then Zpos m * 2 ^ e else Zpos m / 2 ^ (- e) in Some (if s then - v else v)
  | _ => None
  end.
(** [static_cast<u32>]: undefined outside of the range. *)
Definition f32_to_u32 (x : f32) : option Z := v ← f32_trunc x; if (0 <=? v) && (v <? 2 ^ 32) then Some v else None.

(** [floorf] and [std::clamp] to a range of numbers. *)
Definition f32_floor (x : f32) : f32 :=
  match x with
  | S754_finite s mant e =>
      if 0 <=? e then x
      else let q := Zpos mant / 2 ^ (- e) in
        f32_of_Z (if s then (if Zpos mant mod 2 ^ (- e) =? 0 then - q else - q - 1) else q)
  | _ => x
  end.
Definition f32_clamp (x : f32) (lo hi : Z) : f32 :=
  if SFltb x (f32_of_Z lo) then f32_of_Z lo else if SFltb (f32_of_Z hi) x then f32_of_Z hi else x.

(** The bits of a number and back; every NaN is one. *)
Definition f32_bits (x : f32) : Z :=
  let sign (s : bool) : Z := if s then 2 ^ 31 else 0 in
  match x with
  | S754_zero s => sign s
  | S754_infinity s => sign s + 0x7F800000
  | S754_nan => 0x7FC00000
  | S754_finite s m e => sign s + (if Zpos m <? 2 ^ 23 then Zpos m else (e + 150) * 2 ^ 23 + (Zpos m - 2 ^ 23))
  end.
Definition f32_of_bits (v : Z) : f32 :=
  let s := Z.testbit v 31 in
  let e := (v ≫ 23) .& 0xFF in
  let m := v .& 0x7FFFFF in
  if e =? 0xFF then (if m =? 0 then S754_infinity s else S754_nan)
  else if e =? 0 then (match m with Zpos m => S754_finite s m (-149) | _ => S754_zero s end)
  else S754_finite s (Z.to_pos (m + 2 ^ 23)) (e - 150).

(** * The numbers of the GPU, [video_core/pica_types.h]: kept in single precision, with formats
    of fewer bits in registers. *)

Abbreviation f24 := f32.

Definition f32_isnan (x : f32) : bool := match x with S754_nan => true | _ => false end.

(* src: video_core/pica_types.h | static constexpr Float<M, E> Zero() { | Zero | +3 *)
Definition f24_zero : f24 := f32_of_Z 0.
(* src: video_core/pica_types.h | static constexpr Float<M, E> One() { | One | +3 *)
Definition f24_one : f24 := f32_of_Z 1.

(** A product that is not a number is zero, unless a factor was none. *)
(* src: video_core/pica_types.h | constexpr Float<M, E> operator*(const Float<M, E>& flt) const { | operator* | +8 *)
Definition f24_mul (value flt : f24) : f24 :=
  let result := f32_mul value flt in
  if f32_isnan result && negb (f32_isnan value) && negb (f32_isnan flt) then f24_zero else result.
(* src: video_core/pica_types.h | constexpr Float<M, E> operator/(const Float<M, E>& flt) const { | operator/ | +3 *)
Definition f24_div : f24 -> f24 -> f24 := f32_div.
(* src: video_core/pica_types.h | constexpr Float<M, E> operator+(const Float<M, E>& flt) const { | operator+ | +3 *)
Definition f24_add : f24 -> f24 -> f24 := f32_add.
(* src: video_core/pica_types.h | constexpr Float<M, E> operator-(const Float<M, E>& flt) const { | operator- | +3 *)
Definition f24_sub : f24 -> f24 -> f24 := f32_sub.
(* src: video_core/pica_types.h | constexpr Float<M, E> operator-() const { | operator- | +3 *)
Definition f24_opp : f24 -> f24 := SFopp.
(* src: video_core/pica_types.h | constexpr bool operator<(const Float<M, E>& flt) const { *)
Definition f24_ltb : f24 -> f24 -> bool := SFltb.
(* src: video_core/pica_types.h | constexpr bool operator>(const Float<M, E>& flt) const { *)
Definition f24_gtb (a b : f24) : bool := SFltb b a.
(* src: video_core/pica_types.h | constexpr bool operator>=(const Float<M, E>& flt) const { *)
Definition f24_geb (a b : f24) : bool := SFleb b a.
(* src: video_core/pica_types.h | constexpr bool operator<=(const Float<M, E>& flt) const { *)
Definition f24_leb : f24 -> f24 -> bool := SFleb.
(* src: video_core/pica_types.h | constexpr bool operator==(const Float<M, E>& flt) const { *)
Definition f24_eqb : f24 -> f24 -> bool := SFeqb.

(** A number of [M] bits of mantissa and [E] of exponent. *)
(* src: video_core/pica_types.h | static constexpr Float<M, E> FromRaw(u32 hex) { | FromRaw | +23 *)
Definition FromRaw (M E hex : Z) : f24 :=
  let width := M + E + 1 in
  let bias := 128 - (1 ≪ (E - 1)) in
  let exponent := (hex ≫ M) .& ((1 ≪ E) - 1) in
  let mantissa := hex .& ((1 ≪ M) - 1) in
  let sign := u32 ((hex ≫ (E + M)) ≪ 31) in
  let hex :=
    if nz (hex .& ((1 ≪ (width - 1)) - 1)) then
      let exponent := if exponent =? (1 ≪ E) - 1 then 255 else exponent + bias in
      sign .| u32 (mantissa ≪ (23 - M)) .| u32 (exponent ≪ 23)
    else sign in
  f32_of_bits hex.
(* src: video_core/pica_types.h | using f24 = Pica::Float<16, 7>; *)
Definition f24_FromRaw : Z -> f24 := FromRaw 16 7.
(* src: video_core/pica_types.h | using f20 = Pica::Float<12, 7>; *)
Definition f20_FromRaw : Z -> f24 := FromRaw 12 7.
(* src: video_core/pica_types.h | using f16 = Pica::Float<10, 5>; *)
Definition f16_FromRaw : Z -> f24 := FromRaw 10 5.

(** Four numbers. *)
(* src: common/vector_math.h | class Vec4 { | Vec4 | ..T w; *)
Record Vec4f := mk_Vec4f { fx : f24; fy : f24; fz : f24; fw : f24 }.
Definition vec4f_zip (op : f24 -> f24 -> f24) (a b : Vec4f) : Vec4f := mk_Vec4f (op (fx a) (fx b)) (op (fy a) (fy b)) (op (fz a) (fz b)) (op (fw a) (fw b)).
Definition vec4f_map (op : f24 -> f24) (a : Vec4f) : Vec4f := mk_Vec4f (op (fx a)) (op (fy a)) (op (fz a)) (op (fw a)).
(* src: common/vector_math.h | [[nodiscard]] constexpr decltype(T{} * T{} + T{} * T{}) Dot(const Vec4<T>& a, const Vec4<T>& b) { | Dot | +3 *)
Definition Dot4 (a b : Vec4f) : f24 :=
  f24_add (f24_add (f24_add (f24_mul (fx a) (fx b)) (f24_mul (fy a) (fy b))) (f24_mul (fz a) (fz b))) (f24_mul (fw a) (fw b)).
