(* ===== verification/Texture.v ===== *)
(** Decoding of the textures of the graphics unit: [video_core/texture/etc1.cpp] and
    [texture_decode.cpp].  A pointer to the bytes of a texture is a function that reads a
    number of bytes at an offset, or crashes. *)

From Stdlib Require Import SpecFloat.
From S2P Require Import Prelude BitField Color Float32.

Abbreviation Source := (Z -> nat -> option (list Z)).
Definition source_at (source : Source) (offset : Z) : Source := fun o n => source (offset + o) n.

(** ** ETC1 *)

(* src: video_core/texture/etc1.cpp | constexpr std::array<std::array<u8, 2>, 8> etc1_modifier_table = {{ | etc1_modifier_table | ..}}; *)
Definition etc1_modifier_table : list (list Z) :=
  [[2; 8]; [5; 17]; [9; 29]; [13; 42]; [18; 60]; [24; 80]; [33; 106]; [47; 183]].

(** The fields of [ETC1Tile]. *)
Section tile.
Context (raw : Z).
Definition tile_field (position bits : Z) : Z := ExtractValue 64 (BitField position bits) raw.
Definition tile_signed (position bits : Z) : Z := ExtractValue_signed 64 (BitField position bits) raw.

(* src: video_core/texture/etc1.cpp | unsigned GetTableSubIndex(unsigned index) const { *)
Definition GetTableSubIndex (index : Z) : Z := (tile_field 0 16 ≫ index) .& 1.
(* src: video_core/texture/etc1.cpp | bool GetNegationFlag(unsigned index) const { *)
Definition GetNegationFlag (index : Z) : bool := (tile_field 16 16 ≫ index) .& 1 =? 1.

(** The two base colours of the differential mode, and of the separate one. *)
(* src: video_core/texture/etc1.cpp | ret.r() = static_cast<int>(differential.r); | GetRGB | +11 *)
Definition differential_base (x : Z) : Vec3 :=
  let base (position : Z) (delta : Z) : Z := Convert5To8 (u8 (tile_field position 5 + (if 2 <=? x then tile_signed delta 3 else 0))) in
  mk_Vec3 (base 59 56) (base 51 48) (base 43 40).
(* src: video_core/texture/etc1.cpp | if (x < 2) { | GetRGB | +9 *)
Definition separate_base (x : Z) : Vec3 :=
  let base (position1 position2 : Z) : Z := Convert4To8 (if x <? 2 then tile_field position1 4 else tile_field position2 4) in
  mk_Vec3 (base 60 56) (base 52 48) (base 44 40).

(* src: video_core/texture/etc1.cpp | const Common::Vec3<u8> GetRGB(unsigned int x, unsigned int y) const { *)
Definition GetRGB (x y : Z) : Vec3 :=
  let texel := 4 * x + y in
  let (x, y) := if nz (tile_field 32 1) then (y, x) else (x, y) in
  let ret := if nz (tile_field 33 1) then differential_base x else separate_base x in
  let table_index := if x <? 2 then tile_field 37 3 else tile_field 34 3 in
  let modifier := (etc1_modifier_table !!! Z.to_nat table_index) !!! Z.to_nat (GetTableSubIndex texel) in
  let modifier := if GetNegationFlag texel then modifier * -1 else modifier in
  vec3_map (fun c => Z.min (Z.max (c + modifier) 0) 255) ret.
End tile.

(* src: video_core/texture/etc1.cpp | Common::Vec3<u8> SampleETC1Subtile(u64 value, unsigned int x, unsigned int y) { *)
Definition SampleETC1Subtile (value x y : Z) : Vec3 := GetRGB value x y.

(** ** Textures *)

(* src: video_core/pica/regs_texturing.h | enum class TextureFormat : u32 { *)
Inductive TextureFormat :=
| RGBA8 | RGB8 | RGB5A1 | RGB565 | RGBA4 | IA8 | RG8 | I8 | A8 | IA4 | I4 | A4 | ETC1 | ETC1A4
| UnknownFormat (value : Z).
#[export] Instance TextureFormat_eq_dec : EqDecision TextureFormat.
Proof. solve_decision. Defined.

(* src: video_core/texture/texture_decode.cpp | size_t CalculateTileSize(TextureFormat format) { *)
Definition CalculateTileSize (format : TextureFormat) : Z :=
  let TILE_SIZE := 8 * 8 in let ETC1_SUBTILES := 2 * 2 in
  match format with
  | RGBA8 => 4 * TILE_SIZE
  | RGB8 => 3 * TILE_SIZE
  | RGB5A1 | RGB565 | RGBA4 | IA8 | RG8 => 2 * TILE_SIZE
  | I8 | A8 | IA4 => 1 * TILE_SIZE
  | I4 | A4 => TILE_SIZE / 2
  | ETC1 => ETC1_SUBTILES * 8
  | ETC1A4 => ETC1_SUBTILES * 16
  | UnknownFormat _ => 0
  end.

(* src: video_core/texture/texture_decode.h | struct TextureInfo { | TextureInfo | +6 *)
Record TextureInfo := mk_TextureInfo { physical_address : Z; info_width : Z; info_height : Z; stride : Z; format : TextureFormat }.

(* src: video_core/texture/texture_decode.h | void SetDefaultStride() { *)
Definition SetDefaultStride (info : TextureInfo) : TextureInfo :=
  info<|stride := CalculateTileSize (format info) * (info_width info / 8)|>.

(** The nibble of a pixel in a tile of half bytes. *)
(* src: video_core/texture/texture_decode.cpp | u32 morton_offset = MortonInterleave(x, y); #1 | LookupTexelInTile | +5 *)
Definition half_byte (source : Source) (x y : Z) : option Z :=
  let morton_offset := MortonInterleave x y in
  bs ← source (morton_offset / 2) 1%nat;
  let b := bs !!! 0%nat in
  Some (Convert4To8 (if nz (morton_offset mod 2) then (b .& 0xF0) ≫ 4 else b .& 0xF)).

(* src: video_core/texture/texture_decode.cpp | bool has_alpha = (info.format == TextureFormat::ETC1A4); | LookupTexelInTile | +29 *)
Definition lookup_etc1 (source : Source) (has_alpha : bool) (x y : Z) (disable_alpha : bool) : option Vec4 :=
  let subtile_size := if has_alpha then 16 else 8 in
  let subtile_index := (x / 4) + 2 * (y / 4) in
  let x := x mod 4 in
  let y := y mod 4 in
  let subtile_ptr := subtile_index * subtile_size in
  '(a, subtile_ptr) ← (if has_alpha then
      packed_alpha ← le_combine <$> source subtile_ptr 8%nat;
      Some (Convert4To8 ((packed_alpha ≫ (4 * (x * 4 + y))) .& 0xF), subtile_ptr + 8)
    else Some (255, subtile_ptr));
  subtile_data ← le_combine <$> source subtile_ptr 8%nat;
  let c := SampleETC1Subtile subtile_data x y in
  Some (mk_Vec4 (v3x c) (v3y c) (v3z c) (if disable_alpha then 255 else a)).

(* src: video_core/texture/texture_decode.cpp | Common::Vec4<u8> LookupTexelInTile(const u8* source, unsigned int x, unsigned int y, *)
Definition LookupTexelInTile (source : Source) (x y : Z) (info : TextureInfo) (disable_alpha : bool) : option Vec4 :=
  let at_pixel (size : nat) : option (list Z) := source (MortonInterleave x y * Z.of_nat size) size in
  let opaque (c : Vec4) : Vec4 := mk_Vec4 (red c) (green c) (blue c) (if disable_alpha then 255 else alpha c) in
  match format info with
  | RGBA8 => bs ← at_pixel 4%nat; Some (opaque (DecodeRGBA8 bs))
  | RGB8 => bs ← at_pixel 3%nat; let res := DecodeRGB8 bs in Some (mk_Vec4 (red res) (green res) (blue res) 255)
  | RGB5A1 => bs ← at_pixel 2%nat; Some (opaque (DecodeRGB5A1 bs))
  | RGB565 => bs ← at_pixel 2%nat; let res := DecodeRGB565 bs in Some (mk_Vec4 (red res) (green res) (blue res) 255)
  | RGBA4 => bs ← at_pixel 2%nat; Some (opaque (DecodeRGBA4 bs))
  | IA8 => bs ← at_pixel 2%nat; let i := bs !!! 1%nat in let a := bs !!! 0%nat in
      Some (if disable_alpha then mk_Vec4 i a 0 255 else mk_Vec4 i i i a)
  | RG8 => bs ← at_pixel 2%nat; let res := DecodeRG8 bs in Some (mk_Vec4 (red res) (green res) 0 255)
  | I8 => bs ← at_pixel 1%nat; let i := bs !!! 0%nat in Some (mk_Vec4 i i i 255)
  | A8 => bs ← at_pixel 1%nat; let a := bs !!! 0%nat in Some (if disable_alpha then mk_Vec4 a a a 255 else mk_Vec4 0 0 0 a)
  | IA4 => bs ← at_pixel 1%nat;
      let i := Convert4To8 (((bs !!! 0%nat) .& 0xF0) ≫ 4) in let a := Convert4To8 ((bs !!! 0%nat) .& 0xF) in
      Some (if disable_alpha then mk_Vec4 i a 0 255 else mk_Vec4 i i i a)
  | I4 => i ← half_byte source x y; Some (mk_Vec4 i i i 255)
  | A4 => a ← half_byte source x y; Some (if disable_alpha then mk_Vec4 a a a 255 else mk_Vec4 0 0 0 a)
  | ETC1 => lookup_etc1 source false x y disable_alpha
  | ETC1A4 => lookup_etc1 source true x y disable_alpha
  | UnknownFormat _ => Some (mk_Vec4 0 0 0 0)
  end.

(* src: video_core/texture/texture_decode.cpp | Common::Vec4<u8> LookupTexture(const u8* source, unsigned int x, unsigned int y, *)
Definition LookupTexture (source : Source) (x y : Z) (info : TextureInfo) (disable_alpha : bool) : option Vec4 :=
  let coarse_x := x / 8 in
  let coarse_y := y / 8 in
  let fine_x := x mod 8 in
  let fine_y := y mod 8 in
  let line := coarse_y * stride info in
  let tile := line + coarse_x * CalculateTileSize (format info) in
  LookupTexelInTile (source_at source tile) fine_x fine_y info disable_alpha.

(** * The conversion of textures between the tiles of the graphics unit and the lines of the
    host, [video_core/rasterizer_cache/texture_codec.h], with the formats of [pixel_format.h]
    and the dispatch of [utils.cpp]. *)

(** ** Formats *)

Module PixelFormat.
(* src: video_core/rasterizer_cache/pixel_format.h | enum class PixelFormat : u32 { *)
Inductive t := RGBA8 | RGB8 | RGB5A1 | RGB565 | RGBA4 | IA8 | RG8 | I8 | A8 | IA4 | I4 | A4 | ETC1 | ETC1A4 | D16 | D24 | D24S8.
#[global] Instance t_eq_dec : EqDecision t.
Proof. solve_decision. Defined.
End PixelFormat.
Abbreviation PixelFormat := PixelFormat.t.
Implicit Types (f : PixelFormat).

(* src: video_core/rasterizer_cache/pixel_format.h | constexpr u32 GetFormatBpp(PixelFormat format) { *)
Definition GetFormatBpp f : Z :=
  match f with
  | PixelFormat.RGBA8 | PixelFormat.D24S8 => 32
  | PixelFormat.RGB8 | PixelFormat.D24 => 24
  | PixelFormat.RGB5A1 | PixelFormat.RGB565 | PixelFormat.RGBA4 | PixelFormat.IA8 | PixelFormat.RG8 | PixelFormat.D16 => 16
  | PixelFormat.I8 | PixelFormat.A8 | PixelFormat.IA4 | PixelFormat.ETC1A4 => 8
  | PixelFormat.I4 | PixelFormat.A4 | PixelFormat.ETC1 => 4
  end.
(* src: video_core/rasterizer_cache/pixel_format.h | constexpr u32 GetFormatBytesPerPixel(PixelFormat format) { *)
Definition GetFormatBytesPerPixel f : Z :=
  match f with
  | PixelFormat.RGB8 => 3
  | PixelFormat.RGB5A1 | PixelFormat.RGB565 | PixelFormat.RGBA4 | PixelFormat.D16 => 2
  | _ => 4
  end.

(** ** Pixels *)

Definition rgba_bytes (c : Vec4) : list Z := [red c; green c; blue c; alpha c].
Definition rgba_of (bs : list Z) : Vec4 := mk_Vec4 (bs !!! 0%nat) (bs !!! 1%nat) (bs !!! 2%nat) (bs !!! 3%nat).
(** [std::rotl] and [std::rotr] on 32 bits. *)
Definition rotl32 (x n : Z) : Z := u32 (x ≪ n) .| (x ≫ (32 - n)).
Definition rotr32 (x n : Z) : Z := (x ≫ n) .| u32 (x ≪ (32 - n)).

(** The bytes written for a pixel. *)
(* src: video_core/rasterizer_cache/texture_codec.h | constexpr void DecodePixel(const u8* source, u8* dest) { *)
Definition DecodePixel f (converted : bool) (source : list Z) : list Z :=
  match f, converted with
  | PixelFormat.RGBA8, true => rgba_bytes (DecodeRGBA8 source)
  | PixelFormat.RGB8, true => rgba_bytes (DecodeRGB8 source)
  | PixelFormat.RGB565, true => rgba_bytes (DecodeRGB565 source)
  | PixelFormat.RGB5A1, true => rgba_bytes (DecodeRGB5A1 source)
  | PixelFormat.RGBA4, true => rgba_bytes (DecodeRGBA4 source)
  | PixelFormat.IA8, _ => rgba_bytes (DecodeIA8 source)
  | PixelFormat.RG8, _ => rgba_bytes (DecodeRG8 source)
  | PixelFormat.I8, _ => rgba_bytes (DecodeI8 source)
  | PixelFormat.A8, _ => rgba_bytes (DecodeA8 source)
  | PixelFormat.IA4, _ => rgba_bytes (DecodeIA4 source)
  | PixelFormat.D24, true => le_split 4 (f32_bits (f32_div (f32_of_Z (DecodeD24 source)) (f32_of_Z 16777215)))
  | PixelFormat.D24S8, _ => le_split 4 (rotl32 (le_combine (take 4 source)) 8)
  | _, _ => take (Z.to_nat (GetFormatBpp f / 8)) source
  end.

(** The value of a pixel of half a byte, and of a compressed one. *)
(* src: video_core/rasterizer_cache/texture_codec.h | constexpr void DecodePixel4(u32 x, u32 y, const u8* source_tile, u8* dest_pixel) { *)
Definition DecodePixel4 f (x y : Z) (source_tile : Source) : option (list Z) :=
  let morton_offset := MortonInterleave x y in
  bs ← source_tile (morton_offset ≫ 1) 1%nat;
  let value := bs !!! 0%nat in
  let pixel := Convert4To8 (if nz (morton_offset mod 2) then value ≫ 4 else value .& 0xF) in
  Some (if decide (f = PixelFormat.I4) then [pixel; pixel; pixel; 255] else [0; 0; 0; pixel]).
(* src: video_core/rasterizer_cache/texture_codec.h | constexpr void DecodePixelETC1(u32 x, u32 y, const u8* source_tile, u8* dest_pixel) { *)
Definition DecodePixelETC1 f (x y : Z) (source_tile : Source) : option (list Z) :=
  let has_alpha := bool_decide (f = PixelFormat.ETC1A4) in
  let subtile_size := if has_alpha then 16 else 8 in
  let subtile_index := (x / 4) + 2 * (y / 4) in
  let x := x mod 4 in
  let y := y mod 4 in
  let subtile_ptr := subtile_index * subtile_size in
  '(a, subtile_ptr) ← (if has_alpha then
      packed_alpha ← le_combine <$> source_tile subtile_ptr 8%nat;
      Some (Convert4To8 ((packed_alpha ≫ (4 * (x * 4 + y))) .& 0xF), subtile_ptr + 8)
    else Some (255, subtile_ptr));
  subtile_data ← le_combine <$> source_tile subtile_ptr 8%nat;
  let c := SampleETC1Subtile subtile_data x y in
  Some [v3x c; v3y c; v3z c; a].

(** [None] where the conversion of the floating-point depth is undefined. *)
(* src: video_core/rasterizer_cache/texture_codec.h | constexpr void EncodePixel(const u8* source, u8* dest) { *)
Definition EncodePixel f (converted : bool) (source : list Z) : option (list Z) :=
  match f, converted with
  | PixelFormat.RGBA8, true => Some (EncodeRGBA8 (rgba_of source))
  | PixelFormat.RGB8, true => Some (EncodeRGB8 (rgba_of source))
  | PixelFormat.RGB565, true => Some (EncodeRGB565 (rgba_of source))
  | PixelFormat.RGB5A1, true => Some (EncodeRGB5A1 (rgba_of source))
  | PixelFormat.RGBA4, true => Some (EncodeRGBA4 (rgba_of source))
  | PixelFormat.IA8, _ => Some (EncodeIA8 (rgba_of source))
  | PixelFormat.RG8, _ => Some (EncodeRG8 (rgba_of source))
  | PixelFormat.I8, _ => Some (EncodeI8 (rgba_of source))
  | PixelFormat.A8, _ => Some (EncodeA8 (rgba_of source))
  | PixelFormat.IA4, _ => Some (EncodeIA4 (rgba_of source))
  | PixelFormat.D24, true =>
      d ← f32_to_u32 (f32_mul (f32_of_bits (le_combine (take 4 source))) (f32_of_Z 0xFFFFFF)); Some (EncodeD24 d)
  | PixelFormat.D24S8, _ => Some (le_split 4 (rotr32 (le_combine (take 4 source)) 8))
  | _, _ => Some (take (Z.to_nat (GetFormatBpp f / 8)) source)
  end.

(** The nibble of the other pixel of the byte stays. *)
(* src: video_core/rasterizer_cache/texture_codec.h | constexpr void EncodePixel4(u32 x, u32 y, const u8* source_pixel, u8* dest_tile_buffer) { *)
Definition EncodePixel4 f (x y : Z) (source_pixel : list Z) (current_values : Z) : Z :=
  let c := rgba_of source_pixel in
  let pixel := if decide (f = PixelFormat.I4) then AverageRgbComponents c else alpha c in
  let morton_offset := MortonInterleave x y in
  let new_value := Convert8To4 pixel in
  if nz (morton_offset mod 2) then u8 (new_value ≪ 4) .| (current_values .& 0x0F) else (current_values .& 0xF0) .| new_value.

(** ** Tiles *)

(** [subspan] and a copy into one: undefined outside of the span. *)
Definition get_span (l : list Z) (offset : Z) (n : nat) : option (list Z) :=
  if (0 <=? offset) && (offset + Z.of_nat n <=? Z.of_nat (length l)) then Some (take n (drop (Z.to_nat offset) l)) else None.
Definition put_span (l : list Z) (offset : Z) (bs : list Z) : option (list Z) :=
  if (0 <=? offset) && (offset + Z.of_nat (length bs) <=? Z.of_nat (length l)) then Some (list_inserts (Z.to_nat offset) bs l) else None.

Definition is_4bit f : bool := bool_decide (f = PixelFormat.I4 ∨ f = PixelFormat.A4).
Definition is_compressed f : bool := bool_decide (f = PixelFormat.ETC1 ∨ f = PixelFormat.ETC1A4).
(** The bytes of a pixel in the lines. *)
Definition linear_bytes f (converted : bool) : Z := if converted then 4 else GetFormatBytesPerPixel f.

(** The pixels of a tile, in the order of the loops. *)
Definition tile_pixels : list (Z * Z) := y ← seqZ 0 8; (fun x => (x, y)) <$> seqZ 0 8.

(** The bytes of a pixel of a tile for the lines. *)
(* src: video_core/rasterizer_cache/texture_codec.h | if constexpr (is_compressed) { | MortonCopyTile | +6 *)
Definition tile_texel f (converted : bool) (tile : list Z) (x y : Z) : option (list Z) :=
  let bytes_per_pixel := GetFormatBpp f / 8 in
  tiled_pixel ← get_span tile (MortonInterleave x y * bytes_per_pixel) (Z.to_nat bytes_per_pixel);
  if is_compressed f then DecodePixelETC1 f x y (get_span tile)
  else if is_4bit f then DecodePixel4 f x y (get_span tile)
  else Some (DecodePixel f converted tiled_pixel).
(* src: video_core/rasterizer_cache/texture_codec.h | const auto tiled_pixel = tile_buffer.subspan( | MortonCopyTile | +4 *)
Definition decode_tile_pixel f (converted : bool) (tile_stride : Z) (tile : list Z) (linear : list Z) (p : Z * Z) : option (list Z) :=
  let (x, y) := p in
  bs ← tile_texel f converted tile x y;
  put_span linear (((7 - y) * tile_stride + x) * linear_bytes f converted) bs.
(** One pixel of the lines, to a tile. *)
(* src: video_core/rasterizer_cache/texture_codec.h | if constexpr (is_4bit) { #2 | MortonCopyTile | +5 *)
Definition encode_tile_pixel f (converted : bool) (tile_stride : Z) (linear : list Z) (tile : list Z) (p : Z * Z) : option (list Z) :=
  let (x, y) := p in
  let bytes_per_pixel := GetFormatBpp f / 8 in
  linear_pixel ← get_span linear (((7 - y) * tile_stride + x) * linear_bytes f converted) (Z.to_nat (linear_bytes f converted));
  if is_4bit f then
    let byte_offset := MortonInterleave x y ≫ 1 in
    current ← get_span tile byte_offset 1%nat;
    put_span tile byte_offset [EncodePixel4 f x y linear_pixel (current !!! 0%nat)]
  else
    bs ← EncodePixel f converted linear_pixel;
    put_span tile (MortonInterleave x y * bytes_per_pixel) bs.

Fixpoint fold_spans {A} (step : list Z -> A -> option (list Z)) (l : list Z) (ps : list A) : option (list Z) :=
  match ps with [] => Some l | p :: ps => l ← step l p; fold_spans step l ps end.

(** The tile in its two directions: what changes is the lines, or the tile. *)
(* src: video_core/rasterizer_cache/texture_codec.h | constexpr void MortonCopyTile(u32 stride, std::span<u8> tile_buffer, std::span<u8> linear_buffer) { *)
Definition DecodeTile f (converted : bool) (tile_stride : Z) (tile linear : list Z) : option (list Z) :=
  fold_spans (decode_tile_pixel f converted tile_stride tile) linear tile_pixels.
(* src: video_core/rasterizer_cache/texture_codec.h | constexpr void MortonCopyTile(u32 stride, std::span<u8> tile_buffer, std::span<u8> linear_buffer) { *)
Definition EncodeTile f (converted : bool) (tile_stride : Z) (linear tile : list Z) : option (list Z) :=
  fold_spans (encode_tile_pixel f converted tile_stride linear) tile tile_pixels.

(** ** Images *)

(* src: common/alignment.h | [[nodiscard]] constexpr T AlignUp(T value, std::size_t size) { *)
Definition AlignUp (value size : Z) : Z :=
  let m := value mod size in
  let value := value - m in
  if m =? 0 then value else u32 (value + size).
(* src: common/alignment.h | [[nodiscard]] constexpr T AlignDown(T value, std::size_t size) { *)
Definition AlignDown (value size : Z) : Z := value - value mod size.

(** Where the next tile is in the image, and its first line in the lines. *)
Record Cursor := mk_Cursor { tile_x : Z; tile_y : Z; linear_offset : Z }.

Section copy.
Context f (converted : bool) (width height start_offset end_offset : Z).
#[local] Abbreviation bytes_per_pixel := (linear_bytes f converted).

(* src: video_core/rasterizer_cache/texture_codec.h | constexpr u32 tile_size = GetFormatBpp(format) * 64 / 8; | MortonCopy *)
Definition tile_size : Z := GetFormatBpp f * 64 / 8.
(* src: video_core/rasterizer_cache/texture_codec.h | const u32 linear_tile_stride = (7 * width + 8) * aligned_bytes_per_pixel; | MortonCopy *)
Definition linear_tile_stride : Z := u32 ((7 * width + 8) * bytes_per_pixel).
(* src: video_core/rasterizer_cache/texture_codec.h | u32 x = (begin_pixel_index % (width * 8)) / 8; | MortonCopy | +3 *)
Definition first_tile : Cursor :=
  let begin_pixel_index := u32 (AlignDown start_offset tile_size * 8) / GetFormatBpp f in
  let x := (begin_pixel_index mod u32 (width * 8)) / 8 in
  let y := (begin_pixel_index / u32 (width * 8)) * 8 in
  mk_Cursor x y (u32 (((height - 8 - y) * width + x) * bytes_per_pixel)).
(* src: video_core/rasterizer_cache/texture_codec.h | const auto linear_next_tile = [&] { | MortonCopy *)
Definition linear_next_tile (c : Cursor) : Cursor :=
  let x := u32 (tile_x c + 8) mod width in
  let offset := u32 (linear_offset c + 8 * bytes_per_pixel) in
  if x =? 0 then
    let y := u32 (tile_y c + 8) mod height in
    if y =? 0 then mk_Cursor x y offset
    else mk_Cursor x y (u32 (offset - width * 9 * bytes_per_pixel))
  else mk_Cursor x (tile_y c) offset.

(** The tiles between, from their bytes to the lines. *)
(* src: video_core/rasterizer_cache/texture_codec.h | while (tiled_offset < buffer_end) { | MortonCopy *)
Fixpoint decode_tiles (count : nat) (c : Cursor) (tiled_offset : Z) (tiled linear : list Z) : option (list Z) :=
  match count with
  | O => Some linear
  | S count =>
      linear_data ← get_span linear (linear_offset c) (Z.to_nat linear_tile_stride);
      tiled_data ← get_span tiled tiled_offset (Z.to_nat tile_size);
      linear_data ← DecodeTile f converted width tiled_data linear_data;
      linear ← put_span linear (linear_offset c) linear_data;
      decode_tiles count (linear_next_tile c) (tiled_offset + tile_size) tiled linear
  end.
(* src: video_core/rasterizer_cache/texture_codec.h | while (tiled_offset < buffer_end) { | MortonCopy *)
Fixpoint encode_tiles (count : nat) (c : Cursor) (tiled_offset : Z) (linear tiled : list Z) : option (Cursor * list Z) :=
  match count with
  | O => Some (c, tiled)
  | S count =>
      linear_data ← get_span linear (linear_offset c) (Z.to_nat linear_tile_stride);
      tiled_data ← get_span tiled tiled_offset (Z.to_nat tile_size);
      tiled_data ← EncodeTile f converted width linear_data tiled_data;
      tiled ← put_span tiled tiled_offset tiled_data;
      encode_tiles count (linear_next_tile c) (tiled_offset + tile_size) linear tiled
  end.

(** The turns of the loop from an offset. *)
Definition tile_count (tiled_offset buffer_end : Z) : nat :=
  if tiled_offset <? buffer_end then Z.to_nat ((buffer_end - tiled_offset + tile_size - 1) / tile_size) else O.

(** A crash where the assertion fails. *)
(* src: video_core/rasterizer_cache/texture_codec.h | static constexpr void MortonCopy(u32 width, u32 height, u32 start_offset, u32 end_offset, *)
Definition MortonDecode (linear_buffer tiled_buffer : list Z) : option (list Z) :=
  let aligned_start_offset := AlignUp start_offset tile_size in
  let aligned_end_offset := AlignDown end_offset tile_size in
  if (aligned_start_offset =? start_offset) && (aligned_end_offset =? end_offset) then
    if aligned_start_offset <? aligned_end_offset then
      let buffer_end := Z.min (u32 (aligned_end_offset - aligned_start_offset)) (Z.of_nat (length tiled_buffer)) in
      decode_tiles (tile_count 0 buffer_end) first_tile 0 tiled_buffer linear_buffer
    else Some linear_buffer
  else None.

(** A part of a tile that is not aligned goes over a buffer of its own. *)
Definition encode_part (c : Cursor) (linear : list Z) (from n : Z) : option (list Z) :=
  linear_data ← get_span linear (linear_offset c) (Z.to_nat linear_tile_stride);
  tmp_buf ← EncodeTile f converted width linear_data (replicate (Z.to_nat tile_size) 0);
  get_span tmp_buf from (Z.to_nat n).
(* src: video_core/rasterizer_cache/texture_codec.h | static constexpr void MortonCopy(u32 width, u32 height, u32 start_offset, u32 end_offset, *)
Definition MortonEncode (linear_buffer tiled_buffer : list Z) : option (list Z) :=
  let aligned_down_start_offset := AlignDown start_offset tile_size in
  let aligned_start_offset := AlignUp start_offset tile_size in
  let aligned_end_offset := AlignDown end_offset tile_size in
  '(c, tiled_offset, tiled) ← (if start_offset <? aligned_start_offset then
      bs ← encode_part first_tile linear_buffer (start_offset - aligned_down_start_offset)
             (Z.min aligned_start_offset end_offset - start_offset);
      tiled ← put_span tiled_buffer 0 bs;
      Some (linear_next_tile first_tile, u32 (aligned_start_offset - start_offset), tiled)
    else Some (first_tile, 0, tiled_buffer));
  '(c, tiled_offset, tiled) ← (if aligned_start_offset <? aligned_end_offset then
      let buffer_end := Z.min (u32 (tiled_offset + aligned_end_offset - aligned_start_offset)) (Z.of_nat (length tiled)) in
      let count := tile_count tiled_offset buffer_end in
      '(c, tiled) ← encode_tiles count c tiled_offset linear_buffer tiled;
      Some (c, tiled_offset + Z.of_nat count * tile_size, tiled)
    else Some (c, tiled_offset, tiled));
  if Z.max aligned_start_offset aligned_end_offset <? end_offset then
    bs ← encode_part c linear_buffer 0 (end_offset - aligned_end_offset);
    put_span tiled tiled_offset bs
  else Some tiled.
End copy.

(** ** Lines *)

(* src: video_core/rasterizer_cache/texture_codec.h | for (std::size_t src_index = 0, dst_index = 0; src_index < src_size && dst_index < dst_size; | LinearCopy *)
Fixpoint linear_pixels (count : nat) (convert : list Z -> option (list Z)) (src_bytes dst_bytes : nat) (src dst : list Z) : option (list Z) :=
  match count with
  | O => Some dst
  | S count =>
      bs ← convert (take src_bytes src);
      rest ← linear_pixels count convert src_bytes dst_bytes (drop src_bytes src) (drop dst_bytes dst);
      Some (list_inserts 0 bs (take dst_bytes dst) ++ rest)
  end.
(* src: video_core/rasterizer_cache/texture_codec.h | static constexpr void LinearCopy(std::span<u8> src_buffer, std::span<u8> dst_buffer) { *)
Definition LinearCopy (decode : bool) f (converted : bool) (src_buffer dst_buffer : list Z) : option (list Z) :=
  if converted then
    let encoded_bytes_per_pixel := GetFormatBpp f / 8 in
    let decoded_bytes_per_pixel := 4 in
    let src_bytes := if decode then encoded_bytes_per_pixel else decoded_bytes_per_pixel in
    let dst_bytes := if decode then decoded_bytes_per_pixel else encoded_bytes_per_pixel in
    let count := Z.min (Z.of_nat (length src_buffer) / src_bytes) (Z.of_nat (length dst_buffer) / dst_bytes) in
    linear_pixels (Z.to_nat count) (fun bs => if decode then Some (DecodePixel f converted bs) else EncodePixel f converted bs)
      (Z.to_nat src_bytes) (Z.to_nat dst_bytes) src_buffer dst_buffer
  else
    let n := min (length src_buffer) (length dst_buffer) in
    Some (take n src_buffer ++ drop n dst_buffer).

(** ** The dispatch *)

(** The formats of the tables. *)
(* src: video_core/rasterizer_cache/texture_codec.h | static constexpr std::array<MortonFunc, 18> UNSWIZZLE_TABLE_CONVERTED = { *)
Definition unswizzle_known f (convert : bool) : bool :=
  if convert then bool_decide (f ∈ [PixelFormat.RGBA8; PixelFormat.RGB8; PixelFormat.RGB5A1; PixelFormat.RGB565; PixelFormat.RGBA4; PixelFormat.D16; PixelFormat.D24])
  else true.
(* src: video_core/rasterizer_cache/texture_codec.h | static constexpr std::array<MortonFunc, 18> SWIZZLE_TABLE = { *)
Definition swizzle_known f (convert : bool) : bool :=
  if convert then unswizzle_known f true else negb (is_compressed f).
(* src: video_core/rasterizer_cache/texture_codec.h | static constexpr std::array<LinearFunc, 18> LINEAR_DECODE_TABLE = { *)
Definition linear_known f (convert : bool) : bool :=
  unswizzle_known f true || (negb convert && bool_decide (f = PixelFormat.D24S8)).

(** The fields of [SurfaceParams] that are used. *)
Record Surface := mk_Surface { surface_addr : Z; surface_width : Z; surface_height : Z; is_tiled : bool; pixel_format : PixelFormat }.

(** A format that is not known leaves the destination. *)
(* src: video_core/rasterizer_cache/utils.cpp | void EncodeTexture(const SurfaceParams& surface_info, PAddr start_addr, PAddr end_addr, *)
Definition EncodeTexture (s : Surface) (start_addr end_addr : Z) (source dest : list Z) (convert : bool) : option (list Z) :=
  let f := pixel_format s in
  if is_tiled s then
    if swizzle_known f convert
    then MortonEncode f convert (surface_width s) (surface_height s) (u32 (start_addr - surface_addr s)) (u32 (end_addr - surface_addr s)) source dest
    else Some dest
  else if linear_known f convert then LinearCopy false f convert source dest else Some dest.
(* src: video_core/rasterizer_cache/utils.cpp | void DecodeTexture(const SurfaceParams& surface_info, PAddr start_addr, PAddr end_addr, *)
Definition DecodeTexture (s : Surface) (start_addr end_addr : Z) (source dest : list Z) (convert : bool) : option (list Z) :=
  let f := pixel_format s in
  if is_tiled s then
    if unswizzle_known f convert
    then MortonDecode f convert (surface_width s) (surface_height s) (u32 (start_addr - surface_addr s)) (u32 (end_addr - surface_addr s)) dest source
    else Some dest
  else if linear_known f convert then LinearCopy true f convert source dest else Some dest.

(** * The two decoders of textures agree, and the lines of a texture encode to its tiles again.
    *)


(** ** Spans *)

Lemma get_span_some l o n : 0 <= o -> o + Z.of_nat n <= Z.of_nat (length l) -> get_span l o n = Some (take n (drop (Z.to_nat o) l)).
Proof. intros H1 H2. unfold get_span. destruct (Z.leb_spec 0 o); [|lia]. destruct (Z.leb_spec (o + Z.of_nat n) (Z.of_nat (length l))); [done|lia]. Qed.
Lemma get_span_inv l o n bs : get_span l o n = Some bs -> 0 <= o ∧ o + Z.of_nat n <= Z.of_nat (length l) ∧ bs = take n (drop (Z.to_nat o) l) ∧ length bs = n.
Proof.
  unfold get_span. destruct (Z.leb_spec 0 o); [|done]. destruct (Z.leb_spec (o + Z.of_nat n) (Z.of_nat (length l))); [|done].
  intros [= <-]. split; [done|]. split; [done|]. split; [done|]. rewrite length_take, length_drop. lia.
Qed.
Lemma put_span_some l o bs : 0 <= o -> o + Z.of_nat (length bs) <= Z.of_nat (length l) -> put_span l o bs = Some (list_inserts (Z.to_nat o) bs l).
Proof. intros H1 H2. unfold put_span. destruct (Z.leb_spec 0 o); [|lia]. destruct (Z.leb_spec (o + Z.of_nat (length bs)) (Z.of_nat (length l))); [done|lia]. Qed.
Lemma put_span_inv l o bs l' : put_span l o bs = Some l' -> 0 <= o ∧ o + Z.of_nat (length bs) <= Z.of_nat (length l) ∧ l' = list_inserts (Z.to_nat o) bs l.
Proof.
  unfold put_span. destruct (Z.leb_spec 0 o); [|done]. destruct (Z.leb_spec (o + Z.of_nat (length bs)) (Z.of_nat (length l))); [|done]. by intros [= <-].
Qed.

(** A byte of a span. *)
Lemma get_span_lookup l o n bs (i : nat) : get_span l o n = Some bs -> (i < n)%nat -> bs !! i = l !! (Z.to_nat o + i)%nat.
Proof. intros (H1 & H2 & -> & _)%get_span_inv Hi. by rewrite lookup_take_lt, lookup_drop. Qed.
Lemma get_span_ext l o n bs : 0 <= o -> o + Z.of_nat n <= Z.of_nat (length l) -> length bs = n ->
  (∀ i, (i < n)%nat -> l !! (Z.to_nat o + i)%nat = bs !! i) -> get_span l o n = Some bs.
Proof.
  intros H1 H2 L H. rewrite get_span_some by done. f_equal. apply list_eq_same_length with n; [done|rewrite length_take, length_drop; lia|].
  intros i x y Hi Hx Hy. rewrite lookup_take_lt, lookup_drop, H in Hx by done. congruence.
Qed.

(** A span of a span. *)
Lemma get_span_span l o n tile o' n' : get_span l o n = Some tile -> 0 <= o' -> o' + Z.of_nat n' <= Z.of_nat n -> get_span l (o + o') n' = get_span tile o' n'.
Proof.
  intros (H1 & H2 & -> & L)%get_span_inv Ho Hn. rewrite !get_span_some by (rewrite ?L; lia). f_equal.
  rewrite Z2Nat.inj_add by lia. rewrite skipn_firstn_comm, drop_drop, take_take, Nat.min_l by lia. done.
Qed.

(** Copies into a span are copies into what it is a span of. *)
Lemma put_in_span l o n sub off bs sub' : get_span l o n = Some sub -> put_span sub off bs = Some sub' ->
  put_span l (o + off) bs = Some (list_inserts (Z.to_nat (o + off)) bs l) ∧ get_span (list_inserts (Z.to_nat (o + off)) bs l) o n = Some sub'.
Proof.
  intros G P. pose proof (get_span_inv _ _ _ _ G) as (H1 & H2 & _ & L). apply put_span_inv in P as (P1 & P2 & ->).
  split; [apply put_span_some; lia|]. apply get_span_ext; [done|by rewrite length_inserts|by rewrite length_inserts|].
  intros i Hi. rewrite Z2Nat.inj_add by lia. destruct (decide (Z.to_nat off <= i < Z.to_nat off + length bs)%nat) as [I|I].
  - rewrite !list_lookup_inserts by lia. f_equal. lia.
  - destruct (decide (i < Z.to_nat off)%nat) as [I2|I2].
    + rewrite !list_lookup_inserts_lt by lia. symmetry. by eapply get_span_lookup.
    + rewrite !list_lookup_inserts_ge by lia. symmetry. by eapply get_span_lookup.
Qed.
Lemma get_put_same l o n sub : get_span l o n = Some sub -> list_inserts (Z.to_nat o) sub l = l.
Proof.
  intros G. pose proof (get_span_inv _ _ _ _ G) as (H1 & H2 & _ & L). apply list_eq. intros i.
  destruct (decide (Z.to_nat o <= i < Z.to_nat o + length sub)%nat) as [I|I].
  - rewrite list_lookup_inserts by lia. rewrite (get_span_lookup _ _ _ _ _ G) by lia. f_equal. lia.
  - destruct (decide (i < Z.to_nat o)%nat); [by rewrite list_lookup_inserts_lt|]. by rewrite list_lookup_inserts_ge by lia.
Qed.
Lemma inserts_inserts (l bs bs' : list Z) i j : (i <= j)%nat -> (j + length bs' <= i + length bs)%nat -> list_inserts i bs (list_inserts j bs' l) = list_inserts i bs l.
Proof.
  intros H1 H2. apply list_eq. intros k. destruct (decide (i <= k < i + length bs)%nat) as [I|I].
  - destruct (decide (k < length l)%nat); [|by rewrite !lookup_ge_None_2 by (rewrite !length_inserts; lia)].
    rewrite !list_lookup_inserts by (rewrite ?length_inserts; lia). done.
  - destruct (decide (k < i)%nat); [by rewrite !list_lookup_inserts_lt by lia|]. by rewrite !list_lookup_inserts_ge by lia.
Qed.

(** A fold of copies. *)
Definition copies (l : list Z) (ws : list (Z * list Z)) : option (list Z) := fold_spans (fun l w => put_span l (fst w) (snd w)) l ws.

Lemma copies_in_span l o n sub ws sub' : get_span l o n = Some sub -> copies sub ws = Some sub' ->
  ∃ l', put_span l o sub' = Some l' ∧ copies l (prod_map (Z.add o) id <$> ws) = Some l'.
Proof.
  revert l sub. induction ws as [|[off bs] ws IH]; intros l sub G C.
  - injection C as <-. exists l. split; [|done]. pose proof (get_span_inv _ _ _ _ G) as (H1 & H2 & _ & L).
    rewrite put_span_some by lia. f_equal. by eapply get_put_same.
  - cbn in C. destruct (put_span sub off bs) as [sub1|] eqn:P; [|done]. cbn in C.
    destruct (put_in_span _ _ _ _ _ _ _ G P) as [P' G']. destruct (IH _ _ G' C) as (l' & PL & CL).
    exists l'. split.
    + pose proof (put_span_inv _ _ _ _ PL) as (Q1 & Q2 & ->). pose proof (get_span_inv _ _ _ _ G) as (H1 & H2 & _ & L).
      apply put_span_inv in P as (P1 & P2 & ->). rewrite length_inserts in Q2. rewrite put_span_some by done. f_equal.
      symmetry. apply inserts_inserts; [lia|].
      assert (LS : length sub' = n).
      { clear - C L. revert C. assert (G : ∀ l2, length l2 = n -> copies l2 ws = Some sub' -> length sub' = n); [|apply G; by rewrite length_inserts].
        induction ws as [|[o2 b2] ws IH]; intros l2 L2 C2; [by injection C2 as <-|]. cbn in C2.
        destruct (put_span l2 o2 b2) as [l3|] eqn:P3; [|done]. apply (IH l3); [|done]. apply put_span_inv in P3 as (_ & _ & ->). by rewrite length_inserts. }
      lia.
    + cbn. unfold copies in CL |- *. cbn. rewrite P'. done.
Qed.
Lemma copies_app l ws1 ws2 : copies l (ws1 ++ ws2) = l' ← copies l ws1; copies l' ws2.
Proof.
  revert l. induction ws1 as [|w ws1 IH]; intros l; [done|]. unfold copies in *. cbn. destruct (put_span l (fst w) (snd w)) as [l1|]; [|done]. cbn. apply IH.
Qed.
Lemma copies_length l ws l' : copies l ws = Some l' -> length l' = length l.
Proof.
  revert l. induction ws as [|[o bs] ws IH]; intros l C; [by injection C as <-|]. cbn in C. destruct (put_span l o bs) as [l1|] eqn:P; [|done].
  rewrite (IH l1 C). apply put_span_inv in P as (_ & _ & ->). by rewrite length_inserts.
Qed.

(** Copies that do not meet. *)
Definition apart (w w' : Z * list Z) : Prop := fst w + Z.of_nat (length (snd w)) <= fst w' ∨ fst w' + Z.of_nat (length (snd w')) <= fst w.
Definition within (l : list Z) (w : Z * list Z) : Prop := 0 <= fst w ∧ fst w + Z.of_nat (length (snd w)) <= Z.of_nat (length l).

Lemma span_kept l o bs w : put_span l o bs = Some (list_inserts (Z.to_nat o) bs l) -> apart (o, bs) w -> within l w ->
  get_span (list_inserts (Z.to_nat o) bs l) (fst w) (length (snd w)) = get_span l (fst w) (length (snd w)).
Proof.
  intros (P1 & P2 & _)%put_span_inv A [W1 W2]. unfold apart in A. cbn in A. rewrite (get_span_some l) by done. apply get_span_ext; [done|by rewrite length_inserts|rewrite length_take, length_drop; lia|].
  intros i Hi. rewrite lookup_take_lt, lookup_drop by done. destruct A; [apply list_lookup_inserts_ge|apply list_lookup_inserts_lt]; lia.
Qed.
Lemma copies_spec l ws : ForallOrdPairs apart ws -> Forall (within l) ws ->
  ∃ l', copies l ws = Some l' ∧ length l' = length l ∧ (∀ w, w ∈ ws -> get_span l' (fst w) (length (snd w)) = Some (snd w)) ∧
    ∀ w, within l w -> Forall (apart w) ws -> get_span l' (fst w) (length (snd w)) = get_span l (fst w) (length (snd w)).
Proof.
  revert l. induction ws as [|[o bs] ws IH]; intros l A W; [exists l; split_and!; try done; intros w H; by apply elem_of_nil in H|].
  inversion A as [|? ? A1 A2]; subst. apply Forall_cons in W as [[W1 W2] W]. cbn in W1, W2.
  pose proof (put_span_some l o bs W1 W2) as P.
  assert (Wi : Forall (within (list_inserts (Z.to_nat o) bs l)) ws) by (eapply Forall_impl; [exact W|]; intros w [? ?]; split; [done|by rewrite length_inserts]).
  destruct (IH (list_inserts (Z.to_nat o) bs l) A2 Wi) as (l' & C & L & G & K).
  exists l'. rewrite length_inserts in L. split_and!; [unfold copies; cbn; by rewrite P|done| |].
  - intros w [->|H]%elem_of_cons; [|by apply G]. rewrite (K (o, bs)); [|split; [done|by rewrite length_inserts]|done]. cbn.
    apply get_span_ext; [done|by rewrite length_inserts|done|]. intros i Hi. rewrite list_lookup_inserts by lia. f_equal. lia.
  - intros w Ww [Aw Aws]%Forall_cons. rewrite K; [|split; [apply Ww|rewrite length_inserts; apply Ww]|done].
    apply (span_kept l o bs w P); [|done]. unfold apart in *. cbn in *. tauto.
Qed.

(** ** A pixel of a tile *)

(** The bytes of a pixel in the lines that are written. *)
Definition texel_length f (converted : bool) : nat :=
  match f, converted with
  | PixelFormat.RGB8, false | PixelFormat.D24, false => 3
  | PixelFormat.RGB5A1, false | PixelFormat.RGB565, false | PixelFormat.RGBA4, false | PixelFormat.D16, _ => 2
  | _, _ => 4
  end%nat.
Lemma texel_length_le f converted : Z.of_nat (texel_length f converted) <= linear_bytes f converted.
Proof. by destruct f, converted. Qed.

Lemma DecodePixel_length f converted bs : is_compressed f = false -> is_4bit f = false -> length bs = Z.to_nat (GetFormatBpp f / 8) ->
  length (DecodePixel f converted bs) = texel_length f converted.
Proof.
  intros C F L. destruct f, converted; try done; unfold DecodePixel; cbn [GetFormatBpp texel_length] in *; try apply length_le_split; try done;
    rewrite length_take, L; done.
Qed.

Lemma DecodePixelETC1_defined f (source : Source) x y : 0 <= x < 8 -> 0 <= y < 8 ->
  (∀ o, 0 <= o -> o + 8 <= (if bool_decide (f = PixelFormat.ETC1A4) then 64 else 32) -> is_Some (source o 8%nat)) ->
  ∃ bs, DecodePixelETC1 f x y source = Some bs ∧ length bs = 4%nat.
Proof.
  intros Hx Hy D. unfold DecodePixelETC1. assert (0 <= x / 4 <= 1) by modlia. assert (0 <= y / 4 <= 1) by modlia.
  destruct (bool_decide (f = PixelFormat.ETC1A4)).
  - destruct (D ((x / 4 + 2 * (y / 4)) * 16)) as [b1 E1]; [lia..|]. destruct (D ((x / 4 + 2 * (y / 4)) * 16 + 8)) as [b2 E2]; [lia..|].
    rewrite E1. cbn. rewrite E2. cbn. eexists. split; [reflexivity|done].
  - destruct (D ((x / 4 + 2 * (y / 4)) * 8)) as [b1 E1]; [lia..|]. cbn. rewrite E1. cbn. eexists. split; [reflexivity|done].
Qed.

Lemma tile_size_bits f : tile_size f = 8 * GetFormatBpp f ∧ 0 < GetFormatBpp f ∧ 0 <= GetFormatBpp f / 8 ∧ 8 * (GetFormatBpp f / 8) <= GetFormatBpp f.
Proof. destruct f; vm_compute; split_and!; done. Qed.
Lemma tile_texel_defined f converted tile x y : Z.of_nat (length tile) = tile_size f -> 0 <= x < 8 -> 0 <= y < 8 ->
  ∃ bs, tile_texel f converted tile x y = Some bs ∧ length bs = texel_length f converted.
Proof.
  intros L Hx Hy. pose proof (Morton_range x y) as M. unfold tile_texel. pose proof (tile_size_bits f) as (T & _ & B1 & B2). rewrite T in L.
  assert (E : get_span tile (MortonInterleave x y * (GetFormatBpp f / 8)) (Z.to_nat (GetFormatBpp f / 8)) =
    Some (take (Z.to_nat (GetFormatBpp f / 8)) (drop (Z.to_nat (MortonInterleave x y * (GetFormatBpp f / 8))) tile))).
  { apply get_span_some; nia. }
  rewrite E. cbn [mbind option_bind].
  destruct (is_compressed f) eqn:C; [|destruct (is_4bit f) eqn:F].
  - destruct (DecodePixelETC1_defined f (get_span tile) x y Hx Hy) as (bs & -> & Lb).
    { intros o Ho Lo. rewrite get_span_some; [done|done|]. destruct f; try discriminate C; cbn [GetFormatBpp] in L;
        [rewrite bool_decide_eq_false_2 in Lo by done|rewrite bool_decide_eq_true_2 in Lo by done]; lia. }
    exists bs. split; [done|]. rewrite Lb. by destruct f, converted.
  - unfold DecodePixel4. assert (H : 0 <= MortonInterleave x y ≫ 1 < 32) by (rewrite shiftr_div by done; modlia).
    rewrite get_span_some by (destruct f; try discriminate F; cbn [GetFormatBpp] in L; lia). cbn.
    eexists. split; [reflexivity|]. destruct f; try discriminate F; by destruct converted.
  - eexists. split; [reflexivity|]. apply DecodePixel_length; [done..|]. apply get_span_inv in E as (_ & _ & _ & Le). exact Le.
Qed.

(** ** An image *)

Lemma fold_copies {A} (step : list Z -> A -> option (list Z)) (w : A -> Z * list Z) ps l :
  (∀ l p, p ∈ ps -> step l p = put_span l (fst (w p)) (snd (w p))) -> fold_spans step l ps = copies l (w <$> ps).
Proof.
  revert l. induction ps as [|p ps IH]; intros l H; [done|]. unfold copies in *. cbn. rewrite H by left.
  destruct (put_span l _ _); [|done]. cbn. apply IH. intros l2 q Hq. apply H. by right.
Qed.
Lemma apart_list {A} (w : A -> Z * list Z) ps : NoDup ps -> (∀ p q, p ∈ ps -> q ∈ ps -> p ≠ q -> apart (w p) (w q)) -> ForallOrdPairs apart (w <$> ps).
Proof.
  induction ps as [|p ps IH]; intros N H; [constructor|]. apply NoDup_cons in N as [Np N]. cbn. constructor.
  - apply Forall_fmap, Forall_forall. intros q Hq. apply H; [left|by right|]. intros ->. done.
  - apply IH; [done|]. intros q r Hq Hr. apply H; by right.
Qed.

Lemma elem_of_tile_pixels x y : (x, y) ∈ tile_pixels <-> 0 <= x < 8 ∧ 0 <= y < 8.
Proof.
  unfold tile_pixels. rewrite list_elem_of_bind. split.
  - intros (y' & (x' & [= -> ->] & Hx)%list_elem_of_fmap & Hy). apply elem_of_seqZ in Hx, Hy. lia.
  - intros [Hx Hy]. exists y. split; [apply list_elem_of_fmap; exists x; split; [done|]|]; apply elem_of_seqZ; lia.
Qed.
Lemma NoDup_tile_pixels : NoDup tile_pixels.
Proof. apply (bool_decide_unpack _). vm_compute. exact I. Qed.

Section image.
Context (f : PixelFormat) (converted : bool) (tw th : Z) (Ptw : 0 < tw) (Pth : 0 < th) (Small : (8 * tw) * (8 * th) * 4 < 2 ^ 32).
#[local] Abbreviation Wd := (8 * tw).
#[local] Abbreviation Ht := (8 * th).
#[local] Abbreviation lb := (linear_bytes f converted).

(** Where the first byte of a pixel is in the lines, which go from the bottom up. *)
Definition line_place (x y : Z) : Z := ((Ht - 1 - y) * Wd + x) * lb.
(** The tile of a pixel. *)
Definition tile_of (x y : Z) : Z := x / 8 + y / 8 * tw.
(** The bytes of a pixel. *)
Definition texel_at (tiled : list Z) (x y : Z) : list Z :=
  default [] (tile ← get_span tiled (tile_of x y * tile_size f) (Z.to_nat (tile_size f)); tile_texel f converted tile (x mod 8) (y mod 8)).
Definition texel_write (tiled : list Z) (p : Z * Z) : Z * list Z := (line_place (fst p) (snd p), texel_at tiled (fst p) (snd p)).

Definition cursor_at (k : Z) : Cursor := mk_Cursor (8 * (k mod tw)) (8 * (k / tw)) (((Ht - 8 - 8 * (k / tw)) * Wd + 8 * (k mod tw)) * lb).
Definition pixels_of (k : Z) : list (Z * Z) := (fun p => (8 * (k mod tw) + fst p, 8 * (k / tw) + snd p)) <$> tile_pixels.

Lemma lb_range : 2 <= lb <= 4.
Proof. clear. unfold linear_bytes. destruct converted; [lia|]. destruct f; cbn; lia. Qed.

Lemma tile_coordinates k : 0 <= k < tw * th -> 0 <= k mod tw < tw ∧ 0 <= k / tw < th.
Proof.
  intros Hk. split; [by apply Z.mod_pos_bound|]. split; [apply Z.div_pos; lia|]. apply Z.div_lt_upper_bound; lia.
Qed.

(** A tile is inside of the lines, which are less than 2^32 bytes. *)
Lemma tile_fits x y : 0 <= x < tw -> 0 <= y < th ->
  0 <= ((Ht - 8 - 8 * y) * Wd + 8 * x) * lb ∧ ((Ht - 8 - 8 * y) * Wd + 8 * x) * lb + (7 * Wd + 8) * lb <= Ht * Wd * lb ∧ Ht * Wd * lb < 2 ^ 32.
Proof.
  intros Hx Hy. pose proof lb_range as Lb. assert (E : ((Ht - 8 - 8 * y) * Wd + 8 * x) * lb + (7 * Wd + 8) * lb = ((Ht - 8 * y - 1) * Wd + 8 * (x + 1)) * lb) by ring.
  assert (0 <= (Ht - 8 - 8 * y) * Wd) by nia. assert ((Ht - 8 * y - 1) * Wd + 8 * (x + 1) <= Ht * Wd) by nia. nia.
Qed.
Lemma tile_stride_value : linear_tile_stride f converted Wd = (7 * Wd + 8) * lb.
Proof. pose proof lb_range. destruct (tile_fits 0 0) as (? & ? & ?); [lia..|]. apply uwrap_id. unfold in_range. nia. Qed.
Lemma next_offset x y x' y' z : ((Ht - 8 - 8 * y) * Wd + 8 * x) * lb + z = ((Ht - 8 - 8 * y') * Wd + 8 * x') * lb -> 0 <= x' < tw -> 0 <= y' < th ->
  u32 (((Ht - 8 - 8 * y) * Wd + 8 * x) * lb + z) = ((Ht - 8 - 8 * y') * Wd + 8 * x') * lb.
Proof. intros E Hx Hy. rewrite E. destruct (tile_fits x' y' Hx Hy) as (? & ? & ?). pose proof lb_range. apply uwrap_id. unfold in_range. nia. Qed.

Lemma next_tile k : 0 <= k -> k + 1 < tw * th -> linear_next_tile f converted Wd Ht (cursor_at k) = cursor_at (k + 1).
Proof.
  intros Hk Hk1. destruct (tile_coordinates k) as [Kx Ky]; [lia|]. destruct (tile_coordinates (k + 1)) as [Kx1 Ky1]; [lia|].
  pose proof (Z.div_mod k tw ltac:(lia)) as D. unfold linear_next_tile, cursor_at. cbn [tile_x tile_y linear_offset].
  set (q := k / tw) in *. set (r := k mod tw) in *.
  assert (U : u32 (8 * r + 8) = 8 * (r + 1)) by (rewrite uwrap_id; unfold in_range; [lia|nia]). rewrite U.
  assert (M : 8 * (r + 1) mod Wd = 8 * ((r + 1) mod tw)) by (rewrite Z.mul_mod_distr_l by lia; done). rewrite M.
  destruct (decide (r + 1 = tw)) as [E|N].
  - assert (E1 : (k + 1) / tw = q + 1) by (symmetry; apply (Z.div_unique_pos _ _ _ 0); lia).
    assert (E2 : (k + 1) mod tw = 0) by (symmetry; apply (Z.mod_unique_pos _ _ (q + 1) 0); lia).
    rewrite E, Z.mod_same, E1, E2 by lia. rewrite E1 in Ky1. rewrite Z.mul_0_r. cbn [Z.eqb].
    assert (U2 : u32 (8 * q + 8) = 8 * (q + 1)) by (rewrite uwrap_id; unfold in_range; [lia|nia]). rewrite U2.
    rewrite (Z.mod_small (8 * (q + 1)) Ht) by lia. destruct (Z.eqb_spec (8 * (q + 1)) 0); [lia|]. f_equal.
    unfold uwrap at 2. unfold uwrap. rewrite Zminus_mod_idemp_l. fold (u32 (((Ht - 8 - 8 * q) * Wd + 8 * r) * lb + 8 * lb - Wd * 9 * lb)).
    rewrite <- Z.add_sub_assoc. rewrite (next_offset r q 0 (q + 1)); [by rewrite Z.mul_0_r| |lia|lia]. replace tw with (r + 1) by lia. ring.
  - assert (E1 : (k + 1) / tw = q) by (symmetry; apply (Z.div_unique_pos _ _ _ (r + 1)); lia).
    assert (E2 : (k + 1) mod tw = r + 1) by (symmetry; apply (Z.mod_unique_pos _ _ q (r + 1)); lia).
    rewrite (Z.mod_small (r + 1) tw), E1, E2 by lia. destruct (Z.eqb_spec (8 * (r + 1)) 0); [lia|]. f_equal.
    apply next_offset; [ring|lia|lia].
Qed.
Lemma first_tile_0 : first_tile f converted Wd Ht 0 = cursor_at 0.
Proof.
  pose proof (tile_size_bits f) as (T & B & _). destruct (tile_fits 0 0) as (_ & _ & Fit); [lia..|]. pose proof lb_range as Lb.
  unfold first_tile, cursor_at, AlignDown. rewrite (Z.mod_0_l (tile_size f)) by lia. change (u32 ((0 - 0) * 8)) with 0. rewrite (uwrap_id 32 (Wd * 8)) by (unfold in_range; nia).
  rewrite (Z.div_0_l (GetFormatBpp f)) by lia. rewrite (Z.mod_0_l (Wd * 8)), (Z.div_0_l (Wd * 8)), (Z.mod_0_l tw), (Z.div_0_l tw) by lia.
  change (0 / 8) with 0. change (0 * 8) with 0. change (8 * 0) with 0. f_equal. pose proof (next_offset 0 0 0 0 0) as E.
  change (8 * 0) with 0 in E. rewrite !Z.add_0_r in E. rewrite !Z.add_0_r. apply E; lia.
Qed.

(** Distinct pixels have their bytes apart. *)
Lemma texel_at_length tiled x y : Z.of_nat (length tiled) = tw * th * tile_size f -> 0 <= x < Wd -> 0 <= y < Ht ->
  ∃ tile, get_span tiled (tile_of x y * tile_size f) (Z.to_nat (tile_size f)) = Some tile ∧
    tile_texel f converted tile (x mod 8) (y mod 8) = Some (texel_at tiled x y) ∧ length (texel_at tiled x y) = texel_length f converted.
Proof.
  intros L Hx Hy. pose proof (tile_size_bits f) as (T & B & _). unfold texel_at. assert (0 <= tile_of x y < tw * th).
  { unfold tile_of. assert (0 <= x / 8 < tw) by modlia. assert (0 <= y / 8 < th) by modlia. nia. }
  pose proof (get_span_some tiled (tile_of x y * tile_size f) (Z.to_nat (tile_size f)) ltac:(nia) ltac:(nia)) as E.
  destruct (tile_texel_defined f converted _ (x mod 8) (y mod 8)
    ltac:(pose proof (get_span_inv _ _ _ _ E) as (_ & _ & _ & G); rewrite G; lia) ltac:(apply Z.mod_pos_bound; lia) ltac:(apply Z.mod_pos_bound; lia)) as (bs & Eb & Lb).
  rewrite E. cbn. rewrite Eb. eexists. split; [reflexivity|]. by rewrite Eb.
Qed.
Lemma texel_write_fits tiled linear x y : Z.of_nat (length tiled) = tw * th * tile_size f -> Z.of_nat (length linear) = Ht * Wd * lb ->
  0 <= x < Wd -> 0 <= y < Ht -> within linear (texel_write tiled (x, y)).
Proof.
  intros L1 L2 Hx Hy. destruct (texel_at_length tiled x y L1 Hx Hy) as (_ & _ & _ & L). pose proof (texel_length_le f converted).
  unfold within, texel_write, line_place. cbn. rewrite L, L2. pose proof lb_range. assert (0 <= (Ht - 1 - y) * Wd) by nia.
  assert ((Ht - 1 - y) * Wd + x + 1 <= Ht * Wd) by nia. nia.
Qed.
Lemma texel_write_apart tiled x y x' y' : Z.of_nat (length tiled) = tw * th * tile_size f -> 0 <= x < Wd -> 0 <= y < Ht -> 0 <= x' < Wd -> 0 <= y' < Ht ->
  (x, y) ≠ (x', y') -> apart (texel_write tiled (x, y)) (texel_write tiled (x', y')).
Proof.
  intros L Hx Hy Hx' Hy' N. destruct (texel_at_length tiled x y L Hx Hy) as (_ & _ & _ & L1). destruct (texel_at_length tiled x' y' L Hx' Hy') as (_ & _ & _ & L2).
  pose proof (texel_length_le f converted). unfold apart, texel_write, line_place. cbn. rewrite L1, L2. pose proof lb_range.
  set (i := (Ht - 1 - y) * Wd + x). set (j := (Ht - 1 - y') * Wd + x'). assert (i ≠ j).
  { subst i j. intros E. destruct (Z.div_mod_unique Wd (Ht - 1 - y) (Ht - 1 - y') x x') as [E1 E2]; [by left|by left|lia|]. apply N. f_equal; lia. }
  assert (i + 1 <= j ∨ j + 1 <= i) as [?|?] by lia; [left|right]; nia.
Qed.

(** Every pixel, in the order of the tiles. *)
Definition all_pixels : list (Z * Z) := seqZ 0 (tw * th) ≫= pixels_of.

Lemma elem_of_pixels_of k x y : 0 <= k < tw * th -> (x, y) ∈ pixels_of k <-> 0 <= x < Wd ∧ 0 <= y < Ht ∧ tile_of x y = k.
Proof.
  intros Hk. destruct (tile_coordinates k Hk) as [Kx Ky]. pose proof (Z.div_mod k tw ltac:(lia)) as D. unfold pixels_of, tile_of. rewrite list_elem_of_fmap. split.
  - intros ([px py] & [= -> ->] & [Hx Hy]%elem_of_tile_pixels). cbn. split; [lia|]. split; [lia|].
    replace ((8 * (k mod tw) + px) / 8) with (k mod tw) by modlia. replace ((8 * (k / tw) + py) / 8) with (k / tw) by modlia. lia.
  - intros (Hx & Hy & E). exists (x mod 8, y mod 8). split; [|apply elem_of_tile_pixels; split; apply Z.mod_pos_bound; lia]. cbn.
    assert (E1 : k / tw = y / 8) by (symmetry; apply (Z.div_unique_pos _ _ _ (x / 8)); [modlia|lia]).
    assert (E2 : k mod tw = x / 8) by (symmetry; apply (Z.mod_unique_pos _ _ (y / 8) (x / 8)); [modlia|lia]).
    rewrite E1, E2. f_equal; modlia.
Qed.
Lemma elem_of_all_pixels x y : (x, y) ∈ all_pixels <-> 0 <= x < Wd ∧ 0 <= y < Ht.
Proof.
  unfold all_pixels. rewrite list_elem_of_bind. split.
  - intros (k & E & Hk%elem_of_seqZ). apply elem_of_pixels_of in E; [tauto|lia].
  - intros [Hx Hy]. exists (tile_of x y). assert (0 <= tile_of x y < tw * th).
    { unfold tile_of. assert (0 <= x / 8 < tw) by modlia. assert (0 <= y / 8 < th) by modlia. nia. }
    split; [by apply elem_of_pixels_of|apply elem_of_seqZ; lia].
Qed.
Lemma NoDup_all_pixels : NoDup all_pixels.
Proof.
  apply NoDup_bind; [| |apply NoDup_seqZ].
  - intros k1 k2 [x y] H1%elem_of_seqZ H2%elem_of_seqZ E1 E2. apply elem_of_pixels_of in E1; [|lia]. apply elem_of_pixels_of in E2; [|lia]. lia.
  - intros k _. apply NoDup_fmap_2; [|apply NoDup_tile_pixels]. intros [x y] [x' y'] [= E1 E2]. f_equal; lia.
Qed.

(** A tile is its pixels. *)
Lemma DecodeTile_copies tiled k tile sub : 0 <= k < tw * th -> Z.of_nat (length tiled) = tw * th * tile_size f ->
  get_span tiled (k * tile_size f) (Z.to_nat (tile_size f)) = Some tile ->
  DecodeTile f converted Wd tile sub = copies sub ((fun p => (((7 - snd p) * Wd + fst p) * lb, texel_at tiled (8 * (k mod tw) + fst p) (8 * (k / tw) + snd p))) <$> tile_pixels).
Proof.
  intros Hk L G. apply fold_copies. intros l [x y] Hp. apply elem_of_tile_pixels in Hp as [Hx Hy]. cbn.
  assert (Px : (8 * (k mod tw) + x, 8 * (k / tw) + y) ∈ pixels_of k) by (apply list_elem_of_fmap; exists (x, y); split; [done|by apply elem_of_tile_pixels]).
  apply elem_of_pixels_of in Px as (X & Y & Ek); [|done].
  destruct (texel_at_length tiled _ _ L X Y) as (tile' & G' & T & _). rewrite Ek, G in G'. injection G' as <-.
  replace ((8 * (k mod tw) + x) mod 8) with x in T by modlia. replace ((8 * (k / tw) + y) mod 8) with y in T by modlia. by rewrite T.
Qed.
Lemma DecodeTile_place tiled k tile linear sub : 0 <= k < tw * th -> Z.of_nat (length tiled) = tw * th * tile_size f -> Z.of_nat (length linear) = Ht * Wd * lb ->
  get_span tiled (k * tile_size f) (Z.to_nat (tile_size f)) = Some tile ->
  get_span linear (linear_offset (cursor_at k)) (Z.to_nat (linear_tile_stride f converted Wd)) = Some sub ->
  ∃ sub' linear', DecodeTile f converted Wd tile sub = Some sub' ∧ put_span linear (linear_offset (cursor_at k)) sub' = Some linear' ∧
    copies linear (texel_write tiled <$> pixels_of k) = Some linear'.
Proof.
  intros Hk L1 L2 G S. rewrite (DecodeTile_copies tiled k) by done. destruct (tile_coordinates k Hk) as [Kx Ky].
  set (ws := _ <$> tile_pixels).
  assert (Shift : prod_map (Z.add (linear_offset (cursor_at k))) id <$> ws = texel_write tiled <$> pixels_of k).
  { subst ws. unfold pixels_of. rewrite <- !list_fmap_compose. apply list_fmap_ext. intros _ [x y] _. unfold texel_write, line_place, cursor_at. cbn. f_equal. ring. }
  assert (Inside : ∀ p, p ∈ pixels_of k -> ∃ x y, p = (x, y) ∧ 0 <= x < Wd ∧ 0 <= y < Ht).
  { intros [x y] Hp. apply elem_of_pixels_of in Hp; [|done]. exists x, y. tauto. }
  pose proof (get_span_inv _ _ _ _ S) as (S1 & S2 & _ & LS). pose proof (tile_fits _ _ Kx Ky) as (F1 & F2 & _). rewrite tile_stride_value in *.
  destruct (copies_spec sub ws) as (sub' & C & Lsub & _).
  - subst ws. apply apart_list; [apply NoDup_tile_pixels|]. intros [x y] [x' y'] [Hx Hy]%elem_of_tile_pixels [Hx' Hy']%elem_of_tile_pixels N.
    pose proof (texel_write_apart tiled (8 * (k mod tw) + x) (8 * (k / tw) + y) (8 * (k mod tw) + x') (8 * (k / tw) + y') L1 ltac:(lia) ltac:(lia) ltac:(lia) ltac:(lia)) as A.
    unfold apart, texel_write, line_place in A |- *. cbn in A |- *. assert (N2 : (8 * (k mod tw) + x, 8 * (k / tw) + y) ≠ (8 * (k mod tw) + x', 8 * (k / tw) + y')) by (intros [= E1 E2]; apply N; f_equal; lia).
    specialize (A N2). lia.
  - subst ws. apply Forall_fmap, Forall_forall. intros [x y] [Hx Hy]%elem_of_tile_pixels. unfold within. cbn.
    destruct (texel_at_length tiled (8 * (k mod tw) + x) (8 * (k / tw) + y) L1 ltac:(lia) ltac:(lia)) as (_ & _ & _ & ->).
    pose proof (texel_length_le f converted). pose proof lb_range. assert ((7 - y) * Wd + x + 1 <= 7 * Wd + 8) by nia. rewrite LS. nia.
  - destruct (copies_in_span _ _ _ _ _ _ S C) as (linear' & P & C'). exists sub', linear'. rewrite Shift in C'. done.
Qed.

Lemma decode_tiles_copies tiled n k linear : 0 <= k -> k + Z.of_nat n = tw * th -> Z.of_nat (length tiled) = tw * th * tile_size f -> Z.of_nat (length linear) = Ht * Wd * lb ->
  decode_tiles f converted Wd Ht n (cursor_at k) (k * tile_size f) tiled linear = copies linear (texel_write tiled <$> (seqZ k (Z.of_nat n) ≫= pixels_of)).
Proof.
  revert k linear. induction n as [|n IH]; intros k linear Hk Hn L1 L2; [done|].
  pose proof (tile_size_bits f) as (T & B & _). destruct (tile_coordinates k) as [Kx Ky]; [lia|]. destruct (tile_fits _ _ Kx Ky) as (F1 & F2 & _). pose proof lb_range.
  pose proof (get_span_some tiled (k * tile_size f) (Z.to_nat (tile_size f)) ltac:(nia) ltac:(nia)) as G.
  pose proof (get_span_some linear (linear_offset (cursor_at k)) (Z.to_nat (linear_tile_stride f converted Wd)) F1 ltac:(rewrite tile_stride_value; cbn; lia)) as G2.
  destruct (DecodeTile_place tiled k _ linear _ ltac:(lia) L1 L2 G G2) as (sub' & linear' & D & P & C).
  cbn [decode_tiles]. rewrite G2. cbn [mbind option_bind]. rewrite G. cbn [mbind option_bind]. rewrite D. cbn [mbind option_bind]. rewrite P. cbn [mbind option_bind].
  rewrite (seqZ_cons k) by lia. cbn [mbind list_bind]. change (list_bind _ _ pixels_of) with (mbind (M := list) pixels_of).
  rewrite fmap_app, copies_app, C. cbn [mbind option_bind].
  destruct n as [|n]; [done|]. rewrite next_tile by lia. replace (k * tile_size f + tile_size f) with ((k + 1) * tile_size f) by ring.
  replace (Z.pred (Z.of_nat (S (S n)))) with (Z.of_nat (S n)) by lia. rewrite <- IH; [done|lia|lia|done|].
  apply copies_length in C. lia.
Qed.

Lemma MortonDecode_pixels tiled linear : Z.of_nat (length tiled) = tw * th * tile_size f -> Z.of_nat (length linear) = Ht * Wd * lb ->
  ∃ linear', MortonDecode f converted Wd Ht 0 (tw * th * tile_size f) linear tiled = Some linear' ∧ length linear' = length linear ∧
    ∀ x y, 0 <= x < Wd -> 0 <= y < Ht -> get_span linear' (line_place x y) (texel_length f converted) = Some (texel_at tiled x y).
Proof.
  intros L1 L2. pose proof (tile_size_bits f) as (T & B & _). assert (B2 : GetFormatBpp f <= 32) by (clear; destruct f; done).
  assert (0 < tw * th) by nia. assert (tw * th * tile_size f < 2 ^ 32) by nia.
  unfold MortonDecode, AlignUp, AlignDown. rewrite Z.mod_0_l, Z.mod_mul by lia. rewrite !Z.sub_0_r. cbn [Z.eqb].
  rewrite Z.eqb_refl. cbn [andb]. destruct (Z.ltb_spec 0 (tw * th * tile_size f)); [|nia].
  rewrite uwrap_id, L1, Z.min_id by (unfold in_range; nia). rewrite first_tile_0.
  assert (C : tile_count f 0 (tw * th * tile_size f) = Z.to_nat (tw * th)).
  { unfold tile_count. destruct (Z.ltb_spec 0 (tw * th * tile_size f)); [|nia]. f_equal. symmetry. apply (Z.div_unique_pos _ _ _ (tile_size f - 1)); nia. }
  rewrite C. replace 0 with (0 * tile_size f) at 2 by lia. rewrite decode_tiles_copies by lia. rewrite Z2Nat.id by lia. fold all_pixels.
  destruct (copies_spec linear (texel_write tiled <$> all_pixels)) as (linear' & Cp & Ll & G & _).
  - apply apart_list; [apply NoDup_all_pixels|]. intros [x y] [x' y'] [Hx Hy]%elem_of_all_pixels [Hx' Hy']%elem_of_all_pixels N. by apply texel_write_apart.
  - apply Forall_fmap, Forall_forall. intros [x y] [Hx Hy]%elem_of_all_pixels. by apply texel_write_fits.
  - exists linear'. split; [done|]. split; [done|]. intros x y Hx Hy. destruct (texel_at_length tiled x y L1 Hx Hy) as (_ & _ & _ & L).
    specialize (G (texel_write tiled (x, y))). cbn in G. rewrite L in G. apply G. apply list_elem_of_fmap. exists (x, y). split; [done|]. by apply elem_of_all_pixels.
Qed.
End image.

(** ** The decoder of the software renderer *)

(** The formats that become colours. *)
Definition as_rgba f (converted : bool) : option TextureFormat :=
  match f, converted with
  | PixelFormat.RGBA8, true => Some RGBA8 | PixelFormat.RGB8, true => Some RGB8 | PixelFormat.RGB5A1, true => Some RGB5A1
  | PixelFormat.RGB565, true => Some RGB565 | PixelFormat.RGBA4, true => Some RGBA4
  | PixelFormat.IA8, _ => Some IA8 | PixelFormat.RG8, _ => Some RG8 | PixelFormat.I8, _ => Some I8 | PixelFormat.A8, _ => Some A8
  | PixelFormat.IA4, _ => Some IA4 | PixelFormat.I4, _ => Some I4 | PixelFormat.A4, _ => Some A4
  | PixelFormat.ETC1, _ => Some ETC1 | PixelFormat.ETC1A4, _ => Some ETC1A4
  | _, _ => None
  end.

Lemma high_nibble b : in_range 8 b -> (b .& 0xF0) ≫ 4 = b ≫ 4.
Proof. intros Hb. apply Z.eqb_eq. by apply (below_all (fun b => (b .& 0xF0) ≫ 4 =? b ≫ 4) 256). Qed.

Lemma as_rgba_facts f converted F : as_rgba f converted = Some F -> CalculateTileSize F = tile_size f ∧ linear_bytes f converted = 4 ∧ texel_length f converted = 4%nat.
Proof. by destruct f, converted; intros [= <-]. Qed.

Lemma bytes_ok_span tile o n bs : bytes_ok tile -> get_span tile o n = Some bs -> bytes_ok bs.
Proof. intros B (_ & _ & -> & _)%get_span_inv. by apply Forall_take, Forall_drop. Qed.

(** A pixel of a tile is the same colour for both. *)
Lemma texel_is_lookup f converted F tile x y info : as_rgba f converted = Some F -> format info = F -> bytes_ok tile -> Z.of_nat (length tile) = tile_size f ->
  0 <= x < 8 -> 0 <= y < 8 -> tile_texel f converted tile x y = rgba_bytes <$> LookupTexelInTile (get_span tile) x y info false.
Proof.
  intros HF Ef B L Hx Hy. pose proof (Morton_range x y) as M. unfold LookupTexelInTile, tile_texel. rewrite Ef. pose proof (tile_size_bits f) as (T & _ & B1 & B2).
  destruct (is_compressed f) eqn:C; [|destruct (is_4bit f) eqn:F4].
  - rewrite get_span_some by nia. cbn [mbind option_bind].
    destruct f; try discriminate C; injection HF as <-; unfold DecodePixelETC1, lookup_etc1; cbn [bool_decide decide]; 
      [rewrite bool_decide_eq_false_2 by done; cbn [mbind option_bind]|rewrite bool_decide_eq_true_2 by done].
    + destruct (le_combine <$> get_span tile _ 8); done.
    + destruct (le_combine <$> get_span tile _ 8); [|done]. cbn [mbind option_bind]. destruct (le_combine <$> get_span tile _ 8); done.
  - rewrite get_span_some by nia. cbn [mbind option_bind].
    unfold DecodePixel4. destruct f; try discriminate F4; injection HF as <-; unfold half_byte; rewrite shiftr_div by done; change (2 ^ 1) with 2;
      destruct (get_span tile (MortonInterleave x y / 2) 1) as [bs|] eqn:E; try done; cbn; rewrite high_nibble; try done; apply bytes_ok_at; by eapply bytes_ok_span.
  - destruct f, converted; try discriminate C; try discriminate F4; try discriminate HF; injection HF as <-; cbn [GetFormatBpp];
      match goal with |- context [Z.to_nat ?e] => let n := eval vm_compute in (Z.to_nat e) in change (Z.to_nat e) with n end;
      match goal with |- context [MortonInterleave x y * (?a / ?b)] => let n := eval vm_compute in (a / b) in change (a / b) with n end;
      cbn [Z.of_nat Pos.of_succ_nat Pos.succ]; by destruct (get_span tile _ _).
Qed.

(** The software decoder reads nothing outside of a tile. *)
Lemma lookup_inside (s1 s2 : Source) x y info disable_alpha : 0 <= x < 8 -> 0 <= y < 8 ->
  (∀ o n, 0 <= o -> o + Z.of_nat n <= CalculateTileSize (format info) -> s1 o n = s2 o n) ->
  LookupTexelInTile s1 x y info disable_alpha = LookupTexelInTile s2 x y info disable_alpha.
Proof.
  intros Hx Hy E. pose proof (Morton_range x y) as M. unfold LookupTexelInTile.
  destruct (format info) eqn:F; cbn [CalculateTileSize] in E; try (rewrite E by lia; done); unfold half_byte.
  - rewrite E by modlia. done.
  - rewrite E by modlia. done.
  - unfold lookup_etc1. cbn. assert (0 <= x / 4 <= 1) by modlia. assert (0 <= y / 4 <= 1) by modlia. rewrite E by lia. done.
  - unfold lookup_etc1. assert (0 <= x / 4 <= 1) by modlia. assert (0 <= y / 4 <= 1) by modlia. rewrite E by lia.
    destruct (s2 _ 8%nat); [|done]. cbn. rewrite E by lia. done.
  - done.
Qed.

(** ** Encoding again *)

(** The formats whose pixels are whole bytes, with nothing lost in the lines. *)
Definition exact f (converted : bool) : bool :=
  negb (is_4bit f) && negb (is_compressed f) && negb (bool_decide (f = PixelFormat.D24)) && negb (bool_decide (f = PixelFormat.D16) && converted).

Lemma exact_facts f converted : exact f converted = true -> is_4bit f = false ∧ is_compressed f = false ∧ Z.of_nat (texel_length f converted) = linear_bytes f converted ∧
  0 < GetFormatBpp f / 8 ∧ tile_size f = 64 * (GetFormatBpp f / 8).
Proof. by destruct f, converted. Qed.

Lemma rotr_rotl v : in_range 32 v -> rotr32 (rotl32 v 8) 8 = v.
Proof.
  intros Hv. unfold rotr32, rotl32, in_range in *. change (32 - 8) with 24. rewrite !shiftr_div, !shiftl_mul by done.
  assert (E : u32 (v * 2 ^ 8) .| v / 2 ^ 24 = u32 (v * 2 ^ 8) + v / 2 ^ 24) by (apply (lor_low _ _ 8); [done|unfold in_range; modlia|unfold uwrap; modlia]).
  rewrite E. set (r := u32 (v * 2 ^ 8) + v / 2 ^ 24). assert (Er : r = (v mod 2 ^ 24) * 2 ^ 8 + v / 2 ^ 24) by (subst r; unfold uwrap; modlia). clearbody r.
  rewrite Z.lor_comm, (lor_low _ (r / 2 ^ 8) 24); [|done|unfold in_range; modlia|unfold uwrap; modlia]. unfold uwrap. modlia.
Qed.
Lemma encode_decode_pixel f converted p : exact f converted = true -> bytes_ok p -> length p = Z.to_nat (GetFormatBpp f / 8) ->
  EncodePixel f converted (DecodePixel f converted p) = Some p.
Proof.
  intros X B L. assert (R : ∀ c, rgba_of (rgba_bytes c) = c) by (by intros []).
  assert (K : ∀ n dec enc, (n, dec, enc) ∈ color_formats -> length p = n -> enc (dec p) = p) by (intros; by eapply color_formats_exact).
  destruct f; try discriminate X; destruct converted; try discriminate X; cbn [EncodePixel DecodePixel]; rewrite ?R;
    try (f_equal; eapply K; [|exact L]; unfold color_formats; repeat first [apply list_elem_of_here|apply list_elem_of_further]);
    try (rewrite <- L; by rewrite !take_ge by (rewrite ?length_take; lia)).
  all: cbn [GetFormatBpp] in L; change (length p = 4%nat) in L; rewrite (take_ge p) by lia;
    pose proof (le_combine_range p B) as Rp; rewrite L in Rp; change (8 * Z.of_nat 4) with 32 in Rp;
    (rewrite take_ge by (rewrite length_le_split; lia)); rewrite le_combine_split; change (8 * Z.of_nat 4) with 32;
    (rewrite Z.mod_small; [rewrite rotr_rotl by done; rewrite <- L; by rewrite le_split_combine|]);
    unfold rotl32; (rewrite (lor_low _ _ 8); [|done|unfold in_range in *; change (32 - 8) with 24; rewrite shiftr_div by done; modlia|unfold uwrap; rewrite shiftl_mul by done; modlia]);
    unfold uwrap, in_range in *; change (32 - 8) with 24; rewrite shiftl_mul, shiftr_div by done; modlia.
Qed.

(** Copies of the parts of a list, which cover it, are the list. *)
Lemma copies_cover dest orig ws : length dest = length orig -> ForallOrdPairs apart ws ->
  (∀ w, w ∈ ws -> get_span orig (fst w) (length (snd w)) = Some (snd w)) ->
  (∀ i, 0 <= i < Z.of_nat (length orig) -> ∃ w, w ∈ ws ∧ fst w <= i < fst w + Z.of_nat (length (snd w))) -> copies dest ws = Some orig.
Proof.
  intros L A G C. destruct (copies_spec dest ws A) as (l' & E & Ll & G' & _).
  { apply Forall_forall. intros w Hw. pose proof (get_span_inv _ _ _ _ (G w Hw)) as (? & ? & _). split; [done|]. by rewrite L. }
  rewrite E. f_equal. apply list_eq. intros i. destruct (decide (i < length orig)%nat) as [Hi|Hi].
  - destruct (C (Z.of_nat i) ltac:(lia)) as (w & Hw & W1 & W2). pose proof (G' w Hw) as G1. pose proof (G w Hw) as G2.
    pose proof (get_span_inv _ _ _ _ G2) as (P & _). set (j := (i - Z.to_nat (fst w))%nat).
    pose proof (get_span_lookup _ _ _ _ j G1 ltac:(lia)) as X1. pose proof (get_span_lookup _ _ _ _ j G2 ltac:(lia)) as X2.
    replace (Z.to_nat (fst w) + j)%nat with i in X1, X2 by lia. congruence.
  - by rewrite !lookup_ge_None_2 by lia.
Qed.

Section again.
Context (f : PixelFormat) (converted : bool) (tw th : Z) (Ptw : 0 < tw) (Pth : 0 < th) (Small : (8 * tw) * (8 * th) * 4 < 2 ^ 32).
Context (X : exact f converted = true) (tiled linear : list Z).
Context (B : bytes_ok tiled) (L1 : Z.of_nat (length tiled) = tw * th * tile_size f) (L2 : Z.of_nat (length linear) = 8 * th * (8 * tw) * linear_bytes f converted).
Context (Decoded : ∀ x y, 0 <= x < 8 * tw -> 0 <= y < 8 * th ->
  get_span linear (line_place f converted tw th x y) (texel_length f converted) = Some (texel_at f converted tw tiled x y)).
#[local] Abbreviation bpp := (GetFormatBpp f / 8).

(** The bytes of a pixel in its tile. *)
Definition tile_part (tile : list Z) (p : Z * Z) : Z * list Z :=
  (MortonInterleave (fst p) (snd p) * bpp, default [] (get_span tile (MortonInterleave (fst p) (snd p) * bpp) (Z.to_nat bpp))).

Lemma tile_part_span tile p : Z.of_nat (length tile) = tile_size f ->
  get_span tile (fst (tile_part tile p)) (Z.to_nat bpp) = Some (snd (tile_part tile p)) ∧ length (snd (tile_part tile p)) = Z.to_nat bpp.
Proof using X.
  clear - X. intros L. destruct (exact_facts _ _ X) as (_ & _ & _ & P & T). pose proof (Morton_range (fst p) (snd p)) as M.
  pose proof (get_span_some tile (MortonInterleave (fst p) (snd p) * bpp) (Z.to_nat bpp) ltac:(nia) ltac:(nia)) as E.
  unfold tile_part. cbn [fst snd]. rewrite E. split; [done|]. by apply get_span_inv in E as (_ & _ & _ & E).
Qed.

(** Any tile becomes the one that was decoded. *)
Lemma EncodeTile_back k tile sub old : 0 <= k < tw * th -> get_span tiled (k * tile_size f) (Z.to_nat (tile_size f)) = Some tile ->
  get_span linear (linear_offset (cursor_at f converted tw th k)) (Z.to_nat (linear_tile_stride f converted (8 * tw))) = Some sub ->
  Z.of_nat (length old) = tile_size f -> EncodeTile f converted (8 * tw) sub old = Some tile.
Proof using B Decoded L1 L2 Pth Ptw Small X.
  intros Hk G S Lo. destruct (exact_facts _ _ X) as (F4 & Cm & Tl & P & T). pose proof (get_span_inv _ _ _ _ G) as (_ & _ & _ & Lt).
  assert (Ltile : Z.of_nat (length tile) = tile_size f) by lia. pose proof (bytes_ok_span _ _ _ _ B G) as Bt.
  destruct (tile_coordinates tw th Ptw k Hk) as [Kx Ky]. unfold EncodeTile. rewrite (fold_copies _ (tile_part tile)).
  - apply copies_cover.
    + lia.
    + apply apart_list; [apply NoDup_tile_pixels|]. intros [x y] [x' y'] [Hx Hy]%elem_of_tile_pixels [Hx' Hy']%elem_of_tile_pixels N.
      unfold apart. destruct (tile_part_span tile (x, y) Ltile) as [_ ->]. destruct (tile_part_span tile (x', y') Ltile) as [_ ->]. cbn [tile_part fst snd].
      destruct (Morton_back x y Hx Hy) as (X1 & Y1 & _). destruct (Morton_back x' y' Hx' Hy') as (X2 & Y2 & _).
      assert (MortonInterleave x y ≠ MortonInterleave x' y') by (intros E; rewrite E in X1, Y1; apply N; congruence).
      assert (MortonInterleave x y + 1 <= MortonInterleave x' y' ∨ MortonInterleave x' y' + 1 <= MortonInterleave x y) as [?|?] by lia; [left|right]; nia.
    + intros w (p & -> & _)%list_elem_of_fmap. destruct (tile_part_span tile p Ltile) as [-> ->] || (destruct (tile_part_span tile p Ltile) as [E1 E2]; rewrite E2; exact E1).
    + intros i Hi. rewrite Ltile, T in Hi. destruct (Morton_onto (i / bpp)) as (M & Mx & My); [split; [apply Z.div_pos; lia|apply Z.div_lt_upper_bound; lia]|].
      exists (tile_part tile (morton_x (i / bpp), morton_y (i / bpp))). split; [apply list_elem_of_fmap; eexists; split; [reflexivity|by apply elem_of_tile_pixels]|].
      destruct (tile_part_span tile (morton_x (i / bpp), morton_y (i / bpp)) Ltile) as [_ ->]. cbn [tile_part fst snd]. rewrite M.
      pose proof (Z.div_mod i bpp ltac:(lia)). pose proof (Z.mod_pos_bound i bpp P). nia.
  - intros l [x y] [Hx Hy]%elem_of_tile_pixels. unfold encode_tile_pixel. rewrite F4.
    assert (Px : 0 <= 8 * (k mod tw) + x < 8 * tw ∧ 0 <= 8 * (k / tw) + y < 8 * th) by lia. destruct Px as [Px Py].
    destruct (texel_at_length f converted tw th Ptw Pth tiled _ _ L1 Px Py) as (tile' & G' & T' & _).
    assert (Ek : tile_of tw (8 * (k mod tw) + x) (8 * (k / tw) + y) = k).
    { unfold tile_of. replace ((8 * (k mod tw) + x) / 8) with (k mod tw) by modlia. replace ((8 * (k / tw) + y) / 8) with (k / tw) by modlia. pose proof (Z.div_mod k tw ltac:(lia)). lia. }
    rewrite Ek, G in G'. injection G' as <-. replace ((8 * (k mod tw) + x) mod 8) with x in T' by modlia. replace ((8 * (k / tw) + y) mod 8) with y in T' by modlia.
    pose proof (Decoded _ _ Px Py) as Dp. pose proof (lb_range f converted).
    assert (Sub : get_span sub (((7 - y) * (8 * tw) + x) * linear_bytes f converted) (Z.to_nat (linear_bytes f converted)) = Some (texel_at f converted tw tiled (8 * (k mod tw) + x) (8 * (k / tw) + y))).
    { rewrite <- (get_span_span _ _ _ _ _ _ S); [|nia|rewrite (tile_stride_value f converted tw th) by done; nia].
      replace (Z.to_nat (linear_bytes f converted)) with (texel_length f converted) by lia. rewrite <- Dp. f_equal. unfold cursor_at, line_place. cbn [linear_offset]. ring. }
    rewrite Sub. cbn [mbind option_bind]. unfold tile_texel in T'. destruct (tile_part_span tile (x, y) Ltile) as [Ep Lp]. cbn [tile_part fst snd] in Ep.
    rewrite Ep in T'. cbn [mbind option_bind] in T'. rewrite Cm, F4 in T'. injection T' as <-.
    rewrite encode_decode_pixel; [done|done| |done]. by eapply bytes_ok_span.
Qed.

Definition tile_at (k : Z) : Z * list Z := (k * tile_size f, default [] (get_span tiled (k * tile_size f) (Z.to_nat (tile_size f)))).
Lemma tile_at_span k : 0 <= k < tw * th -> get_span tiled (fst (tile_at k)) (Z.to_nat (tile_size f)) = Some (snd (tile_at k)) ∧ Z.of_nat (length (snd (tile_at k))) = tile_size f.
Proof using L1.
  clear - L1. intros Hk. pose proof (tile_size_bits f) as (T & T1 & _). pose proof (get_span_some tiled (k * tile_size f) (Z.to_nat (tile_size f)) ltac:(nia) ltac:(nia)) as E.
  unfold tile_at. cbn [fst snd]. rewrite E. split; [done|]. apply get_span_inv in E as (_ & _ & _ & E). cbn [default from_option id]. rewrite E. lia.
Qed.

Lemma encode_tiles_copies n k dest : 0 <= k -> k + Z.of_nat n = tw * th -> length dest = length tiled ->
  snd <$> encode_tiles f converted (8 * tw) (8 * th) n (cursor_at f converted tw th k) (k * tile_size f) linear dest = copies dest (tile_at <$> seqZ k (Z.of_nat n)).
Proof using B Decoded L1 L2 Pth Ptw Small X.
  revert k dest. induction n as [|n IH]; intros k dest Hk Hn Ld; [done|].
  pose proof (tile_size_bits f) as (T & T1 & _). destruct (tile_coordinates tw th Ptw k) as [Kx Ky]; [lia|]. destruct (tile_fits f converted tw th Ptw Pth Small _ _ Kx Ky) as (F1 & F2 & _). pose proof (lb_range f converted).
  destruct (tile_at_span k ltac:(lia)) as [Gt Lt].
  pose proof (get_span_some dest (k * tile_size f) (Z.to_nat (tile_size f)) ltac:(nia) ltac:(nia)) as G.
  pose proof (get_span_some linear (linear_offset (cursor_at f converted tw th k)) (Z.to_nat (linear_tile_stride f converted (8 * tw))) F1
    ltac:(rewrite (tile_stride_value f converted tw th) by done; cbn; lia)) as G2.
  pose proof (get_span_inv _ _ _ _ G) as (_ & _ & _ & Lold).
  pose proof (EncodeTile_back k _ _ _ ltac:(lia) Gt G2 ltac:(rewrite Lold; lia)) as E.
  cbn [encode_tiles]. rewrite G2. cbn [mbind option_bind]. rewrite G. cbn [mbind option_bind]. rewrite E. cbn [mbind option_bind].
  rewrite (seqZ_cons k) by lia. cbn [fmap list_fmap]. unfold copies. cbn [fold_spans].
  change (fst (tile_at k)) with (k * tile_size f). rewrite (put_span_some dest) by nia. cbn [mbind option_bind].
  destruct n as [|n]; [done|]. rewrite next_tile by (done || lia). replace (k * tile_size f + tile_size f) with ((k + 1) * tile_size f) by ring.
  replace (Z.pred (Z.of_nat (S (S n)))) with (Z.of_nat (S n)) by lia. rewrite IH; [done|lia|lia|by rewrite length_inserts].
Qed.

Lemma MortonEncode_back dest : length dest = length tiled ->
  MortonEncode f converted (8 * tw) (8 * th) 0 (tw * th * tile_size f) linear dest = Some tiled.
Proof using B Decoded L1 L2 Pth Ptw Small X.
  intros Ld. pose proof (tile_size_bits f) as (T & T1 & _). assert (B2 : GetFormatBpp f <= 32) by (clear; destruct f; done).
  assert (0 < tw * th) by nia. assert (tw * th * tile_size f < 2 ^ 32) by nia.
  unfold MortonEncode, AlignUp, AlignDown. rewrite Z.mod_0_l, Z.mod_mul by lia. rewrite !Z.sub_0_r. cbn [Z.eqb Z.ltb Z.compare mbind option_bind].
  destruct (Z.ltb_spec 0 (tw * th * tile_size f)); [|nia]. rewrite Z.sub_0_r, Z.add_0_l, uwrap_id, Ld, L1, Z.min_id by (unfold in_range; nia).
  rewrite (first_tile_0 f converted tw th) by done.
  assert (C : tile_count f 0 (tw * th * tile_size f) = Z.to_nat (tw * th)).
  { unfold tile_count. destruct (Z.ltb_spec 0 (tw * th * tile_size f)); [|nia]. f_equal. symmetry. apply (Z.div_unique_pos _ _ _ (tile_size f - 1)); nia. }
  rewrite C. pose proof (encode_tiles_copies (Z.to_nat (tw * th)) 0 dest ltac:(lia) ltac:(lia) Ld) as E.
  rewrite Z.mul_0_l, Z2Nat.id in E by lia.
  rewrite (copies_cover dest tiled) in E; [|done|..].
  - apply fmap_Some in E as ([c tiled'] & E & Et). cbn in Et. subst tiled'. rewrite E. cbn [mbind option_bind].
    destruct (Z.ltb_spec (Z.max 0 (tw * th * tile_size f)) (tw * th * tile_size f)); [lia|done].
  - apply apart_list; [apply NoDup_seqZ|]. intros p q Hp%elem_of_seqZ Hq%elem_of_seqZ N. destruct (tile_at_span p ltac:(lia)) as [_ L]. destruct (tile_at_span q ltac:(lia)) as [_ L'].
    unfold apart. rewrite L, L'. cbn [tile_at fst]. assert (p + 1 <= q ∨ q + 1 <= p) as [?|?] by lia; [left|right]; nia.
  - intros w (k & -> & Hk%elem_of_seqZ)%list_elem_of_fmap. destruct (tile_at_span k ltac:(lia)) as [E1 E2]. rewrite <- E2, Nat2Z.id in E1. exact E1.
  - intros i Hi. rewrite L1 in Hi. assert (Hk : 0 <= i / tile_size f < tw * th) by (split; [apply Z.div_pos; lia|apply Z.div_lt_upper_bound; lia]).
    exists (tile_at (i / tile_size f)). split; [apply list_elem_of_fmap; eexists; split; [reflexivity|apply elem_of_seqZ; lia]|].
    destruct (tile_at_span _ Hk) as [_ ->]. cbn [tile_at fst]. pose proof (Z.div_mod i (tile_size f) ltac:(lia)). pose proof (Z.mod_pos_bound i (tile_size f) ltac:(lia)). nia.
Qed.
End again.


(** C29: The two decoders of textures agree: in the lines a texture is decoded to for the host, every pixel is the colour
    the software renderer looks up for it, row by row from the bottom, for every format that becomes colours. *)
Theorem texture_decoders_agree f converted F tw th address linear tiled :
  as_rgba f converted = Some F -> 0 < tw -> 0 < th -> (8 * tw) * (8 * th) * 4 < 2 ^ 32 ->
  bytes_ok tiled -> Z.of_nat (length tiled) = tw * th * tile_size f -> Z.of_nat (length linear) = (8 * th) * (8 * tw) * 4 ->
  ∃ linear', MortonDecode f converted (8 * tw) (8 * th) 0 (tw * th * tile_size f) linear tiled = Some linear' ∧
    ∀ x y, 0 <= x < 8 * tw -> 0 <= y < 8 * th -> ∃ c,
      LookupTexture (get_span tiled) x y (SetDefaultStride (mk_TextureInfo address (8 * tw) (8 * th) 0 F)) false = Some c ∧
      get_span linear' (((8 * th - 1 - y) * (8 * tw) + x) * 4) 4 = Some (rgba_bytes c).
Proof.
  intros HF Ptw Pth Small B L1 L2. destruct (as_rgba_facts _ _ _ HF) as (Ts & Lb & Tl).
  destruct (MortonDecode_pixels f converted tw th Ptw Pth Small tiled linear L1 ltac:(by rewrite Lb)) as (linear' & D & _ & G).
  exists linear'. split; [done|]. intros x y Hx Hy. specialize (G x y Hx Hy). unfold line_place in G. rewrite Lb, Tl in G. rewrite G.
  destruct (texel_at_length f converted tw th Ptw Pth tiled x y L1 Hx Hy) as (tile & Gt & Tt & _).
  set (info := SetDefaultStride _). assert (Ei : format info = F) by done. pose proof (get_span_inv _ _ _ _ Gt) as (G1 & G2 & _ & Lt).
  pose proof (tile_size_bits f) as (T & T1 & _).
  rewrite (texel_is_lookup f converted F tile (x mod 8) (y mod 8) info HF Ei) in Tt;
    [|by eapply bytes_ok_span|lia|apply Z.mod_pos_bound; lia|apply Z.mod_pos_bound; lia].
  apply fmap_Some in Tt as (c & Tt & ->). exists c. split; [|done]. unfold LookupTexture. rewrite <- Tt. apply lookup_inside; [apply Z.mod_pos_bound; lia..|].
  intros o n Ho Hn. rewrite Ei, Ts in Hn. unfold source_at.
  assert (Eo : y / 8 * stride info + x / 8 * CalculateTileSize (format info) = tile_of tw x y * tile_size f).
  { change (y / 8 * (CalculateTileSize F * (8 * tw / 8)) + x / 8 * CalculateTileSize F = tile_of tw x y * tile_size f).
    rewrite (Z.mul_comm 8 tw), Z.div_mul, Ts by done. unfold tile_of. ring. }
  rewrite Eo. apply get_span_span with (n := Z.to_nat (tile_size f)); [done|done|]. lia.
Qed.
