(* ===== verification/Framebuffer.v ===== *)
(** The framebuffer of the software renderer, [video_core/renderer_software/sw_framebuffer.cpp]:
    pixels, depths and stencils in the memory of the machine, blending and logical
    operations.  A register is the record of its fields. *)

From S2P Require Import Prelude Color Memory MemoryFacts.

(** ** Registers *)

Module ColorFormat.
(* src: video_core/pica/regs_framebuffer.h | enum class ColorFormat : u32 { *)
Inductive t := RGBA8 | RGB8 | RGB5A1 | RGB565 | RGBA4 | Unknown (value : Z).
End ColorFormat.
Abbreviation ColorFormat := ColorFormat.t.
Module DepthFormat.
(* src: video_core/pica/regs_framebuffer.h | enum class DepthFormat : u32 { *)
Inductive t := D16 | D24 | D24S8 | Unknown.
End DepthFormat.
Abbreviation DepthFormat := DepthFormat.t.
#[global] Instance ColorFormat_eq_dec : EqDecision ColorFormat.
Proof. solve_decision. Defined.
#[global] Instance DepthFormat_eq_dec : EqDecision DepthFormat.
Proof. solve_decision. Defined.

(* src: video_core/pica/regs_framebuffer.h | struct FramebufferConfig { *)
Record FramebufferConfig := mk_FramebufferConfig {
  allow_color_write : Z;
  allow_depth_stencil_write : Z;
  depth_format : DepthFormat;
  color_format : ColorFormat;
  depth_buffer_address : Z;
  color_buffer_address : Z;
  fb_width : Z;
  (** one less than the height *)
  fb_height : Z
}.
Implicit Types (r : FramebufferConfig).

(* src: video_core/pica/regs_framebuffer.h | inline PAddr GetColorBufferPhysicalAddress() const { *)
Definition GetColorBufferPhysicalAddress r : Z := u32 (color_buffer_address r * 8).
(* src: video_core/pica/regs_framebuffer.h | inline PAddr GetDepthBufferPhysicalAddress() const { *)
Definition GetDepthBufferPhysicalAddress r : Z := u32 (depth_buffer_address r * 8).
(** Of the format of the same number: 16 bits have two numbers the other way around. *)
(* src: video_core/pica/regs_external.h | constexpr u32 BytesPerPixel(Pica::PixelFormat format) { *)
Definition BytesPerPixel (format : ColorFormat) : option Z :=
  match format with
  | ColorFormat.RGBA8 => Some 4 | ColorFormat.RGB8 => Some 3
  | ColorFormat.RGB5A1 | ColorFormat.RGB565 | ColorFormat.RGBA4 => Some 2
  | ColorFormat.Unknown _ => None
  end.
(* src: video_core/pica/regs_framebuffer.h | static u32 BytesPerDepthPixel(DepthFormat format) { *)
Definition BytesPerDepthPixel (format : DepthFormat) : option Z :=
  match format with DepthFormat.D16 => Some 2 | DepthFormat.D24 => Some 3 | DepthFormat.D24S8 => Some 4 | DepthFormat.Unknown => None end.
(* src: video_core/pica/regs_framebuffer.h | static u32 DepthBitsPerPixel(DepthFormat format) { *)
Definition DepthBitsPerPixel (format : DepthFormat) : option Z :=
  match format with DepthFormat.D16 => Some 16 | DepthFormat.D24 | DepthFormat.D24S8 => Some 24 | DepthFormat.Unknown => None end.

(** ** The framebuffer *)

(** The pointers belong to the addresses. *)
(* src: video_core/renderer_software/sw_framebuffer.h | PAddr color_addr; | Framebuffer | +4 *)
Record Framebuffer := mk_Framebuffer { color_addr : Z; color_buffer : Pointer; depth_addr : Z; depth_buffer : Pointer }.
Implicit Types (fb : Framebuffer) (m : Bytes).

(* src: video_core/renderer_software/sw_framebuffer.cpp | void Framebuffer::Bind() { *)
Definition Bind r fb : option Framebuffer :=
  let addr := GetColorBufferPhysicalAddress r in
  fb ← (if color_addr fb =? addr then Some fb else p ← GetPhysicalPointer addr; Some (fb<|color_addr := addr|><|color_buffer := p|>));
  let addr := GetDepthBufferPhysicalAddress r in
  if depth_addr fb =? addr then Some fb else p ← GetPhysicalPointer addr; Some (fb<|depth_addr := addr|><|depth_buffer := p|>).

(** The offset of a pixel, from the bottom up. *)
(* src: video_core/renderer_software/sw_framebuffer.cpp | y = framebuffer.height - y; #1 | DrawPixel | +7 *)
Definition pixel_offset r (bytes_per_pixel x y : Z) : Z :=
  let y := u32 (fb_height r - y) in
  let coarse_y := y .& unot 32 7 in
  u32 (GetMortonOffset x y bytes_per_pixel + u32 (u32 (coarse_y * fb_width r) * bytes_per_pixel)).

(* src: video_core/renderer_software/sw_framebuffer.cpp | void Framebuffer::DrawPixel(u32 x, u32 y, const Common::Vec4<u8>& color) const { *)
Definition DrawPixel r fb m (x y : Z) (color : Vec4) : option Bytes :=
  bytes_per_pixel ← BytesPerPixel (color_format r);
  let dst_pixel := ptr_add (color_buffer fb) (pixel_offset r bytes_per_pixel x y) in
  match color_format r with
  | ColorFormat.RGBA8 => store m dst_pixel (EncodeRGBA8 color)
  | ColorFormat.RGB8 => store m dst_pixel (EncodeRGB8 color)
  | ColorFormat.RGB5A1 => store m dst_pixel (EncodeRGB5A1 color)
  | ColorFormat.RGB565 => store m dst_pixel (EncodeRGB565 color)
  | ColorFormat.RGBA4 => store m dst_pixel (EncodeRGBA4 color)
  | ColorFormat.Unknown _ => Some m
  end.
(* src: video_core/renderer_software/sw_framebuffer.cpp | const Common::Vec4<u8> Framebuffer::GetPixel(u32 x, u32 y) const { *)
Definition GetPixel r fb m (x y : Z) : option Vec4 :=
  bytes_per_pixel ← BytesPerPixel (color_format r);
  let src_pixel := ptr_add (color_buffer fb) (pixel_offset r bytes_per_pixel x y) in
  match color_format r with
  | ColorFormat.RGBA8 => DecodeRGBA8 <$> load m src_pixel 4
  | ColorFormat.RGB8 => DecodeRGB8 <$> load m src_pixel 3
  | ColorFormat.RGB5A1 => DecodeRGB5A1 <$> load m src_pixel 2
  | ColorFormat.RGB565 => DecodeRGB565 <$> load m src_pixel 2
  | ColorFormat.RGBA4 => DecodeRGBA4 <$> load m src_pixel 2
  | ColorFormat.Unknown _ => Some (mk_Vec4 0 0 0 0)
  end.

(* src: video_core/renderer_software/sw_framebuffer.cpp | u32 Framebuffer::GetDepth(u32 x, u32 y) const { *)
Definition GetDepth r fb m (x y : Z) : option Z :=
  bytes_per_pixel ← BytesPerDepthPixel (depth_format r);
  let src_pixel := ptr_add (depth_buffer fb) (pixel_offset r bytes_per_pixel x y) in
  match depth_format r with
  | DepthFormat.D16 => DecodeD16 <$> load m src_pixel 2
  | DepthFormat.D24 => DecodeD24 <$> load m src_pixel 3
  | DepthFormat.D24S8 => (fun bs => fst (DecodeD24S8 bs)) <$> load m src_pixel 4
  | DepthFormat.Unknown => Some 0
  end.
(* src: video_core/renderer_software/sw_framebuffer.cpp | u8 Framebuffer::GetStencil(u32 x, u32 y) const { *)
Definition GetStencil r fb m (x y : Z) : option Z :=
  bytes_per_pixel ← BytesPerDepthPixel (depth_format r);
  let src_pixel := ptr_add (depth_buffer fb) (pixel_offset r bytes_per_pixel x y) in
  match depth_format r with
  | DepthFormat.D24S8 => (fun bs => snd (DecodeD24S8 bs)) <$> load m src_pixel 4
  | _ => Some 0
  end.
(* src: video_core/renderer_software/sw_framebuffer.cpp | void Framebuffer::SetDepth(u32 x, u32 y, u32 value) const { *)
Definition SetDepth r fb m (x y value : Z) : option Bytes :=
  bytes_per_pixel ← BytesPerDepthPixel (depth_format r);
  let dst_pixel := ptr_add (depth_buffer fb) (pixel_offset r bytes_per_pixel x y) in
  match depth_format r with
  | DepthFormat.D16 => store m dst_pixel (EncodeD16 value)
  | DepthFormat.D24 => store m dst_pixel (EncodeD24 value)
  | DepthFormat.D24S8 => store m dst_pixel (EncodeD24X8 value)
  | DepthFormat.Unknown => Some m
  end.
(* src: video_core/renderer_software/sw_framebuffer.cpp | void Framebuffer::SetStencil(u32 x, u32 y, u8 value) const { *)
Definition SetStencil r fb m (x y value : Z) : option Bytes :=
  bytes_per_pixel ← BytesPerDepthPixel (depth_format r);
  let dst_pixel := ptr_add (depth_buffer fb) (pixel_offset r bytes_per_pixel x y) in
  match depth_format r with
  | DepthFormat.D24S8 => store m (ptr_add dst_pixel 3) (EncodeX24S8 value)
  | _ => Some m
  end.

(** ** Operations on colours *)

(* src: video_core/pica/regs_framebuffer.h | enum class StencilAction : u32 { *)
Inductive StencilAction := SA_Keep | SA_Zero | SA_Replace | SA_Increment | SA_Decrement | SA_Invert | SA_IncrementWrap | SA_DecrementWrap.
(* src: video_core/pica/regs_framebuffer.h | enum class BlendEquation : u32 { *)
Inductive BlendEquation := BE_Add | BE_Subtract | BE_ReverseSubtract | BE_Min | BE_Max | BE_Unknown.
(* src: video_core/pica/regs_framebuffer.h | enum class LogicOp : u32 { *)
Inductive LogicOperation :=
| LO_Clear | LO_And | LO_AndReverse | LO_Copy | LO_Set | LO_CopyInverted | LO_NoOp | LO_Invert
| LO_Nand | LO_Or | LO_Nor | LO_Xor | LO_Equiv | LO_AndInverted | LO_OrReverse | LO_OrInverted.

(* src: video_core/renderer_software/sw_framebuffer.cpp | u8 PerformStencilAction(FramebufferRegs::StencilAction action, u8 old_stencil, u8 ref) { *)
Definition PerformStencilAction (action : StencilAction) (old_stencil ref : Z) : Z :=
  match action with
  | SA_Keep => old_stencil
  | SA_Zero => 0
  | SA_Replace => ref
  | SA_Increment => u8 (Z.min old_stencil 254 + 1)
  | SA_Decrement => u8 (Z.max old_stencil 1 - 1)
  | SA_Invert => unot 8 old_stencil
  | SA_IncrementWrap => u8 (old_stencil + 1)
  | SA_DecrementWrap => u8 (old_stencil - 1)
  end.

(** Division of C, toward zero.  An unknown equation leaves the result undefined. *)
(* src: video_core/renderer_software/sw_framebuffer.cpp | Common::Vec4<u8> EvaluateBlendEquation(const Common::Vec4<u8>& src, *)
Definition EvaluateBlendEquation (src srcfactor dest destfactor : Vec4) (equation : BlendEquation) : option Vec4 :=
  let src_result := vec4_zip Z.mul src srcfactor in
  let dst_result := vec4_zip Z.mul dest destfactor in
  result ← (match equation with
    | BE_Add => Some (vec4_map (fun v => Z.quot v 255) (vec4_zip Z.add src_result dst_result))
    | BE_Subtract => Some (vec4_map (fun v => Z.quot v 255) (vec4_zip Z.sub src_result dst_result))
    | BE_ReverseSubtract => Some (vec4_map (fun v => Z.quot v 255) (vec4_zip Z.sub dst_result src_result))
    | BE_Min => Some (vec4_map (fun v => Z.quot v 255) (vec4_zip Z.min src_result dst_result))
    | BE_Max => Some (vec4_map (fun v => Z.quot v 255) (vec4_zip Z.max src_result dst_result))
    | BE_Unknown => None
    end);
  Some (vec4_map (fun v => Z.min (Z.max v 0) 255) result).

(* src: video_core/renderer_software/sw_framebuffer.cpp | u8 LogicOp(u8 src, u8 dest, FramebufferRegs::LogicOp op) { *)
Definition LogicOp (src dest : Z) (op : LogicOperation) : Z :=
  match op with
  | LO_Clear => 0
  | LO_And => src .& dest
  | LO_AndReverse => u8 (src .& Z.lnot dest)
  | LO_Copy => src
  | LO_Set => 255
  | LO_CopyInverted => u8 (Z.lnot src)
  | LO_NoOp => dest
  | LO_Invert => u8 (Z.lnot dest)
  | LO_Nand => u8 (Z.lnot (src .& dest))
  | LO_Or => src .| dest
  | LO_Nor => u8 (Z.lnot (src .| dest))
  | LO_Xor => src .^ dest
  | LO_Equiv => u8 (Z.lnot (src .^ dest))
  | LO_AndInverted => u8 (Z.lnot src .& dest)
  | LO_OrReverse => u8 (src .| Z.lnot dest)
  | LO_OrInverted => u8 (Z.lnot src .| dest)
  end.

(** * The framebuffer is a map of pixels: what is drawn is read back in the bits of its format,
    and nothing else changes; what a pixel does stays at its own bytes, so pixels can be drawn
    in any order. *)


(** ** Operations that stay at some bytes *)

Abbreviation Places := (Backing * Z -> Prop).
Definition agree (F : Places) (m1 m2 : Bytes) : Prop := ∀ a, F a -> m1 !! a = m2 !! a.
Definition reads {A : Type} (F : Places) (f : Bytes -> option A) : Prop := ∀ m1 m2, agree F m1 m2 -> f m1 = f m2.
Definition stays {A : Type} (F : Places) (op : Bytes -> option (A * Bytes)) : Prop :=
  ∀ m1 m2, agree F m1 m2 ->
    match op m1, op m2 with
    | Some (x1, n1), Some (x2, n2) => x1 = x2 ∧ agree F n1 n2 ∧ ∀ a, ¬ F a -> n1 !! a = m1 !! a ∧ n2 !! a = m2 !! a
    | None, None => True
    | _, _ => False
    end.
Definition writes (F : Places) (f : Bytes -> option Bytes) : Prop := stays F (fun m => n ← f m; Some (tt, n)).

Section rules.
Context (F : Places).

Lemma stays_ret {A : Type} (x : A) : stays F (fun m => Some (x, m)).
Proof. intros m1 m2 H. by split. Qed.
Lemma stays_read {A C : Type} (f : Bytes -> option A) (k : A -> Bytes -> option (C * Bytes)) :
  reads F f -> (∀ x, stays F (k x)) -> stays F (fun m => x ← f m; k x m).
Proof. intros R K m1 m2 H. rewrite (R _ _ H). destruct (f m2) as [x|]; [|done]. by apply K. Qed.
Lemma stays_bind {A C : Type} (op : Bytes -> option (A * Bytes)) (k : A -> Bytes -> option (C * Bytes)) :
  stays F op -> (∀ x, stays F (k x)) -> stays F (fun m => '(x, m) ← op m; k x m).
Proof.
  intros O K m1 m2 H. specialize (O m1 m2 H). destruct (op m1) as [[x1 n1]|], (op m2) as [[x2 n2]|]; try done. destruct O as (-> & H' & N). cbn.
  specialize (K x2 n1 n2 H'). destruct (k x2 n1) as [[y1 o1]|], (k x2 n2) as [[y2 o2]|]; try done. destruct K as (-> & H'' & N'). split; [done|]. split; [done|].
  intros a Ha. destruct (N a Ha) as [<- <-]. by apply N'.
Qed.
Lemma stays_write {C : Type} (f : Bytes -> option Bytes) (k : Bytes -> option (C * Bytes)) :
  writes F f -> stays F k -> stays F (fun m => m ← f m; k m).
Proof.
  intros O K m1 m2 H. specialize (O m1 m2 H). cbn in O. destruct (f m1) as [n1|], (f m2) as [n2|]; try done. cbn in *. destruct O as (_ & H' & N).
  specialize (K n1 n2 H'). destruct (k n1) as [[y1 o1]|], (k n2) as [[y2 o2]|]; try done. destruct K as (-> & H'' & N'). split; [done|]. split; [done|].
  intros a Ha. destruct (N a Ha) as [<- <-]. by apply N'.
Qed.
Lemma writes_ret : writes F Some.
Proof. intros m1 m2 H. by split. Qed.
Lemma writes_read {A : Type} (f : Bytes -> option A) (k : A -> Bytes -> option Bytes) : reads F f -> (∀ x, writes F (k x)) -> writes F (fun m => x ← f m; k x m).
Proof. intros R K m1 m2 H. rewrite (R _ _ H). destruct (f m2) as [x|]; [|done]. by apply (K x m1 m2). Qed.
Lemma writes_bind {A : Type} (op : Bytes -> option (A * Bytes)) (k : A -> Bytes -> option Bytes) :
  stays F op -> (∀ x, writes F (k x)) -> writes F (fun m => '(x, m) ← op m; k x m).
Proof.
  intros O K m1 m2 H. pose proof (stays_bind op (fun x m => n ← k x m; Some (tt, n)) O K m1 m2 H) as E. cbn in *.
  destruct (op m1) as [[x1 n1]|], (op m2) as [[x2 n2]|]; exact E.
Qed.
Lemma reads_const {A : Type} (x : option A) : reads F (fun _ => x).
Proof. by intros m1 m2 H. Qed.
Lemma reads_bind {A C : Type} (f : Bytes -> option A) (k : A -> Bytes -> option C) : reads F f -> (∀ x, reads F (k x)) -> reads F (fun m => x ← f m; k x m).
Proof. intros R K m1 m2 H. rewrite (R _ _ H). destruct (f m2) as [x|]; [|done]. by apply (K x). Qed.
Lemma reads_fmap {A C : Type} (g : A -> C) (f : Bytes -> option A) : reads F f -> reads F (fun m => g <$> f m).
Proof. intros R m1 m2 H. by rewrite (R _ _ H). Qed.

(** Bytes at a place. *)
Lemma reads_load b o n : (∀ i, (i < n)%nat -> F (b, o + Z.of_nat i)) -> reads F (fun m => load m (Some (b, o)) n).
Proof.
  intros H m1 m2 A. unfold load. cbn. destruct (in_block b o n); [|done]. f_equal. apply list_fmap_ext. intros k i Hi.
  unfold byte_at. rewrite A; [done|]. apply H. apply lookup_seq in Hi. lia.
Qed.
Lemma lookup_put_at m b o bs b' o' : put_at m b o bs !! (b', o') =
  if decide (b' = b ∧ o <= o' < o + Z.of_nat (length bs)) then bs !! Z.to_nat (o' - o) else m !! (b', o').
Proof.
  revert o. induction bs as [|x bs IH]; intros o; cbn [put_at length].
  - destruct (decide _) as [[_ H]|]; [lia|done].
  - destruct (decide ((b, o) = (b', o'))) as [[= <- <-]|N].
    + rewrite lookup_insert_eq. destruct (decide _) as [_|N]; [|destruct N; split; [done|lia]]. by rewrite Z.sub_diag.
    + rewrite lookup_insert_ne by done. rewrite IH. destruct (decide _) as [[E H]|H1], (decide _) as [[E2 H2]|H2]; try done.
      * subst b'. replace (Z.to_nat (o' - o)) with (S (Z.to_nat (o' - (o + 1)))) by lia. done.
      * subst b'. exfalso. apply H2. split; [done|lia].
      * subst b'. exfalso. apply H1. split; [done|]. assert (o ≠ o') by congruence. lia.
Qed.
Lemma writes_store b o bs : (∀ i, (i < length bs)%nat -> F (b, o + Z.of_nat i)) -> writes F (fun m => store m (Some (b, o)) bs).
Proof.
  intros H m1 m2 A. unfold store. cbn. destruct (in_block b o (length bs)); [|done]. cbn. split; [done|].
  assert (I : ∀ b' o', b' = b ∧ o <= o' < o + Z.of_nat (length bs) -> F (b', o')).
  { intros b' o' [-> Ho]. replace o' with (o + Z.of_nat (Z.to_nat (o' - o))) by lia. apply H. lia. }
  split.
  - intros [b' o'] Ha. rewrite !lookup_put_at. destruct (decide _); [done|]. by apply A.
  - intros [b' o'] Ha. rewrite !lookup_put_at. destruct (decide _) as [E|]; [|done]. destruct Ha. by apply I.
Qed.
End rules.

(** Operations at different bytes commute. *)
Lemma writes_commute (F G : Places) `{!∀ a, Decision (F a), !∀ a, Decision (G a)} f g m : writes F f -> writes G g -> (∀ a, F a -> ¬ G a) ->
  (m1 ← f m; g m1) = (m2 ← g m; f m2).
Proof.
  intros Wf Wg D. pose proof (Wf m m ltac:(by intros a)) as F0. pose proof (Wg m m ltac:(by intros a)) as G0. cbn in F0, G0.
  destruct (f m) as [m1|] eqn:Ef, (g m) as [m2|] eqn:Eg; cbn in *; try done.
  - destruct F0 as (_ & _ & N1). destruct G0 as (_ & _ & N2).
    pose proof (Wf m m2 ltac:(intros a Ha; symmetry; by apply N2, D)) as F1.
    pose proof (Wg m m1 ltac:(intros a Ha; symmetry; apply N1; intros Fa; by apply (D a))) as G1.
    cbn in F1, G1. rewrite Ef in F1. rewrite Eg in G1. cbn in F1, G1. destruct (f m2) as [m3|]; [|done]. destruct (g m1) as [m4|]; [|done]. cbn in F1, G1.
    destruct F1 as (_ & A1 & K1). destruct G1 as (_ & A2 & K2). f_equal. apply map_eq. intros a.
    destruct (decide (F a)) as [Fa|NFa]; [rewrite <- (A1 a Fa); apply K2; by apply D|].
    destruct (K1 a NFa) as [_ ->]. destruct (decide (G a)) as [Ga|NGa]; [symmetry; by apply A2|].
    destruct (K2 a NGa) as [_ ->]. destruct (N1 a NFa) as [-> _]. by destruct (N2 a NGa) as [-> _].
  - destruct F0 as (_ & _ & N1). pose proof (Wg m m1 ltac:(intros a Ha; symmetry; apply N1; intros Fa; by apply (D a))) as G1.
    cbn in G1. rewrite Eg in G1. cbn in G1. by destruct (g m1).
  - destruct G0 as (_ & _ & N2). pose proof (Wf m m2 ltac:(intros a Ha; symmetry; by apply N2, D)) as F1.
    cbn in F1. rewrite Ef in F1. cbn in F1. by destruct (f m2).
Qed.

(** ** The pixels of a framebuffer *)

(** The bytes of one pixel of a buffer. *)
Definition cell (b : Backing) (o size index : Z) : Places := fun a => fst a = b ∧ o + index * size <= snd a < o + (index + 1) * size.
#[export] Instance cell_decision b o size index a : Decision (cell b o size index a).
Proof. unfold cell. apply _. Defined.

(** A framebuffer whose buffers are in the memory, apart from each other.  Its lines
    are whole tiles. *)
Record fb_ok r fb (cb db : Backing) (co do : Z) (cs ds : Z) : Prop := mk_fb_ok {
  fo_width : fb_width r mod 8 = 0 ∧ 0 < fb_width r < 2 ^ 11;
  fo_height : 0 <= fb_height r < 2 ^ 10;
  fo_color : color_buffer fb = Some (cb, co) ∧ BytesPerPixel (color_format r) = Some cs;
  fo_depth : depth_buffer fb = Some (db, do) ∧ BytesPerDepthPixel (depth_format r) = Some ds;
  fo_color_in : 0 <= co ∧ co + fb_width r * (8 * (fb_height r / 8 + 1)) * cs <= backing_size cb;
  fo_depth_in : 0 <= do ∧ do + fb_width r * (8 * (fb_height r / 8 + 1)) * ds <= backing_size db;
  fo_apart : cb ≠ db ∨ co + fb_width r * (8 * (fb_height r / 8 + 1)) * cs <= do ∨ do + fb_width r * (8 * (fb_height r / 8 + 1)) * ds <= co
}.

Section framebuffer.
Context (r : FramebufferConfig) (fb : Framebuffer) (cb db : Backing) (co do cs ds : Z) (O : fb_ok r fb cb db co do cs ds).

Definition inside (x y : Z) : Prop := 0 <= x < fb_width r ∧ 0 <= y <= fb_height r.
Definition place_of (x y : Z) : Z := pixel_index (fb_width r) x (fb_height r - y).
Definition color_cell (x y : Z) : Places := cell cb co cs (place_of x y).
Definition depth_cell (x y : Z) : Places := cell db do ds (place_of x y).

Lemma color_size : 2 <= cs <= 4.
Proof. destruct O as [_ _ [_ E] _ _ _ _]. destruct (color_format r); cbn in E; simplify_eq; lia. Qed.
Lemma depth_size : 2 <= ds <= 4.
Proof. destruct O as [_ _ _ [_ E] _ _ _]. destruct (depth_format r); cbn in E; simplify_eq; lia. Qed.

Lemma place_range x y : inside x y -> 0 <= place_of x y < fb_width r * (8 * (fb_height r / 8 + 1)).
Proof.
  intros [Hx Hy]. destruct O as [[W W2] Hh _ _ _ _ _]. unfold place_of.
  pose proof (pixel_index_bound (fb_width r) x (fb_height r - y) W Hx ltac:(lia)) as [? ?]. split; [done|].
  assert ((fb_height r - y) / 8 <= fb_height r / 8) by (apply Z.div_le_mono; lia).
  eapply Z.lt_le_trans; [done|]. apply Z.mul_le_mono_nonneg_l; lia.
Qed.
Lemma place_of_inj x y x' y' : inside x y -> inside x' y' -> place_of x y = place_of x' y' -> x = x' ∧ y = y'.
Proof.
  intros [Hx Hy] [Hx' Hy'] E. destruct O as [[W W2] Hh _ _ _ _ _].
  destruct (pixel_index_inj (fb_width r) x (fb_height r - y) x' (fb_height r - y') W Hx Hx' ltac:(lia) ltac:(lia) E). lia.
Qed.
Lemma pixel_offset_place size x y : inside x y -> 0 <= size <= 4 -> pixel_offset r size x y = place_of x y * size.
Proof.
  intros I Hs. pose proof (place_range x y I) as P. destruct I as [Hx Hy]. destruct O as [[W W2] Hh _ _ _ _ _]. unfold pixel_offset.
  rewrite (uwrap_id 32 (fb_height r - y)) by (unfold in_range; lia). rewrite align8 by (unfold in_range; lia).
  rewrite GetMortonOffset_value by lia. set (q := (fb_height r - y) / 8) in *. assert (Hq : 0 <= q < 128) by (subst q; modlia).
  assert (B1 : 0 <= 8 * q * fb_width r < 2 ^ 22) by nia. assert (B2 : 0 <= 8 * q * fb_width r * size < 2 ^ 25) by nia.
  rewrite (uwrap_id 32 (8 * q * fb_width r)) by (unfold in_range; lia). rewrite (uwrap_id 32 (8 * q * fb_width r * size)) by (unfold in_range; lia).
  assert (E : (MortonInterleave x (fb_height r - y) + 64 * (x / 8)) * size + 8 * q * fb_width r * size = place_of x y * size) by (unfold place_of, pixel_index; fold q; ring).
  rewrite E. apply uwrap_id. unfold in_range. assert (0 <= fb_height r / 8 < 128) by modlia.
  assert (B3 : fb_width r * (8 * (fb_height r / 8 + 1)) < 2 ^ 22) by nia. nia.
Qed.

(** Different pixels have different bytes, and colours and depths too. *)
Lemma color_cells_apart x y x' y' : inside x y -> inside x' y' -> (x, y) ≠ (x', y') -> ∀ a, color_cell x y a -> ¬ color_cell x' y' a.
Proof.
  intros I I' N a [_ H] [_ H']. pose proof color_size. assert (place_of x y ≠ place_of x' y') by (intros E; destruct (place_of_inj _ _ _ _ I I' E); congruence).
  assert (place_of x y + 1 <= place_of x' y' ∨ place_of x' y' + 1 <= place_of x y) as [?|?] by lia; nia.
Qed.
Lemma depth_cells_apart x y x' y' : inside x y -> inside x' y' -> (x, y) ≠ (x', y') -> ∀ a, depth_cell x y a -> ¬ depth_cell x' y' a.
Proof.
  intros I I' N a [_ H] [_ H']. pose proof depth_size. assert (place_of x y ≠ place_of x' y') by (intros E; destruct (place_of_inj _ _ _ _ I I' E); congruence).
  assert (place_of x y + 1 <= place_of x' y' ∨ place_of x' y' + 1 <= place_of x y) as [?|?] by lia; nia.
Qed.
Lemma color_depth_apart x y x' y' : inside x y -> inside x' y' -> ∀ a, color_cell x y a -> ¬ depth_cell x' y' a.
Proof.
  intros I I' [b o] [Ha H] [Ha' H']. cbn in *. pose proof (place_range x y I). pose proof (place_range x' y' I'). pose proof color_size. pose proof depth_size.
  destruct O as [_ _ _ _ _ _ [N|D]]; [congruence|]. nia.
Qed.

(** ** Colours *)

(** The colour that a format keeps. *)
Definition kept (c : Vec4) : Vec4 :=
  match color_format r with
  | ColorFormat.RGBA8 => c
  | ColorFormat.RGB8 => mk_Vec4 (red c) (green c) (blue c) 255
  | ColorFormat.RGB5A1 => mk_Vec4 (keep5 (red c)) (keep5 (green c)) (keep5 (blue c)) (keep1 (alpha c))
  | ColorFormat.RGB565 => mk_Vec4 (keep5 (red c)) (keep6 (green c)) (keep5 (blue c)) 255
  | ColorFormat.RGBA4 => mk_Vec4 (keep4 (red c)) (keep4 (green c)) (keep4 (blue c)) (keep4 (alpha c))
  | ColorFormat.Unknown _ => mk_Vec4 0 0 0 0
  end.

(** The format of a framebuffer by its encoder and decoder. *)
Lemma format_codec : ∃ enc dec, (∀ c, Z.of_nat (length (enc c)) = cs) ∧ (∀ c, color_ok c -> dec (enc c) = kept c) ∧
  (∀ m x y c, DrawPixel r fb m x y c = store m (Some (cb, co + pixel_offset r cs x y)) (enc c)) ∧
  (∀ m x y, GetPixel r fb m x y = dec <$> load m (Some (cb, co + pixel_offset r cs x y)) (Z.to_nat cs)).
Proof.
  destruct O as [_ _ [Cb Cs] _ _ _ _]. unfold DrawPixel, GetPixel, kept. rewrite Cs, Cb. cbn [mbind option_bind ptr_add].
  destruct (color_format r); cbn in Cs; simplify_eq; do 2 eexists; (split; [|split; [|split; [intros; reflexivity|intros; reflexivity]]]); try done.
  - intros c _. apply decode_RGBA8.
  - apply decode_RGB5A1.
  - apply decode_RGB565.
  - apply decode_RGBA4.
Qed.

Lemma pixel_fits x y : inside x y -> 0 <= co + place_of x y * cs ∧ co + place_of x y * cs + cs <= backing_size cb.
Proof. intros I. pose proof (place_range x y I). pose proof color_size. destruct O as [_ _ _ _ [? ?] _ _]. nia. Qed.
Lemma depth_fits x y : inside x y -> 0 <= do + place_of x y * ds ∧ do + place_of x y * ds + ds <= backing_size db.
Proof. intros I. pose proof (place_range x y I). pose proof depth_size. destruct O as [_ _ _ _ _ [? ?] _]. nia. Qed.

Lemma load_store_same m b o bs n : 0 <= o -> o + Z.of_nat (length bs) <= backing_size b -> n = length bs ->
  ∃ m', store m (Some (b, o)) bs = Some m' ∧ load m' (Some (b, o)) n = Some bs.
Proof.
  intros H1 H2 ->. unfold store, load. cbn. rewrite (proj2 (in_block_spec b o (length bs))) by lia. eexists. split; [reflexivity|]. by rewrite bytes_at_put.
Qed.

Lemma DrawPixel_writes x y c : inside x y -> writes (color_cell x y) (fun m => DrawPixel r fb m x y c).
Proof.
  intros I. destruct format_codec as (enc & dec & L & _ & D & _). pose proof color_size.
  intros m1 m2 A. rewrite !D. rewrite pixel_offset_place by (done || lia). revert m1 m2 A. apply writes_store. intros i Hi. specialize (L c). unfold color_cell, cell. cbn. split; [done|nia].
Qed.
Lemma GetPixel_reads x y : inside x y -> reads (color_cell x y) (fun m => GetPixel r fb m x y).
Proof.
  intros I. destruct format_codec as (enc & dec & L & _ & _ & G). pose proof color_size. intros m1 m2 A. rewrite !G. rewrite pixel_offset_place by (done || lia).
  f_equal. revert m1 m2 A. apply reads_load. intros i Hi. unfold color_cell, cell. cbn. split; [done|nia].
Qed.

Lemma DrawPixel_GetPixel m x y c : inside x y -> color_ok c -> ∃ m', DrawPixel r fb m x y c = Some m' ∧ GetPixel r fb m' x y = Some (kept c).
Proof.
  intros I Hc. destruct format_codec as (enc & dec & L & K & D & G). pose proof color_size. destruct (pixel_fits x y I).
  setoid_rewrite D. setoid_rewrite G. rewrite pixel_offset_place by (done || lia).
  destruct (load_store_same m cb (co + place_of x y * cs) (enc c) (Z.to_nat cs)) as (m' & S & E); [lia|rewrite L; lia|pose proof (L c); lia|].
  exists m'. split; [done|]. rewrite E. cbn. by rewrite K.
Qed.
End framebuffer.
