(* ===== verification/Fragment.v ===== *)
(** What happens to one pixel of a triangle: the texture combiners of
    [video_core/renderer_software/sw_texturing.cpp], and the tests, fog, blending and
    writes of [sw_rasterizer.cpp]. *)

From Stdlib Require Import SpecFloat.
From Stdlib Require Import Permutation.
From S2P Require Import Prelude Color Memory Framebuffer Float32 MemoryFacts.

(** ** Texture coordinates *)

(* src: video_core/pica/regs_texturing.h | enum WrapMode : u32 { *)
Inductive WrapMode := ClampToEdge | ClampToBorder | Repeat | MirroredRepeat | ClampToEdge2 | ClampToBorder2 | Repeat2 | Repeat3.

(* src: video_core/renderer_software/sw_texturing.cpp | int GetWrappedTexCoord(Pica::TexturingRegs::TextureConfig::WrapMode mode, s32 val, u32 size) { *)
Definition GetWrappedTexCoord (mode : WrapMode) (val size : Z) : Z :=
  let repeat_ := s32 (u32 val mod size) in
  let clamp := Z.min (Z.max val 0) (s32 size - 1) in
  match mode with
  | ClampToEdge2 => if val <? 0 then repeat_ else clamp
  | ClampToEdge => clamp
  | ClampToBorder => val
  | ClampToBorder2 | Repeat2 | Repeat3 | Repeat => repeat_
  | MirroredRepeat =>
      let coord := u32 val mod (u32 (2 * size)) in
      let coord := if size <=? coord then u32 (2 * size - 1 - coord) else coord in
      s32 coord
  end.

(** Whether a coordinate takes the colour of the border. *)
(* src: video_core/renderer_software/sw_rasterizer.cpp | if (texture.config.wrap_s == TexturingRegs::TextureConfig::ClampToBorder) { | TextureColor | +5 *)
Definition use_border (mode : WrapMode) (coordinate size : Z) : bool :=
  match mode with
  | ClampToBorder => (coordinate <? 0) || (size <=? coordinate)
  | ClampToBorder2 => size <=? coordinate
  | _ => false
  end.

(** ** Combiners *)

(* src: video_core/pica/regs_texturing.h | enum class ColorModifier : u32 { *)
Inductive ColorModifier :=
| CM_SourceColor | CM_OneMinusSourceColor | CM_SourceAlpha | CM_OneMinusSourceAlpha | CM_SourceRed | CM_OneMinusSourceRed
| CM_SourceGreen | CM_OneMinusSourceGreen | CM_SourceBlue | CM_OneMinusSourceBlue | CM_Unknown.
(* src: video_core/pica/regs_texturing.h | enum class AlphaModifier : u32 { *)
Inductive AlphaModifier :=
| AM_SourceAlpha | AM_OneMinusSourceAlpha | AM_SourceRed | AM_OneMinusSourceRed
| AM_SourceGreen | AM_OneMinusSourceGreen | AM_SourceBlue | AM_OneMinusSourceBlue.
(* src: video_core/pica/regs_texturing.h | enum class Operation : u32 { *)
Inductive Operation :=
| OP_Replace | OP_Modulate | OP_Add | OP_AddSigned | OP_Lerp | OP_Subtract | OP_Dot3_RGB | OP_Dot3_RGBA | OP_MultiplyThenAdd | OP_AddThenMultiply | OP_Unknown.
(* src: video_core/pica/regs_texturing.h | enum class Source : u32 { *)
Inductive TevSource :=
| TS_PrimaryColor | TS_PrimaryFragmentColor | TS_SecondaryFragmentColor | TS_Texture0 | TS_Texture1 | TS_Texture2 | TS_Texture3
| TS_PreviousBuffer | TS_Constant | TS_Previous | TS_Unknown.
#[global] Instance TevSource_eq_dec : EqDecision TevSource.
Proof. solve_decision. Defined.
#[global] Instance Operation_eq_dec : EqDecision Operation.
Proof. solve_decision. Defined.

(** A modifier that is not known is a crash. *)
(* src: video_core/renderer_software/sw_texturing.cpp | Common::Vec3<u8> GetColorModifier(TevStageConfig::ColorModifier factor, *)
Definition GetColorModifier (factor : ColorModifier) (values : Vec4) : option Vec3 :=
  let minus (v : Vec3) : Vec3 := vec3_map (fun x => u8 (255 - x)) v in
  match factor with
  | CM_SourceColor => Some (rgb values)
  | CM_OneMinusSourceColor => Some (minus (rgb values))
  | CM_SourceAlpha => Some (vec3_all (alpha values))
  | CM_OneMinusSourceAlpha => Some (minus (vec3_all (alpha values)))
  | CM_SourceRed => Some (vec3_all (red values))
  | CM_OneMinusSourceRed => Some (minus (vec3_all (red values)))
  | CM_SourceGreen => Some (vec3_all (green values))
  | CM_OneMinusSourceGreen => Some (minus (vec3_all (green values)))
  | CM_SourceBlue => Some (vec3_all (blue values))
  | CM_OneMinusSourceBlue => Some (minus (vec3_all (blue values)))
  | CM_Unknown => None
  end.
(* src: video_core/renderer_software/sw_texturing.cpp | u8 GetAlphaModifier(TevStageConfig::AlphaModifier factor, const Common::Vec4<u8>& values) { *)
Definition GetAlphaModifier (factor : AlphaModifier) (values : Vec4) : Z :=
  match factor with
  | AM_SourceAlpha => alpha values
  | AM_OneMinusSourceAlpha => u8 (255 - alpha values)
  | AM_SourceRed => red values
  | AM_OneMinusSourceRed => u8 (255 - red values)
  | AM_SourceGreen => green values
  | AM_OneMinusSourceGreen => u8 (255 - green values)
  | AM_SourceBlue => blue values
  | AM_OneMinusSourceBlue => u8 (255 - blue values)
  end.

(* src: video_core/renderer_software/sw_texturing.cpp | Common::Vec3<u8> ColorCombine(TevStageConfig::Operation op, *)
Definition ColorCombine (op : Operation) (input0 input1 input2 : Vec3) : Vec3 :=
  let at_most (v : Vec3) : Vec3 := vec3_map (Z.min 255) v in
  let cast (v : Vec3) : Vec3 := vec3_map u8 v in
  let by255 (v : Vec3) : Vec3 := vec3_map (fun x => Z.quot x 255) v in
  match op with
  | OP_Replace => input0
  | OP_Modulate => cast (by255 (vec3_zip Z.mul input0 input1))
  | OP_Add => cast (at_most (vec3_zip Z.add input0 input1))
  | OP_AddSigned =>
      let result := vec3_map (fun x => x - 128) (vec3_zip Z.add input0 input1) in
      cast (vec3_map (fun x => Z.min (Z.max x 0) 255) result)
  | OP_Lerp =>
      let rest := cast (vec3_map (fun x => 255 - x) input2) in
      cast (by255 (vec3_zip Z.add (vec3_zip Z.mul input0 input2) (vec3_zip Z.mul input1 rest)))
  | OP_Subtract => cast (vec3_map (Z.max 0) (vec3_zip Z.sub input0 input1))
  | OP_MultiplyThenAdd => cast (at_most (by255 (vec3_zip Z.add (vec3_zip Z.mul input0 input1) (vec3_map (Z.mul 255) input2))))
  | OP_AddThenMultiply => cast (by255 (vec3_zip Z.mul (at_most (vec3_zip Z.add input0 input1)) input2))
  | OP_Dot3_RGB | OP_Dot3_RGBA =>
      let part (a b : Z) : Z := Z.quot ((a * 2 - 255) * (b * 2 - 255) + 128) 256 in
      let result := part (v3x input0) (v3x input1) + part (v3y input0) (v3y input1) + part (v3z input0) (v3z input1) in
      vec3_all (u8 (Z.min (Z.max result 0) 255))
  | OP_Unknown => vec3_all 0
  end.
(* src: video_core/renderer_software/sw_texturing.cpp | u8 AlphaCombine(TevStageConfig::Operation op, const std::array<u8, 3>& input) { *)
Definition AlphaCombine (op : Operation) (input0 input1 input2 : Z) : Z :=
  match op with
  | OP_Replace => input0
  | OP_Modulate => u8 (Z.quot (input0 * input1) 255)
  | OP_Add => u8 (Z.min 255 (input0 + input1))
  | OP_AddSigned => u8 (Z.min (Z.max (input0 + input1 - 128) 0) 255)
  | OP_Lerp => u8 (Z.quot (input0 * input2 + input1 * (255 - input2)) 255)
  | OP_Subtract => u8 (Z.max 0 (input0 - input1))
  | OP_MultiplyThenAdd => u8 (Z.min 255 (Z.quot (input0 * input1 + 255 * input2) 255))
  | OP_AddThenMultiply => u8 (Z.quot (Z.min 255 (input0 + input1) * input2) 255)
  | _ => 0
  end.

(* src: video_core/pica/regs_texturing.h | struct TevStageConfig { *)
Record TevStageConfig := mk_TevStageConfig {
  color_source1 : TevSource; color_source2 : TevSource; color_source3 : TevSource;
  alpha_source1 : TevSource; alpha_source2 : TevSource; alpha_source3 : TevSource;
  color_modifier1 : ColorModifier; color_modifier2 : ColorModifier; color_modifier3 : ColorModifier;
  alpha_modifier1 : AlphaModifier; alpha_modifier2 : AlphaModifier; alpha_modifier3 : AlphaModifier;
  color_op : Operation; alpha_op : Operation;
  const_color : Vec4;
  color_scale : Z; alpha_scale : Z
}.
(* src: video_core/pica/regs_texturing.h | inline unsigned GetColorMultiplier() const { *)
Definition GetColorMultiplier (s : TevStageConfig) : Z := if color_scale s <? 3 then 1 ≪ color_scale s else 1.
(* src: video_core/pica/regs_texturing.h | inline unsigned GetAlphaMultiplier() const { *)
Definition GetAlphaMultiplier (s : TevStageConfig) : Z := if alpha_scale s <? 3 then 1 ≪ alpha_scale s else 1.

(** The masks of the combiner buffer. *)
(* src: video_core/pica/regs_texturing.h | bool TevStageUpdatesCombinerBufferColor(unsigned stage_index) const { *)
Definition TevStageUpdates (mask stage_index : Z) : bool := (stage_index <? 4) && nz (mask .& (1 ≪ stage_index)).

Section tev.
Context (texture_color : Z -> Vec4) (update_mask_rgb update_mask_a : Z).
Context (primary_color primary_fragment_color secondary_fragment_color : Vec4).

(** The output, the buffer and the next buffer between two stages. *)
(* src: video_core/renderer_software/sw_rasterizer.cpp | Common::Vec4<u8> combiner_output = {0, 0, 0, 0}; | WriteTevConfig | +2 *)
Record TevState := mk_TevState { combiner_output : Vec4; combiner_buffer : Vec4; next_combiner_buffer : Vec4 }.

(* src: video_core/renderer_software/sw_rasterizer.cpp | auto get_source = [&](Source source) -> Common::Vec4<u8> { *)
Definition get_source (tev_stage : TevStageConfig) (st : TevState) (source : TevSource) : Vec4 :=
  match source with
  | TS_PrimaryColor => primary_color
  | TS_PrimaryFragmentColor => primary_fragment_color
  | TS_SecondaryFragmentColor => secondary_fragment_color
  | TS_Texture0 => texture_color 0
  | TS_Texture1 => texture_color 1
  | TS_Texture2 => texture_color 2
  | TS_Texture3 => texture_color 3
  | TS_PreviousBuffer => combiner_buffer st
  | TS_Constant => const_color tev_stage
  | TS_Previous => combiner_output st
  | TS_Unknown => mk_Vec4 0 0 0 0
  end.

(* src: video_core/renderer_software/sw_rasterizer.cpp | const auto source1 = tev_stage_index == 0 && tev_stage.color_source1 == Source::Previous | WriteTevConfig | ..if (regs.texturing.tev_combiner_buffer_input.TevStageUpdatesCombinerBufferAlpha( *)
Definition tev_step (tev_stage_index : Z) (tev_stage : TevStageConfig) (st : TevState) : option TevState :=
  let get_source := get_source tev_stage st in
  let source1 := if (tev_stage_index =? 0) && bool_decide (color_source1 tev_stage = TS_Previous) then color_source3 tev_stage else color_source1 tev_stage in
  let source2 := if (tev_stage_index =? 0) && bool_decide (color_source2 tev_stage = TS_Previous) then color_source3 tev_stage else color_source2 tev_stage in
  result1 ← GetColorModifier (color_modifier1 tev_stage) (get_source source1);
  result2 ← GetColorModifier (color_modifier2 tev_stage) (get_source source2);
  result3 ← GetColorModifier (color_modifier3 tev_stage) (get_source (color_source3 tev_stage));
  let color_output := ColorCombine (color_op tev_stage) result1 result2 result3 in
  let alpha_output :=
    if decide (color_op tev_stage = OP_Dot3_RGBA) then v3x color_output
    else AlphaCombine (alpha_op tev_stage) (GetAlphaModifier (alpha_modifier1 tev_stage) (get_source (alpha_source1 tev_stage)))
           (GetAlphaModifier (alpha_modifier2 tev_stage) (get_source (alpha_source2 tev_stage)))
           (GetAlphaModifier (alpha_modifier3 tev_stage) (get_source (alpha_source3 tev_stage))) in
  let output := mk_Vec4 (Z.min 255 (v3x color_output * GetColorMultiplier tev_stage)) (Z.min 255 (v3y color_output * GetColorMultiplier tev_stage))
    (Z.min 255 (v3z color_output * GetColorMultiplier tev_stage)) (Z.min 255 (alpha_output * GetAlphaMultiplier tev_stage)) in
  let buffer := next_combiner_buffer st in
  let next := next_combiner_buffer st in
  let next := if TevStageUpdates update_mask_rgb tev_stage_index then mk_Vec4 (red output) (green output) (blue output) (alpha next) else next in
  let next := if TevStageUpdates update_mask_a tev_stage_index then mk_Vec4 (red next) (green next) (blue next) (alpha output) else next in
  Some (mk_TevState output buffer next).

(* src: video_core/renderer_software/sw_rasterizer.cpp | for (u32 tev_stage_index = 0; tev_stage_index < tev_stages.size(); ++tev_stage_index) { | WriteTevConfig *)
Fixpoint tev_stages_from (index : Z) (tev_stages : list TevStageConfig) (st : TevState) : option TevState :=
  match tev_stages with
  | [] => Some st
  | s :: tev_stages => st ← tev_step index s st; tev_stages_from (index + 1) tev_stages st
  end.

(** [tev_stages] are six. *)
(* src: video_core/renderer_software/sw_rasterizer.cpp | Common::Vec4<u8> RasterizerSoftware::WriteTevConfig( *)
Definition WriteTevConfig (tev_combiner_buffer_color : Vec4) (tev_stages : list TevStageConfig) : option Vec4 :=
  combiner_output <$> tev_stages_from 0 tev_stages (mk_TevState (mk_Vec4 0 0 0 0) (mk_Vec4 0 0 0 0) tev_combiner_buffer_color).
End tev.

(** ** Output *)

(* src: video_core/pica/regs_framebuffer.h | enum class CompareFunc : u32 { *)
Inductive CompareFunc := CF_Never | CF_Always | CF_Equal | CF_NotEqual | CF_LessThan | CF_LessThanOrEqual | CF_GreaterThan | CF_GreaterThanOrEqual.
(* src: video_core/pica/regs_framebuffer.h | enum class BlendFactor : u32 { *)
Inductive BlendFactor :=
| BF_Zero | BF_One | BF_SourceColor | BF_OneMinusSourceColor | BF_DestColor | BF_OneMinusDestColor | BF_SourceAlpha | BF_OneMinusSourceAlpha
| BF_DestAlpha | BF_OneMinusDestAlpha | BF_ConstantColor | BF_OneMinusConstantColor | BF_ConstantAlpha | BF_OneMinusConstantAlpha
| BF_SourceAlphaSaturate | BF_Unknown.

(** The fields of [output_merger]. *)
(* src: video_core/pica/regs_framebuffer.h | BitField<8, 1, u32> alphablend_enable; | output_merger | ..BitField<12, 1, u32> depth_write_enable; *)
Record OutputMerger := mk_OutputMerger {
  alphablend_enable : bool;
  blend_equation_rgb : BlendEquation; blend_equation_a : BlendEquation;
  factor_source_rgb : BlendFactor; factor_dest_rgb : BlendFactor; factor_source_a : BlendFactor; factor_dest_a : BlendFactor;
  logic_op : LogicOperation;
  blend_const : Vec4;
  alpha_test_enable : bool; alpha_test_func : CompareFunc; alpha_test_ref : Z;
  stencil_enable : bool; stencil_func : CompareFunc; write_mask : Z; reference_value : Z; input_mask : Z;
  action_stencil_fail : StencilAction; action_depth_fail : StencilAction; action_depth_pass : StencilAction;
  depth_test_enable : bool; depth_test_func : CompareFunc;
  red_enable : bool; green_enable : bool; blue_enable : bool; alpha_enable : bool;
  depth_write_enable : bool
}.

(* src: video_core/renderer_software/sw_rasterizer.cpp | switch (output_merger.depth_test_func) { | DoDepthStencilTest *)
Definition compare (func : CompareFunc) (a b : Z) : bool :=
  match func with
  | CF_Never => false
  | CF_Always => true
  | CF_Equal => a =? b
  | CF_NotEqual => negb (a =? b)
  | CF_LessThan => a <? b
  | CF_LessThanOrEqual => a <=? b
  | CF_GreaterThan => b <? a
  | CF_GreaterThanOrEqual => b <=? a
  end.

Section output.
Context (r : FramebufferConfig) (om : OutputMerger) (fb : Framebuffer).
Implicit Types (m : Bytes).

(* src: video_core/renderer_software/sw_rasterizer.cpp | bool RasterizerSoftware::DoAlphaTest(u8 alpha) const { *)
Definition DoAlphaTest (a : Z) : bool :=
  if alpha_test_enable om then compare (alpha_test_func om) a (alpha_test_ref om) else true.

(* src: video_core/renderer_software/sw_rasterizer.cpp | const auto update_stencil = [&](Pica::FramebufferRegs::StencilAction action) { *)
Definition update_stencil m (x y old_stencil : Z) (action : StencilAction) : option Bytes :=
  let new_stencil := PerformStencilAction action old_stencil (reference_value om) in
  if nz (allow_depth_stencil_write r)
  then SetStencil r fb m x y (u8 ((new_stencil .& write_mask om) .| (old_stencil .& unot 32 (write_mask om))))
  else Some m.

(** The depth as the number of its format. *)
(* src: video_core/renderer_software/sw_rasterizer.cpp | const u32 num_bits = FramebufferRegs::DepthBitsPerPixel(framebuffer.depth_format); | DoDepthStencilTest | +2 *)
Definition depth_number (depth : f32) : option Z :=
  num_bits ← DepthBitsPerPixel (depth_format r);
  f32_to_u32 (f32_mul depth (f32_of_Z ((1 ≪ num_bits) - 1))).

(** The coordinates are in sixteenths of a pixel. *)
(* src: video_core/renderer_software/sw_rasterizer.cpp | bool RasterizerSoftware::DoDepthStencilTest(u16 x, u16 y, float depth) const { *)
Definition DoDepthStencilTest m (x y : Z) (depth : f32) : option (bool * Bytes) :=
  let px := x ≫ 4 in
  let py := y ≫ 4 in
  let stencil_action_enable := stencil_enable om && bool_decide (depth_format r = DepthFormat.D24S8) in
  old_stencil ← (if stencil_action_enable then GetStencil r fb m px py else Some 0);
  let dest := old_stencil .& input_mask om in
  let ref := reference_value om .& input_mask om in
  if stencil_action_enable && negb (compare (stencil_func om) ref dest) then
    m ← update_stencil m px py old_stencil (action_stencil_fail om);
    Some (false, m)
  else
    z ← depth_number depth;
    pass ← (if depth_test_enable om then ref_z ← GetDepth r fb m px py; Some (compare (depth_test_func om) z ref_z) else Some true);
    if negb pass then
      m ← (if stencil_action_enable then update_stencil m px py old_stencil (action_depth_fail om) else Some m);
      Some (false, m)
    else
      m ← (if nz (allow_depth_stencil_write r) && depth_write_enable om then SetDepth r fb m px py z else Some m);
      m ← (if stencil_action_enable then update_stencil m px py old_stencil (action_depth_pass om) else Some m);
      Some (true, m).

(* src: video_core/renderer_software/sw_rasterizer.cpp | const auto lookup_factor = [&](u32 channel, FramebufferRegs::BlendFactor factor) -> u8 { *)
Definition lookup_factor (combiner_output dest : Vec4) (channel : Z) (factor : BlendFactor) : Z :=
  match factor with
  | BF_Zero => 0
  | BF_One => 255
  | BF_SourceColor => channel_of combiner_output channel
  | BF_OneMinusSourceColor => u8 (255 - channel_of combiner_output channel)
  | BF_DestColor => channel_of dest channel
  | BF_OneMinusDestColor => u8 (255 - channel_of dest channel)
  | BF_SourceAlpha => alpha combiner_output
  | BF_OneMinusSourceAlpha => u8 (255 - alpha combiner_output)
  | BF_DestAlpha => alpha dest
  | BF_OneMinusDestAlpha => u8 (255 - alpha dest)
  | BF_ConstantColor => channel_of (blend_const om) channel
  | BF_OneMinusConstantColor => u8 (255 - channel_of (blend_const om) channel)
  | BF_ConstantAlpha => alpha (blend_const om)
  | BF_OneMinusConstantAlpha => u8 (255 - alpha (blend_const om))
  | BF_SourceAlphaSaturate => if channel =? 3 then 255 else Z.min (alpha combiner_output) (u8 (255 - alpha dest))
  | BF_Unknown => channel_of combiner_output channel
  end.

(** Blending of a colour with the one that is there. *)
(* src: video_core/renderer_software/sw_rasterizer.cpp | const auto srcfactor = Common::MakeVec( | PixelColor | ..LogicOp(combiner_output.a(), dest.a(), output_merger.logic_op)); *)
Definition blend_output (combiner_output dest : Vec4) : option Vec4 :=
  let lookup_factor := lookup_factor combiner_output dest in
  if alphablend_enable om then
    let srcfactor := mk_Vec4 (lookup_factor 0 (factor_source_rgb om)) (lookup_factor 1 (factor_source_rgb om))
                       (lookup_factor 2 (factor_source_rgb om)) (lookup_factor 3 (factor_source_a om)) in
    let dstfactor := mk_Vec4 (lookup_factor 0 (factor_dest_rgb om)) (lookup_factor 1 (factor_dest_rgb om))
                       (lookup_factor 2 (factor_dest_rgb om)) (lookup_factor 3 (factor_dest_a om)) in
    color ← EvaluateBlendEquation combiner_output srcfactor dest dstfactor (blend_equation_rgb om);
    a ← EvaluateBlendEquation combiner_output srcfactor dest dstfactor (blend_equation_a om);
    Some (mk_Vec4 (red color) (green color) (blue color) (alpha a))
  else Some (vec4_zip (fun src dest => LogicOp src dest (logic_op om)) combiner_output dest).

(* src: video_core/renderer_software/sw_rasterizer.cpp | Common::Vec4<u8> RasterizerSoftware::PixelColor(u16 x, u16 y, *)
Definition PixelColor m (x y : Z) (combiner_output : Vec4) : option Vec4 :=
  dest ← GetPixel r fb m (x ≫ 4) (y ≫ 4);
  c ← blend_output combiner_output dest;
  Some (mk_Vec4 (if red_enable om then red c else red dest) (if green_enable om then green c else green dest)
          (if blue_enable om then blue c else blue dest) (if alpha_enable om then alpha c else alpha dest)).

(** The fog: whether it is on, its colour, its table of values and differences. *)
(* src: video_core/pica/pica_core.h | BitField<0, 13, s32> difference; // 1.1.11 fixed point | LutEntry | +2 *)
Record Fog := mk_Fog { fog_on : bool; fog_flip : bool; fog_color : Vec3; fog_lut : list (Z * Z) }.

(** [static_cast<u8>]: undefined outside of the range. *)
Definition f32_to_u8 (x : f32) : option Z := v ← f32_trunc x; if (0 <=? v) && (v <? 2 ^ 8) then Some v else None.

(* src: video_core/renderer_software/sw_rasterizer.cpp | void RasterizerSoftware::WriteFog(float depth, Common::Vec4<u8>& combiner_output) const { *)
Definition WriteFog (fog : Fog) (depth : f32) (combiner_output : Vec4) : option Vec4 :=
  if fog_on fog then
    let fog_index := if fog_flip fog then f32_mul (f32_sub (f32_of_Z 1) depth) (f32_of_Z 128) else f32_mul depth (f32_of_Z 128) in
    let fog_i := f32_clamp (f32_floor fog_index) 0 127 in
    let fog_f := f32_sub fog_index fog_i in
    i ← f32_to_u32 fog_i;
    let '(value, difference) := fog_lut fog !!! Z.to_nat i in
    let to_float (v : Z) : f32 := f32_div (f32_of_Z v) (f32_of_Z 2047) in
    let fog_factor := f32_clamp (f32_add (to_float value) (f32_mul (to_float difference) fog_f)) 0 1 in
    let mix (c fc : Z) : option Z :=
      f32_to_u8 (f32_add (f32_mul fog_factor (f32_of_Z c)) (f32_mul (f32_sub (f32_of_Z 1) fog_factor) (f32_of_Z fc))) in
    x ← mix (red combiner_output) (v3x (fog_color fog));
    y ← mix (green combiner_output) (v3y (fog_color fog));
    z ← mix (blue combiner_output) (v3z (fog_color fog));
    Some (mk_Vec4 x y z (alpha combiner_output))
  else Some combiner_output.

(** The end of a pixel outside of the shadow mode. *)
(* src: video_core/renderer_software/sw_rasterizer.cpp | // Does alpha testing happen before or after stencil? | ProcessTriangle | +12 *)
Definition output_pixel (fog : Fog) m (x y : Z) (depth : f32) (combiner_output : Vec4) : option Bytes :=
  if negb (DoAlphaTest (alpha combiner_output)) then Some m
  else
    combiner_output ← WriteFog fog depth combiner_output;
    '(pass, m) ← DoDepthStencilTest m x y depth;
    if (pass : bool) then
      result ← PixelColor m x y combiner_output;
      if nz (allow_color_write r) then DrawPixel r fb m (x ≫ 4) (y ≫ 4) result else Some m
    else Some m.
End output.

(** * What the pixels of a triangle do to the framebuffer: colours stay colours, depths and
    stencils come back, and pixels at different places can be drawn in any order. *)

(** ** Colours stay colours *)

Ltac byte_range := unfold color_ok in *; destruct_and?; unfold in_range in *; pow2; lia.

Definition color3_ok (c : Vec3) : Prop := in_range 8 (v3x c) ∧ in_range 8 (v3y c) ∧ in_range 8 (v3z c).

Lemma clamp_byte x : in_range 8 (Z.min (Z.max x 0) 255).
Proof. unfold in_range. lia. Qed.
Lemma u8_byte x : in_range 8 (u8 x).
Proof. by apply uwrap_range. Qed.
#[export] Hint Resolve clamp_byte u8_byte : words.

Lemma EvaluateBlendEquation_range src sf dest df equation c : EvaluateBlendEquation src sf dest df equation = Some c -> color_ok c.
Proof. unfold EvaluateBlendEquation. destruct equation; intros [= <-]; unfold color_ok; cbn [vec4_map vx vy vz vw]; auto with words. Qed.

Lemma LogicOp_range src dest op : in_range 8 src -> in_range 8 dest -> in_range 8 (LogicOp src dest op).
Proof.
  intros Hs Hd. destruct op; cbn [LogicOp]; auto with words;
    try (by apply range_land_l); try (by apply range_lor); try (by apply range_lxor); done.
Qed.
(** Each operation is its truth table, bit by bit. *)
Definition logic_table (op : LogicOperation) (s d : bool) : bool :=
  match op with
  | LO_Clear => false | LO_And => s && d | LO_AndReverse => s && negb d | LO_Copy => s | LO_Set => true | LO_CopyInverted => negb s
  | LO_NoOp => d | LO_Invert => negb d | LO_Nand => negb (s && d) | LO_Or => s || d | LO_Nor => negb (s || d) | LO_Xor => xorb s d
  | LO_Equiv => eqb s d | LO_AndInverted => negb s && d | LO_OrReverse => s || negb d | LO_OrInverted => negb s || d
  end.
Lemma LogicOp_bits src dest op i : 0 <= i < 8 -> Z.testbit (LogicOp src dest op) i = logic_table op (Z.testbit src i) (Z.testbit dest i).
Proof.
  intros Hi. assert (U : ∀ x, Z.testbit (u8 x) i = Z.testbit x i) by (intros x; unfold uwrap; apply Z.mod_pow2_bits_low; lia).
  destruct op; cbn [LogicOp logic_table];
    rewrite ?U, ?Z.lnot_spec, ?Z.land_spec, ?Z.lor_spec, ?Z.lxor_spec, ?Z.lnot_spec by lia; try done.
  - apply Z.bits_0.
  - change 255 with (Z.ones 8). by rewrite Z.ones_spec_low by lia.
  - by destruct (Z.testbit src i), (Z.testbit dest i).
Qed.

Section output.
Context (r : FramebufferConfig) (om : OutputMerger) (fb : Framebuffer).

Lemma blend_output_range c dest b : color_ok c -> color_ok dest -> blend_output om c dest = Some b -> color_ok b.
Proof.
  intros Hc Hd. unfold blend_output. destruct (alphablend_enable om).
  - intros E. apply bind_Some in E as (x & E1%EvaluateBlendEquation_range & E). apply bind_Some in E as (y & E2%EvaluateBlendEquation_range & E).
    injection E as <-. unfold color_ok in *. cbn. tauto.
  - intros [= <-]. unfold color_ok in *. cbn. destruct_and!. split_and!; by apply LogicOp_range.
Qed.
End output.

Lemma DecodeRGBA_range bs : bytes_ok bs -> color_ok (DecodeRGBA8 bs) ∧ color_ok (DecodeRGB8 bs) ∧ color_ok (DecodeRGB5A1 bs) ∧ color_ok (DecodeRGB565 bs) ∧ color_ok (DecodeRGBA4 bs).
Proof.
  intros B. unfold color_ok, DecodeRGBA8, DecodeRGB8, DecodeRGB5A1, DecodeRGB565, DecodeRGBA4, Convert1To8, Convert4To8, Convert5To8, Convert6To8.
  cbn [vx vy vz vw]. split_and!; auto with words; done.
Qed.

(** ** Combiners *)

Lemma minus_byte x : in_range 8 x -> u8 (255 - x) = 255 - x.
Proof. intros H. apply uwrap_id. byte_range. Qed.

Lemma GetColorModifier_range factor c v : color_ok c -> GetColorModifier factor c = Some v -> color3_ok v.
Proof.
  intros (H1 & H2 & H3 & H4) E. destruct factor; cbn in E; simplify_eq; unfold color3_ok, rgb, vec3_all, vec3_map; cbn; auto with words.
Qed.
Lemma GetAlphaModifier_range factor c : color_ok c -> in_range 8 (GetAlphaModifier factor c).
Proof. intros (H1 & H2 & H3 & H4). destruct factor; cbn; auto with words. Qed.
Lemma ColorCombine_range op a b c : color3_ok a -> color3_ok (ColorCombine op a b c).
Proof. intros Ha. destruct op; try done; unfold color3_ok, vec3_all; cbn; auto with words. Qed.
Lemma AlphaCombine_range op a b c : in_range 8 a -> in_range 8 (AlphaCombine op a b c).
Proof. intros Ha. destruct op; cbn; auto with words; done. Qed.

(** The casts of the combiners lose nothing: a result is at most 255 before it. *)
Lemma Lerp_exact a b c : in_range 8 a -> in_range 8 b -> in_range 8 c -> AlphaCombine OP_Lerp a b c = (a * c + b * (255 - c)) / 255.
Proof.
  intros Ha Hb Hc. cbn. unfold in_range in *. rewrite Z.quot_div_nonneg by nia. apply uwrap_id. unfold in_range. split; [apply Z.div_pos; nia|]. apply Z.div_lt_upper_bound; nia.
Qed.

Section tev.
Context (texture_color : Z -> Vec4) (update_mask_rgb update_mask_a : Z) (primary primary_fragment secondary_fragment : Vec4).
Context (Tx : ∀ i, color_ok (texture_color i)) (P1 : color_ok primary) (P2 : color_ok primary_fragment) (P3 : color_ok secondary_fragment).

Definition stage_ok (s : TevStageConfig) : Prop :=
  color_ok (const_color s) ∧ color_modifier1 s ≠ CM_Unknown ∧ color_modifier2 s ≠ CM_Unknown ∧ color_modifier3 s ≠ CM_Unknown.
Definition tev_ok (st : TevState) : Prop := color_ok (combiner_output st) ∧ color_ok (combiner_buffer st) ∧ color_ok (next_combiner_buffer st).

Lemma min_scaled x n : in_range 8 x -> 0 <= n -> in_range 8 (Z.min 255 (x * n)).
Proof. unfold in_range. intros. pow2. nia. Qed.
Lemma multiplier_pos s : 0 <= GetColorMultiplier s ∧ 0 <= GetAlphaMultiplier s.
Proof. unfold GetColorMultiplier, GetAlphaMultiplier. split; (destruct (_ <? 3); [apply Z.shiftl_nonneg; lia|lia]). Qed.

Lemma get_source_range s st source : stage_ok s -> tev_ok st -> color_ok (get_source texture_color primary primary_fragment secondary_fragment s st source).
Proof. intros (Hc & _) (H1 & H2 & H3). destruct source; cbn; try done; apply Tx. Qed.
Lemma GetColorModifier_known factor c : factor ≠ CM_Unknown -> is_Some (GetColorModifier factor c).
Proof. by destruct factor. Qed.

Lemma tev_step_ok index s st : stage_ok s -> tev_ok st ->
  ∃ st', tev_step texture_color update_mask_rgb update_mask_a primary primary_fragment secondary_fragment index s st = Some st' ∧ tev_ok st' ∧
    combiner_buffer st' = next_combiner_buffer st.
Proof.
  intros Hs Ht. pose proof Hs as (_ & M1 & M2 & M3). unfold tev_step. cbv zeta.
  set (src2 := if (index =? 0) && _ then _ else _). set (src1 := if (index =? 0) && _ then _ else _).
  destruct (GetColorModifier_known _ (get_source texture_color primary primary_fragment secondary_fragment s st src1) M1) as [v1 E1].
  destruct (GetColorModifier_known _ (get_source texture_color primary primary_fragment secondary_fragment s st src2) M2) as [v2 E2].
  destruct (GetColorModifier_known _ (get_source texture_color primary primary_fragment secondary_fragment s st (color_source3 s)) M3) as [v3 E3].
  rewrite E1. cbn [mbind option_bind]. rewrite E2. cbn [mbind option_bind]. rewrite E3. cbn [mbind option_bind]. eexists. split; [reflexivity|].
  pose proof (GetColorModifier_range _ _ _ (get_source_range s st src1 Hs Ht) E1) as R1. pose proof (multiplier_pos s) as [Mc Ma].
  pose proof (ColorCombine_range (color_op s) v1 v2 v3 R1) as RC. pose proof RC as (C1 & C2 & C3).
  set (out := mk_Vec4 (Z.min 255 (v3x _ * _)) _ _ _).
  assert (Ho : color_ok out).
  { unfold color_ok. subst out. cbn [vx vy vz vw]. split_and!; apply min_scaled; try done. destruct (decide _); [done|].
    apply AlphaCombine_range, GetAlphaModifier_range, get_source_range; done. }
  clearbody out. destruct Ht as (T1 & T2 & T3). split; [|done]. split; [done|]. split; [done|]. cbn [next_combiner_buffer].
  destruct (TevStageUpdates update_mask_rgb index), (TevStageUpdates update_mask_a index); unfold color_ok in *; cbn; tauto.
Qed.

(** The combiners never crash on modifiers that are known, and their output is a colour. *)
Lemma WriteTevConfig_ok buffer stages : color_ok buffer -> Forall stage_ok stages ->
  ∃ c, WriteTevConfig texture_color update_mask_rgb update_mask_a primary primary_fragment secondary_fragment buffer stages = Some c ∧ color_ok c.
Proof.
  intros Hb Hs. unfold WriteTevConfig. set (st0 := mk_TevState _ _ _). assert (H0 : tev_ok st0) by (unfold tev_ok; by cbn). clearbody st0.
  generalize 0 as index. revert st0 H0. induction Hs as [|s stages S1 _ IH]; intros st0 H0 index; [exists (combiner_output st0); split; [done|apply H0]|].
  cbn [tev_stages_from]. destruct (tev_step_ok index s st0 S1 H0) as (st1 & -> & H1 & _). by apply IH.
Qed.
End tev.

(** ** Depths and stencils *)

Section buffers.
Context (r : FramebufferConfig) (fb : Framebuffer) (cb db : Backing) (co do cs ds : Z) (O : fb_ok r fb cb db co do cs ds).

Lemma stays_weaken {A : Type} (F G : Places) {DF : ∀ a, Decision (F a)} (op : Bytes -> option (A * Bytes)) : (∀ a, F a -> G a) -> stays F op -> stays G op.
Proof.
  intros Sub S m1 m2 H. specialize (S m1 m2 ltac:(intros a Ha; by apply H, Sub)). destruct (op m1) as [[x1 n1]|], (op m2) as [[x2 n2]|]; try done.
  destruct S as (-> & A1 & K). split; [done|]. split.
  - intros a Ga. destruct (decide (F a)) as [Fa|NF]; [by apply A1|]. destruct (K a NF) as [-> ->]. by apply H.
  - intros a NG. apply K. intros Fa. by apply NG, Sub.
Qed.
Lemma reads_weaken {A : Type} (F G : Places) (f : Bytes -> option A) : (∀ a, F a -> G a) -> reads F f -> reads G f.
Proof. intros Sub R m1 m2 H. apply R. intros a Ha. by apply H, Sub. Qed.

(** The bytes of a pixel in both buffers. *)
Definition pixel_cell (x y : Z) : Places := fun a => color_cell r cb co cs x y a ∨ depth_cell r db do ds x y a.
#[local] Instance color_cell_decision x y a : Decision (color_cell r cb co cs x y a).
Proof. unfold color_cell. apply _. Defined.
#[local] Instance depth_cell_decision x y a : Decision (depth_cell r db do ds x y a).
Proof. unfold depth_cell. apply _. Defined.
#[local] Instance pixel_cell_decision x y a : Decision (pixel_cell x y a).
Proof. unfold pixel_cell. apply _. Defined.

Lemma depth_place size : BytesPerDepthPixel (depth_format r) = Some size -> size = ds.
Proof. destruct O as [_ _ _ [_ E] _ _ _]. congruence. Qed.

Lemma in_depth_cell x y i : 0 <= i < ds -> depth_cell r db do ds x y (db, do + place_of r x y * ds + i).
Proof. intros Hi. unfold depth_cell, cell. cbn. split; [done|]. nia. Qed.

Ltac open_depth :=
  pose proof O as [_ _ _ [Db Ds] _ _ _];
  match goal with |- context [BytesPerDepthPixel (depth_format r)] => rewrite Ds end; rewrite Db; cbn [mbind option_bind ptr_add].

Lemma GetDepth_reads x y : inside r x y -> reads (depth_cell r db do ds x y) (fun m => GetDepth r fb m x y).
Proof.
  intros I. pose proof (depth_size _ _ _ _ _ _ _ _ O) as Sz. unfold GetDepth. pose proof (pixel_offset_place _ _ _ _ _ _ _ _ O ds x y I ltac:(lia)) as P.
  open_depth. rewrite P. destruct (depth_format r); cbn in Ds; first [discriminate Ds|injection Ds as E]; try (apply reads_const);
    apply reads_fmap, reads_load; intros i Hi; apply in_depth_cell; lia.
Qed.
Lemma GetStencil_reads x y : inside r x y -> reads (depth_cell r db do ds x y) (fun m => GetStencil r fb m x y).
Proof.
  intros I. pose proof (depth_size _ _ _ _ _ _ _ _ O) as Sz. unfold GetStencil. pose proof (pixel_offset_place _ _ _ _ _ _ _ _ O ds x y I ltac:(lia)) as P.
  open_depth. rewrite P. destruct (depth_format r); cbn in Ds; first [discriminate Ds|injection Ds as E]; try (apply reads_const).
  apply reads_fmap, reads_load; intros i Hi; apply in_depth_cell; lia.
Qed.
Lemma SetDepth_writes x y v : inside r x y -> writes (depth_cell r db do ds x y) (fun m => SetDepth r fb m x y v).
Proof.
  intros I. pose proof (depth_size _ _ _ _ _ _ _ _ O) as Sz. unfold SetDepth. pose proof (pixel_offset_place _ _ _ _ _ _ _ _ O ds x y I ltac:(lia)) as P.
  open_depth. rewrite P. destruct (depth_format r); cbn in Ds; first [discriminate Ds|injection Ds as E]; try apply writes_ret;
    apply writes_store; unfold EncodeD16; rewrite ?length_le_split; cbn [length EncodeD24 EncodeD24X8]; intros i Hi; apply in_depth_cell; lia.
Qed.
Lemma SetStencil_writes x y v : inside r x y -> writes (depth_cell r db do ds x y) (fun m => SetStencil r fb m x y v).
Proof.
  intros I. pose proof (depth_size _ _ _ _ _ _ _ _ O) as Sz. unfold SetStencil. pose proof (pixel_offset_place _ _ _ _ _ _ _ _ O ds x y I ltac:(lia)) as P.
  open_depth. rewrite P. destruct (depth_format r); cbn in Ds; first [discriminate Ds|injection Ds as E]; try apply writes_ret.
  apply writes_store. cbn [length EncodeX24S8]. intros i Hi. rewrite <- Z.add_assoc. apply in_depth_cell. lia.
Qed.

(** The bits of a depth. *)
Definition depth_modulus : Z := match depth_format r with DepthFormat.D16 => 2 ^ 16 | _ => 2 ^ 24 end.

Lemma SetDepth_GetDepth m x y v : inside r x y -> ∃ m', SetDepth r fb m x y v = Some m' ∧ GetDepth r fb m' x y = Some (v mod depth_modulus) ∧
  GetStencil r fb m' x y = GetStencil r fb m x y.
Proof.
  intros I. pose proof (depth_size _ _ _ _ _ _ _ _ O) as Sz. destruct (depth_fits _ _ _ _ _ _ _ _ O x y I) as [F1 F2].
  pose proof (pixel_offset_place _ _ _ _ _ _ _ _ O ds x y I ltac:(lia)) as P. unfold SetDepth, GetDepth, GetStencil, depth_modulus.
  pose proof O as [_ _ _ [Db Ds] _ _ _]. rewrite Ds, Db. cbn [mbind option_bind ptr_add]. rewrite P.
  destruct (depth_format r); cbn in Ds; first [discriminate Ds|injection Ds as E].
  - destruct (load_store_same m db (do + place_of r x y * ds) (EncodeD16 v) 2) as (m' & S & L); [lia|cbn [length EncodeD16]; unfold EncodeD16; rewrite length_le_split; lia|done|].
    exists m'. rewrite S, L. cbn [fmap option_fmap option_map]. split; [done|]. split; [|done]. f_equal. apply decode_D16.
  - destruct (load_store_same m db (do + place_of r x y * ds) (EncodeD24 v) 3) as (m' & S & L); [lia|cbn; lia|done|].
    exists m'. rewrite S, L. split; [done|]. split; [|done]. cbn [fmap option_fmap option_map]. f_equal. apply decode_D24.
  - unfold store, load. cbn [mbind option_bind]. rewrite !(proj2 (in_block_spec db _ _)) by (cbn [length EncodeD24X8]; lia).
    eexists. split; [reflexivity|]. change 4%nat with (3 + 1)%nat. rewrite !bytes_at_app.
    change 3%nat with (length (EncodeD24X8 v)) at 1 3 5. rewrite !bytes_at_put.
    rewrite (bytes_at_put_other _ _ _ _ _ (do + place_of r x y * ds + Z.of_nat 3)) by (cbn [length EncodeD24X8]; lia).
    split.
    + cbn [fmap option_fmap option_map]. f_equal. unfold DecodeD24S8. cbn [fst]. unfold EncodeD24X8. cbn [app]. etrans; [apply DecodeD24_ignores|apply decode_D24].
    + done.
Qed.
Lemma SetStencil_GetStencil m x y v : inside r x y -> depth_format r = DepthFormat.D24S8 -> ∃ m', SetStencil r fb m x y v = Some m' ∧
  GetStencil r fb m' x y = Some v ∧ GetDepth r fb m' x y = GetDepth r fb m x y.
Proof.
  intros I F. destruct (depth_fits _ _ _ _ _ _ _ _ O x y I) as [F1 F2].
  pose proof O as [_ _ _ [Db Ds] _ _ _]. rewrite F in Ds. injection Ds as E.
  pose proof (pixel_offset_place _ _ _ _ _ _ _ _ O ds x y I ltac:(lia)) as P. unfold SetStencil, GetStencil, GetDepth.
  rewrite F, Db. cbn [mbind option_bind ptr_add BytesPerDepthPixel]. rewrite E, P.
  unfold store, load. cbn [mbind option_bind]. rewrite !(proj2 (in_block_spec db _ _)) by (cbn [length EncodeX24S8]; lia).
  eexists. split; [reflexivity|]. change 4%nat with (3 + 1)%nat. rewrite !bytes_at_app.
  rewrite (bytes_at_put_other _ _ _ _ _ (do + place_of r x y * ds) 3) by (cbn [length EncodeX24S8]; lia).
  replace (do + place_of r x y * ds + Z.of_nat 3) with (do + place_of r x y * ds + 3) by lia.
  change 1%nat with (length (EncodeX24S8 v)) at 1. rewrite bytes_at_put. by split.
Qed.

(** ** Any order *)

Lemma update_stencil_writes om x y old action : inside r x y -> writes (depth_cell r db do ds x y) (fun m => update_stencil r om fb m x y old action).
Proof. intros I. unfold update_stencil. destruct (nz _); [by apply SetStencil_writes|apply writes_ret]. Qed.

Lemma DoDepthStencilTest_stays om x y depth : inside r (x ≫ 4) (y ≫ 4) ->
  stays (depth_cell r db do ds (x ≫ 4) (y ≫ 4)) (fun m => DoDepthStencilTest r om fb m x y depth).
Proof.
  intros I. unfold DoDepthStencilTest. set (en := stencil_enable om && _). set (F := depth_cell _ _ _ _ _ _).
  apply (stays_read F (fun m => if en then GetStencil r fb m (x ≫ 4) (y ≫ 4) else Some 0)); [destruct en; [by apply GetStencil_reads|apply reads_const]|].
  intros old. destruct (en && _).
  - apply stays_write; [by apply update_stencil_writes|apply stays_ret].
  - apply (stays_read F (fun _ => depth_number r depth)); [apply reads_const|]. intros z.
    apply (stays_read F (fun m => if depth_test_enable om then ref_z ← GetDepth r fb m (x ≫ 4) (y ≫ 4); Some (compare (depth_test_func om) z ref_z) else Some true)).
    { destruct (depth_test_enable om); [|apply reads_const]. apply reads_bind; [by apply GetDepth_reads|intros ref_z; apply reads_const]. }
    intros pass. destruct (negb pass).
    + apply (stays_write F (fun m => if en then update_stencil r om fb m (x ≫ 4) (y ≫ 4) old (action_depth_fail om) else Some m));
        [destruct en; [by apply update_stencil_writes|apply writes_ret]|apply stays_ret].
    + apply (stays_write F (fun m => if nz (allow_depth_stencil_write r) && depth_write_enable om then SetDepth r fb m (x ≫ 4) (y ≫ 4) z else Some m));
        [destruct (nz (allow_depth_stencil_write r) && depth_write_enable om); [by apply SetDepth_writes|apply writes_ret]|].
      apply (stays_write F (fun m => if en then update_stencil r om fb m (x ≫ 4) (y ≫ 4) old (action_depth_pass om) else Some m));
        [destruct en; [by apply update_stencil_writes|apply writes_ret]|apply stays_ret].
Qed.

(** A pixel touches its own bytes only. *)
Lemma output_pixel_writes om fog x y depth c : inside r (x ≫ 4) (y ≫ 4) ->
  writes (pixel_cell (x ≫ 4) (y ≫ 4)) (fun m => output_pixel r om fb fog m x y depth c).
Proof.
  intros I. unfold output_pixel. destruct (negb _); [apply writes_ret|].
  apply writes_read with (f := fun _ => WriteFog fog depth c); [apply reads_const|]. intros c'.
  apply (writes_bind _ (fun m => DoDepthStencilTest r om fb m x y depth));
    [apply (stays_weaken (depth_cell r db do ds (x ≫ 4) (y ≫ 4))); [apply _|by intros a Ha; right|by apply DoDepthStencilTest_stays]|]. intros pass. destruct pass; [|apply writes_ret].
  apply writes_read.
  - unfold PixelColor. apply (reads_weaken (color_cell r cb co cs (x ≫ 4) (y ≫ 4))); [by intros a Ha; left|].
    apply reads_bind; [by apply (GetPixel_reads r fb cb db co do cs ds O)|intros dest; apply reads_const].
  - intros result. destruct (nz _); [|apply writes_ret]. apply (stays_weaken (color_cell r cb co cs (x ≫ 4) (y ≫ 4))); [apply _|by intros a Ha; left|].
    by apply (DrawPixel_writes r fb cb db co do cs ds O).
Qed.

Lemma pixel_cells_apart x y x' y' : inside r x y -> inside r x' y' -> (x, y) ≠ (x', y') -> ∀ a, pixel_cell x y a -> ¬ pixel_cell x' y' a.
Proof.
  intros I I' N a [C|D] [C'|D'].
  - by apply (color_cells_apart r fb cb db co do cs ds O x y x' y' I I' N a C).
  - by apply (color_depth_apart r fb cb db co do cs ds O x y x' y' I I' a C).
  - by apply (color_depth_apart r fb cb db co do cs ds O x' y' x y I' I a C').
  - by apply (depth_cells_apart r fb cb db co do cs ds O x y x' y' I I' N a D).
Qed.
End buffers.

(** The pixels that a triangle leaves, with their depths and colours. *)
Record Pixel := mk_Pixel { px : Z; py : Z; pixel_depth : f32; pixel_color : Vec4 }.
Definition place (p : Pixel) : Z * Z := (px p ≫ 4, py p ≫ 4).

Fixpoint output_pixels (r : FramebufferConfig) (om : OutputMerger) (fb : Framebuffer) (fog : Fog) (ps : list Pixel) (m : Bytes) : option Bytes :=
  match ps with
  | [] => Some m
  | p :: ps => m ← output_pixel r om fb fog m (px p) (py p) (pixel_depth p) (pixel_color p); output_pixels r om fb fog ps m
  end.

(** C26: The pixels of a triangle, which the lines of a triangle handle on several threads, leave the same colours, depths and
    stencils in every order, whatever the tests, the fog and the blending are. *)
Theorem pixels_in_any_order r om fb fog cb db co do cs ds ps ps' m : fb_ok r fb cb db co do cs ds ->
  Forall (fun p => inside r (px p ≫ 4) (py p ≫ 4)) ps -> NoDup (place <$> ps) -> Permutation ps ps' ->
  output_pixels r om fb fog ps m = output_pixels r om fb fog ps' m.
Proof.
  intros O I N P. revert m. induction P as [|p ps ps' P IH|p q ps|ps1 ps2 ps3 P1 IH1 P2 IH2]; intros m.
  - done.
  - cbn in N. apply NoDup_cons in N as [_ N]. apply Forall_cons in I as [_ I]. cbn [output_pixels].
    destruct (output_pixel _ _ _ _ _ _ _ _ _) as [m1|]; [|done]. by apply IH.
  - cbn in N. apply NoDup_cons in N as [Nq N]. apply Forall_cons in I as [Iq I]. apply Forall_cons in I as [Ip I]. cbn [output_pixels].
    pose proof (output_pixel_writes r fb cb db co do cs ds O om fog (px p) (py p) (pixel_depth p) (pixel_color p) Ip) as Wp.
    pose proof (output_pixel_writes r fb cb db co do cs ds O om fog (px q) (py q) (pixel_depth q) (pixel_color q) Iq) as Wq.
    pose proof (writes_commute (pixel_cell r cb db co do cs ds (px p ≫ 4) (py p ≫ 4)) (pixel_cell r cb db co do cs ds (px q ≫ 4) (py q ≫ 4)) _ _ m Wp Wq
      (pixel_cells_apart r fb cb db co do cs ds O _ _ _ _ Ip Iq ltac:(intros E; apply Nq; apply elem_of_cons; by left))) as C.
    cbn beta in C. destruct (output_pixel r om fb fog m (px q) (py q) _ _) as [m1|], (output_pixel r om fb fog m (px p) (py p) _ _) as [m2|]; cbn in C |- *;
      rewrite ?C; try done.
    + by rewrite <- C.
  - rewrite IH1 by done. apply IH2; [by rewrite <- P1|]. by rewrite <- P1.
Qed.
