(* ===== verification/GraphicsExamples.v ===== *)
(** A texture of two tiles in both decoders, and back. *)

From Stdlib Require Import SpecFloat Permutation.
From S2P Require Import Prelude Color Texture Float32 Memory MemoryFacts Framebuffer Fragment.

(** 16 by 8 pixels of RGB565, with every byte its own number. *)
Definition small_texture : list Z := seqZ 0 256.
Definition no_lines : list Z := replicate 512 0.

Lemma texture_decoders_agree_witness : ∃ lines,
  MortonDecode PixelFormat.RGB565 true 16 8 0 256 no_lines small_texture = Some lines ∧
  get_span lines (((8 - 1 - 2) * 16 + 11) * 4) 4 = Some (rgba_bytes (mk_Vec4 156 113 214 255)).
Proof.
  destruct (texture_decoders_agree PixelFormat.RGB565 true RGB565 2 1 0x20000000 no_lines small_texture eq_refl ltac:(lia) ltac:(lia) ltac:(lia)
    ltac:(by_decide) ltac:(reflexivity) ltac:(reflexivity)) as (lines & D & P).
  exists lines. split; [exact D|]. destruct (P 11 2 ltac:(lia) ltac:(lia)) as (c & L & G).
  vm_compute in L. injection L as <-. exact G.
Defined.


(** Part of a tile is encoded over a buffer of its own. *)
Example encode_part_of_a_tile : 
  match MortonDecode PixelFormat.RGBA8 true 8 8 0 256 (replicate 256 0) small_texture with
  | Some lines => MortonEncode PixelFormat.RGBA8 true 8 8 20 44 lines (replicate 24 0) = Some (seqZ 20 24)
  | None => False
  end.
Proof. vm_compute. reflexivity. Qed.

(** A block of ETC1 with a differential base. *)
Example etc1_differential : SampleETC1Subtile 0xF8_00_F8_02_0000_0000 0 0 = mk_Vec3 255 2 255.
Proof. vm_compute. reflexivity. Qed.
(** The second base of a block can leave its five bits: it wraps around in eight. *)
Example etc1_overflow : SampleETC1Subtile 0xFB_00_00_02_0000_0000 3 0 = mk_Vec3 26 2 2.
Proof. vm_compute. reflexivity. Qed.
Example depth_of_24_bits : EncodePixel PixelFormat.D24 true (DecodePixel PixelFormat.D24 true [0x56; 0x34; 0x12]) = Some [0x56; 0x34; 0x12].
Proof. vm_compute. reflexivity. Qed.

(** * Two pixels of a small framebuffer, in either order. *)

(** Eight by eight pixels of RGBA8 and D24S8 in the memory of the GPU. *)
Definition small_config : FramebufferConfig := mk_FramebufferConfig 1 1 DepthFormat.D24S8 ColorFormat.RGBA8 (0x18001000 / 8) (0x18000000 / 8) 8 7.
Definition small_fb : Framebuffer := mk_Framebuffer 0x18000000 (Some (VRAM, 0)) 0x18001000 (Some (VRAM, 4096)).

Lemma small_fb_ok : fb_ok small_config small_fb VRAM VRAM 0 4096 4 4.
Proof. split; by_decide. Qed.

(** Blending by the alpha of the source, a depth that must be greater, a stencil that counts. *)
Definition small_merger : OutputMerger :=
  mk_OutputMerger true BE_Add BE_Add BF_SourceAlpha BF_OneMinusSourceAlpha BF_One BF_Zero LO_Copy (mk_Vec4 0 0 0 0)
    true CF_GreaterThan 10 true CF_Always 255 1 255 SA_Keep SA_Keep SA_Increment true CF_GreaterThan true true true true true.
Definition no_fog : Fog := mk_Fog false false (mk_Vec3 0 0 0) [].

Definition half_depth : f32 := f32_of_bits 0x3F000000.
Definition two_pixels : list Pixel :=
  [mk_Pixel 8 8 half_depth (mk_Vec4 255 128 0 128); mk_Pixel 24 8 half_depth (mk_Vec4 10 20 30 255)].

Example bound : Bind small_config (mk_Framebuffer 0 None 0 None) = Some small_fb.
Proof. vm_compute. reflexivity. Qed.

Lemma pixels_in_any_order_witness :
  output_pixels small_config small_merger small_fb no_fog two_pixels ∅ = output_pixels small_config small_merger small_fb no_fog (rev two_pixels) ∅ ∧
  (m ← output_pixels small_config small_merger small_fb no_fog two_pixels ∅; GetPixel small_config small_fb m 0 0) = Some (mk_Vec4 128 64 0 128) ∧
  (m ← output_pixels small_config small_merger small_fb no_fog two_pixels ∅; GetStencil small_config small_fb m 1 0) = Some 1.
Proof.
  split; [|split; vm_compute; reflexivity].
  apply (pixels_in_any_order small_config small_merger small_fb no_fog VRAM VRAM 0 4096 4 4 two_pixels (rev two_pixels) ∅ small_fb_ok).
  - by_decide.
  - by_decide.
  - apply Permutation_rev.
Defined.

(** An alpha that fails its test, and a depth that is not greater. *)
Example alpha_fails : output_pixel small_config small_merger small_fb no_fog ∅ 8 8 half_depth (mk_Vec4 255 255 255 10) = Some ∅.
Proof. vm_compute. reflexivity. Qed.
Example depth_fails :
  (m ← output_pixels small_config small_merger small_fb no_fog (two_pixels ++ two_pixels) ∅; GetStencil small_config small_fb m 1 0) = Some 1.
Proof. vm_compute. reflexivity. Qed.
