(* ===== verification/Raster.v ===== *)
(** The pixels of a triangle: [sw_clipper.cpp]'s edges and fill rule, and the loops of
    [RasterizerSoftware::ProcessTriangle] in [sw_rasterizer.cpp]; clipping of a polygon
    against one plane.  A vertex is its position in sixteenths of a pixel. *)

From Stdlib Require Import SpecFloat.
From S2P Require Import Prelude Float32.

(** ** Numbers of twelve bits and four of a fraction *)

(** [round]: the half away from zero. *)
Definition f32_round (x : f32) : option Z :=
  match x with
  | S754_zero _ => Some 0
  | S754_finite s m e =>
      let v := if 0 <=? e then Zpos m * 2 ^ e else (2 * Zpos m + 2 ^ (- e)) / (2 * 2 ^ (- e)) in Some (if s then - v else v)
  | _ => None
  end.
(** The cast leaves a number outside of the range undefined. *)
(* src: video_core/renderer_software/sw_clipper.h | static Fix12P4 FromFloat24(f24 flt) { *)
Definition FromFloat24 (flt : f32) : option Z :=
  v ← f32_round (f32_mul flt (f32_of_Z 16)); if (0 <=? v) && (v <? 2 ^ 16) then Some v else None.
(* src: video_core/renderer_software/sw_clipper.h | static u16 FracMask() { *)
Definition FracMask : Z := 0xF.
(* src: video_core/renderer_software/sw_clipper.h | static u16 IntMask() { *)
Definition IntMask : Z := unot 16 0xF.

(* src: video_core/renderer_software/sw_rasterizer.cpp | static auto screen_to_rasterizer_coords = [](const Common::Vec3<f24>& vec) { *)
Record Vertex := mk_Vertex { vtx_x : Z; vtx_y : Z }.
#[global] Instance Vertex_eq_dec : EqDecision Vertex.
Proof. solve_decision. Defined.

(** ** Edges *)

(** Twice the area of a triangle, positive against the clock; the differences are [int]s
    and their products wrap around. *)
(* src: video_core/renderer_software/sw_clipper.cpp | int SignedArea(const Common::Vec2<Fix12P4>& vtx1, const Common::Vec2<Fix12P4>& vtx2, *)
Definition SignedArea (vtx1 vtx2 vtx3 : Vertex) : Z :=
  let vec1x := vtx_x vtx2 - vtx_x vtx1 in
  let vec1y := vtx_y vtx2 - vtx_y vtx1 in
  let vec2x := vtx_x vtx3 - vtx_x vtx1 in
  let vec2y := vtx_y vtx3 - vtx_y vtx1 in
  s32 (s32 (vec1x * vec2y) - s32 (vec1y * vec2x)).

(** Whether an edge is one whose pixels belong to the other side. *)
(* src: video_core/renderer_software/sw_clipper.cpp | bool IsRightSideOrFlatBottomEdge(const Common::Vec2<Fix12P4>& vtx, *)
Definition IsRightSideOrFlatBottomEdge (vtx line1 line2 : Vertex) : bool :=
  if vtx_y line1 =? vtx_y line2 then vtx_y vtx <? vtx_y line1
  else
    vtx_x vtx <? s32 (vtx_x line1 + Z.quot (s32 ((vtx_x line2 - vtx_x line1) * (vtx_y vtx - vtx_y line1))) (vtx_y line2 - vtx_y line1)).

(** ** Triangles *)

(* src: video_core/pica/regs_rasterizer.h | enum class CullMode : u32 { *)
Inductive CullMode := KeepAll | KeepClockWise | KeepCounterClockWise | CullMode3.
(* src: video_core/pica/regs_rasterizer.h | enum class ScissorMode : u32 { *)
Inductive ScissorMode := Scissor_Disabled | Scissor_Exclude | Scissor_2 | Scissor_Include.
(** The corners of the scissor box are ten bits. *)
(* src: video_core/pica/regs_rasterizer.h | BitField<0, 2, ScissorMode> mode; | scissor_test | +10 *)
Record RasterizerRegs := mk_RasterizerRegs {
  cull_mode : CullMode; scissor_mode : ScissorMode;
  scissor_x1 : Z; scissor_y1 : Z; scissor_x2 : Z; scissor_y2 : Z
}.
Implicit Types (r : RasterizerRegs).

(** Whether a triangle is drawn with its last two vertices exchanged, or nothing when it
    is culled.  The call for the reversed order does not reverse again. *)
(* src: video_core/renderer_software/sw_rasterizer.cpp | if (regs.rasterizer.cull_mode == RasterizerRegs::CullMode::KeepAll) { | ProcessTriangle | +17 *)
Definition wound r (v0 v1 v2 : Vertex) : option bool :=
  match cull_mode r with
  | KeepAll => Some (SignedArea v0 v1 v2 <=? 0)
  | KeepClockWise => if SignedArea v0 v2 v1 <=? 0 then None else Some true
  | _ => if SignedArea v0 v1 v2 <=? 0 then None else Some false
  end.
Definition exchange {A : Type} (reversed : bool) (v0 v1 v2 : A) : A * A * A := if reversed then (v0, v2, v1) else (v0, v1, v2).

Record Bounds := mk_Bounds { min_x : Z; min_y : Z; max_x : Z; max_y : Z }.
(* src: video_core/renderer_software/sw_rasterizer.cpp | const u16 scissor_x1 = static_cast<u16>(regs.rasterizer.scissor_test.x1 << 4); *)
Definition box_x1 r : Z := u16 (scissor_x1 r ≪ 4).
(* src: video_core/renderer_software/sw_rasterizer.cpp | const u16 scissor_y1 = static_cast<u16>(regs.rasterizer.scissor_test.y1 << 4); *)
Definition box_y1 r : Z := u16 (scissor_y1 r ≪ 4).
(* src: video_core/renderer_software/sw_rasterizer.cpp | const u16 scissor_x2 = static_cast<u16>((regs.rasterizer.scissor_test.x2 + 1) << 4); *)
Definition box_x2 r : Z := u16 ((scissor_x2 r + 1) ≪ 4).
(* src: video_core/renderer_software/sw_rasterizer.cpp | const u16 scissor_y2 = static_cast<u16>((regs.rasterizer.scissor_test.y2 + 1) << 4); *)
Definition box_y2 r : Z := u16 ((scissor_y2 r + 1) ≪ 4).
Definition min3 (a b c : Z) : Z := Z.min (Z.min a b) c.
Definition max3 (a b c : Z) : Z := Z.max (Z.max a b) c.

(* src: video_core/renderer_software/sw_rasterizer.cpp | u16 min_x = std::min({vtxpos[0].x, vtxpos[1].x, vtxpos[2].x}); | ProcessTriangle | ..max_y = ((max_y + Fix12P4::FracMask()) & Fix12P4::IntMask()); *)
Definition bounds r (v0 v1 v2 : Vertex) : Bounds :=
  let b := mk_Bounds (min3 (vtx_x v0) (vtx_x v1) (vtx_x v2)) (min3 (vtx_y v0) (vtx_y v1) (vtx_y v2))
             (max3 (vtx_x v0) (vtx_x v1) (vtx_x v2)) (max3 (vtx_y v0) (vtx_y v1) (vtx_y v2)) in
  let b := match scissor_mode r with
    | Scissor_Include => mk_Bounds (Z.max (min_x b) (box_x1 r)) (Z.max (min_y b) (box_y1 r)) (Z.min (max_x b) (box_x2 r)) (Z.min (max_y b) (box_y2 r))
    | _ => b
    end in
  mk_Bounds (min_x b .& IntMask) (min_y b .& IntMask) (u16 ((max_x b + FracMask) .& IntMask)) (u16 ((max_y b + FracMask) .& IntMask)).

(** The turns of a loop over centers of pixels. *)
(* src: video_core/renderer_software/sw_rasterizer.cpp | for (u16 y = min_y + 8; y < max_y; y += 0x10) { | ProcessTriangle | +1 *)
Fixpoint centers (fuel : nat) (x max : Z) : option (list Z) :=
  match fuel with
  | O => None
  | S fuel => if x <? max then cons x <$> centers fuel (u16 (x + 0x10)) max else Some []
  end.
(** As many turns as there are centers in sixteen bits, and one that ends. *)
Definition center_turns : nat := 4097.

(** A pixel and its weights. *)
Record Coverage := mk_Coverage { cov_x : Z; cov_y : Z; cov_w0 : Z; cov_w1 : Z; cov_w2 : Z }.

Section triangle.
Context (r : RasterizerRegs) (v0 v1 v2 : Vertex).

(* src: video_core/renderer_software/sw_rasterizer.cpp | if (regs.rasterizer.scissor_test.mode == RasterizerRegs::ScissorMode::Exclude) { | ProcessTriangle | +5 *)
Definition excluded (x y : Z) : bool :=
  match scissor_mode r with
  | Scissor_Exclude => (box_x1 r <=? x) && (x <? box_x2 r) && (box_y1 r <=? y) && (y <? box_y2 r)
  | _ => false
  end.

(* src: video_core/renderer_software/sw_rasterizer.cpp | const int bias0 = | ProcessTriangle | +6 *)
Definition bias (vtx line1 line2 : Vertex) : Z := if IsRightSideOrFlatBottomEdge vtx line1 line2 then -1 else 0.

(* src: video_core/renderer_software/sw_rasterizer.cpp | // Calculate the barycentric coordinates w0, w1 and w2 | ProcessTriangle | +10 *)
Definition covered (x y : Z) : option Coverage :=
  let p := mk_Vertex x y in
  let w0 := s32 (bias v0 v1 v2 + SignedArea v1 v2 p) in
  let w1 := s32 (bias v1 v2 v0 + SignedArea v2 v0 p) in
  let w2 := s32 (bias v2 v0 v1 + SignedArea v0 v1 p) in
  if excluded x y then None
  else if (w0 <? 0) || (w1 <? 0) || (w2 <? 0) then None else Some (mk_Coverage x y w0 w1 w2).

(* src: video_core/renderer_software/sw_rasterizer.cpp | for (u16 x = min_x + 8; x < max_x; x += 0x10) { | ProcessTriangle | +19 *)
Definition line (xs : list Z) (y : Z) : list Coverage := omap (fun x => covered x y) xs.

(** The pixels of a triangle in the order of one thread. *)
(* src: video_core/renderer_software/sw_rasterizer.cpp | for (u16 y = min_y + 8; y < max_y; y += 0x10) { | ProcessTriangle | +21 *)
Definition scan : option (list Coverage) :=
  let b := bounds r v0 v1 v2 in
  ys ← centers center_turns (u16 (min_y b + 8)) (max_y b);
  xs ← centers center_turns (u16 (min_x b + 8)) (max_x b);
  Some (ys ≫= line xs).
End triangle.

(* src: video_core/renderer_software/sw_rasterizer.cpp | void RasterizerSoftware::ProcessTriangle(const Vertex& v0, const Vertex& v1, const Vertex& v2, | ProcessTriangle | +33 *)
Definition ProcessTriangle r (v0 v1 v2 : Vertex) : option (list Coverage) :=
  match wound r v0 v1 v2 with
  | Some reversed => let '(a, b, c) := exchange reversed v0 v1 v2 in scan r a b c
  | None => Some []
  end.

(** ** Clipping *)

Section clip.
Context {V : Type} (IsInside : V -> bool) (GetIntersection : V -> V -> V).

(** [IsOutSide] is [!IsInside]. *)
(* src: video_core/renderer_software/sw_rasterizer.cpp | for (const auto& vertex : *input_list) { | AddTriangle | +12 *)
Fixpoint clip_from (reference : V) (input_list : list V) : list V :=
  match input_list with
  | [] => []
  | vertex :: rest =>
      (if IsInside vertex then (if IsInside reference then [] else [GetIntersection vertex reference]) ++ [vertex]
       else if IsInside reference then [GetIntersection vertex reference] else [])
      ++ clip_from vertex rest
  end.
(* src: video_core/renderer_software/sw_rasterizer.cpp | const auto clip = [&](const ClippingEdge& edge) { | AddTriangle *)
Definition clip (input_list : list V) : option (list V) :=
  reference ← last input_list; Some (clip_from reference input_list).
End clip.

(** The fan of triangles of a polygon. *)
(* src: video_core/renderer_software/sw_rasterizer.cpp | for (std::size_t i = 0; i < output_list->size() - 2; i++) { | AddTriangle | +4 *)
Fixpoint fan_from {V : Type} (v0 v1 : V) (rest : list V) : list (V * V * V) :=
  match rest with [] => [] | v2 :: rest => (v0, v1, v2) :: fan_from v0 v2 rest end.
(* src: video_core/renderer_software/sw_rasterizer.cpp | for (std::size_t i = 0; i < output_list->size() - 2; i++) { | AddTriangle | +4 *)
Definition fan {V : Type} (polygon : list V) : list (V * V * V) :=
  match polygon with v0 :: v1 :: rest => fan_from v0 v1 rest | _ => [] end.

(** * A triangle covers the pixels whose centers are inside of its edges, each once; two
    triangles that share an edge never both draw a pixel of it. *)

Implicit Types (a b c p : Vertex).

(** ** Exact edges *)

(** The plane on which the products stay in their width. *)
Definition small p : Prop := 0 <= vtx_x p < 2 ^ 15 ∧ 0 <= vtx_y p < 2 ^ 15.
#[export] Instance small_dec p : Decision (small p).
Proof. unfold small. apply _. Defined.

(** On which side of the edge from [a] to [b] a point is. *)
Definition edge a b p : Z := (vtx_x b - vtx_x a) * (vtx_y p - vtx_y a) - (vtx_y b - vtx_y a) * (vtx_x p - vtx_x a).

Lemma product_bound x y n : 0 <= n -> - n <= x <= n -> - n <= y <= n -> - (n * n) <= x * y <= n * n.
Proof. nia. Qed.
Lemma edge_products a b p : small a -> small b -> small p ->
  - 1073676289 <= (vtx_x b - vtx_x a) * (vtx_y p - vtx_y a) <= 1073676289 ∧
  - 1073676289 <= (vtx_y b - vtx_y a) * (vtx_x p - vtx_x a) <= 1073676289.
Proof. intros [? ?] [? ?] [? ?]. pow2. split; apply (product_bound _ _ (2 ^ 15 - 1)); pow2; lia. Qed.
Lemma edge_bound a b p : small a -> small b -> small p -> - 2 ^ 31 < edge a b p < 2 ^ 31.
Proof. intros Ha Hb Hp. pose proof (edge_products a b p Ha Hb Hp). unfold edge. pow2. lia. Qed.
Lemma SignedArea_edge a b p : small a -> small b -> small p -> SignedArea a b p = edge a b p.
Proof.
  intros Ha Hb Hp. pose proof (edge_products a b p Ha Hb Hp). unfold SignedArea, edge. cbv zeta.
  rewrite !(swrap_id 32 (_ * _)) by (unfold in_srange; lia). apply swrap_id; unfold in_srange; lia.
Qed.

Lemma edge_swap a b p : edge b a p = - edge a b p.
Proof. unfold edge. ring. Qed.
Lemma edge_cycle a b c : edge b c a = edge a b c.
Proof. unfold edge. ring. Qed.
(** The weights of a point add up to the area, and weigh the vertices to the point. *)
Lemma edge_sum a b c p : edge b c p + edge c a p + edge a b p = edge a b c.
Proof. unfold edge. ring. Qed.
Lemma edge_x a b c p : edge b c p * vtx_x a + edge c a p * vtx_x b + edge a b p * vtx_x c = edge a b c * vtx_x p.
Proof. unfold edge. ring. Qed.
Lemma edge_y a b c p : edge b c p * vtx_y a + edge c a p * vtx_y b + edge a b p * vtx_y c = edge a b c * vtx_y p.
Proof. unfold edge. ring. Qed.

Lemma weighted_mean w0 w1 w2 x0 x1 x2 x : 0 <= w0 -> 0 <= w1 -> 0 <= w2 -> 0 < w0 + w1 + w2 ->
  w0 * x0 + w1 * x1 + w2 * x2 = (w0 + w1 + w2) * x -> min3 x0 x1 x2 <= x <= max3 x0 x1 x2.
Proof.
  intros H0 H1 H2 Hs E. unfold min3, max3.
  assert (L : ∀ m, (m <= x0 -> m <= x1 -> m <= x2 -> m <= x)) by (intros m ? ? ?; assert ((w0 + w1 + w2) * m <= (w0 + w1 + w2) * x) by nia; nia).
  assert (U : ∀ m, (x0 <= m -> x1 <= m -> x2 <= m -> x <= m)) by (intros m ? ? ?; assert ((w0 + w1 + w2) * x <= (w0 + w1 + w2) * m) by nia; nia).
  split; [apply L; lia|apply U; lia].
Qed.

(** ** Loops over centers *)

(** The [k]-th center. *)
Definition center (k : Z) : Z := 16 * k + 8.

Lemma centers_spec fuel k n : 0 <= k -> 0 <= n < 2 ^ 12 -> (0 < fuel)%nat -> n - k < Z.of_nat fuel ->
  centers fuel (center k) (16 * n) = Some (center <$> seqZ k (n - k)).
Proof.
  revert k. induction fuel as [|fuel IH]; intros k Hk Hn Hf Hl; [lia|].
  cbn [centers]. unfold center at 1. zcases.
  - rewrite (uwrap_id 16) by (unfold in_range, center; lia). replace (center k + 16) with (center (k + 1)) by (unfold center; lia).
    rewrite IH by lia. rewrite (seqZ_cons k (n - k)) by lia. cbn. do 3 f_equal; f_equal; lia.
  - rewrite seqZ_nil by lia. done.
Qed.

Lemma centers_turns k n : 0 <= k -> 0 <= n < 2 ^ 12 -> centers center_turns (center k) (16 * n) = Some (center <$> seqZ k (n - k)).
Proof. intros. apply centers_spec; unfold center_turns; lia. Qed.
Lemma elem_of_centers k n x : x ∈ center <$> seqZ k (n - k) <-> x mod 16 = 8 ∧ 16 * k <= x < 16 * n.
Proof.
  rewrite list_elem_of_fmap. setoid_rewrite elem_of_seqZ. unfold center. split.
  - intros (i & -> & Hi). split; [|lia]. modlia.
  - intros [M Hx]. exists (x / 16). split; modlia.
Qed.
Lemma NoDup_centers k n : NoDup (center <$> seqZ k n).
Proof. apply NoDup_fmap_2; [intros x y; unfold center; lia|apply NoDup_seqZ]. Qed.

Lemma mask_down x : in_range 16 x -> x .& IntMask = 16 * (x / 16).
Proof. intros Hx. change IntMask with ((2 ^ (16 - 4) - 1) * 2 ^ 4). by rewrite (land_high 16 4) by (done || lia). Qed.
Lemma mask_up x : 0 <= x < 2 ^ 15 + 16 -> u16 ((x + FracMask) .& IntMask) = 16 * ((x + 15) / 16).
Proof. intros Hx. unfold FracMask. rewrite mask_down by (unfold in_range; lia). apply uwrap_id. unfold in_range. modlia. Qed.
Lemma u16_center x : 0 <= x < 2 ^ 15 -> u16 (16 * (x / 16) + 8) = center (x / 16).
Proof. intros Hx. unfold center. apply uwrap_id. unfold in_range. modlia. Qed.
(** A center between two numbers is one between their rounded ones. *)
Lemma round_centers lo hi x : x mod 16 = 8 -> (16 * (lo / 16) <= x < 16 * ((hi + 15) / 16) <-> lo < x + 8 ∧ x - 8 < hi).
Proof.
  intros M. assert (E : x = 16 * (x / 16) + 8) by modlia. set (k := x / 16) in *. clearbody k. subst x. clear M.
  split; intros [? ?]; split; modlia.
Qed.

(** The results of a function over a grid are at different places. *)
Lemma NoDup_grid {A : Type} (f : Z -> Z -> option A) (place : A -> Z * Z) (xs ys : list Z) :
  (∀ x y k, f x y = Some k -> place k = (x, y)) -> NoDup xs -> NoDup ys -> NoDup (place <$> (ys ≫= (fun y => omap (fun x => f x y) xs))).
Proof.
  intros P Nx Ny.
  assert (Row : ∀ (y : Z) (xs : list Z) (q : Z * Z), q ∈ place <$> omap (fun x => f x y) xs -> q.2 = y ∧ q.1 ∈ xs).
  { intros y l q Hq. apply list_elem_of_fmap in Hq as (k & -> & Hk). apply list_elem_of_omap in Hk as (x & Hx & E). by rewrite (P _ _ _ E). }
  induction Ny as [|y ys NI Ny IH]; [constructor|]. cbn. rewrite fmap_app. apply NoDup_app. split; [|split; [|done]].
  - clear IH NI. induction Nx as [|x xs NI Nx IH]; [constructor|]. cbn. destruct (f x y) as [k|] eqn:E; [|done]. cbn.
    constructor; [|done]. intros [_ I]%Row. by rewrite (P _ _ _ E) in I.
  - intros q [<- _]%Row Hq. apply list_elem_of_fmap in Hq as (k & -> & Hk). apply list_elem_of_bind in Hk as (y' & Hk & Hy).
    apply list_elem_of_omap in Hk as (x & Hx & E). rewrite (P _ _ _ E) in NI. done.
Qed.

(** ** Coverage *)

Definition regs_ok r : Prop := Forall (in_range 10) [scissor_x1 r; scissor_y1 r; scissor_x2 r; scissor_y2 r].
#[export] Instance regs_ok_dec r : Decision (regs_ok r).
Proof. unfold regs_ok. apply _. Defined.

(** The scissor box lets a center through. *)
Definition in_box r (x y : Z) : bool :=
  (16 * scissor_x1 r <=? x) && (x <? 16 * (scissor_x2 r + 1)) && (16 * scissor_y1 r <=? y) && (y <? 16 * (scissor_y2 r + 1)).
Definition scissored r (x y : Z) : bool :=
  match scissor_mode r with Scissor_Include => in_box r x y | Scissor_Exclude => negb (in_box r x y) | _ => true end.

Section triangle.
Context (r : RasterizerRegs) (v0 v1 v2 : Vertex).
Context (R : regs_ok r) (S0 : small v0) (S1 : small v1) (S2 : small v2).

Lemma box_exact : box_x1 r = 16 * scissor_x1 r ∧ box_y1 r = 16 * scissor_y1 r ∧ box_x2 r = 16 * (scissor_x2 r + 1) ∧ box_y2 r = 16 * (scissor_y2 r + 1).
Proof.
  unfold box_x1, box_y1, box_x2, box_y2. rewrite !shiftl_mul by lia. apply Forall_cons in R as [? R1]. apply Forall_cons in R1 as [? R2]. apply Forall_cons in R2 as [? R3].
  apply Forall_cons in R3 as [? _]. unfold in_range in *. pow2. split_and!; rewrite uwrap_id; unfold in_range; pow2; lia.
Qed.

(** A point inside of all the edges is inside of the bounds of the vertices. *)
Lemma inside_bounds p : 0 < edge v0 v1 v2 -> 0 <= edge v1 v2 p -> 0 <= edge v2 v0 p -> 0 <= edge v0 v1 p ->
  min3 (vtx_x v0) (vtx_x v1) (vtx_x v2) <= vtx_x p <= max3 (vtx_x v0) (vtx_x v1) (vtx_x v2) ∧
  min3 (vtx_y v0) (vtx_y v1) (vtx_y v2) <= vtx_y p <= max3 (vtx_y v0) (vtx_y v1) (vtx_y v2).
Proof.
  intros A H0 H1 H2. pose proof (edge_sum v0 v1 v2 p) as E.
  split; apply (weighted_mean (edge v1 v2 p) (edge v2 v0 p) (edge v0 v1 p)); try lia; rewrite E; [apply edge_x|apply edge_y].
Qed.

Definition weight (vtx line1 line2 : Vertex) p : Z := bias vtx line1 line2 + edge line1 line2 p.

Lemma bias_range a b c : -1 <= bias a b c <= 0.
Proof. unfold bias. destruct (IsRightSideOrFlatBottomEdge a b c); lia. Qed.
Lemma weight_exact a b c p : small b -> small c -> small p -> s32 (bias a b c + SignedArea b c p) = weight a b c p.
Proof.
  intros Hb Hc Hp. pose proof (bias_range a b c). pose proof (edge_bound b c p Hb Hc Hp). rewrite SignedArea_edge by done.
  unfold weight. apply swrap_id; unfold in_srange; pow2; lia.
Qed.

(** The sides of a pixel that count. *)
Definition covers p : Prop := 0 <= weight v0 v1 v2 p ∧ 0 <= weight v1 v2 v0 p ∧ 0 <= weight v2 v0 v1 p.

Lemma excluded_exact x y : excluded r x y = match scissor_mode r with Scissor_Exclude => in_box r x y | _ => false end.
Proof. unfold excluded, in_box. destruct box_exact as (-> & -> & -> & ->). done. Qed.
Lemma covered_exact x y k : small (mk_Vertex x y) -> covered r v0 v1 v2 x y = Some k <->
  excluded r x y = false ∧ covers (mk_Vertex x y) ∧
  k = mk_Coverage x y (weight v0 v1 v2 (mk_Vertex x y)) (weight v1 v2 v0 (mk_Vertex x y)) (weight v2 v0 v1 (mk_Vertex x y)).
Proof.
  intros Hp. unfold covered, covers. cbv zeta. rewrite !weight_exact by done. destruct (excluded r x y); [naive_solver|].
  set (w0 := weight v0 _ _ _). set (w1 := weight v1 _ _ _). set (w2 := weight v2 _ _ _).
  destruct (Z.ltb_spec w0 0), (Z.ltb_spec w1 0), (Z.ltb_spec w2 0); cbn; split; try (intros [= <-]); try (by intros (_ & ? & ->)); try done; try (intros (_ & ? & _); lia).
Qed.

(** The loops meet every center that the edges cover and the box lets through. *)
Lemma scan_axis (lo hi : Z) : 0 <= lo < 2 ^ 15 -> 0 <= hi < 2 ^ 15 + 1 ->
  ∃ l, centers center_turns (u16 ((lo .& IntMask) + 8)) (u16 ((hi + FracMask) .& IntMask)) = Some l ∧ NoDup l ∧
    ∀ x, x ∈ l <-> x mod 16 = 8 ∧ lo < x + 8 ∧ x - 8 < hi.
Proof.
  intros Hl Hh. rewrite mask_down by (unfold in_range; pow2; lia). rewrite u16_center by done. rewrite mask_up by (pow2; lia).
  rewrite centers_turns by modlia. eexists. split; [reflexivity|]. split; [apply NoDup_centers|].
  intros x. rewrite elem_of_centers. split; intros [M B]; (split; [done|]); by apply round_centers.
Qed.

Lemma bounds_axes : ∃ xs ys,
  centers center_turns (u16 (min_y (bounds r v0 v1 v2) + 8)) (max_y (bounds r v0 v1 v2)) = Some ys ∧
  centers center_turns (u16 (min_x (bounds r v0 v1 v2) + 8)) (max_x (bounds r v0 v1 v2)) = Some xs ∧ NoDup xs ∧ NoDup ys ∧
  ∀ x y, (x ∈ xs ∧ y ∈ ys <-> x mod 16 = 8 ∧ y mod 16 = 8 ∧
    (scissor_mode r = Scissor_Include -> in_box r x y = true) ∧
    min3 (vtx_x v0) (vtx_x v1) (vtx_x v2) < x + 8 ∧ x - 8 < max3 (vtx_x v0) (vtx_x v1) (vtx_x v2) ∧
    min3 (vtx_y v0) (vtx_y v1) (vtx_y v2) < y + 8 ∧ y - 8 < max3 (vtx_y v0) (vtx_y v1) (vtx_y v2)).
Proof.
  destruct S0 as [X0 Y0], S1 as [X1 Y1], S2 as [X2 Y2]. destruct box_exact as (B1 & B2 & B3 & B4).
  apply Forall_cons in R as [r1 R1]. apply Forall_cons in R1 as [r2 R2]. apply Forall_cons in R2 as [r3 R3]. apply Forall_cons in R3 as [r4 _].
  unfold in_range in r1, r2, r3, r4. pow2. unfold bounds, in_box.
  set (lx := min3 (vtx_x v0) _ _). set (ly := min3 (vtx_y v0) _ _). set (hx := max3 (vtx_x v0) _ _). set (hy := max3 (vtx_y v0) _ _).
  assert (Lx : 0 <= lx < 2 ^ 15) by (unfold lx, min3; pow2; lia). assert (Ly : 0 <= ly < 2 ^ 15) by (unfold ly, min3; pow2; lia).
  assert (Hx : 0 <= hx < 2 ^ 15) by (unfold hx, max3; pow2; lia). assert (Hy : 0 <= hy < 2 ^ 15) by (unfold hy, max3; pow2; lia). pow2.
  clearbody lx ly hx hy. destruct (scissor_mode r); cbn [min_x min_y max_x max_y];
    rewrite ?B1, ?B2, ?B3, ?B4;
    match goal with |- context [centers _ (u16 (_ + 8)) (u16 ((?b + FracMask) .& IntMask))] => idtac end;
    match goal with |- ∃ xs ys, centers _ (u16 ((?a .& _) + 8)) (u16 ((?b + _) .& _)) = _ ∧ centers _ (u16 ((?c .& _) + 8)) (u16 ((?d + _) .& _)) = _ ∧ _ =>
      destruct (scan_axis a b ltac:(pow2; lia) ltac:(pow2; lia)) as (ys & Ey & Ny & Iy);
      destruct (scan_axis c d ltac:(pow2; lia) ltac:(pow2; lia)) as (xs & Ex & Nx & Ix) end;
    exists xs, ys; (split; [exact Ey|]); (split; [exact Ex|]); (split; [exact Nx|]); (split; [exact Ny|]);
    intros x y; rewrite Ix, Iy; (split; [intros ((? & ? & ?) & (? & ? & ?)); split_and!; try done; try lia; intros; rewrite !andb_true_iff, !Z.leb_le, !Z.ltb_lt; modlia|]).
  1-3: by intros (? & ? & _ & ? & ? & ? & ?).
  intros (? & ? & I & ? & ? & ? & ?). specialize (I eq_refl). rewrite !andb_true_iff, !Z.leb_le, !Z.ltb_lt in I. split; modlia.
Qed.

Lemma scan_exact : 0 < edge v0 v1 v2 -> ∃ l, scan r v0 v1 v2 = Some l ∧ NoDup ((fun k => (cov_x k, cov_y k)) <$> l) ∧
  ∀ k, k ∈ l <-> cov_x k mod 16 = 8 ∧ cov_y k mod 16 = 8 ∧ scissored r (cov_x k) (cov_y k) = true ∧
    small (mk_Vertex (cov_x k) (cov_y k)) ∧ covers (mk_Vertex (cov_x k) (cov_y k)) ∧
    k = mk_Coverage (cov_x k) (cov_y k) (weight v0 v1 v2 (mk_Vertex (cov_x k) (cov_y k)))
          (weight v1 v2 v0 (mk_Vertex (cov_x k) (cov_y k))) (weight v2 v0 v1 (mk_Vertex (cov_x k) (cov_y k))).
Proof.
  intros A. destruct bounds_axes as (xs & ys & Ey & Ex & Nx & Ny & In). unfold scan. cbv zeta. rewrite Ey, Ex. cbn [mbind option_bind].
  eexists. split; [reflexivity|]. split.
  { apply (NoDup_grid (covered r v0 v1 v2)); [|done|done]. intros x y k. unfold covered. cbv zeta.
    destruct (excluded r x y); [done|]. destruct (_ || _); [done|]. by intros [= <-]. }
  intros k. rewrite list_elem_of_bind. destruct S0 as [X0 Y0], S1 as [X1 Y1], S2 as [X2 Y2].
  assert (Sm : ∀ x y, x mod 16 = 8 -> y mod 16 = 8 -> min3 (vtx_x v0) (vtx_x v1) (vtx_x v2) < x + 8 -> x - 8 < max3 (vtx_x v0) (vtx_x v1) (vtx_x v2) ->
    min3 (vtx_y v0) (vtx_y v1) (vtx_y v2) < y + 8 -> y - 8 < max3 (vtx_y v0) (vtx_y v1) (vtx_y v2) -> small (mk_Vertex x y)).
  { intros x y Mx My. unfold min3, max3, small. cbn. intros. split; modlia. }
  split.
  - intros (y & Hk & Hy). apply list_elem_of_omap in Hk as (x & Hx & E). destruct (proj1 (In x y) (conj Hx Hy)) as (Mx & My & I & L).
    destruct_and! L. assert (Sp : small (mk_Vertex x y)) by by apply Sm. apply covered_exact in E as (Ne & C & ->); [|done]. cbn. split_and!; try done.
    rewrite excluded_exact in Ne. unfold scissored. destruct (scissor_mode r); try done; [by rewrite Ne|by apply I].
  - destruct k as [x y w0 w1 w2]. cbn. intros (Mx & My & Sc & Sp & C & E).
    exists y. assert (0 <= edge v1 v2 (mk_Vertex x y) ∧ 0 <= edge v2 v0 (mk_Vertex x y) ∧ 0 <= edge v0 v1 (mk_Vertex x y)) as (E0 & E1 & E2).
    { unfold covers, weight in C. pose proof (bias_range v0 v1 v2). pose proof (bias_range v1 v2 v0). pose proof (bias_range v2 v0 v1). lia. }
    destruct (inside_bounds (mk_Vertex x y) A E0 E1 E2) as [Bx By]. cbn in Bx, By.
    destruct (proj2 (In x y)) as [Hx Hy]; [|split; [|done]].
    + split_and!; try done; try lia. intros Is. unfold scissored in Sc. by rewrite Is in Sc.
    + apply list_elem_of_omap. exists x. split; [done|]. apply covered_exact; [done|]. split_and!; try done.
      rewrite excluded_exact. unfold scissored in Sc. destruct (scissor_mode r); try done. by apply negb_true_iff.
Qed.
End triangle.

(** ** Triangles *)

(** Culling and winding by the orientation of the vertices. *)
Definition visible r (orientation : Z) : Prop :=
  match cull_mode r with KeepAll => True | KeepClockWise => orientation < 0 | _ => 0 < orientation end.
Definition counter_clockwise (v0 v1 v2 : Vertex) : Vertex * Vertex * Vertex := if 0 <? edge v0 v1 v2 then (v0, v1, v2) else (v0, v2, v1).
(** What a pixel of the triangle [abc] is handed on with. *)
Definition pixel_of a b c (x y : Z) : Coverage :=
  let p := mk_Vertex x y in mk_Coverage x y (weight a b c p) (weight b c a p) (weight c a b p).
(** The pixels of the triangle [abc]: centers inside of its edges that the scissor box lets through. *)
Definition pixels_of r a b c (k : Coverage) : Prop := ∃ x y, k = pixel_of a b c x y ∧ x mod 16 = 8 ∧ y mod 16 = 8 ∧
  small (mk_Vertex x y) ∧ scissored r x y = true ∧ covers a b c (mk_Vertex x y).

Lemma scan_pixels r v0 v1 v2 : regs_ok r -> small v0 -> small v1 -> small v2 -> 0 < edge v0 v1 v2 -> ∃ l, scan r v0 v1 v2 = Some l ∧
  NoDup ((fun k => (cov_x k, cov_y k)) <$> l) ∧ ∀ k, k ∈ l <-> pixels_of r v0 v1 v2 k.
Proof.
  intros R S0 S1 S2 A. destruct (scan_exact r v0 v1 v2 R S0 S1 S2 A) as (l & E & N & P). exists l. split; [done|]. split; [done|].
  intros k. rewrite P. unfold pixels_of, pixel_of. split.
  - intros (? & ? & ? & ? & ? & Ek). exists (cov_x k), (cov_y k). by split_and!.
  - intros (x & y & -> & ? & ? & ? & ? & ?). cbn. by split_and!.
Qed.
Lemma edge_flip a b c : edge a c b = - edge a b c.
Proof. unfold edge. ring. Qed.

(** C24: A triangle that is not culled is drawn as exactly the pixels whose centers its edges cover and the scissor box lets
    through, each of them once, whichever way its vertices turn; the loops over its bounds end. *)
Theorem ProcessTriangle_exact r v0 v1 v2 : regs_ok r -> small v0 -> small v1 -> small v2 -> edge v0 v1 v2 ≠ 0 ->
  ∃ l, ProcessTriangle r v0 v1 v2 = Some l ∧ NoDup ((fun k => (cov_x k, cov_y k)) <$> l) ∧
    ∀ k, k ∈ l <-> visible r (edge v0 v1 v2) ∧ let '(a, b, c) := counter_clockwise v0 v1 v2 in pixels_of r a b c k.
Proof.
  intros R S0 S1 S2 A. unfold ProcessTriangle, wound, counter_clockwise, visible. rewrite !SignedArea_edge by done. rewrite (edge_flip v0 v1 v2).
  pose proof (scan_pixels r v0 v1 v2 R S0 S1 S2) as P. pose proof (scan_pixels r v0 v2 v1 R S0 S2 S1) as Q. rewrite (edge_flip v0 v1 v2) in Q.
  destruct (Z.ltb_spec 0 (edge v0 v1 v2)) as [L|L]; [specialize (P L) as (l & E & N & M)|specialize (Q ltac:(lia)) as (l & E & N & M)];
    destruct (cull_mode r); zcases; try lia; cbn [exchange]; rewrite ?E; eexists; (split; [reflexivity|]); (split; [first [exact N|apply NoDup_nil_2]|]);
    intros k; rewrite ?M, ?elem_of_nil; intuition lia.
Qed.

(** ** Shared edges *)

(** The division rounds toward zero: it tells the sides apart when the third vertex is
    at least one step away from the line. *)
Definition off_line a b c : Prop := Z.abs (vtx_y b - vtx_y a) <= edge a b c.
#[export] Instance off_line_dec a b c : Decision (off_line a b c).
Proof. unfold off_line. apply _. Defined.

Lemma right_side c a b : small a -> small b -> small c -> 0 < edge a b c -> off_line a b c ->
  IsRightSideOrFlatBottomEdge c a b = if vtx_y a =? vtx_y b then vtx_x b <? vtx_x a else vtx_y a <? vtx_y b.
Proof.
  intros Sa Sb Sc A F. pose proof (edge_products a b c Sa Sb Sc) as [P _]. unfold IsRightSideOrFlatBottomEdge, off_line, edge in *.
  destruct (Z.eqb_spec (vtx_y a) (vtx_y b)) as [E|E].
  - rewrite E, Z.sub_diag, Z.mul_0_l, Z.sub_0_r in A. apply eq_true_iff_eq. rewrite !Z.ltb_lt. rewrite E. nia.
  - rewrite (swrap_id 32 (_ * _)) by (unfold in_srange; pow2; lia). set (n := _ * _) in *. set (d := vtx_y b - vtx_y a) in *.
    assert (Hd : d ≠ 0) by lia. pose proof (Z.quot_rem n d Hd) as Q. pose proof (Z.rem_bound_abs n d Hd) as R.
    assert (B : Z.abs (Z.quot n d) <= 1073676289) by (rewrite <- Z.quot_abs by done; transitivity (Z.abs n); [apply Z.quot_le_upper_bound; nia|lia]).
    destruct Sa as [Xa Ya], Sb as [Xb Yb], Sc as [Xc Yc]. rewrite swrap_id by (unfold in_srange; pow2; lia).
    apply eq_true_iff_eq. rewrite !Z.ltb_lt. set (q := Z.quot n d) in *. set (m := Z.rem n d) in *.
    set (u := vtx_x c - vtx_x a) in *. clearbody n q m. assert (Hu : n - d * u = d * (q - u) + m) by (rewrite Q; ring). rewrite Hu in A, F.
    clear Q Hu B P. destruct (Z.lt_ge_cases 0 d).
    + assert (0 < q - u) by nia. lia.
    + assert (q - u < 0) by nia. lia.
Qed.

(** C25: Of two triangles on both sides of an edge, exactly one accepts a point at that edge: no pixel of the edge is drawn by
    both, and none is left out by both. *)
Theorem shared_edge_once a b c d p : small a -> small b -> small c -> small d -> 0 < edge a b c -> 0 < edge b a d -> off_line a b c -> off_line b a d ->
  (0 <= weight c a b p ∧ weight d b a p < 0) ∨ (weight c a b p < 0 ∧ 0 <= weight d b a p).
Proof.
  intros Sa Sb Sc Sd A B Fc Fd. pose proof (bias_range c a b). pose proof (bias_range d b a). unfold weight. rewrite (edge_swap a b p).
  destruct (Z.eq_dec (edge a b p) 0) as [->|]; [|lia]. unfold bias. rewrite !right_side by done.
  assert (vtx_y a ≠ vtx_y b ∨ vtx_x a ≠ vtx_x b) by (unfold edge in A; destruct (Z.eq_dec (vtx_y a) (vtx_y b)) as [E|]; [right|by left]; intros X; rewrite E, X in A; lia).
  repeat case_match; zcases; lia.
Qed.
