(* ===== verification/Clip.v ===== *)
(** The way of a triangle through the software renderer, up to its pixels and their
    depths: [RasterizerSoftware::AddTriangle] clips it against the planes of the view,
    divides by [w] and draws the fan of the polygon that is left. *)

From Stdlib Require Import SpecFloat.
From S2P Require Import Prelude Float32 Raster.

(* src: video_core/pica/output_vertex.h | struct OutputVertex { *)
Record OutputVertex := mk_OutputVertex {
  pos : Vec4f; quat : Vec4f; color : Vec4f;
  tc0 : f24 * f24; tc1 : f24 * f24; tc0_w : f24;
  view : f24 * f24 * f24; tc2 : f24 * f24
}.
Definition vec2f_zip (op : f24 -> f24 -> f24) (a b : f24 * f24) : f24 * f24 := (op a.1 b.1, op a.2 b.2).
Definition vec3f_zip (op : f24 -> f24 -> f24) (a b : f24 * f24 * f24) : f24 * f24 * f24 := (vec2f_zip op a.1 b.1, op a.2 b.2).
(** A vertex attribute by attribute. *)
Definition vertex_zip (op : f24 -> f24 -> f24) (a b : OutputVertex) : OutputVertex :=
  mk_OutputVertex (vec4f_zip op (pos a) (pos b)) (vec4f_zip op (quat a) (quat b)) (vec4f_zip op (color a) (color b))
    (vec2f_zip op (tc0 a) (tc0 b)) (vec2f_zip op (tc1 a) (tc1 b)) (op (tc0_w a) (tc0_w b)) (vec3f_zip op (view a) (view b)) (vec2f_zip op (tc2 a) (tc2 b)).

(* src: video_core/renderer_software/sw_rasterizer.cpp | void Lerp(f24 factor, const Vertex& vtx) { *)
Definition Lerp (factor : f24) (v0 v1 : OutputVertex) : OutputVertex :=
  vertex_zip (fun a b => f24_add (f24_mul a factor) (f24_mul b (f24_sub f24_one factor))) v0 v1.

(* src: video_core/renderer_software/sw_clipper.cpp | void FlipQuaternionIfOpposite(Common::Vec4<f24>& a, const Common::Vec4<f24>& b) { *)
Definition FlipQuaternionIfOpposite (a b : Vec4f) : Vec4f :=
  if f24_ltb (Dot4 a b) f24_zero then vec4f_map (fun x => f24_mul x (f32_of_Z (-1))) a else a.

(** ** Planes *)

(** Constants of the program: the division of two exact numbers is the nearest number. *)
(* src: video_core/renderer_software/sw_rasterizer.cpp | constexpr f32 EPSILON_Z = 0.00000001f; *)
Definition EPSILON_Z : f32 := f32_div (f32_of_Z 1) (f32_of_Z (10 ^ 8)).
(* src: video_core/renderer_software/sw_rasterizer.cpp | static constexpr f24 EPSILON = f24::FromFloat32(0.00001f); *)
Definition EPSILON : f24 := f32_div (f32_of_Z 1) (f32_of_Z (10 ^ 5)).

(* src: video_core/renderer_software/sw_rasterizer.cpp | constexpr ClippingEdge(Common::Vec4<f24> coeffs, | ClippingEdge | +3 *)
Record ClippingEdge := mk_ClippingEdge { coeffs : Vec4f; edge_bias : Vec4f }.
Definition zero4 : Vec4f := mk_Vec4f f24_zero f24_zero f24_zero f24_zero.

(* src: video_core/renderer_software/sw_rasterizer.cpp | bool IsInside(const Vertex& vertex) const { *)
Definition IsInside (edge : ClippingEdge) (vertex : OutputVertex) : bool :=
  f24_geb (Dot4 (vec4f_zip f24_add (pos vertex) (edge_bias edge)) (coeffs edge)) (SFopp EPSILON_Z).
(* src: video_core/renderer_software/sw_rasterizer.cpp | Vertex GetIntersection(const Vertex& v0, const Vertex& v1) const { *)
Definition GetIntersection (edge : ClippingEdge) (v0 v1 : OutputVertex) : OutputVertex :=
  let dp := Dot4 (vec4f_zip f24_add (pos v0) (edge_bias edge)) (coeffs edge) in
  let dp_prev := Dot4 (vec4f_zip f24_add (pos v1) (edge_bias edge)) (coeffs edge) in
  Lerp (f24_div dp_prev (f24_sub dp_prev dp)) v0 v1.

(* src: video_core/renderer_software/sw_rasterizer.cpp | static constexpr std::array<ClippingEdge, 7> clipping_edges = {{ | AddTriangle | +8 *)
Definition clipping_edges : list ClippingEdge :=
  let f0 := f24_zero in
  let f1 := f24_one in
  [ mk_ClippingEdge (mk_Vec4f (f24_opp f1) f0 f0 f1) zero4;
    mk_ClippingEdge (mk_Vec4f f1 f0 f0 f1) zero4;
    mk_ClippingEdge (mk_Vec4f f0 (f24_opp f1) f0 f1) zero4;
    mk_ClippingEdge (mk_Vec4f f0 f1 f0 f1) zero4;
    mk_ClippingEdge (mk_Vec4f f0 f0 (f24_opp f1) f0) zero4;
    mk_ClippingEdge (mk_Vec4f f0 f0 f1 f1) zero4;
    mk_ClippingEdge (mk_Vec4f f0 f0 f0 f1) (mk_Vec4f f0 f0 f0 EPSILON) ].

(** The lists hold nine vertices: one more does not fit. *)
(* src: video_core/renderer_software/sw_rasterizer.cpp | static constexpr std::size_t MAX_VERTICES = 9; *)
Definition MAX_VERTICES : nat := 9.
(** Nothing is left of a polygon with fewer than three vertices. *)
(* src: video_core/renderer_software/sw_rasterizer.cpp | for (const ClippingEdge& edge : clipping_edges) { | AddTriangle | +14 *)
Fixpoint clip_planes (edges : list ClippingEdge) (polygon : list OutputVertex) : option (list OutputVertex) :=
  match edges with
  | [] => Some polygon
  | edge :: edges =>
      polygon ← clip (IsInside edge) (GetIntersection edge) polygon;
      if decide (MAX_VERTICES < length polygon)%nat then None
      else if decide (length polygon < 3)%nat then Some [] else clip_planes edges polygon
  end.

(** ** Screen *)

(** Registers: the sizes of the viewport and the coefficients are raw numbers. *)
(* src: video_core/pica/regs_rasterizer.h | BitField<0, 24, u32> viewport_size_x; | RasterizerRegs | +36 *)
Record ViewRegs := mk_ViewRegs {
  viewport_size_x : Z; viewport_size_y : Z; viewport_corner_x : Z; viewport_corner_y : Z;
  clip_enable : bool; clip_coef : Z * Z * Z * Z;
  viewport_depth_range : Z; viewport_depth_near_plane : Z;
  w_buffering : bool
}.
(* src: video_core/pica/regs_rasterizer.h | Common::Vec4<f24> GetClipCoef() const { *)
Definition GetClipCoef (g : ViewRegs) : Vec4f :=
  let '(a, b, c, d) := clip_coef g in mk_Vec4f (f24_FromRaw a) (f24_FromRaw b) (f24_FromRaw c) (f24_FromRaw d).

(* src: video_core/renderer_software/sw_rasterizer.cpp | struct Vertex : Pica::OutputVertex { | Vertex | +5 *)
Record ScreenVertex := mk_ScreenVertex { vertex_of : OutputVertex; screen_x : f24; screen_y : f24; screen_z : f24 }.
(* src: video_core/renderer_software/sw_rasterizer.cpp | void RasterizerSoftware::MakeScreenCoords(Vertex& vtx) { *)
Definition MakeScreenCoords (g : ViewRegs) (vtx : OutputVertex) : ScreenVertex :=
  let halfsize_x := f24_FromRaw (viewport_size_x g) in
  let halfsize_y := f24_FromRaw (viewport_size_y g) in
  let offset_x := f32_of_Z (viewport_corner_x g) in
  let offset_y := f32_of_Z (viewport_corner_y g) in
  let inv_w := f24_div f24_one (fw (pos vtx)) in
  let times (x : f24) : f24 := f24_mul x inv_w in
  let scaled := vertex_zip (fun a _ => times a) vtx vtx in
  let vtx' := mk_OutputVertex (mk_Vec4f (fx (pos vtx)) (fy (pos vtx)) (fz (pos vtx)) inv_w)
    (quat scaled) (color scaled) (tc0 scaled) (tc1 scaled) (tc0_w scaled) (view scaled) (tc2 scaled) in
  mk_ScreenVertex vtx'
    (f24_add (f24_mul (f24_add (f24_mul (fx (pos vtx)) inv_w) f24_one) halfsize_x) offset_x)
    (f24_add (f24_mul (f24_add (f24_mul (fy (pos vtx)) inv_w) f24_one) halfsize_y) offset_y)
    (f24_mul (fz (pos vtx)) inv_w).

(** Only the first two coordinates are used of the position in sixteenths. *)
(* src: video_core/renderer_software/sw_rasterizer.cpp | static auto screen_to_rasterizer_coords = [](const Common::Vec3<f24>& vec) { *)
Definition screen_to_rasterizer_coords (v : ScreenVertex) : option Vertex :=
  x ← FromFloat24 (screen_x v); y ← FromFloat24 (screen_y v); Some (mk_Vertex x y).

(** The depth of a pixel: the vertices are in the order of its weights. *)
(* src: video_core/renderer_software/sw_rasterizer.cpp | const auto baricentric_coordinates = Common::MakeVec( | ProcessTriangle | ..depth = std::clamp(depth, 0.0f, 1.0f); *)
Definition pixel_depth_of (g : ViewRegs) (v0 v1 v2 : ScreenVertex) (c : Coverage) : f32 :=
  let w0 := f32_of_Z (cov_w0 c) in
  let w1 := f32_of_Z (cov_w1 c) in
  let w2 := f32_of_Z (cov_w2 c) in
  let wsum := f32_of_Z (s32 (s32 (cov_w0 c + cov_w1 c) + cov_w2 c)) in
  let inverse (v : ScreenVertex) : f24 := fw (pos (vertex_of v)) in
  let interpolated_w_inverse :=
    f24_div f24_one (f24_add (f24_add (f24_mul (inverse v0) w0) (f24_mul (inverse v1) w1)) (f24_mul (inverse v2) w2)) in
  let interpolated_z_over_w :=
    f32_div (f32_add (f32_add (f32_mul (screen_z v0) w0) (f32_mul (screen_z v1) w1)) (f32_mul (screen_z v2) w2)) wsum in
  let depth := f32_add (f32_mul interpolated_z_over_w (f24_FromRaw (viewport_depth_range g))) (f24_FromRaw (viewport_depth_near_plane g)) in
  let depth := if w_buffering g then f32_mul depth (f32_mul interpolated_w_inverse wsum) else depth in
  f32_clamp depth 0 1.

(** One triangle of the fan, by its pixels and their depths. *)
(* src: video_core/renderer_software/sw_rasterizer.cpp | const std::array<Common::Vec3<Fix12P4>, 3> vtxpos = { | ProcessTriangle | +23 *)
Definition draw_triangle (r : RasterizerRegs) (g : ViewRegs) (t : ScreenVertex * ScreenVertex * ScreenVertex) : option (list (Coverage * f32)) :=
  let '(s0, s1, s2) := t in
  v0 ← screen_to_rasterizer_coords s0;
  v1 ← screen_to_rasterizer_coords s1;
  v2 ← screen_to_rasterizer_coords s2;
  match wound r v0 v1 v2 with
  | None => Some ([] : list (Coverage * f32))
  | Some reversed =>
      let '(a, b, c) := exchange reversed v0 v1 v2 in
      let '(sa, sb, sc) := exchange reversed s0 s1 s2 in
      l ← scan r a b c; Some ((fun p => (p, pixel_depth_of g sa sb sc p)) <$> l)
  end.

(* src: video_core/renderer_software/sw_rasterizer.cpp | void RasterizerSoftware::AddTriangle(const Pica::OutputVertex& v0, const Pica::OutputVertex& v1, *)
Definition AddTriangle (r : RasterizerRegs) (g : ViewRegs) (v0 v1 v2 : OutputVertex) : option (list (Coverage * f32)) :=
  let flipped (v : OutputVertex) : OutputVertex := v<|quat := FlipQuaternionIfOpposite (quat v) (quat v0)|> in
  let custom_edge := if clip_enable g then [mk_ClippingEdge (GetClipCoef g) zero4] else [] in
  polygon ← clip_planes (clipping_edges ++ custom_edge) [v0; flipped v1; flipped v2];
  lists ← mapM (draw_triangle r g) (fan (MakeScreenCoords g <$> polygon));
  Some (mjoin lists).

(** ** Vertices *)

Section count.
Context {V : Type} (inside : V -> bool) (cut : V -> V -> V).

(** How often the sides change along the vertices, from the one before the first. *)
Fixpoint changes (reference : V) (l : list V) : nat :=
  match l with [] => 0 | v :: l => (if eqb (inside v) (inside reference) then 0 else 1) + changes v l end.

Lemma clip_from_length reference l : length (clip_from inside cut reference l) = (length (filter (fun v => inside v = true) l) + changes reference l)%nat.
Proof.
  revert reference. induction l as [|v l IH]; intros reference; [done|]. cbn [clip_from changes]. rewrite length_app, IH, filter_cons.
  destruct (decide (inside v = true)) as [E|E%not_true_is_false]; rewrite E; destruct (inside reference); cbn; lia.
Qed.
(** A plane that is crossed at most twice adds at most one vertex. *)
Lemma clip_length l polygon : (∀ reference, last l = Some reference -> (changes reference l <= 2)%nat) ->
  clip inside cut l = Some polygon -> (length polygon <= length l + 1)%nat.
Proof.
  unfold clip. intros C E. apply bind_Some in E as (reference & L & [= <-]). specialize (C reference L). rewrite clip_from_length.
  pose proof (length_filter (fun v => inside v = true) l) as F.
  destruct (decide (length (filter (fun v => inside v = true) l) = length l)) as [All|]; [|lia].
  assert (Z : changes reference l = 0%nat); [|lia]. clear C. assert (I : Forall (fun v => inside v = true) l).
  { clear L F. induction l as [|v l IH]; [constructor|]. rewrite filter_cons in All. destruct (decide (inside v = true)); [|pose proof (length_filter (fun v => inside v = true) l); cbn in All; lia].
    constructor; [done|]. apply IH. cbn in All. lia. }
  assert (R : inside reference = true) by (eapply Forall_forall in I; [done|]; by apply last_Some_elem_of). clear -I R.
  revert reference R. induction I as [|v l Hv I IH]; intros reference R; [done|]. cbn. rewrite Hv, R. cbn. by apply IH.
Qed.
End count.

(** ** Examples *)

Definition every_pixel : RasterizerRegs := mk_RasterizerRegs KeepAll Scissor_Disabled 0 0 0 0.
Definition boxed : RasterizerRegs := mk_RasterizerRegs KeepClockWise Scissor_Include 1 0 2 9.

(** Clockwise, four pixels wide and high: what the box of two columns lets through. *)
Lemma ProcessTriangle_exact_witness : ∃ l, ProcessTriangle boxed (mk_Vertex 0 0) (mk_Vertex 0 64) (mk_Vertex 64 0) = Some l ∧
  map (fun k => (cov_x k, cov_y k)) l = [(24, 8); (40, 8); (24, 24)].
Proof.
  destruct (ProcessTriangle_exact boxed (mk_Vertex 0 0) (mk_Vertex 0 64) (mk_Vertex 64 0) ltac:(by_decide) ltac:(by_decide) ltac:(by_decide) ltac:(by_decide) ltac:(by_decide)) as (l & E & _).
  exists l. split; [exact E|]. vm_compute in E. injection E as <-. reflexivity.
Defined.

(** The two halves of a square: a center of the diagonal belongs to the second. *)
Lemma shared_edge_once_witness :
  weight (mk_Vertex 0 0) (mk_Vertex 64 0) (mk_Vertex 0 64) (mk_Vertex 24 40) < 0 ∧
  0 <= weight (mk_Vertex 64 64) (mk_Vertex 0 64) (mk_Vertex 64 0) (mk_Vertex 24 40).
Proof.
  destruct (shared_edge_once (mk_Vertex 64 0) (mk_Vertex 0 64) (mk_Vertex 0 0) (mk_Vertex 64 64) (mk_Vertex 24 40)
    ltac:(by_decide) ltac:(by_decide) ltac:(by_decide) ltac:(by_decide) ltac:(by_decide) ltac:(by_decide) ltac:(by_decide) ltac:(by_decide)) as [[E _]|E]; [|exact E].
  vm_compute in E. by destruct E.
Defined.
(** A vertex less than one step away from a shared edge: the truncated division takes
    its side for the other one, and both triangles draw a pixel of the edge. *)
Definition draws (c : Vertex) (x y : Z) : option bool :=
  (fun l => existsb (fun k => (cov_x k =? x) && (cov_y k =? y)) l) <$> ProcessTriangle every_pixel (mk_Vertex 0 0) (mk_Vertex 24 72) c.
Example drawn_twice : edge (mk_Vertex 0 0) (mk_Vertex 24 72) (mk_Vertex 24 73) = 24 ∧ edge (mk_Vertex 24 72) (mk_Vertex 0 0) (mk_Vertex 80 8) = 5568 ∧
  draws (mk_Vertex 24 73) 8 24 = Some true ∧ draws (mk_Vertex 80 8) 8 24 = Some true.
Proof. vm_compute. done. Qed.

(** Three vertices at one place, which is a center, draw it with weights that add up to
    nothing: its depth is not a number. *)
Example triangle_of_a_point : ProcessTriangle every_pixel (mk_Vertex 8 8) (mk_Vertex 8 8) (mk_Vertex 8 8) = Some [mk_Coverage 8 8 0 0 0].
Proof. vm_compute. done. Qed.

(** A triangle around the middle of the view, of positions with [w] of one. *)
Definition vertex_at (x y z : Z) : OutputVertex :=
  let p := mk_Vec4f (f32_of_bits x) (f32_of_bits y) (f32_of_bits z) f24_one in
  mk_OutputVertex p zero4 zero4 (f24_zero, f24_zero) (f24_zero, f24_zero) f24_zero (f24_zero, f24_zero, f24_zero) (f24_zero, f24_zero).
Definition wide_triangle : list OutputVertex :=
  [vertex_at 0x3feef20e 0 0xbfb77907; vertex_at 0xbfeef20e 0x3feef20e 0xbf000000; vertex_at 0 0xbfeef20e 0x3edde41c].
Definition small_view (clip_enable : bool) : ViewRegs := mk_ViewRegs 0x414000 0x414000 0 0 clip_enable (0xbe6a09, 0, 0x3f6a09, 0x400378) 0xbf0000 0 false.
(** The planes of the view leave nine vertices, the clip plane of the program a tenth. *)
Example ten_vertices : (length <$> clip_planes clipping_edges wide_triangle) = Some 9%nat ∧
  clip_planes (clipping_edges ++ [mk_ClippingEdge (GetClipCoef (small_view true)) zero4]) wide_triangle = None.
Proof. vm_compute. done. Qed.
(** Without that plane it is drawn. *)
Example wide_pixels : match wide_triangle with
  | [a; b; c] => length <$> AddTriangle every_pixel (small_view false) a b c = Some 74%nat
  | _ => False
  end.
Proof. vm_compute. done. Qed.
(** The factor of the first vertex is one. *)
Example lerp_first : Lerp f24_one (vertex_at 0x3f800000 0 0) (vertex_at 0x40000000 0 0) = vertex_at 0x3f800000 0 0.
Proof. vm_compute. done. Qed.
Example depth_of_a_point : ∀ v, v = MakeScreenCoords (small_view false) (vertex_at 0x3f800000 0 0xbf000000) ->
  pixel_depth_of (small_view false) v v v (mk_Coverage 8 8 0 0 0) = S754_nan.
Proof. intros v ->. vm_compute. done. Qed.
