(* ===== verification/Blitter.v ===== *)
(** Fills and copies of the software renderer,
    [video_core/renderer_software/sw_blitter.cpp].  The regions it asks the rasterizer to
    flush are left out: [RasterizerSoftware]'s functions for them are empty. *)

From S2P Require Import Prelude Color Memory MemoryFacts Framebuffer.

Implicit Types (m : Bytes).

(** A call that is logged and returns leaves the memory as it was. *)
(* src: video_core/renderer_software/sw_blitter.cpp | if (!memory.IsValidPhysicalAddress(src_addr)) { #1 | TextureCopy | +9 *)
Definition check_addresses (src dst : Z) m (k : option Bytes) : option Bytes :=
  src_ok ← IsValidPhysicalAddress src;
  if negb src_ok then Some m
  else
    dst_ok ← IsValidPhysicalAddress dst;
    if negb dst_ok then Some m else k.

(** ** Memory fill *)

(** Registers by their fields; [value] is the union of the values. *)
(* src: video_core/pica/regs_external.h | struct MemoryFillConfig { *)
Record MemoryFillConfig := mk_MemoryFillConfig { address_start : Z; address_end : Z; fill_value : Z; fill_24bit : bool; fill_32bit : bool }.
(* src: video_core/pica/regs_external.h | constexpr u32 DecodeAddressRegister(u32 register_value) { *)
Definition DecodeAddressRegister (register_value : Z) : Z := u32 (register_value * 8).
(* src: video_core/pica/regs_external.h | inline u32 GetStartAddress() const { *)
Definition GetStartAddress (config : MemoryFillConfig) : Z := DecodeAddressRegister (address_start config).
(* src: video_core/pica/regs_external.h | inline u32 GetEndAddress() const { *)
Definition GetEndAddress (config : MemoryFillConfig) : Z := DecodeAddressRegister (address_end config).

(** [for (ptr = start; ptr < end; ptr += n)] with [n] bytes stored at [ptr]. *)
(* src: video_core/renderer_software/sw_blitter.cpp | for (u8* ptr = start; ptr < end; ptr += 3) { | MemoryFill *)
Fixpoint fill_to (fuel : nat) m (b : Backing) (ptr end_ : Z) (bs : list Z) : option Bytes :=
  match fuel with
  | O => None
  | S fuel => if ptr <? end_ then m ← store m (Some (b, ptr)) bs; fill_to fuel m b (ptr + Z.of_nat (length bs)) end_ bs else Some m
  end.

(** Pointers of different blocks cannot be compared. *)
(* src: video_core/renderer_software/sw_blitter.cpp | void SwBlitter::MemoryFill(const Pica::MemoryFillConfig& config) { *)
Definition MemoryFill (config : MemoryFillConfig) m : option Bytes :=
  let start_addr := GetStartAddress config in
  let end_addr := GetEndAddress config in
  check_addresses start_addr end_addr m (
    if end_addr <=? start_addr then Some m
    else
      start ← GetPhysicalPointer start_addr;
      end_ ← GetPhysicalPointer end_addr;
      '(b, o) ← start;
      '(b', e) ← end_;
      if decide (b = b') then
        let fuel := S (Z.to_nat (e - o)) in
        if fill_24bit config then fill_to fuel m b o e (le_split 3 (fill_value config))
        else if fill_32bit config then fill_to fuel m b o (o + (e - o) / 4 * 4) (le_split 4 (fill_value config))
        else fill_to fuel m b o e (le_split 2 (fill_value config))
      else None).

(** ** Texture copy *)

(** The fields of [texture_copy] with the addresses. *)
(* src: video_core/pica/regs_external.h | u32 size; // The lower 4 bits are ignored | DisplayTransferConfig | +13 *)
Record TextureCopyConfig := mk_TextureCopyConfig {
  tc_input_address : Z; tc_output_address : Z;
  tc_size : Z; tc_input_width : Z; tc_input_gap : Z; tc_output_width : Z; tc_output_gap : Z
}.

(** The state of the loop: two pointers and what remains of both lines and of all. *)
(* src: video_core/renderer_software/sw_blitter.cpp | u32 remaining_input = input_width; | TextureCopy | +2 *)
Record CopyState := mk_CopyState { cs_mem : Bytes; src_ptr : Z; dst_ptr : Z; remaining_input : Z; remaining_output : Z; remaining_size : Z }.

Section copy.
Context (sb db : Backing) (input_width output_width input_gap output_gap : Z).

(* src: video_core/renderer_software/sw_blitter.cpp | while (remaining_size > 0) { | TextureCopy *)
Definition copy_step (s : CopyState) : CopyState + option Bytes :=
  if 0 <? remaining_size s then
    let copy_size := Z.min (Z.min (remaining_input s) (remaining_output s)) (remaining_size s) in
    match (bs ← load (cs_mem s) (Some (sb, src_ptr s)) (Z.to_nat copy_size); store (cs_mem s) (Some (db, dst_ptr s)) bs) with
    | None => inr None
    | Some m =>
        let src := src_ptr s + copy_size in
        let dst := dst_ptr s + copy_size in
        let rin := remaining_input s - copy_size in
        let rout := remaining_output s - copy_size in
        let '(rin, src) := if rin =? 0 then (input_width, src + input_gap) else (rin, src) in
        let '(rout, dst) := if rout =? 0 then (output_width, dst + output_gap) else (rout, dst) in
        inl (mk_CopyState m src dst rin rout (remaining_size s - copy_size))
    end
  else inr (Some (cs_mem s)).
(** The loop copies at least sixteen bytes in a turn. *)
(* src: video_core/renderer_software/sw_blitter.cpp | while (remaining_size > 0) { | TextureCopy *)
Definition copy_lines (s : CopyState) : option Bytes := r ← loop_result (loop 29 copy_step s); r.
End copy.

(* src: video_core/renderer_software/sw_blitter.cpp | void SwBlitter::TextureCopy(const Pica::DisplayTransferConfig& config) { *)
Definition TextureCopy (config : TextureCopyConfig) m : option Bytes :=
  let src_addr := DecodeAddressRegister (tc_input_address config) in
  let dst_addr := DecodeAddressRegister (tc_output_address config) in
  check_addresses src_addr dst_addr m (
    src ← GetPhysicalPointer src_addr;
    dst ← GetPhysicalPointer dst_addr;
    let remaining_size := tc_size config - tc_size config mod 16 in
    if remaining_size =? 0 then Some m
    else
      let input_gap := tc_input_gap config * 16 in
      let output_gap := tc_output_gap config * 16 in
      let input_width := if input_gap =? 0 then remaining_size else tc_input_width config * 16 in
      let output_width := if output_gap =? 0 then remaining_size else tc_output_width config * 16 in
      if input_width =? 0 then Some m
      else if output_width =? 0 then Some m
      else
        '(sb, so) ← src;
        '(db, do) ← dst;
        copy_lines sb db input_width output_width input_gap output_gap (mk_CopyState m so do input_width output_width remaining_size)).

(** ** Display transfer *)

(* src: video_core/pica/regs_external.h | struct DisplayTransferConfig { | DisplayTransferConfig | ..BitField<0, 1, u32> trigger; *)
Record DisplayTransferConfig := mk_DisplayTransferConfig {
  input_address : Z; output_address : Z;
  output_width : Z; output_height : Z; input_width : Z; input_height : Z;
  flip_vertically : bool; input_linear : bool; crop_input_lines : bool; dont_swizzle : bool;
  input_format : ColorFormat; output_format : ColorFormat;
  (** 0: none, 1: X, 2: both axes *)
  scaling : Z
}.
Implicit Types (config : DisplayTransferConfig).

(* src: video_core/renderer_software/sw_blitter.cpp | static Common::Vec4<u8> DecodePixel(Pica::PixelFormat input_format, const u8* src_pixel) { *)
Definition DecodePixel m (format : ColorFormat) (src_pixel : Pointer) : option Vec4 :=
  match format with
  | ColorFormat.RGBA8 => DecodeRGBA8 <$> load m src_pixel 4
  | ColorFormat.RGB8 => DecodeRGB8 <$> load m src_pixel 3
  | ColorFormat.RGB565 => DecodeRGB565 <$> load m src_pixel 2
  | ColorFormat.RGB5A1 => DecodeRGB5A1 <$> load m src_pixel 2
  | ColorFormat.RGBA4 => DecodeRGBA4 <$> load m src_pixel 2
  | ColorFormat.Unknown _ => Some (mk_Vec4 0 0 0 0)
  end.
(* src: video_core/renderer_software/sw_blitter.cpp | switch (config.output_format) { | DisplayTransfer *)
Definition encode_pixel (format : ColorFormat) (src_color : Vec4) : list Z :=
  match format with
  | ColorFormat.RGBA8 => EncodeRGBA8 src_color
  | ColorFormat.RGB8 => EncodeRGB8 src_color
  | ColorFormat.RGB565 => EncodeRGB565 src_color
  | ColorFormat.RGB5A1 => EncodeRGB5A1 src_color
  | ColorFormat.RGBA4 => EncodeRGBA4 src_color
  | ColorFormat.Unknown _ => []
  end.

Section transfer.
Context (config : DisplayTransferConfig) (src_bytes_per_pixel dst_bytes_per_pixel : Z).

(* src: video_core/renderer_software/sw_blitter.cpp | const u32 horizontal_scale = config.scaling != config.NoScale ? 1 : 0; *)
Definition horizontal_scale : Z := if scaling config =? 0 then 0 else 1.
(* src: video_core/renderer_software/sw_blitter.cpp | const u32 vertical_scale = config.scaling == config.ScaleXY ? 1 : 0; *)
Definition vertical_scale : Z := if scaling config =? 2 then 1 else 0.
(* src: video_core/renderer_software/sw_blitter.cpp | const u32 output_width = config.output_width >> horizontal_scale; *)
Definition scaled_width : Z := output_width config ≫ horizontal_scale.
(* src: video_core/renderer_software/sw_blitter.cpp | const u32 output_height = config.output_height >> vertical_scale; *)
Definition scaled_height : Z := output_height config ≫ vertical_scale.

(** An image in lines and one in tiles. *)
(* src: video_core/renderer_software/sw_blitter.cpp | // Both input and output are linear | DisplayTransfer | +3 *)
Definition linear_offset (width x y bpp : Z) : Z := u32 (u32 (x + u32 (y * width)) * bpp).
(* src: video_core/renderer_software/sw_blitter.cpp | // Interpret the input as tiled and the output as linear | DisplayTransfer | +6 *)
Definition tiled_offset (width x y bpp : Z) : Z :=
  let coarse_y := y .& unot 32 7 in
  let stride := u32 (width * bpp) in
  u32 (GetMortonOffset x y bpp + u32 (coarse_y * stride)).

(* src: video_core/renderer_software/sw_blitter.cpp | const u32 input_x = x << horizontal_scale; | DisplayTransfer | ..const u8* src_pixel = src_pointer + src_offset; *)
Definition transfer_offsets (x y : Z) : Z * Z :=
  let input_x := u32 (x ≪ horizontal_scale) in
  let input_y := u32 (y ≪ vertical_scale) in
  let output_y := if flip_vertically config then scaled_height - y - 1 else y in
  if input_linear config then
    if negb (dont_swizzle config)
    then (linear_offset (input_width config) input_x input_y src_bytes_per_pixel, tiled_offset scaled_width x output_y dst_bytes_per_pixel)
    else (linear_offset (input_width config) input_x input_y src_bytes_per_pixel, linear_offset scaled_width x output_y dst_bytes_per_pixel)
  else
    if negb (dont_swizzle config)
    then (tiled_offset (input_width config) input_x input_y src_bytes_per_pixel, linear_offset scaled_width x output_y dst_bytes_per_pixel)
    else (tiled_offset (input_width config) input_x input_y src_bytes_per_pixel, tiled_offset scaled_width x output_y dst_bytes_per_pixel).

(* src: video_core/renderer_software/sw_blitter.cpp | src_color = DecodePixel(config.input_format, src_pixel); | DisplayTransfer | +14 *)
Definition transfer_color m (src_pixel : Pointer) : option Vec4 :=
  let pixel (i : Z) : option Vec4 := DecodePixel m (input_format config) (ptr_add src_pixel (i * src_bytes_per_pixel)) in
  src_color ← DecodePixel m (input_format config) src_pixel;
  if scaling config =? 1 then
    pixel1 ← pixel 1;
    Some (vec4_map (fun v => u8 (Z.quot v 2)) (vec4_zip Z.add src_color pixel1))
  else if scaling config =? 2 then
    pixel1 ← pixel 1;
    pixel2 ← pixel 2;
    pixel3 ← pixel 3;
    Some (vec4_map (fun v => u8 (Z.quot v 4)) (vec4_zip Z.add (vec4_zip Z.add src_color pixel1) (vec4_zip Z.add pixel2 pixel3)))
  else Some src_color.

(* src: video_core/renderer_software/sw_blitter.cpp | for (u32 x = 0; x < output_width; ++x) { | DisplayTransfer *)
Definition transfer_pixel (src_pointer dst_pointer : Pointer) m (x y : Z) : option Bytes :=
  let '(src_offset, dst_offset) := transfer_offsets x y in
  src_color ← transfer_color m (ptr_add src_pointer src_offset);
  store m (ptr_add dst_pointer dst_offset) (encode_pixel (output_format config) src_color).

(* src: video_core/renderer_software/sw_blitter.cpp | for (u32 y = 0; y < output_height; ++y) { | DisplayTransfer *)
Fixpoint transfer_pixels (src_pointer dst_pointer : Pointer) (ps : list (Z * Z)) m : option Bytes :=
  match ps with
  | [] => Some m
  | (x, y) :: ps => m ← transfer_pixel src_pointer dst_pointer m x y; transfer_pixels src_pointer dst_pointer ps m
  end.
(* src: video_core/renderer_software/sw_blitter.cpp | for (u32 y = 0; y < output_height; ++y) { | DisplayTransfer | +2 *)
Definition transfer_grid : list (Z * Z) := y ← seqZ 0 scaled_height; x ← seqZ 0 scaled_width; [(x, y)].
End transfer.

(* src: video_core/renderer_software/sw_blitter.cpp | void SwBlitter::DisplayTransfer(const Pica::DisplayTransferConfig& config) { *)
Definition DisplayTransfer config m : option Bytes :=
  let src_addr := DecodeAddressRegister (input_address config) in
  let dst_addr := DecodeAddressRegister (output_address config) in
  check_addresses src_addr dst_addr m (
    if (input_width config =? 0) || (input_height config =? 0) || (output_width config =? 0) || (output_height config =? 0) then Some m
    else
      dst_addr ← (if flip_vertically config && crop_input_lines config
        then bpp ← BytesPerPixel (output_format config);
          Some (u32 (dst_addr + u32 (u32 (u32 (input_width config - output_width config) * (output_height config - 1)) * bpp)))
        else Some dst_addr);
      src_pointer ← GetPhysicalPointer src_addr;
      dst_pointer ← GetPhysicalPointer dst_addr;
      if 2 <? scaling config then Some m
      else if input_linear config && negb (scaling config =? 0) then Some m
      else
        src_bytes_per_pixel ← BytesPerPixel (input_format config);
        dst_bytes_per_pixel ← BytesPerPixel (output_format config);
        transfer_pixels config src_bytes_per_pixel dst_bytes_per_pixel src_pointer dst_pointer (transfer_grid config) m).

(** ** What a fill writes *)

(** [n] bytes in whole steps of [k]. *)
Definition rounded (n k : Z) : Z := (Z.max 0 n + k - 1) / k * k.

Lemma rounded_step n k : 2 <= k <= 4 -> 0 < n -> rounded n k = k + rounded (n - k) k ∧ 0 <= rounded (n - k) k.
Proof.
  intros Hk Hn. unfold rounded. rewrite (Z.max_r 0 n) by lia. destruct (Z.le_gt_cases k n).
  - rewrite Z.max_r by lia. replace (n + k - 1) with (n - k + k - 1 + 1 * k) by lia. rewrite Z.div_add by lia.
    assert (0 <= (n - k + k - 1) / k) by (apply Z.div_pos; lia). nia.
  - rewrite Z.max_l by lia. replace (n + k - 1) with (n - 1 + 1 * k) by lia. rewrite Z.div_add by lia. rewrite !Z.div_small by lia. lia.
Qed.
Lemma rounded_none n k : 2 <= k <= 4 -> n <= 0 -> rounded n k = 0.
Proof. intros Hk Hn. unfold rounded. rewrite Z.max_l by lia. by rewrite Z.div_small by lia. Qed.
Lemma rounded_whole n k : 2 <= k <= 4 -> 0 <= n -> n mod k = 0 -> rounded n k = n.
Proof.
  intros Hk Hn Hm. unfold rounded. rewrite Z.max_r by lia. rewrite (Z.div_mod n k ltac:(lia)) at 1. rewrite Hm.
  replace (k * (n / k) + 0 + k - 1) with (k - 1 + n / k * k) by lia. rewrite Z.div_add by lia. rewrite Z.div_small by lia.
  pose proof (Z.div_mod n k ltac:(lia)). nia.
Qed.

Lemma store_in m b o bs : 0 <= o -> o + Z.of_nat (length bs) <= backing_size b -> store m (Some (b, o)) bs = Some (put_at m b o bs).
Proof. intros H1 H2. unfold store. cbn. by rewrite (proj2 (in_block_spec b o (length bs))) by lia. Qed.

Lemma fill_to_spec fuel m b ptr end_ bs : 2 <= Z.of_nat (length bs) <= 4 -> 0 <= ptr -> (0 < fuel)%nat -> end_ - ptr < Z.of_nat fuel ->
  ptr + rounded (end_ - ptr) (Z.of_nat (length bs)) <= backing_size b ->
  ∃ m', fill_to fuel m b ptr end_ bs = Some m' ∧ ∀ b' o', m' !! (b', o') =
    if decide (b' = b ∧ ptr <= o' < ptr + rounded (end_ - ptr) (Z.of_nat (length bs)))
    then bs !! Z.to_nat ((o' - ptr) mod Z.of_nat (length bs)) else m !! (b', o').
Proof.
  intros Hk. set (k := Z.of_nat (length bs)) in *. revert m ptr. induction fuel as [|fuel IH]; intros m ptr Hp Hf Hl Hs; [lia|].
  cbn [fill_to]. zcases; [|exists m; split; [done|]; intros b' o'; rewrite rounded_none by lia; by destruct (decide _) as [[_ ?]|]; [lia|]].
  destruct (rounded_step (end_ - ptr) k Hk ltac:(lia)) as [E P]. replace (end_ - ptr - k) with (end_ - (ptr + k)) in E, P by lia.
  rewrite store_in by (fold k; lia). cbn [mbind option_bind]. fold k.
  destruct (IH (put_at m b ptr bs) (ptr + k) ltac:(lia) ltac:(lia) ltac:(lia) ltac:(lia)) as (m' & F & L). exists m'. split; [done|].
  intros b' o'. rewrite L, lookup_put_at, E. fold k. clear F L IH. set (n := rounded (end_ - (ptr + k)) k) in *. clearbody n.
  destruct (decide _) as [[-> I]|N1].
  - destruct (decide _) as [_|N2]; [|destruct N2; split; [done|lia]]. do 2 f_equal. replace (o' - ptr) with (o' - (ptr + k) + 1 * k) by lia. by rewrite Z.mod_add by lia.
  - destruct (decide _) as [[-> I]|N2].
    + destruct (decide _) as [_|N3]; [|destruct N3; split; [done|lia]]. do 2 f_equal. by rewrite Z.mod_small by lia.
    + destruct (decide _) as [[-> I]|N3]; [|done]. destruct (decide (o' < ptr + k)); [destruct N2; split; [done|lia]|destruct N1; split; [done|lia]].
Qed.

(** The pattern of a fill. *)
Definition fill_pattern (config : MemoryFillConfig) : list Z :=
  le_split (if fill_24bit config then 3 else if fill_32bit config then 4 else 2) (fill_value config).

Lemma addresses_valid src dst m k b o b' o' : GetPhysicalPointer src = Some (Some (b, o)) -> GetPhysicalPointer dst = Some (Some (b', o')) ->
  check_addresses src dst m k = k.
Proof.
  unfold check_addresses, GetPhysicalPointer, IsValidPhysicalAddress. intros E1 E2.
  destruct (GetPhysicalRef src) as [r1|]; [|done]. destruct (GetPhysicalRef dst) as [r2|]; [|done]. cbn in *. injection E1 as ->. by injection E2 as ->.
Qed.
Lemma DecodeAddressRegister_aligned v : DecodeAddressRegister v mod 8 = 0.
Proof. unfold DecodeAddressRegister, uwrap. modlia. Qed.

(** A fill repeats its pattern of two, three or four bytes from the start address on, as often as it takes to reach the end
    address, and changes no other byte. *)
Theorem MemoryFill_correct (config : MemoryFillConfig) m b o e : GetPhysicalPointer (GetStartAddress config) = Some (Some (b, o)) ->
  GetPhysicalPointer (GetEndAddress config) = Some (Some (b, e)) -> 0 <= o -> GetStartAddress config < GetEndAddress config ->
  e - o = GetEndAddress config - GetStartAddress config ->
  let k := Z.of_nat (length (fill_pattern config)) in
  o + rounded (e - o) k <= backing_size b ->
  ∃ m', MemoryFill config m = Some m' ∧ ∀ b' o', m' !! (b', o') =
    if decide (b' = b ∧ o <= o' < o + rounded (e - o) k) then fill_pattern config !! Z.to_nat ((o' - o) mod k) else m !! (b', o').
Proof.
  intros E1 E2 Ho Hlt Hd k Hs. unfold MemoryFill. cbv zeta. rewrite (addresses_valid _ _ _ _ _ _ _ _ E1 E2). destruct (Z.leb_spec (GetEndAddress config) (GetStartAddress config)); [lia|]. rewrite E1, E2. cbn [mbind option_bind].
  rewrite decide_True by done. pose proof (DecodeAddressRegister_aligned (address_end config)) as A1. pose proof (DecodeAddressRegister_aligned (address_start config)) as A2.
  fold (GetEndAddress config) in A1. fold (GetStartAddress config) in A2.
  assert (W : (e - o) / 4 * 4 = e - o) by (rewrite Hd; modlia). unfold fill_pattern in *. subst k.
  destruct (fill_24bit config); [|destruct (fill_32bit config)];
    match goal with |- context [fill_to ?f m b o _ (le_split ?n ?v)] =>
      pose proof (fill_to_spec f m b o e (le_split n v)) as P end;
    rewrite !length_le_split in P; rewrite ?length_le_split in *; rewrite ?W; replace (o + (e - o)) with e by lia; apply P; lia.
Qed.

(** ** What a copy writes *)

(** The place of byte [i] in lines of [width] bytes with a gap behind each. *)
Definition line_place (width gap i : Z) : Z := i + i / width * gap.

Lemma line_place_run width gap i j : 0 < width -> 0 <= j < width - i mod width -> line_place width gap (i + j) = line_place width gap i + j.
Proof.
  intros Hw Hj. unfold line_place. pose proof (Z.div_mod i width ltac:(lia)) as E. pose proof (Z.mod_pos_bound i width Hw).
  assert ((i + j) / width = i / width) as ->; [|lia]. symmetry. apply (Z.div_unique_pos _ _ _ (i mod width + j)); lia.
Qed.
Lemma line_place_end width gap i c : 0 < width -> c = width - i mod width -> line_place width gap (i + c) = line_place width gap i + c + gap ∧ (i + c) mod width = 0.
Proof.
  intros Hw ->. unfold line_place. pose proof (Z.div_mod i width ltac:(lia)) as E.
  assert (F : i + (width - i mod width) = (i / width + 1) * width) by nia. rewrite F at 2. rewrite Z.div_mul by lia. split; [nia|]. rewrite F. by apply Z.mod_mul; lia.
Qed.
Lemma line_mod_run width i c : 0 < width -> 0 <= c < width - i mod width -> (i + c) mod width = i mod width + c.
Proof.
  intros Hw Hc. pose proof (Z.div_mod i width ltac:(lia)) as E. pose proof (Z.mod_pos_bound i width Hw).
  symmetry. apply (Z.mod_unique_pos _ _ (i / width)); lia.
Qed.

(** One side of the loop: pointer and remaining bytes of the line after [n] bytes. *)
Lemma line_next width gap o n c rest ptr : 0 < width -> 0 < c <= width - n mod width -> rest = width - n mod width -> ptr = o + line_place width gap n ->
  (if rest - c =? 0 then (width, ptr + c + gap) else (rest - c, ptr + c)) = (width - (n + c) mod width, o + line_place width gap (n + c)).
Proof.
  intros Hw Hc -> ->. destruct (Z.eqb_spec (width - n mod width - c) 0) as [E|E].
  - destruct (line_place_end width gap n c Hw ltac:(lia)) as [-> ->]. f_equal; lia.
  - rewrite line_mod_run, line_place_run by lia. f_equal; lia.
Qed.

Lemma lookup_bytes_at m b o n i : (i < n)%nat -> bytes_at m b o n !! i = Some (byte_at m b (o + Z.of_nat i)).
Proof. intros H. unfold bytes_at. rewrite list_lookup_fmap, lookup_seq_lt by done. done. Qed.

Section copied.
Context (m0 : Bytes) (sb db : Backing) (so do iw ow ig og total : Z).
Context (Hiw : 0 < iw ∧ iw mod 16 = 0) (How : 0 < ow ∧ ow mod 16 = 0) (Hig : 0 <= ig) (Hog : 0 <= og) (Ht : 0 <= total < 2 ^ 32 ∧ total mod 16 = 0).
Context (Sin : 0 <= so) (Send : ∀ i, 0 <= i < total -> so + line_place iw ig i < backing_size sb).
Context (Din : 0 <= do) (Dend : ∀ i, 0 <= i < total -> do + line_place ow og i < backing_size db).
(** The bytes read and the bytes written are apart. *)
Context (Apart : ∀ i j, 0 <= i < total -> 0 <= j < total -> sb ≠ db ∨ so + line_place iw ig i ≠ do + line_place ow og j).

(** The memory after [n] bytes. *)
Definition copied_to (n : Z) m : Prop := ∀ b o,
  (∀ i, 0 <= i < n -> (b, o) = (db, do + line_place ow og i) -> byte_at m b o = byte_at m0 sb (so + line_place iw ig i)) ∧
  ((∀ i, 0 <= i < n -> (b, o) ≠ (db, do + line_place ow og i)) -> byte_at m b o = byte_at m0 b o).

Definition copy_inv (s : CopyState) : Prop := ∃ n, 0 <= n <= total ∧ n mod 16 = 0 ∧ remaining_size s = total - n ∧
  remaining_input s = iw - n mod iw ∧ remaining_output s = ow - n mod ow ∧
  src_ptr s = so + line_place iw ig n ∧ dst_ptr s = do + line_place ow og n ∧ copied_to n (cs_mem s).

Lemma line_place_nonneg w g i : 0 < w -> 0 <= g -> 0 <= i -> i <= line_place w g i.
Proof. intros. unfold line_place. assert (0 <= i / w) by (apply Z.div_pos; lia). nia. Qed.
Lemma line_place_inj w g i j : 0 < w -> 0 <= g -> 0 <= i -> 0 <= j -> line_place w g i = line_place w g j -> i = j.
Proof.
  intros Hw Hg Hi Hj E. unfold line_place in E. destruct (Z.lt_trichotomy i j) as [L|[L|L]]; [|done|].
  - assert (i / w <= j / w) by (apply Z.div_le_mono; lia). nia.
  - assert (j / w <= i / w) by (apply Z.div_le_mono; lia). nia.
Qed.
Lemma mod16 a w : 0 < w -> w mod 16 = 0 -> a mod 16 = 0 -> (a mod w) mod 16 = 0.
Proof.
  intros Hw H1 H2. apply Z.mod_divide in H1 as [p ->]; [|done]. apply Z.mod_divide in H2 as [q ->]; [|done].
  rewrite Z.mul_mod_distr_r by lia. apply Z.mod_mul. done.
Qed.

Lemma byte_at_put_at m b o bs b' o' : byte_at (put_at m b o bs) b' o' =
  if decide (b' = b ∧ o <= o' < o + Z.of_nat (length bs)) then default 0 (bs !! Z.to_nat (o' - o)) else byte_at m b' o'.
Proof. unfold byte_at. rewrite lookup_put_at. by destruct (decide _). Qed.

(** A run of [c] bytes inside of a line of both sides. *)
Lemma copied_run n c m : 0 <= n -> 0 < c -> n + c <= total -> c <= iw - n mod iw -> c <= ow - n mod ow -> copied_to n m ->
  copied_to (n + c) (put_at m db (do + line_place ow og n) (bytes_at m sb (so + line_place iw ig n) (Z.to_nat c))).
Proof.
  intros Hn Hc Hl Hi Ho C b o. rewrite byte_at_put_at, length_bytes_at, Z2Nat.id by lia.
  assert (Run : ∀ j, 0 <= j < c -> line_place ow og (n + j) = line_place ow og n + j ∧ line_place iw ig (n + j) = line_place iw ig n + j).
  { intros j Hj. pose proof (Z.mod_pos_bound n ow ltac:(lia)). pose proof (Z.mod_pos_bound n iw ltac:(lia)). split; apply line_place_run; lia. }
  split.
  - intros i Hi' [= -> ->]. destruct (Z.lt_ge_cases i n) as [L|L].
    + destruct (decide _) as [[_ I]|_]; [|apply (proj1 (C _ _) i); [lia|done]]. exfalso.
      set (j := do + line_place ow og i - (do + line_place ow og n)) in *. destruct (Run j ltac:(lia)) as [E _].
      assert (i = n + j); [|lia]. apply (line_place_inj ow og); lia.
    + destruct (Run (i - n) ltac:(lia)) as [E1 E2]. replace (n + (i - n)) with i in E1, E2 by lia. rewrite E1, E2.
      destruct (decide _) as [_|N]; [|destruct N; split; [done|lia]].
      replace (do + (line_place ow og n + (i - n)) - (do + line_place ow og n)) with (i - n) by lia.
      rewrite lookup_bytes_at by lia. cbn [default]. rewrite Z2Nat.id by lia.
      replace (so + (line_place iw ig n + (i - n))) with (so + line_place iw ig n + (i - n)) by lia.
      apply (proj2 (C _ _)). intros k Hk E. injection E as Es Eo. destruct (Apart i k ltac:(lia) ltac:(lia)) as [|A]; [done|]. apply A. rewrite E2. lia.
  - intros N. destruct (decide _) as [[-> I]|_].
    + exfalso. set (j := o - (do + line_place ow og n)) in *. destruct (Run j ltac:(lia)) as [E _]. apply (N (n + j) ltac:(lia)). f_equal. lia.
    + apply (proj2 (C _ _)). intros i Hi'. apply N. lia.
Qed.

Lemma copy_step_ok s : copy_inv s -> match copy_step sb db iw ow ig og s with
  | inl s' => copy_inv s' ∧ 0 <= remaining_size s' / 16 < remaining_size s / 16
  | inr r => ∃ m', r = Some m' ∧ copied_to total m' end.
Proof.
  intros (n & Hn & Hm & Er & Ei & Eo & Es & Ed & C). unfold copy_step. destruct (Z.ltb_spec 0 (remaining_size s)); cycle 1.
  { exists (cs_mem s). split; [done|]. by replace total with n by lia. }
  pose proof (Z.mod_pos_bound n iw ltac:(lia)) as B1. pose proof (Z.mod_pos_bound n ow ltac:(lia)) as B2.
  pose proof (mod16 n iw ltac:(lia) ltac:(lia) Hm) as M1. pose proof (mod16 n ow ltac:(lia) ltac:(lia) Hm) as M2.
  set (c := Z.min (Z.min (remaining_input s) (remaining_output s)) (remaining_size s)).
  assert (Hc : 0 < c ∧ c <= iw - n mod iw ∧ c <= ow - n mod ow ∧ n + c <= total) by lia.
  assert (Mc : c mod 16 = 0).
  { assert (c = remaining_input s ∨ c = remaining_output s ∨ c = remaining_size s) as [->|[->| ->]] by lia; rewrite ?Er, ?Ei, ?Eo;
      [clear -Hiw M1|clear -How M2|clear -Ht Hm]; modlia. }
  clearbody c. destruct Hc as (C0 & C1 & C2 & C3). rewrite Es, Ed.
  pose proof (line_place_nonneg iw ig n ltac:(lia) Hig ltac:(lia)) as P1. pose proof (line_place_nonneg ow og n ltac:(lia) Hog ltac:(lia)) as P2.
  assert (L1 : so + line_place iw ig n + c <= backing_size sb).
  { pose proof (Send (n + (c - 1)) ltac:(lia)) as T. rewrite line_place_run in T by lia. lia. }
  assert (L2 : do + line_place ow og n + c <= backing_size db).
  { pose proof (Dend (n + (c - 1)) ltac:(lia)) as T. rewrite line_place_run in T by lia. lia. }
  unfold load. cbn [mbind option_bind]. rewrite (proj2 (in_block_spec sb _ _)) by lia. cbn [mbind option_bind].
  rewrite store_in by (rewrite ?length_bytes_at; lia). rewrite Ei, Eo.
  rewrite (line_next iw ig so n c) by lia. rewrite (line_next ow og do n c) by lia. cbn [remaining_size].
  split.
  - exists (n + c). cbn [remaining_size remaining_input remaining_output src_ptr dst_ptr cs_mem]. split_and!; try lia.
    + clear -Hm Mc. modlia.
    + apply copied_run; done || lia.
  - rewrite Er. split; [apply Z.div_pos; lia|]. clear -C0 Mc Ht Hm C3. modlia.
Qed.

Lemma copy_loop m : m = m0 -> copy_inv (mk_CopyState m so do iw ow total).
Proof.
  intros ->. exists 0. cbn. unfold line_place. rewrite !Z.mod_0_l, !Z.div_0_l by lia. split_and!; try done; try lia.
  intros b o. split; [lia|done].
Qed.
Lemma copy_all : ∃ m', copy_lines sb db iw ow ig og (mk_CopyState m0 so do iw ow total) = Some m' ∧ copied_to total m'.
Proof.
  unfold copy_lines.
  destruct (loop_total (copy_step sb db iw ow ig og) copy_inv (fun r => ∃ m', r = Some m' ∧ copied_to total m') (fun s => remaining_size s / 16) copy_step_ok 29
    (mk_CopyState m0 so do iw ow total) (copy_loop m0 eq_refl)) as (r & E & m' & -> & C).
  - cbn [remaining_size]. modlia.
  - exists m'. rewrite E. by split.
Qed.
End copied.

(** What the registers of a copy say. *)
Definition copy_total (config : TextureCopyConfig) : Z := tc_size config - tc_size config mod 16.
Definition copy_width (config : TextureCopyConfig) (width gap : Z) : Z := if gap * 16 =? 0 then copy_total config else width * 16.
Record copy_ok (config : TextureCopyConfig) (sb db : Backing) (so do : Z) : Prop := mk_copy_ok {
  co_size : in_range 32 (tc_size config) ∧ 16 <= tc_size config;
  co_fields : 0 <= tc_input_gap config ∧ 0 <= tc_output_gap config;
  co_input : 0 < copy_width config (tc_input_width config) (tc_input_gap config);
  co_output : 0 < copy_width config (tc_output_width config) (tc_output_gap config);
  co_src : GetPhysicalPointer (DecodeAddressRegister (tc_input_address config)) = Some (Some (sb, so)) ∧ 0 <= so;
  co_dst : GetPhysicalPointer (DecodeAddressRegister (tc_output_address config)) = Some (Some (db, do)) ∧ 0 <= do
}.
(** The places of byte [i] of a copy. *)
Definition copy_src (config : TextureCopyConfig) (so i : Z) : Z :=
  so + line_place (copy_width config (tc_input_width config) (tc_input_gap config)) (tc_input_gap config * 16) i.
Definition copy_dst (config : TextureCopyConfig) (do i : Z) : Z :=
  do + line_place (copy_width config (tc_output_width config) (tc_output_gap config)) (tc_output_gap config * 16) i.

Lemma copy_width_16 (config : TextureCopyConfig) w g : copy_width config w g mod 16 = 0.
Proof. unfold copy_width, copy_total. destruct (_ =? 0); [modlia|apply Z.mod_mul; lia]. Qed.

(** C28: A texture copy of places that lie in memory and do not overlap ends, and puts each byte of the lines of the source at its
    place in the lines of the destination; the gaps between the lines and all other bytes stay as they were. *)
Theorem TextureCopy_correct (config : TextureCopyConfig) m sb db so do : copy_ok config sb db so do ->
  (∀ i, 0 <= i < copy_total config -> copy_src config so i < backing_size sb ∧ copy_dst config do i < backing_size db) ->
  (∀ i j, 0 <= i < copy_total config -> 0 <= j < copy_total config -> sb ≠ db ∨ copy_src config so i ≠ copy_dst config do j) ->
  ∃ m', TextureCopy config m = Some m' ∧ ∀ b o,
    (∀ i, 0 <= i < copy_total config -> (b, o) = (db, copy_dst config do i) -> byte_at m' b o = byte_at m sb (copy_src config so i)) ∧
    ((∀ i, 0 <= i < copy_total config -> (b, o) ≠ (db, copy_dst config do i)) -> byte_at m' b o = byte_at m b o).
Proof.
  intros [[Sz S16] [G1 G2] Iw Ow [E1 Hs] [E2 Hd]] In Ap. unfold TextureCopy. cbv zeta. rewrite (addresses_valid _ _ _ _ _ _ _ _ E1 E2), E1, E2. cbn [mbind option_bind].
  fold (copy_total config). fold (copy_width config (tc_input_width config) (tc_input_gap config)). fold (copy_width config (tc_output_width config) (tc_output_gap config)).
  assert (T : 0 < copy_total config < 2 ^ 32 ∧ copy_total config mod 16 = 0) by (unfold copy_total, in_range in *; modlia).
  destruct (Z.eqb_spec (copy_total config) 0); [lia|]. destruct (Z.eqb_spec (copy_width config (tc_input_width config) (tc_input_gap config)) 0); [lia|].
  destruct (Z.eqb_spec (copy_width config (tc_output_width config) (tc_output_gap config)) 0); [lia|].
  destruct (copy_all m sb db so do (copy_width config (tc_input_width config) (tc_input_gap config)) (copy_width config (tc_output_width config) (tc_output_gap config))
    (tc_input_gap config * 16) (tc_output_gap config * 16) (copy_total config)) as (m' & E & C); try lia; try done.
  - split; [lia|by apply copy_width_16].
  - split; [lia|by apply copy_width_16].
  - intros i Hi. by apply In.
  - intros i Hi. by apply In.
  - exists m'. split; [exact E|exact C].
Qed.

(** ** What a transfer writes *)

Lemma DecodePixel_reads b o fmt s i : BytesPerPixel fmt = Some s -> reads (cell b o s i) (fun m => DecodePixel m fmt (Some (b, o + i * s))).
Proof.
  intros E. destruct fmt; cbn in E; simplify_eq; cbn [DecodePixel]; try apply reads_const; apply reads_fmap, reads_load; intros j Hj; unfold cell; cbn; split; (done || lia).
Qed.
Lemma DecodePixel_total m b o fmt s : BytesPerPixel fmt = Some s -> 0 <= o -> o + s <= backing_size b -> is_Some (DecodePixel m fmt (Some (b, o))).
Proof.
  intros E H1 H2. destruct fmt; cbn in E; simplify_eq; cbn [DecodePixel]; unfold load; cbn [mbind option_bind]; rewrite (proj2 (in_block_spec b o _)) by lia; by eexists.
Qed.
Lemma encode_pixel_length fmt s c : BytesPerPixel fmt = Some s -> Z.of_nat (length (encode_pixel fmt c)) = s ∧ 2 <= s <= 4.
Proof. intros E. destruct fmt; cbn in E; simplify_eq; cbn; unfold EncodeRGB565, EncodeRGB5A1, EncodeRGBA4; rewrite ?length_le_split; lia. Qed.

Section pixels.
Context (config : DisplayTransferConfig) (s d : Z) (sb db : Backing) (so do : Z) (src dst : Z * Z -> Z).
Context (Scale : scaling config = 0) (Es : BytesPerPixel (input_format config) = Some s) (Ed : BytesPerPixel (output_format config) = Some d).
Context (in_area out_area : Z) (m0 : Bytes).
Context (In : 0 <= so ∧ so + in_area * s <= backing_size sb) (Out : 0 <= do ∧ do + out_area * d <= backing_size db).
Context (Apart : sb ≠ db ∨ so + in_area * s <= do ∨ do + out_area * d <= so).

(** A point of the grid: its offsets, and places inside of both areas. *)
Definition point_ok (p : Z * Z) : Prop := transfer_offsets config s d p.1 p.2 = (src p * s, dst p * d) ∧ 0 <= src p < in_area ∧ 0 <= dst p < out_area.
Definition src_cell (p : Z * Z) : Places := cell sb so s (src p).
Definition dst_cell (p : Z * Z) : Places := cell db do d (dst p).

Lemma sizes : 2 <= s <= 4 ∧ 2 <= d <= 4.
Proof.
  destruct (encode_pixel_length _ _ (mk_Vec4 0 0 0 0) Es). by destruct (encode_pixel_length _ _ (mk_Vec4 0 0 0 0) Ed).
Qed.
Lemma src_dst_apart p q a : point_ok p -> point_ok q -> src_cell p a -> ¬ dst_cell q a.
Proof.
  intros (_ & I & _) (_ & _ & J) [H1 H2] [H3 H4]. pose proof sizes. destruct Apart as [N|N]; [congruence|]. nia.
Qed.
Lemma dst_cells_apart p q a : dst p ≠ dst q -> dst_cell p a -> ¬ dst_cell q a.
Proof. intros N [_ H1] [_ H2]. pose proof sizes. assert (dst p + 1 <= dst q ∨ dst q + 1 <= dst p) as [?|?] by lia; nia. Qed.

(** One pixel. *)
Lemma transfer_pixel_spec p m : point_ok p -> agree (src_cell p) m m0 ->
  ∃ c, DecodePixel m0 (input_format config) (Some (sb, so + src p * s)) = Some c ∧
    transfer_pixel config s d (Some (sb, so)) (Some (db, do)) m p.1 p.2 = Some (put_at m db (do + dst p * d) (encode_pixel (output_format config) c)).
Proof.
  intros (E & I & J) A. pose proof sizes as [S1 S2].
  destruct (DecodePixel_total m0 sb (so + src p * s) (input_format config) s Es ltac:(nia) ltac:(nia)) as [c Ec]. exists c. split; [done|].
  unfold transfer_pixel, transfer_color. rewrite E. cbn [ptr_add mbind option_bind]. rewrite Scale. cbn [Z.eqb Z.leb].
  rewrite (DecodePixel_reads sb so (input_format config) s (src p) Es m m0 A), Ec. cbn [mbind option_bind].
  destruct (encode_pixel_length _ _ c Ed) as [L _]. apply store_in; rewrite ?L; nia.
Qed.

Lemma transfer_pixels_spec ps m : Forall point_ok ps -> NoDup (dst <$> ps) -> (∀ p, point_ok p -> agree (src_cell p) m m0) ->
  ∃ m', transfer_pixels config s d (Some (sb, so)) (Some (db, do)) ps m = Some m' ∧
    (∀ p, p ∈ ps -> ∃ c, DecodePixel m0 (input_format config) (Some (sb, so + src p * s)) = Some c ∧
      load m' (Some (db, do + dst p * d)) (Z.to_nat d) = Some (encode_pixel (output_format config) c)) ∧
    ∀ a, (∀ p, p ∈ ps -> ¬ dst_cell p a) -> m' !! a = m !! a.
Proof.
  intros F. revert m. induction F as [|[x y] ps P F IH]; intros m N A; [exists m; split; [done|]; split; [by intros p ?%elem_of_nil|done]|].
  destruct (transfer_pixel_spec (x, y) m P (A _ P)) as (c & Ec & Et). rewrite fmap_cons in N. apply NoDup_cons in N as [Nx N]. cbn [transfer_pixels fst snd] in Et |- *. rewrite Et. cbn [mbind option_bind].
  destruct (encode_pixel_length _ _ c Ed) as [L Sd].
  set (m1 := put_at _ _ _ _). assert (K : ∀ a, ¬ dst_cell (x, y) a -> m1 !! a = m !! a).
  { intros [b o] Na. unfold m1. rewrite lookup_put_at. destruct (decide _) as [[-> I]|]; [|done]. destruct Na. unfold dst_cell, cell. cbn. split; [done|]. rewrite L in I. nia. }
  destruct (IH m1 N) as (m' & E & Lo & Un).
  { intros p Pp a Ha. rewrite K; [by apply (A p Pp)|]. by apply (src_dst_apart p). }
  exists m'. split; [done|]. split.
  - intros p [->|Hp]%elem_of_cons; [|by apply Lo]. exists c. split; [done|].
    transitivity (load m1 (Some (db, do + dst (x, y) * d)) (Z.to_nat d)).
    + apply (reads_load (dst_cell (x, y)) db _ (Z.to_nat d)).
      * intros j Hj. unfold dst_cell, cell. cbn. split; [done|lia].
      * intros a Ha. apply Un. intros q Hq. apply (dst_cells_apart (x, y)); [|done]. intros Eq. apply Nx. rewrite Eq. by apply list_elem_of_fmap_2.
    + destruct P as (_ & _ & J). unfold load, m1. cbn [mbind option_bind]. rewrite (proj2 (in_block_spec db _ _)) by (cbn in *; nia).
      replace (Z.to_nat d) with (length (encode_pixel (output_format config) c)) by lia. by rewrite bytes_at_put.
  - intros a Na. rewrite Un by (intros q Hq; apply Na; by apply elem_of_cons; right). apply K. apply Na. apply elem_of_cons. by left.
Qed.
End pixels.

(** Where the pixels of a transfer are, by its flags: in lines or in tiles. *)
Definition tiled_output config : bool := xorb (input_linear config) (dont_swizzle config).
Definition output_row config (y : Z) : Z := if flip_vertically config then output_height config - y - 1 else y.
Definition input_place config (p : Z * Z) : Z :=
  if input_linear config then p.1 + p.2 * input_width config else pixel_index (input_width config) p.1 p.2.
Definition output_place config (p : Z * Z) : Z :=
  if tiled_output config then pixel_index (output_width config) p.1 (output_row config p.2) else p.1 + output_row config p.2 * output_width config.
(** The pixels that lines or whole tiles take. *)
Definition area (tiled : bool) (width height : Z) : Z := if tiled then width * (8 * ((height - 1) / 8 + 1)) else width * height.

Record transfer_ok config (sb db : Backing) (so do s d : Z) : Prop := mk_transfer_ok {
  tr_plain : scaling config = 0 ∧ flip_vertically config && crop_input_lines config = false;
  tr_input : 0 < input_width config < 2 ^ 11 ∧ 0 < input_height config < 2 ^ 11 ∧ (input_linear config = false -> input_width config mod 8 = 0);
  tr_output : 0 < output_width config <= input_width config ∧ 0 < output_height config <= input_height config ∧
    (tiled_output config = true -> output_width config mod 8 = 0);
  tr_formats : BytesPerPixel (input_format config) = Some s ∧ BytesPerPixel (output_format config) = Some d;
  tr_src : GetPhysicalPointer (DecodeAddressRegister (input_address config)) = Some (Some (sb, so)) ∧ 0 <= so ∧
    so + area (negb (input_linear config)) (input_width config) (input_height config) * s <= backing_size sb;
  tr_dst : GetPhysicalPointer (DecodeAddressRegister (output_address config)) = Some (Some (db, do)) ∧ 0 <= do ∧
    do + area (tiled_output config) (output_width config) (output_height config) * d <= backing_size db;
  tr_apart : sb ≠ db ∨ so + area (negb (input_linear config)) (input_width config) (input_height config) * s <= do ∨
    do + area (tiled_output config) (output_width config) (output_height config) * d <= so
}.

Lemma linear_offset_exact width x y bpp : 0 <= x < 2 ^ 11 -> 0 <= y < 2 ^ 11 -> 0 <= width < 2 ^ 11 -> 0 <= bpp <= 4 -> linear_offset width x y bpp = (x + y * width) * bpp.
Proof.
  intros. unfold linear_offset. pow2. assert (0 <= y * width < 2 ^ 22) by (pow2; nia). rewrite (uwrap_id 32 (y * width)) by (unfold in_range; pow2; lia).
  rewrite (uwrap_id 32 (x + y * width)) by (unfold in_range; pow2; lia). apply uwrap_id. unfold in_range. pow2. nia.
Qed.
Lemma tiled_offset_exact width x y bpp : 0 <= x < 2 ^ 11 -> 0 <= y < 2 ^ 11 -> 0 <= width < 2 ^ 11 -> 0 <= bpp <= 4 -> tiled_offset width x y bpp = pixel_index width x y * bpp.
Proof.
  intros. unfold tiled_offset. pow2. rewrite align8 by (unfold in_range; pow2; lia). rewrite GetMortonOffset_value by (pow2; lia). pose proof (Morton_range x y) as M.
  assert (0 <= y / 8 < 2 ^ 8) by (pow2; modlia). assert (0 <= x / 8 < 2 ^ 8) by (pow2; modlia). pow2.
  rewrite (uwrap_id 32 (width * bpp)) by (unfold in_range; pow2; nia). assert (0 <= 8 * (y / 8) * width < 2 ^ 22) by (pow2; nia). pow2.
  rewrite (uwrap_id 32 (8 * (y / 8) * (width * bpp))) by (unfold in_range; pow2; nia). unfold pixel_index.
  set (k := MortonInterleave x y) in *. set (a := x / 8) in *. set (r := y / 8) in *. clearbody k a r.
  replace ((k + 64 * a) * bpp + 8 * r * (width * bpp)) with ((k + 64 * a + 8 * r * width) * bpp) by ring. apply uwrap_id. unfold in_range. pow2. nia.
Qed.

Section ok.
Context (config : DisplayTransferConfig) (sb db : Backing) (so do s d : Z) (K : transfer_ok config sb db so do s d).

Lemma scaled_sizes : scaled_width config = output_width config ∧ scaled_height config = output_height config.
Proof.
  destruct K as [[Sc _] _ _ _ _ _ _]. unfold scaled_width, scaled_height, horizontal_scale, vertical_scale. rewrite Sc. cbn [Z.eqb]. by rewrite !Z.shiftr_0_r.
Qed.
Lemma output_row_range y : 0 <= y < output_height config -> 0 <= output_row config y < output_height config.
Proof. unfold output_row. destruct (flip_vertically config); lia. Qed.

Lemma pixel_index_area width height x y : width mod 8 = 0 -> 0 <= x < width -> 0 <= y < height -> 0 <= pixel_index width x y < area true width height.
Proof.
  intros W Hx Hy. pose proof (pixel_index_bound width x y W Hx ltac:(lia)) as [? B]. split; [done|]. unfold area.
  assert (y / 8 <= (height - 1) / 8) by (apply Z.div_le_mono; lia). eapply Z.lt_le_trans; [exact B|]. apply Z.mul_le_mono_nonneg_l; lia.
Qed.
Lemma linear_area width height x y : 0 <= x < width -> 0 <= y < height -> 0 <= x + y * width < area false width height.
Proof. unfold area. nia. Qed.

Lemma grid_point x y : 0 <= x < output_width config -> 0 <= y < output_height config ->
  point_ok config s d (input_place config) (output_place config) (area (negb (input_linear config)) (input_width config) (input_height config))
    (area (tiled_output config) (output_width config) (output_height config)) (x, y).
Proof.
  intros Hx Hy. pose proof (output_row_range y Hy) as Hr. pose proof scaled_sizes as [Sw Sh].
  destruct K as [[Sc _] (Iw & Ih & It) (Ow & Oh & Ot) [Fs Fd] _ _ _]. destruct (encode_pixel_length _ _ (mk_Vec4 0 0 0 0) Fs) as [_ B1]. destruct (encode_pixel_length _ _ (mk_Vec4 0 0 0 0) Fd) as [_ B2].
  assert (E : ∀ v, 0 <= v < 2 ^ 11 -> u32 (v ≪ 0) = v) by (intros v Hv; rewrite Z.shiftl_0_r; apply uwrap_id; unfold in_range; pow2; lia). pow2.
  unfold point_ok. cbn [fst snd]. split.
  - unfold transfer_offsets, horizontal_scale, vertical_scale. rewrite Sw, Sh, Sc. cbn [Z.eqb]. rewrite !E by lia. fold (output_row config y).
    unfold input_place, output_place, tiled_output. cbn [fst snd]. set (row := output_row config y) in *. clearbody row.
    destruct (input_linear config), (dont_swizzle config); cbn [negb xorb]; rewrite ?linear_offset_exact, ?tiled_offset_exact by (pow2; lia); done.
  - unfold input_place, output_place. cbn [fst snd]. split.
    + destruct (input_linear config); cbn [negb]; [apply linear_area; lia|apply pixel_index_area; [by apply It|lia|lia]].
    + destruct (tiled_output config); [apply pixel_index_area; [by apply Ot|lia|lia]|apply linear_area; lia].
Qed.
Lemma output_place_inj x y x' y' : 0 <= x < output_width config -> 0 <= y < output_height config -> 0 <= x' < output_width config -> 0 <= y' < output_height config ->
  output_place config (x, y) = output_place config (x', y') -> (x, y) = (x', y').
Proof.
  intros Hx Hy Hx' Hy'. pose proof (output_row_range y Hy) as R. pose proof (output_row_range y' Hy') as R'. destruct K as [_ _ (Ow & Oh & Ot) _ _ _ _].
  assert (Row : output_row config y = output_row config y' -> y = y') by (unfold output_row; destruct (flip_vertically config); lia).
  unfold output_place. cbn [fst snd]. destruct (tiled_output config); intros E.
  - destruct (pixel_index_inj (output_width config) x (output_row config y) x' (output_row config y') (Ot eq_refl) Hx Hx' ltac:(lia) ltac:(lia) E) as [-> W]. by rewrite (Row W).
  - assert (output_row config y = output_row config y') as W by nia. rewrite W in E. rewrite (Row W). f_equal. lia.
Qed.
Lemma elem_of_grid x y : (x, y) ∈ transfer_grid config <-> 0 <= x < output_width config ∧ 0 <= y < output_height config.
Proof.
  unfold transfer_grid. destruct scaled_sizes as [-> ->]. rewrite list_elem_of_bind. setoid_rewrite list_elem_of_bind. setoid_rewrite list_elem_of_singleton. setoid_rewrite elem_of_seqZ.
  split; [intros (y' & (x' & [= -> ->] & ?) & ?); lia|]. intros [? ?]. exists y. split; [|lia]. exists x. split; [done|lia].
Qed.
Lemma grid_NoDup : NoDup (transfer_grid config).
Proof.
  unfold transfer_grid. generalize (seqZ 0 (scaled_width config)) (NoDup_seqZ 0 (scaled_width config)). intros xs Nx.
  pose proof (NoDup_seqZ 0 (scaled_height config)) as Ny. induction Ny as [|y ys NI Ny IH]; [constructor|]. cbn. apply NoDup_app. split; [|split; [|done]].
  - clear IH. induction Nx as [|x xs NIx Nx IH]; [constructor|]. cbn. constructor; [|done]. intros (x' & [= ->]%list_elem_of_singleton & ?)%list_elem_of_bind. done.
  - intros p (x & ->%list_elem_of_singleton & _)%list_elem_of_bind (y' & (x' & [= -> ->]%list_elem_of_singleton & _)%list_elem_of_bind & ?)%list_elem_of_bind. done.
Qed.
End ok.


(** ** Examples *)

(** Sixteen bytes of lines of eight by two pixels, tiled, into lines of another format. *)
Definition small_transfer (flip : bool) : DisplayTransferConfig :=
  mk_DisplayTransferConfig (0x18000000 / 8) (0x18001000 / 8) 8 8 8 8 flip false false false ColorFormat.RGBA8 ColorFormat.RGB565 0.
Definition red_pixel : Bytes := put_at ∅ VRAM (5 * 4) (EncodeRGBA8 (mk_Vec4 255 0 0 255)).

(** Two lines of sixteen bytes, with a gap between them only in the source. *)
Definition small_copy : TextureCopyConfig := mk_TextureCopyConfig (0x18000000 / 8) (0x20000000 / 8) 35 1 1 0 0.
Lemma TextureCopy_correct_witness : ∃ m', TextureCopy small_copy (put_at ∅ VRAM 32 [7]) = Some m' ∧ byte_at m' FCRAM 16 = 7.
Proof.
  destruct (TextureCopy_correct small_copy (put_at ∅ VRAM 32 [7]) VRAM FCRAM 0 0 ltac:(split; by_decide)) as (m' & E & P).
  - intros i Hi. change (copy_total small_copy) with 32 in Hi. change (backing_size VRAM) with 0x600000. change (backing_size FCRAM) with 0x10000000.
    unfold copy_src, copy_dst, line_place. change (copy_width small_copy (tc_input_width small_copy) (tc_input_gap small_copy)) with 16.
    change (copy_width small_copy (tc_output_width small_copy) (tc_output_gap small_copy)) with 32. cbn [tc_input_gap tc_output_gap small_copy]. modlia.
  - intros. by left.
  - exists m'. split; [exact E|]. exact (proj1 (P FCRAM 16) 16 ltac:(vm_compute; split; congruence) eq_refl).
Defined.

(** Eight bytes are filled with three bytes at a time: a ninth is overwritten. *)
Definition small_fill : MemoryFillConfig := mk_MemoryFillConfig (0x18000000 / 8) (0x18000008 / 8) 0x332211 true false.
Lemma MemoryFill_correct_witness : ∃ m', MemoryFill small_fill ∅ = Some m' ∧ m' !! (VRAM, 8) = Some 0x33 ∧ m' !! (VRAM, 9) = None.
Proof.
  destruct (MemoryFill_correct small_fill ∅ VRAM 0 8 ltac:(by_decide) ltac:(by_decide) ltac:(by_decide) ltac:(by_decide) ltac:(by_decide) ltac:(by_decide)) as (m' & E & P).
  exists m'. split; [exact E|]. split; rewrite P; vm_compute; reflexivity.
Defined.
